(* ===== verification/_CoqProject ===== *)
-Q . S2P
Prelude.v
PhysMem.v
Paging.v
PagingProofs.v
Ctype.v
Stdio.v
StdioProofs.v
Time.v
TimeProofs.v
Scanf.v
ScanfProofs.v
Liballoc.v
LiballocChains.v
LiballocProofs.v
LiballocFree.v
Heap.v
Locks.v
Unicode.v
FsUtil.v
Drives.v
DrivesProofs.v
Vfs.v
Streams.v
Directory.v
DirectoryProofs.v
BlockStore.v
Fat.v
FatProofs.v
FatVolume.v
FatDir.v
FatDirProofs.v
FatCreate.v
FatDisk.v
Hash.v
Cstring.v
Ext2.v
Ext2Proofs.v
Ext2Alloc.v
Ext2Volume.v
Ext2Dir.v
Iso9660.v
Iso9660Proofs.v
Rdfs.v
Mbr.v
Terminal.v
TerminalProofs.v
Elf.v
ElfProofs.v
Tasks.v
TasksProofs.v
Input.v
SharedMem.v
StdioFile.v
Edit.v
EditProofs.v
EditFiles.v
Cmos.v
Acpi.v
Ports.v
Pci.v
Interrupt.v
Ata.v
AtaProofs.v
Algorithm.v
Shell.v
ShellProofs.v
Display.v
DisplayProofs.v
Vga.v
VgaProofs.v
IsaDma.v
IsaDmaProofs.v
Floppy.v
FloppyProofs.v
Vesa.v
ByteView.v
VesaProofs.v
Ahci.v
AhciProofs.v
