(* ===== verification/Prelude.v ===== *)
(** * JSD/OS verification library

    JSD/OS is a 32-bit kernel for the PC with its own C library, file systems and
    applications (sources under src/, C++ with some C and assembly).  This library
    models the parts of it that compute: definitions that follow the code function by
    function, and theorems about them.

    ** How the code is modelled

    - A function is a Definition or Fixpoint with the name it has in the source; parts of
      a long function (a loop, a branch) have names of their own next to it.
    - Effects are explicit: state goes in and comes out, and [outcome] (this file) says
      that the code went wrong: a failed assertion, an access outside an object or
      through an unmapped page, a lock that is never granted.  [Fault OutOfFuel] is the
      one fault the code does not have: a loop that is not structural carries fuel, and
      the theorems show that the fuel given is enough (the length of a string, the number
      of clusters of a volume, the bytes of a directory, the free blocks of the memory
      table), so that a loop proved to return [Ok] terminates in the code.
    - Integers are [Z] with the width of the source written out ([u32], [add32], [s32],
      ...): the target has 32-bit words, [file_size_t] and [time_t] are 64 bits wide.
    - Code that is not in the repository, and hardware, is a parameter: the page source of
      the heap, the disk drivers ([Drives.disk_driver]), the display, the clock.  Their
      laws are type classes, each with a concrete instance for the examples.

    ** The parts and their files

    - Memory.  PhysMem: the table of free physical memory (kernel/physical_manager.cpp).
      Paging, PagingProofs: page directories and tables, mapping, lazy allocation and
      faults (kernel/memorymanager.cpp), on top of it.  Liballoc, LiballocChains,
      LiballocProofs, LiballocFree, Heap: malloc and its kin (clib/liballoc.cpp) on a
      source of pages.
    - C library.  Ctype (clib/ctype.c, stdlib.cpp), Stdio and StdioProofs (clib/stdio.cpp:
      the formatter), Scanf and ScanfProofs (clib/scanf.cpp), Time and TimeProofs
      (clib/time.cpp, kernel/sysclock.cpp), Cstring (clib/string.c).
    - Concurrency.  Locks: the kernel's mutexes, shared and upgradable mutexes
      (kernel/locks.cpp, locks.h) as a step relation over any number of tasks.
    - Data structures.  Hash (kernel/util/hash.h), Unicode (kernel/util/unicode.h).
    - File system layer.  FsUtil (filesystem/util.h), Drives and DrivesProofs: the block
      cache (filesystem/drives.cpp), Vfs: drives, drivers and mounting, Streams
      (filesystem/streams.cpp), Directory and DirectoryProofs (filesystem/directory.cpp),
      Mbr: partition tables (drivers/formats/mbr.cpp).
    - File systems, against the interface BlockStore (the drive they are on).  FAT: Fat
      (clusters and files), FatDir (directories), with FatProofs, FatVolume, FatDirProofs,
      FatCreate; ext2: Ext2 with Ext2Proofs, Ext2Alloc, Ext2Volume, Ext2Dir; Iso9660 and
      Iso9660Proofs; Rdfs.  FatDisk puts a FAT volume on the block cache: the interface's
      laws are proved of the cache, so what is proved of the drivers holds over it.
    - Kernel.  Elf and ElfProofs: the loader and the relocations (kernel/elf.cpp) over the
      hash map.  Tasks and TasksProofs: tasks, processes and the scheduler
      (kernel/task.cpp), with a switch split into the steps that other processors come
      between.  SharedMem: shared buffers
      (kernel/shared_mem.cpp).  Input: the queue of events, keyboard and mouse
      (kernel/input.cpp, drivers/at_kbrd.cpp, ps2mouse.cpp).  Interrupt: the descriptor
      table and the two interrupt controllers (kernel/interrupt.cpp); Display and
      DisplayProofs: the choice of modes and the kernel's own terminal
      (kernel/display.cpp), over the class of display drivers.
    - Devices.  Ports is the interface of the drivers to the machine (drivers/portio.h): a
      driver is a function of what the ports answer, and the laws of its device are a
      class next to it.  Cmos: the clock chip (drivers/cmos.cpp), Acpi: the tables of
      processors (drivers/cpu/madt.cpp, mp_table.cpp), Pci: the bus (drivers/pci.cpp), Ata
      and AtaProofs: disks (drivers/ata.cpp), Vga and VgaProofs: the VGA card, its modes and
      fonts (drivers/display/vga), as a driver of Display, Vesa and VesaProofs: the BIOS of
      the card behind an x86 emulator (drivers/display/vesa), IsaDma and IsaDmaProofs: DMA
      buffers and transfers (drivers/isa_dma.cpp), Floppy and FloppyProofs: floppy disks
      (drivers/floppy.cpp) on top of them, Ahci and AhciProofs: SATA disks
      (drivers/ahci.cpp).  ByteView has memory as a function, for devices that read it.
    - Programs.  Terminal and TerminalProofs (api/terminal/terminal.cpp); StdioFile: files
      of the C library (clib/stdio.cpp) over the system calls; Edit, EditProofs and
      EditFiles: the editor (apps/edit.cpp); Algorithm: sorting and searching of the C++
      library (cpplib/include/algorithm); Shell and ShellProofs (shell/shell.cpp,
      commands.cpp).  The programs run on the terminal model, so that what they show is
      proved down to the cells of the screen.

    ** What the theorems show

    - Allocation is sound and complete: the physical allocator, the heap, FAT clusters and
      ext2 blocks hand out what was free, mark exactly that, and give it back; every
      reachable state of the two memory allocators is a partition.
    - Storage refines plain bytes: the block cache is one array of bytes, a file of FAT,
      ext2 or ISO 9660 is a sequence of bytes that reading and writing agree on, and the
      page tables are the translation the processor makes of them.
    - Formats round trip: directories read back what creating a file wrote, Unicode
      transcodings invert each other, and so on.
    - Library functions agree with reference definitions (printf with a denotational
      renderer, mktime with a calendar counted day by day, the hash map with a finite
      map, the terminal with a roll of paper).
    - Locks exclude and do not deadlock, except where the code does ([upgrade]); no two
      processors run the same task, whatever step of a switch the others are at.
    - Drivers do what their device's standard says: every delay ends, a transfer moves
      exactly the sectors that were asked for, an interrupt enters the handler that was
      installed last, a scan finds every device once.
    - What is typed is edited: the editor and the shell change their text as one long text
      with a place in it, and the screen shows it.
    - Where the code does not do what it means to, an Example or theorem runs the model to
      the wrong result; these are the findings of the manifest.  A theorem that such a
      place limits says so in its comment, with the line of the code.

    ** Not modelled, and why

    Context switching, interrupt entry and boot are assembly or depend on it, and the
    programming of the processor's own registers has no effect that a program sees.  The
    x86 emulator of the VESA driver is third-party code: Vesa has it as a parameter.  Of the
    C++ library the parts are modelled that compute; the rest is used with the meaning of
    the standard library, and handles that go out of scope are released without an effect.  Messages that drivers
    print are left out, and so are delays by the clock. *)
From Stdlib Require Export ZArith Lia Bool.
From stdpp Require Export base tactics relations numbers option list.
#[export] Set Default Proof Using "Type".
#[global] Open Scope Z_scope.

(** ** Faults and the outcome monad

    The code stops at a failed [k_assert]/[assert], and has undefined behaviour
    when it indexes outside an object or uses one that was freed; an access through an unmapped virtual
    address traps; a second acquisition of a held lock never returns.  Each is a
    value of [fault]; loops that are not structural
    carry fuel, whose exhaustion is a fault of its own, so that every termination
    claim is a theorem that [Fault OutOfFuel] is not returned. *)
Inductive fault := AssertFailed | OutOfBounds | PageFault | UseAfterFree | Deadlock | OutOfFuel.

Inductive outcome (A : Type) : Type :=
| Ok (a : A)
| Fault (f : fault).
Arguments Ok {A} a.
Arguments Fault {A} f.

#[export] Instance fault_eq_dec : EqDecision fault.
Proof. solve_decision. Defined.
#[export] Instance outcome_eq_dec {A} `{EqDecision A} : EqDecision (outcome A).
Proof. solve_decision. Defined.

#[export] Instance outcome_ret : MRet outcome := fun A a => Ok a.
#[export] Instance outcome_bind : MBind outcome := fun A B f m =>
  match m with Ok a => f a | Fault e => Fault e end.
#[export] Instance outcome_fmap : FMap outcome := fun A B f m =>
  match m with Ok a => Ok (f a) | Fault e => Fault e end.

(** [k_assert(b)] and [assert(b)]. *)
Definition k_assert (b : bool) : outcome unit :=
  if b then Ok tt else Fault AssertFailed.

(** ** State passing with faults *)
Definition st (S A : Type) : Type := S -> outcome (A * S).
#[export] Instance st_ret {S} : MRet (st S) := fun A a s => Ok (a, s).
#[export] Instance st_bind {S} : MBind (st S) := fun A B f m s =>
  match m s with Ok (a, s') => f a s' | Fault e => Fault e end.
Definition st_get {S} : st S S := fun s => Ok (s, s).
Definition st_put {S} (s : S) : st S unit := fun _ => Ok (tt, s).
Definition st_gets {S A} (f : S -> A) : st S A := fun s => Ok (f s, s).
Definition st_modify {S} (f : S -> S) : st S unit := fun s => Ok (tt, f s).
Definition st_lift {S A} (o : outcome A) : st S A := fun s =>
  match o with Ok a => Ok (a, s) | Fault e => Fault e end.

Lemma st_bind_Ok {S A B} (m : st S A) (f : A -> st S B) s a s' :
  m s = Ok (a, s') -> (m ≫= f) s = f a s'.
Proof. unfold mbind, st_bind. now intros ->. Qed.

Lemma st_bind_Fault {S A B} (m : st S A) (f : A -> st S B) s e :
  m s = Fault e -> (m ≫= f) s = Fault e.
Proof. unfold mbind, st_bind. now intros ->. Qed.

(** A checked array read. *)
Definition fetch {A} (l : list A) (i : Z) : outcome A :=
  if decide (0 <= i) then
    match l !! Z.to_nat i with Some x => Ok x | None => Fault OutOfBounds end
  else Fault OutOfBounds.

(** A checked array write. *)
Definition store {A} (l : list A) (i : Z) (x : A) : outcome (list A) :=
  if decide (0 <= i < Z.of_nat (length l)) then Ok (<[Z.to_nat i := x]> l)
  else Fault OutOfBounds.

(** ** Machine words: [size_t], [uintptr_t] and [uint32_t] are 32 bits wide on
    the target (i386), [file_size_t] and [fs_index] are 32- or 64-bit words as
    each file states. *)
Definition wrap (w z : Z) : Z := z mod 2 ^ w.
Definition u8 (z : Z) : Z := wrap 8 z.
Definition u16 (z : Z) : Z := wrap 16 z.
Definition u32 (z : Z) : Z := wrap 32 z.
Definition u64 (z : Z) : Z := wrap 64 z.
Definition add32 (a b : Z) : Z := u32 (a + b).
Definition sub32 (a b : Z) : Z := u32 (a - b).
Definition mul32 (a b : Z) : Z := u32 (a * b).
Definition shl32 (a n : Z) : Z := u32 (Z.shiftl a n).
Definition not32 (a : Z) : Z := 2 ^ 32 - 1 - a.
(** Conversion to a signed w-bit type (two's complement). *)
Definition swrap (w z : Z) : Z :=
  let r := z mod 2 ^ w in if r <? 2 ^ (w - 1) then r else r - 2 ^ w.
Definition s8 (z : Z) : Z := swrap 8 z.
Definition s32 (z : Z) : Z := swrap 32 z.
Definition is_u32 (z : Z) : Prop := 0 <= z < 2 ^ 32.

(** [x & mask] as a condition. *)
Definition has (x mask : Z) : bool := negb (Z.land x mask =? 0).

(** [std::has_single_bit]: exactly one bit set. *)
Definition has_single_bit (z : Z) : bool :=
  (0 <? z) && (Z.land z (z - 1) =? 0).

Lemma u32_range z : is_u32 (u32 z).
Proof. unfold is_u32, u32, wrap. apply Z.mod_pos_bound. lia. Qed.

Lemma u32_small z : is_u32 z -> u32 z = z.
Proof. intros H. unfold u32, wrap. now apply Z.mod_small. Qed.

Lemma add32_small a b : 0 <= a + b < 2 ^ 32 -> add32 a b = a + b.
Proof. apply u32_small. Qed.

Lemma sub32_small a b : 0 <= a - b < 2 ^ 32 -> sub32 a b = a - b.
Proof. apply u32_small. Qed.

Lemma mul32_small a b : 0 <= a * b < 2 ^ 32 -> mul32 a b = a * b.
Proof. apply u32_small. Qed.

(** A difference that goes below zero by less than 2^32 wraps once. *)
Lemma sub32_neg a b : - 2 ^ 32 <= a - b < 0 -> sub32 a b = a - b + 2 ^ 32.
Proof.
  intros H. unfold sub32, u32, wrap.
  rewrite <- (Z.mod_add (a - b) 1) by lia.
  apply Z.mod_small. lia.
Qed.

Lemma add32_over a b : 2 ^ 32 <= a + b < 2 * 2 ^ 32 -> add32 a b = a + b - 2 ^ 32.
Proof.
  intros H. unfold add32, u32, wrap.
  rewrite <- (Z.mod_add (a + b) (-1)) by lia.
  rewrite Z.mod_small; lia.
Qed.

(** ** Masks *)
Lemma land_low_mask x k : 0 <= k -> Z.land x (2 ^ k - 1) = x mod 2 ^ k.
Proof.
  intros Hk. replace (2 ^ k - 1) with (Z.ones k) by (rewrite Z.ones_equiv; lia).
  now apply Z.land_ones.
Qed.

Lemma not32_testbit m i : is_u32 m -> 0 <= i < 32 ->
  Z.testbit (not32 m) i = negb (Z.testbit m i).
Proof.
  intros [Hm1 Hm2] Hi. unfold not32.
  replace (2 ^ 32 - 1 - m) with (Z.lnot m mod 2 ^ 32).
  - rewrite Z.mod_pow2_bits_low by lia. apply Z.lnot_spec. lia.
  - unfold Z.lnot. rewrite <- (Z.mod_add _ 1) by lia.
    rewrite Z.mod_small; lia.
Qed.

(** Clearing the low [k] bits of a 32-bit word rounds it down to 2^k. *)
Lemma land_high_mask x k : is_u32 x -> 0 <= k <= 32 ->
  Z.land x (not32 (2 ^ k - 1)) = x - x mod 2 ^ k.
Proof.
  intros [Hx1 Hx2] Hk.
  assert (H2 : 0 < 2 ^ k) by (apply Z.pow_pos_nonneg; lia).
  assert (Hle : 2 ^ k <= 2 ^ 32) by (apply Z.pow_le_mono_r; lia).
  transitivity (Z.ldiff x (Z.ones k)).
  2: { rewrite Z.ldiff_ones_r by lia. rewrite Z.shiftr_div_pow2, Z.shiftl_mul_pow2 by lia.
       pose proof (Z.div_mod x (2 ^ k)). lia. }
  apply Z.bits_inj'. intros i Hi.
  rewrite Z.land_spec, Z.ldiff_spec.
  destruct (Z.lt_ge_cases i 32) as [Hi32|Hi32].
  - rewrite not32_testbit by (unfold is_u32; lia).
    f_equal. f_equal. f_equal. rewrite Z.ones_equiv. lia.
  - replace (Z.testbit x i) with false; [reflexivity|].
    symmetry. rewrite <- (Z.mod_small x (2 ^ 32)) by lia.
    apply Z.mod_pow2_bits_high. lia.
Qed.

Lemma has_single_bit_pow2 k : 0 <= k -> has_single_bit (2 ^ k) = true.
Proof.
  intros Hk. unfold has_single_bit.
  assert (0 < 2 ^ k) by (apply Z.pow_pos_nonneg; lia).
  rewrite land_low_mask, Z.mod_same by lia.
  apply andb_true_iff. split; [now apply Z.ltb_lt | reflexivity].
Qed.

(** ** Outcome reasoning *)
Lemma bind_Ok {A B} (m : outcome A) (f : A -> outcome B) b :
  (m ≫= f) = Ok b -> exists a, m = Ok a /\ f a = Ok b.
Proof. destruct m as [a|e]; intros H; [eauto | discriminate]. Qed.

Lemma bind_Ok_l {A B} (m : outcome A) (f : A -> outcome B) a :
  m = Ok a -> (m ≫= f) = f a.
Proof. now intros ->. Qed.

Lemma fetch_Ok {A} (l : list A) i x :
  0 <= i -> l !! Z.to_nat i = Some x -> fetch l i = Ok x.
Proof. intros Hi H. unfold fetch. rewrite decide_True by lia. now rewrite H. Qed.

Lemma fetch_inv {A} (l : list A) i x :
  fetch l i = Ok x -> 0 <= i /\ l !! Z.to_nat i = Some x.
Proof.
  unfold fetch. case_decide; [|discriminate].
  destruct (l !! Z.to_nat i); intros [= ->]; auto.
Qed.

Lemma store_Ok {A} (l : list A) i x :
  0 <= i < Z.of_nat (length l) -> store l i x = Ok (<[Z.to_nat i := x]> l).
Proof. intros H. unfold store. now rewrite decide_True by lia. Qed.

Lemma fetch_in {A} (l : list A) i : 0 <= i < Z.of_nat (length l) -> exists x, fetch l i = Ok x /\ l !! Z.to_nat i = Some x.
Proof.
  intros H. destruct (lookup_lt_is_Some_2 l (Z.to_nat i)) as [x Hx]; [lia|].
  exists x. split; [now apply fetch_Ok|exact Hx].
Qed.

Lemma store_in {A} (l : list A) i x : 0 <= i < Z.of_nat (length l) ->
  exists l', store l i x = Ok l' /\ length l' = length l /\
    forall j : Z, 0 <= j -> l' !! Z.to_nat j = if j =? i then Some x else l !! Z.to_nat j.
Proof.
  intros H. rewrite store_Ok by lia. eexists; split; [reflexivity|].
  rewrite length_insert. split; [reflexivity|]. intros j Hj. destruct (Z.eqb_spec j i) as [->|N].
  - apply list_lookup_insert_eq. lia.
  - apply list_lookup_insert_ne. lia.
Qed.

(** Two lookups at indices that are equal by arithmetic. *)
Lemma lookup_repeat {A} (x : A) n : forall i, (i < n)%nat -> repeat x n !! i = Some x.
Proof. induction n as [|n IH]; intros [|i] Hi; [lia..|reflexivity|]. apply IH. lia. Qed.

Ltac same_index := match goal with |- _ !! ?a = _ !! ?b => replace b with a by lia; reflexivity end.

(** ** Copying a range of an array upwards, cell by cell *)
Fixpoint copy_up {A} (num : nat) (dst src : Z) (m : list A) : outcome (list A) :=
  match num with
  | O => Ok m
  | S num => c ← fetch m src; m ← store m dst c; copy_up num (dst + 1) (src + 1) m
  end.

(** [m'] is [m] with the [n] cells at [dst] replaced by those of [m0] at [src]. *)
Definition copied {A} (m0 m m' : list A) (dst src n : Z) : Prop :=
  length m' = length m /\
  forall i : Z, 0 <= i -> m' !! Z.to_nat i =
    if (dst <=? i) && (i <? dst + n) then m0 !! Z.to_nat (src + (i - dst)) else m !! Z.to_nat i.

(** It is right when the destination is not inside the source, past its start. *)
Lemma copy_up_spec {A} n : forall (m : list A) dst src, 0 <= dst -> 0 <= src ->
  dst + Z.of_nat n <= Z.of_nat (length m) -> src + Z.of_nat n <= Z.of_nat (length m) ->
  (dst <= src \/ src + Z.of_nat n <= dst) ->
  exists m', copy_up n dst src m = Ok m' /\ copied m m m' dst src (Z.of_nat n).
Proof.
  induction n as [|n IH]; intros m dst src Hd Hs Ld Ls Ho.
  - exists m. split; [reflexivity|]. split; [reflexivity|]. intros i Hi.
    destruct (Z.leb_spec dst i), (Z.ltb_spec i (dst + Z.of_nat 0)); cbn [andb]; try reflexivity; lia.
  - cbn [copy_up]. destruct (fetch_in m src) as (x & Ex & Hx); [lia|]. rewrite (bind_Ok_l _ _ _ Ex).
    destruct (store_in m dst x) as (m1 & E1 & L1 & G1); [lia|]. rewrite (bind_Ok_l _ _ _ E1).
    destruct (IH m1 (dst + 1) (src + 1)) as (m' & E' & L' & G'); [lia..|].
    exists m'. split; [exact E'|]. split; [lia|]. intros i Hi. rewrite G' by lia.
    destruct (Z.leb_spec (dst + 1) i), (Z.ltb_spec i (dst + 1 + Z.of_nat n)),
      (Z.leb_spec dst i), (Z.ltb_spec i (dst + Z.of_nat (S n))); cbn [andb]; try lia;
      rewrite G1 by lia; destruct (Z.eqb_spec i dst), (Z.eqb_spec (src + 1 + (i - (dst + 1))) dst);
      try lia; try reflexivity; subst; rewrite <- ?Hx; same_index.
Qed.

(** Walk through a chain of [Ok] binds in a hypothesis. *)
Ltac inv_bind H :=
  let a := fresh "a" in let Ha := fresh "Ha" in
  apply bind_Ok in H; destruct H as [a [Ha H]].

(** Split every boolean comparison on [Z] that guards the goal. *)
Ltac zcases :=
  repeat match goal with
  | |- context [?a <? ?b] => destruct (Z.ltb_spec a b)
  | |- context [?a <=? ?b] => destruct (Z.leb_spec a b)
  | |- context [?a =? ?b] => destruct (Z.eqb_spec a b)
  end.

Create HintDb osd.
#[export] Hint Resolve u32_range : osd.


(** ** Single bits and small words *)
Lemma lor_bound n a b : 0 <= n -> 0 <= a < 2 ^ n -> 0 <= b < 2 ^ n -> 0 <= Z.lor a b < 2 ^ n.
Proof.
  intros Hn Ha Hb. split; [apply Z.lor_nonneg; lia|].
  enough (Z.lor a b = Z.lor a b mod 2 ^ n) as ->
    by (apply Z.mod_pos_bound, Z.pow_pos_nonneg; lia).
  apply Z.bits_inj'. intros i Hi. destruct (Z.lt_ge_cases i n).
  - now rewrite Z.mod_pow2_bits_low by lia.
  - rewrite Z.mod_pow2_bits_high by lia. rewrite Z.lor_spec.
    rewrite <- (Z.mod_small a (2 ^ n)), <- (Z.mod_small b (2 ^ n)) by lia.
    now rewrite !Z.mod_pow2_bits_high by lia.
Qed.

Lemma land_bound n a b : 0 <= n -> 0 <= a -> 0 <= b < 2 ^ n -> 0 <= Z.land a b < 2 ^ n.
Proof.
  intros Hn Ha Hb. split; [apply Z.land_nonneg; lia|].
  enough (Z.land a b = Z.land a b mod 2 ^ n) as ->
    by (apply Z.mod_pos_bound, Z.pow_pos_nonneg; lia).
  apply Z.bits_inj'. intros i Hi. destruct (Z.lt_ge_cases i n).
  - now rewrite Z.mod_pow2_bits_low by lia.
  - rewrite Z.mod_pow2_bits_high by lia. rewrite Z.land_spec.
    rewrite <- (Z.mod_small b (2 ^ n)) by lia.
    rewrite Z.mod_pow2_bits_high by lia. apply andb_false_r.
Qed.

Lemma land_pow2_testbit x k : 0 <= k -> (Z.land x (2 ^ k) =? 0) = negb (Z.testbit x k).
Proof.
  intros Hk. apply Bool.eq_iff_eq_true. rewrite Z.eqb_eq, negb_true_iff. split; intros H.
  - assert (Hb : Z.testbit (Z.land x (2 ^ k)) k = false) by (rewrite H; apply Z.testbit_0_l).
    rewrite Z.land_spec, Z.pow2_bits_true in Hb by lia. now rewrite andb_true_r in Hb.
  - apply Z.bits_inj'. intros i Hi. rewrite Z.land_spec, Z.testbit_0_l.
    destruct (Z.eq_dec i k) as [->|]; [now rewrite H|].
    now rewrite Z.pow2_bits_false, andb_false_r by lia.
Qed.

Lemma aligned_testbit r n i : r mod 2 ^ n = 0 -> 0 <= i < n -> Z.testbit r i = false.
Proof.
  intros H Hi. rewrite <- (Z.mod_pow2_bits_low r n i) by lia. rewrite H. apply Z.testbit_0_l.
Qed.

Lemma small_testbit x n i : 0 <= x < 2 ^ n -> 0 <= n <= i -> Z.testbit x i = false.
Proof.
  intros H Hi. rewrite <- (Z.mod_small x (2 ^ n)) by lia. apply Z.mod_pow2_bits_high. lia.
Qed.

(** Or-ing a small word into an aligned one is addition. *)
Lemma lor_aligned r f n : 0 <= n -> r mod 2 ^ n = 0 -> 0 <= f < 2 ^ n -> Z.lor r f = r + f.
Proof.
  intros Hn Hr Hf. symmetry. apply Z.add_nocarry_lor. apply Z.bits_inj'. intros i Hi.
  rewrite Z.land_spec, Z.testbit_0_l. destruct (Z.lt_ge_cases i n).
  - now rewrite (aligned_testbit r n).
  - rewrite (small_testbit f n) by lia. apply andb_false_r.
Qed.

(** ** Signed words *)
Lemma swrap_range w z : 0 < w -> - 2 ^ (w - 1) <= swrap w z < 2 ^ (w - 1).
Proof.
  intros Hw. unfold swrap. cbv zeta.
  assert (H : 2 ^ w = 2 * 2 ^ (w - 1)) by (rewrite <- Z.pow_succ_r by lia; f_equal; lia).
  assert (0 < 2 ^ (w - 1)) by (apply Z.pow_pos_nonneg; lia).
  pose proof (Z.mod_pos_bound z (2 ^ w) ltac:(lia)).
  destruct (Z.ltb_spec (z mod 2 ^ w) (2 ^ (w - 1))); lia.
Qed.

Lemma swrap_small w z : 0 < w -> - 2 ^ (w - 1) <= z < 2 ^ (w - 1) -> swrap w z = z.
Proof.
  intros Hw Hz. unfold swrap. cbv zeta.
  assert (H : 2 ^ w = 2 * 2 ^ (w - 1)) by (rewrite <- Z.pow_succ_r by lia; f_equal; lia).
  destruct (Z.lt_ge_cases z 0).
  - assert (Hm : z mod 2 ^ w = z + 2 ^ w).
    { rewrite <- (Z.mod_add z 1), Z.mul_1_l by lia. apply Z.mod_small. lia. }
    rewrite Hm. destruct (Z.ltb_spec (z + 2 ^ w) (2 ^ (w - 1))); lia.
  - rewrite Z.mod_small by lia. destruct (Z.ltb_spec z (2 ^ (w - 1))); lia.
Qed.

Lemma wrap_swrap w z : 0 < w -> wrap w (swrap w z) = wrap w z.
Proof.
  intros Hw. unfold wrap, swrap. cbv zeta.
  assert (0 < 2 ^ w) by (apply Z.pow_pos_nonneg; lia).
  destruct (_ <? _); [apply Z.mod_mod; lia|].
  rewrite <- (Z.mod_add _ 1) by lia. rewrite Z.mul_1_l, Z.sub_add. apply Z.mod_mod. lia.
Qed.

Lemma s32_range z : - 2 ^ 31 <= s32 z < 2 ^ 31.
Proof. apply (swrap_range 32). lia. Qed.

Lemma s32_small z : - 2 ^ 31 <= z < 2 ^ 31 -> s32 z = z.
Proof. apply (swrap_small 32). lia. Qed.

Lemma u32_s32 z : u32 (s32 z) = u32 z.
Proof. apply (wrap_swrap 32). lia. Qed.

(** A non-negative [int] and its [unsigned] are the same number. *)
Lemma s32_u32 z : 0 <= s32 z -> s32 z = u32 z.
Proof. intros H. pose proof (s32_range z). rewrite <- u32_s32. symmetry. apply u32_small. unfold is_u32. lia. Qed.
