(* ===== verification/PhysMem.v ===== *)
(** * The physical memory manager (kernel/physical_manager.cpp)

    A table of at most 128 free blocks, kept in address order.  The array
    [blocks] together with [num_blocks] is the list of its live entries (the
    entries past [num_blocks] are never read before they are written); an
    iterator is the index of the block it points to, in [Z] because
    [claim_from_block] moves it to one before the first block when it erases
    the first block. *)
From S2P Require Import Prelude.

Record memory_block := mk_block { mb_offset : Z; mb_length : Z }.

#[export] Instance memory_block_eq_dec : EqDecision memory_block.
Proof. solve_decision. Defined.

Definition MAX_NUM_MEMORY_BLOCKS : Z := 128.

(** common/util.h: [align_addr]. *)
Definition align_addr (addr align : Z) : outcome Z :=
  _ ← k_assert (has_single_bit align);
  Ok (Z.land (add32 addr (sub32 align 1)) (not32 (sub32 align 1))).

Module block_list.

Definition size (m : list memory_block) : Z := Z.of_nat (length m).

(** [std::copy(it + 1, end(), it)] shifts the tail down over [it] and leaves the
    last entry duplicated; [--num_blocks] then drops it. *)
Definition erase (m : list memory_block) (it : Z) : outcome (list memory_block) :=
  _ ← k_assert (it <? MAX_NUM_MEMORY_BLOCKS);
  if it <? 0 then Fault OutOfBounds else
  let n := Z.to_nat it in
  let copied :=
    if it <? size m - 1
    then take n m ++ drop (S n) m ++ drop (length m - 1) m
    else m in
  if size m =? 0 then Fault OutOfBounds
  else Ok (take (length m - 1) copied).

Definition emplace_back (m : list memory_block) (offset len : Z)
  : outcome (list memory_block) :=
  if size m <? MAX_NUM_MEMORY_BLOCKS then Ok (m ++ [mk_block offset len])
  else Fault OutOfBounds.

(** [std::copy_backward(it, end(), end() + 1)] writes one entry past the last
    live one, which must still be inside the array. *)
Definition emplace (m : list memory_block) (it offset len : Z)
  : outcome (list memory_block) :=
  _ ← k_assert (it <? MAX_NUM_MEMORY_BLOCKS);
  if (0 <=? it) && (it <=? size m) && (size m <? MAX_NUM_MEMORY_BLOCKS) then
    Ok (take (Z.to_nat it) m ++ mk_block offset len :: drop (Z.to_nat it) m)
  else Fault OutOfBounds.

(** Takes the iterator by reference: the pair is the list and the new [it]. *)
Definition claim_from_block (m : list memory_block) (it offset sz : Z)
  : outcome (list memory_block * Z) :=
  b ← fetch m it;
  let len := sub32 (mb_length b) (add32 sz offset) in
  if len =? 0 then
    if 0 <? offset then
      m' ← store m it (mk_block (mb_offset b) offset); Ok (m', it)
    else
      m' ← erase m it; Ok (m', it - 1)
  else if 0 <? offset then
    m' ← emplace m it (mb_offset b) offset;
    b' ← fetch m' (it + 1);
    m'' ← store m' (it + 1)
            (mk_block (add32 (mb_offset b') (add32 sz offset)) len);
    Ok (m'', it + 1)
  else
    m' ← store m it (mk_block (add32 (mb_offset b) (add32 sz offset)) len);
    Ok (m', it).

End block_list.
Import block_list.

(** One pass of the loop of [physical_memory_reserve], from iterator [it]. *)
Fixpoint reserve_loop (fuel : nat) (m : list memory_block) (it address sz : Z)
  : outcome (list memory_block) :=
  match fuel with
  | O => Fault OutOfFuel
  | S fuel =>
    if it =? size m then Ok m else
    b ← fetch m it;
    if add32 address sz <? mb_offset b then Ok m else
    let '(address, sz) :=
      if address <? mb_offset b
      then (mb_offset b, sub32 sz (sub32 (mb_offset b) address))
      else (address, sz) in
    let available_space := sub32 (mb_length b) (sub32 address (mb_offset b)) in
    let claimed_space := if available_space <? sz then available_space else sz in
    let padding := sub32 address (mb_offset b) in
    '(m, it, address, sz) ←
      (if add32 claimed_space padding <=? mb_length b then
         '(m', it') ← claim_from_block m it padding claimed_space;
         Ok (m', it', add32 address claimed_space, sub32 sz claimed_space)
       else Ok (m, it, address, sz));
    if sz =? 0 then Ok m else reserve_loop fuel m (it + 1) address sz
  end.

Definition physical_memory_reserve (m : list memory_block) (address sz : Z)
  : outcome (list memory_block) :=
  reserve_loop (S (length m)) m 0 address sz.

Fixpoint free_loop (fuel : nat) (m : list memory_block) (it physical_address sz : Z)
  : outcome (list memory_block) :=
  match fuel with
  | O => Fault OutOfFuel
  | S fuel =>
    if it =? size m then emplace_back m physical_address sz else
    b ← fetch m it;
    let b_end := add32 (mb_offset b) (mb_length b) in
    if b_end <? physical_address then free_loop fuel m (it + 1) physical_address sz
    else if b_end =? physical_address then
      let b1 := mk_block (mb_offset b) (add32 (mb_length b) sz) in
      m1 ← store m it b1;
      if it + 1 <? size m1 then
        next ← fetch m1 (it + 1);
        if mb_offset next =? add32 physical_address sz then
          m2 ← store m1 it
                 (mk_block (mb_offset b1) (add32 (mb_length b1) (mb_length next)));
          erase m2 (it + 1)
        else Ok m1
      else Ok m1
    else if mb_offset b =? add32 physical_address sz then
      store m it (mk_block physical_address (add32 (mb_length b) sz))
    else emplace m it physical_address sz
  end.

Definition physical_memory_free (m : list memory_block) (physical_address sz : Z)
  : outcome (list memory_block) :=
  free_loop (S (length m)) m 0 physical_address sz.

Fixpoint allocate_loop (fuel : nat) (m : list memory_block) (it sz align : Z)
  : outcome (list memory_block * Z) :=
  match fuel with
  | O => Fault OutOfFuel
  | S fuel =>
    if it =? size m then Ok (m, 0) else
    b ← fetch m it;
    aligned_addr ← align_addr (mb_offset b) align;
    let padding := sub32 aligned_addr (mb_offset b) in
    if add32 sz padding <=? mb_length b then
      '(m', _) ← claim_from_block m it padding sz;
      Ok (m', aligned_addr)
    else allocate_loop fuel m (it + 1) sz align
  end.

(** Returns the new table and the address, 0 when nothing fits. *)
Definition physical_memory_allocate (m : list memory_block) (sz align : Z)
  : outcome (list memory_block * Z) :=
  allocate_loop (S (length m)) m 0 sz align.

Fixpoint allocate_in_range_loop (fuel : nat) (m : list memory_block)
    (it start end_ sz align : Z) : outcome (list memory_block * Z) :=
  match fuel with
  | O => Fault OutOfFuel
  | S fuel =>
    if it =? size m then Ok (m, 0) else
    b ← fetch m it;
    aligned0 ← align_addr (mb_offset b) align;
    if (aligned0 <? start) && (add32 (mb_offset b) (mb_length b) <? start) then
      allocate_in_range_loop fuel m (it + 1) start end_ sz align
    else
      aligned_addr ← (if aligned0 <? start then align_addr start align else Ok aligned0);
      if end_ <? add32 aligned_addr sz then Ok (m, 0) else
      let padding := sub32 aligned_addr (mb_offset b) in
      if add32 sz padding <=? mb_length b then
        '(m', _) ← claim_from_block m it padding sz;
        Ok (m', aligned_addr)
      else allocate_in_range_loop fuel m (it + 1) start end_ sz align
  end.

Definition physical_memory_allocate_in_range (m : list memory_block)
    (start end_ sz align : Z) : outcome (list memory_block * Z) :=
  allocate_in_range_loop (S (length m)) m 0 start end_ sz align.

Definition physical_num_bytes_free (m : list memory_block) : Z :=
  fold_left (fun sum b => add32 sum (mb_length b)) m 0.

(** The fields of [boot_information] that [physical_memory_init] reads. *)
Record boot_info := mk_boot_info {
  kernel_location : Z; kernel_size : Z;
  ramdisk_location : Z; ramdisk_size : Z }.

Definition physical_memory_init (bi : boot_info) (m : list memory_block)
  : outcome (list memory_block) :=
  m ← physical_memory_reserve m 0 0x500;
  m ← physical_memory_reserve m 0x7000 0x200;
  m ← physical_memory_reserve m (kernel_location bi) (kernel_size bi);
  physical_memory_reserve m (ramdisk_location bi) (ramdisk_size bi).

Section sanity.
Let m0 := [mk_block 0 0x9F000; mk_block 0x100000 0x700000].
Example init_ex :
  physical_memory_init (mk_boot_info 0x100000 0x40000 0x200000 0x10000) m0
  = Ok [mk_block 0x500 0x6B00; mk_block 0x7200 0x97E00;
        mk_block 0x140000 0xC0000; mk_block 0x210000 0x5F0000].
Proof. reflexivity. Qed.
Example alloc_ex : physical_memory_allocate [mk_block 0x500 0x6B00] 0x1000 0x1000
  = Ok ([mk_block 0x500 0xB00; mk_block 0x2000 0x5000], 0x1000).
Proof. reflexivity. Qed.
Example free_ex : physical_memory_free [mk_block 0x500 0xB00; mk_block 0x2000 0x5000] 0x1000 0x1000
  = Ok [mk_block 0x500 0x6B00].
Proof. reflexivity. Qed.
End sanity.

(** ** Reasoning on a block seen through a zipper [pre ++ b :: post] *)
Implicit Types (pre post m : list memory_block) (b : memory_block).

Lemma lookup_zip (pre post : list memory_block) b :
  (pre ++ b :: post) !! length pre = Some b.
Proof. rewrite lookup_app_r by lia. now rewrite Nat.sub_diag. Qed.

Lemma fetch_zip pre b post : fetch (pre ++ b :: post) (Z.of_nat (length pre)) = Ok b.
Proof. apply fetch_Ok; [lia|]. rewrite Nat2Z.id. apply lookup_zip. Qed.

Lemma store_zip pre b post x :
  store (pre ++ b :: post) (Z.of_nat (length pre)) x = Ok (pre ++ x :: post).
Proof.
  rewrite store_Ok by (rewrite length_app; simpl; lia).
  rewrite Nat2Z.id, insert_app_r_alt by lia. now rewrite Nat.sub_diag.
Qed.

Lemma erase_zip pre b post : Z.of_nat (length (pre ++ b :: post)) <= MAX_NUM_MEMORY_BLOCKS ->
  erase (pre ++ b :: post) (Z.of_nat (length pre)) = Ok (pre ++ post).
Proof.
  intros Hcap. rewrite length_app in Hcap; simpl in Hcap.
  unfold erase, k_assert, size. rewrite length_app; simpl length.
  destruct (Z.ltb_spec (Z.of_nat (length pre)) MAX_NUM_MEMORY_BLOCKS); [|lia]. simpl.
  destruct (Z.ltb_spec (Z.of_nat (length pre)) 0); [lia|].
  destruct (Z.eqb_spec (Z.of_nat (length pre + S (length post))) 0); [lia|].
  f_equal. rewrite Nat2Z.id.
  destruct (Z.ltb_spec (Z.of_nat (length pre)) (Z.of_nat (length pre + S (length post)) - 1)).
  - rewrite take_app_length.
    replace (drop (S (length pre)) (pre ++ b :: post)) with post.
    2: { rewrite drop_app_ge by lia. replace (S (length pre) - length pre)%nat with 1%nat by lia. done. }
    rewrite app_assoc. rewrite take_app_le by (rewrite length_app; lia).
    apply take_ge. rewrite length_app. lia.
  - destruct post; simpl in *; [|lia].
    rewrite app_nil_r. rewrite take_app_le by lia. apply take_ge. lia.
Qed.

Lemma emplace_zip pre post off len :
  Z.of_nat (length (pre ++ post)) < MAX_NUM_MEMORY_BLOCKS ->
  emplace (pre ++ post) (Z.of_nat (length pre)) off len
  = Ok (pre ++ mk_block off len :: post).
Proof.
  intros Hcap. unfold emplace, k_assert, size in *. rewrite length_app in *.
  destruct (Z.ltb_spec (Z.of_nat (length pre)) MAX_NUM_MEMORY_BLOCKS); [|lia]. simpl.
  destruct (Z.leb_spec 0 (Z.of_nat (length pre))); [|lia].
  destruct (Z.leb_spec (Z.of_nat (length pre)) (Z.of_nat (length pre + length post))); [|lia].
  destruct (Z.ltb_spec (Z.of_nat (length pre + length post)) MAX_NUM_MEMORY_BLOCKS); [|lia].
  simpl. now rewrite Nat2Z.id, take_app_length, drop_app_length.
Qed.

(** ** What remains of a block when [sz] bytes are taken at offset [off] in it *)
Definition carve (b : memory_block) (off sz : Z) : list memory_block :=
  (if 0 <? off then [mk_block (mb_offset b) off] else [])
  ++ (if mb_length b - (sz + off) =? 0 then []
      else [mk_block (mb_offset b + (sz + off)) (mb_length b - (sz + off))]).

Definition block_ok (b : memory_block) : Prop :=
  0 <= mb_offset b /\ 0 < mb_length b /\ mb_offset b + mb_length b < 2 ^ 32.

Lemma claim_zip pre b post off sz :
  block_ok b -> 0 <= off -> 0 <= sz -> sz + off <= mb_length b ->
  Z.of_nat (length (pre ++ b :: post)) < MAX_NUM_MEMORY_BLOCKS ->
  claim_from_block (pre ++ b :: post) (Z.of_nat (length pre)) off sz
  = Ok (pre ++ carve b off sz ++ post,
        Z.of_nat (length pre) + Z.of_nat (length (carve b off sz)) - 1).
Proof.
  intros (Hb0 & Hb1 & Hb2) Hoff Hsz Hfit Hcap. unfold claim_from_block.
  rewrite fetch_zip. simpl.
  rewrite (add32_small sz off) by lia. rewrite sub32_small by lia.
  unfold carve.
  destruct (Z.eqb_spec (mb_length b - (sz + off)) 0);
    destruct (Z.ltb_spec 0 off); simpl.
  - rewrite store_zip. simpl. do 2 f_equal. lia.
  - rewrite erase_zip by lia. simpl. do 2 f_equal. lia.
  - rewrite emplace_zip by lia. simpl.
    replace (Z.of_nat (length pre) + 1)
      with (Z.of_nat (length (pre ++ [mk_block (mb_offset b) off])))
      by (rewrite length_app; simpl; lia).
    change (pre ++ mk_block (mb_offset b) off :: b :: post)
      with (pre ++ [mk_block (mb_offset b) off] ++ b :: post).
    rewrite app_assoc, fetch_zip. simpl. rewrite store_zip. simpl.
    rewrite add32_small by lia. rewrite <- app_assoc. simpl.
    rewrite length_app. simpl. do 2 f_equal. lia.
  - rewrite store_zip. simpl. rewrite add32_small by lia. do 2 f_equal. lia.
Qed.

(** ** Well-formed tables: blocks are non-empty, below 2^32, in strictly
    increasing order and never adjacent (an allocator that coalesces). *)
Fixpoint wf_from (lo : Z) (m : list memory_block) : Prop :=
  match m with
  | [] => True
  | b :: m' => lo <= mb_offset b /\ 0 < mb_length b
               /\ mb_offset b + mb_length b < 2 ^ 32
               /\ wf_from (mb_offset b + mb_length b + 1) m'
  end.
Definition wf (m : list memory_block) : Prop := wf_from 0 m.

(** The byte at physical address [a] is free. *)
Definition free_at (m : list memory_block) (a : Z) : Prop :=
  Exists (fun b => mb_offset b <= a < mb_offset b + mb_length b) m.

Definition in_range (lo sz a : Z) : Prop := lo <= a < lo + sz.

Lemma wf_from_weaken lo lo' m : lo' <= lo -> wf_from lo m -> wf_from lo' m.
Proof. destruct m; simpl; intuition lia. Qed.

Lemma free_at_cons b m a :
  free_at (b :: m) a <-> mb_offset b <= a < mb_offset b + mb_length b \/ free_at m a.
Proof. apply Exists_cons. Qed.

Lemma free_at_nil a : free_at [] a <-> False.
Proof. apply Exists_nil. Qed.

Lemma free_at_app m1 m2 a : free_at (m1 ++ m2) a <-> free_at m1 a \/ free_at m2 a.
Proof. apply Exists_app. Qed.

Lemma free_at_lower lo m a : wf_from lo m -> free_at m a -> lo <= a < 2 ^ 32.
Proof.
  revert lo. induction m as [|b m IH]; simpl; intros lo Hwf Ha.
  - now apply free_at_nil in Ha.
  - destruct Hwf as (? & ? & ? & Hwf). apply free_at_cons in Ha as [Ha|Ha]; [lia|].
    specialize (IH _ Hwf Ha). lia.
Qed.

Lemma free_at_carve b off sz a : 0 <= off -> 0 < sz -> sz + off <= mb_length b ->
  (free_at (carve b off sz) a <->
   mb_offset b <= a < mb_offset b + mb_length b /\ ~ in_range (mb_offset b + off) sz a).
Proof.
  intros. unfold carve, in_range. rewrite free_at_app.
  destruct (Z.ltb_spec 0 off), (Z.eqb_spec (mb_length b - (sz + off)) 0);
    rewrite ?free_at_cons, ?free_at_nil; simpl; lia.
Qed.

Lemma wf_carve lo b off sz post : 0 <= off -> 0 < sz -> sz + off <= mb_length b ->
  wf_from lo (b :: post) -> wf_from lo (carve b off sz ++ post).
Proof.
  intros Ho Hs Hf (H1 & H2 & H3 & H4). unfold carve.
  destruct (Z.ltb_spec 0 off), (Z.eqb_spec (mb_length b - (sz + off)) 0); simpl;
    repeat split; try lia; (eapply wf_from_weaken; [|exact H4]; lia).
Qed.

(** ** [align_addr] rounds up to the next multiple of a power of two *)
Definition pad_to (a align : Z) : Z := (- a) mod align.

Definition is_align (align : Z) : Prop := exists k, 0 <= k < 32 /\ align = 2 ^ k.

Lemma is_align_bound al : is_align al -> 0 < al <= 2 ^ 31.
Proof.
  intros (k & Hk & ->). split; [apply Z.pow_pos_nonneg; lia|].
  apply Z.pow_le_mono_r; lia.
Qed.

Lemma pad_to_range a al : 0 < al -> 0 <= pad_to a al < al.
Proof. intros. apply Z.mod_pos_bound. lia. Qed.

Lemma pad_to_divide a al : 0 < al -> (al | a + pad_to a al).
Proof.
  intros H. unfold pad_to. exists (- ((- a) / al)).
  pose proof (Z.div_mod (- a) al ltac:(lia)). lia.
Qed.

(** Nothing between [a] and its rounding is aligned. *)
Lemma pad_to_least a al x : 0 < al -> a <= x -> (al | x) -> a + pad_to a al <= x.
Proof.
  intros Hal Hax [q ->].
  destruct (pad_to_divide a al Hal) as [p Hp].
  pose proof (pad_to_range a al Hal).
  assert (p < q + 1) by (apply (Z.mul_lt_mono_pos_r al); lia).
  rewrite Hp. apply Z.mul_le_mono_nonneg_r; lia.
Qed.

Lemma align_addr_spec a al : is_u32 a -> is_align al ->
  align_addr a al = Ok (u32 (a + pad_to a al)).
Proof.
  intros [Ha1 Ha2] Hal. pose proof (is_align_bound _ Hal) as Hb.
  destruct Hal as (k & Hk & ->).
  unfold align_addr. rewrite has_single_bit_pow2 by lia. simpl. f_equal.
  rewrite (sub32_small (2 ^ k) 1) by lia.
  rewrite land_high_mask by (try apply u32_range; lia).
  set (al := 2 ^ k) in *. set (r := pad_to a al).
  assert (Hr : 0 <= r < al) by (apply pad_to_range; lia).
  destruct (pad_to_divide a al) as [q Hq]; [lia|]. fold r in Hq.
  assert (Hm : add32 a (al - 1) mod al = al - 1 - r).
  { unfold add32, u32, wrap. rewrite Z.mod_mod_divide.
    - symmetry. apply Z.mod_unique_pos with (q := q); lia.
    - exists (2 ^ (32 - k)). unfold al. rewrite <- Z.pow_add_r by lia. f_equal. lia. }
  pose proof (Z.mod_le (add32 a (al - 1)) al) as Hle.
  pose proof (u32_range (a + (al - 1))) as [Hu1 Hu2]. fold (add32 a (al - 1)) in *.
  rewrite Hm in *.
  destruct (Z.lt_ge_cases (a + (al - 1)) (2 ^ 32)).
  - rewrite add32_small in * by lia. rewrite u32_small by (unfold is_u32; lia). lia.
  - rewrite add32_over in * by lia. fold (add32 a r). rewrite add32_over by lia. lia.
Qed.

(** ** First-fit allocation as a structural function, and the loop refines it *)
Fixpoint first_fit m (sz al : Z) : option (list memory_block * Z) :=
  match m with
  | [] => None
  | b :: m' =>
    let pad := pad_to (mb_offset b) al in
    if sz + pad <=? mb_length b then Some (carve b pad sz ++ m', mb_offset b + pad)
    else '(m'', r) ← first_fit m' sz al; Some (b :: m'', r)
  end.

Lemma padding_spec a al : is_u32 a -> is_align al ->
  sub32 (u32 (a + pad_to a al)) a = pad_to a al.
Proof.
  intros [Ha1 Ha2] Hal. pose proof (is_align_bound _ Hal).
  pose proof (pad_to_range a al ltac:(lia)).
  destruct (Z.lt_ge_cases (a + pad_to a al) (2 ^ 32)).
  - rewrite u32_small by (unfold is_u32; lia). rewrite sub32_small; lia.
  - fold (add32 a (pad_to a al)). rewrite add32_over by lia. rewrite sub32_neg; lia.
Qed.

Lemma size_zip pre b post : (Z.of_nat (length pre) =? size (pre ++ b :: post)) = false.
Proof. unfold size. rewrite length_app. simpl. apply Z.eqb_neq. lia. Qed.

Lemma size_end pre : (Z.of_nat (length pre) =? size (pre ++ [])) = true.
Proof. unfold size. rewrite app_nil_r. apply Z.eqb_refl. Qed.

Lemma next_zip pre b post :
  Z.of_nat (length pre) + 1 = Z.of_nat (length (pre ++ [b]))
  /\ pre ++ b :: post = (pre ++ [b]) ++ post.
Proof. rewrite length_app, <- app_assoc. simpl. split; [lia | done]. Qed.

Lemma wf_from_head lo b post : 0 <= lo -> wf_from lo (b :: post) ->
  block_ok b /\ is_u32 (mb_offset b).
Proof. intros Hlo (?&?&?&?). unfold block_ok, is_u32. lia. Qed.

Lemma allocate_loop_refines al sz : is_align al -> 0 < sz -> sz + al <= 2 ^ 32 ->
  forall fuel pre post lo, 0 <= lo -> wf_from lo post -> (length post < fuel)%nat ->
  size (pre ++ post) < MAX_NUM_MEMORY_BLOCKS ->
  allocate_loop fuel (pre ++ post) (Z.of_nat (length pre)) sz al
  = Ok (match first_fit post sz al with
        | Some (m', r) => (pre ++ m', r) | None => (pre ++ post, 0) end).
Proof.
  intros Hal Hsz Hov fuel. induction fuel as [|fuel IH]; intros pre post lo Hlo Hwf Hf Hcap; [lia|].
  pose proof (is_align_bound _ Hal). simpl.
  destruct post as [|b post]; [now rewrite size_end|].
  rewrite size_zip, fetch_zip. simpl.
  destruct (wf_from_head _ _ _ Hlo Hwf) as [Hb Hu].
  rewrite align_addr_spec by done. simpl. rewrite padding_spec by done.
  pose proof (pad_to_range (mb_offset b) al ltac:(lia)).
  rewrite add32_small by lia.
  destruct (Z.leb_spec (sz + pad_to (mb_offset b) al) (mb_length b)).
  - destruct Hb as (? & ? & ?). rewrite claim_zip by (unfold block_ok; lia || exact Hcap).
    simpl. rewrite u32_small by (unfold is_u32; lia). done.
  - destruct (next_zip pre b post) as [-> ->].
    destruct Hwf as (_ & _ & _ & Hwf).
    rewrite (IH _ _ (mb_offset b + mb_length b + 1));
      [| destruct Hb; lia | exact Hwf | simpl in Hf; lia
       | destruct (next_zip pre b post) as [_ <-]; exact Hcap].
    destruct (first_fit post sz al) as [[m' r]|]; simpl; now rewrite <- app_assoc.
Qed.

Lemma first_fit_sound al sz : is_align al -> 0 < sz ->
  forall m lo m' r, 0 <= lo -> wf_from lo m -> first_fit m sz al = Some (m', r) ->
  wf_from lo m' /\ lo <= r /\ (al | r)
  /\ (forall a, in_range r sz a -> free_at m a)
  /\ (forall a, free_at m' a <-> free_at m a /\ ~ in_range r sz a).
Proof.
  intros Hal Hsz m. pose proof (is_align_bound _ Hal).
  induction m as [|b m IH]; intros lo m' r Hlo Hwf Hff; [discriminate|].
  simpl in Hff. pose proof (pad_to_range (mb_offset b) al ltac:(lia)) as Hp.
  set (pad := pad_to (mb_offset b) al) in *.
  destruct (Z.leb_spec (sz + pad) (mb_length b)) as [Hfit|Hfit].
  - injection Hff as <- <-. split; [apply wf_carve; (lia || done)|].
    pose proof Hwf as (? & ? & ? & Hw). split; [lia|].
    split; [apply pad_to_divide; lia|]. split.
    + intros a Ha. apply free_at_cons. left. unfold in_range in Ha. lia.
    + intros a. rewrite free_at_app, free_at_cons, free_at_carve by lia.
      split; [|tauto]. intros [Ha|Ha]; [tauto|]. split; [tauto|].
      pose proof (free_at_lower _ _ _ Hw Ha). unfold in_range. lia.
  - destruct (first_fit m sz al) as [[m1 r1]|] eqn:E; [|discriminate].
    simpl in Hff. injection Hff as <- <-. pose proof Hwf as (? & ? & ? & Hw).
    destruct (IH (mb_offset b + mb_length b + 1) _ _ ltac:(lia) Hw eq_refl)
      as (Hw1 & Hlr & Hd & Hin & Hiff).
    split; [simpl; auto with lia|]. split; [lia|]. split; [done|]. split.
    + intros a Ha. apply free_at_cons. right. auto.
    + intros a. rewrite !free_at_cons, Hiff.
      split; [|tauto]. intros [Ha|Ha]; [|tauto]. split; [tauto|].
      unfold in_range. lia.
Qed.

(** In a coalesced table a free interval lies inside one block. *)
Lemma free_run_in_block lo m x sz : wf_from lo m -> 0 < sz ->
  (forall a, in_range x sz a -> free_at m a) ->
  Exists (fun b => mb_offset b <= x /\ x + sz <= mb_offset b + mb_length b) m.
Proof.
  intros Hwf Hsz. revert lo Hwf. induction m as [|b m IH]; intros lo Hwf Hall.
  - exfalso. apply (free_at_nil x), Hall. unfold in_range. lia.
  - destruct Hwf as (? & ? & ? & Hw). apply Exists_cons.
    assert (Hx : free_at (b :: m) x) by (apply Hall; unfold in_range; lia).
    apply free_at_cons in Hx as [Hx|Hx].
    + left. split; [lia|].
      destruct (Z.le_gt_cases (x + sz) (mb_offset b + mb_length b)) as [|Hgt]; [lia|].
      exfalso. assert (Hc : free_at (b :: m) (mb_offset b + mb_length b))
        by (apply Hall; unfold in_range; lia).
      apply free_at_cons in Hc as [Hc|Hc]; [lia|].
      pose proof (free_at_lower _ _ _ Hw Hc). lia.
    + right. eapply IH; [exact Hw|]. intros a Ha.
      specialize (Hall a Ha). apply free_at_cons in Hall as [Hc|Hc]; [|done].
      pose proof (free_at_lower _ _ _ Hw Hx). unfold in_range in Ha. lia.
Qed.

Lemma first_fit_complete al sz : is_align al -> 0 < sz ->
  forall m lo, wf_from lo m -> first_fit m sz al = None ->
  forall x, (al | x) -> ~ (forall a, in_range x sz a -> free_at m a).
Proof.
  intros Hal Hsz m lo Hwf Hnone x Hx Hall.
  pose proof (is_align_bound _ Hal).
  pose proof (free_run_in_block _ _ _ _ Hwf Hsz Hall) as Hex. clear Hall Hwf.
  induction m as [|b m IH]; [now apply Exists_nil in Hex|].
  simpl in Hnone.
  destruct (Z.leb_spec (sz + pad_to (mb_offset b) al) (mb_length b)); [discriminate|].
  apply Exists_cons in Hex as [[Hb1 Hb2]|Hex].
  - pose proof (pad_to_least (mb_offset b) al x ltac:(lia) Hb1 Hx). lia.
  - apply IH; [|done]. destruct (first_fit m sz al) as [[? ?]|]; done.
Qed.

Lemma first_fit_least al sz : is_align al -> 0 < sz ->
  forall m lo m' r, wf_from lo m -> first_fit m sz al = Some (m', r) ->
  forall x, (al | x) -> (forall a, in_range x sz a -> free_at m a) -> r <= x.
Proof.
  intros Hal Hsz m lo m' r Hwf Hff x Hx Hall. pose proof (is_align_bound _ Hal).
  pose proof (free_run_in_block _ _ _ _ Hwf Hsz Hall) as Hex. clear Hall.
  revert lo m' r Hwf Hff. induction m as [|b m IH]; intros lo m' r Hwf Hff; [discriminate|].
  simpl in Hff. destruct (Z.leb_spec (sz + pad_to (mb_offset b) al) (mb_length b)) as [Hfit|Hfit].
  - injection Hff as <- <-. apply (pad_to_least (mb_offset b) al x ltac:(lia)); [|exact Hx].
    pose proof Hwf as (? & ? & ? & Hw). apply Exists_cons in Hex as [[Hb1 Hb2]|Hex]; [exact Hb1|].
    pose proof (free_at_lower _ m x Hw) as Hl. enough (free_at m x) by (specialize (Hl H3); lia).
    apply Exists_exists in Hex as (c & Hc & ? & ?). apply Exists_exists. exists c. split; [exact Hc|]. lia.
  - apply Exists_cons in Hex as [[Hb1 Hb2]|Hex].
    { pose proof (pad_to_least (mb_offset b) al x ltac:(lia) Hb1 Hx). lia. }
    destruct (first_fit m sz al) as [[m1 r1]|]; [|discriminate]. injection Hff as <- <-.
    pose proof Hwf as (? & ? & ? & Hw). exact (IH Hex _ _ _ Hw eq_refl).
Qed.

(** ** Canonicity: a well-formed table is determined by its free bytes *)
Lemma wf_from_head_free lo b m : wf_from lo (b :: m) -> free_at (b :: m) (mb_offset b).
Proof. intros (?&?&?&?). apply free_at_cons. left. lia. Qed.

Lemma wf_canonical lo m1 m2 : wf_from lo m1 -> wf_from lo m2 ->
  (forall a, free_at m1 a <-> free_at m2 a) -> m1 = m2.
Proof.
  revert lo m2. induction m1 as [|b1 m1 IH]; intros lo [|b2 m2] H1 H2 Heq.
  - done.
  - exfalso. apply (free_at_nil (mb_offset b2)), Heq. now apply wf_from_head_free with lo.
  - exfalso. apply (free_at_nil (mb_offset b1)), Heq. now apply wf_from_head_free with lo.
  - pose proof (wf_from_head_free _ _ _ H1) as F1. pose proof (wf_from_head_free _ _ _ H2) as F2.
    apply Heq in F1. apply Heq in F2.
    pose proof H1 as (? & ? & ? & W1). pose proof H2 as (? & ? & ? & W2).
    apply free_at_cons in F1, F2.
    assert (Hoff : mb_offset b1 = mb_offset b2).
    { destruct F1 as [F1|F1]; [|pose proof (free_at_lower _ _ _ W2 F1)];
        (destruct F2 as [F2|F2]; [|pose proof (free_at_lower _ _ _ W1 F2)]); lia. }
    assert (Hend : mb_offset b1 + mb_length b1 = mb_offset b2 + mb_length b2).
    { assert (forall c m c' m', wf_from (mb_offset c + mb_length c + 1) m ->
        mb_offset c = mb_offset c' -> 0 < mb_length c ->
        (forall a, free_at (c :: m) a <-> free_at (c' :: m') a) ->
        mb_offset c' + mb_length c' <= mb_offset c + mb_length c) as Hle.
      { intros c m c' m' Hw Hcc Hlc He.
        destruct (Z.le_gt_cases (mb_offset c' + mb_length c') (mb_offset c + mb_length c)); [done|].
        assert (Hf : free_at (c :: m) (mb_offset c + mb_length c))
          by (apply He, free_at_cons; left; lia).
        apply free_at_cons in Hf as [Hf|Hf]; [lia|].
        pose proof (free_at_lower _ _ _ Hw Hf). lia. }
      apply Z.le_antisymm; [eapply (Hle b2 m2 b1 m1)|eapply (Hle b1 m1 b2 m2)]; done. }
    assert (b1 = b2) as -> by (destruct b1, b2; simpl in *; f_equal; lia).
    f_equal. apply (IH (mb_offset b2 + mb_length b2 + 1)); [done..|].
    intros a. specialize (Heq a). rewrite !free_at_cons in Heq.
    split; intros Ha; [pose proof (free_at_lower _ _ _ W1 Ha)|pose proof (free_at_lower _ _ _ W2 Ha)];
      destruct Heq as [E1 E2]; [destruct E1|destruct E2]; auto; lia.
Qed.

(** ** Freeing as a structural function *)
Fixpoint coalesce m (addr sz : Z) : list memory_block :=
  match m with
  | [] => [mk_block addr sz]
  | b :: m' =>
    if mb_offset b + mb_length b <? addr then b :: coalesce m' addr sz
    else if mb_offset b + mb_length b =? addr then
      match m' with
      | n :: m'' =>
        if mb_offset n =? addr + sz
        then mk_block (mb_offset b) (mb_length b + sz + mb_length n) :: m''
        else mk_block (mb_offset b) (mb_length b + sz) :: m'
      | [] => [mk_block (mb_offset b) (mb_length b + sz)]
      end
    else if mb_offset b =? addr + sz then mk_block addr (mb_length b + sz) :: m'
    else mk_block addr sz :: b :: m'
  end.

(** Whether an entry follows the current one. *)
Local Ltac case_next :=
  match goal with |- context [?x <? size ?l] =>
    let H := fresh "Hnext" in
    destruct (Z.ltb_spec x (size l)) as [H|H];
    unfold size in H; rewrite length_app in H; simpl in H end.

Lemma store_zip' pre b post x i : i = Z.of_nat (length pre) ->
  store (pre ++ b :: post) i x = Ok (pre ++ x :: post).
Proof. intros ->. apply store_zip. Qed.

Lemma free_loop_refines addr sz : 0 <= addr -> 0 < sz -> addr + sz < 2 ^ 32 ->
  forall fuel pre post lo, 0 <= lo -> wf_from lo post -> (length post < fuel)%nat ->
  (forall a, in_range addr sz a -> ~ free_at post a) ->
  size (pre ++ post) < MAX_NUM_MEMORY_BLOCKS ->
  free_loop fuel (pre ++ post) (Z.of_nat (length pre)) addr sz
  = Ok (pre ++ coalesce post addr sz).
Proof.
  intros Ha0 Hsz Ha1 fuel. induction fuel as [|fuel IH];
    intros pre post lo Hlo Hwf Hf Hdis Hcap; [lia|].
  simpl. destruct post as [|b post].
  - rewrite size_end. unfold emplace_back.
    destruct (Z.ltb_spec (size (pre ++ [])) MAX_NUM_MEMORY_BLOCKS); [|lia].
    now rewrite app_nil_r.
  - rewrite size_zip, fetch_zip. simpl.
    pose proof (wf_from_head _ _ _ Hlo Hwf) as [(? & ? & ?) Hu].
    pose proof Hwf as (_ & _ & _ & Hw). rewrite add32_small by lia.
    destruct (Z.ltb_spec (mb_offset b + mb_length b) addr).
    { destruct (next_zip pre b post) as [Hn Hp]. rewrite Hp in *. rewrite Hn, IH with (lo := mb_offset b + mb_length b + 1);
        [now rewrite <- app_assoc | lia | done | simpl in Hf; lia | | done].
      intros a Ha Hfa. apply (Hdis a Ha), free_at_cons. auto. }
    destruct (Z.eqb_spec (mb_offset b + mb_length b) addr) as [E|E].
    + rewrite (add32_small addr sz), (add32_small (mb_length b) sz) by lia.
      rewrite store_zip. simpl. destruct post as [|n post].
      * case_next; [lia | done].
      * case_next; [|lia].
        destruct (next_zip pre (mk_block (mb_offset b) (mb_length b + sz)) (n :: post)) as [Hn Hp].
        rewrite Hp at 1. rewrite Hn, fetch_zip. simpl.
        destruct (Z.eqb_spec (mb_offset n) (addr + sz)); [|done].
        rewrite store_zip. simpl. destruct Hw as (? & ? & ? & Hw).
        rewrite add32_small by lia.
        destruct (next_zip pre (mk_block (mb_offset b) (mb_length b + sz + mb_length n)) (n :: post)) as [_ Hp2].
        rewrite Hp2. rewrite length_app; simpl length.
        replace (length pre + 1)%nat with (length (pre ++ [mk_block (mb_offset b) (mb_length b + sz + mb_length n)]))
          by (rewrite length_app; simpl; lia).
        rewrite erase_zip; [now rewrite <- app_assoc|].
        unfold size in Hcap. rewrite !length_app in *. simpl in *. lia.
    + rewrite add32_small by lia.
      destruct (Z.eqb_spec (mb_offset b) (addr + sz)).
      * rewrite add32_small by lia. now rewrite store_zip.
      * now rewrite emplace_zip.
Qed.

Lemma coalesce_spec addr sz : 0 <= addr -> 0 < sz -> addr + sz < 2 ^ 32 ->
  forall m lo, lo <= addr -> wf_from lo m ->
  (forall a, in_range addr sz a -> ~ free_at m a) ->
  wf_from lo (coalesce m addr sz)
  /\ forall a, free_at (coalesce m addr sz) a <-> free_at m a \/ in_range addr sz a.
Proof.
  intros Ha0 Hsz Ha1 m. unfold in_range.
  induction m as [|b m IH]; intros lo Hlo Hwf Hdis.
  - simpl. split; [lia|]. intros a. rewrite free_at_cons, free_at_nil. simpl. tauto.
  - pose proof Hwf as (H1 & H2 & H3 & Hw). simpl.
    assert (Hb : addr + sz <= mb_offset b \/ mb_offset b + mb_length b <= addr).
    { destruct (Z.le_gt_cases (addr + sz) (mb_offset b)); [auto|].
      destruct (Z.le_gt_cases (mb_offset b + mb_length b) addr); [auto|].
      exfalso. apply (Hdis (Z.max addr (mb_offset b))); [lia|].
      apply free_at_cons. left. lia. }
    assert (Hdis' : forall a, addr <= a < addr + sz -> ~ free_at m a).
    { intros a Ha Hfa. apply (Hdis a Ha), free_at_cons. auto. }
    destruct (Z.ltb_spec (mb_offset b + mb_length b) addr).
    + destruct (IH (mb_offset b + mb_length b + 1) ltac:(lia) Hw Hdis') as [Hwf' Hiff].
      split; [simpl; auto|]. intros a. rewrite !free_at_cons, Hiff. tauto.
    + destruct (Z.eqb_spec (mb_offset b + mb_length b) addr).
      * destruct m as [|n m].
        { simpl. split; [lia|]. intros a. rewrite !free_at_cons, free_at_nil. simpl. lia. }
        pose proof Hw as (? & ? & ? & Hw').
        assert (~ (mb_offset n < addr + sz)).
        { intros Hlt. apply (Hdis' (mb_offset n)); [lia|]. now apply wf_from_head_free with (lo := mb_offset b + mb_length b + 1). }
        destruct (Z.eqb_spec (mb_offset n) (addr + sz)) as [En|En].
        { split; [simpl; repeat split; try lia; eapply wf_from_weaken; [|exact Hw']; lia|].
          intros a. rewrite !free_at_cons. simpl.
          assert (mb_offset b <= a < mb_offset b + (mb_length b + sz + mb_length n) <->
                  (mb_offset b <= a < mb_offset b + mb_length b
                   \/ mb_offset n <= a < mb_offset n + mb_length n) \/ addr <= a < addr + sz) by lia.
          tauto. }
        split; [simpl; repeat split; try lia; done|].
        intros a. rewrite !(free_at_cons _ (n :: m)). simpl.
        assert (mb_offset b <= a < mb_offset b + (mb_length b + sz) <->
                mb_offset b <= a < mb_offset b + mb_length b \/ addr <= a < addr + sz) by lia.
        tauto.
      * destruct (Z.eqb_spec (mb_offset b) (addr + sz)).
        { split; [simpl; repeat split; try lia; eapply wf_from_weaken; [|exact Hw]; lia|].
          intros a. rewrite !free_at_cons. simpl.
          assert (addr <= a < addr + (mb_length b + sz) <->
                  mb_offset b <= a < mb_offset b + mb_length b \/ addr <= a < addr + sz) by lia.
          tauto. }
        split; [simpl; repeat split; try lia; done|].
        intros a. rewrite !free_at_cons. simpl. tauto.
Qed.

(** ** Reserving as interval subtraction *)
Fixpoint remove_range m (a e : Z) : list memory_block :=
  match m with
  | [] => []
  | b :: m' =>
    let lo := Z.max a (mb_offset b) in
    let hi := Z.min e (mb_offset b + mb_length b) in
    (if lo <? hi then carve b (lo - mb_offset b) (hi - lo) else [b]) ++ remove_range m' a e
  end.

Lemma remove_range_beyond lo m a e : wf_from lo m -> e <= lo -> remove_range m a e = m.
Proof.
  revert lo. induction m as [|b m IH]; intros lo Hwf He; [done|].
  destruct Hwf as (? & ? & ? & Hw). simpl.
  destruct (Z.ltb_spec (Z.max a (mb_offset b)) (Z.min e (mb_offset b + mb_length b))); [lia|].
  simpl. f_equal. apply (IH _ Hw). lia.
Qed.

Lemma remove_range_shift lo m a a' e : wf_from lo m -> a <= lo -> a' <= lo ->
  remove_range m a e = remove_range m a' e.
Proof.
  revert lo. induction m as [|b m IH]; intros lo Hwf Ha Ha'; [done|].
  destruct Hwf as (? & ? & ? & Hw). simpl.
  rewrite !Z.max_r by lia. f_equal. apply (IH _ Hw); lia.
Qed.

Lemma remove_range_spec a e : forall m lo, wf_from lo m ->
  wf_from lo (remove_range m a e)
  /\ forall x, free_at (remove_range m a e) x <-> free_at m x /\ ~ (a <= x < e).
Proof.
  induction m as [|b m IH]; intros lo Hwf.
  { simpl. split; [done|]. intros x. rewrite free_at_nil. tauto. }
  pose proof Hwf as (? & ? & ? & Hw). destruct (IH _ Hw) as [Hw' Hiff]. simpl.
  destruct (Z.ltb_spec (Z.max a (mb_offset b)) (Z.min e (mb_offset b + mb_length b))).
  - split; [apply wf_carve; try lia; simpl; auto|].
    intros x. rewrite free_at_app, free_at_carve, free_at_cons, Hiff by lia. unfold in_range.
    assert (Hx : mb_offset b <= x < mb_offset b + mb_length b /\
      ~ (mb_offset b + (Z.max a (mb_offset b) - mb_offset b) <= x <
         mb_offset b + (Z.max a (mb_offset b) - mb_offset b)
         + (Z.min e (mb_offset b + mb_length b) - Z.max a (mb_offset b)))
      <-> mb_offset b <= x < mb_offset b + mb_length b /\ ~ (a <= x < e)) by lia.
    tauto.
  - split; [simpl; auto|]. intros x. simpl. rewrite !free_at_cons, Hiff.
    assert (mb_offset b <= x < mb_offset b + mb_length b -> ~ (a <= x < e)) by lia.
    tauto.
Qed.

Lemma carve_whole b : 0 < mb_length b -> carve b 0 0 = [b] /\ carve b (mb_length b) 0 = [b].
Proof.
  intros H. destruct b as [o l]; unfold carve; simpl in *. split.
  - rewrite !Z.add_0_r, Z.sub_0_r. destruct (Z.eqb_spec l 0); [lia|done].
  - destruct (Z.ltb_spec 0 l); [|lia]. destruct (Z.eqb_spec (l - (0 + l)) 0); [done|lia].
Qed.

Lemma carve_length b off sz : sz + off = mb_length b \/ off = 0 ->
  (length (carve b off sz) <= 1)%nat.
Proof.
  unfold carve. intros H. rewrite length_app.
  destruct (Z.ltb_spec 0 off), (Z.eqb_spec (mb_length b - (sz + off)) 0); simpl; lia.
Qed.

(** The guard of the loop body decides whether the (remaining) request meets
    the block, and then claims exactly the intersection. *)
Lemma reserve_claim pre b post addr sz :
  block_ok b -> mb_offset b <= addr -> 0 <= sz -> addr + sz < 2 ^ 32 ->
  (0 < sz \/ addr = mb_offset b) ->
  size (pre ++ b :: post) < MAX_NUM_MEMORY_BLOCKS ->
  let avail := sub32 (mb_length b) (sub32 addr (mb_offset b)) in
  let claimed := if avail <? sz then avail else sz in
  let padding := sub32 addr (mb_offset b) in
  let met := if addr <? Z.min (addr + sz) (mb_offset b + mb_length b)
             then carve b (addr - mb_offset b) (Z.min (addr + sz) (mb_offset b + mb_length b) - addr)
             else [b] in
  (mb_offset b + mb_length b < addr /\ (add32 claimed padding <=? mb_length b) = false /\ met = [b])
  \/ (addr <= mb_offset b + mb_length b /\ (add32 claimed padding <=? mb_length b) = true
      /\ claimed = Z.min sz (mb_offset b + mb_length b - addr)
      /\ claim_from_block (pre ++ b :: post) (Z.of_nat (length pre)) padding claimed
         = Ok (pre ++ met ++ post, Z.of_nat (length pre) + Z.of_nat (length met) - 1)
      /\ (0 < sz - claimed -> (length met <= 1)%nat)).
Proof.
  intros Hok Ho Hs He Hor Hcap. pose proof Hok as (? & ? & ?). simpl.
  rewrite (sub32_small addr) by lia.
  destruct (Z.le_gt_cases addr (mb_offset b + mb_length b)) as [Hle|Hgt].
  - right. rewrite sub32_small by lia. split; [done|].
    set (cl := if _ <? _ then _ else _).
    assert (Hcl : cl = Z.min sz (mb_offset b + mb_length b - addr)).
    { unfold cl. destruct (Z.ltb_spec (mb_length b - (addr - mb_offset b)) sz); lia. }
    rewrite Hcl. rewrite add32_small by lia. split; [apply Z.leb_le; lia|].
    split; [done|].
    assert (Hmet : (if addr <? Z.min (addr + sz) (mb_offset b + mb_length b)
             then carve b (addr - mb_offset b) (Z.min (addr + sz) (mb_offset b + mb_length b) - addr)
             else [b]) = carve b (addr - mb_offset b) (Z.min sz (mb_offset b + mb_length b - addr))).
    { destruct (Z.ltb_spec addr (Z.min (addr + sz) (mb_offset b + mb_length b))).
      - f_equal. lia.
      - destruct (carve_whole b ltac:(lia)) as [C1 C2].
        replace (Z.min sz (mb_offset b + mb_length b - addr)) with 0 by lia.
        destruct (Z.eq_dec addr (mb_offset b)).
        + replace (addr - mb_offset b) with 0 by lia. done.
        + replace (addr - mb_offset b) with (mb_length b) by lia. done. }
    rewrite Hmet. split.
    + apply claim_zip; [done | lia | lia | lia | exact Hcap].
    + intros Hrest. apply carve_length. lia.
  - left. split; [done|]. rewrite sub32_neg by lia.
    destruct (Z.ltb_spec (mb_length b - (addr - mb_offset b) + 2 ^ 32) sz); [lia|].
    rewrite add32_small by lia. split; [apply Z.leb_gt; lia|].
    destruct (Z.ltb_spec addr (Z.min (addr + sz) (mb_offset b + mb_length b))); [lia|done].
Qed.

Lemma remove_range_head b post addr e : mb_offset b <= addr ->
  (if addr <? Z.min e (mb_offset b + mb_length b)
   then carve b (addr - mb_offset b) (Z.min e (mb_offset b + mb_length b) - addr)
   else [b]) ++ remove_range post addr e = remove_range (b :: post) addr e.
Proof. intros H. simpl. now rewrite Z.max_l by lia. Qed.

Lemma reserve_loop_refines :
  forall fuel pre post lo addr sz, 0 <= lo -> wf_from lo post -> (length post < fuel)%nat ->
  0 <= addr -> 0 < sz -> addr + sz < 2 ^ 32 ->
  size (pre ++ post) < MAX_NUM_MEMORY_BLOCKS ->
  reserve_loop fuel (pre ++ post) (Z.of_nat (length pre)) addr sz
  = Ok (pre ++ remove_range post addr (addr + sz)).
Proof.
  induction fuel as [|fuel IH]; intros pre post lo addr0 sz0 Hlo Hwf Hf Ha0 Hs0 He Hcap; [lia|].
  simpl. destruct post as [|b post]; [now rewrite size_end|].
  rewrite size_zip, fetch_zip. simpl.
  destruct (wf_from_head _ _ _ Hlo Hwf) as [Hok Hu]. pose proof Hok as (? & ? & ?).
  pose proof Hwf as (_ & _ & _ & Hw). rewrite (add32_small addr0 sz0) by lia.
  destruct (Z.ltb_spec (addr0 + sz0) (mb_offset b)) as [Hbey|Hbey].
  { change (Ok (pre ++ b :: post) = Ok (pre ++ remove_range (b :: post) addr0 (addr0 + sz0))).
    rewrite (remove_range_beyond (mb_offset b)); [done| |lia]. simpl. auto with lia. }
  change ((if Z.max addr0 (mb_offset b) <? Z.min (addr0 + sz0) (mb_offset b + mb_length b)
           then _ else [b]) ++ remove_range post addr0 (addr0 + sz0))
    with (remove_range (b :: post) addr0 (addr0 + sz0)).
  set (addr := Z.max addr0 (mb_offset b)). set (sz := addr0 + sz0 - addr).
  assert (Hpair : (if addr0 <? mb_offset b
    then (mb_offset b, sub32 sz0 (sub32 (mb_offset b) addr0)) else (addr0, sz0)) = (addr, sz)).
  { unfold sz, addr. destruct (Z.ltb_spec addr0 (mb_offset b)).
    - rewrite (sub32_small (mb_offset b)) by lia. rewrite sub32_small by lia. f_equal; lia.
    - f_equal; lia. }
  rewrite Hpair. clear Hpair.
  assert (Hrr : remove_range (b :: post) addr0 (addr0 + sz0)
                = remove_range (b :: post) addr (addr + sz)).
  { unfold sz. replace (addr + (addr0 + sz0 - addr)) with (addr0 + sz0) by lia.
    unfold addr. destruct (Z.max_spec addr0 (mb_offset b)) as [[? ->]|[? ->]]; [|done].
    apply (remove_range_shift (mb_offset b)); [simpl; auto with lia|lia|lia]. }
  rewrite Hrr. clear Hrr.
  assert (Hszor : 0 < sz \/ addr = mb_offset b) by lia.
  assert (0 <= sz) by lia. assert (mb_offset b <= addr) by lia.
  assert (Heq : addr + sz < 2 ^ 32) by lia. clearbody addr sz. clear Hbey He Hs0 Ha0 addr0 sz0.
  rewrite <- remove_range_head by done.
  destruct (reserve_claim pre b post addr sz) as
    [(Hfar & Hg & Hmet)|(Hnear & Hg & Hcl & Hclaim & Hlen)]; try done; cbv zeta in *.
  - (* the block ends before the request *)
    rewrite Hg, Hmet. simpl.
    destruct (Z.eqb_spec sz 0); [lia|].
    destruct (next_zip pre b post) as [Hn Hp]. rewrite Hp in *. rewrite Hn.
    rewrite (IH _ _ (mb_offset b + mb_length b + 1)); try lia; try done.
    + now rewrite <- app_assoc.
    + simpl in Hf. lia.
  - rewrite Hg. simpl. rewrite Hclaim. simpl.
    set (claimed := if _ <? sz then _ else _) in *.
    set (met := if addr <? _ then _ else [b]) in *. clearbody claimed met.
    rewrite (add32_small addr) by lia. rewrite (sub32_small sz) by lia.
    destruct (Z.eqb_spec (sz - claimed) 0).
    + do 3 f_equal. symmetry. apply (remove_range_beyond _ _ _ _ Hw). lia.
    + specialize (Hlen ltac:(lia)).
      replace (Z.of_nat (length pre) + Z.of_nat (length met) - 1 + 1)
        with (Z.of_nat (length (pre ++ met))) by (rewrite length_app; lia).
      rewrite app_assoc. rewrite (IH _ _ (mb_offset b + mb_length b + 1)); try lia; try done.
      * rewrite <- app_assoc. do 3 f_equal. replace (addr + claimed + (sz - claimed)) with (addr + sz) by lia.
        eapply remove_range_shift; [exact Hw|lia|lia].
      * simpl in Hf. lia.
      * unfold size in *. rewrite !length_app in *. simpl in *. lia.
Qed.

(** ** Allocation in an address window *)
Definition align_up (a al : Z) : Z := a + pad_to a al.

(** The first candidate address in a block for a window starting at [start]. *)
Definition window_candidate b (start al : Z) : Z :=
  if align_up (mb_offset b) al <? start then align_up start al
  else align_up (mb_offset b) al.

Fixpoint range_fit m (start end_ sz al : Z) : option (list memory_block * Z) :=
  match m with
  | [] => None
  | b :: m' =>
    let skip := '(m'', r) ← range_fit m' start end_ sz al; Some (b :: m'', r) in
    if (align_up (mb_offset b) al <? start) && (mb_offset b + mb_length b <? start)
    then skip
    else
      let x := window_candidate b start al in
      if end_ <? x + sz then None
      else if sz + (x - mb_offset b) <=? mb_length b
           then Some (carve b (x - mb_offset b) sz ++ m', x)
           else skip
  end.

Lemma align_up_range a al : 0 < al -> a <= align_up a al < a + al.
Proof. intros H. unfold align_up. pose proof (pad_to_range a al H). lia. Qed.

Lemma window_candidate_spec b start al : 0 < al ->
  (al | window_candidate b start al) /\ start <= window_candidate b start al
  /\ mb_offset b <= window_candidate b start al
  /\ (forall y, (al | y) -> start <= y -> mb_offset b <= y -> window_candidate b start al <= y).
Proof.
  intros Hal. unfold window_candidate.
  pose proof (align_up_range (mb_offset b) al Hal).
  pose proof (align_up_range start al Hal).
  destruct (Z.ltb_spec (align_up (mb_offset b) al) start); simpl;
    (split; [now apply pad_to_divide|]); (split; [lia|]); (split; [lia|]);
    intros y ? ? ?; apply pad_to_least; lia || done.
Qed.

Lemma range_loop_refines al start end_ sz lim :
  is_align al -> 0 < sz -> 0 <= start <= lim -> 0 <= end_ <= lim -> lim + sz + al <= 2 ^ 32 ->
  forall fuel pre post lo, 0 <= lo -> wf_from lo post -> (length post < fuel)%nat ->
  Forall (fun b => mb_offset b + mb_length b <= lim) post ->
  size (pre ++ post) < MAX_NUM_MEMORY_BLOCKS ->
  allocate_in_range_loop fuel (pre ++ post) (Z.of_nat (length pre)) start end_ sz al
  = Ok (match range_fit post start end_ sz al with
        | Some (m', r) => (pre ++ m', r) | None => (pre ++ post, 0) end).
Proof.
  intros Hal Hsz Hst Hen Hov fuel.
  induction fuel as [|fuel IH]; intros pre post lo Hlo Hwf Hf Hlim Hcap; [lia|].
  pose proof (is_align_bound _ Hal) as Hb. simpl.
  destruct post as [|b post]; [now rewrite size_end|].
  rewrite size_zip, fetch_zip. simpl.
  destruct (wf_from_head _ _ _ Hlo Hwf) as [Hok Hu]. pose proof Hok as (? & ? & ?).
  pose proof Hwf as (_ & _ & _ & Hw). apply Forall_cons in Hlim as [Hlb Hlim].
  assert (Hskip : allocate_in_range_loop fuel (pre ++ b :: post)
      (Z.of_nat (length pre) + 1) start end_ sz al
    = Ok match ('(m'', r) ← range_fit post start end_ sz al; Some (b :: m'', r)) with
         | Some (m', r) => (pre ++ m', r) | None => (pre ++ b :: post, 0) end).
  { destruct (next_zip pre b post) as [Hn Hp]. rewrite Hp in *. rewrite Hn.
    rewrite (IH _ _ (mb_offset b + mb_length b + 1)); [| lia | done | simpl in Hf; lia | done | done].
    destruct (range_fit post start end_ sz al) as [[m' r]|]; simpl; now rewrite <- app_assoc. }
  pose proof (align_up_range (mb_offset b) al ltac:(lia)) as Hup.
  pose proof (align_up_range start al ltac:(lia)) as Hups.
  rewrite (align_addr_spec (mb_offset b)) by done. simpl. fold (align_up (mb_offset b) al).
  rewrite (u32_small (align_up _ _)) by (unfold is_u32; lia). rewrite add32_small by lia.
  destruct ((align_up (mb_offset b) al <? start) && _); [exact Hskip|].
  assert (Hx : (if align_up (mb_offset b) al <? start then align_addr start al
                else Ok (align_up (mb_offset b) al)) = Ok (window_candidate b start al)).
  { unfold window_candidate. destruct (align_up (mb_offset b) al <? start); [|done].
    rewrite align_addr_spec by (try done; unfold is_u32; lia).
    fold (align_up start al). now rewrite u32_small by (unfold is_u32; lia). }
  rewrite Hx. simpl.
  assert (Hxb : mb_offset b <= window_candidate b start al < lim + al).
  { destruct (window_candidate_spec b start al ltac:(lia)) as (_ & _ & ? & _).
    split; [done|]. unfold window_candidate. destruct (_ <? _); lia. }
  rewrite (add32_small _ sz) by lia.
  destruct (Z.ltb_spec end_ (window_candidate b start al + sz)); [done|].
  rewrite sub32_small by lia. rewrite add32_small by lia.
  destruct (Z.leb_spec (sz + (window_candidate b start al - mb_offset b)) (mb_length b));
    [|exact Hskip].
  rewrite claim_zip by (lia || done). done.
Qed.

Lemma range_fit_sound al start end_ sz : is_align al -> 0 < sz ->
  forall m lo m' r, wf_from lo m -> range_fit m start end_ sz al = Some (m', r) ->
  wf_from lo m' /\ lo <= r /\ start <= r /\ r + sz <= end_ /\ (al | r)
  /\ (forall a, in_range r sz a -> free_at m a)
  /\ (forall a, free_at m' a <-> free_at m a /\ ~ in_range r sz a).
Proof.
  intros Hal Hsz m. pose proof (is_align_bound _ Hal) as Hb.
  induction m as [|b m IH]; intros lo m' r Hwf Hff; [discriminate|].
  pose proof Hwf as (? & ? & ? & Hw).
  assert (Hskip : ('(m'', r) ← range_fit m start end_ sz al; Some (b :: m'', r)) = Some (m', r) ->
    wf_from lo m' /\ lo <= r /\ start <= r /\ r + sz <= end_ /\ (al | r)
    /\ (forall a, in_range r sz a -> free_at (b :: m) a)
    /\ (forall a, free_at m' a <-> free_at (b :: m) a /\ ~ in_range r sz a)).
  { intros E. destruct (range_fit m start end_ sz al) as [[m1 r1]|] eqn:E1; [|discriminate].
    injection E as <- <-. destruct (IH _ _ _ Hw eq_refl) as (W & ? & ? & ? & ? & Hin & Hiff).
    split; [simpl; auto with lia|]. do 4 (split; [first [done | lia]|]). split.
    - intros a Ha. apply free_at_cons. auto.
    - intros a. rewrite !free_at_cons, Hiff. unfold in_range.
      assert (mb_offset b <= a < mb_offset b + mb_length b -> ~ (r1 <= a < r1 + sz)) by lia.
      tauto. }
  simpl in Hff. destruct ((align_up (mb_offset b) al <? start) && _); [auto|].
  destruct (window_candidate_spec b start al ltac:(lia)) as (Hd & Hs & Ho & _).
  set (x := window_candidate b start al) in *. clearbody x.
  destruct (Z.ltb_spec end_ (x + sz)); [discriminate|].
  destruct (Z.leb_spec (sz + (x - mb_offset b)) (mb_length b)); [|auto].
  injection Hff as <- <-. split; [apply wf_carve; (lia || done)|].
  do 4 (split; [first [done | lia]|]). unfold in_range. split.
  - intros a Ha. apply free_at_cons. lia.
  - intros a. rewrite free_at_app, free_at_cons, free_at_carve by lia. unfold in_range.
    replace (mb_offset b + (x - mb_offset b)) with x by lia.
    assert (free_at m a -> ~ (x <= a < x + sz)).
    { intros Hc. pose proof (free_at_lower _ _ _ Hw Hc). lia. }
    tauto.
Qed.

Lemma range_fit_complete al start end_ sz : is_align al -> 0 < sz ->
  forall m lo, wf_from lo m -> range_fit m start end_ sz al = None ->
  forall x, (al | x) -> start <= x -> x + sz <= end_ ->
  ~ (forall a, in_range x sz a -> free_at m a).
Proof.
  intros Hal Hsz m lo Hwf Hnone x Hx Hs He Hall.
  pose proof (is_align_bound _ Hal) as Hb.
  pose proof (free_run_in_block _ _ _ _ Hwf Hsz Hall) as Hex. clear Hall.
  revert lo Hwf Hnone. induction m as [|b m IH]; intros lo Hwf Hnone;
    [now apply Exists_nil in Hex|].
  pose proof Hwf as (? & ? & ? & Hw).
  apply Exists_cons in Hex.
  assert (Hxb : mb_offset b <= x).
  { destruct Hex as [|Hex]; [lia|]. apply Exists_exists in Hex as (c & Hin & Hc & _).
    enough (mb_offset b + mb_length b + 1 <= mb_offset c) by lia.
    clear -Hw Hin. revert Hw. generalize (mb_offset b + mb_length b + 1).
    induction m as [|d m IHm]; intros lo' Hw; [now apply elem_of_nil in Hin|].
    destruct Hw as (? & ? & ? & Hw). apply elem_of_cons in Hin as [->|Hin]; [lia|].
    specialize (IHm Hin _ Hw). lia. }
  assert (Hskip : ('(m'', r) ← range_fit m start end_ sz al; Some (b :: m'', r)) = None ->
    ~ (x + sz <= mb_offset b + mb_length b) -> False).
  { intros E Hn. destruct Hex as [|Hex]; [lia|]. apply (IH Hex _ Hw).
    destruct (range_fit m start end_ sz al) as [[? ?]|]; done. }
  simpl in Hnone.
  destruct (window_candidate_spec b start al ltac:(lia)) as (_ & _ & _ & Hleast).
  specialize (Hleast x Hx Hs Hxb). set (y := window_candidate b start al) in *. clearbody y.
  destruct (Z.ltb_spec (align_up (mb_offset b) al) start) as [|],
    (Z.ltb_spec (mb_offset b + mb_length b) start) as [|]; simpl in Hnone;
    try (apply Hskip; [done|lia]);
    (destruct (Z.ltb_spec end_ (y + sz)); [lia|]);
    (destruct (Z.leb_spec (sz + (y - mb_offset b)) (mb_length b)); [discriminate|]);
    apply Hskip; done || lia.
Qed.

(** ** Accounting *)
Definition total m : Z := foldr (fun b acc => mb_length b + acc) 0 m.

Lemma total_app m1 m2 : total (m1 ++ m2) = total m1 + total m2.
Proof. induction m1 as [|b m1 IH]; simpl; [done|]. rewrite IH. lia. Qed.

Lemma total_carve b off sz : 0 <= off -> 0 <= sz -> sz + off <= mb_length b ->
  total (carve b off sz) = mb_length b - sz.
Proof.
  intros. unfold carve. rewrite total_app.
  destruct (Z.ltb_spec 0 off), (Z.eqb_spec (mb_length b - (sz + off)) 0); simpl; lia.
Qed.

Lemma total_bound lo m : 0 <= lo <= 2 ^ 32 -> wf_from lo m -> 0 <= total m <= 2 ^ 32 - lo.
Proof.
  revert lo. induction m as [|b m IH]; simpl; intros lo Hlo Hwf; [lia|].
  destruct Hwf as (? & ? & ? & Hw).
  specialize (IH (mb_offset b + mb_length b + 1) ltac:(lia) Hw). lia.
Qed.

Lemma total_first_fit sz al m : 0 < sz -> 0 < al -> forall m' r,
  first_fit m sz al = Some (m', r) -> total m' = total m - sz.
Proof.
  intros Hsz Hal. induction m as [|b m IH]; simpl; intros m' r Hff; [discriminate|].
  pose proof (pad_to_range (mb_offset b) al Hal).
  destruct (Z.leb_spec (sz + pad_to (mb_offset b) al) (mb_length b)).
  - injection Hff as <- <-. rewrite total_app, total_carve by lia. lia.
  - destruct (first_fit m sz al) as [[m1 r1]|]; [|discriminate]. injection Hff as <- <-.
    simpl. rewrite (IH _ _ eq_refl). lia.
Qed.

Lemma total_coalesce addr sz m : total (coalesce m addr sz) = total m + sz.
Proof.
  induction m as [|b m IH]; simpl; [lia|].
  destruct (_ <? _); [simpl; lia|]. destruct (_ =? _).
  - destruct m as [|n m]; simpl; [lia|]. destruct (_ =? _); simpl; lia.
  - destruct (_ =? _); simpl; lia.
Qed.

Lemma num_bytes_free_total m : wf m -> physical_num_bytes_free m = u32 (total m).
Proof.
  intros Hwf. unfold physical_num_bytes_free.
  enough (forall acc, is_u32 acc ->
    fold_left (fun sum b => add32 sum (mb_length b)) m acc = u32 (acc + total m)) as H
    by (rewrite H; [done|unfold is_u32; lia]).
  clear Hwf. induction m as [|b m IH]; intros acc Hacc; simpl.
  - rewrite Z.add_0_r. now rewrite u32_small.
  - rewrite IH by apply u32_range. unfold add32, u32, wrap.
    rewrite Zplus_mod_idemp_l. f_equal. lia.
Qed.

(** ** Properties *)

Lemma allocate_first_fit m sz al : wf m -> size m < MAX_NUM_MEMORY_BLOCKS ->
  0 < sz -> is_align al -> sz + al <= 2 ^ 32 ->
  physical_memory_allocate m sz al
  = Ok (match first_fit m sz al with Some p => p | None => (m, 0) end).
Proof.
  intros Hwf Hcap Hsz Hal Hov. unfold physical_memory_allocate.
  etransitivity; [exact (allocate_loop_refines al sz Hal Hsz Hov (S (length m)) [] m 0
    ltac:(lia) Hwf ltac:(lia) Hcap)|].
  now destruct (first_fit m sz al) as [[? ?]|].
Qed.

Lemma free_coalesce m addr sz : wf m -> size m < MAX_NUM_MEMORY_BLOCKS ->
  0 <= addr -> 0 < sz -> addr + sz < 2 ^ 32 ->
  (forall a, in_range addr sz a -> ~ free_at m a) ->
  physical_memory_free m addr sz = Ok (coalesce m addr sz).
Proof.
  intros Hwf Hcap ? ? ? Hdis. unfold physical_memory_free.
  exact (free_loop_refines addr sz ltac:(lia) ltac:(lia) ltac:(lia) (S (length m)) [] m 0
    ltac:(lia) Hwf ltac:(lia) Hdis Hcap).
Qed.

Lemma reserve_remove m addr sz : wf m -> size m < MAX_NUM_MEMORY_BLOCKS ->
  0 <= addr -> 0 < sz -> addr + sz < 2 ^ 32 ->
  physical_memory_reserve m addr sz = Ok (remove_range m addr (addr + sz)).
Proof.
  intros Hwf Hcap ? ? ?. unfold physical_memory_reserve.
  exact (reserve_loop_refines (S (length m)) [] m 0 addr sz
    ltac:(lia) Hwf ltac:(lia) ltac:(lia) ltac:(lia) ltac:(lia) Hcap).
Qed.

Lemma physical_memory_allocate_spec m sz al :
  wf m -> size m < MAX_NUM_MEMORY_BLOCKS -> 0 < sz -> is_align al -> sz + al <= 2 ^ 32 ->
  exists m' r, physical_memory_allocate m sz al = Ok (m', r) /\ wf m' /\
    (((al | r) /\ (forall a, in_range r sz a -> free_at m a)
      /\ (forall a, free_at m' a <-> free_at m a /\ ~ in_range r sz a))
     \/ (m' = m /\ r = 0
         /\ forall x, (al | x) -> ~ (forall a, in_range x sz a -> free_at m a))).
Proof.
  intros Hwf Hcap Hsz Hal Hov. rewrite allocate_first_fit by done.
  destruct (first_fit m sz al) as [[m' r]|] eqn:E.
  - destruct (first_fit_sound al sz Hal Hsz m 0 m' r ltac:(lia) Hwf E) as (? & ? & ? & ? & ?).
    exists m', r. split; [done|]. split; [done|]. left. auto.
  - exists m, 0. split; [done|]. split; [done|]. right. split; [done|]. split; [done|].
    exact (first_fit_complete al sz Hal Hsz m 0 Hwf E).
Qed.

(** An aligned run of [sz] free bytes at [x]. *)
Definition free_run (m : list memory_block) (sz al x : Z) : Prop :=
  (al | x) /\ forall a, in_range x sz a -> free_at m a.

(** C1: [physical_memory_allocate] is a correct and complete first-fit allocator: on a
    well-formed table with room for one more entry it ends without a fault.  When an
    aligned run of [sz] free bytes exists, the lowest one is returned and exactly its bytes
    are removed from the table; when none exists, the table stays as it is and the result
    is 0.  (The run at address 0 has the result 0 too, [page_zero_is_lost].) *)
Theorem physical_memory_allocate_correct m sz al :
  wf m -> size m < MAX_NUM_MEMORY_BLOCKS -> 0 < sz -> is_align al -> sz + al <= 2 ^ 32 ->
  exists m' r, physical_memory_allocate m sz al = Ok (m', r) /\ wf m' /\
    ((free_run m sz al r /\ (forall x, free_run m sz al x -> r <= x)
      /\ (forall a, free_at m' a <-> free_at m a /\ ~ in_range r sz a))
     \/ ((forall x, ~ free_run m sz al x) /\ m' = m /\ r = 0)).
Proof.
  intros Hwf Hcap Hsz Hal Hov. rewrite allocate_first_fit by done.
  destruct (first_fit m sz al) as [[m' r]|] eqn:E.
  - destruct (first_fit_sound al sz Hal Hsz m 0 m' r ltac:(lia) Hwf E) as (? & ? & ? & ? & ?).
    exists m', r. split; [done|]. split; [done|]. left. split; [split; done|]. split; [|done].
    intros x [Hx Hall]. exact (first_fit_least al sz Hal Hsz m 0 m' r Hwf E x Hx Hall).
  - exists m, 0. split; [done|]. split; [done|]. right. split; [|done].
    intros x [Hx Hall]. exact (first_fit_complete al sz Hal Hsz m 0 Hwf E x Hx Hall).
Qed.

(** When page 0 is in the table it is handed out with the result that means failure. *)
Example page_zero_is_lost : physical_memory_allocate [mk_block 0 0x1000] 0x1000 0x1000 = Ok ([], 0).
Proof. reflexivity. Qed.

Definition wit_map : list memory_block := [mk_block 0x500 0x6B00; mk_block 0x7200 0x97E00].

Lemma wit_map_wf : wf wit_map.
Proof. unfold wf, wit_map; simpl. lia. Defined.

Lemma is_align_page : is_align 0x1000.
Proof. exists 12. split; [lia|reflexivity]. Defined.

Lemma physical_memory_allocate_correct_witness :
  exists m' r, physical_memory_allocate wit_map 0x1000 0x1000 = Ok (m', r) /\ wf m' /\
    ((free_run wit_map 0x1000 0x1000 r /\ (forall x, free_run wit_map 0x1000 0x1000 x -> r <= x)
      /\ (forall a, free_at m' a <-> free_at wit_map a /\ ~ in_range r 0x1000 a))
     \/ ((forall x, ~ free_run wit_map 0x1000 0x1000 x) /\ m' = wit_map /\ r = 0)).
Proof.
  apply (physical_memory_allocate_correct wit_map 0x1000 0x1000);
    [exact wit_map_wf | reflexivity | lia | exact is_align_page | lia].
Defined.

(** C2: [physical_memory_free] of a region that is not free adds exactly that
    region, keeps the table well-formed (so it coalesces with both neighbours)
    and does not fault. *)
Theorem physical_memory_free_correct m addr sz :
  wf m -> size m < MAX_NUM_MEMORY_BLOCKS -> 0 <= addr -> 0 < sz -> addr + sz < 2 ^ 32 ->
  (forall a, in_range addr sz a -> ~ free_at m a) ->
  exists m', physical_memory_free m addr sz = Ok m' /\ wf m'
    /\ (forall a, free_at m' a <-> free_at m a \/ in_range addr sz a).
Proof.
  intros Hwf Hcap Ha Hsz He Hdis. rewrite free_coalesce by done.
  destruct (coalesce_spec addr sz Ha Hsz He m 0 Ha Hwf Hdis) as [Hwf' Hiff]. eauto.
Qed.

Lemma physical_memory_free_correct_witness :
  exists m', physical_memory_free wit_map 0x7000 0x200 = Ok m' /\ wf m'
    /\ (forall a, free_at m' a <-> free_at wit_map a \/ in_range 0x7000 0x200 a).
Proof.
  apply (physical_memory_free_correct wit_map 0x7000 0x200);
    [exact wit_map_wf | reflexivity | lia | lia | lia |].
  intros a Ha Hf. unfold in_range in Ha. unfold wit_map in Hf.
  rewrite !free_at_cons, free_at_nil in Hf. simpl in Hf. lia.
Defined.

(** freeing what was allocated restores the table exactly, entry for entry. *)
Theorem allocate_free_roundtrip m sz al m' r :
  wf m -> size m < MAX_NUM_MEMORY_BLOCKS - 1 -> 0 < sz -> is_align al -> sz + al <= 2 ^ 32 ->
  physical_memory_allocate m sz al = Ok (m', r) -> r <> 0 ->
  physical_memory_free m' r sz = Ok m.
Proof.
  intros Hwf Hcap Hsz Hal Hov Halloc Hr.
  rewrite allocate_first_fit in Halloc by (lia || done).
  destruct (first_fit m sz al) as [[m1 r1]|] eqn:E; [|congruence].
  injection Halloc as -> ->.
  destruct (first_fit_sound al sz Hal Hsz m 0 m' r ltac:(lia) Hwf E) as (Hwf' & H0 & _ & Hin & Hiff).
  assert (Hend : r + sz < 2 ^ 32).
  { pose proof (free_run_in_block _ _ _ _ Hwf Hsz Hin) as Hex.
    apply Exists_exists in Hex as (b & Hb & _ & Hle).
    clear -Hwf Hb Hle. unfold wf in Hwf. revert Hwf. generalize 0.
    induction m as [|c m IH]; intros lo Hw; [now apply elem_of_nil in Hb|].
    destruct Hw as (? & ? & ? & Hw). apply elem_of_cons in Hb as [->|Hb]; [lia|eauto]. }
  assert (Hlen : (length m' <= S (length m))%nat).
  { clear -E. revert m' E. induction m as [|b m IH]; simpl; intros m' E; [discriminate|].
    destruct (_ <=? _).
    - injection E as <- <-. unfold carve. rewrite !length_app.
      destruct (_ <? _), (_ =? _); simpl; lia.
    - destruct (first_fit m sz al) as [[m1 r1]|]; [|discriminate]. injection E as <- <-.
      specialize (IH _ eq_refl). simpl. lia. }
  rewrite free_coalesce; try done; try (unfold size in *; lia).
  - f_equal. destruct (coalesce_spec r sz ltac:(lia) Hsz Hend m' 0 H0 Hwf') as [Hc1 Hc2].
    { intros a Ha Hf. apply Hiff in Hf. tauto. }
    apply (wf_canonical 0); [done|done|]. intros a. rewrite Hc2, Hiff.
    unfold in_range in *. destruct (decide (r <= a < r + sz)); [|tauto].
    split; [auto|tauto].
  - intros a Ha Hf. apply Hiff in Hf. tauto.
Qed.

Lemma allocate_free_roundtrip_witness :
  physical_memory_free [mk_block 0x500 0xB00; mk_block 0x2000 0x5000; mk_block 0x7200 0x97E00]
    0x1000 0x1000 = Ok wit_map.
Proof.
  apply (allocate_free_roundtrip wit_map 0x1000 0x1000);
    [exact wit_map_wf | reflexivity | lia | exact is_align_page | lia | reflexivity | lia].
Defined.

(** [physical_memory_reserve] removes exactly the requested bytes, whatever
    mixture of free and already reserved memory the request covers. *)
Theorem physical_memory_reserve_correct m addr sz :
  wf m -> size m < MAX_NUM_MEMORY_BLOCKS -> 0 <= addr -> 0 < sz -> addr + sz < 2 ^ 32 ->
  exists m', physical_memory_reserve m addr sz = Ok m' /\ wf m'
    /\ (forall a, free_at m' a <-> free_at m a /\ ~ in_range addr sz a).
Proof.
  intros Hwf Hcap Ha Hsz He. rewrite reserve_remove by done.
  destruct (remove_range_spec addr (addr + sz) m 0 Hwf) as [Hwf' Hiff]. eauto.
Qed.

Lemma physical_memory_reserve_correct_witness :
  exists m', physical_memory_reserve wit_map 0x7000 0x1000 = Ok m' /\ wf m'
    /\ (forall a, free_at m' a <-> free_at wit_map a /\ ~ in_range 0x7000 0x1000 a).
Proof.
  apply (physical_memory_reserve_correct wit_map 0x7000 0x1000);
    [exact wit_map_wf | reflexivity | lia | lia | lia].
Defined.

(** [physical_memory_allocate_in_range] returns an aligned free run inside
    the window [start, end) and removes exactly it; it returns 0 only when the
    window holds no such run. *)
Theorem physical_memory_allocate_in_range_correct m start end_ sz al lim :
  wf m -> size m < MAX_NUM_MEMORY_BLOCKS -> 0 < sz -> is_align al ->
  0 <= start <= lim -> 0 <= end_ <= lim -> lim + sz + al <= 2 ^ 32 ->
  Forall (fun b => mb_offset b + mb_length b <= lim) m ->
  exists m' r, physical_memory_allocate_in_range m start end_ sz al = Ok (m', r) /\ wf m' /\
    (((al | r) /\ start <= r /\ r + sz <= end_
      /\ (forall a, in_range r sz a -> free_at m a)
      /\ (forall a, free_at m' a <-> free_at m a /\ ~ in_range r sz a))
     \/ (m' = m /\ r = 0
         /\ forall x, (al | x) -> start <= x -> x + sz <= end_ ->
            ~ (forall a, in_range x sz a -> free_at m a))).
Proof.
  intros Hwf Hcap Hsz Hal Hs He Hov Hlim.
  pose proof (range_loop_refines al start end_ sz lim Hal Hsz Hs He Hov (S (length m)) [] m 0
    ltac:(lia) Hwf ltac:(lia) Hlim Hcap) as H.
  change ([] ++ m) with m in H. unfold physical_memory_allocate_in_range.
  change (Z.of_nat (length [])) with 0 in H. rewrite H.
  destruct (range_fit m start end_ sz al) as [[m' r]|] eqn:E.
  - destruct (range_fit_sound al start end_ sz Hal Hsz m 0 m' r Hwf E) as (?&?&?&?&?&?&?).
    exists m', r. split; [done|]. split; [done|]. left. auto.
  - exists m, 0. split; [done|]. split; [done|]. right. split; [done|]. split; [done|].
    exact (range_fit_complete al start end_ sz Hal Hsz m 0 Hwf E).
Qed.

Lemma physical_memory_allocate_in_range_correct_witness :
  exists m' r, physical_memory_allocate_in_range wit_map 0x8000 0x20000 0x2000 0x1000 = Ok (m', r)
    /\ wf m' /\
    (((0x1000 | r) /\ 0x8000 <= r /\ r + 0x2000 <= 0x20000
      /\ (forall a, in_range r 0x2000 a -> free_at wit_map a)
      /\ (forall a, free_at m' a <-> free_at wit_map a /\ ~ in_range r 0x2000 a))
     \/ (m' = wit_map /\ r = 0
         /\ forall x, (0x1000 | x) -> 0x8000 <= x -> x + 0x2000 <= 0x20000 ->
            ~ (forall a, in_range x 0x2000 a -> free_at wit_map a))).
Proof.
  apply (physical_memory_allocate_in_range_correct wit_map 0x8000 0x20000 0x2000 0x1000 0x1000000);
    [exact wit_map_wf | reflexivity | lia | exact is_align_page | lia | lia | lia |].
  repeat constructor; simpl; lia.
Defined.

Lemma length_remove_range a e m lo : wf_from lo m ->
  (length (remove_range m a e) <= S (length m))%nat
  /\ (e <= lo \/ a <= lo -> (length (remove_range m a e) <= length m)%nat).
Proof.
  revert lo. induction m as [|b m IH]; intros lo Hwf; [simpl; lia|].
  destruct Hwf as (? & ? & ? & Hw). destruct (IH _ Hw) as [IH1 IH2]. simpl.
  rewrite length_app.
  destruct (Z.ltb_spec (Z.max a (mb_offset b)) (Z.min e (mb_offset b + mb_length b))) as [Hlt|];
    [|simpl; lia].
  unfold carve. rewrite length_app.
  destruct (Z.ltb_spec 0 (Z.max a (mb_offset b) - mb_offset b)),
    (Z.eqb_spec (mb_length b - (Z.min e (mb_offset b + mb_length b) - Z.max a (mb_offset b)
      + (Z.max a (mb_offset b) - mb_offset b))) 0); simpl; lia.
Qed.

(** after [physical_memory_init] no byte of the real-mode area, of the
    page kept at 0x7000, of the kernel image or of the ramdisk is free, and every
    other byte that the boot map listed still is. *)
Theorem physical_memory_init_correct bi m :
  wf m -> size m < MAX_NUM_MEMORY_BLOCKS - 4 ->
  0 <= kernel_location bi -> 0 < kernel_size bi -> kernel_location bi + kernel_size bi < 2 ^ 32 ->
  0 <= ramdisk_location bi -> 0 < ramdisk_size bi -> ramdisk_location bi + ramdisk_size bi < 2 ^ 32 ->
  exists m', physical_memory_init bi m = Ok m' /\ wf m' /\
    forall a, free_at m' a <-> free_at m a
      /\ ~ in_range 0 0x500 a /\ ~ in_range 0x7000 0x200 a
      /\ ~ in_range (kernel_location bi) (kernel_size bi) a
      /\ ~ in_range (ramdisk_location bi) (ramdisk_size bi) a.
Proof.
  intros Hwf Hcap Hk0 Hk1 Hk2 Hr0 Hr1 Hr2. unfold physical_memory_init.
  assert (step : forall m addr sz (n : Z), wf m -> size m < n -> n <= MAX_NUM_MEMORY_BLOCKS ->
    0 <= addr -> 0 < sz -> addr + sz < 2 ^ 32 ->
    exists m', physical_memory_reserve m addr sz = Ok m' /\ wf m' /\ size m' < n + 1
      /\ forall a, free_at m' a <-> free_at m a /\ ~ in_range addr sz a).
  { intros m1 addr sz n Hw Hn Hmax ? ? ?. rewrite reserve_remove by (done || lia).
    destruct (remove_range_spec addr (addr + sz) m1 0 Hw) as [Hw' Hiff].
    destruct (length_remove_range addr (addr + sz) m1 0 Hw) as [Hl _].
    exists (remove_range m1 addr (addr + sz)). unfold size in *. split; [done|].
    split; [done|]. split; [lia|done]. }
  destruct (step m 0 0x500 (MAX_NUM_MEMORY_BLOCKS - 4)) as (m1 & -> & W1 & S1 & F1);
    [done|done|lia..|]. simpl.
  destruct (step m1 0x7000 0x200 (MAX_NUM_MEMORY_BLOCKS - 3)) as (m2 & -> & W2 & S2 & F2);
    [done|lia..|]. simpl.
  destruct (step m2 (kernel_location bi) (kernel_size bi) (MAX_NUM_MEMORY_BLOCKS - 2))
    as (m3 & -> & W3 & S3 & F3); [done|lia..|]. simpl.
  destruct (step m3 (ramdisk_location bi) (ramdisk_size bi) (MAX_NUM_MEMORY_BLOCKS - 1))
    as (m4 & -> & W4 & S4 & F4); [done|lia..|].
  exists m4. split; [done|]. split; [done|]. intros a. rewrite F4, F3, F2, F1. tauto.
Qed.

Lemma physical_memory_init_correct_witness :
  exists m', physical_memory_init (mk_boot_info 0x100000 0x40000 0x200000 0x10000)
               [mk_block 0 0x9F000; mk_block 0x100000 0x700000] = Ok m' /\ wf m' /\
    forall a, free_at m' a <-> free_at [mk_block 0 0x9F000; mk_block 0x100000 0x700000] a
      /\ ~ in_range 0 0x500 a /\ ~ in_range 0x7000 0x200 a
      /\ ~ in_range 0x100000 0x40000 a /\ ~ in_range 0x200000 0x10000 a.
Proof.
  apply (physical_memory_init_correct (mk_boot_info 0x100000 0x40000 0x200000 0x10000));
    simpl; try lia; try reflexivity. unfold wf; simpl; lia.
Defined.

(** ** Ownership: a run of the allocator never hands out a byte twice *)
#[export] Instance in_range_dec lo sz a : Decision (in_range lo sz a).
Proof. unfold in_range. apply _. Defined.

Record heap := mk_heap { h_map : list memory_block; h_owned : list (Z * Z) }.

Inductive heap_step : heap -> heap -> Prop :=
| hs_allocate m own sz al m' r :
    size m < MAX_NUM_MEMORY_BLOCKS -> 0 < sz -> is_align al -> sz + al <= 2 ^ 32 ->
    physical_memory_allocate m sz al = Ok (m', r) -> r <> 0 ->
    heap_step (mk_heap m own) (mk_heap m' ((r, sz) :: own))
| hs_free m own1 own2 r sz m' :
    size m < MAX_NUM_MEMORY_BLOCKS ->
    physical_memory_free m r sz = Ok m' ->
    heap_step (mk_heap m (own1 ++ (r, sz) :: own2)) (mk_heap m' (own1 ++ own2)).

Definition disjoint_from (p q : Z * Z) : Prop :=
  forall a, in_range p.1 p.2 a -> ~ in_range q.1 q.2 a.

Fixpoint pairwise_disjoint (own : list (Z * Z)) : Prop :=
  match own with
  | [] => True
  | p :: own' => Forall (disjoint_from p) own' /\ pairwise_disjoint own'
  end.

Definition owned_at (own : list (Z * Z)) (a : Z) : Prop :=
  Exists (fun p => in_range p.1 p.2 a) own.

(** The bytes [T] that the table held at the start are partitioned between the
    free blocks and the owned regions, which are pairwise disjoint. *)
Record heap_inv (T : Z -> Prop) (h : heap) : Prop := mk_heap_inv {
  hi_wf : wf (h_map h);
  hi_bounds : Forall (fun p => 0 <= p.1 /\ 0 < p.2 /\ p.1 + p.2 < 2 ^ 32) (h_owned h);
  hi_disjoint : pairwise_disjoint (h_owned h);
  hi_not_free : forall a, owned_at (h_owned h) a -> ~ free_at (h_map h) a;
  hi_cover : forall a, T a <-> free_at (h_map h) a \/ owned_at (h_owned h) a }.

Lemma pairwise_disjoint_remove own1 p own2 :
  pairwise_disjoint (own1 ++ p :: own2) ->
  pairwise_disjoint (own1 ++ own2)
  /\ forall a, in_range p.1 p.2 a -> ~ owned_at (own1 ++ own2) a.
Proof.
  induction own1 as [|q own1 IH]; simpl.
  - intros [Hp Hd]. split; [done|]. intros a Ha Ho.
    apply Exists_exists in Ho as (q & Hq & Hqa). rewrite Forall_forall in Hp.
    now apply (Hp q Hq a).
  - intros [Hq Hd]. destruct (IH Hd) as [IH1 IH2].
    rewrite Forall_app, Forall_cons in Hq. destruct Hq as (Hq1 & Hqp & Hq2).
    split; [rewrite Forall_app; tauto|]. intros a Ha Ho.
    apply Exists_cons in Ho as [Ho|Ho]; [now apply (Hqp a)|now apply (IH2 a)].
Qed.

Lemma owned_at_remove own1 p own2 a :
  owned_at (own1 ++ p :: own2) a <-> in_range p.1 p.2 a \/ owned_at (own1 ++ own2) a.
Proof. unfold owned_at. rewrite !Exists_app, Exists_cons. tauto. Qed.

Lemma free_run_bound m r sz : wf m -> 0 < sz ->
  (forall a, in_range r sz a -> free_at m a) -> 0 <= r /\ r + sz < 2 ^ 32.
Proof.
  intros Hwf Hsz Hin. pose proof (free_run_in_block _ _ _ _ Hwf Hsz Hin) as Hex.
  apply Exists_exists in Hex as (b & Hb & Hle1 & Hle2).
  enough (0 <= mb_offset b /\ mb_offset b + mb_length b < 2 ^ 32) by lia.
  clear -Hwf Hb. unfold wf in Hwf. revert Hwf.
  assert (H0 : 0 <= 0) by lia. revert H0. generalize 0 at 2 3.
  induction m as [|c m IH]; intros lo Hlo Hw; [now apply elem_of_nil in Hb|].
  destruct Hw as (? & ? & ? & Hw). apply elem_of_cons in Hb as [->|Hb]; [lia|].
  apply (IH Hb (mb_offset c + mb_length c + 1)); [lia|done].
Qed.

Lemma heap_step_inv T h h' : heap_step h h' -> heap_inv T h -> heap_inv T h'.
Proof.
  intros Hstep [Hwf Hbd Hdis Hnf Hcov]. destruct Hstep as
    [m own sz al m' r Hcap Hsz Hal Hov Halloc Hr|m own1 own2 r sz m' Hcap Hfree]; simpl in *.
  - rewrite allocate_first_fit in Halloc by done.
    destruct (first_fit m sz al) as [[m1 r1]|] eqn:E; [|congruence].
    injection Halloc as -> ->.
    destruct (first_fit_sound al sz Hal Hsz m 0 m' r ltac:(lia) Hwf E) as (Hw' & _ & _ & Hin & Hiff).
    pose proof (free_run_bound _ _ _ Hwf Hsz Hin).
    constructor; simpl; [done| | | |].
    + apply Forall_cons. split; [simpl; lia|done].
    + split; [|done]. apply Forall_forall. intros q Hq a Ha Hqa. simpl in Ha.
      apply (Hnf a); [apply Exists_exists; eauto|auto].
    + intros a Ho. rewrite Hiff. unfold owned_at in Ho. rewrite Exists_cons in Ho.
      destruct Ho as [Ho|Ho]; simpl in Ho; [tauto|]. specialize (Hnf a Ho). tauto.
    + intros a. rewrite Hcov, Hiff. unfold owned_at. rewrite Exists_cons. simpl.
      specialize (Hin a). destruct (decide (in_range r sz a)); tauto.
  - apply Forall_app in Hbd as [Hb1 Hb2]. apply Forall_cons in Hb2 as [Hp Hb2]. simpl in Hp.
    assert (Hno : forall a, in_range r sz a -> ~ free_at m a).
    { intros a Ha. apply Hnf. apply owned_at_remove. simpl. auto. }
    rewrite free_coalesce in Hfree by (done || lia). injection Hfree as <-.
    destruct (coalesce_spec r sz ltac:(lia) ltac:(lia) ltac:(lia) m 0 ltac:(lia) Hwf Hno) as [Hw' Hiff].
    destruct (pairwise_disjoint_remove _ _ _ Hdis) as [Hd' Hdp].
    constructor; simpl; [done| |done| |].
    + apply Forall_app. auto.
    + intros a Ho. rewrite Hiff. intros [Hf|Hf].
      * apply (Hnf a); [|done]. apply owned_at_remove. auto.
      * now apply (Hdp a).
    + intros a. rewrite Hcov, Hiff, owned_at_remove. simpl. tauto.
Qed.

(** C3: in every state reachable by allocations and by frees of owned regions,
    the table is well-formed and the initial free memory is partitioned into the
    free blocks and the pairwise disjoint regions handed out. *)
Theorem heap_reachable_partition m0 h :
  wf m0 -> rtc heap_step (mk_heap m0 []) h -> heap_inv (free_at m0) h.
Proof.
  intros Hwf Hrtc. remember (mk_heap m0 []) as h0 eqn:E0.
  assert (Hinv : heap_inv (free_at m0) h0).
  { subst. constructor; simpl; [done|constructor|done| |].
    - intros a Ha. now apply Exists_nil in Ha.
    - intros a. unfold owned_at. rewrite Exists_nil. tauto. }
  clear E0. induction Hrtc as [|h1 h2 h3 Hs _ IH]; [done|].
  apply IH. now apply (heap_step_inv _ h1).
Qed.

Lemma heap_reachable_partition_witness :
  heap_inv (free_at wit_map)
    (mk_heap [mk_block 0x500 0xB00; mk_block 0x2000 0x5000; mk_block 0x7200 0x97E00]
             [(0x1000, 0x1000)]).
Proof.
  apply (heap_reachable_partition wit_map); [exact wit_map_wf|].
  apply rtc_once. apply (hs_allocate wit_map [] 0x1000 0x1000);
    [reflexivity | lia | exact is_align_page | lia | reflexivity | lia].
Defined.

(** The addresses of the free bytes, each once. *)
Definition free_list (m : list memory_block) : list Z := concat (map (fun b => seqZ (mb_offset b) (mb_length b)) m).

Lemma free_list_at m a : a ∈ free_list m <-> free_at m a.
Proof.
  unfold free_list, free_at. induction m as [|b m IH]; simpl; [rewrite Exists_nil, elem_of_nil; tauto|].
  rewrite elem_of_app, Exists_cons, IH, elem_of_seqZ. tauto.
Qed.
Lemma free_list_once lo m : wf_from lo m -> NoDup (free_list m).
Proof.
  revert lo. induction m as [|b m IH]; intros lo Hwf; simpl; [constructor|]. destruct Hwf as (? & ? & ? & Hw).
  apply NoDup_app. split; [apply NoDup_seqZ|]. split; [|exact (IH _ Hw)].
  intros x Hx Hm. apply elem_of_seqZ in Hx. apply free_list_at in Hm. pose proof (free_at_lower _ _ _ Hw Hm). lia.
Qed.
Lemma free_list_length m lo : wf_from lo m -> Z.of_nat (length (free_list m)) = total m.
Proof.
  revert lo. induction m as [|b m IH]; intros lo Hwf; simpl; [done|]. destruct Hwf as (? & ? & ? & Hw).
  unfold free_list in *. simpl. rewrite length_app, length_seqZ, Nat2Z.inj_add, (IH _ Hw). simpl. lia.
Qed.
Lemma total_below lo m : 0 <= lo < 2 ^ 32 -> wf_from lo m -> 0 <= total m < 2 ^ 32 - lo.
Proof.
  revert lo. induction m as [|b m IH]; simpl; intros lo Hlo Hwf; [lia|]. destruct Hwf as (? & ? & ? & Hw).
  destruct m as [|c m]; [simpl; lia|]. assert (mb_offset b + mb_length b + 1 < 2 ^ 32) by (simpl in Hw; lia).
  specialize (IH (mb_offset b + mb_length b + 1) ltac:(lia) Hw). lia.
Qed.
Lemma num_bytes_free_exact m : wf m -> physical_num_bytes_free m = total m.
Proof. intros Hwf. rewrite (num_bytes_free_total m Hwf). apply u32_small. pose proof (total_below 0 m ltac:(lia) Hwf). unfold is_u32. lia. Qed.

(** C4: [physical_num_bytes_free] is the number of free bytes, exactly: the sum of the
    lengths does not overflow a word on a well-formed table.  It drops by [sz] when an
    allocation takes a run, stays when there is none, and grows by [sz] when a region that
    was not free is freed. *)
Theorem physical_num_bytes_free_accounting m sz al addr :
  wf m -> size m < MAX_NUM_MEMORY_BLOCKS -> 0 < sz -> is_align al -> sz + al <= 2 ^ 32 ->
  0 <= addr -> addr + sz < 2 ^ 32 -> (forall a, in_range addr sz a -> ~ free_at m a) ->
  (exists l, NoDup l /\ (forall a, a ∈ l <-> free_at m a) /\ physical_num_bytes_free m = Z.of_nat (length l))
  /\ (exists m' r, physical_memory_allocate m sz al = Ok (m', r) /\
        ((free_run m sz al r /\ physical_num_bytes_free m' = physical_num_bytes_free m - sz)
         \/ ((forall x, ~ free_run m sz al x) /\ physical_num_bytes_free m' = physical_num_bytes_free m)))
  /\ (exists m', physical_memory_free m addr sz = Ok m' /\ physical_num_bytes_free m' = physical_num_bytes_free m + sz).
Proof.
  intros Hwf Hcap Hsz Hal Hov Ha He Hno. pose proof (is_align_bound _ Hal). split; [|split].
  - exists (free_list m). split; [exact (free_list_once 0 m Hwf)|]. split; [exact (free_list_at m)|].
    rewrite (free_list_length m 0 Hwf). exact (num_bytes_free_exact m Hwf).
  - rewrite allocate_first_fit by done. destruct (first_fit m sz al) as [[m1 r1]|] eqn:E.
    + destruct (first_fit_sound al sz Hal Hsz m 0 m1 r1 ltac:(lia) Hwf E) as (Hw1 & _ & Hd & Hr & _).
      exists m1, r1. split; [done|]. left. split; [split; done|]. rewrite !num_bytes_free_exact by done.
      apply (total_first_fit sz al m Hsz ltac:(lia) _ _ E).
    + exists m, 0. split; [done|]. right. split; [|done]. intros x [Hx Hall]. exact (first_fit_complete al sz Hal Hsz m 0 Hwf E x Hx Hall).
  - rewrite free_coalesce by done. destruct (coalesce_spec addr sz Ha Hsz He m 0 Ha Hwf Hno) as [Hw1 _].
    exists (coalesce m addr sz). split; [done|]. rewrite !num_bytes_free_exact by done. apply total_coalesce.
Qed.

Lemma physical_num_bytes_free_accounting_witness :
  (exists l, NoDup l /\ (forall a, a ∈ l <-> free_at wit_map a) /\ physical_num_bytes_free wit_map = Z.of_nat (length l))
  /\ (exists m' r, physical_memory_allocate wit_map 0x200 0x1000 = Ok (m', r) /\
        ((free_run wit_map 0x200 0x1000 r /\ physical_num_bytes_free m' = physical_num_bytes_free wit_map - 0x200)
         \/ ((forall x, ~ free_run wit_map 0x200 0x1000 x) /\ physical_num_bytes_free m' = physical_num_bytes_free wit_map)))
  /\ (exists m', physical_memory_free wit_map 0x7000 0x200 = Ok m' /\ physical_num_bytes_free m' = physical_num_bytes_free wit_map + 0x200).
Proof.
  apply (physical_num_bytes_free_accounting wit_map 0x200 0x1000 0x7000);
    [exact wit_map_wf | reflexivity | lia | exact is_align_page | lia | lia | lia |].
  intros a Ha Hf. unfold in_range in Ha. unfold wit_map in Hf.
  rewrite !free_at_cons, free_at_nil in Hf. simpl in Hf. lia.
Defined.
