(* ===== verification/Paging.v ===== *)
(** * The virtual memory manager (kernel/memorymanager.cpp, memorymanager.h)

    The state is the page directory register, the words of physical memory and
    the table of free physical memory.  Page directories and page tables are
    read and written the way the code does it, through the virtual addresses of
    the recursive mapping ([current_page_directory], [GET_PAGE_TABLE_ADDRESS]);
    [mmu_walk] is the two-level translation the processor performs, so that the
    recursive mapping is something to prove and not an assumption.  There is no
    TLB in the model: every access walks the tables, which is what the flushes
    of the code are there for.  [kernel_addr_mutex] is not part of the state:
    each operation is one critical section. *)
From S2P Require Import Prelude PhysMem.

Record mm := mk_mm {
  cr3 : Z;                          (* physical address of the page directory *)
  mem : Z -> Z;                     (* 32-bit words, by physical address *)
  memory_map : list memory_block;   (* physical_manager.cpp *)
  kernel_page_directory : Z }.

Definition PAGE_PRESENT : Z := 0x01.
Definition PAGE_RW : Z := 0x02.
Definition PAGE_USER : Z := 0x04.
Definition PAGE_RESERVED : Z := 0x800.
Definition PAGE_MAP_ON_ACCESS : Z := 0x400.
Definition PAGE_ALLOCATED : Z := Z.lor PAGE_RESERVED PAGE_PRESENT.
Definition PAGE_SIZE : Z := 0x1000.
Definition PAGE_TABLE_SIZE : Z := 0x400.

Definition memmanager_minimum_pages (bytes : Z) : Z :=
  add32 bytes (PAGE_SIZE - 1) / PAGE_SIZE.
Lemma minimum_pages_spec n : 0 < n -> n < 2 ^ 32 - PAGE_SIZE -> 0 < memmanager_minimum_pages n /\ n <= memmanager_minimum_pages n * PAGE_SIZE.
Proof.
  unfold PAGE_SIZE. intros H1 H2. unfold memmanager_minimum_pages, PAGE_SIZE. rewrite add32_small by lia.
  pose proof (Z.div_mod (n + (0x1000 - 1)) 0x1000 ltac:(lia)). pose proof (Z.mod_pos_bound (n + (0x1000 - 1)) 0x1000 ltac:(lia)). lia.
Qed.

Definition PT_INDEX_MASK : Z := PAGE_TABLE_SIZE - 1.
Definition PAGE_FLAGS_MASK : Z := PAGE_SIZE - 1.
Definition PAGE_ADDRESS_MASK : Z := not32 PAGE_FLAGS_MASK.
Definition MAXIMUM_ADDRESS : Z := not32 0.
Definition KERNEL_SPLIT : Z := MAXIMUM_ADDRESS - MAXIMUM_ADDRESS / 8.

(** Pointers are byte addresses; indexing an [uintptr_t] array adds 4 per entry. *)
Definition last_pde_address : Z := (PAGE_TABLE_SIZE - 1) * PAGE_TABLE_SIZE * PAGE_SIZE.
Definition current_page_directory : Z := MAXIMUM_ADDRESS - not32 PAGE_ADDRESS_MASK.
Definition GET_PAGE_TABLE_ADDRESS (pd_index : Z) : Z :=
  last_pde_address + 4 * (PAGE_TABLE_SIZE * pd_index).

Definition get_page_dir_index (virtual_address : Z) : Z := Z.shiftr virtual_address 22.
Definition get_page_tbl_index (virtual_address : Z) : Z :=
  Z.land (Z.shiftr virtual_address 12) PT_INDEX_MASK.

(** The processor's translation of a virtual address. *)
Definition mmu_walk (s : mm) (va : Z) : option Z :=
  let pde := mem s (cr3 s + 4 * Z.shiftr va 22) in
  if has pde PAGE_PRESENT then
    let pte := mem s (Z.land pde PAGE_ADDRESS_MASK + 4 * Z.land (Z.shiftr va 12) 0x3FF) in
    if has pte PAGE_PRESENT
    then Some (Z.land pte PAGE_ADDRESS_MASK + Z.land va 0xFFF)
    else None
  else None.

Definition upd (f : Z -> Z) (a v : Z) : Z -> Z := fun x => if x =? a then v else f x.
Definition set_mem (s : mm) (f : Z -> Z) : mm :=
  mk_mm (cr3 s) f (memory_map s) (kernel_page_directory s).
Definition set_map (s : mm) (m : list memory_block) : mm :=
  mk_mm (cr3 s) (mem s) m (kernel_page_directory s).
Definition set_cr3 (s : mm) (a : Z) : mm :=
  mk_mm a (mem s) (memory_map s) (kernel_page_directory s).

(** Loads and stores of a word through a virtual address. *)
Definition vread (va : Z) : st mm Z := fun s =>
  match mmu_walk s va with Some pa => Ok (mem s pa, s) | None => Fault PageFault end.
Definition vwrite (va v : Z) : st mm unit := fun s =>
  match mmu_walk s va with
  | Some pa => Ok (tt, set_mem s (upd (mem s) pa v))
  | None => Fault PageFault
  end.
(** [memset(p, 0, PAGE_SIZE)] of a page-aligned [p]. *)
Definition vclear_page (va : Z) : st mm unit := fun s =>
  match mmu_walk s va with
  | Some pa => Ok (tt, set_mem s (fun x => if (pa <=? x) && (x <? pa + PAGE_SIZE)
                                           then 0 else mem s x))
  | None => Fault PageFault
  end.

Definition k_assert_st (b : bool) : st mm unit := st_lift (k_assert b).

Definition phys_allocate (sz align : Z) : st mm Z := fun s =>
  '(m', r) ← physical_memory_allocate (memory_map s) sz align; Ok (r, set_map s m').
Definition phys_free (addr sz : Z) : st mm unit := fun s =>
  m' ← physical_memory_free (memory_map s) addr sz; Ok (tt, set_map s m').

Definition memmanager_allocate_physical_page : st mm Z := phys_allocate PAGE_SIZE PAGE_SIZE.

(** The address of the entry, which the code handles as a reference. *)
Definition pt_entry_address (virtual_address pd_index : Z) : Z :=
  GET_PAGE_TABLE_ADDRESS pd_index + 4 * get_page_tbl_index virtual_address.

Definition memmanager_get_pt_entry (virtual_address : Z) : st mm Z :=
  let pd_index := get_page_dir_index virtual_address in
  pd_entry ← vread (current_page_directory + 4 * pd_index);
  if negb (has pd_entry PAGE_PRESENT) then mret pd_entry
  else vread (pt_entry_address virtual_address pd_index).

Definition memmanager_get_physical (virtual_address : Z) : st mm Z :=
  e ← memmanager_get_pt_entry virtual_address;
  mret (add32 (Z.land e PAGE_ADDRESS_MASK) (Z.land virtual_address (not32 PAGE_ADDRESS_MASK))).

(** [__atomic_store] followed by the flush of the page. *)
Definition memmanager_update_pt (pt_ptr new_value v_address : Z) : st mm unit :=
  vwrite pt_ptr new_value.

Definition memmanager_create_new_page_table (pd_index flags : Z) : st mm unit :=
  let flags := Z.land flags (not32 (Z.lor PAGE_RESERVED PAGE_MAP_ON_ACCESS)) in
  page ← memmanager_allocate_physical_page;
  _ ← vwrite (current_page_directory + 4 * pd_index)
        (Z.lor (Z.lor (Z.lor page PAGE_PRESENT) PAGE_RW) flags);
  vclear_page (GET_PAGE_TABLE_ADDRESS pd_index).

(** The scan of one page table: [inl] is the index at which [num_pages]
    consecutive unallocated entries end, [inr] the run length at the end. *)
Fixpoint scan_page_table (fuel : nat) (page_table i pages_found num_pages : Z)
  : st mm (Z + Z) :=
  match fuel with
  | O => mret (inr pages_found)
  | S fuel =>
    e ← vread (page_table + 4 * i);
    if has e PAGE_ALLOCATED then scan_page_table fuel page_table (i + 1) 0 num_pages
    else
      let pages_found := add32 pages_found 1 in
      if pages_found =? num_pages then mret (inl i)
      else scan_page_table fuel page_table (i + 1) pages_found num_pages
  end.

Fixpoint scan_page_directory (fuel : nat) (pd_index pages_found num_pages flags : Z)
  : st mm Z :=
  match fuel with
  | O => _ ← k_assert_st false; mret 0
  | S fuel =>
    pd0 ← vread (current_page_directory + 4 * pd_index);
    created ← (if negb (has pd0 PAGE_PRESENT)
               then _ ← memmanager_create_new_page_table pd_index flags; mret true
               else mret false);
    if created && (num_pages <=? PAGE_TABLE_SIZE) then mret (shl32 pd_index 22) else
    pd1 ← vread (current_page_directory + 4 * pd_index);
    if negb (Bool.eqb (has flags PAGE_USER) (has pd1 PAGE_USER))
    then scan_page_directory fuel (pd_index + 1) 0 num_pages flags
    else
      r ← scan_page_table 1024 (GET_PAGE_TABLE_ADDRESS pd_index) 0 pages_found num_pages;
      match r with
      | inl i => mret (add32 (shl32 pd_index 22)
                             (mul32 (sub32 i (sub32 num_pages 1)) PAGE_SIZE))
      | inr pages_found => scan_page_directory fuel (pd_index + 1) pages_found num_pages flags
      end
  end.

Definition memmanager_get_unmapped_pages (num_pages flags : Z) : st mm Z :=
  let first_pt := if has flags PAGE_USER then 0 else get_page_dir_index KERNEL_SPLIT in
  let last_pt := get_page_dir_index MAXIMUM_ADDRESS in
  scan_page_directory (Z.to_nat (last_pt - first_pt)) first_pt 0 num_pages flags.

Definition memmanager_unmap_page_with_flags (virtual_address flags : Z) : st mm unit :=
  let pd_index := get_page_dir_index virtual_address in
  pd_entry ← vread (current_page_directory + 4 * pd_index);
  if has pd_entry PAGE_PRESENT then
    let p := pt_entry_address virtual_address pd_index in
    pt_entry ← vread p;
    if has pt_entry flags then memmanager_update_pt p 0 virtual_address else mret tt
  else k_assert_st false.

Definition memmanager_map_page (virtual_address physical_address flags : Z) : st mm bool :=
  let pd_index := get_page_dir_index virtual_address in
  pd_entry ← vread (current_page_directory + 4 * pd_index);
  let map_it : st mm bool :=
    let p := pt_entry_address virtual_address pd_index in
    pt_entry ← vread p;
    if has pt_entry PAGE_ALLOCATED then mret false
    else
      _ ← memmanager_update_pt p
            (Z.lor (Z.land physical_address PAGE_ADDRESS_MASK) flags) virtual_address;
      mret true in
  if negb (has pd_entry PAGE_PRESENT) then
    _ ← memmanager_create_new_page_table pd_index flags; map_it
  else if has flags PAGE_USER && negb (has pd_entry PAGE_USER) then mret false
  else map_it.

Fixpoint map_consecutive (n : nat) (virtual_address physical_address flags : Z) : st mm bool :=
  match n with
  | O => mret true
  | S n =>
    ok ← memmanager_map_page virtual_address physical_address flags;
    if ok : bool then map_consecutive n (add32 virtual_address PAGE_SIZE)
                        (add32 physical_address PAGE_SIZE) flags
    else mret false
  end.

(** 0 is the null pointer. *)
Definition memmanager_map_to_new_pages (physical_address n flags : Z) : st mm Z :=
  virtual_address ← memmanager_get_unmapped_pages n flags;
  ok ← map_consecutive (Z.to_nat n) virtual_address physical_address flags;
  mret (if ok : bool then virtual_address else 0).

Definition memmanager_get_page_flags (virtual_address : Z) : st mm Z :=
  e ← memmanager_get_pt_entry virtual_address; mret (Z.land e PAGE_FLAGS_MASK).

Fixpoint memmanager_set_page_flags (num_pages : nat) (virtual_address flags : Z) : st mm unit :=
  match num_pages with
  | O => mret tt
  | S num_pages =>
    let preserved := Z.lor (Z.lor PAGE_PRESENT PAGE_RESERVED) PAGE_MAP_ON_ACCESS in
    let pd_index := get_page_dir_index virtual_address in
    pd_entry ← vread (current_page_directory + 4 * pd_index);
    if negb (has pd_entry PAGE_PRESENT) then mret tt
    else
      let p := pt_entry_address virtual_address pd_index in
      page_entry ← vread p;
      _ ← memmanager_update_pt p
            (Z.lor (Z.land page_entry (Z.lor PAGE_ADDRESS_MASK preserved)) flags)
            virtual_address;
      memmanager_set_page_flags num_pages (add32 virtual_address PAGE_SIZE) flags
  end.

Definition memmanager_alloc_page (flags : Z) : st mm Z :=
  physical_address ← memmanager_allocate_physical_page;
  virtual_address ← memmanager_get_unmapped_pages 1 flags;
  ok ← memmanager_map_page virtual_address physical_address (Z.lor flags PAGE_PRESENT);
  mret (if ok : bool then virtual_address else 0).

(** The loop of the branch that backs the pages at once: the code maps
    [page_virtual_address] in every iteration and never advances it. *)
Fixpoint alloc_present (n : nat) (page_virtual_address pf : Z) : st mm unit :=
  match n with
  | O => mret tt
  | S n =>
    page ← memmanager_allocate_physical_page;
    r ← memmanager_map_page page_virtual_address page pf;
    _ ← k_assert_st r;
    alloc_present n page_virtual_address pf
  end.

(** The loop of the branch that only reserves the pages. *)
Fixpoint alloc_on_access (n : nat) (page_virtual_address pf : Z) : st mm unit :=
  match n with
  | O => mret tt
  | S n =>
    r ← memmanager_map_page page_virtual_address 0 pf;
    _ ← k_assert_st r;
    f1 ← memmanager_get_page_flags page_virtual_address;
    _ ← k_assert_st (has f1 PAGE_RESERVED);
    f2 ← memmanager_get_page_flags page_virtual_address;
    _ ← k_assert_st (negb (has f2 PAGE_PRESENT));
    alloc_on_access n (add32 page_virtual_address PAGE_SIZE) pf
  end.

Definition memmanager_virtual_alloc (v_address n flags : Z) : st mm Z :=
  let illegal := Z.lor PAGE_RESERVED PAGE_MAP_ON_ACCESS in
  let flags := Z.land flags (Z.land PAGE_FLAGS_MASK (not32 illegal)) in
  let fill (virtual_address : Z) : st mm Z :=
    _ ← (if has flags PAGE_PRESENT
         then alloc_present (Z.to_nat n) virtual_address (Z.lor flags PAGE_PRESENT)
         else alloc_on_access (Z.to_nat n) virtual_address
                (Z.lor (Z.lor flags PAGE_RESERVED) PAGE_MAP_ON_ACCESS));
    mret virtual_address in
  if v_address =? 0 then
    virtual_address ← memmanager_get_unmapped_pages n flags;
    if virtual_address =? 0 then mret 0 else fill virtual_address
  else if has v_address PAGE_FLAGS_MASK then mret 0
  else fill v_address.

Fixpoint memmanager_unmap_pages_with_flags (num_pages : nat) (v_addr flags : Z) : st mm unit :=
  match num_pages with
  | O => mret tt
  | S num_pages =>
    _ ← memmanager_unmap_page_with_flags v_addr flags;
    memmanager_unmap_pages_with_flags num_pages (add32 v_addr PAGE_SIZE) flags
  end.

Definition syscall_unmap_user_pages (addr : Z) (num_pages : nat) : st mm unit :=
  memmanager_unmap_pages_with_flags num_pages addr PAGE_USER.
Definition memmanager_unmap_pages (addr : Z) (num_pages : nat) : st mm unit :=
  memmanager_unmap_pages_with_flags num_pages addr PAGE_ALLOCATED.

Fixpoint memmanager_free_pages_with_flags (num_pages : nat) (virtual_address flags : Z)
  : st mm Z :=
  match num_pages with
  | O => mret 0
  | S num_pages =>
    physical_address ← memmanager_get_pt_entry virtual_address;
    _ ← memmanager_unmap_page_with_flags virtual_address flags;
    if negb (has physical_address PAGE_ALLOCATED) then mret (-1)
    else
      _ ← (if has physical_address PAGE_PRESENT
           then phys_free (Z.land physical_address PAGE_ADDRESS_MASK) PAGE_SIZE
           else mret tt);
      memmanager_free_pages_with_flags num_pages (add32 virtual_address PAGE_SIZE) flags
  end.

Definition memmanager_free_pages (page : Z) (num_pages : nat) : st mm Z :=
  memmanager_free_pages_with_flags num_pages page PAGE_ALLOCATED.
Definition syscall_free_pages (page : Z) (num_pages : nat) : st mm Z :=
  if page =? 0 then mret (-1)
  else memmanager_free_pages_with_flags num_pages page PAGE_USER.

Definition memmanager_init_page_dir (page_dir physaddr : Z) : st mm unit :=
  _ ← vclear_page page_dir;
  vwrite (page_dir + 4 * (PAGE_TABLE_SIZE - 1)) (Z.lor (Z.lor physaddr PAGE_PRESENT) PAGE_RW).

Fixpoint copy_kernel_entries (fuel : nat) (process_page_dir i : Z) : st mm unit :=
  match fuel with
  | O => mret tt
  | S fuel =>
    e ← vread (current_page_directory + 4 * i);
    _ ← (if negb (has e PAGE_USER) then vwrite (process_page_dir + 4 * i) e else mret tt);
    copy_kernel_entries fuel process_page_dir (i + 1)
  end.

Definition memmanager_new_memory_space : st mm Z :=
  process_page_dir ← memmanager_alloc_page PAGE_RW;
  if process_page_dir =? 0 then mret 0
  else
    pa ← memmanager_get_physical process_page_dir;
    _ ← memmanager_init_page_dir process_page_dir pa;
    _ ← copy_kernel_entries (Z.to_nat (PAGE_TABLE_SIZE - 1)) process_page_dir 0;
    mret process_page_dir.

Definition memmanager_enter_memory_space (memspace : Z) : st mm unit :=
  pa ← memmanager_get_physical memspace;
  st_modify (fun s => set_cr3 s pa).

Fixpoint free_user_tables (fuel : nat) (i : Z) : st mm unit :=
  match fuel with
  | O => mret tt
  | S fuel =>
    e ← vread (current_page_directory + 4 * i);
    _ ← (if has e PAGE_USER then phys_free (Z.land e PAGE_ADDRESS_MASK) PAGE_SIZE else mret tt);
    free_user_tables fuel (i + 1)
  end.

Definition memmanager_destroy_memory_space (pdir : Z) : st mm bool :=
  _ ← free_user_tables (Z.to_nat PAGE_TABLE_SIZE) 0;
  _ ← st_modify (fun s => set_cr3 s (kernel_page_directory s));
  _ ← memmanager_free_pages pdir 1;
  mret true.

Definition memmanager_handle_page_fault (err virtual_address : Z) : st mm bool :=
  if has err PAGE_PRESENT then mret false else
  let pd_index := get_page_dir_index virtual_address in
  pd_entry ← vread (current_page_directory + 4 * pd_index);
  if has pd_entry PAGE_PRESENT then
    let p := pt_entry_address virtual_address pd_index in
    pt_entry ← vread p;
    if has pt_entry PAGE_MAP_ON_ACCESS then
      _ ← k_assert_st (has pt_entry PAGE_RESERVED);
      _ ← k_assert_st (negb (has pt_entry PAGE_PRESENT));
      physical ← memmanager_allocate_physical_page;
      if physical =? 0 then mret false
      else
        let virtual_address := Z.land virtual_address PAGE_ADDRESS_MASK in
        let flags := Z.land pt_entry
          (Z.land PAGE_FLAGS_MASK (not32 (Z.lor PAGE_RESERVED PAGE_MAP_ON_ACCESS))) in
        let page_value := Z.lor (Z.lor physical flags) PAGE_PRESENT in
        _ ← memmanager_update_pt p (Z.lor page_value PAGE_RW) virtual_address;
        _ ← vclear_page virtual_address;
        _ ← (if negb (has flags PAGE_RW)
             then memmanager_update_pt p page_value virtual_address else mret tt);
        mret true
    else mret false
  else mret false.
