(* ===== verification/PagingProofs.v ===== *)
(** * The virtual memory manager: recursive mapping, mapping, unmapping, faults *)
From S2P Require Import Prelude PhysMem Paging.

(** ** Words of the tables *)

Lemma PAGE_ADDRESS_MASK_eq : PAGE_ADDRESS_MASK = not32 (2 ^ 12 - 1).
Proof. reflexivity. Qed.

Lemma has_bit x k : 0 <= k -> has x (2 ^ k) = Z.testbit x k.
Proof. intros Hk. unfold has. rewrite land_pow2_testbit by done. apply negb_involutive. Qed.

Lemma has_PRESENT x : has x PAGE_PRESENT = Z.testbit x 0.
Proof. exact (has_bit x 0 ltac:(lia)). Qed.
Lemma has_RW x : has x PAGE_RW = Z.testbit x 1.
Proof. exact (has_bit x 1 ltac:(lia)). Qed.
Lemma has_USER x : has x PAGE_USER = Z.testbit x 2.
Proof. exact (has_bit x 2 ltac:(lia)). Qed.
Lemma has_ON_ACCESS x : has x PAGE_MAP_ON_ACCESS = Z.testbit x 10.
Proof. exact (has_bit x 10 ltac:(lia)). Qed.
Lemma has_RESERVED x : has x PAGE_RESERVED = Z.testbit x 11.
Proof. exact (has_bit x 11 ltac:(lia)). Qed.

Lemma has_lor x a b : has x (Z.lor a b) = has x a || has x b.
Proof.
  unfold has. rewrite Z.land_lor_distr_r.
  destruct (Z.eqb_spec (Z.land x a) 0) as [->|Ha].
  - rewrite Z.lor_0_l. done.
  - simpl. destruct (Z.eqb_spec (Z.lor (Z.land x a) (Z.land x b)) 0) as [E|]; [|done].
    apply Z.lor_eq_0_iff in E. tauto.
Qed.

Lemma has_ALLOCATED x : has x PAGE_ALLOCATED = Z.testbit x 11 || Z.testbit x 0.
Proof. unfold PAGE_ALLOCATED. now rewrite has_lor, has_RESERVED, has_PRESENT. Qed.

Definition frame (e : Z) : Z := Z.land e PAGE_ADDRESS_MASK.

Lemma frame_eq e : is_u32 e -> frame e = e - e mod 4096.
Proof. intros. unfold frame. rewrite PAGE_ADDRESS_MASK_eq. now apply land_high_mask. Qed.

Lemma frame_aligned e : is_u32 e -> frame e mod 4096 = 0 /\ 0 <= frame e <= 2 ^ 32 - 4096.
Proof.
  intros He. rewrite frame_eq by done. unfold is_u32 in He.
  Z.to_euclidean_division_equations. lia.
Qed.

Lemma frame_lor r f : is_u32 r -> r mod 4096 = 0 -> 0 <= f < 4096 ->
  frame (Z.lor r f) = r /\ is_u32 (Z.lor r f).
Proof.
  intros Hr Ha Hf. change 4096 with (2 ^ 12) in *. rewrite (lor_aligned r f 12) by (lia || done).
  unfold is_u32 in Hr. assert (is_u32 (r + f)) by (unfold is_u32; Z.to_euclidean_division_equations; lia).
  split; [|done]. rewrite frame_eq by done.
  Z.to_euclidean_division_equations. lia.
Qed.

Lemma lor_small a b : 0 <= a < 4096 -> 0 <= b < 4096 -> 0 <= Z.lor a b < 4096.
Proof. change 4096 with (2 ^ 12). apply lor_bound. lia. Qed.

(** ** Splitting a virtual address *)
Lemma va_split va : is_u32 va ->
  0 <= get_page_dir_index va < 1024 /\ 0 <= get_page_tbl_index va < 1024
  /\ Z.land va 0xFFF = va mod 4096
  /\ get_page_dir_index va = va / 2 ^ 22
  /\ get_page_tbl_index va = (va / 4096) mod 1024.
Proof.
  intros [H1 H2]. unfold get_page_dir_index, get_page_tbl_index.
  change PT_INDEX_MASK with (2 ^ 10 - 1). change 0xFFF with (2 ^ 12 - 1).
  rewrite !land_low_mask, !Z.shiftr_div_pow2 by lia. change (2 ^ 12) with 4096.
  change (2 ^ 10) with 1024. Z.to_euclidean_division_equations. lia.
Qed.

Lemma mmu_walk_split s hi mid off :
  0 <= hi < 1024 -> 0 <= mid < 1024 -> 0 <= off < 4096 ->
  mmu_walk s (hi * 2 ^ 22 + mid * 4096 + off) =
  (let pde := mem s (cr3 s + 4 * hi) in
   if has pde PAGE_PRESENT then
     let pte := mem s (frame pde + 4 * mid) in
     if has pte PAGE_PRESENT then Some (frame pte + off) else None
   else None).
Proof.
  intros Hh Hm Ho. unfold mmu_walk. set (va := hi * 2 ^ 22 + mid * 4096 + off).
  assert (Hva : is_u32 va) by (unfold is_u32; lia).
  destruct (va_split va Hva) as (_ & _ & E1 & E2 & E3).
  unfold get_page_dir_index, get_page_tbl_index in *.
  change 0x3FF with PT_INDEX_MASK. rewrite E1, E2, E3.
  replace (va / 2 ^ 22) with hi by (unfold va; Z.to_euclidean_division_equations; lia).
  replace ((va / 4096) mod 1024) with mid by (unfold va; Z.to_euclidean_division_equations; lia).
  replace (va mod 4096) with off by (unfold va; Z.to_euclidean_division_equations; lia).
  done.
Qed.

Lemma va_recompose va : is_u32 va ->
  va = get_page_dir_index va * 2 ^ 22 + get_page_tbl_index va * 4096 + va mod 4096.
Proof.
  intros Hva. destruct (va_split va Hva) as (_ & _ & _ & -> & ->).
  Z.to_euclidean_division_equations. lia.
Qed.

(** ** Well-formed address spaces *)
Definition pde (s : mm) (i : Z) : Z := mem s (cr3 s + 4 * i).
Definition pte (s : mm) (i j : Z) : Z := mem s (frame (pde s i) + 4 * j).
Definition present (e : Z) : Prop := has e PAGE_PRESENT = true.

(** The last directory entry maps the directory itself; the present tables are
    distinct frames, none of them is the directory, and none is free memory. *)
Record pt_wf (s : mm) : Prop := mk_pt_wf {
  w_words : forall a, is_u32 (mem s a);
  w_cr3 : is_u32 (cr3 s) /\ cr3 s mod 4096 = 0;
  w_self : frame (pde s 1023) = cr3 s /\ present (pde s 1023);
  w_tables : forall i, 0 <= i < 1023 -> present (pde s i) -> frame (pde s i) <> cr3 s;
  w_distinct : forall i j, 0 <= i < 1023 -> 0 <= j < 1023 -> i <> j ->
    present (pde s i) -> present (pde s j) -> frame (pde s i) <> frame (pde s j);
  w_map : wf (memory_map s);
  w_not_free : forall i a, 0 <= i < 1024 -> present (pde s i) ->
    in_range (frame (pde s i)) 4096 a -> ~ free_at (memory_map s) a }.

Section recursive_mapping.
Context (s : mm) (Hwf : pt_wf s).

Lemma walk_directory i : 0 <= i < 1024 ->
  mmu_walk s (current_page_directory + 4 * i) = Some (cr3 s + 4 * i).
Proof using Hwf.
  intros Hi. destruct Hwf as [_ _ [Hf Hp] _ _ _ _]. unfold present, pde in *.
  change (current_page_directory + 4 * i) with (1023 * 2 ^ 22 + 1023 * 4096 + 4 * i).
  rewrite mmu_walk_split by lia. cbv zeta. rewrite Hp, Hf, Hp, Hf. done.
Qed.

Lemma walk_table i j : 0 <= i < 1024 -> 0 <= j < 1024 ->
  mmu_walk s (GET_PAGE_TABLE_ADDRESS i + 4 * j)
  = if has (pde s i) PAGE_PRESENT then Some (frame (pde s i) + 4 * j) else None.
Proof using Hwf.
  intros Hi Hj. destruct Hwf as [_ _ [Hf Hp] _ _ _ _]. unfold present, pde in *.
  replace (GET_PAGE_TABLE_ADDRESS i + 4 * j) with (1023 * 2 ^ 22 + i * 4096 + 4 * j)
    by (unfold GET_PAGE_TABLE_ADDRESS, last_pde_address, PAGE_TABLE_SIZE, PAGE_SIZE; lia).
  rewrite mmu_walk_split by lia. cbv zeta. rewrite Hp, Hf. done.
Qed.

Lemma read_directory i : 0 <= i < 1024 ->
  vread (current_page_directory + 4 * i) s = Ok (pde s i, s).
Proof using Hwf. intros Hi. unfold vread. now rewrite walk_directory. Qed.

Lemma read_table i j : 0 <= i < 1024 -> 0 <= j < 1024 -> present (pde s i) ->
  vread (GET_PAGE_TABLE_ADDRESS i + 4 * j) s = Ok (pte s i j, s).
Proof using Hwf. intros Hi Hj Hp. unfold vread. rewrite walk_table by done. now rewrite Hp. Qed.

Lemma read_entry va : is_u32 va -> present (pde s (get_page_dir_index va)) ->
  vread (pt_entry_address va (get_page_dir_index va)) s
  = Ok (pte s (get_page_dir_index va) (get_page_tbl_index va), s).
Proof using Hwf.
  intros Hva Hp. destruct (va_split va Hva) as (? & ? & _). now apply read_table.
Qed.

Lemma write_entry va v : is_u32 va -> present (pde s (get_page_dir_index va)) ->
  vwrite (pt_entry_address va (get_page_dir_index va)) v s
  = Ok (tt, set_mem s (upd (mem s)
        (frame (pde s (get_page_dir_index va)) + 4 * get_page_tbl_index va) v)).
Proof using Hwf.
  intros Hva Hp. destruct (va_split va Hva) as (? & ? & _).
  unfold vwrite, pt_entry_address. rewrite walk_table by done. now rewrite Hp.
Qed.

Lemma walk_page va : is_u32 va ->
  mmu_walk s va =
  if has (pde s (get_page_dir_index va)) PAGE_PRESENT then
    let e := pte s (get_page_dir_index va) (get_page_tbl_index va) in
    if has e PAGE_PRESENT then Some (frame e + va mod 4096) else None
  else None.
Proof using Type.
  intros Hva. destruct (va_split va Hva) as (? & ? & _).
  rewrite (va_recompose va Hva) at 1. rewrite mmu_walk_split by (try lia; apply Z.mod_pos_bound; lia).
  done.
Qed.

End recursive_mapping.

(** ** Effect of writing one entry *)
Lemma page_disjoint a b x y : a mod 4096 = 0 -> b mod 4096 = 0 -> a <> b ->
  0 <= x < 4096 -> 0 <= y < 4096 -> a + x <> b + y.
Proof. intros. Z.to_euclidean_division_equations. lia. Qed.

Lemma pt_wf_frames s i : pt_wf s -> frame (pde s i) mod 4096 = 0 /\ cr3 s mod 4096 = 0.
Proof.
  intros [Hw [_ Hc] _ _ _ _ _]. split; [|done]. now apply frame_aligned, Hw.
Qed.

Lemma upd_eq f a v : upd f a v a = v.
Proof. unfold upd. now rewrite Z.eqb_refl. Qed.
Lemma upd_ne f a b v : b <> a -> upd f a v b = f b.
Proof. intros H. unfold upd. now destruct (Z.eqb_spec b a). Qed.

Definition write_pte (s : mm) (i j v : Z) : mm :=
  set_mem s (upd (mem s) (frame (pde s i) + 4 * j) v).

Section write_pte.
Context (s : mm) (i0 j0 v : Z).
Context (Hwf : pt_wf s) (Hi0 : 0 <= i0 < 1023) (Hj0 : 0 <= j0 < 1024)
        (Hp : present (pde s i0)) (Hv : is_u32 v).
Let s' := write_pte s i0 j0 v.

Lemma write_pte_pde i : 0 <= i < 1024 -> pde s' i = pde s i.
Proof using Hwf Hi0 Hj0 Hp.
  intros Hi. destruct (pt_wf_frames s i0 Hwf).
  unfold pde at 1, s', write_pte; simpl. rewrite upd_ne; [done|].
  pose proof (w_tables s Hwf i0 Hi0 Hp).
  apply page_disjoint; (done || lia || congruence).
Qed.

Lemma write_pte_pte i j : 0 <= i < 1024 -> 0 <= j < 1024 -> present (pde s i) ->
  pte s' i j = if decide (i = i0 /\ j = j0) then v else pte s i j.
Proof using Hwf Hi0 Hj0 Hp.
  intros Hi Hj Hpi. unfold pte at 1. rewrite write_pte_pde by done.
  unfold s', write_pte; simpl. case_decide as Hd.
  - destruct Hd as [-> ->]. apply upd_eq.
  - rewrite upd_ne; [done|]. destruct (Z.eq_dec i i0) as [->|Hne]; [lia|].
    pose proof (proj1 (pt_wf_frames s i0 Hwf)). pose proof (proj1 (pt_wf_frames s i Hwf)).
    pose proof (w_tables s Hwf i0 Hi0 Hp). pose proof (proj1 (w_self s Hwf)).
    assert (frame (pde s i) <> frame (pde s i0)).
    { destruct (Z.eq_dec i 1023) as [->|]; [congruence|].
      apply (w_distinct s Hwf); (done || lia). }
    apply page_disjoint; (done || lia).
Qed.

Lemma write_pte_wf : pt_wf s'.
Proof using Hwf Hi0 Hj0 Hp Hv.
  constructor.
  - intros a. unfold s', write_pte, upd; simpl. destruct (_ =? _); [done|apply (w_words s Hwf)].
  - exact (w_cr3 s Hwf).
  - rewrite write_pte_pde by lia. exact (w_self s Hwf).
  - intros i Hi. rewrite write_pte_pde by lia. exact (w_tables s Hwf i Hi).
  - intros i j Hi Hj. rewrite !write_pte_pde by lia. exact (w_distinct s Hwf i j Hi Hj).
  - exact (w_map s Hwf).
  - intros i a Hi. rewrite write_pte_pde by lia. exact (w_not_free s Hwf i a Hi).
Qed.

Lemma write_pte_walk va : is_u32 va ->
  mmu_walk s' va =
  if decide (get_page_dir_index va = i0 /\ get_page_tbl_index va = j0)
  then (if has v PAGE_PRESENT then Some (frame v + va mod 4096) else None)
  else mmu_walk s va.
Proof using Hwf Hi0 Hj0 Hp.
  intros Hva. destruct (va_split va Hva) as (Hd & Ht & _).
  rewrite !walk_page by done. rewrite write_pte_pde by done.
  destruct (has (pde s (get_page_dir_index va)) PAGE_PRESENT) eqn:E.
  - rewrite write_pte_pte by done. case_decide; done.
  - case_decide as Hd'; [|done]. destruct Hd' as [E1 _]. rewrite E1 in E. unfold present in Hp. congruence.
Qed.
End write_pte.

(** ** A page from the physical manager *)
Definition page_available (s : mm) (s1 : mm) (r : Z) : Prop :=
  memmanager_allocate_physical_page s = Ok (r, s1) /\ r <> 0.

Lemma allocated_page s s1 r : pt_wf s -> block_list.size (memory_map s) < MAX_NUM_MEMORY_BLOCKS ->
  page_available s s1 r ->
  s1 = set_map s (memory_map s1) /\ is_u32 r /\ r mod 4096 = 0
  /\ wf (memory_map s1)
  /\ (forall a, in_range r 4096 a -> free_at (memory_map s) a)
  /\ (forall a, free_at (memory_map s1) a <-> free_at (memory_map s) a /\ ~ in_range r 4096 a).
Proof.
  intros Hwf Hcap [Ha Hr]. unfold memmanager_allocate_physical_page, phys_allocate in Ha.
  change PAGE_SIZE with 4096 in Ha.
  rewrite allocate_first_fit in Ha by (first [exact (w_map s Hwf) | exact is_align_page | done | lia]).
  pose proof (w_map s Hwf) as Hm.
  destruct (first_fit (memory_map s) 4096 4096) as [[m' r']|] eqn:E; simpl in Ha; [|congruence].
  injection Ha as <- <-. simpl.
  destruct (first_fit_sound 4096 4096 is_align_page ltac:(lia) _ 0 _ _ ltac:(lia) Hm E)
    as (Hw & H0 & Hd & Hin & Hiff).
  pose proof (free_run_bound _ _ 4096 Hm ltac:(lia) Hin).
  repeat split; try done; try (unfold is_u32; lia); try (now apply Hiff).
  now apply Z.mod_divide.
Qed.

Definition clear_words (f : Z -> Z) (pa : Z) : Z -> Z :=
  fun x => if (pa <=? x) && (x <? pa + PAGE_SIZE) then 0 else f x.

Lemma clear_words_out f pa x : ~ (pa <= x < pa + 4096) -> clear_words f pa x = f x.
Proof.
  intros H. unfold clear_words. change PAGE_SIZE with 4096.
  destruct (Z.leb_spec pa x), (Z.ltb_spec x (pa + 4096)); simpl; lia || done.
Qed.

Lemma clear_words_in f pa x : pa <= x < pa + 4096 -> clear_words f pa x = 0.
Proof.
  intros H. unfold clear_words. change PAGE_SIZE with 4096.
  destruct (Z.leb_spec pa x), (Z.ltb_spec x (pa + 4096)); simpl; lia || done.
Qed.

(** The address space after a new, empty table has been hung at [i0]. *)
Definition table_added (s : mm) (m' : list memory_block) (i0 r e : Z) : mm :=
  mk_mm (cr3 s) (clear_words (upd (mem s) (cr3 s + 4 * i0) e) r) m' (kernel_page_directory s).

Section table_added.
Context (s : mm) (m' : list memory_block) (i0 r e : Z).
Context (Hwf : pt_wf s) (Hi0 : 0 <= i0 < 1023) (Habs : has (pde s i0) PAGE_PRESENT = false)
  (Hr : is_u32 r /\ r mod 4096 = 0) (He : is_u32 e) (Hfe : frame e = r) (Hpe : present e)
  (Hm' : wf m')
  (Hin : forall a, in_range r 4096 a -> free_at (memory_map s) a)
  (Hiff : forall a, free_at m' a <-> free_at (memory_map s) a /\ ~ in_range r 4096 a).
Let s' := table_added s m' i0 r e.

Lemma new_frame_fresh i : 0 <= i < 1024 -> present (pde s i) -> frame (pde s i) <> r.
Proof using All.
  intros Hi Hp E. apply (w_not_free s Hwf i r Hi Hp); [unfold in_range; lia|].
  apply Hin. unfold in_range. lia.
Qed.

Lemma new_frame_not_dir : cr3 s <> r.
Proof using All.
  rewrite <- (proj1 (w_self s Hwf)). apply new_frame_fresh; [lia|]. apply (w_self s Hwf).
Qed.

Lemma table_added_pde i : 0 <= i < 1024 -> pde s' i = if decide (i = i0) then e else pde s i.
Proof using All.
  intros Hi. unfold pde at 1, s', table_added; simpl.
  rewrite clear_words_out.
  2: { intros Hx. destruct (w_cr3 s Hwf) as [_ Hc]. destruct Hr as [_ Hr'].
       apply (page_disjoint (cr3 s) r (4 * i) (cr3 s + 4 * i - r)); try done; try lia.
       exact new_frame_not_dir. }
  case_decide; [subst; apply upd_eq|]. rewrite upd_ne; [done|lia].
Qed.

Lemma table_added_pte i j : 0 <= i < 1023 -> 0 <= j < 1024 -> i = i0 \/ present (pde s i) ->
  pte s' i j = if decide (i = i0) then 0 else pte s i j.
Proof using All.
  intros Hi Hj Hp. unfold pte at 1. rewrite table_added_pde by lia.
  unfold s', table_added; simpl. case_decide as Hd.
  - rewrite Hfe. apply clear_words_in. lia.
  - destruct Hp as [|Hp]; [done|]. destruct (pt_wf_frames s i Hwf) as [Hf Hc].
    rewrite clear_words_out.
    + rewrite upd_ne; [done|].
      pose proof (w_tables s Hwf i Hi Hp). apply page_disjoint; (done || lia).
    + intros Hx. destruct Hr as [_ Hr'].
      apply (page_disjoint (frame (pde s i)) r (4 * j) (frame (pde s i) + 4 * j - r));
        try done; try lia. apply new_frame_fresh; (done || lia).
Qed.

Lemma table_added_wf : pt_wf s'.
Proof using All.
  pose proof new_frame_not_dir as Hnd.
  constructor.
  - intros a. unfold s', table_added, clear_words, upd; simpl.
    destruct ((r <=? a) && (a <? r + PAGE_SIZE)); [unfold is_u32; lia|].
    destruct (_ =? _); [done|apply (w_words s Hwf)].
  - exact (w_cr3 s Hwf).
  - rewrite table_added_pde by lia. rewrite decide_False by lia. exact (w_self s Hwf).
  - intros i Hi. rewrite table_added_pde by lia. case_decide; [intros _; rewrite Hfe; exact (not_eq_sym Hnd)|].
    exact (w_tables s Hwf i Hi).
  - intros i j Hi Hj Hij. rewrite !table_added_pde by lia.
    repeat case_decide; try congruence; intros Hp1 Hp2; rewrite ?Hfe.
    + intros E. symmetry in E. revert E. apply new_frame_fresh; (done || lia).
    + apply new_frame_fresh; (done || lia).
    + now apply (w_distinct s Hwf).
  - exact Hm'.
  - intros i a Hi. rewrite table_added_pde by lia. simpl. rewrite Hiff.
    case_decide; [rewrite Hfe; tauto|].
    intros Hp Ha [Hf _]. exact (w_not_free s Hwf i a Hi Hp Ha Hf).
Qed.
End table_added.

Lemma create_new_page_table_eq s s1 r i0 flags :
  pt_wf s -> block_list.size (memory_map s) < MAX_NUM_MEMORY_BLOCKS -> page_available s s1 r ->
  0 <= i0 < 1023 -> has (pde s i0) PAGE_PRESENT = false -> 0 <= flags < 4096 ->
  exists e, is_u32 e /\ frame e = r /\ present e /\ has e PAGE_USER = has flags PAGE_USER
    /\ memmanager_create_new_page_table i0 flags s
       = Ok (tt, table_added s (memory_map s1) i0 r e).
Proof.
  intros Hwf Hcap Hav Hi0 Habs Hfl.
  destruct (allocated_page _ _ _ Hwf Hcap Hav) as (Es1 & Hr & Hra & Hm' & Hin & Hiff).
  set (f := Z.land flags (not32 (Z.lor PAGE_RESERVED PAGE_MAP_ON_ACCESS))).
  assert (Hf : 0 <= f < 4096).
  { unfold f. rewrite Z.land_comm. change 4096 with (2 ^ 12) in *. apply land_bound; lia || (vm_compute; congruence). }
  set (e := Z.lor (Z.lor (Z.lor r PAGE_PRESENT) PAGE_RW) f).
  assert (He : e = Z.lor r (Z.lor (Z.lor PAGE_PRESENT PAGE_RW) f)) by (unfold e; now rewrite !Z.lor_assoc).
  destruct (frame_lor r (Z.lor (Z.lor PAGE_PRESENT PAGE_RW) f) Hr Hra) as [Hfe Hue].
  { apply lor_small; [vm_compute; split; congruence|done]. }
  rewrite <- He in Hfe, Hue.
  assert (Hpe : present e).
  { unfold present. rewrite has_PRESENT. unfold e. rewrite !Z.lor_spec. simpl.
    now rewrite orb_true_r. }
  exists e. split; [done|]. split; [done|]. split; [done|]. split.
  { rewrite !has_USER. unfold e, f. rewrite !Z.lor_spec, Z.land_spec.
    rewrite (aligned_testbit r 12) by (done || lia). simpl. apply andb_true_r. }
  unfold memmanager_create_new_page_table. fold f.
  destruct Hav as [Hav Hr0]. rewrite (st_bind_Ok _ _ _ _ _ Hav).
  fold e. rewrite Es1.
  assert (Hw1 : vwrite (current_page_directory + 4 * i0) e (set_map s (memory_map s1))
    = Ok (tt, set_mem (set_map s (memory_map s1)) (upd (mem s) (cr3 s + 4 * i0) e))).
  { unfold vwrite. change (mmu_walk (set_map s (memory_map s1))) with (mmu_walk s).
    rewrite walk_directory by (done || lia). done. }
  rewrite (st_bind_Ok _ _ _ _ _ Hw1).
  unfold vclear_page. set (s2 := set_mem _ _).
  assert (Hpd : forall i, 0 <= i < 1024 -> pde s2 i = if decide (i = i0) then e else pde s i).
  { intros i Hi. unfold pde, s2; simpl. case_decide as Ei;
      [rewrite Ei; apply upd_eq|rewrite upd_ne; [done|lia]]. }
  assert (Hwalk : mmu_walk s2 (GET_PAGE_TABLE_ADDRESS i0) = Some r).
  { replace (GET_PAGE_TABLE_ADDRESS i0) with (1023 * 2 ^ 22 + i0 * 4096 + 0)
      by (unfold GET_PAGE_TABLE_ADDRESS, last_pde_address, PAGE_TABLE_SIZE, PAGE_SIZE; lia).
    rewrite mmu_walk_split by lia. cbv zeta.
    fold (pde s2 1023). rewrite Hpd by lia. rewrite decide_False by lia.
    destruct (w_self s Hwf) as [-> ->]. change (cr3 s) with (cr3 s2). fold (pde s2 i0).
    rewrite Hpd by lia. rewrite decide_True by done. rewrite Hpe, Hfe. f_equal. lia. }
  rewrite Hwalk. done.
Qed.

Lemma table_added_walk s m' i0 r e va : pt_wf s -> 0 <= i0 < 1023 ->
  has (pde s i0) PAGE_PRESENT = false -> is_u32 r /\ r mod 4096 = 0 -> is_u32 e ->
  frame e = r -> present e -> wf m' ->
  (forall a, in_range r 4096 a -> free_at (memory_map s) a) ->
  (forall a, free_at m' a <-> free_at (memory_map s) a /\ ~ in_range r 4096 a) ->
  is_u32 va -> get_page_dir_index va < 1023 ->
  mmu_walk (table_added s m' i0 r e) va = mmu_walk s va.
Proof.
  intros Hwf Hi0 Habs Hr He Hfe Hpe Hm' Hin Hiff Hva Hlt.
  destruct (va_split va Hva) as (Hd & Ht & _). rewrite !walk_page by done.
  rewrite (table_added_pde s m' i0 r e) by (done || lia).
  case_decide as Ei.
  - rewrite Hpe, Ei, Habs. cbv zeta.
    rewrite (table_added_pte s m' i0 r e) by (done || lia || auto).
    rewrite decide_True by done. done.
  - destruct (has (pde s (get_page_dir_index va)) PAGE_PRESENT) eqn:E; [|done].
    cbv zeta. rewrite (table_added_pte s m' i0 r e) by (done || lia || auto).
    now rewrite decide_False.
Qed.

(** ** Mapping *)
Definition map_value (pa flags : Z) : Z := Z.lor (Z.land pa PAGE_ADDRESS_MASK) flags.

Lemma map_value_spec pa flags : is_u32 pa -> 0 <= flags < 4096 ->
  is_u32 (map_value pa flags) /\ frame (map_value pa flags) = pa - pa mod 4096
  /\ forall i, 0 <= i < 12 -> Z.testbit (map_value pa flags) i = Z.testbit flags i.
Proof.
  intros Hpa Hf. unfold map_value. fold (frame pa).
  destruct (frame_aligned pa Hpa) as [Ha Hb].
  destruct (frame_lor (frame pa) flags ltac:(unfold is_u32; lia) Ha Hf) as [H1 H2].
  split; [done|]. split; [rewrite H1; now apply frame_eq|].
  intros i Hi. rewrite Z.lor_spec, (aligned_testbit (frame pa) 12) by (done || lia). done.
Qed.

Lemma map_entry_eq s va pa flags : pt_wf s -> is_u32 va ->
  present (pde s (get_page_dir_index va)) ->
  (let p := pt_entry_address va (get_page_dir_index va) in
   pt_entry ← vread p;
   if has pt_entry PAGE_ALLOCATED then mret false
   else _ ← memmanager_update_pt p (Z.lor (Z.land pa PAGE_ADDRESS_MASK) flags) va; mret true) s
  = if has (pte s (get_page_dir_index va) (get_page_tbl_index va)) PAGE_ALLOCATED
    then Ok (false, s)
    else Ok (true, write_pte s (get_page_dir_index va) (get_page_tbl_index va) (map_value pa flags)).
Proof.
  intros Hwf Hva Hp. cbv zeta.
  rewrite (st_bind_Ok _ _ _ _ _ (read_entry s Hwf va Hva Hp)).
  destruct (has _ PAGE_ALLOCATED); [done|].
  unfold memmanager_update_pt.
  now rewrite (st_bind_Ok _ _ _ _ _ (write_entry s Hwf va _ Hva Hp)).
Qed.

Lemma map_page_present s va pa flags : pt_wf s -> is_u32 va ->
  present (pde s (get_page_dir_index va)) ->
  memmanager_map_page va pa flags s =
  if has flags PAGE_USER && negb (has (pde s (get_page_dir_index va)) PAGE_USER)
     || has (pte s (get_page_dir_index va) (get_page_tbl_index va)) PAGE_ALLOCATED
  then Ok (false, s)
  else Ok (true, write_pte s (get_page_dir_index va) (get_page_tbl_index va) (map_value pa flags)).
Proof.
  intros Hwf Hva Hp. destruct (va_split va Hva) as (Hd & _).
  unfold memmanager_map_page. rewrite (st_bind_Ok _ _ _ _ _ (read_directory s Hwf _ Hd)).
  unfold present in Hp. rewrite Hp. cbv beta iota zeta delta [negb].
  destruct (has flags PAGE_USER && _); [done|].
  now apply (map_entry_eq s va pa flags).
Qed.

Lemma map_page_absent s s1 r va pa flags : pt_wf s ->
  block_list.size (memory_map s) < MAX_NUM_MEMORY_BLOCKS -> is_u32 va ->
  get_page_dir_index va < 1023 -> has (pde s (get_page_dir_index va)) PAGE_PRESENT = false ->
  page_available s s1 r -> 0 <= flags < 4096 ->
  exists s2, pt_wf s2 /\ cr3 s2 = cr3 s /\ memory_map s2 = memory_map s1
    /\ present (pde s2 (get_page_dir_index va))
    /\ pte s2 (get_page_dir_index va) (get_page_tbl_index va) = 0
    /\ (forall va', is_u32 va' -> get_page_dir_index va' < 1023 -> mmu_walk s2 va' = mmu_walk s va')
    /\ memmanager_map_page va pa flags s =
       Ok (true, write_pte s2 (get_page_dir_index va) (get_page_tbl_index va) (map_value pa flags)).
Proof.
  intros Hwf Hcap Hva Hlt Habs Hav Hfl. destruct (va_split va Hva) as (Hd & Ht & _).
  destruct (create_new_page_table_eq s s1 r (get_page_dir_index va) flags Hwf Hcap Hav
    ltac:(lia) Habs Hfl) as (e & He & Hfe & Hpe & _ & Hrun).
  destruct (allocated_page _ _ _ Hwf Hcap Hav) as (_ & Hr & Hra & Hm' & Hin & Hiff).
  set (s2 := table_added s (memory_map s1) (get_page_dir_index va) r e) in *.
  assert (Hw2 : pt_wf s2) by (apply table_added_wf; (done || lia)).
  assert (Hp2 : present (pde s2 (get_page_dir_index va))).
  { unfold s2. rewrite table_added_pde by (done || lia). now rewrite decide_True. }
  assert (Hz : pte s2 (get_page_dir_index va) (get_page_tbl_index va) = 0).
  { unfold s2. rewrite table_added_pte by (done || lia || auto). now rewrite decide_True. }
  exists s2. split; [done|]. split; [done|]. split; [done|]. split; [done|]. split; [done|]. split.
  { intros va' Hva' Hlt'. apply table_added_walk; (done || lia). }
  unfold memmanager_map_page. rewrite (st_bind_Ok _ _ _ _ _ (read_directory s Hwf _ Hd)).
  rewrite Habs. cbv beta iota zeta delta [negb].
  rewrite (st_bind_Ok _ _ _ _ _ Hrun).
  etransitivity; [now apply (map_entry_eq s2 va pa flags)|]. now rewrite Hz.
Qed.

Lemma same_page va va' : is_u32 va -> is_u32 va' ->
  get_page_dir_index va' = get_page_dir_index va /\ get_page_tbl_index va' = get_page_tbl_index va ->
  va' / 4096 = va / 4096.
Proof.
  intros Hva Hva'. destruct (va_split va Hva) as (_ & _ & _ & -> & ->).
  destruct (va_split va' Hva') as (_ & _ & _ & -> & ->). unfold is_u32 in *.
  Z.to_euclidean_division_equations. lia.
Qed.

(** C5: [memmanager_map_page] refuses exactly when the page is already allocated
    or a user page is asked for in a kernel table; otherwise (creating the page
    table when there is none) the processor translates the page to the physical
    page given, translates every other page as before, and the address space
    stays well-formed. *)
Theorem memmanager_map_page_correct s va pa flags :
  pt_wf s -> block_list.size (memory_map s) < MAX_NUM_MEMORY_BLOCKS ->
  is_u32 va -> get_page_dir_index va < 1023 -> is_u32 pa ->
  0 <= flags < 4096 -> has flags PAGE_PRESENT = true ->
  present (pde s (get_page_dir_index va)) \/ (exists s1 r, page_available s s1 r) ->
  exists ok s', memmanager_map_page va pa flags s = Ok (ok, s') /\ pt_wf s'
    /\ (ok = false <-> present (pde s (get_page_dir_index va))
          /\ (has flags PAGE_USER = true /\ has (pde s (get_page_dir_index va)) PAGE_USER = false
              \/ has (pte s (get_page_dir_index va) (get_page_tbl_index va)) PAGE_ALLOCATED = true))
    /\ (ok = false -> s' = s)
    /\ (ok = true -> mmu_walk s' va = Some (pa - pa mod 4096 + va mod 4096)
        /\ forall va', is_u32 va' -> get_page_dir_index va' < 1023 -> va' / 4096 <> va / 4096 ->
           mmu_walk s' va' = mmu_walk s va').
Proof.
  intros Hwf Hcap Hva Hlt Hpa Hfl Hpf Hor. destruct (va_split va Hva) as (Hd & Ht & _).
  destruct (map_value_spec pa flags Hpa Hfl) as (Hu & Hfr & Hbits).
  assert (Hvp : has (map_value pa flags) PAGE_PRESENT = true).
  { rewrite has_PRESENT, Hbits by lia. now rewrite <- has_PRESENT. }
  assert (Hmapped : forall s2, pt_wf s2 -> present (pde s2 (get_page_dir_index va)) ->
    (forall va', is_u32 va' -> get_page_dir_index va' < 1023 -> mmu_walk s2 va' = mmu_walk s va') ->
    let s' := write_pte s2 (get_page_dir_index va) (get_page_tbl_index va) (map_value pa flags) in
    pt_wf s' /\ (true = true -> mmu_walk s' va = Some (pa - pa mod 4096 + va mod 4096)
        /\ forall va', is_u32 va' -> get_page_dir_index va' < 1023 -> va' / 4096 <> va / 4096 ->
           mmu_walk s' va' = mmu_walk s va')).
  { intros s2 Hw2 Hp2 Hsame s'. split; [apply write_pte_wf; (done || lia)|]. intros _. split.
    - unfold s'. rewrite write_pte_walk by (done || lia). rewrite decide_True by done.
      now rewrite Hvp, Hfr.
    - intros va' Hva' Hlt' Hne. unfold s'. rewrite write_pte_walk by (done || lia).
      rewrite decide_False; [auto|]. intros Heq. apply Hne. now apply same_page. }
  destruct (has (pde s (get_page_dir_index va)) PAGE_PRESENT) eqn:Ep.
  - rewrite map_page_present by done.
    set (refuse := has flags PAGE_USER && _ || _).
    assert (Href : refuse = true <->
      has flags PAGE_USER = true /\ has (pde s (get_page_dir_index va)) PAGE_USER = false
      \/ has (pte s (get_page_dir_index va) (get_page_tbl_index va)) PAGE_ALLOCATED = true).
    { unfold refuse. rewrite orb_true_iff, andb_true_iff, negb_true_iff. done. }
    destruct refuse.
    + exists false, s. split; [done|]. split; [done|].
      split; [split; [intros _; split; [exact Ep|now apply Href]|done]|]. split; [done|discriminate].
    + destruct (Hmapped s Hwf Ep ltac:(done)) as [Hw' Hwalk].
      exists true, (write_pte s (get_page_dir_index va) (get_page_tbl_index va) (map_value pa flags)).
      split; [done|]. split; [done|]. split; [split; [done|]; intros [_ Hc]; apply Href in Hc; done|].
      split; [done|exact Hwalk].
  - destruct Hor as [Hc|(s1 & r & Hav)]; [unfold present in Hc; congruence|].
    destruct (map_page_absent s s1 r va pa flags Hwf Hcap Hva Hlt Ep Hav Hfl)
      as (s2 & Hw2 & _ & _ & Hp2 & _ & Hsame & Hrun).
    destruct (Hmapped s2 Hw2 Hp2 Hsame) as [Hw' Hwalk].
    eexists true, _. split; [exact Hrun|]. split; [exact Hw'|].
    split; [split; [done|]; intros [Hc _]; unfold present in Hc; congruence|].
    split; [done|exact Hwalk].
Qed.

(** A small address space: a directory at 0x1000, one user table at 0x2000 whose
    entry 5 is reserved to be mapped on access, and 64K of free memory. *)
Definition wit_mem (a : Z) : Z :=
  if a =? 0x1000 then 0x2007 else if a =? 0x1FFC then 0x1003
  else if a =? 0x2014 then 0xC06 else 0.
Definition wit_mm : mm := mk_mm 0x1000 wit_mem [mk_block 0x10000 0x10000] 0x1000.

Lemma wit_pde i : 0 <= i < 1024 ->
  pde wit_mm i = if decide (i = 0) then 0x2007 else if decide (i = 1023) then 0x1003 else 0.
Proof.
  intros Hi. unfold pde, wit_mm, wit_mem; simpl.
  destruct (Z.eqb_spec (0x1000 + 4 * i) 0x1000), (Z.eqb_spec (0x1000 + 4 * i) 0x1FFC),
    (Z.eqb_spec (0x1000 + 4 * i) 0x2014); repeat case_decide; (done || lia).
Qed.

Lemma wit_present i : 0 <= i < 1024 -> present (pde wit_mm i) ->
  i = 0 /\ pde wit_mm i = 0x2007 \/ i = 1023 /\ pde wit_mm i = 0x1003.
Proof.
  intros Hi. rewrite wit_pde by done. repeat case_decide; auto. intros Hp. now vm_compute in Hp.
Qed.

Lemma wit_mm_wf : pt_wf wit_mm.
Proof.
  constructor.
  - intros a. unfold wit_mm, wit_mem, is_u32; simpl.
    destruct (_ =? _); [lia|]. destruct (_ =? _); [lia|]. destruct (_ =? _); lia.
  - split; [unfold is_u32; simpl; lia|reflexivity].
  - split; reflexivity.
  - intros i Hi Hp. destruct (wit_present i ltac:(lia) Hp) as [[_ ->]|[? _]]; [by vm_compute|lia].
  - intros i j Hi Hj Hij Hp1 Hp2.
    destruct (wit_present i ltac:(lia) Hp1) as [[? _]|[? _]],
      (wit_present j ltac:(lia) Hp2) as [[? _]|[? _]]; lia.
  - unfold wf; simpl. lia.
  - intros i a Hi Hp Ha Hf. unfold wit_mm in Hf; simpl in Hf.
    apply free_at_cons in Hf as [Hf|Hf]; [|now apply free_at_nil in Hf]. simpl in Hf.
    unfold in_range in Ha.
    destruct (wit_present i Hi Hp) as [[_ E]|[_ E]]; rewrite E in Ha;
      vm_compute frame in Ha; lia.
Qed.

Lemma wit_available : exists s1 r, page_available wit_mm s1 r.
Proof. eexists _, 0x10000. split; [reflexivity|lia]. Qed.

Lemma memmanager_map_page_correct_witness :
  exists ok s', memmanager_map_page 0x40003123 0x8000 3 wit_mm = Ok (ok, s') /\ pt_wf s'
    /\ (ok = false <-> present (pde wit_mm (get_page_dir_index 0x40003123))
          /\ (has 3 PAGE_USER = true /\ has (pde wit_mm (get_page_dir_index 0x40003123)) PAGE_USER = false
              \/ has (pte wit_mm (get_page_dir_index 0x40003123) (get_page_tbl_index 0x40003123))
                   PAGE_ALLOCATED = true))
    /\ (ok = false -> s' = wit_mm)
    /\ (ok = true -> mmu_walk s' 0x40003123 = Some (0x8000 - 0x8000 mod 4096 + 0x40003123 mod 4096)
        /\ forall va', is_u32 va' -> get_page_dir_index va' < 1023 -> va' / 4096 <> 0x40003123 / 4096 ->
           mmu_walk s' va' = mmu_walk wit_mm va').
Proof.
  apply (memmanager_map_page_correct wit_mm 0x40003123 0x8000 3);
    [exact wit_mm_wf | reflexivity | unfold is_u32; lia | reflexivity | unfold is_u32; lia
    | lia | reflexivity | right; exact wit_available].
Defined.

(** through the recursive entry, [current_page_directory] and
    [GET_PAGE_TABLE_ADDRESS] address exactly the words of the directory and of
    the page tables in physical memory: reading entry [i] of the directory or
    entry [j] of table [i] yields that word, and a table that is not present traps. *)
Theorem recursive_mapping_correct s i j :
  pt_wf s -> 0 <= i < 1024 -> 0 <= j < 1024 ->
  vread (current_page_directory + 4 * i) s = Ok (mem s (cr3 s + 4 * i), s)
  /\ vread (GET_PAGE_TABLE_ADDRESS i + 4 * j) s
     = if has (mem s (cr3 s + 4 * i)) PAGE_PRESENT
       then Ok (mem s (Z.land (mem s (cr3 s + 4 * i)) PAGE_ADDRESS_MASK + 4 * j), s)
       else Fault PageFault.
Proof.
  intros Hwf Hi Hj. split; [now apply read_directory|].
  unfold vread. rewrite walk_table by done. unfold pde, frame.
  now destruct (has _ PAGE_PRESENT).
Qed.

Lemma recursive_mapping_correct_witness :
  vread (current_page_directory + 4 * 0) wit_mm = Ok (mem wit_mm (cr3 wit_mm + 4 * 0), wit_mm)
  /\ vread (GET_PAGE_TABLE_ADDRESS 0 + 4 * 5) wit_mm
     = if has (mem wit_mm (cr3 wit_mm + 4 * 0)) PAGE_PRESENT
       then Ok (mem wit_mm (Z.land (mem wit_mm (cr3 wit_mm + 4 * 0)) PAGE_ADDRESS_MASK + 4 * 5), wit_mm)
       else Fault PageFault.
Proof. apply (recursive_mapping_correct wit_mm 0 5); [exact wit_mm_wf | lia | lia]. Defined.

(** ** Unmapping *)
Lemma unmap_page_eq s va flags : pt_wf s -> is_u32 va ->
  memmanager_unmap_page_with_flags va flags s =
  if has (pde s (get_page_dir_index va)) PAGE_PRESENT then
    if has (pte s (get_page_dir_index va) (get_page_tbl_index va)) flags
    then Ok (tt, write_pte s (get_page_dir_index va) (get_page_tbl_index va) 0)
    else Ok (tt, s)
  else Fault AssertFailed.
Proof.
  intros Hwf Hva. destruct (va_split va Hva) as (Hd & _).
  unfold memmanager_unmap_page_with_flags.
  rewrite (st_bind_Ok _ _ _ _ _ (read_directory s Hwf _ Hd)).
  destruct (has (pde s (get_page_dir_index va)) PAGE_PRESENT) eqn:Hp; [|done]. cbv zeta.
  rewrite (st_bind_Ok _ _ _ _ _ (read_entry s Hwf va Hva Hp)).
  destruct (has _ flags); [|done]. now apply write_entry.
Qed.

Lemma get_pt_entry_eq s va : pt_wf s -> is_u32 va ->
  memmanager_get_pt_entry va s =
  Ok (if has (pde s (get_page_dir_index va)) PAGE_PRESENT
      then pte s (get_page_dir_index va) (get_page_tbl_index va)
      else pde s (get_page_dir_index va), s).
Proof.
  intros Hwf Hva. destruct (va_split va Hva) as (Hd & _). unfold memmanager_get_pt_entry.
  rewrite (st_bind_Ok _ _ _ _ _ (read_directory s Hwf _ Hd)).
  destruct (has (pde s (get_page_dir_index va)) PAGE_PRESENT) eqn:Hp; [|done].
  now apply read_entry.
Qed.

(** The table of free physical memory may shrink, or grow by frames that hold no table. *)
Lemma set_map_wf s m' : pt_wf s -> wf m' ->
  (forall i a, 0 <= i < 1024 -> present (pde s i) -> in_range (frame (pde s i)) 4096 a ->
     ~ free_at m' a) ->
  pt_wf (set_map s m').
Proof. intros [H1 H2 H3 H4 H5 H6 H7] Hm Hf. constructor; done. Qed.

(** freeing one mapped page unmaps it, gives exactly its frame back to the
    physical manager, returns 0, leaves all other translations alone and keeps the
    address space well-formed. *)
Theorem memmanager_free_pages_one_correct s va :
  pt_wf s -> block_list.size (memory_map s) < MAX_NUM_MEMORY_BLOCKS ->
  is_u32 va -> get_page_dir_index va < 1023 ->
  let e := pte s (get_page_dir_index va) (get_page_tbl_index va) in
  present (pde s (get_page_dir_index va)) -> present e ->
  frame e + 4096 < 2 ^ 32 ->
  (forall a, in_range (frame e) 4096 a -> ~ free_at (memory_map s) a) ->
  (forall i, 0 <= i < 1024 -> present (pde s i) -> frame (pde s i) <> frame e) ->
  exists s', memmanager_free_pages va 1 s = Ok (0, s') /\ pt_wf s'
    /\ mmu_walk s' va = None
    /\ (forall a, free_at (memory_map s') a <-> free_at (memory_map s) a \/ in_range (frame e) 4096 a)
    /\ (forall va', is_u32 va' -> get_page_dir_index va' < 1023 -> va' / 4096 <> va / 4096 ->
          mmu_walk s' va' = mmu_walk s va').
Proof.
  intros Hwf Hcap Hva Hlt e Hp Hpe Hend Hnf Hnt. destruct (va_split va Hva) as (Hd & Ht & _).
  pose proof (w_words s Hwf (frame (pde s (get_page_dir_index va)) + 4 * get_page_tbl_index va)) as Hue.
  fold (pte s (get_page_dir_index va) (get_page_tbl_index va)) in Hue. fold e in Hue.
  destruct (frame_aligned e Hue) as [Hea He0].
  set (s1 := write_pte s (get_page_dir_index va) (get_page_tbl_index va) 0).
  assert (Hw1 : pt_wf s1) by (apply write_pte_wf; (done || lia || (unfold is_u32; lia))).
  destruct (coalesce_spec (frame e) 4096 ltac:(lia) ltac:(lia) Hend (memory_map s) 0 ltac:(lia)
    (w_map s Hwf) Hnf) as [Hwm Hiff].
  exists (set_map s1 (coalesce (memory_map s) (frame e) 4096)).
  assert (Hal : has e PAGE_ALLOCATED = true).
  { rewrite has_ALLOCATED, <- has_PRESENT. unfold present in Hpe. rewrite Hpe. apply orb_true_r. }
  split.
  { unfold memmanager_free_pages, memmanager_free_pages_with_flags.
    rewrite (st_bind_Ok _ _ _ _ _ (get_pt_entry_eq s va Hwf Hva)). unfold present in Hp. rewrite Hp.
    fold e. assert (Hu : memmanager_unmap_page_with_flags va PAGE_ALLOCATED s = Ok (tt, s1)).
    { rewrite unmap_page_eq by done. rewrite Hp. fold e. now rewrite Hal. }
    rewrite (st_bind_Ok _ _ _ _ _ Hu). rewrite Hal. cbv beta iota zeta delta [negb].
    unfold present in Hpe. rewrite Hpe.
    assert (Hf : phys_free (Z.land e PAGE_ADDRESS_MASK) PAGE_SIZE s1
                 = Ok (tt, set_map s1 (coalesce (memory_map s) (frame e) 4096))).
    { unfold phys_free. change (memory_map s1) with (memory_map s). change PAGE_SIZE with 4096.
      fold (frame e). rewrite free_coalesce by (try exact (w_map s Hwf); done || lia). done. }
    rewrite (st_bind_Ok _ _ _ _ _ Hf). done. }
  split.
  { apply set_map_wf; [done|done|]. intros i a Hi Hpi Ha Hfa.
    unfold s1 in Hpi, Ha. rewrite write_pte_pde in Hpi, Ha by (done || lia).
    apply Hiff in Hfa as [Hfa|Hfa]; [now apply (w_not_free s Hwf i a)|].
    specialize (Hnt i Hi Hpi). destruct (pt_wf_frames s i Hwf) as [Hfi _].
    unfold in_range in *.
    apply (page_disjoint (frame (pde s i)) (frame e) (a - frame (pde s i)) (a - frame e));
      (done || lia). }
  change (mmu_walk (set_map s1 (coalesce (memory_map s) (frame e) 4096))) with (mmu_walk s1).
  pose proof (write_pte_walk s _ _ 0 Hwf (conj (proj1 Hd) Hlt) Ht Hp) as Hwalk. fold s1 in Hwalk.
  split; [rewrite Hwalk, decide_True by auto; reflexivity|].
  split; [exact Hiff|].
  intros va' Hva' Hlt' Hne. rewrite Hwalk by exact Hva'.
  rewrite decide_False; [reflexivity|]. intros Heq. apply Hne. now apply same_page.
Qed.

(** An address space whose page 5 is mapped to the frame 0x8000. *)
Definition wit_mapped : mm :=
  mk_mm 0x1000 (upd wit_mem 0x2014 0x8007) [mk_block 0x10000 0x10000] 0x1000.

Lemma wit_mapped_wf : pt_wf wit_mapped.
Proof.
  change wit_mapped with (write_pte wit_mm 0 5 0x8007).
  apply write_pte_wf; [exact wit_mm_wf | lia | lia | reflexivity | unfold is_u32; lia].
Qed.

Lemma memmanager_free_pages_one_correct_witness :
  exists s', memmanager_free_pages 0x5000 1 wit_mapped = Ok (0, s') /\ pt_wf s'
    /\ mmu_walk s' 0x5000 = None
    /\ (forall a, free_at (memory_map s') a <->
          free_at (memory_map wit_mapped) a \/ in_range (frame 0x8007) 4096 a)
    /\ (forall va', is_u32 va' -> get_page_dir_index va' < 1023 -> va' / 4096 <> 0x5000 / 4096 ->
          mmu_walk s' va' = mmu_walk wit_mapped va').
Proof.
  apply (memmanager_free_pages_one_correct wit_mapped 0x5000);
    [exact wit_mapped_wf | reflexivity | unfold is_u32; lia | reflexivity | reflexivity
    | reflexivity | reflexivity | |].
  - intros a Ha Hf. vm_compute frame in Ha. unfold in_range in Ha. simpl in Hf.
    apply free_at_cons in Hf as [Hf|Hf]; [simpl in Hf; lia|now apply free_at_nil in Hf].
  - intros i Hi Hp.
    change (pde wit_mapped i) with (pde (write_pte wit_mm 0 5 0x8007) i) in *.
    rewrite (write_pte_pde wit_mm 0 5 0x8007 wit_mm_wf) in * by (lia || reflexivity).
    destruct (wit_present i Hi Hp) as [[_ ->]|[_ ->]]; vm_compute; congruence.
Defined.

(** ** Page faults *)
Section clear.
Context (s : mm) (r : Z) (Hwf : pt_wf s) (Hr : r mod 4096 = 0)
  (Hfresh : forall i, 0 <= i < 1024 -> present (pde s i) -> frame (pde s i) <> r).
Let s' := set_mem s (clear_words (mem s) r).

Lemma clear_pde i : 0 <= i < 1024 -> pde s' i = pde s i.
Proof using All.
  intros Hi. unfold pde at 1, s'; simpl. rewrite clear_words_out; [done|]. intros Hx.
  destruct (pt_wf_frames s i Hwf) as [_ Hc]. destruct (w_self s Hwf) as [Hself Hp].
  apply (page_disjoint (cr3 s) r (4 * i) (cr3 s + 4 * i - r)); try done; try lia.
  rewrite <- Hself. apply Hfresh; [lia|exact Hp].
Qed.

Lemma clear_pte i j : 0 <= i < 1024 -> 0 <= j < 1024 -> present (pde s i) ->
  pte s' i j = pte s i j.
Proof using All.
  intros Hi Hj Hp. unfold pte at 1. rewrite clear_pde by done. unfold s'; simpl.
  rewrite clear_words_out; [done|]. intros Hx. destruct (pt_wf_frames s i Hwf) as [Hf _].
  apply (page_disjoint (frame (pde s i)) r (4 * j) (frame (pde s i) + 4 * j - r));
    try done; try lia. now apply Hfresh.
Qed.

Lemma clear_wf : pt_wf s'.
Proof using All.
  constructor.
  - intros a. unfold s', clear_words; simpl.
    destruct (_ && _); [unfold is_u32; lia|apply (w_words s Hwf)].
  - exact (w_cr3 s Hwf).
  - rewrite clear_pde by lia. exact (w_self s Hwf).
  - intros i Hi. rewrite clear_pde by lia. exact (w_tables s Hwf i Hi).
  - intros i j Hi Hj. rewrite !clear_pde by lia. exact (w_distinct s Hwf i j Hi Hj).
  - exact (w_map s Hwf).
  - intros i a Hi. rewrite clear_pde by lia. exact (w_not_free s Hwf i a Hi).
Qed.

Lemma clear_walk va : is_u32 va -> mmu_walk s' va = mmu_walk s va.
Proof using All.
  intros Hva. destruct (va_split va Hva) as (Hd & Ht & _).
  rewrite !walk_page by done. rewrite clear_pde by done.
  destruct (has (pde s (get_page_dir_index va)) PAGE_PRESENT) eqn:E; [|done].
  cbv zeta. now rewrite clear_pte.
Qed.
End clear.

(** The value the handler leaves in the entry. *)
Definition fault_value (old r : Z) : Z :=
  Z.lor (Z.lor r (Z.land old (Z.land PAGE_FLAGS_MASK
    (not32 (Z.lor PAGE_RESERVED PAGE_MAP_ON_ACCESS))))) PAGE_PRESENT.

Lemma fault_value_spec old r : is_u32 old -> is_u32 r -> r mod 4096 = 0 ->
  forall x, 0 <= x < 4 -> let v := Z.lor (fault_value old r) x in
  is_u32 v /\ frame v = r /\ has v PAGE_PRESENT = true
  /\ has v PAGE_USER = has old PAGE_USER
  /\ has v PAGE_RW = has old PAGE_RW || Z.testbit x 1
  /\ has v PAGE_MAP_ON_ACCESS = false.
Proof.
  intros Ho Hr Ha x Hx v. unfold v, fault_value. set (f := Z.land old _).
  assert (Hf : 0 <= f < 4096).
  { unfold f. change 4096 with (2 ^ 12). apply land_bound; [lia|unfold is_u32 in Ho; lia|].
    vm_compute. split; congruence. }
  assert (Hx' : 0 <= x < 4096) by lia.
  rewrite <- (Z.lor_assoc r f), <- Z.lor_assoc.
  destruct (frame_lor r (Z.lor (Z.lor f PAGE_PRESENT) x) Hr Ha) as [H1 H2].
  { apply lor_small; [apply lor_small; [done|vm_compute; split; congruence]|done]. }
  split; [done|]. split; [done|].
  rewrite !has_PRESENT, !has_USER, !has_RW, !has_ON_ACCESS. unfold f.
  rewrite !Z.lor_spec, !Z.land_spec, !(aligned_testbit r 12) by (done || lia).
  rewrite (small_testbit x 2 2), (small_testbit x 2 10) by lia.
  simpl. rewrite !andb_true_r, !orb_false_r, !andb_false_r, orb_true_r. auto.
Qed.

Lemma upd_twice f a v w x : upd (upd f a v) a w x = upd f a w x.
Proof. unfold upd. now destruct (x =? a). Qed.

Lemma page_base va : is_u32 va -> let b := Z.land va PAGE_ADDRESS_MASK in
  is_u32 b /\ get_page_dir_index b = get_page_dir_index va
  /\ get_page_tbl_index b = get_page_tbl_index va /\ b mod 4096 = 0.
Proof.
  intros Hva b. unfold b. fold (frame va). destruct (frame_aligned va Hva) as [Ha Hb].
  assert (Hu : is_u32 (frame va)) by (unfold is_u32; lia). split; [done|].
  destruct (va_split va Hva) as (_ & _ & _ & -> & ->).
  destruct (va_split (frame va) Hu) as (_ & _ & _ & -> & ->).
  rewrite frame_eq by done. unfold is_u32 in *. Z.to_euclidean_division_equations. lia.
Qed.

(** The three table updates of the handler, from a state whose table entry is
    about to receive the fresh frame [r]. *)
Section fault_steps.
Context (s : mm) (i0 j0 r old : Z).
Context (Hwf : pt_wf s) (Hi0 : 0 <= i0 < 1023) (Hj0 : 0 <= j0 < 1024)
  (Hp : present (pde s i0)) (Hold : is_u32 old) (Hr : is_u32 r) (Hra : r mod 4096 = 0)
  (Hfresh : forall i, 0 <= i < 1024 -> present (pde s i) -> frame (pde s i) <> r).

Definition fault_cleared : mm :=
  let s2 := write_pte s i0 j0 (Z.lor (fault_value old r) PAGE_RW) in
  set_mem s2 (clear_words (mem s2) r).
Definition fault_final : mm :=
  if has old PAGE_RW then fault_cleared else write_pte fault_cleared i0 j0 (fault_value old r).

Lemma fault_cleared_spec :
  pt_wf fault_cleared
  /\ (forall i, 0 <= i < 1024 -> pde fault_cleared i = pde s i)
  /\ pte fault_cleared i0 j0 = Z.lor (fault_value old r) PAGE_RW
  /\ (forall k, 0 <= k < 4096 -> mem fault_cleared (r + k) = 0)
  /\ forall va, is_u32 va -> mmu_walk fault_cleared va =
       if decide (get_page_dir_index va = i0 /\ get_page_tbl_index va = j0)
       then Some (r + va mod 4096) else mmu_walk s va.
Proof using All.
  destruct (fault_value_spec old r Hold Hr Hra PAGE_RW ltac:(vm_compute; split; congruence))
    as (Hu & Hf & Hpr & _).
  set (v := Z.lor (fault_value old r) PAGE_RW) in *.
  pose proof (write_pte_wf s i0 j0 v Hwf Hi0 Hj0 Hp Hu) as Hw2.
  assert (Hfr2 : forall i, 0 <= i < 1024 -> present (pde (write_pte s i0 j0 v) i) ->
                 frame (pde (write_pte s i0 j0 v) i) <> r).
  { intros i Hi. rewrite (write_pte_pde s i0 j0 v Hwf Hi0 Hj0 Hp) by done. now apply Hfresh. }
  unfold fault_cleared. fold v. split; [exact (clear_wf _ r Hw2 Hra Hfr2)|]. split.
  { intros i Hi. rewrite (clear_pde _ r Hw2 Hra Hfr2) by done.
    now rewrite (write_pte_pde s i0 j0 v Hwf Hi0 Hj0 Hp). }
  split.
  { rewrite (clear_pte _ r Hw2 Hra Hfr2); [|lia|done|].
    - rewrite (write_pte_pte s i0 j0 v Hwf Hi0 Hj0 Hp) by (done || lia). now rewrite decide_True.
    - rewrite (write_pte_pde s i0 j0 v Hwf Hi0 Hj0 Hp) by lia. done. }
  split; [intros k Hk; apply clear_words_in; lia|].
  intros va Hva. rewrite (clear_walk _ r Hw2 Hra Hfr2) by done.
  rewrite (write_pte_walk s i0 j0 v Hwf Hi0 Hj0 Hp) by done. now rewrite Hpr, Hf.
Qed.

Lemma fault_final_spec :
  pt_wf fault_final
  /\ pte fault_final i0 j0
     = (if has old PAGE_RW then Z.lor (fault_value old r) PAGE_RW else fault_value old r)
  /\ (forall k, 0 <= k < 4096 -> mem fault_final (r + k) = 0)
  /\ forall va, is_u32 va -> mmu_walk fault_final va =
       if decide (get_page_dir_index va = i0 /\ get_page_tbl_index va = j0)
       then Some (r + va mod 4096) else mmu_walk s va.
Proof using All.
  destruct fault_cleared_spec as (Hw & Hpd & Hpt & Hz & Hwalk).
  unfold fault_final. destruct (has old PAGE_RW) eqn:Erw; [auto|].
  destruct (fault_value_spec old r Hold Hr Hra 0 ltac:(lia)) as (Hu & Hf & Hpr & _).
  rewrite Z.lor_0_r in Hu, Hf, Hpr.
  assert (Hp3 : present (pde fault_cleared i0)) by (rewrite Hpd by lia; done).
  split; [exact (write_pte_wf _ i0 j0 _ Hw Hi0 Hj0 Hp3 Hu)|]. split.
  { rewrite (write_pte_pte _ i0 j0 _ Hw Hi0 Hj0 Hp3) by (done || lia). now rewrite decide_True. }
  split.
  { intros k Hk. unfold write_pte, set_mem; cbn [mem]. rewrite upd_ne; [exact (Hz k Hk)|].
    destruct (pt_wf_frames s i0 Hwf) as [Hfa _]. rewrite Hpd by lia.
    pose proof (Hfresh i0 ltac:(lia) Hp). apply page_disjoint; (done || lia || congruence). }
  intros va Hva. rewrite (write_pte_walk _ i0 j0 _ Hw Hi0 Hj0 Hp3) by done.
  rewrite Hpr, Hf, Hwalk by done. now case_decide.
Qed.
End fault_steps.

Lemma allocated_space s s1 r : pt_wf s -> block_list.size (memory_map s) < MAX_NUM_MEMORY_BLOCKS ->
  page_available s s1 r ->
  pt_wf s1 /\ (forall i, pde s1 i = pde s i) /\ (forall va, mmu_walk s1 va = mmu_walk s va)
  /\ (forall i, 0 <= i < 1024 -> present (pde s1 i) -> frame (pde s1 i) <> r).
Proof.
  intros Hwf Hcap Hav.
  destruct (allocated_page _ _ _ Hwf Hcap Hav) as (Es1 & Hr & Hra & Hm' & Hin & Hiff).
  assert (Hpd : forall i, pde s1 i = pde s i) by (intros i; rewrite Es1; reflexivity).
  split; [|split; [exact Hpd|split]].
  - rewrite Es1. apply set_map_wf; [exact Hwf|exact Hm'|]. intros i a Hi Hpi Ha Hf.
    apply Hiff in Hf. exact (w_not_free s Hwf i a Hi Hpi Ha (proj1 Hf)).
  - intros va. rewrite Es1. reflexivity.
  - intros i Hi. rewrite Hpd. intros Hpi E.
    assert (Hir : in_range r 4096 r) by (unfold in_range; lia).
    apply (w_not_free s Hwf i r Hi Hpi); [rewrite E; exact Hir|exact (Hin r Hir)].
Qed.

Lemma page_fault_run s s1 r va err : pt_wf s ->
  block_list.size (memory_map s) < MAX_NUM_MEMORY_BLOCKS ->
  is_u32 va -> get_page_dir_index va < 1023 -> has err PAGE_PRESENT = false ->
  let old := pte s (get_page_dir_index va) (get_page_tbl_index va) in
  present (pde s (get_page_dir_index va)) ->
  has old PAGE_MAP_ON_ACCESS = true -> has old PAGE_RESERVED = true ->
  has old PAGE_PRESENT = false -> page_available s s1 r ->
  memmanager_handle_page_fault err va s
  = Ok (true, fault_final s1 (get_page_dir_index va) (get_page_tbl_index va) r old).
Proof.
  intros Hwf Hcap Hva Hlt Herr old Hp Ho1 Ho2 Ho3 Hav. destruct (va_split va Hva) as (Hd & Ht & _).
  destruct (allocated_page _ _ _ Hwf Hcap Hav) as (Es1 & Hr & Hra & Hm' & Hin & Hiff).
  assert (Hold : is_u32 old) by apply (w_words s Hwf).
  unfold memmanager_handle_page_fault. rewrite Herr. cbv zeta.
  rewrite (st_bind_Ok _ _ _ _ _ (read_directory s Hwf _ Hd)). unfold present in Hp. rewrite Hp.
  rewrite (st_bind_Ok _ _ _ _ _ (read_entry s Hwf va Hva Hp)). fold old.
  rewrite Ho1, Ho2, Ho3. cbv beta iota delta [negb].
  change (k_assert_st true) with (mret tt : st mm unit).
  rewrite (st_bind_Ok (mret tt) _ s tt s eq_refl), (st_bind_Ok (mret tt) _ s tt s eq_refl).
  destruct Hav as [Hav Hr0]. rewrite (st_bind_Ok _ _ _ _ _ Hav).
  destruct (Z.eqb_spec r 0); [done|].
  destruct (allocated_space s s1 r Hwf Hcap (conj Hav Hr0)) as (Hw1 & Hpd & _ & Hfr).
  assert (Hp1 : present (pde s1 (get_page_dir_index va))) by (rewrite Hpd; exact Hp).
  destruct (fault_cleared_spec s1 _ _ r old Hw1 (conj (proj1 Hd) Hlt) Ht Hp1 Hold Hr Hra Hfr)
    as (Hwc & Hpdc & _).
  fold (fault_value old r).
  unfold memmanager_update_pt.
  rewrite (st_bind_Ok _ _ _ _ _ (write_entry s1 Hw1 va _ Hva Hp1)).
  fold (write_pte s1 (get_page_dir_index va) (get_page_tbl_index va) (Z.lor (fault_value old r) PAGE_RW)).
  destruct (page_base va Hva) as (Hub & Eb1 & Eb2 & Eb3). cbv zeta in *.
  destruct (fault_value_spec old r Hold Hr Hra PAGE_RW ltac:(vm_compute; split; congruence))
    as (Hu & Hf & Hpr & _).
  assert (Hclear : vclear_page (Z.land va PAGE_ADDRESS_MASK)
      (write_pte s1 (get_page_dir_index va) (get_page_tbl_index va) (Z.lor (fault_value old r) PAGE_RW))
    = Ok (tt, fault_cleared s1 (get_page_dir_index va) (get_page_tbl_index va) r old)).
  { unfold vclear_page.
    rewrite (write_pte_walk s1 _ _ _ Hw1 (conj (proj1 Hd) Hlt) Ht Hp1) by done.
    rewrite decide_True by done. rewrite Hpr, Hf, Eb3, Z.add_0_r. done. }
  rewrite (st_bind_Ok _ _ _ _ _ Hclear).
  assert (Hrw : has (Z.land old (Z.land PAGE_FLAGS_MASK (not32 (Z.lor PAGE_RESERVED PAGE_MAP_ON_ACCESS))))
                PAGE_RW = has old PAGE_RW).
  { rewrite !has_RW, Z.land_spec. simpl. apply andb_true_r. }
  rewrite Hrw. unfold fault_final. destruct (has old PAGE_RW); [done|].
  cbv beta iota delta [negb].
  assert (Hp3 : present (pde (fault_cleared s1 (get_page_dir_index va) (get_page_tbl_index va) r old)
                           (get_page_dir_index va))) by (rewrite Hpdc by lia; done).
  rewrite (st_bind_Ok _ _ _ _ _ (write_entry _ Hwc va _ Hva Hp3)). reflexivity.
Qed.

(** C6: a fault on a page reserved to be mapped on access allocates one free
    frame, maps the page to it with the protection that was asked for (writable
    or user only when the entry said so), hands it over filled with zeros, and
    changes no other translation. *)
Theorem memmanager_handle_page_fault_correct s s1 r va err :
  pt_wf s -> block_list.size (memory_map s) < MAX_NUM_MEMORY_BLOCKS ->
  is_u32 va -> get_page_dir_index va < 1023 -> has err PAGE_PRESENT = false ->
  let old := pte s (get_page_dir_index va) (get_page_tbl_index va) in
  present (pde s (get_page_dir_index va)) ->
  has old PAGE_MAP_ON_ACCESS = true -> has old PAGE_RESERVED = true ->
  has old PAGE_PRESENT = false -> page_available s s1 r ->
  exists s', memmanager_handle_page_fault err va s = Ok (true, s') /\ pt_wf s'
    /\ mmu_walk s' va = Some (r + va mod 4096)
    /\ (forall k, 0 <= k < 4096 -> mem s' (r + k) = 0)
    /\ (let e := pte s' (get_page_dir_index va) (get_page_tbl_index va) in
        has e PAGE_RW = has old PAGE_RW /\ has e PAGE_USER = has old PAGE_USER)
    /\ (forall a, free_at (memory_map s') a <-> free_at (memory_map s) a /\ ~ in_range r 4096 a)
    /\ (forall va', is_u32 va' -> get_page_dir_index va' < 1023 -> va' / 4096 <> va / 4096 ->
          mmu_walk s' va' = mmu_walk s va').
Proof.
  intros Hwf Hcap Hva Hlt Herr old Hp Ho1 Ho2 Ho3 Hav. destruct (va_split va Hva) as (Hd & Ht & _).
  destruct (allocated_page _ _ _ Hwf Hcap Hav) as (Es1 & Hr & Hra & Hm' & Hin & Hiff).
  assert (Hold : is_u32 old) by apply (w_words s Hwf).
  exists (fault_final s1 (get_page_dir_index va) (get_page_tbl_index va) r old).
  split; [exact (page_fault_run s s1 r va err Hwf Hcap Hva Hlt Herr Hp Ho1 Ho2 Ho3 Hav)|].
  destruct (allocated_space s s1 r Hwf Hcap Hav) as (Hw1 & Hpd & Hwk & Hfr).
  destruct (fault_final_spec s1 _ _ r old Hw1 (conj (proj1 Hd) Hlt) Ht
    (eq_ind_r (fun e => present e) Hp (Hpd _)) Hold Hr Hra Hfr) as (Hwc & Hpt & Hz & Hwalk).
  split; [exact Hwc|]. split; [rewrite Hwalk by exact Hva; rewrite decide_True by (split; reflexivity); reflexivity|].
  split; [exact Hz|]. split.
  { cbv zeta. rewrite Hpt.
    destruct (fault_value_spec old r Hold Hr Hra PAGE_RW ltac:(vm_compute; split; congruence))
      as (_ & _ & _ & U1 & R1 & _).
    destruct (fault_value_spec old r Hold Hr Hra 0 ltac:(lia)) as (_ & _ & _ & U0 & R0 & _).
    rewrite Z.lor_0_r in U0, R0. rewrite Z.testbit_0_l, orb_false_r in R0.
    destruct (has old PAGE_RW) eqn:E; [|auto]. rewrite R1. simpl. rewrite U1. auto. }
  split.
  { intros a. unfold fault_final, fault_cleared.
    destruct (has old PAGE_RW); simpl; apply Hiff. }
  intros va' Hva' Hlt' Hne. rewrite Hwalk by exact Hva'. rewrite decide_False; [apply Hwk|].
  intros Heq. apply Hne. exact (same_page va va' Hva Hva' Heq).
Qed.

Lemma memmanager_handle_page_fault_correct_witness :
  exists s', memmanager_handle_page_fault 2 0x5123 wit_mm = Ok (true, s') /\ pt_wf s'
    /\ mmu_walk s' 0x5123 = Some (0x10000 + 0x5123 mod 4096)
    /\ (forall k, 0 <= k < 4096 -> mem s' (0x10000 + k) = 0)
    /\ (let e := pte s' (get_page_dir_index 0x5123) (get_page_tbl_index 0x5123) in
        has e PAGE_RW = has 0xC06 PAGE_RW /\ has e PAGE_USER = has 0xC06 PAGE_USER)
    /\ (forall a, free_at (memory_map s') a <-> free_at (memory_map wit_mm) a /\ ~ in_range 0x10000 4096 a)
    /\ (forall va', is_u32 va' -> get_page_dir_index va' < 1023 -> va' / 4096 <> 0x5123 / 4096 ->
          mmu_walk s' va' = mmu_walk wit_mm va').
Proof.
  apply (memmanager_handle_page_fault_correct wit_mm
           (set_map wit_mm [mk_block 0x11000 0xF000]) 0x10000 0x5123 2);
    [exact wit_mm_wf | reflexivity | unfold is_u32; lia | reflexivity | reflexivity
    | reflexivity | reflexivity | reflexivity | reflexivity | split; [reflexivity | lia]].
Defined.

(** ** [memmanager_virtual_alloc] *)
Definition pde_of (s : mm) (va : Z) : Z := pde s (get_page_dir_index va).
Definition pte_of (s : mm) (va : Z) : Z := pte s (get_page_dir_index va) (get_page_tbl_index va).

(** User space and kernel space lie below the recursive window. *)
Definition below_window (va : Z) : Prop := 0 <= va < 1023 * 2 ^ 22.

Lemma below_window_index va : below_window va ->
  is_u32 va /\ 0 <= get_page_dir_index va < 1023 /\ 0 <= get_page_tbl_index va < 1024.
Proof.
  unfold below_window. intros H. assert (Hu : is_u32 va) by (unfold is_u32; lia).
  destruct (va_split va Hu) as (_ & Ht & _ & E & _). split; [exact Hu|]. split; [|exact Ht].
  rewrite E. Z.to_euclidean_division_equations. lia.
Qed.

Lemma same_page_iff va va' : is_u32 va -> is_u32 va' ->
  get_page_dir_index va' = get_page_dir_index va /\ get_page_tbl_index va' = get_page_tbl_index va
  <-> va' / 4096 = va / 4096.
Proof.
  intros Hva Hva'. split; [now apply same_page|].
  destruct (va_split va Hva) as (_ & _ & _ & -> & ->).
  destruct (va_split va' Hva') as (_ & _ & _ & -> & ->). unfold is_u32 in *.
  intros H. Z.to_euclidean_division_equations. lia.
Qed.

(** A page that may receive a mapping with flags [pf] without a new table. *)
Definition mappable (s : mm) (pf va : Z) : Prop :=
  present (pde_of s va) /\ has (pte_of s va) PAGE_ALLOCATED = false
  /\ (has pf PAGE_USER = true -> has (pde_of s va) PAGE_USER = true).

Lemma map_mappable s va pa pf : pt_wf s -> below_window va -> mappable s pf va ->
  memmanager_map_page va pa pf s
  = Ok (true, write_pte s (get_page_dir_index va) (get_page_tbl_index va) (map_value pa pf)).
Proof.
  intros Hwf Hb (Hp & Hna & Hus). destruct (below_window_index va Hb) as (Hu & _).
  rewrite map_page_present by assumption. fold (pde_of s va) (pte_of s va). rewrite Hna.
  destruct (has pf PAGE_USER) eqn:E; [|reflexivity]. rewrite Hus by reflexivity. reflexivity.
Qed.

Lemma write_pte_of s va v va' : pt_wf s -> below_window va -> below_window va' ->
  present (pde_of s va) ->
  pde_of (write_pte s (get_page_dir_index va) (get_page_tbl_index va) v) va' = pde_of s va'
  /\ (present (pde_of s va') ->
      pte_of (write_pte s (get_page_dir_index va) (get_page_tbl_index va) v) va'
      = if decide (va' / 4096 = va / 4096) then v else pte_of s va').
Proof.
  intros Hwf Hb Hb' Hp. destruct (below_window_index va Hb) as (Hu & Hd & Ht).
  destruct (below_window_index va' Hb') as (Hu' & Hd' & Ht').
  split; [apply write_pte_pde; (assumption || lia)|]. intros Hp'. unfold pte_of.
  rewrite write_pte_pte by (assumption || lia).
  pose proof (same_page_iff va va' Hu Hu') as Hiff.
  repeat case_decide; tauto.
Qed.

Lemma get_page_flags_eq s va : pt_wf s -> below_window va -> present (pde_of s va) ->
  memmanager_get_page_flags va s = Ok (Z.land (pte_of s va) PAGE_FLAGS_MASK, s).
Proof.
  intros Hwf Hb Hp. destruct (below_window_index va Hb) as (Hu & _).
  unfold memmanager_get_page_flags. rewrite (st_bind_Ok _ _ _ _ _ (get_pt_entry_eq s va Hwf Hu)).
  fold (pde_of s va). unfold present in Hp. rewrite Hp. reflexivity.
Qed.

Definition on_access_flags (pf : Z) : Prop :=
  0 <= pf < 4096 /\ has pf PAGE_RESERVED = true /\ has pf PAGE_MAP_ON_ACCESS = true
  /\ has pf PAGE_PRESENT = false.

Lemma alloc_on_access_spec pf : on_access_flags pf -> forall n s va,
  pt_wf s -> va mod 4096 = 0 -> 0 <= va -> va + Z.of_nat n * 4096 <= 1023 * 2 ^ 22 ->
  (forall k, 0 <= k < Z.of_nat n -> mappable s pf (va + k * 4096)) ->
  exists s', alloc_on_access n va pf s = Ok (tt, s') /\ pt_wf s' /\ memory_map s' = memory_map s
    /\ forall va', below_window va' -> pde_of s' va' = pde_of s va'
       /\ (present (pde_of s va') ->
           pte_of s' va' = if decide (va / 4096 <= va' / 4096 < va / 4096 + Z.of_nat n)
                           then pf else pte_of s va').
Proof.
  intros (Hpf & Hpr & Hpo & Hpp) n. induction n as [|n IH]; intros s va Hwf Hal H0 Hend Hmap.
  - exists s. split; [reflexivity|]. split; [exact Hwf|]. split; [reflexivity|].
    intros va' _. split; [reflexivity|]. intros _. rewrite decide_False by lia. reflexivity.
  - assert (Hb : below_window va) by (unfold below_window; lia).
    pose proof (Hmap 0 ltac:(lia)) as Hm0. rewrite Z.add_0_r in Hm0.
    destruct (below_window_index va Hb) as (Hu & Hd & Ht).
    assert (Hv : map_value 0 pf = pf) by reflexivity.
    set (s1 := write_pte s (get_page_dir_index va) (get_page_tbl_index va) pf).
    assert (Hw1 : pt_wf s1).
    { apply write_pte_wf; try (assumption || lia); [apply Hm0|unfold is_u32; lia]. }
    assert (Hof : forall va', below_window va' -> pde_of s1 va' = pde_of s va'
      /\ (present (pde_of s va') ->
          pte_of s1 va' = if decide (va' / 4096 = va / 4096) then pf else pte_of s va')).
    { intros va' Hb'. apply write_pte_of; try assumption. apply Hm0. }
    assert (Hp1 : present (pde_of s1 va)) by (rewrite (proj1 (Hof va Hb)); apply Hm0).
    assert (Hfl : memmanager_get_page_flags va s1 = Ok (pf, s1)).
    { rewrite get_page_flags_eq by assumption. rewrite (proj2 (Hof va Hb)) by apply Hm0.
      rewrite decide_True by reflexivity. do 2 f_equal.
      change PAGE_FLAGS_MASK with (2 ^ 12 - 1). rewrite land_low_mask by lia.
      apply Z.mod_small. exact Hpf. }
    assert (Hnext : add32 va PAGE_SIZE = va + 4096)
      by (change PAGE_SIZE with 4096; apply add32_small; lia).
    assert (Hdiv : (va + 4096) / 4096 = va / 4096 + 1) by (Z.to_euclidean_division_equations; lia).
    destruct (IH s1 (va + 4096)) as (s' & Hrun & Hw' & Hmm & Hof'); try lia; try assumption.
    + rewrite <- Hal. Z.to_euclidean_division_equations. lia.
    + intros k Hk. replace (va + 4096 + k * 4096) with (va + (k + 1) * 4096) by lia.
      destruct (Hmap (k + 1) ltac:(lia)) as (M1 & M2 & M3).
      assert (Hbk : below_window (va + (k + 1) * 4096)) by (unfold below_window; lia).
      destruct (Hof _ Hbk) as [Epd Ept]. unfold mappable. rewrite Epd, Ept by assumption.
      rewrite decide_False; [auto|]. Z.to_euclidean_division_equations. lia.
    + exists s'. split; [|split; [exact Hw'|split; [exact Hmm|]]].
      * simpl. rewrite (st_bind_Ok _ _ _ _ _ (map_mappable s va 0 pf Hwf Hb Hm0)).
        rewrite Hv. fold s1. change (k_assert_st true) with (mret tt : st mm unit).
        rewrite (st_bind_Ok (mret tt) _ s1 tt s1 eq_refl).
        rewrite (st_bind_Ok _ _ _ _ _ Hfl). rewrite Hpr.
        rewrite (st_bind_Ok (k_assert_st true) _ s1 tt s1 eq_refl).
        rewrite (st_bind_Ok _ _ _ _ _ Hfl). rewrite Hpp.
        rewrite (st_bind_Ok (k_assert_st (negb false)) _ s1 tt s1 eq_refl).
        rewrite Hnext. exact Hrun.
      * intros va' Hb'. destruct (Hof va' Hb') as [E1 E2], (Hof' va' Hb') as [E3 E4].
        split; [congruence|]. intros Hp'. rewrite E4 by (rewrite E1; exact Hp'). rewrite E2 by exact Hp'.
        rewrite Hdiv. repeat case_decide; (reflexivity || lia).
Qed.

(** The flag word that reaches the entries. *)
Definition request_flags (flags : Z) : Z :=
  Z.land flags (Z.land PAGE_FLAGS_MASK (not32 (Z.lor PAGE_RESERVED PAGE_MAP_ON_ACCESS))).

Lemma request_flags_spec flags : is_u32 flags ->
  0 <= request_flags flags < 4096
  /\ has (request_flags flags) PAGE_PRESENT = has flags PAGE_PRESENT
  /\ has (request_flags flags) PAGE_USER = has flags PAGE_USER
  /\ has (request_flags flags) PAGE_RW = has flags PAGE_RW.
Proof.
  intros Hf. unfold request_flags. split.
  { change 4096 with (2 ^ 12). apply land_bound; [lia|unfold is_u32 in Hf; lia|].
    vm_compute. split; congruence. }
  rewrite !has_PRESENT, !has_USER, !has_RW, !Z.land_spec. simpl. rewrite !andb_true_r. auto.
Qed.

Lemma on_access_request flags : is_u32 flags -> has flags PAGE_PRESENT = false ->
  let pf := Z.lor (Z.lor (request_flags flags) PAGE_RESERVED) PAGE_MAP_ON_ACCESS in
  on_access_flags pf /\ has pf PAGE_USER = has flags PAGE_USER
  /\ has pf PAGE_RW = has flags PAGE_RW.
Proof.
  intros Hf Hp pf. destruct (request_flags_spec flags Hf) as (Hb & H1 & H2 & H3).
  rewrite <- H2, <- H3. rewrite Hp, has_PRESENT in H1. unfold on_access_flags, pf.
  rewrite !has_RESERVED, !has_ON_ACCESS, !has_PRESENT, !has_USER, !has_RW, !Z.lor_spec, H1.
  simpl. rewrite !orb_true_r, !orb_false_r.
  split; [|auto]. split; [|auto].
  apply lor_small; [apply lor_small; [exact Hb|]|]; vm_compute; split; congruence.
Qed.

(** without [PAGE_PRESENT] the request only reserves address space: it
    succeeds at the address asked for, every page in it becomes "mapped on
    access" with the caller's user and write permissions and is not yet
    translated, no physical page is consumed, and no other entry changes. *)
Theorem memmanager_virtual_alloc_on_access s va n flags :
  pt_wf s -> is_u32 flags -> has flags PAGE_PRESENT = false ->
  va mod 4096 = 0 -> 0 < va -> 0 <= n -> va + n * 4096 <= 1023 * 2 ^ 22 ->
  (forall k, 0 <= k < n -> mappable s flags (va + k * 4096)) ->
  exists s', memmanager_virtual_alloc va n flags s = Ok (va, s') /\ pt_wf s'
    /\ memory_map s' = memory_map s
    /\ (forall va', below_window va' -> va / 4096 <= va' / 4096 < va / 4096 + n ->
          mmu_walk s' va' = None
          /\ has (pte_of s' va') PAGE_MAP_ON_ACCESS = true
          /\ has (pte_of s' va') PAGE_RESERVED = true
          /\ has (pte_of s' va') PAGE_USER = has flags PAGE_USER
          /\ has (pte_of s' va') PAGE_RW = has flags PAGE_RW)
    /\ (forall va', below_window va' -> ~ (va / 4096 <= va' / 4096 < va / 4096 + n) ->
          mmu_walk s' va' = mmu_walk s va').
Proof.
  intros Hwf Hf Hnp Hal H0 Hn Hend Hmap.
  destruct (on_access_request flags Hf Hnp) as (Hpf & Hus & Hrw).
  set (pf := Z.lor (Z.lor (request_flags flags) PAGE_RESERVED) PAGE_MAP_ON_ACCESS) in *.
  destruct (alloc_on_access_spec pf Hpf (Z.to_nat n) s va) as (s' & Hrun & Hw' & Hmm & Hof);
    try assumption; try lia.
  { intros k Hk. destruct (Hmap k ltac:(lia)) as (M1 & M2 & M3). unfold mappable. rewrite Hus. auto. }
  rewrite Z2Nat.id in Hof by lia.
  exists s'. split; [|split; [exact Hw'|split; [exact Hmm|split]]].
  - unfold memmanager_virtual_alloc. cbv zeta. fold (request_flags flags). fold pf.
    destruct (Z.eqb_spec va 0); [lia|].
    replace (has va PAGE_FLAGS_MASK) with false.
    2: { unfold has. change PAGE_FLAGS_MASK with (2 ^ 12 - 1). rewrite land_low_mask by lia.
         change (2 ^ 12) with 4096. rewrite Hal. reflexivity. }
    destruct (request_flags_spec flags Hf) as (_ & -> & _). rewrite Hnp.
    rewrite (st_bind_Ok _ _ _ _ _ Hrun). reflexivity.
  - intros va' Hb' Hr. destruct (below_window_index va' Hb') as (Hu' & _).
    destruct (Hof va' Hb') as [E1 E2].
    assert (Hp' : present (pde_of s va')).
    { set (k := va' / 4096 - va / 4096).
      destruct (Hmap k ltac:(lia)) as (M1 & _).
      assert (Hbk : below_window (va + k * 4096)).
      { unfold below_window, k in *. Z.to_euclidean_division_equations. lia. }
      destruct (below_window_index _ Hbk) as (Huk & _).
      replace (pde_of s va') with (pde_of s (va + k * 4096)); [exact M1|].
      unfold pde_of. f_equal. apply (same_page_iff va'); try assumption.
      unfold k. Z.to_euclidean_division_equations. lia. }
    specialize (E2 Hp'). rewrite decide_True in E2 by exact Hr.
    destruct Hpf as (_ & R1 & R2 & R3). rewrite walk_page by exact Hu'.
    fold (pde_of s' va') (pte_of s' va'). cbv zeta. rewrite E1, E2.
    unfold present in Hp'. rewrite Hp', R3, R1, R2, Hus, Hrw. auto.
  - intros va' Hb' Hr. destruct (below_window_index va' Hb') as (Hu' & _).
    destruct (Hof va' Hb') as [E1 E2]. rewrite !walk_page by exact Hu'.
    fold (pde_of s' va') (pte_of s' va') (pde_of s va') (pte_of s va'). rewrite E1.
    destruct (has (pde_of s va') PAGE_PRESENT) eqn:E; [|reflexivity]. cbv zeta.
    rewrite (E2 E). rewrite decide_False by exact Hr. reflexivity.
Qed.

Lemma memmanager_virtual_alloc_on_access_witness :
  exists s', memmanager_virtual_alloc 0x8000 3 6 wit_mm = Ok (0x8000, s') /\ pt_wf s'
    /\ memory_map s' = memory_map wit_mm
    /\ (forall va', below_window va' -> 0x8000 / 4096 <= va' / 4096 < 0x8000 / 4096 + 3 ->
          mmu_walk s' va' = None
          /\ has (pte_of s' va') PAGE_MAP_ON_ACCESS = true
          /\ has (pte_of s' va') PAGE_RESERVED = true
          /\ has (pte_of s' va') PAGE_USER = has 6 PAGE_USER
          /\ has (pte_of s' va') PAGE_RW = has 6 PAGE_RW)
    /\ (forall va', below_window va' -> ~ (0x8000 / 4096 <= va' / 4096 < 0x8000 / 4096 + 3) ->
          mmu_walk s' va' = mmu_walk wit_mm va').
Proof.
  apply (memmanager_virtual_alloc_on_access wit_mm 0x8000 3 6);
    [exact wit_mm_wf | unfold is_u32; lia | reflexivity | reflexivity | lia | lia | lia |].
  intros k Hk. assert (Hk' : k = 0 \/ k = 1 \/ k = 2) by lia.
  destruct Hk' as [->|[->| ->]]; (split; [reflexivity|split; [reflexivity|reflexivity]]).
Defined.

(** C7: with [PAGE_PRESENT] the loop maps the same page in every iteration, so a
    request for two pages or more stops in the assertion that the mapping
    succeeded, although every page of the request could be mapped. *)
Theorem memmanager_virtual_alloc_present_asserts s s1 r va n flags :
  pt_wf s -> is_u32 flags -> has flags PAGE_PRESENT = true ->
  va mod 4096 = 0 -> 0 < va -> below_window va -> 2 <= n ->
  mappable s flags va ->
  block_list.size (memory_map s) < MAX_NUM_MEMORY_BLOCKS ->
  page_available s s1 r -> block_list.size (memory_map s1) < MAX_NUM_MEMORY_BLOCKS ->
  memmanager_virtual_alloc va n flags s = Fault AssertFailed.
Proof.
  intros Hwf Hf Hpr Hal H0 Hb Hn (M1 & M2 & M3) Hcap Hav Hcap1.
  destruct (below_window_index va Hb) as (Hu & Hd & Ht).
  destruct (request_flags_spec flags Hf) as (Hpb & P1 & P2 & _). rewrite Hpr in P1.
  destruct (allocated_page _ _ _ Hwf Hcap Hav) as (Es1 & Hr & Hra & Hm' & _ & _).
  destruct (allocated_space s s1 r Hwf Hcap Hav) as (Hw1 & Hpd & _ & _).
  set (pf := Z.lor (request_flags flags) PAGE_PRESENT).
  assert (Hpf : 0 <= pf < 4096) by (apply lor_small; [exact Hpb|vm_compute; split; congruence]).
  assert (Hpfu : has pf PAGE_USER = has flags PAGE_USER).
  { rewrite <- P2. unfold pf. rewrite !has_USER, Z.lor_spec. simpl. apply orb_false_r. }
  assert (Hpfp : Z.testbit pf 0 = true)
    by (unfold pf; rewrite Z.lor_spec; simpl; apply orb_true_r).
  assert (Hm1 : mappable s1 pf va).
  { unfold mappable, pde_of, pte_of, pte. rewrite !Hpd. rewrite Es1. cbn [mem set_map].
    split; [exact M1|]. split; [exact M2|]. rewrite Hpfu. exact M3. }
  destruct (map_value_spec r pf Hr Hpf) as (Huv & _ & Hbits).
  set (s2 := write_pte s1 (get_page_dir_index va) (get_page_tbl_index va) (map_value r pf)).
  assert (Hw2 : pt_wf s2) by (apply write_pte_wf; try (assumption || lia); apply Hm1).
  destruct (write_pte_of s1 va (map_value r pf) va Hw1 Hb Hb (proj1 Hm1)) as [E1 E2].
  fold s2 in E1, E2. specialize (E2 (proj1 Hm1)). rewrite decide_True in E2 by reflexivity.
  destruct n as [|p|p]; try lia.
  assert (exists k, Z.to_nat (Z.pos p) = S (S k)) as [k Hk] by (exists (Z.to_nat (Z.pos p) - 2)%nat; lia).
  unfold memmanager_virtual_alloc. cbv zeta. fold (request_flags flags). fold pf.
  destruct (Z.eqb_spec va 0); [lia|].
  replace (has va PAGE_FLAGS_MASK) with false.
  2: { unfold has. change PAGE_FLAGS_MASK with (2 ^ 12 - 1). rewrite land_low_mask by lia.
       change (2 ^ 12) with 4096. rewrite Hal. reflexivity. }
  rewrite P1, Hk. apply st_bind_Fault. cbn [alloc_present].
  rewrite (st_bind_Ok _ _ _ _ _ (proj1 Hav)).
  rewrite (st_bind_Ok _ _ _ _ _ (map_mappable s1 va r pf Hw1 Hb Hm1)). fold s2.
  rewrite (st_bind_Ok (k_assert_st true) _ s2 tt s2 eq_refl).
  assert (Hal2 : exists r3 m3, memmanager_allocate_physical_page s2 = Ok (r3, set_map s2 m3)
                 /\ wf m3 /\ forall a, free_at m3 a -> free_at (memory_map s2) a).
  { unfold memmanager_allocate_physical_page, phys_allocate.
    change (memory_map s2) with (memory_map s1).
    destruct (physical_memory_allocate_spec (memory_map s1) PAGE_SIZE PAGE_SIZE Hm' Hcap1)
      as (m3 & r3 & Hrun & Hw3 & Hc); [reflexivity|exact is_align_page|vm_compute; congruence|].
    exists r3, m3. rewrite Hrun. split; [reflexivity|]. split; [exact Hw3|].
    destruct Hc as [(_ & _ & Hc)|(-> & _)]; [intros a Ha; apply Hc in Ha; tauto|auto]. }
  destruct Hal2 as (r3 & m3 & Hrun3 & Hwm3 & Hsub). rewrite (st_bind_Ok _ _ _ _ _ Hrun3).
  assert (Hw3 : pt_wf (set_map s2 m3)).
  { apply set_map_wf; [exact Hw2|exact Hwm3|]. intros i a Hi Hpi Ha Hfa.
    exact (w_not_free s2 Hw2 i a Hi Hpi Ha (Hsub a Hfa)). }
  assert (Hno : memmanager_map_page va r3 pf (set_map s2 m3) = Ok (false, set_map s2 m3)).
  { rewrite map_page_present; [|exact Hw3|exact Hu|].
    - change (pte (set_map s2 m3)) with (pte s2). fold (pte_of s2 va). rewrite E2.
      rewrite (has_ALLOCATED (map_value r pf)), (Hbits 0), Hpfp by lia. rewrite !orb_true_r. reflexivity.
    - change (pde (set_map s2 m3)) with (pde s2). fold (pde_of s2 va). rewrite E1. apply Hm1. }
  rewrite (st_bind_Ok _ _ _ _ _ Hno). reflexivity.
Qed.

Lemma memmanager_virtual_alloc_present_asserts_witness :
  memmanager_virtual_alloc 0x8000 2 7 wit_mm = Fault AssertFailed.
Proof.
  apply (memmanager_virtual_alloc_present_asserts wit_mm
           (set_map wit_mm [mk_block 0x11000 0xF000]) 0x10000 0x8000 2 7);
    [exact wit_mm_wf | unfold is_u32; lia | reflexivity | reflexivity | lia
    | unfold below_window; lia | lia
    | split; [reflexivity|split; reflexivity] | reflexivity | split; [reflexivity|lia] | reflexivity].
Defined.
