(* ===== verification/Ctype.v ===== *)
(** * Character classes and [atoi] (clib/ctype.c, ctype.h, stdlib.cpp)

    A C string is the list of its bytes before the terminator; the empty list is
    the position of the terminating zero, so a test on the current character
    sees 0 there. *)
From S2P Require Import Prelude.

Definition CT_UP : Z := 0x01.
Definition CT_LOW : Z := 0x02.
Definition CT_DIG : Z := 0x04.
Definition CT_CTL : Z := 0x08.
Definition CT_PUN : Z := 0x10.
Definition CT_WHT : Z := 0x20.
Definition CT_HEX : Z := 0x40.
Definition CT_SP : Z := 0x80.

Definition ctype_table : list Z :=
  [0x8; 0x8; 0x8; 0x8; 0x8; 0x8; 0x8; 0x8; 0x8; 0x28; 0x28; 0x28; 0x28; 0x28; 0x8;
   0x8; 0x8; 0x8; 0x8; 0x8; 0x8; 0x8; 0x8; 0x8; 0x8; 0x8; 0x8; 0x8; 0x8; 0x8; 0x8;
   0x8; 0x20; 0x10; 0x10; 0x10; 0x10; 0x10; 0x10; 0x10; 0x10; 0x10; 0x10; 0x10; 0x10;
   0x10; 0x10; 0x10; 0x44; 0x44; 0x44; 0x44; 0x44; 0x44; 0x44; 0x44; 0x44; 0x44;
   0x10; 0x10; 0x10; 0x10; 0x10; 0x10; 0x10; 0x41; 0x41; 0x41; 0x41; 0x41; 0x41; 0x1;
   0x1; 0x1; 0x1; 0x1; 0x1; 0x1; 0x1; 0x1; 0x1; 0x1; 0x1; 0x1; 0x1; 0x1; 0x1; 0x1;
   0x1; 0x1; 0x1; 0x10; 0x10; 0x10; 0x10; 0x10; 0x10; 0x42; 0x42; 0x42; 0x42;
   0x42; 0x42; 0x2; 0x2; 0x2; 0x2; 0x2; 0x2; 0x2; 0x2; 0x2; 0x2; 0x2; 0x2; 0x2; 0x2;
   0x2; 0x2; 0x2; 0x2; 0x2; 0x2; 0x10; 0x10; 0x10; 0x10; 0x8].

(** [_ctype[(unsigned)c] & class]: a character outside the table is read out of
    bounds by the code; the classes are only asked of 7-bit characters here. *)
Definition ctype_has (c class : Z) : outcome bool :=
  e ← fetch ctype_table c; Ok (has e class).
Definition isdigit (c : Z) : outcome bool := ctype_has c CT_DIG.
Definition isspace (c : Z) : outcome bool := ctype_has c CT_WHT.
Definition isalpha (c : Z) : outcome bool := ctype_has c (Z.lor CT_UP CT_LOW).
Definition iscntrl (c : Z) : outcome bool := ctype_has c CT_CTL.
Definition isgraph (c : Z) : outcome bool := ctype_has c (Z.lor (Z.lor (Z.lor CT_PUN CT_UP) CT_LOW) CT_DIG).
Definition islower (c : Z) : outcome bool := ctype_has c CT_LOW.
Definition isprint (c : Z) : outcome bool :=
  ctype_has c (Z.lor (Z.lor (Z.lor (Z.lor CT_PUN CT_UP) CT_LOW) CT_DIG) CT_SP).
Definition ispunct (c : Z) : outcome bool := ctype_has c CT_PUN.
Definition isupper (c : Z) : outcome bool := ctype_has c CT_UP.
Definition isxdigit (c : Z) : outcome bool := ctype_has c (Z.lor CT_DIG CT_HEX).
Definition isascii (c : Z) : bool := u32 c <=? 0x7F.
Definition toascii (c : Z) : Z := Z.land (u32 c) 0x7F.
Definition tolower (c : Z) : outcome Z := b ← isupper c; Ok (if b : bool then c + 97 - 65 else c).
Definition toupper (c : Z) : outcome Z := b ← islower c; Ok (if b : bool then c + 65 - 97 else c).

(** The character at the current position. *)
Definition cur (s : list Z) : Z := match s with [] => 0 | c :: _ => c end.

Fixpoint skip_space (str : list Z) : outcome (list Z) :=
  b ← isspace (cur str);
  if b : bool then match str with [] => Fault OutOfBounds | _ :: str => skip_space str end
  else Ok str.

(** The digits loop: [n = n * 10 + *str - '0'] in [int] (wrapping as the target does). *)
Fixpoint atoi_digits (n : Z) (str : list Z) : outcome Z :=
  b ← isdigit (cur str);
  if b : bool then
    match str with
    | [] => Fault OutOfBounds
    | c :: str => atoi_digits (s32 (s32 (s32 (n * 10) + c) - 48)) str
    end
  else Ok n.

Definition atoi (str : list Z) : outcome Z :=
  str ← skip_space str;
  let '(sign, str) :=
    match str with
    | 45 :: str => (-1, str)
    | 43 :: str => (1, str)
    | _ => (1, str)
    end in
  n ← atoi_digits 0 str;
  Ok (s32 (n * sign)).

(** ** Facts about the table *)
Lemma isdigit_spec c : 0 <= c < 128 -> isdigit c = Ok ((48 <=? c) && (c <=? 57)).
Proof.
  intros Hc.
  assert (H : forallb (fun n => bool_decide (isdigit (Z.of_nat n)
     = Ok ((48 <=? Z.of_nat n) && (Z.of_nat n <=? 57)))) (seq 0 128) = true) by reflexivity.
  rewrite forallb_forall in H. specialize (H (Z.to_nat c)).
  rewrite bool_decide_eq_true in H. rewrite Z2Nat.id in H by lia. apply H.
  apply in_seq. lia.
Qed.

Lemma isspace_spec c : 0 <= c < 128 ->
  isspace c = Ok ((9 <=? c) && (c <=? 13) || (c =? 32)).
Proof.
  intros Hc.
  assert (H : forallb (fun n => bool_decide (isspace (Z.of_nat n)
     = Ok ((9 <=? Z.of_nat n) && (Z.of_nat n <=? 13) || (Z.of_nat n =? 32)))) (seq 0 128) = true)
    by reflexivity.
  rewrite forallb_forall in H. specialize (H (Z.to_nat c)).
  rewrite bool_decide_eq_true in H. rewrite Z2Nat.id in H by lia. apply H.
  apply in_seq. lia.
Qed.

Definition ascii_upper (c : Z) : Z := if (97 <=? c) && (c <=? 122) then c - 32 else c.
Lemma toupper_spec c : 0 <= c < 128 -> toupper c = Ok (ascii_upper c).
Proof.
  intros Hc.
  assert (H : forallb (fun n => bool_decide (toupper (Z.of_nat n) = Ok (ascii_upper (Z.of_nat n)))) (seq 0 128) = true)
    by reflexivity.
  rewrite forallb_forall in H. specialize (H (Z.to_nat c)). rewrite bool_decide_eq_true in H.
  rewrite Z2Nat.id in H by lia. apply H. apply in_seq. lia.
Qed.

Example atoi_ex : atoi [32; 45; 52; 50; 120] = Ok (-42).
Proof. reflexivity. Qed.
