(* ===== verification/Stdio.v ===== *)
(** * Formatted output (clib/stdio.cpp)

    [vsnprintf] is a state machine over the format string.  [buffer] is modelled
    as an object of exactly [n] bytes (what [snprintf] is told it is); [out] is
    what has been written to it so far, [count] the characters produced.  The
    arguments are a list of 32-bit words and strings, consumed left to right. *)
From S2P Require Import Prelude Ctype.

Definition PR_LJ : Z := 0x01.
Definition PR_CA : Z := 0x02.
Definition PR_SG : Z := 0x04.
Definition PR_32 : Z := 0x08.
Definition PR_16 : Z := 0x10.
Definition PR_WS : Z := 0x20.
Definition PR_LZ : Z := 0x40.
Definition PR_FP : Z := 0x80.
Definition PR_BUFLEN : Z := 16.

(** One variadic argument: a word ([int], [unsigned], [long]) or a [char*]. *)
Inductive va_arg := va_word (z : Z) | va_string (s : list Z).

Record printf_state := mk_ps {
  ps_state : Z; ps_flags : Z; ps_given_wd : Z;
  ps_count : Z; ps_out : list Z; ps_args : list va_arg }.

Section vsnprintf.
Variable n : Z.    (* size_t n, the size of the buffer *)

Definition set_state (p : printf_state) (s : Z) : printf_state :=
  mk_ps s (ps_flags p) (ps_given_wd p) (ps_count p) (ps_out p) (ps_args p).
Definition set_flags (p : printf_state) (f : Z) : printf_state :=
  mk_ps (ps_state p) f (ps_given_wd p) (ps_count p) (ps_out p) (ps_args p).
Definition set_width (p : printf_state) (w : Z) : printf_state :=
  mk_ps (ps_state p) (ps_flags p) w (ps_count p) (ps_out p) (ps_args p).
Definition set_args (p : printf_state) (a : list va_arg) : printf_state :=
  mk_ps (ps_state p) (ps_flags p) (ps_given_wd p) (ps_count p) (ps_out p) a.
(** [state = flags = given_wd = 0] *)
Definition reset (p : printf_state) : printf_state :=
  mk_ps 0 0 0 (ps_count p) (ps_out p) (ps_args p).

(** The macro [WRITECHAR(c, n)]. *)
Definition WRITECHAR (c : Z) (p : printf_state) : printf_state :=
  mk_ps (ps_state p) (ps_flags p) (ps_given_wd p) (add32 (ps_count p) 1)
        (if ps_count p <? sub32 n 1 then ps_out p ++ [c] else ps_out p) (ps_args p).

Definition write_all (s : list Z) (p : printf_state) : printf_state :=
  fold_left (fun p c => WRITECHAR c p) s p.

(** The conversion loop: digits are stored downwards from the end of [buf];
    [room] is the number of bytes left below [where]. *)
Fixpoint convert (room : nat) (u_num radix flags : Z) (where_ : list Z) : outcome (list Z) :=
  match room with
  | O => Fault OutOfBounds
  | S room =>
    let digit := u_num mod radix in
    let c := if digit <? 10 then digit + 48
             else if has flags PR_CA then digit - 10 + 65 else digit - 10 + 97 in
    let where_ := c :: where_ in
    let u_num := u_num / radix in
    if u_num =? 0 then Ok where_ else convert room u_num radix flags where_
  end.

(** EMIT2 onwards: padding, sign, text, padding. *)
Definition emit2 (where_ : list Z) (actual_wd : Z) (p : printf_state) : printf_state :=
  let p :=
    if has (ps_flags p) PR_LJ then p
    else if actual_wd <? ps_given_wd p then
      set_width (write_all (replicate (Z.to_nat (ps_given_wd p - actual_wd))
                             (if has (ps_flags p) PR_LZ then 48 else 32)) p) actual_wd
    else p in
  let p := if Z.land (ps_flags p) (Z.lor PR_WS PR_LZ) =? PR_WS then WRITECHAR 45 p else p in
  let p := write_all where_ p in
  let w := if ps_given_wd p <? actual_wd then 0 else ps_given_wd p - actual_wd in
  set_width (write_all (replicate (Z.to_nat w) 32) p) 0.

Definition emit (where_ : list Z) (p : printf_state) : printf_state :=
  let actual_wd := Z.of_nat (length where_) in
  let actual_wd := if has (ps_flags p) PR_WS then actual_wd + 1 else actual_wd in
  let p := if Z.land (ps_flags p) (Z.lor PR_WS PR_LZ) =? Z.lor PR_WS PR_LZ
           then WRITECHAR 45 p else p in
  emit2 where_ actual_wd p.

(** DO_NUM: every branch loads a 32-bit word as [long]. *)
Definition do_num (radix : Z) (p : printf_state) : outcome printf_state :=
  match ps_args p with
  | va_word w :: args =>
    let p := set_args p args in
    let num := s32 w in
    let '(p, num) :=
      if has (ps_flags p) PR_SG && (num <? 0)
      then (set_flags p (Z.lor (ps_flags p) PR_WS), s32 (- num)) else (p, num) in
    where_ ← convert (Z.to_nat (PR_BUFLEN - 1)) (u32 num) radix (ps_flags p) [];
    Ok (emit where_ p)
  | _ => Fault OutOfBounds
  end.

(** STATE 4 and the [default] label it falls into. *)
Definition conversion (c : Z) (p : printf_state) : outcome printf_state :=
  p ← match c with
      | 88 (* X *) => do_num 16 (set_flags p (Z.lor (ps_flags p) PR_CA))
      | 120 | 112 | 110 (* x p n *) => do_num 16 p
      | 100 | 105 (* d i *) => do_num 10 (set_flags p (Z.lor (ps_flags p) PR_SG))
      | 117 (* u *) => do_num 10 p
      | 111 (* o *) => do_num 8 p
      | 99 (* c *) =>
        match ps_args p with
        | va_word w :: args =>
          let p := set_flags (set_args p args) (Z.land (ps_flags p) (not32 PR_LZ)) in
          let ch := s8 w in
          Ok (emit2 (if ch =? 0 then [] else [ch]) 1 p)
        | _ => Fault OutOfBounds
        end
      | 115 (* s *) =>
        match ps_args p with
        | va_string s :: args =>
          let p := set_flags (set_args p args) (Z.land (ps_flags p) (not32 PR_LZ)) in
          Ok (emit s p)
        | _ => Fault OutOfBounds
        end
      | _ => Ok p
      end;
  Ok (reset p).

(** STATE 3 falls through to STATE 4 with the same character. *)
Definition modifier (c : Z) (p : printf_state) : outcome printf_state :=
  let p := match c with
           | 70 (* F *) => set_flags p (Z.lor (ps_flags p) PR_FP)
           | 108 (* l *) => set_flags p (Z.lor (ps_flags p) PR_32)
           | 104 (* h *) => set_flags p (Z.lor (ps_flags p) PR_16)
           | _ => p
           end in
  conversion c (set_state p 4).

(** STATE 2. *)
Definition width (c : Z) (p : printf_state) : outcome printf_state :=
  if (48 <=? c) && (c <=? 57)
  then Ok (set_width p (add32 (mul32 10 (ps_given_wd p)) (c - 48)))
  else modifier c (set_state p 3).

(** The scan.  Where the code advances [fmt] inside an iteration, an end of
    string there is converted like any other character and the loop's own
    increment then leaves the string. *)
Fixpoint scan (fmt : list Z) (p : printf_state) : outcome printf_state :=
  match fmt with
  | [] => Ok p
  | c :: fmt =>
    if ps_state p =? 0 then
      if negb (c =? 37) then scan fmt (WRITECHAR c p)
      else match fmt with
           | [] => Fault OutOfBounds
           | c :: fmt =>
             let p := set_state p 1 in
             if c =? 37 then scan fmt (reset (WRITECHAR c p))
             else if c =? 45 then
               scan fmt (if has (ps_flags p) PR_LJ then reset p
                         else set_flags p (Z.lor (ps_flags p) PR_LJ))
             else
               let p := set_state p 2 in
               if (c =? 48) || (c =? 46) then
                 match fmt with
                 | [] => Fault OutOfBounds
                 | c :: fmt => p ← width c (set_flags p (Z.lor (ps_flags p) PR_LZ)); scan fmt p
                 end
               else p ← width c p; scan fmt p
           end
    else if ps_state p =? 1 then
      if c =? 37 then scan fmt (reset (WRITECHAR c p))
      else if c =? 45 then
        scan fmt (if has (ps_flags p) PR_LJ then reset p
                  else set_flags p (Z.lor (ps_flags p) PR_LJ))
      else
        let p := set_state p 2 in
        if (c =? 48) || (c =? 46) then
          match fmt with
          | [] => Fault OutOfBounds
          | c :: fmt => p ← width c (set_flags p (Z.lor (ps_flags p) PR_LZ)); scan fmt p
          end
        else p ← width c p; scan fmt p
    else if ps_state p =? 2 then p ← width c p; scan fmt p
    else if ps_state p =? 3 then p ← modifier c p; scan fmt p
    else if ps_state p =? 4 then p ← conversion c p; scan fmt p
    else scan fmt (reset p)
  end.

(** The characters left in the buffer before the terminator, and the result. *)
Definition vsnprintf (fmt : list Z) (args : list va_arg) : outcome (list Z * Z) :=
  p ← scan fmt (mk_ps 0 0 0 0 [] args);
  if ps_count p <? n then Ok (ps_out p, s32 (ps_count p)) else Fault OutOfBounds.

End vsnprintf.

Definition snprintf := vsnprintf.
Definition sprintf (fmt : list Z) (args : list va_arg) := vsnprintf 128 fmt args.
Definition vsprintf (fmt : list Z) (args : list va_arg) := vsnprintf 256 fmt args.

(** The stream writers format into a 128-byte buffer and hand it to [file_write]. *)
Definition vfprintf {S} (file_write : list Z -> st S unit) (fmt : list Z) (args : list va_arg)
  : st S Z :=
  '(buffer, len) ← st_lift (vsnprintf 128 fmt args);
  _ ← file_write (take (Z.to_nat len) buffer); mret len.

Definition puts {S} (file_write : list Z -> st S unit) (str : list Z) : st S Z :=
  _ ← file_write str; _ ← file_write [10]; mret 1.

Example vsnprintf_ex :
  vsnprintf 32 [91; 37; 53; 100; 93; 37; 120] [va_word (u32 (-42)); va_word 255]
  = Ok ([91; 32; 32; 45; 52; 50; 93; 102; 102], 9).
Proof. reflexivity. Qed.
