(* ===== verification/StdioProofs.v ===== *)
(** * Formatted output: the scanner implements a denotational [render] *)
From S2P Require Import Prelude Ctype Stdio.

(** ** Reference: the text of a number *)
Definition digit_char (upper : bool) (d : Z) : Z :=
  if d <? 10 then d + 48 else if upper then d - 10 + 65 else d - 10 + 97.

Fixpoint digits (fuel : nat) (upper : bool) (radix u : Z) : list Z :=
  match fuel with
  | O => []
  | S fuel =>
    if u <? radix then [digit_char upper u]
    else digits fuel upper radix (u / radix) ++ [digit_char upper (u mod radix)]
  end.

(** 32 digits are enough for a 32-bit word in any radix. *)
Definition number_text (upper : bool) (radix u : Z) : list Z := digits 32 upper radix u.

Lemma digits_S f upper radix u : digits (S f) upper radix u =
  if u <? radix then [digit_char upper u]
  else digits f upper radix (u / radix) ++ [digit_char upper (u mod radix)].
Proof. reflexivity. Qed.

(** One step of division keeps the quotient within one digit less. *)
Lemma quotient_bound radix u f : 1 < radix -> radix <= u -> u < radix ^ Z.of_nat (S f) ->
  0 < u / radix < radix ^ Z.of_nat f /\ (0 < f)%nat.
Proof.
  intros Hr Hge Hu. rewrite Nat2Z.inj_succ, Z.pow_succ_r in Hu by lia.
  assert (0 < u / radix) by (apply Z.div_str_pos; lia).
  assert (u / radix < radix ^ Z.of_nat f) by (apply Z.div_lt_upper_bound; lia).
  split; [lia|]. destruct f; [change (radix ^ Z.of_nat 0) with 1 in *; lia|lia].
Qed.

Lemma digits_fuel upper radix : 1 < radix -> forall f1 f2 u, 0 <= u ->
  u < radix ^ Z.of_nat f1 -> u < radix ^ Z.of_nat f2 -> (0 < f1)%nat -> (0 < f2)%nat ->
  digits f1 upper radix u = digits f2 upper radix u.
Proof.
  intros Hr f1. induction f1 as [|f1 IH]; intros f2 u Hu H1 H2 P1 P2; [lia|].
  destruct f2 as [|f2]; [lia|]. rewrite !digits_S.
  destruct (Z.ltb_spec u radix) as [|Hge]; [reflexivity|]. f_equal.
  destruct (quotient_bound radix u f1 Hr Hge H1), (quotient_bound radix u f2 Hr Hge H2).
  apply IH; lia.
Qed.

Lemma convert_digits flags radix : 1 < radix -> forall room u acc,
  0 <= u < radix ^ Z.of_nat room -> (0 < room)%nat ->
  convert room u radix flags acc = Ok (digits room (has flags PR_CA) radix u ++ acc).
Proof.
  intros Hr room. induction room as [|room IH]; intros u acc Hu Hp; [lia|].
  rewrite digits_S. cbn [convert].
  change (if u mod radix <? 10 then _ else _) with (digit_char (has flags PR_CA) (u mod radix)).
  destruct (Z.ltb_spec u radix) as [Hlt|Hge].
  - rewrite Z.div_small, Z.mod_small by lia. reflexivity.
  - destruct (quotient_bound radix u room Hr Hge (proj2 Hu)).
    destruct (Z.eqb_spec (u / radix) 0); [lia|].
    rewrite IH by lia. rewrite <- app_assoc. reflexivity.
Qed.

(** Fifteen characters hold any 32-bit word in the radixes the code uses. *)
Lemma convert_word flags radix u : is_u32 u -> 8 <= radix ->
  convert (Z.to_nat (PR_BUFLEN - 1)) u radix flags [] = Ok (number_text (has flags PR_CA) radix u).
Proof.
  intros Hu Hr. unfold is_u32 in Hu. change (Z.to_nat (PR_BUFLEN - 1)) with 15%nat.
  assert (Hr1 : 1 < radix) by lia.
  assert (H15 : u < radix ^ Z.of_nat 15).
  { apply Z.lt_le_trans with (1 := proj2 Hu).
    apply Z.le_trans with (8 ^ Z.of_nat 15); [vm_compute; congruence|].
    apply Z.pow_le_mono_l. split; [discriminate|exact Hr]. }
  assert (H32 : u < radix ^ Z.of_nat 32).
  { apply Z.lt_le_trans with (1 := H15). apply Z.pow_le_mono_r; [clear H15; lia|discriminate]. }
  rewrite convert_digits; [|exact Hr1|exact (conj (proj1 Hu) H15)|apply Nat.lt_0_succ].
  rewrite app_nil_r. unfold number_text. rewrite (digits_fuel _ radix Hr1 15 32); [reflexivity|..];
  [exact (proj1 Hu)|exact H15|exact H32|apply Nat.lt_0_succ..].
Qed.
#[global] Opaque digits.

(** ** Reference: directives and their text *)
Inductive conv := CDec | CUns | CHex | CHexUpper | COct.
Inductive payload := PNum (c : conv) (word : Z) | PStr (s : list Z) | PChar (word : Z).
Inductive directive :=
| DText (s : list Z)
| DPercent
| DConv (lj zero : bool) (width : list Z) (p : payload).

Definition conv_char (p : payload) : Z :=
  match p with
  | PNum CDec _ => 100 | PNum CUns _ => 117 | PNum CHex _ => 120
  | PNum CHexUpper _ => 88 | PNum COct _ => 111 | PStr _ => 115 | PChar _ => 99
  end.
Definition format_of (d : directive) : list Z :=
  match d with
  | DText s => s
  | DPercent => [37; 37]
  | DConv lj zero w p =>
    37 :: (if lj then [45] else []) ++ (if zero then [48] else []) ++ w ++ [conv_char p]
  end.
Definition args_of (d : directive) : list va_arg :=
  match d with
  | DConv _ _ _ (PNum _ w) => [va_word w]
  | DConv _ _ _ (PStr s) => [va_string s]
  | DConv _ _ _ (PChar w) => [va_word w]
  | _ => []
  end.

Definition width_value (w : list Z) : Z :=
  fold_left (fun acc c => add32 (mul32 10 acc) (c - 48)) w 0.

(** The sign and the digits. *)
Definition payload_text (p : payload) : list Z * list Z :=
  match p with
  | PNum CDec w =>
    if s32 w <? 0 then ([45], number_text false 10 (- s32 w)) else ([], number_text false 10 (s32 w))
  | PNum CUns w => ([], number_text false 10 (u32 w))
  | PNum CHex w => ([], number_text false 16 (u32 w))
  | PNum CHexUpper w => ([], number_text true 16 (u32 w))
  | PNum COct w => ([], number_text false 8 (u32 w))
  | PStr s => ([], s)
  | PChar w => ([], if s8 w =? 0 then [] else [s8 w])
  end.
(** A [%c] of the zero character still counts one column. *)
Definition columns (p : payload) : Z :=
  match p with
  | PChar _ => 1
  | _ => let '(sign, body) := payload_text p in Z.of_nat (length sign + length body)
  end.
Definition zero_pads (p : payload) : bool := match p with PNum _ _ => true | _ => false end.

Definition render1 (d : directive) : list Z :=
  match d with
  | DText s => s
  | DPercent => [37]
  | DConv lj zero w p =>
    let '(sign, body) := payload_text p in
    let zero := zero && zero_pads p in
    let fill := Z.to_nat (width_value w - columns p) in
    (if zero then sign else [])
    ++ (if lj then [] else replicate fill (if zero then 48 else 32))
    ++ (if zero then [] else sign)
    ++ body
    ++ (if lj then replicate fill 32 else [])
  end.

Definition directive_ok (d : directive) : Prop :=
  match d with
  | DText s => Forall (fun c => c <> 37) s
  | DPercent => True
  | DConv lj zero w p =>
    Forall (fun c => 48 <= c <= 57) w /\ (zero = false -> head w <> Some 48)
  end.

Definition render (ds : list directive) : list Z := concat (map render1 ds).
Definition format (ds : list directive) : list Z := concat (map format_of ds).
Definition arguments (ds : list directive) : list va_arg := concat (map args_of ds).

(** ** The output buffer holds a prefix of what was produced *)
Section with_size.
Context (n : Z) (Hn : 1 <= n < 2 ^ 31).

(** [p] has produced exactly [s]. *)
Definition produced (p : printf_state) (s : list Z) : Prop :=
  ps_out p = take (Z.to_nat (n - 1)) s /\ ps_count p = Z.of_nat (length s).

Lemma WRITECHAR_produced c p s : produced p s -> Z.of_nat (length s) + 1 < 2 ^ 32 ->
  produced (WRITECHAR n c p) (s ++ [c]).
Proof using Hn.
  intros [H1 H2] Hb. unfold WRITECHAR. split; simpl.
  - rewrite sub32_small by lia. rewrite H1, H2.
    destruct (Z.ltb_spec (Z.of_nat (length s)) (n - 1)).
    + rewrite (take_ge s), take_ge; [reflexivity| |lia]. rewrite length_app; simpl; lia.
    + rewrite take_app_le by lia. reflexivity.
  - rewrite H2, length_app. simpl. rewrite add32_small; lia.
Qed.

Lemma write_all_produced l p s : produced p s -> Z.of_nat (length (s ++ l)) < 2 ^ 32 ->
  produced (write_all n l p) (s ++ l)
  /\ ps_state (write_all n l p) = ps_state p /\ ps_flags (write_all n l p) = ps_flags p
  /\ ps_given_wd (write_all n l p) = ps_given_wd p /\ ps_args (write_all n l p) = ps_args p.
Proof using Hn.
  revert p s. induction l as [|c l IH]; intros p s Hp Hb.
  - rewrite app_nil_r. auto.
  - rewrite length_app in Hb; simpl in Hb.
    destruct (IH (WRITECHAR n c p) (s ++ [c])) as (H1 & H2 & H3 & H4 & H5).
    + apply WRITECHAR_produced; [exact Hp|lia].
    + rewrite !length_app; simpl. lia.
    + rewrite <- app_assoc in H1. auto.
Qed.

(** Conversion state: what matters of [p] while a directive is being emitted. *)
Definition emitted (p p' : printf_state) (s' : list Z) : Prop :=
  produced p' s' /\ ps_args p' = ps_args p.

Lemma emit2_spec body cols p s :
  produced p s -> 0 <= ps_given_wd p ->
  let sgn := if Z.land (ps_flags p) (Z.lor PR_WS PR_LZ) =? PR_WS then [45] else [] in
  let fill := Z.to_nat (ps_given_wd p - cols) in
  let text := (if has (ps_flags p) PR_LJ then []
               else replicate fill (if has (ps_flags p) PR_LZ then 48 else 32))
              ++ sgn ++ body
              ++ (if has (ps_flags p) PR_LJ then replicate fill 32 else []) in
  Z.of_nat (length (s ++ text)) < 2 ^ 32 ->
  emitted p (emit2 n body cols p) (s ++ text).
Proof using Hn.
  intros Hp Hg sgn fill text Hb. unfold emit2.
  set (lpad := if has (ps_flags p) PR_LJ then []
               else replicate fill (if has (ps_flags p) PR_LZ then 48 else 32)).
  set (rpad := if has (ps_flags p) PR_LJ then replicate fill 32 else []).
  set (p1 := if has (ps_flags p) PR_LJ then p else _).
  assert (H1 : produced p1 (s ++ lpad) /\ ps_flags p1 = ps_flags p /\ ps_args p1 = ps_args p
    /\ (if ps_given_wd p1 <? cols then 0 else ps_given_wd p1 - cols)
       = (if has (ps_flags p) PR_LJ then Z.of_nat fill else 0)).
  { unfold p1, lpad. destruct (has (ps_flags p) PR_LJ).
    - rewrite app_nil_r. split; [exact Hp|]. split; [reflexivity|]. split; [reflexivity|].
      unfold fill. destruct (Z.ltb_spec (ps_given_wd p) cols); lia.
    - destruct (Z.ltb_spec cols (ps_given_wd p)) as [Hw|Hw].
      + fold fill. set (c := if has (ps_flags p) PR_LZ then 48 else 32).
        destruct (write_all_produced (replicate fill c) p s Hp) as (P1 & P2 & P3 & P4 & P5).
        { unfold text, c in *. rewrite !length_app in *. lia. }
        split; [exact P1|]. simpl. split; [exact P3|]. split; [exact P5|].
        rewrite Z.ltb_irrefl. lia.
      + replace fill with 0%nat by (unfold fill; lia). rewrite app_nil_r.
        split; [exact Hp|]. split; [reflexivity|]. split; [reflexivity|].
        destruct (Z.ltb_spec (ps_given_wd p) cols); lia. }
  clearbody p1. destruct H1 as (P1 & F1 & A1 & W1). rewrite F1.
  set (p2 := if _ =? PR_WS then WRITECHAR n 45 p1 else p1).
  assert (H2 : produced p2 ((s ++ lpad) ++ sgn) /\ ps_args p2 = ps_args p
               /\ ps_given_wd p2 = ps_given_wd p1).
  { unfold p2, sgn. destruct (_ =? PR_WS) eqn:E.
    - split; [|auto]. apply WRITECHAR_produced; [exact P1|].
      unfold text, sgn in Hb. fold lpad in Hb.
      rewrite !length_app in *. simpl in Hb. lia.
    - rewrite app_nil_r. auto. }
  clearbody p2. destruct H2 as (P2 & A2 & W2).
  destruct (write_all_produced body p2 _ P2) as (P3 & _ & _ & W3 & A3).
  { unfold text in Hb. fold lpad rpad in Hb. rewrite !length_app in *. lia. }
  rewrite W3, W2, W1.
  set (w := Z.to_nat (if has (ps_flags p) PR_LJ then Z.of_nat fill else 0)).
  assert (Hrp : rpad = replicate w 32).
  { unfold rpad, w. destruct (has (ps_flags p) PR_LJ); [|reflexivity]. now rewrite Nat2Z.id. }
  destruct (write_all_produced (replicate w 32) _ _ P3) as (P4 & _ & _ & _ & A4).
  { unfold text in Hb. fold lpad rpad in Hb. rewrite Hrp in Hb. rewrite !length_app in *. lia. }
  split; [|simpl; congruence].
  unfold text. fold lpad rpad. rewrite Hrp. rewrite <- !app_assoc in P4. exact P4.
Qed.
(** The flag word of a directive before its conversion adds to it. *)
Definition directive_flags (lj zero : bool) : Z :=
  Z.lor (if lj then PR_LJ else 0) (if zero then PR_LZ else 0).

(** What [emit] tests of the flags. *)
Definition flags_are (f : Z) (lj lz ws : bool) : Prop :=
  has f PR_LJ = lj /\ has f PR_LZ = lz /\ has f PR_WS = ws
  /\ (Z.land f (Z.lor PR_WS PR_LZ) =? PR_WS) = ws && negb lz
  /\ (Z.land f (Z.lor PR_WS PR_LZ) =? Z.lor PR_WS PR_LZ) = ws && lz.

Definition field_text (lj lz : bool) (sign body : list Z) (fill : nat) : list Z :=
  (if lz then sign else [])
  ++ (if lj then [] else replicate fill (if lz then 48 else 32))
  ++ (if lz then [] else sign) ++ body ++ (if lj then replicate fill 32 else []).

Lemma emit_spec body p s lj lz ws :
  produced p s -> 0 <= ps_given_wd p -> flags_are (ps_flags p) lj lz ws ->
  let sign := if ws then [45] else [] in
  let fill := Z.to_nat (ps_given_wd p - Z.of_nat (length sign + length body)) in
  Z.of_nat (length (s ++ field_text lj lz sign body fill)) < 2 ^ 32 ->
  emitted p (emit n body p) (s ++ field_text lj lz sign body fill).
Proof using Hn.
  intros Hp Hg (F1 & F2 & F3 & F4 & F5) sign fill Hb. unfold emit. rewrite F3, F5.
  replace (if ws then Z.of_nat (length body) + 1 else Z.of_nat (length body))
    with (Z.of_nat (length sign + length body)) by (unfold sign; destruct ws; simpl; lia).
  unfold field_text in *. set (p1 := if ws && lz then WRITECHAR n 45 p else p).
  assert (H1 : produced p1 (s ++ (if lz then sign else [])) /\ ps_flags p1 = ps_flags p
    /\ ps_args p1 = ps_args p /\ ps_given_wd p1 = ps_given_wd p).
  { unfold p1, sign in *. destruct ws, lz; cbn [andb]; rewrite ?app_nil_r; try (repeat split; apply Hp || reflexivity).
    split; [|repeat split]. apply WRITECHAR_produced; [exact Hp|].
    rewrite !length_app in Hb. simpl in Hb. lia. }
  clearbody p1. destruct H1 as (P1 & G1 & A1 & W1).
  pose proof (emit2_spec body (Z.of_nat (length sign + length body)) p1 _ P1) as H2.
  rewrite W1, G1, F1, F2, F4 in H2. fold fill in H2.
  assert (Hs : (if ws && negb lz then [45] else []) = (if lz then [] else sign))
    by (unfold sign; destruct ws, lz; reflexivity).
  cbv zeta in H2. rewrite Hs, <- app_assoc in H2. destruct (H2 Hg Hb) as [H3 H4].
  split; [exact H3|congruence].
Qed.

Definition after_conversion (p' : printf_state) (s' : list Z) (rest : list va_arg) : Prop :=
  produced p' s' /\ ps_args p' = rest /\ ps_state p' = 0 /\ ps_flags p' = 0 /\ ps_given_wd p' = 0.

Lemma do_num_spec radix word rest p s lj lz (sg : bool) :
  produced p s -> 0 <= ps_given_wd p -> ps_args p = va_word word :: rest -> 8 <= radix ->
  has (ps_flags p) PR_SG = sg ->
  flags_are (ps_flags p) lj lz false ->
  (has (Z.lor (ps_flags p) PR_WS) PR_CA = has (ps_flags p) PR_CA /\
   flags_are (Z.lor (ps_flags p) PR_WS) lj lz true) ->
  let neg := sg && (s32 word <? 0) in
  let body := number_text (has (ps_flags p) PR_CA) radix
                (if neg then - s32 word else u32 word) in
  let sign := if neg then [45] else [] in
  let fill := Z.to_nat (ps_given_wd p - Z.of_nat (length sign + length body)) in
  Z.of_nat (length (s ++ field_text lj lz sign body fill)) < 2 ^ 32 ->
  exists p', do_num n radix p = Ok p'
    /\ produced p' (s ++ field_text lj lz sign body fill) /\ ps_args p' = rest.
Proof using Hn.
  intros Hp Hg Ha Hr Hsg Hf [Hca Hfw] neg body sign fill Hb. unfold do_num. rewrite Ha. cbn [ps_flags set_args].
  rewrite Hsg. fold neg. destruct neg eqn:En.
  - assert (Hneg : s32 word < 0) by (unfold neg in En; apply andb_true_iff in En as [_ En]; lia).
    pose proof (s32_range word) as Hrange.
    rewrite u32_s32, u32_small by (unfold is_u32; lia). cbn [ps_flags set_flags]. rewrite convert_word by (unfold is_u32; lia).
    rewrite Hca. fold body. simpl.
    destruct (emit_spec body (set_flags (set_args p rest) (Z.lor (ps_flags p) PR_WS)) s lj lz true
      Hp Hg Hfw Hb) as [H1 H2].
    eexists. split; [reflexivity|]. split; [exact H1|exact H2].
  - rewrite convert_word by (try apply u32_range; lia).
    rewrite u32_s32. fold body. simpl.
    destruct (emit_spec body (set_args p rest) s lj lz false Hp Hg Hf Hb) as [H1 H2].
    eexists. split; [reflexivity|]. split; [exact H1|exact H2].
Qed.

Definition payload_arg (p : payload) : va_arg :=
  match p with PNum _ w => va_word w | PStr s => va_string s | PChar w => va_word w end.

Lemma conversion_spec pl p s lj zero rest :
  produced p s -> 0 <= ps_given_wd p -> ps_args p = payload_arg pl :: rest ->
  ps_flags p = directive_flags lj zero ->
  let '(sign, body) := payload_text pl in
  let text := field_text lj (zero && zero_pads pl) sign body (Z.to_nat (ps_given_wd p - columns pl)) in
  Z.of_nat (length (s ++ text)) < 2 ^ 32 ->
  exists p', conversion n (conv_char pl) p = Ok p' /\ after_conversion p' (s ++ text) rest.
Proof using Hn.
  intros Hp Hg Ha Hf.
  assert (Hdone : forall r text, (exists p', r = Ok p' /\ produced p' text /\ ps_args p' = rest) ->
    exists p', (p' ← r; Ok (reset p')) = Ok p' /\ after_conversion p' text rest).
  { intros r text (p' & -> & H1 & H2). eexists. split; [reflexivity|]. repeat split; (apply H1 || exact H2). }
  destruct pl as [c w|str|w]; unfold payload_arg in Ha.
  - (* numbers *)
    assert (Hfl : forall x, x = PR_SG \/ x = PR_CA \/ x = 0 ->
      let f := Z.lor (ps_flags p) x in
      flags_are f lj zero false /\ has (Z.lor f PR_WS) PR_CA = has f PR_CA
      /\ flags_are (Z.lor f PR_WS) lj zero true /\ has f PR_CA = (x =? PR_CA)
      /\ has f PR_SG = (x =? PR_SG)).
    { rewrite Hf. intros x [->|[->| ->]]; destruct lj, zero; vm_compute; auto 10. }
    assert (Hnum : forall x radix, x = PR_SG \/ x = PR_CA \/ x = 0 -> 8 <= radix ->
      let neg := (x =? PR_SG) && (s32 w <? 0) in
      let body := number_text (x =? PR_CA) radix (if neg then - s32 w else u32 w) in
      let sign := if neg then [45] else [] in
      let text := field_text lj zero sign body
        (Z.to_nat (ps_given_wd p - Z.of_nat (length sign + length body))) in
      Z.of_nat (length (s ++ text)) < 2 ^ 32 ->
      exists p', do_num n radix (set_flags p (Z.lor (ps_flags p) x)) = Ok p'
        /\ produced p' (s ++ text) /\ ps_args p' = rest).
    { intros x radix Hx Hr. destruct (Hfl x Hx) as (Q1 & Q2 & Q3 & Q4 & Q5).
      pose proof (do_num_spec radix w rest (set_flags p (Z.lor (ps_flags p) x)) s lj zero _
        Hp Hg Ha Hr Q5 Q1 (conj Q2 Q3)) as H. cbn [ps_flags set_flags] in H. rewrite Q4 in H. exact H. }
    assert (H0 : set_flags p (Z.lor (ps_flags p) 0) = p) by (rewrite Z.lor_0_r; destruct p; reflexivity).
    assert (Hu := Hnum 0 10 ltac:(auto) ltac:(lia)). rewrite H0 in Hu.
    assert (Hx := Hnum 0 16 ltac:(auto) ltac:(lia)). rewrite H0 in Hx.
    assert (Ho := Hnum 0 8 ltac:(auto) ltac:(lia)). rewrite H0 in Ho.
    assert (HX := Hnum PR_CA 16 ltac:(auto) ltac:(lia)).
    assert (Hd := Hnum PR_SG 10 ltac:(auto) ltac:(lia)).
    clear Hnum Hfl H0. cbn in Hu, Hx, Ho, HX, Hd.
    destruct c; cbn [payload_text columns zero_pads conv_char]; rewrite ?andb_true_r;
      [|intros Hb; apply Hdone; apply Hu; exact Hb|intros Hb; apply Hdone; apply Hx; exact Hb
       |intros Hb; apply Hdone; apply HX; exact Hb|intros Hb; apply Hdone; apply Ho; exact Hb].
    destruct (s32 w <? 0) eqn:E; intros Hb; apply Hdone.
    + apply Hd. exact Hb.
    + rewrite <- s32_u32 in Hd by lia. apply Hd. exact Hb.
  - (* %s *)
    cbn [payload_text columns zero_pads conv_char]. rewrite andb_false_r. intros Hb.
    apply Hdone. rewrite Ha. eexists. split; [reflexivity|].
    set (q := set_flags _ _).
    assert (Hq : flags_are (ps_flags q) lj false false)
      by (unfold q; cbn; rewrite Hf; destruct lj, zero; vm_compute; auto 10).
    destruct (emit_spec str q s lj false false Hp Hg Hq Hb) as [H1 H2]. split; [exact H1|exact H2].
  - (* %c *)
    cbn [payload_text columns zero_pads conv_char]. rewrite andb_false_r. intros Hb.
    apply Hdone. rewrite Ha. eexists. split; [reflexivity|].
    set (q := set_flags _ _).
    assert (Hq : flags_are (ps_flags q) lj false false)
      by (unfold q; cbn; rewrite Hf; destruct lj, zero; vm_compute; auto 10).
    destruct Hq as (F1 & F2 & _ & F4 & _).
    pose proof (emit2_spec (if s8 w =? 0 then [] else [s8 w]) 1 q s Hp Hg) as H.
    cbv zeta in H. rewrite F1, F2, F4 in H. destruct (H Hb) as [H1 H2].
    split; [exact H1|exact H2].
Qed.

(** ** The scan of one directive *)
Definition is_digit (c : Z) : Prop := 48 <= c <= 57.

Lemma conv_char_range pl : 88 <= conv_char pl <= 120.
Proof using. destruct pl as [[]| |]; simpl; lia. Qed.

(** The conversion characters are not modifiers: STATE 3 only moves on. *)
Lemma width_conv_char pl p : width n (conv_char pl) p = conversion n (conv_char pl) (set_state p 4).
Proof using. destruct pl as [[]| |]; reflexivity. Qed.

Lemma width_digit c p : is_digit c ->
  width n c p = Ok (set_width p (add32 (mul32 10 (ps_given_wd p)) (c - 48))).
Proof using.
  intros [H1 H2]. unfold width. rewrite (proj2 (Z.leb_le _ _) H1), (proj2 (Z.leb_le _ _) H2).
  reflexivity.
Qed.

Lemma scan_width pl w fmt : forall p, Forall is_digit w -> ps_state p = 2 ->
  scan n (w ++ conv_char pl :: fmt) p
  = (p' ← conversion n (conv_char pl)
            (set_state (set_width p (fold_left (fun acc c => add32 (mul32 10 acc) (c - 48)) w
                                       (ps_given_wd p))) 4);
     scan n fmt p').
Proof using.
  induction w as [|c w IH]; intros p Hw Hs.
  - simpl app. cbn [scan fold_left]. rewrite Hs. simpl Z.eqb. cbv iota.
    rewrite width_conv_char. destruct p; reflexivity.
  - inversion Hw as [|? ? Hc Hw']. subst. simpl app. cbn [scan fold_left]. rewrite Hs.
    simpl Z.eqb. cbv iota. rewrite (width_digit c p Hc). cbn [mbind outcome_bind].
    rewrite IH by (exact Hw' || exact Hs). destruct p; reflexivity.
Qed.

(** The characters a directive may put where a flag is looked for. *)
Lemma flag_position w pl (zero : bool) fmt : Forall is_digit w -> (zero = false -> head w <> Some 48) ->
  exists c l, (if zero then [48] else []) ++ w ++ conv_char pl :: fmt = c :: l
    /\ (c =? 37) = false /\ (c =? 45) = false /\ (c =? 46) = false /\ (c =? 48) = zero.
Proof using.
  intros Hw Hz. destruct zero; [eexists _, _; split; [reflexivity|auto]|].
  destruct w as [|c w].
  - eexists _, _. split; [reflexivity|]. destruct pl as [[]| |]; auto.
  - eexists _, _. split; [reflexivity|]. inversion Hw as [|? ? [H1 H2] ?]. subst.
    assert (c <> 48) by (intros ->; apply Hz; reflexivity).
    repeat split; apply Z.eqb_neq; lia.
Qed.

Definition ready (p : printf_state) (s : list Z) (args : list va_arg) : Prop :=
  produced p s /\ ps_args p = args /\ ps_state p = 0 /\ ps_flags p = 0 /\ ps_given_wd p = 0.

Lemma scan_flags lj zero w pl fmt p s args : ready p s args ->
  Forall is_digit w -> (zero = false -> head w <> Some 48) ->
  scan n (format_of (DConv lj zero w pl) ++ fmt) p
  = scan n (w ++ conv_char pl :: fmt) (set_flags (set_state p 2) (directive_flags lj zero)).
Proof using.
  intros (_ & _ & Hst & Hf & Hg) Hw Hz. destruct p as [st fl gw ct out ar]. simpl in Hst, Hf, Hg. subst.
  destruct (flag_position w pl zero fmt Hw Hz) as (c & l & E & E1 & E2 & E3 & E4).
  assert (Hne : exists d m, w ++ conv_char pl :: fmt = d :: m) by (destruct w; simpl; eauto).
  destruct Hne as (d & m & Em).
  assert (Hrest : (if zero then [48] else []) ++ w ++ conv_char pl :: fmt
                  = if zero then 48 :: d :: m else c :: l).
  { destruct zero; [rewrite Em; reflexivity|exact E]. }
  unfold format_of. rewrite <- !app_comm_cons, <- !app_assoc. cbn [app]. rewrite Hrest.
  destruct lj, zero; cbn [app scan ps_state set_state Z.eqb Pos.eqb negb orb];
    rewrite ?Em; try reflexivity.
  all: rewrite E1, E2, E3, E4; simpl in E; rewrite Em in E; injection E as -> ->; reflexivity.
Qed.

Lemma render1_field lj zero w pl :
  let '(sign, body) := payload_text pl in
  render1 (DConv lj zero w pl)
  = field_text lj (zero && zero_pads pl) sign body (Z.to_nat (width_value w - columns pl)).
Proof using. unfold render1. destruct (payload_text pl). reflexivity. Qed.

Lemma width_value_nonneg w : 0 <= width_value w.
Proof using.
  unfold width_value. enough (H : forall a, 0 <= a ->
    0 <= fold_left (fun acc c => add32 (mul32 10 acc) (c - 48)) w a) by (apply H; lia).
  induction w as [|c w IH]; intros a Ha; [exact Ha|]. apply IH. apply u32_range.
Qed.

Lemma scan_text t fmt args : forall p s, ready p s args -> Forall (fun c => c <> 37) t ->
  Z.of_nat (length (s ++ t)) < 2 ^ 32 ->
  exists p', scan n (t ++ fmt) p = scan n fmt p' /\ ready p' (s ++ t) args.
Proof using Hn.
  induction t as [|c t IH]; intros p s Hp Ht Hb.
  - rewrite app_nil_r. eauto.
  - inversion Ht as [|? ? Hc Ht']. subst. destruct Hp as (P1 & P2 & P3 & P4 & P5).
    rewrite length_app in Hb. simpl in Hb.
    destruct (IH (WRITECHAR n c p) (s ++ [c])) as (p' & E & R); [|exact Ht'| |].
    + split; [apply WRITECHAR_produced; [exact P1|lia]|auto].
    + rewrite !length_app. simpl. lia.
    + exists p'. rewrite <- app_assoc in R. split; [|exact R]. rewrite <- E.
      simpl app. cbn [scan]. rewrite P3. rewrite (proj2 (Z.eqb_neq _ _) Hc). reflexivity.
Qed.

Lemma scan_directive d fmt args p s : directive_ok d -> ready p s (args_of d ++ args) ->
  Z.of_nat (length (s ++ render1 d)) < 2 ^ 32 ->
  exists p', scan n (format_of d ++ fmt) p = scan n fmt p' /\ ready p' (s ++ render1 d) args.
Proof using Hn.
  destruct d as [t| |lj zero w pl]; intros Hok Hr Hb.
  - apply scan_text; assumption.
  - destruct Hr as (P1 & P2 & P3 & P4 & P5). exists (reset (WRITECHAR n 37 p)).
    split; [simpl app; cbn [scan]; rewrite P3; reflexivity|].
    rewrite length_app in Hb. simpl in Hb.
    destruct (WRITECHAR_produced 37 p s P1 ltac:(lia)) as [Q1 Q2].
    repeat split; (exact Q1 || exact Q2 || exact P2).
  - destruct Hok as [Hw Hz].
    rewrite (scan_flags lj zero w pl fmt p s (args_of (DConv lj zero w pl) ++ args) Hr Hw Hz).
    destruct Hr as (P1 & P2 & P3 & P4 & P5).
    rewrite scan_width; [|exact Hw|reflexivity].
    pose proof (render1_field lj zero w pl) as Hf.
    set (p1 := set_state _ 4).
    assert (Hwd : ps_given_wd p1 = width_value w) by (unfold p1; simpl; rewrite P5; reflexivity).
    assert (Hargs : ps_args p1 = payload_arg pl :: args).
    { unfold p1. simpl. rewrite P2. destruct pl; reflexivity. }
    pose proof (conversion_spec pl p1 s lj zero args P1) as H.
    rewrite Hwd in H. specialize (H (width_value_nonneg w) Hargs eq_refl).
    destruct (payload_text pl) as [sign body]. rewrite Hf in Hb |- *. cbv zeta in H.
    destruct (H Hb) as (p' & E & Q1 & Q2 & Q3). rewrite E. exists p'. split; [reflexivity|].
    split; [exact Q1|]. split; [exact Q2|exact Q3].
Qed.

Lemma scan_directives ds fmt : forall p s, Forall directive_ok ds -> ready p s (arguments ds) ->
  Z.of_nat (length (s ++ render ds)) < 2 ^ 32 ->
  exists p', scan n (format ds ++ fmt) p = scan n fmt p' /\ ready p' (s ++ render ds) [].
Proof using Hn.
  induction ds as [|d ds IH]; intros p s Hok Hr Hb.
  - exists p. rewrite app_nil_r. split; [reflexivity|exact Hr].
  - inversion Hok as [|? ? Hd Hds]. subst. unfold render in *. cbn [map concat] in *.
    rewrite app_assoc in Hb |- *.
    assert (Hb' : Z.of_nat (length (s ++ render1 d)) < 2 ^ 32) by (rewrite length_app in Hb; lia).
    destruct (scan_directive d (format ds ++ fmt) (arguments ds) p s Hd Hr Hb') as (p1 & E1 & R1).
    destruct (IH p1 _ Hds R1 Hb) as (p' & E' & R'). exists p'. split; [|exact R'].
    unfold format in *. cbn [map concat]. rewrite <- app_assoc, E1. exact E'.
Qed.

End with_size.

Lemma vsnprintf_spec n ds :
  1 <= n < 2 ^ 31 -> Forall directive_ok ds -> Z.of_nat (length (render ds)) < 2 ^ 32 ->
  vsnprintf n (format ds) (arguments ds)
  = if Z.of_nat (length (render ds)) <? n
    then Ok (render ds, Z.of_nat (length (render ds))) else Fault OutOfBounds.
Proof.
  intros Hn Hok Hb. unfold vsnprintf.
  destruct (scan_directives n Hn ds [] (mk_ps 0 0 0 0 [] (arguments ds)) [] Hok) as (p & E & R).
  - repeat split. simpl. symmetry. apply take_nil.
  - exact Hb.
  - rewrite app_nil_r in E. rewrite E. destruct R as ((R1 & R2) & _). cbn [scan mbind outcome_bind app] in *.
    rewrite R2. destruct (Z.ltb_spec (Z.of_nat (length (render ds))) n); [|reflexivity].
    rewrite R1, s32_small by lia. rewrite take_ge by lia. reflexivity.
Qed.

(** C8: for every format made of literal text, "%%" and conversions with any
    combination of the [-] and [0] flags, a width and a conversion, [vsnprintf]
    writes exactly the reference rendering and returns its length; when the
    rendering does not fit it stores its terminator past the end of the buffer. *)
Theorem vsnprintf_renders n ds :
  1 <= n < 2 ^ 31 -> Forall directive_ok ds -> Z.of_nat (length (render ds)) < 2 ^ 32 ->
  vsnprintf n (format ds) (arguments ds)
  = if Z.of_nat (length (render ds)) <? n
    then Ok (render ds, Z.of_nat (length (render ds))) else Fault OutOfBounds.
Proof. apply vsnprintf_spec. Qed.

Lemma vsnprintf_renders_witness :
  let ds := [DText [120; 61]; DConv false true [54] (PNum CDec (u32 (-42)));
             DPercent; DConv true false [52] (PStr [97; 98])] in
  vsnprintf 16 (format ds) (arguments ds)
  = Ok ([120; 61; 45; 48; 48; 48; 52; 50; 37; 97; 98; 32; 32], 13).
Proof.
  intros ds. rewrite (vsnprintf_renders 16 ds).
  - reflexivity.
  - lia.
  - repeat constructor; try lia; discriminate.
  - vm_compute. reflexivity.
Defined.

(** ** The digits denote the number *)
Definition digit_value (c : Z) : Z :=
  if c <=? 57 then c - 48 else if c <=? 90 then c - 65 + 10 else c - 97 + 10.
Definition text_value (radix : Z) (l : list Z) (acc : Z) : Z :=
  fold_left (fun a c => radix * a + digit_value c) l acc.

Lemma digit_value_char upper d : 0 <= d < 36 -> digit_value (digit_char upper d) = d.
Proof.
  intros Hd. unfold digit_value, digit_char.
  destruct (Z.ltb_spec d 10); [|destruct upper]; zcases; lia.
Qed.

Transparent digits.
Lemma digits_value upper radix : 1 < radix <= 36 -> forall f u, 0 <= u < radix ^ Z.of_nat f ->
  text_value radix (digits f upper radix u) 0 = u
  /\ Forall (fun c => exists d, 0 <= d < radix /\ c = digit_char upper d) (digits f upper radix u)
  /\ (0 < u -> head (digits f upper radix u) <> Some (digit_char upper 0)).
Proof.
  intros Hr f. induction f as [|f IH]; intros u Hu.
  - change (radix ^ Z.of_nat 0) with 1 in Hu. simpl. repeat split; [lia|constructor|discriminate].
  - rewrite digits_S. destruct (Z.ltb_spec u radix) as [Hlt|Hge].
    + unfold text_value. simpl. rewrite digit_value_char by lia.
      split; [lia|]. split; [repeat constructor; exists u; split; [lia|reflexivity]|].
      intros Hpos [= E]. apply (f_equal digit_value) in E. rewrite !digit_value_char in E by lia. lia.
    + destruct (quotient_bound radix u f ltac:(lia) Hge (proj2 Hu)) as [Hq Hf].
      destruct (IH (u / radix) ltac:(lia)) as (H1 & H2 & H3).
      pose proof (Z.mod_pos_bound u radix ltac:(lia)).
      unfold text_value in *. rewrite fold_left_app, H1. simpl. rewrite digit_value_char by lia.
      split; [pose proof (Z.div_mod u radix ltac:(lia)); lia|]. split.
      * apply Forall_app. split; [exact H2|]. repeat constructor. eexists. split; [|reflexivity]. lia.
      * intros _. specialize (H3 ltac:(lia)).
        destruct (digits f upper radix (u / radix)) eqn:E; [|exact H3].
        unfold text_value in H1. simpl in H1. lia.
Qed.
Opaque digits.

(** the text of a conversion is the shortest positional numeral of the
    argument in the requested radix: it evaluates back to the number, uses only
    digits of the radix and has no leading zero. *)
Theorem number_text_denotes (upper : bool) radix u : 8 <= radix <= 16 -> is_u32 u ->
  convert (Z.to_nat (PR_BUFLEN - 1)) u radix (if upper then PR_CA else 0) []
    = Ok (number_text upper radix u)
  /\ text_value radix (number_text upper radix u) 0 = u
  /\ Forall (fun c => exists d, 0 <= d < radix /\ c = digit_char upper d) (number_text upper radix u)
  /\ (0 < u -> head (number_text upper radix u) <> Some 48).
Proof.
  intros Hr Hu. split.
  - rewrite convert_word by (exact Hu || lia). destruct upper; reflexivity.
  - apply (digits_value upper radix); [lia|]. unfold is_u32 in Hu.
    split; [apply Hu|]. apply Z.lt_le_trans with (1 := proj2 Hu).
    apply Z.le_trans with (8 ^ Z.of_nat 32); [vm_compute; congruence|].
    apply Z.pow_le_mono_l. split; [discriminate|apply Hr].
Qed.

Lemma number_text_denotes_witness :
  text_value 16 (number_text true 16 48879) 0 = 48879 /\ number_text true 16 48879 = [66; 69; 69; 70].
Proof.
  split; [|reflexivity].
  apply (number_text_denotes true 16 48879); [lia|unfold is_u32; lia].
Defined.

Transparent digits.
Lemma digits_length upper radix f u : (length (digits f upper radix u) <= f)%nat.
Proof.
  revert u. induction f as [|f IH]; intros u; [reflexivity|].
  rewrite digits_S. destruct (_ <? _); [simpl; lia|].
  rewrite length_app. specialize (IH (u / radix)). simpl. lia.
Qed.
Opaque digits.

(** ** [atoi] reads back what [%d] printed *)
Definition decimal (l : list Z) (acc : Z) : Z := fold_left (fun a c => a * 10 + (c - 48)) l acc.

Lemma decimal_ge l : Forall is_digit l -> forall a, 0 <= a -> a <= decimal l a.
Proof.
  induction 1 as [|c l [H1 H2] _ IH]; intros a Ha; [simpl; lia|].
  change (decimal (c :: l) a) with (decimal l (a * 10 + (c - 48))).
  specialize (IH (a * 10 + (c - 48)) ltac:(lia)). lia.
Qed.

Lemma s32_sub_idemp x y : s32 (s32 x - y) = s32 (x - y).
Proof.
  unfold s32, swrap. cbv zeta.
  assert (H : (s32 x - y) mod 2 ^ 32 = (x - y) mod 2 ^ 32).
  { rewrite <- Zminus_mod_idemp_l. change (s32 x mod 2 ^ 32) with (u32 (s32 x)).
    rewrite u32_s32. apply Zminus_mod_idemp_l. }
  unfold s32, swrap in H. cbv zeta in H. rewrite H. reflexivity.
Qed.

Lemma isdigit_digit c : is_digit c -> isdigit c = Ok true.
Proof.
  intros [H1 H2]. rewrite isdigit_spec by lia.
  rewrite (proj2 (Z.leb_le _ _) H1), (proj2 (Z.leb_le _ _) H2). reflexivity.
Qed.

Lemma atoi_digits_spec l rest : Forall is_digit l -> isdigit (cur rest) = Ok false ->
  forall a, 0 <= a -> decimal l a < 2 ^ 31 -> atoi_digits a (l ++ rest) = Ok (decimal l a).
Proof.
  intros Hl Hrest. induction Hl as [|c l Hc Hl IH]; intros a Ha Hb.
  - simpl app. destruct rest; cbn [atoi_digits]; rewrite Hrest; reflexivity.
  - simpl app. cbn [atoi_digits cur]. rewrite (isdigit_digit c Hc).
    cbn [mbind outcome_bind]. cbv iota.
    change (decimal (c :: l) a) with (decimal l (a * 10 + (c - 48))) in *.
    pose proof (decimal_ge l Hl (a * 10 + (c - 48))) as Hge. destruct Hc as [H1 H2].
    rewrite (s32_small (a * 10)) by lia. rewrite s32_sub_idemp.
    replace (a * 10 + c - 48) with (a * 10 + (c - 48)) by lia.
    rewrite s32_small by lia. apply IH; [lia|exact Hb].
Qed.

Lemma skip_space_spec k rest : isspace (cur rest) = Ok false ->
  skip_space (replicate k 32 ++ rest) = Ok rest.
Proof.
  intros Hr. induction k as [|k IH].
  - simpl app. destruct rest; cbn [skip_space]; rewrite Hr; reflexivity.
  - simpl. exact IH.
Qed.

Lemma decimal_value l : Forall is_digit l -> forall a, decimal l a = text_value 10 l a.
Proof.
  induction 1 as [|c l [Hc1 Hc2] _ IH]; intros a; [reflexivity|].
  change (decimal (c :: l) a) with (decimal l (a * 10 + (c - 48))). rewrite IH.
  change (text_value 10 (c :: l) a) with (text_value 10 l (10 * a + digit_value c)).
  replace (digit_value c) with (c - 48) by (unfold digit_value; destruct (Z.leb_spec c 57); lia).
  replace (a * 10 + (c - 48)) with (10 * a + (c - 48)) by lia. reflexivity.
Qed.

Transparent digits.
Lemma number_text_decimal u : is_u32 u ->
  Forall is_digit (number_text false 10 u) /\ decimal (number_text false 10 u) 0 = u
  /\ number_text false 10 u <> [].
Proof.
  intros Hu. unfold is_u32 in Hu.
  destruct (digits_value false 10 ltac:(lia) 32 u) as (H1 & H2 & _).
  { split; [apply Hu|]. apply Z.lt_le_trans with (1 := proj2 Hu). vm_compute. congruence. }
  unfold number_text.
  assert (Hd : Forall is_digit (digits 32 false 10 u)).
  { eapply Forall_impl; [exact H2|]. intros c (d & Hd & ->). unfold is_digit, digit_char.
    destruct (Z.ltb_spec d 10); lia. }
  split; [exact Hd|]. split.
  - rewrite (decimal_value _ Hd). exact H1.
  - rewrite digits_S. destruct (_ <? _); [discriminate|].
    intros E. apply app_eq_nil in E as [_ E]. discriminate.
Qed.
Opaque digits.

Lemma decimal_zeros k l : decimal (replicate k 48 ++ l) 0 = decimal l 0.
Proof. induction k as [|k IH]; [reflexivity|exact IH]. Qed.

(** The tail of the parse: sign, zeros, digits, trailing blanks. *)
Lemma atoi_signed k (neg : bool) z u j : is_u32 u -> u < 2 ^ 31 ->
  atoi (replicate k 32 ++ (if neg then [45] else []) ++ (replicate z 48 ++ number_text false 10 u)
        ++ replicate j 32) = Ok (if neg then - u else u).
Proof.
  intros Hu Hb. destruct (number_text_decimal u Hu) as (H1 & H2 & H3).
  set (l := replicate z 48 ++ number_text false 10 u).
  assert (Hl : Forall is_digit l).
  { apply Forall_app. split; [|exact H1]. apply Forall_replicate. unfold is_digit. lia. }
  assert (Hd : decimal l 0 = u) by (unfold l; rewrite decimal_zeros; exact H2).
  assert (Hne : exists c l', l = c :: l' /\ is_digit c).
  { destruct l as [|c l'] eqn:E; [|inversion Hl; subst; eauto].
    unfold l in E. apply app_eq_nil in E as [_ E]. contradiction. }
  assert (Ht : atoi_digits 0 (l ++ replicate j 32) = Ok u).
  { rewrite <- Hd. apply atoi_digits_spec; [exact Hl|destruct j; reflexivity|lia|].
    rewrite Hd. exact Hb. }
  destruct Hne as (c & l' & El & Hc). clearbody l.
  assert (Hsp : isspace (cur ((if neg then [45] else []) ++ l ++ replicate j 32)) = Ok false).
  { destruct neg; [reflexivity|]. rewrite El. simpl. destruct Hc.
    rewrite isspace_spec by lia.
    destruct (Z.leb_spec c 13), (Z.eqb_spec c 32); (lia || (rewrite andb_false_r; reflexivity)). }
  unfold atoi. rewrite (skip_space_spec k _ Hsp). cbn [mbind outcome_bind].
  unfold is_u32 in Hu. destruct neg.
  - cbn [app]. rewrite Ht. cbn [mbind outcome_bind]. rewrite s32_small by lia. f_equal. lia.
  - cbn [app]. rewrite El in Ht |- *. cbn [app] in *. destruct Hc as [Hc1 Hc2].
    assert (E : match c :: l' ++ replicate j 32 with
      | 45 :: str => (-1, str) | 43 :: str => (1, str) | _ => (1, c :: l' ++ replicate j 32) end
      = (1, c :: l' ++ replicate j 32)).
    { clear - Hc1 Hc2. destruct c as [|c|c]; try lia.
      do 6 (destruct c as [c|c|]; try reflexivity; try lia). }
    rewrite E, Ht. cbn [mbind outcome_bind]. rewrite s32_small by lia. f_equal. lia.
Qed.

(** [atoi] of the text that a ["%d"] conversion prints, whatever its width
    and flags, is the printed number (the most negative one excepted, whose
    magnitude overflows the accumulator). *)
Theorem atoi_reads_back lj zero w v n :
  directive_ok (DConv lj zero w (PNum CDec v)) -> - 2 ^ 31 < s32 v ->
  Z.of_nat (length (render1 (DConv lj zero w (PNum CDec v)))) < n < 2 ^ 31 ->
  exists text, snprintf n (format [DConv lj zero w (PNum CDec v)]) [va_word v]
                 = Ok (text, Z.of_nat (length text))
    /\ atoi text = Ok (s32 v).
Proof.
  intros Hok Hv Hn. set (d := DConv lj zero w (PNum CDec v)) in *.
  exists (render1 d). split.
  - change [va_word v] with (arguments [d]).
    assert (Hr : render [d] = render1 d) by (unfold render; simpl; apply app_nil_r).
    unfold snprintf. rewrite vsnprintf_spec; [| lia | constructor; [exact Hok|constructor]
      | rewrite Hr; lia].
    rewrite Hr, (proj2 (Z.ltb_lt _ _) (proj1 Hn)). reflexivity.
  - pose proof (render1_field lj zero w (PNum CDec v)) as Hf.
    pose proof (s32_range v). fold d in Hf.
    set (neg := s32 v <? 0).
    assert (Hp : payload_text (PNum CDec v)
      = (if neg then [45] else [], number_text false 10 (Z.abs (s32 v)))).
    { simpl. unfold neg. destruct (Z.ltb_spec (s32 v) 0); f_equal; f_equal; lia. }
    rewrite Hp in Hf. rewrite Hf. set (k := Z.to_nat _). cbn [zero_pads].
    rewrite andb_true_r. unfold field_text.
    assert (Hsv : (if neg then - Z.abs (s32 v) else Z.abs (s32 v)) = s32 v)
      by (unfold neg; destruct (Z.ltb_spec (s32 v) 0); lia).
    assert (Hu : is_u32 (Z.abs (s32 v))) by (unfold is_u32; lia).
    rewrite <- Hsv at 2.
    pose proof (fun a b c => atoi_signed a neg b (Z.abs (s32 v)) c Hu ltac:(lia)) as Ha.
    destruct lj, zero.
    + exact (Ha 0%nat 0%nat k).
    + exact (Ha 0%nat 0%nat k).
    + specialize (Ha 0%nat k 0%nat). rewrite <- !app_assoc in Ha. exact Ha.
    + exact (Ha k 0%nat 0%nat).
Qed.

Lemma atoi_reads_back_witness :
  exists text, snprintf 32 [37; 48; 56; 100] [va_word (-1234)] = Ok (text, Z.of_nat (length text))
    /\ atoi text = Ok (-1234).
Proof.
  apply (atoi_reads_back false true [56] (-1234) 32).
  - split; [repeat constructor; lia|discriminate].
  - vm_compute. reflexivity.
  - vm_compute. split; reflexivity.
Defined.

(** ** Directives the scanner does not complete *)

(** A length modifier ends the directive it belongs to: what follows ["%l"]
    is scanned as ordinary text and the argument stays unread, so ["%ld"] prints
    ["d"] and shifts every later argument. *)
Theorem modifier_ends_directive n m c fmt args : n < 2 ^ 31 ->
  In m [70; 78; 108; 104] ->
  vsnprintf n (37 :: m :: fmt) args = vsnprintf n fmt args
  /\ (c <> 37 -> 1 < n -> vsnprintf n [37; m; c] [] = Ok ([c], 1)).
Proof.
  intros Hn31 Hm. split.
  - destruct Hm as [<-|[<-|[<-|[<-|[]]]]]; reflexivity.
  - intros Hc Hn. transitivity (vsnprintf n [c] []).
    + destruct Hm as [<-|[<-|[<-|[<-|[]]]]]; reflexivity.
    + change (vsnprintf n (format [DText [c]]) (arguments [DText [c]]) = Ok ([c], 1)). rewrite vsnprintf_spec; [..|vm_compute; reflexivity].
      * change (Z.of_nat (length (render [DText [c]]))) with 1. rewrite (proj2 (Z.ltb_lt _ _) Hn). reflexivity.
      * lia.
      * repeat constructor. exact Hc.
Qed.

Lemma modifier_ends_directive_witness :
  In 108 [70; 78; 108; 104] /\ vsnprintf 32 [37; 108; 100; 37; 117] [va_word 7]
    = vsnprintf 32 [100; 37; 117] [va_word 7]
  /\ vsnprintf 32 [100; 37; 117] [va_word 7] = Ok ([100; 55], 2).
Proof.
  split; [simpl; tauto|]. split; [|reflexivity].
  apply (modifier_ends_directive 32 108 100 [100; 37; 117] [va_word 7]); [lia|]. simpl. tauto.
Defined.

(** The flag characters repeat within one directive only for zero padding:
    a second [-] abandons the directive, and a ["%"] that ends the format makes
    the scan leave the string. *)
Theorem abandoned_directives n fmt args :
  vsnprintf n (37 :: 45 :: 45 :: fmt) args = vsnprintf n fmt args
  /\ (forall ds, 1 <= n < 2 ^ 31 -> Forall directive_ok ds ->
      Z.of_nat (length (render ds)) < 2 ^ 32 ->
      vsnprintf n (format ds ++ [37]) (arguments ds) = Fault OutOfBounds).
Proof.
  split; [reflexivity|]. intros ds Hn Hok Hb. unfold vsnprintf.
  destruct (scan_directives n Hn ds [37] (mk_ps 0 0 0 0 [] (arguments ds)) [] Hok) as (p & E & R).
  - repeat split. simpl. symmetry. apply take_nil.
  - exact Hb.
  - rewrite E. destruct R as (_ & _ & R3 & _). cbn [scan]. rewrite R3. reflexivity.
Qed.

Lemma abandoned_directives_witness :
  vsnprintf 32 (format [DText [111; 107]] ++ [37]) (arguments [DText [111; 107]]) = Fault OutOfBounds.
Proof.
  apply (abandoned_directives 32 [] []).
  - lia.
  - repeat constructor; lia.
  - vm_compute. reflexivity.
Defined.
