(* ===== verification/Time.v ===== *)
(** * Calendar time (clib/time.cpp, kernel/sysclock.cpp)

    [time_t] is a signed 64-bit word and the fields of [struct tm] are [int]s;
    C division truncates towards zero ([Z.quot], [Z.rem]).  Every [int]
    subexpression is wrapped to 32 bits, as the target computes it. *)
From S2P Require Import Prelude Ctype Stdio.

Definition s64 (z : Z) : Z := swrap 64 z.

Record tm := mk_tm {
  tm_sec : Z; tm_min : Z; tm_hour : Z; tm_mday : Z; tm_mon : Z; tm_year : Z;
  tm_wday : Z; tm_yday : Z; tm_isdst : Z }.

Definition is_leap_year (a : Z) : bool :=
  (Z.rem a 4 =? 0) && (negb (Z.rem a 100 =? 0) || (Z.rem a 400 =? 0)).

Definition beginning_of_time : Z := 1970.
Definition moment_of_creation : Z := 0.
Definition gregorian_cycle_len : Z := 146097.
Definition years_per_cycle : Z := 400.
Definition leap_days_before_epoch : Z := 477.
Definition days_per_year : Z := 365.
Definition days_before_epoch : Z := days_per_year * beginning_of_time + leap_days_before_epoch.
Definition days_per_4_years : Z := days_per_year * 4 + 1.
Definition days_per_100_years : Z := days_per_year * 25 - 1.
Definition seconds_per_day : Z := 86400.
Definition seconds_per_hour : Z := 3600.
Definition seconds_per_minute : Z := 60.

(** The rows of the tables are indexed by [is_leap_year]. *)
Definition days_per_month (leap : bool) : list Z :=
  if leap then [31; 29; 31; 30; 31; 30; 31; 31; 30; 31; 30; 31]
  else [31; 28; 31; 30; 31; 30; 31; 31; 30; 31; 30; 31].
Definition ordinal_date (leap : bool) : list Z :=
  if leap then [0; 31; 60; 91; 121; 152; 182; 213; 244; 274; 305; 335]
  else [0; 31; 59; 90; 120; 151; 181; 212; 243; 273; 304; 334].

Definition mktime (timeptr : tm) : outcome Z :=
  let actual_year := s32 (tm_year timeptr + 1900) in
  let time := moment_of_creation in
  let time := s64 (time + tm_sec timeptr) in
  let time := s64 (time + s32 (tm_min timeptr * seconds_per_minute)) in
  let time := s64 (time + s32 (tm_hour timeptr * seconds_per_hour)) in
  let time := s64 (time + s32 (s32 (tm_mday timeptr - 1) * seconds_per_day)) in
  ord ← fetch (ordinal_date (is_leap_year actual_year)) (tm_mon timeptr);
  let time := s64 (time + s32 (ord * 86400)) in
  let last_year := s32 (actual_year - 1) in
  Ok (s64 (time +
    s32 (s32 (s32 (s32 (actual_year - beginning_of_time) * 365)
              + s32 (s32 (s32 (Z.quot last_year 4 - Z.quot last_year 100)
                          + Z.quot last_year 400) - leap_days_before_epoch)) * 86400))).

(** [while(day_of_year >= (dpm = days_per_month[leap][month]))] *)
Fixpoint month_loop (fuel : nat) (leap : bool) (day_of_year month : Z) : outcome (Z * Z) :=
  match fuel with
  | O => Fault OutOfFuel
  | S fuel =>
    dpm ← fetch (days_per_month leap) month;
    if dpm <=? day_of_year then month_loop fuel leap (s32 (day_of_year - dpm)) (s32 (month + 1))
    else Ok (day_of_year, month)
  end.

Definition gmtime (timer : Z) : outcome tm :=
  let seconds := timer in
  let sec := s32 (Z.rem seconds 60) in
  let minutes := Z.quot seconds 60 in
  let min := s32 (Z.rem minutes 60) in
  let '(sec, min) := if sec <? 0 then (s32 (sec + 60), s32 (min - 1)) else (sec, min) in
  let hours := Z.quot minutes 60 in
  let hour := s32 (Z.rem hours 24) in
  let '(min, hour) := if min <? 0 then (s32 (min + 60), s32 (hour - 1)) else (min, hour) in
  let days := Z.quot hours 24 in
  let wday := s32 (Z.rem (days + 4) 7) in
  let '(hour, days) := if hour <? 0 then (s32 (hour + 24), days - 1) else (hour, days) in
  let wday := if wday <? 0 then wday + 7 else wday in
  let days_since_1bc := days_before_epoch + days in
  let year_of_last_cycle :=
    s32 (years_per_cycle * s32 (Z.quot days_since_1bc gregorian_cycle_len)) in
  let days_since_cycle := s32 (Z.rem days_since_1bc gregorian_cycle_len) in
  let last_centennial :=
    s32 (year_of_last_cycle + 100 * Z.quot days_since_cycle days_per_100_years) in
  let days_since_centennial := Z.rem days_since_cycle days_per_100_years in
  let last_leap_year :=
    s32 (last_centennial + 4 * Z.quot days_since_centennial days_per_4_years) in
  let days_since_leap := Z.rem days_since_centennial days_per_4_years in
  let current_year := s32 (last_leap_year + Z.quot days_since_leap days_per_year) in
  let day_of_year := Z.rem days_since_leap days_per_year in
  '(mday, month) ← month_loop 13 (is_leap_year current_year) day_of_year 0;
  Ok (mk_tm sec min hour (s32 (mday + 1)) month (s32 (current_year - 1900)) wday day_of_year 0).

(** [get_utc_offset()] is the kernel's [utc_offset], in seconds. *)
Definition localtime (utc_offset timer : Z) : outcome tm := gmtime (s64 (timer + utc_offset)).

Definition wdays : list (list Z) :=
  [[83; 117; 110]; [77; 111; 110]; [84; 117; 101]; [87; 101; 100]; [84; 104; 117];
   [70; 114; 105]; [83; 97; 116]].
Definition months : list (list Z) :=
  [[74; 97; 110]; [70; 101; 98]; [77; 97; 114]; [65; 112; 114]; [77; 97; 121]; [74; 117; 110];
   [74; 117; 108]; [65; 117; 103]; [83; 101; 112]; [79; 99; 116]; [78; 111; 118]; [68; 101; 99]].

(** ["%s %s %02d %02d:%02d:%02d %04d\n"] *)
Definition asctime_format : list Z :=
  [37; 115; 32; 37; 115; 32; 37; 48; 50; 100; 32; 37; 48; 50; 100; 58; 37; 48; 50; 100; 58;
   37; 48; 50; 100; 32; 37; 48; 52; 100; 10].

Definition asctime (t : tm) : outcome (list Z) :=
  wd ← fetch wdays (tm_wday t);
  mo ← fetch months (tm_mon t);
  '(result, _) ← snprintf 128 asctime_format
     [va_string wd; va_string mo; va_word (tm_mday t); va_word (tm_hour t); va_word (tm_min t);
      va_word (tm_sec t); va_word (s32 (tm_year t + 1900))];
  Ok result.

Definition ctime (utc_offset timer : Z) : outcome (list Z) :=
  t ← localtime utc_offset timer; asctime t.

(** ** The kernel's clock *)
Record sysclock := mk_sysclock { sysclock_begin_time : Z; utc_offset : Z }.

Definition sysclock_get_master_time (pit_ticks pit_rate : Z) (c : sysclock) : Z :=
  s64 (sysclock_begin_time c + Z.quot pit_ticks pit_rate).
Definition sysclock_set_utc_offset (offset : Z) (c : sysclock) : sysclock :=
  mk_sysclock (sysclock_begin_time c) offset.
(** [sysclock_init]: the RTC reading [now], taken [sample] ticks after boot. *)
Definition sysclock_init (now : tm) (sample tick_rate : Z) (c : sysclock) : outcome sysclock :=
  rtc_time ← mktime now;
  Ok (mk_sysclock (s64 (rtc_time - Z.quot sample tick_rate)) (utc_offset c)).
