(* ===== verification/TimeProofs.v ===== *)
(** * Calendar time: agreement with a day-by-day calendar *)
From S2P Require Import Prelude Ctype Stdio StdioProofs Time.

Lemma s64_small z : - 2 ^ 63 <= z < 2 ^ 63 -> s64 z = z.
Proof. apply (swrap_small 64). lia. Qed.

(** Remove the innermost conversions first. *)
Ltac s32_smalls := repeat match goal with |- context [s32 ?x] =>
  lazymatch x with context [s32 _] => fail | _ => rewrite (s32_small x) by lia end end.
Ltac s64_smalls := repeat match goal with |- context [s64 ?x] =>
  lazymatch x with context [s64 _] => fail | _ => rewrite (s64_small x) by lia end end.

(** ** Reference calendar: years are counted one at a time *)
Definition days_in_year (y : Z) : Z := if is_leap_year y then 366 else 365.
Fixpoint days_before_year (y : nat) : Z :=
  match y with O => 0 | S y => days_before_year y + days_in_year (Z.of_nat y) end.
Definition days_before_month (leap : bool) (m : Z) : Z :=
  fold_right Z.add 0 (take (Z.to_nat m) (days_per_month leap)).
(** Days from 1 January 1970 to the given date. *)
Definition calendar_days (year month mday : Z) : Z :=
  days_before_year (Z.to_nat year) - days_before_year 1970
  + days_before_month (is_leap_year year) month + (mday - 1).

Lemma div_step d k : 0 < d -> 0 < k -> k / d - (k - 1) / d = if k mod d =? 0 then 1 else 0.
Proof.
  intros Hd Hk. pose proof (Z.div_mod k d ltac:(lia)). pose proof (Z.mod_pos_bound k d Hd).
  destruct (Z.eqb_spec (k mod d) 0) as [E|E].
  - replace ((k - 1) / d) with (k / d - 1); [lia|].
    apply (Z.div_unique_pos _ _ _ (d - 1)); lia.
  - replace ((k - 1) / d) with (k / d); [lia|].
    apply (Z.div_unique_pos _ _ _ (k mod d - 1)); lia.
Qed.

Lemma rem_mod a b : 0 <= a -> 0 < b -> Z.rem a b = a mod b.
Proof. intros. apply Z.rem_mod_nonneg; lia. Qed.

Definition leaps_before (y : Z) : Z := (y - 1) / 4 - (y - 1) / 100 + (y - 1) / 400.

Lemma leap_step y : 0 < y -> leaps_before (y + 1) - leaps_before y = days_in_year y - 365.
Proof.
  intros Hy. unfold leaps_before. replace (y + 1 - 1) with y by lia.
  pose proof (div_step 4 y ltac:(lia) Hy) as H4.
  pose proof (div_step 100 y ltac:(lia) Hy) as H100.
  pose proof (div_step 400 y ltac:(lia) Hy) as H400.
  unfold days_in_year, is_leap_year. rewrite !rem_mod by lia.
  assert (A : y mod 100 = 0 -> y mod 4 = 0).
  { intros E. rewrite (Z.div_mod y 100), E by lia. rewrite Z.add_0_r, Z.mul_comm.
    replace 100 with (25 * 4) by lia. rewrite Z.mul_assoc. apply Z.mod_mul. lia. }
  assert (B : y mod 400 = 0 -> y mod 100 = 0).
  { intros E. rewrite (Z.div_mod y 400), E by lia. rewrite Z.add_0_r, Z.mul_comm.
    replace 400 with (4 * 100) by lia. rewrite Z.mul_assoc. apply Z.mod_mul. lia. }
  destruct (Z.eqb_spec (y mod 4) 0), (Z.eqb_spec (y mod 100) 0), (Z.eqb_spec (y mod 400) 0);
    simpl; lia.
Qed.

Lemma days_before_year_closed y : 
  days_before_year (S y) = 365 * Z.of_nat (S y) + 1 + leaps_before (Z.of_nat (S y)).
Proof.
  induction y as [|y IH]; [reflexivity|].
  change (days_before_year (S (S y))) with (days_before_year (S y) + days_in_year (Z.of_nat (S y))).
  rewrite IH. pose proof (leap_step (Z.of_nat (S y)) ltac:(lia)).
  replace (Z.of_nat (S (S y))) with (Z.of_nat (S y) + 1) by lia. lia.
Qed.

Lemma ordinal_date_sum leap m : 0 <= m < 12 ->
  fetch (ordinal_date leap) m = Ok (days_before_month leap m)
  /\ 0 <= days_before_month leap m <= 335.
Proof.
  intros Hm. assert (H : m = 0 \/ m = 1 \/ m = 2 \/ m = 3 \/ m = 4 \/ m = 5 \/ m = 6 \/ m = 7
    \/ m = 8 \/ m = 9 \/ m = 10 \/ m = 11) by lia.
  destruct leap; repeat destruct H as [->|H]; try subst; vm_compute; (split; [reflexivity|split; congruence]).
Qed.

(** The fields are in range for the 32-bit intermediate results. *)
Definition tm_ok (t : tm) : Prop :=
  1902 <= tm_year t + 1900 <= 2038 /\ 0 <= tm_mon t < 12 /\ 1 <= tm_mday t <= 31
  /\ 0 <= tm_hour t < 24 /\ 0 <= tm_min t < 60 /\ 0 <= tm_sec t <= 60.

(** C9: from 1902 to 2038 [mktime] is the number of seconds from 1 January 1970 to
    the given date and time in the proleptic Gregorian calendar, counted year by
    year and month by month; no intermediate product overflows. *)
Theorem mktime_correct t : tm_ok t ->
  mktime t = Ok (86400 * calendar_days (tm_year t + 1900) (tm_mon t) (tm_mday t)
                 + 3600 * tm_hour t + 60 * tm_min t + tm_sec t).
Proof.
  intros (Hy & Hm & Hd & Hh & Hmi & Hs). unfold mktime, calendar_days.
  set (y := tm_year t + 1900) in *. rewrite (s32_small y) by lia.
  destruct (ordinal_date_sum (is_leap_year y) (tm_mon t) Hm) as [Ho Hob]. rewrite Ho.
  cbn [mbind outcome_bind]. set (o := days_before_month _ _) in *.
  unfold moment_of_creation, seconds_per_minute, seconds_per_hour, seconds_per_day,
    beginning_of_time, leap_days_before_epoch.
  assert (Hc : days_before_year (Z.to_nat y) = 365 * y + 1 + leaps_before y).
  { destruct (Z.to_nat y) as [|k] eqn:E; [lia|]. rewrite days_before_year_closed.
    replace (Z.of_nat (S k)) with y by lia. reflexivity. }
  assert (H70 : days_before_year 1970 = 719528) by (vm_compute; reflexivity).
  rewrite Hc, H70. rewrite (s32_small (y - 1)) by lia.
  rewrite !Z.quot_div_nonneg by lia. unfold leaps_before.
  assert (H4 : 475 <= (y - 1) / 4 <= 509) by (clear - Hy; Z.div_mod_to_equations; lia).
  assert (H100 : 19 <= (y - 1) / 100 <= 20) by (clear - Hy; Z.div_mod_to_equations; lia).
  assert (H400 : 4 <= (y - 1) / 400 <= 5) by (clear - Hy; Z.div_mod_to_equations; lia).
  assert (Hl : 365 * (y - 1970) + ((y - 1) / 4 - (y - 1) / 100 + (y - 1) / 400 - 477) <= 24837
     /\ - 24837 <= 365 * (y - 1970) + ((y - 1) / 4 - (y - 1) / 100 + (y - 1) / 400 - 477)).
  { set (l := leaps_before y). assert (Hl : leaps_before 1902 <= l <= leaps_before 2038).
    { unfold l, leaps_before. change ((1902 - 1) / 4 - (1902 - 1) / 100 + (1902 - 1) / 400) with 460.
      change ((2038 - 1) / 4 - (2038 - 1) / 100 + (2038 - 1) / 400) with 494.
      clear - Hy. Z.div_mod_to_equations. lia. }
    change (leaps_before 1902) with 460 in Hl. change (leaps_before 2038) with 494 in Hl.
    unfold l, leaps_before in Hl. lia. }
  set (a := (y - 1) / 4) in *. set (b := (y - 1) / 100) in *. set (c := (y - 1) / 400) in *.
  clearbody a b c o. clear Hc H70 Ho.
  s32_smalls. s64_smalls. f_equal. lia.
Qed.

Lemma mktime_correct_witness :
  mktime (mk_tm 8 7 6 29 1 124 0 0 0) = Ok 1709186828.
Proof.
  rewrite (mktime_correct (mk_tm 8 7 6 29 1 124 0 0 0)).
  - vm_compute. reflexivity.
  - unfold tm_ok. simpl. lia.
Defined.

(** From 2039 on the 32-bit product wraps: the result is a date in 1902. *)
Theorem mktime_2039_wraps : mktime (mk_tm 0 0 0 1 0 139 0 0 0) = Ok (-2117514496).
Proof. reflexivity. Qed.

(** ** [gmtime] *)
Lemma month_loop_spec leap doy : doy < 366 -> doy < 365 \/ leap = true ->
  exists m, 0 <= m < 12 /\ (0 <= doy -> days_before_month leap m <= doy) /\
    doy - days_before_month leap m < 31 /\
    month_loop 13 leap doy 0 = Ok (doy - days_before_month leap m, m).
Proof.
  intros H1 H2.
  destruct (Z.lt_ge_cases doy 0) as [Hneg|Hpos].
  - exists 0. replace (days_before_month leap 0) with 0 by (destruct leap; reflexivity).
    split; [lia|]. split; [lia|]. split; [lia|]. rewrite Z.sub_0_r.
    cbn [month_loop]. replace (fetch (days_per_month leap) 0) with (Ok 31) by (destruct leap; reflexivity).
    cbn [mbind outcome_bind]. destruct (Z.leb_spec 31 doy); [lia|reflexivity].
  - assert (H : forallb (fun k => let d := Z.of_nat k in
      match month_loop 13 leap d 0 with
      | Ok (r, m) => (0 <=? m) && (m <? 12) && (days_before_month leap m <=? d)
          && (d - days_before_month leap m <? 31) && (r =? d - days_before_month leap m)
      | _ => false end) (seq 0 (if leap then 366 else 365)) = true)
      by (destruct leap; vm_compute; reflexivity).
    rewrite forallb_forall in H. specialize (H (Z.to_nat doy)).
    rewrite in_seq in H. rewrite Z2Nat.id in H by lia. cbv zeta in H.
    destruct (month_loop 13 leap doy 0) as [[r m]|].
    + exists m. assert (Hl : (0 <= Z.to_nat doy < 0 + (if leap then 366 else 365))%nat)
        by (destruct leap, H2; (discriminate || lia)).
      specialize (H Hl). rewrite !andb_true_iff in H. destruct H as ((((A1 & A2) & A3) & A4) & A5).
      split; [lia|]. split; [lia|]. split; [lia|]. f_equal. f_equal. lia.
    + exfalso. assert (Hl : (0 <= Z.to_nat doy < 0 + (if leap then 366 else 365))%nat)
        by (destruct leap, H2; (discriminate || lia)). specialize (H Hl). discriminate.
Qed.

Lemma rem_range a b : 0 < b -> - b < Z.rem a b < b.
Proof. intros Hb. pose proof (Z.rem_bound_abs a b ltac:(lia)). lia. Qed.

(** One borrow: a negative low part is made positive at the cost of the high part. *)
Lemma carry lo hi b : 0 < b <= 60 -> - b <= lo < b -> - 60 < hi < 60 ->
  exists lo' hi',
    (if lo <? 0 then (s32 (lo + b), s32 (hi - 1)) else (lo, hi)) = (lo', hi')
    /\ 0 <= lo' < b /\ (b * hi' + lo' = b * hi + lo /\ hi - 1 <= hi' <= hi).
Proof.
  intros Hb H1 H2. destruct (Z.ltb_spec lo 0).
  - rewrite !s32_small by lia. eexists _, _. split; [reflexivity|]. lia.
  - eexists _, _. split; [reflexivity|]. lia.
Qed.

Lemma gmtime_spec timer : 
  exists t, gmtime timer = Ok t
    /\ 3600 * tm_hour t + 60 * tm_min t + tm_sec t = timer mod 86400
    /\ 0 <= tm_sec t < 60 /\ 0 <= tm_min t < 60 /\ 0 <= tm_hour t < 24
    /\ (0 <= timer -> tm_wday t = (timer / 86400 + 4) mod 7)
    /\ 0 <= tm_mon t < 12 /\ tm_mday t <= 31
    /\ tm_yday t = days_before_month (is_leap_year (s32 (tm_year t + 1900))) (tm_mon t) + tm_mday t - 1.
Proof.
  unfold gmtime.
  pose proof (Z.quot_rem timer 60 ltac:(lia)) as E1. pose proof (rem_range timer 60 ltac:(lia)) as R1.
  set (q1 := Z.quot timer 60) in *. set (r1 := Z.rem timer 60) in *.
  pose proof (Z.quot_rem q1 60 ltac:(lia)) as E2. pose proof (rem_range q1 60 ltac:(lia)) as R2.
  set (q2 := Z.quot q1 60) in *. set (r2 := Z.rem q1 60) in *.
  pose proof (Z.quot_rem q2 24 ltac:(lia)) as E3. pose proof (rem_range q2 24 ltac:(lia)) as R3.
  set (q3 := Z.quot q2 24) in *. set (r3 := Z.rem q2 24) in *.
  pose proof (rem_range (q3 + 4) 7 ltac:(lia)) as R4.
  rewrite (s32_small r1), (s32_small r2), (s32_small r3) by lia.
  rewrite (s32_small (Z.rem (q3 + 4) 7)) by lia.
  destruct (carry r1 r2 60 ltac:(lia) ltac:(lia) R2) as (sec & min & H1 & H2 & H3).
  rewrite H1. destruct (carry min r3 60 ltac:(lia) ltac:(lia) ltac:(lia)) as (min' & hour & H4 & H5 & H6).
  rewrite H4. set (wd := if Z.rem (q3 + 4) 7 <? 0 then _ else _).
  assert (Hwd : 0 <= timer -> wd = (timer / 86400 + 4) mod 7).
  { intros Hpos. pose proof (Z.rem_nonneg timer 60 ltac:(lia) Hpos).
    assert (0 <= q1) by (apply Z.quot_pos; lia). pose proof (Z.rem_nonneg q1 60 ltac:(lia) ltac:(lia)).
    assert (0 <= q2) by (apply Z.quot_pos; lia). pose proof (Z.rem_nonneg q2 24 ltac:(lia) ltac:(lia)).
    assert (0 <= q3) by (apply Z.quot_pos; lia).
    assert (Hq : q3 = timer / 86400) by (apply (Z.div_unique_pos _ _ _ (3600 * r3 + 60 * r2 + r1)); lia).
    unfold wd. rewrite rem_mod by lia. rewrite <- Hq.
    pose proof (Z.mod_pos_bound (q3 + 4) 7 ltac:(lia)). destruct (Z.ltb_spec ((q3 + 4) mod 7) 0); lia. }
  clearbody wd. set (hd := if hour <? 0 then _ else _).
  assert (Hhd : exists h d, hd = (h, d) /\ 0 <= h < 24 /\ 24 * d + h = 24 * q3 + hour).
  { unfold hd. destruct (Z.ltb_spec hour 0); [rewrite s32_small by lia|]; eexists _, _;
      (split; [reflexivity|lia]). }
  clearbody hd. destruct Hhd as (h & d & -> & Hh & Hd). cbv zeta.
  set (leap_days := Z.rem (Z.rem _ _) days_per_4_years).
  set (cy := s32 (s32 _ + Z.quot leap_days days_per_year)).
  pose proof (rem_range leap_days days_per_year ltac:(unfold days_per_year; lia)) as R5.
  change (- 365 < Z.rem leap_days days_per_year < 365) in R5.
  destruct (month_loop_spec (is_leap_year cy) (Z.rem leap_days days_per_year)) as (m & M1 & M2 & M3 & M4);
    [lia|lia|].
  rewrite M4. cbn [mbind outcome_bind]. eexists. split; [reflexivity|]. cbn [tm_hour tm_min tm_sec tm_wday tm_mon tm_mday tm_yday tm_year].
  assert (Hdm : 0 <= days_before_month (is_leap_year cy) m <= 335) by (apply ordinal_date_sum; exact M1).
  assert (Hcy : s32 (s32 (cy - 1900) + 1900) = cy).
  { rewrite <- (Z.sub_opp_r _ 1900), s32_sub_idemp. replace (cy - 1900 - - (1900)) with cy by lia.
    apply s32_small. unfold cy. apply s32_range. }
  rewrite Hcy, (s32_small (_ - _ + 1)) by lia.
  split. { apply (Z.mod_unique_pos _ _ d); lia. }
  repeat split; (exact Hwd || lia).
Qed.

(** [gmtime] ends on every argument; the time of day is the remainder of the
    argument by a day, before the epoch as well, and from the epoch on the day of the
    week is right; the month and day are those of the day of the year it computed. *)
Theorem gmtime_correct timer : 
  exists t, gmtime timer = Ok t
    /\ 3600 * tm_hour t + 60 * tm_min t + tm_sec t = timer mod 86400
    /\ 0 <= tm_sec t < 60 /\ 0 <= tm_min t < 60 /\ 0 <= tm_hour t < 24
    /\ (0 <= timer -> tm_wday t = (timer / 86400 + 4) mod 7)
    /\ 0 <= tm_mon t < 12 /\ tm_mday t <= 31
    /\ tm_yday t = days_before_month (is_leap_year (s32 (tm_year t + 1900))) (tm_mon t) + tm_mday t - 1.
Proof. apply gmtime_spec. Qed.

(** The calendar functions do not compose to the identity: [gmtime] divides by
    a century of 9124 days, so the epoch itself comes back as 8 April 3020. *)
Theorem gmtime_epoch_wrong :
  mktime (mk_tm 0 0 0 1 0 70 4 0 0) = Ok 0
  /\ gmtime 0 = Ok (mk_tm 0 0 0 8 3 1120 4 98 0).
Proof. split; reflexivity. Qed.

(** ** [asctime] *)
Definition two_digits (v : Z) : directive := DConv false true [50] (PNum CDec v).
Definition asctime_directives (t : tm) (wd mo : list Z) : list directive :=
  [DConv false false [] (PStr wd); DText [32]; DConv false false [] (PStr mo); DText [32];
   two_digits (tm_mday t); DText [32]; two_digits (tm_hour t); DText [58]; two_digits (tm_min t);
   DText [58]; two_digits (tm_sec t); DText [32];
   DConv false true [52] (PNum CDec (s32 (tm_year t + 1900))); DText [10]].

(** A decimal 32-bit number has at most ten digits and a sign. *)
Lemma decimal_field_length zero w v : width_value w <= 11 ->
  (length (render1 (DConv false zero w (PNum CDec v))) <= 11)%nat.
Proof.
  intros Hw. pose proof (s32_range v) as Hv.
  assert (Hb : forall u, 0 <= u <= 2 ^ 31 -> (length (number_text false 10 u) <= 10)%nat).
  { intros u Hu. unfold number_text. rewrite (digits_fuel false 10 ltac:(lia) 32 10);
      [apply digits_length|lia|..]; try lia;
      (apply Z.le_lt_trans with (1 := proj2 Hu); vm_compute; reflexivity). }
  pose proof (render1_field false zero w (PNum CDec v)) as Hf. cbn [payload_text columns] in Hf.
  destruct (Z.ltb_spec (s32 v) 0).
  - specialize (Hb (- s32 v) ltac:(lia)). rewrite Hf. unfold field_text.
    destruct (zero && _); rewrite !length_app, length_replicate; simpl; lia.
  - specialize (Hb (s32 v) ltac:(lia)). rewrite Hf. unfold field_text.
    destruct (zero && _); rewrite !length_app, length_replicate; simpl; lia.
Qed.

Lemma names_length t wd mo : fetch wdays (tm_wday t) = Ok wd -> fetch months (tm_mon t) = Ok mo ->
  length wd = 3%nat /\ length mo = 3%nat.
Proof.
  intros H1 H2. apply fetch_inv in H1 as [_ H1], H2 as [_ H2].
  apply list_elem_of_lookup_2, list_elem_of_In in H1. apply list_elem_of_lookup_2, list_elem_of_In in H2.
  simpl in H1, H2. split.
  - repeat destruct H1 as [<-|H1]; (reflexivity || contradiction).
  - repeat destruct H2 as [<-|H2]; (reflexivity || contradiction).
Qed.

Lemma render_length d ds : length (render (d :: ds)) = (length (render1 d) + length (render ds))%nat.
Proof. apply length_app. Qed.
Lemma text_length s : length (render1 (DText s)) = length s.
Proof. reflexivity. Qed.
Lemma string_length s : length (render1 (DConv false false [] (PStr s))) = length s.
Proof. cbn. replace (Z.to_nat _) with 0%nat by lia. rewrite app_nil_r. reflexivity. Qed.
Opaque render1.

Lemma asctime_length t wd mo : length wd = 3%nat -> length mo = 3%nat ->
  (length (render (asctime_directives t wd mo)) < 128)%nat.
Proof.
  intros L1 L2. unfold asctime_directives, two_digits.
  rewrite !render_length, !text_length, !string_length, L1, L2.
  assert (Hw : width_value [50] <= 11) by (vm_compute; congruence).
  assert (Hw4 : width_value [52] <= 11) by (vm_compute; congruence).
  pose proof (decimal_field_length true [50] (tm_mday t) Hw).
  pose proof (decimal_field_length true [50] (tm_hour t) Hw).
  pose proof (decimal_field_length true [50] (tm_min t) Hw).
  pose proof (decimal_field_length true [50] (tm_sec t) Hw).
  pose proof (decimal_field_length true [52] (s32 (tm_year t + 1900)) Hw4).
  change (length (render [])) with 0%nat. change (length [32]) with 1%nat.
  change (length [58]) with 1%nat. change (length [10]) with 1%nat. lia.
Qed.

Lemma asctime_format_eq t wd mo : asctime_format = format (asctime_directives t wd mo).
Proof. reflexivity. Qed.
Lemma asctime_arguments t wd mo :
  [va_string wd; va_string mo; va_word (tm_mday t); va_word (tm_hour t); va_word (tm_min t);
   va_word (tm_sec t); va_word (s32 (tm_year t + 1900))] = arguments (asctime_directives t wd mo).
Proof. reflexivity. Qed.
Lemma asctime_directives_ok t wd mo : Forall directive_ok (asctime_directives t wd mo).
Proof. repeat constructor; (lia || discriminate). Qed.

Lemma asctime_renders t wd mo : (length (render (asctime_directives t wd mo)) < 128)%nat ->
  snprintf 128 asctime_format
    [va_string wd; va_string mo; va_word (tm_mday t); va_word (tm_hour t); va_word (tm_min t);
     va_word (tm_sec t); va_word (s32 (tm_year t + 1900))]
  = Ok (render (asctime_directives t wd mo), Z.of_nat (length (render (asctime_directives t wd mo)))).
Proof.
  intros Hlen. unfold snprintf. rewrite (asctime_format_eq t wd mo), asctime_arguments.
  rewrite vsnprintf_spec; [|lia|apply asctime_directives_ok|lia].
  rewrite (proj2 (Z.ltb_lt _ _)) by lia. reflexivity.
Qed.

(** for a valid weekday and month, whatever the other fields hold, [asctime]
    fits its 128-byte buffer and returns the two names and the zero-padded fields
    in order. *)
Theorem asctime_correct t : 0 <= tm_wday t < 7 -> 0 <= tm_mon t < 12 ->
  exists wd mo, fetch wdays (tm_wday t) = Ok wd /\ fetch months (tm_mon t) = Ok mo
    /\ asctime t = Ok (render (asctime_directives t wd mo))
    /\ (length (render (asctime_directives t wd mo)) < 128)%nat.
Proof.
  intros Hw Hm.
  destruct (lookup_lt_is_Some_2 wdays (Z.to_nat (tm_wday t))) as [wd Hwd]; [simpl; lia|].
  destruct (lookup_lt_is_Some_2 months (Z.to_nat (tm_mon t))) as [mo Hmo]; [simpl; lia|].
  apply (fetch_Ok _ (tm_wday t)) in Hwd; [|lia]. apply (fetch_Ok _ (tm_mon t)) in Hmo; [|lia].
  exists wd, mo. split; [exact Hwd|]. split; [exact Hmo|].
  destruct (names_length t wd mo Hwd Hmo) as [L1 L2].
  pose proof (asctime_length t wd mo L1 L2) as Hlen.
  split; [|exact Hlen]. unfold asctime.
  rewrite (bind_Ok_l _ _ _ Hwd), (bind_Ok_l _ _ _ Hmo), (bind_Ok_l _ _ _ (asctime_renders t wd mo Hlen)).
  reflexivity.
Qed.

Lemma asctime_correct_witness :
  asctime (mk_tm 5 4 3 2 0 124 2 1 0)
  = Ok [84; 117; 101; 32; 74; 97; 110; 32; 48; 50; 32; 48; 51; 58; 48; 52; 58; 48; 53; 32;
        50; 48; 50; 52; 10].
Proof.
  destruct (asctime_correct (mk_tm 5 4 3 2 0 124 2 1 0)) as (wd & mo & H1 & H2 & H3 & _);
    [simpl; lia..|].
  rewrite H3. injection H1 as <-. injection H2 as <-. vm_compute. reflexivity.
Defined.
