(* ===== verification/Scanf.v ===== *)
(** * Formatted input (clib/scanf.cpp)

    The handler is the list of characters still to be read, with the count of
    those consumed.  The buffer of [vsscanf] has its terminator in the list, and
    [consume] takes it like any character; the stream of [vfscanf] ends with its
    last byte, where [look_ahead] and [consume] are 0 and nothing is counted.
    Characters are signed.  The format is the list of
    its characters before the terminator; advancing past the terminator is a
    fault.  A destination is an address, 0 for NULL; what is stored is logged. *)
From S2P Require Import Prelude Ctype.

Inductive scanf_type :=
  SCANF_TYPE_CHAR | SCANF_TYPE_SHORT | SCANF_TYPE_INTMAX | SCANF_TYPE_L | SCANF_TYPE_LL
| SCANF_TYPE_PTRDIFF | SCANF_TYPE_SIZE_T | SCANF_TYPE_INT.

Inductive stored :=
| stored_int (type : scanf_type) (v : Z)
| stored_pointer (v : Z)
| stored_chars (s : list Z) (terminated : bool).

(** The conversion of the assignment through the typed pointer. *)
Definition store_int (size : scanf_type) (i : Z) : stored :=
  stored_int size
    match size with
    | SCANF_TYPE_CHAR => swrap 8 i
    | SCANF_TYPE_SHORT => swrap 16 i
    | SCANF_TYPE_INTMAX => swrap 64 i
    | SCANF_TYPE_L => swrap 32 i
    | SCANF_TYPE_LL => swrap 64 i
    | SCANF_TYPE_PTRDIFF => swrap 32 i
    | SCANF_TYPE_SIZE_T => wrap 32 i
    | SCANF_TYPE_INT => swrap 32 i
    end.

Record scanf_state := mk_scanf {
  sc_in : list Z;                  (* what the handler still has *)
  num_consumed : Z;
  sc_args : list Z;                (* the pointers still to be fetched *)
  sc_out : list (Z * stored) }.

Definition look_ahead (inp : list Z) : Z := cur inp.
(** [raw] is the handler of [vsscanf]: a read behind the terminator leaves the buffer. *)
Definition consume (raw : bool) (h : scanf_state) : outcome (Z * scanf_state) :=
  match sc_in h with
  | [] => if raw then Fault OutOfBounds else Ok (0, h)
  | c :: inp => Ok (c, mk_scanf inp (s32 (num_consumed h + 1)) (sc_args h) (sc_out h))
  end.

Definition emit_to (dest : Z) (v : stored) (h : scanf_state) : scanf_state :=
  if dest =? 0 then h else mk_scanf (sc_in h) (num_consumed h) (sc_args h) (sc_out h ++ [(dest, v)]).
Definition va_arg_ptr (h : scanf_state) : outcome (Z * scanf_state) :=
  match sc_args h with
  | [] => Fault OutOfBounds
  | p :: args => Ok (p, mk_scanf (sc_in h) (num_consumed h) args (sc_out h))
  end.

(** A loop that consumes input returns the rest; every character taken is counted. *)
Definition set_in (h : scanf_state) (inp : list Z) : scanf_state :=
  mk_scanf inp (s32 (num_consumed h + Z.of_nat (length (sc_in h) - length inp)))
           (sc_args h) (sc_out h).

(** [while(isspace(handler.look_ahead())) handler.consume();] is [skip_space]. *)

(** [while(c >= '0' && c <= hi) res = res * 10 + (c - '0')] *)
Fixpoint digits_loop (hi res : Z) (inp : list Z) : Z * list Z :=
  match inp with
  | c :: inp' =>
    if (48 <=? c) && (c <=? hi) then digits_loop hi (u64 (res * 10 + (c - 48))) inp'
    else (res, inp)
  | [] => (res, [])
  end.

Fixpoint hex_loop (res : Z) (inp : list Z) : Z * list Z :=
  match inp with
  | c :: inp' =>
    if (48 <=? c) && (c <=? 57) then hex_loop (u64 (res * 16 + (c - 48))) inp'
    else if (97 <=? c) && (c <=? 102) then hex_loop (u64 (res * 16 + (c - 97))) inp'
    else if (65 <=? c) && (c <=? 70) then hex_loop (u64 (res * 16 + (c - 65))) inp'
    else (res, inp)
  | [] => (res, [])
  end.

(** An optional ["0"] or ["0x"]. *)
Definition hex_prefix (inp : list Z) : list Z :=
  match inp with
  | 48 :: 120 :: inp => inp
  | 48 :: inp => inp
  | _ => inp
  end.

(** [%s]: [width] 0 means no limit; the limit is tested after each character. *)
Fixpoint string_loop (width count : Z) (inp : list Z) : outcome (list Z * list Z) :=
  match inp with
  | [] => Ok ([], [])
  | c :: inp' =>
    if c =? 0 then Ok ([], inp) else
    b ← isspace c;
    if b : bool then Ok ([], inp)
    else
      let count := s32 (count + 1) in
      if negb (width =? 0) && (width <=? count) then Ok ([c], inp')
      else '(s, rest) ← string_loop width count inp'; Ok (c :: s, rest)
  end.

(** [%c] *)
Fixpoint chars_loop (width count : Z) (inp : list Z) : list Z * list Z :=
  match inp with
  | [] => ([], [])
  | c :: inp' =>
    if negb (c =? 0) && (count <? width) then
      let '(s, rest) := chars_loop width (s32 (count + 1)) inp' in (c :: s, rest)
    else ([], inp)
  end.

(** ** Scan sets *)
(** [for(char c = from; c < to; c++) scanset[1 + c] = v;] *)
Fixpoint set_range (fuel : nat) (from to v : Z) (set : list Z) : outcome (list Z) :=
  match fuel with
  | O => Fault OutOfFuel
  | S fuel =>
    if from <? to then set ← store set (1 + from) v; set_range fuel (s8 (from + 1)) to v set
    else Ok set
  end.

(** The loop to the closing bracket.  [prev] is the character before [fmt];
    [None] is the [return EOF] at the end of the format. *)
Fixpoint scanset_loop (v prev : Z) (fmt set : list Z) : outcome (option (list Z * list Z)) :=
  match fmt with
  | [] => Ok None
  | c :: fmt' =>
    if c =? 93 then Ok (Some (fmt, set))
    else if c =? 45 then
      match fmt' with
      | [] => (* the terminator ends the range and the loop steps over it *)
        set ← set_range 256 prev 0 v set;
        set ← store set 1 v; Fault OutOfBounds
      | e :: fmt'' =>
        set ← set_range 256 prev e v set;
        set ← store set (1 + e) v;
        scanset_loop v e fmt'' set
      end
    else set ← store set (1 + c) v; scanset_loop v c fmt' set
  end.

(** [while(c && (!width || count < width))]: the character that is not in the
    set has been consumed when the loop leaves. *)
Fixpoint set_loop (scanset : list Z) (width count : Z) (inp : list Z) : outcome (list Z * list Z) :=
  match inp with
  | [] => Ok ([], [])
  | c :: inp' =>
    if negb (c =? 0) && ((width =? 0) || (count <? width)) then
      e ← fetch scanset (1 + c);
      if e =? 0 then Ok ([], inp')
      else '(s, rest) ← set_loop scanset width (s32 (count + 1)) inp'; Ok (c :: s, rest)
    else Ok ([], inp)
  end.

(** Advance the format, which must not leave the string. *)
Definition adv (k : nat) (fmt : list Z) : outcome (list Z) :=
  if (k <=? length fmt)%nat then Ok (drop k fmt) else Fault OutOfBounds.

(** [case '[']: the format at the closing bracket, or [None] for [return EOF]. *)
Definition scan_set (dest width : Z) (fmt : list Z) (h : scanf_state)
  : outcome (option (list Z * scanf_state)) :=
  fmt ← adv 1 fmt;
  let '(invert, fmt, prev) :=
    match fmt with 94 :: fmt => (1, fmt, 94) | _ => (0, fmt, 91) end in
  let v := 1 - invert in
  let scanset := <[0%nat := 0]> (replicate 257 invert) in
  let '(fmt, prev, scanset) :=
    match fmt with
    | 45 :: fmt => (fmt, 45, <[46%nat := v]> scanset)
    | 93 :: fmt => (fmt, 93, <[94%nat := v]> scanset)
    | _ => (fmt, prev, scanset)
    end in
  r ← scanset_loop v prev fmt scanset;
  match r with
  | None => Ok None
  | Some (fmt, scanset) =>
    '(s, rest) ← set_loop scanset width 0 (sc_in h);
    Ok (Some (fmt, emit_to dest (stored_chars s true) (set_in h rest)))
  end.

(** The digits of a width, while [fmt] points at one. *)
Fixpoint width_loop (width : Z) (fmt : list Z) : Z * list Z :=
  match fmt with
  | c :: fmt' =>
    if (48 <=? c) && (c <=? 57) then width_loop (s32 (s32 (width * 10) + (c - 48))) fmt'
    else (width, fmt)
  | [] => (width, [])
  end.

(** The type modifiers: type, base and the format after them. *)
Definition type_modifier (fmt : list Z) : scanf_type * Z * list Z :=
  match fmt with
  | 104 :: 104 :: fmt => (SCANF_TYPE_CHAR, 10, fmt)
  | 104 :: fmt => (SCANF_TYPE_SHORT, 10, fmt)
  | 106 :: fmt => (SCANF_TYPE_INTMAX, 10, fmt)
  | 108 :: 108 :: fmt => (SCANF_TYPE_LL, 10, fmt)
  | 108 :: fmt => (SCANF_TYPE_L, 10, fmt)
  | 76 :: fmt => (SCANF_TYPE_LL, 10, fmt)
  | 113 :: fmt => (SCANF_TYPE_LL, 10, fmt)
  | 116 :: fmt => (SCANF_TYPE_PTRDIFF, 10, fmt)
  | 122 :: fmt => (SCANF_TYPE_SIZE_T, 10, fmt)
  | 48 :: 120 :: fmt => (SCANF_TYPE_INT, 16, fmt)
  | 48 :: 88 :: fmt => (SCANF_TYPE_INT, 16, fmt)
  | 48 :: fmt => (SCANF_TYPE_INT, 8, fmt)
  | _ => (SCANF_TYPE_INT, 10, fmt)
  end.

(** [case 'd'], ['u'] (base 10) and ['i']. *)
Definition scan_integer (base : Z) (inp : list Z) : Z * list Z :=
  if base =? 16 then hex_loop 0 (hex_prefix inp)
  else if base =? 8 then digits_loop 55 0 inp
  else digits_loop 57 0 inp.

(** What a conversion leaves to the loop: [continue], fall to the match count, or
    [return EOF]; with the format at its last character. *)
Inductive conversion_result :=
| Counted (fmt : list Z) (h : scanf_state)
| Skipped (fmt : list Z) (h : scanf_state)
| ReturnEOF (h : scanf_state).

Definition scan_conversion (dest width : Z) (type : scanf_type) (base : Z) (fmt : list Z)
  (h : scanf_state) : outcome conversion_result :=
  let c := cur fmt in
  if (c =? 100) || (c =? 117) then
    let '(res, rest) := scan_integer 10 (sc_in h) in
    Ok (Counted fmt (emit_to dest (store_int type res) (set_in h rest)))
  else if c =? 105 then
    let '(res, rest) := scan_integer base (sc_in h) in
    Ok (Counted fmt (emit_to dest (store_int type res) (set_in h rest)))
  else if c =? 111 then
    let '(res, rest) := digits_loop 55 0 (sc_in h) in
    Ok (Counted fmt (emit_to dest (store_int type res) (set_in h rest)))
  else if (c =? 120) || (c =? 88) then
    let '(res, rest) := hex_loop 0 (hex_prefix (sc_in h)) in
    Ok (Counted fmt (emit_to dest (store_int type res) (set_in h rest)))
  else if c =? 115 then
    '(s, rest) ← string_loop width 0 (sc_in h);
    Ok (Counted fmt (emit_to dest (stored_chars s true) (set_in h rest)))
  else if c =? 99 then
    let width := if width =? 0 then 1 else width in
    let '(s, rest) := chars_loop width 0 (sc_in h) in
    Ok (Counted fmt (emit_to dest (stored_chars s false) (set_in h rest)))
  else if c =? 91 then
    r ← scan_set dest width fmt h;
    match r with
    | None => Ok (ReturnEOF h)
    | Some (fmt, h) => Ok (Counted fmt h)
    end
  else if c =? 112 then
    let '(res, rest) := hex_loop 0 (hex_prefix (sc_in h)) in
    if dest =? 0 then Fault PageFault   (* the store through a null pointer *)
    else Ok (Counted fmt (emit_to dest (stored_pointer (u32 res)) (set_in h rest)))
  else if c =? 110 then
    Ok (Skipped fmt (emit_to dest (stored_int SCANF_TYPE_INT (num_consumed h)) h))
  else Ok (Counted fmt h).

(** The assignment suppression or the width, the type, and the conversion. *)
Definition star_or_width (fmt : list Z) : Z * list Z :=
  match fmt with 42 :: fmt => (0, fmt) | _ => width_loop 0 fmt end.
Definition typed_conversion (dest : Z) (fmt : list Z) (h : scanf_state) : outcome conversion_result :=
  let '(width, fmt) := star_or_width fmt in
  let '(type, base, fmt) := type_modifier fmt in
  scan_conversion dest width type base fmt h.

(** One directive, from the character after its percent sign. *)
Definition scan_directive (dest : Z) (fmt : list Z) (h : scanf_state) : outcome conversion_result :=
  match fmt with
  | 39 :: fmt => Ok (Skipped fmt h)
  | 109 :: fmt => Ok (Skipped fmt h)
  | _ => typed_conversion dest fmt h
  end.

Definition EOF : Z := -1.

(** The main loop: [None] is a [break]; the count and the final handler. *)
Fixpoint scan_loop (raw : bool) (fuel : nat) (match_count : Z) (fmt : list Z) (h : scanf_state)
  : outcome (Z * scanf_state) :=
  match fuel with
  | O => Fault OutOfFuel
  | S fuel =>
    match fmt with
    | [] => Ok (match_count, h)
    | c :: fmt' =>
      sp ← isspace c;
      if sp : bool then
        fmt' ← skip_space fmt';
        rest ← skip_space (sc_in h);
        scan_loop raw fuel match_count fmt' (set_in h rest)
      else if negb (c =? 37) || (cur fmt' =? 37) then
        let '(lit, fmt') := match fmt' with
                            | d :: fmt'' => if c =? 37 then (d, fmt'') else (c, fmt')
                            | [] => (c, fmt') end in
        '(x, h) ← consume raw h;
        if negb (x =? lit) then Ok (match_count, h)
        else scan_loop raw fuel match_count fmt' h
      else
        '(dest, h) ← if cur fmt' =? 42 then Ok (0, h) else va_arg_ptr h;
        r ← scan_directive dest fmt' h;
        match r with
        | ReturnEOF h => Ok (EOF, h)
        | Skipped fmt h => fmt ← adv 1 fmt; scan_loop raw fuel match_count fmt h
        | Counted fmt h =>
          let match_count := if dest =? 0 then match_count else s32 (match_count + 1) in
          fmt ← adv 1 fmt; scan_loop raw fuel match_count fmt h
        end
    end
  end.

Definition do_scanf (raw : bool) (fmt : list Z) (h : scanf_state) : outcome (Z * scanf_state) :=
  scan_loop raw (S (length fmt)) 0 fmt h.

Definition vsscanf (buffer fmt : list Z) (args : list Z) : outcome (Z * scanf_state) :=
  do_scanf true fmt (mk_scanf (buffer ++ [0]) 0 args []).
(** The stream handler reads the bytes from the file position to its end. *)
Definition vfscanf (data fmt : list Z) (args : list Z) : outcome (Z * scanf_state) :=
  do_scanf false fmt (mk_scanf data 0 args []).
(** [return 0;] is the first statement. *)
Definition sscanf (buffer fmt : list Z) (args : list Z) : outcome (Z * scanf_state) :=
  Ok (0, mk_scanf buffer 0 args []).

Example vsscanf_ex :
  vsscanf [49; 50; 44; 32; 97; 98] [37; 100; 44; 32; 37; 115] [1000; 2000]
  = Ok (2, mk_scanf [0] 6 [] [(1000, stored_int SCANF_TYPE_INT 12);
                             (2000, stored_chars [97; 98] true)]).
Proof. reflexivity. Qed.
