(* ===== verification/ScanfProofs.v ===== *)
(** * Formatted input: termination, accounting, agreement with the output side *)
From S2P Require Import Prelude Ctype Stdio StdioProofs Scanf.

(** ** Every loop leaves a suffix of its input *)
Definition suffix_of (rest inp : list Z) : Prop := exists taken, inp = taken ++ rest.

Lemma suffix_refl l : suffix_of l l.
Proof. exists []. reflexivity. Qed.
Lemma suffix_cons c rest inp : suffix_of rest inp -> suffix_of rest (c :: inp).
Proof. intros [t ->]. exists (c :: t). reflexivity. Qed.
Lemma suffix_trans a b c : suffix_of a b -> suffix_of b c -> suffix_of a c.
Proof. intros [t ->] [u ->]. exists (u ++ t). now rewrite app_assoc. Qed.
Lemma suffix_drop k l : suffix_of (drop k l) l.
Proof. exists (take k l). now rewrite take_drop. Qed.
Lemma suffix_length a b : suffix_of a b -> (length a <= length b)%nat.
Proof. intros [t ->]. rewrite length_app. lia. Qed.
Lemma suffix_Forall P a b : suffix_of a b -> Forall P b -> Forall P a.
Proof. intros [t ->] H. apply Forall_app in H. apply H. Qed.
#[export] Hint Resolve suffix_refl suffix_cons suffix_drop : osd.

Lemma digits_loop_suffix hi inp : forall res, suffix_of (snd (digits_loop hi res inp)) inp.
Proof.
  induction inp as [|c inp IH]; intros res; simpl; [auto with osd|].
  destruct (_ && _); [apply suffix_cons, IH|auto with osd].
Qed.
Lemma hex_loop_suffix inp : forall res, suffix_of (snd (hex_loop res inp)) inp.
Proof.
  induction inp as [|c inp IH]; intros res; simpl; [auto with osd|].
  repeat (destruct (_ && _); [apply suffix_cons, IH|]). auto with osd.
Qed.

(** A leading match on constants returns a drop of the list. *)
Lemma hex_prefix_drop inp : exists k, hex_prefix inp = drop k inp.
Proof.
  destruct inp as [|c inp]; [exists 0%nat; reflexivity|].
  destruct (Z.eq_dec c 48) as [->|Hc].
  - destruct inp as [|d inp]; [exists 1%nat; reflexivity|].
    destruct (Z.eq_dec d 120) as [->|Hd]; [exists 2%nat; reflexivity|]. exists 1%nat.
    simpl. destruct d as [|d|d]; try reflexivity.
    do 7 (destruct d as [d|d|]; try reflexivity; try contradiction).
  - exists 0%nat. simpl. destruct c as [|c|c]; try reflexivity.
    do 6 (destruct c as [c|c|]; try reflexivity; try contradiction).
Qed.

Lemma hex_suffix inp : suffix_of (snd (hex_loop 0 (hex_prefix inp))) inp.
Proof.
  destruct (hex_prefix_drop inp) as [k ->].
  apply suffix_trans with (drop k inp); [apply hex_loop_suffix|auto with osd].
Qed.

Lemma scan_integer_suffix base inp : suffix_of (snd (scan_integer base inp)) inp.
Proof.
  unfold scan_integer. destruct (_ =? 16); [apply hex_suffix|].
  destruct (_ =? 8); apply digits_loop_suffix.
Qed.

Lemma string_loop_suffix width inp : forall count s rest,
  string_loop width count inp = Ok (s, rest) -> suffix_of rest inp.
Proof.
  induction inp as [|c inp IH]; intros count s rest H; simpl in H.
  - injection H as <- <-. auto with osd.
  - destruct (c =? 0); [injection H as <- <-; auto with osd|].
    inv_bind H. destruct a; [injection H as <- <-; auto with osd|].
    destruct (_ && _); [injection H as <- <-; auto with osd|].
    inv_bind H. destruct a as [s' r']. injection H as <- <-. apply suffix_cons. eauto.
Qed.

Lemma chars_loop_suffix width inp : forall count, suffix_of (snd (chars_loop width count inp)) inp.
Proof.
  induction inp as [|c inp IH]; intros count; simpl; [auto with osd|].
  destruct (_ && _); [|auto with osd]. specialize (IH (s32 (count + 1))).
  destruct (chars_loop _ _ _). apply suffix_cons, IH.
Qed.

Lemma set_loop_suffix set width inp : forall count s rest,
  set_loop set width count inp = Ok (s, rest) -> suffix_of rest inp.
Proof.
  induction inp as [|c inp IH]; intros count s rest H; simpl in H.
  - injection H as <- <-. auto with osd.
  - destruct (_ && _); [|injection H as <- <-; auto with osd].
    inv_bind H. destruct (_ =? 0); [injection H as <- <-; auto with osd|].
    inv_bind H. destruct a0 as [s' r']. injection H as <- <-. apply suffix_cons. eauto.
Qed.

Lemma skip_space_suffix inp : forall rest, skip_space inp = Ok rest -> suffix_of rest inp.
Proof.
  induction inp as [|c inp IH]; intros rest H; cbn [skip_space] in H.
  - inv_bind H. destruct a; [discriminate|]. injection H as <-. auto with osd.
  - inv_bind H. destruct a; [apply suffix_cons; eauto|]. injection H as <-. auto with osd.
Qed.

Lemma width_loop_suffix fmt : forall w, suffix_of (snd (width_loop w fmt)) fmt.
Proof.
  induction fmt as [|c fmt IH]; intros w; simpl; [auto with osd|].
  destruct (_ && _); [apply suffix_cons, IH|auto with osd].
Qed.

Lemma type_modifier_suffix fmt : suffix_of (snd (type_modifier fmt)) fmt.
Proof.
  unfold type_modifier.
  repeat match goal with
  | |- suffix_of (snd (match ?x with _ => _ end)) _ => destruct x; auto with osd
  end.
Qed.

(** ** The accounting of the handler *)
Definition is_int (z : Z) : Prop := - 2 ^ 31 <= z < 2 ^ 31.
Definition accounts (h h' : scanf_state) : Prop :=
  exists taken, sc_in h = taken ++ sc_in h'
    /\ u32 (num_consumed h') = u32 (num_consumed h + Z.of_nat (length taken))
    /\ (is_int (num_consumed h) -> is_int (num_consumed h')).

Lemma accounts_refl h : accounts h h.
Proof. exists []. split; [reflexivity|]. split; [|auto]. simpl. now rewrite Z.add_0_r. Qed.

Lemma u32_add_idemp a b : u32 (u32 a + b) = u32 (a + b).
Proof. unfold u32, wrap. apply Zplus_mod_idemp_l. Qed.

Lemma accounts_trans a b c : accounts a b -> accounts b c -> accounts a c.
Proof.
  intros (t & H1 & H2 & H3) (u & H4 & H5 & H6). exists (t ++ u).
  split; [rewrite <- app_assoc, <- H4; exact H1|]. split; [|auto].
  rewrite H5, <- u32_add_idemp, H2, u32_add_idemp, length_app. f_equal. lia.
Qed.

Lemma accounts_set_in h rest : suffix_of rest (sc_in h) -> accounts h (set_in h rest).
Proof.
  intros [t E]. exists t. split; [exact E|].
  assert (Hl : (length (sc_in h) - length rest)%nat = length t) by (rewrite E, length_app; lia).
  unfold set_in. simpl. rewrite Hl. split; [apply u32_s32|]. intros _. apply s32_range.
Qed.

Lemma accounts_emit dest v h h' : accounts h h' -> accounts h (emit_to dest v h').
Proof. unfold emit_to. destruct (dest =? 0); auto. Qed.

Lemma accounts_consume raw h x h' : consume raw h = Ok (x, h') -> accounts h h'.
Proof.
  unfold consume. destruct (sc_in h) as [|c inp] eqn:E; [destruct raw; [discriminate|]|]; intros [= <- <-]; [apply accounts_refl|].
  exists [c]. split; [exact E|]. split; [apply u32_s32|]. intros _. apply s32_range.
Qed.

Lemma accounts_va_arg h p h' : va_arg_ptr h = Ok (p, h') -> accounts h h'.
Proof.
  unfold va_arg_ptr. destruct (sc_args h); [discriminate|]. intros [= <- <-].
  exists []. split; [reflexivity|]. split; [|auto]. simpl. now rewrite Z.add_0_r.
Qed.

(** ** Termination *)
Definition ends {A} (m : outcome A) : Prop := m <> Fault OutOfFuel.

Lemma ends_bind {A B} (m : outcome A) (f : A -> outcome B) :
  ends m -> (forall a, m = Ok a -> ends (f a)) -> ends (m ≫= f).
Proof. intros Hm Hf. destruct m as [a|e]; [apply Hf; reflexivity|]. unfold ends in *. cbn. congruence. Qed.
Lemma ends_Ok {A} (a : A) : ends (Ok a).
Proof. discriminate. Qed.
Lemma ends_Fault {A B} e : ends (@Fault A e) -> ends (@Fault B e).
Proof. unfold ends. congruence. Qed.
Lemma ends_oob {A} : ends (@Fault A OutOfBounds).
Proof. discriminate. Qed.
Lemma ends_fetch {A} (l : list A) i : ends (fetch l i).
Proof. unfold fetch. case_decide; [destruct (_ !! _)|]; discriminate. Qed.
Lemma ends_store {A} (l : list A) i x : ends (store l i x).
Proof. unfold store. case_decide; discriminate. Qed.
Lemma ends_isspace c : ends (isspace c).
Proof. apply ends_bind; [apply ends_fetch|intros; apply ends_Ok]. Qed.
Lemma ends_adv k fmt : ends (adv k fmt).
Proof. unfold adv. destruct (_ <=? _)%nat; discriminate. Qed.
#[local] Hint Resolve ends_bind ends_Ok ends_oob ends_fetch ends_store ends_isspace ends_adv : osd.

Lemma ends_skip_space l : ends (skip_space l).
Proof.
  induction l as [|c l IH]; cbn [skip_space]; apply ends_bind; auto with osd; intros [|] _; auto with osd.
Qed.
Lemma ends_string_loop w inp : forall k, ends (string_loop w k inp).
Proof.
  induction inp as [|c inp IH]; intros k; cbn [string_loop]; [auto with osd|].
  destruct (_ =? _); [auto with osd|]. apply ends_bind; [auto with osd|]. intros [|] _; [auto with osd|].
  destruct (_ && _); [auto with osd|]. apply ends_bind; [apply IH|]. intros [] _. auto with osd.
Qed.
Lemma ends_set_loop set w inp : forall k, ends (set_loop set w k inp).
Proof.
  induction inp as [|c inp IH]; intros k; cbn [set_loop]; [auto with osd|].
  destruct (_ && _); [|auto with osd]. apply ends_bind; [auto with osd|]. intros e _.
  destruct (_ =? _); [auto with osd|]. apply ends_bind; [apply IH|]. intros [] _. auto with osd.
Qed.
#[local] Hint Resolve ends_skip_space ends_string_loop ends_set_loop : osd.

(** ** Scan sets *)
Definition is_char (c : Z) : Prop := -128 <= c < 128.

Lemma set_range_fuel to v : is_char to -> forall fuel from set, is_char from ->
  to - from <= Z.of_nat fuel -> ends (set_range (S fuel) from to v set).
Proof.
  intros Ht fuel. unfold is_char in *. induction fuel as [|fuel IH]; intros from set Hf Hd.
  - cbn [set_range]. destruct (Z.ltb_spec from to); [lia|auto with osd].
  - change (set_range (S (S fuel)) from to v set) with
      (if from <? to then set ← store set (1 + from) v; set_range (S fuel) (s8 (from + 1)) to v set
       else Ok set).
    destruct (Z.ltb_spec from to); [|auto with osd]. apply ends_bind; [auto with osd|]. intros set' _.
    replace (s8 (from + 1)) with (from + 1); [apply IH; lia|].
    symmetry. apply (swrap_small 8); [lia|]. simpl. lia.
Qed.

Lemma scanset_loop_fuel v fmt : Forall is_char fmt -> forall prev set, is_char prev ->
  ends (scanset_loop v prev fmt set).
Proof.
  intros Hfmt. remember (length fmt) as k eqn:Hk. revert fmt Hfmt Hk.
  induction (lt_wf k) as [k _ IH]. intros fmt Hfmt -> prev set Hp.
  assert (Hr : forall e, is_char e -> ends (set_range 256 prev e v set)).
  { intros e He. apply (set_range_fuel e v He 255 prev set Hp). unfold is_char in *. lia. }
  destruct fmt as [|c fmt]; cbn [scanset_loop]; [auto with osd|].
  inversion Hfmt as [|? ? Hc Hfmt']. subst.
  destruct (c =? 93); [auto with osd|]. destruct (c =? 45).
  - destruct fmt as [|e fmt].
    + apply ends_bind; [apply Hr; unfold is_char; lia|]. intros ? _.
      apply ends_bind; auto with osd.
    + inversion Hfmt' as [|? ? He Hfmt'']. subst.
      apply ends_bind; [apply Hr, He|]. intros ? _. apply ends_bind; [auto with osd|]. intros ? _.
      refine (IH (length fmt) _ fmt Hfmt'' eq_refl e _ He). simpl. lia.
  - apply ends_bind; [auto with osd|]. intros ? _.
    refine (IH (length fmt) _ fmt Hfmt' eq_refl c _ Hc). simpl. lia.
Qed.

Lemma scanset_loop_suffix v fmt : forall prev set fmt' set',
  scanset_loop v prev fmt set = Ok (Some (fmt', set')) -> suffix_of fmt' fmt.
Proof.
  remember (length fmt) as k eqn:Hk. revert fmt Hk.
  induction (lt_wf k) as [k _ IH]. intros fmt -> prev set fmt' set' H.
  destruct fmt as [|c fmt]; cbn [scanset_loop] in H; [discriminate|].
  destruct (c =? 93); [injection H as <- <-; auto with osd|]. destruct (c =? 45).
  - destruct fmt as [|e fmt]; inv_bind H; inv_bind H; [discriminate|].
    apply suffix_cons, suffix_cons. eapply (IH (length fmt)); [simpl; lia|reflexivity|exact H].
  - inv_bind H. apply suffix_cons. eapply (IH (length fmt)); [simpl; lia|reflexivity|exact H].
Qed.

(** ** One directive *)
Definition directive_spec (fmt : list Z) (h : scanf_state) (o : outcome conversion_result) : Prop :=
  ends o /\ forall r, o = Ok r ->
    match r with
    | Counted fmt' h' | Skipped fmt' h' => accounts h h' /\ suffix_of fmt' fmt
    | ReturnEOF h' => accounts h h'
    end.

Lemma adv_inv k fmt fmt' : adv k fmt = Ok fmt' -> suffix_of fmt' fmt /\ length fmt' = (length fmt - k)%nat.
Proof.
  unfold adv. destruct (_ <=? _)%nat; [|discriminate]. intros [= <-].
  split; [auto with osd|apply length_drop].
Qed.

Lemma counted_spec fmt h rest dest v : suffix_of rest (sc_in h) ->
  directive_spec fmt h (Ok (Counted fmt (emit_to dest v (set_in h rest)))).
Proof.
  intros Hs. split; [auto with osd|]. intros r [= <-].
  split; [apply accounts_emit, accounts_set_in, Hs|auto with osd].
Qed.

Lemma loop_counted_spec fmt h (p : Z * list Z) dest type : suffix_of (snd p) (sc_in h) ->
  directive_spec fmt h (let '(res, rest) := p in
    Ok (Counted fmt (emit_to dest (store_int type res) (set_in h rest)))).
Proof. destruct p as [res rest]. apply counted_spec. Qed.

(** The prefix of a scan set: the format it leaves is a suffix, the character before is one. *)
Lemma caret_suffix (fmt : list Z) : exists i rest p,
  match fmt with 94 :: fmt => (1, fmt, 94) | _ => (0, fmt, 91) end = (i, rest, p)
  /\ suffix_of rest fmt /\ is_char p.
Proof.
  destruct fmt as [|c fmt]; [eexists _, _, _; split; [reflexivity|]; split; [auto with osd|unfold is_char; lia]|].
  repeat match goal with
  | |- context [match ?x with _ => _ end] => destruct x
  end; (eexists _, _, _; split; [reflexivity|]; split; [auto with osd|unfold is_char; lia]).
Qed.

Lemma bracket_suffix (fmt : list Z) (prev v : Z) (set : list Z) : is_char prev -> exists rest p set',
  match fmt with
  | 45 :: fmt => (fmt, 45, <[46%nat := v]> set)
  | 93 :: fmt => (fmt, 93, <[94%nat := v]> set)
  | _ => (fmt, prev, set)
  end = (rest, p, set') /\ suffix_of rest fmt /\ is_char p.
Proof.
  intros Hp. destruct fmt as [|c fmt]; [eexists _, _, _; split; [reflexivity|]; auto with osd|].
  repeat match goal with
  | |- context [match ?x with _ => _ end] => destruct x
  end; (eexists _, _, _; split; [reflexivity|]; split; [auto with osd|unfold is_char in *; lia]).
Qed.

Lemma scan_set_spec dest width fmt h : Forall is_char fmt ->
  ends (scan_set dest width fmt h) /\
  forall r, scan_set dest width fmt h = Ok (Some r) -> accounts h (snd r) /\ suffix_of (fst r) fmt.
Proof.
  intros Hfmt. unfold scan_set. destruct (adv 1 fmt) as [fmt1|] eqn:E;
    [|split; [|discriminate]; pose proof (ends_adv 1 fmt) as H; rewrite E in H; exact (ends_Fault _ H)].
  apply adv_inv in E as [S1 _]. cbn [mbind outcome_bind].
  destruct (caret_suffix fmt1) as (i & fmt2 & p & -> & S2 & Hp).
  destruct (bracket_suffix fmt2 p (1 - i) (<[0%nat := 0]> (replicate 257 i)) Hp) as (fmt3 & p' & set & -> & S3 & Hp').
  assert (S4 : suffix_of fmt3 fmt) by eauto using suffix_trans.
  pose proof (scanset_loop_fuel (1 - i) fmt3 (suffix_Forall _ _ _ S4 Hfmt) p' set Hp') as Hends.
  destruct (scanset_loop (1 - i) p' fmt3 set) as [[[fmt4 set4]|]|e] eqn:E; cbn [mbind outcome_bind].
  - apply scanset_loop_suffix in E. split.
    + apply ends_bind; [auto with osd|]. intros [] _. auto with osd.
    + intros r H. inv_bind H. destruct a as [s rest]. injection H as <-. simpl.
      apply set_loop_suffix in Ha. split; [apply accounts_emit, accounts_set_in, Ha|].
      eauto using suffix_trans.
  - split; [auto with osd|discriminate].
  - split; [exact (ends_Fault _ Hends)|discriminate].
Qed.

Lemma scan_conversion_spec dest width type base fmt h : Forall is_char fmt ->
  directive_spec fmt h (scan_conversion dest width type base fmt h).
Proof.
  intros Hfmt. unfold scan_conversion.
  destruct (_ || _); [apply loop_counted_spec, scan_integer_suffix|].
  destruct (_ =? 105); [apply loop_counted_spec, scan_integer_suffix|].
  destruct (_ =? 111); [apply loop_counted_spec, digits_loop_suffix|].
  destruct (_ || _); [apply loop_counted_spec, hex_suffix|].
  destruct (_ =? 115).
  { destruct (string_loop width 0 (sc_in h)) as [[s rest]|e] eqn:E; cbn [mbind outcome_bind].
    - apply counted_spec, (string_loop_suffix _ _ _ _ _ E).
    - split; [|discriminate]. pose proof (ends_string_loop width (sc_in h) 0) as H. rewrite E in H.
      exact (ends_Fault _ H). }
  destruct (_ =? 99).
  { pose proof (chars_loop_suffix (if width =? 0 then 1 else width) (sc_in h) 0) as H.
    cbv zeta. destruct (chars_loop _ _ _) as [s rest]. apply counted_spec, H. }
  destruct (_ =? 91).
  { destruct (scan_set_spec dest width fmt h Hfmt) as [H1 H2].
    destruct (scan_set dest width fmt h) as [[[fmt' h']|]|e]; cbn [mbind outcome_bind].
    - split; [auto with osd|]. intros r [= <-]. apply (H2 (fmt', h') eq_refl).
    - split; [auto with osd|]. intros r [= <-]. apply accounts_refl.
    - split; [exact (ends_Fault _ H1)|discriminate]. }
  destruct (_ =? 112).
  { pose proof (hex_suffix (sc_in h)) as H. destruct (hex_loop _ _) as [res rest]. simpl in H.
    destruct (_ =? 0); [split; discriminate|apply counted_spec, H]. }
  destruct (_ =? 110); split; auto with osd; intros r [= <-].
  - split; [apply accounts_emit, accounts_refl|auto with osd].
  - split; [apply accounts_refl|auto with osd].
Qed.

Lemma directive_spec_suffix fmt fmt' h o : suffix_of fmt' fmt ->
  directive_spec fmt' h o -> directive_spec fmt h o.
Proof.
  intros Hs [H1 H2]. split; [exact H1|]. intros r Hr. specialize (H2 r Hr).
  destruct r; [destruct H2; eauto using suffix_trans..|exact H2].
Qed.

Lemma star_or_width_suffix fmt : suffix_of (snd (star_or_width fmt)) fmt.
Proof.
  unfold star_or_width. pose proof (width_loop_suffix fmt 0) as H. destruct fmt as [|c l]; [exact H|].
  repeat match goal with |- suffix_of (snd (match ?x with _ => _ end)) _ => destruct x end;
    (exact H || auto with osd).
Qed.

Lemma typed_conversion_spec dest fmt h : Forall is_char fmt ->
  directive_spec fmt h (typed_conversion dest fmt h).
Proof.
  intros Hfmt. unfold typed_conversion.
  pose proof (star_or_width_suffix fmt) as S1. destruct (star_or_width fmt) as [w f].
  pose proof (type_modifier_suffix f) as S2. destruct (type_modifier f) as [[ty b] f2]. simpl in S1, S2.
  assert (S3 : suffix_of f2 fmt) by eauto using suffix_trans.
  apply (directive_spec_suffix fmt f2); [exact S3|].
  apply scan_conversion_spec. exact (suffix_Forall _ _ _ S3 Hfmt).
Qed.

Lemma scan_directive_spec dest fmt h : Forall is_char fmt ->
  directive_spec fmt h (scan_directive dest fmt h).
Proof.
  intros Hfmt. pose proof (typed_conversion_spec dest fmt h Hfmt) as Hgen.
  assert (Hskip : forall c f, fmt = c :: f -> directive_spec fmt h (Ok (Skipped f h))).
  { intros c f ->. split; [auto with osd|]. intros r [= <-].
    split; [apply accounts_refl|auto with osd]. }
  unfold scan_directive. destruct fmt as [|c l]; [exact Hgen|].
  repeat match goal with |- directive_spec _ _ (match ?x with _ => _ end) => destruct x end;
    first [exact Hgen | exact (Hskip _ _ eq_refl)].
Qed.

(** ** The whole scan *)
Definition loop_spec (h : scanf_state) (o : outcome (Z * scanf_state)) : Prop :=
  ends o /\ forall r h', o = Ok (r, h') -> accounts h h'.

Lemma loop_spec_bind {A} h (m : outcome A) f : ends m ->
  (forall a, m = Ok a -> loop_spec h (f a)) -> loop_spec h (m ≫= f).
Proof.
  intros Hm Hf. destruct m as [a|e]; [apply Hf; reflexivity|].
  split; [exact (ends_Fault _ Hm)|discriminate].
Qed.

Lemma loop_spec_Ok h r h' : accounts h h' -> loop_spec h (Ok (r, h')).
Proof. intros Ha. split; [auto with osd|]. intros ? ? [= <- <-]. exact Ha. Qed.

Lemma scan_loop_spec raw fuel : forall fmt mc h, (length fmt < fuel)%nat -> Forall is_char fmt ->
  loop_spec h (scan_loop raw fuel mc fmt h).
Proof.
  induction fuel as [|fuel IH]; intros fmt mc h Hl Hfmt; [lia|].
  destruct fmt as [|c fmt]; cbn [scan_loop]; [apply loop_spec_Ok, accounts_refl|].
  simpl in Hl. inversion Hfmt as [|? ? Hc Hfmt']. subst.
  assert (Hnext : forall mc h1 fmt1, accounts h h1 -> suffix_of fmt1 fmt ->
    loop_spec h (scan_loop raw fuel mc fmt1 h1)).
  { intros mc1 h1 fmt1 Ha Hs. pose proof (suffix_length _ _ Hs).
    destruct (IH fmt1 mc1 h1) as [H1 H2]; [lia|exact (suffix_Forall _ _ _ Hs Hfmt')|].
    split; [exact H1|]. intros r h' Hr. exact (accounts_trans _ _ _ Ha (H2 r h' Hr)). }
  apply loop_spec_bind; [apply ends_isspace|]. intros [] _.
  { apply loop_spec_bind; [apply ends_skip_space|]. intros fmt1 H1. apply skip_space_suffix in H1.
    apply loop_spec_bind; [apply ends_skip_space|]. intros rest H2. apply skip_space_suffix in H2.
    apply Hnext; [apply accounts_set_in, H2|exact H1]. }
  destruct (negb (c =? 37) || (cur fmt =? 37)).
  { set (q := match fmt with [] => _ | _ => _ end).
    assert (Hq : suffix_of (snd q) fmt)
      by (unfold q; destruct fmt; [auto with osd|]; destruct (c =? 37); auto with osd).
    destruct q as [lit fmt1]. apply loop_spec_bind; [unfold consume; destruct (sc_in h); [destruct raw|]; discriminate|].
    intros [x h1] E. apply accounts_consume in E.
    destruct (negb (x =? lit)); [apply loop_spec_Ok, E|apply Hnext; [exact E|exact Hq]]. }
  apply loop_spec_bind.
  { destruct (cur fmt =? 42); [auto with osd|]. unfold va_arg_ptr. destruct (sc_args h); discriminate. }
  intros [dest h1] Hd.
  assert (Ha : accounts h h1).
  { destruct (cur fmt =? 42); [injection Hd as <- <-; apply accounts_refl|].
    exact (accounts_va_arg _ _ _ Hd). }
  destruct (scan_directive_spec dest fmt h1 Hfmt') as [D1 D2].
  apply loop_spec_bind; [exact D1|]. intros r Hr. specialize (D2 r Hr).
  destruct r as [fmt2 h2|fmt2 h2|h2];
    [| |apply loop_spec_Ok; exact (accounts_trans _ _ _ Ha D2)];
    (destruct D2 as [A2 S2]; apply loop_spec_bind; [apply ends_adv|]; intros fmt3 H3;
     apply adv_inv in H3 as [S3 _];
     apply Hnext; [exact (accounts_trans _ _ _ Ha A2)|exact (suffix_trans _ _ _ S3 S2)]).
Qed.

(** C10: the scan ends on every format, on a string as on a stream, and what it consumed is
    a prefix of its input whose length the handler has counted; the terminator is part of
    the input of a string. *)
Theorem do_scanf_accounts fmt inp args raw : Forall is_char fmt -> Z.of_nat (length inp) < 2 ^ 31 - 1 ->
  let scan := if raw : bool then vsscanf inp fmt args else vfscanf inp fmt args in
  let input := if raw then inp ++ [0] else inp in
  scan <> Fault OutOfFuel
  /\ forall r h', scan = Ok (r, h') ->
     exists taken, input = taken ++ sc_in h' /\ num_consumed h' = Z.of_nat (length taken).
Proof.
  intros Hf Hb scan input. assert (Es : scan = do_scanf raw fmt (mk_scanf input 0 args [])) by (unfold scan, input; destruct raw; reflexivity).
  rewrite Es. assert (Hi : Z.of_nat (length input) < 2 ^ 31) by (unfold input; destruct raw; rewrite ?length_app; simpl; lia). clearbody input. clear Es scan Hb.
  destruct (scan_loop_spec raw (S (length fmt)) fmt 0 (mk_scanf input 0 args []) ltac:(lia) Hf) as [H1 H2].
  split; [exact H1|]. intros r h' H. destruct (H2 r h' H) as (taken & E1 & E2 & E3).
  simpl in E1, E2, E3. exists taken. split; [exact E1|].
  specialize (E3 ltac:(unfold is_int; lia)).
  assert (Hl : Z.of_nat (length taken) < 2 ^ 31) by (rewrite E1, length_app in Hi; lia).
  rewrite ?Z.add_0_l in E2. rewrite (u32_small (Z.of_nat _)) in E2 by (unfold is_u32; lia).
  rewrite <- (s32_small (num_consumed h')) by exact E3.
  assert (Hs : s32 (num_consumed h') = s32 (u32 (num_consumed h'))).
  { unfold s32, swrap, u32, wrap. cbv zeta. rewrite Z.mod_mod by lia. reflexivity. }
  rewrite Hs, E2. apply s32_small. lia.
Qed.

(** ["%d%n"] on "42x", and a literal behind the end of "42". *)
Lemma do_scanf_accounts_witness :
  vsscanf [52; 50; 120] [37; 100; 37; 110] [16; 32]
    = Ok (1, mk_scanf [120; 0] 2 [] [(16, stored_int SCANF_TYPE_INT 42); (32, stored_int SCANF_TYPE_INT 2)])
  /\ (exists taken, [52; 50; 120; 0] = taken ++ [120; 0] /\ 2 = Z.of_nat (length taken))
  /\ vsscanf [52; 50] [37; 100; 44] [16] = Ok (1, mk_scanf [] 3 [] [(16, stored_int SCANF_TYPE_INT 42)])
  /\ vfscanf [52; 50] [37; 100; 44] [16] = Ok (1, mk_scanf [] 2 [] [(16, stored_int SCANF_TYPE_INT 42)]).
Proof.
  split; [reflexivity|]. split; [|split; reflexivity].
  destruct (do_scanf_accounts [37; 100; 37; 110] [52; 50; 120] [16; 32] true) as [_ H].
  - repeat constructor; unfold is_char; lia.
  - vm_compute. reflexivity.
  - eapply (H 1 (mk_scanf [120; 0] 2 [] _)). vm_compute. reflexivity.
Defined.

(** ** Agreement with the output side *)
Lemma digits_loop_spec l rest : Forall is_digit l -> (cur rest < 48 \/ 57 < cur rest) ->
  forall a, 0 <= a -> decimal l a < 2 ^ 64 -> digits_loop 57 a (l ++ rest) = (decimal l a, rest).
Proof.
  intros Hl Hrest. induction Hl as [|c l Hc Hl IH]; intros a Ha Hb.
  - simpl app. destruct rest as [|d rest]; [reflexivity|]. simpl in Hrest. cbn [digits_loop].
    destruct (Z.leb_spec 48 d), (Z.leb_spec d 57); (lia || reflexivity).
  - simpl app. cbn [digits_loop]. destruct Hc as [H1 H2].
    rewrite (proj2 (Z.leb_le _ _) H1), (proj2 (Z.leb_le _ _) H2). cbn [andb].
    change (decimal (c :: l) a) with (decimal l (a * 10 + (c - 48))) in *.
    pose proof (decimal_ge l Hl (a * 10 + (c - 48)) ltac:(lia)).
    replace (u64 (a * 10 + (c - 48))) with (a * 10 + (c - 48)); [apply IH; [lia|exact Hb]|].
    symmetry. apply Z.mod_small. lia.
Qed.

(** reading with ["%u"] (or ["%d"]) what ["%u"] printed stores the printed word,
    reports one conversion and leaves what follows the number. *)
Theorem scanf_reads_back u rest k p :
  is_u32 u -> (cur rest < 48 \/ 57 < cur rest) -> p <> 0 -> k = 117 \/ k = 100 ->
  snprintf 16 [37; 117] [va_word u]
    = Ok (number_text false 10 u, Z.of_nat (length (number_text false 10 u)))
  /\ vsscanf (number_text false 10 u ++ rest) [37; k] [p]
    = Ok (1, mk_scanf (rest ++ [0]) (Z.of_nat (length (number_text false 10 u))) []
               [(p, stored_int SCANF_TYPE_INT (s32 u))]).
Proof.
  intros Hu Hrest Hp Hk. destruct (number_text_decimal u Hu) as (H1 & H2 & _).
  pose proof Hu as [Hu1 Hu2].
  assert (Hl : (length (number_text false 10 u) <= 10)%nat).
  { unfold number_text. rewrite (digits_fuel false 10 ltac:(lia) 32 10); [apply digits_length|lia|..]; try lia;
      (apply Z.lt_le_trans with (1 := Hu2); vm_compute; congruence). }
  split.
  - pose proof (vsnprintf_spec 16 [DConv false false [] (PNum CUns u)]) as H.
    assert (Hr : render [DConv false false [] (PNum CUns u)] = number_text false 10 u).
    { unfold render. cbn [map concat render1 payload_text columns].
      rewrite (u32_small u Hu). unfold width_value. cbn [fold_left].
      replace (Z.to_nat _) with 0%nat by lia. simpl. rewrite !app_nil_r. reflexivity. }
    rewrite Hr in H. rewrite (proj2 (Z.ltb_lt _ _)) in H by lia. apply H; [lia| |lia].
    repeat constructor. discriminate.
  - assert (Hrest' : cur (rest ++ [0]) < 48 \/ 57 < cur (rest ++ [0])) by (destruct rest; exact Hrest).
    pose proof (digits_loop_spec _ (rest ++ [0]) H1 Hrest' 0 ltac:(lia) ltac:(lia)) as Hd. clear Hrest'.
    set (t := number_text false 10 u) in *. clearbody t.
    unfold vsscanf, do_scanf. rewrite <- app_assoc. set (rest0 := rest ++ [0]) in *. clearbody rest0. clear Hrest.
    assert (Hc : scan_directive p [k] (mk_scanf (t ++ rest0) 0 [] [])
      = Ok (Counted [k] (mk_scanf rest0 (Z.of_nat (length t)) [] [(p, stored_int SCANF_TYPE_INT (s32 u))]))).
    { transitivity (let '(res, r) := digits_loop 57 0 (t ++ rest0) in
        Ok (Counted [k] (emit_to p (store_int SCANF_TYPE_INT res) (set_in (mk_scanf (t ++ rest0) 0 [] []) r)))).
      { destruct Hk as [->| ->]; reflexivity. }
      rewrite Hd, H2. unfold emit_to. rewrite (proj2 (Z.eqb_neq _ _) Hp). unfold set_in. simpl.
      rewrite length_app. replace (length t + length rest0 - length rest0)%nat with (length t) by lia.
      rewrite s32_small by lia. reflexivity. }
    transitivity (r ← scan_directive p [k] (mk_scanf (t ++ rest0) 0 [] []);
      match r with
      | ReturnEOF h => Ok (EOF, h)
      | Skipped fmt h => fmt ← adv 1 fmt; scan_loop true 2 0 fmt h
      | Counted fmt h => fmt ← adv 1 fmt; scan_loop true 2 (if p =? 0 then 0 else s32 (0 + 1)) fmt h
      end).
    { destruct Hk as [->| ->]; reflexivity. }
    rewrite Hc. rewrite (proj2 (Z.eqb_neq _ _) Hp). reflexivity.
Qed.

Lemma scanf_reads_back_witness :
  vsscanf (number_text false 10 4000000000 ++ [44]) [37; 117] [64]
  = Ok (1, mk_scanf [44; 0] 10 [] [(64, stored_int SCANF_TYPE_INT (-294967296))]).
Proof.
  apply (scanf_reads_back 4000000000 [44] 117 64).
  - unfold is_u32. lia.
  - left. simpl. lia.
  - lia.
  - left. reflexivity.
Defined.

(** Hexadecimal letters count from 0: ["ff"] reads as 85, and octal digits are
    weighted by ten: ["17"] reads as 17. *)
Example scanf_hex_letters :
  vsscanf [102; 102] [37; 120] [64] = Ok (1, mk_scanf [0] 2 [] [(64, stored_int SCANF_TYPE_INT 85)]).
Proof. reflexivity. Qed.
Example scanf_octal_weight :
  vsscanf [49; 55] [37; 111] [64] = Ok (1, mk_scanf [0] 2 [] [(64, stored_int SCANF_TYPE_INT 17)]).
Proof. reflexivity. Qed.
(** A scan set consumes the character that ends it. *)
Example scanf_set_consumes :
  vsscanf [97; 44; 98] [37; 91; 97; 93; 44] [64]
  = Ok (1, mk_scanf [0] 3 [] [(64, stored_chars [97] true)]).
Proof. reflexivity. Qed.
