(* ===== verification/Liballoc.v ===== *)
(** * The heap allocator (clib/liballoc.cpp, clib/stdlib.cpp)

    Major blocks are runs of pages obtained from the system; each starts with its
    header and holds a doubly linked list of minor blocks, one per allocation.  The
    headers are kept in stores indexed by their addresses, the alignment words that
    [ALIGN] leaves below each returned pointer in a third one: that the objects do
    not overlap is the invariant of [LiballocProofs].  Reading a header where there
    is none is a [PageFault].  [size_t], [uintptr_t] and pointers are 32-bit words. *)
From S2P Require Import Prelude.
From stdpp Require Import gmap.
#[local] Open Scope Z_scope.

Record major_block := mk_major {
  maj_prev : Z; maj_next : Z; maj_pages : Z; maj_size : Z; maj_usage : Z; maj_first : Z }.
Record minor_block := mk_minor {
  min_prev : Z; min_next : Z; min_block : Z; min_magic : Z; min_size : Z; min_req_size : Z }.

Definition sizeof_major : Z := 24.
Definition sizeof_minor : Z := 24.
Definition sizeof_align_t : Z := 4.
Definition LIBALLOC_MAGIC : Z := 0xc001c0de.
Definition LIBALLOC_DEAD : Z := 0xdeaddead.
Definition l_pageSize : Z := 4096.
Definition l_pageCount : Z := 16.

(** The system functions the allocator is constructed with. *)
Class PageSource (P : Type) := {
  sys_alloc_pages : Z -> P -> Z * P;      (* number of pages; the address, or 0 *)
  sys_free_pages : Z -> Z -> P -> P }.

(** The number of entries of a store, the bound of every walk over it. *)
Definition size_of {A} (m : gmap Z A) : nat := size m.

Section allocator.
Context {P : Type} `{PageSource P}.

Record heap := mk_heap {
  majors : gmap Z major_block;
  minors : gmap Z minor_block;
  align_words : gmap Z Z;
  l_memRoot : Z; l_bestBet : Z;
  l_allocated : Z; l_inuse : Z;
  l_warningCount : Z; l_errorCount : Z; l_possibleOverruns : Z;
  l_locked : bool;
  pages : P }.

(** Field updates. *)
Definition set_majors m (h : heap) : heap := mk_heap m (minors h) (align_words h) (l_memRoot h)
  (l_bestBet h) (l_allocated h) (l_inuse h) (l_warningCount h) (l_errorCount h)
  (l_possibleOverruns h) (l_locked h) (pages h).
Definition set_minors m (h : heap) : heap := mk_heap (majors h) m (align_words h) (l_memRoot h)
  (l_bestBet h) (l_allocated h) (l_inuse h) (l_warningCount h) (l_errorCount h)
  (l_possibleOverruns h) (l_locked h) (pages h).
Definition set_words w (h : heap) : heap := mk_heap (majors h) (minors h) w (l_memRoot h)
  (l_bestBet h) (l_allocated h) (l_inuse h) (l_warningCount h) (l_errorCount h)
  (l_possibleOverruns h) (l_locked h) (pages h).
Definition set_root r (h : heap) : heap := mk_heap (majors h) (minors h) (align_words h) r
  (l_bestBet h) (l_allocated h) (l_inuse h) (l_warningCount h) (l_errorCount h)
  (l_possibleOverruns h) (l_locked h) (pages h).
Definition set_bet b (h : heap) : heap := mk_heap (majors h) (minors h) (align_words h) (l_memRoot h)
  b (l_allocated h) (l_inuse h) (l_warningCount h) (l_errorCount h)
  (l_possibleOverruns h) (l_locked h) (pages h).
Definition set_allocated a (h : heap) : heap := mk_heap (majors h) (minors h) (align_words h)
  (l_memRoot h) (l_bestBet h) (u64 a) (l_inuse h) (l_warningCount h) (l_errorCount h)
  (l_possibleOverruns h) (l_locked h) (pages h).
Definition set_inuse a (h : heap) : heap := mk_heap (majors h) (minors h) (align_words h)
  (l_memRoot h) (l_bestBet h) (l_allocated h) (u64 a) (l_warningCount h) (l_errorCount h)
  (l_possibleOverruns h) (l_locked h) (pages h).
Definition set_counts w e o (h : heap) : heap := mk_heap (majors h) (minors h) (align_words h)
  (l_memRoot h) (l_bestBet h) (l_allocated h) (l_inuse h) w e o (l_locked h) (pages h).
Definition set_lock b (h : heap) : heap := mk_heap (majors h) (minors h) (align_words h)
  (l_memRoot h) (l_bestBet h) (l_allocated h) (l_inuse h) (l_warningCount h) (l_errorCount h)
  (l_possibleOverruns h) b (pages h).
Definition set_pages p (h : heap) : heap := mk_heap (majors h) (minors h) (align_words h)
  (l_memRoot h) (l_bestBet h) (l_allocated h) (l_inuse h) (l_warningCount h) (l_errorCount h)
  (l_possibleOverruns h) (l_locked h) p.

Definition warn (h : heap) : heap :=
  set_counts (l_warningCount h + 1) (l_errorCount h) (l_possibleOverruns h) h.

(** Typed accesses through a pointer. *)
Definition get_major (a : Z) (h : heap) : outcome major_block :=
  match majors h !! a with Some m => Ok m | None => Fault PageFault end.
Definition get_minor (a : Z) (h : heap) : outcome minor_block :=
  match minors h !! a with Some m => Ok m | None => Fault PageFault end.
Definition put_major (a : Z) (m : major_block) (h : heap) : heap := set_majors (<[a := m]> (majors h)) h.
Definition put_minor (a : Z) (m : minor_block) (h : heap) : heap := set_minors (<[a := m]> (minors h)) h.

(** Assignments to one field of a header. *)
Definition with_next (m : major_block) (n : Z) : major_block :=
  mk_major (maj_prev m) n (maj_pages m) (maj_size m) (maj_usage m) (maj_first m).
Definition with_prev (m : major_block) (p : Z) : major_block :=
  mk_major p (maj_next m) (maj_pages m) (maj_size m) (maj_usage m) (maj_first m).
Definition with_usage (m : major_block) (u : Z) : major_block :=
  mk_major (maj_prev m) (maj_next m) (maj_pages m) (maj_size m) u (maj_first m).
Definition with_first (m : major_block) (f : Z) : major_block :=
  mk_major (maj_prev m) (maj_next m) (maj_pages m) (maj_size m) (maj_usage m) f.
Definition min_with_next (m : minor_block) (n : Z) : minor_block :=
  mk_minor (min_prev m) n (min_block m) (min_magic m) (min_size m) (min_req_size m).
Definition min_with_prev (m : minor_block) (p : Z) : minor_block :=
  mk_minor p (min_next m) (min_block m) (min_magic m) (min_size m) (min_req_size m).

(** [ALIGN] stores the padding just below the pointer it returns. *)
Definition ALIGN (ptr alignment : Z) (h : heap) : Z * heap :=
  let nptr := add32 ptr sizeof_align_t in
  let diff := Z.land nptr (sub32 alignment 1) in
  let offset := if negb (diff =? 0) then sub32 alignment diff else 0 in
  let nptr := add32 nptr offset in
  (nptr, set_words (<[sub32 nptr sizeof_align_t := offset]> (align_words h)) h).

Definition UNALIGN (ptr : Z) (h : heap) : outcome Z :=
  match align_words h !! sub32 ptr sizeof_align_t with
  | Some offset => Ok (sub32 ptr (add32 offset sizeof_align_t))
  | None => Fault PageFault
  end.

Definition lock (h : heap) : outcome heap :=
  if l_locked h then Fault Deadlock else Ok (set_lock true h).
Definition unlock (h : heap) : heap := set_lock false h.

Definition allocate_new_page (size : Z) (h : heap) : Z * heap :=
  let st := add32 (add32 size sizeof_major) sizeof_minor in
  let st := if st mod l_pageSize =? 0 then st / l_pageSize else st / l_pageSize + 1 in
  let st := if st <? l_pageCount then l_pageCount else st in
  let '(maj, p) := sys_alloc_pages st (pages h) in
  let h := set_pages p h in
  if maj =? 0 then (0, warn h)
  else
    let m := mk_major 0 0 st (mul32 st l_pageSize) sizeof_major 0 in
    let h := put_major maj m h in
    (maj, set_allocated (l_allocated h + maj_size m) h).

(** The common end of cases 2 to 4: account for the block and align. *)
Definition finish (maj new size align : Z) (h : heap) : outcome (Z * heap) :=
  m ← get_major maj h;
  let h := put_major maj (with_usage m (add32 (maj_usage m) (add32 size sizeof_minor))) h in
  let h := set_inuse (l_inuse h + size) h in
  let '(p, h) := ALIGN (add32 new sizeof_minor) align h in
  Ok (p, unlock h).

(** CASE 2: a brand new block. *)
Definition case2 (maj size req_size align : Z) (h : heap) : outcome (Z * heap) :=
  m ← get_major maj h;
  let first := add32 maj sizeof_major in
  let h := put_major maj (with_first m first) h in
  let h := put_minor first (mk_minor 0 0 maj LIBALLOC_MAGIC size req_size) h in
  finish maj first size align h.

(** CASE 3: space at the start of the block. *)
Definition case3 (maj size req_size align : Z) (h : heap) : outcome (Z * heap) :=
  m ← get_major maj h;
  f ← get_minor (maj_first m) h;
  let new := add32 maj sizeof_major in
  let h := put_minor (maj_first m) (min_with_prev f new) h in
  let h := put_minor new (mk_minor 0 (maj_first m) maj LIBALLOC_MAGIC size req_size) h in
  let h := put_major maj (with_first m new) h in
  finish maj new size align h.

(** CASE 4.1: after the last minor; CASE 4.2: between two minors. *)
Definition case41 (maj min size req_size align : Z) (h : heap) : outcome (Z * heap) :=
  m ← get_minor min h;
  let new := add32 (add32 min sizeof_minor) (min_size m) in
  let h := put_minor min (min_with_next m new) h in
  let h := put_minor new (mk_minor min 0 maj LIBALLOC_MAGIC size req_size) h in
  finish maj new size align h.

Definition case42 (maj min size req_size align : Z) (h : heap) : outcome (Z * heap) :=
  m ← get_minor min h;
  let new := add32 (add32 min sizeof_minor) (min_size m) in
  n ← get_minor (min_next m) h;
  let h := put_minor new (mk_minor min (min_next m) maj LIBALLOC_MAGIC size req_size) h in
  let h := put_minor (min_next m) (min_with_prev n new) h in
  let h := put_minor min (min_with_next m new) h in
  finish maj new size align h.

(** The walk over the minors of [maj]; [None] when no gap is large enough. *)
Fixpoint minor_loop (fuel : nat) (maj min size req_size align : Z) (h : heap)
  : outcome (option (Z * heap)) :=
  match fuel with
  | O => Fault OutOfFuel
  | S fuel =>
    if min =? 0 then Ok None
    else
      mj ← get_major maj h;
      m ← get_minor min h;
      if min_next m =? 0 then
        let diff := sub32 (sub32 (sub32 (add32 maj (maj_size mj)) min) sizeof_minor) (min_size m) in
        if add32 size sizeof_minor <=? diff then
          r ← case41 maj min size req_size align h; Ok (Some r)
        else minor_loop fuel maj (min_next m) size req_size align h
      else
        let diff := sub32 (sub32 (sub32 (min_next m) min) sizeof_minor) (min_size m) in
        if add32 size sizeof_minor <=? diff then
          r ← case42 maj min size req_size align h; Ok (Some r)
        else minor_loop fuel maj (min_next m) size req_size align h
  end.

(** [maj->next = allocate_new_page(size)] and, when there is a page, its back link. *)
Definition extend (maj size : Z) (h : heap) : outcome (Z * heap) :=
  let '(new, h) := allocate_new_page size h in
  m ← get_major maj h;
  let h := put_major maj (with_next m new) h in
  if new =? 0 then Ok (0, h)
  else n ← get_major new h; Ok (new, put_major new (with_prev n maj) h).

(** CASES 2 to 4 on one major block. *)
Definition try_major (maj size req_size align : Z) (h : heap) : outcome (option (Z * heap)) :=
  m ← get_major maj h;
  if maj_first m =? 0 then r ← case2 maj size req_size align h; Ok (Some r)
  else
    let diff := sub32 (sub32 (maj_first m) maj) sizeof_major in
    if add32 size sizeof_minor <=? diff then
      r ← case3 maj size req_size align h; Ok (Some r)
    else minor_loop (S (size_of (minors h))) maj (maj_first m) size req_size align h.

(** [while(maj != NULL)]: CASE 1 first, CASE 5 when no case applied. *)
Fixpoint major_loop (fuel : nat) (maj : Z) (startedBet : bool) (bestSize size req_size align : Z)
  (h : heap) : outcome (Z * heap) :=
  match fuel with
  | O => Fault OutOfFuel
  | S fuel =>
    if maj =? 0 then Ok (0, unlock h)
    else
      m ← get_major maj h;
      let diff := sub32 (maj_size m) (maj_usage m) in
      let '(h, bestSize) := if bestSize <? diff then (set_bet maj h, diff) else (h, bestSize) in
      let body maj h :=
        r ← try_major maj size req_size align h;
        match r with
        | Some r => Ok r
        | None =>
          m ← get_major maj h;
          if maj_next m =? 0 then
            if startedBet then major_loop fuel (l_memRoot h) false bestSize size req_size align h
            else
              '(new, h) ← extend maj size h;
              if new =? 0 then Ok (0, unlock h)
              else major_loop fuel new startedBet bestSize size req_size align h
          else major_loop fuel (maj_next m) startedBet bestSize size req_size align h
        end in
      if diff <? add32 size sizeof_minor then
        if negb (maj_next m =? 0) then
          major_loop fuel (maj_next m) startedBet bestSize size req_size align h
        else if startedBet then
          major_loop fuel (l_memRoot h) false bestSize size req_size align h
        else
          '(new, h) ← extend maj size h;
          if new =? 0 then Ok (0, unlock h) else body new h
      else body maj h
  end.

(** Where the walk starts. *)
Definition best_bet (size : Z) (h : heap) : outcome (Z * bool * Z) :=
  if l_bestBet h =? 0 then Ok (l_memRoot h, false, 0)
  else
    b ← get_major (l_bestBet h) h;
    let bestSize := sub32 (maj_size b) (maj_usage b) in
    if add32 size sizeof_minor <? bestSize then Ok (l_bestBet h, true, bestSize)
    else Ok (l_memRoot h, false, bestSize).

(** Enough iterations: the list from the best bet, then the whole list, and the
    blocks added at its end. *)
Definition major_fuel (h : heap) : nat := 2 * size_of (majors h) + 4.

Fixpoint malloc_bytes (fuel : nat) (req_size align : Z) (h : heap) : outcome (Z * heap) :=
  match fuel with
  | O => Fault OutOfFuel
  | S fuel =>
    let size := add32 req_size (add32 sizeof_align_t (sub32 align 1)) in
    h ← lock h;
    if size =? 0 then malloc_bytes fuel 1 align (unlock (warn h))
    else
      let '(root, h) :=
        if l_memRoot h =? 0 then
          let '(maj, h) := allocate_new_page size h in (maj, set_root maj h)
        else (l_memRoot h, h) in
      if root =? 0 then Ok (0, unlock h)
      else
        '(maj, startedBet, bestSize) ← best_bet size h;
        major_loop (major_fuel h) maj startedBet bestSize size req_size align h
  end.

(** A header that is not [LIBALLOC_MAGIC]: count the error, and a possible overrun. *)
Definition bad_magic (magic : Z) (h : heap) : heap :=
  let overrun := (Z.land magic 0xFFFFFF =? Z.land LIBALLOC_MAGIC 0xFFFFFF)
              || (Z.land magic 0xFFFF =? Z.land LIBALLOC_MAGIC 0xFFFF)
              || (Z.land magic 0xFF =? Z.land LIBALLOC_MAGIC 0xFF) in
  set_counts (l_warningCount h) (l_errorCount h + 1)
             (if overrun then l_possibleOverruns h + 1 else l_possibleOverruns h) h.

(** Unlink a minor block from its list. *)
Definition unlink_minor (m : minor_block) (h : heap) : outcome heap :=
  h ← (if min_next m =? 0 then Ok h
       else n ← get_minor (min_next m) h;
            Ok (put_minor (min_next m) (min_with_prev n (min_prev m)) h));
  h ← (if min_prev m =? 0 then Ok h
       else p ← get_minor (min_prev m) h;
            Ok (put_minor (min_prev m) (min_with_next p (min_next m)) h));
  if min_prev m =? 0 then
    mj ← get_major (min_block m) h;
    Ok (put_major (min_block m) (with_first mj (min_next m)) h)
  else Ok h.

(** Release an empty major block: its pages, and every header in them, are gone. *)
Definition drop_range {A} (a n : Z) (m : gmap Z A) : gmap Z A :=
  filter (fun kv => ~ (a <= kv.1 < a + n)) m.

Definition release_major (maj : Z) (h : heap) : outcome heap :=
  m ← get_major maj h;
  let h := if l_memRoot h =? maj then set_root (maj_next m) h else h in
  let h := if l_bestBet h =? maj then set_bet 0 h else h in
  h ← (if maj_prev m =? 0 then Ok h
       else p ← get_major (maj_prev m) h; Ok (put_major (maj_prev m) (with_next p (maj_next m)) h));
  h ← (if maj_next m =? 0 then Ok h
       else n ← get_major (maj_next m) h; Ok (put_major (maj_next m) (with_prev n (maj_prev m)) h));
  let h := set_allocated (l_allocated h - maj_size m) h in
  let h := set_majors (drop_range maj (maj_pages m * l_pageSize) (majors h)) h in
  let h := set_minors (drop_range maj (maj_pages m * l_pageSize) (minors h)) h in
  let h := set_words (drop_range maj (maj_pages m * l_pageSize) (align_words h)) h in
  Ok (set_pages (sys_free_pages maj (maj_pages m) (pages h)) h).

Definition free_bytes (to_free : Z) (h : heap) : outcome heap :=
  if to_free =? 0 then Ok (warn h)
  else
    ptr ← UNALIGN to_free h;
    h ← lock h;
    let min := sub32 ptr sizeof_minor in
    m ← get_minor min h;
    if negb (min_magic m =? LIBALLOC_MAGIC) then Ok (unlock (bad_magic (min_magic m) h))
    else
      let maj := min_block m in
      let h := set_inuse (l_inuse h - min_size m) h in
      mj ← get_major maj h;
      let h := put_major maj (with_usage mj (sub32 (maj_usage mj) (add32 (min_size m) sizeof_minor))) h in
      let h := put_minor min (mk_minor (min_prev m) (min_next m) maj LIBALLOC_DEAD
                                (min_size m) (min_req_size m)) h in
      h ← unlink_minor m h;
      mj ← get_major maj h;
      h ← (if maj_first mj =? 0 then release_major maj h
           else if l_bestBet h =? 0 then Ok h
           else
             b ← get_major (l_bestBet h) h;
             let bestSize := sub32 (maj_size b) (maj_usage b) in
             let majSize := sub32 (maj_size mj) (maj_usage mj) in
             Ok (if bestSize <? majSize then set_bet maj h else h));
      Ok (unlock h).

(** The contents of allocated memory: bytes by address. *)
Definition memory := Z -> Z.
Definition liballoc_memset (s c n : Z) (m : memory) : memory :=
  fun a => if (s <=? a) && (a <? s + n) then c else m a.
Definition liballoc_memcpy (s1 s2 n : Z) (m : memory) : memory :=
  fun a => if (s1 <=? a) && (a <? s1 + n) then m (a - s1 + s2) else m a.

Definition calloc_bytes (nobj size align : Z) (h : heap) (mem : memory)
  : outcome (Z * heap * memory) :=
  let real_size := mul32 nobj size in
  '(p, h) ← malloc_bytes 2 real_size align h;
  if (p =? 0) && negb (real_size =? 0) then Fault PageFault
  else Ok (p, h, liballoc_memset p 0 real_size mem).

Definition realloc_bytes (p size align : Z) (h : heap) (mem : memory)
  : outcome (Z * heap * memory) :=
  if size =? 0 then h ← free_bytes p h; Ok (0, h, mem)
  else if p =? 0 then '(q, h) ← malloc_bytes 2 size align h; Ok (q, h, mem)
  else
    ptr ← UNALIGN p h;
    h ← lock h;
    let min := sub32 ptr sizeof_minor in
    m ← get_minor min h;
    if negb (min_magic m =? LIBALLOC_MAGIC) then
      Ok (0, unlock (bad_magic (min_magic m) h), mem)
    else
      let real_size := min_req_size m in
      if size <=? real_size then
        let h := put_minor min (mk_minor (min_prev m) (min_next m) (min_block m) (min_magic m)
                                  (min_size m) size) h in
        Ok (p, unlock h, mem)
      else
        let h := unlock h in
        '(new_block, h) ← malloc_bytes 2 size align h;
        if (new_block =? 0) && negb (real_size =? 0) then Fault PageFault
        else
          let mem := liballoc_memcpy new_block p real_size mem in
          h ← free_bytes p h;
          Ok (new_block, h, mem).

(** [malloc], [calloc], [realloc], [aligned_alloc] and [free] of stdlib.cpp. *)
Definition clib_default_align : Z := 4.
Definition aligned_alloc (alignment size : Z) := malloc_bytes 2 size alignment.
Definition malloc (n : Z) := malloc_bytes 2 n clib_default_align.
Definition realloc (ptr size : Z) := realloc_bytes ptr size clib_default_align.
Definition calloc (num size : Z) := calloc_bytes num size clib_default_align.
Definition free (p : Z) := free_bytes p.
End allocator.
Arguments heap P : clear implicits.
