(* ===== verification/LiballocChains.v ===== *)
(** * The heap allocator: chains of blocks and the insertion cases *)
From S2P Require Import Prelude Liballoc.
From stdpp Require Import gmap sets.
#[local] Open Scope Z_scope.

(** ** What the allocator relies on in the page source *)
Class PageSourceLaws (P : Type) `{PageSource P} := {
  owned : P -> gmap Z Z;    (* the regions handed out: address and number of pages *)
  owned_ok p a n : owned p !! a = Some n ->
    0 < a /\ a mod 4096 = 0 /\ 0 < n /\ a + n * 4096 < 2 ^ 32;
  owned_disjoint p a n b m : owned p !! a = Some n -> owned p !! b = Some m -> a <> b ->
    a + n * 4096 <= b \/ b + m * 4096 <= a;
  sys_alloc_spec n p a p' : 0 < n -> sys_alloc_pages n p = (a, p') ->
    (a = 0 /\ owned p' = owned p)
    \/ (a <> 0 /\ owned p !! a = None /\ owned p' = <[a := n]> (owned p));
  sys_free_spec a n p : owned p !! a = Some n -> owned (sys_free_pages a n p) = delete a (owned p) }.

(** ** Chains of minor blocks *)

(** The alignment word of the block at [a] is at offset [o] of its payload. *)
Definition word_ok (ws : gmap Z Z) (a : Z) (m : minor_block) (o : Z) : Prop :=
  0 <= o /\ ws !! (a + 24 + o) = Some o /\ 0 <= min_req_size m /\ o + 4 + min_req_size m <= min_size m.

Definition node_ok (ws : gmap Z Z) (maj prev lo hi a : Z) (m : minor_block) : Prop :=
  0 < a /\ lo <= a /\ a + 24 + min_size m <= hi /\ min_prev m = prev /\ min_block m = maj
  /\ min_magic m = LIBALLOC_MAGIC /\ exists o, word_ok ws a m o.

(** The list of headers that starts at [p], laid out in order between [lo] and [hi]. *)
Fixpoint minor_chain (ms : gmap Z minor_block) (ws : gmap Z Z) (maj prev lo hi p : Z) (l : list Z)
  : Prop :=
  match l with
  | [] => p = 0 /\ lo <= hi
  | a :: l => p = a /\ exists m, ms !! a = Some m /\ node_ok ws maj prev lo hi a m
      /\ minor_chain ms ws maj a (a + 24 + min_size m) hi (min_next m) l
  end.

(** The bytes the blocks of a chain take, headers included. *)
Fixpoint total (ms : gmap Z minor_block) (l : list Z) : Z :=
  match l with
  | [] => 0
  | a :: l => 24 + (match ms !! a with Some m => min_size m | None => 0 end) + total ms l
  end.

Lemma word_ok_size ws a m o : word_ok ws a m o -> 4 <= min_size m.
Proof. intros (H1 & _ & H2 & H3). lia. Qed.

Lemma chain_bounds ms ws maj hi l : forall prev lo p, minor_chain ms ws maj prev lo hi p l ->
  lo <= hi /\ (forall a, a ∈ l -> 0 < a /\ lo <= a /\ exists m, ms !! a = Some m /\ min_block m = maj
     /\ a + 24 + min_size m <= hi /\ min_magic m = LIBALLOC_MAGIC /\ exists o, word_ok ws a m o).
Proof.
  induction l as [|a l IH]; intros prev lo p H.
  - destruct H as [_ H]. split; [exact H|]. intros a Ha. inversion Ha.
  - destruct H as (-> & m & Hm & (N1 & N2 & N3 & N4 & N5 & N6 & o & N7) & Hc).
    pose proof (word_ok_size _ _ _ _ N7). destruct (IH _ _ _ Hc) as [I1 I2].
    split; [lia|]. intros x Hx. apply elem_of_cons in Hx as [->|Hx].
    + split; [lia|]. split; [lia|]. eauto 10.
    + destruct (I2 x Hx) as (J1 & J2 & J3). split; [lia|]. split; [lia|exact J3].
Qed.

Lemma chain_total ms ws maj hi l : forall prev lo p, minor_chain ms ws maj prev lo hi p l ->
  0 <= total ms l <= hi - lo.
Proof.
  induction l as [|a l IH]; intros prev lo p H; simpl.
  - destruct H. lia.
  - destruct H as (-> & m & Hm & (N1 & N2 & N3 & N4 & N5 & N6 & o & N7) & Hc).
    specialize (IH _ _ _ Hc). pose proof (word_ok_size _ _ _ _ N7). rewrite Hm. lia.
Qed.

Lemma chain_NoDup ms ws maj hi l : forall prev lo p, minor_chain ms ws maj prev lo hi p l -> NoDup l.
Proof.
  induction l as [|a l IH]; intros prev lo p H; [constructor|].
  destruct H as (-> & m & Hm & (N1 & N2 & N3 & N4 & N5 & N6 & o & N7) & Hc).
  constructor; [|eauto]. intros Ha. destruct (chain_bounds _ _ _ _ _ _ _ _ Hc) as [_ H].
  destruct (H a Ha) as (_ & H2 & _). pose proof (word_ok_size _ _ _ _ N7). lia.
Qed.

(** Only the headers of the chain and the words of their payloads matter. *)
Lemma chain_frame ms ms' ws ws' maj hi l : forall prev lo p,
  minor_chain ms ws maj prev lo hi p l ->
  (forall a, a ∈ l -> ms' !! a = ms !! a) ->
  (forall x, lo <= x < hi -> ws' !! x = ws !! x) ->
  minor_chain ms' ws' maj prev lo hi p l.
Proof.
  induction l as [|a l IH]; intros prev lo p H Hms Hws; [exact H|].
  destruct H as (-> & m & Hm & (N1 & N2 & N3 & N4 & N5 & N6 & o & W1 & W2 & W3 & W4) & Hc).
  split; [reflexivity|]. exists m. split; [rewrite Hms; [exact Hm|set_solver]|]. split.
  - repeat (split; [assumption|]). exists o. split; [exact W1|]. split; [|auto].
    rewrite Hws by lia. exact W2.
  - apply IH; [exact Hc|set_solver|]. intros x Hx. apply Hws. lia.
Qed.

Lemma total_frame ms ms' l : (forall a, a ∈ l -> ms' !! a = ms !! a) -> total ms' l = total ms l.
Proof.
  induction l as [|a l IH]; intros H; [reflexivity|]. simpl.
  rewrite H by set_solver. rewrite IH by set_solver. reflexivity.
Qed.

(** The first header's back link. *)
Lemma chain_set_prev ms ws maj hi l prev lo p m q : minor_chain ms ws maj prev lo hi p (p :: l) ->
  ms !! p = Some m -> forall lo', lo' <= p ->
  minor_chain (<[p := min_with_prev m q]> ms) ws maj q lo' hi p (p :: l).
Proof.
  intros H Hm lo' Hlo. pose proof (chain_NoDup _ _ _ _ _ _ _ _ H) as Hnd. inversion Hnd as [|? ? Hp _].
  destruct H as (_ & m' & Hm' & (N1 & N2 & N3 & N4 & N5 & N6 & o & W) & Hc).
  simplify_eq. split; [reflexivity|]. exists (min_with_prev m' q). rewrite lookup_insert_eq.
  split; [reflexivity|]. split.
  - split; [exact N1|]. split; [exact Hlo|]. split; [exact N3|]. split; [reflexivity|].
    split; [reflexivity|]. split; [exact N6|]. exists o. exact W.
  - apply (chain_frame ms _ ws ws); [exact Hc| |reflexivity].
    intros a Ha. apply lookup_insert_ne. intros ->. contradiction.
Qed.

(** A chain that may start later. *)
Lemma chain_lower ms ws maj hi l prev lo p : minor_chain ms ws maj prev lo hi p l ->
  forall lo', lo' <= lo -> minor_chain ms ws maj prev lo' hi p l.
Proof.
  destruct l as [|a l]; intros H lo' Hlo.
  - destruct H. split; [assumption|lia].
  - destruct H as (-> & m & Hm & (N1 & N2 & N3) & Hc). split; [reflexivity|].
    exists m. split; [exact Hm|]. split; [split; [exact N1|split; [lia|exact N3]]|exact Hc].
Qed.

(** Inserting a header [b] between [lo] and the chain [l], whose predecessor is [prev]. *)
Lemma chain_insert ms ms' ws ws' maj hi l prev p b nm :
  minor_chain ms ws maj prev b hi p l ->
  b + 24 + min_size nm <= match l with [] => hi | c :: _ => c end ->
  0 < b -> min_prev nm = prev -> min_next nm = p -> min_block nm = maj ->
  min_magic nm = LIBALLOC_MAGIC -> (exists o, word_ok ws' b nm o) ->
  ms' !! b = Some nm ->
  (forall c l', l = c :: l' -> forall m, ms !! c = Some m -> ms' !! c = Some (min_with_prev m b)) ->
  (forall c l', l = c :: l' -> forall x, x ∈ l' -> ms' !! x = ms !! x) ->
  (forall x, b + 24 + min_size nm <= x < hi -> ws' !! x = ws !! x) ->
  minor_chain ms' ws' maj prev b hi b (b :: l).
Proof.
  intros Hc Hgap Hb E1 E2 E3 E4 [o W] Hb' Hhead Htail Hws.
  pose proof (word_ok_size _ _ _ _ W) as Hs.
  assert (Hhi : b + 24 + min_size nm <= hi).
  { destruct l as [|c l]; [exact Hgap|]. destruct Hc as (-> & m & Hm & (N1 & N2 & N3 & _ & _ & _ & o' & W') & _).
    simpl in Hgap. pose proof (word_ok_size _ _ _ _ W'). lia. }
  split; [reflexivity|]. exists nm. split; [exact Hb'|]. split.
  { split; [exact Hb|]. split; [lia|]. split; [exact Hhi|]. split; [exact E1|]. split; [exact E3|].
    split; [exact E4|]. exists o. exact W. }
  rewrite E2. destruct l as [|c l].
  - destruct Hc as [-> _]. split; [reflexivity|exact Hhi].
  - destruct Hc as (-> & m & Hm & (N1 & N2 & N3 & N4 & N5 & N6 & o' & W1 & W2 & W3 & W4) & Hc).
    simpl in Hgap.
    split; [reflexivity|]. exists (min_with_prev m b). split; [exact (Hhead c l eq_refl m Hm)|]. split.
    + split; [exact N1|]. split; [lia|]. split; [exact N3|]. split; [reflexivity|].
      split; [exact N5|]. split; [exact N6|]. exists o'. split; [exact W1|]. split; [|auto].
      rewrite Hws by lia. exact W2.
    + apply (chain_frame ms _ ws _); [exact Hc|exact (Htail c l eq_refl)|].
      intros x Hx. apply Hws. simpl in Hx. lia.
Qed.

(** Inserting it behind the header [a]. *)
Lemma chain_insert_after ms ms' ws ws' maj hi l prev lo a m nm :
  minor_chain ms ws maj prev lo hi a (a :: l) -> ms !! a = Some m ->
  let b := a + 24 + min_size m in
  b + 24 + min_size nm <= match l with [] => hi | c :: _ => c end ->
  min_prev nm = a -> min_next nm = min_next m -> min_block nm = maj ->
  min_magic nm = LIBALLOC_MAGIC -> (exists o, word_ok ws' b nm o) ->
  ms' !! b = Some nm -> ms' !! a = Some (min_with_next m b) ->
  (forall c l', l = c :: l' -> forall m, ms !! c = Some m -> ms' !! c = Some (min_with_prev m b)) ->
  (forall c l', l = c :: l' -> forall x, x ∈ l' -> ms' !! x = ms !! x) ->
  (forall x, lo <= x < b \/ b + 24 + min_size nm <= x < hi -> ws' !! x = ws !! x) ->
  minor_chain ms' ws' maj prev lo hi a (a :: b :: l).
Proof.
  intros Hc Hm b Hgap E1 E2 E3 E4 W Hb Ha Hhead Htail Hws.
  destruct Hc as (_ & m' & Hm' & (N1 & N2 & N3 & N4 & N5 & N6 & o & W1 & W2 & W3 & W4) & Hc).
  assert (m' = m) by congruence. subst m'.
  split; [reflexivity|]. exists (min_with_next m b). split; [exact Ha|]. split.
  - split; [exact N1|]. split; [exact N2|]. split; [exact N3|]. split; [exact N4|].
    split; [exact N5|]. split; [exact N6|]. exists o. split; [exact W1|]. split; [|auto].
    rewrite Hws by lia. exact W2.
  - apply (chain_insert ms _ ws _ maj hi l a (min_next m) b nm); try assumption.
    + unfold b. lia.
    + intros x Hx. apply Hws. lia.
Qed.

(** ** The walk over one chain *)
Definition in_block (a n x : Z) : Prop := a <= x < a + n.

Lemma align_mask x k : 0 <= k -> Z.land x (2 ^ k - 1) = x mod 2 ^ k.
Proof. apply land_low_mask. Qed.

(** What [ALIGN] returns and stores. *)
Lemma ALIGN_spec {P} ptr k (h : heap P) : 0 <= k < 31 -> 0 <= ptr -> ptr + 4 + 2 ^ k <= 2 ^ 32 ->
  exists o, 0 <= o < 2 ^ k /\ (ptr + 4 + o) mod 2 ^ k = 0
    /\ ALIGN ptr (2 ^ k) h = (ptr + 4 + o, set_words (<[ptr + o := o]> (align_words h)) h).
Proof.
  intros Hk Hp Hb. unfold ALIGN, sizeof_align_t.
  assert (H2 : 0 < 2 ^ k) by (apply Z.pow_pos_nonneg; lia).
  rewrite (add32_small ptr 4) by lia. rewrite (sub32_small (2 ^ k) 1) by lia.
  rewrite land_low_mask by lia. pose proof (Z.mod_pos_bound (ptr + 4) (2 ^ k) H2).
  set (d := (ptr + 4) mod 2 ^ k) in *.
  pose proof (Z.div_mod (ptr + 4) (2 ^ k) ltac:(lia)) as E. fold d in E.
  destruct (Z.eqb_spec d 0) as [Ed|Ed]; cbn [negb].
  - exists 0. split; [lia|]. rewrite !Z.add_0_r. split; [exact Ed|].
    rewrite add32_small by lia. rewrite sub32_small by lia.
    replace (ptr + 4 + 0 - 4) with ptr by lia. rewrite Z.add_0_r. reflexivity.
  - exists (2 ^ k - d). split; [lia|]. rewrite (sub32_small (2 ^ k) d) by lia. split.
    + replace (ptr + 4 + (2 ^ k - d)) with (((ptr + 4) / 2 ^ k + 1) * 2 ^ k) by lia. apply Z.mod_mul. lia.
    + rewrite add32_small by lia. rewrite sub32_small by lia.
      replace (ptr + 4 + (2 ^ k - d) - 4) with (ptr + (2 ^ k - d)) by lia. reflexivity.
Qed.

Section allocator_proofs.
Context {P : Type} `{PageSourceLaws P}.
Implicit Types h : heap P.

(** A request of [req] bytes at alignment [2 ^ k]. *)
Context (req k : Z) (Hreq : 0 <= req) (Hk : 0 <= k < 13).
Definition rsize : Z := req + 4 + (2 ^ k - 1).
Context (Hfit : rsize + 48 + 4096 < 2 ^ 32).

Lemma pow_k : 0 < 2 ^ k <= 4096.
Proof using Hk.
  split; [apply Z.pow_pos_nonneg; lia|]. change 4096 with (2 ^ 12). apply Z.pow_le_mono_r; lia.
Qed.
Lemma rsize_range : 4 <= rsize < 2 ^ 32 - 4144.
Proof using Hk Hreq Hfit. pose proof pow_k. unfold rsize in *. lia. Qed.

(** Headers keep their size, request, owner and magic. *)
Definition same_block (m m' : minor_block) : Prop :=
  min_size m' = min_size m /\ min_req_size m' = min_req_size m /\ min_block m' = min_block m
  /\ min_magic m' = min_magic m.

(** [h'] is [h] with a block [b] of the request inserted in the chain segment [l]. *)
Definition inserted (h h' : heap P) (maj hi prev lo f : Z) (l : list Z) (p : Z) (b o : Z) (l' : list Z) : Prop :=
  p = b + 28 + o /\ p mod 2 ^ k = 0 /\ 0 <= o < 2 ^ k
  /\ align_words h' = <[b + 24 + o := o]> (align_words h)
  /\ minor_chain (minors h') (align_words h') maj prev lo hi f l'
  /\ l' ≡ₚ b :: l
  /\ (forall x, x ∉ l' -> minors h' !! x = minors h !! x)
  /\ (forall x m, x ∈ l -> minors h !! x = Some m ->
        exists m', minors h' !! x = Some m' /\ same_block m m')
  /\ (exists nm, minors h' !! b = Some nm /\ min_size nm = rsize /\ min_req_size nm = req).

(** The parts of the heap outside the minors and words. *)
Definition same_rest (h h' : heap P) (maj : Z) (M' : major_block) : Prop :=
  majors h' = <[maj := M']> (majors h) /\ l_memRoot h' = l_memRoot h /\ l_bestBet h' = l_bestBet h
  /\ l_locked h' = false /\ pages h' = pages h.

Lemma finish_spec h maj M new : majors h !! maj = Some M -> 0 <= maj_usage M ->
  maj_usage M + rsize + 24 < 2 ^ 32 -> 0 <= new -> new + 24 + rsize < 2 ^ 32 ->
  exists o, 0 <= o < 2 ^ k /\ (new + 28 + o) mod 2 ^ k = 0 /\
    exists h', finish maj new rsize (2 ^ k) h = Ok (new + 28 + o, h')
    /\ same_rest h h' maj (with_usage M (maj_usage M + rsize + 24))
    /\ align_words h' = <[new + 24 + o := o]> (align_words h) /\ minors h' = minors h.
Proof using Hk Hreq Hfit.
  intros HM Hu1 Hu2 Hn1 Hn2. pose proof pow_k. pose proof rsize_range. unfold finish, get_major.
  rewrite HM. cbn [mbind outcome_bind].
  unfold sizeof_minor. rewrite (add32_small rsize 24) by lia.
  rewrite (add32_small (maj_usage M)) by lia. rewrite (add32_small new 24) by lia.
  set (h1 := set_inuse _ _).
  destruct (ALIGN_spec (new + 24) k h1) as (o & O1 & O2 & O3); [lia|lia|unfold rsize in Hn2; lia|].
  exists o. split; [exact O1|].
  replace (new + 28 + o) with (new + 24 + 4 + o) by lia. split; [exact O2|].
  rewrite O3. eexists. split; [reflexivity|].
  split; [|split; [unfold h1; simpl; reflexivity|reflexivity]].
  replace (maj_usage M + rsize + 24) with (maj_usage M + (rsize + 24)) by lia.
  repeat split.
Qed.

(** The alignment word of the new block. *)
Lemma new_word ws b o nm : 0 <= o < 2 ^ k -> ws !! (b + 24 + o) = Some o ->
  min_size nm = rsize -> min_req_size nm = req -> word_ok ws b nm o.
Proof using Hreq. intros Ho Hw E1 E2. unfold word_ok. rewrite E1, E2. unfold rsize. auto with lia. Qed.

(** CASE 2. *)
Lemma case2_spec h maj M : majors h !! maj = Some M -> 0 < maj -> maj + maj_size M < 2 ^ 32 ->
  maj_usage M = 24 -> 24 + rsize + 24 <= maj_size M ->
  exists p h' b o l', case2 maj rsize req (2 ^ k) h = Ok (p, h')
    /\ same_rest h h' maj (with_usage (with_first M b) (maj_usage M + rsize + 24))
    /\ inserted h h' maj (maj + maj_size M) 0 (maj + 24) b [] p b o l'.
Proof using Hk Hreq Hfit.
  intros HM Hmaj Hb Hu Hs. pose proof rsize_range. pose proof pow_k. unfold case2, get_major. rewrite HM.
  cbn [mbind outcome_bind]. unfold sizeof_major. rewrite (add32_small maj 24) by lia.
  set (nm := mk_minor 0 0 maj LIBALLOC_MAGIC rsize req).
  set (h1 := put_minor _ _ _).
  destruct (finish_spec h1 maj (with_first M (maj + 24)) (maj + 24)) as (o & O1 & O2 & h' & E & R & W & Hmin);
    [unfold h1; simpl; apply lookup_insert_eq|simpl; lia..|].
  exists (maj + 24 + 28 + o), h', (maj + 24), o, [maj + 24]. split; [exact E|]. split.
  { destruct R as (R1 & R2). split; [|exact R2]. rewrite R1. unfold h1. simpl. apply insert_insert_eq. }
  assert (Hw : word_ok (align_words h') (maj + 24) nm o).
  { apply new_word; [exact O1|rewrite W; apply lookup_insert_eq|reflexivity|reflexivity]. }
  assert (Hm : minors h' = <[maj + 24 := nm]> (minors h)) by (rewrite Hmin; reflexivity).
  split; [reflexivity|]. split; [exact O2|]. split; [exact O1|]. split; [exact W|]. split.
  { apply (chain_insert (minors h) _ (align_words h) _ maj _ [] 0 0 (maj + 24) nm); simpl; try reflexivity; try lia.
    - eauto.
    - rewrite Hm. apply lookup_insert_eq.
    - intros c l' [=].
    - intros c l' [=].
    - intros x Hx. rewrite W. apply lookup_insert_ne. unfold rsize in Hx. lia. }
  split; [reflexivity|]. split.
  { intros x Hx. rewrite Hm. apply lookup_insert_ne. intros <-. apply Hx. set_solver. }
  split; [intros x m Hx; inversion Hx|].
  exists nm. split; [rewrite Hm; apply lookup_insert_eq|]. split; reflexivity.
Qed.

(** CASE 3. *)
Lemma case3_spec h maj M f l : majors h !! maj = Some M -> 0 < maj -> maj + maj_size M < 2 ^ 32 ->
  maj_first M = f ->
  minor_chain (minors h) (align_words h) maj 0 (maj + 24) (maj + maj_size M) f (f :: l) ->
  0 <= maj_usage M -> maj_usage M + rsize + 24 < 2 ^ 32 ->
  maj + 24 + 24 + rsize <= f ->
  exists p h' b o l', case3 maj rsize req (2 ^ k) h = Ok (p, h')
    /\ same_rest h h' maj (with_usage (with_first M b) (maj_usage M + rsize + 24))
    /\ inserted h h' maj (maj + maj_size M) 0 (maj + 24) b (f :: l) p b o l'.
Proof using Hk Hreq Hfit.
  intros HM Hmaj Hb Hf Hc Hu1 Hu2 Hs. pose proof rsize_range as Hrs.
  pose proof (chain_NoDup _ _ _ _ _ _ _ _ Hc) as Hnd. inversion Hnd as [|? ? Hfl Hnd']. subst x l0.
  destruct (chain_bounds _ _ _ _ _ _ _ _ Hc) as [Hhi Hin].
  destruct (Hin f ltac:(set_solver)) as (F1 & F2 & m & Hm & _ & F3 & _ & o' & W').
  apply word_ok_size in W'.
  unfold case3, get_major, get_minor. rewrite HM. cbn [mbind outcome_bind]. rewrite Hf, Hm.
  cbn [mbind outcome_bind]. unfold sizeof_major. rewrite (add32_small maj 24) by lia.
  set (nm := mk_minor 0 f maj LIBALLOC_MAGIC rsize req). set (h1 := put_major _ _ _).
  destruct (finish_spec h1 maj (with_first M (maj + 24)) (maj + 24)) as (o & O1 & O2 & h' & E & R & W & Hmin);
    [unfold h1; simpl; apply lookup_insert_eq|simpl; lia..|].
  exists (maj + 24 + 28 + o), h', (maj + 24), o, (maj + 24 :: f :: l). split; [exact E|]. split.
  { destruct R as (R1 & R2). split; [|exact R2]. rewrite R1. unfold h1. simpl. apply insert_insert_eq. }
  assert (Hw : word_ok (align_words h') (maj + 24) nm o).
  { apply new_word; [exact O1|rewrite W; apply lookup_insert_eq|reflexivity|reflexivity]. }
  assert (Hm' : minors h' = <[maj + 24 := nm]> (<[f := min_with_prev m (maj + 24)]> (minors h)))
    by (rewrite Hmin; reflexivity).
  assert (Hx : forall x, x ∈ l -> x <> maj + 24).
  { intros x Hx ->. destruct (Hin (maj + 24) ltac:(set_solver)) as (X1 & X2 & _).
    destruct Hc as (_ & m' & Hm'' & _ & Hc). destruct (chain_bounds _ _ _ _ _ _ _ _ Hc) as [_ Hin'].
    destruct (Hin' _ Hx) as (_ & X3 & _). simplify_eq. lia. }
  split; [reflexivity|]. split; [exact O2|]. split; [exact O1|]. split; [exact W|]. split.
  { apply (chain_insert (minors h) _ (align_words h) _ maj _ (f :: l) 0 f (maj + 24) nm);
      [exact Hc|simpl; lia|lia|reflexivity..|eauto|rewrite Hm'; apply lookup_insert_eq| | |].
    - intros c l' [= <- <-] m0 Hm0. simplify_eq. rewrite Hm', lookup_insert_ne, lookup_insert_eq by lia.
      reflexivity.
    - intros c l' [= <- <-] x Hxl. rewrite Hm', !lookup_insert_ne; [reflexivity| |].
      + intros ->. contradiction.
      + intros E'. exact (Hx x Hxl (eq_sym E')).
    - intros x Hxr. rewrite W. apply lookup_insert_ne. simpl in Hxr. unfold rsize in Hxr. lia. }
  split; [reflexivity|]. split.
  { intros x Hxn. rewrite Hm', !lookup_insert_ne; [reflexivity|set_solver|set_solver]. }
  split.
  { intros x mx Hxl Hmx. rewrite Hm'. apply elem_of_cons in Hxl as [->|Hxl].
    - rewrite lookup_insert_ne, lookup_insert_eq by lia. eexists. split; [reflexivity|].
      simplify_eq. repeat split.
    - rewrite !lookup_insert_ne; [eexists; split; [exact Hmx|repeat split]| |].
      + intros ->. contradiction.
      + intros E'. exact (Hx x Hxl (eq_sym E')). }
  exists nm. split; [rewrite Hm'; apply lookup_insert_eq|]. split; reflexivity.
Qed.

(** The blocks behind [a] in its chain, as seen from the insertion of [b] after it. *)
Lemma behind_spec ms ws maj hi prev lo a m l :
  minor_chain ms ws maj prev lo hi a (a :: l) -> ms !! a = Some m ->
  a + 24 + min_size m <= hi /\ 4 <= min_size m /\ 0 < a /\ lo <= a /\ a ∉ l /\ NoDup l
  /\ minor_chain ms ws maj a (a + 24 + min_size m) hi (min_next m) l
  /\ (forall x, x ∈ l -> a + 24 + min_size m <= x).
Proof using.
  intros Hc Hm. pose proof (chain_NoDup _ _ _ _ _ _ _ _ Hc) as Hnd. inversion Hnd as [|? ? Hal Hnd']. subst x l0.
  destruct Hc as (_ & m' & Hm' & (N1 & N2 & N3 & _ & _ & _ & o & W) & Hc). simplify_eq.
  apply word_ok_size in W. repeat (split; [assumption|]).
  intros x Hx. destruct (chain_bounds _ _ _ _ _ _ _ _ Hc) as [_ Hin]. apply (Hin x Hx).
Qed.

(** CASES 4.1 and 4.2 after the header [a]. *)
Lemma case4_spec h maj M prev lo hi a l m :
  majors h !! maj = Some M -> hi < 2 ^ 32 ->
  minor_chain (minors h) (align_words h) maj prev lo hi a (a :: l) -> minors h !! a = Some m ->
  0 <= maj_usage M -> maj_usage M + rsize + 24 < 2 ^ 32 ->
  a + 24 + min_size m + 24 + rsize <= match l with [] => hi | c :: _ => c end ->
  exists p h' b o l',
    (if min_next m =? 0 then case41 maj a rsize req (2 ^ k) h else case42 maj a rsize req (2 ^ k) h)
      = Ok (p, h')
    /\ same_rest h h' maj (with_usage M (maj_usage M + rsize + 24))
    /\ inserted h h' maj hi prev lo a (a :: l) p b o l'.
Proof using Hk Hreq Hfit.
  intros HM Hhi Hc Hm Hu1 Hu2 Hs. pose proof rsize_range as Hrs.
  destruct (behind_spec _ _ _ _ _ _ _ _ _ Hc Hm) as (B1 & B2 & B3 & B4 & B5 & B6 & B7 & B8).
  set (b := a + 24 + min_size m) in *.
  assert (Hbhi : b + 24 + rsize <= hi).
  { destruct l as [|c l]; [exact Hs|]. destruct (chain_bounds _ _ _ _ _ _ _ _ B7) as [_ Hin].
    destruct (Hin c ltac:(set_solver)) as (_ & _ & mc & _ & _ & X & _ & oc & Wc).
    apply word_ok_size in Wc. simpl in Hs. lia. }
  assert (Hbl : b ∉ l).
  { intros Hbl. destruct l as [|c l]; [inversion Hbl|]. simpl in Hs.
    destruct (chain_bounds _ _ _ _ _ _ _ _ (proj2 (conj I B7))) as [_ Hin].
    apply elem_of_cons in Hbl as [Hbl|Hbl]; [lia|].
    destruct B7 as (_ & mc & Hmc & (_ & _ & _ & _ & _ & _ & oc & Wc) & Hc').
    destruct (chain_bounds _ _ _ _ _ _ _ _ Hc') as [_ Hin'].
    apply word_ok_size in Wc. destruct (Hin' b Hbl) as (_ & X & _). lia. }
  assert (Hbeq : add32 (add32 a 24) (min_size m) = b).
  { rewrite (add32_small a 24), add32_small by lia. reflexivity. }
  set (nm := mk_minor a (min_next m) maj LIBALLOC_MAGIC rsize req).
  (* both cases leave the same headers *)
  set (ms' := <[a := min_with_next m b]> (<[b := nm]>
     (match l with [] => minors h | c :: _ => 
        match minors h !! c with Some mc => <[c := min_with_prev mc b]> (minors h) | None => minors h end end))).
  assert (Hcase : exists h1, minors h1 = ms' /\ align_words h1 = align_words h /\ majors h1 = majors h
    /\ l_memRoot h1 = l_memRoot h /\ l_bestBet h1 = l_bestBet h /\ pages h1 = pages h
    /\ (if min_next m =? 0 then case41 maj a rsize req (2 ^ k) h else case42 maj a rsize req (2 ^ k) h)
       = finish maj b rsize (2 ^ k) h1).
  { destruct l as [|c l].
    - destruct B7 as [E _]. rewrite E. simpl. unfold case41, get_minor. rewrite Hm. cbn [mbind outcome_bind].
      unfold sizeof_minor. rewrite Hbeq.
      exists (put_minor b nm (put_minor a (min_with_next m b) h)).
      split; [|unfold nm; rewrite E; repeat (split; [reflexivity|]); reflexivity].
      simpl. unfold ms'. apply insert_insert_ne. lia.
    - destruct B7 as (E & mc & Hmc & (C0 & _) & _). subst c.
      rewrite (proj2 (Z.eqb_neq _ _)) by lia.
      unfold case42, get_minor. rewrite Hm. cbn [mbind outcome_bind]. rewrite Hmc. cbn [mbind outcome_bind].
      unfold sizeof_minor. rewrite Hbeq.
      exists (put_minor a (min_with_next m b)
        (put_minor (min_next m) (min_with_prev mc b) (put_minor b nm h))).
      split; [|repeat (split; [reflexivity|]); reflexivity].
      simpl. unfold ms'. rewrite Hmc. f_equal. apply insert_insert_ne. set_solver. }
  destruct Hcase as (h1 & M1 & W1 & J1 & R1 & T1 & P1 & ->).
  destruct (finish_spec h1 maj M b) as (o & O1 & O2 & h' & E & R & W & Hmin);
    [rewrite J1; exact HM|exact Hu1|exact Hu2|lia|lia|].
  exists (b + 28 + o), h', b, o, (a :: b :: l). split; [exact E|]. split.
  { destruct R as (Q1 & Q2 & Q3 & Q4 & Q5). split; [rewrite Q1, J1; reflexivity|].
    split; [congruence|]. split; [congruence|]. split; [exact Q4|congruence]. }
  rewrite W1 in W. rewrite M1 in Hmin.
  assert (Hw : word_ok (align_words h') b nm o).
  { apply new_word; [exact O1|rewrite W; apply lookup_insert_eq|reflexivity|reflexivity]. }
  assert (Ha : minors h' !! a = Some (min_with_next m b)) by (rewrite Hmin; apply lookup_insert_eq).
  assert (Hb : minors h' !! b = Some nm).
  { rewrite Hmin. unfold ms'. rewrite lookup_insert_ne by lia. apply lookup_insert_eq. }
  assert (Hhead : forall c l', l = c :: l' -> forall mc, minors h !! c = Some mc ->
    minors h' !! c = Some (min_with_prev mc b)).
  { intros c l' -> mc Hmc. rewrite Hmin. unfold ms'. rewrite Hmc, !lookup_insert_ne by set_solver.
    apply lookup_insert_eq. }
  assert (Htail : forall x, x <> a -> x <> b -> (forall c l', l = c :: l' -> x <> c) ->
    minors h' !! x = minors h !! x).
  { intros x X1 X2 X3. rewrite Hmin. unfold ms'. rewrite !lookup_insert_ne by congruence.
    destruct l as [|c l]; [reflexivity|]. specialize (X3 c l eq_refl).
    destruct (minors h !! c); [|reflexivity]. apply lookup_insert_ne. congruence. }
  split; [reflexivity|]. split; [exact O2|]. split; [exact O1|]. split; [exact W|]. split.
  { apply (chain_insert_after (minors h) _ (align_words h) _ maj _ l prev lo a m nm);
      [exact Hc|exact Hm|exact Hs|reflexivity..|eauto|exact Hb|exact Ha|exact Hhead| |].
    - intros c l' El x Hx. apply Htail; [set_solver|set_solver|].
      intros c' l'' El'. rewrite El in El', B6. injection El' as <- <-. inversion B6. congruence.
    - intros x Hx. rewrite W. apply lookup_insert_ne. simpl in Hx. fold b in Hx. unfold rsize in Hx. lia. }
  split; [apply Permutation_swap|]. split.
  { intros x Hx. apply Htail; [set_solver|set_solver|]. intros c l' ->. set_solver. }
  split; [|exists nm; split; [exact Hb|split; reflexivity]].
  intros x mx Hx Hmx. apply elem_of_cons in Hx as [->|Hx].
  - eexists. split; [exact Ha|]. simplify_eq. repeat split.
  - destruct l as [|c l]; [inversion Hx|]. apply elem_of_cons in Hx as [->|Hx].
    + eexists. split; [exact (Hhead c l eq_refl mx Hmx)|]. repeat split.
    + exists mx. split; [|repeat split]. rewrite Htail; [exact Hmx|set_solver|set_solver|].
      intros c' l' [= <- <-]. inversion B6. congruence.
Qed.

Lemma inserted_cons h h' maj hi prev lo a m l p b o l' :
  minor_chain (minors h) (align_words h) maj prev lo hi a (a :: l) -> minors h !! a = Some m ->
  inserted h h' maj hi a (a + 24 + min_size m) (min_next m) l p b o l' ->
  inserted h h' maj hi prev lo a (a :: l) p b o (a :: l').
Proof using Hreq Hk Hfit.
  intros Hc Hm (I1 & I2 & I3 & I4 & I5 & I6 & I7 & I8 & I9).
  pose proof rsize_range as Hrs.
  destruct (behind_spec _ _ _ _ _ _ _ _ _ Hc Hm) as (B1 & B2 & B3 & B4 & B5 & B6 & B7 & B8).
  destruct (chain_bounds _ _ _ _ _ _ _ _ I5) as [_ Hin].
  assert (Hbl : b ∈ l') by (rewrite I6; apply list_elem_of_here).
  destruct (Hin b Hbl) as (_ & Hb & _).
  assert (Hal : a ∉ l'). { rewrite I6. apply not_elem_of_cons. split; [lia|exact B5]. }
  split; [exact I1|]. split; [exact I2|]. split; [exact I3|]. split; [exact I4|]. split.
  { destruct Hc as (_ & m' & Hm' & (N1 & N2 & N3 & N4 & N5 & N6 & oa & W1 & W2 & W3 & W4) & Hc).
    rewrite Hm in Hm'. injection Hm' as <-.
    split; [reflexivity|]. exists m. split; [rewrite I7; [exact Hm|exact Hal]|].
    split; [|exact I5]. split; [exact N1|]. split; [exact N2|]. split; [exact N3|].
    split; [exact N4|]. split; [exact N5|]. split; [exact N6|]. exists oa. split; [exact W1|].
    split; [|auto]. rewrite I4, lookup_insert_ne by lia. exact W2. }
  split; [rewrite I6; apply Permutation_swap|]. split.
  { intros x Hx. apply I7. intros Hx'. apply Hx. apply list_elem_of_further. exact Hx'. }
  split; [|exact I9]. intros x mx Hx Hmx. apply elem_of_cons in Hx as [->|Hx]; [|exact (I8 x mx Hx Hmx)].
  exists mx. split; [rewrite I7; [exact Hmx|exact Hal]|repeat split].
Qed.

(** The walk returns a block inserted in the chain, or [None]. *)
Lemma minor_loop_spec maj M hi l : forall fuel h prev lo f,
  majors h !! maj = Some M -> 0 < maj -> hi = maj + maj_size M -> hi < 2 ^ 32 ->
  minor_chain (minors h) (align_words h) maj prev lo hi f l -> (length l < fuel)%nat ->
  0 <= maj_usage M -> maj_usage M + rsize + 24 < 2 ^ 32 ->
  minor_loop fuel maj f rsize req (2 ^ k) h = Ok None
  \/ exists p h' b o l', minor_loop fuel maj f rsize req (2 ^ k) h = Ok (Some (p, h'))
      /\ same_rest h h' maj (with_usage M (maj_usage M + rsize + 24))
      /\ inserted h h' maj hi prev lo f l p b o l'.
Proof using Hk Hreq Hfit.
  pose proof rsize_range as Hrs.
  induction l as [|a l IH]; intros fuel h prev lo f HM Hmaj Ehi Hhi Hc Hl Hu1 Hu2;
    (destruct fuel as [|fuel]; [simpl in Hl; lia|]); cbn [minor_loop].
  { destruct Hc as [-> _]. left. reflexivity. }
  pose proof Hc as (-> & m & Hm & _).
  destruct (behind_spec _ _ _ _ _ _ _ _ _ Hc Hm) as (B1 & B2 & B3 & B4 & B5 & B6 & B7 & B8).
  rewrite (proj2 (Z.eqb_neq a 0)) by lia. unfold get_major, get_minor. rewrite HM, Hm. cbn [mbind outcome_bind].
  assert (Hrec : minor_loop fuel maj (min_next m) rsize req (2 ^ k) h = Ok None
    \/ exists p h' b o l', minor_loop fuel maj (min_next m) rsize req (2 ^ k) h = Ok (Some (p, h'))
      /\ same_rest h h' maj (with_usage M (maj_usage M + rsize + 24))
      /\ inserted h h' maj hi prev lo a (a :: l) p b o l').
  { destruct (IH fuel h a (a + 24 + min_size m) (min_next m)) as [E|(p & h' & b & o & l' & E & S & I)];
      try assumption; [simpl in Hl; lia|left; exact E|right].
    exists p, h', b, o, (a :: l'). split; [exact E|]. split; [exact S|].
    eapply inserted_cons; eassumption. }
  pose proof (case4_spec h maj M prev lo hi a l m HM Hhi Hc Hm Hu1 Hu2) as Hins.
  unfold sizeof_minor. rewrite (add32_small rsize 24) by lia.
  destruct l as [|c l].
  - destruct B7 as [E _]. rewrite E in Hrec, Hins |- *. rewrite Z.eqb_refl in Hins |- *.
    rewrite (add32_small maj) by lia. rewrite (sub32_small _ a) by lia. rewrite (sub32_small _ 24) by lia.
    rewrite sub32_small by lia.
    destruct (Z.leb_spec (rsize + 24) (maj + maj_size M - a - 24 - min_size m)); [|exact Hrec].
    right. destruct Hins as (p & h' & b & o & l' & E' & S & I); [lia|].
    rewrite E'. exists p, h', b, o, l'. split; [reflexivity|]. split; assumption.
  - pose proof B7 as (E & mc & Hmc & (C0 & C1 & C2 & _) & _). subst c.
    rewrite (proj2 (Z.eqb_neq (min_next m) 0)) in Hins |- * by lia.
    assert (min_next m <= hi). { destruct (chain_bounds _ _ _ _ _ _ _ _ B7) as [_ Hin].
      destruct (Hin (min_next m) ltac:(set_solver)) as (_ & _ & mx & Hmx & _ & X & _ & ox & Wx).
      apply word_ok_size in Wx. lia. }
    rewrite (sub32_small _ a) by lia. rewrite (sub32_small _ 24) by lia. rewrite sub32_small by lia.
    destruct (Z.leb_spec (rsize + 24) (min_next m - a - 24 - min_size m)); [|exact Hrec].
    right. destruct Hins as (p & h' & b & o & l' & E' & S & I); [lia|].
    rewrite E'. exists p, h', b, o, l'. split; [reflexivity|]. split; assumption.
Qed.
End allocator_proofs.
