(* ===== verification/LiballocProofs.v ===== *)
(** * The heap allocator: the invariant and the contracts of its operations *)
From stdpp Require Import gmap sets.
From S2P Require Import Prelude Liballoc LiballocChains.
#[local] Open Scope Z_scope.

(** The list of major blocks. *)
Fixpoint major_chain (Ms : gmap Z major_block) (prev p : Z) (l : list Z) : Prop :=
  match l with
  | [] => p = 0
  | a :: l => p = a /\ a <> 0 /\ exists M, Ms !! a = Some M /\ maj_prev M = prev
      /\ major_chain Ms a (maj_next M) l
  end.

Lemma major_chain_frame Ms Ms' l : forall prev p, major_chain Ms prev p l ->
  (forall a M, a ∈ l -> Ms !! a = Some M -> exists M', Ms' !! a = Some M' /\
     maj_prev M' = maj_prev M /\ maj_next M' = maj_next M) ->
  major_chain Ms' prev p l.
Proof.
  induction l as [|a l IH]; intros prev p H Hf; [exact H|].
  destruct H as (-> & Ha & M & HM & HP & Hc). split; [reflexivity|]. split; [exact Ha|].
  destruct (Hf a M (list_elem_of_here _ _) HM) as (M' & HM' & E1 & E2).
  exists M'. split; [exact HM'|]. split; [congruence|]. rewrite E2.
  apply IH; [exact Hc|]. intros x X Hx. apply Hf. apply list_elem_of_further. exact Hx.
Qed.

Lemma major_chain_lookup Ms l : forall prev p a, major_chain Ms prev p l -> a ∈ l ->
  a <> 0 /\ exists M, Ms !! a = Some M /\ (maj_next M = 0 \/ maj_next M ∈ l).
Proof.
  induction l as [|x l IH]; intros prev p a H Ha; [inversion Ha|].
  destruct H as (-> & Hx & M & HM & HP & Hc). apply elem_of_cons in Ha as [->|Ha].
  - split; [exact Hx|]. exists M. split; [exact HM|]. destruct l as [|y l]; [left; exact Hc|].
    right. destruct Hc as (-> & _). apply list_elem_of_further, list_elem_of_here.
  - destruct (IH _ _ a Hc Ha) as (Ha0 & M' & HM' & [E|E]); (split; [exact Ha0|]); exists M'; (split; [exact HM'|]).
    + left. exact E.
    + right. apply list_elem_of_further. exact E.
Qed.

(** A walk over distinct keys of a map is no longer than the map. *)
Lemma length_le_size {A} (m : gmap Z A) l : NoDup l -> (forall x, x ∈ l -> is_Some (m !! x)) ->
  (length l <= size m)%nat.
Proof.
  intros Hnd Hin. rewrite <- (size_list_to_set (C:=gset Z) l Hnd), <- size_dom.
  apply subseteq_size. intros x Hx. apply elem_of_list_to_set in Hx. apply elem_of_dom. auto.
Qed.

Section heap_invariant.
Context {P : Type} `{PageSourceLaws P}.
Implicit Types h : heap P.

(** One major block and its chain. *)
Definition major_ok h (a : Z) (l : list Z) : Prop :=
  exists M, majors h !! a = Some M /\ owned (pages h) !! a = Some (maj_pages M)
    /\ maj_size M = maj_pages M * 4096
    /\ minor_chain (minors h) (align_words h) a 0 (a + 24) (a + maj_size M) (maj_first M) l
    /\ maj_usage M = 24 + total (minors h) l.

Record heap_inv h (L : list (Z * list Z)) : Prop := mk_heap_inv {
  hi_chain : major_chain (majors h) 0 (l_memRoot h) L.*1;
  hi_nodup : NoDup L.*1;
  hi_major : forall a l, (a, l) ∈ L -> major_ok h a l;
  hi_bet : l_bestBet h = 0 \/ l_bestBet h ∈ L.*1 }.

Definition live (L : list (Z * list Z)) (b : Z) : Prop := exists a l, (a, l) ∈ L /\ b ∈ l.

(** [B] maps every pointer handed out to the size it was asked for; [f] gives the
    alignment padding of each block. *)
Definition heap_rep_with h L (f : Z -> Z) (B : gmap Z Z) : Prop :=
  heap_inv h L
  /\ (forall b m, live L b -> minors h !! b = Some m -> word_ok (align_words h) b m (f b))
  /\ (forall p n, B !! p = Some n <->
        exists b m, live L b /\ minors h !! b = Some m /\ p = b + 28 + f b /\ n = min_req_size m).

Definition heap_rep h (B : gmap Z Z) : Prop := exists L f, heap_rep_with h L f B.

Lemma major_ok_range h a l : major_ok h a l -> exists M, majors h !! a = Some M
  /\ 0 < a /\ maj_size M = maj_pages M * 4096 /\ 0 < maj_size M /\ a + maj_size M < 2 ^ 32
  /\ 24 <= maj_usage M <= maj_size M /\ owned (pages h) !! a = Some (maj_pages M)
  /\ a + 24 <= a + maj_size M.
Proof using.
  intros (M & HM & Ho & Hs & Hc & Hu). exists M. destruct (owned_ok _ _ _ Ho) as (O1 & O2 & O3 & O4).
  pose proof (chain_total _ _ _ _ _ _ _ _ Hc). split; [exact HM|]. split; [exact O1|].
  split; [exact Hs|]. split; [lia|]. split; [lia|]. split; [lia|]. split; [exact Ho|]. lia.
Qed.

(** Live blocks are headers of the allocator's and do not overlap. *)
Lemma live_minor h L b : heap_inv h L -> live L b -> exists a l M m,
  (a, l) ∈ L /\ b ∈ l /\ majors h !! a = Some M /\ minors h !! b = Some m
  /\ a + 24 <= b /\ b + 24 + min_size m <= a + maj_size M /\ 4 <= min_size m
  /\ 0 < a /\ a + maj_size M < 2 ^ 32 /\ min_block m = a /\ min_magic m = LIBALLOC_MAGIC
  /\ owned (pages h) !! a = Some (maj_pages M) /\ maj_size M = maj_pages M * 4096.
Proof using.
  intros HI (a & l & Hal & Hb). pose proof (hi_major _ _ HI a l Hal) as Hok.
  destruct (major_ok_range _ _ _ Hok) as (M & HM & R1 & R2 & R3 & R4 & R5 & R6 & R7).
  destruct Hok as (M' & HM' & _ & _ & Hc & _). rewrite HM in HM'. injection HM' as <-.
  destruct (chain_bounds _ _ _ _ _ _ _ _ Hc) as [_ Hin].
  destruct (Hin b Hb) as (B1 & B2 & m & Hm & B3 & B4 & B5 & o & W). apply word_ok_size in W.
  exists a, l, M, m. auto 20.
Qed.

Lemma chain_disjoint ms ws maj hi l : forall prev lo p, minor_chain ms ws maj prev lo hi p l ->
  forall b m b' m', b ∈ l -> b' ∈ l -> ms !! b = Some m -> ms !! b' = Some m' -> b <> b' ->
  b + 24 + min_size m <= b' \/ b' + 24 + min_size m' <= b.
Proof using.
  induction l as [|a l IH]; intros prev lo p Hc b m b' m' Hb Hb' Hm Hm' Hne; [inversion Hb|].
  destruct Hc as (-> & ma & Hma & _ & Hc). destruct (chain_bounds _ _ _ _ _ _ _ _ Hc) as [_ Hin].
  apply elem_of_cons in Hb as [->|Hb]; apply elem_of_cons in Hb' as [->|Hb'].
  - contradiction.
  - left. destruct (Hin b' Hb') as (_ & X & _). congruence.
  - right. destruct (Hin b Hb) as (_ & X & _). congruence.
  - exact (IH _ _ _ Hc b m b' m' Hb Hb' Hm Hm' Hne).
Qed.

Lemma nodup_fst (L : list (Z * list Z)) a l l' : NoDup L.*1 -> (a, l) ∈ L -> (a, l') ∈ L -> l = l'.
Proof using.
  intros Hnd H1 H2. apply list_elem_of_lookup in H1 as [i H1], H2 as [j H2].
  assert (i = j).
  { eapply NoDup_lookup; [exact Hnd|rewrite list_lookup_fmap, H1; reflexivity|rewrite list_lookup_fmap, H2; reflexivity]. }
  subst j. rewrite H1 in H2. injection H2. auto.
Qed.

Lemma live_disjoint h L b m b' m' : heap_inv h L -> live L b -> live L b' ->
  minors h !! b = Some m -> minors h !! b' = Some m' -> b <> b' ->
  b + 24 + min_size m <= b' \/ b' + 24 + min_size m' <= b.
Proof using.
  intros HI Hb Hb' Hm Hm' Hne.
  destruct (live_minor _ _ _ HI Hb) as (a & l & M & m1 & Hal & Hbl & HM & Hm1 & X1 & X2 & X3 & X4 & X5 & X6 & _ & X7 & X8).
  destruct (live_minor _ _ _ HI Hb') as (a' & l' & M' & m2 & Hal' & Hbl' & HM' & Hm2 & Y1 & Y2 & Y3 & Y4 & Y5 & Y6 & _ & Y7 & Y8).
  rewrite Hm in Hm1. injection Hm1 as <-. rewrite Hm' in Hm2. injection Hm2 as <-.
  destruct (Z.eq_dec a a') as [<-|Ha].
  - assert (l = l') by (eapply nodup_fst; [apply (hi_nodup _ _ HI)|eassumption..]). subst l'.
    destruct (hi_major _ _ HI a l Hal) as (M2 & _ & _ & _ & Hc & _).
    exact (chain_disjoint _ _ _ _ _ _ _ _ Hc b m b' m' Hbl Hbl' Hm Hm' Hne).
  - destruct (owned_disjoint _ _ _ _ _ X7 Y7 Ha); lia.
Qed.


(** ** Allocation in one major block *)
Lemma total_perm ms l l' : l ≡ₚ l' -> total ms l = total ms l'.
Proof using. induction 1; simpl; lia. Qed.

Lemma total_same ms ms' l :
  (forall x m, x ∈ l -> ms !! x = Some m -> exists m', ms' !! x = Some m' /\ same_block m m') ->
  (forall x, x ∈ l -> is_Some (ms !! x)) -> total ms' l = total ms l.
Proof using.
  induction l as [|a l IH]; intros H1 H2; [reflexivity|]. simpl.
  rewrite IH; [|intros; apply H1; [apply list_elem_of_further|]; assumption
               |intros; apply H2, list_elem_of_further; assumption].
  destruct (H2 a (list_elem_of_here _ _)) as [m Hm].
  destruct (H1 a m (list_elem_of_here _ _) Hm) as (m' & Hm' & E & _). rewrite Hm, Hm', E. reflexivity.
Qed.

(** Two entries of the list are the same or own disjoint regions. *)
Lemma entries_disjoint h L a l M a' l' M' : heap_inv h L -> (a, l) ∈ L -> (a', l') ∈ L ->
  majors h !! a = Some M -> majors h !! a' = Some M' -> a <> a' ->
  a + maj_size M <= a' \/ a' + maj_size M' <= a.
Proof using.
  intros HI Ha Ha' HM HM' Hne.
  destruct (major_ok_range _ _ _ (hi_major _ _ HI a l Ha)) as (N & HN & _ & E & _ & _ & _ & O & _).
  destruct (major_ok_range _ _ _ (hi_major _ _ HI a' l' Ha')) as (N' & HN' & _ & E' & _ & _ & _ & O' & _).
  rewrite HM in HN. injection HN as <-. rewrite HM' in HN'. injection HN' as <-.
  destruct (owned_disjoint _ _ _ _ _ O O' Hne); lia.
Qed.

(** A major block that keeps its header, its chain's headers and its words is still right. *)
Lemma major_ok_frame h h' a l M : major_ok h a l -> majors h !! a = Some M ->
  majors h' !! a = Some M -> owned (pages h') !! a = owned (pages h) !! a ->
  (forall x, x ∈ l -> minors h' !! x = minors h !! x) ->
  (forall x, a + 24 <= x < a + maj_size M -> align_words h' !! x = align_words h !! x) ->
  major_ok h' a l.
Proof using.
  intros (M0 & HM0 & Ho & Hs & Hc & Hu) HM HM' Eo Hm Hw. rewrite HM in HM0. injection HM0 as <-.
  exists M. split; [exact HM'|]. split; [rewrite Eo; exact Ho|]. split; [exact Hs|]. split.
  - eapply chain_frame; [exact Hc|exact Hm|exact Hw].
  - rewrite Hu. f_equal. symmetry. apply total_frame. exact Hm.
Qed.

Lemma entry_fst (L1 L2 : list (Z * list Z)) (a : Z) (l l' : list Z) : (L1 ++ (a, l') :: L2).*1 = (L1 ++ (a, l) :: L2).*1.
Proof using. rewrite !fmap_app. reflexivity. Qed.

Lemma entry_other (L1 L2 : list (Z * list Z)) a l x lx : NoDup (L1 ++ (a, l) :: L2).*1 ->
  forall l', (x, lx) ∈ L1 ++ (a, l') :: L2 ->
  (x = a /\ lx = l') \/ (x <> a /\ (x, lx) ∈ L1 ++ (a, l) :: L2).
Proof using.
  intros Hnd l' Hx. rewrite fmap_app in Hnd. simpl in Hnd.
  apply NoDup_app in Hnd as (N1 & N2 & N3). apply NoDup_cons in N3 as [N3 N4].
  assert (Hfst : forall L0, (x, lx) ∈ L0 -> x ∈ L0.*1).
  { intros L0 H1. apply list_elem_of_fmap. exists (x, lx). auto. }
  rewrite elem_of_app, elem_of_cons in Hx. destruct Hx as [Hx|[[= -> ->]|Hx]].
  - right. split; [|apply elem_of_app; left; exact Hx]. intros ->. apply (N2 a (Hfst _ Hx)).
    apply list_elem_of_here.
  - left. auto.
  - right. split; [|apply elem_of_app; right; apply list_elem_of_further; exact Hx].
    intros ->. exact (N3 (Hfst _ Hx)).
Qed.

Context (req k : Z) (Hreq : 0 <= req) (Hk : 0 <= k < 13).
Context (Hfit : rsize req k + 48 + 4096 < 2 ^ 32).

Lemma inserted_inv h h' L1 L2 maj l M f' p b o l' :
  heap_inv h (L1 ++ (maj, l) :: L2) -> majors h !! maj = Some M ->
  same_rest h h' maj (with_usage (with_first M f') (maj_usage M + rsize req k + 24)) ->
  inserted req k h h' maj (maj + maj_size M) 0 (maj + 24) f' l p b o l' ->
  heap_inv h' (L1 ++ (maj, l') :: L2).
Proof using Hreq Hk Hfit.
  intros HI HM (R1 & R2 & R3 & R4 & R5) (I1 & I2 & I3 & I4 & I5 & I6 & I7 & I8 & nm & Inm & Is & Ir).
  set (L := L1 ++ (maj, l) :: L2) in *.
  assert (Hml : (maj, l) ∈ L) by (apply elem_of_app; right; apply list_elem_of_here).
  pose proof (hi_major _ _ HI maj l Hml) as Hok.
  destruct (major_ok_range _ _ _ Hok) as (M0 & HM0 & G1 & G2 & G3 & G4 & G5 & G6 & G7).
  rewrite HM in HM0. injection HM0 as <-.
  destruct Hok as (M0 & HM0 & Ho & Hs & Hc & Hu). rewrite HM in HM0. injection HM0 as <-.
  destruct (chain_bounds _ _ _ _ _ _ _ _ I5) as [_ Hin].
  constructor.
  - rewrite (entry_fst L1 L2 maj l l'), R2. eapply major_chain_frame; [apply (hi_chain _ _ HI)|].
    intros a Ma _ HMa. rewrite R1. destruct (Z.eq_dec a maj) as [->|Ha].
    + rewrite HM in HMa. injection HMa as <-. rewrite lookup_insert_eq. eexists. split; [reflexivity|]. auto.
    + rewrite lookup_insert_ne by congruence. eauto.
  - rewrite (entry_fst L1 L2 maj l l'). apply (hi_nodup _ _ HI).
  - intros a la Ha.
    destruct (entry_other L1 L2 maj l a la (hi_nodup _ _ HI) l' Ha) as [[-> ->]|[Hne Hal]].
    + exists (with_usage (with_first M f') (maj_usage M + rsize req k + 24)).
      split; [rewrite R1; apply lookup_insert_eq|]. split; [rewrite R5; exact Ho|]. split; [exact Hs|].
      split; [exact I5|]. simpl. rewrite (total_perm _ _ _ I6). simpl. rewrite Inm, Is, Hu.
      rewrite (total_same (minors h) (minors h') l); [lia|exact I8|].
      intros x Hx. destruct (chain_bounds _ _ _ _ _ _ _ _ Hc) as [_ Hin0].
      destruct (Hin0 x Hx) as (_ & _ & m & Hm & _). eauto.
    + pose proof (hi_major _ _ HI a la Hal) as Hoka.
      destruct (major_ok_range _ _ _ Hoka) as (Ma & HMa & _).
      pose proof (entries_disjoint _ _ _ _ _ _ _ _ HI Hal Hml HMa HM Hne) as Hd.
      assert (Hreg : forall x, x ∈ l' -> maj + 24 <= x /\ x + 24 <= maj + maj_size M).
      { intros x Hx. destruct (Hin x Hx) as (_ & X1 & mx & _ & _ & X2 & _ & ox & Wx).
        apply word_ok_size in Wx. lia. }
      apply (major_ok_frame h h' a la Ma Hoka HMa).
      * rewrite R1, lookup_insert_ne by congruence. exact HMa.
      * rewrite R5. reflexivity.
      * intros x Hx. apply I7. intros Hx'. specialize (Hreg x Hx').
        destruct Hoka as (Ma' & HMa' & _ & _ & Hca & _). rewrite HMa in HMa'. injection HMa' as <-.
        destruct (chain_bounds _ _ _ _ _ _ _ _ Hca) as [_ Hina].
        destruct (Hina x Hx) as (_ & X1 & mx & _ & _ & X2 & _ & ox & Wx). apply word_ok_size in Wx. lia.
      * intros x Hx. rewrite I4. apply lookup_insert_ne. 
        assert (Hb : b ∈ l') by (rewrite I6; apply list_elem_of_here).
        destruct (Hin b Hb) as (_ & X1 & mb & Hmb & _ & X2 & _ & ob & Wb).
        rewrite Inm in Hmb. injection Hmb as <-. rewrite Is in X2.
        pose proof (pow_k k Hk). unfold rsize in X2. lia.
  - rewrite R3, (entry_fst L1 L2 maj l l'). apply (hi_bet _ _ HI).
Qed.

(** ** The pointers handed out, across one insertion *)
Section insertion.
Context (h h' : heap P) (L1 L2 : list (Z * list Z)) (maj : Z) (l : list Z) (M : major_block)
  (f' p b o : Z) (l' : list Z).
Local Notation L := (L1 ++ (maj, l) :: L2).
Local Notation L' := (L1 ++ (maj, l') :: L2).
Context (HI : heap_inv h L) (HM : majors h !! maj = Some M)
  (HR : same_rest h h' maj (with_usage (with_first M f') (maj_usage M + rsize req k + 24)))
  (Hins : inserted req k h h' maj (maj + maj_size M) 0 (maj + 24) f' l p b o l').

Lemma here_old : (maj, l) ∈ L.
Proof using. apply elem_of_app; right; apply list_elem_of_here. Qed.
Lemma here_new : (maj, l') ∈ L'.
Proof using. apply elem_of_app; right; apply list_elem_of_here. Qed.
Lemma inv_new : heap_inv h' L'.
Proof using HI HM HR Hins Hreq Hk Hfit. exact (inserted_inv _ _ _ _ _ _ _ _ _ _ _ _ HI HM HR Hins). Qed.

Lemma new_in : b ∈ l'.
Proof using Hins. destruct Hins as (_ & _ & _ & _ & _ & I6 & _). rewrite I6. apply list_elem_of_here. Qed.
Lemma new_live : live L' b.
Proof using Hins. exists maj, l'. split; [exact here_new|exact new_in]. Qed.

Lemma inserted_live x : live L' x <-> x = b \/ live L x.
Proof using HI HM HR Hins Hreq Hk Hfit.
  pose proof Hins as (_ & _ & _ & _ & _ & I6 & _). split.
  - intros (a & la & Ha & Hx).
    destruct (entry_other L1 L2 maj l a la (hi_nodup _ _ HI) l' Ha) as [[-> ->]|[_ Hal]].
    + rewrite I6 in Hx. apply elem_of_cons in Hx as [->|Hx]; [left; reflexivity|].
      right. exists maj, l. split; [exact here_old|exact Hx].
    + right. exists a, la. auto.
  - intros [->|(a & la & Ha & Hx)]; [exact new_live|].
    destruct (entry_other L1 L2 maj l' a la (hi_nodup _ _ inv_new) l Ha) as [[-> ->]|[_ Hal]].
    + exists maj, l'. split; [exact here_new|]. rewrite I6. apply list_elem_of_further, Hx.
    + exists a, la. auto.
Qed.

(** The new block is inside its major block. *)
Lemma new_range : maj + 24 <= b /\ b + 24 + rsize req k <= maj + maj_size M.
Proof using Hins.
  pose proof Hins as (_ & _ & _ & _ & I5 & I6 & _ & _ & nm & Inm & Is & _).
  destruct (chain_bounds _ _ _ _ _ _ _ _ I5) as [_ Hin].
  destruct (Hin b new_in) as (_ & Y1 & mb & Hmb & _ & Y2 & _).
  rewrite Inm in Hmb. injection Hmb as <-. lia.
Qed.

Lemma new_not_live : ~ live L b.
Proof using HI HM Hins Hreq Hk Hfit.
  intros Hl. destruct (live_minor _ _ _ HI Hl) as (a & la & Ma & m & Ha & Hx & HMa & Hm & X1 & X2 & X3 & _).
  pose proof new_range. pose proof (rsize_range req k Hreq Hk Hfit).
  destruct (Z.eq_dec a maj) as [->|Hne].
  - assert (la = l) by (eapply nodup_fst; [apply (hi_nodup _ _ HI)|exact Ha|exact here_old]). subst la.
    pose proof Hins as (_ & _ & _ & _ & I5 & I6 & _).
    pose proof (chain_NoDup _ _ _ _ _ _ _ _ I5) as Hnd. rewrite I6 in Hnd.
    apply NoDup_cons in Hnd as [Hnd _]. contradiction.
  - pose proof (entries_disjoint _ _ _ _ _ _ _ _ HI Ha here_old HMa HM Hne). lia.
Qed.

Lemma old_same x m : live L x -> minors h !! x = Some m ->
  exists m', minors h' !! x = Some m' /\ same_block m m'.
Proof using HI HM Hins Hreq Hk Hfit.
  intros Hlive Hm. pose proof Hlive as (a & la & Ha & Hx).
  pose proof Hins as (_ & _ & _ & _ & _ & I6 & I7 & I8 & _). destruct (Z.eq_dec a maj) as [->|Hne].
  - assert (la = l) by (eapply nodup_fst; [apply (hi_nodup _ _ HI)|exact Ha|exact here_old]). subst la. eauto.
  - exists m. split; [|repeat split]. rewrite I7; [exact Hm|]. intros Hx'.
    rewrite I6 in Hx'. apply elem_of_cons in Hx' as [->|Hx']; [exact (new_not_live Hlive)|].
    destruct (hi_major _ _ HI a la Ha) as (Ma & HMa & _ & _ & Hca & _).
    destruct (hi_major _ _ HI maj l here_old) as (Mm & HMm & _ & _ & Hcm & _).
    pose proof (entries_disjoint _ _ _ _ _ _ _ _ HI Ha here_old HMa HMm Hne).
    destruct (chain_bounds _ _ _ _ _ _ _ _ Hca) as [_ Hia]. destruct (chain_bounds _ _ _ _ _ _ _ _ Hcm) as [_ Him].
    destruct (Hia x Hx) as (_ & A1 & ma & Hma & _ & A2 & _ & oa & Wa). apply word_ok_size in Wa.
    destruct (Him x Hx') as (_ & A3 & mm & Hmm & _ & A4 & _). rewrite Hma in Hmm. injection Hmm as <-. lia.
Qed.

Lemma new_word_ok nm : minors h' !! b = Some nm ->
  word_ok (align_words h') b nm o /\ min_req_size nm = req /\ min_size nm = rsize req k.
Proof using Hins Hreq.
  pose proof Hins as (_ & _ & I3 & I4 & _ & _ & _ & _ & nm' & Inm & Is & Ir). intros H1.
  rewrite Inm in H1. injection H1 as ->. split; [|auto].
  apply (new_word req k); [exact Hreq|exact I3|rewrite I4; apply lookup_insert_eq|exact Is|exact Ir].
Qed.

Lemma new_disjoint x m : live L x -> minors h !! x = Some m ->
  b + 24 + rsize req k <= x \/ x + 24 + min_size m <= b.
Proof using HI HM HR Hins Hreq Hk Hfit.
  intros Hx Hm. destruct (old_same x m Hx Hm) as (m' & Hm' & E & _).
  pose proof Hins as (_ & _ & _ & _ & _ & _ & _ & _ & nm & Inm & Is & _).
  assert (Hne : b <> x) by (intros E0; subst x; exact (new_not_live Hx)).
  destruct (live_disjoint _ _ b nm x m' inv_new new_live (proj2 (inserted_live x) (or_intror Hx)) Inm Hm' Hne); lia.
Qed.

(** The words of the old blocks are untouched. *)
Lemma old_word x m m' u : live L x -> minors h !! x = Some m -> same_block m m' ->
  word_ok (align_words h) x m u -> word_ok (align_words h') x m' u.
Proof using HI HM HR Hins Hreq Hk Hfit.
  intros Hx Hm (E1 & E2 & _) (W1 & W2 & W3 & W4). pose proof (new_disjoint x m Hx Hm).
  pose proof Hins as (_ & _ & I3 & I4 & _). unfold word_ok. rewrite E1, E2.
  split; [exact W1|]. split; [|auto]. rewrite I4, lookup_insert_ne; [exact W2|].
  unfold rsize in *. lia.
Qed.

(** The map of pointers after the insertion. *)
Lemma inserted_rep f B : heap_rep_with h L f B ->
  heap_rep_with h' L' (fun x => if decide (x = b) then o else f x) (<[p := req]> B)
  /\ p mod 2 ^ k = 0 /\ 0 < p /\ p + req <= maj + maj_size M
  /\ (forall q n, B !! q = Some n -> q <> p /\ (p + req <= q \/ q + n <= p)).
Proof using HI HM HR Hins Hreq Hk Hfit.
  intros (_ & Hw & HB). pose proof Hins as (I1 & I2 & I3 & _ & _ & _ & _ & _ & nm & Inm & _).
  destruct (new_word_ok nm Inm) as (Wn & Er & Es). pose proof new_range. pose proof (pow_k k Hk).
  assert (Hmaj : 0 < maj).
  { destruct (major_ok_range _ _ _ (hi_major _ _ HI maj l here_old)) as (_ & _ & X & _). exact X. }
  assert (Hout : forall x m, live L x -> minors h !! x = Some m ->
    x + 28 + f x <> p /\ (p + req <= x + 28 + f x \/ x + 28 + f x + min_req_size m <= p)).
  { intros x m Hx Hm. destruct (Hw x m Hx Hm) as (W1 & _ & W3 & W4).
    destruct (new_disjoint x m Hx Hm); unfold rsize in *; lia. }
  split; [|split; [exact I2|]; split; [lia|]; split; [unfold rsize in *; lia|]].
  2:{ intros q n Hq. apply HB in Hq as (x & m & Hx & Hm & -> & ->). exact (Hout x m Hx Hm). }
  split; [exact inv_new|]. split.
  - intros x m Hx Hm. apply inserted_live in Hx as [->|Hx].
    + rewrite decide_True by reflexivity. apply (new_word_ok m Hm).
    + rewrite decide_False by (intros ->; exact (new_not_live Hx)).
      destruct (live_minor _ _ _ HI Hx) as (_ & _ & _ & m0 & _ & _ & _ & Hm0 & _).
      destruct (old_same x m0 Hx Hm0) as (m' & Hm' & Hsame). rewrite Hm in Hm'. injection Hm' as <-.
      eapply old_word; eauto.
  - intros q n. split.
    + intros Hq. destruct (Z.eq_dec q p) as [->|Hne].
      * rewrite lookup_insert_eq in Hq. injection Hq as <-. exists b, nm.
        rewrite decide_True by reflexivity. split; [exact new_live|]. auto.
      * rewrite lookup_insert_ne in Hq by congruence. apply HB in Hq as (x & m & Hx & Hm & -> & ->).
        destruct (old_same x m Hx Hm) as (m' & Hm' & E1 & E2 & _). exists x, m'.
        rewrite decide_False by (intros ->; exact (new_not_live Hx)).
        split; [apply inserted_live; auto|]. auto.
    + intros (x & m & Hx & Hm & -> & ->). apply inserted_live in Hx as [->|Hx].
      * rewrite decide_True by reflexivity. rewrite <- I1. destruct (new_word_ok m Hm) as (_ & <- & _).
        apply lookup_insert_eq.
      * rewrite decide_False by (intros ->; exact (new_not_live Hx)).
        destruct (live_minor _ _ _ HI Hx) as (_ & _ & _ & m0 & _ & _ & _ & Hm0 & _).
        destruct (old_same x m0 Hx Hm0) as (m' & Hm' & _ & E2 & _). rewrite Hm in Hm'. injection Hm' as <-.
        rewrite E2. rewrite lookup_insert_ne; [apply HB; exists x, m0; auto|].
        destruct (Hw x m0 Hx Hm0) as (W1 & _ & W3 & W4).
        destruct (new_disjoint x m0 Hx Hm0); unfold rsize in *; lia.
Qed.
End insertion.

(** ** One major block *)
Lemma try_major_spec h L1 L2 maj l M :
  heap_inv h (L1 ++ (maj, l) :: L2) -> majors h !! maj = Some M ->
  maj_usage M + rsize req k + 24 <= maj_size M ->
  (try_major maj (rsize req k) req (2 ^ k) h = Ok None /\ l <> [])
  \/ exists p h' b o l' f', try_major maj (rsize req k) req (2 ^ k) h = Ok (Some (p, h'))
     /\ same_rest h h' maj (with_usage (with_first M f') (maj_usage M + rsize req k + 24))
     /\ inserted req k h h' maj (maj + maj_size M) 0 (maj + 24) f' l p b o l'.
Proof using Hreq Hk Hfit.
  intros HI HM Hroom. pose proof (rsize_range req k Hreq Hk Hfit) as Hrs.
  pose proof (hi_major _ _ HI maj l (here_old _ _ _ _)) as Hok.
  destruct (major_ok_range _ _ _ Hok) as (M0 & HM0 & G1 & G2 & G3 & G4 & G5 & _).
  rewrite HM in HM0. injection HM0 as <-.
  destruct Hok as (M0 & HM0 & _ & _ & Hc & Hu). rewrite HM in HM0. injection HM0 as <-.
  unfold try_major, get_major. rewrite HM. cbn [mbind outcome_bind].
  destruct l as [|f l].
  - destruct Hc as [Ef _]. rewrite Ef, Z.eqb_refl. right. simpl in Hu.
    destruct (case2_spec req k Hreq Hk Hfit h maj M HM G1 G4) as (p & h' & b & o & l' & E & S & I); [lia|lia|].
    rewrite E. exists p, h', b, o, l', b. auto.
  - pose proof Hc as (Ef & m & Hm & (N1 & N2 & N3 & _ & _ & _ & om & Wm) & _). apply word_ok_size in Wm.
    rewrite Ef, (proj2 (Z.eqb_neq f 0)) by lia.
    unfold sizeof_major, sizeof_minor. rewrite (sub32_small f maj), sub32_small by lia.
    rewrite add32_small by lia. rewrite Ef in Hc.
    destruct (Z.leb_spec (rsize req k + 24) (f - maj - 24)) as [Hroom3|_].
    + right. destruct (case3_spec req k Hreq Hk Hfit h maj M f l HM G1 G4 Ef Hc) as (p & h' & b & o & l' & E & S & I);
        [lia|lia|lia|]. rewrite E. exists p, h', b, o, l', b. auto.
    + pose proof (chain_NoDup _ _ _ _ _ _ _ _ Hc) as Hnd.
      assert (Hfuel : (length (f :: l) < Datatypes.S (size_of (minors h)))%nat).
      { apply Nat.lt_succ_r. apply length_le_size; [exact Hnd|]. intros x Hx.
        destruct (chain_bounds _ _ _ _ _ _ _ _ Hc) as [_ Hin]. destruct (Hin x Hx) as (_ & _ & mx & Hmx & _). eauto. }
      destruct (minor_loop_spec req k Hreq Hk Hfit maj M (maj + maj_size M) (f :: l) _ h 0 (maj + 24) f
        HM G1 eq_refl G4 Hc Hfuel) as [E|(p & h' & b & o & l' & E & S & I)]; [lia|lia| |].
      * left. split; [exact E|discriminate].
      * right. exists p, h', b, o, l', f. split; [exact E|]. split; [|exact I].
        replace (with_first M f) with M; [exact S|]. rewrite <- Ef. destruct M. reflexivity.
Qed.

(** ** A new major block *)
Definition pages_for : Z :=
  let st := rsize req k + 48 in
  Z.max 16 (if st mod 4096 =? 0 then st / 4096 else st / 4096 + 1).

Lemma pages_for_room : 0 < pages_for /\ rsize req k + 48 <= pages_for * 4096.
Proof using Hreq Hk Hfit.
  pose proof (rsize_range req k Hreq Hk Hfit). unfold pages_for. cbv zeta.
  set (st := rsize req k + 48) in *.
  pose proof (Z.div_mod st 4096 ltac:(lia)). pose proof (Z.mod_pos_bound st 4096 ltac:(lia)).
  destruct (Z.eqb_spec (st mod 4096) 0); lia.
Qed.

Definition fresh_major : major_block := mk_major 0 0 pages_for (pages_for * 4096) 24 0.

Lemma allocate_new_page_spec h : exists new h', allocate_new_page (rsize req k) h = (new, h')
  /\ minors h' = minors h /\ align_words h' = align_words h /\ l_memRoot h' = l_memRoot h
  /\ l_bestBet h' = l_bestBet h /\ l_locked h' = l_locked h
  /\ ((new = 0 /\ majors h' = majors h /\ owned (pages h') = owned (pages h))
      \/ (new <> 0 /\ owned (pages h) !! new = None
          /\ owned (pages h') = <[new := pages_for]> (owned (pages h))
          /\ majors h' = <[new := fresh_major]> (majors h))).
Proof using Hreq Hk Hfit.
  pose proof (rsize_range req k Hreq Hk Hfit). destruct pages_for_room as [Hp1 Hp2].
  unfold allocate_new_page, sizeof_major, sizeof_minor, l_pageSize, l_pageCount.
  rewrite (add32_small (rsize req k) 24), add32_small by lia.
  set (st := if _ =? 0 then _ else _). set (n := if st <? 16 then 16 else st).
  assert (En : n = pages_for).
  { unfold n, pages_for, st. cbv zeta. replace (rsize req k + 24 + 24) with (rsize req k + 48) by lia.
    destruct (Z.ltb_spec (if (rsize req k + 48) mod 4096 =? 0 then (rsize req k + 48) / 4096
       else (rsize req k + 48) / 4096 + 1) 16); lia. }
  rewrite En. destruct (sys_alloc_pages pages_for (pages h)) as [new p'] eqn:E.
  destruct (sys_alloc_spec _ _ _ _ Hp1 E) as [[-> Ho]|(Hne & Hnone & Ho)].
  - rewrite Z.eqb_refl. eexists _, _. split; [reflexivity|]. repeat (split; [reflexivity|]).
    left. split; [reflexivity|]. split; [reflexivity|exact Ho].
  - rewrite (proj2 (Z.eqb_neq _ _) Hne). eexists _, _. split; [reflexivity|]. repeat (split; [reflexivity|]).
    right. split; [exact Hne|]. split; [exact Hnone|]. split; [exact Ho|]. simpl. f_equal.
    unfold fresh_major. f_equal. apply mul32_small.
    assert (Hl : owned p' !! new = Some pages_for) by (rewrite Ho; apply lookup_insert_eq).
    destruct (owned_ok _ _ _ Hl). lia.
Qed.

Lemma major_chain_last Ms l maj : forall prev p, major_chain Ms prev p (l ++ [maj]) ->
  exists M, Ms !! maj = Some M /\ maj_next M = 0.
Proof using.
  induction l as [|a l IH]; intros prev p H'.
  - destruct H' as (_ & _ & M & HM & _ & E). exists M. auto.
  - destruct H' as (_ & _ & M & HM & _ & Hc). eauto.
Qed.

Lemma major_chain_snoc Ms Ms' l maj new M Mn : Ms !! maj = Some M ->
  Ms' !! maj = Some (with_next M new) -> Ms' !! new = Some Mn -> maj_prev Mn = maj -> maj_next Mn = 0 ->
  new <> 0 -> (forall a, a ∈ l -> a <> maj) -> (forall a, a ∈ l -> Ms' !! a = Ms !! a) ->
  forall prev p, major_chain Ms prev p (l ++ [maj]) -> major_chain Ms' prev p (l ++ [maj; new]).
Proof using.
  intros HM HM' Hn Hp Hx Hnz. induction l as [|a l IH]; intros Hne Hs prev p H'.
  - destruct H' as (-> & Ha & M0 & HM0 & E & _). rewrite HM in HM0. injection HM0 as <-.
    split; [reflexivity|]. split; [exact Ha|]. exists (with_next M new). split; [exact HM'|]. split; [exact E|].
    split; [reflexivity|]. split; [exact Hnz|]. exists Mn. split; [exact Hn|]. split; [exact Hp|exact Hx].
  - destruct H' as (-> & Ha & M0 & HM0 & E & Hc). split; [reflexivity|]. split; [exact Ha|].
    exists M0. split; [rewrite Hs; [exact HM0|apply list_elem_of_here]|]. split; [exact E|].
    apply IH; [intros x X; apply Hne, list_elem_of_further, X
              |intros x X; apply Hs, list_elem_of_further, X|exact Hc].
Qed.

Lemma live_snoc L new b : live (L ++ [(new, [])]) b <-> live L b.
Proof using.
  split.
  - intros (a & l & Ha & Hb). apply elem_of_app in Ha as [Ha|Ha]; [exists a, l; auto|].
    apply list_elem_of_singleton in Ha. injection Ha as -> ->. inversion Hb.
  - intros (a & l & Ha & Hb). exists a, l. split; [apply elem_of_app; auto|exact Hb].
Qed.

(** Only the headers of the minor blocks and the words matter to the pointers. *)
Lemma rep_frame h h' L L' f B : heap_rep_with h L f B -> heap_inv h' L' ->
  (forall b, live L' b <-> live L b) -> minors h' = minors h -> align_words h' = align_words h ->
  heap_rep_with h' L' f B.
Proof using.
  intros (_ & Hw & HB) HI Hl Em Ew. split; [exact HI|]. rewrite Em, Ew. split.
  - intros b m Hb. apply Hw, Hl, Hb.
  - intros p n. rewrite HB. split; intros (b & m & Hb & Hr); exists b, m; (split; [apply Hl, Hb|exact Hr]).
Qed.

Lemma entry_owned h L a : heap_inv h L -> a ∈ L.*1 -> is_Some (owned (pages h) !! a).
Proof using.
  intros HI Ha. apply list_elem_of_fmap in Ha as ([x l] & -> & Hx).
  destruct (hi_major _ _ HI x l Hx) as (M & _ & Ho & _). simpl. eauto.
Qed.

(** The invariant when a fresh block is attached behind the last one. *)
Lemma snoc_inv h h' L A maj M new Mn : heap_inv h L -> L.*1 = A ++ [maj] -> majors h !! maj = Some M ->
  new <> 0 -> owned (pages h) !! new = None -> owned (pages h') = <[new := pages_for]> (owned (pages h)) ->
  majors h' = <[new := Mn]> (<[maj := with_next M new]> (majors h)) -> Mn = with_prev fresh_major maj ->
  minors h' = minors h -> align_words h' = align_words h ->
  l_memRoot h' = l_memRoot h -> l_bestBet h' = l_bestBet h ->
  heap_inv h' (L ++ [(new, [])]).
Proof using Hreq Hk Hfit.
  intros HI EL HM Hnz Hnone Ho Hmaj -> Hmin Hws Hr Hb.
  assert (Hnew : new ∉ L.*1).
  { intros Hin. destruct (entry_owned h L new HI Hin) as [x Hx]. congruence. }
  assert (Hfst : (L ++ [(new, [])]).*1 = L.*1 ++ [new]) by (rewrite fmap_app; reflexivity).
  assert (Hmn : new <> maj).
  { intros ->. apply Hnew. rewrite EL. apply elem_of_app. right. apply list_elem_of_here. }
  assert (Hother : forall a, a <> maj -> a <> new -> majors h' !! a = majors h !! a).
  { intros a H1 H2. rewrite Hmaj, !lookup_insert_ne by congruence. reflexivity. }
  constructor.
  - rewrite Hfst, EL, <- app_assoc, Hr. pose proof (hi_chain _ _ HI) as Hc. rewrite EL in Hc.
    pose proof (hi_nodup _ _ HI) as Hnd. rewrite EL in Hnd, Hnew. apply NoDup_app in Hnd as (_ & Hnd & _).
    eapply (major_chain_snoc _ _ A maj new M (with_prev fresh_major maj)); [exact HM| | |reflexivity|reflexivity|exact Hnz| | |exact Hc].
    + rewrite Hmaj, lookup_insert_ne by congruence. apply lookup_insert_eq.
    + rewrite Hmaj. apply lookup_insert_eq.
    + intros a Ha ->. apply (Hnd maj Ha), list_elem_of_here.
    + intros a Ha. apply Hother.
      * intros ->. apply (Hnd maj Ha), list_elem_of_here.
      * intros ->. apply Hnew, elem_of_app. auto.
  - rewrite Hfst. apply NoDup_app. split; [apply (hi_nodup _ _ HI)|]. split.
    + intros x Hx Hx'. apply list_elem_of_singleton in Hx'. subst x. contradiction.
    + apply NoDup_singleton.
  - intros a l Ha. apply elem_of_app in Ha as [Ha|Ha].
    + destruct (hi_major _ _ HI a l Ha) as (Ma & HMa & Oa & Sa & Ca & Ua).
      assert (Han : a <> new).
      { intros ->. apply Hnew, list_elem_of_fmap. exists (new, l). auto. }
      assert (Hlook : exists Ma', majors h' !! a = Some Ma' /\ maj_pages Ma' = maj_pages Ma
        /\ maj_size Ma' = maj_size Ma /\ maj_usage Ma' = maj_usage Ma /\ maj_first Ma' = maj_first Ma).
      { destruct (Z.eq_dec a maj) as [->|Hne].
        - rewrite HM in HMa. injection HMa as <-. exists (with_next M new). split; [|auto].
          rewrite Hmaj, lookup_insert_ne by congruence. apply lookup_insert_eq.
        - exists Ma. rewrite (Hother a Hne Han). auto. }
      destruct Hlook as (Ma' & HMa' & E1 & E2 & E3 & E4). exists Ma'. rewrite E1, E2, E3, E4, Hmin, Hws.
      split; [exact HMa'|]. split; [rewrite Ho, lookup_insert_ne by congruence; exact Oa|]. auto.
    + apply list_elem_of_singleton in Ha. injection Ha as -> ->. exists (with_prev fresh_major maj).
      destruct pages_for_room. pose proof (rsize_range req k Hreq Hk Hfit).
      split; [rewrite Hmaj; apply lookup_insert_eq|]. split; [rewrite Ho; apply lookup_insert_eq|].
      split; [reflexivity|]. split; [split; [reflexivity|simpl; lia]|reflexivity].
  - rewrite Hb, Hfst. destruct (hi_bet _ _ HI) as [E|E]; [left; exact E|right; apply elem_of_app; auto].
Qed.

Lemma extend_spec h L f B A maj : heap_rep_with h L f B -> L.*1 = A ++ [maj] ->
  exists new h', extend maj (rsize req k) h = Ok (new, h') /\ l_locked h' = l_locked h
  /\ ((new = 0 /\ heap_rep_with h' L f B)
      \/ (new <> 0 /\ heap_rep_with h' (L ++ [(new, [])]) f B /\ l_bestBet h' = l_bestBet h
          /\ majors h' !! new = Some (with_prev fresh_major maj))).
Proof using Hreq Hk Hfit.
  intros Hrep EL. pose proof Hrep as (HI & _).
  pose proof (hi_chain _ _ HI) as Hc. rewrite EL in Hc. destruct (major_chain_last _ _ _ _ _ Hc) as (M & HM & HN).
  destruct (allocate_new_page_spec h) as (new & h1 & E & E1 & E2 & E3 & E4 & E5 & Hcase).
  unfold extend. rewrite E. unfold get_major. destruct Hcase as [(-> & Em & Eo)|(Hnz & Hnone & Eo & Em)].
  - rewrite Em, HM. cbn [mbind outcome_bind]. rewrite Z.eqb_refl. eexists 0, _. split; [reflexivity|].
    split; [exact E5|]. left. split; [reflexivity|].
    assert (Hid : majors (put_major maj (with_next M 0) h1) = majors h).
    { simpl. rewrite Em. replace (with_next M 0) with M by (rewrite <- HN; destruct M; reflexivity).
      apply insert_id. exact HM. }
    apply (rep_frame h _ L L); [exact Hrep| |reflexivity|exact E1|exact E2].
    constructor; [rewrite Hid; simpl; rewrite E3; apply (hi_chain _ _ HI)|apply (hi_nodup _ _ HI)| |].
    + intros a l Ha. destruct (hi_major _ _ HI a l Ha) as (Ma & HMa & Oa & R). exists Ma.
      rewrite Hid. simpl. rewrite E1, E2, Eo. auto.
    + simpl. rewrite E4. apply (hi_bet _ _ HI).
  - assert (Hne : new <> maj).
    { intros ->. destruct (entry_owned h L maj HI) as [x Hx]; [|congruence].
      rewrite EL. apply elem_of_app. right. apply list_elem_of_here. }
    rewrite Em, lookup_insert_ne, HM by exact Hne. cbn [mbind outcome_bind].
    rewrite (proj2 (Z.eqb_neq _ _) Hnz). simpl. rewrite Em, lookup_insert_ne, lookup_insert_eq by congruence.
    cbn [mbind outcome_bind]. eexists new, _. split; [reflexivity|]. split; [exact E5|]. right.
    split; [exact Hnz|]. split; [|split; [exact E4|simpl; apply lookup_insert_eq]].
    apply (rep_frame h _ L); [exact Hrep| |intros b; apply live_snoc|exact E1|exact E2].
    apply (snoc_inv h _ L A maj M new (with_prev fresh_major maj)); try assumption; [|reflexivity].
    simpl. rewrite Em. rewrite (insert_insert_ne _ maj new) by congruence.
    rewrite insert_insert_eq. reflexivity.
Qed.

(** ** The walk over the major blocks *)
Definition malloc_post (B : gmap Z Z) (p : Z) (h' : heap P) : Prop :=
  l_locked h' = false
  /\ ((p = 0 /\ heap_rep h' B)
      \/ (heap_rep h' (<[p := req]> B) /\ p mod 2 ^ k = 0 /\ 0 < p /\ p + req < 2 ^ 32
          /\ forall q n, B !! q = Some n -> q <> p /\ (p + req <= q \/ q + n <= p))).

Lemma split_fst (L : list (Z * list Z)) A maj Z0 : L.*1 = A ++ maj :: Z0 ->
  exists L1 l L2, L = L1 ++ (maj, l) :: L2 /\ L1.*1 = A /\ L2.*1 = Z0.
Proof using.
  intros E. apply fmap_app_inv in E as (L1 & L2 & E1 & E2 & ->).
  destruct L2 as [|[a l] L2]; [discriminate|]. injection E2 as -> ->. exists L1, l, L2. auto.
Qed.

Lemma bet_rep h L f B a : heap_rep_with h L f B -> a = 0 \/ a ∈ L.*1 -> heap_rep_with (set_bet a h) L f B.
Proof using.
  intros Hrep Ha. apply (rep_frame h _ L L); [exact Hrep| |reflexivity..].
  destruct Hrep as ([C1 C2 C3 C4] & _). constructor; [exact C1|exact C2|exact C3|exact Ha].
Qed.

Lemma lock_rep h L f B b : heap_rep_with h L f B -> heap_rep_with (set_lock b h) L f B.
Proof using.
  intros Hrep. apply (rep_frame h _ L L); [exact Hrep| |reflexivity..].
  destruct Hrep as ([C1 C2 C3 C4] & _). constructor; [exact C1|exact C2|exact C3|exact C4].
Qed.

Lemma post_none h L f B : heap_rep_with h L f B -> malloc_post B 0 (unlock h).
Proof using.
  intros Hrep. split; [reflexivity|]. left. split; [reflexivity|]. exists L, f. apply lock_rep, Hrep.
Qed.

(** A successful insertion satisfies the contract. *)
Lemma insert_post h h' L1 L2 maj l M f f' p b o l' B :
  heap_rep_with h (L1 ++ (maj, l) :: L2) f B -> majors h !! maj = Some M ->
  same_rest h h' maj (with_usage (with_first M f') (maj_usage M + rsize req k + 24)) ->
  inserted req k h h' maj (maj + maj_size M) 0 (maj + 24) f' l p b o l' ->
  malloc_post B p h'.
Proof using Hreq Hk Hfit.
  intros Hrep HM HR Hins. pose proof Hrep as (HI & _).
  destruct (major_ok_range _ _ _ (hi_major _ _ HI maj l (here_old _ _ _ _))) as (M0 & HM0 & _ & _ & _ & G4 & _).
  rewrite HM in HM0. injection HM0 as <-.
  destruct (inserted_rep h h' L1 L2 maj l M f' p b o l' HI HM HR Hins f B Hrep) as (R1 & R2 & R3 & R4 & R5).
  split; [apply HR|]. right. split; [eexists _, _; exact R1|]. split; [exact R2|]. split; [exact R3|].
  split; [lia|exact R5].
Qed.

Lemma fresh_post h L f B new maj : heap_rep_with h (L ++ [(new, [])]) f B ->
  majors h !! new = Some (with_prev fresh_major maj) ->
  exists p h', try_major new (rsize req k) req (2 ^ k) h = Ok (Some (p, h')) /\ malloc_post B p h'.
Proof using Hreq Hk Hfit.
  intros Hrep HM. pose proof Hrep as (HI & _). destruct pages_for_room.
  destruct (try_major_spec h L [] new [] _ HI HM) as [[_ E]|(p & h' & b & o & l' & f' & E & S & I)].
  - simpl. lia.
  - contradiction.
  - exists p, h'. split; [exact E|]. eapply insert_post; eassumption.
Qed.

(** The room of a block decides CASE 1. *)
Lemma room_diff h L a : heap_inv h L -> a ∈ L.*1 -> exists M, majors h !! a = Some M
  /\ sub32 (maj_size M) (maj_usage M) = maj_size M - maj_usage M /\ a <> 0.
Proof using.
  intros HI Ha. apply list_elem_of_fmap in Ha as ([x l] & -> & Hx). simpl.
  destruct (major_ok_range _ _ _ (hi_major _ _ HI x l Hx)) as (M & HM & G1 & _ & _ & G4 & G5 & _).
  exists M. split; [exact HM|]. split; [apply sub32_small; lia|lia].
Qed.

Lemma next_in_chain Ms A maj Z0 M : Ms !! maj = Some M -> forall prev p,
  major_chain Ms prev p (A ++ maj :: Z0) ->
  match Z0 with [] => maj_next M = 0 | n :: _ => maj_next M = n /\ n <> 0 end.
Proof using.
  intros HM. induction A as [|a A IH]; intros prev p Hc.
  - destruct Hc as (_ & _ & M0 & HM0 & _ & Hc). rewrite HM in HM0. injection HM0 as <-.
    destruct Z0 as [|n Z0]; [exact Hc|]. destruct Hc as (E & En & _). auto.
  - destruct Hc as (_ & _ & M0 & _ & _ & Hc). exact (IH _ _ Hc).
Qed.

Lemma get_major_Ok h a M : majors h !! a = Some M -> get_major a h = Ok M.
Proof using. intros E. unfold get_major. rewrite E. reflexivity. Qed.

Lemma root_in h L f B : heap_rep_with h L f B -> L <> [] -> exists Z0, L.*1 = [] ++ l_memRoot h :: Z0.
Proof using.
  intros (HI & _) HL. pose proof (hi_chain _ _ HI) as Hc. destruct L as [|[a l] L]; [contradiction|].
  destruct Hc as (-> & _). eexists. reflexivity.
Qed.

(** The best bet is noted, and the walk goes on with the same blocks. *)
Lemma note_best h L f B maj (best diff : Z) : heap_rep_with h L f B -> maj ∈ L.*1 ->
  exists h1 b1, (if best <? diff then (set_bet maj h, diff) else (h, best)) = (h1, b1)
    /\ heap_rep_with h1 L f B /\ majors h1 = majors h /\ l_memRoot h1 = l_memRoot h.
Proof using.
  intros Hrep Hin. destruct (best <? diff); eexists _, _; (split; [reflexivity|]); [|auto].
  split; [apply bet_rep; [exact Hrep|right; exact Hin]|auto].
Qed.

(** A block that was just attached serves the request. *)
Lemma fresh_loop fuel h L f B new maj started best : heap_rep_with h (L ++ [(new, [])]) f B ->
  majors h !! new = Some (with_prev fresh_major maj) -> (0 < fuel)%nat ->
  exists p h', major_loop fuel new started best (rsize req k) req (2 ^ k) h = Ok (p, h')
    /\ malloc_post B p h'.
Proof using Hreq Hk Hfit.
  intros Hrep HM Hf. destruct fuel as [|fuel]; [lia|]. pose proof (rsize_range req k Hreq Hk Hfit) as Hrs.
  destruct pages_for_room as [_ Hroom].
  assert (Hin : new ∈ (L ++ [(new, [])]).*1).
  { rewrite fmap_app. apply elem_of_app. right. apply list_elem_of_here. }
  destruct (room_diff h _ new (proj1 Hrep) Hin) as (M & HM' & Hdiff & Hnz).
  rewrite HM in HM'. injection HM' as <-.
  cbn [major_loop]. rewrite (proj2 (Z.eqb_neq _ _) Hnz). rewrite (get_major_Ok _ _ _ HM).
  cbn [mbind outcome_bind]. rewrite Hdiff. unfold sizeof_minor. rewrite (add32_small (rsize req k) 24) by lia.
  destruct (note_best h _ f B new best (maj_size (with_prev fresh_major maj) - maj_usage (with_prev fresh_major maj)) Hrep Hin)
    as (h1 & b1 & -> & Hrep1 & Em & _). cbv iota beta.
  rewrite (proj2 (Z.ltb_ge _ _)) by (simpl; lia).
  rewrite <- Em in HM. destruct (fresh_post _ _ _ _ _ _ Hrep1 HM) as (p & h' & Et & Hp).
  rewrite Et. exists p, h'. split; [reflexivity|exact Hp].
Qed.

Lemma major_loop_spec : forall fuel h L f B A maj Z0 (started : bool) best,
  heap_rep_with h L f B -> L.*1 = A ++ maj :: Z0 ->
  (length Z0 + (if started then length L else 0) + 1 < fuel)%nat ->
  exists p h', major_loop fuel maj started best (rsize req k) req (2 ^ k) h = Ok (p, h')
    /\ malloc_post B p h'.
Proof using Hreq Hk Hfit.
  pose proof (rsize_range req k Hreq Hk Hfit) as Hrs.
  induction fuel as [|fuel IH]; intros h L f B A maj Z0 started best Hrep EL Hfuel; [lia|].
  assert (Hin : maj ∈ L.*1) by (rewrite EL; apply elem_of_app; right; apply list_elem_of_here).
  destruct (room_diff h L maj (proj1 Hrep) Hin) as (M & HM & Hdiff & Hnz).
  cbn [major_loop]. rewrite (proj2 (Z.eqb_neq _ _) Hnz). rewrite (get_major_Ok _ _ _ HM).
  cbn [mbind outcome_bind]. rewrite Hdiff. unfold sizeof_minor. rewrite (add32_small (rsize req k) 24) by lia.
  destruct (note_best h L f B maj best (maj_size M - maj_usage M) Hrep Hin) as (h1 & b1 & -> & Hrep1 & Em & Er).
  assert (HLne : L <> []) by (intros ->; destruct A; discriminate).
  pose proof (hi_chain _ _ (proj1 Hrep1)) as Hc. rewrite EL, Em in Hc.
  pose proof (next_in_chain _ _ _ _ _ HM _ _ Hc) as Hnext.
  (* where the walk goes when this block does not serve *)
  assert (Hstep : forall best', Z0 <> [] \/ started = true -> exists p h',
    major_loop fuel (if maj_next M =? 0 then l_memRoot h1 else maj_next M)
      (if maj_next M =? 0 then false else started) best' (rsize req k) req (2 ^ k) h1 = Ok (p, h')
    /\ malloc_post B p h').
  { intros best' Hor. destruct Z0 as [|nx Z0].
    - destruct Hor as [Hor| ->]; [contradiction|]. rewrite Hnext, Z.eqb_refl.
      destruct (root_in h1 L f B Hrep1 HLne) as [Z1 E1].
      apply (IH h1 L f B [] (l_memRoot h1) Z1 false best' Hrep1 E1).
      apply (f_equal length) in E1. rewrite length_fmap in E1. simpl in E1, Hfuel. lia.
    - destruct Hnext as [-> Hnz']. rewrite (proj2 (Z.eqb_neq _ _) Hnz').
      apply (IH h1 L f B (A ++ [maj]) nx Z0 started best' Hrep1).
      + rewrite <- app_assoc. exact EL.
      + simpl in Hfuel. lia. }
  destruct (Z.ltb_spec (maj_size M - maj_usage M) (rsize req k + 24)) as [Hfull|Hroom].
  - destruct (Z.eqb_spec (maj_next M) 0) as [En|En]; cbn [negb].
    + destruct started; [apply (Hstep b1); auto|].
      destruct Z0 as [|nx Z0]; [|destruct Hnext; lia].
      destruct (extend_spec h1 L f B A maj Hrep1 EL) as (new & h2 & E & _ & [(-> & Hr)|(Hnew & Hr & _ & Hmn)]);
        rewrite E; cbn [mbind outcome_bind].
      * eexists 0, _. split; [reflexivity|]. exact (post_none _ _ _ _ Hr).
      * rewrite (proj2 (Z.eqb_neq _ _) Hnew).
        destruct (fresh_post _ _ _ _ _ _ Hr Hmn) as (p & h' & Et & Hp). rewrite Et.
        exists p, h'. split; [reflexivity|exact Hp].
    + apply Hstep. left. intros ->. contradiction.
  - destruct (split_fst _ _ _ _ EL) as (L1 & l & L2 & -> & <- & <-).
    assert (HM1 : majors h1 !! maj = Some M) by (rewrite Em; exact HM).
    destruct (try_major_spec h1 L1 L2 maj l M (proj1 Hrep1) HM1) as [[E _]|(p & h' & b & o & l' & f' & E & S & I)];
      [lia|rewrite E; cbn [mbind outcome_bind]|rewrite E].
    + rewrite (get_major_Ok _ _ _ HM1). cbn [mbind outcome_bind].
      destruct (Z.eqb_spec (maj_next M) 0) as [En|En]; [|apply Hstep; left; intros Hn; rewrite Hn in Hnext; contradiction].
      destruct started; [apply (Hstep b1); auto|].
      destruct (L2.*1) as [|nx Z1] eqn:EZ; [|destruct Hnext; lia].
      assert (EL' : (L1 ++ (maj, l) :: L2).*1 = L1.*1 ++ [maj]) by exact EL.
      destruct (extend_spec h1 _ f B _ maj Hrep1 EL') as (new & h2 & Ee & _ & [(-> & Hr)|(Hnew & Hr & _ & Hmn)]);
        rewrite Ee; cbn [mbind outcome_bind].
      * eexists 0, _. split; [reflexivity|]. exact (post_none _ _ _ _ Hr).
      * rewrite (proj2 (Z.eqb_neq _ _) Hnew).
        apply (fresh_loop fuel h2 _ f B new maj false b1 Hr Hmn). simpl in Hfuel. lia.
    + exists p, h'. split; [reflexivity|]. eapply insert_post; eassumption.
Qed.

(** ** [malloc_bytes] *)
Lemma length_majors h L f B : heap_rep_with h L f B -> (length L <= size_of (majors h))%nat.
Proof using.
  intros (HI & _). rewrite <- (length_fmap fst L). apply length_le_size; [apply (hi_nodup _ _ HI)|].
  intros x Hx. destruct (room_diff h L x HI Hx) as (M & HM & _). eauto.
Qed.

Lemma best_bet_spec h L f B : heap_rep_with h L f B -> L <> [] ->
  exists maj started best A Z0, best_bet (rsize req k) h = Ok (maj, started, best) /\ L.*1 = A ++ maj :: Z0.
Proof using.
  intros Hrep HL. destruct (root_in h L f B Hrep HL) as [Zr Er]. unfold best_bet.
  destruct (Z.eqb_spec (l_bestBet h) 0) as [|Hb].
  - eexists _, _, _, [], Zr. split; [reflexivity|exact Er].
  - destruct (hi_bet _ _ (proj1 Hrep)) as [E|Hin]; [contradiction|].
    destruct (room_diff h L _ (proj1 Hrep) Hin) as (M & HM & _). rewrite (get_major_Ok _ _ _ HM).
    cbn [mbind outcome_bind]. apply list_elem_of_split in Hin as (A & Z0 & E).
    destruct (_ <? _); [eexists _, _, _, A, Z0|eexists _, _, _, [], Zr]; (split; [reflexivity|]); assumption.
Qed.

(** From a heap with at least one block, the walk satisfies the contract. *)
Lemma walk_spec h L f B : heap_rep_with h L f B -> L <> [] -> exists p h',
  ('(maj, startedBet, bestSize) ← best_bet (rsize req k) h;
   major_loop (major_fuel h) maj startedBet bestSize (rsize req k) req (2 ^ k) h) = Ok (p, h')
  /\ malloc_post B p h'.
Proof using Hreq Hk Hfit.
  intros Hrep HL. destruct (best_bet_spec h L f B Hrep HL) as (maj & st & best & A & Z0 & E & EL).
  rewrite E. cbn [mbind outcome_bind]. apply (major_loop_spec _ h L f B A maj Z0); [exact Hrep|exact EL|].
  pose proof (length_majors h L f B Hrep). apply (f_equal length) in EL.
  rewrite length_fmap, length_app in EL. simpl in EL. unfold major_fuel. destruct st; lia.
Qed.

(** The first block of an empty heap. *)
Lemma root_rep h h1 new f B : heap_rep_with h [] f B -> new <> 0 ->
  owned (pages h1) = <[new := pages_for]> (owned (pages h)) -> majors h1 = <[new := fresh_major]> (majors h) ->
  minors h1 = minors h -> align_words h1 = align_words h -> l_bestBet h1 = l_bestBet h ->
  heap_rep_with (set_root new h1) [(new, [])] f B.
Proof using Hreq Hk Hfit.
  intros Hrep Hnz Eo Em E1 E2 Eb. destruct pages_for_room. pose proof (rsize_range req k Hreq Hk Hfit).
  apply (rep_frame h _ []); [exact Hrep| |intros b; apply (live_snoc [])|exact E1|exact E2].
  constructor.
  - split; [reflexivity|]. split; [exact Hnz|]. exists fresh_major. split; [|split; reflexivity].
    simpl. rewrite Em. apply lookup_insert_eq.
  - apply NoDup_singleton.
  - intros a l Ha. apply list_elem_of_singleton in Ha. injection Ha as -> ->. exists fresh_major. simpl.
    split; [rewrite Em; apply lookup_insert_eq|]. split; [rewrite Eo; apply lookup_insert_eq|].
    split; [reflexivity|]. split; [split; [reflexivity|lia]|reflexivity].
  - left. simpl. rewrite Eb. destruct (hi_bet _ _ (proj1 Hrep)) as [E|Hin]; [exact E|inversion Hin].
Qed.

Lemma malloc_bytes_spec h B : heap_rep h B -> l_locked h = false ->
  exists p h', malloc_bytes 2 req (2 ^ k) h = Ok (p, h') /\ malloc_post B p h'.
Proof using Hreq Hk Hfit.
  intros (L & f & Hrep) Hlock. pose proof (rsize_range req k Hreq Hk Hfit). pose proof (pow_k k Hk).
  assert (Esz : add32 req (add32 sizeof_align_t (sub32 (2 ^ k) 1)) = rsize req k).
  { unfold rsize in *. unfold sizeof_align_t. rewrite (sub32_small (2 ^ k)) by lia.
    rewrite (add32_small 4) by lia. rewrite add32_small; lia. }
  cbn [malloc_bytes]. rewrite Esz. unfold lock. rewrite Hlock. cbn [mbind outcome_bind].
  rewrite (proj2 (Z.eqb_neq (rsize req k) 0)) by lia.
  apply (lock_rep h L f B true) in Hrep. set (h0 := set_lock true h) in *. clearbody h0.
  destruct (Z.eqb_spec (l_memRoot h0) 0) as [Er|Er].
  - assert (HL : L = []).
    { destruct L as [|[a l] L]; [reflexivity|]. pose proof (hi_chain _ _ (proj1 Hrep)) as (E & Ha & _).
      exfalso. apply Ha. exact (eq_trans (eq_sym E) Er). }
    subst L. destruct (allocate_new_page_spec h0) as (new & h1 & -> & E1 & E2 & E3 & E4 & E5 & Hcase).
    destruct Hcase as [(-> & Em & Eo)|(Hnz & _ & Eo & Em)].
    + rewrite Z.eqb_refl. eexists 0, _. split; [reflexivity|]. apply (post_none _ [] f).
      apply (rep_frame h0 _ [] []); [exact Hrep| |reflexivity|exact E1|exact E2].
      constructor; [reflexivity|constructor|intros a l Ha; inversion Ha|].
      left. simpl. rewrite E4. destruct (hi_bet _ _ (proj1 Hrep)) as [E|Hin]; [exact E|inversion Hin].
    + rewrite (proj2 (Z.eqb_neq _ _) Hnz).
      apply (walk_spec _ [(new, [])] f); [|discriminate]. eapply root_rep; eassumption.
  - rewrite (proj2 (Z.eqb_neq _ _) Er). apply (walk_spec _ L f); [exact Hrep|].
    intros ->. apply Er. exact (hi_chain _ _ (proj1 Hrep)).
Qed.
End heap_invariant.
