(* ===== verification/LiballocFree.v ===== *)
(** * The heap allocator: releasing a block *)
From stdpp Require Import gmap sets.
From S2P Require Import Prelude Liballoc LiballocChains LiballocProofs.
#[local] Open Scope Z_scope.

(** ** Unlinking a header from its chain *)

(** The header at [x] after [m] was unlinked. *)
Definition relinked (m : minor_block) (x : Z) (mx : minor_block) : minor_block :=
  mk_minor (if decide (x = min_next m) then min_prev m else min_prev mx)
           (if decide (x = min_prev m) then min_next m else min_next mx)
           (min_block mx) (min_magic mx) (min_size mx) (min_req_size mx).

Lemma relinked_other m x mx : x <> min_next m -> x <> min_prev m -> relinked m x mx = mx.
Proof. intros H1 H2. unfold relinked. rewrite !decide_False by assumption. destruct mx. reflexivity. Qed.

(** The chain behind a removed first header. *)
Lemma chain_remove_head ms ms' ws maj hi l prev lo b m :
  minor_chain ms ws maj prev lo hi b (b :: l) -> ms !! b = Some m -> prev < lo ->
  (forall x mx, x ∈ l -> ms !! x = Some mx -> ms' !! x = Some (relinked m x mx)) ->
  minor_chain ms' ws maj prev lo hi (min_next m) l.
Proof.
  intros Hc Hm Hpl Hms. destruct (behind_spec _ _ _ _ _ _ _ _ _ Hc Hm) as (B1 & B2 & B3 & B4 & B5 & B6 & B7 & B8).
  destruct Hc as (_ & m0 & Hm0 & (_ & _ & _ & N4 & _) & _). rewrite Hm in Hm0. injection Hm0 as <-.
  destruct l as [|c l]; [destruct B7; split; [assumption|lia]|].
  destruct B7 as (Ec & mc & Hmc & (C1 & C2 & C3 & C4 & C5 & C6 & o & W) & Hc). subst c.
  apply NoDup_cons in B6 as [B6 _].
  pose proof (Hms _ mc (list_elem_of_here _ _) Hmc) as Hc'.
  assert (Hself : relinked m (min_next m) mc = min_with_prev mc prev).
  { unfold relinked. rewrite decide_True by reflexivity. rewrite decide_False by lia. rewrite N4. reflexivity. }
  rewrite Hself in Hc'. split; [reflexivity|]. exists (min_with_prev mc prev). split; [exact Hc'|]. split.
  - split; [exact C1|]. split; [lia|]. split; [exact C3|]. split; [reflexivity|]. split; [exact C5|].
    split; [exact C6|]. exists o. exact W.
  - apply (chain_frame ms _ ws ws); [exact Hc| |reflexivity]. intros x Hx.
    destruct (chain_bounds _ _ _ _ _ _ _ _ Hc) as [_ Hin]. destruct (Hin x Hx) as (_ & X1 & mx & Hmx & _).
    rewrite (Hms x mx (list_elem_of_further _ _ _ Hx) Hmx), relinked_other; [symmetry; exact Hmx| |].
    + intros ->. contradiction.
    + rewrite N4. apply word_ok_size in W. lia.
Qed.

Lemma last_cons_in (a : Z) l d : match last l with Some x => x | None => a end = d -> d = a \/ d ∈ l.
Proof.
  destruct (last l) as [x|] eqn:E; intros <-; [|auto]. right. apply last_Some_elem_of in E. exact E.
Qed.

Lemma chain_prev ms ws maj hi l1 b l2 m : ms !! b = Some m -> forall prev lo p,
  minor_chain ms ws maj prev lo hi p (l1 ++ b :: l2) ->
  min_prev m = match last l1 with Some x => x | None => prev end
  /\ (min_next m = match l2 with [] => 0 | c :: _ => c end).
Proof.
  intros Hm. induction l1 as [|a l1 IH]; intros prev lo p Hc.
  - destruct Hc as (_ & m0 & Hm0 & (_ & _ & _ & N4 & _) & Hc). rewrite Hm in Hm0. injection Hm0 as <-.
    split; [exact N4|]. destruct l2; [apply Hc|]. apply Hc.
  - destruct Hc as (_ & ma & _ & _ & Hc). destruct (IH _ _ _ Hc) as [E1 E2]. split; [|exact E2].
    rewrite E1. destruct l1 as [|y l1]; [reflexivity|]. rewrite last_cons_cons. 
    destruct (last (y :: l1)) eqn:E; [reflexivity|]. apply last_None in E. discriminate.
Qed.

Lemma chain_remove ms ms' ws maj hi l1 b l2 m : ms !! b = Some m -> forall prev lo p,
  minor_chain ms ws maj prev lo hi p (l1 ++ b :: l2) -> prev < lo ->
  (forall x mx, x ∈ l1 ++ l2 -> ms !! x = Some mx -> ms' !! x = Some (relinked m x mx)) ->
  minor_chain ms' ws maj prev lo hi (match l1 with [] => min_next m | _ => p end) (l1 ++ l2).
Proof.
  intros Hm. induction l1 as [|a l1 IH]; intros prev lo p Hc Hpl Hms.
  - pose proof Hc as (-> & _). exact (chain_remove_head _ _ _ _ _ _ _ _ _ _ Hc Hm Hpl Hms).
  - pose proof (chain_NoDup _ _ _ _ _ _ _ _ Hc) as Hnd.
    destruct (chain_prev _ _ _ _ (a :: l1) b l2 m Hm _ _ _ Hc) as [_ En].
    destruct Hc as (-> & ma & Hma & (N1 & N2 & N3 & N4 & N5 & N6 & o & W) & Hc).
    destruct (chain_prev _ _ _ _ l1 b l2 m Hm _ _ _ Hc) as [Ep _].
    pose proof (word_ok_size _ _ _ _ W) as Hsz.
    assert (Ha : a ∉ l1 ++ b :: l2) by (apply NoDup_cons in Hnd; apply Hnd).
    assert (Hanext : a <> min_next m).
    { rewrite En. destruct l2 as [|c l2]; [clear - N1; lia|]. intros ->. apply Ha. apply elem_of_app. right.
      apply list_elem_of_further, list_elem_of_here. }
    pose proof (Hms a ma (list_elem_of_here _ _) Hma) as Ha'.
    simpl. split; [reflexivity|]. exists (relinked m a ma). split; [exact Ha'|]. split.
    + unfold relinked. split; [exact N1|]. split; [exact N2|]. split; [exact N3|].
      split; [simpl; rewrite decide_False by exact Hanext; exact N4|]. split; [exact N5|]. split; [exact N6|].
      exists o. exact W.
    + assert (Enext : min_next (relinked m a ma) = match l1 with [] => min_next m | _ => min_next ma end).
      { unfold relinked. simpl. destruct l1 as [|y l1].
        - rewrite decide_True; [reflexivity|]. rewrite Ep. reflexivity.
        - rewrite decide_False; [reflexivity|]. rewrite Ep. intros E.
          destruct (last (y :: l1)) as [z|] eqn:El; [|apply last_None in El; discriminate].
          apply last_Some_elem_of in El. apply Ha. apply elem_of_app. left. rewrite E. exact El. }
      rewrite Enext. apply (IH a (a + 24 + min_size ma) _ Hc); [lia|]. intros x mx Hx. apply Hms, list_elem_of_further, Hx.
Qed.

Lemma total_relinked ms ms' m l :
  (forall x mx, x ∈ l -> ms !! x = Some mx -> ms' !! x = Some (relinked m x mx)) ->
  (forall x, x ∈ l -> is_Some (ms !! x)) -> total ms' l = total ms l.
Proof.
  intros H1 H2. apply total_same; [|exact H2]. intros x mx Hx Hmx.
  eexists. split; [exact (H1 x mx Hx Hmx)|]. repeat split.
Qed.

Section unlink.
Context {P : Type}.
Implicit Types h : heap P.

(** [unlink_minor] relinks both neighbours, and the major block when there is no
    predecessor. *)
Lemma unlink_minor_spec h m mj :
  (min_next m <> 0 -> is_Some (minors h !! min_next m)) ->
  (min_prev m <> 0 -> is_Some (minors h !! min_prev m)) ->
  majors h !! min_block m = Some mj ->
  exists h', unlink_minor m h = Ok h'
    /\ (forall x mx, x <> 0 -> minors h !! x = Some mx -> minors h' !! x = Some (relinked m x mx))
    /\ majors h' = (if min_prev m =? 0 then <[min_block m := with_first mj (min_next m)]> (majors h) else majors h)
    /\ align_words h' = align_words h /\ l_memRoot h' = l_memRoot h /\ l_bestBet h' = l_bestBet h
    /\ l_locked h' = l_locked h /\ pages h' = pages h.
Proof.
  intros Hn Hp Hmj. unfold unlink_minor, get_minor, get_major.
  assert (H1 : exists h1, (if min_next m =? 0 then Ok h
       else n ← get_minor (min_next m) h; Ok (put_minor (min_next m) (min_with_prev n (min_prev m)) h)) = Ok h1
    /\ majors h1 = majors h /\ align_words h1 = align_words h /\ l_memRoot h1 = l_memRoot h
    /\ l_bestBet h1 = l_bestBet h /\ l_locked h1 = l_locked h /\ pages h1 = pages h
    /\ forall x mx, x <> 0 -> minors h !! x = Some mx -> minors h1 !! x =
         Some (mk_minor (if decide (x = min_next m) then min_prev m else min_prev mx) (min_next mx)
                 (min_block mx) (min_magic mx) (min_size mx) (min_req_size mx))).
  { destruct (Z.eqb_spec (min_next m) 0) as [E|E].
    - exists h. split; [reflexivity|]. repeat (split; [reflexivity|]). intros x mx Hx Hmx.
      rewrite decide_False by congruence. rewrite Hmx. destruct mx. reflexivity.
    - destruct (Hn E) as [n Hmn]. unfold get_minor. rewrite Hmn. cbn [mbind outcome_bind].
      eexists. split; [reflexivity|]. repeat (split; [reflexivity|]). intros x mx Hx Hmx. simpl.
      destruct (decide (x = min_next m)) as [->|Hne].
      + rewrite lookup_insert_eq. rewrite Hmn in Hmx. injection Hmx as <-. reflexivity.
      + rewrite lookup_insert_ne by congruence. rewrite Hmx. destruct mx. reflexivity. }
  destruct H1 as (h1 & E1 & J1 & J2 & J3 & J4 & J5 & J6 & J7). unfold get_minor in E1. rewrite E1.
  cbn [mbind outcome_bind]. destruct (Z.eqb_spec (min_prev m) 0) as [E|E].
  - cbn [mbind outcome_bind]. rewrite J1, Hmj. cbn [mbind outcome_bind]. eexists. split; [reflexivity|].
    split; [|repeat (split; [assumption || (simpl; rewrite J1; reflexivity)|]); assumption].
    intros x mx Hx Hmx. simpl. rewrite (J7 x mx Hx Hmx). unfold relinked.
    rewrite (decide_False (P := x = min_prev m)) by congruence. reflexivity.
  - destruct (Hp E) as [q Hq]. rewrite (J7 _ q E Hq). cbn [mbind outcome_bind]. eexists. split; [reflexivity|].
    split; [|repeat (split; [assumption|]); assumption].
    intros x mx Hx Hmx. simpl. unfold relinked. destruct (decide (x = min_prev m)) as [->|Hne].
    + rewrite lookup_insert_eq. rewrite Hq in Hmx. injection Hmx as <-. reflexivity.
    + rewrite lookup_insert_ne by congruence. exact (J7 x mx Hx Hmx).
Qed.
End unlink.

(** ** The heap without one block *)
Section removal.
Context {P : Type} `{PageSourceLaws P}.
Context (h h' : heap P) (L1 L2 : list (Z * list Z)) (maj : Z) (l1 l2 : list Z) (b : Z)
  (M M' : major_block) (m : minor_block).
Local Notation l := (l1 ++ b :: l2).
Local Notation L := (L1 ++ (maj, l) :: L2).
Local Notation L' := (L1 ++ (maj, l1 ++ l2) :: L2).
Context (HI : heap_inv h L) (HM : majors h !! maj = Some M) (Hm : minors h !! b = Some m)
  (Hmaj : majors h' = <[maj := M']> (majors h))
  (HM' : M' = mk_major (maj_prev M) (maj_next M) (maj_pages M) (maj_size M)
                (maj_usage M - (min_size m + 24))
                (match l1 with [] => min_next m | _ => maj_first M end))
  (Hmin : forall x mx, x <> 0 -> x <> b -> minors h !! x = Some mx -> minors h' !! x = Some (relinked m x mx))
  (Hws : align_words h' = align_words h) (Hroot : l_memRoot h' = l_memRoot h)
  (Hbet : l_bestBet h' = l_bestBet h) (Hpages : pages h' = pages h).

Lemma rem_here : (maj, l) ∈ L.
Proof using. apply elem_of_app; right; apply list_elem_of_here. Qed.
Lemma rem_here' : (maj, l1 ++ l2) ∈ L'.
Proof using. apply elem_of_app; right; apply list_elem_of_here. Qed.

Lemma rem_chain : minor_chain (minors h) (align_words h) maj 0 (maj + 24) (maj + maj_size M) (maj_first M) l
  /\ maj_usage M = 24 + total (minors h) l /\ 0 < maj
  /\ owned (pages h) !! maj = Some (maj_pages M) /\ maj_size M = maj_pages M * 4096.
Proof using HI HM.
  destruct (hi_major _ _ HI maj _ rem_here) as (M0 & HM0 & Ho & Hs & Hc & Hu).
  rewrite HM in HM0. injection HM0 as <-. destruct (owned_ok _ _ _ Ho). auto 10.
Qed.

Lemma rem_nodup : b ∉ l1 ++ l2.
Proof using HI HM.
  destruct rem_chain as (Hc & _). pose proof (chain_NoDup _ _ _ _ _ _ _ _ Hc) as Hnd.
  rewrite <- Permutation_middle in Hnd. apply NoDup_cons in Hnd. apply Hnd.
Qed.

(** The neighbours of [b] are in its chain. *)
Lemma rem_neighbours x : (x = min_next m \/ x = min_prev m) -> x = 0 \/ x ∈ l1 ++ l2.
Proof using HI HM Hm.
  destruct rem_chain as (Hc & _). destruct (chain_prev _ _ _ _ l1 b l2 m Hm _ _ _ Hc) as [E1 E2].
  intros [->| ->].
  - rewrite E2. destruct l2; [auto|]. right. apply elem_of_app. right. apply list_elem_of_here.
  - rewrite E1. destruct (last l1) eqn:E; [|auto]. right. apply elem_of_app. left.
    apply last_Some_elem_of. exact E.
Qed.

Lemma rem_in_chain x : x ∈ l1 ++ l2 -> x ∈ l.
Proof using. rewrite <- Permutation_middle. apply list_elem_of_further. Qed.

(** A header of another major block is not touched. *)
Lemma rem_foreign a la x mx : (a, la) ∈ L -> a <> maj -> x ∈ la -> minors h !! x = Some mx ->
  minors h' !! x = Some mx.
Proof using HI HM Hm Hmin.
  intros Ha Hne Hx Hmx. destruct rem_chain as (Hc & _ & Hpos & _).
  destruct (hi_major _ _ HI a la Ha) as (Ma & HMa & _ & _ & Hca & _).
  pose proof (entries_disjoint _ _ _ _ _ _ _ _ HI Ha rem_here HMa HM Hne) as Hd.
  destruct (chain_bounds _ _ _ _ _ _ _ _ Hca) as [_ Hina]. destruct (chain_bounds _ _ _ _ _ _ _ _ Hc) as [_ Hin].
  destruct (Hina x Hx) as (X0 & X1 & mx' & Hmx' & _ & X2 & _ & ox & Wx). apply word_ok_size in Wx.
  assert (Hnot : x ∉ l).
  { intros Hx'. destruct (Hin x Hx') as (_ & X3 & mx2 & Hmx2 & _ & X4 & _).
    rewrite Hmx' in Hmx2. injection Hmx2 as <-. lia. }
  assert (Hnb : forall y, (y = min_next m \/ y = min_prev m) -> x <> y).
  { intros y Hy E. subst y. destruct (rem_neighbours x Hy) as [E|Hin']; [lia|].
    exact (Hnot (rem_in_chain _ Hin')). }
  rewrite <- (relinked_other m x mx); [apply Hmin; [lia| |exact Hmx]|apply Hnb; auto..].
  intros E. apply Hnot. rewrite E. apply elem_of_app. right. apply list_elem_of_here.
Qed.

Lemma rem_own x mx : x ∈ l1 ++ l2 -> minors h !! x = Some mx -> minors h' !! x = Some (relinked m x mx).
Proof using HI HM Hmin.
  intros Hx Hmx. destruct rem_chain as (Hc & _).
  destruct (chain_bounds _ _ _ _ _ _ _ _ Hc) as [_ Hin]. destruct (Hin x (rem_in_chain x Hx)) as (X0 & _).
  apply Hmin; [lia| |exact Hmx]. intros E. subst x. exact (rem_nodup Hx).
Qed.

Lemma removal_inv : heap_inv h' L'.
Proof using All.
  destruct rem_chain as (Hc & Hu & Hpos & Ho & Hs). constructor.
  - rewrite (entry_fst L1 L2 maj l), Hroot. eapply major_chain_frame; [apply (hi_chain _ _ HI)|].
    intros a Ma _ HMa. rewrite Hmaj. destruct (Z.eq_dec a maj) as [->|Ha].
    + rewrite HM in HMa. injection HMa as <-. rewrite lookup_insert_eq. eexists. split; [reflexivity|].
      rewrite HM'. auto.
    + rewrite lookup_insert_ne by congruence. eauto.
  - rewrite (entry_fst L1 L2 maj l). apply (hi_nodup _ _ HI).
  - intros a la Ha. destruct (entry_other L1 L2 maj l a la (hi_nodup _ _ HI) _ Ha) as [[-> ->]|[Hne Hal]].
    + exists M'. split; [rewrite Hmaj; apply lookup_insert_eq|]. rewrite Hpages, HM', Hws. simpl.
      split; [exact Ho|]. split; [exact Hs|]. split.
      * eapply chain_remove; [exact Hm|exact Hc|lia|]. intros x mx Hx Hmx. exact (rem_own x mx Hx Hmx).
      * rewrite (total_relinked (minors h) (minors h') m (l1 ++ l2)).
        -- rewrite Hu. rewrite (total_perm (minors h) l (b :: l1 ++ l2)) by (symmetry; apply Permutation_middle).
           simpl. rewrite Hm. lia.
        -- exact rem_own.
        -- intros x Hx. destruct (chain_bounds _ _ _ _ _ _ _ _ Hc) as [_ Hin].
           destruct (Hin x (rem_in_chain x Hx)) as (_ & _ & mx & Hmx & _). eauto.
    + pose proof (hi_major _ _ HI a la Hal) as Hoka.
      destruct (major_ok_range _ _ _ Hoka) as (Ma & HMa & _).
      apply (major_ok_frame h h' a la Ma Hoka HMa).
      * rewrite Hmaj, lookup_insert_ne by congruence. exact HMa.
      * rewrite Hpages. reflexivity.
      * intros x Hx. destruct Hoka as (M0 & _ & _ & _ & Hca & _).
        destruct (chain_bounds _ _ _ _ _ _ _ _ Hca) as [_ Hin]. destruct (Hin x Hx) as (_ & _ & mx & Hmx & _).
        rewrite Hmx. exact (rem_foreign a la x mx Hal Hne Hx Hmx).
      * intros x _. rewrite Hws. reflexivity.
  - rewrite Hbet, (entry_fst L1 L2 maj l). apply (hi_bet _ _ HI).
Qed.

Lemma removal_live x : live L' x <-> x <> b /\ live L x.
Proof using HI HM Hm.
  split.
  - intros (a & la & Ha & Hx). destruct (entry_other L1 L2 maj l a la (hi_nodup _ _ HI) _ Ha) as [[-> ->]|[Hne Hal]].
    + split; [intros E; subst x; exact (rem_nodup Hx)|]. exists maj, l. split; [exact rem_here|exact (rem_in_chain x Hx)].
    + split; [|exists a, la; auto]. intros E. subst x.
      destruct rem_chain as (Hc & _). destruct (chain_bounds _ _ _ _ _ _ _ _ Hc) as [_ Hin].
      destruct (Hin b) as (_ & X1 & mb & Hmb & Ew & X2 & _); [apply elem_of_app; right; apply list_elem_of_here|].
      destruct (hi_major _ _ HI a la Hal) as (Ma & _ & _ & _ & Hca & _).
      destruct (chain_bounds _ _ _ _ _ _ _ _ Hca) as [_ Hina]. destruct (Hina b Hx) as (_ & _ & mb' & Hmb' & Ew' & _).
      rewrite Hmb in Hmb'. injection Hmb' as <-. congruence.
  - intros (Hne & a & la & Ha & Hx). destruct (Z.eq_dec a maj) as [->|Hna].
    + assert (la = l) by (eapply nodup_fst; [apply (hi_nodup _ _ HI)|exact Ha|exact rem_here]). subst la.
      exists maj, (l1 ++ l2). split; [exact rem_here'|]. rewrite <- Permutation_middle in Hx.
      apply elem_of_cons in Hx as [Hx|Hx]; [contradiction|exact Hx].
    + exists a, la. split; [|exact Hx]. rewrite elem_of_app, elem_of_cons in Ha |- *.
      destruct Ha as [Ha|[[= -> _]|Ha]]; [auto|contradiction|auto].
Qed.

(** A live block other than [b] keeps its size, request and owner. *)
Lemma removal_same x mx : live L x -> x <> b -> minors h !! x = Some mx ->
  exists mx', minors h' !! x = Some mx' /\ same_block mx mx'.
Proof using HI HM Hm Hmin.
  intros (a & la & Ha & Hx) Hne Hmx. destruct (Z.eq_dec a maj) as [->|Hna].
  - assert (la = l) by (eapply nodup_fst; [apply (hi_nodup _ _ HI)|exact Ha|exact rem_here]). subst la.
    rewrite <- Permutation_middle in Hx. apply elem_of_cons in Hx as [Hx|Hx]; [contradiction|].
    exists (relinked m x mx). split; [exact (rem_own x mx Hx Hmx)|repeat split].
  - exists mx. split; [exact (rem_foreign a la x mx Ha Hna Hx Hmx)|repeat split].
Qed.

Lemma removal_rep f B : heap_rep_with h L f B -> heap_rep_with h' L' f (delete (b + 28 + f b) B).
Proof using All.
  intros (_ & Hw & HB). split; [exact removal_inv|].
  assert (Hb : live L b).
  { exists maj, l. split; [exact rem_here|]. apply elem_of_app. right. apply list_elem_of_here. }
  assert (Hback : forall x mx', live L' x -> minors h' !! x = Some mx' ->
    live L x /\ x <> b /\ exists mx, minors h !! x = Some mx /\ same_block mx mx').
  { intros x mx' Hx Hmx'. apply removal_live in Hx as [Hne Hx]. split; [exact Hx|]. split; [exact Hne|].
    destruct (live_minor _ _ _ HI Hx) as (_ & _ & _ & mx & _ & _ & _ & Hmx & _). exists mx. split; [exact Hmx|].
    destruct (removal_same x mx Hx Hne Hmx) as (mx2 & Hmx2 & S). rewrite Hmx' in Hmx2. injection Hmx2 as <-. exact S. }
  assert (Hdist : forall x mx, live L x -> x <> b -> minors h !! x = Some mx -> x + 28 + f x <> b + 28 + f b).
  { intros x mx Hx Hne Hmx. destruct (Hw x mx Hx Hmx) as (W1 & _ & W3 & W4).
    destruct (Hw b m Hb Hm) as (V1 & _ & V3 & V4).
    destruct (live_disjoint _ _ x mx b m HI Hx Hb Hmx Hm Hne); lia. }
  split.
  - intros x mx' Hx Hmx'. destruct (Hback x mx' Hx Hmx') as (Hlx & _ & mx & Hmx & E1 & E2 & _).
    rewrite Hws. unfold word_ok. rewrite E1, E2. exact (Hw x mx Hlx Hmx).
  - intros q n. rewrite lookup_delete_Some, HB. split.
    + intros (Hne & x & mx & Hx & Hmx & -> & ->).
      assert (Hxb : x <> b) by (intros ->; apply Hne; reflexivity).
      destruct (removal_same x mx Hx Hxb Hmx) as (mx' & Hmx' & _ & E2 & _).
      exists x, mx'. split; [apply removal_live; auto|]. auto.
    + intros (x & mx' & Hx & Hmx' & -> & ->).
      destruct (Hback x mx' Hx Hmx') as (Hlx & Hne & mx & Hmx & _ & E2 & _).
      split; [intros E; exact (Hdist x mx Hlx Hne Hmx (eq_sym E))|]. exists x, mx. auto.
Qed.
End removal.

(** ** Releasing an empty major block *)
Definition relinked_major (M : major_block) (x : Z) (Mx : major_block) : major_block :=
  mk_major (if decide (x = maj_next M) then maj_prev M else maj_prev Mx)
           (if decide (x = maj_prev M) then maj_next M else maj_next Mx)
           (maj_pages Mx) (maj_size Mx) (maj_usage Mx) (maj_first Mx).

Lemma major_chain_prev Ms A maj Z0 M : Ms !! maj = Some M -> forall prev p,
  major_chain Ms prev p (A ++ maj :: Z0) ->
  maj_prev M = match last A with Some x => x | None => prev end
  /\ maj_next M = match Z0 with [] => 0 | c :: _ => c end.
Proof.
  intros HM. induction A as [|a A IH]; intros prev p Hc.
  - destruct Hc as (_ & _ & M0 & HM0 & Ep & Hc). rewrite HM in HM0. injection HM0 as <-.
    split; [exact Ep|]. destruct Z0; apply Hc.
  - destruct Hc as (_ & _ & Ma & _ & _ & Hc). destruct (IH _ _ Hc) as [E1 E2]. split; [|exact E2].
    rewrite E1. destruct A as [|y A]; [reflexivity|]. rewrite last_cons_cons.
    destruct (last (y :: A)) eqn:E; [reflexivity|]. apply last_None in E. discriminate.
Qed.

Lemma major_chain_remove Ms Ms' A maj Z0 M : Ms !! maj = Some M -> forall prev p,
  major_chain Ms prev p (A ++ maj :: Z0) -> NoDup (prev :: A ++ maj :: Z0) ->
  (forall x Mx, x ∈ A ++ Z0 -> Ms !! x = Some Mx -> Ms' !! x = Some (relinked_major M x Mx)) ->
  major_chain Ms' prev (match A with [] => maj_next M | _ => p end) (A ++ Z0).
Proof.
  intros HM. induction A as [|a A IH]; intros prev p Hc Hnd Hms.
  - destruct (major_chain_prev _ [] _ _ _ HM _ _ Hc) as [Ep En]. simpl in Ep.
    destruct Hc as (_ & _ & M0 & HM0 & _ & Hc). rewrite HM in HM0. injection HM0 as <-.
    simpl in Hnd, Hms |- *. apply NoDup_cons in Hnd as [Hpn Hnd]. apply NoDup_cons in Hnd as [_ Hnd].
    destruct Z0 as [|c Z0]; [exact En|]. destruct Hc as (Ec & Hc0 & Mc & HMc & Epc & Hc).
    split; [exact Ec|]. split; [exact Hc0|]. exists (relinked_major M c Mc).
    split; [exact (Hms c Mc (list_elem_of_here _ _) HMc)|].
    assert (Hcp : c <> maj_prev M).
    { intros E. apply Hpn. rewrite <- Ep, <- E. apply list_elem_of_further, list_elem_of_here. }
    unfold relinked_major. simpl. rewrite decide_True by congruence. split; [exact Ep|].
    rewrite decide_False by exact Hcp. eapply major_chain_frame; [exact Hc|].
    intros x Mx Hx HMx. apply NoDup_cons in Hnd as [Hnc _]. eexists.
    split; [exact (Hms x Mx (list_elem_of_further _ _ _ Hx) HMx)|]. unfold relinked_major. simpl.
    rewrite !decide_False; [auto| |].
    + intros E. apply Hpn. rewrite <- Ep, <- E. do 2 apply list_elem_of_further. exact Hx.
    + intros E. apply Hnc. rewrite <- Ec, <- E. exact Hx.
  - destruct (major_chain_prev _ (a :: A) _ _ _ HM _ _ Hc) as [_ En].
    destruct Hc as (-> & Ha & Ma & HMa & Ep & Hc).
    destruct (major_chain_prev _ A _ _ _ HM _ _ Hc) as [Epm _].
    apply NoDup_cons in Hnd as [_ Hnd]. pose proof Hnd as Hnd'. apply NoDup_cons in Hnd as [Hna _].
    pose proof (Hms a Ma (list_elem_of_here _ _) HMa) as Ha'.
    assert (Han : a <> maj_next M).
    { rewrite En. destruct Z0 as [|c Z0]; [exact Ha|]. intros E. apply Hna. rewrite E. apply elem_of_app.
      right. apply list_elem_of_further, list_elem_of_here. }
    simpl. split; [reflexivity|]. split; [exact Ha|]. exists (relinked_major M a Ma). split; [exact Ha'|].
    unfold relinked_major. simpl. rewrite (decide_False (P := a = maj_next M)) by exact Han. split; [exact Ep|].
    assert (Enext : (if decide (a = maj_prev M) then maj_next M else maj_next Ma)
                    = match A with [] => maj_next M | _ => maj_next Ma end).
    { destruct A as [|y A].
      - rewrite decide_True; [reflexivity|]. rewrite Epm. reflexivity.
      - rewrite decide_False; [reflexivity|]. rewrite Epm. intros E.
        destruct (last (y :: A)) as [z|] eqn:El; [|apply last_None in El; discriminate].
        apply last_Some_elem_of in El. apply Hna. change (a ∈ (y :: A) ++ maj :: Z0).
        apply elem_of_app. left. rewrite E. exact El. }
    rewrite Enext. apply (IH a _ Hc Hnd'). intros x Mx Hx. apply Hms, list_elem_of_further, Hx.
Qed.

Lemma drop_range_lookup {A} a n (m : gmap Z A) x : ~ (a <= x < a + n) -> drop_range a n m !! x = m !! x.
Proof.
  intros Hx. unfold drop_range. destruct (m !! x) as [y|] eqn:E.
  - apply map_lookup_filter_Some. auto.
  - apply map_lookup_filter_None. auto.
Qed.

(** The links of the neighbours, as [release_major] sets them. *)
Section release.
Context {P : Type} `{PageSourceLaws P}.
Implicit Types h : heap P.

Lemma release_major_links h maj M :
  majors h !! maj = Some M ->
  (maj_prev M <> 0 -> is_Some (majors h !! maj_prev M)) ->
  (maj_next M <> 0 -> is_Some (majors h !! maj_next M)) ->
  exists h', release_major maj h = Ok h'
    /\ (forall x Mx, x <> 0 -> ~ (maj <= x < maj + maj_pages M * 4096) -> majors h !! x = Some Mx ->
          majors h' !! x = Some (relinked_major M x Mx))
    /\ minors h' = drop_range maj (maj_pages M * 4096) (minors h)
    /\ align_words h' = drop_range maj (maj_pages M * 4096) (align_words h)
    /\ l_memRoot h' = (if l_memRoot h =? maj then maj_next M else l_memRoot h)
    /\ l_bestBet h' = (if l_bestBet h =? maj then 0 else l_bestBet h)
    /\ l_locked h' = l_locked h /\ pages h' = sys_free_pages maj (maj_pages M) (pages h).
Proof using.
  intros HM Hp Hn. unfold release_major. rewrite (get_major_Ok _ _ _ HM). cbn [mbind outcome_bind].
  set (h1 := if l_bestBet _ =? maj then _ else _).
  assert (Q : majors h1 = majors h /\ minors h1 = minors h /\ align_words h1 = align_words h
    /\ l_memRoot h1 = (if l_memRoot h =? maj then maj_next M else l_memRoot h)
    /\ l_bestBet h1 = (if l_bestBet h =? maj then 0 else l_bestBet h)
    /\ l_locked h1 = l_locked h /\ pages h1 = pages h).
  { unfold h1. destruct (l_memRoot h =? maj); simpl; destruct (l_bestBet h =? maj); repeat split. }
  clearbody h1. destruct Q as (Q1 & Q2 & Q3 & Q4 & Q5 & Q6 & Q7).
  assert (H2 : exists h2, (if maj_prev M =? 0 then Ok h1
       else p ← get_major (maj_prev M) h1; Ok (put_major (maj_prev M) (with_next p (maj_next M)) h1)) = Ok h2
    /\ minors h2 = minors h1 /\ align_words h2 = align_words h1 /\ l_memRoot h2 = l_memRoot h1
    /\ l_bestBet h2 = l_bestBet h1 /\ l_locked h2 = l_locked h1 /\ pages h2 = pages h1
    /\ forall x Mx, x <> 0 -> majors h !! x = Some Mx -> majors h2 !! x =
         Some (with_next Mx (if decide (x = maj_prev M) then maj_next M else maj_next Mx))).
  { destruct (Z.eqb_spec (maj_prev M) 0) as [E|E].
    - exists h1. split; [reflexivity|]. repeat (split; [reflexivity|]). intros x Mx Hx HMx.
      rewrite decide_False by congruence. rewrite Q1, HMx. destruct Mx. reflexivity.
    - destruct (Hp E) as [q Hq]. rewrite <- Q1 in Hq. rewrite (get_major_Ok _ _ _ Hq). cbn [mbind outcome_bind].
      eexists. split; [reflexivity|]. repeat (split; [reflexivity|]). intros x Mx Hx HMx. simpl.
      rewrite <- Q1 in HMx. destruct (decide (x = maj_prev M)) as [->|Hne].
      + rewrite lookup_insert_eq. rewrite Hq in HMx. injection HMx as <-. reflexivity.
      + rewrite lookup_insert_ne by congruence. rewrite HMx. destruct Mx. reflexivity. }
  destruct H2 as (h2 & E2 & J1 & J2 & J3 & J4 & J5 & J6 & J7). rewrite E2. cbn [mbind outcome_bind].
  assert (H3 : exists h3, (if maj_next M =? 0 then Ok h2
       else n ← get_major (maj_next M) h2; Ok (put_major (maj_next M) (with_prev n (maj_prev M)) h2)) = Ok h3
    /\ minors h3 = minors h2 /\ align_words h3 = align_words h2 /\ l_memRoot h3 = l_memRoot h2
    /\ l_bestBet h3 = l_bestBet h2 /\ l_locked h3 = l_locked h2 /\ pages h3 = pages h2
    /\ forall x Mx, x <> 0 -> majors h !! x = Some Mx -> majors h3 !! x = Some (relinked_major M x Mx)).
  { destruct (Z.eqb_spec (maj_next M) 0) as [E|E].
    - exists h2. split; [reflexivity|]. repeat (split; [reflexivity|]). intros x Mx Hx HMx.
      rewrite (J7 x Mx Hx HMx). unfold relinked_major.
      rewrite (decide_False (P := x = maj_next M)) by congruence. reflexivity.
    - destruct (Hn E) as [q Hq]. pose proof (J7 _ q E Hq) as Hq2. rewrite (get_major_Ok _ _ _ Hq2).
      cbn [mbind outcome_bind]. eexists. split; [reflexivity|]. repeat (split; [reflexivity|]).
      intros x Mx Hx HMx. simpl. unfold relinked_major. destruct (decide (x = maj_next M)) as [->|Hne].
      + rewrite lookup_insert_eq. rewrite Hq in HMx. injection HMx as <-. reflexivity.
      + rewrite lookup_insert_ne by congruence. exact (J7 x Mx Hx HMx). }
  destruct H3 as (h3 & E3 & K1 & K2 & K3 & K4 & K5 & K6 & K7). rewrite E3. cbn [mbind outcome_bind].
  eexists. split; [reflexivity|]. unfold l_pageSize. simpl.
  split. { intros x Mx Hx Hout HMx. rewrite drop_range_lookup by exact Hout. exact (K7 x Mx Hx HMx). }
  split; [f_equal; congruence|]. split; [f_equal; congruence|]. split; [congruence|]. split; [congruence|].
  split; [congruence|]. f_equal. congruence.
Qed.

Lemma entry_without (L1 L2 : list (Z * list Z)) maj e : NoDup (L1 ++ (maj, []) :: L2).*1 ->
  e ∈ L1 ++ L2 -> e.1 <> maj /\ e ∈ L1 ++ (maj, []) :: L2.
Proof using.
  intros Hnd He.
  assert (Hin : e ∈ L1 ++ (maj, []) :: L2).
  { rewrite <- Permutation_middle. apply list_elem_of_further, He. }
  split; [|exact Hin]. intros E. rewrite fmap_app in Hnd. simpl in Hnd. rewrite <- Permutation_middle in Hnd.
  apply NoDup_cons in Hnd as [Hn _]. apply Hn. rewrite <- fmap_app, <- E.
  apply list_elem_of_fmap. exists e. auto.
Qed.

(** The major blocks that remain are outside the released pages. *)
Lemma release_outside h L1 L2 maj M a l Ma : heap_inv h (L1 ++ (maj, []) :: L2) ->
  majors h !! maj = Some M -> (a, l) ∈ L1 ++ L2 -> majors h !! a = Some Ma ->
  0 < a /\ (a + maj_size Ma <= maj \/ maj + maj_pages M * 4096 <= a) /\ 24 <= maj_size Ma
  /\ owned (pages h) !! maj = Some (maj_pages M).
Proof using.
  intros HI HM Ha HMa. destruct (entry_without _ _ _ _ (hi_nodup _ _ HI) Ha) as [Hne Hin]. simpl in Hne.
  assert (Hm : (maj, []) ∈ L1 ++ (maj, []) :: L2) by (apply elem_of_app; right; apply list_elem_of_here).
  pose proof (entries_disjoint _ _ _ _ _ _ _ _ HI Hin Hm HMa HM Hne) as Hd.
  destruct (major_ok_range _ _ _ (hi_major _ _ HI maj [] Hm)) as (M0 & HM0 & _ & Es & _ & _ & _ & Ho & _).
  rewrite HM in HM0. injection HM0 as <-. rewrite Es in Hd.
  destruct (major_ok_range _ _ _ (hi_major _ _ HI a l Hin)) as (N & HN & G1 & _ & _ & _ & G5 & _ & _).
  rewrite HMa in HN. injection HN as <-. split; [exact G1|]. split; [exact Hd|]. split; [lia|exact Ho].
Qed.

Section released.
Context (h h' : heap P) (L1 L2 : list (Z * list Z)) (maj : Z) (M : major_block).
Local Notation L := (L1 ++ (maj, []) :: L2).
Context (HI : heap_inv h L) (HM : majors h !! maj = Some M)
  (R1 : forall x Mx, x <> 0 -> ~ (maj <= x < maj + maj_pages M * 4096) -> majors h !! x = Some Mx ->
     majors h' !! x = Some (relinked_major M x Mx))
  (R2 : minors h' = drop_range maj (maj_pages M * 4096) (minors h))
  (R3 : align_words h' = drop_range maj (maj_pages M * 4096) (align_words h))
  (R4 : l_memRoot h' = (if l_memRoot h =? maj then maj_next M else l_memRoot h))
  (R5 : l_bestBet h' = (if l_bestBet h =? maj then 0 else l_bestBet h))
  (R7 : pages h' = sys_free_pages maj (maj_pages M) (pages h)).

Lemma rel_fst : L.*1 = L1.*1 ++ maj :: L2.*1.
Proof using. rewrite fmap_app. reflexivity. Qed.

Lemma rel_keep a l Ma : (a, l) ∈ L1 ++ L2 -> majors h !! a = Some Ma ->
  majors h' !! a = Some (relinked_major M a Ma).
Proof using HI HM R1.
  intros Ha HMa. destruct (release_outside _ _ _ _ _ _ _ _ HI HM Ha HMa) as (O1 & O2 & O3 & _).
  apply R1; [lia|lia|exact HMa].
Qed.

Lemma rel_live x : live (L1 ++ L2) x <-> live L x.
Proof using HI.
  split; intros (a & l & Ha & Hx).
  - exists a, l. split; [apply (entry_without _ _ _ _ (hi_nodup _ _ HI) Ha)|exact Hx].
  - exists a, l. split; [|exact Hx]. rewrite <- Permutation_middle in Ha.
    apply elem_of_cons in Ha as [[= -> ->]|Ha]; [inversion Hx|exact Ha].
Qed.

Lemma rel_out a l Ma : (a, l) ∈ L1 ++ L2 -> majors h !! a = Some Ma ->
  (forall x, x ∈ l -> minors h' !! x = minors h !! x) /\
  (forall x, a + 24 <= x < a + maj_size Ma -> align_words h' !! x = align_words h !! x).
Proof using HI HM R2 R3.
  intros Ha HMa. destruct (release_outside _ _ _ _ _ _ _ _ HI HM Ha HMa) as (O1 & O2 & O3 & _). split.
  - intros x Hx. rewrite R2. apply drop_range_lookup.
    destruct (entry_without _ _ _ _ (hi_nodup _ _ HI) Ha) as [_ Hin].
    destruct (hi_major _ _ HI a l Hin) as (M0 & HM0 & _ & _ & Hca & _). rewrite HMa in HM0. injection HM0 as <-.
    destruct (chain_bounds _ _ _ _ _ _ _ _ Hca) as [_ Hi].
    destruct (Hi x Hx) as (_ & X1 & mx & _ & _ & X2 & _ & ox & Wx). apply word_ok_size in Wx. lia.
  - intros x Hx. rewrite R3. apply drop_range_lookup. lia.
Qed.

Lemma rel_chain : major_chain (majors h') 0 (l_memRoot h') (L1.*1 ++ L2.*1).
Proof using HI HM R1 R4.
  pose proof (hi_chain _ _ HI) as Hc. pose proof (hi_nodup _ _ HI) as Hnd. rewrite rel_fst in Hc, Hnd.
  assert (Er : l_memRoot h' = match L1.*1 with [] => maj_next M | _ => l_memRoot h end).
  { rewrite R4. destruct (L1.*1) as [|a A] eqn:EA.
    - destruct Hc as (-> & _). rewrite Z.eqb_refl. reflexivity.
    - destruct Hc as (-> & _). apply NoDup_cons in Hnd as [Hn _]. rewrite (proj2 (Z.eqb_neq _ _)); [reflexivity|].
      intros ->. apply Hn. apply elem_of_app. right. apply list_elem_of_here. }
  rewrite Er. eapply major_chain_remove; [exact HM|exact Hc| |].
  - apply NoDup_cons. split; [|exact Hnd]. rewrite <- rel_fst. intros H0'.
    destruct (room_diff h L 0 HI H0') as (_ & _ & _ & X). apply X. reflexivity.
  - intros x Mx Hx HMx. rewrite <- fmap_app in Hx. apply list_elem_of_fmap in Hx as ([a l] & -> & Ha).
    exact (rel_keep a l Mx Ha HMx).
Qed.

Lemma released_inv : heap_inv h' (L1 ++ L2).
Proof using All.
  constructor.
  - rewrite fmap_app. exact rel_chain.
  - pose proof (hi_nodup _ _ HI) as Hnd. rewrite rel_fst, <- Permutation_middle, <- fmap_app in Hnd.
    apply NoDup_cons in Hnd. apply Hnd.
  - intros a l Ha. destruct (entry_without _ _ _ _ (hi_nodup _ _ HI) Ha) as [Hne Hin]. simpl in Hne.
    destruct (hi_major _ _ HI a l Hin) as (Ma & HMa & Oa & Sa & Ca & Ua).
    destruct (rel_out a l Ma Ha HMa) as [X1 X2].
    destruct (release_outside _ _ _ _ _ _ _ _ HI HM Ha HMa) as (_ & _ & _ & Om).
    exists (relinked_major M a Ma). split; [exact (rel_keep a l Ma Ha HMa)|].
    split; [rewrite R7, (sys_free_spec _ _ _ Om), lookup_delete_ne by congruence; exact Oa|].
    split; [exact Sa|]. split; [exact (chain_frame _ _ _ _ _ _ _ _ _ _ Ca X1 X2)|].
    simpl. rewrite Ua. f_equal. symmetry. apply total_frame. exact X1.
  - rewrite R5. destruct (Z.eqb_spec (l_bestBet h) maj) as [|Hne]; [left; reflexivity|].
    destruct (hi_bet _ _ HI) as [E|Hin]; [left; exact E|]. right. rewrite rel_fst in Hin.
    rewrite <- Permutation_middle in Hin. apply elem_of_cons in Hin as [E|Hin]; [contradiction|].
    rewrite fmap_app. exact Hin.
Qed.

Lemma released_rep f B : heap_rep_with h L f B -> heap_rep_with h' (L1 ++ L2) f B.
Proof using All.
  intros (_ & Hw & HB).
  assert (Hm : forall b, live (L1 ++ L2) b -> minors h' !! b = minors h !! b
    /\ forall m u, minors h !! b = Some m -> word_ok (align_words h) b m u -> word_ok (align_words h') b m u).
  { intros b (a & l & Ha & Hb). destruct (entry_without _ _ _ _ (hi_nodup _ _ HI) Ha) as [_ Hin].
    destruct (hi_major _ _ HI a l Hin) as (Ma & HMa & _ & _ & Ca & _). destruct (rel_out a l Ma Ha HMa) as [X1 X2].
    split; [exact (X1 b Hb)|]. intros m u Hbm (W1 & W2 & W3 & W4). split; [exact W1|]. split; [|auto].
    destruct (chain_bounds _ _ _ _ _ _ _ _ Ca) as [_ Hi]. destruct (Hi b Hb) as (_ & Y1 & m' & Hm' & _ & Y2 & _).
    rewrite Hbm in Hm'. injection Hm' as <-. rewrite X2 by lia. exact W2. }
  split; [exact released_inv|]. split.
  - intros b m Hb Hbm. destruct (Hm b Hb) as [E Hword]. rewrite E in Hbm.
    apply Hword; [exact Hbm|]. apply Hw; [apply rel_live, Hb|exact Hbm].
  - intros p n. rewrite HB. split; intros (b & m & Hb & Hbm & Ep & En).
    + exists b, m. apply rel_live in Hb. destruct (Hm b Hb) as [E _]. rewrite E. auto.
    + exists b, m. destruct (Hm b Hb) as [E _]. rewrite E in Hbm. split; [apply rel_live, Hb|auto].
Qed.
End released.

Lemma release_spec h L1 L2 maj f B : heap_rep_with h (L1 ++ (maj, []) :: L2) f B ->
  exists h', release_major maj h = Ok h' /\ heap_rep_with h' (L1 ++ L2) f B /\ l_locked h' = l_locked h.
Proof using.
  intros Hrep. pose proof Hrep as (HI & _).
  assert (EL := rel_fst L1 L2 maj).
  assert (Hm : maj ∈ (L1 ++ (maj, []) :: L2).*1) by (rewrite EL; apply elem_of_app; right; apply list_elem_of_here).
  destruct (room_diff h _ maj HI Hm) as (M & HM & _ & Hnz).
  pose proof (hi_chain _ _ HI) as Hc. rewrite EL in Hc.
  destruct (major_chain_prev _ _ _ _ _ HM _ _ Hc) as [Ep En].
  assert (Hex : forall x, x ∈ L1.*1 ++ maj :: L2.*1 -> is_Some (majors h !! x)).
  { intros x Hx. rewrite <- EL in Hx. destruct (room_diff h _ x HI Hx) as (Mx & HMx & _). eauto. }
  destruct (release_major_links h maj M HM) as (h' & E & R1 & R2 & R3 & R4 & R5 & R6 & R7).
  { intros Hp. apply Hex. rewrite Ep in *. destruct (last (L1.*1)) eqn:El; [|contradiction].
    apply elem_of_app. left. apply last_Some_elem_of. exact El. }
  { intros Hn. apply Hex. rewrite En in *. destruct (L2.*1); [contradiction|].
    apply elem_of_app. right. apply list_elem_of_further, list_elem_of_here. }
  exists h'. split; [exact E|]. split; [|exact R6]. eapply released_rep; eassumption.
Qed.
End release.

(** ** [free_bytes] *)
Section free.
Context {P : Type} `{PageSourceLaws P}.
Implicit Types h : heap P.

Lemma get_minor_Ok h a m : minors h !! a = Some m -> get_minor a h = Ok m.
Proof using. intros E. unfold get_minor. rewrite E. reflexivity. Qed.

(** The end of [free_bytes]: release an empty block, or reconsider the best bet. *)
Definition settle (maj : Z) (mj : major_block) (h : heap P) : outcome (heap P) :=
  if maj_first mj =? 0 then release_major maj h
  else if l_bestBet h =? 0 then Ok h
  else
    b ← get_major (l_bestBet h) h;
    let bestSize := sub32 (maj_size b) (maj_usage b) in
    let majSize := sub32 (maj_size mj) (maj_usage mj) in
    Ok (if bestSize <? majSize then set_bet maj h else h).

Lemma settle_spec h L1 L2 maj l mj f B : heap_rep_with h (L1 ++ (maj, l) :: L2) f B ->
  majors h !! maj = Some mj ->
  exists h', settle maj mj h = Ok h' /\ heap_rep h' B /\ l_locked h' = l_locked h.
Proof using.
  intros Hrep HM. pose proof Hrep as (HI & _). pose proof (here_old L1 L2 maj l) as Hin.
  destruct (hi_major _ _ HI maj l Hin) as (M0 & HM0 & _ & _ & Hc & _). rewrite HM in HM0. injection HM0 as <-.
  assert (Hm : maj ∈ (L1 ++ (maj, l) :: L2).*1).
  { apply list_elem_of_fmap. exists (maj, l). auto. }
  unfold settle. destruct l as [|b l].
  - destruct Hc as [-> _]. rewrite Z.eqb_refl.
    destruct (release_spec h L1 L2 maj f B Hrep) as (h' & E & Hr & Hl). exists h'.
    split; [exact E|]. split; [exists (L1 ++ L2), f; exact Hr|exact Hl].
  - destruct Hc as (Eb & m & Hm' & (N1 & _) & _). rewrite Eb. rewrite (proj2 (Z.eqb_neq b 0)) by lia.
    destruct (Z.eqb_spec (l_bestBet h) 0) as [E|E].
    + exists h. split; [reflexivity|]. split; [eexists _, _; exact Hrep|reflexivity].
    + destruct (hi_bet _ _ HI) as [|Hb]; [contradiction|].
      destruct (room_diff h _ _ HI Hb) as (Mb & HMb & _). rewrite (get_major_Ok _ _ _ HMb).
      cbn [mbind outcome_bind]. eexists. split; [reflexivity|].
      destruct (_ <? _); (split; [|reflexivity]); eexists _, _; [|exact Hrep].
      apply bet_rep; [exact Hrep|right; exact Hm].
Qed.

(** The header of a pointer handed out. *)
Lemma rep_pointer h L f B p n : heap_rep_with h L f B -> B !! p = Some n ->
  exists L1 L2 maj l1 l2 b m M, L = L1 ++ (maj, l1 ++ b :: l2) :: L2 /\ minors h !! b = Some m
  /\ majors h !! maj = Some M /\ p = b + 28 + f b /\ word_ok (align_words h) b m (f b)
  /\ min_block m = maj /\ min_magic m = LIBALLOC_MAGIC /\ 0 < maj /\ maj + 24 <= b
  /\ b + 24 + min_size m <= maj + maj_size M /\ maj + maj_size M < 2 ^ 32 /\ n = min_req_size m
  /\ 24 <= maj_usage M <= maj_size M.
Proof using.
  intros (HI & Hw & HB) Hp. apply HB in Hp as (b & m & Hb & Hm & -> & ->).
  pose proof (Hw b m Hb Hm) as W.
  destruct (live_minor _ _ _ HI Hb) as (a & l & M & m' & Hal & Hbl & HM & Hm' & X1 & X2 & X3 & X4 & X5 & X6 & X7 & _).
  rewrite Hm in Hm'. injection Hm' as <-.
  destruct (major_ok_range _ _ _ (hi_major _ _ HI a l Hal)) as (M0 & HM0 & _ & _ & _ & _ & G & _).
  rewrite HM in HM0. injection HM0 as <-.
  apply list_elem_of_split in Hal as (L1 & L2 & ->). apply list_elem_of_split in Hbl as (l1 & l2 & ->).
  exists L1, L2, a, l1, l2, b, m, M. auto 20.
Qed.

Lemma UNALIGN_spec h b m o : word_ok (align_words h) b m o -> 0 < b -> b + 24 + min_size m < 2 ^ 32 ->
  UNALIGN (b + 28 + o) h = Ok (b + 24).
Proof using.
  intros (W1 & W2 & W3 & W4) Hb Hs. unfold UNALIGN, sizeof_align_t.
  rewrite (sub32_small _ 4) by lia. replace (b + 28 + o - 4) with (b + 24 + o) by lia. rewrite W2.
  rewrite (add32_small o 4) by lia. rewrite sub32_small by lia. f_equal. lia.
Qed.

(** The heap right after the header was unlinked. *)
Lemma unlinked_rep h h2 L1 L2 maj l1 l2 b m M f B :
  heap_rep_with h (L1 ++ (maj, l1 ++ b :: l2) :: L2) f B -> minors h !! b = Some m ->
  majors h !! maj = Some M -> min_block m = maj ->
  majors h2 = <[maj := with_usage M (maj_usage M - (min_size m + 24))]> (majors h) ->
  (forall x, x <> b -> minors h2 !! x = minors h !! x) ->
  align_words h2 = align_words h -> l_memRoot h2 = l_memRoot h -> l_bestBet h2 = l_bestBet h ->
  pages h2 = pages h ->
  exists h3 mj, unlink_minor m h2 = Ok h3 /\ majors h3 !! maj = Some mj /\ l_locked h3 = l_locked h2
    /\ heap_rep_with h3 (L1 ++ (maj, l1 ++ l2) :: L2) f (delete (b + 28 + f b) B).
Proof using.
  intros Hrep Hm HM Hblk Ej Emin Ew Er Eb Ep. pose proof Hrep as (HI & _).
  destruct (rem_chain h L1 L2 maj l1 l2 b M HI HM) as (Hc & _).
  destruct (chain_bounds _ _ _ _ _ _ _ _ Hc) as [_ Hin].
  pose proof (rem_nodup h L1 L2 maj l1 l2 b M HI HM) as Hnb.
  assert (Hpos : forall x, x ∈ l1 ++ l2 -> x <> b /\ 0 < x /\ is_Some (minors h !! x)).
  { intros x Hx. destruct (Hin x (rem_in_chain l1 l2 b x Hx)) as (X0 & _ & mx & Hmx & _).
    split; [intros ->; contradiction|]. eauto. }
  assert (Hnbr : forall x, (x = min_next m \/ x = min_prev m) -> x <> 0 -> is_Some (minors h2 !! x)).
  { intros x Hx Hx0. destruct (rem_neighbours h L1 L2 maj l1 l2 b M m HI HM Hm x Hx) as [|Hx']; [contradiction|].
    destruct (Hpos x Hx') as (Y1 & _ & Y2). rewrite Emin by exact Y1. exact Y2. }
  destruct (unlink_minor_spec h2 m (with_usage M (maj_usage M - (min_size m + 24))))
    as (h3 & E & U1 & U2 & U3 & U4 & U5 & U6 & U7).
  { intros Hx0. apply Hnbr; [left; reflexivity|exact Hx0]. }
  { intros Hx0. apply Hnbr; [right; reflexivity|exact Hx0]. }
  { rewrite Hblk, Ej. apply lookup_insert_eq. }
  set (M' := mk_major (maj_prev M) (maj_next M) (maj_pages M) (maj_size M)
               (maj_usage M - (min_size m + 24)) (match l1 with [] => min_next m | _ => maj_first M end)).
  assert (EM : majors h3 = <[maj := M']> (majors h)).
  { rewrite U2, Ej, Hblk. destruct (chain_prev _ _ _ _ l1 b l2 m Hm _ _ _ Hc) as [Epv _]. rewrite Epv.
    destruct l1 as [|y l1]; [simpl; apply insert_insert_eq|].
    destruct (last (y :: l1)) as [z|] eqn:El; [|apply last_None in El; discriminate].
    apply last_Some_elem_of in El. destruct (Hpos z) as (_ & Z0 & _); [apply elem_of_app; auto|].
    rewrite (proj2 (Z.eqb_neq z 0)) by lia. reflexivity. }
  exists h3, M'. split; [exact E|]. split; [rewrite EM; apply lookup_insert_eq|]. split; [exact U6|].
  eapply (removal_rep h h3 L1 L2 maj l1 l2 b M M' m HI HM Hm EM eq_refl); try congruence; try exact Hrep.
  intros x mx Hx0 Hxb Hmx. apply U1; [exact Hx0|]. rewrite Emin by exact Hxb. exact Hmx.
Qed.

Lemma total_split ms l1 l2 b m : ms !! b = Some m ->
  total ms (l1 ++ b :: l2) = 24 + min_size m + total ms (l1 ++ l2).
Proof using.
  intros Hb. rewrite (total_perm ms (l1 ++ b :: l2) (b :: l1 ++ l2)) by (symmetry; apply Permutation_middle).
  simpl. rewrite Hb. reflexivity.
Qed.

Lemma total_app_nonneg ms ws maj hi l1 l2 b : forall prev lo p,
  minor_chain ms ws maj prev lo hi p (l1 ++ b :: l2) -> 0 <= total ms (l1 ++ l2).
Proof using.
  intros prev lo p Hc. destruct (chain_bounds _ _ _ _ _ _ _ _ Hc) as [_ Hin].
  assert (H1 : forall l, (forall x, x ∈ l -> x ∈ l1 ++ b :: l2) -> 0 <= total ms l).
  { induction l as [|x l IH]; intros Hl; simpl; [lia|].
    destruct (Hin x (Hl x (list_elem_of_here _ _))) as (_ & _ & mx & Hmx & _ & _ & _ & o & Wx).
    apply word_ok_size in Wx. rewrite Hmx.
    specialize (IH (fun y Hy => Hl y (list_elem_of_further _ _ _ Hy))). lia. }
  apply H1. intros x Hx. rewrite <- Permutation_middle. apply list_elem_of_further, Hx.
Qed.

Lemma free_bytes_spec h B p n : heap_rep h B -> l_locked h = false -> B !! p = Some n -> 
  exists h', free_bytes p h = Ok h' /\ heap_rep h' (delete p B) /\ l_locked h' = false.
Proof using.
  intros (L & f & Hrep) Hlock Hp.
  destruct (rep_pointer h L f B p n Hrep Hp) as (L1 & L2 & maj & l1 & l2 & b & m & M & -> & Hm & HM & -> & W
    & Hblk & Hmag & G1 & G2 & G3 & G4 & _ & G5).
  pose proof W as (W1 & _ & W3 & W4).
  unfold free_bytes. rewrite (proj2 (Z.eqb_neq _ 0)) by lia.
  rewrite (bind_Ok_l _ _ _ (UNALIGN_spec h b m (f b) W ltac:(lia) ltac:(lia))).
  unfold lock. rewrite Hlock. cbn [mbind outcome_bind]. unfold sizeof_minor.
  rewrite (sub32_small (b + 24) 24) by lia. replace (b + 24 - 24) with b by lia.
  assert (Hm0 : minors (set_lock true h) !! b = Some m) by exact Hm.
  rewrite (bind_Ok_l _ _ _ (get_minor_Ok _ _ _ Hm0)). rewrite Hmag, Z.eqb_refl. cbn [negb]. rewrite Hblk.
  set (h1 := set_inuse _ _). assert (HM1 : majors h1 !! maj = Some M) by exact HM.
  rewrite (bind_Ok_l _ _ _ (get_major_Ok _ _ _ HM1)).
  rewrite (add32_small (min_size m) 24) by lia.
  assert (Hus : min_size m + 24 <= maj_usage M).
  { pose proof Hrep as (HI & _). destruct (rem_chain h L1 L2 maj l1 l2 b M HI HM) as (Hc & Hu & _).
    pose proof (total_split (minors h) l1 l2 b m Hm) as Ht.
    pose proof (total_app_nonneg _ _ _ _ _ _ _ _ _ _ Hc). lia. }
  rewrite sub32_small by lia. set (h2 := put_minor b _ _).
  destruct (unlinked_rep h h2 L1 L2 maj l1 l2 b m M f B Hrep Hm HM Hblk) as (h3 & mj & E & Hmj & El & Hrep3);
    try reflexivity.
  { intros x Hx. unfold h2. simpl. apply lookup_insert_ne. congruence. }
  rewrite (bind_Ok_l _ _ _ E), (bind_Ok_l _ _ _ (get_major_Ok _ _ _ Hmj)).
  destruct (settle_spec h3 L1 L2 maj _ mj f _ Hrep3 Hmj) as (h4 & E4 & (L4 & f4 & Hrep4) & _).
  unfold settle in E4. rewrite (bind_Ok_l _ _ _ E4). eexists. split; [reflexivity|].
  split; [|reflexivity]. exists L4, f4. apply lock_rep. exact Hrep4.
Qed.
End free.
