(* ===== verification/Heap.v ===== *)
(** * The heap allocator: contracts, reachable heaps, and a concrete page source *)
From stdpp Require Import gmap sets.
From S2P Require Import Prelude Liballoc LiballocChains LiballocProofs LiballocFree.
#[local] Open Scope Z_scope.

(** ** A page source: regions are handed out one behind the other *)
Definition bump := list (nat * bool).   (* number of pages, still handed out *)

Fixpoint regions (base : Z) (l : bump) : gmap Z Z :=
  match l with
  | [] => ∅
  | (n, used) :: l =>
    let r := regions (base + Z.of_nat n * 4096) l in
    if used && (0 <? Z.of_nat n) && (base + Z.of_nat n * 4096 <? 2 ^ 32) then <[base := Z.of_nat n]> r else r
  end.
Fixpoint bump_end (base : Z) (l : bump) : Z :=
  match l with [] => base | (n, _) :: l => bump_end (base + Z.of_nat n * 4096) l end.
Fixpoint bump_free (base a : Z) (l : bump) : bump :=
  match l with
  | [] => []
  | (n, used) :: l => (n, used && negb ((base =? a) && (0 <? Z.of_nat n))) :: bump_free (base + Z.of_nat n * 4096) a l
  end.

#[export] Instance bump_source : PageSource bump := {
  sys_alloc_pages n l :=
    let e := bump_end 4096 l in
    if (0 <? n) && (e + n * 4096 <? 2 ^ 32) then (e, l ++ [(Z.to_nat n, true)]) else (0, l);
  sys_free_pages a n l := bump_free 4096 a l }.

Lemma bump_end_ge l : forall base, base <= bump_end base l.
Proof.
  induction l as [|[n u] l IH]; intros base; simpl; [lia|]. specialize (IH (base + Z.of_nat n * 4096)). lia.
Qed.

Lemma regions_inv l : forall base a n, base mod 4096 = 0 -> 0 < base -> regions base l !! a = Some n ->
  base <= a /\ a mod 4096 = 0 /\ 0 < n /\ a + n * 4096 < 2 ^ 32 /\ a + n * 4096 <= bump_end base l.
Proof.
  induction l as [|[k u] l IH]; intros base a n Hb Hp Ha; simpl in Ha; [rewrite lookup_empty in Ha; discriminate|].
  assert (Hb' : (base + Z.of_nat k * 4096) mod 4096 = 0) by (rewrite Z.mod_add by lia; exact Hb).
  simpl. pose proof (bump_end_ge l (base + Z.of_nat k * 4096)).
  destruct (u && _ && _) eqn:E.
  - apply andb_true_iff in E as [E1 E2]. apply andb_true_iff in E1 as [_ E1].
    destruct (Z.eq_dec a base) as [->|Hne].
    + rewrite lookup_insert_eq in Ha. injection Ha as <-. lia.
    + rewrite lookup_insert_ne in Ha by congruence. destruct (IH _ _ _ Hb' ltac:(lia) Ha) as (I1 & I2 & I3 & I4 & I5). lia.
  - destruct (IH _ _ _ Hb' ltac:(lia) Ha) as (I1 & I2 & I3 & I4 & I5). lia.
Qed.

Lemma regions_disjoint l : forall base a n b m, base mod 4096 = 0 -> 0 < base ->
  regions base l !! a = Some n -> regions base l !! b = Some m -> a <> b ->
  a + n * 4096 <= b \/ b + m * 4096 <= a.
Proof.
  induction l as [|[k u] l IH]; intros base a n b m Hb Hp Ha Hb'; simpl in Ha, Hb'; [rewrite lookup_empty in Ha; discriminate|].
  intros Hne. assert (Hm : (base + Z.of_nat k * 4096) mod 4096 = 0) by (rewrite Z.mod_add by lia; exact Hb).
  assert (Hrec := IH (base + Z.of_nat k * 4096)).
  assert (Hlow : forall x v, regions (base + Z.of_nat k * 4096) l !! x = Some v -> base + Z.of_nat k * 4096 <= x).
  { intros x v Hx. apply (regions_inv _ _ _ _ Hm ltac:(lia) Hx). }
  destruct (u && _ && _); [|apply (Hrec a n b m Hm ltac:(lia) Ha Hb' Hne)].
  destruct (Z.eq_dec a base) as [->|Ha0], (Z.eq_dec b base) as [->|Hb0].
  - contradiction.
  - rewrite lookup_insert_eq in Ha. injection Ha as <-. rewrite lookup_insert_ne in Hb' by congruence.
    left. exact (Hlow _ _ Hb').
  - rewrite lookup_insert_eq in Hb'. injection Hb' as <-. rewrite lookup_insert_ne in Ha by congruence.
    right. exact (Hlow _ _ Ha).
  - rewrite lookup_insert_ne in Ha, Hb' by congruence. exact (Hrec a n b m Hm ltac:(lia) Ha Hb' Hne).
Qed.

Lemma regions_snoc l n : 0 < n -> forall base, 0 < base -> base mod 4096 = 0 -> bump_end base l + n * 4096 < 2 ^ 32 ->
  regions base (l ++ [(Z.to_nat n, true)]) = <[bump_end base l := n]> (regions base l).
Proof.
  intros Hn. induction l as [|[k u] l IH]; intros base Hp Hb He; simpl.
  - rewrite Z2Nat.id by lia. simpl in He. rewrite (proj2 (Z.ltb_lt 0 n)), (proj2 (Z.ltb_lt _ (2 ^ 32))) by lia.
    reflexivity.
  - assert (Hm : (base + Z.of_nat k * 4096) mod 4096 = 0) by (rewrite Z.mod_add by lia; exact Hb).
    simpl in He. rewrite IH by (lia || exact Hm || exact He).
    destruct (u && _ && _) eqn:E; [|reflexivity]. apply insert_insert_ne.
    apply andb_true_iff in E as [E1 _]. apply andb_true_iff in E1 as [_ E1].
    pose proof (bump_end_ge l (base + Z.of_nat k * 4096)). lia.
Qed.

Lemma bump_free_above l a : forall base, a < base -> bump_free base a l = l.
Proof.
  induction l as [|[k u] l IH]; intros base Hb; simpl; [reflexivity|].
  rewrite (proj2 (Z.eqb_neq base a)) by lia. rewrite andb_true_r. f_equal. apply IH. lia.
Qed.

Lemma regions_free l a : forall base, 0 < base -> base mod 4096 = 0 ->
  is_Some (regions base l !! a) -> regions base (bump_free base a l) = delete a (regions base l).
Proof.
  induction l as [|[k u] l IH]; intros base Hp Hb [v Ha]; simpl in *.
  - rewrite lookup_empty in Ha. discriminate.
  - assert (Hm : (base + Z.of_nat k * 4096) mod 4096 = 0) by (rewrite Z.mod_add by lia; exact Hb).
    assert (Hlow : forall x w, regions (base + Z.of_nat k * 4096) l !! x = Some w -> base + Z.of_nat k * 4096 <= x).
    { intros x w Hx. apply (regions_inv _ _ _ _ Hm ltac:(lia) Hx). }
    destruct (Z.eq_dec base a) as [->|Hne].
    + rewrite Z.eqb_refl. destruct (Z.ltb_spec 0 (Z.of_nat k)) as [Hk|Hk]; cbn [negb andb].
      * rewrite andb_false_r. cbn [andb]. rewrite bump_free_above by lia.
        assert (Hnone : regions (a + Z.of_nat k * 4096) l !! a = None).
        { destruct (regions _ l !! a) eqn:E; [|reflexivity]. specialize (Hlow _ _ E). lia. }
        destruct (u && _ && _); [rewrite delete_insert_eq, delete_id by exact Hnone; reflexivity|congruence].
      * destruct u; cbn [andb] in Ha |- *; exact (IH (a + Z.of_nat k * 4096) ltac:(lia) Hm (mk_is_Some _ _ Ha)).
    + rewrite (proj2 (Z.eqb_neq base a)) by congruence. cbn [andb negb]. rewrite andb_true_r.
      destruct (u && _ && _).
      * rewrite lookup_insert_ne in Ha by congruence. rewrite (IH (base + Z.of_nat k * 4096) ltac:(lia) Hm (mk_is_Some _ _ Ha)).
        rewrite delete_insert_ne by congruence. reflexivity.
      * exact (IH (base + Z.of_nat k * 4096) ltac:(lia) Hm (mk_is_Some _ _ Ha)).
Qed.

#[export] Instance bump_laws : PageSourceLaws bump.
Proof.
  refine {| owned := regions 4096 |}.
  - intros l a n Ha. destruct (regions_inv l 4096 a n) as (I1 & I2 & I3 & I4 & _); [reflexivity|lia|exact Ha|].
    split; [lia|]. auto.
  - intros l a n b m Ha Hb Hne. exact (regions_disjoint l 4096 a n b m eq_refl ltac:(lia) Ha Hb Hne).
  - intros n l a l' Hn E. simpl in E. rewrite (proj2 (Z.ltb_lt 0 n) Hn) in E. cbn [andb] in E.
    destruct (Z.ltb_spec (bump_end 4096 l + n * 4096) (2 ^ 32)) as [Hfit|_]; injection E as <- <-; [right|left; auto].
    pose proof (bump_end_ge l 4096) as Hge.
    split; [lia|]. split; [|apply regions_snoc; [exact Hn|lia|reflexivity|exact Hfit]].
    destruct (regions 4096 l !! bump_end 4096 l) eqn:E; [|reflexivity].
    destruct (regions_inv l 4096 _ _ eq_refl ltac:(lia) E) as (_ & _ & I3 & _ & I5). lia.
  - intros a n l Ha. exact (regions_free l a 4096 ltac:(lia) eq_refl (mk_is_Some _ _ Ha)).
Defined.

(** The allocator before its first use. *)
Definition heap_init {P} (p : P) : heap P := mk_heap ∅ ∅ ∅ 0 0 0 0 0 0 0 false p.

Section contracts.
Context {P : Type} `{PageSourceLaws P}.
Implicit Types h : heap P.

Lemma heap_init_rep (p : P) : heap_rep (heap_init p) ∅.
Proof using.
  exists [], (fun _ => 0). split; [|split].
  - constructor; [reflexivity|constructor|intros a l Ha; inversion Ha|left; reflexivity].
  - intros b m (a & l & Ha & _). inversion Ha.
  - intros q n. rewrite lookup_empty. split; [discriminate|]. intros (b & m & (a & l & Ha & _) & _). inversion Ha.
Qed.

(** Requests the contracts cover: alignments up to a page, sizes that do not wrap. *)
Definition request_ok (req k : Z) : Prop :=
  0 <= req /\ 0 <= k < 13 /\ rsize req k + 48 + 4096 < 2 ^ 32.


(** C12: [free_bytes] of a pointer that is handed out takes exactly that pointer
    away: every other one keeps its memory, and the lock is released. *)
Theorem free_bytes_correct h B p n : heap_rep h B -> l_locked h = false -> B !! p = Some n ->
  exists h', free_bytes p h = Ok h' /\ heap_rep h' (delete p B) /\ l_locked h' = false.
Proof using. exact (free_bytes_spec h B p n). Qed.

(** ** Reachable heaps *)
Inductive client_step : heap P * gmap Z Z -> heap P * gmap Z Z -> Prop :=
| step_malloc h B req k p h' : request_ok req k -> malloc_bytes 2 req (2 ^ k) h = Ok (p, h') ->
    client_step (h, B) (h', if p =? 0 then B else <[p := req]> B)
| step_free h B p n h' : B !! p = Some n -> free_bytes p h = Ok h' ->
    client_step (h, B) (h', delete p B).

Lemma client_step_rep s s' : client_step s s' -> heap_rep s.1 s.2 /\ l_locked s.1 = false ->
  heap_rep s'.1 s'.2 /\ l_locked s'.1 = false.
Proof using.
  intros Hstep [Hrep Hl]. destruct Hstep as [h B req k p h' (R1 & R2 & R3) E|h B p n h' Hp E]; cbn [fst snd] in *.
  - destruct (malloc_bytes_spec req k R1 R2 R3 h B Hrep Hl) as (p1 & h1 & E1 & Hl1 & Hpost).
    rewrite E in E1. injection E1 as <- <-. split; [|exact Hl1].
    destruct Hpost as [(-> & Hr)|(Hr & _ & Hp & _)]; [exact Hr|]. rewrite (proj2 (Z.eqb_neq p 0)) by lia. exact Hr.
  - destruct (free_bytes_spec h B p n Hrep Hl Hp) as (h1 & E1 & Hr & Hl1). rewrite E in E1. injection E1 as <-. auto.
Qed.


(** ** [realloc_bytes] *)
Definition with_req (m : minor_block) (r : Z) : minor_block :=
  mk_minor (min_prev m) (min_next m) (min_block m) (min_magic m) (min_size m) r.

Lemma chain_shrink ms ws maj hi b m r l : ms !! b = Some m -> 0 <= r <= min_req_size m ->
  forall prev lo p, minor_chain ms ws maj prev lo hi p l ->
  minor_chain (<[b := with_req m r]> ms) ws maj prev lo hi p l.
Proof using.
  intros Hm Hr. induction l as [|a l IH]; intros prev lo p Hc; [exact Hc|].
  destruct Hc as (-> & ma & Hma & (N1 & N2 & N3 & N4 & N5 & N6 & o & W1 & W2 & W3 & W4) & Hc).
  split; [reflexivity|]. destruct (Z.eq_dec a b) as [->|Hne].
  - rewrite Hm in Hma. injection Hma as <-. exists (with_req m r). rewrite lookup_insert_eq.
    split; [reflexivity|]. split; [|apply IH, Hc]. split; [exact N1|]. split; [exact N2|]. split; [exact N3|].
    split; [exact N4|]. split; [exact N5|]. split; [exact N6|]. exists o. unfold word_ok. simpl. auto with lia.
  - exists ma. rewrite lookup_insert_ne by congruence. split; [exact Hma|]. split; [|apply IH, Hc].
    split; [exact N1|]. split; [exact N2|]. split; [exact N3|]. split; [exact N4|]. split; [exact N5|].
    split; [exact N6|]. exists o. unfold word_ok. auto.
Qed.

Lemma total_shrink ms b m r l : ms !! b = Some m -> total (<[b := with_req m r]> ms) l = total ms l.
Proof using.
  intros Hm. induction l as [|a l IH]; [reflexivity|]. simpl. rewrite IH.
  destruct (Z.eq_dec a b) as [->|Hne]; [rewrite lookup_insert_eq, Hm|rewrite lookup_insert_ne by congruence]; reflexivity.
Qed.

Lemma shrink_rep h L f B b m r : heap_rep_with h L f B -> live L b -> minors h !! b = Some m ->
  0 <= r <= min_req_size m ->
  heap_rep_with (put_minor b (with_req m r) h) L f (<[b + 28 + f b := r]> B).
Proof using.
  intros (HI & Hw & HB) Hb Hm Hr. split; [|split].
  - destruct HI as [C1 C2 C3 C4]. constructor; [exact C1|exact C2| |exact C4].
    intros a l Ha. destruct (C3 a l Ha) as (M & HM & Ho & Hs & Hc & Hu). exists M.
    split; [exact HM|]. split; [exact Ho|]. split; [exact Hs|].
    split; [apply chain_shrink; [exact Hm|exact Hr|exact Hc]|]. rewrite Hu. f_equal. symmetry.
    apply total_shrink, Hm.
  - intros x mx Hx Hmx. simpl in Hmx |- *. destruct (Z.eq_dec x b) as [->|Hne].
    + rewrite lookup_insert_eq in Hmx. injection Hmx as <-. destruct (Hw b m Hb Hm) as (W1 & W2 & W3 & W4).
      unfold word_ok. simpl. auto with lia.
    + rewrite lookup_insert_ne in Hmx by congruence. exact (Hw x mx Hx Hmx).
  - intros q n. simpl. destruct (Z.eq_dec q (b + 28 + f b)) as [->|Hne].
    + rewrite lookup_insert_eq. split.
      * intros [= <-]. exists b, (with_req m r). rewrite lookup_insert_eq. auto.
      * intros (x & mx & Hx & Hmx & E & ->). destruct (Z.eq_dec x b) as [->|Hxb].
        -- rewrite lookup_insert_eq in Hmx. injection Hmx as <-. reflexivity.
        -- rewrite lookup_insert_ne in Hmx by congruence.
           destruct (Hw b m Hb Hm) as (W1 & _ & W3 & W4). destruct (Hw x mx Hx Hmx) as (V1 & _ & V3 & V4).
           destruct (live_disjoint h L x mx b m HI Hx Hb Hmx Hm Hxb); lia.
    + rewrite lookup_insert_ne, HB by congruence.
      split; intros (x & mx & Hx & Hmx & E & En); exists x, mx; (split; [exact Hx|]).
      * rewrite lookup_insert_ne by congruence. auto.
      * rewrite lookup_insert_ne in Hmx by congruence. auto.
Qed.

(** [realloc_bytes] to a size the block was asked for before shrinks it in place;
    to a larger one it moves it to fresh memory that holds the old contents, and the
    old pointer is gone.  When the page source is exhausted the copy goes through the
    null pointer. *)
Theorem realloc_bytes_correct h B mem p n size k :
  heap_rep h B -> l_locked h = false -> B !! p = Some n -> 0 < n -> 0 < size -> request_ok size k ->
  (size <= n /\ exists h', realloc_bytes p size (2 ^ k) h mem = Ok (p, h', mem)
     /\ heap_rep h' (<[p := size]> B) /\ l_locked h' = false)
  \/ (n < size /\ ((exists q h' mem', realloc_bytes p size (2 ^ k) h mem = Ok (q, h', mem')
        /\ heap_rep h' (<[q := size]> (delete p B)) /\ l_locked h' = false
        /\ q mod 2 ^ k = 0 /\ 0 < q /\ q + size < 2 ^ 32
        /\ (forall i, 0 <= i < n -> mem' (q + i) = mem (p + i))
        /\ (forall a, ~ (q <= a < q + n) -> mem' a = mem a))
      \/ (realloc_bytes p size (2 ^ k) h mem = Fault PageFault
          /\ exists h', malloc_bytes 2 size (2 ^ k) h = Ok (0, h')))).
Proof using.
  intros Hrep Hl Hp Hn Hsz (R1 & R2 & R3).
  destruct Hrep as (L & f & Hrep). pose proof Hrep as Hrep0.
  destruct (rep_pointer h L f B p n Hrep0 Hp) as (L1 & L2 & maj & l1 & l2 & b & m & M & -> & Hm & HM & -> & W
    & Hblk & Hmag & G1 & G2 & G3 & G4 & -> & G5).
  pose proof W as (W1 & _ & W3 & W4).
  assert (Hb : live (L1 ++ (maj, l1 ++ b :: l2) :: L2) b).
  { eexists _, _. split; apply elem_of_app; right; apply list_elem_of_here. }
  unfold realloc_bytes. rewrite (proj2 (Z.eqb_neq size 0)), (proj2 (Z.eqb_neq (b + 28 + f b) 0)) by lia.
  rewrite (bind_Ok_l _ _ _ (UNALIGN_spec h b m (f b) W ltac:(lia) ltac:(lia))).
  unfold lock. rewrite Hl. cbn [mbind outcome_bind]. unfold sizeof_minor.
  rewrite (sub32_small (b + 24) 24) by lia. replace (b + 24 - 24) with b by lia.
  assert (Hm0 : minors (set_lock true h) !! b = Some m) by exact Hm.
  rewrite (bind_Ok_l _ _ _ (get_minor_Ok _ _ _ Hm0)). rewrite (proj2 (Z.eqb_eq _ _) Hmag). cbn [negb].
  assert (Hul : unlock (set_lock true h) = h) by (destruct h; simpl in *; subst; reflexivity).
  destruct (Z.leb_spec size (min_req_size m)) as [Hle|Hgt]; [left|right].
  - split; [exact Hle|]. eexists. split; [reflexivity|]. split; [|reflexivity].
    eexists _, _. apply (lock_rep (put_minor b (with_req m size) (set_lock true h)) (L1 ++ (maj, l1 ++ b :: l2) :: L2) f _ false).
    apply shrink_rep; [apply lock_rep; exact Hrep|exact Hb|exact Hm|lia].
  - split; [exact Hgt|]. rewrite Hul.
    assert (Hr0 : heap_rep h B) by (eexists _, _; exact Hrep).
    destruct (malloc_bytes_spec size k R1 R2 R3 h B Hr0 Hl) as (q & h1 & E & Hl1 & Hpost).
    rewrite (bind_Ok_l _ _ _ E). destruct Hpost as [(-> & _)|(Hr1 & Q1 & Q2 & Q3 & Q4)].
    + right. rewrite Z.eqb_refl, (proj2 (Z.eqb_neq (min_req_size m) 0)) by lia. split; [reflexivity|]. eauto.
    + left. rewrite (proj2 (Z.eqb_neq q 0)) by lia. cbn [andb]. destruct (Q4 _ _ Hp) as [Hne Hdis].
      assert (Hp1 : <[q := size]> B !! (b + 28 + f b) = Some (min_req_size m)) by (rewrite lookup_insert_ne; [exact Hp|congruence]).
      destruct (free_bytes_spec h1 _ _ _ Hr1 Hl1 Hp1) as (h2 & E2 & Hr2 & Hl2).
      rewrite (bind_Ok_l _ _ _ E2). eexists q, h2, _. split; [reflexivity|].
      rewrite delete_insert_ne in Hr2 by congruence. split; [exact Hr2|]. split; [exact Hl2|].
      split; [exact Q1|]. split; [exact Q2|]. split; [exact Q3|]. unfold liballoc_memcpy. split.
      * intros i Hi. rewrite (proj2 (Z.leb_le _ _)), (proj2 (Z.ltb_lt _ _)) by lia. cbn [andb]. f_equal. lia.
      * intros a Ha. destruct (Z.leb_spec q a), (Z.ltb_spec a (q + min_req_size m)); simpl; (reflexivity || lia).
Qed.
End contracts.

(** ** Witnesses, on the concrete page source *)
Definition heap0 : heap bump := heap_init [].


Lemma free_bytes_correct_witness :
  exists h1 h2, malloc_bytes 2 8 (2 ^ 2) heap0 = Ok (4148, h1) /\ free_bytes 4148 h1 = Ok h2
    /\ heap_rep h2 (delete 4148 (<[4148 := 8]> ∅)).
Proof.
  assert (Hq : request_ok 8 2) by (unfold request_ok, rsize; simpl; lia).
  destruct (malloc_bytes_spec 8 2 ltac:(lia) ltac:(lia) (proj2 (proj2 Hq)) heap0 ∅ (heap_init_rep []) eq_refl)
    as (p & h1 & E & Hl & Hpost).
  assert (Hp : p = 4148) by (vm_compute in E; injection E as <- _; reflexivity).
  subst p. destruct Hpost as [[Hp _]|[Hr _]]; [discriminate|].
  destruct (free_bytes_correct h1 (<[4148 := 8]> ∅) 4148 8 Hr Hl (lookup_insert_eq _ _ _)) as (h2 & E2 & Hr2 & _).
  exists h1, h2. auto.
Defined.

Definition ok_or {A} (d : A) (o : outcome A) : A := match o with Ok a => a | Fault _ => d end.
Definition heap1 : heap bump := (ok_or (0, heap0) (malloc_bytes 2 8 (2 ^ 2) heap0)).2.
Definition heap2 : heap bump := (ok_or (0, heap0) (malloc_bytes 2 20 (2 ^ 6) heap1)).2.


Lemma realloc_bytes_correct_witness :
  exists h1 h2, malloc_bytes 2 64 (2 ^ 2) heap0 = Ok (4148, h1)
    /\ realloc_bytes 4148 16 (2 ^ 2) h1 (fun _ => 0) = Ok (4148, h2, fun _ => 0)
    /\ heap_rep h2 (<[4148 := 16]> (<[4148 := 64]> ∅)).
Proof.
  assert (Hq : request_ok 64 2) by (unfold request_ok, rsize; simpl; lia).
  assert (Hq' : request_ok 16 2) by (unfold request_ok, rsize; simpl; lia).
  destruct (malloc_bytes_spec 64 2 ltac:(lia) ltac:(lia) (proj2 (proj2 Hq)) heap0 ∅ (heap_init_rep []) eq_refl)
    as (p & h1 & E & Hl & Hpost).
  assert (Hp : p = 4148) by (vm_compute in E; injection E as <- _; reflexivity).
  subst p. destruct Hpost as [[Hp _]|[Hr _]]; [discriminate|].
  destruct (realloc_bytes_correct h1 (<[4148 := 64]> ∅) (fun _ => 0) 4148 64 16 2 Hr Hl (lookup_insert_eq _ _ _)
    ltac:(lia) ltac:(lia) Hq') as [(_ & h2 & E2 & Hr2 & _)|[Hc _]]; [|lia].
  exists h1, h2. auto.
Defined.

(** The size computation wraps for a request near the top of the address space:
    [malloc] then succeeds with a block of a few bytes. *)
Theorem malloc_wraps : exists h', malloc 0xFFFFFFF8 heap0 = Ok (4148, h')
  /\ exists m, minors h' !! 4120 = Some m /\ min_size m = 0xFFFFFFFF /\ maj_usage <$> majors h' !! 4096 = Some 47.
Proof.
  eexists. split; [vm_compute; reflexivity|]. eexists. vm_compute. repeat split.
Qed.
