(* ===== verification/Locks.v ===== *)
(** * Kernel mutexes and shared mutexes (kernel/locks.cpp, locks.h)

    Tasks interleave at the atomic operations of the lock words.  A task is the list
    of the operations it still has to perform; [lock_shared], [unlock_shared],
    [upgrade], ... are the lists the methods execute.  The reader count is a
    [size_t].  A task that finds a mutex taken yields and tries again, so it simply
    has no step until the mutex is released. *)
From S2P Require Import Prelude.

Definition INVALID_TASK_ID : Z := -1.

(** ** The lock word *)
Definition cas_func (value oldval newval : Z) : Z * Z :=
  (value, if value =? oldval then newval else value).
Definition do_try_lock_mutex (ownerPID my_pid : Z) : Z * Z := cas_func ownerPID INVALID_TASK_ID my_pid.
Definition kernel_try_lock_mutex (ownerPID my_pid : Z) : bool * Z :=
  let '(old, new) := do_try_lock_mutex ownerPID my_pid in (old =? INVALID_TASK_ID, new).
(** One round of the loop of [kernel_lock_mutex]: [None] is another round, after
    switching to the owner. *)
Definition kernel_lock_mutex (ownerPID my_pid : Z) : option Z :=
  let '(pid, new) := do_try_lock_mutex ownerPID my_pid in
  if pid =? INVALID_TASK_ID then Some new else None.
Definition kernel_unlock_mutex (ownerPID : Z) : Z := INVALID_TASK_ID.

(** The flag of a condition variable. *)
Definition tas_aquire (l : Z) : Z * Z := (l, 1).
Definition tas_release (l : Z) : Z := 0.
Definition kernel_signal_cv (unavailable : Z) : Z := tas_release unavailable.
Definition kernel_wait_cv (ownerPID unavailable : Z) : option (Z * Z) :=
  let '(old, new) := tas_aquire unavailable in
  if old =? 0 then Some (kernel_unlock_mutex ownerPID, new) else None.

(** ** Shared mutexes *)
Inductive mutex_name := Meta | Exclusive | Shared.
#[export] Instance mutex_name_eq_dec : EqDecision mutex_name.
Proof. solve_decision. Defined.

Record shared_mutex := mk_sm { meta_mutex : Z; exclusive_mtx : Z; shared_mtx : Z; num_shared : Z }.
Definition sync_init : shared_mutex := mk_sm INVALID_TASK_ID INVALID_TASK_ID INVALID_TASK_ID 0.

Definition get_mutex (n : mutex_name) (s : shared_mutex) : Z :=
  match n with Meta => meta_mutex s | Exclusive => exclusive_mtx s | Shared => shared_mtx s end.
Definition set_mutex (n : mutex_name) (v : Z) (s : shared_mutex) : shared_mutex :=
  match n with
  | Meta => mk_sm v (exclusive_mtx s) (shared_mtx s) (num_shared s)
  | Exclusive => mk_sm (meta_mutex s) v (shared_mtx s) (num_shared s)
  | Shared => mk_sm (meta_mutex s) (exclusive_mtx s) v (num_shared s)
  end.
Definition set_num (v : Z) (s : shared_mutex) : shared_mutex :=
  mk_sm (meta_mutex s) (exclusive_mtx s) (shared_mtx s) v.

Inductive action := ALock (n : mutex_name) | AUnlock (n : mutex_name) | AEnter | ALeave.
#[export] Instance action_eq_dec : EqDecision action.
Proof. solve_decision. Defined.

(** [shared_mutex]: [AEnter] is [if(++num_shared == 1) exclusive_mtx.lock()],
    [ALeave] is [if(--num_shared == 0) exclusive_mtx.unlock()]; the guards are
    [lock_guard]s. *)
Definition lock : list action := [ALock Exclusive].
Definition unlock : list action := [AUnlock Exclusive].
Definition lock_shared : list action := [ALock Shared; AEnter; AUnlock Shared].
Definition unlock_shared : list action := [ALock Shared; ALeave; AUnlock Shared].

(** [upgradable_shared_mutex]. *)
Definition guarded (l : list action) : list action := [ALock Meta] ++ l ++ [AUnlock Meta].
Definition u_lock : list action := guarded lock.
Definition u_unlock : list action := unlock.
Definition u_lock_shared : list action := guarded lock_shared.
Definition u_unlock_shared : list action := unlock_shared.
Definition upgrade : list action := guarded (unlock_shared ++ lock).
Definition downgrade : list action := guarded (unlock ++ lock_shared).

(** One atomic operation of task [pid]. *)
Definition run_action (pid : Z) (a : action) (rest : list action) (s : shared_mutex)
  : option (list action * shared_mutex) :=
  match a with
  | ALock n => match kernel_lock_mutex (get_mutex n s) pid with
               | Some v => Some (rest, set_mutex n v s)
               | None => None
               end
  | AUnlock n => Some (rest, set_mutex n (kernel_unlock_mutex (get_mutex n s)) s)
  | AEnter =>
    let n := add32 (num_shared s) 1 in
    Some (if n =? 1 then ALock Exclusive :: rest else rest, set_num n s)
  | ALeave =>
    let n := sub32 (num_shared s) 1 in
    Some (if n =? 0 then AUnlock Exclusive :: rest else rest, set_num n s)
  end.

(** The tasks, by task id, and the mutex. *)
Definition system : Type := list (list action) * shared_mutex.

Definition run_task (i : nat) (sys : system) : option system :=
  let '(tasks, s) := sys in
  match tasks !! i with
  | Some (a :: rest) =>
    match run_action (Z.of_nat i) a rest s with
    | Some (l, s) => Some (<[i := l]> tasks, s)
    | None => None
    end
  | _ => None
  end.

(** ** Clients of a shared mutex: idle tasks start reading or writing at any time *)
Definition reader : list action := lock_shared ++ unlock_shared.
Definition writer : list action := lock ++ unlock.

Inductive sm_step : system -> system -> Prop :=
| sm_run i sys sys' : run_task i sys = Some sys' -> sm_step sys sys'
| sm_start i tasks s l : tasks !! i = Some [] -> l = reader \/ l = writer ->
    sm_step (tasks, s) (<[i := l]> tasks, s).

(** Inside the critical section: what is left is the release. *)
Definition reading (l : list action) : Prop := l = unlock_shared.
Definition writing (l : list action) : Prop := l = unlock.

(** ** The places of a client *)
Inductive place := Idle | R1 | R2 | R3 | R4 | Reading | U2 | U3 | U4 | W1 | Writing.
#[export] Instance place_eq_dec : EqDecision place.
Proof. solve_decision. Defined.

Definition left_of (p : place) : list action :=
  match p with
  | Idle => []
  | R1 => reader
  | R2 => [AEnter; AUnlock Shared] ++ unlock_shared
  | R3 => [ALock Exclusive; AUnlock Shared] ++ unlock_shared
  | R4 => [AUnlock Shared] ++ unlock_shared
  | Reading => unlock_shared
  | U2 => [ALeave; AUnlock Shared]
  | U3 => [AUnlock Exclusive; AUnlock Shared]
  | U4 => [AUnlock Shared]
  | W1 => writer
  | Writing => unlock
  end.

Definition b2z (b : bool) : Z := if b then 1 else 0.
Definition count (f : place -> bool) (ps : list place) : Z :=
  fold_right (fun p n => b2z (f p) + n) 0 ps.

Definition holds_shared (p : place) : bool :=
  match p with R2 | R3 | R4 | U2 | U3 | U4 => true | _ => false end.
Definition counted (p : place) : bool :=
  match p with R3 | R4 | Reading | U2 => true | _ => false end.
Definition is_place (q p : place) : bool := bool_decide (p = q).

(** The exclusive mutex is held by a writer, by the readers as a group, or by the
    last reader on its way out. *)
Record sm_inv (ps : list place) (s : shared_mutex) : Prop := {
  inv_shared : count holds_shared ps = b2z (negb (shared_mtx s =? -1));
  inv_num : num_shared s = count counted ps;
  inv_exclusive : count (is_place Writing) ps + count (is_place U3) ps
      + b2z ((0 <? num_shared s) && (count (is_place R3) ps =? 0)) = b2z (negb (exclusive_mtx s =? -1));
  inv_first : 0 < count (is_place R3) ps -> num_shared s = 1;
  inv_last : 0 < count (is_place U3) ps -> num_shared s = 0 }.

Lemma count_nonneg f ps : 0 <= count f ps <= Z.of_nat (length ps).
Proof. induction ps as [|p ps IH]; simpl; [lia|]. unfold b2z. destruct (f p); lia. Qed.

Lemma count_insert f ps i p q : ps !! i = Some p ->
  count f (<[i := q]> ps) = count f ps - b2z (f p) + b2z (f q).
Proof.
  revert i. induction ps as [|x ps IH]; intros i H; [discriminate|].
  destruct i as [|i]; simpl in *; [injection H as ->; lia|]. rewrite (IH i H). lia.
Qed.

Lemma count_pos f ps i p : ps !! i = Some p -> f p = true -> 0 < count f ps.
Proof.
  revert i. induction ps as [|x ps IH]; intros i H Hf; [discriminate|].
  pose proof (count_nonneg f ps). destruct i as [|i]; simpl in *.
  - injection H as ->. rewrite Hf. simpl. lia.
  - specialize (IH i H Hf). unfold b2z. destruct (f x); lia.
Qed.

(** The count of one place is part of a count that includes it. *)
Lemma count_le f g ps : (forall p, f p = true -> g p = true) -> count f ps <= count g ps.
Proof.
  intros Hfg. induction ps as [|p ps IH]; simpl; [lia|]. specialize (Hfg p). unfold b2z.
  destruct (f p), (g p); try lia; discriminate (Hfg eq_refl).
Qed.

(** What the other tasks contribute to the counts. *)
Lemma count_rest f ps i p : ps !! i = Some p -> f Idle = false ->
  count f ps = count f (<[i := Idle]> ps) + b2z (f p).
Proof. intros H Hi. rewrite (count_insert f ps i p Idle H), Hi. cbn [b2z]. lia. Qed.

Lemma count_holders ps :
  count (is_place R3) ps + count (is_place U3) ps <= count holds_shared ps.
Proof.
  induction ps as [|p ps IH]; [reflexivity|]. unfold count in *. cbn [fold_right].
  assert (b2z (is_place R3 p) + b2z (is_place U3 p) <= b2z (holds_shared p))
    by (destruct p; vm_compute; discriminate).
  lia.
Qed.

Lemma counted_bound ps : count (is_place R3) ps <= count counted ps.
Proof. apply count_le. intros []; intros H; try reflexivity; discriminate H. Qed.

(** The places and the counts after one operation of the task at place [p]. *)
Definition place_step (pid : Z) (p : place) (s : shared_mutex) : option (place * shared_mutex) :=
  match p with
  | Idle => None
  | R1 => if shared_mtx s =? -1 then Some (R2, set_mutex Shared pid s) else None
  | R2 => let n := add32 (num_shared s) 1 in Some (if n =? 1 then R3 else R4, set_num n s)
  | R3 => if exclusive_mtx s =? -1 then Some (R4, set_mutex Exclusive pid s) else None
  | R4 => Some (Reading, set_mutex Shared (-1) s)
  | Reading => if shared_mtx s =? -1 then Some (U2, set_mutex Shared pid s) else None
  | U2 => let n := sub32 (num_shared s) 1 in Some (if n =? 0 then U3 else U4, set_num n s)
  | U3 => Some (U4, set_mutex Exclusive (-1) s)
  | U4 => Some (Idle, set_mutex Shared (-1) s)
  | W1 => if exclusive_mtx s =? -1 then Some (Writing, set_mutex Exclusive pid s) else None
  | Writing => Some (Idle, set_mutex Exclusive (-1) s)
  end.

(** The operations of a client follow the places. *)
Lemma run_task_places ps s i :
  run_task i (map left_of ps, s) =
    p ← ps !! i; '(q, s') ← place_step (Z.of_nat i) p s; Some (map left_of (<[i := q]> ps), s').
Proof.
  unfold run_task. rewrite list_lookup_fmap. destruct (ps !! i) as [p|]; [|reflexivity].
  cbn [mbind option_bind fmap option_fmap option_map].
  destruct p; cbn [left_of reader writer lock unlock lock_shared unlock_shared app run_action place_step];
    unfold kernel_lock_mutex, do_try_lock_mutex, cas_func, kernel_unlock_mutex, INVALID_TASK_ID; cbn [get_mutex];
    try match goal with |- context [?x =? ?y] => destruct (x =? y) end;
    try reflexivity; cbn [mbind option_bind]; rewrite list_fmap_insert; reflexivity.
Qed.

#[local] Ltac place_bit t := let v := eval vm_compute in t in change t with v in *.
#[local] Ltac place_bits :=
  repeat match goal with
  | |- context [b2z (holds_shared ?p)] => place_bit constr:(b2z (holds_shared p))
  | |- context [b2z (counted ?p)] => place_bit constr:(b2z (counted p))
  | |- context [b2z (is_place ?q ?p)] => place_bit constr:(b2z (is_place q p))
  | H : context [b2z (holds_shared ?p)] |- _ => place_bit constr:(b2z (holds_shared p))
  | H : context [b2z (counted ?p)] |- _ => place_bit constr:(b2z (counted p))
  | H : context [b2z (is_place ?q ?p)] |- _ => place_bit constr:(b2z (is_place q p))
  end.

#[local] Ltac split_eqb H :=
  repeat match type of H with context [if ?x =? ?y then _ else _] => destruct (Z.eqb_spec x y) end.
#[local] Ltac by_bits :=
  repeat match goal with
  | |- context [?x =? ?y] => destruct (Z.eqb_spec x y)
  | |- context [?x <? ?y] => destruct (Z.ltb_spec x y)
  | H : context [?x =? ?y] |- _ => destruct (Z.eqb_spec x y)
  | H : context [?x <? ?y] |- _ => destruct (Z.ltb_spec x y)
  end; cbn [b2z negb andb] in *; lia.

(** Each operation of a client preserves the invariant. *)
Lemma sm_inv_place ps s i p q s' : Z.of_nat (length ps) < 2 ^ 32 -> sm_inv ps s ->
  ps !! i = Some p -> place_step (Z.of_nat i) p s = Some (q, s') -> sm_inv (<[i := q]> ps) s'.
Proof.
  intros Hlen [Hs Hn He Hf Hl] Hp Hstep.
  pose proof (count_nonneg counted ps) as Hb1.
  set (base := <[i := Idle]> ps).
  pose proof (count_holders base) as B1. pose proof (counted_bound base) as B2.
  pose proof (proj1 (count_nonneg (is_place R3) base)) as B3.
  pose proof (proj1 (count_nonneg (is_place U3) base)) as B4.
  pose proof (proj1 (count_nonneg (is_place Writing) base)) as B5.
  assert (Hq : forall f, f Idle = false -> count f (<[i := q]> ps) = count f base + b2z (f q)).
  { intros f Hi. rewrite (count_insert f ps i p q Hp), (count_rest f ps i p Hp Hi). fold base. lia. }
  rewrite (count_rest holds_shared ps i p Hp eq_refl) in Hs.
  rewrite (count_rest counted ps i p Hp eq_refl) in Hn, Hb1.
  rewrite (count_rest (is_place R3) ps i p Hp eq_refl) in He, Hf.
  rewrite (count_rest (is_place U3) ps i p Hp eq_refl) in He, Hl.
  rewrite (count_rest (is_place Writing) ps i p Hp eq_refl) in He. fold base in Hs, Hn, Hb1, He, Hf, Hl.
  pose proof (proj2 (count_nonneg counted (<[i := Reading]> ps))) as Hb2.
  rewrite length_insert, (count_insert counted ps i p Reading Hp), (count_rest counted ps i p Hp eq_refl) in Hb2.
  fold base in Hb2. clearbody base.
  destruct p; cbn [place_step] in Hstep; cbv zeta in Hstep; try discriminate Hstep;
    place_bits;
    try rewrite add32_small in Hstep by lia; try rewrite sub32_small in Hstep by lia;
    split_eqb Hstep; try discriminate Hstep; injection Hstep as <- <-;
    constructor; rewrite ?Hq by reflexivity;
    cbn [set_mutex set_num num_shared shared_mtx exclusive_mtx] in *; place_bits; by_bits.
Qed.

Lemma sm_inv_step ps s sys' : Z.of_nat (length ps) < 2 ^ 32 -> sm_inv ps s ->
  sm_step (map left_of ps, s) sys' ->
  exists ps' s', sys' = (map left_of ps', s') /\ sm_inv ps' s' /\ length ps' = length ps.
Proof.
  intros Hlen Hinv Hstep. inversion Hstep as [i sys1 sys2 Hrun|i tasks s1 l Hi Hl]; subst.
  - rewrite run_task_places in Hrun. destruct (ps !! i) as [p|] eqn:Hp; [|discriminate Hrun].
    cbn [mbind option_bind] in Hrun.
    destruct (place_step _ p s) as [[q s']|] eqn:Hq; [|discriminate Hrun]. injection Hrun as <-.
    exists (<[i := q]> ps), s'. split; [reflexivity|]. split; [|apply length_insert].
    exact (sm_inv_place ps s i p q s' Hlen Hinv Hp Hq).
  - rewrite list_lookup_fmap in Hi. destruct (ps !! i) as [p|] eqn:Hp; [|discriminate Hi].
    assert (p = Idle) as -> by (destruct p; try discriminate Hi; reflexivity).
    exists (<[i := if bool_decide (l = reader) then R1 else W1]> ps), s.
    split; [|split; [|apply length_insert]].
    + rewrite (list_fmap_insert left_of). destruct Hl as [-> | ->]; reflexivity.
    + destruct Hinv as [Hs Hn He Hf Hlast].
      assert (Hc : forall f, f Idle = false -> f R1 = false -> f W1 = false ->
        count f (<[i := if bool_decide (l = reader) then R1 else W1]> ps) = count f ps).
      { intros f H0 H1 H2. rewrite (count_insert f ps i Idle _ Hp), H0.
        destruct (bool_decide (l = reader)); rewrite ?H1, ?H2; cbn [b2z]; lia. }
      constructor; rewrite ?Hc by reflexivity; assumption.
Qed.

(** Every system the clients reach is given by the places of the tasks. *)
Lemma sm_reachable n sys : Z.of_nat n < 2 ^ 32 ->
  rtc sm_step (replicate n [], sync_init) sys ->
  exists ps s, sys = (map left_of ps, s) /\ sm_inv ps s.
Proof.
  intros Hn Hr.
  assert (Hinit : exists ps s, (replicate n ([] : list action), sync_init) = (map left_of ps, s)
      /\ sm_inv ps s /\ length ps = n).
  { exists (replicate n Idle), sync_init. split; [rewrite fmap_replicate; reflexivity|].
    split; [|apply length_replicate].
    assert (H0 : forall f, f Idle = false -> count f (replicate n Idle) = 0).
    { intros f Hf. clear -Hf. induction n as [|n IH]; [reflexivity|].
      unfold count in *. cbn [replicate fold_right]. rewrite Hf, IH. reflexivity. }
    constructor; rewrite ?H0 by reflexivity; cbn [sync_init num_shared]; try reflexivity; lia. }
  revert Hinit. induction Hr as [sys|x y z Hxy Hr IH]; intros (ps & s & -> & Hinv & Hl).
  - exists ps, s. split; [reflexivity|exact Hinv].
  - apply IH. destruct (sm_inv_step ps s y) as (ps' & s' & -> & Hinv' & Hl'); [lia|assumption..|].
    exists ps', s'. split; [reflexivity|]. split; [exact Hinv'|lia].
Qed.

Lemma count_two f ps i j p q : ps !! i = Some p -> ps !! j = Some q -> i <> j ->
  f Idle = false -> f p = true -> f q = true -> 2 <= count f ps.
Proof.
  intros Hi Hj Hij H0 Hp Hq. rewrite (count_rest f ps i p Hi H0), Hp.
  assert (0 < count f (<[i := Idle]> ps)) by
    (apply (count_pos f _ j q); [rewrite list_lookup_insert_ne by congruence; exact Hj|exact Hq]).
  cbn [b2z]. lia.
Qed.

Lemma counted_places ps :
  count (is_place R3) ps + count (is_place Reading) ps <= count counted ps.
Proof.
  induction ps as [|p ps IH]; [reflexivity|]. unfold count in *. cbn [fold_right].
  assert (b2z (is_place R3 p) + b2z (is_place Reading p) <= b2z (counted p))
    by (destruct p; vm_compute; discriminate).
  lia.
Qed.

(** A positive count has a witness. *)
Lemma count_exists f ps : 0 < count f ps -> exists i p, ps !! i = Some p /\ f p = true.
Proof.
  induction ps as [|p ps IH]; [cbn; lia|]. unfold count in *. cbn [fold_right].
  destruct (f p) eqn:Hf; [intros _; exists 0%nat, p; split; [reflexivity|exact Hf]|].
  cbn [b2z]. intros H. destruct IH as (i & q & Hi & Hq); [lia|]. exists (S i), q. split; assumption.
Qed.

(** C14: mutual exclusion of [shared_mutex]: whatever the interleaving of any number of
    tasks (fewer than the range of the reader count) that repeatedly read or write, a
    task inside [lock]/[unlock] is alone, with no other writer and no reader. *)
Theorem shared_mutex_excludes n tasks s i j l l' : Z.of_nat n < 2 ^ 32 ->
  rtc sm_step (replicate n [], sync_init) (tasks, s) ->
  tasks !! i = Some l -> tasks !! j = Some l' -> i <> j -> writing l ->
  ~ (reading l' \/ writing l').
Proof.
  intros Hn Hr Hi Hj Hij Hw Hor.
  destruct (sm_reachable n (tasks, s) Hn Hr) as (ps & s0 & Heq & [_ Hnum Hex Hfirst _]).
  injection Heq as -> <-. rewrite list_lookup_fmap in Hi, Hj.
  destruct (ps !! i) as [p|] eqn:Hp; [|discriminate Hi].
  destruct (ps !! j) as [q|] eqn:Hq; [|discriminate Hj].
  unfold writing, reading in *. injection Hi as <-. injection Hj as <-.
  assert (p = Writing) as -> by (destruct p; try discriminate Hw; reflexivity).
  pose proof (count_pos (is_place Writing) ps i Writing Hp eq_refl) as H1.
  pose proof (count_nonneg (is_place U3) ps) as H2. pose proof (counted_places ps) as H3.
  pose proof (count_nonneg (is_place R3) ps) as H4.
  destruct Hor as [Hor|Hor].
  - assert (q = Reading) as -> by (destruct q; try discriminate Hor; reflexivity).
    pose proof (count_pos (is_place Reading) ps j Reading Hq eq_refl). by_bits.
  - assert (q = Writing) as -> by (destruct q; try discriminate Hor; reflexivity).
    pose proof (count_two (is_place Writing) ps i j _ _ Hp Hq Hij eq_refl eq_refl eq_refl). by_bits.
Qed.

(** The places whose next operation never waits. *)
Definition unblocked (p : place) : bool :=
  match p with R2 | R4 | U2 | U3 | U4 | Writing => true | _ => false end.

Lemma count_split f g h ps : (forall p, b2z (f p) <= b2z (g p) + b2z (h p)) ->
  count f ps <= count g ps + count h ps.
Proof.
  intros H. induction ps as [|p ps IH]; [reflexivity|]. specialize (H p).
  unfold count in *. cbn [fold_right]. lia.
Qed.

Lemma place_moves ps s i p : ps !! i = Some p -> is_Some (place_step (Z.of_nat i) p s) ->
  exists j sys', run_task j (map left_of ps, s) = Some sys'.
Proof.
  intros Hp [[q s'] Hq]. exists i. rewrite run_task_places, Hp. cbn [mbind option_bind].
  rewrite Hq. eexists. reflexivity.
Qed.

Lemma unblocked_moves ps s : 0 < count unblocked ps ->
  exists j sys', run_task j (map left_of ps, s) = Some sys'.
Proof.
  intros H. destruct (count_exists _ _ H) as (j & q & Hq & Hf). apply (place_moves ps s j q Hq).
  destruct q; try discriminate Hf; eexists; reflexivity.
Qed.

(** Without an unblocked task the mutexes are as the waiting tasks need them. *)
Lemma waiting_free ps s : sm_inv ps s -> count unblocked ps = 0 ->
  (0 < count (is_place R3) ps -> exclusive_mtx s = -1) /\
  (count (is_place R3) ps = 0 -> shared_mtx s = -1 /\
    (count (is_place Reading) ps = 0 -> exclusive_mtx s = -1)).
Proof.
  intros [Hs Hnum Hex Hfirst _] H0.
  assert (Hle : forall f g, (forall p, b2z (f p) <= b2z (unblocked p) + b2z (g p)) -> count f ps <= count g ps)
    by (intros f g H; pose proof (count_split f unblocked g ps H); lia).
  assert (HW : count (is_place Writing) ps <= count (fun _ => false) ps)
    by (apply Hle; intros []; vm_compute; discriminate).
  assert (HU : count (is_place U3) ps <= count (fun _ => false) ps)
    by (apply Hle; intros []; vm_compute; discriminate).
  assert (HF : count (fun _ => false) ps = 0)
    by (clear; induction ps as [|p ps IH]; [reflexivity|exact IH]).
  pose proof (Hle holds_shared (is_place R3) ltac:(intros []; vm_compute; discriminate)) as HR.
  assert (HC : count counted ps <= count (is_place R3) ps + count (is_place Reading) ps).
  { transitivity (count (fun p => is_place R3 p || is_place Reading p) ps).
    - apply Hle. intros []; vm_compute; discriminate.
    - apply count_split. intros []; vm_compute; discriminate. }
  pose proof (count_nonneg (is_place Writing) ps). pose proof (count_nonneg (is_place U3) ps).
  pose proof (count_nonneg counted ps). pose proof (count_nonneg holds_shared ps).
  rewrite HF in HW, HU. clear Hle HF Hfirst.
  split; [intros G3|intros G3; split; [|intros G4]]; by_bits.
Qed.

(** C15: [shared_mutex] does not deadlock: while some task is inside an operation or a
    critical section, some task can perform its next operation. *)
Theorem shared_mutex_progress n tasks s i l : Z.of_nat n < 2 ^ 32 ->
  rtc sm_step (replicate n [], sync_init) (tasks, s) -> tasks !! i = Some l -> l <> [] ->
  exists j sys', run_task j (tasks, s) = Some sys'.
Proof.
  intros Hn Hr Hi Hl. destruct (sm_reachable n (tasks, s) Hn Hr) as (ps & s0 & Heq & Hinv).
  injection Heq as -> <-. rewrite list_lookup_fmap in Hi.
  destruct (ps !! i) as [p|] eqn:Hp; [|discriminate Hi]. injection Hi as <-.
  pose proof (count_nonneg unblocked ps) as H0.
  destruct (decide (0 < count unblocked ps)) as [Hu|Hu]; [exact (unblocked_moves ps s Hu)|].
  destruct (waiting_free ps s Hinv ltac:(lia)) as [H3 H4].
  destruct (decide (0 < count (is_place R3) ps)) as [Hr3|Hr3].
  { destruct (count_exists _ _ Hr3) as (j & q & Hq & Hf). apply (place_moves ps s j q Hq).
    destruct q; try discriminate Hf. cbn [place_step]. rewrite (H3 Hr3). eexists. reflexivity. }
  pose proof (count_nonneg (is_place R3) ps) as H5. destruct (H4 ltac:(lia)) as [Hsh Hex].
  destruct (decide (0 < count (is_place Reading) ps)) as [Hrd|Hrd].
  { destruct (count_exists _ _ Hrd) as (j & q & Hq & Hf). apply (place_moves ps s j q Hq).
    destruct q; try discriminate Hf. cbn [place_step]. rewrite Hsh. eexists. reflexivity. }
  pose proof (count_nonneg (is_place Reading) ps) as H6. specialize (Hex ltac:(lia)).
  destruct (unblocked p) eqn:Hup; [pose proof (count_pos unblocked ps i p Hp Hup); lia|].
  apply (place_moves ps s i p Hp).
  destruct p; try discriminate Hup; cbn [place_step]; rewrite ?Hsh, ?Hex; try (eexists; reflexivity).
  exfalso. exact (Hl eq_refl).
Qed.

(** A reader waits for the writer inside, and the writer can go on. *)
Definition reader_waits : system :=
  ([unlock; [ALock Exclusive; AUnlock Shared] ++ unlock_shared], mk_sm (-1) 0 1 1).

Lemma reader_waits_reachable : rtc sm_step (replicate 2 [], sync_init) reader_waits.
Proof.
  apply (rtc_l _ _ ([writer; []], sync_init)).
  { apply (sm_start 0%nat [[]; []] sync_init writer); [reflexivity|right; reflexivity]. }
  apply (rtc_l _ _ ([unlock; []], mk_sm (-1) 0 (-1) 0)); [apply (sm_run 0%nat); reflexivity|].
  apply (rtc_l _ _ ([unlock; reader], mk_sm (-1) 0 (-1) 0)).
  { apply (sm_start 1%nat [unlock; []] _ reader); [reflexivity|left; reflexivity]. }
  apply (rtc_l _ _ ([unlock; [AEnter; AUnlock Shared] ++ unlock_shared], mk_sm (-1) 0 1 0));
    [apply (sm_run 1%nat); reflexivity|].
  apply (rtc_l _ _ reader_waits); [apply (sm_run 1%nat); reflexivity|]. apply rtc_refl.
Qed.

Lemma shared_mutex_excludes_witness :
  let l := [ALock Exclusive; AUnlock Shared] ++ unlock_shared in ~ (reading l \/ writing l).
Proof.
  exact (shared_mutex_excludes 2 _ _ 0 1 unlock _ ltac:(lia) reader_waits_reachable eq_refl eq_refl
           ltac:(discriminate) eq_refl).
Defined.

Lemma shared_mutex_progress_witness : exists j sys', run_task j reader_waits = Some sys'.
Proof.
  exact (shared_mutex_progress 2 _ _ 1 ([ALock Exclusive; AUnlock Shared] ++ unlock_shared) ltac:(lia)
           reader_waits_reachable eq_refl ltac:(discriminate)).
Defined.

(** ** [upgradable_shared_mutex]: schedules that end with every task waiting *)
Definition run_schedule (sched : list nat) (sys : system) : option system :=
  foldl (fun o i => o ≫= run_task i) (Some sys) sched.
Definition stuck (sys : system) : Prop :=
  Forall (fun l => l <> []) (fst sys) /\ forall i, run_task i sys = None.

(** Two tasks that read and want to write: the first waits for the second to leave,
    with [meta_mutex] held; the second needs [meta_mutex] to upgrade. *)
Example upgrade_deadlocks :
  let client := u_lock_shared ++ upgrade ++ u_unlock in
  exists sched sys, run_schedule sched ([client; client], sync_init) = Some sys /\ stuck sys.
Proof.
  exists ([0; 0; 0; 0; 0; 0; 1; 1; 1; 1; 1; 0; 0; 0; 0]%nat),
    ([[ALock Exclusive; AUnlock Meta] ++ u_unlock; upgrade ++ u_unlock], mk_sm 0 0 (-1) 1).
  split; [vm_compute; reflexivity|].
  split; [repeat constructor; discriminate|]. intros [|[|i]]; reflexivity.
Qed.

(** A task waiting in [lock] holds [meta_mutex], which the writer needs to downgrade. *)
Example downgrade_deadlocks :
  exists sched sys, run_schedule sched
    ([u_lock ++ downgrade ++ u_unlock_shared; u_lock ++ u_unlock], sync_init) = Some sys /\ stuck sys.
Proof.
  exists ([0; 0; 0; 1]%nat),
    ([downgrade ++ u_unlock_shared; [ALock Exclusive; AUnlock Meta] ++ u_unlock], mk_sm 1 0 (-1) 0).
  split; [vm_compute; reflexivity|].
  split; [repeat constructor; discriminate|]. intros [|[|i]]; reflexivity.
Qed.
