(* ===== verification/Unicode.v ===== *)
(** * UTF-8 and UTF-16 (kernel/util/unicode.h)

    A code unit is the number it holds ([char] as a byte), a [char32_t] a 32-bit
    word.  The iterator pair of a decoder is the rest of the input; the output
    iterators append, so an encoder returns what it appends. *)
From S2P Require Import Prelude.

(** [std::countl_one] of a byte. *)
Definition countl_one (c : Z) : Z :=
  if Z.land c 0x80 =? 0 then 0 else if Z.land c 0x40 =? 0 then 1 else if Z.land c 0x20 =? 0 then 2
  else if Z.land c 0x10 =? 0 then 3 else if Z.land c 0x08 =? 0 then 4 else if Z.land c 0x04 =? 0 then 5
  else if Z.land c 0x02 =? 0 then 6 else if Z.land c 0x01 =? 0 then 7 else 8.

Definition utf8_encode_char (c : Z) : list Z :=
  if c <=? 0x7F then [c]
  else if c <=? 0x7FF then
    [Z.lor 0xC0 (Z.land (Z.shiftr c 6) 0x1F); Z.lor 0x80 (Z.land (Z.shiftr c 0) 0x3F)]
  else if c <=? 0xFFFF then
    [Z.lor 0xE0 (Z.land (Z.shiftr c 12) 0x0F); Z.lor 0x80 (Z.land (Z.shiftr c 6) 0x3F);
     Z.lor 0x80 (Z.land (Z.shiftr c 0) 0x3F)]
  else if c <=? 0x10FFFF then
    [Z.lor 0xF0 (Z.land (Z.shiftr c 18) 0x07); Z.lor 0x80 (Z.land (Z.shiftr c 12) 0x3F);
     Z.lor 0x80 (Z.land (Z.shiftr c 6) 0x3F); Z.lor 0x80 (Z.land (Z.shiftr c 0) 0x3F)]
  else [0xEF; 0xBF; 0xBD].

Definition utf8_encode (input : list Z) : list Z := concat (map utf8_encode_char input).

(** The loop of [utf8_decode_char]: continuation bytes still expected and the value
    so far.  [num_chars] is a [size_t]. *)
Fixpoint utf8_decode_loop (num_chars next_output : Z) (input : list Z) : Z * list Z :=
  match input with
  | [] => (0, [])
  | c :: rest =>
    if Z.land c 0x80 =? 0 then (c, rest)
    else if (Z.land c 0xC0 =? 0x80) && negb (num_chars =? 0) then
      let next_output := Z.lor (shl32 next_output 6) (Z.land c 0x3F) in
      let num_chars := sub32 num_chars 1 in
      if num_chars =? 0 then (next_output, rest) else utf8_decode_loop num_chars next_output rest
    else
      let n := countl_one c in
      utf8_decode_loop (sub32 n 1) (Z.land c (Z.shiftr 0xFF (n + 1))) rest
  end.
Definition utf8_decode_char (input : list Z) : Z * list Z := utf8_decode_loop 0 0 input.

Definition utf16_encode_char (c : Z) : list Z :=
  if c <=? 0xFFFF then [c]
  else let c := c - 0x10000 in
       [Z.lor 0xD800 (Z.land (Z.shiftr c 10) 0x3FF); Z.lor 0xDC00 (Z.land c 0x3FF)].

Definition utf16_encode (input : list Z) : list Z := concat (map utf16_encode_char input).

Fixpoint utf16_decode_loop (next_output : Z) (input : list Z) : Z * list Z :=
  match input with
  | [] => (0, [])
  | c :: rest =>
    if (c <? 0xD800) || (0xDFFF <? c) then (c, rest)
    else if Z.land c 0xFC00 =? 0xDC00 then
      (add32 (Z.lor (shl32 next_output 10) (Z.land c 0x3FF)) 0x10000, rest)
    else if Z.land c 0xFC00 =? 0xD800 then utf16_decode_loop (Z.land c 0x3FF) rest
    else utf16_decode_loop next_output rest
  end.
Definition utf16_decode_char (input : list Z) : Z * list Z := utf16_decode_loop 0 input.

(** [while(it != input.cend())]: decode a character, encode it. *)
Fixpoint transcode (fuel : nat) (decode : list Z -> Z * list Z) (encode : Z -> list Z) (input : list Z)
  : outcome (list Z) :=
  match input, fuel with
  | [], _ => Ok []
  | _, O => Fault OutOfFuel
  | _, S fuel =>
    let '(ch, rest) := decode input in
    out ← transcode fuel decode encode rest;
    Ok (encode ch ++ out)
  end.
Definition utf16_to_utf8 (input : list Z) : outcome (list Z) :=
  transcode (length input) utf16_decode_char utf8_encode_char input.
Definition utf8_to_utf16 (input : list Z) : outcome (list Z) :=
  transcode (length input) utf8_decode_char utf16_encode_char input.

Example decode_euro : utf8_decode_char [0xE2; 0x82; 0xAC; 0x41] = (0x20AC, [0x41]).
Proof. reflexivity. Qed.
Example to_utf16 : utf8_to_utf16 [0x41; 0xF0; 0x9F; 0x98; 0x80] = Ok [0x41; 0xD83D; 0xDE00].
Proof. reflexivity. Qed.

(** ** Decoding what was encoded *)
Definition scalar (c : Z) : Prop := 0 <= c < 0xD800 \/ 0xE000 <= c <= 0x10FFFF.

(** A property of small words, checked on all of them. *)
Lemma check_range (P : Z -> bool) n : forallb P (seqZ 0 n) = true ->
  forall x, 0 <= x < n -> P x = true.
Proof.
  intros H x Hx. rewrite forallb_forall in H. apply H. apply list_elem_of_In, elem_of_seqZ. lia.
Qed.

Definition tail_byte_ok (x : Z) : bool :=
  let c := Z.lor 0x80 x in
  negb (Z.land c 0x80 =? 0) && (Z.land c 0xC0 =? 0x80) && (Z.land c 0x3F =? x).
Lemma tail_byte x : 0 <= x < 64 -> tail_byte_ok x = true.
Proof. apply (check_range tail_byte_ok 64). vm_compute. reflexivity. Qed.

(** One continuation byte: the value grows by six bits. *)
Lemma decode_tail k v x rest : 0 <= x < 64 -> 0 < k < 2 ^ 32 -> 0 <= v < 2 ^ 26 ->
  utf8_decode_loop k v (Z.lor 0x80 x :: rest)
  = if k =? 1 then (v * 64 + x, rest) else utf8_decode_loop (k - 1) (v * 64 + x) rest.
Proof.
  intros Hx Hk Hv. pose proof (tail_byte x Hx) as Hb. unfold tail_byte_ok in Hb.
  apply andb_true_iff in Hb as [Hb H3]. apply andb_true_iff in Hb as [H1 H2].
  cbn [utf8_decode_loop]. apply negb_true_iff in H1. apply Z.eqb_eq in H3.
  rewrite H1, H2, H3, (proj2 (Z.eqb_neq k 0)) by lia. cbn [andb negb]. cbv zeta.
  rewrite (sub32_small k 1) by lia.
  assert (Hs : shl32 v 6 = v * 64).
  { unfold shl32. rewrite Z.shiftl_mul_pow2 by lia. apply u32_small. unfold is_u32. lia. }
  rewrite Hs, (lor_aligned (v * 64) x 6) by (try lia; apply Z_mod_mult).
  destruct (Z.eqb_spec k 1) as [->|Hne]; [reflexivity|]. rewrite (proj2 (Z.eqb_neq (k - 1) 0)) by lia.
  reflexivity.
Qed.

(** A leading byte of [n] units starts the value with its low bits. *)
Definition lead_byte_ok (lead n x : Z) : bool :=
  let c := Z.lor lead x in
  negb (Z.land c 0x80 =? 0) && negb (Z.land c 0xC0 =? 0x80) && (countl_one c =? n)
  && (Z.land c (Z.shiftr 0xFF (n + 1)) =? x).

Lemma decode_lead lead n x rest : lead_byte_ok lead n x = true -> 0 < n < 2 ^ 32 ->
  utf8_decode_char (Z.lor lead x :: rest) = utf8_decode_loop (n - 1) x rest.
Proof.
  intros Hb Hn. unfold lead_byte_ok in Hb.
  apply andb_true_iff in Hb as [Hb H4]. apply andb_true_iff in Hb as [Hb H3].
  apply andb_true_iff in Hb as [H1 H2]. apply negb_true_iff in H1, H2.
  apply Z.eqb_eq in H3, H4. unfold utf8_decode_char. cbn [utf8_decode_loop].
  rewrite H1, H2. cbn [andb]. cbv zeta. rewrite H3, H4, (sub32_small n 1) by lia. reflexivity.
Qed.

(** A bit field of [c] as arithmetic. *)
Lemma field c k n m : 0 <= k -> 0 <= n -> m = 2 ^ n - 1 ->
  Z.land (Z.shiftr c k) m = (c / 2 ^ k) mod 2 ^ n.
Proof. intros Hk Hn ->. rewrite Z.shiftr_div_pow2 by lia. apply land_low_mask. exact Hn. Qed.

Lemma div_range c k n : 0 <= c < k * n -> 0 < k -> 0 <= c / k < n.
Proof. intros H Hk. split; [apply Z.div_pos; lia|apply Z.div_lt_upper_bound; lia]. Qed.

Lemma utf8_decode_encode c rest : 0 <= c <= 0x10FFFF ->
  utf8_decode_char (utf8_encode_char c ++ rest) = (c, rest).
Proof.
  intros Hc. unfold utf8_encode_char.
  rewrite (field c 6 5 0x1F), (field c 0 6 0x3F), (field c 12 4 0x0F), (field c 6 6 0x3F), (field c 18 3 0x07),
    (field c 12 6 0x3F) by (lia || reflexivity).
  change (2 ^ 0) with 1. rewrite Z.div_1_r.
  change (2 ^ 6) with 64 in *. change (2 ^ 12) with 4096 in *. change (2 ^ 18) with 262144 in *.
  change (2 ^ 5) with 32. change (2 ^ 4) with 16. change (2 ^ 3) with 8.
  pose proof (Z.mod_pos_bound c 64 ltac:(lia)) as B0. pose proof (Z.mod_pos_bound (c / 64) 64 ltac:(lia)) as B1.
  pose proof (Z.mod_pos_bound (c / 4096) 64 ltac:(lia)) as B2.
  pose proof (Z.div_mod c 64 ltac:(lia)) as D0. pose proof (Z.div_mod (c / 64) 64 ltac:(lia)) as D1.
  pose proof (Z.div_mod (c / 4096) 64 ltac:(lia)) as D2.
  rewrite Z.div_div in D1, D2 by lia. change (64 * 64) with 4096 in D1. change (4096 * 64) with 262144 in D2.
  destruct (Z.leb_spec c 0x7F); [|destruct (Z.leb_spec c 0x7FF);
    [|destruct (Z.leb_spec c 0xFFFF); [|rewrite (proj2 (Z.leb_le c 0x10FFFF)) by lia]]]; cbn [app].
  - unfold utf8_decode_char. cbn [utf8_decode_loop].
    assert (Hl : (Z.land c 0x80 =? 0) = true).
    { change 0x80 with (2 ^ 7). rewrite land_pow2_testbit, (small_testbit c 7) by lia. reflexivity. }
    rewrite Hl. reflexivity.
  - pose proof (div_range c 64 32 ltac:(lia) ltac:(lia)). rewrite (Z.mod_small (c / 64) 32) by lia.
    rewrite (decode_lead 0xC0 2) by (lia || (apply (check_range (lead_byte_ok 0xC0 2) 32); [vm_compute; reflexivity|lia])).
    rewrite decode_tail by lia. cbn -[Z.mul Z.add Z.div Z.modulo]. f_equal. lia.
  - pose proof (div_range c 4096 16 ltac:(lia) ltac:(lia)). rewrite (Z.mod_small (c / 4096) 16) by lia.
    rewrite (decode_lead 0xE0 3) by (lia || (apply (check_range (lead_byte_ok 0xE0 3) 16); [vm_compute; reflexivity|lia])).
    rewrite decode_tail by lia. change (3 - 1 =? 1) with false. cbv iota. rewrite decode_tail by lia.
    cbn -[Z.mul Z.add Z.div Z.modulo]. f_equal. lia.
  - pose proof (div_range c 262144 8 ltac:(lia) ltac:(lia)). rewrite (Z.mod_small (c / 262144) 8) by lia.
    rewrite (decode_lead 0xF0 4) by (lia || (apply (check_range (lead_byte_ok 0xF0 4) 8); [vm_compute; reflexivity|lia])).
    rewrite decode_tail by lia. change (4 - 1 =? 1) with false. cbv iota. rewrite decode_tail by lia.
    change (4 - 1 - 1 =? 1) with false. cbv iota. rewrite decode_tail by lia.
    cbn -[Z.mul Z.add Z.div Z.modulo]. f_equal. lia.
Qed.

Definition low_ok (x : Z) : bool :=
  let c := Z.lor 0xDC00 x in
  negb ((c <? 0xD800) || (0xDFFF <? c)) && (Z.land c 0xFC00 =? 0xDC00) && (Z.land c 0x3FF =? x).
Definition high_ok (x : Z) : bool :=
  let c := Z.lor 0xD800 x in
  negb ((c <? 0xD800) || (0xDFFF <? c)) && negb (Z.land c 0xFC00 =? 0xDC00) && (Z.land c 0xFC00 =? 0xD800)
  && (Z.land c 0x3FF =? x).

Lemma utf16_decode_encode c rest : scalar c -> utf16_decode_char (utf16_encode_char c ++ rest) = (c, rest).
Proof.
  intros Hc. unfold utf16_encode_char, scalar in *. destruct (Z.leb_spec c 0xFFFF).
  - cbn [app]. unfold utf16_decode_char. cbn [utf16_decode_loop].
    assert (Hr : (c <? 0xD800) || (0xDFFF <? c) = true) by (zcases; cbn; lia).
    rewrite Hr. reflexivity.
  - cbv zeta. rewrite (field (c - 0x10000) 10 10 0x3FF) by (lia || reflexivity).
    change 0x3FF with (2 ^ 10 - 1) at 1. rewrite (land_low_mask (c - 0x10000) 10) by lia.
    change (2 ^ 10) with 1024. pose proof (div_range (c - 0x10000) 1024 1024 ltac:(lia) ltac:(lia)) as B1.
    rewrite (Z.mod_small ((c - 0x10000) / 1024)) by lia.
    pose proof (Z.mod_pos_bound (c - 0x10000) 1024 ltac:(lia)) as B0.
    pose proof (Z.div_mod (c - 0x10000) 1024 ltac:(lia)) as D0.
    pose proof (check_range low_ok 1024 ltac:(vm_compute; reflexivity) _ B0) as L.
    pose proof (check_range high_ok 1024 ltac:(vm_compute; reflexivity) _ B1) as H2.
    set (hi := (c - 0x10000) / 1024) in *. set (lo := (c - 0x10000) mod 1024) in *.
    unfold low_ok in L. apply andb_true_iff in L as [L L3]. apply andb_true_iff in L as [L1 L2].
    unfold high_ok in H2. apply andb_true_iff in H2 as [H2 H5]. apply andb_true_iff in H2 as [H2 H4].
    apply andb_true_iff in H2 as [H2 H3]. apply negb_true_iff in L1, H2, H3. apply Z.eqb_eq in L3, H5.
    cbn [app]. unfold utf16_decode_char. cbn [utf16_decode_loop].
    rewrite H2, H3, H4, L1, L2, L3, H5. cbv iota. f_equal.
    assert (Hs : shl32 hi 10 = hi * 1024).
    { unfold shl32. rewrite Z.shiftl_mul_pow2 by lia. apply u32_small. unfold is_u32. lia. }
    rewrite Hs, (lor_aligned (hi * 1024) lo 10) by (try lia; apply Z_mod_mult).
    rewrite add32_small by lia. lia.
Qed.

(** ** Whole strings *)
Lemma utf8_decode_shrinks input : forall k v, input <> [] -> (length (utf8_decode_loop k v input).2 < length input)%nat.
Proof.
  induction input as [|c rest IH]; intros k v Hne; [contradiction|]. cbn [utf8_decode_loop]. cbv zeta.
  assert (Hrec : forall k v, (length (utf8_decode_loop k v rest).2 < S (length rest))%nat).
  { intros k' v'. destruct rest as [|c' rest']; [cbn; lia|]. specialize (IH k' v' ltac:(discriminate)). lia. }
  cbn [length]. repeat case_match; cbn [snd]; try apply Hrec; lia.
Qed.

Lemma utf16_decode_shrinks input : forall v, input <> [] -> (length (utf16_decode_loop v input).2 < length input)%nat.
Proof.
  induction input as [|c rest IH]; intros v Hne; [contradiction|]. cbn [utf16_decode_loop].
  assert (Hrec : forall v, (length (utf16_decode_loop v rest).2 < S (length rest))%nat).
  { intros v'. destruct rest as [|c' rest']; [cbn; lia|]. specialize (IH v' ltac:(discriminate)). lia. }
  cbn [length]. repeat case_match; cbn [snd]; try apply Hrec; lia.
Qed.

(** The loop ends because every decoded character consumes input. *)
Lemma transcode_total decode encode fuel : forall input,
  (forall input, input <> [] -> (length (decode input).2 < length input)%nat) ->
  (length input <= fuel)%nat -> exists out, transcode fuel decode encode input = Ok out.
Proof.
  induction fuel as [|fuel IH]; intros input Hd Hf.
  - destruct input; [exists []; reflexivity|cbn in Hf; lia].
  - destruct input as [|c input]; [exists []; reflexivity|]. cbn [transcode].
    specialize (Hd (c :: input) ltac:(discriminate)) as Hc. destruct (decode (c :: input)) as [ch rest].
    cbn [snd length] in *. destruct (IH rest Hd ltac:(lia)) as [out Ho]. rewrite (bind_Ok_l _ _ _ Ho).
    eexists. reflexivity.
Qed.

(** A decoder that undoes [enc] on good characters transcodes [enc]'s strings. *)
Lemma transcode_encoded decode enc encode good cs : forall fuel,
  (forall c rest, good c -> decode (enc c ++ rest) = (c, rest)) -> (forall c, enc c <> []) ->
  Forall good cs -> (length (concat (map enc cs)) <= fuel)%nat ->
  transcode fuel decode encode (concat (map enc cs)) = Ok (concat (map encode cs)).
Proof.
  induction cs as [|c cs IH]; intros fuel Hd Hne Hg Hf; [destruct fuel; reflexivity|].
  inversion Hg as [|x l Hc Hcs]; subst. cbn [map concat] in *.
  pose proof (Hd c (concat (map enc cs)) Hc) as E. rewrite length_app in Hf. specialize (Hne c) as Hnc.
  destruct (enc c) as [|u us] eqn:Ec; [contradiction|]. cbn [length app] in *.
  destruct fuel as [|fuel]; [lia|]. cbn [transcode]. rewrite E.
  rewrite (bind_Ok_l _ _ _ (IH fuel Hd Hne Hcs ltac:(lia))). reflexivity.
Qed.

Lemma utf8_encode_nonempty c : utf8_encode_char c <> [].
Proof. unfold utf8_encode_char. repeat case_match; discriminate. Qed.
Lemma utf16_encode_nonempty c : utf16_encode_char c <> [].
Proof. unfold utf16_encode_char. case_match; discriminate. Qed.

Lemma scalar_bound c : scalar c -> 0 <= c <= 0x10FFFF.
Proof. unfold scalar. lia. Qed.

Lemma utf8_to_utf16_encoded cs : Forall scalar cs -> utf8_to_utf16 (utf8_encode cs) = Ok (utf16_encode cs).
Proof.
  intros H. apply (transcode_encoded _ _ _ scalar); [|exact utf8_encode_nonempty|exact H|unfold utf8_encode; lia].
  intros c rest Hc. apply utf8_decode_encode, scalar_bound, Hc.
Qed.
Lemma utf16_to_utf8_encoded cs : Forall scalar cs -> utf16_to_utf8 (utf16_encode cs) = Ok (utf8_encode cs).
Proof.
  intros H. apply (transcode_encoded _ _ _ scalar);
    [exact utf16_decode_encode|exact utf16_encode_nonempty|exact H|unfold utf16_encode; lia].
Qed.

(** C24: the two conversions are inverse on text: every string of Unicode scalar values
    becomes the other encoding of the same values, in both directions; and on arbitrary
    input, however malformed, both conversions end. *)
Theorem transcoding_roundtrip cs : Forall scalar cs ->
  utf8_to_utf16 (utf8_encode cs) = Ok (utf16_encode cs)
  /\ utf16_to_utf8 (utf16_encode cs) = Ok (utf8_encode cs)
  /\ (forall input, exists out, utf8_to_utf16 input = Ok out)
  /\ (forall input, exists out, utf16_to_utf8 input = Ok out).
Proof.
  intros H. split; [exact (utf8_to_utf16_encoded cs H)|]. split; [exact (utf16_to_utf8_encoded cs H)|].
  split; intros input; apply transcode_total; try lia; intros input' Hne;
    [exact (utf8_decode_shrinks input' 0 0 Hne)|exact (utf16_decode_shrinks input' 0 Hne)].
Qed.

Lemma transcoding_roundtrip_witness :
  utf8_to_utf16 (utf8_encode [0x41; 0xE9; 0x20AC; 0x1F600]) = Ok [0x41; 0xE9; 0x20AC; 0xD83D; 0xDE00].
Proof.
  assert (H : Forall scalar [0x41; 0xE9; 0x20AC; 0x1F600]) by (repeat constructor; unfold scalar; lia).
  exact (proj1 (transcoding_roundtrip _ H)).
Defined.

(** A surrogate pair that is cut in two does not survive. *)
Example cut_pair : utf16_to_utf8 [0xD83D] = Ok [0] /\ utf16_to_utf8 [0xDE00] = Ok [0xF0; 0x90; 0x88; 0x80].
Proof. split; reflexivity. Qed.
