(* ===== verification/FsUtil.v ===== *)
(** * Splitting a transfer into chunks (kernel/filesystem/util.h)

    [file_size_t] is 64 bits wide, [size_t] 32 bits. *)
From S2P Require Import Prelude.

Record fs_chunks := mk_chunks {
  start_chunk : Z; start_offset : Z; start_size : Z; num_full_chunks : Z; end_size : Z }.

(** Division by zero is undefined behaviour. *)
Definition filesystem_chunkify_npow (offset len chunk_size : Z) : outcome fs_chunks :=
  if chunk_size =? 0 then Fault AssertFailed else
  let first_chunk := offset / chunk_size in
  let start_offset := offset mod chunk_size in
  let last_chunk := add32 offset len / chunk_size in
  let end_size := if first_chunk =? last_chunk then 0 else add32 offset len mod chunk_size in
  let start_size := sub32 len end_size mod chunk_size in
  let num_chunks := sub32 len (add32 start_size end_size) / chunk_size in
  Ok (mk_chunks first_chunk start_offset start_size num_chunks end_size).

Definition filesystem_chunkify (offset len chunk_size_mask chunk_size_log2 : Z) : fs_chunks :=
  let first_chunk := u32 (Z.shiftr offset chunk_size_log2) in
  let start_offset := Z.land (u32 offset) chunk_size_mask in
  let last_chunk := u32 (Z.shiftr (u64 (offset + len)) chunk_size_log2) in
  let end_size := if first_chunk =? last_chunk then 0
                  else Z.land (u32 (u64 (offset + len))) chunk_size_mask in
  let start_size := Z.land (sub32 len end_size) chunk_size_mask in
  let num_chunks := Z.shiftr (sub32 len (add32 start_size end_size)) chunk_size_log2 in
  mk_chunks first_chunk start_offset start_size num_chunks end_size.

Definition align_power_2 (x align : Z) : outcome Z :=
  _ ← k_assert (has_single_bit align);
  Ok (Z.land x (not32 (sub32 align 1))).
Definition round_up (x align : Z) : outcome Z :=
  if align =? 0 then Fault AssertFailed
  else Ok (mul32 (add32 x (sub32 align 1) / align) align).

(** What a split has to satisfy: the parts cover the transfer, the first one stays in
    its chunk and reaches its end when anything follows. *)
Record chunks_ok (offset len bs : Z) (c : fs_chunks) : Prop := {
  ck_chunk : start_chunk c = offset / bs;
  ck_offset : start_offset c = offset mod bs;
  ck_len : len = start_size c + num_full_chunks c * bs + end_size c;
  ck_start : 0 <= start_size c < bs /\ start_offset c + start_size c <= bs;
  ck_full : 0 <= num_full_chunks c;
  ck_end : 0 <= end_size c < bs;
  ck_reach : 0 < num_full_chunks c \/ 0 < end_size c ->
    start_offset c + start_size c = (if start_size c =? 0 then 0 else bs) }.

Lemma pow2_mod_u32 x k : 0 <= k <= 32 -> u32 x mod 2 ^ k = x mod 2 ^ k.
Proof.
  intros Hk. unfold u32, wrap. apply Z.bits_inj'. intros i Hi. destruct (Z.lt_ge_cases i k).
  - rewrite !Z.mod_pow2_bits_low by lia. reflexivity.
  - rewrite !Z.mod_pow2_bits_high by lia. reflexivity.
Qed.

Lemma chunk_arith offset len bs : 0 < bs -> 0 <= offset -> 0 <= len ->
  let o := offset mod bs in let e := (offset + len) mod bs in
  offset = bs * (offset / bs) + o /\ offset + len = bs * ((offset + len) / bs) + e
  /\ 0 <= o < bs /\ 0 <= e < bs /\ 0 <= offset / bs <= (offset + len) / bs.
Proof.
  intros Hb Ho Hl o e. split; [apply Z.div_mod; lia|]. split; [apply Z.div_mod; lia|].
  split; [apply Z.mod_pos_bound; lia|]. split; [apply Z.mod_pos_bound; lia|].
  split; [apply Z.div_pos; lia|apply Z.div_le_mono; lia].
Qed.

Lemma chunkify_ok offset len k : 0 <= k < 32 -> 0 <= offset -> 0 <= len < 2 ^ 32 ->
  offset + len < 2 ^ (32 + k) ->
  chunks_ok offset len (2 ^ k) (filesystem_chunkify offset len (2 ^ k - 1) k).
Proof.
  intros Hk Ho Hl Hmax.
  assert (Hb : 0 < 2 ^ k) by (apply Z.pow_pos_nonneg; lia).
  assert (Hb32 : 2 ^ k < 2 ^ 32) by (apply Z.pow_lt_mono_r; lia).
  assert (H64 : 2 ^ (32 + k) <= 2 ^ 64) by (apply Z.pow_le_mono_r; lia).
  destruct (chunk_arith offset len (2 ^ k) Hb Ho ltac:(lia)) as (A1 & A2 & A3 & A4 & A5).
  assert (A6 : (offset + len) / 2 ^ k < 2 ^ 32).
  { apply Z.div_lt_upper_bound; [lia|]. rewrite Z.mul_comm, <- Z.pow_add_r by lia. exact Hmax. }
  unfold filesystem_chunkify.
  assert (E64 : u64 (offset + len) = offset + len) by (apply Z.mod_small; lia).
  rewrite E64, !Z.shiftr_div_pow2, !land_low_mask, !pow2_mod_u32 by lia.
  rewrite (u32_small (offset / 2 ^ k)), (u32_small ((offset + len) / 2 ^ k)) by (unfold is_u32; lia).
  remember (2 ^ k) as bs eqn:Ebs. remember (offset / bs) as q0 eqn:E0. remember (offset mod bs) as o eqn:Eo.
  remember ((offset + len) / bs) as q1 eqn:E1. remember ((offset + len) mod bs) as e eqn:Ee.
  destruct (Z.eqb_spec q0 q1) as [Heq|Hne].
  - assert (Hlt : len < bs) by nia. rewrite (sub32_small len 0), Z.sub_0_r, (Z.mod_small len bs) by lia.
    rewrite (add32_small len 0), (sub32_small len) by lia.
    replace (len - (len + 0)) with 0 by lia. rewrite Z.div_0_l by lia.
    constructor; cbn [start_chunk start_offset start_size num_full_chunks end_size];
      try assumption; try (intros [?|?]; lia); try lia; nia.
  - assert (Hle : e <= len) by nia. rewrite (sub32_small len e) by lia.
    assert (Hs : (len - e) mod bs = if o =? 0 then 0 else bs - o).
    { destruct (Z.eqb_spec o 0).
      - symmetry. apply (Z.mod_unique_pos _ _ (q1 - q0)); [lia|nia].
      - symmetry. apply (Z.mod_unique_pos _ _ (q1 - q0 - 1)); [lia|nia]. }
    rewrite Hs. set (s := if o =? 0 then 0 else bs - o) in *.
    assert (Hso : 0 <= s < bs /\ len - e - s = bs * (q1 - q0 - if o =? 0 then 0 else 1))
      by (unfold s; destruct (Z.eqb_spec o 0); nia).
    assert (0 <= len - e - s) by (destruct (Z.eqb_spec o 0); nia).
    rewrite (add32_small s e), (sub32_small len (s + e)) by lia.
    replace (len - (s + e)) with ((q1 - q0 - if o =? 0 then 0 else 1) * bs) by lia.
    rewrite Z.div_mul by lia.
    constructor; cbn [start_chunk start_offset start_size num_full_chunks end_size]; try assumption; try lia.
    + unfold s. destruct (Z.eqb_spec o 0); lia.
    + destruct (Z.eqb_spec o 0); lia.
    + intros _. unfold s. destruct (Z.eqb_spec o 0) as [->|]; [reflexivity|]. rewrite (proj2 (Z.eqb_neq _ 0)) by lia. lia.
Qed.

(** [filesystem_chunkify] splits every transfer inside the chunks a [size_t] can
    number into a part of the first chunk, whole chunks and a part of the last one. *)
Theorem filesystem_chunkify_correct offset len k : 0 <= k < 32 -> 0 <= offset -> 0 <= len < 2 ^ 32 ->
  offset + len < 2 ^ (32 + k) ->
  chunks_ok offset len (2 ^ k) (filesystem_chunkify offset len (2 ^ k - 1) k).
Proof. exact (chunkify_ok offset len k). Qed.

Lemma filesystem_chunkify_correct_witness :
  chunks_ok 1000 3000 512 (mk_chunks 1 488 24 5 416).
Proof.
  exact (filesystem_chunkify_correct 1000 3000 9 ltac:(lia) ltac:(lia) ltac:(lia) ltac:(lia)).
Defined.
