(* ===== verification/Drives.v ===== *)
(** * Block cache of a drive (kernel/filesystem/drives.cpp)

    A drive is driven through a table of functions the driver supplies; here they are
    an interface, and its laws say that a driver stores bytes.  The cache has eight
    entries, each holds a group of [m_num_blocks_per_cache] blocks.  One task's view
    of the code is modelled: the locks it takes are released in the order of the
    scopes and never wait (the locks themselves are the subject of [Locks]). *)
From S2P Require Import Prelude FsUtil.

(** A byte buffer read with a default: a position outside it holds nothing. *)
Definition byte_at (l : list Z) (i : Z) : Z := if i <? 0 then 0 else nth (Z.to_nat i) l 0.

(** [memcpy(l + off, buf, size of buf)] inside an allocated buffer. *)
Definition splice (l : list Z) (off : Z) (buf : list Z) : outcome (list Z) :=
  if (0 <=? off) && (off + Z.of_nat (length buf) <=? Z.of_nat (length l)) then
    Ok (take (Z.to_nat off) l ++ buf ++ drop (Z.to_nat off + length buf) l)
  else Fault OutOfBounds.
(** [memcpy(dst, l + off, n)]. *)
Definition slice (l : list Z) (off n : Z) : outcome (list Z) :=
  if (0 <=? off) && (0 <=? n) && (off + n <=? Z.of_nat (length l)) then
    Ok (take (Z.to_nat n) (drop (Z.to_nat off) l))
  else Fault OutOfBounds.

(** [struct disk_driver] and its [driver_data]: [allocate_buffer] returns the contents
    of a new buffer, or none when the allocation fails. *)
Class disk_driver (D : Type) := {
  drv_read_blocks : D -> Z -> Z -> list Z;
  drv_write_blocks : option (D -> Z -> list Z -> Z -> D);
  drv_has_buffers : bool;
  drv_allocate : Z -> option (list Z) }.

(** [std::countr_zero] of a [size_t]. *)
Fixpoint countr_zero_pos (p : positive) : Z :=
  match p with xO p => countr_zero_pos p + 1 | _ => 0 end.
Definition countr_zero (z : Z) : Z := match z with Zpos p => countr_zero_pos p | _ => 32 end.

Definition default_cache_size : Z := 1024.
Definition calc_block_ratio (block_size cache_size : Z) : outcome Z :=
  _ ← k_assert (has_single_bit block_size);
  _ ← k_assert (has_single_bit cache_size);
  Ok (if (cache_size <? block_size) || negb (cache_size mod block_size =? 0) then 1
      else cache_size / block_size).

Record cached_block := mk_cached { cb_index : Z; cb_data : option (list Z); cb_dirty : bool; cb_valid : bool }.

Record filesystem_drive (D : Type) := mk_drive {
  dr_disk : D; dr_block_cache : list cached_block; dr_last_index : Z;
  dr_index : Z; dr_block_size : Z; dr_blocksz_log2 : Z; dr_num_blocks : Z; dr_blocks_per_cache : Z }.
Arguments mk_drive {D}. Arguments dr_disk {D}. Arguments dr_block_cache {D}. Arguments dr_last_index {D}.
Arguments dr_index {D}. Arguments dr_block_size {D}. Arguments dr_blocksz_log2 {D}.
Arguments dr_num_blocks {D}. Arguments dr_blocks_per_cache {D}.

Section drive.
Context {D : Type} `{disk_driver D}.
Notation drive := (filesystem_drive D).

(** The constructor; [c] is what the memory of the eight entries holds, of which only
    [data], [dirty] and [valid] are initialised. *)
Definition filesystem_drive_init (disk : D) (block_size num_blocks index : Z) (c : list Z) : outcome drive :=
  ratio ← calc_block_ratio block_size default_cache_size;
  Ok (mk_drive disk (map (fun i => mk_cached i None false false) c) 0 index block_size
        (countr_zero block_size) num_blocks ratio).

Definition set_disk (d : D) (s : drive) : drive :=
  mk_drive d (dr_block_cache s) (dr_last_index s) (dr_index s) (dr_block_size s) (dr_blocksz_log2 s)
    (dr_num_blocks s) (dr_blocks_per_cache s).
Definition set_cache (c : list cached_block) (s : drive) : drive :=
  mk_drive (dr_disk s) c (dr_last_index s) (dr_index s) (dr_block_size s) (dr_blocksz_log2 s)
    (dr_num_blocks s) (dr_blocks_per_cache s).
Definition set_last (i : Z) (s : drive) : drive :=
  mk_drive (dr_disk s) (dr_block_cache s) i (dr_index s) (dr_block_size s) (dr_blocksz_log2 s)
    (dr_num_blocks s) (dr_blocks_per_cache s).

Definition write_blocks (lba : Z) (buf : list Z) (num_sectors : Z) (s : drive) : outcome drive :=
  match drv_write_blocks with
  | Some f => Ok (set_disk (f (dr_disk s) lba buf num_sectors) s)
  | None => Fault AssertFailed
  end.
Definition read_blocks (lba num_sectors : Z) (s : drive) : list Z := drv_read_blocks (dr_disk s) lba num_sectors.
Definition read_only : bool := match drv_write_blocks with Some _ => false | None => true end.
Definition needs_buffer : bool := drv_has_buffers.
Definition supports_byte_access (s : drive) : bool := (dr_block_size s =? 1) && negb needs_buffer.
Definition blocks_to_bytes (num_blocks : Z) (s : drive) : Z := shl32 num_blocks (dr_blocksz_log2 s).

(** [fifo_cache::refresh_oldest_item]. *)
Definition refresh_oldest_item (s : drive) : outcome (Z * drive) :=
  let m_size := Z.of_nat (length (dr_block_cache s)) in
  if m_size =? 0 then Fault AssertFailed else
  let next := add32 (dr_last_index s) 1 mod m_size in
  Ok (next, set_last next s).

Definition in_group (block : Z) (c : cached_block) : bool := (block =? cb_index c) && cb_valid c.

(** [std::find_if] over the cache: the position of the first match. *)
Fixpoint find_pos (f : cached_block -> bool) (l : list cached_block) (i : Z) : option Z :=
  match l with [] => None | c :: l => if f c then Some i else find_pos f l (i + 1) end.

Definition set_item (i : Z) (c : cached_block) (s : drive) : outcome drive :=
  cache ← store (dr_block_cache s) i c; Ok (set_cache cache s).

(** The miss branch of [block_rw]: the oldest entry is written back when it is dirty
    and reused. *)
Definition load_item (i block : Z) (write_all : bool) (s : drive) : outcome drive :=
  item ← fetch (dr_block_cache s) i;
  '(data, dirty, s) ← match cb_data item with
    | None => match drv_allocate (blocks_to_bytes (dr_blocks_per_cache s) s) with
              | Some l => Ok (l, cb_dirty item, s)
              | None => Fault AssertFailed
              end
    | Some l => if cb_dirty item then s ← write_blocks (cb_index item) l (dr_blocks_per_cache s) s; Ok (l, false, s)
                else Ok (l, false, s)
    end;
  let data := if write_all then data else read_blocks block (dr_blocks_per_cache s) s in
  set_item i (mk_cached block (Some data) dirty true) s.

Definition block_rw (index : Z) (write_all : bool) (s : drive) : outcome (Z * drive) :=
  block ← align_power_2 index (dr_blocks_per_cache s);
  match find_pos (in_group block) (dr_block_cache s) 0 with
  | Some i => Ok (i, s)
  | None =>
    '(i, s) ← refresh_oldest_item s;
    s ← load_item i block write_all s;
    Ok (i, s)
  end.

Definition write_to_block (block offset : Z) (buf : list Z) (s : drive) : outcome drive :=
  '(i, s) ← block_rw block (Z.of_nat (length buf) =? blocks_to_bytes (dr_blocks_per_cache s) s) s;
  blk ← fetch (dr_block_cache s) i;
  match cb_data blk with
  | None => Fault AssertFailed
  | Some l =>
    let block_offset := blocks_to_bytes (sub32 block (cb_index blk)) s in
    l ← splice l (block_offset + offset) buf;
    set_item i (mk_cached (cb_index blk) (Some l) true (cb_valid blk)) s
  end.

Definition read_from_block (block offset num_bytes : Z) (s : drive) : outcome (list Z * drive) :=
  '(i, s) ← block_rw block false s;
  blk ← fetch (dr_block_cache s) i;
  match cb_data blk with
  | None => Fault AssertFailed
  | Some l =>
    let block_offset := blocks_to_bytes (sub32 block (cb_index blk)) s in
    out ← slice l (block_offset + offset) num_bytes;
    Ok (out, s)
  end.

(** The entries whose group may meet blocks [index .. index + num_blocks). *)
Definition near (index num_blocks : Z) (s : drive) (c : cached_block) : bool :=
  negb (add32 index num_blocks <? cb_index c) && negb (add32 (cb_index c) (dr_blocks_per_cache s) <? index).

Fixpoint flush_loop (index num_blocks : Z) (l : list cached_block) (i : Z) (s : drive) : outcome drive :=
  match l with
  | [] => Ok s
  | c :: l =>
    s ← (if near index num_blocks s c && cb_dirty c then
           match cb_data c with
           | Some data =>
             s ← write_blocks (cb_index c) data (dr_blocks_per_cache s) s;
             set_item i (mk_cached (cb_index c) (Some data) false (cb_valid c)) s
           | None => Fault AssertFailed
           end
         else Ok s);
    flush_loop index num_blocks l (i + 1) s
  end.
Definition block_flush (index num_blocks : Z) (s : drive) : outcome drive :=
  flush_loop index num_blocks (dr_block_cache s) 0 s.

Definition block_invalidate (index num_blocks : Z) (s : drive) : drive :=
  set_cache (map (fun c => if near index num_blocks s c
                           then mk_cached (cb_index c) (cb_data c) (cb_dirty c) false else c)
               (dr_block_cache s)) s.

(** [while(num_chunks--)] over whole blocks. *)
Fixpoint write_block_loop (n : nat) (block : Z) (buf : list Z) (s : drive) : outcome (Z * list Z * drive) :=
  match n with
  | O => Ok (block, buf, s)
  | S n =>
    let bs := Z.to_nat (dr_block_size s) in
    s ← write_to_block block 0 (take bs buf) s;
    write_block_loop n (add32 block 1) (drop bs buf) s
  end.

Fixpoint read_block_loop (n : nat) (block : Z) (s : drive) : outcome (Z * list Z * drive) :=
  match n with
  | O => Ok (block, [], s)
  | S n =>
    '(out, s) ← read_from_block block 0 (dr_block_size s) s;
    '(block, rest, s) ← read_block_loop n (add32 block 1) s;
    Ok (block, out ++ rest, s)
  end.

Definition split_at (n : Z) (buf : list Z) : list Z * list Z := (take (Z.to_nat n) buf, drop (Z.to_nat n) buf).

(** The whole blocks of a transfer: one request to the driver, or block by block. *)
Definition write_full (block : Z) (buf : list Z) (num_full : Z) (s : drive) : outcome (Z * list Z * drive) :=
  if num_full =? 0 then Ok (block, buf, s)
  else if negb needs_buffer && (1 <? num_full) then
    let s := block_invalidate block num_full s in
    let '(now, rest) := split_at (blocks_to_bytes num_full s) buf in
    s ← write_blocks block now num_full s;
    Ok (add32 block num_full, rest, s)
  else write_block_loop (Z.to_nat num_full) block buf s.

Definition filesystem_write_to_disk (block_num offset : Z) (buf : list Z) (s : drive) : outcome drive :=
  _ ← k_assert (negb read_only);
  if supports_byte_access s then
    write_blocks (add32 block_num offset) buf (Z.of_nat (length buf)) s
  else
    let blocks := filesystem_chunkify offset (Z.of_nat (length buf)) (sub32 (dr_block_size s) 1) (dr_blocksz_log2 s) in
    let block := add32 block_num (start_chunk blocks) in
    '(block, buf, s) ← (if negb (start_size blocks =? 0) then
        let '(now, rest) := split_at (start_size blocks) buf in
        s ← write_to_block block (start_offset blocks) now s;
        Ok (add32 block 1, rest, s)
      else Ok (block, buf, s));
    '(block, buf, s) ← write_full block buf (num_full_chunks blocks) s;
    if negb (end_size blocks =? 0) then
      write_to_block block 0 (take (Z.to_nat (end_size blocks)) buf) s
    else Ok s.

Definition read_full (block num_full : Z) (s : drive) : outcome (Z * list Z * drive) :=
  if num_full =? 0 then Ok (block, [], s)
  else if negb needs_buffer && (1 <? num_full) then
    s ← block_flush block num_full s;
    Ok (add32 block num_full, read_blocks block num_full s, s)
  else read_block_loop (Z.to_nat num_full) block s.

Definition filesystem_read_from_disk (block_num offset num_bytes : Z) (s : drive) : outcome (list Z * drive) :=
  if supports_byte_access s then
    Ok (read_blocks (add32 block_num offset) num_bytes s, s)
  else
    let blocks := filesystem_chunkify offset num_bytes (sub32 (dr_block_size s) 1) (dr_blocksz_log2 s) in
    let block := add32 block_num (start_chunk blocks) in
    '(block, b1, s) ← (if negb (start_size blocks =? 0) then
        '(out, s) ← read_from_block block (start_offset blocks) (start_size blocks) s;
        Ok (add32 block 1, out, s)
      else Ok (block, [], s));
    '(block, b2, s) ← read_full block (num_full_chunks blocks) s;
    '(b3, s) ← (if negb (end_size blocks =? 0) then read_from_block block 0 (end_size blocks) s
                else Ok ([], s));
    Ok (b1 ++ b2 ++ b3, s).

End drive.
