(* ===== verification/DrivesProofs.v ===== *)
(** * The cache is transparent

    Against the laws of a driver, a drive with its cache behaves as one array of bytes:
    [view].  The laws hold for addresses inside the device. *)
From S2P Require Import Prelude FsUtil Drives.

(** The documented behaviour of a driver: it stores [cap] blocks of [bs] bytes, and
    the allocation of a buffer succeeds. *)
Class disk_driver_laws (D : Type) `{disk_driver D} (bs cap : Z) := {
  disk_byte : D -> Z -> Z;
  drv_read_law d lba n : 0 <= lba -> 0 <= n -> lba + n <= cap ->
    drv_read_blocks d lba n = map (disk_byte d) (seqZ (lba * bs) (n * bs));
  drv_write_law f d lba buf n a : drv_write_blocks = Some f -> 0 <= lba -> 0 <= n -> lba + n <= cap ->
    Z.of_nat (length buf) = n * bs ->
    disk_byte (f d lba buf n) a =
      if (lba * bs <=? a) && (a <? (lba + n) * bs) then byte_at buf (a - lba * bs) else disk_byte d a;
  drv_allocate_law n : 0 <= n -> exists l, drv_allocate n = Some l /\ Z.of_nat (length l) = n }.

(** ** Buffers *)
Lemma byte_at_app l1 l2 i : 0 <= i ->
  byte_at (l1 ++ l2) i = if i <? Z.of_nat (length l1) then byte_at l1 i else byte_at l2 (i - Z.of_nat (length l1)).
Proof.
  intros Hi. unfold byte_at. rewrite (proj2 (Z.ltb_ge i 0)) by lia.
  destruct (Z.ltb_spec i (Z.of_nat (length l1))).
  - apply app_nth1. lia.
  - rewrite app_nth2, (proj2 (Z.ltb_ge _ 0)) by lia. f_equal. lia.
Qed.

Lemma byte_at_take l n i : 0 <= i < n -> byte_at (take (Z.to_nat n) l) i = byte_at l i.
Proof.
  intros Hi. unfold byte_at. rewrite (proj2 (Z.ltb_ge i 0)) by lia.
  change (take (Z.to_nat n) l) with (firstn (Z.to_nat n) l). rewrite nth_firstn.
  rewrite (proj2 (Nat.ltb_lt _ _)) by lia. reflexivity.
Qed.

Lemma byte_at_drop l n i : 0 <= i -> 0 <= n -> byte_at (drop (Z.to_nat n) l) i = byte_at l (n + i).
Proof.
  intros Hi Hn. unfold byte_at. rewrite !(proj2 (Z.ltb_ge _ 0)) by lia. rewrite nth_skipn. f_equal. lia.
Qed.

Lemma splice_spec l off buf : 0 <= off -> off + Z.of_nat (length buf) <= Z.of_nat (length l) ->
  exists l', splice l off buf = Ok l' /\ length l' = length l
  /\ forall i, 0 <= i -> byte_at l' i =
       if (off <=? i) && (i <? off + Z.of_nat (length buf)) then byte_at buf (i - off) else byte_at l i.
Proof.
  intros H0 H1. unfold splice. rewrite (proj2 (Z.leb_le 0 off) H0), (proj2 (Z.leb_le _ _) H1). cbn [andb].
  eexists. split; [reflexivity|]. split; [rewrite !length_app, length_take, length_drop; lia|].
  intros i Hi. assert (Hlt : Z.of_nat (length (take (Z.to_nat off) l)) = off) by (rewrite length_take; lia).
  rewrite !byte_at_app by (rewrite ?Hlt; lia). rewrite Hlt.
  destruct (Z.ltb_spec i off), (Z.leb_spec off i); try lia; cbn [andb].
  - apply byte_at_take. lia.
  - rewrite byte_at_app by lia. destruct (Z.ltb_spec (i - off) (Z.of_nat (length buf))),
      (Z.ltb_spec i (off + Z.of_nat (length buf))); try lia.
    replace (Z.to_nat off + length buf)%nat with (Z.to_nat (off + Z.of_nat (length buf))) by lia.
    rewrite byte_at_drop by lia. f_equal. lia.
Qed.

(** A buffer is determined by its bytes. *)
Lemma bytes_eq l f n : Z.of_nat (length l) = n -> (forall i, 0 <= i < n -> byte_at l i = f i) ->
  l = map f (seqZ 0 n).
Proof.
  intros Hl Hf. apply list_eq. intros i. rewrite list_lookup_fmap.
  destruct (decide (i < length l)%nat) as [Hi|Hi].
  - rewrite lookup_seqZ_lt by lia. cbn [fmap option_fmap option_map]. rewrite <- Hf by lia.
    unfold byte_at. rewrite (proj2 (Z.ltb_ge _ 0)) by lia.
    replace (Z.to_nat (0 + Z.of_nat i)) with i by lia.
    destruct (lookup_lt_is_Some_2 l i Hi) as [x Hx]. rewrite Hx. f_equal. symmetry.
    rewrite nth_lookup, Hx. reflexivity.
  - rewrite lookup_ge_None_2, lookup_seqZ_ge by lia. reflexivity.
Qed.

Lemma map_seqZ_shift {A} (f : Z -> A) a n : map f (seqZ a n) = map (fun i => f (a + i)) (seqZ 0 n).
Proof.
  apply list_eq. intros i. rewrite !list_lookup_fmap.
  destruct (decide (Z.of_nat i < n)).
  - rewrite !lookup_seqZ_lt by lia. reflexivity.
  - rewrite !lookup_seqZ_ge by lia. reflexivity.
Qed.

Lemma byte_at_map f n i : 0 <= i < n -> byte_at (map f (seqZ 0 n)) i = f i.
Proof.
  intros Hi. unfold byte_at. rewrite (proj2 (Z.ltb_ge _ 0)) by lia. rewrite nth_lookup, list_lookup_fmap.
  rewrite lookup_seqZ_lt by lia. cbn. f_equal. lia.
Qed.

Lemma slice_spec l off n : 0 <= off -> 0 <= n -> off + n <= Z.of_nat (length l) ->
  slice l off n = Ok (map (fun i => byte_at l (off + i)) (seqZ 0 n)).
Proof.
  intros H0 H1 H2. unfold slice. rewrite (proj2 (Z.leb_le 0 off) H0), (proj2 (Z.leb_le 0 n) H1),
    (proj2 (Z.leb_le _ _) H2). cbn [andb]. f_equal. apply bytes_eq.
  - rewrite length_take, length_drop. lia.
  - intros i Hi. rewrite byte_at_take, byte_at_drop by lia. reflexivity.
Qed.

(** ** Searching the cache *)
Lemma find_pos_Some f l j i : find_pos f l j = Some i ->
  exists c, l !! Z.to_nat (i - j) = Some c /\ f c = true /\ j <= i.
Proof.
  revert j. induction l as [|x l IH]; intros j; cbn [find_pos]; [discriminate|].
  destruct (f x) eqn:Hx.
  - intros [= <-]. exists x. replace (Z.to_nat (j - j)) with 0%nat by lia. split; [reflexivity|]. split; [exact Hx|lia].
  - intros Hf. destruct (IH (j + 1) Hf) as (c & Hc & Hfc & Hle). exists c.
    replace (Z.to_nat (i - j)) with (S (Z.to_nat (i - (j + 1)))) by lia. split; [exact Hc|]. split; [exact Hfc|lia].
Qed.

Lemma find_pos_None f l j : find_pos f l j = None -> forall i c, l !! i = Some c -> f c = false.
Proof.
  revert j. induction l as [|x l IH]; intros j; cbn [find_pos]; [intros _ i c Hi; discriminate Hi|].
  destruct (f x) eqn:Hx; [discriminate|]. intros Hf i c Hi. destruct i as [|i]; cbn in Hi.
  - injection Hi as <-. exact Hx.
  - exact (IH _ Hf i c Hi).
Qed.

(** ** Stores *)
Definition same_fun (f g : Z -> Z) : Prop := forall a, g a = f a.
(** [buf] stored at byte address [p]. *)
Definition stored_at (p : Z) (buf : list Z) (f f' : Z -> Z) : Prop :=
  forall a, f' a = if (p <=? a) && (a <? p + Z.of_nat (length buf)) then byte_at buf (a - p) else f a.

Lemma stored_at_nil p f g : same_fun f g -> stored_at p [] f g.
Proof. intros Hfg a. cbn [length]. rewrite (Hfg a). destruct (Z.leb_spec p a), (Z.ltb_spec a (p + Z.of_nat 0)); try reflexivity; lia. Qed.

Lemma stored_at_app p b1 b2 f g h : stored_at p b1 f g -> stored_at (p + Z.of_nat (length b1)) b2 g h ->
  stored_at p (b1 ++ b2) f h.
Proof.
  intros H1 H2 a. rewrite (H2 a), (H1 a), length_app.
  destruct (Z.leb_spec p a), (Z.ltb_spec a (p + Z.of_nat (length b1 + length b2))),
    (Z.leb_spec (p + Z.of_nat (length b1)) a), (Z.ltb_spec a (p + Z.of_nat (length b1))),
    (Z.ltb_spec a (p + Z.of_nat (length b1) + Z.of_nat (length b2))); try lia; cbn [andb]; try reflexivity;
    rewrite byte_at_app by lia.
  - rewrite (proj2 (Z.ltb_ge _ _)) by lia. f_equal. lia.
  - rewrite (proj2 (Z.ltb_lt _ _)) by lia. reflexivity.
Qed.

(** ** The state of a drive *)
Section drive.
Context {D : Type} `{HD : disk_driver D} (k r cap : Z) `{HL : !disk_driver_laws D (2 ^ k) cap}.
Context (Hk : 0 <= k) (Hr : 0 <= r) (HG : 2 ^ (k + r) < 2 ^ 32) (Hcap : cap + 2 ^ r < 2 ^ 32).
Notation drive := (filesystem_drive D).
Notation bs := (2 ^ k).
Notation R := (2 ^ r).
Notation G := (2 ^ (k + r)).

Lemma sizes : 0 < bs /\ 0 < R /\ G = R * bs /\ r < 32 /\ k < 32.
Proof using Hk Hr HG.
  assert (0 < bs) by (apply Z.pow_pos_nonneg; lia). assert (0 < R) by (apply Z.pow_pos_nonneg; lia).
  assert (HE : G = R * bs) by (rewrite Z.pow_add_r by lia; lia).
  apply Z.pow_lt_mono_r_iff in HG; lia.
Qed.

Record item_shape (c : cached_block) : Prop := {
  it_len l : cb_data c = Some l -> Z.of_nat (length l) = G;
  it_valid : cb_valid c = true -> is_Some (cb_data c) /\ exists q, cb_index c = q * R /\ 0 <= q /\ q * R + R <= cap;
  it_dirty : cb_dirty c = true -> cb_valid c = true }.

(** A valid entry that is not dirty agrees with the disk. *)
Definition clean_at (d : D) (c : cached_block) : Prop :=
  cb_valid c = true -> cb_dirty c = false ->
  forall l j, cb_data c = Some l -> 0 <= j < G -> byte_at l j = disk_byte d (cb_index c * bs + j).

Record shape (s : drive) : Prop := {
  sh_bs : dr_block_size s = bs;
  sh_log2 : dr_blocksz_log2 s = k;
  sh_ratio : dr_blocks_per_cache s = R;
  sh_len : 0 < Z.of_nat (length (dr_block_cache s)) < 2 ^ 31;
  sh_last : 0 <= dr_last_index s < Z.of_nat (length (dr_block_cache s));
  sh_items i c : dr_block_cache s !! i = Some c -> item_shape c;
  sh_uniq i j ci cj : dr_block_cache s !! i = Some ci -> dr_block_cache s !! j = Some cj ->
    cb_valid ci = true -> cb_valid cj = true -> cb_index ci = cb_index cj -> i = j }.

Definition drive_ok (s : drive) : Prop :=
  shape s /\ forall i c, dr_block_cache s !! i = Some c -> clean_at (dr_disk s) c.

(** What a reader of byte [a] sees: the cached group, or the disk. *)
Definition view (s : drive) (a : Z) : Z :=
  match find_pos (in_group (a / G * R)) (dr_block_cache s) 0 with
  | Some i => match dr_block_cache s !! Z.to_nat i with
              | Some c => byte_at (default [] (cb_data c)) (a mod G)
              | None => 0
              end
  | None => disk_byte (dr_disk s) a
  end.

Definition missing (s : drive) (block : Z) : Prop :=
  forall i c, dr_block_cache s !! i = Some c -> in_group block c = false.

Lemma view_hit s i c l a : shape s -> dr_block_cache s !! i = Some c -> cb_valid c = true ->
  cb_index c = a / G * R -> cb_data c = Some l -> view s a = byte_at l (a mod G).
Proof using.
  intros Hs Hi Hv Hx Hl. unfold view.
  destruct (find_pos _ _ 0) as [p|] eqn:Hp.
  - apply find_pos_Some in Hp as (c' & Hc' & Hf & _). rewrite Z.sub_0_r in Hc'. rewrite Hc'.
    unfold in_group in Hf. apply andb_true_iff in Hf as [H1 H2]. apply Z.eqb_eq in H1.
    assert (Z.to_nat p = i) as <- by (apply (sh_uniq s Hs _ _ c' c); congruence || assumption).
    rewrite Hi in Hc'. injection Hc' as <-. rewrite Hl. reflexivity.
  - pose proof (find_pos_None _ _ _ Hp i c Hi) as Hf. unfold in_group in Hf. rewrite Hv, Hx, Z.eqb_refl in Hf.
    discriminate Hf.
Qed.

Lemma view_miss s a : missing s (a / G * R) -> view s a = disk_byte (dr_disk s) a.
Proof using.
  intros Hm. unfold view. destruct (find_pos _ _ 0) as [p|] eqn:Hp; [|reflexivity].
  apply find_pos_Some in Hp as (c & Hc & Hf & _). rewrite Z.sub_0_r in Hc. rewrite (Hm _ _ Hc) in Hf. discriminate Hf.
Qed.

(** A group is cached by one entry or by none. *)
Lemma cached_or_missing s block :
  (exists i c, dr_block_cache s !! i = Some c /\ cb_valid c = true /\ cb_index c = block) \/ missing s block.
Proof using.
  destruct (find_pos (in_group block) (dr_block_cache s) 0) as [p|] eqn:Hp; [left|right].
  - apply find_pos_Some in Hp as (c & Hc & Hf & _). unfold in_group in Hf. apply andb_true_iff in Hf as [H1 H2].
    apply Z.eqb_eq in H1. eauto.
  - intros i c Hi. exact (find_pos_None _ _ _ Hp i c Hi).
Qed.

Lemma group_range q a : (q * R * bs <=? a) && (a <? (q * R + R) * bs) = (a / G =? q).
Proof using Hk Hr HG.
  destruct sizes as (Hb & HR & HE & _). replace (q * R * bs) with (G * q) by lia.
  replace ((q * R + R) * bs) with (G * q + G) by lia.
  pose proof (Z.div_mod a G ltac:(lia)). pose proof (Z.mod_pos_bound a G ltac:(lia)).
  destruct (Z.eqb_spec (a / G) q); zcases; cbn; nia.
Qed.

Lemma align_block b : 0 <= b < 2 ^ 32 -> align_power_2 b R = Ok (b / R * R).
Proof using Hk Hr HG.
  intros Hb. destruct sizes as (_ & HR & _ & Hr32 & _). unfold align_power_2.
  assert (R <= 2 ^ 31) by (apply Z.pow_le_mono_r; lia).
  rewrite has_single_bit_pow2 by lia. cbn [k_assert mbind outcome_bind].
  rewrite sub32_small by lia. rewrite land_high_mask by (unfold is_u32; lia).
  f_equal. pose proof (Z.div_mod b R). lia.
Qed.

Lemma group_of b : 0 <= b < cap -> cap mod R = 0 -> 0 <= b / R /\ b / R * R + R <= cap /\ b / R * R <= b < b / R * R + R.
Proof using Hk Hr HG.
  intros Hb Hm. destruct sizes as (_ & HR & _). pose proof (Z.div_mod b R ltac:(lia)).
  pose proof (Z.mod_pos_bound b R ltac:(lia)). pose proof (Z.div_mod cap R ltac:(lia)).
  assert (0 <= b / R) by (apply Z.div_pos; lia). split; [assumption|]. split; [|lia].
  assert (b / R < cap / R) by (apply Z.div_lt_upper_bound; lia). nia.
Qed.

(** The entry that is thrown out leaves its bytes on the disk. *)
Lemma evict s i c : drive_ok s -> dr_block_cache s !! i = Some c ->
  (drv_write_blocks <> None \/ cb_dirty c = false) ->
  exists d', match cb_data c with
    | Some l => if cb_dirty c then write_blocks (cb_index c) l R s else Ok s
    | None => Ok s
    end = Ok (set_disk d' s)
  /\ forall a, disk_byte d' a =
       match cb_data c with
       | Some l => if cb_dirty c && (a / G * R =? cb_index c) then byte_at l (a mod G) else disk_byte (dr_disk s) a
       | None => disk_byte (dr_disk s) a
       end.
Proof using Hk Hr HG.
  intros [Hs Hc] Hi Hro. pose proof (sh_items s Hs i c Hi) as [Hlen Hval Hd].
  destruct sizes as (Hb & HR & HE & _).
  destruct (cb_data c) as [l|] eqn:El; [|exists (dr_disk s); destruct s; split; reflexivity].
  destruct (cb_dirty c) eqn:Ed; [|exists (dr_disk s); destruct s; split; reflexivity].
  destruct (Hval (Hd eq_refl)) as [_ (q & Hq & Hq0 & Hqc)].
  destruct Hro as [Hw|Hw]; [|discriminate Hw].
  unfold write_blocks. destruct drv_write_blocks as [f|] eqn:Ef; [|contradiction Hw; reflexivity].
  eexists. split; [reflexivity|]. intros a.
  rewrite (drv_write_law f (dr_disk s) (cb_index c) l R a Ef) by (rewrite ?(Hlen l eq_refl); lia).
  rewrite Hq, group_range. cbn [andb].
  assert (Hqq : (a / G * R =? q * R) = (a / G =? q)).
  { destruct (Z.eqb_spec (a / G) q) as [->|Hne]; [apply Z.eqb_refl|apply Z.eqb_neq; nia]. }
  rewrite Hqq. destruct (Z.eqb_spec (a / G) q) as [Haq|]; [|reflexivity].
  f_equal. pose proof (Z.div_mod a G ltac:(lia)). nia.
Qed.

Definition loaded (q : Z) (l : list Z) : cached_block := mk_cached (q * R) (Some l) false true.
Definition replaced (s : drive) (d' : D) (i : nat) (q : Z) (l : list Z) : drive :=
  set_cache (<[i := loaded q l]> (dr_block_cache s)) (set_disk d' s).

Lemma read_group d' s q j : 0 <= q -> q * R + R <= cap -> 0 <= j < G ->
  Z.of_nat (length (read_blocks (q * R) R (set_disk d' s))) = G
  /\ byte_at (read_blocks (q * R) R (set_disk d' s)) j = disk_byte d' (q * R * bs + j).
Proof using Hk Hr HG.
  intros Hq Hc Hj. destruct sizes as (Hb & HR & HE & _). unfold read_blocks. cbn [set_disk dr_disk].
  rewrite (drv_read_law d' (q * R) R) by nia. rewrite length_fmap, length_seqZ. split; [lia|].
  rewrite map_seqZ_shift. rewrite byte_at_map by lia. reflexivity.
Qed.

(** The miss branch runs. *)
Lemma load_item_runs s i c q wa d' : shape s -> dr_block_cache s !! Z.to_nat i = Some c -> 0 <= i ->
  0 <= q -> q * R + R <= cap ->
  match cb_data c with
    | Some l => if cb_dirty c then write_blocks (cb_index c) l R s else Ok s
    | None => Ok s
    end = Ok (set_disk d' s) ->
  exists l, load_item i (q * R) wa s = Ok (replaced s d' (Z.to_nat i) q l)
  /\ Z.of_nat (length l) = G
  /\ (wa = false -> forall j, 0 <= j < G -> byte_at l j = disk_byte d' (q * R * bs + j)).
Proof using Hk Hr HG.
  intros Hs Hi Hi0 Hq Hqc Hev. destruct sizes as (Hb & HR & HE & _).
  pose proof (sh_items s Hs _ c Hi) as [Hlen Hval Hdirty]. pose proof (sh_ratio s Hs) as Hrat.
  assert (Hset : forall l, Z.of_nat (length l) = G -> exists l',
      set_item i (mk_cached (q * R) (Some (if wa then l else read_blocks (q * R) R (set_disk d' s))) false true) (set_disk d' s)
      = Ok (replaced s d' (Z.to_nat i) q l') /\ Z.of_nat (length l') = G
      /\ (wa = false -> forall j, 0 <= j < G -> byte_at l' j = disk_byte d' (q * R * bs + j))).
  { intros l Hl. exists (if wa then l else read_blocks (q * R) R (set_disk d' s)). unfold set_item.
    cbn [set_disk dr_block_cache]. apply lookup_lt_Some in Hi.
    rewrite (bind_Ok_l _ _ _ (store_Ok (dr_block_cache s) i _ ltac:(lia))). split; [reflexivity|].
    destruct wa; (split; [|intros E]); try discriminate E; [exact Hl| |].
    - assert (0 < G) by nia. apply (read_group d' s q 0); lia.
    - intros j Hj. apply (read_group d' s q j); lia. }
  unfold load_item. rewrite (bind_Ok_l _ _ _ (fetch_Ok _ _ _ Hi0 Hi)), Hrat.
  destruct (cb_data c) as [l0|] eqn:El.
  - destruct (cb_dirty c) eqn:Ed; [rewrite Hev|injection Hev as Es];
      cbn [mbind outcome_bind]; cbn [set_disk dr_blocks_per_cache]; rewrite Hrat; [apply Hset, Hlen; reflexivity|].
    destruct (Hset l0 (Hlen l0 eq_refl)) as (l' & E & H'). exists l'. split; [|exact H'].
    rewrite <- E, <- Es. reflexivity.
  - assert (cb_dirty c = false) as ->.
    { destruct (cb_dirty c); [|reflexivity]. destruct (Hval (Hdirty eq_refl)) as [[x Hx] _]. discriminate Hx. }
    unfold blocks_to_bytes. rewrite (sh_log2 s Hs). unfold shl32.
    rewrite Z.shiftl_mul_pow2, u32_small by (unfold is_u32; lia).
    destruct (drv_allocate_law (R * bs) ltac:(lia)) as (l0 & E0 & Hl0). rewrite E0. cbn [mbind outcome_bind].
    injection Hev as Es. rewrite Hrat. destruct (Hset l0 ltac:(lia)) as (l' & E & H'). exists l'. split; [|exact H'].
    rewrite <- E, <- Es. reflexivity.
Qed.

Lemma missing_index s q j c : missing s (q * R) -> dr_block_cache s !! j = Some c -> cb_valid c = true ->
  cb_index c <> q * R.
Proof using.
  intros Hm Hj Hv Hx. pose proof (Hm j c Hj) as Hf. unfold in_group in Hf. rewrite Hx, Z.eqb_refl, Hv in Hf.
  discriminate Hf.
Qed.

Lemma shape_replaced s d' i q l : shape s -> missing s (q * R) -> Z.of_nat (length l) = G ->
  0 <= q -> q * R + R <= cap -> shape (replaced s d' i q l).
Proof using Hk Hr HG.
  intros [S1 S2 S3 S4 S5 S6 S7] Hm Hl Hq Hqc.
  constructor; unfold replaced; cbn [set_cache set_disk dr_block_size dr_blocksz_log2 dr_blocks_per_cache
    dr_block_cache dr_last_index]; rewrite ?length_insert; try assumption.
  - intros j cj Hj. apply list_lookup_insert_Some in Hj as [(-> & <- & _)|[_ Hj]]; [|exact (S6 j cj Hj)].
    constructor; cbn; [intros l1 [= <-]; exact Hl|intros _; split; [eauto|exists q; auto]|discriminate].
  - intros a b ca cb Ha Hbb Va Vb Hx.
    apply list_lookup_insert_Some in Ha as [(-> & <- & _)|[Na Ha]],
      Hbb as [(-> & <- & _)|[Nb Hbb]]; cbn [loaded cb_index] in *.
    + reflexivity.
    + exfalso. apply (missing_index s q b cb); auto.
    + exfalso. apply (missing_index s q a ca); auto.
    + exact (S7 a b ca cb Ha Hbb Va Vb Hx).
Qed.

(** What the write-back did to the disk. *)
Definition evicted (s : drive) (c : cached_block) (d' : D) : Prop :=
  forall a, disk_byte d' a =
    match cb_data c with
    | Some l => if cb_dirty c && (a / G * R =? cb_index c) then byte_at l (a mod G) else disk_byte (dr_disk s) a
    | None => disk_byte (dr_disk s) a
    end.

Lemma evicted_other s c d' a : evicted s c d' -> (cb_dirty c = true -> a / G * R <> cb_index c) ->
  disk_byte d' a = disk_byte (dr_disk s) a.
Proof using.
  intros Hd Ha. rewrite Hd. destruct (cb_data c); [|reflexivity]. destruct (cb_dirty c); [|reflexivity].
  rewrite (proj2 (Z.eqb_neq _ _) (Ha eq_refl)). reflexivity.
Qed.

Lemma clean_replaced s i c d' j cj : drive_ok s -> dr_block_cache s !! i = Some c -> evicted s c d' ->
  j <> i -> dr_block_cache s !! j = Some cj -> clean_at d' cj.
Proof using Hk Hr HG.
  intros [Hs Hc] Hi Hd Hne Hj Hv Hdj l o Hl Ho. destruct sizes as (Hb & HR & HE & _).
  rewrite (Hc j cj Hj Hv Hdj l o Hl Ho). symmetry. apply (evicted_other s c d' _ Hd). intros Hdc.
  pose proof (it_dirty _ (sh_items s Hs i c Hi) Hdc) as Hvc.
  destruct (it_valid _ (sh_items s Hs j cj Hj) Hv) as [_ (qj & Eq & Hqj & _)].
  assert (Hgo : (cb_index cj * bs + o) / G = qj)
    by (rewrite Eq; symmetry; apply (Z.div_unique_pos _ _ _ o); [lia|nia]).
  rewrite Hgo, <- Eq. intros Hx. exact (Hne (sh_uniq s Hs j i cj c Hj Hi Hv Hvc Hx)).
Qed.

(** Outside the group that was loaded nothing seems to change. *)
Lemma view_replaced s i c d' q l a : drive_ok s -> dr_block_cache s !! i = Some c -> evicted s c d' ->
  shape (replaced s d' i q l) -> a / G <> q -> view (replaced s d' i q l) a = view s a.
Proof using Hk Hr HG.
  intros [Hs Hc] Hi Hd Hsh Ha. destruct sizes as (Hb & HR & HE & _).
  destruct (cached_or_missing s (a / G * R)) as [(j & cj & Hj & Hvj & Hxj)|Hmiss].
  - destruct (it_valid _ (sh_items s Hs j cj Hj) Hvj) as [[lj Hlj] _].
    rewrite (view_hit s j cj lj a Hs Hj Hvj Hxj Hlj). destruct (decide (j = i)) as [->|Hne].
    + rewrite Hi in Hj. injection Hj as <-. rewrite view_miss.
      2: { intros b cb Hbb. apply list_lookup_insert_Some in Hbb as [(-> & <- & _)|[Nb Hbb]]; unfold in_group.
           - cbn [loaded cb_index cb_valid]. rewrite (proj2 (Z.eqb_neq _ _)); [reflexivity|nia].
           - destruct (cb_valid cb) eqn:Vb; [|apply andb_false_r].
             rewrite (proj2 (Z.eqb_neq _ _)); [reflexivity|]. rewrite <- Hxj. intros E. apply Nb.
             exact (sh_uniq s Hs i b c cb Hi Hbb Hvj Vb E). }
      cbn [replaced set_cache set_disk dr_disk]. rewrite Hd, Hlj, Hxj, Z.eqb_refl, andb_true_r.
      destruct (cb_dirty c) eqn:Ed; [reflexivity|].
      rewrite (Hc _ c Hi Hvj Ed lj (a mod G) Hlj ltac:(apply Z.mod_pos_bound; lia)), Hxj.
      f_equal. pose proof (Z.div_mod a G ltac:(lia)). nia.
    + apply (view_hit _ j cj lj a Hsh); try assumption. cbn [replaced set_cache dr_block_cache].
      rewrite list_lookup_insert_ne by congruence. exact Hj.
  - rewrite (view_miss s a Hmiss). rewrite view_miss.
    2: { intros b cb Hbb. apply list_lookup_insert_Some in Hbb as [(-> & <- & _)|[Nb Hbb]]; [|exact (Hmiss b cb Hbb)].
         unfold in_group. cbn [loaded cb_index]. rewrite (proj2 (Z.eqb_neq _ _)); [reflexivity|nia]. }
    cbn [replaced set_cache set_disk dr_disk]. apply (evicted_other s c d' a Hd). intros Hdc E.
    pose proof (Hmiss i c Hi) as Hf. unfold in_group in Hf.
    rewrite E, Z.eqb_refl, (it_dirty _ (sh_items s Hs i c Hi) Hdc) in Hf. discriminate Hf.
Qed.

(** A miss: the entry [i] is given to the group [q]. *)
Lemma load_item_spec s i c q wa : drive_ok s -> dr_block_cache s !! Z.to_nat i = Some c -> 0 <= i ->
  (drv_write_blocks <> None \/ cb_dirty c = false) ->
  0 <= q -> q * R + R <= cap -> missing s (q * R) ->
  exists d' l, load_item i (q * R) wa s = Ok (replaced s d' (Z.to_nat i) q l)
    /\ Z.of_nat (length l) = G /\ shape (replaced s d' (Z.to_nat i) q l)
    /\ (forall j cj, j <> Z.to_nat i -> dr_block_cache s !! j = Some cj -> clean_at d' cj)
    /\ (forall a, a / G <> q -> view (replaced s d' (Z.to_nat i) q l) a = view s a)
    /\ (wa = false -> forall j, 0 <= j < G -> byte_at l j = view s (q * G + j)
          /\ byte_at l j = disk_byte d' (q * R * bs + j)).
Proof using Hk Hr HG.
  intros Hok Hi Hi0 Hro Hq Hqc Hm. pose proof (proj1 Hok) as Hs. destruct sizes as (Hb & HR & HE & _).
  destruct (evict s (Z.to_nat i) c Hok Hi Hro) as (d' & Hev & Hd').
  destruct (load_item_runs s i c q wa d' Hs Hi Hi0 Hq Hqc Hev) as (l & Hload & Hl & Hby).
  exists d', l. split; [exact Hload|]. split; [exact Hl|].
  pose proof (shape_replaced s d' (Z.to_nat i) q l Hs Hm Hl Hq Hqc) as Hsh. split; [exact Hsh|].
  split; [intros j cj Hne Hj; exact (clean_replaced s _ c d' j cj Hok Hi Hd' Hne Hj)|].
  split; [intros a Ha; exact (view_replaced s _ c d' q l a Hok Hi Hd' Hsh Ha)|].
  intros Hwa j Hj. rewrite (Hby Hwa j Hj). split; [|reflexivity].
  assert (Hgo : (q * G + j) / G = q) by (symmetry; apply (Z.div_unique_pos _ _ _ j); lia).
  rewrite (view_miss s (q * G + j)) by (rewrite Hgo; exact Hm).
  replace (q * R * bs + j) with (q * G + j) by lia. apply (evicted_other s c d' _ Hd'). rewrite Hgo. intros Hdc E.
  exact (missing_index s q _ c Hm Hi (it_dirty _ (sh_items s Hs _ c Hi) Hdc) (eq_sym E)).
Qed.

(** A drive without [write_blocks] never has a dirty entry. *)
Definition writable (s : drive) : Prop :=
  drv_write_blocks (D := D) <> None \/ forall i c, dr_block_cache s !! i = Some c -> cb_dirty c = false.

Definition same_view (s s' : drive) : Prop := forall a, view s' a = view s a.

(** The entry [block_rw] finds or loads. *)
Record holds (s : drive) (i : Z) (q : Z) (l : list Z) : Prop := {
  h_pos : 0 <= i;
  h_item : exists c, dr_block_cache s !! Z.to_nat i = Some c /\ cb_valid c = true /\ cb_index c = q * R /\ cb_data c = Some l;
  h_shape : shape s;
  h_clean : forall j cj, j <> Z.to_nat i -> dr_block_cache s !! j = Some cj -> clean_at (dr_disk s) cj }.

Lemma holds_view s i q l a : holds s i q l -> a / G = q -> view s a = byte_at l (a mod G).
Proof using.
  intros [_ (c & Hc & Hv & Hx & Hl) Hs _] Ha. apply (view_hit s _ c l a Hs Hc Hv); [|exact Hl]. rewrite Hx, Ha. reflexivity.
Qed.

Lemma shape_set_last s i : shape s -> 0 <= i < Z.of_nat (length (dr_block_cache s)) -> shape (set_last i s).
Proof using. intros [S1 S2 S3 S4 S5 S6 S7] Hi. constructor; assumption. Qed.

Lemma block_rw_spec s b wa : drive_ok s -> writable s -> 0 <= b < cap -> cap mod R = 0 ->
  exists i s' l, block_rw b wa s = Ok (i, s') /\ holds s' i (b / R) l /\ writable s'
  /\ Z.of_nat (length l) = G
  /\ (forall a, a / G <> b / R -> view s' a = view s a)
  /\ (wa = false -> drive_ok s' /\ forall j, 0 <= j < G -> byte_at l j = view s (b / R * G + j)).
Proof using Hk Hr HG Hcap.
  intros Hok Hw Hb Hm. pose proof (proj1 Hok) as Hs. destruct sizes as (Hbs & HR & HE & _).
  destruct (group_of b Hb Hm) as (Hq & Hqc & _). unfold block_rw.
  rewrite (sh_ratio s Hs), (bind_Ok_l _ _ _ (align_block b ltac:(lia))).
  destruct (find_pos _ _ 0) as [p|] eqn:Hp.
  - apply find_pos_Some in Hp as (c & Hc & Hf & Hp0). rewrite Z.sub_0_r in Hc. unfold in_group in Hf.
    apply andb_true_iff in Hf as [Hx Hv]. apply Z.eqb_eq in Hx.
    destruct (it_valid _ (sh_items s Hs _ c Hc) Hv) as [[l Hl] _]. exists p, s, l. split; [reflexivity|].
    assert (Hh : holds s p (b / R) l)
      by (constructor; [exact Hp0|exists c; auto|exact Hs|intros j cj _ Hj; exact (proj2 Hok j cj Hj)]).
    split; [exact Hh|]. split; [exact Hw|]. split; [exact (it_len _ (sh_items s Hs _ c Hc) l Hl)|].
    split; [reflexivity|]. intros _. split; [exact Hok|]. intros j Hj.
    rewrite (holds_view s p (b / R) l _ Hh) by (symmetry; apply (Z.div_unique_pos _ _ _ j); lia).
    f_equal. apply (Z.mod_unique_pos _ _ (b / R)); lia.
  - pose proof (find_pos_None _ _ _ Hp) as Hmiss. unfold refresh_oldest_item.
    pose proof (sh_len s Hs) as Hlen. pose proof (sh_last s Hs) as Hlast.
    rewrite (proj2 (Z.eqb_neq _ 0)) by lia. cbn [mbind outcome_bind]. rewrite add32_small by lia.
    set (n := (dr_last_index s + 1) mod Z.of_nat (length (dr_block_cache s))).
    assert (Hn : 0 <= n < Z.of_nat (length (dr_block_cache s))) by (apply Z.mod_pos_bound; lia).
    destruct (lookup_lt_is_Some_2 (dr_block_cache s) (Z.to_nat n) ltac:(lia)) as [c Hc].
    assert (Hro : drv_write_blocks (D := D) <> None \/ cb_dirty c = false)
      by (destruct Hw as [Hw|Hw]; [left; exact Hw|right; exact (Hw _ c Hc)]).
    destruct (load_item_spec (set_last n s) n c (b / R) wa (conj (shape_set_last s n Hs Hn) (proj2 Hok)) Hc
      (proj1 Hn) Hro Hq Hqc Hmiss) as (d' & l & El & Hl & Hsh & Hcl & Hvw & Hby).
    rewrite (bind_Ok_l _ _ _ El). cbn [mbind outcome_bind].
    assert (Hnew : dr_block_cache (replaced (set_last n s) d' (Z.to_nat n) (b / R) l) !! Z.to_nat n = Some (loaded (b / R) l))
      by (cbn [replaced set_cache dr_block_cache set_last]; apply list_lookup_insert_eq; lia).
    eexists n, _, l. split; [reflexivity|]. split; [constructor|split; [|split; [|split]]].
    + exact (proj1 Hn).
    + eexists. split; [exact Hnew|]. auto.
    + exact Hsh.
    + intros j cj Hne Hj. cbn [replaced set_cache dr_block_cache] in Hj.
      rewrite list_lookup_insert_ne in Hj by congruence. exact (Hcl j cj Hne Hj).
    + destruct Hw as [Hw|Hw]; [left; exact Hw|right]. intros j cj Hj.
      apply list_lookup_insert_Some in Hj as [(_ & <- & _)|[_ Hj]]; [reflexivity|exact (Hw j cj Hj)].
    + exact Hl.
    + intros a Ha. exact (Hvw a Ha).
    + intros Hwa. split; [split; [exact Hsh|]|intros j Hj; exact (proj1 (Hby Hwa j Hj))].
      intros j cj Hj. apply list_lookup_insert_Some in Hj as [(-> & <- & _)|[Hne Hj]].
      * intros _ _ l1 o [= <-] Ho. exact (proj2 (Hby Hwa o Ho)).
      * exact (Hcl j cj (not_eq_sym Hne) Hj).
Qed.

(** Writing into the entry makes it dirty. *)
Lemma put_item s i q l l' : holds s i q l -> 0 <= q -> q * R + R <= cap -> Z.of_nat (length l') = G ->
  drv_write_blocks (D := D) <> None ->
  exists s', set_item i (mk_cached (q * R) (Some l') true true) s = Ok s' /\ drive_ok s' /\ writable s'
  /\ forall a, view s' a = if a / G =? q then byte_at l' (a mod G) else view s a.
Proof using Hk Hr HG.
  intros [Hi0 (c & Hc & Hv & Hx & Hl) Hs Hcl] Hq Hqc Hl' Hw. unfold set_item. pose proof (lookup_lt_Some _ _ _ Hc) as Hlt.
  rewrite (bind_Ok_l _ _ _ (store_Ok (dr_block_cache s) i _ ltac:(lia))). eexists. split; [reflexivity|].
  set (new := mk_cached (q * R) (Some l') true true).
  assert (Hsh : shape (set_cache (<[Z.to_nat i := new]> (dr_block_cache s)) s)).
  { destruct Hs as [S1 S2 S3 S4 S5 S6 S7]. constructor; cbn [set_cache dr_block_size dr_blocksz_log2
      dr_blocks_per_cache dr_block_cache dr_last_index]; rewrite ?length_insert; try assumption.
    - intros j cj Hj. apply list_lookup_insert_Some in Hj as [(_ & <- & _)|[_ Hj]]; [|exact (S6 j cj Hj)].
      constructor; cbn; [intros l1 [= <-]; exact Hl'|intros _; split; [eauto|exists q; auto]|reflexivity].
    - intros a b ca cb Ha Hb Va Vb Hxx.
      apply list_lookup_insert_Some in Ha as [(<- & <- & _)|[Na Ha]],
        Hb as [(<- & <- & _)|[Nb Hb]]; cbn [new cb_index] in *.
      + reflexivity.
      + apply (S7 _ b c cb Hc Hb Hv Vb). congruence.
      + apply (S7 a _ ca c Ha Hc Va Hv). congruence.
      + exact (S7 a b ca cb Ha Hb Va Vb Hxx). }
  split; [split; [exact Hsh|]|split; [left; exact Hw|]].
  - intros j cj Hj. apply list_lookup_insert_Some in Hj as [(_ & <- & _)|[Hne Hj]]; [intros _ Hd; discriminate Hd|].
    exact (Hcl j cj (not_eq_sym Hne) Hj).
  - intros a. destruct (Z.eqb_spec (a / G) q) as [Ha|Ha].
    + apply (view_hit _ (Z.to_nat i) new l' a Hsh); cbn; try reflexivity; [|congruence].
      apply list_lookup_insert_eq. lia.
    + destruct (cached_or_missing s (a / G * R)) as [(j & cj & Hj & Hvj & Hxj)|Hmiss].
      * destruct (it_valid _ (sh_items s Hs j cj Hj) Hvj) as [[lj Hlj] _].
        rewrite (view_hit s j cj lj a Hs Hj Hvj Hxj Hlj). apply (view_hit _ j cj lj a Hsh); try assumption.
        cbn [set_cache dr_block_cache]. rewrite list_lookup_insert_ne; [exact Hj|].
        intros <-. rewrite Hc in Hj. injection Hj as <-. apply Ha. pose proof sizes. nia.
      * rewrite (view_miss s a Hmiss), view_miss; [reflexivity|]. intros b cb Hb.
        apply list_lookup_insert_Some in Hb as [(_ & <- & _)|[_ Hb]]; [|exact (Hmiss b cb Hb)].
        unfold in_group. cbn [new cb_index]. rewrite (proj2 (Z.eqb_neq _ _)); [reflexivity|].
        pose proof sizes. nia.
Qed.

(** ** One block *)
Lemma in_block b off : 0 <= b < cap -> cap mod R = 0 -> 0 <= off < bs ->
  0 <= (b - b / R * R) * bs /\ (b - b / R * R) * bs + bs <= G
  /\ b * bs + off = b / R * G + ((b - b / R * R) * bs + off)
  /\ (b * bs + off) / G = b / R /\ (b * bs + off) mod G = (b - b / R * R) * bs + off.
Proof using Hk Hr HG.
  intros Hb Hm Ho. destruct sizes as (Hbs & HR & HE & _). destruct (group_of b Hb Hm) as (Hq & _ & Hin).
  assert (H1 : 0 <= (b - b / R * R) * bs) by nia. assert (H2 : (b - b / R * R) * bs + bs <= G) by nia.
  assert (H3 : b * bs + off = b / R * G + ((b - b / R * R) * bs + off)) by nia.
  split; [exact H1|]. split; [exact H2|]. split; [exact H3|].
  split; symmetry; [apply (Z.div_unique_pos _ _ _ ((b - b / R * R) * bs + off))|apply (Z.mod_unique_pos _ _ (b / R))]; lia.
Qed.

Lemma block_offset b s : shape s -> 0 <= b < cap -> cap mod R = 0 ->
  blocks_to_bytes (sub32 b (b / R * R)) s = (b - b / R * R) * bs.
Proof using Hk Hr HG Hcap.
  intros Hs Hb Hm. destruct (group_of b Hb Hm) as (Hq & _ & Hin). destruct sizes as (Hbs & HR & HE & _).
  destruct (in_block b 0 Hb Hm ltac:(lia)) as (H1 & H2 & _).
  unfold blocks_to_bytes. rewrite (sh_log2 s Hs), sub32_small by nia. unfold shl32.
  rewrite Z.shiftl_mul_pow2 by lia. apply u32_small. unfold is_u32. lia.
Qed.

Lemma read_from_block_spec s b off n : drive_ok s -> writable s -> 0 <= b < cap -> cap mod R = 0 ->
  0 <= off -> 0 <= n -> off + n <= bs ->
  exists s', read_from_block b off n s = Ok (map (view s) (seqZ (b * bs + off) n), s')
  /\ drive_ok s' /\ writable s' /\ same_view s s'.
Proof using Hk Hr HG Hcap.
  intros Hok Hw Hb Hm Ho Hn Hlen. destruct sizes as (Hbs & HR & HE & _).
  destruct (in_block b 0 Hb Hm ltac:(lia)) as (I1 & I2 & I3 & _).
  destruct (block_rw_spec s b false Hok Hw Hb Hm) as (i & s1 & l & E & Hh & Hw1 & Hl & Hv & Hby).
  destruct (Hby eq_refl) as [Hok1 Hb1]. unfold read_from_block. rewrite (bind_Ok_l _ _ _ E). cbn [mbind outcome_bind].
  pose proof Hh as [Hi0 (c & Hc & Hvc & Hx & Hd) Hs1 _].
  rewrite (bind_Ok_l _ _ _ (fetch_Ok _ _ _ Hi0 Hc)), Hd, Hx, (block_offset b s1 Hs1 Hb Hm).
  rewrite (bind_Ok_l _ _ _ (slice_spec l ((b - b / R * R) * bs + off) n ltac:(lia) Hn ltac:(lia))). exists s1.
  split; [|split; [exact Hok1|split; [exact Hw1|]]].
  - do 2 f_equal. rewrite (map_seqZ_shift (view s)). apply list_fmap_ext. intros j x Hj.
    apply lookup_seqZ in Hj as [-> Hj]. rewrite Hb1 by lia. f_equal. lia.
  - intros a. destruct (decide (a / G = b / R)) as [Ha|Ha]; [|exact (Hv a Ha)].
    rewrite (holds_view s1 i (b / R) l a Hh Ha), Hb1 by (apply Z.mod_pos_bound; nia).
    f_equal. pose proof (Z.div_mod a G ltac:(nia)). nia.
Qed.

Lemma write_to_block_spec s b off buf : drive_ok s -> writable s -> 0 <= b < cap -> cap mod R = 0 ->
  drv_write_blocks (D := D) <> None -> 0 <= off -> off + Z.of_nat (length buf) <= bs ->
  exists s', write_to_block b off buf s = Ok s' /\ drive_ok s' /\ writable s'
  /\ stored_at (b * bs + off) buf (view s) (view s').
Proof using Hk Hr HG Hcap.
  intros Hok Hw Hb Hm Hwr Ho Hlen. destruct sizes as (Hbs & HR & HE & _).
  destruct (in_block b 0 Hb Hm ltac:(lia)) as (I1 & I2 & I3 & _). destruct (group_of b Hb Hm) as (Hq & Hqc & _).
  unfold write_to_block. set (wa := _ =? _).
  destruct (block_rw_spec s b wa Hok Hw Hb Hm) as (i & s1 & l & E & Hh & Hw1 & Hl & Hv & Hby).
  rewrite (bind_Ok_l _ _ _ E). cbn [mbind outcome_bind].
  pose proof Hh as [Hi0 (c & Hc & Hvc & Hx & Hd) Hs1 _].
  rewrite (bind_Ok_l _ _ _ (fetch_Ok _ _ _ Hi0 Hc)), Hd, Hx, (block_offset b s1 Hs1 Hb Hm), Hvc.
  destruct (splice_spec l ((b - b / R * R) * bs + off) buf ltac:(lia) ltac:(lia)) as (l' & El & Hl' & Hb').
  rewrite (bind_Ok_l _ _ _ El).
  destruct (put_item s1 i (b / R) l l' Hh Hq Hqc ltac:(lia) Hwr) as (s2 & E2 & Hok2 & Hw2 & Hv2).
  exists s2. split; [exact E2|]. split; [exact Hok2|]. split; [exact Hw2|]. intros a. rewrite Hv2.
  assert (HGp : 0 < G) by nia. pose proof (Z.div_mod a G ltac:(lia)) as Hdm. pose proof (Z.mod_pos_bound a G HGp) as Hmb.
  set (o := (b - b / R * R) * bs) in *.
  assert (Hwa : 0 < o + off \/ Z.of_nat (length buf) < G -> wa = false).
  { intros Hor. subst wa. unfold blocks_to_bytes. rewrite (sh_ratio s (proj1 Hok)), (sh_log2 s (proj1 Hok)).
    unfold shl32. rewrite Z.shiftl_mul_pow2, u32_small by (unfold is_u32; lia). apply Z.eqb_neq. lia. }
  destruct (Z.eqb_spec (a / G) (b / R)) as [Ha|Ha].
  - rewrite Hb' by lia. rewrite Ha in Hdm.
    destruct (Z.leb_spec (o + off) (a mod G)), (Z.ltb_spec (a mod G) (o + off + Z.of_nat (length buf))),
      (Z.leb_spec (b * bs + off) a), (Z.ltb_spec a (b * bs + off + Z.of_nat (length buf))); try lia; cbn [andb].
    + f_equal. lia.
    + rewrite (proj2 (Hby (Hwa ltac:(lia)))) by lia. f_equal. lia.
    + rewrite (proj2 (Hby (Hwa ltac:(lia)))) by lia. f_equal. lia.
  - rewrite Hv by exact Ha.
    destruct (Z.leb_spec (b * bs + off) a), (Z.ltb_spec a (b * bs + off + Z.of_nat (length buf))); try reflexivity.
    exfalso. apply Ha. symmetry. apply (Z.div_unique_pos _ _ _ (a - b / R * G)); lia.
Qed.

(** ** Runs of blocks *)
Lemma read_block_loop_spec n : forall s b, drive_ok s -> writable s -> cap mod R = 0 ->
  0 <= b -> b + Z.of_nat n <= cap ->
  exists s', read_block_loop n b s = Ok (b + Z.of_nat n, map (view s) (seqZ (b * bs) (Z.of_nat n * bs)), s')
  /\ drive_ok s' /\ writable s' /\ same_view s s'.
Proof using Hk Hr HG Hcap.
  destruct sizes as (Hbs & HR & HE & _).
  induction n as [|n IH]; intros s b Hok Hw Hm Hb Hn.
  - exists s. cbn [read_block_loop]. rewrite Z.add_0_r. split; [reflexivity|].
    split; [exact Hok|]. split; [exact Hw|]. intros a. reflexivity.
  - cbn [read_block_loop]. rewrite (sh_bs s (proj1 Hok)).
    destruct (read_from_block_spec s b 0 bs Hok Hw ltac:(lia) Hm ltac:(lia) ltac:(lia) ltac:(lia))
      as (s1 & E1 & Hok1 & Hw1 & Hv1).
    rewrite (bind_Ok_l _ _ _ E1). cbn [mbind outcome_bind]. rewrite (add32_small b 1) by lia.
    destruct (IH s1 (b + 1) Hok1 Hw1 Hm ltac:(lia) ltac:(lia)) as (s2 & E2 & Hok2 & Hw2 & Hv2).
    rewrite (bind_Ok_l _ _ _ E2). exists s2. split; [|split; [exact Hok2|split; [exact Hw2|]]].
    + do 2 f_equal. f_equal; [lia|]. rewrite Z.add_0_r.
      replace (Z.of_nat (S n) * bs) with (bs + Z.of_nat n * bs) by lia.
      rewrite seqZ_app, map_app by lia. f_equal. replace (b * bs + bs) with ((b + 1) * bs) by lia.
      apply map_ext. exact Hv1.
    + intros a. rewrite (Hv2 a). apply Hv1.
Qed.

Lemma write_block_loop_spec n : forall s b buf, drive_ok s -> writable s -> cap mod R = 0 ->
  drv_write_blocks (D := D) <> None ->
  0 <= b -> b + Z.of_nat n <= cap -> Z.of_nat n * bs <= Z.of_nat (length buf) ->
  exists s', write_block_loop n b buf s = Ok (b + Z.of_nat n, drop (Z.to_nat (Z.of_nat n * bs)) buf, s')
  /\ drive_ok s' /\ writable s' /\ stored_at (b * bs) (take (Z.to_nat (Z.of_nat n * bs)) buf) (view s) (view s').
Proof using Hk Hr HG Hcap.
  destruct sizes as (Hbs & HR & HE & _).
  induction n as [|n IH]; intros s b buf Hok Hw Hm Hwr Hb Hn Hlen.
  - exists s. cbn [write_block_loop]. rewrite Z.add_0_r. split; [reflexivity|].
    split; [exact Hok|]. split; [exact Hw|]. apply stored_at_nil. intros a. reflexivity.
  - cbn [write_block_loop]. rewrite (sh_bs s (proj1 Hok)).
    assert (Hlt : length (take (Z.to_nat bs) buf) = Z.to_nat bs) by (rewrite length_take; nia).
    destruct (write_to_block_spec s b 0 (take (Z.to_nat bs) buf) Hok Hw ltac:(lia) Hm Hwr ltac:(lia) ltac:(lia))
      as (s1 & E1 & Hok1 & Hw1 & Hst1).
    rewrite (bind_Ok_l _ _ _ E1), (add32_small b 1) by lia.
    destruct (IH s1 (b + 1) (drop (Z.to_nat bs) buf) Hok1 Hw1 Hm Hwr ltac:(lia) ltac:(lia)
      ltac:(rewrite length_drop; lia)) as (s2 & E2 & Hok2 & Hw2 & Hst2).
    exists s2. split; [|split; [exact Hok2|split; [exact Hw2|]]].
    + rewrite E2, drop_drop. do 2 f_equal. f_equal; [lia|f_equal; lia].
    + replace (Z.to_nat (Z.of_nat (S n) * bs)) with (Z.to_nat bs + Z.to_nat (Z.of_nat n * bs))%nat by lia.
      rewrite <- take_take_drop. apply (stored_at_app _ _ _ _ (view s1)); [rewrite Z.add_0_r in Hst1; exact Hst1|].
      rewrite Hlt. replace (b * bs + Z.of_nat (Z.to_nat bs)) with ((b + 1) * bs) by lia. exact Hst2.
Qed.

(** ** Flushing before a direct read *)
Lemma flush_item s i c l d' : drive_ok s -> dr_block_cache s !! i = Some c -> cb_data c = Some l -> cb_dirty c = true ->
  evicted s c d' ->
  let s' := set_cache (<[i := mk_cached (cb_index c) (Some l) false (cb_valid c)]> (dr_block_cache s)) (set_disk d' s) in
  drive_ok s' /\ same_view s s'.
Proof using Hk Hr HG.
  intros Hok Hi Hl Hd Hev s'. pose proof (proj1 Hok) as Hs. destruct sizes as (Hb & HR & HE & _).
  pose proof (it_dirty _ (sh_items s Hs i c Hi) Hd) as Hv. pose proof (lookup_lt_Some _ _ _ Hi) as Hlt.
  destruct (it_valid _ (sh_items s Hs i c Hi) Hv) as [_ (q & Eq & Hq & Hqc)].
  assert (Hsh : shape s').
  { destruct Hs as [S1 S2 S3 S4 S5 S6 S7]. subst s'. constructor; cbn [set_cache set_disk dr_block_size
      dr_blocksz_log2 dr_blocks_per_cache dr_block_cache dr_last_index]; rewrite ?length_insert; try assumption.
    - intros j cj Hj. apply list_lookup_insert_Some in Hj as [(_ & <- & _)|[_ Hj]]; [|exact (S6 j cj Hj)].
      destruct (S6 i c Hi) as [I1 I2 I3].
      constructor; cbn; [intros l1 [= <-]; exact (I1 l Hl)|intros _; rewrite Eq; split; [eauto|exists q; auto]|discriminate].
    - intros a b ca cb Ha Hbb Va Vb Hxx.
      apply list_lookup_insert_Some in Ha as [(<- & <- & _)|[Na Ha]],
        Hbb as [(<- & <- & _)|[Nb Hbb]]; cbn [cb_index cb_valid] in *.
      + reflexivity.
      + exact (S7 _ b c cb Hi Hbb Va Vb Hxx).
      + exact (S7 a _ ca c Ha Hi Va Vb Hxx).
      + exact (S7 a b ca cb Ha Hbb Va Vb Hxx). }
  split; [split; [exact Hsh|]|].
  - intros j cj Hj. apply list_lookup_insert_Some in Hj as [(_ & <- & _)|[Hne Hj]].
    + intros _ _ l1 o [= <-] Ho. cbn [cb_index set_disk dr_disk set_cache]. subst s'. cbn [set_disk dr_disk set_cache].
      assert (Hg : (cb_index c * bs + o) / G = q /\ (cb_index c * bs + o) mod G = o)
        by (rewrite Eq; split; symmetry; [apply (Z.div_unique_pos _ _ _ o)|apply (Z.mod_unique_pos _ _ q)]; nia).
      rewrite Hev, Hl, Hd, (proj1 Hg), (proj2 Hg), Eq, Z.eqb_refl. reflexivity.
    + exact (clean_replaced s i c d' j cj Hok Hi Hev (not_eq_sym Hne) Hj).
  - intros a. destruct (cached_or_missing s (a / G * R)) as [(j & cj & Hj & Hvj & Hxj)|Hmiss].
    + destruct (it_valid _ (sh_items s Hs j cj Hj) Hvj) as [[lj Hlj] _].
      rewrite (view_hit s j cj lj a Hs Hj Hvj Hxj Hlj). destruct (decide (j = i)) as [->|Hne].
      * rewrite Hi in Hj. injection Hj as <-. rewrite Hl in Hlj. injection Hlj as <-.
        apply (view_hit _ i (mk_cached (cb_index c) (Some l) false (cb_valid c)) l a Hsh); try assumption; [|reflexivity].
        apply list_lookup_insert_eq. exact Hlt.
      * apply (view_hit _ j cj lj a Hsh); try assumption. subst s'. cbn [set_cache dr_block_cache].
        rewrite list_lookup_insert_ne by congruence. exact Hj.
    + rewrite (view_miss s a Hmiss), view_miss.
      * apply (evicted_other s c d' a Hev). intros _ E. rewrite E in Hmiss.
        pose proof (Hmiss i c Hi) as Hf. unfold in_group in Hf. rewrite Z.eqb_refl, Hv in Hf. discriminate Hf.
      * intros b cb Hbb. apply list_lookup_insert_Some in Hbb as [(_ & <- & _)|[_ Hbb]]; [|exact (Hmiss b cb Hbb)].
        exact (Hmiss i c Hi).
Qed.

Lemma near_shape index n s s' c : shape s -> shape s' -> near index n s' c = near index n s c.
Proof using. intros H1 H2. unfold near. rewrite (sh_ratio s H1), (sh_ratio s' H2). reflexivity. Qed.

Lemma flush_step index n s i c : drive_ok s -> writable s -> dr_block_cache s !! i = Some c ->
  exists s', (if near index n s c && cb_dirty c then
           match cb_data c with
           | Some data =>
             s ← write_blocks (cb_index c) data (dr_blocks_per_cache s) s;
             set_item (Z.of_nat i) (mk_cached (cb_index c) (Some data) false (cb_valid c)) s
           | None => Fault AssertFailed
           end
         else Ok s) = Ok s'
  /\ drive_ok s' /\ writable s' /\ same_view s s'
  /\ (forall j, j <> i -> dr_block_cache s' !! j = dr_block_cache s !! j)
  /\ (forall c', dr_block_cache s' !! i = Some c' -> near index n s c' = true -> cb_dirty c' = false).
Proof using Hk Hr HG.
  intros Hok Hw Hi. pose proof (proj1 Hok) as Hs. pose proof (lookup_lt_Some _ _ _ Hi) as Hlt.
  destruct (near index n s c && cb_dirty c) eqn:Hnd.
  - apply andb_true_iff in Hnd as [Hn Hd].
    destruct (it_valid _ (sh_items s Hs i c Hi) (it_dirty _ (sh_items s Hs i c Hi) Hd)) as [[l Hl] _].
    assert (Hro : drv_write_blocks (D := D) <> None \/ cb_dirty c = false)
      by (destruct Hw as [Hw|Hw]; [left; exact Hw|right; exact (Hw i c Hi)]).
    destruct (evict s i c Hok Hi Hro) as (d' & Hev & Hdisk). rewrite Hl, Hd in Hev.
    rewrite Hl, (sh_ratio s Hs), (bind_Ok_l _ _ _ Hev). unfold set_item. cbn [set_disk dr_block_cache].
    rewrite (bind_Ok_l _ _ _ (store_Ok (dr_block_cache s) (Z.of_nat i) _ ltac:(lia))), Nat2Z.id.
    destruct (flush_item s i c l d' Hok Hi Hl Hd Hdisk) as [Hok' Hv].
    eexists. split; [reflexivity|]. split; [exact Hok'|]. split; [|split; [exact Hv|split]].
    + destruct Hw as [Hw|Hw]; [left; exact Hw|]. rewrite (Hw i c Hi) in Hd. discriminate Hd.
    + intros j Hj. cbn [set_cache dr_block_cache]. apply list_lookup_insert_ne. congruence.
    + intros c' Hc' _. cbn [set_cache dr_block_cache] in Hc'. rewrite list_lookup_insert_eq in Hc' by exact Hlt.
      injection Hc' as <-. reflexivity.
  - exists s. split; [reflexivity|]. split; [exact Hok|]. split; [exact Hw|]. split; [intros a; reflexivity|].
    split; [reflexivity|]. intros c' Hc' Hn. rewrite Hi in Hc'. injection Hc' as <-. rewrite Hn in Hnd. exact Hnd.
Qed.

Lemma flush_loop_spec index n l : forall i s, drive_ok s -> writable s ->
  (forall j, l !! j = dr_block_cache s !! (i + j)%nat) ->
  exists s', flush_loop index n l (Z.of_nat i) s = Ok s' /\ drive_ok s' /\ writable s' /\ same_view s s'
  /\ (forall j, (j < i)%nat -> dr_block_cache s' !! j = dr_block_cache s !! j)
  /\ (forall j c, (i <= j)%nat -> dr_block_cache s' !! j = Some c -> near index n s c = true -> cb_dirty c = false).
Proof using Hk Hr HG.
  induction l as [|c l IH]; intros i s Hok Hw Hl.
  - exists s. split; [reflexivity|]. split; [exact Hok|]. split; [exact Hw|]. split; [intros a; reflexivity|].
    split; [reflexivity|]. intros j c Hj Hc. specialize (Hl (j - i)%nat). rewrite lookup_nil in Hl.
    replace (i + (j - i))%nat with j in Hl by lia. congruence.
  - pose proof (Hl 0%nat) as H0. cbn in H0. rewrite Nat.add_0_r in H0. cbn [flush_loop].
    destruct (flush_step index n s i c Hok Hw (eq_sym H0)) as (s1 & E1 & Hok1 & Hw1 & Hv1 & Hne1 & Hd1).
    rewrite (bind_Ok_l _ _ _ E1). replace (Z.of_nat i + 1) with (Z.of_nat (S i)) by lia.
    destruct (IH (S i) s1 Hok1 Hw1) as (s2 & E2 & Hok2 & Hw2 & Hv2 & Hne2 & Hd2).
    { intros j. rewrite Hne1 by lia. specialize (Hl (S j)). change ((c :: l) !! S j) with (l !! j) in Hl. rewrite Hl. f_equal. lia. }
    exists s2. split; [exact E2|]. split; [exact Hok2|]. split; [exact Hw2|].
    split; [intros a; rewrite (Hv2 a); apply Hv1|]. split.
    + intros j Hj. rewrite Hne2, Hne1 by lia. reflexivity.
    + intros j c' Hj Hc' Hn. destruct (decide (j = i)) as [->|Hji].
      * rewrite Hne2 in Hc' by lia. exact (Hd1 c' Hc' Hn).
      * apply (Hd2 j c'); [lia|exact Hc'|]. rewrite (near_shape _ _ s s1 c' (proj1 Hok) (proj1 Hok1)). exact Hn.
Qed.

(** An entry that holds a byte of the blocks in question is one the loops look at. *)
Lemma near_covers s c a index n : shape s -> item_shape c -> cb_valid c = true -> a / G * R = cb_index c ->
  0 <= index -> 0 <= n -> index + n <= cap -> index * bs <= a < (index + n) * bs -> near index n s c = true.
Proof using Hk Hr HG Hcap.
  intros Hs Hi Hv Hx H0 H1 Hc Ha. destruct sizes as (Hb & HR & HE & _).
  destruct (it_valid c Hi Hv) as [_ (q & Eq & Hq & Hqc)]. unfold near. rewrite (sh_ratio s Hs), !add32_small by lia.
  assert (Haq : a / G = q) by nia. pose proof (Z.div_mod a G ltac:(nia)) as Hdm.
  pose proof (Z.mod_pos_bound a G ltac:(nia)) as Hmb. rewrite Haq in Hdm.
  assert (Hrange : q * R * bs <= a < (q * R + R) * bs) by nia.
  rewrite (proj2 (Z.ltb_ge (index + n) (cb_index c))) by nia.
  rewrite (proj2 (Z.ltb_ge (cb_index c + R) index)) by nia. reflexivity.
Qed.

Lemma block_flush_spec s index n : drive_ok s -> writable s -> 0 <= index -> 0 <= n -> index + n <= cap ->
  exists s', block_flush index n s = Ok s' /\ drive_ok s' /\ writable s' /\ same_view s s'
  /\ forall a, index * bs <= a < (index + n) * bs -> disk_byte (dr_disk s') a = view s a.
Proof using Hk Hr HG Hcap.
  intros Hok Hw H0 H1 Hc. destruct sizes as (Hb & HR & HE & _).
  destruct (flush_loop_spec index n (dr_block_cache s) 0 s Hok Hw ltac:(reflexivity))
    as (s' & E & Hok' & Hw' & Hv & _ & Hd).
  exists s'. split; [exact E|]. split; [exact Hok'|]. split; [exact Hw'|]. split; [exact Hv|].
  intros a Ha. rewrite <- (Hv a). pose proof (proj1 Hok') as Hs'.
  destruct (cached_or_missing s' (a / G * R)) as [(j & cj & Hj & Hvj & Hxj)|Hmiss];
    [|symmetry; exact (view_miss s' a Hmiss)].
  pose proof (sh_items s' Hs' j cj Hj) as Hit. destruct (it_valid _ Hit Hvj) as [[lj Hlj] _].
  rewrite (view_hit s' j cj lj a Hs' Hj Hvj Hxj Hlj).
  assert (Hnd : cb_dirty cj = false).
  { apply (Hd j cj ltac:(lia) Hj).
    exact (near_covers s cj a index n (proj1 Hok) Hit Hvj (eq_sym Hxj) H0 H1 Hc Ha). }
  rewrite (proj2 Hok' j cj Hj Hvj Hnd lj (a mod G) Hlj) by (apply Z.mod_pos_bound; nia).
  f_equal. rewrite Hxj. pose proof (Z.div_mod a G ltac:(nia)). nia.
Qed.

(** ** Whole blocks, whichever way they go *)
Lemma read_full_spec s b n : drive_ok s -> writable s -> cap mod R = 0 -> 0 <= b -> 0 <= n -> (0 < n -> b + n <= cap) ->
  exists s', read_full b n s = Ok (b + n, map (view s) (seqZ (b * bs) (n * bs)), s')
  /\ drive_ok s' /\ writable s' /\ same_view s s'.
Proof using Hk Hr HG Hcap.
  intros Hok Hw Hm Hb Hn Hc. destruct sizes as (Hbs & HR & HE & _). unfold read_full.
  destruct (Z.eqb_spec n 0) as [->|Hn0].
  { exists s. rewrite Z.add_0_r. split; [reflexivity|]. split; [exact Hok|]. split; [exact Hw|]. intros a. reflexivity. }
  specialize (Hc ltac:(lia)). destruct (_ && _).
  - destruct (block_flush_spec s b n Hok Hw Hb Hn Hc) as (s' & E & Hok' & Hw' & Hv & Hd).
    rewrite (bind_Ok_l _ _ _ E). exists s'. split; [|split; [exact Hok'|split; [exact Hw'|exact Hv]]].
    rewrite add32_small by lia. do 2 f_equal. f_equal. unfold read_blocks. rewrite (drv_read_law _ b n) by lia.
    apply list_fmap_ext. intros j x Hj. apply lookup_seqZ in Hj as [-> Hj]. apply Hd. lia.
  - destruct (read_block_loop_spec (Z.to_nat n) s b Hok Hw Hm Hb ltac:(lia)) as (s' & E & H').
    rewrite Z2Nat.id in E by lia. exists s'. split; [exact E|exact H'].
Qed.

(** The whole transfer, from the three parts of a split. *)
Lemma disk_chunks offset len : 0 <= offset -> 0 <= len < 2 ^ 32 -> offset + len <= cap * bs ->
  chunks_ok offset len bs (filesystem_chunkify offset len (sub32 bs 1) k).
Proof using Hk Hr HG Hcap.
  intros H0 H1 H2. destruct sizes as (Hb & HR & HE & Hr32 & Hk32).
  assert (bs < 2 ^ 32) by (apply Z.pow_lt_mono_r; lia). rewrite sub32_small by lia.
  apply chunkify_ok; try lia. rewrite Z.pow_add_r by lia. nia.
Qed.

Lemma split_ok b offset len c : chunks_ok offset len bs c -> 0 <= b -> 0 <= offset -> 0 <= len ->
  b * bs + offset + len <= cap * bs ->
  let b0 := b + start_chunk c in let b1 := if start_size c =? 0 then b0 else b0 + 1 in
  0 <= start_chunk c /\ 0 <= b0 /\ 0 <= b1 /\ b0 * bs + start_offset c = b * bs + offset
  /\ b0 <= cap /\ (0 < start_size c -> b0 < cap)
  /\ (0 < num_full_chunks c \/ 0 < end_size c -> b1 * bs = b * bs + offset + start_size c)
  /\ (0 < num_full_chunks c -> b1 + num_full_chunks c <= cap)
  /\ (0 < end_size c -> b1 + num_full_chunks c < cap).
Proof using Hk Hr HG Hcap.
  intros [C1 C2 C3 C4 C5 C6 C7] Hb Ho Hl Hc b0 b1. destruct sizes as (Hbs & HR & HE & _).
  pose proof (Z.div_mod offset bs ltac:(lia)) as Hdm. pose proof (Z.mod_pos_bound offset bs Hbs) as Hmb.
  assert (0 <= offset / bs) by (apply Z.div_pos; lia). rewrite C2 in *.
  assert (HA : b0 * bs + offset mod bs = b * bs + offset) by (subst b0; lia).
  assert (Hf : 0 <= num_full_chunks c * bs) by nia.
  assert (Hb1 : 0 < num_full_chunks c \/ 0 < end_size c -> b1 * bs = b * bs + offset + start_size c).
  { intros H7. specialize (C7 H7). subst b1. destruct (start_size c =? 0) eqn:E; [apply Z.eqb_eq in E|]; lia. }
  split; [lia|]. split; [lia|]. split; [subst b1; destruct (_ =? _); lia|]. split; [exact HA|].
  split; [nia|]. split; [intros; nia|]. split; [exact Hb1|]. split; intros H8.
  - specialize (Hb1 (or_introl H8)). nia.
  - specialize (Hb1 (or_intror H8)). nia.
Qed.

Lemma filesystem_read_from_disk_spec s b offset n : drive_ok s -> writable s -> cap mod R = 0 ->
  supports_byte_access s = false -> 0 <= b -> 0 <= offset -> 0 <= n < 2 ^ 32 -> b * bs + offset + n <= cap * bs ->
  exists s', filesystem_read_from_disk b offset n s = Ok (map (view s) (seqZ (b * bs + offset) n), s')
  /\ drive_ok s' /\ writable s' /\ same_view s s'.
Proof using Hk Hr HG Hcap.
  intros Hok Hw Hm Hba Hb Ho Hn Hc. unfold filesystem_read_from_disk. rewrite Hba, (sh_bs s (proj1 Hok)), (sh_log2 s (proj1 Hok)).
  destruct sizes as (Hbs & HR & HE & _).
  pose proof (disk_chunks offset n Ho Hn ltac:(nia)) as Hck. set (c := filesystem_chunkify _ _ _ _) in *. clearbody c.
  destruct (split_ok b offset n c Hck Hb Ho ltac:(lia) Hc) as (S1 & S2 & S3 & S4 & S5 & S6 & S7 & S8 & S9).
  pose proof Hck as [C1 C2 C3 C4 C5 C6 C7]. cbv zeta. rewrite (add32_small b (start_chunk c)) by lia.
  set (b0 := b + start_chunk c) in *. set (b1 := if start_size c =? 0 then b0 else b0 + 1) in *.
  (* the first, partial block *)
  assert (H1 : exists s1, (if negb (start_size c =? 0) then
        '(out, s) ← read_from_block b0 (start_offset c) (start_size c) s; Ok (add32 b0 1, out, s)
      else Ok (b0, [], s)) = Ok (b1, map (view s) (seqZ (b * bs + offset) (start_size c)), s1)
      /\ drive_ok s1 /\ writable s1 /\ same_view s s1).
  { subst b1. destruct (Z.eqb_spec (start_size c) 0) as [->|H0]; cbn [negb].
    - exists s. split; [reflexivity|]. split; [exact Hok|]. split; [exact Hw|]. intros a. reflexivity.
    - destruct (read_from_block_spec s b0 (start_offset c) (start_size c) Hok Hw ltac:(lia) Hm ltac:(rewrite C2; apply Z.mod_pos_bound; lia) ltac:(lia) ltac:(lia))
        as (s1 & E1 & H'). rewrite (bind_Ok_l _ _ _ E1). exists s1. rewrite add32_small, S4 by lia. split; [reflexivity|exact H']. }
  destruct H1 as (s1 & E1 & Hok1 & Hw1 & Hv1). rewrite (bind_Ok_l _ _ _ E1). cbn [mbind outcome_bind].
  destruct (read_full_spec s1 b1 (num_full_chunks c) Hok1 Hw1 Hm S3 C5 S8) as (s2 & E2 & Hok2 & Hw2 & Hv2).
  rewrite (bind_Ok_l _ _ _ E2). cbn [mbind outcome_bind].
  assert (H3 : exists s3, (if negb (end_size c =? 0) then read_from_block (b1 + num_full_chunks c) 0 (end_size c) s2
      else Ok ([], s2)) = Ok (map (view s2) (seqZ ((b1 + num_full_chunks c) * bs) (end_size c)), s3)
      /\ drive_ok s3 /\ writable s3 /\ same_view s2 s3).
  { destruct (Z.eqb_spec (end_size c) 0) as [->|H0]; cbn [negb].
    - exists s2. split; [reflexivity|]. split; [exact Hok2|]. split; [exact Hw2|]. intros a. reflexivity.
    - destruct (read_from_block_spec s2 (b1 + num_full_chunks c) 0 (end_size c) Hok2 Hw2 ltac:(lia) Hm ltac:(lia) ltac:(lia) ltac:(lia))
        as (s3 & E3 & H'). rewrite E3, Z.add_0_r. exists s3. split; [reflexivity|exact H']. }
  destruct H3 as (s3 & E3 & Hok3 & Hw3 & Hv3). rewrite (bind_Ok_l _ _ _ E3). exists s3.
  split; [|split; [exact Hok3|split; [exact Hw3|intros a; rewrite (Hv3 a), (Hv2 a); apply Hv1]]].
  do 2 f_equal. rewrite C3 at 1. rewrite !seqZ_app, !map_app by lia. rewrite <- app_assoc. f_equal.
  destruct (decide (0 < num_full_chunks c \/ 0 < end_size c)) as [Hre|Hre].
  - rewrite <- (S7 Hre). f_equal; [apply map_ext; exact Hv1|].
    replace (b * bs + offset + (start_size c + num_full_chunks c * bs)) with ((b1 + num_full_chunks c) * bs) by (rewrite Z.mul_add_distr_r, (S7 Hre); lia).
    apply map_ext. intros a. rewrite (Hv2 a). apply Hv1.
  - replace (num_full_chunks c) with 0 by lia. replace (end_size c) with 0 by lia. reflexivity.
Qed.

(** C22: reading through the cache returns the bytes of the drive, whether the blocks
    come from the cache, through it or directly from the driver, and a read changes no
    byte of the drive. *)
Theorem filesystem_read_from_disk_correct s b offset n : drive_ok s -> writable s -> cap mod R = 0 ->
  supports_byte_access s = false -> 0 <= b -> 0 <= offset -> 0 <= n < 2 ^ 32 -> b * bs + offset + n <= cap * bs ->
  exists s', filesystem_read_from_disk b offset n s = Ok (map (view s) (seqZ (b * bs + offset) n), s')
  /\ drive_ok s' /\ writable s' /\ same_view s s'.
Proof using Hk Hr HG Hcap. apply filesystem_read_from_disk_spec. Qed.

(** ** Writing past a cache without dirty entries *)
Definition all_clean (s : drive) : Prop := forall i c, dr_block_cache s !! i = Some c -> cb_dirty c = false.
Definition dropped (index n : Z) (s : drive) (c : cached_block) : cached_block :=
  if near index n s c then mk_cached (cb_index c) (cb_data c) (cb_dirty c) false else c.

Lemma dropped_valid index n s c : cb_valid (dropped index n s c) = true ->
  dropped index n s c = c /\ near index n s c = false.
Proof using. unfold dropped. destruct (near index n s c); [discriminate|auto]. Qed.

Lemma drop_lookup index n s d i c' : dr_block_cache (set_disk d (block_invalidate index n s)) !! i = Some c' ->
  exists c, dr_block_cache s !! i = Some c /\ c' = dropped index n s c.
Proof using.
  cbn [set_disk block_invalidate set_cache dr_block_cache]. rewrite list_lookup_fmap.
  destruct (dr_block_cache s !! i) as [c|]; [|discriminate]. intros [= <-]. eauto.
Qed.

Lemma dropped_shape index n s d : shape s -> all_clean s -> shape (set_disk d (block_invalidate index n s)).
Proof using.
  intros [S1 S2 S3 S4 S5 S6 S7] Hcl. constructor; cbn [set_disk block_invalidate set_cache dr_block_size
    dr_blocksz_log2 dr_blocks_per_cache dr_block_cache dr_last_index]; rewrite ?length_fmap; try assumption.
  - intros i c' Hi. apply (drop_lookup index n s d) in Hi as (c & Hi & ->). destruct (S6 i c Hi) as [I1 I2 I3].
    unfold dropped. destruct (near index n s c); [|exact (S6 i c Hi)].
    constructor; cbn; [exact I1|discriminate|rewrite (Hcl i c Hi); discriminate].
  - intros i j ci cj Hi Hj Vi Vj Hx. apply (drop_lookup index n s d) in Hi as (c & Hi & ->), Hj as (c2 & Hj & ->).
    destruct (dropped_valid _ _ _ _ Vi) as [Ei _], (dropped_valid _ _ _ _ Vj) as [Ej _]. rewrite Ei in *. rewrite Ej in *.
    exact (S7 i j c c2 Hi Hj Vi Vj Hx).
Qed.

Lemma direct_write_spec s b n buf : drive_ok s -> all_clean s -> drv_write_blocks (D := D) <> None ->
  0 <= b -> 0 <= n -> b + n <= cap -> Z.of_nat (length buf) = n * bs ->
  exists s', write_blocks b buf n (block_invalidate b n s) = Ok s' /\ drive_ok s'
  /\ stored_at (b * bs) buf (view s) (view s').
Proof using Hk Hr HG Hcap.
  intros Hok Hcl Hw Hb Hn Hc Hl. pose proof (proj1 Hok) as Hs. destruct sizes as (Hbs & HR & HE & _).
  unfold write_blocks. destruct drv_write_blocks as [f|] eqn:Ef; [|contradiction Hw; reflexivity].
  eexists. split; [reflexivity|]. cbn [block_invalidate set_cache dr_disk].
  set (d := f (dr_disk s) b buf n). pose proof (dropped_shape b n s d Hs Hcl) as Hsh.
  assert (Hdisk : forall a, disk_byte d a = if (b * bs <=? a) && (a <? (b + n) * bs) then byte_at buf (a - b * bs)
      else disk_byte (dr_disk s) a) by (intros a; exact (drv_write_law f (dr_disk s) b buf n a Ef Hb Hn Hc Hl)).
  assert (Hrange : forall a, (b * bs <=? a) && (a <? (b + n) * bs) = true -> b * bs <= a < (b + n) * bs)
    by (intros a Ha; apply andb_true_iff in Ha as [H1 H2]; lia).
  (* an entry that survives holds none of the written bytes *)
  assert (Hfar : forall i c a, dr_block_cache s !! i = Some c -> cb_valid c = true -> near b n s c = false ->
      a / G * R = cb_index c -> (b * bs <=? a) && (a <? (b + n) * bs) = false).
  { intros i c a Hi Hv Hnr Hx. destruct (_ && _) eqn:Ha; [|reflexivity].
    rewrite (near_covers s c a b n Hs (sh_items s Hs i c Hi) Hv Hx Hb Hn Hc (Hrange a Ha)) in Hnr. discriminate Hnr. }
  split; [split; [exact Hsh|]|].
  - intros i c' Hi. apply (drop_lookup b n s d) in Hi as (c & Hi & ->). intros Hv Hd l j Hdl Hj.
    destruct (dropped_valid _ _ _ _ Hv) as [E Hnr]. rewrite E in *. cbn [set_disk dr_disk].
    destruct (it_valid _ (sh_items s Hs i c Hi) Hv) as [_ (q & Eq & Hq & _)].
    rewrite Hdisk, (Hfar i c _ Hi Hv Hnr); [exact (proj2 Hok i c Hi Hv Hd l j Hdl Hj)|].
    rewrite Eq. f_equal. symmetry. apply (Z.div_unique_pos _ _ _ j); nia.
  - intros a. replace (b * bs + Z.of_nat (length buf)) with ((b + n) * bs) by lia.
    destruct (cached_or_missing (set_disk d (block_invalidate b n s)) (a / G * R)) as [(i & c' & Hi & Hv & Hx)|Hmiss].
    + pose proof Hi as Hi'. apply (drop_lookup b n s d) in Hi' as (c & Hci & ->).
      destruct (dropped_valid _ _ _ _ Hv) as [E Hnr]. rewrite E in *.
      destruct (it_valid _ (sh_items s Hs i c Hci) Hv) as [[l Hdl] _].
      rewrite (Hfar i c a Hci Hv Hnr (eq_sym Hx)), (view_hit _ i c l a Hsh Hi Hv Hx Hdl).
      symmetry. exact (view_hit s i c l a Hs Hci Hv Hx Hdl).
    + rewrite (view_miss _ a Hmiss). cbn [set_disk dr_disk]. rewrite Hdisk. destruct (_ && _); [reflexivity|].
      destruct (cached_or_missing s (a / G * R)) as [(i & c & Hi & Hv & Hx)|Hm2]; [|symmetry; exact (view_miss s a Hm2)].
      destruct (it_valid _ (sh_items s Hs i c Hi) Hv) as [[l Hdl] _].
      rewrite (view_hit s i c l a Hs Hi Hv Hx Hdl).
      rewrite (proj2 Hok i c Hi Hv (Hcl i c Hi) l (a mod G) Hdl) by (apply Z.mod_pos_bound; nia).
      rewrite Hx. f_equal. pose proof (Z.div_mod a G ltac:(nia)). nia.
Qed.

Lemma write_full_spec s b n buf : drive_ok s -> writable s -> cap mod R = 0 -> drv_write_blocks (D := D) <> None ->
  needs_buffer (D := D) = true \/ n <= 1 \/ all_clean s ->
  0 <= b -> 0 <= n -> (0 < n -> b + n <= cap) -> n * bs <= Z.of_nat (length buf) < 2 ^ 32 ->
  exists s', write_full b buf n s = Ok (b + n, drop (Z.to_nat (n * bs)) buf, s')
  /\ drive_ok s' /\ writable s' /\ stored_at (b * bs) (take (Z.to_nat (n * bs)) buf) (view s) (view s').
Proof using Hk Hr HG Hcap.
  intros Hok Hw Hm Hwr Hsafe Hb Hn Hc Hl. destruct sizes as (Hbs & HR & HE & _ & Hk32). unfold write_full.
  destruct (Z.eqb_spec n 0) as [->|Hn0].
  { exists s. rewrite Z.add_0_r. split; [reflexivity|]. split; [exact Hok|]. split; [exact Hw|].
    apply stored_at_nil. intros a. reflexivity. }
  specialize (Hc ltac:(lia)). destruct (negb needs_buffer && (1 <? n)) eqn:Hd.
  - apply andb_true_iff in Hd as [Hd1 Hd2]. apply negb_true_iff in Hd1. apply Z.ltb_lt in Hd2.
    destruct Hsafe as [Hs|[Hs|Hs]]; [congruence|lia|]. cbv zeta. unfold split_at, blocks_to_bytes.
    cbn [block_invalidate set_cache dr_blocksz_log2]. rewrite (sh_log2 s (proj1 Hok)).
    unfold shl32. rewrite Z.shiftl_mul_pow2, u32_small by (unfold is_u32; lia).
    destruct (direct_write_spec s b n (take (Z.to_nat (n * bs)) buf) Hok Hs Hwr Hb Hn Hc ltac:(rewrite length_take; lia))
      as (s' & E & Hok' & Hst). rewrite (bind_Ok_l _ _ _ E), add32_small by lia.
    exists s'. split; [reflexivity|]. split; [exact Hok'|]. split; [left; exact Hwr|exact Hst].
  - destruct (write_block_loop_spec (Z.to_nat n) s b buf Hok Hw Hm Hwr Hb ltac:(lia) ltac:(lia)) as (s' & E & H').
    rewrite Z2Nat.id in E, H' by lia. exists s'. split; [exact E|exact H'].
Qed.

(** When a write reaches the drive as it should: the driver has its own buffers, or at
    most one whole block is written, or the cache holds nothing dirty and the write
    starts with a whole block. *)
Definition write_safe (s : drive) (c : fs_chunks) : Prop :=
  needs_buffer (D := D) = true \/ num_full_chunks c <= 1 \/ (start_size c = 0 /\ all_clean s).

Lemma filesystem_write_to_disk_spec s b offset buf : drive_ok s -> writable s -> cap mod R = 0 ->
  drv_write_blocks (D := D) <> None -> supports_byte_access s = false ->
  write_safe s (filesystem_chunkify offset (Z.of_nat (length buf)) (sub32 bs 1) k) ->
  0 <= b -> 0 <= offset -> Z.of_nat (length buf) < 2 ^ 32 -> b * bs + offset + Z.of_nat (length buf) <= cap * bs ->
  exists s', filesystem_write_to_disk b offset buf s = Ok s' /\ drive_ok s' /\ writable s'
  /\ stored_at (b * bs + offset) buf (view s) (view s').
Proof using Hk Hr HG Hcap.
  intros Hok Hw Hm Hwr Hba Hsafe Hb Ho Hn Hc. destruct sizes as (Hbs & HR & HE & _).
  set (len := Z.of_nat (length buf)) in *.
  unfold filesystem_write_to_disk. unfold read_only. destruct drv_write_blocks as [f|] eqn:Ef; [|contradiction Hwr; reflexivity].
  cbn [negb k_assert mbind outcome_bind]. rewrite Hba, (sh_bs s (proj1 Hok)), (sh_log2 s (proj1 Hok)). fold len.
  pose proof (disk_chunks offset len Ho ltac:(lia) ltac:(nia)) as Hck. set (c := filesystem_chunkify _ _ _ _) in *. clearbody c.
  destruct (split_ok b offset len c Hck Hb Ho ltac:(lia) Hc) as (S1 & S2 & S3 & S4 & S5 & S6 & S7 & S8 & S9).
  pose proof Hck as [C1 C2 C3 C4 C5 C6 C7]. cbv zeta. rewrite (add32_small b (start_chunk c)) by lia.
  set (b0 := b + start_chunk c) in *. set (b1 := if start_size c =? 0 then b0 else b0 + 1) in *.
  assert (Hwr' : drv_write_blocks (D := D) <> None) by (rewrite Ef; discriminate).
  set (n0 := Z.to_nat (start_size c)).
  assert (H1 : exists s1, (if negb (start_size c =? 0) then
        let '(now, rest) := split_at (start_size c) buf in
        s ← write_to_block b0 (start_offset c) now s; Ok (add32 b0 1, rest, s)
      else Ok (b0, buf, s)) = Ok (b1, drop n0 buf, s1)
      /\ drive_ok s1 /\ writable s1 /\ stored_at (b * bs + offset) (take n0 buf) (view s) (view s1)
      /\ (start_size c = 0 -> s1 = s)).
  { subst b1 n0. destruct (Z.eqb_spec (start_size c) 0) as [->|H0]; cbn [negb].
    - exists s. split; [reflexivity|]. split; [exact Hok|]. split; [exact Hw|]. split; [|reflexivity].
      apply stored_at_nil. intros a. reflexivity.
    - unfold split_at. assert (Hlt : Z.of_nat (length (take (Z.to_nat (start_size c)) buf)) = start_size c)
        by (rewrite length_take; lia).
      destruct (write_to_block_spec s b0 (start_offset c) (take (Z.to_nat (start_size c)) buf) Hok Hw ltac:(lia) Hm Hwr'
        ltac:(rewrite C2; apply Z.mod_pos_bound; lia) ltac:(lia)) as (s1 & E1 & Hok1 & Hw1 & Hst1).
      rewrite (bind_Ok_l _ _ _ E1), add32_small by lia. exists s1. rewrite <- S4. split; [reflexivity|].
      split; [exact Hok1|]. split; [exact Hw1|]. split; [exact Hst1|]. intros E0. contradiction (H0 E0). }
  destruct H1 as (s1 & E1 & Hok1 & Hw1 & Hst1 & Hs1). rewrite (bind_Ok_l _ _ _ E1). cbn [mbind outcome_bind].
  assert (Hsafe1 : needs_buffer (D := D) = true \/ num_full_chunks c <= 1 \/ all_clean s1).
  { destruct Hsafe as [Hs|[Hs|[Hs Hcl]]]; [left; exact Hs|right; left; exact Hs|right; right].
    rewrite (Hs1 Hs). exact Hcl. }
  destruct (write_full_spec s1 b1 (num_full_chunks c) (drop n0 buf) Hok1 Hw1 Hm Hwr' Hsafe1 S3 C5 S8
    ltac:(rewrite length_drop; lia)) as (s2 & E2 & Hok2 & Hw2 & Hst2).
  rewrite (bind_Ok_l _ _ _ E2). cbn [mbind outcome_bind]. set (n1 := Z.to_nat (num_full_chunks c * bs)) in *.
  assert (Hlen1 : Z.of_nat (length (take n0 buf)) = start_size c) by (rewrite length_take; lia).
  assert (Hlen2 : Z.of_nat (length (take n1 (drop n0 buf))) = num_full_chunks c * bs) by (rewrite length_take, length_drop; lia).
  assert (Hlen3 : Z.of_nat (length (drop n1 (drop n0 buf))) = end_size c) by (rewrite !length_drop; lia).
  assert (Hst12 : stored_at (b * bs + offset) (take n0 buf ++ take n1 (drop n0 buf)) (view s) (view s2)).
  { destruct (decide (0 < num_full_chunks c \/ 0 < end_size c)) as [Hre|Hre].
    - apply (stored_at_app _ _ _ _ (view s1) _ Hst1). rewrite Hlen1, <- (S7 Hre). exact Hst2.
    - assert (Hz : take n1 (drop n0 buf) = []) by (apply nil_length_inv; lia). rewrite Hz in *. rewrite app_nil_r.
      intros a. rewrite (Hst2 a). cbn [length].
      rewrite (proj2 (andb_false_iff (b1 * bs <=? a) (a <? b1 * bs + Z.of_nat 0))); [apply Hst1|].
      destruct (Z.leb_spec (b1 * bs) a), (Z.ltb_spec a (b1 * bs + Z.of_nat 0)); auto; lia. }
  destruct (Z.eqb_spec (end_size c) 0) as [He|He]; cbn [negb].
  - exists s2. split; [reflexivity|]. split; [exact Hok2|]. split; [exact Hw2|].
    assert (Hz : drop n1 (drop n0 buf) = []) by (apply nil_length_inv; lia).
    rewrite <- (take_drop n0 buf), <- (take_drop n1 (drop n0 buf)), Hz, app_nil_r. exact Hst12.
  - rewrite (take_ge (drop n1 (drop n0 buf))) by lia.
    destruct (write_to_block_spec s2 (b1 + num_full_chunks c) 0 (drop n1 (drop n0 buf)) Hok2 Hw2 ltac:(lia) Hm Hwr'
      ltac:(lia) ltac:(lia)) as (s3 & E3 & Hok3 & Hw3 & Hst3).
    exists s3. split; [exact E3|]. split; [exact Hok3|]. split; [exact Hw3|].
    rewrite <- (take_drop n0 buf), <- (take_drop n1 (drop n0 buf)) at 1. rewrite app_assoc.
    apply (stored_at_app _ _ _ _ (view s2) _ Hst12). rewrite length_app, Nat2Z.inj_add, Hlen1, Hlen2.
    rewrite Z.add_0_r in Hst3. replace (b * bs + offset + (start_size c + num_full_chunks c * bs))
      with ((b1 + num_full_chunks c) * bs) by (rewrite Z.mul_add_distr_r, S7 by lia; lia). exact Hst3.
Qed.

(** writing through the cache stores exactly the bytes of the buffer at their
    place on the drive, provided the whole blocks do not bypass dirty entries. *)
Theorem filesystem_write_to_disk_correct s b offset buf : drive_ok s -> writable s -> cap mod R = 0 ->
  drv_write_blocks (D := D) <> None -> supports_byte_access s = false ->
  write_safe s (filesystem_chunkify offset (Z.of_nat (length buf)) (sub32 bs 1) k) ->
  0 <= b -> 0 <= offset -> Z.of_nat (length buf) < 2 ^ 32 -> b * bs + offset + Z.of_nat (length buf) <= cap * bs ->
  exists s', filesystem_write_to_disk b offset buf s = Ok s' /\ drive_ok s' /\ writable s'
  /\ stored_at (b * bs + offset) buf (view s) (view s').
Proof using Hk Hr HG Hcap. apply filesystem_write_to_disk_spec. Qed.
End drive.

(** ** A new drive *)
Lemma countr_zero_pow2 k : 0 <= k -> countr_zero (2 ^ k) = k.
Proof.
  intros Hk. pattern k. apply natlike_ind; [reflexivity| |exact Hk]. intros x Hx IH.
  rewrite Z.pow_succ_r by lia. destruct (2 ^ x) as [|p|p] eqn:E.
  - pose proof (Z.pow_pos_nonneg 2 x ltac:(lia) Hx). lia.
  - change (countr_zero_pos p = x) in IH. change (countr_zero_pos p + 1 = Z.succ x). lia.
  - pose proof (Z.pow_pos_nonneg 2 x ltac:(lia) Hx). lia.
Qed.

Lemma calc_block_ratio_pow2 k : 0 <= k ->
  calc_block_ratio (2 ^ k) default_cache_size = Ok (2 ^ (if k <=? 10 then 10 - k else 0)).
Proof.
  intros Hk. unfold calc_block_ratio. rewrite has_single_bit_pow2 by lia. cbn [k_assert mbind outcome_bind].
  change default_cache_size with (2 ^ 10). rewrite has_single_bit_pow2 by lia. cbn [mbind outcome_bind]. f_equal.
  assert (0 < 2 ^ k) by (apply Z.pow_pos_nonneg; lia). destruct (Z.leb_spec k 10) as [Hle|Hgt].
  - assert (Hp : 2 ^ 10 = 2 ^ (10 - k) * 2 ^ k) by (rewrite <- Z.pow_add_r by lia; f_equal; lia).
    assert (2 ^ k <= 2 ^ 10) by (apply Z.pow_le_mono_r; lia).
    rewrite (proj2 (Z.ltb_ge _ _)) by lia. remember (2 ^ 10) as c eqn:Ec. rewrite Hp, Z_mod_mult, Z.div_mul by lia.
    reflexivity.
  - rewrite (proj2 (Z.ltb_lt _ _)) by (apply Z.pow_lt_mono_r; lia). reflexivity.
Qed.

Lemma filesystem_drive_init_ok {D} `{HD : disk_driver D} k cap (HL : disk_driver_laws D (2 ^ k) cap) disk index junk :
  0 <= k -> length junk = 8%nat ->
  let r := if k <=? 10 then 10 - k else 0 in
  exists s, filesystem_drive_init disk (2 ^ k) cap index junk = Ok s
  /\ drive_ok k r cap s /\ writable s /\ forall a, view k r cap s a = disk_byte disk a.
Proof.
  intros Hk Hj r. unfold filesystem_drive_init. rewrite (bind_Ok_l _ _ _ (calc_block_ratio_pow2 k Hk)).
  eexists. split; [reflexivity|].
  assert (Hinv : forall i c, map (fun i => mk_cached i None false false) junk !! i = Some c ->
      cb_valid c = false /\ cb_dirty c = false /\ cb_data c = None).
  { intros i c Hi. apply list_lookup_fmap_Some in Hi as (x & -> & _). auto. }
  split; [split|split].
  - constructor; cbn; rewrite ?length_fmap; try reflexivity; try (rewrite Hj; lia).
    + apply countr_zero_pow2. exact Hk.
    + intros i c Hi. destruct (Hinv i c Hi) as (H1 & H2 & H3).
      constructor; [rewrite H3; discriminate|rewrite H1; discriminate|rewrite H2; discriminate].
    + intros i j ci cj Hi _ Hv _ _. rewrite (proj1 (Hinv i ci Hi)) in Hv. discriminate Hv.
  - intros i c Hi Hv. rewrite (proj1 (Hinv i c Hi)) in Hv. discriminate Hv.
  - right. intros i c Hi. exact (proj1 (proj2 (Hinv i c Hi))).
  - intros a. apply view_miss. intros i c Hi. unfold in_group. rewrite (proj1 (Hinv i c Hi)). apply andb_false_r.
Qed.

(** ** A driver of plain memory *)
Definition mem_driver (bs : Z) (buffered : bool) : disk_driver (Z -> Z) := {|
  drv_read_blocks d lba n := map d (seqZ (lba * bs) (n * bs));
  drv_write_blocks := Some (fun d lba buf n a =>
    if (lba * bs <=? a) && (a <? (lba + n) * bs) then byte_at buf (a - lba * bs) else d a);
  drv_has_buffers := buffered;
  drv_allocate n := Some (replicate (Z.to_nat n) 0) |}.

#[program] Definition mem_laws (bs cap : Z) (buffered : bool)
  : @disk_driver_laws (Z -> Z) (mem_driver bs buffered) bs cap := {| disk_byte d a := d a |}.
Next Obligation. reflexivity. Qed.
Next Obligation. intros bs cap b f d lba buf n a Hf. injection Hf as <-. reflexivity. Qed.
Next Obligation. intros bs cap b n Hn. eexists. split; [reflexivity|]. rewrite length_replicate. lia. Qed.

Definition disk0 (a : Z) : Z := a mod 251.
Definition drive0 (buffered : bool) : filesystem_drive (Z -> Z) :=
  match @filesystem_drive_init (Z -> Z) disk0 512 16 0 (repeat 0 8) with
  | Ok s => s
  | Fault _ => mk_drive disk0 [] 0 0 0 0 0 0
  end.

Lemma drive0_ok buffered : let _ := mem_driver 512 buffered in let _ := mem_laws (2 ^ 9) 16 buffered in
  @drive_ok _ (mem_driver 512 buffered) 9 1 16 (mem_laws (2 ^ 9) 16 buffered) (drive0 buffered)
  /\ @writable _ (mem_driver 512 buffered) (drive0 buffered).
Proof.
  destruct (@filesystem_drive_init_ok _ (mem_driver 512 buffered) 9 16 (mem_laws (2 ^ 9) 16 buffered) disk0 0 (repeat 0 8)
    ltac:(lia) eq_refl) as (s & E & Hok & Hw & _).
  change (2 ^ 9) with 512 in E. unfold drive0. rewrite E. split; [exact Hok|exact Hw].
Qed.

Lemma filesystem_read_from_disk_correct_witness :
  exists s', @filesystem_read_from_disk _ (mem_driver 512 true) 1 100 1000 (drive0 true)
    = Ok (map (@view _ _ 9 1 16 (mem_laws (2 ^ 9) 16 true) (drive0 true)) (seqZ 612 1000), s').
Proof.
  destruct (drive0_ok true) as [Hok Hw].
  destruct (@filesystem_read_from_disk_correct _ (mem_driver 512 true) 9 1 16 (mem_laws (2 ^ 9) 16 true)
    ltac:(lia) ltac:(lia) ltac:(lia) ltac:(lia) (drive0 true) 1 100 1000 Hok Hw eq_refl eq_refl
    ltac:(lia) ltac:(lia) ltac:(lia) ltac:(lia)) as (s' & E & _).
  exists s'. exact E.
Defined.

Lemma filesystem_write_to_disk_correct_witness :
  exists s', @filesystem_write_to_disk _ (mem_driver 512 true) 1 100 (repeat 7 1000) (drive0 true) = Ok s'
  /\ @view _ _ 9 1 16 (mem_laws (2 ^ 9) 16 true) s' 1611 = 7.
Proof.
  destruct (drive0_ok true) as [Hok Hw].
  destruct (@filesystem_write_to_disk_correct _ (mem_driver 512 true) 9 1 16 (mem_laws (2 ^ 9) 16 true)
    ltac:(lia) ltac:(lia) ltac:(lia) ltac:(lia) (drive0 true) 1 100 (repeat 7 1000) Hok Hw eq_refl
    ltac:(discriminate) eq_refl (or_introl eq_refl) ltac:(lia) ltac:(lia)) as (s' & E & _ & _ & Hst).
  - rewrite repeat_length. lia.
  - rewrite repeat_length. lia.
  - exists s'. split; [exact E|]. refine (eq_trans (Hst 1611) _). vm_compute. reflexivity.
Defined.

(** Without buffers of its own, a driver gets the whole blocks of a write directly, and
    [block_invalidate] drops the cached first part of the same write: byte 100 keeps
    its old value, bytes further on are written. *)
Example direct_write_loses :
  let _ := mem_driver 512 false in
  (s ← filesystem_write_to_disk 0 100 (repeat 7 1500) (drive0 false);
   '(l, s) ← filesystem_read_from_disk 0 100 2 s;
   '(l', s) ← filesystem_read_from_disk 0 600 2 s;
   Ok (l, l')) = Ok ([100; 101], [7; 7]).
Proof. vm_compute. reflexivity. Qed.
