(* ===== verification/Vfs.v ===== *)
(** * Files, drivers and drives (kernel/filesystem.h, fs_driver.h, filesystem/drives.cpp)

    A string is the list of its bytes.  The state of the machine behind the drivers is
    a parameter [S].  A table of function pointers is a record of operations; an entry
    the code tests for null is an [option]. *)
From S2P Require Import Prelude.

Definition IS_DIR : Z := 0x01.
Definition IS_READONLY : Z := 0x02.
Definition FILE_READ : Z := 0x01.
Definition FILE_WRITE : Z := 0x02.
Definition FILE_CREATE : Z := 0x08.

(** [fs_fmt_data] is opaque to the file system layer; the FAT driver keeps the
    directory of the file and its flags in it. *)
Record fs_fmt_data := mk_fmt { fmt_parent_dir : Z; fmt_dir_flags : Z }.
Record file_data_block := mk_fdb {
  location_on_disk : Z; disk_id : Z; file_size : Z; file_flags : Z; format_data : fs_fmt_data }.
Record file_handle := mk_handle {
  dir_path : option (list Z); fh_name : list Z; fh_data : file_data_block;
  time_created : Z; time_modified : Z }.
Record directory_stream := mk_dir { full_path : list Z; dir_data : file_data_block; file_list : list file_handle }.

#[export] Instance fs_fmt_data_eq_dec : EqDecision fs_fmt_data.
Proof. solve_decision. Defined.
#[export] Instance file_data_block_eq_dec : EqDecision file_data_block.
Proof. solve_decision. Defined.
#[export] Instance file_handle_eq_dec : EqDecision file_handle.
Proof. solve_decision. Defined.

Inductive mount_status := MOUNT_SUCCESS | UNKNOWN_FILESYSTEM | MOUNT_FAILURE | DRIVE_NOT_SUPPORTED.
#[export] Instance mount_status_eq_dec : EqDecision mount_status.
Proof. solve_decision. Defined.

(** [struct filesystem_driver]: every function gets the drive it works on, by the
    number of the drive. *)
Record filesystem_driver (S : Type) := mk_driver {
  drv_mount_disk : Z -> S -> outcome (mount_status * file_handle * S);
  drv_read_chunks : Z -> Z -> Z -> file_data_block -> Z -> S -> outcome (list Z * S);
  drv_write_chunks : option (list Z -> Z -> Z -> file_data_block -> Z -> S -> outcome S);
  drv_allocate_chunks : Z -> Z -> file_data_block -> Z -> S -> outcome (Z * S);
  drv_read_dir : directory_stream -> file_data_block -> Z -> S -> outcome (directory_stream * S);
  drv_flush_file : option (file_data_block -> Z -> S -> outcome S);
  drv_create_file : option (list Z -> Z -> directory_stream -> Z -> S -> outcome (directory_stream * S));
  drv_delete_file : option (file_data_block -> Z -> S -> outcome (Z * S)) }.
Arguments mk_driver {S}. Arguments drv_mount_disk {S}. Arguments drv_read_chunks {S}.
Arguments drv_write_chunks {S}. Arguments drv_allocate_chunks {S}. Arguments drv_read_dir {S}.
Arguments drv_flush_file {S}. Arguments drv_create_file {S}. Arguments drv_delete_file {S}.

(** [struct filesystem_virtual_drive]; [disk] is the number of the physical drive. *)
Record virtual_drive (S : Type) := mk_vdrive {
  vd_disk : Z; vd_disk_read_only : bool; vd_driver : option (filesystem_driver S); vd_id : Z; vd_first_block : Z; vd_num_blocks : Z;
  vd_root_dir : option file_handle; vd_mounted : bool; vd_read_only : bool }.
Arguments mk_vdrive {S}. Arguments vd_disk {S}. Arguments vd_disk_read_only {S}. Arguments vd_driver {S}. Arguments vd_id {S}.
Arguments vd_first_block {S}. Arguments vd_num_blocks {S}. Arguments vd_root_dir {S}.
Arguments vd_mounted {S}. Arguments vd_read_only {S}.

(** The globals of drives.cpp: the drives, the drivers, and for each physical drive the
    virtual drives on it. *)
Record registry (S : Type) := mk_reg {
  r_virtual_drives : list (virtual_drive S); r_fs_drivers : list (filesystem_driver S);
  r_drives : list (Z * bool); r_partition_map : list (list Z); r_store : S }.
Arguments mk_reg {S}. Arguments r_virtual_drives {S}. Arguments r_fs_drivers {S}. Arguments r_drives {S}.
Arguments r_partition_map {S}. Arguments r_store {S}.

Section registry.
Context {S : Type}.
Notation reg := (registry S).

Definition set_vdrives (l : list (virtual_drive S)) (g : reg) : reg :=
  mk_reg l (r_fs_drivers g) (r_drives g) (r_partition_map g) (r_store g).
Definition set_store (s : S) (g : reg) : reg :=
  mk_reg (r_virtual_drives g) (r_fs_drivers g) (r_drives g) (r_partition_map g) s.
Definition set_pmap (m : list (list Z)) (g : reg) : reg :=
  mk_reg (r_virtual_drives g) (r_fs_drivers g) (r_drives g) m (r_store g).

Definition filesystem_get_num_drives (g : reg) : Z := Z.of_nat (length (r_virtual_drives g)).

(** The asserted drive and its driver. *)
Definition filesystem_get_drive (index : Z) (g : reg) : outcome (virtual_drive S * filesystem_driver S) :=
  _ ← k_assert (index <? filesystem_get_num_drives g);
  d ← fetch (r_virtual_drives g) index;
  _ ← k_assert (vd_mounted d);
  match vd_driver d with Some f => Ok (d, f) | None => Fault AssertFailed end.

Definition mounted_on (d : virtual_drive S) (f : filesystem_driver S) (root : file_handle) (ro : bool) : virtual_drive S :=
  mk_vdrive (vd_disk d) (vd_disk_read_only d) (Some f) (vd_id d) (vd_first_block d) (vd_num_blocks d) (Some root) true ro.

(** [for(auto& driver : fs_drivers)]: the first driver that knows the file system. *)
Fixpoint mount_loop (drivers : list (filesystem_driver S)) (d : virtual_drive S) (s : S)
  : outcome (virtual_drive S * S) :=
  match drivers with
  | [] => Ok (d, s)
  | f :: drivers =>
    '(st, root, s) ← drv_mount_disk f (vd_id d) s;
    match st with
    | UNKNOWN_FILESYSTEM | DRIVE_NOT_SUPPORTED => mount_loop drivers d s
    | MOUNT_SUCCESS =>
      Ok (mounted_on d f root (match drv_write_chunks f with None => true | Some _ => vd_disk_read_only d end), s)
    | MOUNT_FAILURE =>
      Ok (mk_vdrive (vd_disk d) (vd_disk_read_only d) (Some f) (vd_id d) (vd_first_block d) (vd_num_blocks d)
            (vd_root_dir d) (vd_mounted d) (vd_read_only d), s)
    end
  end.

(** A drive whose mount failed keeps its driver; the next attempt takes the status
    word itself as the truth value, and 0 is success. *)
Definition filesystem_mount_drive (index : Z) (g : reg) : outcome (bool * reg) :=
  d ← fetch (r_virtual_drives g) index;
  if vd_mounted d then Ok (true, g) else
  '(d, s) ← match vd_driver d with
    | None => mount_loop (r_fs_drivers g) d (r_store g)
    | Some f =>
      '(st, root, s) ← drv_mount_disk f (vd_id d) (r_store g);
      let m := negb (bool_decide (st = MOUNT_SUCCESS)) in
      Ok (mk_vdrive (vd_disk d) (vd_disk_read_only d) (Some f) (vd_id d) (vd_first_block d) (vd_num_blocks d)
            (match st with MOUNT_SUCCESS => Some root | _ => vd_root_dir d end) m (vd_read_only d), s)
    end;
  l ← store (r_virtual_drives g) index d;
  Ok (vd_mounted d, set_store s (set_vdrives l g)).

Definition filesystem_get_root_directory (drive_number : Z) (g : reg) : outcome (option file_handle * reg) :=
  _ ← k_assert (drive_number <? filesystem_get_num_drives g);
  '(m, g) ← filesystem_mount_drive drive_number g;
  if m : bool then d ← fetch (r_virtual_drives g) drive_number; Ok (vd_root_dir d, g)
  else Ok (None, g).

Definition syscall_get_root_directory (drive_number : Z) (g : reg) : outcome (option file_handle * reg) :=
  if filesystem_get_num_drives g <=? drive_number then Ok (None, g)
  else filesystem_get_root_directory drive_number g.

Definition filesystem_add_driver (f : filesystem_driver S) (g : reg) : reg :=
  mk_reg (r_virtual_drives g) (r_fs_drivers g ++ [f]) (r_drives g) (r_partition_map g) (r_store g).

Definition filesystem_add_virtual_drive (disk begin size : Z) (g : reg) : outcome reg :=
  let index := filesystem_get_num_drives g in
  dr ← fetch (r_drives g) disk;
  let d := mk_vdrive disk dr.2 None index begin size None false false in
  let g := set_vdrives (r_virtual_drives g ++ [d]) g in
  _ ← k_assert (disk <? Z.of_nat (length (r_partition_map g)));
  parts ← fetch (r_partition_map g) disk;
  m ← store (r_partition_map g) disk (parts ++ [index]);
  Ok (set_pmap m g).

(** A partitioner looks for a partition table on the drive, below a partition already
    known when there is one, and adds virtual drives; 0 means that it found one.  The
    partitioners are registered function pointers and arguments here. *)
Definition partition_func : Type := Z -> option Z -> reg -> outcome (Z * reg).

Fixpoint partition_loop (ps : list partition_func) (drive : Z) (base : option Z) (g : reg) : outcome (bool * reg) :=
  match ps with
  | [] => Ok (false, g)
  | p :: ps =>
    '(r, g) ← p drive base g;
    if r =? 0 then Ok (true, g) else partition_loop ps drive base g
  end.

Definition filesystem_read_drive_partitions (ps : list partition_func) (drive : Z) (base : option Z) (g : reg)
  : outcome reg :=
  _ ← match base with
      | None => Ok tt
      | Some b => d ← fetch (r_virtual_drives g) b; _ ← k_assert (vd_disk d =? drive); k_assert (negb (vd_mounted d))
      end;
  '(found, g) ← partition_loop ps drive base g;
  if found : bool then Ok g else
  match base with
  | None => dr ← fetch (r_drives g) drive; filesystem_add_virtual_drive drive 0 dr.1 g
  | Some _ => Ok g
  end.

(** [filesystem_add_drive]: [num_blocks] and whether the driver can write. *)
Definition filesystem_add_drive (ps : list partition_func) (num_blocks : Z) (ro : bool) (g : reg) : outcome (Z * reg) :=
  let index := Z.of_nat (length (r_drives g)) in
  let g := mk_reg (r_virtual_drives g) (r_fs_drivers g) (r_drives g ++ [(num_blocks, ro)])
             (r_partition_map g ++ [[]]) (r_store g) in
  g ← filesystem_read_drive_partitions ps index None g;
  Ok (index, g).

(** [filesystem_add_partitioner]: every drive that has at most one, unmounted,
    partition is looked at again. *)
Fixpoint add_partitioner_loop (ps : list partition_func) (drives : list Z) (g : reg) : outcome reg :=
  match drives with
  | [] => Ok g
  | drive :: drives =>
    parts ← fetch (r_partition_map g) drive;
    g ← match parts with
        | _ :: _ :: _ => Ok g
        | [p] => d ← fetch (r_virtual_drives g) p;
                 if vd_mounted d then Ok g else filesystem_read_drive_partitions ps drive (Some p) g
        | [] => filesystem_read_drive_partitions ps drive None g
        end;
    add_partitioner_loop ps drives g
  end.
Definition filesystem_add_partitioner (ps : list partition_func) (p : partition_func) (g : reg)
  : outcome (list partition_func * reg) :=
  let ps := ps ++ [p] in
  g ← add_partitioner_loop ps (map Z.of_nat (seq 0 (length (r_drives g)))) g;
  Ok (ps, g).

End registry.
