(* ===== verification/Streams.v ===== *)
(** * File streams (kernel/filesystem/streams.cpp)

    A stream is a copy of the file's data block and a flag; positions are 64-bit
    [file_size_t], lengths 32-bit [size_t].  The driver's functions are those of the
    drive the file is on. *)
From S2P Require Import Prelude Vfs.

Record file_stream := mk_stream { st_file : file_data_block; st_modified : bool }.

Definition filesystem_create_stream (f : file_data_block) : file_stream := mk_stream f false.

Definition set_size (n : Z) (f : file_data_block) : file_data_block :=
  mk_fdb (location_on_disk f) (disk_id f) n (file_flags f) (format_data f).
Definition set_flags (n : Z) (f : file_data_block) : file_data_block :=
  mk_fdb (location_on_disk f) (disk_id f) (file_size f) n (format_data f).

(** [read_only] is the flag of the drive [filesystem_get_drive] returns. *)
Definition filesystem_open_file_handle (read_only : Z -> outcome bool) (f : file_handle) (mode : Z)
  : outcome (option file_stream) :=
  let data := fh_data f in
  let open_data (data : file_data_block) : outcome (option file_stream) :=
    if has (file_flags data) IS_DIR then Ok None else Ok (Some (filesystem_create_stream data)) in
  if has mode FILE_WRITE then
    if has (file_flags data) IS_READONLY then Ok None else
    ro ← read_only (disk_id data);
    if ro : bool then Ok None else open_data data
  else open_data (set_flags (Z.lor (file_flags data) IS_READONLY) data).
Definition syscall_open_file_handle (read_only : Z -> outcome bool) (f : option file_handle) (mode : Z)
  : outcome (option file_stream) :=
  match f with None => Ok None | Some f => filesystem_open_file_handle read_only f mode end.

(** The stream operations over any way to find the driver of a drive. *)
Section streams.
Context {S : Type} (get_drive : Z -> S -> outcome (bool * filesystem_driver S)).

Definition filesystem_close_file (st : option file_stream) (s : S) : outcome (Z * S) :=
  match st with
  | None => Ok (-1, s)
  | Some st =>
    if st_modified st then
      _ ← k_assert (negb (has (file_flags (st_file st)) IS_READONLY));
      '(_, drv) ← get_drive (disk_id (st_file st)) s;
      match drv_flush_file drv with
      | None => Fault AssertFailed
      | Some flush => s ← flush (st_file st) (disk_id (st_file st)) s; Ok (0, s)
      end
    else Ok (0, s)
  end.

(** The result, and the bytes the driver put into the caller's buffer, which can be
    fewer: what it returns is not looked at. *)
Definition filesystem_read_file (offset len : Z) (st : file_stream) (s : S) : outcome (Z * list Z * S) :=
  let f := st_file st in
  let eof := negb (has (file_flags f) IS_DIR) && (file_size f <=? offset) in
  if eof then Ok (0, [], s) else
  let len := if negb (has (file_flags f) IS_DIR) && (file_size f <? u64 (offset + len))
             then u32 (u64 (file_size f - offset)) else len in
  '(_, drv) ← get_drive (disk_id f) s;
  '(l, s) ← drv_read_chunks drv (location_on_disk f) offset len f (disk_id f) s;
  Ok (len, l, s).

Definition filesystem_allocate_space (st : file_stream) (location requested_size : Z) (s : S)
  : outcome (file_stream * S) :=
  let f := st_file st in
  '(_, drv) ← get_drive (disk_id f) s;
  '(allocated_size, s) ← drv_allocate_chunks drv location (u32 requested_size) f (disk_id f) s;
  Ok (mk_stream (set_size (Z.min allocated_size requested_size) f) (st_modified st), s).

Definition filesystem_write_file (offset : Z) (buf : list Z) (st : file_stream) (s : S)
  : outcome (Z * file_stream * S) :=
  let len := Z.of_nat (length buf) in
  _ ← k_assert (negb (has (file_flags (st_file st)) IS_READONLY));
  '(_, drv) ← get_drive (disk_id (st_file st)) s;
  match drv_write_chunks drv with
  | None => Fault AssertFailed
  | Some write_chunks =>
    '(len, st, s) ←
      (if negb (has (file_flags (st_file st)) IS_DIR) && (file_size (st_file st) <=? u64 (offset + len)) then
         '(st, s) ← filesystem_allocate_space st (location_on_disk (st_file st)) (u64 (offset + len)) s;
         Ok (u32 (u64 (file_size (st_file st) - offset)), st, s)
       else Ok (len, st, s));
    if Z.of_nat (length buf) <? len then Fault OutOfBounds else
    s ← write_chunks (take (Z.to_nat len) buf) (location_on_disk (st_file st)) offset (st_file st) (disk_id (st_file st)) s;
    Ok (len, mk_stream (st_file st) true, s)
  end.

Definition syscall_read_file (offset len : Z) (st : option file_stream) (s : S) : outcome (Z * list Z * S) :=
  match st with None => Ok (0, [], s) | Some st => filesystem_read_file offset len st s end.
Definition syscall_write_file (offset : Z) (buf : list Z) (st : option file_stream) (s : S)
  : outcome (Z * option file_stream * S) :=
  match st with
  | None => Ok (0, None, s)
  | Some st =>
    if has (file_flags (st_file st)) IS_READONLY then Ok (0, Some st, s)
    else '(n, st, s) ← filesystem_write_file offset buf st s; Ok (n, Some st, s)
  end.
Definition syscall_close_file (st : option file_stream) (s : S) : outcome (Z * S) :=
  match st with
  | None => Ok (-1, s)
  | Some _ => '(_, s) ← filesystem_close_file st s; Ok (0, s)
  end.

End streams.
