(* ===== verification/Directory.v ===== *)
(** * Directories and paths (kernel/filesystem/directory.cpp, api/files.h)

    A path is a [string_view]: the list of its bytes. *)
From S2P Require Import Prelude Ctype Vfs Streams.

Definition slash : Z := 47.
Definition colon : Z := 58.

(** A [char] is signed: a byte above 0x7F indexes the character table below zero. *)
Definition char_upper (c : Z) : outcome Z := toupper (s8 c).

Fixpoint equal_upper (a b : list Z) : outcome bool :=
  match a, b with
  | x :: a, y :: b =>
    u ← char_upper x; v ← char_upper y;
    if u =? v then equal_upper a b else Ok false
  | _, _ => Ok true
  end.
Definition filesystem_names_identical (a b : list Z) : outcome bool :=
  if negb (Nat.eqb (length a) (length b)) then Ok false else equal_upper a b.

(** [find_first_not_of(c)] with the [substr] from there, [find(c)]. *)
Fixpoint drop_leading (c : Z) (p : list Z) : list Z :=
  match p with x :: p' => if x =? c then drop_leading c p' else p | [] => [] end.
Fixpoint split_first (c : Z) (p : list Z) : option (list Z * list Z) :=
  match p with
  | [] => None
  | x :: p => if x =? c then Some ([], p)
              else match split_first c p with Some (a, b) => Some (x :: a, b) | None => None end
  end.
(** [find_last_of(c)]: what is before it. *)
Fixpoint before_last (c : Z) (p : list Z) : option (list Z) :=
  match p with
  | [] => None
  | x :: p => match before_last c p with
              | Some a => Some (x :: a)
              | None => if x =? c then Some [] else None
              end
  end.

Definition filesystem_create_path (dir name : list Z) : list Z :=
  if bool_decide (name = [46]) then dir
  else if bool_decide (name = [46; 46]) then
    match before_last slash dir with Some a => a | None => dir end
  else dir ++ [slash] ++ name.

(** [std::from_chars] in base 10: none is [invalid_argument]; a value that does not fit
    leaves the variable (0) as it was and reports another error. *)
Fixpoint digits_value (p : list Z) (v : Z) : Z :=
  match p with
  | x :: p => if (48 <=? x) && (x <=? 57) then digits_value p (v * 10 + (x - 48)) else v
  | [] => v
  end.
Definition from_chars (p : list Z) : option Z :=
  match p with
  | x :: _ => if (48 <=? x) && (x <=? 57) then
                let v := digits_value p 0 in Some (if v <? 2 ^ 32 then v else 0)
              else None
  | [] => None
  end.

(** [std::find_if] with [filesystem_names_identical]. *)
Fixpoint find_file (l : list file_handle) (fname : list Z) : outcome (option file_handle) :=
  match l with
  | [] => Ok None
  | a :: l => b ← filesystem_names_identical (fh_name a) fname;
              if b : bool then Ok (Some a) else find_file l fname
  end.

Section directory.
Context {S : Type}.
Notation reg := (registry S).

Definition drive_read_only (g : reg) (disk : Z) : outcome bool :=
  '(d, _) ← filesystem_get_drive disk g; Ok (vd_read_only d).

(** Run an operation of a driver on the store of the registry. *)
Definition with_store {A} (g : reg) (m : S -> outcome (A * S)) : outcome (A * reg) :=
  '(a, s) ← m (r_store g); Ok (a, set_store s g).

Definition filesystem_open_directory_handle (f : file_handle) (g : reg) : outcome (option directory_stream * reg) :=
  if negb (has (file_flags (fh_data f)) IS_DIR) then Ok (None, g) else
  let path := match dir_path f with Some p => filesystem_create_path p (fh_name f) | None => fh_name f end in
  let d := mk_dir path (fh_data f) [] in
  '(_, drv) ← filesystem_get_drive (disk_id (dir_data d)) g;
  '(d, g) ← with_store g (drv_read_dir drv d (dir_data d) (disk_id (dir_data d)));
  Ok (Some d, g).

Definition filesystem_create_file (d : directory_stream) (fname : list Z) (flags : Z) (g : reg)
  : outcome (option file_handle * directory_stream * reg) :=
  '(drive, drv) ← filesystem_get_drive (disk_id (dir_data d)) g;
  if has (file_flags (dir_data d)) IS_READONLY || vd_read_only drive then Ok (None, d, g) else
  match drv_create_file drv with
  | None => Fault AssertFailed
  | Some create =>
    '(d, g) ← with_store g (create fname (u32 flags) d (disk_id (dir_data d)));
    match last (file_list d) with
    | Some h => Ok (Some h, d, g)
    | None => Fault OutOfBounds
    end
  end.

(** [do_find_file_by_path]; [rec] is [find_file_by_path] on the directory that was
    opened.  The directory stream that was passed in may get a new entry. *)
Definition do_find_file_by_path
    (rec : option directory_stream -> list Z -> Z -> Z -> reg -> outcome (option file_handle * reg))
    (d : directory_stream) (path : list Z) (mode flags : Z) (g : reg)
  : outcome (option file_handle * directory_stream * reg) :=
  let path := drop_leading slash path in
  match path with
  | [] => Ok (None, d, g)
  | _ =>
    match split_first slash path with
    | Some (name, remaining_path) =>
      it ← find_file (file_list d) name;
      match it with
      | Some it =>
        if has (file_flags (fh_data it)) IS_DIR then
          match remaining_path with
          | [] => Ok (Some it, d, g)
          | _ =>
            '(dir, g) ← filesystem_open_directory_handle it g;
            match dir with
            | Some dir => '(r, g) ← rec (Some dir) remaining_path mode flags g; Ok (r, d, g)
            | None => Ok (None, d, g)
            end
          end
        else Ok (None, d, g)
      | None => Ok (None, d, g)
      end
    | None =>
      it ← find_file (file_list d) path;
      match it with
      | Some it => Ok (Some it, d, g)
      | None => if has mode FILE_CREATE then filesystem_create_file d path flags g else Ok (None, d, g)
      end
    end
  end.

(** [find_file_by_path], with the directory it was given (or the one it opened on the
    named drive) as it is left. *)
Fixpoint find_file_by_path (fuel : nat) (d : option directory_stream) (path : list Z) (mode flags : Z) (g : reg)
  : outcome (option file_handle * option directory_stream * reg) :=
  match fuel with
  | O => Fault OutOfFuel
  | Datatypes.S fuel =>
    let rec d path mode flags g := '(r, _, g) ← find_file_by_path fuel d path mode flags g; Ok (r, g) in
    let relative (g : reg) :=
      match d with
      | None => Ok (None, d, g)
      | Some dir => '(r, dir, g) ← do_find_file_by_path rec dir path mode flags g; Ok (r, Some dir, g)
      end in
    match split_first colon path with
    | None => relative g
    | Some (_, after) =>
      match from_chars path with
      | None => Ok (None, d, g)
      | Some drive =>
        if filesystem_get_num_drives g <=? drive then Ok (None, d, g) else
        '(r_dir, g) ← filesystem_get_root_directory drive g;
        match r_dir with
        | None => relative g
        | Some r_dir =>
          match drop_leading slash after with
          | [] => Ok (Some r_dir, d, g)
          | _ =>
            '(ds, g) ← filesystem_open_directory_handle r_dir g;
            match ds with
            | None => Fault AssertFailed
            | Some ds => '(r, _, g) ← do_find_file_by_path rec ds after mode flags g; Ok (r, d, g)
            end
          end
        end
      end
    end
  end.

Definition find_path (d : option directory_stream) (path : list Z) (mode flags : Z) (g : reg) :=
  find_file_by_path (Datatypes.S (length path)) d path mode flags g.

Definition filesystem_open_directory (rel : option directory_stream) (path : list Z) (mode : Z) (g : reg)
  : outcome (option directory_stream * reg) :=
  '(f, _, g) ← find_path rel path mode IS_DIR g;
  match f with Some f => filesystem_open_directory_handle f g | None => Ok (None, g) end.

Definition filesystem_open_file (rel : option directory_stream) (path : list Z) (mode : Z) (g : reg)
  : outcome (option file_stream * reg) :=
  '(f, _, g) ← find_path rel path mode 0 g;
  match f with
  | Some f => st ← filesystem_open_file_handle (drive_read_only g) f mode; Ok (st, g)
  | None => Ok (None, g)
  end.

Definition filesystem_delete_file (f : file_handle) (g : reg) : outcome (Z * reg) :=
  '(drive, drv) ← filesystem_get_drive (disk_id (fh_data f)) g;
  if vd_read_only drive then Ok (-1, g) else
  let delete (g : reg) :=
    match drv_delete_file drv with
    | None => Fault AssertFailed
    | Some del => with_store g (del (fh_data f) (disk_id (fh_data f)))
    end in
  if has (file_flags (fh_data f)) IS_DIR then
    '(dir, g) ← filesystem_open_directory_handle f g;
    match dir with
    | None => Fault AssertFailed
    | Some dir =>
      if 2 <? Z.of_nat (length (file_list dir)) then Ok (-1, g)
      else if existsb (fun h => negb (bool_decide (fh_name h = [46])) && negb (bool_decide (fh_name h = [46; 46])))
                (file_list dir) then Ok (-1, g)
      else delete g
    end
  else delete g.

Definition MAX_PATH : Z := 255.
Record file_info := mk_info {
  fi_size : Z; fi_flags : Z; fi_created : Z; fi_modified : Z; fi_full_path_len : Z; fi_full_path : list Z }.

(** The path with its terminator is copied into [MAX_PATH] bytes. *)
Definition filesystem_get_file_info (src : file_handle) : outcome (Z * file_info) :=
  _ ← k_assert (Z.of_nat (length (fh_name src)) <? MAX_PATH);
  let full := match dir_path src with Some p => p ++ [slash] ++ fh_name src | None => fh_name src end in
  if MAX_PATH <? Z.of_nat (length full) + 1 then Fault OutOfBounds else
  Ok (0, mk_info (file_size (fh_data src)) (file_flags (fh_data src)) (time_created src) (time_modified src)
           (Z.of_nat (length full)) full).

Definition syscall_get_file_info (src : option file_handle) : outcome (Z * option file_info) :=
  match src with
  | None => Ok (-1, None)
  | Some src => '(r, i) ← filesystem_get_file_info src; Ok (r, Some i)
  end.
Definition syscall_open_directory_handle (f : option file_handle) (g : reg) : outcome (option directory_stream * reg) :=
  match f with None => Ok (None, g) | Some f => filesystem_open_directory_handle f g end.
Definition syscall_get_file_in_dir (d : option directory_stream) (index : Z) : option file_handle :=
  match d with
  | Some d => if index <? Z.of_nat (length (file_list d)) then file_list d !! Z.to_nat index else None
  | None => None
  end.
Definition syscall_find_file_by_path (d : option directory_stream) (name : option (list Z)) (mode flags : Z) (g : reg)
  : outcome (option file_handle * reg) :=
  match name with
  | None => Ok (None, g)
  | Some name => '(r, _, g) ← find_path d name mode flags g; Ok (r, g)
  end.
Definition syscall_delete_file (f : option file_handle) (g : reg) : outcome (Z * reg) :=
  match f with None => Ok (-1, g) | Some f => filesystem_delete_file f g end.
Definition syscall_open_file (rel : option directory_stream) (path : option (list Z)) (mode : Z) (g : reg)
  : outcome (option file_stream * reg) :=
  match path with None => Ok (None, g) | Some p => filesystem_open_file rel p mode g end.

End directory.
