(* ===== verification/DirectoryProofs.v ===== *)
(** * What a path names

    A path without a drive prefix is a walk through directory listings: the names are
    separated by any positive number of slashes and may follow leading ones, and they
    are compared without regard to case. *)
From S2P Require Import Prelude Ctype Vfs Streams Directory.

Definition ascii (s : list Z) : Prop := Forall (fun c => 0 <= c < 128) s.
Definition same_name (a b : list Z) : bool := bool_decide (map ascii_upper a = map ascii_upper b).

Lemma char_upper_ascii c : 0 <= c < 128 -> char_upper c = Ok (ascii_upper c).
Proof. intros Hc. unfold char_upper, s8. rewrite swrap_small by lia. exact (toupper_spec c Hc). Qed.

Lemma equal_upper_spec a : forall b, ascii a -> ascii b -> length a = length b ->
  equal_upper a b = Ok (same_name a b).
Proof.
  induction a as [|x a IH]; intros [|y b] Ha Hb Hl; try discriminate Hl; [reflexivity|].
  inversion Ha as [|x' a' Hx Ha']; inversion Hb as [|y' b' Hy Hb']; subst. cbn [equal_upper].
  rewrite (bind_Ok_l _ _ _ (char_upper_ascii x Hx)), (bind_Ok_l _ _ _ (char_upper_ascii y Hy)).
  injection Hl as Hl. unfold same_name in *. cbn [map]. destruct (Z.eqb_spec (ascii_upper x) (ascii_upper y)) as [E|E].
  - rewrite (IH b Ha' Hb' Hl), E. f_equal. apply bool_decide_ext. split; [intros ->; reflexivity|intros [= H]; exact H].
  - rewrite bool_decide_eq_false_2; [reflexivity|]. intros [= H]. contradiction.
Qed.

Lemma filesystem_names_identical_spec a b : ascii a -> ascii b ->
  filesystem_names_identical a b = Ok (same_name a b).
Proof.
  intros Ha Hb. unfold filesystem_names_identical. destruct (Nat.eqb_spec (length a) (length b)) as [E|E]; cbn [negb].
  - exact (equal_upper_spec a b Ha Hb E).
  - unfold same_name. rewrite bool_decide_eq_false_2; [reflexivity|]. intros H. apply E.
    rewrite <- (length_map ascii_upper a), <- (length_map ascii_upper b), H. reflexivity.
Qed.

Definition lookup_name (l : list file_handle) (n : list Z) : option file_handle :=
  List.find (fun h => same_name (fh_name h) n) l.

Lemma find_file_spec l n : Forall (fun h => ascii (fh_name h)) l -> ascii n -> find_file l n = Ok (lookup_name l n).
Proof.
  intros Hl Hn. induction Hl as [|h l Hh Hl IH]; [reflexivity|]. cbn [find_file lookup_name List.find].
  rewrite (bind_Ok_l _ _ _ (filesystem_names_identical_spec _ _ Hh Hn)). destruct (same_name _ _); [reflexivity|exact IH].
Qed.

(** ** Paths as names with slashes in front *)
Definition component_ok (n : list Z) : Prop := n <> [] /\ ascii n /\ slash ∉ n /\ colon ∉ n.
Fixpoint path_of (cs : list (nat * list Z)) : list Z :=
  match cs with [] => [] | (k, n) :: cs => replicate k slash ++ n ++ path_of cs end.
(** Every name but the first has a slash in front. *)
Definition separated (cs : list (nat * list Z)) : Prop :=
  Forall (fun c => component_ok (snd c)) cs /\ Forall (fun c => (0 < fst c)%nat) (tl cs).

Fixpoint walk (listing : file_data_block -> list file_handle) (l : list file_handle) (names : list (list Z))
  : option file_handle :=
  match names with
  | [] => None
  | [n] => lookup_name l n
  | n :: names =>
    match lookup_name l n with
    | Some it => if has (file_flags (fh_data it)) IS_DIR then walk listing (listing (fh_data it)) names else None
    | None => None
    end
  end.

(** The directory the last name is looked up in. *)
Fixpoint walk_parent (listing : file_data_block -> list file_handle) (dir : file_data_block) (l : list file_handle)
  (names : list (list Z)) : option (file_data_block * list file_handle) :=
  match names with
  | [] => None
  | [n] => Some (dir, l)
  | n :: names =>
    match lookup_name l n with
    | Some it => if has (file_flags (fh_data it)) IS_DIR then walk_parent listing (fh_data it) (listing (fh_data it)) names else None
    | None => None
    end
  end.

(** Where a path that names nothing has its last name created, when that is asked for. *)
Definition create_in (listing : file_data_block -> list file_handle) (d : directory_stream) (names : list (list Z)) (mode : Z)
  : option (file_data_block * list file_handle) :=
  if has mode FILE_CREATE then
    match walk listing (file_list d) names with
    | Some _ => None
    | None => walk_parent listing (dir_data d) (file_list d) names
    end
  else None.

Lemma drop_leading_slashes k p : (forall x p', p = x :: p' -> x <> slash) -> drop_leading slash (replicate k slash ++ p) = p.
Proof.
  intros Hp. induction k as [|k IH]; [|exact IH]. cbn [replicate app]. destruct p as [|x p]; [reflexivity|].
  cbn [drop_leading]. rewrite (proj2 (Z.eqb_neq x slash)) by exact (Hp x p eq_refl). reflexivity.
Qed.

Lemma split_first_app c a p : c ∉ a -> split_first c (a ++ c :: p) = Some (a, p).
Proof.
  induction a as [|x a IH]; intros Hc; cbn [app split_first].
  - rewrite Z.eqb_refl. reflexivity.
  - apply not_elem_of_cons in Hc as [Hx Ha]. rewrite (proj2 (Z.eqb_neq x c)), (IH Ha) by congruence. reflexivity.
Qed.

Lemma split_first_none c a : c ∉ a -> split_first c a = None.
Proof.
  induction a as [|x a IH]; intros Hc; cbn [split_first]; [reflexivity|].
  apply not_elem_of_cons in Hc as [Hx Ha]. rewrite (proj2 (Z.eqb_neq x c)), (IH Ha) by congruence. reflexivity.
Qed.

Lemma path_no_colon cs : Forall (fun c => component_ok (snd c)) cs -> colon ∉ path_of cs.
Proof.
  induction cs as [|[k n] cs IH]; intros H; [apply not_elem_of_nil|]. inversion H as [|x l (_ & _ & _ & Hn) Hcs]; subst.
  cbn [path_of]. rewrite !not_elem_of_app. split; [|split; [exact Hn|exact (IH Hcs)]].
  intros Hin. apply elem_of_replicate in Hin as [E _]. discriminate E.
Qed.

Lemma component_head n p : component_ok n -> forall x p', n ++ p = x :: p' -> x <> slash.
Proof.
  intros (Hne & _ & Hs & _) x p' E ->. destruct n as [|y n]; [contradiction|]. injection E as -> _.
  apply Hs, list_elem_of_here.
Qed.

Lemma separated_head k k' n cs : Forall (fun c => component_ok (snd c)) ((k', n) :: cs) ->
  Forall (fun c : nat * list Z => component_ok (snd c)) ((k, n) :: cs).
Proof. intros H. constructor; [exact (Forall_inv H)|exact (Forall_inv_tail H)]. Qed.

(** An entry of a directory on drive [home]. *)
Definition entry_ok (home : Z) (h : file_handle) : Prop := ascii (fh_name h) /\ disk_id (fh_data h) = home.

Section walk.
Context {S : Type} (P : registry S -> Prop) (home : Z) (listing : file_data_block -> list file_handle).

(** What a tree of directories is to the code: opening a directory succeeds, lists it,
    and leaves the tree as it was; all names are ASCII. *)
Record tree_view : Prop := {
  tv_open g f : P g -> has (file_flags (fh_data f)) IS_DIR = true -> disk_id (fh_data f) = home ->
    exists path g', filesystem_open_directory_handle f g = Ok (Some (mk_dir path (fh_data f) (listing (fh_data f))), g') /\ P g';
  tv_entries f : Forall (entry_ok home) (listing f) }.
Context (Htree : tree_view).

Lemma entries_ascii l : Forall (entry_ok home) l -> Forall (fun h => ascii (fh_name h)) l.
Proof using. intros H. apply (Forall_impl _ _ _ H). intros h [Ha _]. exact Ha. Qed.
Lemma lookup_home l n h : Forall (entry_ok home) l -> lookup_name l n = Some h -> disk_id (fh_data h) = home.
Proof using.
  intros Hl Hf. apply find_some in Hf as [Hin _]. rewrite Forall_forall in Hl.
  apply Hl, list_elem_of_In. exact Hin.
Qed.

(** What finding a path comes to: the entry reached, or the creation of the last name in
    the directory the others lead to; the stream that was given gets the new entry when
    the path is a single name. *)
Definition found (d : directory_stream) (names : list (list Z)) (mode flags : Z)
    (r : outcome (option file_handle * option directory_stream * registry S)) : Prop :=
  match create_in listing d names mode with
  | None => exists g', r = Ok (walk listing (file_list d) names, Some d, g') /\ P g'
  | Some (dir, l) => exists path g1, P g1 /\
      let p := match names with [_] => d | _ => mk_dir path dir l end in
      r = '(h, p', g') ← filesystem_create_file p (List.last names []) flags g1;
          Ok (h, Some (match names with [_] => p' | _ => d end), g')
  end.

(** A walk through a directory is a walk from that directory. *)
Lemma found_deeper d n n2 names it path mode flags r r' :
  lookup_name (file_list d) n = Some it -> has (file_flags (fh_data it)) IS_DIR = true ->
  r' = ('(h, g) ← ('(h, _, g) ← r; Ok (h, g)); Ok (h, Some d, g)) ->
  found (mk_dir path (fh_data it) (listing (fh_data it))) (n2 :: names) mode flags r -> found d (n :: n2 :: names) mode flags r'.
Proof using.
  intros Hl Hd -> H. unfold found, create_in in *.
  assert (Ew : walk listing (file_list d) (n :: n2 :: names) = walk listing (listing (fh_data it)) (n2 :: names)
    /\ walk_parent listing (dir_data d) (file_list d) (n :: n2 :: names) = walk_parent listing (fh_data it) (listing (fh_data it)) (n2 :: names)).
  { remember (n2 :: names) as l eqn:E. cbn [walk walk_parent]. rewrite Hl, Hd, E. split; reflexivity. }
  destruct Ew as [Ew Ep]. rewrite Ew, Ep. change (List.last (n :: n2 :: names) []) with (List.last (n2 :: names) []).
  cbn [dir_data file_list] in H. set (w := walk listing _ (n2 :: names)) in *. set (wp := walk_parent listing _ _ _) in *. clear Ep.
  destruct (if has mode FILE_CREATE then match w with Some _ => None | None => wp end else None) as [[dir l]|] eqn:E.
  - destruct H as (path1 & g1 & HP & ->). cbv zeta.
    exists (match names with [] => path | _ => path1 end), g1. split; [exact HP|].
    assert (Eq : match n2 :: names with [_] => mk_dir path (fh_data it) (listing (fh_data it)) | _ => mk_dir path1 dir l end
      = mk_dir (match names with [] => path | _ => path1 end) dir l).
    { destruct names; [|reflexivity]. unfold wp in E. cbn [walk_parent] in E. destruct (has mode FILE_CREATE), w; try discriminate E.
      injection E as -> ->. reflexivity. }
    rewrite Eq. destruct (filesystem_create_file _ _ flags g1) as [[[h p'] g']|]; reflexivity.
  - destruct H as (g' & -> & HP). exists g'. split; [reflexivity|exact HP].
Qed.

(** A walk that stops before the last name creates nothing. *)
Lemma found_stuck d n n2 names mode flags g : P g ->
  (forall it, lookup_name (file_list d) n = Some it -> has (file_flags (fh_data it)) IS_DIR = false) ->
  found d (n :: n2 :: names) mode flags (Ok (None, Some d, g)).
Proof using.
  intros HP H. unfold found, create_in. cbn [walk walk_parent]. destruct (lookup_name (file_list d) n) as [it|].
  - rewrite (H it eq_refl). destruct (has mode FILE_CREATE); exists g; (split; [reflexivity|exact HP]).
  - destruct (has mode FILE_CREATE); exists g; (split; [reflexivity|exact HP]).
Qed.

Lemma found_here d n mode flags g : P g ->
  found d [n] mode flags
    ('(r, dir, g) ← match lookup_name (file_list d) n with
       | Some it => Ok (Some it, d, g)
       | None => if has mode FILE_CREATE then filesystem_create_file d n flags g else Ok (None, d, g) end; Ok (r, Some dir, g)).
Proof using.
  intros HP. unfold found, create_in. cbn [walk walk_parent List.last]. destruct (lookup_name (file_list d) n) as [it|].
  - destruct (has mode FILE_CREATE); exists g; (split; [reflexivity|exact HP]).
  - destruct (has mode FILE_CREATE).
    + exists [], g. split; [exact HP|]. reflexivity.
    + exists g. split; [reflexivity|exact HP].
Qed.

Lemma walk_path cs : forall k n fuel d g mode flags, separated ((k, n) :: cs) -> P g ->
  Forall (entry_ok home) (file_list d) -> (length cs < fuel)%nat ->
  found d (map snd ((k, n) :: cs)) mode flags (find_file_by_path fuel (Some d) (path_of ((k, n) :: cs)) mode flags g).
Proof using Htree.
  induction cs as [|[k2 n2] cs IH]; intros k n fuel d g mode flags [Hc Hsep] HP Hd Hf;
    (destruct fuel as [|fuel]; [cbn in Hf; lia|]); cbn [find_file_by_path];
    rewrite (split_first_none colon _ (path_no_colon _ Hc)); unfold do_find_file_by_path;
    pose proof (Forall_inv Hc) as Hn; cbn [snd] in Hn; pose proof Hn as (Hn0 & Hna & Hns & _); cbn [path_of];
    rewrite drop_leading_slashes by (exact (component_head n _ Hn)).
  - assert (En : exists y ys, n = y :: ys) by (destruct n; [contradiction|eexists _, _; reflexivity]).
    rewrite app_nil_r. destruct En as (y & ys & Ey). rewrite Ey, <- Ey.
    rewrite (split_first_none slash n Hns), (bind_Ok_l _ _ _ (find_file_spec _ _ (entries_ascii _ Hd) Hna)).
    exact (found_here d n mode flags g HP).
  - cbn [tl] in Hsep. pose proof (Forall_inv Hsep) as Hk2. cbn [fst] in Hk2. destruct k2 as [|k2]; [lia|].
    change (replicate (Datatypes.S k2) slash ++ n2 ++ path_of cs) with (slash :: path_of ((k2, n2) :: cs)).
    assert (Epath : exists y ys, n ++ slash :: path_of ((k2, n2) :: cs) = y :: ys)
      by (destruct n; [contradiction|eexists _, _; reflexivity]).
    destruct Epath as (y & ys & Ey). rewrite Ey, <- Ey.
    rewrite (split_first_app slash n _ Hns), (bind_Ok_l _ _ _ (find_file_spec _ _ (entries_ascii _ Hd) Hna)).
    cbn [map snd]. destruct (lookup_name (file_list d) n) as [it|] eqn:Hlook.
    2: { apply (found_stuck d n n2 (map snd cs) mode flags g HP). intros it E. congruence. }
    destruct (has (file_flags (fh_data it)) IS_DIR) eqn:Hdir.
    2: { apply (found_stuck d n n2 (map snd cs) mode flags g HP). intros it' E. congruence. }
    destruct (tv_open Htree g it HP Hdir (lookup_home _ _ _ Hd Hlook)) as (path & g1 & E1 & HP1).
    assert (Erem : exists z zs, path_of ((k2, n2) :: cs) = z :: zs).
    { cbn [path_of]. destruct (Forall_inv (Forall_inv_tail Hc)) as (Hn2 & _). cbn [snd] in Hn2.
      destruct k2; [destruct n2; [contradiction|]|]; eexists _, _; reflexivity. }
    destruct Erem as (z & zs & Ez). rewrite Ez, <- Ez, (bind_Ok_l _ _ _ E1). cbn [mbind outcome_bind].
    set (d1 := mk_dir path (fh_data it) (listing (fh_data it))) in *.
    assert (H2 : found d1 (map snd ((k2, n2) :: cs)) mode flags (find_file_by_path fuel (Some d1) (path_of ((k2, n2) :: cs)) mode flags g1)).
    { apply IH; [split; [exact (separated_head k2 _ n2 cs (Forall_inv_tail Hc))|exact (Forall_inv_tail Hsep)]
      |exact HP1|exact (tv_entries Htree _)|cbn in Hf; lia]. }
    refine (found_deeper d n n2 (map snd cs) it path mode flags _ _ Hlook Hdir _ H2).
    destruct (find_file_by_path fuel _ _ mode flags g1) as [[[h p'] g']|]; reflexivity.
Qed.

Lemma path_length cs k n : Forall (fun c => component_ok (snd c)) ((k, n) :: cs) ->
  (length cs < Datatypes.S (length (path_of ((k, n) :: cs))))%nat.
Proof using.
  revert k n. induction cs as [|[k2 n2] cs IH]; intros k n H; [cbn; lia|].
  specialize (IH k2 n2 (Forall_inv_tail H)). cbn [path_of] in *. rewrite !length_app in *.
  destruct (Forall_inv H) as (Hn & _). cbn [snd] in Hn. destruct n as [|x n]; [contradiction|]. cbn [length] in *. lia.
Qed.

End walk.

(** ** A tree of two directories *)
Definition file_b : file_handle := mk_handle None [98; 46; 116] (mk_fdb 7 0 100 0 (mk_fmt 0 0)) 0 0.
Definition dir_sub : file_handle := mk_handle None [83; 117; 98] (mk_fdb 5 0 0 IS_DIR (mk_fmt 0 0)) 0 0.
Definition tree_listing (f : file_data_block) : list file_handle :=
  if location_on_disk f =? 0 then [dir_sub] else [file_b].
Definition tree_driver : filesystem_driver unit := {|
  drv_mount_disk _ s := Ok (MOUNT_SUCCESS, dir_sub, s);
  drv_read_chunks _ _ _ _ _ s := Ok ([], s);
  drv_write_chunks := None;
  drv_allocate_chunks _ n _ _ s := Ok (n, s);
  drv_read_dir d f _ s := Ok (mk_dir (full_path d) (dir_data d) (tree_listing f), s);
  drv_flush_file := None; drv_create_file := None; drv_delete_file := None |}.
Definition tree_registry : registry unit :=
  mk_reg [mk_vdrive 0 true (Some tree_driver) 0 0 64 None true true] [tree_driver] [(64, true)] [[0]] tt.
Definition tree_root : directory_stream := mk_dir [48; 58] (mk_fdb 0 0 0 IS_DIR (mk_fmt 0 0)) [dir_sub].

Lemma tree_ok : tree_view (fun g => g = tree_registry) 0 tree_listing.
Proof.
  split.
  - intros g f -> Hd Hh. unfold filesystem_open_directory_handle. rewrite Hd. cbn [negb dir_data]. rewrite Hh.
    eexists _, _. split; reflexivity.
  - intros f. unfold tree_listing, entry_ok, ascii. case_match; repeat constructor; cbn; lia.
Qed.


(** A number that is too big for a drive names drive 0. *)
Example huge_drive_number : from_chars [57; 57; 57; 57; 57; 57; 57; 57; 57; 57; 57; 58] = Some 0.
Proof. reflexivity. Qed.

(** A drive whose mount failed counts as mounted when it is asked for again. *)
Example failed_mount_retried :
  let f := {| drv_mount_disk _ s := Ok (MOUNT_FAILURE, dir_sub, s); drv_read_chunks _ _ _ _ _ s := Ok ([], s);
    drv_write_chunks := None; drv_allocate_chunks _ n _ _ s := Ok (n, s); drv_read_dir d _ _ s := Ok (d, s);
    drv_flush_file := None; drv_create_file := None; drv_delete_file := None |} : filesystem_driver unit in
  let g := mk_reg [mk_vdrive 0 true None 0 0 64 None false false] [f] [(64, true)] [[0]] tt in
  ('(m1, g) ← filesystem_mount_drive 0 g; '(m2, g) ← filesystem_mount_drive 0 g; Ok (m1, m2)) = Ok (false, true).
Proof. reflexivity. Qed.

(** A name with a byte above 0x7F is looked up outside the character table. *)
Example non_ascii_name : filesystem_names_identical [0xC3; 0xA9] [0xC3; 0xA9] = Fault OutOfBounds.
Proof. reflexivity. Qed.

