(* ===== verification/BlockStore.v ===== *)
(** * The drive a file system is on (kernel/filesystem/fs_driver.h)

    [filesystem_read] and [filesystem_write] of a virtual drive are an interface the
    file system drivers are proved against: its laws say that the drive stores bytes.
    The block cache satisfies them (FatDisk.v), and so does plain memory, the concrete
    drive of the examples.  Multi-byte fields are little-endian. *)
From S2P Require Import Prelude FsUtil Drives DrivesProofs.

(** ** Little-endian fields *)
Fixpoint le_bytes (n : nat) (v : Z) : list Z :=
  match n with O => [] | S n => v mod 256 :: le_bytes n (v / 256) end.
Fixpoint le_value (l : list Z) : Z := match l with [] => 0 | b :: l => b + 256 * le_value l end.
Definition field_at (l : list Z) (off : Z) (n : nat) : Z := le_value (take n (drop (Z.to_nat off) l)).

(** ** The interface *)
Class block_store (S : Type) := {
  filesystem_read : Z -> Z -> Z -> S -> outcome (list Z * S);
  filesystem_write : Z -> Z -> list Z -> S -> outcome S }.

(** What the drive promises to a file system on it: [bs_view] is its contents. *)
Class block_store_laws (S : Type) `{block_store S} (bs cap : Z) := {
  bs_view : S -> Z -> Z;
  bs_ok : S -> Prop;
  bs_read_law s b off n : bs_ok s -> 0 <= b -> 0 <= off -> 0 <= n < 2 ^ 32 -> b * bs + off + n <= cap * bs ->
    exists s', filesystem_read b off n s = Ok (map (bs_view s) (seqZ (b * bs + off) n), s')
    /\ bs_ok s' /\ forall a, bs_view s' a = bs_view s a;
  bs_write_law s b off buf : bs_ok s -> 0 <= b -> 0 <= off -> Z.of_nat (length buf) < 2 ^ 32 ->
    b * bs + off + Z.of_nat (length buf) <= cap * bs ->
    exists s', filesystem_write b off buf s = Ok s' /\ bs_ok s' /\ stored_at (b * bs + off) buf (bs_view s) (bs_view s') }.

(** ** Bytes and what a write stores *)
Definition is_byte (b : Z) : Prop := 0 <= b < 256.

Lemma le_bytes_length n v : length (le_bytes n v) = n.
Proof. revert v. induction n as [|n IH]; intros v; [reflexivity|]. cbn [le_bytes length]. rewrite IH. reflexivity. Qed.

Lemma le_bytes_bytes n v : Forall is_byte (le_bytes n v).
Proof.
  revert v. induction n as [|n IH]; intros v; cbn [le_bytes]; constructor; [|apply IH].
  unfold is_byte. apply Z.mod_pos_bound. lia.
Qed.

Lemma le_value_bytes n v : 0 <= v < 256 ^ Z.of_nat n -> le_value (le_bytes n v) = v.
Proof.
  revert v. induction n as [|n IH]; intros v Hv; [cbn in *; lia|]. cbn [le_bytes le_value].
  rewrite Nat2Z.inj_succ, Z.pow_succ_r in Hv by lia. pose proof (Z.div_mod v 256 ltac:(lia)).
  rewrite IH by (split; [apply Z.div_pos; lia|apply Z.div_lt_upper_bound; lia]). lia.
Qed.

Lemma byte_at_byte l i : Forall is_byte l -> is_byte (byte_at l i).
Proof.
  intros Hl. unfold byte_at. destruct (i <? 0); [unfold is_byte; lia|]. rewrite nth_lookup.
  destruct (l !! Z.to_nat i) as [x|] eqn:E; [|cbn; unfold is_byte; lia]. rewrite Forall_lookup in Hl. exact (Hl _ _ E).
Qed.

Lemma stored_bytes a buf f f' : stored_at a buf f f' -> Forall is_byte buf -> (forall x, is_byte (f x)) -> forall x, is_byte (f' x).
Proof. intros Hst Hb Hf x. rewrite (Hst x). destruct (_ && _); [apply byte_at_byte; exact Hb|apply Hf]. Qed.

Lemma stored_same a buf f f' : stored_at a buf f f' -> map f' (seqZ a (Z.of_nat (length buf))) = buf.
Proof.
  intros Hst. rewrite map_seqZ_shift. symmetry. apply bytes_eq; [reflexivity|]. intros i Hi. rewrite (Hst (a + i)).
  rewrite (proj2 (Z.leb_le _ _)), (proj2 (Z.ltb_lt _ _)) by lia. cbn [andb]. f_equal. lia.
Qed.

Lemma stored_other a buf f f' x : stored_at a buf f f' -> x < a \/ a + Z.of_nat (length buf) <= x -> f' x = f x.
Proof. intros Hst Hx. rewrite (Hst x). destruct (Z.leb_spec a x), (Z.ltb_spec x (a + Z.of_nat (length buf))); try reflexivity; lia. Qed.

(** ** A file in chunks: [base k] is the byte address of its chunk [k] *)
Section chunked.
Context (cs : Z) (Hcs : 0 < cs) (base : Z -> Z).

Definition chunk_addr (i : Z) : Z := base (i / cs) + i mod cs.

Lemma chunk_addr_at k o : 0 <= o < cs -> chunk_addr (k * cs + o) = base k + o.
Proof using Hcs.
  intros Ho. unfold chunk_addr. rewrite (Z.add_comm (k * cs)), Z.div_add, Z.mod_add, Z.div_small, Z.mod_small by lia. reflexivity.
Qed.

Lemma chunk_part (f : Z -> Z) k o n : 0 <= o -> 0 <= n -> o + n <= cs ->
  map (fun i => f (chunk_addr i)) (seqZ (k * cs + o) n) = map f (seqZ (base k + o) n).
Proof using Hcs.
  intros Ho Hn Hle. rewrite (map_seqZ_shift (fun i => f (chunk_addr i))), (map_seqZ_shift f). apply list_fmap_ext.
  intros i x Hx. apply lookup_seqZ in Hx as [-> Hx]. rewrite <- Z.add_assoc, chunk_addr_at by lia. f_equal. lia.
Qed.

Lemma chunk_whole (f : Z -> Z) n : forall k,
  map (fun i => f (chunk_addr i)) (seqZ (k * cs) (Z.of_nat n * cs))
  = concat (map (fun j => map f (seqZ (base j) cs)) (seqZ k (Z.of_nat n))).
Proof using Hcs.
  induction n as [|n IH]; intros k; [reflexivity|].
  replace (Z.of_nat (Datatypes.S n) * cs) with (cs + Z.of_nat n * cs) by lia. rewrite seqZ_app, map_app by lia.
  rewrite (seqZ_cons k) by lia. cbn [map concat]. f_equal.
  - pose proof (chunk_part f k 0 cs ltac:(lia) ltac:(lia) ltac:(lia)) as E. rewrite !Z.add_0_r in E. exact E.
  - replace (k * cs + cs) with (Z.succ k * cs) by lia. rewrite IH. do 3 f_equal. lia.
Qed.

(** The first chunk behind the start of a transfer. *)
Definition first_full (c : fs_chunks) : Z := start_chunk c + if start_size c =? 0 then 0 else 1.

Lemma chunk_starts offset len c : chunks_ok offset len cs c -> 0 <= offset -> 0 < len ->
  offset = start_chunk c * cs + start_offset c /\
  (0 < num_full_chunks c \/ 0 < end_size c -> offset + start_size c = first_full c * cs) /\
  (0 < end_size c -> offset + start_size c + num_full_chunks c * cs = (first_full c + num_full_chunks c) * cs).
Proof using Hcs.
  intros [E1 E2 E3 E4 E5 E6 E7] Ho Hl. pose proof (Z.div_mod offset cs ltac:(lia)) as D. rewrite E1, E2 in *. unfold first_full. rewrite E1.
  assert (H : 0 < num_full_chunks c \/ 0 < end_size c ->
    offset + start_size c = (offset / cs + (if start_size c =? 0 then 0 else 1)) * cs).
  { intros Hc. specialize (E7 Hc). destruct (start_size c =? 0); lia. }
  split; [lia|]. split; [exact H|]. intros Hc. specialize (H (or_intror Hc)). lia.
Qed.

(** The bytes of a transfer, piece by piece. *)
Lemma transfer_map (f : Z -> Z) offset len c : chunks_ok offset len cs c -> 0 <= offset -> 0 < len ->
  map (fun i => f (chunk_addr i)) (seqZ offset len)
  = map f (seqZ (base (start_chunk c) + start_offset c) (start_size c))
    ++ concat (map (fun j => map f (seqZ (base j) cs)) (seqZ (first_full c) (num_full_chunks c)))
    ++ map f (seqZ (base (first_full c + num_full_chunks c)) (end_size c)).
Proof using Hcs.
  intros Hc Ho Hl. destruct (chunk_starts offset len c Hc Ho Hl) as (S1 & S2 & S3). pose proof Hc as [E1 E2 E3 E4 E5 E6 E7].
  assert (0 <= start_offset c) by (rewrite E2; apply Z.mod_pos_bound; lia).
  assert (0 <= num_full_chunks c * cs) by (apply Z.mul_nonneg_nonneg; lia).
  rewrite E3, <- Z.add_assoc, seqZ_app, seqZ_app, !map_app by lia. f_equal; [|f_equal].
  - rewrite S1 at 1. apply chunk_part; lia.
  - destruct (Z.eq_dec (num_full_chunks c) 0) as [->|N]; [reflexivity|]. rewrite S2 by lia.
    rewrite <- (Z2Nat.id (num_full_chunks c)) by lia. apply chunk_whole.
  - destruct (Z.eq_dec (end_size c) 0) as [->|N]; [reflexivity|]. rewrite S3 by lia.
    pose proof (chunk_part f (first_full c + num_full_chunks c) 0 (end_size c) ltac:(lia) ltac:(lia) ltac:(lia)) as E.
    rewrite !Z.add_0_r in E. exact E.
Qed.

(** No chunk of the transfer is beyond the chunk of its last byte. *)
Lemma transfer_bound offset len n c : chunks_ok offset len cs c -> 0 <= offset -> 0 < len -> offset + len <= n * cs ->
  0 <= start_chunk c < n /\ first_full c + num_full_chunks c <= n /\ (0 < end_size c -> first_full c + num_full_chunks c < n).
Proof using Hcs.
  intros Hc Ho Hl Hn. destruct (chunk_starts offset len c Hc Ho Hl) as (S1 & S2 & S3). pose proof Hc as [E1 E2 E3 E4 E5 E6 E7].
  assert (H0 : 0 <= start_offset c < cs) by (rewrite E2; apply Z.mod_pos_bound; lia).
  assert (H1 : 0 <= start_chunk c) by (rewrite E1; apply Z.div_pos; lia).
  assert (H2 : start_chunk c < n) by (apply (Z.mul_lt_mono_pos_r cs); lia).
  split; [lia|]. destruct (Z.eq_dec (end_size c) 0) as [E|E].
  - split; [|lia]. destruct (Z.eq_dec (num_full_chunks c) 0) as [F|F].
    + rewrite F. unfold first_full. destruct (Z.eqb_spec (start_size c) 0); lia.
    + specialize (S2 ltac:(lia)). apply (Z.mul_le_mono_pos_r _ _ cs); lia.
  - specialize (S3 ltac:(lia)). assert (first_full c + num_full_chunks c < n) by (apply (Z.mul_lt_mono_pos_r cs); lia). lia.
Qed.
(** ** Writing a part of a file: its chunks do not overlap. *)
Definition apart (n : Z) : Prop := forall j k, 0 <= j < n -> 0 <= k < n -> j <> k -> base j + cs <= base k \/ base k + cs <= base j.
Definition stored_chunks (off : Z) (buf : list Z) (f f' : Z -> Z) : Prop :=
  (forall i, off <= i < off + Z.of_nat (length buf) -> f' (chunk_addr i) = byte_at buf (i - off))
  /\ (forall a, (forall i, off <= i < off + Z.of_nat (length buf) -> chunk_addr i <> a) -> f' a = f a).

Lemma chunk_split i n : 0 <= i < n * cs -> i = i / cs * cs + i mod cs /\ 0 <= i / cs < n /\ 0 <= i mod cs < cs.
Proof using Hcs.
  intros Hi. pose proof (Z.div_mod i cs ltac:(lia)). pose proof (Z.mod_pos_bound i cs ltac:(lia)).
  split; [lia|]. split; [|assumption]. split; [apply Z.div_pos; lia|apply Z.div_lt_upper_bound; lia].
Qed.

Lemma chunk_addr_inj n i j : apart n -> 0 <= i < n * cs -> 0 <= j < n * cs -> chunk_addr i = chunk_addr j -> i = j.
Proof using Hcs.
  intros Ha Hi Hj E. destruct (chunk_split i n Hi) as (I1 & I2 & I3), (chunk_split j n Hj) as (J1 & J2 & J3).
  unfold chunk_addr in E. destruct (Z.eq_dec (i / cs) (j / cs)) as [Q|Q]; [rewrite Q in *; lia|].
  destruct (Ha _ _ I2 J2 Q); lia.
Qed.

Lemma stored_chunks_nil off f g : same_fun f g -> stored_chunks off [] f g.
Proof using. intros H. split; [cbn [length]; lia|]. intros a _. apply H. Qed.

Lemma stored_chunks_app n off b1 b2 f g h : apart n -> 0 <= off -> off + Z.of_nat (length (b1 ++ b2)) <= n * cs ->
  stored_chunks off b1 f g -> stored_chunks (off + Z.of_nat (length b1)) b2 g h -> stored_chunks off (b1 ++ b2) f h.
Proof using Hcs.
  intros Ha Ho Hn [A1 A2] [B1 B2]. rewrite length_app, Nat2Z.inj_add in *. split.
  - intros i Hi. rewrite length_app, Nat2Z.inj_add in Hi. rewrite byte_at_app by lia. destruct (Z.ltb_spec (i - off) (Z.of_nat (length b1))) as [L|L].
    + rewrite B2; [apply A1; lia|]. intros j Hj E. apply (chunk_addr_inj n) in E; [lia|assumption|lia..].
    + rewrite B1 by lia. f_equal. lia.
  - intros a H. rewrite length_app, Nat2Z.inj_add in H. rewrite B2, A2; [reflexivity| |]; intros i Hi; apply H; lia.
Qed.

Lemma stored_chunk k o buf f f' : 0 <= o -> o + Z.of_nat (length buf) <= cs ->
  stored_at (base k + o) buf f f' -> stored_chunks (k * cs + o) buf f f'.
Proof using Hcs.
  intros Ho Hle H.
  assert (A : forall i, k * cs + o <= i < k * cs + o + Z.of_nat (length buf) -> chunk_addr i = base k + (i - k * cs)).
  { intros i Hi. rewrite <- chunk_addr_at by lia. f_equal. lia. }
  split.
  - intros i Hi. rewrite (H _), A by lia. rewrite (proj2 (Z.leb_le _ _)), (proj2 (Z.ltb_lt _ _)) by lia. cbn [andb]. f_equal. lia.
  - intros a Ha. rewrite (H a). destruct (Z.leb_spec (base k + o) a), (Z.ltb_spec a (base k + o + Z.of_nat (length buf))); try reflexivity.
    exfalso. apply (Ha (k * cs + (a - base k))); [lia|]. rewrite A by lia. lia.
Qed.

(** All of the file after a write inside it. *)
Lemma stored_chunks_file n off buf f f' i : apart n -> 0 <= off -> off + Z.of_nat (length buf) <= n * cs -> stored_chunks off buf f f' ->
  0 <= i < n * cs ->
  f' (chunk_addr i) = if (off <=? i) && (i <? off + Z.of_nat (length buf)) then byte_at buf (i - off) else f (chunk_addr i).
Proof using Hcs.
  intros Ha Ho Hle [H1 H2] Hi. destruct (Z.leb_spec off i), (Z.ltb_spec i (off + Z.of_nat (length buf))); cbn [andb]; try (apply H1; lia);
    apply H2; intros j Hj E; apply (chunk_addr_inj n) in E; try assumption; lia.
Qed.
End chunked.

(** ** A drive of 64 blocks of 512 bytes in plain memory *)
#[export] Instance plain_store : block_store (Z -> Z) := {
  filesystem_read b off n f := Ok (map f (seqZ (b * 512 + off) n), f);
  filesystem_write b off buf f := Ok (fun a =>
    if (b * 512 + off <=? a) && (a <? b * 512 + off + Z.of_nat (length buf)) then byte_at buf (a - (b * 512 + off)) else f a) }.
#[program] Definition plain_laws : block_store_laws (Z -> Z) 512 64 := {| bs_view f := f; bs_ok _ := True |}.
Next Obligation. intros s b off n. eexists. split; [reflexivity|]. split; [exact I|]. intros a. reflexivity. Qed.
Next Obligation. intros s b off buf. eexists. split; [reflexivity|]. split; [exact I|]. intros a. reflexivity. Qed.

#[export] Existing Instance plain_laws.

