(* ===== verification/Fat.v ===== *)
(** * FAT volumes: clusters and files (drivers/formats/fat.cpp)

    The driver works on a virtual drive through [filesystem_read] and
    [filesystem_write], an interface here.  The [fat_drive] of a mounted volume never
    changes but for its list of free clusters, which is part of the state. *)
From S2P Require Import Prelude FsUtil Drives BlockStore Vfs.

Inductive fat_type := FAT_UNKNOWN | FAT_12 | FAT_16 | FAT_32 | exFAT.
#[export] Instance fat_type_eq_dec : EqDecision fat_type.
Proof. solve_decision. Defined.

Definition FAT12_EOF : Z := 0xFF8.
Definition FAT16_EOF : Z := 0xFFF8.
Definition FAT32_EOF : Z := 0x0FFFFFF8.
Definition exFAT_EOF : Z := 0xFFFFFFF8.
Definition FREE_CLUSTER : Z := 0.
Definition DEFAULT_SECTOR_SIZE : Z := 512.
Definition FAT_ROOT_DIR_FLAG : Z := 0x80000000.

Definition fat_entry_mask (t : fat_type) : Z :=
  match t with FAT_12 => 0xFFF | FAT_16 => 0xFFFF | FAT_32 => 0xFFFFFFF | exFAT => 0xFFFFFFFF | FAT_UNKNOWN => 0 end.
(** [sizeof(fat_entry_type_t<T>)]. *)
Definition fat_entry_size (t : fat_type) : Z :=
  match t with FAT_12 | FAT_16 => 2 | FAT_32 | exFAT => 4 | FAT_UNKNOWN => 0 end.

Record fat_drive := mk_fat {
  fats_size : Z; root_location : Z; datasector : Z; cluster_size : Z; cluster_size_log2 : Z;
  sectors_per_cluster : Z; sectors_per_cluster_log2 : Z; bytes_per_sector : Z; root_entries : Z;
  reserved_sectors : Z; num_clusters : Z; blocks_per_sector : Z; blocks_per_sector_log2 : Z;
  fat_block : Z; eof_value : Z; fat_kind : fat_type }.

(** ** The boot sector: [struct bpb] and the FAT32 extension behind it *)
Record bpb := mk_bpb {
  boot_code : list Z; bpb_bytes_per_sector : Z; bpb_sectors_per_cluster : Z; bpb_reserved_sectors : Z;
  number_of_FATs : Z; bpb_root_entries : Z; total_sectors : Z; media : Z; sectors_per_FAT : Z;
  hidden_sectors : Z; total_sectors_big : Z; root_cluster : Z }.
Definition read_bpb (buffer : list Z) : bpb :=
  mk_bpb (take 3 buffer) (field_at buffer 11 2) (field_at buffer 13 1) (field_at buffer 14 2) (field_at buffer 16 1)
    (field_at buffer 17 2) (field_at buffer 19 2) (field_at buffer 21 1) (field_at buffer 22 2)
    (field_at buffer 28 4) (field_at buffer 32 4) (field_at buffer (36 + 8) 4).

Definition sizeof_directory_entry : Z := 32.

(** Arithmetic is in [size_t]; a division by zero is undefined. *)
Definition fat_read_bios_block (buffer : list Z) (block_size : Z) : outcome (mount_status * option fat_drive) :=
  let b := read_bpb buffer in
  let bps := bpb_bytes_per_sector b in
  let spc := bpb_sectors_per_cluster b in
  if negb (nth 0 (boot_code b) 0 =? 0xEB) || negb (nth 2 (boot_code b) 0 =? 0x90) then Ok (UNKNOWN_FILESYSTEM, None)
  else if negb (has_single_bit bps) then Ok (MOUNT_FAILURE, None)
  else if bps <? block_size then Ok (DRIVE_NOT_SUPPORTED, None)
  else if (block_size =? 0) || (spc =? 0) then Fault AssertFailed else
  let root_size := sizeof_directory_entry * bpb_root_entries b / bps in
  let fats := number_of_FATs b * sectors_per_FAT b in
  let root := fats + bpb_reserved_sectors b in
  let data := root + root_size in
  let csize := spc * bps in
  let bpsec := bps / block_size in
  let total := if total_sectors b =? 0 then total_sectors_big b else total_sectors b in
  let total_clusters := sub32 total data / spc in
  let '(kind, eof) :=
    if bps =? 0 then (exFAT, exFAT_EOF)
    else if total_clusters <? 0xFF5 then (FAT_12, FAT12_EOF)
    else if total_clusters <? 0xFFF5 then (FAT_16, FAT16_EOF)
    else (FAT_32, FAT32_EOF) in
  let root := match kind with exFAT | FAT_32 => root_cluster b | _ => root end in
  Ok (MOUNT_SUCCESS, Some (mk_fat fats root data csize (countr_zero csize) spc (countr_zero spc) bps
    (bpb_root_entries b) (bpb_reserved_sectors b) total_clusters bpsec (countr_zero bpsec)
    (mul32 (bpb_reserved_sectors b) bpsec) eof kind)).

(** ** The state of a mounted volume *)
Record fat_state (S : Type) := mk_fs { fs_store : S; free_clusters : list (Z * Z) }.
Arguments mk_fs {S}. Arguments fs_store {S}. Arguments free_clusters {S}.

Section fat.
Context {S : Type} `{block_store S} (d : fat_drive).
Notation state := (fat_state S).

Definition vd_read (block offset n : Z) (s : state) : outcome (list Z * state) :=
  '(l, st) ← filesystem_read block offset n (fs_store s); Ok (l, mk_fs st (free_clusters s)).
Definition vd_write (block offset : Z) (buf : list Z) (s : state) : outcome state :=
  st ← filesystem_write block offset buf (fs_store s); Ok (mk_fs st (free_clusters s)).
Definition set_free (l : list (Z * Z)) (s : state) : state := mk_fs (fs_store s) l.

Definition fat_cluster_to_block (cluster : Z) : Z :=
  shl32 (add32 (shl32 (sub32 cluster 2) (sectors_per_cluster_log2 d)) (datasector d)) (blocks_per_sector_log2 d).

(** [fat_get_next_cluster<T>] and its FAT12 specialisation. *)
Definition get_next_wide (t : fat_type) (cluster : Z) (s : state) : outcome (Z * state) :=
  let offset := mul32 cluster (fat_entry_size t) in
  '(l, s) ← vd_read (fat_block d) offset (fat_entry_size t) s;
  Ok (Z.land (le_value l) (fat_entry_mask t), s).
Definition get_next_12 (cluster : Z) (s : state) : outcome (Z * state) :=
  let offset := add32 cluster (cluster / 2) in
  '(l, s) ← vd_read (fat_block d) offset 2 s;
  let value := le_value l in
  Ok (if Z.odd cluster then Z.shiftr value 4 else Z.land value (fat_entry_mask FAT_12), s).

Definition set_next_wide (t : fat_type) (cluster next : Z) (s : state) : outcome state :=
  let offset := mul32 cluster (fat_entry_size t) in
  let value := Z.land next (fat_entry_mask t) in
  vd_write (fat_block d) offset (le_bytes (Z.to_nat (fat_entry_size t)) value) s.
(** Reads and writes at the first reserved sectors as a number of blocks. *)
Definition set_next_12 (cluster next : Z) (s : state) : outcome state :=
  let offset := add32 cluster (cluster / 2) in
  let fat_sector := reserved_sectors d in
  '(l, s) ← vd_read fat_sector offset 2 s;
  let value := le_value l in
  let value := if Z.odd cluster then Z.lor (Z.land value 0x000F) (u16 (Z.shiftl next 4))
               else u16 (Z.lor (Z.land value 0xF000) (Z.land next 0x0FFF)) in
  vd_write fat_sector offset (le_bytes 2 value) s.

Definition fat_get_next_cluster (cluster : Z) (s : state) : outcome (Z * state) :=
  match fat_kind d with
  | FAT_12 => get_next_12 cluster s
  | FAT_UNKNOWN => Fault AssertFailed
  | t => get_next_wide t cluster s
  end.
Definition fat_set_next_cluster (cluster next : Z) (s : state) : outcome state :=
  match fat_kind d with
  | FAT_12 => set_next_12 cluster next s
  | FAT_UNKNOWN => Fault AssertFailed
  | t => set_next_wide t cluster next s
  end.

(** [while(num_clusters--)]. *)
Fixpoint fat_get_relative_cluster (n : nat) (cluster : Z) (s : state) : outcome (Z * state) :=
  match n with
  | O => Ok (cluster, s)
  | Datatypes.S n =>
    '(cluster, s) ← fat_get_next_cluster cluster s;
    if eof_value d <=? cluster then Ok (cluster, s) else fat_get_relative_cluster n cluster s
  end.

(** FAT12 and FAT16 keep the root directory outside the clusters. *)
Definition fixed_root (file : file_data_block) : bool :=
  match fat_kind d with FAT_12 | FAT_16 => has (file_flags file) FAT_ROOT_DIR_FLAG | _ => false end.

(** ** Reading *)
(** The whole clusters of a transfer: what is read, and the cluster after them. *)
Fixpoint read_clusters (n : nat) (cluster : Z) (s : state) : outcome (list Z * Z * state) :=
  match n with
  | O => Ok ([], cluster, s)
  | Datatypes.S n =>
    if cluster <? eof_value d then
      '(l, s) ← vd_read (fat_cluster_to_block cluster) 0 (cluster_size d) s;
      '(cluster, s) ← fat_get_next_cluster cluster s;
      '(rest, cluster, s) ← read_clusters n cluster s;
      Ok (l ++ rest, cluster, s)
    else Ok ([], cluster, s)
  end.

(** The bytes put into the buffer, from its start, and the result. *)
Definition fat_read (start_cluster offset size : Z) (file : file_data_block) (s : state)
  : outcome (list Z * Z * state) :=
  if eof_value d <=? start_cluster then Ok ([], start_cluster, s)
  else if fixed_root file then
    let f_offset := u32 offset in
    '(l, s) ← vd_read (add32 (root_location d) start_cluster) f_offset size s;
    Ok (l, Z.land f_offset (sub32 (bytes_per_sector d) 1), s)
  else
    let chunks := filesystem_chunkify offset size (sub32 (cluster_size d) 1) (cluster_size_log2 d) in
    '(cluster, s) ← fat_get_relative_cluster (Z.to_nat (start_chunk chunks)) start_cluster s;
    if eof_value d <=? cluster then Ok ([], cluster, s) else
    '(l1, cluster, s) ← (if negb (start_size chunks =? 0) then
        '(l, s) ← vd_read (fat_cluster_to_block cluster) (start_offset chunks) (start_size chunks) s;
        '(cluster, s) ← fat_get_next_cluster cluster s;
        Ok (l, cluster, s)
      else Ok ([], cluster, s));
    '(l2, cluster, s) ← read_clusters (Z.to_nat (num_full_chunks chunks)) cluster s;
    '(l3, s) ← (if negb (end_size chunks =? 0) && (cluster <? eof_value d) then
        vd_read (fat_cluster_to_block cluster) 0 (end_size chunks) s
      else Ok ([], s));
    Ok (l1 ++ l2 ++ l3, cluster, s).

(** ** Writing *)
Fixpoint write_clusters (n : nat) (cluster : Z) (buf : list Z) (s : state) : outcome (Z * list Z * state) :=
  match n with
  | O => Ok (cluster, buf, s)
  | Datatypes.S n =>
    if cluster <? eof_value d then
      let cs := Z.to_nat (cluster_size d) in
      s ← vd_write (fat_cluster_to_block cluster) 0 (take cs buf) s;
      '(cluster, s) ← fat_get_next_cluster cluster s;
      write_clusters n cluster (drop cs buf) s
    else Ok (cluster, buf, s)
  end.

(** No test after [fat_get_relative_cluster]: a start beyond the chain is written at
    the block the end mark would have. *)
Definition fat_write (buf : list Z) (start_cluster offset : Z) (file : file_data_block) (s : state)
  : outcome (Z * state) :=
  if fixed_root file then
    let f_offset := u32 offset in
    s ← vd_write (add32 (root_location d) start_cluster) f_offset buf s;
    Ok (Z.land f_offset (sub32 (bytes_per_sector d) 1), s)
  else if eof_value d <=? start_cluster then Ok (start_cluster, s)
  else
    let chunks := filesystem_chunkify offset (Z.of_nat (length buf)) (sub32 (cluster_size d) 1) (cluster_size_log2 d) in
    '(cluster, s) ← fat_get_relative_cluster (Z.to_nat (start_chunk chunks)) start_cluster s;
    '(cluster, buf, s) ← (if negb (start_size chunks =? 0) then
        let '(now, rest) := split_at (start_size chunks) buf in
        s ← vd_write (fat_cluster_to_block cluster) (start_offset chunks) now s;
        '(cluster, s) ← fat_get_next_cluster cluster s;
        Ok (cluster, rest, s)
      else Ok (cluster, buf, s));
    '(cluster, buf, s) ← write_clusters (Z.to_nat (num_full_chunks chunks)) cluster buf s;
    if negb (end_size chunks =? 0) && (cluster <? eof_value d) then
      s ← vd_write (fat_cluster_to_block cluster) 0 (take (Z.to_nat (end_size chunks)) buf) s; Ok (cluster, s)
    else Ok (cluster, s).

(** ** Allocation *)
(** [for(i = 0; i < num_clusters - 1; i++)] links the run. *)
Fixpoint link_run (n : nat) (first_cluster : Z) (s : state) : outcome state :=
  match n with
  | O => Ok s
  | Datatypes.S n =>
    s ← fat_set_next_cluster first_cluster (add32 first_cluster 1) s;
    link_run n (add32 first_cluster 1) s
  end.

Definition write_to_fat (previous first_cluster num : Z) (s : state) : outcome (Z * state) :=
  match fat_kind d with
  | FAT_UNKNOWN => Fault AssertFailed
  | _ =>
    s ← (if negb (previous =? 0) then fat_set_next_cluster previous first_cluster s else Ok s);
    s ← link_run (Z.to_nat (sub32 num 1)) first_cluster s;
    Ok (sub32 (add32 first_cluster num) 1, s)
  end.

Definition fat_cluster_is_free (cluster : Z) (s : state) : outcome (bool * state) :=
  '(next, s) ← fat_get_next_cluster cluster s; Ok (next =? FREE_CLUSTER, s).

Definition fat_mark_cluster_free (cluster : Z) (s : state) : outcome state :=
  '(_, s) ← write_to_fat cluster FREE_CLUSTER 1 s;
  Ok (set_free (free_clusters s ++ [(cluster, 1)]) s).

(** The spans of the free list, from its back; [None] is a claim that is complete. *)
Fixpoint claim_listed (n : nat) (last_cluster num : Z) (s : state) : outcome (option Z * Z * Z * state) :=
  match n with
  | O => Ok (None, last_cluster, num, s)
  | Datatypes.S n =>
    match last (free_clusters s) with
    | None => Fault OutOfBounds
    | Some (first, count) =>
      let s := set_free (removelast (free_clusters s)) s in
      '(last_cluster, s) ← write_to_fat last_cluster first count s;
      let num := sub32 num count in
      if num =? 0 then
        '(_, s) ← write_to_fat last_cluster (eof_value d) 1 s;
        Ok (Some last_cluster, last_cluster, num, s)
      else claim_listed n last_cluster num s
    end
  end.

(** [while(span.num_clusters < num_clusters)]: the end of a run of free clusters. *)
Fixpoint grow_span (fuel : nat) (cluster count num : Z) (s : state) : outcome (Z * Z * state) :=
  match fuel with
  | O => Fault OutOfFuel
  | Datatypes.S fuel =>
    if count <? num then
      '(free, s) ← fat_cluster_is_free (add32 cluster 1) s;
      if free : bool then grow_span fuel (add32 cluster 1) (add32 count 1) num s
      else Ok (add32 cluster 1, count, s)
    else Ok (cluster, count, s)
  end.

(** The scan of the table for free runs. *)
Fixpoint claim_scan (fuel : nat) (cluster last_cluster num : Z) (s : state) : outcome (Z * state) :=
  match fuel with
  | O => Fault OutOfFuel
  | Datatypes.S fuel =>
    if cluster <? num_clusters d then
      '(free, s) ← fat_cluster_is_free cluster s;
      if negb free then claim_scan fuel (add32 cluster 1) last_cluster num s else
      '(cluster', count, s) ← grow_span (Datatypes.S (Z.to_nat num)) cluster 1 num s;
      '(last_cluster, s) ← write_to_fat last_cluster cluster count s;
      let num := sub32 num count in
      if num =? 0 then
        '(_, s) ← write_to_fat last_cluster (eof_value d) 1 s;
        Ok (last_cluster, s)
      else claim_scan fuel (add32 cluster' 1) last_cluster num s
    else
      '(_, s) ← write_to_fat last_cluster (eof_value d) 1 s;
      Ok (0, s)
  end.

Definition fat_claim_clusters (last_cluster num : Z) (s : state) : outcome (Z * state) :=
  '(done, last_cluster, num, s) ← claim_listed (length (free_clusters s)) last_cluster num s;
  match done with
  | Some c => Ok (c, s)
  | None => claim_scan (Datatypes.S (Z.to_nat (num_clusters d))) 0 last_cluster num s
  end.

(** [while(num_clusters)]: the clusters the file already has. *)
Fixpoint skip_allocated (n : nat) (last_cluster : Z) (s : state) : outcome (Z * Z * state) :=
  match n with
  | O => Ok (last_cluster, 0, s)
  | Datatypes.S n' =>
    '(cluster, s) ← fat_get_next_cluster last_cluster s;
    if cluster =? eof_value d then Ok (last_cluster, Z.of_nat n, s) else skip_allocated n' cluster s
  end.

Definition fat_allocate_clusters (start_cluster size_in_bytes : Z) (file : file_data_block) (s : state)
  : outcome (Z * state) :=
  if fixed_root file then Ok (mul32 (root_entries d) sizeof_directory_entry, s) else
  if cluster_size d =? 0 then Fault AssertFailed else
  let needed_clusters := add32 size_in_bytes (sub32 (cluster_size d) 1) / cluster_size d in
  '(last_cluster, num, s) ← skip_allocated (Z.to_nat needed_clusters) start_cluster s;
  if num =? 0 then Ok (size_in_bytes, s) else
  '(n, s) ← fat_claim_clusters last_cluster num s;
  if n =? 0 then Ok (mul32 (sub32 needed_clusters n) (cluster_size d), s) else Ok (size_in_bytes, s).

End fat.
