(* ===== verification/FatProofs.v ===== *)
(** * Clusters and files of a FAT volume

    Against the laws of the drive below (what is written at an address is read from
    it), the table is a function from clusters to entries, a file is the sequence of
    the bytes of its clusters, and [fat_read], [fat_write] are reading and writing a
    part of that sequence. *)
From S2P Require Import Prelude FsUtil Drives DrivesProofs BlockStore Vfs Fat.

(** The bytes the table needs for all its entries. *)
Definition table_bytes (t : fat_type) (entries : Z) : Z :=
  match t with FAT_12 => entries + entries / 2 + 1 | _ => entries * fat_entry_size t end.

(** The parameters of a sound volume: powers of two, the table in front of the data,
    the data on the drive. *)
Record geometry (d : fat_drive) (bs cap : Z) : Prop := {
  g_bs : 0 < bs;
  g_kind : fat_kind d = FAT_12 \/ fat_kind d = FAT_16 \/ fat_kind d = FAT_32;
  g_eof : eof_value d = match fat_kind d with FAT_12 => FAT12_EOF | FAT_16 => FAT16_EOF | _ => FAT32_EOF end;
  g_num : 0 <= num_clusters d /\ num_clusters d + 2 <= eof_value d;
  g_log2 : 0 <= sectors_per_cluster_log2 d /\ 0 <= blocks_per_sector_log2 d;
  g_csize : cluster_size d = bs * 2 ^ (sectors_per_cluster_log2 d + blocks_per_sector_log2 d);
  g_csize_log2 : 0 <= cluster_size_log2 d < 32 /\ cluster_size d = 2 ^ cluster_size_log2 d;
  g_data : 0 <= datasector d /\
    (datasector d + num_clusters d * 2 ^ sectors_per_cluster_log2 d) * 2 ^ blocks_per_sector_log2 d <= cap;
  g_cap : cap < 2 ^ 32;
  g_fat : 0 <= fat_block d /\
    fat_block d * bs + table_bytes (fat_kind d) (num_clusters d + 2) <= datasector d * 2 ^ blocks_per_sector_log2 d * bs }.

(** The blocks of a cluster are on the drive. *)
Lemma cluster_blocks P Q bs n dsec cap c : 0 < P -> 0 < Q -> 0 < bs -> 0 <= dsec -> (dsec + n * P) * Q <= cap ->
  2 <= c < n + 2 ->
  let b := (c - 2) * P + dsec in
  0 <= (c - 2) * P /\ (c - 2) * P <= b /\ b <= b * Q /\ (b + P) * Q <= cap
  /\ b * Q * bs = dsec * Q * bs + (c - 2) * (P * Q * bs)
  /\ dsec * Q * bs + (c - 2) * (P * Q * bs) + P * Q * bs <= cap * bs.
Proof.
  intros HP HQ Hb Hd Hc Hr b.
  assert (H1 : 0 <= (c - 2) * P) by (apply Z.mul_nonneg_nonneg; lia).
  assert (H2 : (c - 1) * P <= n * P) by (apply Z.mul_le_mono_nonneg_r; lia).
  assert (H3 : (b + P) * Q <= (dsec + n * P) * Q) by (apply Z.mul_le_mono_nonneg_r; lia).
  assert (H4 : b * 1 <= b * Q) by (apply Z.mul_le_mono_nonneg_l; lia).
  assert (H5 : (b + P) * Q * bs <= cap * bs) by (apply Z.mul_le_mono_nonneg_r; lia).
  subst b. repeat split; lia.
Qed.

Section volume.
Context {S : Type} `{HB : block_store S} (bs cap : Z) `{HL : !block_store_laws S bs cap}.
Context (d : fat_drive) (Hg : geometry d bs cap).
Notation state := (fat_state S).
Notation csize := (cluster_size d).
Notation p := (sectors_per_cluster_log2 d).
Notation q := (blocks_per_sector_log2 d).

Definition view (s : state) : Z -> Z := bs_view (fs_store s).
Definition ok (s : state) : Prop := bs_ok (fs_store s).

Definition in_table (c : Z) : Prop := 0 <= c < num_clusters d + 2.
Definition valid (c : Z) : Prop := 2 <= c < num_clusters d + 2.

(** Where the entry of a cluster and the bytes of a cluster are. *)
Definition entry_addr (c : Z) : Z :=
  fat_block d * bs + match fat_kind d with FAT_12 => c + c / 2 | _ => c * fat_entry_size (fat_kind d) end.
Definition entry (f : Z -> Z) (c : Z) : Z :=
  match fat_kind d with
  | FAT_12 => let v := f (entry_addr c) + 256 * f (entry_addr c + 1) in
              if Z.odd c then v / 16 else v mod 4096
  | t => Z.land (le_value (map f (seqZ (entry_addr c) (fat_entry_size t)))) (fat_entry_mask t)
  end.
Definition data_start : Z := datasector d * 2 ^ q * bs.
Definition data_addr (c : Z) : Z := data_start + (c - 2) * csize.

Lemma sizes_ok : 0 < csize < 2 ^ 32 /\ 0 < 2 ^ p /\ 0 < 2 ^ q /\ csize = 2 ^ p * 2 ^ q * bs
  /\ eof_value d <= FAT32_EOF.
Proof using Hg.
  destruct (g_log2 _ _ _ Hg), (g_csize_log2 _ _ _ Hg) as [H1 H2].
  split; [rewrite H2; split; [apply Z.pow_pos_nonneg; lia|apply Z.pow_lt_mono_r; lia]|].
  split; [apply Z.pow_pos_nonneg; lia|]. split; [apply Z.pow_pos_nonneg; lia|].
  split; [rewrite (g_csize _ _ _ Hg), Z.pow_add_r by lia; lia|].
  rewrite (g_eof _ _ _ Hg). unfold FAT12_EOF, FAT16_EOF, FAT32_EOF. destruct (fat_kind d); lia.
Qed.

Lemma block_of_cluster c : valid c ->
  0 <= fat_cluster_to_block d c /\ fat_cluster_to_block d c * bs = data_addr c
  /\ data_addr c + csize <= cap * bs.
Proof using Hg.
  intros Hc. destruct sizes_ok as (Hcs & Hp & Hq & Hmul & Heof). destruct (g_log2 _ _ _ Hg) as [G1 G2].
  destruct (g_data _ _ _ Hg) as [G3 G4]. pose proof (g_cap _ _ _ Hg) as G5. pose proof (g_bs _ _ _ Hg) as G6.
  unfold valid in Hc. destruct (g_num _ _ _ Hg) as [G7 G8].
  pose proof (cluster_blocks (2 ^ p) (2 ^ q) bs (num_clusters d) (datasector d) cap c Hp Hq G6 G3 G4 Hc)
    as (E1 & E2 & E3 & E4 & E5 & E6).
  assert (E7 : ((c - 2) * 2 ^ p + datasector d) * 2 ^ q <= cap) by lia.
  unfold fat_cluster_to_block. rewrite sub32_small by (unfold FAT32_EOF in *; lia).
  unfold shl32. rewrite !Z.shiftl_mul_pow2 by lia. rewrite (u32_small ((c - 2) * 2 ^ p)) by (unfold is_u32; lia).
  rewrite add32_small by lia. rewrite u32_small by (unfold is_u32; lia).
  split; [lia|]. unfold data_addr, data_start. rewrite Hmul. split; assumption.
Qed.

(** ** The table *)
Lemma entry_addr_bound c : in_table c ->
  fat_block d * bs <= entry_addr c /\ 0 <= c / 2 <= c /\ entry_addr c + fat_entry_size (fat_kind d) <= data_start
  /\ data_start <= cap * bs /\ entry_addr c - fat_block d * bs < 2 ^ 31.
Proof using Hg.
  intros [Hc1 Hc2]. destruct (g_fat _ _ _ Hg) as [F1 F2]. destruct (g_data _ _ _ Hg) as [G3 G4].
  pose proof (g_bs _ _ _ Hg) as G6. destruct sizes_ok as (Hcs & Hp & Hq & Hmul & Heof). destruct (g_num _ _ _ Hg) as [G7 G8].
  assert (Hds : data_start <= cap * bs).
  { unfold data_start. apply Z.mul_le_mono_nonneg_r; [lia|]. apply Z.le_trans with (2 := G4).
    apply Z.mul_le_mono_nonneg_r; [lia|]. assert (0 <= num_clusters d * 2 ^ p) by (apply Z.mul_nonneg_nonneg; lia). lia. }
  unfold entry_addr, data_start, table_bytes in *. unfold FAT32_EOF in *.
  assert (H2 : 0 <= c / 2 <= c) by (split; [apply Z.div_pos; lia|apply Z.div_le_upper_bound; lia]).
  assert (c / 2 <= (num_clusters d + 2) / 2) by (apply Z.div_le_mono; lia).
  destruct (g_kind _ _ _ Hg) as [E|[E|E]]; rewrite E in *; cbn [fat_entry_size] in *; repeat split; lia.
Qed.

(** ** Single accesses *)
Definition same (s s' : state) : Prop :=
  ok s' /\ same_fun (view s) (view s') /\ free_clusters s' = free_clusters s.

Lemma same_refl s : ok s -> same s s.
Proof using. intros H. split; [exact H|]. split; [intros a|]; reflexivity. Qed.
Lemma same_trans s1 s2 s3 : same s1 s2 -> same s2 s3 -> same s1 s3.
Proof using.
  intros (H1 & H2 & H3) (H4 & H5 & H6). split; [exact H4|]. split; [intros a; rewrite (H5 a); apply H2|congruence].
Qed.

Lemma vd_read_spec s b off n : ok s -> 0 <= b -> 0 <= off -> 0 <= n < 2 ^ 32 -> b * bs + off + n <= cap * bs ->
  exists s', vd_read b off n s = Ok (map (view s) (seqZ (b * bs + off) n), s') /\ same s s'.
Proof using HL.
  intros Hok Hb Ho Hn Hc. destruct (bs_read_law (fs_store s) b off n Hok Hb Ho Hn Hc) as (st & E & Hok' & Hv).
  unfold vd_read. rewrite (bind_Ok_l _ _ _ E). eexists. split; [reflexivity|]. split; [exact Hok'|]. split; [exact Hv|reflexivity].
Qed.

(** A store that keeps the drive sound. *)
Definition wrote (a : Z) (buf : list Z) (s s' : state) : Prop :=
  ok s' /\ stored_at a buf (view s) (view s') /\ free_clusters s' = free_clusters s.

Lemma vd_write_spec s b off buf : ok s -> 0 <= b -> 0 <= off -> Z.of_nat (length buf) < 2 ^ 32 ->
  b * bs + off + Z.of_nat (length buf) <= cap * bs ->
  exists s', vd_write b off buf s = Ok s' /\ wrote (b * bs + off) buf s s'.
Proof using HL.
  intros Hok Hb Ho Hn Hc. destruct (bs_write_law (fs_store s) b off buf Hok Hb Ho Hn Hc) as (st & E & Hok' & Hv).
  unfold vd_write. rewrite (bind_Ok_l _ _ _ E). eexists. split; [reflexivity|]. split; [exact Hok'|]. split; [exact Hv|reflexivity].
Qed.

Lemma le_value_2 f a : le_value (map f (seqZ a 2)) = f a + 256 * f (a + 1).
Proof using.
  rewrite (seqZ_cons a 2), (seqZ_cons (Z.succ a)) by lia.
  rewrite seqZ_nil by lia. cbn [map le_value]. change (Z.succ a) with (a + 1). lia.
Qed.

Lemma fat_get_next_cluster_spec s c : ok s -> in_table c ->
  exists s', fat_get_next_cluster d c s = Ok (entry (view s) c, s') /\ same s s'.
Proof using HL Hg.
  intros Hok Hc. destruct (entry_addr_bound c Hc) as (A1 & _ & A2 & A3 & A4). pose proof Hc as [Hc1 Hc2].
  destruct (g_fat _ _ _ Hg) as [F1 F2]. destruct sizes_ok as (_ & _ & _ & _ & Heof). destruct (g_num _ _ _ Hg) as [G7 G8].
  unfold fat_get_next_cluster, entry. unfold entry_addr, FAT32_EOF in *.
  assert (c / 2 <= c) by (apply Z.div_le_upper_bound; lia). assert (0 <= c / 2) by (apply Z.div_pos; lia).
  destruct (g_kind _ _ _ Hg) as [E|[E|E]]; rewrite E in *; cbn [fat_entry_size] in *.
  - unfold get_next_12. rewrite add32_small by lia.
    destruct (vd_read_spec s (fat_block d) (c + c / 2) 2 Hok F1 ltac:(lia) ltac:(lia) ltac:(lia)) as (s' & Er & Hs).
    rewrite (bind_Ok_l _ _ _ Er). cbn [mbind outcome_bind]. exists s'. split; [|exact Hs]. rewrite le_value_2. do 2 f_equal.
    destruct (Z.odd c); [apply Z.shiftr_div_pow2; lia|]. apply (land_low_mask _ 12). lia.
  - unfold get_next_wide. cbn [fat_entry_size]. rewrite mul32_small by lia.
    destruct (vd_read_spec s (fat_block d) (c * 2) 2 Hok F1 ltac:(lia) ltac:(lia) ltac:(lia)) as (s' & Er & Hs).
    rewrite (bind_Ok_l _ _ _ Er). exists s'. split; [reflexivity|exact Hs].
  - unfold get_next_wide. cbn [fat_entry_size]. rewrite mul32_small by lia.
    destruct (vd_read_spec s (fat_block d) (c * 4) 4 Hok F1 ltac:(lia) ltac:(lia) ltac:(lia)) as (s' & Er & Hs).
    rewrite (bind_Ok_l _ _ _ Er). exists s'. split; [reflexivity|exact Hs].
Qed.

(** An entry depends on the table only. *)
Lemma entry_ext f g c : in_table c -> (forall a, fat_block d * bs <= a < data_start -> g a = f a) -> entry g c = entry f c.
Proof using Hg.
  intros Hc Hfg. destruct (entry_addr_bound c Hc) as (A1 & _ & A2 & _). unfold entry.
  destruct (fat_kind d) eqn:E; cbn [fat_entry_size] in A2; try (f_equal; f_equal; apply list_fmap_ext; intros i x Hx;
    apply lookup_seqZ in Hx as [-> Hx]; cbn [fat_entry_size] in Hx; apply Hfg; lia).
  rewrite !Hfg by lia. reflexivity.
Qed.

(** ** Chains *)
(** [chain f c cs]: from [c] the table links the clusters [cs] and ends. *)
Fixpoint chain (f : Z -> Z) (c : Z) (cs : list Z) : Prop :=
  match cs with
  | [] => eof_value d <= c
  | x :: cs => c = x /\ valid x /\ chain f (entry f x) cs
  end.

Lemma valid_table c : valid c -> in_table c.
Proof using. unfold valid, in_table. lia. Qed.
Lemma valid_eof c : valid c -> c < eof_value d.
Proof using Hg. destruct (g_num _ _ _ Hg). unfold valid. lia. Qed.

Lemma chain_ext f g : (forall a, fat_block d * bs <= a < data_start -> g a = f a) ->
  forall cs c, chain f c cs -> chain g c cs.
Proof using Hg.
  intros Hfg. induction cs as [|x cs IH]; intros c; [exact (fun H => H)|]. intros (-> & Hv & Hc).
  split; [reflexivity|]. split; [exact Hv|]. apply IH. rewrite (entry_ext f g x (valid_table x Hv) Hfg). exact Hc.
Qed.

Lemma chain_same f s' s cs c : same s s' -> f = view s -> chain f c cs -> chain (view s') c cs.
Proof using Hg. intros (_ & Hv & _) ->. apply chain_ext. intros a _. apply Hv. Qed.

Lemma chain_valid f c cs : chain f c cs -> Forall valid cs.
Proof using. revert c. induction cs as [|x cs IH]; intros c; [constructor|]. intros (_ & Hv & Hc). constructor; eauto. Qed.

(** Walking a chain. *)
Lemma fat_get_relative_cluster_spec n : forall s c cs, ok s -> chain (view s) c cs -> (n <= length cs)%nat ->
  exists c' s', fat_get_relative_cluster d n c s = Ok (c', s') /\ same s s' /\ chain (view s') c' (drop n cs).
Proof using HL Hg.
  induction n as [|n IH]; intros s c cs Hok Hc Hn.
  - exists c, s. split; [reflexivity|]. split; [exact (same_refl s Hok)|exact Hc].
  - destruct cs as [|x cs]; [cbn in Hn; lia|]. destruct Hc as (-> & Hv & Hc). cbn [fat_get_relative_cluster].
    destruct (fat_get_next_cluster_spec s x Hok (valid_table x Hv)) as (s1 & E1 & Hs1).
    rewrite (bind_Ok_l _ _ _ E1). cbn [mbind outcome_bind drop].
    pose proof (chain_same _ _ s _ _ Hs1 eq_refl Hc) as Hc1. destruct (Z.leb_spec (eof_value d) (entry (view s) x)) as [He|He].
    + exists (entry (view s) x), s1. split; [reflexivity|]. split; [exact Hs1|].
      destruct cs as [|y cs]; [rewrite drop_nil; exact Hc1|]. destruct Hc1 as (E & Hy & _). rewrite E in He.
      pose proof (valid_eof y Hy). lia.
    + destruct (IH s1 (entry (view s) x) cs (proj1 Hs1) Hc1 ltac:(cbn in Hn; lia)) as (c' & s2 & E2 & Hs2 & Hc2).
      exists c', s2. split; [exact E2|]. split; [exact (same_trans _ _ _ Hs1 Hs2)|exact Hc2].
Qed.

Definition cluster_bytes (f : Z -> Z) (c : Z) : list Z := map f (seqZ (data_addr c) csize).

Lemma cluster_bytes_same s s' c : same s s' -> cluster_bytes (view s') c = cluster_bytes (view s) c.
Proof using. intros (_ & Hv & _). apply map_ext. exact Hv. Qed.

(** Reading part of a cluster. *)
Lemma read_cluster_spec s c o n : ok s -> valid c -> 0 <= o -> 0 <= n -> o + n <= csize ->
  exists s', vd_read (fat_cluster_to_block d c) o n s = Ok (map (view s) (seqZ (data_addr c + o) n), s') /\ same s s'.
Proof using HL Hg.
  intros Hok Hv Ho Hn Hle. destruct (block_of_cluster c Hv) as (B1 & B2 & B3). destruct sizes_ok as (Hcs & _).
  rewrite <- B2. apply vd_read_spec; try assumption; lia.
Qed.

Lemma read_clusters_spec n : forall s c cs, ok s -> chain (view s) c cs -> (n <= length cs)%nat ->
  exists c' s', read_clusters d n c s = Ok (concat (map (cluster_bytes (view s)) (take n cs)), c', s')
  /\ same s s' /\ chain (view s') c' (drop n cs).
Proof using HL Hg.
  induction n as [|n IH]; intros s c cs Hok Hc Hn.
  - exists c, s. split; [reflexivity|]. split; [exact (same_refl s Hok)|exact Hc].
  - destruct cs as [|x cs]; [cbn in Hn; lia|]. destruct Hc as (-> & Hv & Hc). cbn [read_clusters].
    rewrite (proj2 (Z.ltb_lt _ _) (valid_eof x Hv)). destruct sizes_ok as (Hcs & _).
    destruct (read_cluster_spec s x 0 csize Hok Hv ltac:(lia) ltac:(lia) ltac:(lia)) as (s1 & E1 & Hs1).
    rewrite (bind_Ok_l _ _ _ E1). cbn [mbind outcome_bind].
    destruct (fat_get_next_cluster_spec s1 x (proj1 Hs1) (valid_table x Hv)) as (s2 & E2 & Hs2).
    rewrite (bind_Ok_l _ _ _ E2). cbn [mbind outcome_bind]. pose proof (same_trans _ _ _ Hs1 Hs2) as Hs12.
    assert (Hc2 : chain (view s2) (entry (view s1) x) cs).
    { apply (chain_same (view s) s2 s); [exact Hs12|reflexivity|].
      rewrite (entry_ext (view s) (view s1) x (valid_table x Hv)); [exact Hc|]. intros a _. apply (proj1 (proj2 Hs1)). }
    destruct (IH s2 (entry (view s1) x) cs (proj1 Hs12) Hc2 ltac:(cbn in Hn; lia)) as (c' & s3 & E3 & Hs3 & Hc3).
    rewrite (bind_Ok_l _ _ _ E3). cbn [mbind outcome_bind]. exists c', s3.
    split; [|split; [exact (same_trans _ _ _ Hs12 Hs3)|exact Hc3]]. do 2 f_equal. cbn [take firstn map concat].
    rewrite Z.add_0_r. do 2 f_equal. f_equal. apply map_ext. intros y. exact (cluster_bytes_same s s2 y Hs12).
Qed.

(** ** A chain has no cycle *)
Lemma chain_deterministic f cs : forall c cs', chain f c cs -> chain f c cs' -> cs = cs'.
Proof using Hg.
  induction cs as [|x cs IH]; intros c [|y cs'] H1 H2; [reflexivity| | |].
  - destruct H2 as (-> & Hv & _). cbn in H1. pose proof (valid_eof y Hv). lia.
  - destruct H1 as (-> & Hv & _). cbn in H2. pose proof (valid_eof x Hv). lia.
  - destruct H1 as (-> & _ & H1), H2 as (-> & _ & H2). f_equal. exact (IH _ _ H1 H2).
Qed.

Lemma chain_suffix f x cs : forall c, chain f c cs -> x ∈ cs -> exists post, chain f x (x :: post) /\ (length (x :: post) <= length cs)%nat.
Proof using.
  induction cs as [|y cs IH]; intros c Hc Hx; [inversion Hx|]. pose proof Hc as (-> & Hv & Hc').
  apply elem_of_cons in Hx as [->|Hx]; [exists cs; split; [exact Hc|lia]|].
  destruct (IH _ Hc' Hx) as (post & Hp & Hl). exists post. split; [exact Hp|cbn in *; lia].
Qed.

Lemma file_chain_NoDup f cs : forall c, chain f c cs -> NoDup cs.
Proof using Hg.
  induction cs as [|x cs IH]; intros c Hc; [constructor|]. pose proof Hc as (-> & Hv & Hc'). constructor; [|exact (IH _ Hc')].
  intros Hx. destruct (chain_suffix f x cs _ Hc' Hx) as (post & Hp & Hl).
  pose proof (chain_deterministic f _ x _ Hc Hp) as E.
  apply (f_equal length) in E. cbn in E, Hl. lia.
Qed.

Lemma chain_length f c cs : chain f c cs -> Z.of_nat (length cs) <= num_clusters d.
Proof using Hg.
  intros Hc. pose proof (file_chain_NoDup f cs c Hc) as Hnd. pose proof (chain_valid f c cs Hc) as Hv.
  destruct (g_num _ _ _ Hg) as [G7 _].
  assert (Hi : incl cs (seqZ 2 (num_clusters d))).
  { intros x Hx. apply list_elem_of_In. apply list_elem_of_In in Hx. rewrite Forall_forall in Hv.
    specialize (Hv x Hx). apply elem_of_seqZ. unfold valid in Hv. lia. }
  apply NoDup_ListNoDup in Hnd. pose proof (NoDup_incl_length Hnd Hi) as Hl. rewrite length_seqZ in Hl. lia.
Qed.

(** ** The bytes of a file *)
Definition file_addr (cs : list Z) (i : Z) : Z := data_addr (nth (Z.to_nat (i / csize)) cs 0) + i mod csize.
Definition file_byte (f : Z -> Z) (cs : list Z) (i : Z) : Z := f (file_addr cs i).

Lemma file_addr_part cs k o : 0 <= k -> 0 <= o < csize ->
  file_addr cs (k * csize + o) = data_addr (nth (Z.to_nat k) cs 0) + o.
Proof using Hg.
  intros Hk Ho. unfold file_addr.
  assert (E1 : (k * csize + o) / csize = k) by (symmetry; apply (Z.div_unique_pos _ _ _ o); lia).
  assert (E2 : (k * csize + o) mod csize = o) by (symmetry; apply (Z.mod_unique_pos _ _ k); lia).
  rewrite E1, E2. reflexivity.
Qed.

Lemma part_of_file f cs k o n : 0 <= k -> 0 <= o -> 0 <= n -> o + n <= csize ->
  map (file_byte f cs) (seqZ (k * csize + o) n) = map f (seqZ (data_addr (nth (Z.to_nat k) cs 0) + o) n).
Proof using Hg.
  intros Hk Ho Hn Hle. rewrite (map_seqZ_shift (file_byte f cs)), (map_seqZ_shift f). apply list_fmap_ext. intros i x Hx.
  apply lookup_seqZ in Hx as [-> Hx]. unfold file_byte. rewrite <- Z.add_assoc, file_addr_part by lia. f_equal. lia.
Qed.

Lemma clusters_of_file f cs n : forall k, 0 <= k -> (Z.to_nat k + n <= length cs)%nat ->
  map (file_byte f cs) (seqZ (k * csize) (Z.of_nat n * csize))
  = concat (map (cluster_bytes f) (take n (drop (Z.to_nat k) cs))).
Proof using Hg.
  destruct sizes_ok as (Hcs & _). induction n as [|n IH]; intros k Hk Hn; [reflexivity|].
  replace (Z.of_nat (Datatypes.S n) * csize) with (csize + Z.of_nat n * csize) by lia. rewrite seqZ_app, map_app by lia.
  destruct (lookup_lt_is_Some_2 cs (Z.to_nat k) ltac:(lia)) as [x Hx].
  rewrite (drop_S _ x _ Hx). cbn [take firstn map concat]. f_equal.
  - pose proof (part_of_file f cs k 0 csize Hk ltac:(lia) ltac:(lia) ltac:(lia)) as E. rewrite !Z.add_0_r in E. rewrite E.
    unfold cluster_bytes. rewrite (nth_lookup_Some cs _ 0 x Hx). reflexivity.
  - replace (k * csize + csize) with ((k + 1) * csize) by lia. rewrite IH by lia.
    replace (Z.to_nat (k + 1)) with (Datatypes.S (Z.to_nat k)) by lia. reflexivity.
Qed.

Lemma chunks_of_file offset size n : 0 <= offset -> 0 <= size < 2 ^ 32 -> offset + size <= n * csize -> n <= num_clusters d ->
  chunks_ok offset size csize (filesystem_chunkify offset size (sub32 csize 1) (cluster_size_log2 d)).
Proof using Hg.
  intros H0 H1 H2 H3. destruct sizes_ok as (Hcs & _ & _ & _ & He). destruct (g_csize_log2 _ _ _ Hg) as [L1 L2].
  destruct (g_num _ _ _ Hg) as [G7 G8]. rewrite sub32_small by lia. unfold FAT32_EOF in *. rewrite L2 in *.
  apply chunkify_ok; try lia. rewrite Z.pow_add_r by lia.
  apply Z.le_lt_trans with (1 := H2). apply Z.mul_lt_mono_pos_r; lia.
Qed.

(** Where the parts of a transfer fall in the chain. *)
Lemma transfer_parts offset size n c : chunks_ok offset size csize c -> 0 <= offset -> 0 < size -> offset + size <= n * csize ->
  let k0 := start_chunk c in let k1 := if start_size c =? 0 then k0 else k0 + 1 in
  0 <= k0 < n /\ 0 <= k1 /\ k1 + num_full_chunks c <= n /\ (0 < end_size c -> k1 + num_full_chunks c < n)
  /\ offset = k0 * csize + start_offset c
  /\ (0 < num_full_chunks c \/ 0 < end_size c -> k1 * csize = offset + start_size c).
Proof using Hg.
  intros [C1 C2 C3 C4 C5 C6 C7] Ho Hs Hle k0 k1. destruct sizes_ok as (Hcs & _).
  pose proof (Z.div_mod offset csize ltac:(lia)) as Hdm. pose proof (Z.mod_pos_bound offset csize ltac:(lia)) as Hmb.
  assert (0 <= offset / csize) by (apply Z.div_pos; lia). subst k0.
  assert (E : offset = start_chunk c * csize + start_offset c) by (rewrite C1, C2; lia).
  assert (H0 : 0 <= start_chunk c < n).
  { rewrite C1. split; [assumption|]. apply Z.div_lt_upper_bound; lia. }
  assert (Hk1 : 0 < num_full_chunks c \/ 0 < end_size c -> k1 * csize = offset + start_size c).
  { intros Hre. specialize (C7 Hre). subst k1. destruct (start_size c =? 0) eqn:Es; [apply Z.eqb_eq in Es|]; lia. }
  split; [exact H0|]. split; [subst k1; destruct (_ =? _); lia|]. split; [|split; [|split; [exact E|exact Hk1]]].
  - destruct (decide (0 < num_full_chunks c)) as [Hf|Hf]; [|subst k1; destruct (_ =? _); lia].
    specialize (Hk1 (or_introl Hf)). apply (Z.mul_le_mono_pos_r _ _ csize); lia.
  - intros He. specialize (Hk1 (or_intror He)). apply (Z.mul_lt_mono_pos_r csize); lia.
Qed.

Lemma chain_drop_head f c cs k : chain f c (drop k cs) -> (k < length cs)%nat ->
  exists x, c = x /\ valid x /\ nth k cs 0 = x /\ chain f (entry f x) (drop (Datatypes.S k) cs).
Proof using.
  intros Hc Hk. destruct (lookup_lt_is_Some_2 cs k Hk) as [x Hx]. rewrite (drop_S _ x _ Hx) in Hc.
  destruct Hc as (-> & Hv & Hc). exists x. split; [reflexivity|]. split; [exact Hv|]. split; [exact (nth_lookup_Some cs _ 0 x Hx)|exact Hc].
Qed.

(** The first, partial cluster of a read. *)
Lemma read_first_spec s c cs k0 c0 : ok s -> chain (view s) c0 (drop (Z.to_nat k0) cs) -> 0 <= k0 < Z.of_nat (length cs) ->
  0 <= start_offset c -> 0 <= start_size c -> start_offset c + start_size c <= csize ->
  exists c1 s1, (if negb (start_size c =? 0) then
        '(l, s) ← vd_read (fat_cluster_to_block d c0) (start_offset c) (start_size c) s;
        '(cluster, s) ← fat_get_next_cluster d c0 s;
        Ok (l, cluster, s)
      else Ok ([], c0, s))
    = Ok (map (file_byte (view s) cs) (seqZ (k0 * csize + start_offset c) (start_size c)), c1, s1)
  /\ same s s1 /\ chain (view s1) c1 (drop (Z.to_nat (if start_size c =? 0 then k0 else k0 + 1)) cs).
Proof using HL Hg.
  intros Hok Hc Hk Ho Hs Hle. destruct (Z.eqb_spec (start_size c) 0) as [->|H0]; cbn [negb].
  - exists c0, s. split; [reflexivity|]. split; [exact (same_refl s Hok)|exact Hc].
  - destruct (chain_drop_head _ _ _ _ Hc ltac:(lia)) as (x & -> & Hv & Hnth & Hc').
    destruct (read_cluster_spec s x (start_offset c) (start_size c) Hok Hv Ho Hs Hle) as (s1 & E1 & Hs1).
    rewrite (bind_Ok_l _ _ _ E1). cbn [mbind outcome_bind].
    destruct (fat_get_next_cluster_spec s1 x (proj1 Hs1) (valid_table x Hv)) as (s2 & E2 & Hs2).
    rewrite (bind_Ok_l _ _ _ E2). cbn [mbind outcome_bind]. pose proof (same_trans _ _ _ Hs1 Hs2) as Hs12.
    eexists _, s2. split; [|split; [exact Hs12|]].
    + rewrite part_of_file, Hnth by lia. reflexivity.
    + rewrite (entry_ext (view s) (view s1) x (valid_table x Hv)) by (intros a _; apply (proj1 (proj2 Hs1))).
      replace (Z.to_nat (k0 + 1)) with (Datatypes.S (Z.to_nat k0)) by lia.
      exact (chain_same (view s) s2 s _ _ Hs12 eq_refl Hc').
Qed.

Lemma file_bytes_same s s' cs l : same s s' -> map (file_byte (view s') cs) l = map (file_byte (view s) cs) l.
Proof using. intros (_ & Hv & _). apply map_ext. intros i. apply Hv. Qed.

Lemma fat_read_spec s c0 cs offset size file : ok s -> fixed_root d file = false ->
  chain (view s) c0 cs -> 0 <= offset -> 0 < size < 2 ^ 32 -> offset + size <= Z.of_nat (length cs) * csize ->
  exists c' s', fat_read d c0 offset size file s = Ok (map (file_byte (view s) cs) (seqZ offset size), c', s')
  /\ same s s'.
Proof using HL Hg.
  intros Hok Hfr Hch Ho Hs Hle. destruct sizes_ok as (Hcs & _). pose proof (chain_length _ _ _ Hch) as Hlen.
  pose proof (chunks_of_file offset size _ Ho ltac:(lia) Hle Hlen) as Hck. unfold fat_read.
  set (c := filesystem_chunkify _ _ _ _) in *. clearbody c.
  destruct (transfer_parts offset size _ c Hck Ho ltac:(lia) Hle) as (T1 & T2 & T3 & T4 & T5 & T6).
  pose proof Hck as [C1 C2 C3 C4 C5 C6 C7]. set (k0 := start_chunk c) in *.
  destruct cs as [|x cs']; [cbn in T1; lia|]. pose proof Hch as (-> & Hvx & _).
  rewrite (proj2 (Z.leb_gt _ _) (valid_eof x Hvx)), Hfr. set (cs := x :: cs') in *.
  destruct (fat_get_relative_cluster_spec (Z.to_nat k0) s x cs Hok Hch ltac:(lia)) as (c1 & s1 & E1 & Hs1 & Hc1).
  rewrite (bind_Ok_l _ _ _ E1). cbn [mbind outcome_bind].
  destruct (chain_drop_head _ _ _ _ Hc1 ltac:(lia)) as (y & -> & Hvy & _).
  rewrite (proj2 (Z.leb_gt _ _) (valid_eof y Hvy)).
  assert (Hso : 0 <= start_offset c) by (rewrite C2; apply Z.mod_pos_bound; lia).
  destruct (read_first_spec s1 c cs k0 y (proj1 Hs1) Hc1 T1 Hso (proj1 (proj1 C4)) (proj2 C4)) as (c2 & s2 & E2 & Hs2 & Hc2).
  rewrite (bind_Ok_l _ _ _ E2). cbn [mbind outcome_bind]. set (k1 := if start_size c =? 0 then k0 else k0 + 1) in *.
  pose proof (same_trans _ _ _ Hs1 Hs2) as Hs12.
  destruct (read_clusters_spec (Z.to_nat (num_full_chunks c)) s2 c2 (drop (Z.to_nat k1) cs) (proj1 Hs12) Hc2
    ltac:(rewrite length_drop; lia)) as (c3 & s3 & E3 & Hs3 & Hc3).
  rewrite (bind_Ok_l _ _ _ E3). cbn [mbind outcome_bind]. pose proof (same_trans _ _ _ Hs12 Hs3) as Hs13.
  rewrite <- (clusters_of_file (view s2) cs _ k1 T2) by lia. rewrite Z2Nat.id by lia.
  assert (H4 : exists s4, (if negb (end_size c =? 0) && (c3 <? eof_value d) then
      vd_read (fat_cluster_to_block d c3) 0 (end_size c) s3 else Ok ([], s3))
    = Ok (map (file_byte (view s) cs) (seqZ ((k1 + num_full_chunks c) * csize) (end_size c)), s4) /\ same s s4).
  { destruct (Z.eqb_spec (end_size c) 0) as [->|He]; cbn [negb andb]; [exists s3; split; [reflexivity|exact Hs13]|].
    rewrite drop_drop in Hc3. specialize (T4 ltac:(lia)).
    replace (Z.to_nat k1 + Z.to_nat (num_full_chunks c))%nat with (Z.to_nat (k1 + num_full_chunks c)) in Hc3 by lia.
    destruct (chain_drop_head _ _ _ _ Hc3 ltac:(lia)) as (z & -> & Hvz & Hnth & _).
    rewrite (proj2 (Z.ltb_lt _ _) (valid_eof z Hvz)).
    destruct (read_cluster_spec s3 z 0 (end_size c) (proj1 Hs3) Hvz ltac:(lia) ltac:(lia) ltac:(lia)) as (s4 & E4 & Hs4).
    exists s4. split; [|exact (same_trans _ _ _ Hs13 Hs4)]. rewrite E4. do 2 f_equal.
    rewrite <- (file_bytes_same s s3 cs _ Hs13). pose proof (part_of_file (view s3) cs (k1 + num_full_chunks c) 0 (end_size c)
      ltac:(lia) ltac:(lia) ltac:(lia) ltac:(lia)) as E. rewrite Z.add_0_r, Hnth in E. symmetry. exact E. }
  destruct H4 as (s4 & E4 & Hs4). rewrite (bind_Ok_l _ _ _ E4). cbn [mbind outcome_bind]. exists c3, s4.
  split; [|exact Hs4]. do 3 f_equal. rewrite (file_bytes_same s s2 cs _ Hs12), (file_bytes_same s s1 cs _ Hs1).
  rewrite C3, !seqZ_app, !map_app, <- T5, <- app_assoc by lia. f_equal.
  destruct (decide (0 < num_full_chunks c \/ 0 < end_size c)) as [Hre|Hre].
  - rewrite <- (T6 Hre). f_equal. do 2 f_equal. rewrite Z.mul_add_distr_r, (T6 Hre). lia.
  - replace (num_full_chunks c) with 0 by lia. replace (end_size c) with 0 by lia. reflexivity.
Qed.

(** C19: reading a file inside its chain of clusters, at any offset and of any size,
    returns that part of the sequence of bytes the chain holds, and changes nothing. *)
Theorem fat_read_correct s c0 cs offset size file : ok s -> fixed_root d file = false ->
  chain (view s) c0 cs -> 0 <= offset -> 0 < size < 2 ^ 32 -> offset + size <= Z.of_nat (length cs) * csize ->
  exists c' s', fat_read d c0 offset size file s = Ok (map (file_byte (view s) cs) (seqZ offset size), c', s')
  /\ same s s'.
Proof using HL Hg. exact (fat_read_spec s c0 cs offset size file). Qed.

(** ** Writing *)
Lemma file_addr_inj cs i j : NoDup cs -> Forall valid cs -> 0 <= i < Z.of_nat (length cs) * csize ->
  0 <= j < Z.of_nat (length cs) * csize -> file_addr cs i = file_addr cs j -> i = j.
Proof using Hg.
  intros Hnd Hv Hi Hj E. destruct sizes_ok as (Hcs & _).
  pose proof (Z.div_mod i csize ltac:(lia)) as Di. pose proof (Z.div_mod j csize ltac:(lia)) as Dj.
  pose proof (Z.mod_pos_bound i csize ltac:(lia)) as Mi. pose proof (Z.mod_pos_bound j csize ltac:(lia)) as Mj.
  assert (Qi : 0 <= i / csize < Z.of_nat (length cs)) by (split; [apply Z.div_pos|apply Z.div_lt_upper_bound]; lia).
  assert (Qj : 0 <= j / csize < Z.of_nat (length cs)) by (split; [apply Z.div_pos|apply Z.div_lt_upper_bound]; lia).
  destruct (lookup_lt_is_Some_2 cs (Z.to_nat (i / csize)) ltac:(lia)) as [x Hx].
  destruct (lookup_lt_is_Some_2 cs (Z.to_nat (j / csize)) ltac:(lia)) as [y Hy].
  unfold file_addr, data_addr in E. rewrite (nth_lookup_Some cs _ 0 x Hx), (nth_lookup_Some cs _ 0 y Hy) in E.
  assert (Hxy : x = y).
  { rewrite Forall_lookup in Hv. pose proof (Hv _ _ Hx) as Vx. pose proof (Hv _ _ Hy) as Vy. unfold valid in *.
    assert (x - 2 = y - 2) by (apply (Z.div_mod_unique csize _ _ (i mod csize) (j mod csize)); lia). lia. }
  subst y. rewrite NoDup_alt in Hnd. pose proof (Hnd _ _ _ Hx Hy) as Heq.
  assert (Hq : i / csize = j / csize) by lia. rewrite Hq in *. lia.
Qed.

Definition stored_file (cs : list Z) (off : Z) (buf : list Z) (f f' : Z -> Z) : Prop :=
  (forall i, 0 <= i < Z.of_nat (length cs) * csize -> file_byte f' cs i =
    if (off <=? i) && (i <? off + Z.of_nat (length buf)) then byte_at buf (i - off) else file_byte f cs i)
  /\ (forall a, (forall i, off <= i < off + Z.of_nat (length buf) -> file_addr cs i <> a) -> f' a = f a).

Definition wrote_file (cs : list Z) (off : Z) (buf : list Z) (s s' : state) : Prop :=
  ok s' /\ stored_file cs off buf (view s) (view s') /\ free_clusters s' = free_clusters s.

Lemma wrote_file_nil cs off s s' : same s s' -> wrote_file cs off [] s s'.
Proof using.
  intros (H1 & H2 & H3). split; [exact H1|]. split; [|exact H3]. split.
  - intros i _. unfold file_byte. rewrite (H2 _). cbn [length]. destruct (Z.leb_spec off i), (Z.ltb_spec i (off + Z.of_nat 0)); try reflexivity; lia.
  - intros a _. apply H2.
Qed.

Lemma wrote_file_app cs off b1 b2 s1 s2 s3 : wrote_file cs off b1 s1 s2 ->
  wrote_file cs (off + Z.of_nat (length b1)) b2 s2 s3 -> wrote_file cs off (b1 ++ b2) s1 s3.
Proof using.
  intros (A1 & [A2 A3] & A4) (B1 & [B2 B3] & B4). split; [exact B1|]. split; [split|congruence].
  - intros i Hi. rewrite (B2 i Hi), (A2 i Hi), length_app.
    destruct (Z.leb_spec off i), (Z.ltb_spec i (off + Z.of_nat (length b1 + length b2))),
      (Z.leb_spec (off + Z.of_nat (length b1)) i), (Z.ltb_spec i (off + Z.of_nat (length b1))),
      (Z.ltb_spec i (off + Z.of_nat (length b1) + Z.of_nat (length b2))); try lia; cbn [andb]; try reflexivity;
      rewrite byte_at_app by lia.
    + rewrite (proj2 (Z.ltb_ge _ _)) by lia. f_equal. lia.
    + rewrite (proj2 (Z.ltb_lt _ _)) by lia. reflexivity.
  - intros a Ha. rewrite length_app in Ha. rewrite B3, A3; [reflexivity| |]; intros i Hi; apply Ha; lia.
Qed.

Lemma wrote_file_same cs off buf s1 s2 s3 : same s1 s2 -> wrote_file cs off buf s2 s3 -> wrote_file cs off buf s1 s3.
Proof using.
  intros H1 H2. apply (wrote_file_app cs off [] buf s1 s2 s3 (wrote_file_nil cs off s1 s2 H1)).
  cbn [length]. rewrite Z.add_0_r. exact H2.
Qed.
Lemma wrote_file_same_r cs off buf s1 s2 s3 : wrote_file cs off buf s1 s2 -> same s2 s3 -> wrote_file cs off buf s1 s3.
Proof using.
  intros H1 H2. rewrite <- (app_nil_r buf). apply (wrote_file_app cs off buf [] s1 s2 s3 H1), wrote_file_nil, H2.
Qed.

(** Writing part of a cluster of the file. *)
Lemma write_cluster_spec s cs k o buf : ok s -> NoDup cs -> Forall valid cs -> 0 <= k < Z.of_nat (length cs) ->
  0 <= o -> o + Z.of_nat (length buf) <= csize ->
  exists s', vd_write (fat_cluster_to_block d (nth (Z.to_nat k) cs 0)) o buf s = Ok s'
  /\ wrote_file cs (k * csize + o) buf s s'.
Proof using HL Hg.
  intros Hok Hnd Hv Hk Ho Hle. destruct sizes_ok as (Hcs & _).
  destruct (lookup_lt_is_Some_2 cs (Z.to_nat k) ltac:(lia)) as [x Hx].
  assert (Hvx : valid x) by (rewrite Forall_lookup in Hv; exact (Hv _ _ Hx)).
  destruct (block_of_cluster x Hvx) as (B1 & B2 & B3). rewrite (nth_lookup_Some cs _ 0 x Hx).
  destruct (vd_write_spec s (fat_cluster_to_block d x) o buf Hok B1 Ho ltac:(lia) ltac:(lia)) as (s' & E & (Hok' & Hst & Hfr)).
  exists s'. split; [exact E|]. split; [exact Hok'|]. split; [|exact Hfr]. rewrite B2 in Hst.
  assert (Haddr : forall o', 0 <= o' < csize -> file_addr cs (k * csize + o') = data_addr x + o')
    by (intros o' Ho'; rewrite file_addr_part, (nth_lookup_Some cs _ 0 x Hx) by lia; reflexivity).
  assert (Hkn : 0 <= k * csize /\ k * csize + csize <= Z.of_nat (length cs) * csize).
  { split; [apply Z.mul_nonneg_nonneg; lia|]. assert ((k + 1) * csize <= Z.of_nat (length cs) * csize)
      by (apply Z.mul_le_mono_nonneg_r; lia). lia. }
  split.
  - intros i Hi. unfold file_byte. rewrite (Hst (file_addr cs i)).
    destruct (Z.leb_spec (data_addr x + o) (file_addr cs i)) as [L1|L1],
      (Z.ltb_spec (file_addr cs i) (data_addr x + o + Z.of_nat (length buf))) as [L2|L2]; cbn [andb].
    + assert (i = k * csize + (file_addr cs i - data_addr x)) as Hi'
        by (apply (file_addr_inj cs); try assumption; [lia|rewrite Haddr; lia]).
      rewrite (proj2 (Z.leb_le _ _)), (proj2 (Z.ltb_lt _ _)) by lia. cbn [andb]. f_equal. lia.
    + destruct (Z.leb_spec (k * csize + o) i), (Z.ltb_spec i (k * csize + o + Z.of_nat (length buf))); try reflexivity.
      pose proof (Haddr (i - k * csize) ltac:(lia)) as E1. replace (k * csize + (i - k * csize)) with i in E1 by lia. lia.
    + destruct (Z.leb_spec (k * csize + o) i), (Z.ltb_spec i (k * csize + o + Z.of_nat (length buf))); try reflexivity.
      pose proof (Haddr (i - k * csize) ltac:(lia)) as E1. replace (k * csize + (i - k * csize)) with i in E1 by lia. lia.
    + destruct (Z.leb_spec (k * csize + o) i), (Z.ltb_spec i (k * csize + o + Z.of_nat (length buf))); try reflexivity.
      pose proof (Haddr (i - k * csize) ltac:(lia)) as E1. replace (k * csize + (i - k * csize)) with i in E1 by lia. lia.
  - intros a Ha. rewrite (Hst a). destruct (Z.leb_spec (data_addr x + o) a), (Z.ltb_spec a (data_addr x + o + Z.of_nat (length buf)));
      try reflexivity. exfalso. apply (Ha (k * csize + (a - data_addr x))); [lia|]. rewrite Haddr by lia. lia.
Qed.

Lemma file_addr_data cs i : Forall valid cs -> 0 <= i < Z.of_nat (length cs) * csize -> data_start <= file_addr cs i.
Proof using Hg.
  intros Hv Hi. destruct sizes_ok as (Hcs & _). pose proof (Z.mod_pos_bound i csize ltac:(lia)).
  destruct (lookup_lt_is_Some_2 cs (Z.to_nat (i / csize))) as [x Hx].
  { assert (0 <= i / csize) by (apply Z.div_pos; lia). assert (i / csize < Z.of_nat (length cs)) by (apply Z.div_lt_upper_bound; lia). lia. }
  unfold file_addr, data_addr. rewrite (nth_lookup_Some cs _ 0 x Hx). rewrite Forall_lookup in Hv.
  pose proof (Hv _ _ Hx) as Vx. unfold valid in Vx. assert (0 <= (x - 2) * csize) by (apply Z.mul_nonneg_nonneg; lia). lia.
Qed.

(** A write to a file leaves the table alone. *)
Lemma wrote_table cs off buf s s' : wrote_file cs off buf s s' -> Forall valid cs -> 0 <= off ->
  off + Z.of_nat (length buf) <= Z.of_nat (length cs) * csize ->
  forall a, fat_block d * bs <= a < data_start -> view s' a = view s a.
Proof using Hg.
  intros (_ & [_ H] & _) Hv Ho Hle a Ha. apply H. intros i Hi E. pose proof (file_addr_data cs i Hv ltac:(lia)). lia.
Qed.

Lemma wrote_chain cs off buf s s' c l : wrote_file cs off buf s s' -> Forall valid cs -> 0 <= off ->
  off + Z.of_nat (length buf) <= Z.of_nat (length cs) * csize -> chain (view s) c l -> chain (view s') c l.
Proof using Hg. intros H Hv Ho Hle. apply chain_ext. exact (wrote_table cs off buf s s' H Hv Ho Hle). Qed.

(** The clusters a chain is made of, while it is written. *)
Definition on_chain (s : state) (cs : list Z) (k : Z) (c : Z) : Prop := chain (view s) c (drop (Z.to_nat k) cs).

Lemma next_on_chain s cs k c : ok s -> on_chain s cs k c -> 0 <= k < Z.of_nat (length cs) ->
  c = nth (Z.to_nat k) cs 0 /\ c < eof_value d
  /\ exists c' s', fat_get_next_cluster d c s = Ok (c', s') /\ same s s' /\ on_chain s' cs (k + 1) c'.
Proof using HL Hg.
  intros Hok Hc Hk. destruct (chain_drop_head _ _ _ _ Hc ltac:(lia)) as (x & -> & Hv & Hnth & Hc').
  split; [symmetry; exact Hnth|]. split; [exact (valid_eof x Hv)|].
  destruct (fat_get_next_cluster_spec s x Hok (valid_table x Hv)) as (s' & E & Hs). eexists _, s'.
  split; [exact E|]. split; [exact Hs|]. unfold on_chain. replace (Z.to_nat (k + 1)) with (Datatypes.S (Z.to_nat k)) by lia.
  exact (chain_same _ s' s _ _ Hs eq_refl Hc').
Qed.

(** One piece: write it, go to the next cluster. *)
Lemma write_step s cs k c o buf : ok s -> NoDup cs -> Forall valid cs -> on_chain s cs k c -> 0 <= k < Z.of_nat (length cs) ->
  0 <= o -> o + Z.of_nat (length buf) <= csize ->
  exists s1 c' s', vd_write (fat_cluster_to_block d c) o buf s = Ok s1 /\ fat_get_next_cluster d c s1 = Ok (c', s')
  /\ wrote_file cs (k * csize + o) buf s s' /\ on_chain s' cs (k + 1) c'.
Proof using HL Hg.
  intros Hok Hnd Hv Hc Hk Ho Hle. destruct sizes_ok as (Hcs & _).
  destruct (next_on_chain s cs k c Hok Hc Hk) as (-> & _ & _).
  destruct (write_cluster_spec s cs k o buf Hok Hnd Hv Hk Ho Hle) as (s1 & E1 & Hw1).
  assert (Hkn : 0 <= k * csize + o /\ k * csize + o + Z.of_nat (length buf) <= Z.of_nat (length cs) * csize).
  { assert (0 <= k * csize) by (apply Z.mul_nonneg_nonneg; lia).
    assert ((k + 1) * csize <= Z.of_nat (length cs) * csize) by (apply Z.mul_le_mono_nonneg_r; lia). lia. }
  pose proof (wrote_chain cs _ buf s s1 _ _ Hw1 Hv (proj1 Hkn) (proj2 Hkn) Hc) as Hc1.
  destruct (next_on_chain s1 cs k _ (proj1 Hw1) Hc1 Hk) as (_ & _ & c' & s' & E2 & Hs & Hc').
  exists s1, c', s'. split; [exact E1|]. split; [exact E2|]. split; [exact (wrote_file_same_r _ _ _ _ _ _ Hw1 Hs)|exact Hc'].
Qed.

Lemma write_clusters_spec n : forall s cs k c buf, ok s -> NoDup cs -> Forall valid cs -> on_chain s cs k c -> 0 <= k ->
  k + Z.of_nat n <= Z.of_nat (length cs) -> Z.of_nat n * csize <= Z.of_nat (length buf) ->
  exists c' s', write_clusters d n c buf s = Ok (c', drop (Z.to_nat (Z.of_nat n * csize)) buf, s')
  /\ wrote_file cs (k * csize) (take (Z.to_nat (Z.of_nat n * csize)) buf) s s' /\ on_chain s' cs (k + Z.of_nat n) c'.
Proof using HL Hg.
  destruct sizes_ok as (Hcs & _). induction n as [|n IH]; intros s cs k c buf Hok Hnd Hv Hc Hk Hn Hl.
  - exists c, s. rewrite Z.add_0_r. split; [reflexivity|]. split; [exact (wrote_file_nil cs _ s s (same_refl s Hok))|exact Hc].
  - cbn [write_clusters]. destruct (next_on_chain s cs k c Hok Hc ltac:(lia)) as (_ & Hlt & _).
    rewrite (proj2 (Z.ltb_lt _ _) Hlt).
    assert (Hlt1 : Z.of_nat (length (take (Z.to_nat csize) buf)) = csize) by (rewrite length_take; lia).
    destruct (write_step s cs k c 0 (take (Z.to_nat csize) buf) Hok Hnd Hv Hc ltac:(lia) ltac:(lia) ltac:(lia))
      as (s1 & c1 & s2 & E1 & E2 & Hw & Hc1). rewrite (bind_Ok_l _ _ _ E1), (bind_Ok_l _ _ _ E2). cbn [mbind outcome_bind].
    destruct (IH s2 cs (k + 1) c1 (drop (Z.to_nat csize) buf) (proj1 Hw) Hnd Hv Hc1 ltac:(lia) ltac:(lia)
      ltac:(rewrite length_drop; lia)) as (c3 & s3 & E3 & Hw3 & Hc3).
    exists c3, s3. replace (Z.to_nat (Z.of_nat (Datatypes.S n) * csize)) with (Z.to_nat csize + Z.to_nat (Z.of_nat n * csize))%nat by lia.
    rewrite <- drop_drop, <- take_take_drop. split; [exact E3|]. split.
    + apply (wrote_file_app _ _ _ _ _ s2); [rewrite Z.add_0_r in Hw; exact Hw|]. rewrite Hlt1.
      replace (k * csize + csize) with ((k + 1) * csize) by lia. exact Hw3.
    + replace (k + Z.of_nat (Datatypes.S n)) with (k + 1 + Z.of_nat n) by lia. exact Hc3.
Qed.

(** The first, partial cluster of a write. *)
Lemma write_first_spec s c cs k0 c0 buf : ok s -> NoDup cs -> Forall valid cs -> on_chain s cs k0 c0 ->
  0 <= k0 < Z.of_nat (length cs) -> 0 <= start_offset c -> 0 <= start_size c <= Z.of_nat (length buf) ->
  start_offset c + start_size c <= csize ->
  exists c1 s1, (if negb (start_size c =? 0) then
        let '(now, rest) := split_at (start_size c) buf in
        s ← vd_write (fat_cluster_to_block d c0) (start_offset c) now s;
        '(cluster, s) ← fat_get_next_cluster d c0 s;
        Ok (cluster, rest, s)
      else Ok (c0, buf, s)) = Ok (c1, drop (Z.to_nat (start_size c)) buf, s1)
  /\ wrote_file cs (k0 * csize + start_offset c) (take (Z.to_nat (start_size c)) buf) s s1
  /\ on_chain s1 cs (if start_size c =? 0 then k0 else k0 + 1) c1.
Proof using HL Hg.
  intros Hok Hnd Hv Hc Hk Ho Hs Hle. destruct (Z.eqb_spec (start_size c) 0) as [->|H0]; cbn [negb].
  - exists c0, s. split; [reflexivity|]. split; [exact (wrote_file_nil cs _ s s (same_refl s Hok))|exact Hc].
  - unfold split_at.
    destruct (write_step s cs k0 c0 (start_offset c) (take (Z.to_nat (start_size c)) buf) Hok Hnd Hv Hc Hk Ho
      ltac:(rewrite length_take; lia)) as (s1 & c1 & s2 & E1 & E2 & Hw & Hc1).
    rewrite (bind_Ok_l _ _ _ E1), (bind_Ok_l _ _ _ E2). exists c1, s2. split; [reflexivity|]. split; [exact Hw|exact Hc1].
Qed.

Lemma fat_write_spec s c0 cs offset buf file : ok s -> fixed_root d file = false ->
  chain (view s) c0 cs -> 0 <= offset -> 0 < Z.of_nat (length buf) < 2 ^ 32 ->
  offset + Z.of_nat (length buf) <= Z.of_nat (length cs) * csize ->
  exists c' s', fat_write d buf c0 offset file s = Ok (c', s')
  /\ wrote_file cs offset buf s s' /\ chain (view s') c0 cs.
Proof using HL Hg.
  intros Hok Hfr Hch Ho Hs Hle. destruct sizes_ok as (Hcs & _). pose proof (chain_length _ _ _ Hch) as Hlen.
  pose proof (file_chain_NoDup _ _ _ Hch) as Hnd. pose proof (chain_valid _ _ _ Hch) as Hv.
  set (size := Z.of_nat (length buf)) in *.
  enough (He : exists c' s', fat_write d buf c0 offset file s = Ok (c', s') /\ wrote_file cs offset buf s s').
  { destruct He as (c' & s' & E & Hw). exists c', s'. split; [exact E|]. split; [exact Hw|].
    exact (wrote_chain cs offset buf s s' _ _ Hw Hv Ho Hle Hch). }
  pose proof (chunks_of_file offset size _ Ho ltac:(lia) Hle Hlen) as Hck. unfold fat_write. fold size.
  set (c := filesystem_chunkify _ _ _ _) in *. clearbody c.
  destruct (transfer_parts offset size _ c Hck Ho ltac:(lia) Hle) as (T1 & T2 & T3 & T4 & T5 & T6).
  pose proof Hck as [C1 C2 C3 C4 C5 C6 C7]. set (k0 := start_chunk c) in *. rewrite Hfr.
  assert (Hc0 : c0 < eof_value d).
  { destruct cs as [|x cs']; [cbn in T1; lia|]. destruct Hch as (-> & Hvx & _). exact (valid_eof x Hvx). }
  rewrite (proj2 (Z.leb_gt _ _) Hc0).
  destruct (fat_get_relative_cluster_spec (Z.to_nat k0) s c0 cs Hok Hch ltac:(lia)) as (c1 & s1 & E1 & Hs1 & Hc1).
  rewrite (bind_Ok_l _ _ _ E1). cbn [mbind outcome_bind].
  assert (Hso : 0 <= start_offset c) by (rewrite C2; apply Z.mod_pos_bound; lia).
  assert (Hparts : 0 <= num_full_chunks c * csize) by (apply Z.mul_nonneg_nonneg; lia).
  destruct (write_first_spec s1 c cs k0 c1 buf (proj1 Hs1) Hnd Hv Hc1 T1 Hso ltac:(lia) (proj2 C4)) as (c2 & s2 & E2 & Hw2 & Hc2).
  rewrite (bind_Ok_l _ _ _ E2). cbn [mbind outcome_bind]. set (k1 := if start_size c =? 0 then k0 else k0 + 1) in *.
  rewrite <- T5 in Hw2. set (n0 := Z.to_nat (start_size c)) in *.
  destruct (write_clusters_spec (Z.to_nat (num_full_chunks c)) s2 cs k1 c2 (drop n0 buf) (proj1 Hw2) Hnd Hv Hc2 T2
    ltac:(lia) ltac:(rewrite length_drop; lia)) as (c3 & s3 & E3 & Hw3 & Hc3).
  rewrite (bind_Ok_l _ _ _ E3). cbn [mbind outcome_bind]. rewrite Z2Nat.id in * by lia. set (n1 := Z.to_nat (num_full_chunks c * csize)) in *.
  assert (Hl0 : Z.of_nat (length (take n0 buf)) = start_size c) by (rewrite length_take; lia).
  assert (Hl1 : Z.of_nat (length (take n1 (drop n0 buf))) = num_full_chunks c * csize) by (rewrite length_take, length_drop; lia).
  assert (Hl2 : Z.of_nat (length (drop n1 (drop n0 buf))) = end_size c) by (rewrite !length_drop; lia).
  assert (Hw23 : wrote_file cs offset (take n0 buf ++ take n1 (drop n0 buf)) s1 s3).
  { destruct (decide (0 < num_full_chunks c \/ 0 < end_size c)) as [Hre|Hre].
    - apply (wrote_file_app _ _ _ _ _ s2 _ Hw2). rewrite Hl0, <- (T6 Hre). exact Hw3.
    - assert (Hz : num_full_chunks c = 0) by lia. assert (En1 : n1 = 0%nat) by (subst n1; rewrite Hz; reflexivity).
      rewrite En1 in *. cbn [take firstn] in *. rewrite app_nil_r.
      apply (wrote_file_same_r _ _ _ _ s2 _ Hw2). destruct Hw3 as (W1 & [_ W2] & W3).
      split; [exact W1|]. split; [|exact W3]. intros a. apply W2. cbn [length]. lia. }
  pose proof (wrote_file_same _ _ _ _ _ _ Hs1 Hw23) as Hw03.
  destruct (Z.eqb_spec (end_size c) 0) as [He|He]; cbn [negb andb].
  - exists c3, s3. split; [reflexivity|].
    assert (Hz : drop n1 (drop n0 buf) = []) by (apply nil_length_inv; lia).
    rewrite <- (take_drop n0 buf), <- (take_drop n1 (drop n0 buf)), Hz, app_nil_r. exact Hw03.
  - specialize (T4 ltac:(lia)). destruct (next_on_chain s3 cs _ c3 (proj1 Hw3) Hc3 ltac:(lia)) as (-> & Hlt3 & _).
    rewrite (proj2 (Z.ltb_lt _ _) Hlt3), (take_ge (drop n1 (drop n0 buf))) by lia.
    destruct (write_cluster_spec s3 cs (k1 + num_full_chunks c) 0 (drop n1 (drop n0 buf)) (proj1 Hw3) Hnd Hv ltac:(lia)
      ltac:(lia) ltac:(lia)) as (s4 & E4 & Hw4).
    rewrite (bind_Ok_l _ _ _ E4). eexists _, s4. split; [reflexivity|].
    rewrite <- (take_drop n0 buf), <- (take_drop n1 (drop n0 buf)) at 1. rewrite app_assoc.
    apply (wrote_file_app _ _ _ _ _ s3 _ Hw03). rewrite length_app, Nat2Z.inj_add, Hl0, Hl1.
    rewrite Z.add_0_r in Hw4. replace (offset + (start_size c + num_full_chunks c * csize)) with ((k1 + num_full_chunks c) * csize)
      by (rewrite Z.mul_add_distr_r, T6 by lia; lia). exact Hw4.
Qed.

(** C20: writing inside the chain of a file puts exactly the buffer at its offset: every
    other byte of the file, every other file and the table keep their contents. *)
Theorem fat_write_correct s c0 cs offset buf file : ok s -> fixed_root d file = false ->
  chain (view s) c0 cs -> 0 <= offset -> 0 < Z.of_nat (length buf) < 2 ^ 32 ->
  offset + Z.of_nat (length buf) <= Z.of_nat (length cs) * csize ->
  exists c' s', fat_write d buf c0 offset file s = Ok (c', s')
  /\ wrote_file cs offset buf s s' /\ chain (view s') c0 cs.
Proof using HL Hg. exact (fat_write_spec s c0 cs offset buf file). Qed.

Lemma read_back cs offset buf f f' : stored_file cs offset buf f f' -> 0 <= offset ->
  offset + Z.of_nat (length buf) <= Z.of_nat (length cs) * csize ->
  map (file_byte f' cs) (seqZ offset (Z.of_nat (length buf))) = buf.
Proof using.
  intros [H _] Ho Hle. rewrite (map_seqZ_shift (file_byte f' cs)). symmetry. apply bytes_eq; [reflexivity|].
  intros i Hi. rewrite H by lia. rewrite (proj2 (Z.leb_le _ _)), (proj2 (Z.ltb_lt _ _)) by lia. cbn [andb]. f_equal. lia.
Qed.

(** What was written to a file is what is read back from it. *)
Theorem fat_write_read s c0 cs offset buf file : ok s -> fixed_root d file = false ->
  chain (view s) c0 cs -> 0 <= offset -> 0 < Z.of_nat (length buf) < 2 ^ 32 ->
  offset + Z.of_nat (length buf) <= Z.of_nat (length cs) * csize ->
  exists c1 s1 c2 s2, fat_write d buf c0 offset file s = Ok (c1, s1)
  /\ fat_read d c0 offset (Z.of_nat (length buf)) file s1 = Ok (buf, c2, s2).
Proof using HL Hg.
  intros Hok Hfr Hch Ho Hs Hle.
  destruct (fat_write_spec s c0 cs offset buf file Hok Hfr Hch Ho Hs Hle) as (c1 & s1 & E1 & Hw & Hc1).
  destruct (fat_read_spec s1 c0 cs offset (Z.of_nat (length buf)) file (proj1 Hw) Hfr Hc1 Ho Hs Hle) as (c2 & s2 & E2 & _).
  exists c1, s1, c2, s2. split; [exact E1|]. rewrite E2, (read_back cs offset buf _ _ (proj1 (proj2 Hw)) Ho Hle). reflexivity.
Qed.
End volume.

(** ** A FAT12 volume in plain memory *)
(** One reserved sector, the table in block 1, the root directory in block 2, and a
    file in the clusters 2 and 4. *)
Definition floppy : fat_drive := mk_fat 1 2 3 512 9 1 0 512 16 1 20 1 0 1 FAT12_EOF FAT_12.
Definition floppy_bytes (a : Z) : Z :=
  if (512 <=? a) && (a <? 1024) then byte_at [0xF0; 0xFF; 0xFF; 0x04; 0; 0; 0xFF; 0x0F] (a - 512) else a mod 251.
Definition floppy0 : fat_state (Z -> Z) := mk_fs floppy_bytes [].
Definition some_file : file_data_block := mk_fdb 2 0 1024 0 (mk_fmt 0 0).

Lemma floppy_geometry : geometry floppy 512 64.
Proof. constructor; try reflexivity; try (vm_compute; repeat split; discriminate). left. reflexivity. Qed.

Lemma floppy_ok : ok 512 64 floppy0.
Proof. exact I. Qed.

Lemma floppy_chain : chain 512 floppy (view 512 64 floppy0) 2 [2; 4].
Proof. split; [reflexivity|]. split; [unfold valid; cbn; lia|]. split; [reflexivity|]. split; [unfold valid; cbn; lia|]. vm_compute. discriminate. Qed.

Lemma fat_read_correct_witness : exists c s', fat_read floppy 2 500 100 some_file floppy0
  = Ok (map floppy_bytes (seqZ (3 * 512 + 500) 12 ++ seqZ (5 * 512) 88), c, s').
Proof.
  destruct (fat_read_correct 512 64 floppy floppy_geometry floppy0 2 [2; 4] 500 100 some_file floppy_ok eq_refl floppy_chain
    ltac:(lia) ltac:(lia) ltac:(cbn; lia)) as (c & s' & E & _). exists c, s'. rewrite E. do 3 f_equal.
Defined.

Lemma fat_write_correct_witness : exists c s', fat_write floppy (repeat 7 100) 2 500 some_file floppy0 = Ok (c, s')
  /\ view 512 64 s' (5 * 512 + 10) = 7 /\ view 512 64 s' (4 * 512 + 10) = floppy_bytes (4 * 512 + 10).
Proof.
  destruct (fat_write_correct 512 64 floppy floppy_geometry floppy0 2 [2; 4] 500 (repeat 7 100) some_file floppy_ok eq_refl floppy_chain
    ltac:(lia) ltac:(rewrite repeat_length; lia) ltac:(rewrite repeat_length; cbn; lia)) as (c & s' & E & (_ & [Hin Hout] & _) & _). exists c, s'. split; [exact E|]. split.
  - exact (eq_trans (Hin 522 ltac:(cbn; lia)) eq_refl).
  - apply Hout. intros i Hi Heq. rewrite repeat_length in Hi.
    unfold file_addr, data_addr in Heq. change (cluster_size floppy) with 512 in Heq.
    change (data_start 512 floppy) with 1536 in Heq. pose proof (Z.div_mod i 512 ltac:(lia)).
    pose proof (Z.mod_pos_bound i 512 ltac:(lia)). assert (Hq : i / 512 = 0 \/ i / 512 = 1) by lia.
    destruct Hq as [Hq|Hq]; rewrite Hq in Heq;
      [change (nth (Z.to_nat 0) [2; 4] 0) with 2 in Heq|change (nth (Z.to_nat 1) [2; 4] 0) with 4 in Heq]; lia.
Defined.

Lemma fat_write_read_witness : exists c s1 c' s2, fat_write floppy [10; 20; 30] 2 511 some_file floppy0 = Ok (c, s1)
  /\ fat_read floppy 2 511 3 some_file s1 = Ok ([10; 20; 30], c', s2).
Proof.
  exact (fat_write_read 512 64 floppy floppy_geometry floppy0 2 [2; 4] 511 [10; 20; 30] some_file floppy_ok eq_refl floppy_chain
    ltac:(lia) ltac:(cbn; lia) ltac:(cbn; lia)).
Defined.
