(* ===== verification/FatVolume.v ===== *)
(** * Mounting and the table of a FAT volume

    The boot sector of a well-formed volume gives sound parameters, and an entry that
    is set is the entry that is found, the twelve-bit entries that share a byte
    included.  A FAT12 volume in plain memory is the concrete input of the theorems. *)
From S2P Require Import Prelude FsUtil Drives DrivesProofs BlockStore Vfs Fat FatProofs.

(** ** The boot sector *)
Definition bpb_data (b : bpb) : Z :=
  number_of_FATs b * sectors_per_FAT b + bpb_reserved_sectors b + sizeof_directory_entry * bpb_root_entries b / bpb_bytes_per_sector b.
Definition bpb_total (b : bpb) : Z := if total_sectors b =? 0 then total_sectors_big b else total_sectors b.
Definition bpb_clusters (b : bpb) : Z := (bpb_total b - bpb_data b) / bpb_sectors_per_cluster b.
Definition bpb_kind (b : bpb) : fat_type := if bpb_clusters b <? 0xFF5 then FAT_12 else FAT_16.

(** A FAT12 or FAT16 boot sector as a formatter writes it, on a drive of [cap] blocks
    of [2 ^ k] bytes. *)
Record bpb_ok (b : bpb) (k m p cap : Z) : Prop := {
  b_code : nth 0 (boot_code b) 0 = 0xEB /\ nth 2 (boot_code b) 0 = 0x90;
  b_sector : 0 <= k <= m /\ m < 16 /\ bpb_bytes_per_sector b = 2 ^ m;
  b_cluster : 0 <= p < 8 /\ bpb_sectors_per_cluster b = 2 ^ p;
  b_fields : 0 <= number_of_FATs b /\ 0 <= sectors_per_FAT b /\ 0 <= bpb_reserved_sectors b /\ 0 <= bpb_root_entries b;
  b_total : bpb_data b <= bpb_total b /\ bpb_total b * 2 ^ (m - k) <= cap < 2 ^ 32;
  b_kind : bpb_clusters b < 0xFFF5;
  b_table : table_bytes (bpb_kind b) (bpb_clusters b + 2) <= number_of_FATs b * sectors_per_FAT b * 2 ^ m }.

Lemma bpb_bounds b k m p cap : bpb_ok b k m p cap ->
  0 <= bpb_data b /\ bpb_total b < 2 ^ 32 /\ 0 <= bpb_clusters b
  /\ bpb_data b + bpb_clusters b * 2 ^ p <= bpb_total b /\ 0 < 2 ^ p /\ 0 < 2 ^ k <= 2 ^ m /\ 0 < 2 ^ (m - k)
  /\ 2 ^ m = 2 ^ (m - k) * 2 ^ k /\ bpb_reserved_sectors b <= bpb_data b.
Proof.
  intros [_ (M1 & M2 & M3) (P1 & P2) (F1 & F2 & F3 & F4) (T1 & T2 & T3) _ _].
  assert (Hp : 0 < 2 ^ p) by (apply Z.pow_pos_nonneg; lia). assert (Hk : 0 < 2 ^ k) by (apply Z.pow_pos_nonneg; lia).
  assert (Hq : 0 < 2 ^ (m - k)) by (apply Z.pow_pos_nonneg; lia).
  assert (Hm : 2 ^ m = 2 ^ (m - k) * 2 ^ k) by (rewrite <- Z.pow_add_r by lia; f_equal; lia).
  assert (Hkm : 2 ^ k <= 2 ^ m) by (apply Z.pow_le_mono_r; lia).
  assert (Hr : 0 <= sizeof_directory_entry * bpb_root_entries b / bpb_bytes_per_sector b).
  { apply Z.div_pos; [unfold sizeof_directory_entry; lia|]. rewrite M3. lia. }
  assert (Hf : 0 <= number_of_FATs b * sectors_per_FAT b) by (apply Z.mul_nonneg_nonneg; lia).
  assert (Hd : 0 <= bpb_data b) by (unfold bpb_data; lia).
  assert (Ht : bpb_total b * 1 <= bpb_total b * 2 ^ (m - k)) by (apply Z.mul_le_mono_nonneg_l; lia).
  unfold bpb_clusters. rewrite P2. split; [exact Hd|]. split; [lia|].
  assert (Hc : 0 <= (bpb_total b - bpb_data b) / 2 ^ p) by (apply Z.div_pos; lia). split; [exact Hc|].
  split; [pose proof (Z.mul_div_le (bpb_total b - bpb_data b) (2 ^ p) Hp); lia|].
  split; [exact Hp|]. split; [lia|]. split; [exact Hq|]. split; [exact Hm|]. unfold bpb_data. lia.
Qed.

(** a FAT12 or FAT16 boot sector mounts, and the parameters computed from it are
    sound: the table and the data fit on the drive, every cluster number is below the
    end mark, and the shifts stand for the divisions and products they replace. *)
Theorem fat_read_bios_block_correct buffer k m p cap : bpb_ok (read_bpb buffer) k m p cap ->
  exists d, fat_read_bios_block buffer (2 ^ k) = Ok (MOUNT_SUCCESS, Some d) /\ geometry d (2 ^ k) cap
  /\ fat_kind d = bpb_kind (read_bpb buffer) /\ num_clusters d = bpb_clusters (read_bpb buffer)
  /\ bytes_per_sector d = 2 ^ m /\ blocks_per_sector d = 2 ^ (m - k)
  /\ fat_block d = reserved_sectors d * blocks_per_sector d.
Proof.
  intros Hb. destruct (bpb_bounds _ _ _ _ _ Hb) as (D1 & D2 & D3 & D4 & D5 & D6 & D7 & D8 & D9).
  pose proof Hb as [(C1 & C2) (M1 & M2 & M3) (P1 & P2) _ (T1 & T2 & T3) K Tb].
  unfold fat_read_bios_block. set (b := read_bpb buffer) in *. clearbody b. cbv zeta. rewrite C1, C2, M3. cbn [Z.eqb Pos.eqb negb orb].
  rewrite has_single_bit_pow2 by lia. cbn [negb].
  rewrite (proj2 (Z.ltb_ge (2 ^ m) (2 ^ k))), (proj2 (Z.eqb_neq (2 ^ k) 0)), P2, (proj2 (Z.eqb_neq (2 ^ p) 0)),
    (proj2 (Z.eqb_neq (2 ^ m) 0)) by lia. cbn [orb].
  assert (Ed : number_of_FATs b * sectors_per_FAT b + bpb_reserved_sectors b + sizeof_directory_entry * bpb_root_entries b / 2 ^ m
    = bpb_data b) by (unfold bpb_data; rewrite M3; reflexivity).
  rewrite Ed. fold (bpb_total b). rewrite (sub32_small (bpb_total b)) by lia.
  assert (Ec : (bpb_total b - bpb_data b) / 2 ^ p = bpb_clusters b) by (unfold bpb_clusters; rewrite P2; reflexivity).
  rewrite Ec. assert (Eq : 2 ^ m / 2 ^ k = 2 ^ (m - k)) by (rewrite D8, Z.div_mul by lia; reflexivity). rewrite Eq.
  replace (2 ^ p * 2 ^ m) with (2 ^ (p + m)) by (apply Z.pow_add_r; lia). rewrite !countr_zero_pow2 by lia.
  rewrite mul32_small.
  2: { assert (0 <= bpb_reserved_sectors b) by apply (b_fields _ _ _ _ _ Hb). split; [apply Z.mul_nonneg_nonneg; lia|].
       apply Z.le_lt_trans with (2 := T3). apply Z.le_trans with (2 := T2). apply Z.mul_le_mono_nonneg_r; lia. }
  rewrite (proj2 (Z.ltb_lt (bpb_clusters b) 0xFFF5)) by lia.
  assert (Hgeo : forall t eof root, t = bpb_kind b -> eof = match t with FAT_12 => FAT12_EOF | FAT_16 => FAT16_EOF | _ => FAT32_EOF end ->
    geometry (mk_fat (number_of_FATs b * sectors_per_FAT b) root (bpb_data b) (2 ^ (p + m)) (p + m) (2 ^ p) p (2 ^ m)
      (bpb_root_entries b) (bpb_reserved_sectors b) (bpb_clusters b) (2 ^ (m - k)) (m - k)
      (bpb_reserved_sectors b * 2 ^ (m - k)) eof t) (2 ^ k) cap).
  { intros t eof root -> ->. unfold bpb_kind in *.
    constructor; cbn [fat_kind eof_value num_clusters sectors_per_cluster_log2 blocks_per_sector_log2 cluster_size
      cluster_size_log2 datasector fat_block]; try lia.
    - destruct (_ <? _); auto.
    - unfold FAT12_EOF, FAT16_EOF. destruct (Z.ltb_spec (bpb_clusters b) 0xFF5); lia.
    - rewrite <- Z.pow_add_r by lia. f_equal. lia.
    - split; [exact D1|]. apply Z.le_trans with (2 := T2). apply Z.mul_le_mono_nonneg_r; lia.
    - assert (0 <= bpb_reserved_sectors b) by apply (b_fields _ _ _ _ _ Hb).
      split; [apply Z.mul_nonneg_nonneg; lia|]. rewrite <- !Z.mul_assoc, <- D8.
      assert (Hroot : 0 <= sizeof_directory_entry * bpb_root_entries b / bpb_bytes_per_sector b).
      { apply Z.div_pos; [|rewrite M3; lia]. pose proof (b_fields _ _ _ _ _ Hb). unfold sizeof_directory_entry. lia. }
      assert (Hle : (number_of_FATs b * sectors_per_FAT b + bpb_reserved_sectors b) * 2 ^ m <= bpb_data b * 2 ^ m)
        by (apply Z.mul_le_mono_nonneg_r; unfold bpb_data; lia).
      lia. }
  unfold bpb_kind in *. destruct (bpb_clusters b <? 0xFF5); eexists; (split; [reflexivity|]);
    (split; [apply Hgeo; reflexivity|]); auto.
Qed.

(** ** Setting an entry *)
(** Two bytes hold one entry and half of a neighbour. *)
Definition packed (odd : bool) (v next : Z) : Z :=
  if odd then v mod 16 + 16 * (next mod 4096) else v - v mod 4096 + next mod 4096.

Lemma land_F000 v : 0 <= v < 65536 -> Z.land v 0xF000 = v - v mod 4096.
Proof.
  intros Hv. change 0xF000 with (Z.shiftl 0xF 12). pose proof (Z.div_mod v 4096 ltac:(lia)) as Hd.
  assert (E : v - v mod 4096 = Z.shiftl (v / 4096) 12) by (rewrite Z.shiftl_mul_pow2 by lia; lia). rewrite E.
  assert (Hq : 0 <= v / 4096 < 16) by (split; [apply Z.div_pos; lia|apply Z.div_lt_upper_bound; lia]).
  rewrite Hd at 1. rewrite (Z.mul_comm 4096). change 4096 with (2 ^ 12) at 2. rewrite <- Z.shiftl_mul_pow2 by lia.
  rewrite <- (lor_aligned (Z.shiftl (v / 4096) 12) (v mod 4096) 12).
  - rewrite Z.land_lor_distr_l, <- Z.shiftl_land. change 0xF with (Z.ones 4). rewrite Z.land_ones by lia.
    rewrite (Z.mod_small (v / 4096)) by lia. replace (Z.land (v mod 4096) (Z.shiftl (Z.ones 4) 12)) with 0; [apply Z.lor_0_r|].
    symmetry. apply Z.bits_inj'. intros i Hi. rewrite Z.land_spec, Z.testbit_0_l. destruct (Z.lt_ge_cases i 12).
    + rewrite Z.shiftl_spec_low by lia. apply andb_false_r.
    + rewrite (small_testbit _ 12); [reflexivity|apply Z.mod_pos_bound; lia|lia].
  - lia.
  - rewrite Z.shiftl_mul_pow2 by lia. apply Z_mod_mult.
  - apply Z.mod_pos_bound. lia.
Qed.

Lemma packed_spec odd v next : 0 <= v < 65536 ->
  (if odd : bool then Z.lor (Z.land v 0x000F) (u16 (Z.shiftl next 4))
   else u16 (Z.lor (Z.land v 0xF000) (Z.land next 0x0FFF))) = packed odd v next.
Proof.
  intros Hv. unfold packed. pose proof (Z.mod_pos_bound next 4096 ltac:(lia)) as Hn.
  pose proof (Z.mod_pos_bound v 4096 ltac:(lia)). pose proof (Z.mod_pos_bound v 16 ltac:(lia)).
  pose proof (Z.div_mod v 4096 ltac:(lia)). destruct odd.
  - change 0x000F with (2 ^ 4 - 1). rewrite land_low_mask by lia. change (2 ^ 4) with 16.
    assert (E : u16 (Z.shiftl next 4) = 16 * (next mod 4096)).
    { unfold u16, wrap. rewrite Z.shiftl_mul_pow2 by lia. change (2 ^ 16) with (4096 * 2 ^ 4).
      rewrite Z.mul_mod_distr_r by lia. lia. }
    rewrite E, Z.lor_comm, (lor_aligned _ _ 4); try lia. rewrite Z.mul_comm. apply Z_mod_mult.
  - rewrite land_F000 by lia. change 0x0FFF with (2 ^ 12 - 1). rewrite land_low_mask by lia. change (2 ^ 12) with 4096.
    rewrite (lor_aligned _ _ 12) by (lia || (apply Z.mod_divide; [lia|]; exists (v / 4096); lia)).
    unfold u16, wrap. rewrite Z.mod_small; [lia|].
    assert (0 <= v / 4096 < 16) by (split; [apply Z.div_pos; lia|apply Z.div_lt_upper_bound; lia]). lia.
Qed.

(** What the halves of the packed bytes are. *)
Lemma packed_parts odd v next : 0 <= v < 65536 -> let w := packed odd v next in
  0 <= w < 65536 /\ (if odd then w / 16 = next mod 4096 /\ w mod 16 = v mod 16
                     else w mod 4096 = next mod 4096 /\ w / 4096 = v / 4096).
Proof.
  intros Hv w. subst w. unfold packed. pose proof (Z.mod_pos_bound next 4096 ltac:(lia)) as Hn.
  pose proof (Z.div_mod v 4096 ltac:(lia)) as Hd. pose proof (Z.mod_pos_bound v 4096 ltac:(lia)).
  pose proof (Z.mod_pos_bound v 16 ltac:(lia)).
  assert (0 <= v / 4096 < 16) by (split; [apply Z.div_pos; lia|apply Z.div_lt_upper_bound; lia]).
  destruct odd.
  - split; [lia|]. split; symmetry; [apply (Z.div_unique_pos _ _ _ (v mod 16))|apply (Z.mod_unique_pos _ _ (next mod 4096))]; lia.
  - split; [lia|]. split; symmetry; [apply (Z.mod_unique_pos _ _ (v / 4096))|apply (Z.div_unique_pos _ _ _ (next mod 4096))]; lia.
Qed.

Section table.
Context {S : Type} `{HB : block_store S} (bs cap : Z) `{HL : !block_store_laws S bs cap}.
Context (d : fat_drive) (Hg : geometry d bs cap).
Notation state := (fat_state S).
Notation view := (view bs cap).
Notation ok := (ok bs cap).
Notation entry := (entry bs d).
Notation entry_addr := (entry_addr bs d).
Notation in_table := (in_table d).

(** The entry [next] has been put at [c] and nothing else on the volume has moved. *)
Definition table_set (c next : Z) (s s' : state) : Prop :=
  ok s' /\ entry (view s') c = Z.land next (fat_entry_mask (fat_kind d))
  /\ (forall c', in_table c' -> c' <> c -> entry (view s') c' = entry (view s) c')
  /\ (forall a, a < entry_addr c \/ entry_addr c + fat_entry_size (fat_kind d) <= a -> view s' a = view s a)
  /\ (forall a, is_byte (view s' a)) /\ free_clusters s' = free_clusters s.

Definition wide_kind (t : fat_type) (n : nat) : Prop := (t = FAT_16 /\ n = 2%nat) \/ (t = FAT_32 /\ n = 4%nat).

Lemma set_wide_spec t n s c next : fat_kind d = t -> wide_kind t n -> ok s -> in_table c ->
  (forall a, is_byte (view s a)) -> exists s', set_next_wide d t c next s = Ok s' /\ table_set c next s s'.
Proof using HL Hg.
  intros Ht Hn Hok Hc Hby. destruct (entry_addr_bound bs cap d Hg c Hc) as (A1 & _ & A2 & A3 & A4).
  destruct (g_fat _ _ _ Hg) as [F1 _]. destruct (sizes_ok bs cap d Hg) as (_ & _ & _ & _ & Heof).
  destruct (g_num _ _ _ Hg) as [_ G8]. pose proof Hc as [Hc1 Hc2]. unfold FAT32_EOF in Heof.
  assert (Hsz : fat_entry_size t = Z.of_nat n /\ 0 < Z.of_nat n <= 4 /\ fat_entry_mask t < 256 ^ Z.of_nat n /\ 0 <= fat_entry_mask t
      /\ forall x, entry_addr x = fat_block d * bs + x * Z.of_nat n).
  { destruct Hn as [[-> ->]|[-> ->]]; unfold FatProofs.entry_addr; rewrite Ht; cbn; repeat split; lia. }
  destruct Hsz as (E1 & E2 & E3 & E3' & E4). rewrite Ht, E1, E4 in A2.
  unfold set_next_wide. rewrite E1, Nat2Z.id, mul32_small by (rewrite E4 in A4; lia).
  set (buf := le_bytes n (Z.land next (fat_entry_mask t))).
  assert (Hbl : length buf = n) by apply le_bytes_length.
  destruct (vd_write_spec bs cap s (fat_block d) (c * Z.of_nat n) buf Hok F1 ltac:(lia) ltac:(lia) ltac:(lia))
    as (s' & E & (Hok' & Hst & Hfr)). exists s'. split; [exact E|]. rewrite <- E4 in Hst.
  assert (Hent : forall x f, entry f x = Z.land (le_value (map f (seqZ (entry_addr x) (Z.of_nat n)))) (fat_entry_mask t)).
  { intros x f. unfold FatProofs.entry. rewrite Ht. destruct Hn as [[-> ->]|[-> ->]]; reflexivity. }
  split; [exact Hok'|]. split; [|split; [|split; [|split; [|exact Hfr]]]].
  - rewrite Hent, Ht. pose proof (stored_same _ _ _ _ Hst) as Hm. rewrite Hbl in Hm. etransitivity; [apply (f_equal (fun l => Z.land (le_value l) _)), Hm|]. unfold buf.
    rewrite le_value_bytes.
    + rewrite <- Z.land_assoc, Z.land_diag. reflexivity.
    + assert (0 <= Z.land next (fat_entry_mask t)) by (apply Z.land_nonneg; lia).
      destruct Hn as [[-> ->]|[-> ->]]; cbn [fat_entry_mask];
        [change 0xFFFF with (2 ^ 16 - 1)|change 0xFFFFFFF with (2 ^ 28 - 1)]; rewrite land_low_mask by lia.
      * apply Z.mod_pos_bound. lia.
      * pose proof (Z.mod_pos_bound next (2 ^ 28) ltac:(lia)). lia.
  - intros c' Hc' Hne. rewrite !Hent. f_equal. f_equal. apply list_fmap_ext. intros i x Hx.
    apply lookup_seqZ in Hx as [-> Hx]. apply (stored_other _ _ _ _ _ Hst). rewrite Hbl, !E4.
    destruct (Z.lt_total c' c) as [Hlt|[Heq|Hlt]]; [left|contradiction|right].
    + assert ((c' + 1) * Z.of_nat n <= c * Z.of_nat n) by (apply Z.mul_le_mono_nonneg_r; lia). lia.
    + assert ((c + 1) * Z.of_nat n <= c' * Z.of_nat n) by (apply Z.mul_le_mono_nonneg_r; lia). lia.
  - intros a Ha. apply (stored_other _ _ _ _ _ Hst). rewrite Hbl. rewrite Ht, E1 in Ha. lia.
  - apply (stored_bytes _ _ _ _ Hst); [apply le_bytes_bytes|exact Hby].
Qed.

(** The entries of FAT12: even and odd ones share a byte. *)
Lemma addr_12 c : fat_kind d = FAT_12 -> 0 <= c -> exists h, (if Z.odd c then c = 2 * h + 1 else c = 2 * h)
  /\ entry_addr c = fat_block d * bs + (if Z.odd c then 3 * h + 1 else 3 * h) /\ 0 <= h /\ c / 2 = h.
Proof using.
  intros Hk Hc. exists (c / 2). unfold FatProofs.entry_addr. rewrite Hk. pose proof (Zmod_odd c) as Hm.
  pose proof (Z.div_mod c 2 ltac:(lia)) as Hd. assert (0 <= c / 2) by (apply Z.div_pos; lia).
  destruct (Z.odd c); repeat split; lia.
Qed.

Lemma entry_12 f c : fat_kind d = FAT_12 -> entry f c = let v := f (entry_addr c) + 256 * f (entry_addr c + 1) in
  if Z.odd c then v / 16 else v mod 4096.
Proof using. intros Hk. unfold FatProofs.entry. rewrite Hk. reflexivity. Qed.

Lemma set_12_spec s c next : fat_kind d = FAT_12 -> reserved_sectors d = fat_block d -> ok s -> in_table c ->
  (forall a, is_byte (view s a)) -> exists s', set_next_12 d c next s = Ok s' /\ table_set c next s s'.
Proof using HL Hg.
  intros Hk Hres Hok Hc Hby. destruct (entry_addr_bound bs cap d Hg c Hc) as (A1 & A0 & A2 & A3 & A4).
  destruct (g_fat _ _ _ Hg) as [F1 _]. destruct (sizes_ok bs cap d Hg) as (_ & _ & _ & _ & Heof).
  destruct (g_num _ _ _ Hg) as [_ G8]. pose proof Hc as [Hc1 Hc2]. unfold FAT32_EOF in Heof. rewrite Hk in A2. cbn in A2.
  assert (EA : entry_addr c = fat_block d * bs + (c + c / 2)) by (unfold FatProofs.entry_addr; rewrite Hk; reflexivity).
  unfold set_next_12. rewrite Hres, add32_small by lia.
  destruct (vd_read_spec bs cap s (fat_block d) (c + c / 2) 2 Hok F1 ltac:(lia) ltac:(lia) ltac:(lia)) as (s1 & E1 & (Hok1 & Hv1 & Hf1)).
  rewrite (bind_Ok_l _ _ _ E1). cbn [mbind outcome_bind]. rewrite le_value_2, <- EA.
  set (A := entry_addr c) in *. set (v := view s A + 256 * view s (A + 1)).
  pose proof (Hby A) as B0. pose proof (Hby (A + 1)) as B1. unfold is_byte in B0, B1.
  assert (Hv : 0 <= v < 65536) by (unfold v; lia). rewrite (packed_spec (Z.odd c) v next Hv).
  destruct (packed_parts (Z.odd c) v next Hv) as [Hw Hparts]. set (w := packed (Z.odd c) v next) in *. clearbody w.
  assert (Hlen : length (le_bytes 2 w) = 2%nat) by apply le_bytes_length.
  destruct (vd_write_spec bs cap s1 (fat_block d) (c + c / 2) (le_bytes 2 w) Hok1 F1 ltac:(lia) ltac:(lia) ltac:(lia))
    as (s2 & E2 & (Hok2 & Hst & Hf2)). exists s2. split; [exact E2|]. rewrite <- EA in Hst. fold A in Hst.
  assert (W0 : view s2 A = w mod 256 /\ view s2 (A + 1) = w / 256).
  { pose proof (stored_same _ _ _ _ Hst) as Hm. rewrite Hlen in Hm. change (Z.of_nat 2) with 2 in Hm.
    rewrite (seqZ_cons A 2), (seqZ_cons (Z.succ A)), seqZ_nil in Hm by lia. cbn [map le_bytes] in Hm.
    injection Hm as M0 M1. split; [exact M0|]. change (A + 1) with (Z.succ A). etransitivity; [exact M1|].
    apply Z.mod_small. split; [apply Z.div_pos; lia|apply Z.div_lt_upper_bound; lia]. }
  assert (Wo : forall a, a < A \/ A + 2 <= a -> view s2 a = view s a).
  { intros a Ha. etransitivity; [apply (stored_other _ _ _ _ a Hst); rewrite Hlen; lia|apply Hv1]. }
  assert (Wv : view s2 A + 256 * view s2 (A + 1) = w) by (pose proof (Z.div_mod w 256); lia).
  split; [exact Hok2|]. split; [|split; [|split; [|split; [|congruence]]]].
  - rewrite (entry_12 _ _ Hk), Hk. fold A. cbv zeta. rewrite Wv. cbn [fat_entry_mask]. change 0xFFF with (2 ^ 12 - 1).
    rewrite land_low_mask by lia. change (2 ^ 12) with 4096. destruct (Z.odd c); apply Hparts.
  - intros c' Hc' Hne. rewrite !(entry_12 _ c' Hk). cbv zeta.
    destruct (addr_12 c Hk Hc1) as (h & H1 & H2 & H3 & H3'), (addr_12 c' Hk (proj1 Hc')) as (h' & H4 & H5 & H6 & H6').
    fold A in H2. pose proof (Z.div_mod w 256 ltac:(lia)) as Dw. pose proof (Z.mod_pos_bound w 256 ltac:(lia)) as Mw.
    destruct (Z.odd c) eqn:Oc, (Z.odd c') eqn:Oc'.
    + rewrite !Wo by lia. reflexivity.
    + destruct (Z.eq_dec h h') as [<-|Hh]; [|rewrite !Wo by lia; reflexivity].
      (* the even neighbour below: its high nibble is in our first byte *)
      assert (E3 : entry_addr c' + 1 = A) by lia. rewrite E3, (Wo (entry_addr c')), (proj1 W0) by lia.
      destruct Hparts as [_ Hlow]. assert (Hmm : w mod 256 mod 16 = view s A mod 16).
      { transitivity (w mod 16); [apply Z.mod_mod_divide; exists 16; reflexivity|].
        rewrite Hlow. unfold v. replace (view s A + 256 * view s (A + 1)) with (view s A + 16 * view s (A + 1) * 16) by lia.
        apply Z_mod_plus_full. }
      set (y := view s (entry_addr c')). pose proof (Hby (entry_addr c')) as By. fold y in By. unfold is_byte in By.
      pose proof (Z.mod_pos_bound (view s A) 16 ltac:(lia)). pose proof (Z.div_mod (view s A) 16 ltac:(lia)) as Da.
      pose proof (Z.div_mod (w mod 256) 16 ltac:(lia)) as Db. rewrite Hmm in Db.
      transitivity (y + 256 * (view s A mod 16)); [symmetry|]; [apply (Z.mod_unique_pos _ _ (w mod 256 / 16)); lia|].
      apply (Z.mod_unique_pos _ _ (view s A / 16)); lia.
    + destruct (Z.eq_dec h h') as [<-|Hh]; [|rewrite !Wo by lia; reflexivity].
      (* the odd neighbour above: its low nibble is in our second byte *)
      assert (E3 : entry_addr c' = A + 1) by lia. rewrite E3, (Wo (A + 1 + 1)), (proj2 W0) by lia.
      destruct Hparts as [_ Hhigh]. assert (Hmm : w / 256 / 16 = view s (A + 1) / 16).
      { rewrite Z.div_div by lia. change (256 * 16) with 4096. rewrite Hhigh. unfold v.
        change 4096 with (256 * 16). rewrite <- Z.div_div by lia. f_equal.
        symmetry. apply (Z.div_unique_pos _ _ _ (view s A)); lia. }
      set (y := view s (A + 1 + 1)).
      replace (w / 256 + 256 * y) with (w / 256 + 16 * y * 16) by lia.
      replace (view s (A + 1) + 256 * y) with (view s (A + 1) + 16 * y * 16) by lia.
      rewrite !Z.div_add by lia. rewrite Hmm. reflexivity.
    + rewrite !Wo by lia. reflexivity.
  - intros a Ha. apply Wo. rewrite Hk in Ha. cbn [fat_entry_size] in Ha. lia.
  - apply (stored_bytes _ _ _ _ Hst); [apply le_bytes_bytes|]. intros a. unfold FatProofs.view in *. rewrite (Hv1 a). apply Hby.
Qed.

Lemma fat_set_next_cluster_spec s c next : ok s -> in_table c -> (forall a, is_byte (view s a)) ->
  (fat_kind d = FAT_12 -> blocks_per_sector d = 1 /\ fat_block d = reserved_sectors d * blocks_per_sector d) ->
  exists s', fat_set_next_cluster d c next s = Ok s' /\ table_set c next s s'.
Proof using HL Hg.
  intros Hok Hc Hby H12. unfold fat_set_next_cluster. destruct (g_kind _ _ _ Hg) as [E|[E|E]]; rewrite E.
  - destruct (H12 E) as [H1 H2]. apply set_12_spec; try assumption. lia.
  - apply (set_wide_spec FAT_16 2 s c next E ltac:(left; auto) Hok Hc Hby).
  - apply (set_wide_spec FAT_32 4 s c next E ltac:(right; auto) Hok Hc Hby).
Qed.

End table.

(** C21: on a volume that was mounted from a FAT12 or FAT16 boot sector, setting the entry
    of a cluster sets that entry, to the bits the table keeps, and no other -- two entries
    of FAT12 share a byte --, and every byte outside the entry, those of the data among
    them, stays as it is.  On FAT12 a block of the drive has to be a sector: the driver
    counts sectors as if they were blocks there (fat.cpp:616). *)
Theorem fat_set_next_cluster_correct {S : Type} `{HB : block_store S} buffer k m p cap `{HL : !block_store_laws S (2 ^ k) cap}
    (s : fat_state S) c next :
  bpb_ok (read_bpb buffer) k m p cap -> (bpb_kind (read_bpb buffer) = FAT_12 -> m = k) ->
  ok (2 ^ k) cap s -> 0 <= c < bpb_clusters (read_bpb buffer) + 2 -> (forall a, is_byte (view (2 ^ k) cap s a)) ->
  exists d s', fat_read_bios_block buffer (2 ^ k) = Ok (MOUNT_SUCCESS, Some d)
  /\ fat_kind d = bpb_kind (read_bpb buffer) /\ num_clusters d = bpb_clusters (read_bpb buffer)
  /\ fat_set_next_cluster d c next s = Ok s' /\ table_set (2 ^ k) cap d c next s s'.
Proof.
  intros Hb H12 Hok Hc Hby. destruct (fat_read_bios_block_correct buffer k m p cap Hb) as (d & E & Hg & Hk & Hn & _ & Hbs & Hfb).
  destruct (fat_set_next_cluster_spec (2 ^ k) cap d Hg s c next Hok ltac:(unfold in_table; lia) Hby) as (s' & Es & Hs).
  - intros Hf. rewrite Hk in Hf. split; [|exact Hfb]. rewrite Hbs, (H12 Hf), Z.sub_diag. reflexivity.
  - exists d, s'. auto.
Qed.

(** ** The volume in memory *)
Definition floppy_sector : list Z :=
  [0xEB; 0x3C; 0x90; 0; 0; 0; 0; 0; 0; 0; 0; 0; 2; 1; 1; 0; 1; 16; 0; 23; 0; 0xF0; 1; 0; 0; 0; 0; 0;
   0; 0; 0; 0; 0; 0; 0; 0; 0; 0; 0; 0; 0; 0; 0; 0; 0; 0; 0; 0].

Lemma fat_read_bios_block_correct_witness :
  bpb_ok (read_bpb floppy_sector) 9 9 0 64 /\ exists d, fat_read_bios_block floppy_sector 512 = Ok (MOUNT_SUCCESS, Some d)
  /\ geometry d 512 64.
Proof.
  assert (Hb : bpb_ok (read_bpb floppy_sector) 9 9 0 64).
  { constructor; vm_compute; repeat split; discriminate. }
  split; [exact Hb|]. destruct (fat_read_bios_block_correct floppy_sector 9 9 0 64 Hb) as (d & E & Hg & _).
  exists d. split; [exact E|exact Hg].
Defined.

Lemma floppy_is_bytes a : is_byte (view 512 64 floppy0 a).
Proof.
  change (is_byte (floppy_bytes a)). unfold floppy_bytes. destruct (_ && _).
  - apply byte_at_byte. repeat constructor; unfold is_byte; lia.
  - unfold is_byte. pose proof (Z.mod_pos_bound a 251 ltac:(lia)). lia.
Qed.

(** The first entry of the sector's table is set to 5, on a volume of FAT12. *)
Lemma fat_set_next_cluster_correct_witness : exists d s', fat_read_bios_block floppy_sector 512 = Ok (MOUNT_SUCCESS, Some d)
  /\ fat_kind d = FAT_12 /\ fat_set_next_cluster d 3 5 floppy0 = Ok s'
  /\ entry 512 d (view 512 64 s') 3 = 5 /\ entry 512 d (view 512 64 s') 2 = entry 512 d (view 512 64 floppy0) 2.
Proof.
  assert (Hb : bpb_ok (read_bpb floppy_sector) 9 9 0 64) by (constructor; vm_compute; repeat split; discriminate).
  destruct (fat_set_next_cluster_correct (HB := plain_store) (HL := plain_laws) floppy_sector 9 9 0 64 floppy0 3 5 Hb (fun _ => eq_refl) floppy_ok ltac:(vm_compute; split; discriminate || reflexivity)
    floppy_is_bytes) as (d & s' & E & Hk & Hn & Es & _ & He & Hkeep & _).
  change (2 ^ 9) with 512 in *. exists d, s'. split; [exact E|]. split; [exact Hk|]. split; [exact Es|]. split; [rewrite He, Hk; reflexivity|].
  apply (Hkeep 2); [|discriminate]. unfold in_table. rewrite Hn. vm_compute. split; [discriminate|reflexivity].
Defined.
