(* ===== verification/FatDir.v ===== *)
(** * FAT volumes: directories (drivers/formats/fat.cpp)

    A directory is a file of 32-byte entries, read and written through the streams of
    streams.cpp, which call the driver back: [fat_driver] ties the knot, with the depth
    of the calls as its argument.  Closing a stream that was written updates the entry
    of its file in its directory, which is one stream further up; the directory of the
    root is a data block of zeros, and the chain of calls ends there. *)
From S2P Require Import Prelude Time Unicode FsUtil Drives BlockStore Vfs Streams Directory Fat.

Definition READ_ONLY : Z := 0x01.
Definition HIDDEN : Z := 0x02.
Definition SYSTEM : Z := 0x04.
Definition VOLUME_ID : Z := 0x08.
Definition DIRECTORY : Z := 0x10.
Definition ARCHIVE : Z := 0x20.
Definition LFN : Z := Z.lor (Z.lor READ_ONLY HIDDEN) (Z.lor SYSTEM VOLUME_ID).

(** [fat_short_filename] is the eleven bytes of the root and the extension. *)
Definition dot_dir : list Z := 0x2e :: repeat 32 10.
Definition dot_dot_dir : list Z := 0x2e :: 0x2e :: repeat 32 9.

Record fat_directory_entry := mk_entry {
  de_name : list Z; attributes : Z; de_reserved : Z; created_time_ms : Z; created_time : Z; created_date : Z;
  accessed_date : Z; first_cluster_hi : Z; modified_time : Z; modified_date : Z; first_cluster : Z; de_file_size : Z }.
Definition encode_entry (e : fat_directory_entry) : list Z :=
  de_name e ++ [attributes e; de_reserved e; created_time_ms e] ++ le_bytes 2 (created_time e) ++ le_bytes 2 (created_date e)
  ++ le_bytes 2 (accessed_date e) ++ le_bytes 2 (first_cluster_hi e) ++ le_bytes 2 (modified_time e)
  ++ le_bytes 2 (modified_date e) ++ le_bytes 2 (first_cluster e) ++ le_bytes 4 (de_file_size e).
Definition decode_entry (l : list Z) : fat_directory_entry :=
  mk_entry (take 11 l) (field_at l 11 1) (field_at l 12 1) (field_at l 13 1) (field_at l 14 2) (field_at l 16 2)
    (field_at l 18 2) (field_at l 20 2) (field_at l 22 2) (field_at l 24 2) (field_at l 26 2) (field_at l 28 4).

(** [fat_lfn_entry]: thirteen UTF-16 units in three fields. *)
Definition num_chars : nat := 13.
Record fat_lfn_entry := mk_lfn {
  sequence : Z; chars0 : list Z; lfn_attributes : Z; lfn_kind : Z; short_checksum : Z; chars1 : list Z; chars2 : list Z }.
Definition units_bytes (l : list Z) : list Z := concat (map (le_bytes 2) l).
Fixpoint bytes_units (n : nat) (l : list Z) : list Z :=
  match n with O => [] | Datatypes.S n => le_value (take 2 l) :: bytes_units n (drop 2 l) end.
Definition encode_lfn (e : fat_lfn_entry) : list Z :=
  [sequence e] ++ units_bytes (chars0 e) ++ [lfn_attributes e; lfn_kind e; short_checksum e]
  ++ units_bytes (chars1 e) ++ le_bytes 2 0 ++ units_bytes (chars2 e).
Definition decode_lfn (l : list Z) : fat_lfn_entry :=
  mk_lfn (field_at l 0 1) (bytes_units 5 (drop 1 l)) (field_at l 11 1) (field_at l 12 1) (field_at l 13 1)
    (bytes_units 6 (drop 14 l)) (bytes_units 2 (drop 28 l)).

Definition fat_file_location (e : fat_directory_entry) : Z := Z.lor (first_cluster e) (shl32 (first_cluster_hi e) 16).

(** ** Times, names and flags *)
Record fat_time := mk_fat_time { ft_date : Z; ft_time : Z }.
Definition fat_time_to_time_t (t : fat_time) : outcome Z :=
  mktime (mk_tm (Z.shiftl (Z.land (ft_time t) 0x001F) 1) (Z.shiftr (Z.land (ft_time t) 0x07E0) 5)
    (Z.shiftr (Z.land (ft_time t) 0xF800) 11) (Z.land (ft_date t) 0x001F) (Z.shiftr (Z.land (ft_date t) 0x01E0) 5 - 1)
    (Z.shiftr (Z.land (ft_date t) 0xFE00) 9 + 80) 0 0 0).
(** The year is counted the wrong way, the minutes are the seconds again and the hours
    have the mask of the minutes. *)
Definition time_t_time_to_fat_time (t : tm) : fat_time :=
  mk_fat_time
    (Z.lor (Z.lor (Z.land (tm_mday t) 0x001F) (Z.land (Z.shiftl (tm_mon t + 1) 5) 0x01E0))
       (Z.land (Z.shiftl (tm_year t + 80) 9) 0xFE00))
    (Z.lor (Z.lor (Z.land (Z.shiftr (tm_sec t) 1) 0x001F) (Z.land (Z.shiftl (tm_sec t) 5) 0x07E0))
       (Z.land (Z.shiftl (tm_hour t) 11) 0x07E0)).

Definition read_field (field : list Z) : list Z :=
  match split_first 32 field with Some (f, _) => f | None => field end.
(** [memcpy] of the whole source, then the padding; [off] is the field in the name. *)
Definition write_field (name : list Z) (off : Z) (src : list Z) (size : Z) : outcome (list Z) :=
  let n := Z.of_nat (length src) in
  name ← splice name off src;
  if n <? size then splice name (off + n) (repeat 32 (Z.to_nat (size - n))) else Ok name.

Definition fat_convert_flags (fat_flags : Z) (is_root : bool) : Z :=
  let flags := 0 in
  let flags := if has fat_flags DIRECTORY then
                 let flags := Z.lor flags IS_DIR in if is_root then Z.lor flags FAT_ROOT_DIR_FLAG else flags
               else flags in
  if has fat_flags READ_ONLY then Z.lor flags IS_READONLY else flags.
Definition to_fat_flags (flags : Z) : Z :=
  let fat_flags := 0 in
  let fat_flags := if has flags IS_DIR then Z.lor fat_flags DIRECTORY else fat_flags in
  if has flags IS_READONLY then Z.lor fat_flags READ_ONLY else fat_flags.

(** [src_name.substr(dot + 1)] for the last dot. *)
Fixpoint after_last (c : Z) (p : list Z) : option (list Z) :=
  match p with
  | [] => None
  | x :: p => match after_last c p with Some r => Some r | None => if x =? c then Some p else None end
  end.
(** [name] is uninitialised; what it holds is the argument [junk]. *)
Definition get_short_filename (junk src_name : list Z) : outcome (list Z) :=
  match before_last 46 src_name, after_last 46 src_name with
  | Some root, Some ext => name ← write_field junk 0 root 8; write_field name 8 ext 3
  | _, _ => write_field junk 0 src_name 8
  end.
Definition read_fat_short_name (name : list Z) : list Z :=
  let root := read_field (take 8 name) in
  match read_field (drop 8 name) with [] => root | ext => root ++ [46] ++ ext end.

(** The two overloads of [fat_create_dir_entry]; [first_cluster_hi] is the low half of
    a value whose low half is zero. *)
Definition create_dir_entry (data : file_data_block) (name : list Z) (create modify : fat_time) : fat_directory_entry :=
  mk_entry name (to_fat_flags (file_flags data)) 0 0 (ft_time create) (ft_date create) 0
    (u16 (Z.land (location_on_disk data) 0xFFFF0000)) (ft_time modify) (ft_date modify)
    (u16 (Z.land (location_on_disk data) 0xFFFF)) (u32 (file_size data)).
Definition fat_create_dir_entry (junk : list Z) (src : file_handle) : outcome fat_directory_entry :=
  create ← gmtime (time_created src);
  modify ← gmtime (time_modified src);
  name ← get_short_filename junk (fh_name src);
  Ok (create_dir_entry (fh_data src) name (time_t_time_to_fat_time create) (time_t_time_to_fat_time modify)).
Definition fat_create_dot_entry (data : file_data_block) (name : list Z) (created : tm) : fat_directory_entry :=
  let create := time_t_time_to_fat_time created in create_dir_entry data name create create.

Definition fat_read_dir_entry (dir : directory_stream) (e : fat_directory_entry) (disk_id : Z) : outcome file_handle :=
  let location := fat_file_location e in
  created ← fat_time_to_time_t (mk_fat_time (created_date e) (created_time e));
  modified ← fat_time_to_time_t (mk_fat_time (modified_date e) (modified_time e));
  Ok (mk_handle (Some (full_path dir)) (read_fat_short_name (de_name e))
    (mk_fdb location disk_id (de_file_size e) (fat_convert_flags (attributes e) (location =? 0))
       (mk_fmt (location_on_disk (dir_data dir)) (file_flags (dir_data dir)))) created modified).

Definition fat_lfn_checksum (name : list Z) : Z :=
  fold_left (fun sum c => u8 (u8 (Z.shiftl (Z.land sum 1) 7) + u8 (Z.shiftr sum 1) + c)) name 0.

(** [lfn.resize(nul)] at the first zero byte. *)
Fixpoint cut_nul (l : list Z) : list Z :=
  match l with [] => [] | c :: l => if c =? 0 then [] else c :: cut_nul l end.
Definition set_name (n : list Z) (h : file_handle) : file_handle :=
  mk_handle (dir_path h) n (fh_data h) (time_created h) (time_modified h).

(** ** The volume *)
(** [fs_impl_data] of the drive and the store. *)
Record fat_volume (S : Type) := mk_volume { vol_impl : option fat_drive; vol_state : fat_state S }.
Arguments mk_volume {S}. Arguments vol_impl {S}. Arguments vol_state {S}.

Section fat_dir.
(** The drive: its number, its block size and whether it is read-only; [now] is the
    time of the operation, [junk] what the stack holds, and [limit] bounds the entries
    the model looks at in one directory. *)
Context {S : Type} `{block_store S} (block_size : Z) (root_name : Z -> list Z) (read_only : bool) (now : Z)
  (junk : list Z) (limit : nat).
Notation volume := (fat_volume S).
Notation driver := (filesystem_driver volume).

Definition with_impl {A} (f : fat_drive -> fat_state S -> outcome (A * fat_state S)) (v : volume) : outcome (A * volume) :=
  match vol_impl v with
  | None => Fault PageFault
  | Some d => '(a, s) ← f d (vol_state v); Ok (a, mk_volume (Some d) s)
  end.

Definition no_handle : file_handle := mk_handle None [] (mk_fdb 0 0 0 0 (mk_fmt 0 0)) 0 0.
Definition fat_mount_disk (id : Z) (v : volume) : outcome (mount_status * file_handle * volume) :=
  '(boot_sector, s) ← vd_read 0 0 DEFAULT_SECTOR_SIZE (vol_state v);
  let v := mk_volume (vol_impl v) s in
  '(err, f) ← fat_read_bios_block boot_sector block_size;
  match err, f with
  | MOUNT_SUCCESS, Some f =>
    let loc := match fat_kind f with FAT_12 | FAT_16 => 0 | _ => root_location f end in
    let root := mk_handle None (root_name id) (mk_fdb loc id 0 (Z.lor IS_DIR FAT_ROOT_DIR_FLAG) (mk_fmt 0 0)) 0 0 in
    Ok (MOUNT_SUCCESS, root, mk_volume (Some f) s)
  | _, _ => Ok (err, no_handle, v)
  end.

Definition read_chunks (location offset n : Z) (file : file_data_block) (_ : Z) (v : volume) : outcome (list Z * volume) :=
  with_impl (fun d s => '(l, _, s) ← fat_read d location offset n file s; Ok (l, s)) v.
Definition write_chunks (buf : list Z) (location offset : Z) (file : file_data_block) (_ : Z) (v : volume) : outcome volume :=
  '(_, v) ← with_impl (fun d s => fat_write d buf location offset file s) v; Ok v.
Definition allocate_chunks (location size : Z) (file : file_data_block) (_ : Z) (v : volume) : outcome (Z * volume) :=
  with_impl (fun d s => fat_allocate_clusters d location size file s) v.

(** ** Entries through a stream *)
Section streams.
Context (drv : driver).
Definition get_drive (id : Z) (v : volume) : outcome (bool * driver) :=
  match vol_impl v with None => Fault AssertFailed | Some _ => Ok (read_only, drv) end.
Definition dir_write (offset : Z) (bytes : list Z) (st : file_stream) (v : volume) : outcome (Z * file_stream * volume) :=
  filesystem_write_file get_drive offset bytes st v.
Definition dir_close (st : file_stream) (v : volume) : outcome volume :=
  '(_, v) ← filesystem_close_file get_drive (Some st) v; Ok v.

(** [dir.read(offset, &entry, sizeof(fat_directory_entry))]; the entry is not
    initialised, so bytes the driver does not deliver are not there. *)
Definition dir_read (offset : Z) (st : file_stream) (v : volume) : outcome (option (list Z) * volume) :=
  '(n, l, v) ← filesystem_read_file get_drive offset sizeof_directory_entry st v;
  if negb (n =? sizeof_directory_entry) then Ok (None, v)
  else if Z.of_nat (length l) =? n then Ok (Some l, v) else Fault OutOfBounds.

Definition next_entry (offset : Z) : Z := u64 (offset + sizeof_directory_entry).

(** [fat_do_read_dir]. *)
Fixpoint read_dir_loop (n : nat) (dest : directory_stream) (id : Z) (st : file_stream) (offset : Z) (lfn : list Z)
    (v : volume) : outcome (list file_handle * volume) :=
  match n with
  | O => Fault OutOfFuel
  | Datatypes.S n =>
    '(r, v) ← dir_read offset st v;
    match r with
    | None => Ok ([], v)
    | Some bytes =>
      let entry := decode_entry bytes in
      let first := nth 0 (de_name entry) 0 in
      if first =? 0 then Ok ([], v)
      else if first =? 0xE5 then Ok ([], v)
      else if Z.land (attributes entry) LFN =? LFN then
        let e := decode_lfn bytes in
        if sequence e =? 0xE5 then read_dir_loop n dest id st (next_entry offset) lfn v else
        c0 ← utf16_to_utf8 (chars0 e);
        c1 ← utf16_to_utf8 (chars1 e);
        c2 ← utf16_to_utf8 (chars2 e);
        read_dir_loop n dest id st (next_entry offset) (c0 ++ c1 ++ c2 ++ lfn) v
      else
        out ← fat_read_dir_entry dest entry id;
        let out := match lfn with [] => out | _ => set_name (cut_nul lfn) out end in
        '(rest, v) ← read_dir_loop n dest id st (next_entry offset) [] v;
        Ok (out :: rest, v)
    end
  end.
Definition fat_read_dir (dest : directory_stream) (dir : file_data_block) (id : Z) (v : volume)
  : outcome (directory_stream * volume) :=
  let st := filesystem_create_stream dir in
  '(l, v) ← read_dir_loop limit dest id st 0 [] v;
  v ← dir_close st v;
  Ok (mk_dir (full_path dest) (dir_data dest) (file_list dest ++ l), v).

(** The search of [fat_update_file] and [fat_delete_file]: the first entry at the
    file's location that has none of the attribute bits of a long name; it is written
    back as [f] makes it. *)
Fixpoint edit_entry (n : nat) (f : fat_directory_entry -> outcome fat_directory_entry) (file : file_data_block)
    (st : file_stream) (offset : Z) (v : volume) : outcome (file_stream * volume) :=
  match n with
  | O => Fault OutOfFuel
  | Datatypes.S n =>
    '(r, v) ← dir_read offset st v;
    match r with
    | None => Ok (st, v)
    | Some bytes =>
      let entry := decode_entry bytes in
      if nth 0 (de_name entry) 0 =? 0 then Ok (st, v)
      else if negb (Z.land (attributes entry) LFN =? 0) then edit_entry n f file st (next_entry offset) v
      else if fat_file_location entry =? location_on_disk file then
        entry ← f entry;
        '(_, st, v) ← dir_write offset (encode_entry entry) st v;
        Ok (st, v)
      else edit_entry n f file st (next_entry offset) v
    end
  end.
Definition dir_block (file : file_data_block) (id : Z) : file_data_block :=
  mk_fdb (fmt_parent_dir (format_data file)) id 0 (fmt_dir_flags (format_data file)) (mk_fmt 0 0).

Definition updated_entry (file : file_data_block) (e : fat_directory_entry) : outcome fat_directory_entry :=
  t ← gmtime now;
  let mod_ := time_t_time_to_fat_time t in
  Ok (mk_entry (de_name e) (attributes e) (de_reserved e) (created_time_ms e) (created_time e) (created_date e)
    (accessed_date e) (first_cluster_hi e) (ft_time mod_) (ft_date mod_) (first_cluster e) (u32 (file_size file))).
Definition fat_update_file (file : file_data_block) (id : Z) (v : volume) : outcome volume :=
  '(st, v) ← edit_entry limit (updated_entry file) file (filesystem_create_stream (dir_block file id)) 0 v;
  dir_close st v.

Definition deleted_entry (e : fat_directory_entry) : outcome fat_directory_entry :=
  Ok (mk_entry (0xE5 :: drop 1 (de_name e)) (attributes e) (de_reserved e) (created_time_ms e) (created_time e) (created_date e)
    (accessed_date e) (first_cluster_hi e) (modified_time e) (modified_date e) (first_cluster e) (de_file_size e)).
(** [while(num_clusters)]: the last cluster of the file stays allocated. *)
Fixpoint free_chain (n : nat) (d : fat_drive) (cluster : Z) (s : fat_state S) : outcome (fat_state S) :=
  match n with
  | O => Ok s
  | Datatypes.S n =>
    '(next_cluster, s) ← fat_get_next_cluster d cluster s;
    if next_cluster =? eof_value d then Ok s else
    s ← fat_mark_cluster_free d cluster s;
    free_chain n d next_cluster s
  end.
Definition fat_delete_file (file : file_data_block) (id : Z) (v : volume) : outcome (Z * volume) :=
  '(st, v) ← edit_entry limit deleted_entry file (filesystem_create_stream (dir_block file id)) 0 v;
  '(_, v) ← with_impl (fun d s => s ← free_chain (Z.to_nat (num_clusters d)) d (location_on_disk file) s; Ok (tt, s)) v;
  v ← dir_close st v;
  Ok (0, v).

(** ** Creation *)
(** The loop of [fat_write_lfn_entries]: [i] entries are left, the units of the next
    one are [13 * (i - 1)] in. *)
Fixpoint write_lfn_loop (i : nat) (lfn : list Z) (sequence_number checksum : Z) (st : file_stream) (offset : Z) (v : volume)
  : outcome (Z * file_stream * volume) :=
  match i with
  | O => Ok (offset, st, v)
  | Datatypes.S i =>
    let units := take num_chars (drop (num_chars * i)%nat lfn) in
    let e := mk_lfn sequence_number (take 5 units) LFN 0 checksum (take 6 (drop 5 units)) (take 2 (drop 11 units)) in
    '(n, st, v) ← dir_write offset (encode_lfn e) st v;
    write_lfn_loop i lfn (u8 (Z.of_nat i + 1)) checksum st (u64 (offset + n)) v
  end.
Definition lfn_units (long_name : list Z) : outcome (nat * list Z) :=
  units ← utf8_to_utf16 long_name;
  let lfn := units ++ [0] in
  let num_entries := ((length lfn + (num_chars - 1)) / num_chars)%nat in
  Ok (num_entries, lfn ++ repeat 0xFFFF (num_entries * num_chars - length lfn)%nat).
Definition fat_write_lfn_entries (entry : fat_directory_entry) (long_name : list Z) (st : file_stream) (offset : Z) (v : volume)
  : outcome (Z * file_stream * volume) :=
  let checksum := fat_lfn_checksum (de_name entry) in
  '(num_entries, lfn) ← lfn_units long_name;
  let sequence_number := Z.lor 0x40 (u8 (Z.of_nat num_entries + 1)) in
  write_lfn_loop num_entries lfn sequence_number checksum st offset v.

(** The entries [.] and [..] of a new directory. *)
Definition write_dot_entries (data : file_data_block) (parent : directory_stream) (v : volume) : outcome volume :=
  let f := filesystem_create_stream data in
  tms ← gmtime now;
  let ents := encode_entry (fat_create_dot_entry data dot_dir tms)
              ++ encode_entry (fat_create_dot_entry (dir_data parent) dot_dot_dir tms) in
  '(foffset, f, v) ← dir_write 0 ents f v;
  '(_, f, v) ← dir_write foffset [0] f v;
  dir_close f v.

(** The body of the search of [fat_create_file], at the end mark of the directory. *)
Definition create_at (name : list Z) (flags : Z) (parent_dir : directory_stream) (id : Z) (st : file_stream) (offset : Z) (v : volume)
  : outcome (directory_stream * file_stream * volume) :=
  '(location, v) ← with_impl (fun d s => fat_claim_clusters d 0 1 s) v;
  let data := mk_fdb location id 0 flags (mk_fmt (location_on_disk (dir_data parent_dir)) (file_flags (dir_data parent_dir))) in
  let new_file := mk_handle (Some (full_path parent_dir)) name data now now in
  new_file_entry ← fat_create_dir_entry junk new_file;
  '(offset, st, v) ← fat_write_lfn_entries new_file_entry name st offset v;
  '(n, st, v) ← dir_write offset (encode_entry new_file_entry) st v;
  '(_, st, v) ← dir_write (u64 (offset + n)) [0] st v;
  v ← (if has flags IS_DIR then write_dot_entries data parent_dir v else Ok v);
  Ok (mk_dir (full_path parent_dir) (dir_data parent_dir) (file_list parent_dir ++ [new_file]), st, v).

Fixpoint create_loop (n : nat) (name : list Z) (flags : Z) (parent_dir : directory_stream) (id : Z) (st : file_stream)
    (offset : Z) (v : volume) : outcome (directory_stream * file_stream * volume) :=
  match n with
  | O => Fault OutOfFuel
  | Datatypes.S n =>
    '(r, v) ← dir_read offset st v;
    match r with
    | None => Ok (parent_dir, st, v)
    | Some bytes =>
      if nth 0 bytes 0 =? 0 then create_at name flags parent_dir id st offset v
      else create_loop n name flags parent_dir id st (next_entry offset) v
    end
  end.
Definition fat_create_file (name : list Z) (flags : Z) (parent_dir : directory_stream) (id : Z) (v : volume)
  : outcome (directory_stream * volume) :=
  '(parent_dir, st, v) ← create_loop limit name flags parent_dir id (filesystem_create_stream (dir_data parent_dir)) 0 v;
  v ← dir_close st v;
  Ok (parent_dir, v).
End streams.

Definition stuck_driver : driver :=
  mk_driver (fun _ _ => Fault OutOfFuel) (fun _ _ _ _ _ _ => Fault OutOfFuel) (Some (fun _ _ _ _ _ _ => Fault OutOfFuel))
    (fun _ _ _ _ _ => Fault OutOfFuel) (fun _ _ _ _ => Fault OutOfFuel) (Some (fun _ _ _ => Fault OutOfFuel))
    (Some (fun _ _ _ _ _ => Fault OutOfFuel)) (Some (fun _ _ _ => Fault OutOfFuel)).
(** [static const filesystem_driver fat_driver]; [depth] bounds the streams that are
    open at the same time. *)
Fixpoint fat_driver (depth : nat) : driver :=
  match depth with
  | O => stuck_driver
  | Datatypes.S depth =>
    let drv := fat_driver depth in
    mk_driver fat_mount_disk read_chunks (Some write_chunks) allocate_chunks (fat_read_dir drv)
      (Some (fat_update_file drv)) (Some (fat_create_file drv)) (Some (fat_delete_file drv))
  end.

End fat_dir.
