(* ===== verification/FatDirProofs.v ===== *)
(** * Directories of a FAT volume

    What [fat_do_read_dir] makes of the entries of a directory, as a function of the
    entries alone; the entries [fat_create_file] writes for a name; and that reading
    them gives the name back. *)
From S2P Require Import Prelude Time Unicode FsUtil Drives DrivesProofs BlockStore Vfs Streams Directory Fat FatProofs FatVolume FatDir.

(** ** Entries and their bytes *)
(** Offsets of fields as natural numbers. *)
Ltac nat_offsets :=
  repeat match goal with |- context [Z.to_nat ?z] =>
    let n := eval vm_compute in (Z.to_nat z) in change (Z.to_nat z) with n end.

Definition is_unit (u : Z) : Prop := 0 <= u < 65536.

Lemma le_value_2_bytes x : is_unit x -> x mod 256 + 256 * (x / 256 mod 256 + 256 * 0) = x.
Proof.
  unfold is_unit. intros H. rewrite (Z.mod_small (x / 256)) by (split; [apply Z.div_pos; lia|apply Z.div_lt_upper_bound; lia]).
  pose proof (Z.div_mod x 256). lia.
Qed.

Lemma units_bytes_length l : length (units_bytes l) = (2 * length l)%nat.
Proof. unfold units_bytes. induction l as [|u l IH]; [reflexivity|]. cbn [map concat]. rewrite length_app, le_bytes_length, IH. cbn. lia. Qed.

Lemma bytes_units_bytes l rest : Forall is_unit l -> bytes_units (length l) (units_bytes l ++ rest) = l.
Proof.
  unfold units_bytes. induction 1 as [|u l Hu Hl IH]; [reflexivity|]. cbn [length bytes_units map concat le_bytes app].
  cbn [take drop firstn skipn le_value]. rewrite le_value_2_bytes by exact Hu. f_equal. exact IH.
Qed.

Definition lfn_ok (e : fat_lfn_entry) : Prop :=
  is_byte (sequence e) /\ is_byte (lfn_attributes e) /\ is_byte (lfn_kind e) /\ is_byte (short_checksum e)
  /\ length (chars0 e) = 5%nat /\ length (chars1 e) = 6%nat /\ length (chars2 e) = 2%nat
  /\ Forall is_unit (chars0 e) /\ Forall is_unit (chars1 e) /\ Forall is_unit (chars2 e).

Lemma field_1 x : x + 256 * 0 = x.
Proof. lia. Qed.

Lemma encode_lfn_length e : lfn_ok e -> length (encode_lfn e) = 32%nat.
Proof.
  intros (_ & _ & _ & _ & L0 & L1 & L2 & _). unfold encode_lfn. rewrite !length_app, !units_bytes_length, L0, L1, L2. reflexivity.
Qed.

Lemma decode_encode_lfn e : lfn_ok e -> decode_lfn (encode_lfn e) = e.
Proof.
  intros (_ & _ & _ & _ & L0 & L1 & L2 & U0 & U1 & U2). destruct e as [sq c0 at_ kd ck c1 c2]. cbn [chars0 chars1 chars2] in *.
  destruct c0 as [|x0 [|x1 [|x2 [|x3 [|x4 [|? ?]]]]]]; try discriminate L0.
  destruct c1 as [|y0 [|y1 [|y2 [|y3 [|y4 [|y5 [|? ?]]]]]]]; try discriminate L1.
  destruct c2 as [|z0 [|z1 [|? ?]]]; try discriminate L2. clear L0 L1 L2.
  repeat match goal with H : Forall _ (_ :: _) |- _ => inversion_clear H end.
  unfold decode_lfn, encode_lfn, field_at, units_bytes. nat_offsets.
  cbn [sequence chars0 lfn_attributes lfn_kind short_checksum chars1 chars2 map concat le_bytes app
    drop skipn take firstn le_value bytes_units].
  rewrite !le_value_2_bytes, ?field_1 by assumption. reflexivity.
Qed.

Definition entry_ok (e : fat_directory_entry) : Prop :=
  length (de_name e) = 11%nat /\ is_unit (created_time e) /\ is_unit (created_date e) /\ is_unit (accessed_date e)
  /\ is_unit (first_cluster_hi e) /\ is_unit (modified_time e) /\ is_unit (modified_date e) /\ is_unit (first_cluster e)
  /\ 0 <= de_file_size e < 2 ^ 32.

Lemma encode_entry_length e : entry_ok e -> length (encode_entry e) = 32%nat.
Proof. intros (L & _). unfold encode_entry. rewrite !length_app, !le_bytes_length, L. reflexivity. Qed.

Lemma decode_encode_entry e : entry_ok e -> decode_entry (encode_entry e) = e.
Proof.
  intros (L & U1 & U2 & U3 & U4 & U5 & U6 & U7 & U8). destruct e as [nm at_ rs ms ct cd ad hi mt md fc sz].
  cbn [de_name created_time created_date accessed_date first_cluster_hi modified_time modified_date first_cluster de_file_size] in *.
  do 12 (destruct nm as [|? nm]; try discriminate L). clear L.
  pose proof (le_value_bytes 4 sz U8) as E. unfold decode_entry, encode_entry, field_at. nat_offsets.
  cbn [de_name attributes de_reserved created_time_ms created_time created_date accessed_date first_cluster_hi modified_time
    modified_date first_cluster de_file_size le_bytes app drop skipn take firstn le_value] in *.
  rewrite !le_value_2_bytes, ?field_1 by assumption. rewrite ?field_1 in E.
  f_equal. exact E.
Qed.

(** ** Long names *)
(** A character of a name: a scalar value of one UTF-16 unit, and not the end mark. *)
Definition name_char (c : Z) : Prop := 0 < c < 0xD800 \/ 0xE000 <= c <= 0xFFFF.
Definition unit_char (c : Z) : Prop := 0 <= c < 0xD800 \/ 0xE000 <= c <= 0xFFFF.

Lemma unit_chars_utf16 l : Forall unit_char l -> utf16_to_utf8 l = Ok (utf8_encode l).
Proof.
  intros H. rewrite <- (utf16_to_utf8_encoded l).
  - f_equal. unfold utf16_encode. induction H as [|c l Hc Hl IH]; [reflexivity|]. cbn [map concat]. rewrite <- IH.
    unfold utf16_encode_char, unit_char in *. rewrite (proj2 (Z.leb_le c 0xFFFF)) by lia. reflexivity.
  - eapply Forall_impl; [exact H|]. intros c Hc. unfold scalar, unit_char in *. lia.
Qed.

Lemma utf8_encode_app a b : utf8_encode (a ++ b) = utf8_encode a ++ utf8_encode b.
Proof. unfold utf8_encode. rewrite map_app, concat_app. reflexivity. Qed.

Lemma utf8_bytes_nonzero c : name_char c -> Forall (fun b => b <> 0) (utf8_encode_char c).
Proof.
  intros Hc. unfold utf8_encode_char, name_char in *.
  assert (Hl : forall a b, 0 < a -> Z.lor a b <> 0).
  { intros a b Ha E. apply Z.lor_eq_0_iff in E. lia. }
  repeat case_match; repeat constructor; try (apply Hl; lia); lia.
Qed.

Lemma cut_nul_app l rest : Forall (fun b => b <> 0) l -> cut_nul (l ++ 0 :: rest) = l.
Proof.
  induction 1 as [|b l Hb Hl IH]; [reflexivity|]. cbn [app cut_nul]. rewrite (proj2 (Z.eqb_neq b 0)) by exact Hb.
  f_equal. exact IH.
Qed.

Lemma cut_nul_name cs rest : Forall name_char cs -> cut_nul (utf8_encode (cs ++ 0 :: rest)) = utf8_encode cs.
Proof.
  intros H. rewrite utf8_encode_app. apply cut_nul_app. unfold utf8_encode.
  induction H as [|c cs Hc Hcs IH]; [constructor|]. cbn [map concat]. apply Forall_app. split; [exact (utf8_bytes_nonzero c Hc)|exact IH].
Qed.

(** The entries of a name, in the order they are written. *)
Fixpoint lfn_entries (i : nat) (lfn : list Z) (sequence_number checksum : Z) : list (list Z) :=
  match i with
  | O => []
  | Datatypes.S i =>
    let units := take num_chars (drop (num_chars * i)%nat lfn) in
    encode_lfn (mk_lfn sequence_number (take 5 units) LFN 0 checksum (take 6 (drop 5 units)) (take 2 (drop 11 units)))
    :: lfn_entries i lfn (u8 (Z.of_nat i + 1)) checksum
  end.

(** [fat_do_read_dir] without the stream: what it makes of a sequence of entries. *)
Fixpoint list_entries (dest : directory_stream) (id : Z) (lfn : list Z) (es : list (list Z)) : outcome (list file_handle) :=
  match es with
  | [] => Ok []
  | bytes :: es =>
    let entry := decode_entry bytes in
    let first := nth 0 (de_name entry) 0 in
    if first =? 0 then Ok []
    else if first =? 0xE5 then Ok []
    else if Z.land (attributes entry) LFN =? LFN then
      let e := decode_lfn bytes in
      if sequence e =? 0xE5 then list_entries dest id lfn es else
      c0 ← utf16_to_utf8 (chars0 e);
      c1 ← utf16_to_utf8 (chars1 e);
      c2 ← utf16_to_utf8 (chars2 e);
      list_entries dest id (c0 ++ c1 ++ c2 ++ lfn) es
    else
      out ← fat_read_dir_entry dest entry id;
      let out := match lfn with [] => out | _ => set_name (cut_nul lfn) out end in
      rest ← list_entries dest id [] es;
      Ok (out :: rest)
  end.

(** The attributes and the first byte of an entry, looked at through either struct. *)
Lemma lfn_as_entry e : lfn_ok e -> nth 0 (de_name (decode_entry (encode_lfn e))) 0 = sequence e
  /\ attributes (decode_entry (encode_lfn e)) = lfn_attributes e.
Proof.
  intros (_ & _ & _ & _ & L0 & L1 & L2 & _). destruct e as [sq c0 at_ kd ck c1 c2]. cbn [chars0 chars1 chars2] in *.
  destruct c0 as [|x0 [|x1 [|x2 [|x3 [|x4 [|? ?]]]]]]; try discriminate L0. clear.
  unfold decode_entry, encode_lfn, field_at, units_bytes. nat_offsets.
  cbn [de_name attributes sequence chars0 lfn_attributes map concat le_bytes app drop skipn take firstn le_value nth].
  split; [reflexivity|]. apply field_1.
Qed.

Lemma list_lfn_entry dest id acc e rest : lfn_ok e -> lfn_attributes e = LFN -> sequence e <> 0 -> sequence e <> 0xE5 ->
  Forall unit_char (chars0 e ++ chars1 e ++ chars2 e) ->
  list_entries dest id acc (encode_lfn e :: rest)
  = list_entries dest id (utf8_encode (chars0 e ++ chars1 e ++ chars2 e) ++ acc) rest.
Proof.
  intros He Ha Hs1 Hs2 Hu. cbn [list_entries]. destruct (lfn_as_entry e He) as [-> ->]. rewrite Ha, decode_encode_lfn by exact He.
  rewrite (proj2 (Z.eqb_neq _ 0)), (proj2 (Z.eqb_neq _ 0xE5)) by assumption. rewrite Z.land_diag, Z.eqb_refl.
  apply Forall_app in Hu as [H0 Hu]. apply Forall_app in Hu as [H1 H2].
  rewrite !unit_chars_utf16 by assumption. cbn [mbind outcome_bind]. rewrite !utf8_encode_app, <- !app_assoc. reflexivity.
Qed.

Lemma unit_char_unit c : unit_char c -> is_unit c.
Proof. unfold unit_char, is_unit. lia. Qed.

Lemma units_split (units : list Z) : length units = 13%nat ->
  take 5 units ++ take 6 (drop 5 units) ++ take 2 (drop 11 units) = units.
Proof. intros H. do 13 (destruct units as [|? units]; try discriminate H). destruct units; [reflexivity|discriminate H]. Qed.

Lemma lfn_entry_ok sq units checksum : length units = 13%nat -> Forall unit_char units -> is_byte sq -> is_byte checksum ->
  lfn_ok (mk_lfn sq (take 5 units) LFN 0 checksum (take 6 (drop 5 units)) (take 2 (drop 11 units))).
Proof.
  intros Hl Hu Hs Hc. assert (Hun : Forall is_unit units) by (eapply Forall_impl; [exact Hu|exact unit_char_unit]).
  split; [exact Hs|]. split; [split; vm_compute; [discriminate|reflexivity]|]. split; [split; vm_compute; [discriminate|reflexivity]|]. split; [exact Hc|].
  cbn [chars0 chars1 chars2]. rewrite !length_take, !length_drop, Hl. split; [reflexivity|]. split; [reflexivity|].
  split; [reflexivity|]. split; [|split]; repeat first [apply Forall_take|apply Forall_drop]; exact Hun.
Qed.

(** The entries of a name are read as the name, with its padding, before whatever
    there was. *)
Lemma list_lfn_entries dest id lfn checksum rest : Forall unit_char lfn -> is_byte checksum ->
  forall i sq acc, (num_chars * i <= length lfn)%nat -> (i < 64)%nat -> 0 < sq < 128 ->
  list_entries dest id acc (lfn_entries i lfn sq checksum ++ rest)
  = list_entries dest id (utf8_encode (take (num_chars * i)%nat lfn) ++ acc) rest.
Proof.
  intros Hu Hc. unfold num_chars. induction i as [|i IH]; intros sq acc Hl Hi Hs; [reflexivity|].
  cbn [lfn_entries app]. set (units := take num_chars _). unfold num_chars in units.
  assert (Hlen : length units = 13%nat) by (subst units; rewrite length_take, length_drop; lia).
  assert (Huu : Forall unit_char units) by (subst units; apply Forall_take, Forall_drop, Hu).
  rewrite list_lfn_entry; cbn [sequence lfn_attributes chars0 chars1 chars2];
    [|apply lfn_entry_ok; try assumption; unfold is_byte; lia|reflexivity|lia|lia|rewrite units_split by exact Hlen; exact Huu].
  rewrite units_split by exact Hlen. rewrite IH; [|lia|lia|].
  - rewrite app_assoc, <- utf8_encode_app. do 3 f_equal. subst units.
    rewrite take_take_drop. f_equal. lia.
  - unfold u8, wrap. rewrite Z.mod_small by lia. lia.
Qed.

(** ** The entries of a file *)
Definition file_entries (e : fat_directory_entry) (n : nat) (lfn : list Z) : list (list Z) :=
  lfn_entries n lfn (Z.lor 0x40 (u8 (Z.of_nat n + 1))) (fat_lfn_checksum (de_name e)) ++ [encode_entry e].

Lemma name_char_unit c : name_char c -> unit_char c.
Proof. unfold name_char, unit_char. lia. Qed.

Lemma utf16_name cs : Forall name_char cs -> utf16_encode cs = cs.
Proof.
  unfold utf16_encode. induction 1 as [|c cs Hc Hcs IH]; [reflexivity|]. cbn [map concat]. rewrite IH.
  unfold utf16_encode_char, name_char in *. rewrite (proj2 (Z.leb_le c 0xFFFF)) by lia. reflexivity.
Qed.

(** The units of a name: the name, the end mark and padding to whole entries. *)
Lemma lfn_units_spec cs : Forall name_char cs -> exists n lfn pad, lfn_units (utf8_encode cs) = Ok (n, lfn)
  /\ lfn = cs ++ 0 :: pad /\ Forall unit_char lfn /\ length lfn = (num_chars * n)%nat
  /\ n = ((length cs + 13) / 13)%nat.
Proof.
  intros Hcs. unfold lfn_units. rewrite utf8_to_utf16_encoded.
  2: { eapply Forall_impl; [exact Hcs|]. intros c Hc. unfold name_char, scalar in *. lia. }
  cbn [mbind outcome_bind]. rewrite utf16_name by exact Hcs. rewrite length_app. cbn [length].
  set (n := ((length cs + 1 + (num_chars - 1)) / num_chars)%nat).
  exists n, ((cs ++ [0]) ++ repeat 0xFFFF (n * num_chars - (length cs + 1))), (repeat 0xFFFF (n * num_chars - (length cs + 1))).
  split; [reflexivity|]. split; [rewrite <- app_assoc; reflexivity|].
  assert (Hn : (n = (length cs + 13) / 13)%nat) by (subst n; unfold num_chars; f_equal; lia).
  pose proof (Nat.div_mod (length cs + 13) 13 ltac:(lia)) as Hd. pose proof (Nat.mod_upper_bound (length cs + 13) 13 ltac:(lia)).
  split; [|split; [|exact Hn]].
  - apply Forall_app. split; [apply Forall_app; split|].
    + eapply Forall_impl; [exact Hcs|exact name_char_unit].
    + constructor; [unfold unit_char; lia|constructor].
    + apply Forall_forall. intros x Hx. apply list_elem_of_In, repeat_spec in Hx as ->. unfold unit_char. lia.
  - rewrite !length_app, repeat_length. cbn [length]. unfold num_chars in *. lia.
Qed.

Lemma checksum_byte name : is_byte (fat_lfn_checksum name).
Proof.
  unfold fat_lfn_checksum. assert (H : is_byte 0) by (unfold is_byte; lia). revert H. generalize 0.
  induction name as [|c name IH]; intros z Hz; [exact Hz|]. cbn [fold_left]. apply IH. unfold is_byte, u8, wrap.
  apply Z.mod_pos_bound. lia.
Qed.

Definition month_ok (date : Z) : Prop := 1 <= Z.shiftr (Z.land date 0x01E0) 5 <= 12.

Lemma fat_time_total t : month_ok (ft_date t) -> exists z, fat_time_to_time_t t = Ok z.
Proof.
  unfold month_ok, fat_time_to_time_t, mktime. intros H. cbn [tm_mon].
  assert (Hf : exists o, fetch (ordinal_date (is_leap_year (s32 (Z.shiftr (Z.land (ft_date t) 0xFE00) 9 + 80 + 1900))))
    (Z.shiftr (Z.land (ft_date t) 0x01E0) 5 - 1) = Ok o).
  { set (m := Z.shiftr _ 5) in *. assert (Hm : m - 1 = 0 \/ m - 1 = 1 \/ m - 1 = 2 \/ m - 1 = 3 \/ m - 1 = 4 \/ m - 1 = 5
      \/ m - 1 = 6 \/ m - 1 = 7 \/ m - 1 = 8 \/ m - 1 = 9 \/ m - 1 = 10 \/ m - 1 = 11) by lia.
    destruct (is_leap_year _); repeat (destruct Hm as [->|Hm]; [eexists; reflexivity|]); rewrite Hm; eexists; reflexivity. }
  destruct Hf as [o Ho]. eexists. cbv zeta. cbn [tm_year tm_sec tm_min tm_hour tm_mday]. rewrite (bind_Ok_l _ _ _ Ho). reflexivity.
Qed.

(** A file as the driver can list it: a short entry in use, with dates that are dates. *)
Definition file_ok (e : fat_directory_entry) (cs : list Z) : Prop :=
  entry_ok e /\ nth 0 (de_name e) 0 <> 0 /\ nth 0 (de_name e) 0 <> 0xE5 /\ Z.land (attributes e) LFN <> LFN
  /\ month_ok (created_date e) /\ month_ok (modified_date e) /\ Forall name_char cs /\ (length cs <= 255)%nat.

(** What a listed file says. *)
Definition handle_of (dest : directory_stream) (id : Z) (e : fat_directory_entry) (cs : list Z) (h : file_handle) : Prop :=
  fh_name h = utf8_encode cs /\ dir_path h = Some (full_path dest)
  /\ fh_data h = mk_fdb (fat_file_location e) id (de_file_size e) (fat_convert_flags (attributes e) (fat_file_location e =? 0))
       (mk_fmt (location_on_disk (dir_data dest)) (file_flags (dir_data dest))).

Lemma list_file dest id e cs n lfn rest : file_ok e cs -> lfn_units (utf8_encode cs) = Ok (n, lfn) ->
  exists h, handle_of dest id e cs h
  /\ list_entries dest id [] (file_entries e n lfn ++ rest) = (r ← list_entries dest id [] rest; Ok (h :: r)).
Proof.
  intros (He & H0 & H5 & Ha & Hc & Hm & Hcs & Hlen) En.
  destruct (lfn_units_spec cs Hcs) as (n' & lfn' & pad & En' & Hlfn & Hu & Hl & Hn). rewrite En in En'.
  injection En' as <- <-. assert (Hn64 : (n < 63)%nat) by (subst n; apply Nat.Div0.div_lt_upper_bound; lia).
  assert (Hpos : (0 < n)%nat) by (destruct n; [subst lfn; rewrite length_app in Hl; cbn in Hl; lia|lia]).
  destruct (fat_time_total (mk_fat_time (created_date e) (created_time e)) Hc) as [t1 E1].
  destruct (fat_time_total (mk_fat_time (modified_date e) (modified_time e)) Hm) as [t2 E2].
  exists (set_name (utf8_encode cs) (mk_handle (Some (full_path dest)) (read_fat_short_name (de_name e))
    (mk_fdb (fat_file_location e) id (de_file_size e) (fat_convert_flags (attributes e) (fat_file_location e =? 0))
       (mk_fmt (location_on_disk (dir_data dest)) (file_flags (dir_data dest)))) t1 t2)).
  split; [split; [reflexivity|split; reflexivity]|].
  unfold file_entries. rewrite <- app_assoc. rewrite (list_lfn_entries dest id lfn _ _ Hu (checksum_byte _)); [|lia|lia|].
  2: { unfold u8, wrap. rewrite Z.mod_small by lia. rewrite (lor_aligned 0x40 _ 6); [lia|lia|reflexivity|lia]. }
  rewrite <- Hl, firstn_all, app_nil_r. cbn [app list_entries]. rewrite decode_encode_entry by exact He.
  rewrite (proj2 (Z.eqb_neq _ 0)), (proj2 (Z.eqb_neq _ 0xE5)), (proj2 (Z.eqb_neq _ LFN)) by assumption.
  unfold fat_read_dir_entry. rewrite (bind_Ok_l _ _ _ E1), (bind_Ok_l _ _ _ E2). cbn [mbind outcome_bind].
  rewrite Hlfn, cut_nul_name by exact Hcs.
  destruct (utf8_encode (cs ++ 0 :: pad)) as [|b l] eqn:Eu; [|reflexivity].
  rewrite utf8_encode_app in Eu. apply app_eq_nil in Eu as [_ Eu]. discriminate Eu.
Qed.

(** ** Directories on a volume *)
Section volume.
Context {S : Type} `{HB : block_store S} (bs cap : Z) `{HL : !block_store_laws S bs cap}.
Context (d : fat_drive) (Hg : geometry d bs cap).
Context (read_only : bool) (now : Z) (junk : list Z) (limit : nat).
Context (mount : Z -> fat_volume S -> outcome (mount_status * file_handle * fat_volume S)).
Notation volume := (fat_volume S).
Notation contents v := (view bs cap (vol_state v)).

(** A mounted volume; two volumes with the same contents. *)
Definition vol_ok (v : volume) : Prop := vol_impl v = Some d /\ ok bs cap (vol_state v).
Definition vol_same (v v' : volume) : Prop := vol_impl v' = vol_impl v /\ same bs cap (vol_state v) (vol_state v').

Lemma vol_same_ok v v' : vol_ok v -> vol_same v v' -> vol_ok v'.
Proof using. intros [H1 _] [H2 (H3 & _)]. split; [congruence|exact H3]. Qed.
Lemma vol_same_refl v : vol_ok v -> vol_same v v.
Proof using. intros [_ H]. split; [reflexivity|apply same_refl, H]. Qed.
Lemma vol_same_trans v1 v2 v3 : vol_same v1 v2 -> vol_same v2 v3 -> vol_same v1 v3.
Proof using. intros [H1 H2] [H3 H4]. split; [congruence|exact (same_trans _ _ _ _ _ H2 H4)]. Qed.

(** Where the bytes of a directory are: the fixed root of FAT12 and FAT16, or a chain
    of clusters. *)
Definition dir_at (f : Z -> Z) (data : file_data_block) (addr : Z -> Z) (size : Z) : Prop :=
  has (file_flags data) IS_DIR = true /\ size < 2 ^ 32
  /\ ((fixed_root d data = true /\ 0 <= location_on_disk data < eof_value d
       /\ fat_block d * bs + table_bytes (fat_kind d) (num_clusters d + 2) <= (root_location d + location_on_disk data) * bs
       /\ 0 <= root_location d /\ root_location d + location_on_disk data < 2 ^ 32
       /\ (forall i, addr i = (root_location d + location_on_disk data) * bs + i)
       /\ (root_location d + location_on_disk data) * bs + size <= cap * bs)
      \/ (fixed_root d data = false /\ exists cs, chain bs d f (location_on_disk data) cs
          /\ (forall i, addr i = file_addr bs d cs i) /\ size = Z.of_nat (length cs) * cluster_size d)).

Lemma dir_at_same v v' data addr size : vol_same v v' -> dir_at (contents v) data addr size -> dir_at (contents v') data addr size.
Proof using Hg.
  intros [_ Hs] (H1 & H2 & [H|(H3 & cs & H4 & H5)]); split; [exact H1| |exact H1|]; (split; [exact H2|]); [left; exact H|].
  right. split; [exact H3|]. exists cs. split; [|exact H5]. exact (chain_same bs cap d Hg _ _ _ _ _ Hs eq_refl H4).
Qed.

Lemma read_chunks_spec v data addr size offset n : vol_ok v -> dir_at (contents v) data addr size ->
  0 <= offset -> 0 < n -> offset + n <= size ->
  exists v', read_chunks (location_on_disk data) offset n data (disk_id data) v
    = Ok (map (fun i => contents v (addr i)) (seqZ offset n), v') /\ vol_same v v'.
Proof using HL Hg.
  intros [Hd Hok] (_ & Hsz & [(Hf & Hl & _ & Hr & Hrl & Ha & Hc)|(Hf & cs & Hch & Ha & ->)]) Ho Hn Hle;
    unfold read_chunks, with_impl; rewrite Hd.
  - unfold fat_read. rewrite Hf, (proj2 (Z.leb_gt _ _)) by lia. rewrite add32_small by lia. rewrite (u32_small offset) by (unfold is_u32; lia).
    destruct (vd_read_spec bs cap (vol_state v) (root_location d + location_on_disk data) offset n Hok ltac:(lia) Ho ltac:(lia) ltac:(lia))
      as (s' & E & Hs). rewrite (bind_Ok_l _ _ _ E). exists (mk_volume (Some d) s'). split; [|split; [symmetry; exact Hd|exact Hs]].
    cbn [mbind outcome_bind]. do 2 f_equal. rewrite (map_seqZ_shift (fun i => view bs cap (vol_state v) (addr i))), map_seqZ_shift.
    apply map_ext. intros i. rewrite Ha. f_equal. lia.
  - destruct (fat_read_spec bs cap d Hg (vol_state v) (location_on_disk data) cs offset n data Hok Hf Hch Ho ltac:(lia) ltac:(lia))
      as (c' & s' & E & Hs). rewrite (bind_Ok_l _ _ _ E). exists (mk_volume (Some d) s'). split; [|split; [symmetry; exact Hd|exact Hs]].
    cbn [mbind outcome_bind]. do 2 f_equal. apply map_ext. intros i. unfold file_byte. rewrite Ha. reflexivity.
Qed.

(** The driver the streams call: any that reads and writes the clusters of this volume. *)
Context (drv : filesystem_driver volume) (Hread : drv_read_chunks drv = read_chunks)
  (Hwrite : drv_write_chunks drv = Some write_chunks).
Notation dir_read := (dir_read read_only drv).
Notation read_dir_loop := (read_dir_loop read_only drv).

Lemma dir_read_spec v st addr size offset : vol_ok v -> dir_at (contents v) (st_file st) addr size ->
  0 <= offset -> offset + 32 <= size ->
  exists v', dir_read offset st v = Ok (Some (map (fun i => contents v (addr i)) (seqZ offset 32)), v') /\ vol_same v v'.
Proof using HL Hg Hread.
  intros Hv Hd Ho Hle. pose proof Hd as (Hdir & _).
  destruct (read_chunks_spec v (st_file st) addr size offset 32 Hv Hd Ho ltac:(lia) Hle) as (v' & E & Hs).
  exists v'. split; [|exact Hs]. unfold FatDir.dir_read, filesystem_read_file. rewrite Hdir. cbn [negb andb].
  unfold get_drive. rewrite (proj1 Hv). cbn [mbind outcome_bind]. rewrite Hread. change sizeof_directory_entry with 32.
  rewrite (bind_Ok_l _ _ _ E). cbn [mbind outcome_bind Z.eqb Pos.eqb negb].
  rewrite length_map, length_seqZ. reflexivity.
Qed.

(** The entries of a directory up to its end mark. *)
Fixpoint holds_entries (g : Z -> Z) (offset : Z) (es : list (list Z)) : Prop :=
  match es with
  | [] => g offset = 0
  | bytes :: es => map g (seqZ offset 32) = bytes /\ holds_entries g (offset + 32) es
  end.

Lemma first_byte (g : Z -> Z) offset : nth 0 (de_name (decode_entry (map g (seqZ offset 32)))) 0 = g offset.
Proof using. rewrite seqZ_cons by lia. reflexivity. Qed.

Lemma contents_same v v' (addr : Z -> Z) : vol_same v v' -> forall i, contents v' (addr i) = contents v (addr i).
Proof using. intros [_ (_ & Hs & _)] i. apply Hs. Qed.

Lemma holds_entries_ext g g' es : (forall i, g' i = g i) -> forall offset, holds_entries g offset es -> holds_entries g' offset es.
Proof using.
  intros He. induction es as [|b es IH]; intros offset; cbn [holds_entries]; [intros <-; apply He|].
  intros [<- H]. split; [apply map_ext; exact He|apply IH, H].
Qed.

Lemma read_dir_loop_spec dest id st addr size : size < 2 ^ 32 -> forall es n offset lfn v hs,
  vol_ok v -> dir_at (contents v) (st_file st) addr size -> holds_entries (fun i => contents v (addr i)) offset es ->
  0 <= offset -> offset + 32 * (Z.of_nat (length es) + 1) <= size -> (length es < n)%nat ->
  list_entries dest id lfn es = Ok hs ->
  exists v', read_dir_loop n dest id st offset lfn v = Ok (hs, v') /\ vol_same v v'.
Proof using HL Hg Hread.
  intros Hsz. induction es as [|bytes es IH]; intros n offset lfn v hs Hv Hd Hh Ho Hle Hn El; cbn [length] in *;
    (destruct n as [|n]; [lia|]); cbn [FatDir.read_dir_loop];
    destruct (dir_read_spec v st addr size offset Hv Hd Ho ltac:(lia)) as (v1 & E1 & Hs1); rewrite (bind_Ok_l _ _ _ E1);
    cbn [mbind outcome_bind].
  - cbn [holds_entries] in Hh. rewrite (first_byte (fun i => contents v (addr i))), Hh. injection El as <-. exists v1. split; [reflexivity|exact Hs1].
  - destruct Hh as [Hb Hh]. rewrite Hb. cbn [list_entries] in El. cbv zeta.
    assert (Hnext : next_entry offset = offset + 32).
    { unfold next_entry, u64, wrap. change sizeof_directory_entry with 32. apply Z.mod_small. lia. }
    rewrite Hnext.
    assert (Hrec : forall lfn hs, list_entries dest id lfn es = Ok hs -> exists v', read_dir_loop n dest id st (offset + 32) lfn v1 = Ok (hs, v') /\ vol_same v v').
    { intros lfn' hs' El'. destruct (IH n (offset + 32) lfn' v1 hs' (vol_same_ok _ _ Hv Hs1) (dir_at_same _ _ _ _ _ Hs1 Hd)
        (holds_entries_ext _ _ es (contents_same v v1 addr Hs1) _ Hh) ltac:(lia) ltac:(lia) ltac:(lia) El') as (v2 & E2 & Hs2).
      exists v2. split; [exact E2|exact (vol_same_trans _ _ _ Hs1 Hs2)]. }
    clear IH. destruct (_ =? 0); [injection El as <-; exists v1; split; [reflexivity|exact Hs1]|].
    destruct (_ =? 0xE5); [injection El as <-; exists v1; split; [reflexivity|exact Hs1]|].
    destruct (Z.land _ _ =? LFN).
    + destruct (sequence _ =? 0xE5); [exact (Hrec _ _ El)|].
      destruct (utf16_to_utf8 (chars0 _)) as [c0|]; [|discriminate El]. destruct (utf16_to_utf8 (chars1 _)) as [c1|]; [|discriminate El].
      destruct (utf16_to_utf8 (chars2 _)) as [c2|]; [|discriminate El]. exact (Hrec _ _ El).
    + destruct (fat_read_dir_entry dest (decode_entry bytes) id) as [h|]; [|discriminate El]. cbn [mbind outcome_bind] in *.
      destruct (list_entries dest id [] es) as [rest|] eqn:Er; [|discriminate El]. injection El as <-.
      destruct (Hrec [] rest Er) as (v2 & E2 & Hs2). rewrite (bind_Ok_l _ _ _ E2). exists v2. split; [reflexivity|exact Hs2].
Qed.

(** A file's entries, the long name first. *)
Definition file_image (f : fat_directory_entry * list Z) : list (list Z) :=
  match lfn_units (utf8_encode (snd f)) with Ok (n, lfn) => file_entries (fst f) n lfn | Fault _ => [] end.

Lemma list_files dest id files : Forall (fun f => file_ok (fst f) (snd f)) files -> exists hs,
  list_entries dest id [] (concat (map file_image files)) = Ok hs
  /\ Forall2 (fun f h => handle_of dest id (fst f) (snd f) h) files hs.
Proof using.
  induction 1 as [|[e cs] files Hf Hfs IH]; [exists []; split; [reflexivity|constructor]|]. destruct IH as (hs & E & Hhs).
  cbn [fst snd] in Hf. pose proof Hf as (_ & _ & _ & _ & _ & _ & Hcs & _).
  destruct (lfn_units_spec cs Hcs) as (n & lfn & _ & En & _). cbn [map concat].
  destruct (list_file dest id e cs n lfn (concat (map file_image files)) Hf En) as (h & Hh & Eh).
  exists (h :: hs). split; [|constructor; assumption]. unfold file_image at 1. cbn [fst snd]. rewrite En, Eh, E. reflexivity.
Qed.

End volume.
