(* ===== verification/FatCreate.v ===== *)
(** * Creating a file in a directory of a FAT volume

    Claiming a cluster, the entries of the new file and the end mark behind them: the
    directory then lists what it listed before and the new file. *)
From S2P Require Import Prelude Time TimeProofs Unicode FsUtil Drives DrivesProofs BlockStore Vfs Streams Directory Fat FatProofs.
From S2P Require Import FatVolume FatDir FatDirProofs.

(** ** The dates and names of a new entry *)
Lemma land_mask_range a k : 0 <= k -> 0 <= Z.land a k <= k.
Proof.
  intros Hk. split; [apply Z.land_nonneg; right; exact Hk|].
  assert (E : Z.land a k = k - Z.ldiff k a).
  { rewrite Z.land_comm. rewrite <- (Z.lor_ldiff_and k a) at 2. rewrite <- Z.add_nocarry_lor; [lia|].
    apply Z.bits_inj'. intros i _. rewrite Z.land_spec, Z.ldiff_spec, Z.land_spec, Z.bits_0. destruct (Z.testbit k i), (Z.testbit a i); reflexivity. }
  assert (0 <= Z.ldiff k a) by (apply Z.ldiff_nonneg; left; exact Hk). lia.
Qed.

Lemma fat_time_fields t : 0 <= tm_mon t < 12 ->
  is_unit (ft_date (time_t_time_to_fat_time t)) /\ is_unit (ft_time (time_t_time_to_fat_time t))
  /\ month_ok (ft_date (time_t_time_to_fat_time t)).
Proof.
  intros Hm. unfold time_t_time_to_fat_time, is_unit, month_ok. cbn [ft_date ft_time].
  assert (Hb : forall x y n, 0 <= x < 2 ^ 16 -> 0 <= y <= n -> n < 2 ^ 16 -> 0 <= Z.lor x y < 2 ^ 16)
    by (intros x y n Hx Hy Hn; apply lor_bound; lia).
  split; [|split].
  - apply (Hb _ _ 0xFE00); [apply (Hb _ _ 0x1E0); [|apply land_mask_range; lia|lia]|apply land_mask_range; lia|lia].
    pose proof (land_mask_range (tm_mday t) 0x1F). lia.
  - apply (Hb _ _ 0x7E0); [apply (Hb _ _ 0x7E0); [|apply land_mask_range; lia|lia]|apply land_mask_range; lia|lia].
    pose proof (land_mask_range (Z.shiftr (tm_sec t) 1) 0x1F). lia.
  - rewrite !Z.land_lor_distr_l, <- !Z.land_assoc. change (Z.land 0x1F 0x1E0) with 0.
    change (Z.land 0xFE00 0x1E0) with 0. rewrite !Z.land_0_r, Z.lor_0_l, Z.lor_0_r. change (Z.land 0x1E0 0x1E0) with 0x1E0.
    set (m := tm_mon t) in *. assert (H : m = 0 \/ m = 1 \/ m = 2 \/ m = 3 \/ m = 4 \/ m = 5 \/ m = 6 \/ m = 7 \/ m = 8
      \/ m = 9 \/ m = 10 \/ m = 11) by lia. clearbody m.
    repeat (destruct H as [->|H]; [vm_compute; split; discriminate|]). subst m. vm_compute. split; discriminate.
Qed.

(** A name of a root and an extension that fit their fields. *)
Definition short_ok (name root ext : list Z) : Prop :=
  before_last 46 name = Some root /\ after_last 46 name = Some ext /\ (length root <= 8)%nat /\ (length ext <= 3)%nat
  /\ root <> [] /\ nth 0 root 0 <> 0 /\ nth 0 root 0 <> 0xE5.

Lemma splice_ok l off buf : 0 <= off -> off + Z.of_nat (length buf) <= Z.of_nat (length l) ->
  splice l off buf = Ok (take (Z.to_nat off) l ++ buf ++ drop (Z.to_nat off + length buf) l).
Proof. intros H1 H2. unfold splice. rewrite (proj2 (Z.leb_le 0 off)), (proj2 (Z.leb_le (off + _) _)) by lia. reflexivity. Qed.

Lemma write_field_spec name off src size : 0 <= off -> off + size <= Z.of_nat (length name) -> Z.of_nat (length src) <= size ->
  write_field name off src size = Ok (take (Z.to_nat off) name ++ src ++ repeat 32 (Z.to_nat size - length src)
    ++ drop (Z.to_nat (off + size)) name).
Proof.
  intros Ho Hs Hl. unfold write_field. rewrite splice_ok by lia. cbn [mbind outcome_bind].
  destruct (Z.ltb_spec (Z.of_nat (length src)) size) as [Hlt|Hge].
  - rewrite splice_ok by (rewrite ?length_app, ?length_take, ?length_drop, ?repeat_length; lia). f_equal.
    rewrite (app_assoc (take (Z.to_nat off) name) src), take_app_le by (rewrite length_app, length_take; lia).
    rewrite take_ge by (rewrite length_app, length_take; lia). rewrite drop_app_ge by (rewrite length_app, length_take; lia).
    rewrite drop_drop, <- app_assoc, repeat_length. do 2 f_equal. f_equal; [f_equal; lia|]. f_equal. rewrite length_app, length_take. lia.
  - replace (Z.to_nat size - length src)%nat with 0%nat by lia. cbn [repeat app]. do 4 f_equal. lia.
Qed.

Lemma get_short_filename_spec junk name root ext : length junk = 11%nat -> short_ok name root ext ->
  exists short, get_short_filename junk name = Ok short /\ length short = 11%nat /\ nth 0 short 0 = nth 0 root 0.
Proof.
  intros Hj (E1 & E2 & L1 & L2 & Hne & _). unfold get_short_filename. rewrite E1, E2.
  rewrite write_field_spec by lia. cbn [mbind outcome_bind]. eexists. rewrite write_field_spec.
  - split; [reflexivity|]. split.
    + rewrite !length_app, !repeat_length, length_take, !length_drop, !length_app, !repeat_length, length_drop, length_take. lia.
    + destruct root as [|x root]; [contradiction|]. reflexivity.
  - lia.
  - rewrite !length_app, repeat_length, length_drop, length_take. lia.
  - lia.
Qed.

(** ** Writing through a stream *)
Definition bytes_at (g : Z -> Z) (offset : Z) (bytes : list Z) : Prop := map g (seqZ offset (Z.of_nat (length bytes))) = bytes.

Lemma bytes_at_app g offset a b : bytes_at g offset (a ++ b) <-> bytes_at g offset a /\ bytes_at g (offset + Z.of_nat (length a)) b.
Proof.
  unfold bytes_at. rewrite length_app, Nat2Z.inj_add, seqZ_app, map_app by lia. split.
  - intros H. apply app_inj_1 in H; [exact H|]. rewrite length_map, length_seqZ. lia.
  - intros [-> ->]. reflexivity.
Qed.

Section volume.
Context {S : Type} `{HB : block_store S} (bs cap : Z) `{HL : !block_store_laws S bs cap}.
Context (d : fat_drive) (Hg : geometry d bs cap).
Context (now : Z) (junk : list Z) (limit : nat).
Notation volume := (fat_volume S).
Notation contents v := (view bs cap (vol_state v)).
Notation vol_ok := (vol_ok bs cap d).
Notation vol_same := (vol_same bs cap).
Notation dir_at := (dir_at bs cap d).

(** What a directory holds, as far as it goes. *)
Definition dir_byte (v : volume) (addr : Z -> Z) (size i : Z) : Z :=
  if (0 <=? i) && (i <? size) then contents v (addr i) else 0.

Definition vol_wrote (data : file_data_block) (addr : Z -> Z) (size offset : Z) (bytes : list Z) (v v' : volume) : Prop :=
  vol_ok v' /\ dir_at (contents v') data addr size
  /\ stored_at offset bytes (dir_byte v addr size) (dir_byte v' addr size)
  /\ forall a, (forall i, 0 <= i < size -> a <> addr i) -> contents v' a = contents v a.

Lemma dir_byte_in v addr size i : 0 <= i < size -> dir_byte v addr size i = contents v (addr i).
Proof using. intros Hi. unfold dir_byte. rewrite (proj2 (Z.leb_le _ _)), (proj2 (Z.ltb_lt _ _)) by lia. reflexivity. Qed.

Lemma dir_byte_stored v v' addr size offset bytes : 0 <= offset -> offset + Z.of_nat (length bytes) <= size ->
  (forall i, 0 <= i < size -> contents v' (addr i) =
    if (offset <=? i) && (i <? offset + Z.of_nat (length bytes)) then byte_at bytes (i - offset) else contents v (addr i)) ->
  stored_at offset bytes (dir_byte v addr size) (dir_byte v' addr size).
Proof using.
  intros Ho Hle H i. unfold dir_byte. destruct (Z.leb_spec 0 i), (Z.ltb_spec i size); cbn [andb].
  - apply H. lia.
  - rewrite (proj2 (Z.ltb_ge i (offset + _))) by lia. rewrite andb_false_r. reflexivity.
  - rewrite (proj2 (Z.leb_gt offset i)) by lia. reflexivity.
  - rewrite (proj2 (Z.leb_gt offset i)) by lia. reflexivity.
Qed.

Lemma write_chunks_spec v data addr size offset bytes : vol_ok v -> dir_at (contents v) data addr size ->
  0 <= offset -> 0 < Z.of_nat (length bytes) -> offset + Z.of_nat (length bytes) <= size ->
  exists v', write_chunks bytes (location_on_disk data) offset data (disk_id data) v = Ok v'
  /\ vol_wrote data addr size offset bytes v v'.
Proof using HL Hg.
  intros [Hd Hok] (Hdir & Hsz & [(Hf & Hl & Hft & Hr & Hrl & Ha & Hc)|(Hf & cs & Hch & Ha & Es)]) Ho Hn Hle;
    unfold write_chunks, with_impl; rewrite Hd.
  - unfold fat_write. rewrite Hf, add32_small by lia. rewrite (u32_small offset) by (unfold is_u32; lia).
    destruct (vd_write_spec bs cap (vol_state v) (root_location d + location_on_disk data) offset bytes Hok ltac:(lia) Ho
      ltac:(lia) ltac:(lia)) as (s' & E & (Hok' & Hst & _)). rewrite (bind_Ok_l _ _ _ E). eexists. split; [reflexivity|].
    split; [split; [reflexivity|exact Hok']|]. split; [split; [exact Hdir|split; [exact Hsz|left; repeat split; (assumption || lia)]]|]. split.
    2: { intros a Hna. cbn [vol_state]. rewrite (Hst a).
      assert (Hout : a < (root_location d + location_on_disk data) * bs + offset \/ (root_location d + location_on_disk data) * bs + offset + Z.of_nat (length bytes) <= a).
      { destruct (Z.lt_ge_cases a ((root_location d + location_on_disk data) * bs + offset)); [left; assumption|right].
        destruct (Z.lt_ge_cases a ((root_location d + location_on_disk data) * bs + offset + Z.of_nat (length bytes))); [|assumption]. exfalso.
        apply (Hna (a - (root_location d + location_on_disk data) * bs)); [lia|]. rewrite Ha. lia. }
      destruct (Z.leb_spec ((root_location d + location_on_disk data) * bs + offset) a), (Z.ltb_spec a ((root_location d + location_on_disk data) * bs + offset + Z.of_nat (length bytes)));
        try reflexivity; lia. }
    apply dir_byte_stored; try assumption. intros i Hi. rewrite Ha. cbn [vol_state]. rewrite (Hst _).
    replace ((root_location d + location_on_disk data) * bs + i - ((root_location d + location_on_disk data) * bs + offset)) with (i - offset) by lia.
    destruct (Z.leb_spec offset i), (Z.leb_spec ((root_location d + location_on_disk data) * bs + offset) ((root_location d + location_on_disk data) * bs + i)),
      (Z.ltb_spec i (offset + Z.of_nat (length bytes))),
      (Z.ltb_spec ((root_location d + location_on_disk data) * bs + i) ((root_location d + location_on_disk data) * bs + offset + Z.of_nat (length bytes)));
      try lia; reflexivity.
  - destruct (fat_write_spec bs cap d Hg (vol_state v) (location_on_disk data) cs offset bytes data Hok Hf Hch Ho ltac:(lia) ltac:(lia))
      as (c' & s' & E & (Hok' & [Hst Hfr] & _) & Hch'). rewrite (bind_Ok_l _ _ _ E). eexists. split; [reflexivity|].
    split; [split; [reflexivity|exact Hok']|]. split; [split; [exact Hdir|split; [exact Hsz|right; split; [exact Hf|exists cs; split; [exact Hch'|split; [exact Ha|exact Es]]]]]|]. split.
    + apply dir_byte_stored; try assumption. intros i Hi. rewrite !Ha. apply Hst. lia.
    + intros a Hna. apply Hfr. intros i Hi Hx. apply (Hna i); [lia|]. rewrite Ha. symmetry. exact Hx.
Qed.

Context (drv : filesystem_driver volume) (Hread : drv_read_chunks drv = read_chunks)
  (Hwrite : drv_write_chunks drv = Some write_chunks).
Notation dir_write := (dir_write false drv).

Lemma dir_write_spec v st addr size offset bytes : vol_ok v -> dir_at (contents v) (st_file st) addr size ->
  has (file_flags (st_file st)) IS_READONLY = false ->
  0 <= offset -> 0 < Z.of_nat (length bytes) -> offset + Z.of_nat (length bytes) <= size ->
  exists v', dir_write offset bytes st v = Ok (Z.of_nat (length bytes), mk_stream (st_file st) true, v')
  /\ vol_wrote (st_file st) addr size offset bytes v v'.
Proof using HL Hg Hwrite.
  intros Hv Hd Hro Ho Hn Hle. destruct (write_chunks_spec v (st_file st) addr size offset bytes Hv Hd Ho Hn Hle) as (v' & E & Hw).
  exists v'. split; [|exact Hw]. unfold FatDir.dir_write, filesystem_write_file. rewrite Hro. cbn [negb k_assert mbind outcome_bind].
  unfold get_drive. rewrite (proj1 Hv). cbn [mbind outcome_bind]. rewrite Hwrite, (proj1 Hd). cbn [negb andb mbind outcome_bind].
  rewrite Z.ltb_irrefl, Nat2Z.id, firstn_all. rewrite (bind_Ok_l _ _ _ E). reflexivity.
Qed.

Lemma vol_wrote_app data addr size offset a b v1 v2 v3 : vol_wrote data addr size offset a v1 v2 ->
  vol_wrote data addr size (offset + Z.of_nat (length a)) b v2 v3 -> vol_wrote data addr size offset (a ++ b) v1 v3.
Proof using. intros (_ & _ & H1 & F1) (H2 & H3 & H4 & F2). split; [exact H2|]. split; [exact H3|]. split; [exact (stored_at_app _ _ _ _ _ _ H1 H4)|].
  intros x Hx. rewrite (F2 x Hx). exact (F1 x Hx).
Qed.

Lemma lfn_entries_length lfn checksum : forall i sq, Forall unit_char lfn -> is_byte checksum -> is_byte sq ->
  (num_chars * i <= length lfn)%nat -> Forall (fun b => length b = 32%nat) (lfn_entries i lfn sq checksum).
Proof using.
  intros i sq Hu Hc. revert sq. unfold num_chars. induction i as [|i IH]; intros sq Hs Hl; [constructor|]. cbn [lfn_entries]. constructor.
  - apply encode_lfn_length, lfn_entry_ok; try assumption; [unfold num_chars; rewrite length_take, length_drop; lia|apply Forall_take, Forall_drop, Hu].
  - apply IH; [|lia]. unfold is_byte, u8, wrap. apply Z.mod_pos_bound. lia.
Qed.

Lemma length_lfn_entries i lfn checksum : forall sq, length (lfn_entries i lfn sq checksum) = i.
Proof using. induction i as [|i IH]; intros sq; [reflexivity|]. cbn [lfn_entries length]. rewrite IH. reflexivity. Qed.

Lemma concat_length (es : list (list Z)) : Forall (fun b => length b = 32%nat) es -> length (concat es) = (32 * length es)%nat.
Proof using. induction 1 as [|b es Hb Hes IH]; [reflexivity|]. cbn [concat]. rewrite length_app, Hb, IH. cbn. lia. Qed.

Lemma write_lfn_loop_spec addr size lfn checksum : Forall unit_char lfn -> is_byte checksum -> size < 2 ^ 32 ->
  forall i v st offset sq, vol_ok v -> dir_at (contents v) (st_file st) addr size ->
  has (file_flags (st_file st)) IS_READONLY = false -> is_byte sq ->
  (num_chars * i <= length lfn)%nat -> 0 <= offset -> offset + 32 * Z.of_nat i <= size -> (0 < i)%nat ->
  exists v', write_lfn_loop false drv i lfn sq checksum st offset v
    = Ok (offset + 32 * Z.of_nat i, mk_stream (st_file st) true, v')
  /\ vol_wrote (st_file st) addr size offset (concat (lfn_entries i lfn sq checksum)) v v'.
Proof using HL Hg Hwrite.
  intros Hu Hc Hsz. induction i as [|i IH]; intros v st offset sq Hv Hd Hro Hs Hl Ho Hle Hi; [lia|]. unfold num_chars in Hl.
  cbn [write_lfn_loop lfn_entries concat]. set (units := take num_chars _). unfold num_chars in units.
  set (e := mk_lfn sq _ LFN 0 checksum _ _).
  assert (He : length (encode_lfn e) = 32%nat).
  { apply encode_lfn_length, lfn_entry_ok; try assumption; subst units; [rewrite length_take, length_drop; lia|apply Forall_take, Forall_drop, Hu]. }
  destruct (dir_write_spec v st addr size offset (encode_lfn e) Hv Hd Hro Ho ltac:(lia) ltac:(lia)) as (v1 & E1 & Hw1).
  rewrite (bind_Ok_l _ _ _ E1). cbn [mbind outcome_bind]. rewrite He. change (Z.of_nat 32) with 32.
  assert (E64 : u64 (offset + 32) = offset + 32) by (unfold u64, wrap; apply Z.mod_small; lia). rewrite E64.
  destruct i as [|i].
  - exists v1. cbn [write_lfn_loop lfn_entries concat]. rewrite app_nil_r. split; [do 3 f_equal; lia|exact Hw1].
  - destruct (IH v1 (mk_stream (st_file st) true) (offset + 32) (u8 (Z.of_nat (Datatypes.S i) + 1)) (proj1 Hw1) (proj1 (proj2 Hw1)) Hro
      ltac:(unfold is_byte, u8, wrap; apply Z.mod_pos_bound; lia) ltac:(unfold num_chars; lia) ltac:(lia) ltac:(lia) ltac:(lia)) as (v2 & E2 & Hw2).
    exists v2. split; [rewrite E2; cbn [st_file]; do 3 f_equal; lia|].
    apply (vol_wrote_app _ _ _ _ _ _ _ _ _ Hw1). rewrite He. exact Hw2.
Qed.

(** ** Claiming a cluster *)
Notation entry := (entry bs d).
Notation table_set := (table_set bs cap d).
Context (Hfat12 : fat_kind d = FAT_12 -> blocks_per_sector d = 1 /\ fat_block d = reserved_sectors d * blocks_per_sector d).

Lemma table_set_same_l c next s1 s2 s3 : same bs cap s1 s2 -> table_set c next s2 s3 -> table_set c next s1 s3.
Proof using Hg.
  intros (_ & Hv & Hf) (T1 & T2 & T3 & T4 & T5 & T6). split; [exact T1|]. split; [exact T2|]. split; [|split; [|split; [exact T5|congruence]]].
  - intros c' Hc' Hne. rewrite (T3 c' Hc' Hne). apply (entry_ext bs cap d Hg _ _ c' Hc'). intros a _. apply Hv.
  - intros a Ha. rewrite (T4 a Ha). apply Hv.
Qed.

Lemma claim_free_cluster fuel c s : ok bs cap s -> (forall a, is_byte (view bs cap s a)) -> 2 <= c < num_clusters d ->
  entry (view bs cap s) c = FREE_CLUSTER -> (0 < fuel)%nat ->
  exists s', claim_scan d fuel c 0 1 s = Ok (c, s') /\ table_set c (eof_value d) s s'.
Proof using HL Hg Hfat12.
  intros Hok Hby Hc Hfree Hf. destruct fuel as [|fuel]; [lia|]. cbn [claim_scan]. rewrite (proj2 (Z.ltb_lt _ _)) by lia.
  assert (Hct : in_table d c) by (unfold in_table; lia). destruct (g_num _ _ _ Hg) as [_ Hn].
  destruct (sizes_ok bs cap d Hg) as (_ & _ & _ & _ & Heof). unfold FAT32_EOF in Heof.
  destruct (fat_get_next_cluster_spec bs cap d Hg s c Hok Hct) as (s1 & E1 & Hs1). unfold fat_cluster_is_free.
  rewrite (bind_Ok_l _ _ _ E1). cbn [mbind outcome_bind]. rewrite Hfree. cbn [Z.eqb negb FREE_CLUSTER].
  change (Z.to_nat 1) with 1%nat. cbn [grow_span Z.ltb Z.compare Pos.compare Pos.compare_cont mbind outcome_bind].
  destruct (fat_set_next_cluster_spec bs cap d Hg s1 c (eof_value d) (proj1 Hs1) Hct
    (fun a => eq_ind_r is_byte (Hby a) (proj1 (proj2 Hs1) a)) Hfat12) as (s2 & E2 & Ht).
  assert (Hk : forall A (x y : A), match fat_kind d with FAT_UNKNOWN => x | _ => y end = y)
    by (intros A x y; destruct (g_kind _ _ _ Hg) as [-> | [-> | ->]]; reflexivity).
  unfold write_to_fat. rewrite !Hk. change (sub32 1 1) with 0. change (Z.to_nat 0) with 0%nat.
  cbn [Z.eqb negb link_run mbind outcome_bind]. rewrite add32_small, sub32_small by lia. replace (c + 1 - 1) with c by lia.
  change (0 =? 0) with true. cbv iota. rewrite (proj2 (Z.eqb_neq c 0)) by lia. cbn [negb mbind outcome_bind].
  rewrite (bind_Ok_l _ _ _ E2). cbn [mbind outcome_bind]. rewrite ?Hk. cbn [mbind outcome_bind]. exists s2. split; [reflexivity|exact (table_set_same_l _ _ _ _ _ Hs1 Ht)].
Qed.

Lemma claim_scan_spec c : 2 <= c < num_clusters d -> forall n k s fuel, ok bs cap s -> (forall a, is_byte (view bs cap s a)) ->
  0 <= k -> k + Z.of_nat n = c -> (n < fuel)%nat -> entry (view bs cap s) c = FREE_CLUSTER ->
  (forall c', k <= c' < c -> entry (view bs cap s) c' <> FREE_CLUSTER) ->
  exists s', claim_scan d fuel k 0 1 s = Ok (c, s') /\ table_set c (eof_value d) s s'.
Proof using HL Hg Hfat12.
  intros Hc. induction n as [|n IH]; intros k s fuel Hok Hby Hk Hkn Hf Hfree Hno.
  - replace k with c by lia. exact (claim_free_cluster fuel c s Hok Hby Hc Hfree Hf).
  - destruct fuel as [|fuel]; [lia|]. cbn [claim_scan]. rewrite (proj2 (Z.ltb_lt _ _)) by lia.
    assert (Hkt : in_table d k) by (unfold in_table; lia). destruct (g_num _ _ _ Hg) as [_ Hn].
    destruct (sizes_ok bs cap d Hg) as (_ & _ & _ & _ & Heof). unfold FAT32_EOF in Heof.
    destruct (fat_get_next_cluster_spec bs cap d Hg s k Hok Hkt) as (s1 & E1 & Hs1). unfold fat_cluster_is_free.
    rewrite (bind_Ok_l _ _ _ E1). cbn [mbind outcome_bind]. rewrite (proj2 (Z.eqb_neq _ _) (Hno k ltac:(lia))). cbn [negb].
    rewrite add32_small by lia. assert (Hext : forall x, in_table d x -> entry (view bs cap s1) x = entry (view bs cap s) x)
      by (intros x Hx; apply (entry_ext bs cap d Hg _ _ x Hx); intros a _; apply (proj1 (proj2 Hs1))).
    destruct (IH (k + 1) s1 fuel (proj1 Hs1) (fun a => eq_ind_r is_byte (Hby a) (proj1 (proj2 Hs1) a)) ltac:(lia) ltac:(lia) ltac:(lia))
      as (s2 & E2 & Ht).
    + rewrite Hext by (unfold in_table; lia). exact Hfree.
    + intros c' Hc'. rewrite Hext by (unfold in_table; lia). apply Hno. lia.
    + exists s2. split; [exact E2|exact (table_set_same_l _ _ _ _ _ Hs1 Ht)].
Qed.

(** [c] is the cluster a new file gets: the first that is free, when none was freed
    since the volume was mounted. *)
Definition next_free (v : volume) (c : Z) : Prop := 2 <= c < num_clusters d /\ entry (contents v) c = FREE_CLUSTER
  /\ (forall c', 0 <= c' < c -> entry (contents v) c' <> FREE_CLUSTER) /\ free_clusters (vol_state v) = [].

Lemma claim_one_spec v c : vol_ok v -> (forall a, is_byte (contents v a)) -> next_free v c ->
  exists v', with_impl (fun d s => fat_claim_clusters d 0 1 s) v = Ok (c, v') /\ vol_ok v'
  /\ table_set c (eof_value d) (vol_state v) (vol_state v').
Proof using HL Hg Hfat12.
  intros [Hd Hok] Hby (Hc & Hfree & Hno & Hl).
  destruct (claim_scan_spec c Hc (Z.to_nat c) 0 (vol_state v) (Datatypes.S (Z.to_nat (num_clusters d))) Hok Hby ltac:(lia) ltac:(lia)
    ltac:(lia) Hfree Hno) as (s' & E & Ht).
  unfold with_impl. rewrite Hd. unfold fat_claim_clusters. rewrite Hl. cbn [length claim_listed mbind outcome_bind].
  cbn [mbind outcome_bind] in E. rewrite (bind_Ok_l _ _ _ E). eexists. split; [reflexivity|]. split; [split; [reflexivity|exact (proj1 Ht)]|exact Ht].
Qed.

(** ** The directory around the claim *)
Lemma entry_end c : in_table d c ->
  entry_addr bs d c + fat_entry_size (fat_kind d) <= fat_block d * bs + table_bytes (fat_kind d) (num_clusters d + 2).
Proof using Hg.
  intros [H1 H2]. unfold entry_addr, table_bytes. destruct (g_kind _ _ _ Hg) as [-> | [-> | ->]]; cbn [fat_entry_size].
  - assert (c / 2 <= (num_clusters d + 2) / 2) by (apply Z.div_le_mono; lia).
    assert (c + c / 2 + 2 <= num_clusters d + 2 + (num_clusters d + 2) / 2 + 1) by lia. lia.
  - assert ((c + 1) * 2 <= (num_clusters d + 2) * 2) by lia. lia.
  - assert ((c + 1) * 4 <= (num_clusters d + 2) * 4) by lia. lia.
Qed.

Lemma free_not_in_chain f c cs : entry f c = FREE_CLUSTER -> forall x, chain bs d f x cs -> c ∉ cs.
Proof using Hg.
  intros Hc. induction cs as [|y cs IH]; intros x Hch Hin; [inversion Hin|]. destruct Hch as (-> & Hv & Hch).
  apply elem_of_cons in Hin as [<-|Hin]; [|exact (IH _ Hch Hin)]. rewrite Hc in Hch. unfold FREE_CLUSTER in Hch.
  destruct cs as [|z cs]; [|destruct Hch as (<- & Hz & _); unfold valid in Hz; lia].
  cbn in Hch. destruct (g_num _ _ _ Hg). lia.
Qed.

Lemma chain_table_set f g c cs : (forall x, in_table d x -> x <> c -> entry g x = entry f x) -> c ∉ cs ->
  forall x, chain bs d f x cs -> chain bs d g x cs.
Proof using.
  intros He. induction cs as [|y cs IH]; intros Hn x Hch; [exact Hch|]. destruct Hch as (-> & Hv & Hch).
  apply not_elem_of_cons in Hn as [Hne Hn]. split; [reflexivity|]. split; [exact Hv|].
  rewrite He; [exact (IH Hn _ Hch)|exact (valid_table d y Hv)|congruence].
Qed.

Lemma dir_after_claim c next s s' data addr size : 2 <= c < num_clusters d -> entry (view bs cap s) c = FREE_CLUSTER ->
  table_set c next s s' -> dir_at (view bs cap s) data addr size ->
  dir_at (view bs cap s') data addr size /\ forall i, 0 <= i < size -> view bs cap s' (addr i) = view bs cap s (addr i).
Proof using Hg.
  intros Hc Hfree (_ & _ & T3 & T4 & _) (Hdir & Hsz & H). assert (Hct : in_table d c) by (unfold in_table; lia).
  pose proof (entry_end c Hct) as He. destruct (entry_addr_bound bs cap d Hg c Hct) as (_ & _ & He' & _).
  destruct H as [(Hf & Hl & Hft & Hrest)|(Hf & cs & Hch & Ha & Es)].
  - split; [split; [exact Hdir|split; [exact Hsz|left; exact (conj Hf (conj Hl (conj Hft Hrest)))]]|].
    intros i Hi. apply T4. destruct Hrest as (_ & _ & Ha & _). rewrite Ha. right. lia.
  - split; [split; [exact Hdir|split; [exact Hsz|right; split; [exact Hf|exists cs; split; [|exact (conj Ha Es)]]]]|].
    + apply (chain_table_set (view bs cap s) _ c); [exact T3|exact (free_not_in_chain _ c cs Hfree _ Hch)|exact Hch].
    + intros i Hi. apply T4. rewrite Ha. right.
      pose proof (file_addr_data bs cap d Hg cs i (chain_valid bs d _ _ _ Hch) ltac:(lia)). lia.
Qed.

(** The table is not in the directory. *)
Lemma dir_outside_table f data addr size a : dir_at f data addr size ->
  a < fat_block d * bs + table_bytes (fat_kind d) (num_clusters d + 2) -> forall i, 0 <= i < size -> a <> addr i.
Proof using Hg.
  intros (_ & _ & [(_ & _ & Hft & _ & _ & Ha & _)|(_ & cs & Hch & Ha & Es)]) Hlt i Hi.
  - rewrite Ha. lia.
  - rewrite Ha. pose proof (file_addr_data bs cap d Hg cs i (chain_valid bs d _ _ _ Hch) ltac:(lia)) as Hda.
    pose proof (proj2 (g_fat _ _ _ Hg)) as Hf. unfold data_start in Hda. lia.
Qed.

Lemma entry_local f g c : (forall a, entry_addr bs d c <= a < entry_addr bs d c + fat_entry_size (fat_kind d) -> g a = f a) -> entry g c = entry f c.
Proof using Hg.
  clear Hfat12. intros H. unfold FatProofs.entry. destruct (g_kind _ _ _ Hg) as [E|[E|E]]; rewrite E in *; cbn [fat_entry_size] in *.
  - rewrite !H by lia. reflexivity.
  - do 2 f_equal. apply list_fmap_ext. intros i x Hx. apply lookup_seqZ in Hx as [-> Hx]. apply H. lia.
  - do 2 f_equal. apply list_fmap_ext. intros i x Hx. apply lookup_seqZ in Hx as [-> Hx]. apply H. lia.
Qed.

Definition claimed (c : Z) (addr : Z -> Z) (size : Z) (v v' : volume) : Prop :=
  entry (contents v') c = eof_value d
  /\ (forall x, in_table d x -> x <> c -> entry (contents v') x = entry (contents v) x)
  /\ forall a, a < entry_addr bs d c \/ entry_addr bs d c + fat_entry_size (fat_kind d) <= a ->
       (forall i, 0 <= i < size -> a <> addr i) -> contents v' a = contents v a.

(** A claim and what is written into the directory afterwards. *)
Lemma claimed_wrote c data addr size v v1 v2 : in_table d c -> table_set c (eof_value d) (vol_state v) (vol_state v1) ->
  dir_at (contents v1) data addr size ->
  (forall a, (forall i, 0 <= i < size -> a <> addr i) -> contents v2 a = contents v1 a) -> claimed c addr size v v2.
Proof using Hg.
  intros Hc (_ & T2 & T3 & T4 & _) Hd Hw.
  assert (He : forall x, in_table d x -> entry (contents v2) x = entry (contents v1) x).
  { intros x Hx. apply entry_local. intros a Ha. apply Hw. pose proof (entry_end x Hx).
    apply (dir_outside_table _ _ _ _ a Hd). lia. }
  split; [rewrite (He c Hc), T2|split].
  - rewrite (g_eof _ _ _ Hg). destruct (g_kind _ _ _ Hg) as [-> | [-> | ->]]; reflexivity.
  - intros x Hx Hne. rewrite (He x Hx). exact (T3 x Hx Hne).
  - intros a Ha Hn. rewrite (Hw a Hn). exact (T4 a Ha).
Qed.

Lemma claimed_same c addr size v0 v v' : vol_same v0 v -> claimed c addr size v v' -> claimed c addr size v0 v'.
Proof using Hg.
  clear Hfat12. intros [_ (_ & Hs & _)] (C1 & C2 & C3). split; [exact C1|]. split.
  - intros x Hx Hne. rewrite (C2 x Hx Hne). apply (entry_ext bs cap d Hg _ _ x Hx). intros a _. apply Hs.
  - intros a Ha Hn. rewrite (C3 a Ha Hn). apply Hs.
Qed.

(** ** The entries before and behind *)
Lemma holds_entries_in v addr size es : forall offset, 0 <= offset -> offset + 32 * Z.of_nat (length es) + 1 <= size ->
  holds_entries (fun i => contents v (addr i)) offset es <-> holds_entries (dir_byte v addr size) offset es.
Proof using.
  induction es as [|b es IH]; intros offset Ho Hle; cbn [holds_entries length] in *.
  - rewrite dir_byte_in by lia. reflexivity.
  - rewrite IH by lia. assert (E : map (fun i => contents v (addr i)) (seqZ offset 32) = map (dir_byte v addr size) (seqZ offset 32)).
    { apply list_fmap_ext. intros i x Hx. apply lookup_seqZ in Hx as [-> Hx]. symmetry. apply dir_byte_in. lia. }
    rewrite E. reflexivity.
Qed.

Lemma holds_entries_app g g' new : forall es offset, holds_entries g offset es ->
  (forall i, offset <= i < offset + 32 * Z.of_nat (length es) -> g' i = g i) ->
  holds_entries g' (offset + 32 * Z.of_nat (length es)) new -> holds_entries g' offset (es ++ new).
Proof using.
  induction es as [|b es IH]; intros offset H He Hn; cbn [length app holds_entries] in *; [replace offset with (offset + 32 * Z.of_nat 0) by lia; exact Hn|].
  destruct H as [<- H]. split.
  - apply list_fmap_ext. intros i x Hx. apply lookup_seqZ in Hx as [-> Hx]. apply He. lia.
  - apply IH; [exact H|intros i Hi; apply He; lia|]. replace (offset + 32 + 32 * Z.of_nat (length es)) with (offset + 32 * Z.of_nat (Datatypes.S (length es))) by lia. exact Hn.
Qed.

Lemma holds_entries_bytes g new : Forall (fun b => length b = 32%nat) new -> forall offset,
  bytes_at g offset (concat new ++ [0]) -> holds_entries g offset new.
Proof using.
  induction 1 as [|b new Hb Hnew IH]; intros offset H; cbn [concat holds_entries] in *.
  - unfold bytes_at in H. cbn [app length] in H. change (Z.of_nat 1) with 1 in H. rewrite seqZ_cons, seqZ_nil in H by lia. injection H as H. exact H.
  - rewrite <- app_assoc in H. apply bytes_at_app in H as [H1 H2]. unfold bytes_at in H1. rewrite Hb in *. split; [exact H1|exact (IH _ H2)].
Qed.

Lemma lfn_entries_heads lfn checksum rest : Forall unit_char lfn -> is_byte checksum -> forall i sq, (num_chars * i <= length lfn)%nat ->
  0 < sq < 128 -> (i < 64)%nat -> Forall (fun b => nth 0 b 0 <> 0) rest -> Forall (fun b => nth 0 b 0 <> 0) (lfn_entries i lfn sq checksum ++ rest).
Proof using.
  intros Hu Hc. unfold num_chars. induction i as [|i IH]; intros sq Hl Hs Hi Hr; [exact Hr|]. cbn [lfn_entries app]. constructor.
  - cbn [encode_lfn app nth sequence]. lia.
  - apply IH; try assumption; try lia. unfold u8, wrap. rewrite Z.mod_small by lia. lia.
Qed.

Lemma sequence_range n : (n < 63)%nat -> 0 < Z.lor 0x40 (u8 (Z.of_nat n + 1)) < 128.
Proof using. intros Hn. unfold u8, wrap. rewrite Z.mod_small by lia. rewrite (lor_aligned 0x40 _ 6); [lia|lia|reflexivity|lia]. Qed.

Lemma name_entries cs n : Forall name_char cs -> (length cs <= 255)%nat -> n = ((length cs + 13) / 13)%nat -> (0 < n < 63)%nat.
Proof using.
  intros _ Hl ->. split; [apply Nat.div_str_pos; lia|apply Nat.Div0.div_lt_upper_bound; lia].
Qed.

Lemma file_image_ok f : file_ok (fst f) (snd f) ->
  Forall (fun b => length b = 32%nat) (file_image f) /\ Forall (fun b => nth 0 b 0 <> 0) (file_image f).
Proof using.
  destruct f as [e cs]. cbn [fst snd]. intros (He & H0 & _ & _ & _ & _ & Hcs & Hlen).
  destruct (lfn_units_spec cs Hcs) as (n & lfn & pad & En & _ & Hu & Hl & Hn). unfold file_image. cbn [fst snd]. rewrite En.
  pose proof (name_entries cs n Hcs Hlen Hn) as Hn63. pose proof (sequence_range n ltac:(lia)) as Hsq. unfold file_entries. split.
  - apply Forall_app. split; [apply lfn_entries_length; try assumption; [apply checksum_byte|unfold is_byte; lia|lia]|].
    constructor; [exact (encode_entry_length e He)|constructor].
  - apply lfn_entries_heads; try assumption; [apply checksum_byte|lia|lia|]. constructor; [|constructor].
    destruct He as (Hl11 & _). unfold encode_entry. destruct (de_name e) as [|x nm]; [discriminate Hl11|exact H0].
Qed.

(** ** Creating the file *)
Context (drv0 : filesystem_driver volume) (Hflush : drv_flush_file drv = Some (fat_update_file false now limit drv0)).

(** Closing the root directory: its own directory is a block of zeros, in which there
    is nothing to update. *)
Lemma root_close v data : vol_ok v -> has (file_flags data) IS_READONLY = false -> format_data data = mk_fmt 0 0 -> (0 < limit)%nat ->
  dir_close false drv (mk_stream data true) v = Ok v.
Proof using Hflush.
  intros Hv Hro Hf Hl. unfold dir_close, filesystem_close_file. cbn [st_modified st_file]. rewrite Hro. cbn [negb k_assert mbind outcome_bind].
  unfold get_drive at 1. rewrite (proj1 Hv). cbn [mbind outcome_bind]. rewrite Hflush. unfold fat_update_file, dir_block. rewrite Hf.
  destruct limit as [|l]; [lia|]. reflexivity.
Qed.

Lemma next_free_same v v' c : vol_same v v' -> next_free v c -> next_free v' c.
Proof using Hg.
  intros [_ (_ & Hs & Hf)] (H1 & H2 & H3 & H4). destruct (g_num _ _ _ Hg) as [_ Hn].
  assert (He : forall x, in_table d x -> entry (contents v') x = entry (contents v) x)
    by (intros x Hx; apply (entry_ext bs cap d Hg _ _ x Hx); intros a _; apply Hs).
  split; [exact H1|]. split; [rewrite He by (unfold in_table; lia); exact H2|]. split; [|congruence].
  intros c' Hc'. rewrite He by (unfold in_table; lia). exact (H3 c' Hc').
Qed.

Lemma create_loop_spec name flags parent id st addr size : size < 2 ^ 32 -> forall es n offset v,
  vol_ok v -> dir_at (contents v) (st_file st) addr size -> holds_entries (fun i => contents v (addr i)) offset es ->
  Forall (fun b => nth 0 b 0 <> 0) es -> 0 <= offset -> offset + 32 * (Z.of_nat (length es) + 1) <= size -> (length es < n)%nat ->
  exists v', vol_same v v' /\ create_loop false now junk drv n name flags parent id st offset v
    = create_at false now junk drv name flags parent id st (offset + 32 * Z.of_nat (length es)) v'.
Proof using HL Hg Hread.
  intros Hsz. induction es as [|b es IH]; intros n offset v Hv Hd Hh Hnz Ho Hle Hn; cbn [length] in *;
    (destruct n as [|n]; [lia|]); cbn [create_loop];
    destruct (dir_read_spec bs cap d Hg false drv Hread v st addr size offset Hv Hd Ho ltac:(lia)) as (v1 & E1 & Hs1);
    rewrite (bind_Ok_l _ _ _ E1); cbn [mbind outcome_bind].
  - exists v1. split; [exact Hs1|]. cbn [holds_entries] in Hh. rewrite seqZ_cons by lia. cbn [map nth]. rewrite Hh.
    cbn [Z.eqb]. f_equal. lia.
  - destruct Hh as [Hb Hh]. rewrite Hb. inversion_clear Hnz as [|? ? Hb0 Hes].
    rewrite (proj2 (Z.eqb_neq _ 0) Hb0). replace (next_entry offset) with (offset + 32)
      by (unfold next_entry, u64, wrap; change sizeof_directory_entry with 32; symmetry; apply Z.mod_small; lia).
    destruct (IH n (offset + 32) v1 (vol_same_ok _ _ _ _ _ Hv Hs1) (dir_at_same _ _ _ Hg _ _ _ _ _ Hs1 Hd)
      (holds_entries_ext _ _ es (contents_same _ _ v v1 addr Hs1) _ Hh) Hes ltac:(lia) ltac:(lia) ltac:(lia)) as (v2 & Hs2 & E2).
    exists v2. split; [exact (vol_same_trans _ _ _ _ _ Hs1 Hs2)|]. rewrite E2. f_equal. lia.
Qed.

(** The entry of a new file. *)
Lemma new_entry name root ext cs loc id flags parent_path fmt : length junk = 11%nat -> short_ok name root ext ->
  Forall name_char cs -> (length cs <= 255)%nat -> name = utf8_encode cs -> has flags IS_DIR = false ->
  0 <= loc < 65536 -> exists e,
  fat_create_dir_entry junk (mk_handle parent_path name (mk_fdb loc id 0 flags fmt) now now) = Ok e
  /\ file_ok e cs /\ fat_file_location e = loc /\ de_file_size e = 0 /\ attributes e = to_fat_flags flags.
Proof using.
  intros Hj Hs Hcs Hlen Hname Hdir Hloc. unfold fat_create_dir_entry. cbn [time_created time_modified fh_name fh_data].
  destruct (gmtime_spec now) as (t & Et & _ & _ & _ & _ & _ & Hmon & _). rewrite (bind_Ok_l _ _ _ Et), (bind_Ok_l _ _ _ Et).
  destruct (get_short_filename_spec junk name root ext Hj Hs) as (short & Es & Hsl & Hs0). rewrite (bind_Ok_l _ _ _ Es).
  eexists. split; [reflexivity|]. destruct (fat_time_fields t Hmon) as (F1 & F2 & F3).
  destruct Hs as (_ & _ & _ & _ & _ & H0 & H5). unfold create_dir_entry, file_ok, entry_ok, fat_file_location.
  cbn [de_name attributes created_time created_date accessed_date first_cluster_hi modified_time modified_date first_cluster de_file_size
    location_on_disk file_flags file_size].
  assert (Hlo : u16 (Z.land loc 0xFFFF) = loc).
  { change 0xFFFF with (2 ^ 16 - 1). rewrite land_low_mask by lia. unfold u16, wrap. change (2 ^ 16) with 65536. rewrite !(Z.mod_small loc) by lia. reflexivity. }
  assert (Hhi : u16 (Z.land loc 0xFFFF0000) = 0).
  { replace (Z.land loc 0xFFFF0000) with 0; [reflexivity|]. apply Z.bits_inj'. intros i Hi. rewrite Z.bits_0, Z.land_spec.
    destruct (Z.lt_ge_cases i 16) as [Hlt|Hge].
    - change 0xFFFF0000 with (0xFFFF * 2 ^ 16). rewrite Z.mul_pow2_bits_low by lia. symmetry. apply andb_false_r.
    - rewrite (Z.bits_above_log2 loc) by (lia || (destruct (Z.eq_dec loc 0) as [->|]; [cbn; lia|apply Z.log2_lt_pow2; try lia;
        apply Z.lt_le_trans with (2 ^ 16); [lia|apply Z.pow_le_mono_r; lia]])). reflexivity. }
  rewrite Hlo, Hhi. assert (U : forall x, 0 <= x < 65536 -> is_unit x) by (intros x Hx; exact Hx).
  repeat match goal with |- _ /\ _ => split end; try assumption; try reflexivity; try (apply U; lia); try (rewrite Hs0; assumption).
  - unfold to_fat_flags. rewrite Hdir. destruct (has flags IS_READONLY); vm_compute; discriminate.
  - apply Z.lor_0_r.
Qed.

Lemma create_at_spec name root ext cs flags parent id st v c offset addr size :
  length junk = 11%nat -> short_ok name root ext -> Forall name_char cs -> (length cs <= 255)%nat -> name = utf8_encode cs ->
  has flags IS_DIR = false -> vol_ok v -> (forall a, is_byte (contents v a)) -> next_free v c -> c < 65536 ->
  dir_at (contents v) (st_file st) addr size -> has (file_flags (st_file st)) IS_READONLY = false -> 0 <= offset ->
  offset + 32 * (Z.of_nat ((length cs + 13) / 13)%nat + 2) <= size ->
  exists e h v', create_at false now junk drv name flags parent id st offset v
    = Ok (mk_dir (full_path parent) (dir_data parent) (file_list parent ++ [h]), mk_stream (st_file st) true, v')
  /\ fh_name h = name /\ location_on_disk (fh_data h) = c
  /\ file_ok e cs /\ fat_file_location e = c /\ de_file_size e = 0 /\ attributes e = to_fat_flags flags
  /\ vol_ok v' /\ dir_at (contents v') (st_file st) addr size
  /\ stored_at offset (concat (file_image (e, cs)) ++ [0]) (dir_byte v addr size) (dir_byte v' addr size)
  /\ claimed c addr size v v'.
Proof using HL Hg Hwrite Hfat12.
  intros Hj Hsh Hcs Hlen Hname Hdir Hv Hby Hnf Hc Hd Hro Ho Hroom. pose proof Hd as (_ & Hsz & _). pose proof Hnf as (Hc2 & Hfree & _).
  destruct (claim_one_spec v c Hv Hby Hnf) as (v1 & E1 & Hv1 & Ht). unfold create_at. rewrite (bind_Ok_l _ _ _ E1). cbn [mbind outcome_bind].
  destruct (dir_after_claim c _ _ _ _ addr size Hc2 Hfree Ht Hd) as [Hd1 Hsame].
  destruct (new_entry name root ext cs c id flags (Some (full_path parent))
    (mk_fmt (location_on_disk (dir_data parent)) (file_flags (dir_data parent))) Hj Hsh Hcs Hlen Hname Hdir ltac:(lia))
    as (e & Ee & He & Hloc & Hse & Hat). cbv zeta. rewrite (bind_Ok_l _ _ _ Ee).
  destruct (lfn_units_spec cs Hcs) as (n & lfn & pad & En & _ & Hu & Hl & Hn). rewrite <- Hn in Hroom.
  pose proof (name_entries cs n Hcs Hlen Hn) as Hn63. pose proof (sequence_range n ltac:(lia)) as Hsq.
  unfold fat_write_lfn_entries. rewrite Hname, (bind_Ok_l _ _ _ En).
  destruct (write_lfn_loop_spec addr size lfn (fat_lfn_checksum (de_name e)) Hu (checksum_byte _) Hsz n v1 st offset
    (Z.lor 0x40 (u8 (Z.of_nat n + 1))) Hv1 Hd1 Hro ltac:(unfold is_byte; lia) ltac:(lia) Ho ltac:(lia) ltac:(lia)) as (v2 & E2 & Hw2).
  rewrite (bind_Ok_l _ _ _ E2). cbn [mbind outcome_bind]. pose proof (encode_entry_length e (proj1 He)) as Hel.
  destruct (dir_write_spec v2 (mk_stream (st_file st) true) addr size (offset + 32 * Z.of_nat n) (encode_entry e) (proj1 Hw2)
    (proj1 (proj2 Hw2)) Hro ltac:(lia) ltac:(lia) ltac:(lia)) as (v3 & E3 & Hw3). rewrite (bind_Ok_l _ _ _ E3). cbn [mbind outcome_bind].
  assert (E64 : u64 (offset + 32 * Z.of_nat n + Z.of_nat (length (encode_entry e))) = offset + 32 * Z.of_nat n + Z.of_nat (length (encode_entry e)))
    by (unfold u64, wrap; apply Z.mod_small; lia). rewrite E64.
  destruct (dir_write_spec v3 (mk_stream (st_file st) true) addr size (offset + 32 * Z.of_nat n + Z.of_nat (length (encode_entry e))) [0]
    (proj1 Hw3) (proj1 (proj2 Hw3)) Hro ltac:(lia) ltac:(cbn; lia) ltac:(rewrite Hel; cbn [length]; lia)) as (v4 & E4 & Hw4).
  cbn [st_file] in *. rewrite (bind_Ok_l _ _ _ E4). cbn [mbind outcome_bind]. rewrite Hdir. cbn [mbind outcome_bind].
  eexists e, _, v4. split; [reflexivity|]. split; [reflexivity|]. split; [reflexivity|]. split; [exact He|]. split; [exact Hloc|].
  split; [exact Hse|]. split; [exact Hat|]. split; [exact (proj1 Hw4)|]. split; [exact (proj1 (proj2 Hw4))|].
  destruct Hw2 as (_ & _ & Hw2 & F2), Hw3 as (_ & _ & Hw3 & F3), Hw4 as (_ & _ & Hw4 & F4). split.
  2: { apply (claimed_wrote c (st_file st) addr size v v1 v4); [unfold in_table; lia|exact Ht|exact Hd1|].
       intros a Ha. rewrite (F4 a Ha), (F3 a Ha). exact (F2 a Ha). }
  assert (Hcl : length (concat (lfn_entries n lfn (Z.lor 0x40 (u8 (Z.of_nat n + 1))) (fat_lfn_checksum (de_name e)))) = (32 * n)%nat).
  { rewrite concat_length, length_lfn_entries; [reflexivity|]. apply lfn_entries_length; try assumption; [apply checksum_byte|unfold is_byte; lia|lia]. }
  unfold file_image. cbn [fst snd]. rewrite En. unfold file_entries. rewrite concat_app. cbn [concat]. rewrite app_nil_r, <- app_assoc.
  assert (Hst : stored_at offset [] (dir_byte v addr size) (dir_byte v1 addr size)).
  { apply stored_at_nil. intros i. unfold dir_byte. destruct (Z.leb_spec 0 i), (Z.ltb_spec i size); cbn [andb]; try reflexivity. apply Hsame. lia. }
  apply (stored_at_app offset [] _ _ _ _ Hst). cbn [length]. rewrite Z.add_0_r.
  apply (stored_at_app _ _ _ _ _ _ Hw2). rewrite Hcl. replace (offset + Z.of_nat (32 * n)) with (offset + 32 * Z.of_nat n) by lia.
  exact (stored_at_app _ _ _ _ _ _ Hw3 Hw4).
Qed.

End volume.

(** ** The volume in memory *)
(** The root directory of the floppy holds the bytes [root], the table no file. *)
Definition root_bytes (root : list Z) (a : Z) : Z :=
  if (512 <=? a) && (a <? 515) then byte_at [0xF0; 0xFF; 0xFF] (a - 512)
  else if (1024 <=? a) && (a <? 1536) then byte_at root (a - 1024) else 0.
Definition root_volume (root : list Z) : fat_volume (Z -> Z) := mk_volume (Some floppy) (mk_fs (root_bytes root) []).
Definition root_data : file_data_block := mk_fdb 0 0 0 (Z.lor IS_DIR FAT_ROOT_DIR_FLAG) (mk_fmt 0 0).
Definition root_stream : directory_stream := mk_dir [48; 58] root_data [].
Definition floppy_driver (depth : nat) : filesystem_driver (fat_volume (Z -> Z)) :=
  fat_driver 512 (fun _ => [48; 58]) false 1000000000 (repeat 0 11) 20 depth.

Lemma root_volume_ok root : vol_ok 512 64 floppy (root_volume root).
Proof. split; [reflexivity|exact I]. Qed.

Lemma root_dir_at root : dir_at 512 64 floppy (view 512 64 (vol_state (root_volume root))) root_data (fun i => 1024 + i) 512.
Proof. split; [reflexivity|]. split; [reflexivity|]. left. repeat split; vm_compute; discriminate. Qed.

Lemma root_volume_bytes root : Forall is_byte root -> forall a, is_byte (view 512 64 (vol_state (root_volume root)) a).
Proof.
  intros H a. change (is_byte (root_bytes root a)). unfold root_bytes. destruct (_ && _).
  - apply byte_at_byte. repeat constructor; unfold is_byte; lia.
  - destruct (_ && _); [apply byte_at_byte, H|unfold is_byte; lia].
Qed.

Lemma floppy_fat12 : fat_kind floppy = FAT_12 -> blocks_per_sector floppy = 1 /\ fat_block floppy = reserved_sectors floppy * blocks_per_sector floppy.
Proof. intros _. split; reflexivity. Qed.


(** "hi.txt" in cluster 5, 1234 bytes long. *)
Definition some_entry : fat_directory_entry :=
  mk_entry [72; 73; 32; 32; 32; 32; 32; 32; 84; 88; 84] 0x20 0 0 0 0x21 0 0 0 0x21 5 1234.
Definition some_name : list Z := [104; 105; 46; 116; 120; 116].


(** ** What goes wrong *)
Definition create_and_list (name : list Z) : outcome (list (list Z * Z)) :=
  '(_, v) ← fat_create_file false 1000000000 (repeat 0 11) 20 (floppy_driver 2) name 0 root_stream 0 (root_volume []);
  '(dir, _) ← fat_read_dir false 20 (floppy_driver 2) root_stream root_data 0 v;
  Ok (map (fun h => (fh_name h, time_created h)) (file_list dir)).

(** The time of creation is not the one that was written. *)
Example created_time_lost : create_and_list some_name = Ok [(some_name, 2009839240)].
Proof. vm_compute. reflexivity. Qed.

(** A root of more than eleven bytes is copied past the end of the short name. *)
Example long_name_overflows : create_and_list (repeat 97 12) = Fault OutOfBounds.
Proof. vm_compute. reflexivity. Qed.

(** A name whose first byte is E5 (as of many Chinese characters in UTF-8) makes an
    entry that counts as deleted, where listing ends. *)
Example deleted_at_birth : create_and_list [0xE5; 0xA4; 0xA7; 46; 116; 120; 116] = Ok [].
Proof. vm_compute. reflexivity. Qed.

(** Listing ends at a deleted entry; the file behind it is not seen. *)
Example hidden_behind_deleted :
  ('(dir, _) ← fat_read_dir false 20 (floppy_driver 2) root_stream root_data 0
     (root_volume (0xE5 :: repeat 32 10 ++ repeat 0 21 ++ concat (file_image (some_entry, some_name))));
   Ok (file_list dir)) = Ok [].
Proof. vm_compute. reflexivity. Qed.

(** An entry without a date of creation, which is optional, is read with month -1. *)
Example no_creation_date :
  ('(dir, _) ← fat_read_dir false 20 (floppy_driver 2) root_stream root_data 0
     (root_volume (encode_entry (mk_entry (de_name some_entry) 0x20 0 0 0 0 0 0 0 0x21 5 1234)));
   Ok (file_list dir)) = Fault OutOfBounds.
Proof. vm_compute. reflexivity. Qed.
