(* ===== verification/FatDisk.v ===== *)
(** * A FAT volume on a cached drive

    [filesystem_read] and [filesystem_write] of fs_driver.h are the block cache of
    drives.cpp at the first block of the virtual drive.  They keep the laws the FAT
    driver is proved against, so what is proved of files over an abstract drive holds
    over the cache, whatever of it is dirty. *)
From S2P Require Import Prelude FsUtil Drives DrivesProofs BlockStore Vfs Fat FatProofs FatVolume.

Section disk.
Context {D : Type} `{HD : disk_driver D} (k r cap : Z) `{HL : !disk_driver_laws D (2 ^ k) cap}.
Context (Hk : 0 <= k) (Hr : 0 <= r) (HG : 2 ^ (k + r) < 2 ^ 32) (Hcap : cap + 2 ^ r < 2 ^ 32).
(** The virtual drive is [num_blocks] blocks from [first_block]. *)
Context (first_block num_blocks : Z) (Hfirst : 0 <= first_block) (Hnum : first_block + num_blocks <= cap).
Notation bs := (2 ^ k).
Notation drive := (filesystem_drive D).
Notation drive_view := (DrivesProofs.view k r cap).

Definition virtual_drive_store : block_store drive := {|
  filesystem_read block offset n s := filesystem_read_from_disk (add32 block first_block) offset n s;
  filesystem_write block offset buf s := filesystem_write_to_disk (add32 block first_block) offset buf s |}.
#[local] Existing Instance virtual_drive_store.

(** A driver with buffers of its own, which can write: whole groups are cached and no
    write bypasses the cache. *)
Context (Hbuf : needs_buffer (D := D) = true) (Hwr : drv_write_blocks (D := D) <> None) (Hmod : cap mod 2 ^ r = 0).

Definition drive_state_ok (s : drive) : Prop := drive_ok k r cap s /\ writable s.
Definition partition_view (s : drive) (a : Z) : Z := drive_view s (first_block * bs + a).

Lemma no_byte_access s : supports_byte_access s = false.
Proof using Hbuf. unfold supports_byte_access. rewrite Hbuf. apply andb_false_r. Qed.

Lemma block_bound b off n : 0 <= b -> 0 <= off -> 0 <= n -> b * bs + off + n <= num_blocks * bs ->
  add32 b first_block = b + first_block /\ (b + first_block) * bs + off + n <= cap * bs.
Proof using Hk Hfirst Hnum Hcap Hr.
  intros Hb Ho Hn Hle. assert (Hbs : 0 < bs) by (apply Z.pow_pos_nonneg; lia). assert (0 < 2 ^ r) by (apply Z.pow_pos_nonneg; lia).
  assert (Hbn : b <= num_blocks) by (apply (Z.mul_le_mono_pos_r _ _ bs Hbs); lia).
  assert (Hc : (first_block + num_blocks) * bs <= cap * bs) by (apply Z.mul_le_mono_nonneg_r; lia).
  split; [apply add32_small; lia|lia].
Qed.

Lemma virtual_drive_read s b off n : drive_state_ok s -> 0 <= b -> 0 <= off -> 0 <= n < 2 ^ 32 -> b * bs + off + n <= num_blocks * bs ->
  exists s', filesystem_read b off n s = Ok (map (partition_view s) (seqZ (b * bs + off) n), s')
  /\ drive_state_ok s' /\ forall a, partition_view s' a = partition_view s a.
Proof using Hk Hr HG Hcap Hfirst Hnum Hbuf Hmod.
  intros [Hok Hw] Hb Ho Hn Hle. destruct (block_bound b off n Hb Ho ltac:(lia) Hle) as [E1 Hc]. cbn [filesystem_read virtual_drive_store]. rewrite E1.
  destruct (filesystem_read_from_disk_spec k r cap Hk Hr HG Hcap s (b + first_block) off n Hok Hw Hmod (no_byte_access s) ltac:(lia) Ho Hn Hc)
    as (s' & E & Hok' & Hw' & Hs). exists s'. split; [|split; [exact (conj Hok' Hw')|intros a; apply Hs]].
  rewrite E. do 2 f_equal. rewrite map_seqZ_shift, (map_seqZ_shift (partition_view s)). apply map_ext. intros i. unfold partition_view. f_equal. lia.
Qed.

Lemma virtual_drive_write s b off buf : drive_state_ok s -> 0 <= b -> 0 <= off -> Z.of_nat (length buf) < 2 ^ 32 ->
  b * bs + off + Z.of_nat (length buf) <= num_blocks * bs ->
  exists s', filesystem_write b off buf s = Ok s' /\ drive_state_ok s' /\ stored_at (b * bs + off) buf (partition_view s) (partition_view s').
Proof using Hk Hr HG Hcap Hfirst Hnum Hbuf Hmod Hwr.
  intros [Hok Hw] Hb Ho Hn Hle. destruct (block_bound b off (Z.of_nat (length buf)) Hb Ho ltac:(lia) Hle) as [E1 Hc]. cbn [filesystem_write virtual_drive_store]. rewrite E1.
  destruct (filesystem_write_to_disk_spec k r cap Hk Hr HG Hcap s (b + first_block) off buf Hok Hw Hmod Hwr (no_byte_access s)
    (or_introl Hbuf) ltac:(lia) Ho Hn Hc) as (s' & E & Hok' & Hw' & Hst).
  exists s'. split; [exact E|]. split; [exact (conj Hok' Hw')|]. intros a. unfold partition_view. rewrite (Hst (first_block * bs + a)).
  replace (first_block * bs + a - ((b + first_block) * bs + off)) with (a - (b * bs + off)) by lia.
  destruct (Z.leb_spec ((b + first_block) * bs + off) (first_block * bs + a)), (Z.leb_spec (b * bs + off) a),
    (Z.ltb_spec (first_block * bs + a) ((b + first_block) * bs + off + Z.of_nat (length buf))), (Z.ltb_spec a (b * bs + off + Z.of_nat (length buf)));
    try lia; reflexivity.
Qed.

Definition virtual_drive_laws : block_store_laws drive bs num_blocks := {|
  bs_view := partition_view; bs_ok := drive_state_ok;
  bs_read_law := virtual_drive_read; bs_write_law := virtual_drive_write |}.

(** The bytes of the drive a file is in. *)
Definition drive_addr (d : fat_drive) (cs : list Z) (i : Z) : Z := first_block * bs + file_addr bs d cs i.

(** C16: over a disk driver that asks for the buffers of the cache, a file written through
    the block cache, with any blocks cached and any of them dirty, reads back as it was
    written, and no byte of the drive outside the written part of the file has changed, in
    the volume or in another partition.  (For a driver that does not ask for buffers a write
    of whole blocks goes past the blocks that are cached: [direct_write_loses].) *)
Theorem fat_over_cache d s c0 cs offset buf file : geometry d bs num_blocks -> drive_ok k r cap (fs_store s) -> writable (fs_store s) ->
  fixed_root d file = false -> chain bs d (partition_view (fs_store s)) c0 cs ->
  0 <= offset -> 0 < Z.of_nat (length buf) < 2 ^ 32 -> offset + Z.of_nat (length buf) <= Z.of_nat (length cs) * cluster_size d ->
  exists c1 s1 c2 s2, fat_write d buf c0 offset file s = Ok (c1, s1)
  /\ fat_read d c0 offset (Z.of_nat (length buf)) file s1 = Ok (buf, c2, s2)
  /\ drive_ok k r cap (fs_store s2)
  /\ (forall x, (forall i, offset <= i < offset + Z.of_nat (length buf) -> drive_addr d cs i <> x) ->
       drive_view (fs_store s2) x = drive_view (fs_store s) x)
  /\ (forall i, offset <= i < offset + Z.of_nat (length buf) -> drive_view (fs_store s2) (drive_addr d cs i) = byte_at buf (i - offset)).
Proof using Hk Hr HG Hcap Hfirst Hnum Hbuf Hmod Hwr.
  intros Hg Hok Hw Hfr Hch Ho Hs Hle.
  destruct (fat_write_spec (HL := virtual_drive_laws) bs num_blocks d Hg s c0 cs offset buf file (conj Hok Hw) Hfr Hch Ho Hs Hle)
    as (c1 & s1 & E1 & (Hok1 & [Hin Hout] & Hf1) & Hc1).
  destruct (fat_read_spec (HL := virtual_drive_laws) bs num_blocks d Hg s1 c0 cs offset (Z.of_nat (length buf)) file Hok1 Hfr Hc1 Ho Hs Hle)
    as (c2 & s2 & E2 & (Hok2 & Hs2 & _)).
  assert (Hv : forall x, drive_view (fs_store s2) x = partition_view (fs_store s2) (x - first_block * bs)
      /\ drive_view (fs_store s) x = partition_view (fs_store s) (x - first_block * bs)).
  { intros x. unfold partition_view. replace (first_block * bs + (x - first_block * bs)) with x by lia. split; reflexivity. }
  exists c1, s1, c2, s2. split; [exact E1|]. split.
  - rewrite E2. do 3 f_equal. apply (read_back bs d cs offset buf _ _ (conj Hin Hout)); lia.
  - split; [exact (proj1 Hok2)|]. split.
    + intros x Hx. destruct (Hv x) as [-> ->]. etransitivity; [exact (Hs2 _)|]. apply Hout. intros i Hi Heq. apply (Hx i Hi).
      unfold drive_addr. lia.
    + intros i Hi. destruct (Hv (drive_addr d cs i)) as [-> _]. replace (drive_addr d cs i - first_block * bs) with (file_addr bs d cs i)
        by (unfold drive_addr; lia). etransitivity; [exact (Hs2 _)|]. etransitivity; [apply Hin; lia|].
      rewrite (proj2 (Z.leb_le _ _)), (proj2 (Z.ltb_lt _ _)) by lia. reflexivity.
Qed.
End disk.

(** ** The floppy as the second partition of a disk *)
Definition floppy_disk (a : Z) : Z := floppy_bytes (a - 1024).
Definition floppy_drive : filesystem_drive (Z -> Z) :=
  match @filesystem_drive_init (Z -> Z) floppy_disk 512 66 0 (repeat 0 8) with
  | Ok s => s
  | Fault _ => mk_drive floppy_disk [] 0 0 0 0 0 0
  end.

Lemma fat_over_cache_witness : let _ := mem_driver 512 true in let _ := virtual_drive_store 2 in
  exists c1 s1 c2 s2, fat_write floppy [10; 20; 30] 2 511 some_file (mk_fs floppy_drive []) = Ok (c1, s1)
  /\ fat_read floppy 2 511 3 some_file s1 = Ok ([10; 20; 30], c2, s2).
Proof.
  destruct (@filesystem_drive_init_ok _ (mem_driver 512 true) 9 66 (mem_laws (2 ^ 9) 66 true) floppy_disk 0 (repeat 0 8)
    ltac:(lia) eq_refl) as (s & E & Hok & Hw & Hv). change (2 ^ 9) with 512 in E.
  assert (Hs : floppy_drive = s) by (unfold floppy_drive; rewrite E; reflexivity). intros HD HS. rewrite Hs.
  assert (Hpv : forall a, @partition_view _ (mem_driver 512 true) 9 1 66 (mem_laws (2 ^ 9) 66 true) 2 s a = floppy_bytes a).
  { intros a. unfold partition_view. etransitivity; [apply Hv|]. change (floppy_disk (2 * 2 ^ 9 + a) = floppy_bytes a).
    unfold floppy_disk. f_equal. lia. }
  assert (Hch : chain (2 ^ 9) floppy (@partition_view _ (mem_driver 512 true) 9 1 66 (mem_laws (2 ^ 9) 66 true) 2 s) 2 [2; 4]).
  { apply (chain_ext 512 64 floppy floppy_geometry floppy_bytes); [intros a _; apply Hpv|exact floppy_chain]. }
  destruct (@fat_over_cache _ (mem_driver 512 true) 9 1 66 (mem_laws (2 ^ 9) 66 true) ltac:(lia) ltac:(lia) ltac:(lia) ltac:(lia)
    2 64 ltac:(lia) ltac:(lia) eq_refl ltac:(discriminate) eq_refl floppy (mk_fs s []) 2 [2; 4] 511 [10; 20; 30] some_file
    floppy_geometry Hok Hw eq_refl Hch ltac:(lia) ltac:(cbn; lia) ltac:(cbn; lia)) as (c1 & s1 & c2 & s2 & E1 & E2 & _).
  exists c1, s1, c2, s2. split; [exact E1|exact E2].
Defined.
