(* ===== verification/Hash.v ===== *)
(** * The hash map of the kernel (kernel/util/hash.h)

    A bucket is the list of its nodes in the order of their links.  What a map stands
    for is the finite map of all its nodes; each operation is that map's operation. *)
From stdpp Require Import gmap.
From S2P Require Import Prelude.

(** The keys a map can have: the overloads of [hash]. *)
Class hashable (K : Type) := { hash : K -> Z; hash_range : forall x, 0 <= hash x < 2 ^ 32 }.

Definition mix32 (x : Z) : Z := u32 (Z.lxor (Z.shiftr x 16) x * 0x45d9f3b).
Definition hash_u32 (x : Z) : Z := let x := mix32 (mix32 (u32 x)) in Z.lxor (Z.shiftr x 16) x.
Fixpoint hash_string_loop (h : Z) (name : list Z) : Z :=
  match name with
  | [] => h
  | c :: name =>
    let h := add32 (shl32 h 4) c in
    let g := Z.land h 0xf0000000 in
    let h := if negb (g =? 0) then Z.lxor h (Z.shiftr g 24) else h in
    hash_string_loop (Z.land h (not32 g)) name
  end.
Definition hash_string (name : list Z) : Z := hash_string_loop 0 name.

Section hash_map.
Context {K D : Type} `{HK : hashable K} `{EqDecision K}.

Definition bucket : Type := list (K * D).
Definition hash_map : Type := list bucket.

Definition hash_map_new (num_buckets : Z) : outcome hash_map :=
  _ ← k_assert (has_single_bit num_buckets); Ok (replicate (Z.to_nat num_buckets) []).

Definition bucket_of (key : K) (m : hash_map) : Z := Z.land (hash key) (sub32 (Z.of_nat (length m)) 1).

Fixpoint find_node (key : K) (entry : bucket) : option D :=
  match entry with
  | [] => None
  | (k, d) :: next => if decide (key = k) then Some d else find_node key next
  end.
(** [lookup] returns the place of the data; what is there is the result. *)
Definition lookup_key (key : K) (m : hash_map) : outcome (option D) :=
  entry ← fetch m (bucket_of key m); Ok (find_node key entry).
Definition contains (key : K) (m : hash_map) : outcome bool :=
  d ← lookup_key key m; Ok (match d with Some _ => true | None => false end).

(** [emplace] and [insert] append a node; an entry that is there stays as it is and
    the result is null. *)
Fixpoint append_node (key : K) (d : D) (entry : bucket) : option bucket :=
  match entry with
  | [] => Some [(key, d)]
  | (k, d') :: next => if decide (k = key) then None else option_map (cons (k, d')) (append_node key d next)
  end.
Definition emplace_key (key : K) (d : D) (m : hash_map) : outcome (option D * hash_map) :=
  let i := bucket_of key m in
  entry ← fetch m i;
  match append_node key d entry with
  | Some entry => m ← store m i entry; Ok (Some d, m)
  | None => Ok (None, m)
  end.
Definition insert_key (key : K) (d : D) (m : hash_map) : outcome (option D * hash_map) := emplace_key key d m.

Fixpoint unlink_node (key : K) (entry : bucket) : bucket :=
  match entry with
  | [] => []
  | (k, d) :: next => if decide (k = key) then next else (k, d) :: unlink_node key next
  end.
Definition remove_key (key : K) (m : hash_map) : outcome hash_map :=
  let i := bucket_of key m in
  entry ← fetch m i; store m i (unlink_node key entry).
End hash_map.
Arguments hash_map : clear implicits.
Arguments bucket : clear implicits.

(** ** The hash functions are 32-bit words *)
Lemma mix32_range x : 0 <= mix32 x < 2 ^ 32.
Proof. unfold mix32, u32, wrap. apply Z.mod_pos_bound. lia. Qed.

Lemma lxor_bound n a b : 0 <= n -> 0 <= a < 2 ^ n -> 0 <= b < 2 ^ n -> 0 <= Z.lxor a b < 2 ^ n.
Proof.
  intros Hn Ha Hb. assert (E : Z.lxor a b = Z.lxor a b mod 2 ^ n).
  { apply Z.bits_inj'. intros i Hi. destruct (Z.lt_ge_cases i n).
    - rewrite Z.mod_pow2_bits_low by lia. reflexivity.
    - rewrite Z.mod_pow2_bits_high, Z.lxor_spec, !(small_testbit _ n) by lia. reflexivity. }
  rewrite E. apply Z.mod_pos_bound, Z.pow_pos_nonneg; lia.
Qed.

Lemma hash_u32_range x : 0 <= hash_u32 x < 2 ^ 32.
Proof.
  unfold hash_u32. pose proof (mix32_range (mix32 (u32 x))) as Hy. set (y := mix32 _) in *. cbv zeta.
  apply lxor_bound; [lia| |exact Hy]. rewrite Z.shiftr_div_pow2 by lia.
  split; [apply Z.div_pos; lia|]. apply Z.div_lt_upper_bound; lia.
Qed.

Lemma hash_string_loop_range name : forall h, 0 <= h < 2 ^ 32 -> 0 <= hash_string_loop h name < 2 ^ 32.
Proof.
  induction name as [|c name IH]; intros h Hh; [exact Hh|]. cbn [hash_string_loop]. cbv zeta. apply IH.
  set (x := add32 (shl32 h 4) c). assert (Hx : 0 <= x < 2 ^ 32) by (unfold x, add32, u32, wrap; apply Z.mod_pos_bound; lia).
  pose proof (land_bound 32 x 0xf0000000 ltac:(lia) (proj1 Hx) ltac:(lia)) as Hg. set (g := Z.land x 0xf0000000) in *.
  apply land_bound; [lia| |unfold not32; lia]. destruct (g =? 0); cbn [negb]; [lia|].
  apply Z.lxor_nonneg. assert (0 <= Z.shiftr g 24) by (apply Z.shiftr_nonneg; lia). lia.
Qed.
Lemma hash_string_range name : 0 <= hash_string name < 2 ^ 32.
Proof. apply hash_string_loop_range. lia. Qed.

#[export] Instance word_key : hashable Z := { hash := hash_u32; hash_range := hash_u32_range }.
#[export] Instance string_key : hashable (list Z) := { hash := hash_string; hash_range := hash_string_range }.

(** ** A map is a finite map *)
Section refinement.
Context {K D : Type} `{HK : hashable K} `{Countable K}.
Notation map := (hash_map K D).
Implicit Types (key x : K) (b : bucket K D) (m : map).

(** What a map stands for, and when it is well-formed: a power of two of buckets, each
    key in its bucket and only once. *)
Definition contents (m : map) : gmap K D := list_to_map (concat m).
Record map_ok (m : map) : Prop := {
  m_size : exists k, 0 <= k < 32 /\ Z.of_nat (length m) = 2 ^ k;
  m_place : forall i b x, m !! i = Some b -> x ∈ b.*1 -> bucket_of x m = Z.of_nat i;
  m_once : forall i b, m !! i = Some b -> NoDup b.*1 }.

Lemma bucket_range m key : map_ok m -> 0 <= bucket_of key m < Z.of_nat (length m).
Proof using.
  intros [(k & Hk & Hl) _ _]. unfold bucket_of. rewrite Hl. assert (0 < 2 ^ k < 2 ^ 32) by (split; [apply Z.pow_pos_nonneg|apply Z.pow_lt_mono_r]; lia).
  rewrite sub32_small by lia. apply land_bound; [lia|apply hash_range|lia].
Qed.

Lemma bucket_there m key : map_ok m -> exists b, fetch m (bucket_of key m) = Ok b /\ m !! Z.to_nat (bucket_of key m) = Some b.
Proof using.
  intros Hm. pose proof (bucket_range m key Hm) as Hr. destruct (lookup_lt_is_Some_2 m (Z.to_nat (bucket_of key m)) ltac:(lia)) as [b Hb].
  exists b. split; [apply fetch_Ok; [lia|exact Hb]|exact Hb].
Qed.

Lemma keys_once (m : map) (place : K -> nat) : forall n, (forall i b x, m !! i = Some b -> x ∈ b.*1 -> place x = (n + i)%nat) ->
  (forall i b, m !! i = Some b -> NoDup b.*1) -> NoDup (concat m).*1.
Proof using.
  induction m as [|b m IH]; intros n Hp Hn; [constructor|]. cbn [concat]. rewrite fmap_app. apply NoDup_app.
  split; [exact (Hn 0%nat b eq_refl)|]. split.
  - intros x Hx Hin. apply list_elem_of_fmap in Hin as ([x' d] & -> & Hin). apply list_elem_of_In, in_concat in Hin as (b' & Hb' & Hin).
    apply list_elem_of_In, list_elem_of_lookup in Hb' as [i Hi]. apply list_elem_of_In in Hin.
    pose proof (Hp 0%nat b x' eq_refl Hx) as E1. pose proof (Hp (S i) b' x' Hi (list_elem_of_fmap_2 fst b' _ Hin)) as E2. lia.
  - apply (IH (S n)); [intros i b' x Hi Hx; rewrite (Hp (S i) b' x Hi Hx); lia|intros i b' Hi; exact (Hn (S i) b' Hi)].
Qed.

Lemma map_once m : map_ok m -> NoDup (concat m).*1.
Proof using.
  intros Hm. apply (keys_once m (fun x => Z.to_nat (bucket_of x m)) 0); [|exact (m_once m Hm)].
  intros i b x Hi Hx. rewrite (m_place m Hm i b x Hi Hx). lia.
Qed.

Lemma find_node_elem key b d : NoDup b.*1 -> find_node key b = Some d <-> (key, d) ∈ b.
Proof using.
  induction b as [|[k d'] b IH]; intros Hn; cbn [find_node]; [split; [discriminate|intros Hin; inversion Hin]|].
  cbn in Hn. apply NoDup_cons in Hn as [Hk Hn]. rewrite elem_of_cons. destruct (decide (key = k)) as [->|Hne].
  - split; [intros [= ->]; left; reflexivity|]. intros [[= ->]|Hin]; [reflexivity|].
    contradiction Hk. exact (list_elem_of_fmap_2 fst b _ Hin).
  - rewrite (IH Hn). split; [intros Hin; right; exact Hin|intros [[= -> ->]|Hin]; [contradiction Hne; reflexivity|exact Hin]].
Qed.

(** The bucket of a key decides what the map holds for it. *)
Lemma contents_lookup m key b : map_ok m -> m !! Z.to_nat (bucket_of key m) = Some b -> contents m !! key = find_node key b.
Proof using.
  intros Hm Hb. apply option_eq. intros d. rewrite (find_node_elem key b d (m_once m Hm _ _ Hb)). unfold contents.
  rewrite <- elem_of_list_to_map by exact (map_once m Hm). split; intros Hin.
  - apply list_elem_of_In, in_concat in Hin as (b' & Hb' & Hin). apply list_elem_of_In, list_elem_of_lookup in Hb' as [i Hi].
    apply list_elem_of_In in Hin. pose proof (m_place m Hm i b' key Hi (list_elem_of_fmap_2 fst b' _ Hin)) as E.
    assert (Eb : Some b = Some b') by (rewrite <- Hb, <- Hi, E, Nat2Z.id; reflexivity). injection Eb as ->. exact Hin.
  - apply list_elem_of_In, in_concat. exists b. split; [apply list_elem_of_In; exact (list_elem_of_lookup_2 _ _ _ Hb)|apply list_elem_of_In; exact Hin].
Qed.

Lemma append_node_spec key (d : D) b : append_node key d b = match find_node key b with Some _ => None | None => Some (b ++ [(key, d)]) end.
Proof using.
  induction b as [|[k d'] b IH]; [reflexivity|]. cbn [append_node find_node app].
  destruct (decide (k = key)) as [->|Hne]; [rewrite decide_True by reflexivity; reflexivity|]. rewrite decide_False by congruence.
  rewrite IH. destruct (find_node key b); reflexivity.
Qed.

Lemma find_node_app key b1 b2 : find_node (D := D) key (b1 ++ b2) = match find_node key b1 with Some d => Some d | None => find_node key b2 end.
Proof using. induction b1 as [|[k d] b1 IH]; [reflexivity|]. cbn [app find_node]. case_decide; [reflexivity|exact IH]. Qed.

Lemma find_node_keys key b : find_node (D := D) key b = None <-> key ∉ b.*1.
Proof using.
  induction b as [|[k d] b IH]; cbn [find_node]; [split; [intros _ Hin; inversion Hin|reflexivity]|]. cbn. rewrite not_elem_of_cons.
  destruct (decide (key = k)) as [->|Hne]; [split; [discriminate|intros [Hc _]; contradiction Hc; reflexivity]|]. rewrite IH. tauto.
Qed.

Lemma unlink_node_find key key' b : NoDup b.*1 -> find_node (D := D) key' (unlink_node key b) = if decide (key' = key) then None else find_node key' b.
Proof using.
  induction b as [|[k d] b IH]; intros Hn; cbn [unlink_node find_node]; [case_decide; reflexivity|].
  cbn in Hn. apply NoDup_cons in Hn as [Hk Hn]. destruct (decide (k = key)) as [->|Hne].
  - destruct (decide (key' = key)) as [->|Hne']; [apply find_node_keys; exact Hk|reflexivity].
  - cbn [find_node]. rewrite (IH Hn). destruct (decide (key' = k)) as [->|Hne2]; [rewrite decide_False by exact Hne|]; reflexivity.
Qed.

Lemma unlink_node_sub key b : sublist (unlink_node (D := D) key b) b.
Proof using. induction b as [|[k d] b IH]; [constructor|]. cbn [unlink_node]. case_decide; [constructor; reflexivity|constructor; exact IH]. Qed.

(** Changing the bucket of a key. *)
Lemma update_bucket m key b b' : map_ok m -> m !! Z.to_nat (bucket_of key m) = Some b -> NoDup b'.*1 ->
  (forall x, x ∈ b'.*1 -> x = key \/ x ∈ b.*1) ->
  store m (bucket_of key m) b' = Ok (<[Z.to_nat (bucket_of key m) := b']> m) /\ map_ok (<[Z.to_nat (bucket_of key m) := b']> m)
  /\ forall x, contents (<[Z.to_nat (bucket_of key m) := b']> m) !! x
     = if decide (bucket_of x m = bucket_of key m) then find_node x b' else contents m !! x.
Proof using.
  intros Hm Hb Hn Hk. pose proof (bucket_range m key Hm) as Hr. set (i := Z.to_nat (bucket_of key m)) in *.
  set (m' := <[i := b']> m). assert (Hlen : length m' = length m) by apply length_insert.
  assert (Hbk : forall x, bucket_of x m' = bucket_of x m) by (intros x; unfold bucket_of; rewrite Hlen; reflexivity).
  assert (Hm' : map_ok m').
  { constructor.
    - rewrite Hlen. exact (m_size m Hm).
    - intros j c x Hj Hx. rewrite Hbk. apply list_lookup_insert_Some in Hj as [(<- & <- & _)|(Hne & Hj)].
      + destruct (Hk x Hx) as [->|Hx']; [subst i; lia|exact (m_place m Hm i b x Hb Hx')].
      + exact (m_place m Hm j c x Hj Hx).
    - intros j c Hj. apply list_lookup_insert_Some in Hj as [(<- & <- & _)|(_ & Hj)]; [exact Hn|exact (m_once m Hm j c Hj)]. }
  split; [apply store_Ok; lia|]. split; [exact Hm'|]. intros x.
  destruct (bucket_there m x Hm) as (c & _ & Hc). destruct (decide (bucket_of x m = bucket_of key m)) as [E|Hne].
  - apply (contents_lookup m' x b' Hm'). rewrite Hbk, E. apply list_lookup_insert_eq. exact (lookup_lt_Some _ _ _ Hb).
  - rewrite (contents_lookup m x c Hm Hc). apply (contents_lookup m' x c Hm'). rewrite Hbk.
    etransitivity; [apply list_lookup_insert_ne|exact Hc]. pose proof (bucket_range m x Hm). subst i. lia.
Qed.

Definition refines_insert (key : K) (d : D) (m : map) : Prop :=
  match contents m !! key with
  | Some _ => emplace_key key d m = Ok (None, m)
  | None => exists m', emplace_key key d m = Ok (Some d, m') /\ map_ok m' /\ contents m' = <[key := d]> (contents m)
  end.

Lemma emplace_spec key d m : map_ok m -> refines_insert key d m.
Proof using.
  intros Hm. destruct (bucket_there m key Hm) as (b & Ef & Hb). unfold refines_insert, emplace_key.
  rewrite (contents_lookup m key b Hm Hb), (bind_Ok_l _ _ _ Ef), append_node_spec.
  destruct (find_node key b) as [d0|] eqn:Efn; [reflexivity|].
  assert (Hnk : key ∉ b.*1) by (apply find_node_keys; exact Efn).
  destruct (update_bucket m key b (b ++ [(key, d)]) Hm Hb) as (Es & Hm' & Hc).
  - rewrite fmap_app. apply NoDup_app. split; [exact (m_once m Hm _ _ Hb)|]. split; [|apply NoDup_singleton].
    intros x Hx Hin. apply list_elem_of_singleton in Hin as ->. exact (Hnk Hx).
  - intros x Hx. rewrite fmap_app, elem_of_app in Hx. destruct Hx as [Hx|Hx]; [right; exact Hx|left].
    apply list_elem_of_singleton in Hx. exact Hx.
  - eexists. rewrite (bind_Ok_l _ _ _ Es). split; [reflexivity|]. split; [exact Hm'|]. apply map_eq. intros x. rewrite Hc.
    destruct (decide (x = key)) as [->|Hne].
    + rewrite lookup_insert_eq, decide_True by reflexivity. rewrite find_node_app, Efn. cbn [find_node]. rewrite decide_True by reflexivity. reflexivity.
    + rewrite lookup_insert_ne by congruence. case_decide as E; [|reflexivity]. rewrite find_node_app. cbn [find_node].
      rewrite decide_False by exact Hne. rewrite (contents_lookup m x b Hm) by (rewrite E; exact Hb). destruct (find_node x b); reflexivity.
Qed.

Lemma remove_spec key m : map_ok m -> exists m', remove_key key m = Ok m' /\ map_ok m' /\ contents m' = delete key (contents m).
Proof using.
  intros Hm. destruct (bucket_there m key Hm) as (b & Ef & Hb). unfold remove_key. rewrite (bind_Ok_l _ _ _ Ef).
  pose proof (m_once m Hm _ _ Hb) as Hn.
  destruct (update_bucket m key b (unlink_node key b) Hm Hb) as (Es & Hm' & Hc).
  - exact (sublist_NoDup _ _ Hn (fmap_sublist fst _ _ (unlink_node_sub key b))).
  - intros x Hx. right. exact (elem_of_sublist _ _ _ Hx (fmap_sublist fst _ _ (unlink_node_sub key b))).
  - eexists. split; [exact Es|]. split; [exact Hm'|]. apply map_eq. intros x. rewrite Hc.
    destruct (decide (x = key)) as [->|Hne].
    + rewrite lookup_delete_eq, decide_True by reflexivity. rewrite unlink_node_find, decide_True by (exact Hn || reflexivity). reflexivity.
    + rewrite lookup_delete_ne by congruence. case_decide as E; [|reflexivity]. rewrite unlink_node_find, decide_False by assumption.
      symmetry. apply contents_lookup; [exact Hm|rewrite E; exact Hb].
Qed.

Lemma lookup_spec key m : map_ok m -> lookup_key key m = Ok (contents m !! key).
Proof using.
  intros Hm. destruct (bucket_there m key Hm) as (b & Ef & Hb). unfold lookup_key. rewrite (bind_Ok_l _ _ _ Ef), (contents_lookup m key b Hm Hb). reflexivity.
Qed.

Lemma hash_map_new_ok k : 0 <= k < 32 -> exists m, hash_map_new (K := K) (D := D) (2 ^ k) = Ok m /\ map_ok m /\ contents m = ∅.
Proof using.
  intros Hk. unfold hash_map_new. rewrite has_single_bit_pow2 by lia. eexists. split; [reflexivity|].
  assert (Hb : forall i (b : bucket K D), replicate (Z.to_nat (2 ^ k)) [] !! i = Some b -> b = []) by (intros i b Hi; apply lookup_replicate in Hi; apply Hi).
  assert (Hp : 0 < 2 ^ k) by (apply Z.pow_pos_nonneg; lia). split.
  - constructor.
    + exists k. rewrite length_replicate. lia.
    + intros i b x Hi Hx. rewrite (Hb i b Hi) in Hx. inversion Hx.
    + intros i b Hi. rewrite (Hb i b Hi). constructor.
  - unfold contents. clear Hb. induction (Z.to_nat (2 ^ k)) as [|n IHn]; [reflexivity|]. exact IHn.
Qed.
(** C25: the hash map is a finite map: a new one, of a number of buckets that is a power
    of two, is empty; lookup and contains are those of the finite map; an insertion adds a
    key that is not there and leaves the map alone otherwise; a removal deletes the key.
    Every operation keeps the map well-formed. *)
Theorem hash_map_refines :
  (forall k, 0 <= k < 32 -> exists m, hash_map_new (K := K) (D := D) (2 ^ k) = Ok m /\ map_ok m /\ contents m = ∅)
  /\ forall m key d, map_ok m ->
  lookup_key key m = Ok (contents m !! key)
  /\ contains key m = Ok (bool_decide (is_Some (contents m !! key)))
  /\ match contents m !! key with
     | Some _ => insert_key key d m = Ok (None, m)
     | None => exists m', insert_key key d m = Ok (Some d, m') /\ map_ok m' /\ contents m' = <[key := d]> (contents m)
     end
  /\ exists m', remove_key key m = Ok m' /\ map_ok m' /\ contents m' = delete key (contents m).
Proof using.
  split; [exact hash_map_new_ok|]. intros m key d Hm. split; [exact (lookup_spec key m Hm)|].
  split; [|split; [exact (emplace_spec key d m Hm)|exact (remove_spec key m Hm)]].
  unfold contains. rewrite (lookup_spec key m Hm). cbn [mbind outcome_bind]. destruct (contents m !! key); reflexivity.
Qed.
End refinement.

(** Two keys of the driver table, in sixteen buckets. *)
Lemma hash_map_refines_witness : exists m1 m2 : hash_map Z Z,
  hash_map_new 16 = Ok m1 /\ insert_key 7 70 m1 = Ok (Some 70, m2) /\ lookup_key 7 m2 = Ok (Some 70) /\ contains 8 m2 = Ok false.
Proof.
  destruct (proj1 (hash_map_refines (K := Z) (D := Z)) 4 ltac:(lia)) as (m1 & E1 & Hm1 & Hc1).
  destruct (proj2 (hash_map_refines (K := Z) (D := Z)) m1 7 70 Hm1) as (_ & _ & Hi & _). rewrite Hc1, lookup_empty in Hi.
  destruct Hi as (m2 & E2 & Hm2 & Hc2). exists m1, m2. split; [exact E1|]. split; [exact E2|]. split.
  - rewrite (proj1 (proj2 (hash_map_refines (K := Z) (D := Z)) m2 7 70 Hm2)), Hc2, lookup_insert_eq. reflexivity.
  - destruct (proj2 (hash_map_refines (K := Z) (D := Z)) m2 8 70 Hm2) as (_ & Hco & _).
    rewrite Hco, Hc2, lookup_insert_ne by discriminate. reflexivity.
Defined.
