(* ===== verification/Cstring.v ===== *)
(** * Strings and memory (clib/string.c)

    The memory is one list of bytes and a pointer an index into it; reading or writing
    outside faults.  A null result is [None].  The loops run until they meet a byte:
    the memory is finite, and its length is enough fuel for any of them. *)
From S2P Require Import Prelude Drives.

Notation mem := (list Z) (only parsing).

Fixpoint strlen_loop (fuel : nat) (str len : Z) (m : mem) : outcome Z :=
  match fuel with
  | O => Fault OutOfFuel
  | S fuel =>
    c ← fetch m str;
    if c =? 0 then Ok len else strlen_loop fuel (str + 1) (add32 len 1) m
  end.
Definition strlen (str : Z) (m : mem) : outcome Z := strlen_loop (S (length m)) str 0 m.

Fixpoint strchr_loop (fuel : nat) (str character : Z) (m : mem) : outcome (option Z) :=
  match fuel with
  | O => Fault OutOfFuel
  | S fuel =>
    c ← fetch m str;
    if c =? u8 character then Ok (Some str)
    else if c =? 0 then Ok None
    else strchr_loop fuel (str + 1) character m
  end.
Definition strchr (str character : Z) (m : mem) : outcome (option Z) := strchr_loop (S (length m)) str character m.

Fixpoint strrchr_loop (n : nat) (ptr character : Z) (m : mem) : outcome (option Z) :=
  match n with
  | O => Ok None
  | S n =>
    c ← fetch m ptr;
    if c =? u8 character then Ok (Some ptr) else strrchr_loop n (ptr - 1) character m
  end.
Definition strrchr (str character : Z) (m : mem) : outcome (option Z) :=
  n ← strlen str m; strrchr_loop (S (Z.to_nat n)) (str + n) character m.

Fixpoint strcmp_loop (fuel : nat) (s1 s2 : Z) (m : mem) : outcome Z :=
  match fuel with
  | O => Fault OutOfFuel
  | S fuel =>
    a ← fetch m s1; b ← fetch m s2;
    if negb (a =? 0) && (a =? b) then strcmp_loop fuel (s1 + 1) (s2 + 1) m else Ok (a - b)
  end.
Definition strcmp (s1 s2 : Z) (m : mem) : outcome Z := strcmp_loop (S (length m)) s1 s2 m.

(** The loop stops before the last byte, which is compared after it. *)
Fixpoint memcmp_loop (num : nat) (a b : Z) (m : mem) : outcome Z :=
  x ← fetch m a; y ← fetch m b;
  match num with
  | S num => if x =? y then memcmp_loop num (a + 1) (b + 1) m else Ok (x - y)
  | O => Ok (x - y)
  end.
Definition memcmp (a b num : Z) (m : mem) : outcome Z :=
  if num =? 0 then Ok 0 else memcmp_loop (Z.to_nat (num - 1)) a b m.

(** The difference of the characters the loop stops at: the next ones when the count
    runs out. *)
Fixpoint strncmp_loop (count : nat) (s1 s2 : Z) (m : mem) : outcome Z :=
  a ← fetch m s1; b ← fetch m s2;
  match count with
  | S count => if negb (a =? 0) && (a =? b) then strncmp_loop count (s1 + 1) (s2 + 1) m else Ok (a - b)
  | O => Ok (a - b)
  end.
Definition strncmp (s1 s2 count : Z) (m : mem) : outcome Z := strncmp_loop (Z.to_nat count) s1 s2 m.

(** [memcpy] of the library: all of the source, then all of the destination. *)
Definition memcpy (dest src num : Z) (m : mem) : outcome mem := l ← slice m src num; splice m dest l.
Definition strcpy (destination source : Z) (m : mem) : outcome mem :=
  n ← strlen source m; memcpy destination source (n + 1) m.
Definition strcat (destination source : Z) (m : mem) : outcome mem :=
  d ← strlen destination m; n ← strlen source m; memcpy (destination + d) source (n + 1) m.

Fixpoint strncpy_loop (count : nat) (dst src : Z) (m : mem) : outcome mem :=
  c ← fetch m src;
  match count with
  | S count => if c =? 0 then store m dst 0 else m ← store m dst c; strncpy_loop count (dst + 1) (src + 1) m
  | O => Ok m
  end.
Definition strncpy (dst : option Z) (src count : Z) (m : mem) : outcome (option Z * mem) :=
  match dst with
  | None => Ok (None, m)
  | Some d => m ← strncpy_loop (Z.to_nat count) d src m; Ok (dst, m)
  end.

(** Upwards it is [copy_up] of the prelude. *)
(** The pointers are at the ends. *)
Fixpoint copy_down (num : nat) (dst src : Z) (m : mem) : outcome mem :=
  match num with
  | O => Ok m
  | S num => c ← fetch m (src - 1); m ← store m (dst - 1) c; copy_down num (dst - 1) (src - 1) m
  end.
Definition memmove (dest src num : Z) (m : mem) : outcome mem :=
  if (src <? dest) && (dest <? src + num) then copy_down (Z.to_nat num) (dest + num) (src + num) m
  else copy_up (Z.to_nat num) dest src m.

Fixpoint memchr_loop (n : nat) (p c : Z) (m : mem) : outcome (option Z) :=
  match n with
  | O => Ok None
  | S n => x ← fetch m p; if x =? u8 c then Ok (Some p) else memchr_loop n (p + 1) c m
  end.
Definition memchr (str : option Z) (c n : Z) (m : mem) : outcome (option Z) :=
  match str with None => Ok None | Some p => memchr_loop (Z.to_nat n) p c m end.

(** [strtok]: the static [buffer] is passed along.  [is_delimiter] is the inner loop
    over the delimiters; a delimiter at the start of the token moves the token. *)
Fixpoint is_delimiter (fuel : nat) (c dchar : Z) (m : mem) : outcome bool :=
  match fuel with
  | O => Fault OutOfFuel
  | S fuel =>
    d ← fetch m dchar;
    if d =? 0 then Ok false else if c =? d then Ok true else is_delimiter fuel c (dchar + 1) m
  end.
Fixpoint strtok_loop (fuel : nat) (token c buffer delimiters : Z) (m : mem) : outcome (Z * Z * mem) :=
  match fuel with
  | O => Fault OutOfFuel
  | S fuel =>
    x ← fetch m c;
    if x =? 0 then Ok (token, buffer, m) else
    b ← is_delimiter (S (length m)) x delimiters m;
    if b : bool then
      m ← store m c 0;
      if c =? token then strtok_loop fuel (token + 1) (c + 1) (c + 1) delimiters m
      else Ok (token, c + 1, m)
    else strtok_loop fuel token (c + 1) buffer delimiters m
  end.
Definition strtok (str : option Z) (delimiters : Z) (buffer : option Z) (m : mem) : outcome (option Z * option Z * mem) :=
  let buffer := match str with Some s => Some s | None => buffer end in
  match buffer with
  | None => Ok (None, None, m)
  | Some b =>
    x ← fetch m b;
    if x =? 0 then Ok (None, Some b, m) else
    '(token, buffer, m) ← strtok_loop (S (length m)) b b b delimiters m;
    Ok (Some token, Some buffer, m)
  end.

(** ** What the functions do *)
Section Copies.
Implicit Types m : list Z.

(** Copying downwards is right when the destination starts inside the source or after it. *)
Lemma copy_down_spec n : forall m dst src, 0 <= dst -> 0 <= src ->
  dst + Z.of_nat n <= Z.of_nat (length m) -> src + Z.of_nat n <= Z.of_nat (length m) -> src <= dst ->
  exists m', copy_down n (dst + Z.of_nat n) (src + Z.of_nat n) m = Ok m' /\ copied m m m' dst src (Z.of_nat n).
Proof.
  induction n as [|n IH]; intros m dst src Hd Hs Ld Ls Ho.
  - exists m. split; [reflexivity|]. split; [reflexivity|]. intros i Hi.
    destruct (Z.leb_spec dst i), (Z.ltb_spec i (dst + Z.of_nat 0)); cbn [andb]; try reflexivity; lia.
  - cbn [copy_down]. replace (src + Z.of_nat (S n) - 1) with (src + Z.of_nat n) by lia.
    replace (dst + Z.of_nat (S n) - 1) with (dst + Z.of_nat n) by lia.
    destruct (fetch_in m (src + Z.of_nat n)) as (x & Ex & Hx); [lia|]. rewrite (bind_Ok_l _ _ _ Ex).
    destruct (store_in m (dst + Z.of_nat n) x) as (m1 & E1 & L1 & G1); [lia|]. rewrite (bind_Ok_l _ _ _ E1).
    destruct (IH m1 dst src) as (m' & E' & L' & G'); [lia..|].
    exists m'. split; [exact E'|]. split; [lia|]. intros i Hi. rewrite G' by lia.
    destruct (Z.leb_spec dst i), (Z.ltb_spec i (dst + Z.of_nat n)), (Z.ltb_spec i (dst + Z.of_nat (S n)));
      cbn [andb]; try lia; rewrite G1 by lia;
      destruct (Z.eqb_spec i (dst + Z.of_nat n)), (Z.eqb_spec (src + (i - dst)) (dst + Z.of_nat n));
      try lia; try reflexivity; subst; rewrite <- ?Hx; same_index.
Qed.
End Copies.

(** [memmove] moves [num] bytes however source and destination overlap: afterwards
    the destination holds the bytes the source held before the call, every other byte
    of the memory is unchanged, and nothing outside the two ranges is touched (the call
    does not fault when both lie in the memory). *)
Theorem memmove_correct (m : list Z) dest src num : 0 <= dest -> 0 <= src -> 0 <= num ->
  dest + num <= Z.of_nat (length m) -> src + num <= Z.of_nat (length m) ->
  exists m', memmove dest src num m = Ok m' /\ copied m m m' dest src num.
Proof.
  intros Hd Hs Hn Ld Ls. rewrite <- (Z2Nat.id num) in * by lia. unfold memmove. rewrite Nat2Z.id.
  destruct (Z.ltb_spec src dest), (Z.ltb_spec dest (src + Z.of_nat (Z.to_nat num))); cbn [andb];
    (apply copy_up_spec || apply copy_down_spec); lia.
Qed.

(** Moving four bytes one to the right, and one to the left, over themselves. *)
Lemma memmove_correct_witness :
  (exists m', memmove 1 0 4 [1; 2; 3; 4; 5; 6] = Ok m' /\ copied [1; 2; 3; 4; 5; 6] [1; 2; 3; 4; 5; 6] m' 1 0 4) /\
  memmove 1 0 4 [1; 2; 3; 4; 5; 6] = Ok [1; 1; 2; 3; 4; 6] /\ memmove 0 1 4 [1; 2; 3; 4; 5; 6] = Ok [2; 3; 4; 5; 5; 6].
Proof. split; [apply memmove_correct; simpl; lia|split; reflexivity]. Defined.

(** [strncmp] compares one character more than it is asked to: "ax" and "ay" differ in
    their first character only if their second one counts. *)
Example strncmp_one_more : strncmp 0 3 1 [97; 120; 0; 97; 121; 0] = Ok (-1).
Proof. reflexivity. Qed.
(** With a count of zero it compares the first characters. *)
Example strncmp_zero : strncmp 0 2 0 [97; 0; 98; 0] = Ok (-1).
Proof. reflexivity. Qed.
(** [strncpy] of three characters into five bytes writes one terminator and leaves the
    rest of the buffer. *)
Example strncpy_one_nul : strncpy (Some 0) 6 5 [9; 9; 9; 9; 9; 9; 97; 98; 0] = Ok (Some 0, [97; 98; 0; 9; 9; 9; 97; 98; 0]).
Proof. reflexivity. Qed.
(** "a b" split at blanks: "a", then "b", then "b" again for ever, for the last token
    leaves [buffer] where it was. *)
Example strtok_repeats :
  strtok (Some 0) 4 None [97; 32; 98; 0; 32; 0] = Ok (Some 0, Some 2, [97; 0; 98; 0; 32; 0]) /\
  strtok None 4 (Some 2) [97; 0; 98; 0; 32; 0] = Ok (Some 2, Some 2, [97; 0; 98; 0; 32; 0]).
Proof. split; reflexivity. Qed.
