(* ===== verification/Ext2.v ===== *)
(** * The ext2 file system (drivers/formats/ext2.cpp)

    The superblock and the group descriptors are read when the volume is mounted; the
    driver keeps them in memory and changes only their counts of free blocks and
    inodes, so they are part of the state.  The rest of [ext2fs] never changes. *)
From S2P Require Import Prelude FsUtil Drives BlockStore Vfs.

Definition EXT2_NDIR_BLOCKS : Z := 12.
Definition EXT2_IND_BLOCK : Z := EXT2_NDIR_BLOCKS.
Definition EXT2_DIND_BLOCK : Z := EXT2_IND_BLOCK + 1.
Definition EXT2_TIND_BLOCK : Z := EXT2_DIND_BLOCK + 1.
Definition EXT2_FT_DIR : Z := 2.

(** ** On-disk structures *)
Record superblock := mk_sb {
  sb_inodes_count : Z; sb_blocks_count : Z; sb_r_blocks_count : Z; sb_free_blocks_count : Z;
  sb_free_inodes_count : Z; sb_first_data_block : Z; sb_log_block_size : Z; sb_log_frag_size : Z;
  sb_blocks_per_group : Z; sb_frags_per_group : Z; sb_inodes_per_group : Z; sb_mtime : Z; sb_wtime : Z;
  sb_mnt_count : Z; sb_max_mnt_count : Z; sb_magic : Z; sb_state : Z; sb_errors : Z; sb_minor_rev_level : Z;
  sb_lastcheck : Z; sb_checkinterval : Z; sb_creator_os : Z; sb_rev_level : Z; sb_def_resuid : Z;
  sb_def_resgid : Z; sb_first_ino : Z; sb_inode_size : Z }.
Definition sizeof_superblock : Z := 90.
Definition decode_superblock (l : list Z) : superblock :=
  mk_sb (field_at l 0 4) (field_at l 4 4) (field_at l 8 4) (field_at l 12 4) (field_at l 16 4) (field_at l 20 4)
    (field_at l 24 4) (field_at l 28 4) (field_at l 32 4) (field_at l 36 4) (field_at l 40 4) (field_at l 44 4)
    (field_at l 48 4) (field_at l 52 2) (field_at l 54 2) (field_at l 56 2) (field_at l 58 2) (field_at l 60 2)
    (field_at l 62 2) (field_at l 64 4) (field_at l 68 4) (field_at l 72 4) (field_at l 76 4) (field_at l 80 2)
    (field_at l 82 2) (field_at l 84 4) (field_at l 88 2).

Record blkgrp := mk_blkgrp {
  block_bitmap : Z; inode_bitmap : Z; inode_table : Z; bg_free_blocks_count : Z; bg_free_inodes_count : Z;
  bg_used_dirs_count : Z }.
Definition sizeof_blkgrp : Z := 32.
Definition decode_blkgrp (l : list Z) : blkgrp :=
  mk_blkgrp (field_at l 0 4) (field_at l 4 4) (field_at l 8 4) (field_at l 12 2) (field_at l 14 2) (field_at l 16 2).
Fixpoint decode_blkgrps (n : nat) (l : list Z) : list blkgrp :=
  match n with
  | O => []
  | S n => decode_blkgrp (take 32 l) :: decode_blkgrps n (drop 32 l)
  end.

(** [block] is the array of fifteen block numbers. *)
Record inode := mk_inode {
  i_mode : Z; i_uid : Z; i_size : Z; i_atime : Z; i_ctime : Z; i_mtime : Z; i_dtime : Z; i_gid : Z;
  i_links_count : Z; i_blocks : Z; i_flags : Z; i_osd1 : Z; i_block : list Z; i_generation : Z; i_file_acl : Z;
  i_dir_acl : Z; i_faddr : Z; i_osd2 : list Z }.
Definition sizeof_inode : Z := 128.
Definition decode_words (n : nat) (l : list Z) : list Z := map (fun k => field_at l (4 * Z.of_nat k) 4) (seq 0 n).
Definition decode_inode (l : list Z) : inode :=
  mk_inode (field_at l 0 2) (field_at l 2 2) (field_at l 4 4) (field_at l 8 4) (field_at l 12 4) (field_at l 16 4)
    (field_at l 20 4) (field_at l 24 2) (field_at l 26 2) (field_at l 28 4) (field_at l 32 4) (field_at l 36 4)
    (decode_words 15 (drop 40 l)) (field_at l 100 4) (field_at l 104 4) (field_at l 108 4) (field_at l 112 4)
    (take 12 (drop 116 l)).
Definition encode_inode (i : inode) : list Z :=
  le_bytes 2 (i_mode i) ++ le_bytes 2 (i_uid i) ++ le_bytes 4 (i_size i) ++ le_bytes 4 (i_atime i)
  ++ le_bytes 4 (i_ctime i) ++ le_bytes 4 (i_mtime i) ++ le_bytes 4 (i_dtime i) ++ le_bytes 2 (i_gid i)
  ++ le_bytes 2 (i_links_count i) ++ le_bytes 4 (i_blocks i) ++ le_bytes 4 (i_flags i) ++ le_bytes 4 (i_osd1 i)
  ++ concat (map (le_bytes 4) (i_block i)) ++ le_bytes 4 (i_generation i) ++ le_bytes 4 (i_file_acl i)
  ++ le_bytes 4 (i_dir_acl i) ++ le_bytes 4 (i_faddr i) ++ i_osd2 i.
Definition set_block (n : Z) (blk : Z) (i : inode) : outcome inode :=
  l ← store (i_block i) n blk;
  Ok (mk_inode (i_mode i) (i_uid i) (i_size i) (i_atime i) (i_ctime i) (i_mtime i) (i_dtime i) (i_gid i)
    (i_links_count i) (i_blocks i) (i_flags i) (i_osd1 i) l (i_generation i) (i_file_acl i) (i_dir_acl i)
    (i_faddr i) (i_osd2 i)).
Definition set_inode_size (size dir_acl : Z) (i : inode) : inode :=
  mk_inode (i_mode i) (i_uid i) size (i_atime i) (i_ctime i) (i_mtime i) (i_dtime i) (i_gid i) (i_links_count i)
    (i_blocks i) (i_flags i) (i_osd1 i) (i_block i) (i_generation i) (i_file_acl i) dir_acl (i_faddr i) (i_osd2 i).

(** The eight bytes in front of the name. *)
Record dirent := mk_dirent { d_inode : Z; d_rec_len : Z; d_name_len : Z; d_file_type : Z }.
Definition sizeof_dirent : Z := 8.
Definition encode_dirent (d : dirent) : list Z :=
  le_bytes 4 (d_inode d) ++ le_bytes 2 (d_rec_len d) ++ le_bytes 1 (d_name_len d) ++ le_bytes 1 (d_file_type d).
Definition decode_dirent (l : list Z) : dirent :=
  mk_dirent (field_at l 0 4) (field_at l 4 2) (field_at l 6 1) (field_at l 7 1).

(** The first clear bit, set. *)
Fixpoint find_free_loop (fuel : nat) (arr : list Z) (bits i : Z) : outcome (option Z * list Z) :=
  match fuel with
  | O => Fault OutOfFuel
  | S fuel =>
    if i <? bits then
      byte ← fetch arr (i / 8);
      let bitmask := Z.shiftl 1 (i mod 8) in
      if Z.land byte bitmask =? 0 then arr ← store arr (i / 8) (Z.lor byte bitmask); Ok (Some i, arr)
      else find_free_loop fuel arr bits (i + 1)
    else Ok (None, arr)
  end.
Definition find_free_and_mark (arr : list Z) (bits : Z) : outcome (option Z * list Z) :=
  find_free_loop (S (Z.to_nat bits)) arr bits 0.

(** ** A mounted volume *)
Record ext2fs := mk_ext2 {
  e_block_size : Z; e_log2_block_size : Z; e_d_blocks_per_block_log2 : Z; e_ptrs_per_block : Z;
  e_ptrs_per_block_log2 : Z; e_ptrs_per_ind_block : Z; e_num_blkgrps : Z }.
Record ext2_state (S : Type) := mk_e2 { e_store : S; e_sb : superblock; e_blkgrps : list blkgrp }.
Arguments mk_e2 {S}. Arguments e_store {S}. Arguments e_sb {S}. Arguments e_blkgrps {S}.

(** [ext2_format_data] is what the driver keeps in [fs_fmt_data], word for word. *)
Definition curr_inode (f : fs_fmt_data) : Z := fmt_parent_dir f.
Definition parent_inode (f : fs_fmt_data) : Z := fmt_dir_flags f.
Definition ext2_format_data (curr parent : Z) : fs_fmt_data := mk_fmt curr parent.

Definition less_free_inodes (sb : superblock) : superblock :=
  mk_sb (sb_inodes_count sb) (sb_blocks_count sb) (sb_r_blocks_count sb) (sb_free_blocks_count sb)
    (sub32 (sb_free_inodes_count sb) 1) (sb_first_data_block sb) (sb_log_block_size sb) (sb_log_frag_size sb)
    (sb_blocks_per_group sb) (sb_frags_per_group sb) (sb_inodes_per_group sb) (sb_mtime sb) (sb_wtime sb)
    (sb_mnt_count sb) (sb_max_mnt_count sb) (sb_magic sb) (sb_state sb) (sb_errors sb) (sb_minor_rev_level sb)
    (sb_lastcheck sb) (sb_checkinterval sb) (sb_creator_os sb) (sb_rev_level sb) (sb_def_resuid sb)
    (sb_def_resgid sb) (sb_first_ino sb) (sb_inode_size sb).
Definition less_free_blocks (sb : superblock) : superblock :=
  mk_sb (sb_inodes_count sb) (sb_blocks_count sb) (sb_r_blocks_count sb) (sub32 (sb_free_blocks_count sb) 1)
    (sb_free_inodes_count sb) (sb_first_data_block sb) (sb_log_block_size sb) (sb_log_frag_size sb)
    (sb_blocks_per_group sb) (sb_frags_per_group sb) (sb_inodes_per_group sb) (sb_mtime sb) (sb_wtime sb)
    (sb_mnt_count sb) (sb_max_mnt_count sb) (sb_magic sb) (sb_state sb) (sb_errors sb) (sb_minor_rev_level sb)
    (sb_lastcheck sb) (sb_checkinterval sb) (sb_creator_os sb) (sb_rev_level sb) (sb_def_resuid sb)
    (sb_def_resgid sb) (sb_first_ino sb) (sb_inode_size sb).
Definition bg_less_inodes (b : blkgrp) : blkgrp :=
  mk_blkgrp (block_bitmap b) (inode_bitmap b) (inode_table b) (bg_free_blocks_count b)
    (u16 (bg_free_inodes_count b - 1)) (bg_used_dirs_count b).
Definition bg_less_blocks (b : blkgrp) : blkgrp :=
  mk_blkgrp (block_bitmap b) (inode_bitmap b) (inode_table b) (u16 (bg_free_blocks_count b - 1))
    (bg_free_inodes_count b) (bg_used_dirs_count b).

(** The fields [allocate_inode] and [allocate_block] work on. *)
Record bitmap_kind := mk_kind {
  bk_bitmap : blkgrp -> Z; bk_count : blkgrp -> Z; bk_less : blkgrp -> blkgrp;
  bk_per_group : superblock -> Z; bk_sb_less : superblock -> superblock }.
Definition inode_kind : bitmap_kind := mk_kind inode_bitmap bg_free_inodes_count bg_less_inodes sb_inodes_per_group less_free_inodes.
Definition block_kind : bitmap_kind := mk_kind block_bitmap bg_free_blocks_count bg_less_blocks sb_blocks_per_group less_free_blocks.

Section ext2.
Context {S : Type} `{block_store S} (fs : ext2fs).
Notation state := (ext2_state S).

Definition e2_read (block offset count : Z) (s : state) : outcome (list Z * state) :=
  '(l, st) ← filesystem_read (shl32 block (e_d_blocks_per_block_log2 fs)) offset count (e_store s);
  Ok (l, mk_e2 st (e_sb s) (e_blkgrps s)).
Definition e2_write (block offset : Z) (data : list Z) (s : state) : outcome state :=
  st ← filesystem_write (shl32 block (e_d_blocks_per_block_log2 fs)) offset data (e_store s);
  Ok (mk_e2 st (e_sb s) (e_blkgrps s)).
Definition read32 (block offset : Z) (s : state) : outcome (Z * state) :=
  '(l, s) ← e2_read block offset 4 s; Ok (le_value l, s).
Definition write32 (block offset value : Z) (s : state) : outcome state := e2_write block offset (le_bytes 4 value) s.

(** The group of an inode and its place in the table; a division by zero is undefined. *)
Definition inode_place (ino : Z) (s : state) : outcome (Z * Z) :=
  let ipg := sb_inodes_per_group (e_sb s) in
  if ipg =? 0 then Fault AssertFailed else
  b ← fetch (e_blkgrps s) (sub32 ino 1 / ipg);
  Ok (inode_table b, mul32 (sub32 ino 1 mod ipg) (sb_inode_size (e_sb s))).
Definition locate_inode (ino : Z) (s : state) : outcome (inode * state) :=
  '(blk, off) ← inode_place ino s;
  '(l, s) ← e2_read blk off sizeof_inode s; Ok (decode_inode l, s).
Definition update_inode (ino : Z) (i : inode) (s : state) : outcome state :=
  '(blk, off) ← inode_place ino s; e2_write blk off (encode_inode i) s.

(** The two allocators are the same code over another bitmap and count: the first
    group with a count that is not 0 and a clear bit. *)
Fixpoint allocate_bit_loop (K : bitmap_kind) (n : nat) (i : Z) (s : state) : outcome (option Z * state) :=
  match n with
  | O => Ok (None, s)
  | Datatypes.S n =>
    b ← fetch (e_blkgrps s) i;
    if bk_count K b =? 0 then allocate_bit_loop K n (i + 1) s else
    '(temp, s) ← e2_read (bk_bitmap K b) 0 (e_block_size fs) s;
    '(bit, temp) ← find_free_and_mark temp (bk_per_group K (e_sb s));
    match bit with
    | Some bit =>
      s ← e2_write (bk_bitmap K b) 0 temp s;
      l ← store (e_blkgrps s) i (bk_less K b);
      Ok (Some (add32 bit (mul32 i (bk_per_group K (e_sb s)))), mk_e2 (e_store s) (bk_sb_less K (e_sb s)) l)
    | None => allocate_bit_loop K n (i + 1) s
    end
  end.
Definition allocate_inode (s : state) : outcome (Z * state) :=
  '(r, s) ← allocate_bit_loop inode_kind (Z.to_nat (e_num_blkgrps fs)) 0 s;
  Ok (match r with Some b => add32 b 1 | None => 0 end, s).
Definition allocate_block (s : state) : outcome (Z * state) :=
  '(r, s) ← allocate_bit_loop block_kind (Z.to_nat (e_num_blkgrps fs)) 0 s;
  Ok (match r with Some b => b | None => 0 end, s).

(** ** Block pointers: [n] counts the blocks of the file *)
Definition ptr (n : Z) : Z := mul32 n 4.
Definition get_block_n (i : inode) (n : Z) (s : state) : outcome (Z * state) :=
  if n <? EXT2_NDIR_BLOCKS then b ← fetch (i_block i) n; Ok (b, s) else
  let n := sub32 n EXT2_NDIR_BLOCKS in
  if n <? e_ptrs_per_block fs then
    b ← fetch (i_block i) EXT2_IND_BLOCK; read32 b (ptr n) s
  else
  let n := sub32 n (e_ptrs_per_block fs) in
  if n <? e_ptrs_per_ind_block fs then
    let i_blk := ptr (Z.shiftr n (e_ptrs_per_block_log2 fs)) in
    let di_blk := ptr (Z.land n (sub32 (e_ptrs_per_block fs) 1)) in
    b ← fetch (i_block i) EXT2_DIND_BLOCK;
    '(blk, s) ← read32 b i_blk s; read32 blk di_blk s
  else
    let n := sub32 n (e_ptrs_per_ind_block fs) in
    let nds := Z.shiftr n (e_ptrs_per_block_log2 fs) in
    let i_blk := ptr (Z.shiftr nds (e_ptrs_per_block_log2 fs)) in
    let di_blk := ptr (Z.land nds (sub32 (e_ptrs_per_block fs) 1)) in
    let ti_blk := ptr (Z.land n (sub32 (e_ptrs_per_block fs) 1)) in
    b ← fetch (i_block i) EXT2_TIND_BLOCK;
    '(blk, s) ← read32 b i_blk s; '(blk, s) ← read32 blk di_blk s; read32 blk ti_blk s.

(** The blocks that hold pointers must exist: [set_block_n] allocates none. *)
Definition set_block_n (i : inode) (n blk : Z) (s : state) : outcome (inode * state) :=
  if n <? EXT2_NDIR_BLOCKS then i ← set_block n blk i; Ok (i, s) else
  let n := sub32 n EXT2_NDIR_BLOCKS in
  if n <? e_ptrs_per_block fs then
    b ← fetch (i_block i) EXT2_IND_BLOCK; s ← write32 b (ptr n) blk s; Ok (i, s)
  else
  let n := sub32 n (e_ptrs_per_block fs) in
  if n <? e_ptrs_per_ind_block fs then
    let i_blk := ptr (Z.shiftr n (e_ptrs_per_block_log2 fs)) in
    let di_blk := ptr (Z.land n (sub32 (e_ptrs_per_block fs) 1)) in
    b ← fetch (i_block i) EXT2_DIND_BLOCK;
    '(b, s) ← read32 b i_blk s; s ← write32 b di_blk blk s; Ok (i, s)
  else
    let n := sub32 n (e_ptrs_per_ind_block fs) in
    let nds := Z.shiftr n (e_ptrs_per_block_log2 fs) in
    let i_blk := ptr (Z.shiftr nds (e_ptrs_per_block_log2 fs)) in
    let di_blk := ptr (Z.land nds (sub32 (e_ptrs_per_block fs) 1)) in
    let ti_blk := ptr (Z.land n (sub32 (e_ptrs_per_block fs) 1)) in
    b ← fetch (i_block i) EXT2_TIND_BLOCK;
    '(b, s) ← read32 b i_blk s; '(b, s) ← read32 b di_blk s; s ← write32 b ti_blk blk s; Ok (i, s).

(** ** Reading and writing a file: the result is the next block, [buf] the bytes. *)
Fixpoint read_blocks_n (n : nat) (inod : inode) (block_num : Z) (s : state) : outcome (list Z * Z * state) :=
  match n with
  | O => Ok ([], block_num, s)
  | Datatypes.S n =>
    '(lba, s) ← get_block_n inod block_num s;
    '(l, s) ← e2_read lba 0 (e_block_size fs) s;
    '(ls, block_num, s) ← read_blocks_n n inod (add32 block_num 1) s;
    Ok (l ++ ls, block_num, s)
  end.
Definition ext2_read (start_cluster offset size : Z) (file : file_data_block) (s : state)
  : outcome (list Z * Z * state) :=
  '(inod, s) ← locate_inode (curr_inode (format_data file)) s;
  let chunks := filesystem_chunkify offset size (sub32 (e_block_size fs) 1) (e_log2_block_size fs) in
  let block_num := add32 start_cluster (start_chunk chunks) in
  '(l1, block_num, s) ← (if negb (start_size chunks =? 0) then
      '(lba, s) ← get_block_n inod block_num s;
      '(l, s) ← e2_read lba (start_offset chunks) (start_size chunks) s;
      Ok (l, add32 block_num 1, s)
    else Ok ([], block_num, s));
  '(l2, block_num, s) ← read_blocks_n (Z.to_nat (num_full_chunks chunks)) inod block_num s;
  '(l3, s) ← (if negb (end_size chunks =? 0) then
      '(lba, s) ← get_block_n inod block_num s; e2_read lba 0 (end_size chunks) s
    else Ok ([], s));
  Ok (l1 ++ l2 ++ l3, block_num, s).

Fixpoint write_blocks_n (n : nat) (inod : inode) (block_num : Z) (buf : list Z) (s : state)
  : outcome (Z * list Z * state) :=
  match n with
  | O => Ok (block_num, buf, s)
  | Datatypes.S n =>
    '(lba, s) ← get_block_n inod block_num s;
    let '(l, rest) := split_at (e_block_size fs) buf in
    s ← e2_write lba 0 l s;
    write_blocks_n n inod (add32 block_num 1) rest s
  end.
Definition ext2_write (buf : list Z) (start_cluster offset : Z) (file : file_data_block) (s : state)
  : outcome (Z * state) :=
  '(inod, s) ← locate_inode (curr_inode (format_data file)) s;
  let chunks := filesystem_chunkify offset (Z.of_nat (length buf)) (sub32 (e_block_size fs) 1) (e_log2_block_size fs) in
  let block_num := add32 start_cluster (start_chunk chunks) in
  '(block_num, buf, s) ← (if negb (start_size chunks =? 0) then
      '(lba, s) ← get_block_n inod block_num s;
      let '(l, rest) := split_at (start_size chunks) buf in
      s ← e2_write lba (start_offset chunks) l s;
      Ok (add32 block_num 1, rest, s)
    else Ok (block_num, buf, s));
  '(block_num, buf, s) ← write_blocks_n (Z.to_nat (num_full_chunks chunks)) inod block_num buf s;
  s ← (if negb (end_size chunks =? 0) then
      '(lba, s) ← get_block_n inod block_num s; e2_write lba 0 (split_at (end_size chunks) buf).1 s
    else Ok s);
  Ok (block_num, s).

(** [for(i = blocks_allocated; i < blocks_needed - blocks_allocated; i++)]. *)
Fixpoint grow_loop (fuel : nat) (inod : inode) (i bound : Z) (s : state) : outcome (inode * state) :=
  match fuel with
  | O => Fault OutOfFuel
  | Datatypes.S fuel =>
    if i <? bound then
      '(b, s) ← allocate_block s;
      '(inod, s) ← set_block_n inod i b s;
      grow_loop fuel inod (add32 i 1) bound s
    else Ok (inod, s)
  end.
Definition blocks_for (size : Z) : Z := Z.shiftr (add32 size (sub32 (e_block_size fs) 1)) (e_log2_block_size fs).
Definition ext2_allocate_blocks (start_block size_in_bytes : Z) (file : file_data_block) (s : state)
  : outcome (Z * state) :=
  '(inod, s) ← locate_inode (curr_inode (format_data file)) s;
  let needed := blocks_for size_in_bytes in
  let allocated := blocks_for (i_size inod) in
  let bound := sub32 needed allocated in
  '(inod, s) ← grow_loop (Datatypes.S (Z.to_nat (bound - allocated))) inod allocated bound s;
  s ← update_inode (curr_inode (format_data file)) inod s;
  Ok (size_in_bytes, s).

(** ** Directories: [id] is the number of the drive, [temp] holds one block. *)
Definition dir_entry (path : list Z) (id dir_inode : Z) (d : dirent) (name : list Z) (child : inode) : file_handle :=
  mk_handle (Some path) name
    (mk_fdb 0 id (i_size child) (if d_file_type d =? EXT2_FT_DIR then IS_DIR else 0)
       (ext2_format_data (d_inode d) dir_inode)) (i_ctime child) (i_mtime child).
(** The fields are read one by one from the buffer; [limit] bounds the entries. *)
Fixpoint read_block_entries (fuel : nat) (id dir_inode : Z) (temp : list Z) (j : Z) (dest : directory_stream) (s : state)
  : outcome (directory_stream * state) :=
  match fuel with
  | O => Fault OutOfFuel
  | Datatypes.S fuel =>
    if j <? e_block_size fs then
      ino ← slice temp j 4; rec_len ← slice temp (j + 4) 2;
      if le_value ino =? 0 then read_block_entries fuel id dir_inode temp (add32 j (le_value rec_len)) dest s else
      '(child, s) ← locate_inode (le_value ino) s;
      rest ← slice temp (j + 6) 2;
      let d := mk_dirent (le_value ino) (le_value rec_len) (field_at rest 0 1) (field_at rest 1 1) in
      name ← slice temp (j + sizeof_dirent) (d_name_len d);
      let dest := mk_dir (full_path dest) (dir_data dest)
        (file_list dest ++ [dir_entry (full_path dest) id dir_inode d name child]) in
      read_block_entries fuel id dir_inode temp (add32 j (d_rec_len d)) dest s
    else Ok (dest, s)
  end.
Fixpoint read_dir_blocks (fuel n : nat) (id dir_inode : Z) (inod : inode) (i : Z) (dest : directory_stream) (s : state)
  : outcome (directory_stream * state) :=
  match n with
  | O => Ok (dest, s)
  | Datatypes.S n =>
    '(blk, s) ← get_block_n inod i s;
    '(temp, s) ← e2_read blk 0 (e_block_size fs) s;
    '(dest, s) ← read_block_entries fuel id dir_inode temp 0 dest s;
    read_dir_blocks fuel n id dir_inode inod (i + 1) dest s
  end.
Definition ext2_read_dir (limit : nat) (dest : directory_stream) (dir : file_data_block) (id : Z) (s : state)
  : outcome (directory_stream * state) :=
  let ino := curr_inode (format_data dir) in
  '(inod, s) ← locate_inode ino s;
  read_dir_blocks limit (Z.to_nat (Z.shiftr (i_size inod) (e_log2_block_size fs))) id ino inod 0 dest s.

(** The last entry of the last block, the one that reaches its end, and its offset;
    [d] is what was read last. *)
Fixpoint last_entry_loop (fuel : nat) (blk j : Z) (d : dirent) (s : state) : outcome (Z * dirent * state) :=
  match fuel with
  | O => Fault OutOfFuel
  | Datatypes.S fuel =>
    if j <? e_block_size fs then
      '(l, s) ← e2_read blk j sizeof_dirent s;
      let d := decode_dirent l in
      if add32 j (d_rec_len d) =? e_block_size fs then Ok (j, d, s)
      else last_entry_loop fuel blk (add32 j (d_rec_len d)) d s
    else Ok (0, d, s)
  end.
Definition get_last_entry_in_dir (limit : nat) (inod : inode) (d : dirent) (s : state) : outcome (Z * dirent * state) :=
  let num_blocks := Z.shiftr (i_size inod) (e_log2_block_size fs) in
  '(blk, s) ← get_block_n inod (sub32 num_blocks 1) s;
  last_entry_loop limit blk 0 d s.

Definition ext2_update_file (file : file_data_block) (s : state) : outcome state :=
  '(inod, s) ← locate_inode (curr_inode (format_data file)) s;
  update_inode (curr_inode (format_data file))
    (set_inode_size (u32 (file_size file)) (u32 (Z.shiftr (file_size file) 32)) inod) s.

Definition new_inode (flags ts : Z) : inode :=
  mk_inode (if has flags IS_DIR then 0x4000 else 0x8000) 0 0 (u32 ts) (u32 ts) (u32 ts) (u32 ts) 0 1 0
    (if has flags IS_READONLY then 0x10 else 0) 0 (repeat 0 15) 0 0 0 0 (repeat 0 12).
(** Where the new entry goes: behind the last one, which is cut to its real size, or at
    the start of a block of its own.  [junk] is the uninitialised entry. *)
Definition entry_place (limit : nat) (junk : dirent) (inod : inode) (dir_ino rec_len : Z) (s : state)
  : outcome (Z * Z * state) :=
  let i_block := Z.shiftr (i_size inod) (e_log2_block_size fs) in
  '(end_offset, last_entry, s) ← (if i_block =? 0 then Ok (0, junk, s) else get_last_entry_in_dir limit inod junk s);
  '(block, s) ← (if i_block =? 0 then Ok (0, s) else get_block_n inod (sub32 i_block 1) s);
  '(end_offset, s) ← (if negb (end_offset =? 0) && negb (d_inode last_entry =? 0) then
      real ← round_up (sizeof_dirent + d_name_len last_entry) 4;
      let real := u16 real in
      if rec_len <=? d_rec_len last_entry - real then
        s ← e2_write block end_offset
              (encode_dirent (mk_dirent (d_inode last_entry) real (d_name_len last_entry) (d_file_type last_entry))) s;
        Ok (add32 end_offset real, s)
      else Ok (0, s)
    else Ok (end_offset, s));
  if end_offset =? 0 then
    '(block, s) ← allocate_block s;
    '(inod, s) ← set_block_n inod i_block block s;
    s ← update_inode dir_ino (set_inode_size (add32 (i_size inod) (e_block_size fs)) (i_dir_acl inod) inod) s;
    Ok (block, 0, s)
  else Ok (block, end_offset, s).
Definition ext2_create_file (limit : nat) (junk : dirent) (ts id : Z) (name : list Z) (flags : Z) (dir : directory_stream) (s : state)
  : outcome (directory_stream * state) :=
  let dir_ino := curr_inode (format_data (dir_data dir)) in
  '(ino, s) ← allocate_inode s;
  let new_file := mk_handle None name (mk_fdb 0 id 0 flags (ext2_format_data ino dir_ino)) ts ts in
  s ← update_inode ino (new_inode flags ts) s;
  '(inod, s) ← locate_inode dir_ino s;
  rec_len ← round_up (add32 sizeof_dirent (Z.of_nat (length name))) 4;
  '(block, end_offset, s) ← entry_place limit junk inod dir_ino (u16 rec_len) s;
  s ← e2_write block end_offset
        (encode_dirent (mk_dirent ino (u16 (sub32 (e_block_size fs) end_offset)) (u8 (Z.of_nat (length name)))
           (if has flags IS_DIR then 2 else 1))) s;
  s ← e2_write block (add32 end_offset sizeof_dirent) name s;
  Ok (mk_dir (full_path dir) (dir_data dir) (file_list dir ++ [new_file]), s).
End ext2.

(** ** The driver table *)
Record ext2_volume (S : Type) := mk_e2vol { ev_fs : option ext2fs; ev_state : ext2_state S }.
Arguments mk_e2vol {S}. Arguments ev_fs {S}. Arguments ev_state {S}.

Section driver.
Context {S : Type} `{block_store S} (block_size : Z) (root_name : Z -> list Z) (now : Z) (junk : dirent) (limit : nat).
Notation volume := (ext2_volume S).

Definition ext2_with {A} (f : ext2fs -> ext2_state S -> outcome (A * ext2_state S)) (v : volume) : outcome (A * volume) :=
  match ev_fs v with
  | None => Fault PageFault
  | Some fs => '(a, s) ← f fs (ev_state v); Ok (a, mk_e2vol (Some fs) s)
  end.

(** The parameters of the volume; shifting by the width of the word or more and dividing
    by zero are undefined, and a block smaller than one of the drive makes a shift by 32. *)
Definition ext2_params (sb : superblock) : outcome ext2fs :=
  if (32 <=? sb_log_block_size sb) || (sb_blocks_per_group sb =? 0) then Fault AssertFailed else
  let bsize := shl32 1024 (sb_log_block_size sb) in
  if bsize <? block_size then Fault AssertFailed else
  let ppb := bsize / 4 in
  Ok (mk_ext2 bsize (countr_zero bsize) (countr_zero (bsize / block_size)) ppb (countr_zero ppb) (mul32 ppb ppb)
        (sub32 (add32 (sb_blocks_count sb) (sb_blocks_per_group sb)) 1 / sb_blocks_per_group sb)).
Definition ext2_mount_disk (id : Z) (v : volume) : outcome (mount_status * file_handle * volume) :=
  if block_size =? 0 then Fault AssertFailed else
  '(l, st) ← filesystem_read (1024 / block_size) (1024 mod block_size) sizeof_superblock (e_store (ev_state v));
  let sb := decode_superblock l in
  if negb (sb_magic sb =? 0xEF53) then
    Ok (MOUNT_FAILURE, mk_handle None [] (mk_fdb 0 0 0 0 (mk_fmt 0 0)) 0 0,
        mk_e2vol (ev_fs v) (mk_e2 st (e_sb (ev_state v)) (e_blkgrps (ev_state v))))
  else
  fs ← ext2_params sb;
  '(l, s) ← e2_read fs (if e_block_size fs =? 1024 then 2 else 1) 0 (mul32 sizeof_blkgrp (e_num_blkgrps fs)) (mk_e2 st sb []);
  let root := mk_handle None (root_name id) (mk_fdb 0 id 0 IS_DIR (ext2_format_data 2 2)) 0 0 in
  Ok (MOUNT_SUCCESS, root,
      mk_e2vol (Some fs) (mk_e2 (e_store s) sb (decode_blkgrps (Z.to_nat (e_num_blkgrps fs)) l))).

Definition ext2_driver : filesystem_driver volume :=
  mk_driver ext2_mount_disk
    (fun location offset n file _ => ext2_with (fun fs s => '(l, _, s) ← ext2_read fs location offset n file s; Ok (l, s)))
    (Some (fun buf location offset file _ v =>
       '(_, v) ← ext2_with (fun fs s => ext2_write fs buf location offset file s) v; Ok v))
    (fun location n file _ => ext2_with (fun fs s => ext2_allocate_blocks fs location n file s))
    (fun dest dir id => ext2_with (fun fs s => ext2_read_dir fs limit dest dir id s))
    (Some (fun file _ v => '(_, v) ← ext2_with (fun fs s => s ← ext2_update_file fs file s; Ok (tt, s)) v; Ok v))
    (Some (fun name flags dir id => ext2_with (fun fs s => ext2_create_file fs limit junk now id name flags dir s)))
    None.
End driver.
