(* ===== verification/Ext2Proofs.v ===== *)
(** * Files of an ext2 volume

    The blocks of a file are one list: the direct ones, then those of the indirect, the
    doubly and the triply indirect block.  [get_block_n] is the list's index function;
    reading and writing a file are reading and writing a part of the bytes of the
    blocks of the list. *)
From S2P Require Import Prelude FsUtil Drives DrivesProofs BlockStore Vfs Ext2.

(** The parameters of a sound volume; [bs] and [cap] are the drive's. *)
Record ext2_geometry (fs : ext2fs) (bs cap : Z) : Prop := {
  x_bs : 0 < bs;
  x_cap : cap < 2 ^ 32;
  x_shift : 0 <= e_d_blocks_per_block_log2 fs;
  x_size : e_block_size fs = bs * 2 ^ e_d_blocks_per_block_log2 fs;
  x_log2 : 10 <= e_log2_block_size fs <= 16 /\ e_block_size fs = 2 ^ e_log2_block_size fs;
  x_ptrs : e_ptrs_per_block fs = 2 ^ e_ptrs_per_block_log2 fs;
  x_ptrs_log2 : e_ptrs_per_block_log2 fs = e_log2_block_size fs - 2;
  x_ind : e_ptrs_per_ind_block fs = e_ptrs_per_block fs * e_ptrs_per_block fs }.

Section volume.
Context {S : Type} `{HB : block_store S} (bs cap : Z) `{HL : !block_store_laws S bs cap}.
Context (fs : ext2fs) (Hg : ext2_geometry fs bs cap).
Notation state := (ext2_state S).
Notation bsz := (e_block_size fs).
Notation ppb := (e_ptrs_per_block fs).

Definition e2_view (s : state) : Z -> Z := bs_view (e_store s).
Definition e2_ok (s : state) : Prop := bs_ok (e_store s).

Lemma ext2_sizes : bsz = 4 * ppb /\ 256 <= ppb <= 16384.
Proof using Hg.
  destruct (x_log2 _ _ _ Hg) as [H1 H2]. rewrite (x_ptrs _ _ _ Hg), (x_ptrs_log2 _ _ _ Hg), H2.
  replace (e_log2_block_size fs) with (2 + (e_log2_block_size fs - 2)) at 1 by lia. rewrite Z.pow_add_r by lia.
  split; [reflexivity|]. split; [apply (Z.pow_le_mono_r 2 8); lia|apply (Z.pow_le_mono_r 2 _ 14); lia].
Qed.

(** ** Single accesses *)
Definition e2_same (s s' : state) : Prop :=
  e2_ok s' /\ same_fun (e2_view s) (e2_view s') /\ e_sb s' = e_sb s /\ e_blkgrps s' = e_blkgrps s.
Definition e2_wrote (a : Z) (buf : list Z) (s s' : state) : Prop :=
  e2_ok s' /\ stored_at a buf (e2_view s) (e2_view s') /\ e_sb s' = e_sb s /\ e_blkgrps s' = e_blkgrps s.

Lemma e2_same_refl s : e2_ok s -> e2_same s s.
Proof using. intros H. split; [exact H|]. split; [intros a; reflexivity|]. split; reflexivity. Qed.
Lemma e2_same_trans s1 s2 s3 : e2_same s1 s2 -> e2_same s2 s3 -> e2_same s1 s3.
Proof using.
  intros (H1 & H2 & H3 & H4) (H5 & H6 & H7 & H8). split; [exact H5|]. split; [intros a; rewrite (H6 a); apply H2|].
  split; congruence.
Qed.

(** A block whose bytes from [off] on are on the drive. *)
Definition in_reach (block off n : Z) : Prop := 0 <= block /\ 0 <= off /\ 0 <= n < 2 ^ 32 /\ block * bsz + off + n <= cap * bs.
Definition on_drive (block : Z) : Prop := 0 <= block /\ (block + 1) * bsz <= cap * bs.

Lemma on_drive_reach block off n : on_drive block -> 0 <= off -> 0 <= n -> off + n <= bsz -> in_reach block off n.
Proof using Hg. intros [H1 H2] Ho Hn Hle. destruct ext2_sizes. unfold in_reach. lia. Qed.

Lemma reach_block block off n : in_reach block off n ->
  shl32 block (e_d_blocks_per_block_log2 fs) = block * 2 ^ e_d_blocks_per_block_log2 fs
  /\ block * 2 ^ e_d_blocks_per_block_log2 fs * bs = block * bsz.
Proof using Hg.
  intros (H1 & H2 & H3 & H4). pose proof (x_bs _ _ _ Hg). pose proof (x_cap _ _ _ Hg). pose proof (x_shift _ _ _ Hg) as Hk.
  rewrite (x_size _ _ _ Hg) in *. assert (0 < 2 ^ e_d_blocks_per_block_log2 fs) by (apply Z.pow_pos_nonneg; lia).
  split; [|lia]. unfold shl32. rewrite Z.shiftl_mul_pow2 by lia. apply u32_small. split; [apply Z.mul_nonneg_nonneg; lia|].
  apply Z.le_lt_trans with cap; [|lia]. apply (Z.mul_le_mono_pos_r _ _ bs); lia.
Qed.

Lemma e2_read_spec s block off n : e2_ok s -> in_reach block off n ->
  exists s', e2_read fs block off n s = Ok (map (e2_view s) (seqZ (block * bsz + off) n), s') /\ e2_same s s'.
Proof using HL Hg.
  intros Hok Hr. destruct (reach_block _ _ _ Hr) as [E1 E2]. destruct Hr as (H1 & H2 & H3 & H4). unfold e2_read. rewrite E1.
  assert (0 < 2 ^ e_d_blocks_per_block_log2 fs) by (apply Z.pow_pos_nonneg; [lia|apply (x_shift _ _ _ Hg)]).
  destruct (bs_read_law (e_store s) (block * 2 ^ e_d_blocks_per_block_log2 fs) off n Hok) as (st & E & Hok' & Hv);
    [apply Z.mul_nonneg_nonneg; lia|lia|lia|lia|].
  rewrite (bind_Ok_l _ _ _ E), E2. eexists. split; [reflexivity|]. split; [exact Hok'|]. split; [exact Hv|split; reflexivity].
Qed.

Lemma e2_write_spec s block off buf : e2_ok s -> in_reach block off (Z.of_nat (length buf)) ->
  exists s', e2_write fs block off buf s = Ok s' /\ e2_wrote (block * bsz + off) buf s s'.
Proof using HL Hg.
  intros Hok Hr. destruct (reach_block _ _ _ Hr) as [E1 E2]. destruct Hr as (H1 & H2 & H3 & H4). unfold e2_write. rewrite E1.
  assert (0 < 2 ^ e_d_blocks_per_block_log2 fs) by (apply Z.pow_pos_nonneg; [lia|apply (x_shift _ _ _ Hg)]).
  destruct (bs_write_law (e_store s) (block * 2 ^ e_d_blocks_per_block_log2 fs) off buf Hok) as (st & E & Hok' & Hv);
    [apply Z.mul_nonneg_nonneg; lia|lia|lia|lia|].
  rewrite (bind_Ok_l _ _ _ E). eexists. split; [reflexivity|]. split; [exact Hok'|]. rewrite E2 in Hv. split; [exact Hv|split; reflexivity].
Qed.

Definition word (f : Z -> Z) (a : Z) : Z := le_value (map f (seqZ a 4)).
Lemma word_ext f g a : (forall x, a <= x < a + 4 -> g x = f x) -> word g a = word f a.
Proof using.
  intros H. unfold word. f_equal. apply list_fmap_ext. intros i x Hx. apply lookup_seqZ in Hx as [-> Hx]. apply H. lia.
Qed.

Lemma read32_spec s block off : e2_ok s -> in_reach block off 4 ->
  exists s', read32 fs block off s = Ok (word (e2_view s) (block * bsz + off), s') /\ e2_same s s'.
Proof using HL Hg.
  intros Hok Hr. destruct (e2_read_spec s block off 4 Hok Hr) as (s' & E & Hs). unfold read32. rewrite (bind_Ok_l _ _ _ E).
  exists s'. split; [reflexivity|exact Hs].
Qed.

(** ** The blocks of a file *)
Definition ptrs_at (f : Z -> Z) (b : Z) : list Z := map (fun k => word f (b * bsz + 4 * k)) (seqZ 0 ppb).
Definition inode_blocks (f : Z -> Z) (i : inode) : list Z :=
  let level b := flat_map (ptrs_at f) b in
  let at_ n := nth n (i_block i) 0 in
  take 12 (i_block i) ++ ptrs_at f (at_ 12%nat) ++ level (ptrs_at f (at_ 13%nat)) ++ level (level (ptrs_at f (at_ 14%nat))).
Definition block_of (f : Z -> Z) (i : inode) (n : Z) : Z := nth (Z.to_nat n) (inode_blocks f i) 0.
Definition max_blocks : Z := 12 + ppb + ppb * ppb + ppb * ppb * ppb.

(** The pointer blocks that lead to block [n], from the inode on. *)
Definition pointer_blocks (f : Z -> Z) (i : inode) (n : Z) : list Z :=
  let at_ n := nth n (i_block i) 0 in
  if n <? 12 then [] else
  let n := n - 12 in
  if n <? ppb then [at_ 12%nat] else
  let n := n - ppb in
  if n <? ppb * ppb then [at_ 13%nat; word f (at_ 13%nat * bsz + 4 * (n / ppb))] else
  let n := n - ppb * ppb in
  let x := word f (at_ 14%nat * bsz + 4 * (n / ppb / ppb)) in
  [at_ 14%nat; x; word f (x * bsz + 4 * (n / ppb mod ppb))].

(** Pieces of equal length: the index of an element. *)
Lemma nth_flat_map {A B} (g : A -> list B) (q : nat) (l : list A) (da : A) (db : B) n : (0 < q)%nat ->
  (forall x, length (g x) = q) -> (n < length l * q)%nat -> nth n (flat_map g l) db = nth (n mod q) (g (nth (n / q) l da)) db.
Proof using.
  intros Hq Hlen. revert n. induction l as [|a l IH]; intros n Hn; [cbn in Hn; lia|]. cbn [flat_map].
  destruct (Nat.lt_ge_cases n q) as [H|H].
  - rewrite app_nth1 by (rewrite Hlen; lia). rewrite Nat.div_small, Nat.mod_small by lia. reflexivity.
  - rewrite app_nth2, Hlen by (rewrite Hlen; lia). cbn [length] in Hn. rewrite IH by lia.
    replace n with ((n - q) + 1 * q)%nat at 3 4 by lia. rewrite Nat.div_add, Nat.Div0.mod_add by lia.
    rewrite Nat.add_1_r. reflexivity.
Qed.

Lemma ptrs_at_length f b : length (ptrs_at f b) = Z.to_nat ppb.
Proof using. unfold ptrs_at. rewrite length_map, length_seqZ. reflexivity. Qed.
Lemma nth_ptrs_at f b n : 0 <= n < ppb -> nth (Z.to_nat n) (ptrs_at f b) 0 = word f (b * bsz + 4 * n).
Proof using.
  intros Hn. unfold ptrs_at. apply nth_lookup_Some with (d := 0). rewrite list_lookup_fmap, lookup_seqZ_lt by lia.
  cbn. do 3 f_equal. lia.
Qed.
Lemma flat_map_length {A B} (g : A -> list B) q l : (forall x, length (g x) = q) -> length (flat_map g l) = (length l * q)%nat.
Proof using. intros H. induction l as [|a l IH]; [reflexivity|]. cbn [flat_map length]. rewrite length_app, H, IH. lia. Qed.

Lemma nth_level f l n : 0 <= n < Z.of_nat (length l) * ppb -> 0 < ppb ->
  nth (Z.to_nat n) (flat_map (ptrs_at f) l) 0 = word f (nth (Z.to_nat (n / ppb)) l 0 * bsz + 4 * (n mod ppb)).
Proof using.
  intros Hn Hp. rewrite (nth_flat_map (ptrs_at f) (Z.to_nat ppb) l 0 0) by (lia || apply ptrs_at_length || lia).
  rewrite <- Z2Nat.inj_mod, <- Z2Nat.inj_div by lia. apply nth_ptrs_at. apply Z.mod_pos_bound. lia.
Qed.

(** Block [n] is direct, or the word at its place in the last of its pointer blocks. *)
Definition slot_index (n : Z) : Z :=
  let n := n - 12 in
  if n <? ppb then n else let n := n - ppb in if n <? ppb * ppb then n mod ppb else (n - ppb * ppb) mod ppb.
Definition slot (f : Z -> Z) (i : inode) (n : Z) : Z := List.last (pointer_blocks f i n) 0 * bsz + 4 * slot_index n.

Lemma block_of_direct f i n : length (i_block i) = 15%nat -> 0 <= n < 12 -> block_of f i n = nth (Z.to_nat n) (i_block i) 0.
Proof using.
  intros Hl Hn. unfold block_of, inode_blocks. rewrite app_nth1 by (rewrite length_take; lia).
  destruct (lookup_lt_is_Some_2 (i_block i) (Z.to_nat n) ltac:(lia)) as [x Hx].
  rewrite (nth_lookup_Some _ _ 0 x Hx). apply nth_lookup_Some. rewrite lookup_take_lt by lia. exact Hx.
Qed.

Lemma nth_app_Z (l1 l2 : list Z) n k : Z.of_nat (length l1) = k -> k <= n ->
  nth (Z.to_nat n) (l1 ++ l2) 0 = nth (Z.to_nat (n - k)) l2 0.
Proof using. intros E H. rewrite app_nth2 by lia. f_equal. lia. Qed.
Lemma nth_app_Z_l (l1 l2 : list Z) n k : Z.of_nat (length l1) = k -> 0 <= n < k ->
  nth (Z.to_nat n) (l1 ++ l2) 0 = nth (Z.to_nat n) l1 0.
Proof using. intros E H. apply app_nth1. lia. Qed.

Lemma block_of_slot f i n : length (i_block i) = 15%nat -> 12 <= n < max_blocks -> block_of f i n = word f (slot f i n).
Proof using Hg.
  intros Hl Hn. destruct ext2_sizes as [E Hp]. unfold max_blocks in Hn. unfold block_of, inode_blocks, slot, pointer_blocks, slot_index. cbv zeta.
  rewrite (proj2 (Z.ltb_ge n 12)) by lia. rewrite (nth_app_Z _ _ n 12) by (rewrite ?length_take; lia).
  set (m := n - 12) in *.
  assert (L : forall b, Z.of_nat (length (ptrs_at f b)) = ppb) by (intros b; rewrite ptrs_at_length; lia).
  assert (L2 : forall b, Z.of_nat (length (flat_map (ptrs_at f) (ptrs_at f b))) = ppb * ppb)
    by (intros b; rewrite (flat_map_length _ (Z.to_nat ppb)) by apply ptrs_at_length; rewrite ptrs_at_length; lia).
  destruct (Z.ltb_spec m ppb) as [H1|H1].
  { rewrite (nth_app_Z_l _ _ m ppb) by (apply L || lia). rewrite nth_ptrs_at by lia. reflexivity. }
  rewrite (nth_app_Z _ _ m ppb) by (apply L || lia). set (k := m - ppb) in *.
  destruct (Z.ltb_spec k (ppb * ppb)) as [H2|H2].
  { rewrite (nth_app_Z_l _ _ k (ppb * ppb)) by (apply L2 || lia). rewrite nth_level by (rewrite ?L; lia).
    rewrite nth_ptrs_at by (split; [apply Z.div_pos; lia|apply Z.div_lt_upper_bound; lia]). reflexivity. }
  rewrite (nth_app_Z _ _ k (ppb * ppb)) by (apply L2 || lia). set (j := k - ppb * ppb) in *.
  assert (Hj : 0 <= j / ppb < ppb * ppb) by (split; [apply Z.div_pos; lia|apply Z.div_lt_upper_bound; lia]).
  assert (Hjj : 0 <= j / ppb / ppb < ppb) by (split; [apply Z.div_pos; lia|apply Z.div_lt_upper_bound; lia]).
  rewrite nth_level by (rewrite ?L2; lia). rewrite nth_level by (rewrite ?L; lia). rewrite nth_ptrs_at by lia. reflexivity.
Qed.

Lemma ptr_small n : 0 <= n < 2 ^ 30 -> ptr n = 4 * n.
Proof using. intros H. unfold ptr. rewrite mul32_small by lia. lia. Qed.

Lemma ptr_div n : 0 <= n < 2 ^ 32 -> Z.shiftr n (e_ptrs_per_block_log2 fs) = n / ppb /\
  ptr (Z.land n (sub32 ppb 1)) = 4 * (n mod ppb).
Proof using Hg.
  intros Hn. destruct ext2_sizes as [E Hp]. destruct (x_log2 _ _ _ Hg) as [G1 _]. pose proof (x_ptrs_log2 _ _ _ Hg) as G2.
  rewrite Z.shiftr_div_pow2, <- (x_ptrs _ _ _ Hg) by lia. split; [reflexivity|]. rewrite sub32_small by lia.
  rewrite (x_ptrs _ _ _ Hg) at 1. rewrite land_low_mask by lia. rewrite <- (x_ptrs _ _ _ Hg).
  pose proof (Z.mod_pos_bound n ppb ltac:(lia)). apply ptr_small. lia.
Qed.

(** The pointer blocks of [n] are on the drive. *)
Definition reachable (f : Z -> Z) (i : inode) (n : Z) : Prop := Forall on_drive (pointer_blocks f i n).

Lemma read_ptr s b k : e2_ok s -> on_drive b -> 0 <= k < ppb ->
  exists s', read32 fs b (4 * k) s = Ok (word (e2_view s) (b * bsz + 4 * k), s') /\ e2_same s s'.
Proof using HL Hg.
  intros Hok Hb Hk. destruct ext2_sizes as [E Hp]. apply read32_spec; [exact Hok|]. apply on_drive_reach; [exact Hb|lia..].
Qed.

Lemma e2_same_word s s' a : e2_same s s' -> word (e2_view s') a = word (e2_view s) a.
Proof using. intros (_ & Hv & _). apply word_ext. intros x _. apply Hv. Qed.

Lemma fetch_block i n : length (i_block i) = 15%nat -> 0 <= n < 15 -> fetch (i_block i) n = Ok (nth (Z.to_nat n) (i_block i) 0).
Proof using.
  intros Hl Hn. destruct (lookup_lt_is_Some_2 (i_block i) (Z.to_nat n) ltac:(lia)) as [x Hx].
  rewrite (nth_lookup_Some _ _ 0 x Hx). apply fetch_Ok; [lia|exact Hx].
Qed.

Lemma get_block_n_spec s i n : e2_ok s -> length (i_block i) = 15%nat -> 0 <= n < max_blocks -> n < 2 ^ 32 ->
  reachable (e2_view s) i n ->
  exists s', get_block_n fs i n s = Ok (block_of (e2_view s) i n, s') /\ e2_same s s'.
Proof using HL Hg.
  intros Hok Hl Hn Hw Hr. destruct ext2_sizes as [E Hp]. unfold get_block_n. change EXT2_NDIR_BLOCKS with 12.
  destruct (Z.ltb_spec n 12) as [H0|H0].
  { rewrite (bind_Ok_l _ _ _ (fetch_block i n Hl ltac:(lia))), <- (block_of_direct (e2_view s)) by lia.
    exists s. split; [reflexivity|apply e2_same_refl, Hok]. }
  rewrite (block_of_slot (e2_view s) i n Hl) by lia. unfold reachable, slot, slot_index, pointer_blocks, max_blocks in *. cbv zeta in *.
  rewrite (proj2 (Z.ltb_ge n 12)) in * by lia. rewrite sub32_small by lia. set (m := n - 12) in *.
  destruct (Z.ltb_spec m ppb) as [H1|H1].
  { rewrite (bind_Ok_l _ _ _ (fetch_block i EXT2_IND_BLOCK Hl ltac:(cbv; split; congruence))), ptr_small by lia.
    apply Forall_cons in Hr as [Hr _]. exact (read_ptr s _ m Hok Hr ltac:(lia)). }
  rewrite sub32_small by lia. set (k := m - ppb) in *. rewrite (x_ind _ _ _ Hg).
  destruct (Z.ltb_spec k (ppb * ppb)) as [H2|H2].
  { destruct (ptr_div k ltac:(lia)) as [D1 D2]. rewrite D1, D2.
    assert (Hk : 0 <= k / ppb < ppb) by (split; [apply Z.div_pos; lia|apply Z.div_lt_upper_bound; lia]).
    rewrite (bind_Ok_l _ _ _ (fetch_block i EXT2_DIND_BLOCK Hl ltac:(cbv; split; congruence))), ptr_small by lia.
    apply Forall_cons in Hr as [Hr1 Hr]. apply Forall_cons in Hr as [Hr2 _].
    destruct (read_ptr s _ (k / ppb) Hok Hr1 Hk) as (s1 & E1 & S1). rewrite (bind_Ok_l _ _ _ E1).
    destruct (read_ptr s1 _ (k mod ppb) (proj1 S1) Hr2 ltac:(apply Z.mod_pos_bound; lia)) as (s2 & E2 & S2).
    rewrite (e2_same_word _ _ _ S1) in E2. exists s2. split; [exact E2|exact (e2_same_trans _ _ _ S1 S2)]. }
  rewrite sub32_small by lia. set (j := k - ppb * ppb) in *.
  assert (Hj : 0 <= j / ppb < ppb * ppb) by (split; [apply Z.div_pos; lia|apply Z.div_lt_upper_bound; lia]).
  assert (Hjj : 0 <= j / ppb / ppb < ppb) by (split; [apply Z.div_pos; lia|apply Z.div_lt_upper_bound; lia]).
  destruct (ptr_div j ltac:(lia)) as [D1 D2]. rewrite D1, D2. destruct (ptr_div (j / ppb) ltac:(lia)) as [D3 D4]. rewrite D3, D4.
  rewrite (bind_Ok_l _ _ _ (fetch_block i EXT2_TIND_BLOCK Hl ltac:(cbv; split; congruence))), ptr_small by lia.
  apply Forall_cons in Hr as [Hr1 Hr]. apply Forall_cons in Hr as [Hr2 Hr]. apply Forall_cons in Hr as [Hr3 _].
  destruct (read_ptr s _ (j / ppb / ppb) Hok Hr1 Hjj) as (s1 & E1 & S1). rewrite (bind_Ok_l _ _ _ E1).
  destruct (read_ptr s1 _ (j / ppb mod ppb) (proj1 S1) Hr2 ltac:(apply Z.mod_pos_bound; lia)) as (s2 & E2 & S2).
  rewrite (e2_same_word _ _ _ S1) in E2. rewrite (bind_Ok_l _ _ _ E2). pose proof (e2_same_trans _ _ _ S1 S2) as S12.
  destruct (read_ptr s2 _ (j mod ppb) (proj1 S2) Hr3 ltac:(apply Z.mod_pos_bound; lia)) as (s3 & E3 & S3).
  rewrite (e2_same_word _ _ _ S12) in E3. exists s3. split; [exact E3|exact (e2_same_trans _ _ _ S12 S3)].
Qed.

(** The blocks of a file depend on the bytes of its pointer blocks only. *)
Lemma pointer_blocks_ext f g i n : 0 <= n < max_blocks ->
  (forall b x, b ∈ pointer_blocks f i n -> b * bsz <= x < (b + 1) * bsz -> g x = f x) ->
  pointer_blocks g i n = pointer_blocks f i n /\ (length (i_block i) = 15%nat -> block_of g i n = block_of f i n).
Proof using Hg.
  intros Hn H. destruct ext2_sizes as [E Hp]. unfold max_blocks in Hn.
  assert (W : forall b k, b ∈ pointer_blocks f i n -> 0 <= k < ppb -> word g (b * bsz + 4 * k) = word f (b * bsz + 4 * k)).
  { intros b k Hb Hk. apply word_ext. intros x Hx. apply (H b x Hb). lia. }
  enough (pointer_blocks g i n = pointer_blocks f i n /\
    (12 <= n -> word g (slot f i n) = word f (slot f i n))) as [E1 E2].
  { split; [exact E1|]. intros Hl. destruct (Z.lt_ge_cases n 12).
    - rewrite !block_of_direct by lia. reflexivity.
    - rewrite !block_of_slot by (unfold max_blocks; lia). unfold slot at 1. rewrite E1. fold (slot f i n). apply E2. lia. }
  unfold slot, slot_index, pointer_blocks in *. cbv zeta in *. destruct (Z.ltb_spec n 12) as [H0|H0]; [split; [reflexivity|lia]|].
  set (m := n - 12) in *. destruct (Z.ltb_spec m ppb) as [H1|H1]; [split; [reflexivity|]; intros _; apply W; [left|lia]|].
  set (k := m - ppb) in *. destruct (Z.ltb_spec k (ppb * ppb)) as [H2|H2].
  { assert (Hk : 0 <= k / ppb < ppb) by (split; [apply Z.div_pos; lia|apply Z.div_lt_upper_bound; lia]).
    pose proof (Z.mod_pos_bound k ppb ltac:(lia)). split.
    - do 2 f_equal. apply W; [left|lia].
    - intros _. apply W; [right; left|lia]. }
  set (j := k - ppb * ppb) in *.
  assert (Hj : 0 <= j / ppb < ppb * ppb) by (split; [apply Z.div_pos; lia|apply Z.div_lt_upper_bound; lia]).
  assert (Hjj : 0 <= j / ppb / ppb < ppb) by (split; [apply Z.div_pos; lia|apply Z.div_lt_upper_bound; lia]).
  pose proof (Z.mod_pos_bound (j / ppb) ppb ltac:(lia)). pose proof (Z.mod_pos_bound j ppb ltac:(lia)).
  assert (W1 := W (nth 14 (i_block i) 0) (j / ppb / ppb) ltac:(left) Hjj).
  assert (W2 := W (word f (nth 14 (i_block i) 0 * bsz + 4 * (j / ppb / ppb))) (j / ppb mod ppb) ltac:(right; left) ltac:(lia)).
  rewrite W1, W2. split; [reflexivity|]. intros _. apply W; [right; right; left|lia].
Qed.

(** The first [n] blocks of a file and what leads to them are on the drive. *)
Definition covers (f : Z -> Z) (i : inode) (n : Z) : Prop :=
  length (i_block i) = 15%nat /\ n <= max_blocks /\ n < 2 ^ 32 /\
  forall k, 0 <= k < n -> reachable f i k /\ on_drive (block_of f i k).

Lemma block_of_same s s' i k n : e2_same s s' -> covers (e2_view s) i n -> 0 <= k < n ->
  pointer_blocks (e2_view s') i k = pointer_blocks (e2_view s) i k /\ block_of (e2_view s') i k = block_of (e2_view s) i k.
Proof using Hg.
  intros (_ & Hv & _) (Hl & Hm & _) Hk. destruct (pointer_blocks_ext (e2_view s) (e2_view s') i k ltac:(lia)) as [E1 E2].
  - intros b x _ _. apply Hv.
  - split; [exact E1|exact (E2 Hl)].
Qed.

Lemma covers_same s s' i n : e2_same s s' -> covers (e2_view s) i n -> covers (e2_view s') i n.
Proof using Hg.
  intros Hs Hc. pose proof Hc as (H1 & H2 & H3 & H4). split; [exact H1|]. split; [exact H2|]. split; [exact H3|].
  intros k Hk. destruct (block_of_same s s' i k n Hs Hc Hk) as [E1 E2]. unfold reachable. rewrite E1, E2. exact (H4 k Hk).
Qed.

Lemma chunk_block s i n k : e2_ok s -> covers (e2_view s) i n -> 0 <= k < n ->
  exists s', get_block_n fs i k s = Ok (block_of (e2_view s) i k, s') /\ e2_same s s'.
Proof using HL Hg.
  intros Hok (Hl & Hm & Hw & Hc) Hk. destruct (Hc k Hk) as [Hr _]. exact (get_block_n_spec s i k Hok Hl ltac:(lia) ltac:(lia) Hr).
Qed.

(** ** Reading *)
Definition file_base (f : Z -> Z) (i : inode) (k : Z) : Z := block_of f i k * bsz.
Definition file_addr (f : Z -> Z) (i : inode) : Z -> Z := chunk_addr bsz (file_base f i).

Lemma file_base_same s s' i k n : e2_same s s' -> covers (e2_view s) i n -> 0 <= k < n ->
  file_base (e2_view s') i k = file_base (e2_view s) i k.
Proof using Hg. intros Hs Hc Hk. unfold file_base. now rewrite (proj2 (block_of_same s s' i k n Hs Hc Hk)). Qed.

Lemma chunk_read s i n k o len : e2_ok s -> covers (e2_view s) i n -> 0 <= k < n -> 0 <= o -> 0 <= len -> o + len <= bsz ->
  exists s1 s2, get_block_n fs i k s = Ok (block_of (e2_view s) i k, s1) /\
    e2_read fs (block_of (e2_view s) i k) o len s1 = Ok (map (e2_view s) (seqZ (file_base (e2_view s) i k + o) len), s2) /\ e2_same s s2.
Proof using HL Hg.
  intros Hok Hc Hk Ho Hl Hle. destruct (chunk_block s i n k Hok Hc Hk) as (s1 & E1 & S1).
  destruct Hc as (_ & _ & _ & Hc). destruct (Hc k Hk) as [_ Hd].
  destruct (e2_read_spec s1 (block_of (e2_view s) i k) o len (proj1 S1) (on_drive_reach _ _ _ Hd Ho Hl Hle)) as (s2 & E2 & S2).
  exists s1, s2. split; [exact E1|]. split; [|exact (e2_same_trans _ _ _ S1 S2)]. rewrite E2. do 2 f_equal.
  apply map_ext. intros a. apply S1.
Qed.

Lemma read_blocks_n_spec i n c : forall s k, e2_ok s -> covers (e2_view s) i n -> 0 <= k -> k + Z.of_nat c <= n ->
  exists s', read_blocks_n fs c i k s
    = Ok (concat (map (fun j => map (e2_view s) (seqZ (file_base (e2_view s) i j) bsz)) (seqZ k (Z.of_nat c))), k + Z.of_nat c, s')
  /\ e2_same s s'.
Proof using HL Hg.
  destruct ext2_sizes as [E Hp]. induction c as [|c IH]; intros s k Hok Hc Hk Hn.
  - exists s. cbn. rewrite Z.add_0_r. split; [reflexivity|apply e2_same_refl, Hok].
  - cbn [read_blocks_n]. destruct (chunk_read s i n k 0 bsz Hok Hc ltac:(lia) ltac:(lia) ltac:(lia) ltac:(lia)) as (s1 & s2 & E1 & E2 & S2).
    rewrite (bind_Ok_l _ _ _ E1), (bind_Ok_l _ _ _ E2). assert (Hw : n < 2 ^ 32) by apply Hc. rewrite add32_small by lia.
    destruct (IH s2 (k + 1) (proj1 S2) (covers_same _ _ _ _ S2 Hc) ltac:(lia) ltac:(lia)) as (s3 & E3 & S3).
    rewrite (bind_Ok_l _ _ _ E3). exists s3. split; [|exact (e2_same_trans _ _ _ S2 S3)].
    rewrite (seqZ_cons k) by lia. cbn [map concat]. rewrite Z.add_0_r.
    replace (Z.pred (Z.of_nat (Datatypes.S c))) with (Z.of_nat c) by lia. rewrite <- Z.add_1_r.
    replace (k + 1 + Z.of_nat c) with (k + Z.of_nat (Datatypes.S c)) by lia. do 5 f_equal.
    apply map_ext_in. intros j Hj. apply list_elem_of_In, elem_of_seqZ in Hj.
    rewrite (file_base_same s s2 i j n S2 Hc) by lia. apply map_ext. intros a. apply S2.
Qed.

(** Where the inode [ino] is: its byte address. *)
Definition inode_on (s : state) (ino a : Z) : Prop :=
  exists t off, inode_place ino s = Ok (t, off) /\ a = t * bsz + off /\ in_reach t off sizeof_inode.
Definition inode_at (f : Z -> Z) (a : Z) : inode := decode_inode (map f (seqZ a sizeof_inode)).

Lemma locate_inode_spec s ino a : e2_ok s -> inode_on s ino a ->
  exists s', locate_inode fs ino s = Ok (inode_at (e2_view s) a, s') /\ e2_same s s'.
Proof using HL Hg.
  intros Hok (t & off & E & -> & Hr). unfold locate_inode. rewrite (bind_Ok_l _ _ _ E).
  destruct (e2_read_spec s t off sizeof_inode Hok Hr) as (s' & E' & S'). rewrite (bind_Ok_l _ _ _ E').
  exists s'. split; [reflexivity|exact S'].
Qed.

Lemma chunks_of offset len n : 0 <= offset -> 0 <= len < 2 ^ 32 -> offset + len <= n * bsz -> n < 2 ^ 32 ->
  chunks_ok offset len bsz (filesystem_chunkify offset len (sub32 bsz 1) (e_log2_block_size fs)).
Proof using Hg.
  intros Ho Hl Hle Hn. destruct ext2_sizes as [E Hp]. rewrite sub32_small by lia. destruct (x_log2 _ _ _ Hg) as [G1 G2]. rewrite G2 in *.
  apply chunkify_ok; try lia. rewrite Z.pow_add_r by lia. apply Z.le_lt_trans with (1 := Hle). apply Z.mul_lt_mono_pos_r; lia.
Qed.

(** The first and the last piece, seen from the state [s] the call started in. *)
Lemma read_start_spec s s0 i n k o len : e2_same s s0 -> covers (e2_view s) i n -> 0 <= k < n -> 0 <= o -> 0 <= len -> o + len <= bsz ->
  exists s1, (if negb (len =? 0) then
      '(lba, s) ← get_block_n fs i k s0; '(l, s) ← e2_read fs lba o len s; Ok (l, add32 k 1, s)
    else Ok ([], k, s0))
  = Ok (map (e2_view s) (seqZ (file_base (e2_view s) i k + o) len), k + (if len =? 0 then 0 else 1), s1) /\ e2_same s s1.
Proof using HL Hg.
  intros S0 Hc Hk Ho Hl Hle. destruct (Z.eqb_spec len 0) as [->|Z0]; cbn [negb].
  - rewrite Z.add_0_r. exists s0. split; [reflexivity|exact S0].
  - destruct (chunk_read s0 i n k o len (proj1 S0) (covers_same _ _ _ _ S0 Hc) Hk Ho Hl Hle) as (s1 & s2 & E1 & E2 & S2).
    rewrite (bind_Ok_l _ _ _ E1), (bind_Ok_l _ _ _ E2). assert (n < 2 ^ 32) by apply Hc. rewrite add32_small by lia. exists s2.
    split; [|exact (e2_same_trans _ _ _ S0 S2)]. rewrite (file_base_same s s0 i _ n S0 Hc) by lia. do 3 f_equal.
    apply map_ext. intros x. apply S0.
Qed.

Lemma read_end_spec s s0 i n k len : e2_same s s0 -> covers (e2_view s) i n -> (0 < len -> 0 <= k < n) -> 0 <= len <= bsz ->
  exists s1, (if negb (len =? 0) then '(lba, s) ← get_block_n fs i k s0; e2_read fs lba 0 len s else Ok ([], s0))
  = Ok (map (e2_view s) (seqZ (file_base (e2_view s) i k) len), s1) /\ e2_same s s1.
Proof using HL Hg.
  intros S0 Hc Hk Hl. destruct (Z.eqb_spec len 0) as [->|Z0]; cbn [negb].
  - exists s0. split; [reflexivity|exact S0].
  - destruct (chunk_read s0 i n k 0 len (proj1 S0) (covers_same _ _ _ _ S0 Hc) ltac:(lia) ltac:(lia) ltac:(lia) ltac:(lia)) as (s1 & s2 & E1 & E2 & S2).
    rewrite (bind_Ok_l _ _ _ E1), E2. exists s2. split; [|exact (e2_same_trans _ _ _ S0 S2)].
    rewrite Z.add_0_r, (file_base_same s s0 i _ n S0 Hc) by lia. do 2 f_equal. apply map_ext. intros x. apply S0.
Qed.

Lemma ext2_read_spec s a n offset size file : e2_ok s -> inode_on s (curr_inode (format_data file)) a ->
  covers (e2_view s) (inode_at (e2_view s) a) n -> 0 <= offset -> 0 < size < 2 ^ 32 -> offset + size <= n * bsz ->
  exists c s', ext2_read fs 0 offset size file s
    = Ok (map (fun i => e2_view s (file_addr (e2_view s) (inode_at (e2_view s) a) i)) (seqZ offset size), c, s') /\ e2_same s s'.
Proof using HL Hg.
  intros Hok Hi Hc Ho Hs Hle. destruct ext2_sizes as [E Hp]. set (i := inode_at (e2_view s) a) in *. pose proof Hc as (_ & _ & Hw & _).
  destruct (locate_inode_spec s _ a Hok Hi) as (s0 & E0 & S0). fold i in E0. unfold ext2_read. rewrite (bind_Ok_l _ _ _ E0).
  pose proof (chunks_of offset size n Ho ltac:(lia) Hle Hw) as Hk. cbv zeta. set (c := filesystem_chunkify _ _ _ _) in *.
  destruct (transfer_bound bsz ltac:(lia) offset size n c Hk Ho ltac:(lia) Hle) as (B1 & B2 & B3).
  pose proof Hk as [K1 K2 K3 K4 K5 K6 K7].
  assert (O1 : 0 <= start_offset c) by (rewrite K2; apply Z.mod_pos_bound; lia).
  rewrite (add32_small 0) by lia. rewrite Z.add_0_l.
  destruct (read_start_spec s s0 i n (start_chunk c) (start_offset c) (start_size c) S0 Hc B1 O1 ltac:(lia) ltac:(lia)) as (s1 & F & S1).
  rewrite (bind_Ok_l _ _ _ F). clear F. fold (first_full c).
  assert (P0 : 0 <= first_full c) by (unfold first_full; destruct (start_size c =? 0); lia).
  destruct (read_blocks_n_spec i n (Z.to_nat (num_full_chunks c)) s1 (first_full c) (proj1 S1) (covers_same _ _ _ _ S1 Hc) P0 ltac:(lia))
    as (s2 & E2 & S2). rewrite (bind_Ok_l _ _ _ E2). rewrite Z2Nat.id by lia. pose proof (e2_same_trans _ _ _ S1 S2) as S12.
  destruct (read_end_spec s s2 i n (first_full c + num_full_chunks c) (end_size c) S12 Hc ltac:(lia) ltac:(lia)) as (s3 & G & S3).
  rewrite (bind_Ok_l _ _ _ G). exists (first_full c + num_full_chunks c), s3. split; [|exact S3].
  do 3 f_equal. unfold file_addr. rewrite (transfer_map bsz ltac:(lia) (file_base (e2_view s) i) (e2_view s) offset size c Hk Ho ltac:(lia)).
  do 3 f_equal. apply map_ext_in. intros j Hj. apply list_elem_of_In, elem_of_seqZ in Hj.
  rewrite (file_base_same s s1 i j n S1 Hc) by lia. apply map_ext. intros x. apply S1.
Qed.

(** ** Writing.  The blocks of the file are different ones and hold no pointers. *)
Definition separate (f : Z -> Z) (i : inode) (n : Z) : Prop := forall j k, 0 <= j < n -> 0 <= k < n ->
  (j <> k -> block_of f i j <> block_of f i k) /\ block_of f i j ∉ pointer_blocks f i k.

Section writing.
Context (f0 : Z -> Z) (i : inode) (n : Z) (Hc : covers f0 i n) (Hsep : separate f0 i n).
Notation base := (file_base f0 i).

(** Everything outside the blocks of the file is as it was. *)
Definition keeps (f : Z -> Z) : Prop := forall x, (forall k, 0 <= k < n -> ~ (base k <= x < base k + bsz)) -> f x = f0 x.
Definition e2_wrote_file (off : Z) (buf : list Z) (s s' : state) : Prop :=
  e2_ok s' /\ stored_chunks bsz base off buf (e2_view s) (e2_view s') /\ e_sb s' = e_sb s /\ e_blkgrps s' = e_blkgrps s.

Lemma blocks_differ b b' : b <> b' -> b * bsz + bsz <= b' * bsz \/ b' * bsz + bsz <= b * bsz.
Proof using Hg.
  intros N. destruct ext2_sizes. destruct (Z.lt_total b b') as [H1|[H1|H1]]; [left|lia|right].
  - assert ((b + 1) * bsz <= b' * bsz) by (apply Z.mul_le_mono_nonneg_r; lia). lia.
  - assert ((b' + 1) * bsz <= b * bsz) by (apply Z.mul_le_mono_nonneg_r; lia). lia.
Qed.

Lemma file_apart : apart bsz base n.
Proof using Hg Hsep. intros j k Hj Hk N. apply blocks_differ. exact (proj1 (Hsep j k Hj Hk) N). Qed.

Lemma keeps_blocks f k : keeps f -> 0 <= k < n -> pointer_blocks f i k = pointer_blocks f0 i k /\ block_of f i k = block_of f0 i k.
Proof using Hg Hc Hsep.
  intros Hf Hk. pose proof Hc as (Hl & Hm & _). destruct (pointer_blocks_ext f0 f i k ltac:(lia)) as [E1 E2]; [|split; [exact E1|exact (E2 Hl)]].
  intros b x Hb Hx. apply Hf. intros j Hj Hx'. unfold file_base in Hx'.
  destruct (blocks_differ (block_of f0 i j) b); [|lia..]. intros E. apply (proj2 (Hsep j k Hj Hk)). rewrite E. exact Hb.
Qed.

Lemma keeps_covers f : keeps f -> covers f i n.
Proof using Hg Hc Hsep.
  intros Hf. pose proof Hc as (H1 & H2 & H3 & H4). split; [exact H1|]. split; [exact H2|]. split; [exact H3|].
  intros k Hk. destruct (keeps_blocks f k Hf Hk) as [E1 E2]. unfold reachable. rewrite E1, E2. exact (H4 k Hk).
Qed.

Lemma keeps_wrote off buf s s' : keeps (e2_view s) -> 0 <= off -> off + Z.of_nat (length buf) <= n * bsz ->
  e2_wrote_file off buf s s' -> keeps (e2_view s').
Proof using Hg.
  intros Hk Ho Hle (_ & [_ H] & _) x Hx. rewrite H; [apply Hk, Hx|]. intros j Hj E. destruct ext2_sizes.
  destruct (chunk_split bsz ltac:(lia) j n ltac:(lia)) as (_ & Q1 & Q2). apply (Hx _ Q1). unfold chunk_addr in E. lia.
Qed.

Lemma e2_wrote_file_nil off s s' : e2_same s s' -> e2_wrote_file off [] s s'.
Proof using. intros (H1 & H2 & H3). split; [exact H1|]. split; [exact (stored_chunks_nil _ _ off _ _ H2)|exact H3]. Qed.
Lemma e2_wrote_file_app off b1 b2 s1 s2 s3 : 0 <= off -> off + Z.of_nat (length (b1 ++ b2)) <= n * bsz -> e2_wrote_file off b1 s1 s2 ->
  e2_wrote_file (off + Z.of_nat (length b1)) b2 s2 s3 -> e2_wrote_file off (b1 ++ b2) s1 s3.
Proof using Hg Hsep.
  intros Ho Hle (A1 & A2 & A3 & A4) (B1 & B2 & B3 & B4). destruct ext2_sizes. split; [exact B1|]. split; [|split; congruence].
  exact (stored_chunks_app bsz ltac:(lia) base n off b1 b2 _ _ _ file_apart Ho Hle A2 B2).
Qed.

(** A part of one block. *)
Lemma chunk_write s k o buf : e2_ok s -> keeps (e2_view s) -> 0 <= k < n -> 0 <= o -> o + Z.of_nat (length buf) <= bsz ->
  exists s1 s2, get_block_n fs i k s = Ok (block_of f0 i k, s1) /\ e2_write fs (block_of f0 i k) o buf s1 = Ok s2 /\
    e2_wrote_file (k * bsz + o) buf s s2 /\ keeps (e2_view s2).
Proof using HL Hg Hc Hsep.
  intros Hok Hkp Hk Ho Hle. destruct ext2_sizes as [E Hp]. destruct (chunk_block s i n k Hok (keeps_covers _ Hkp) Hk) as (s1 & E1 & S1).
  rewrite (proj2 (keeps_blocks _ k Hkp Hk)) in E1. destruct Hc as (_ & _ & _ & Hd). destruct (Hd k Hk) as [_ Hd'].
  destruct (e2_write_spec s1 (block_of f0 i k) o buf (proj1 S1) (on_drive_reach _ o (Z.of_nat (length buf)) Hd' Ho ltac:(lia) Hle)) as (s2 & E2 & (W1 & W2 & W3 & W4)).
  destruct S1 as (S1 & S2 & S3 & S4).
  assert (W : e2_wrote_file (k * bsz + o) buf s s2).
  { split; [exact W1|]. split; [|split; congruence]. apply stored_chunk; [lia|exact Ho|exact Hle|].
    intros a. rewrite (W2 a), (S2 a). reflexivity. }
  exists s1, s2. split; [exact E1|]. split; [exact E2|]. split; [exact W|].
  assert (0 <= k * bsz) by (apply Z.mul_nonneg_nonneg; lia).
  assert ((k + 1) * bsz <= n * bsz) by (apply Z.mul_le_mono_nonneg_r; lia). apply (keeps_wrote (k * bsz + o) buf s s2 Hkp); [lia..|exact W].
Qed.

Lemma write_blocks_n_spec c : forall s k buf, e2_ok s -> keeps (e2_view s) -> 0 <= k -> k + Z.of_nat c <= n ->
  Z.of_nat c * bsz <= Z.of_nat (length buf) ->
  exists s', write_blocks_n fs c i k buf s = Ok (k + Z.of_nat c, drop (Z.to_nat (Z.of_nat c * bsz)) buf, s') /\
    e2_wrote_file (k * bsz) (take (Z.to_nat (Z.of_nat c * bsz)) buf) s s' /\ keeps (e2_view s').
Proof using HL Hg Hc Hsep.
  destruct ext2_sizes as [E Hp]. induction c as [|c IH]; intros s k buf Hok Hkp Hk Hn Hl.
  - exists s. rewrite Z.add_0_r. split; [reflexivity|]. split; [exact (e2_wrote_file_nil _ s s (e2_same_refl s Hok))|exact Hkp].
  - cbn [write_blocks_n]. unfold split_at. set (b := Z.to_nat bsz).
    assert (Hb : Z.of_nat (length (take b buf)) = bsz) by (rewrite length_take; lia).
    destruct (chunk_write s k 0 (take b buf) Hok Hkp ltac:(lia) ltac:(lia) ltac:(lia)) as (s1 & s2 & E1 & E2 & W & K2).
    rewrite (bind_Ok_l _ _ _ E1), (bind_Ok_l _ _ _ E2). assert (n < 2 ^ 32) by apply Hc. rewrite add32_small by lia.
    destruct (IH s2 (k + 1) (drop b buf) (proj1 W) K2 ltac:(lia) ltac:(lia) ltac:(rewrite length_drop; lia)) as (s3 & E3 & W3 & K3).
    exists s3. replace (Z.to_nat (Z.of_nat (Datatypes.S c) * bsz)) with (b + Z.to_nat (Z.of_nat c * bsz))%nat by lia.
    rewrite <- drop_drop, <- take_take_drop. replace (k + Z.of_nat (Datatypes.S c)) with (k + 1 + Z.of_nat c) by lia.
    split; [exact E3|]. split; [|exact K3]. rewrite Z.add_0_r in W.
    assert (0 <= k * bsz) by (apply Z.mul_nonneg_nonneg; lia).
    assert ((k + Z.of_nat (Datatypes.S c)) * bsz <= n * bsz) by (apply Z.mul_le_mono_nonneg_r; lia).
    apply (e2_wrote_file_app _ _ _ _ s2); [lia|rewrite length_app, Nat2Z.inj_add, Hb, length_take, length_drop; lia|exact W|].
    rewrite Hb. replace (k * bsz + bsz) with ((k + 1) * bsz) by lia. exact W3.
Qed.

Lemma e2_wrote_file_same_l off buf s1 s2 s3 : e2_same s1 s2 -> e2_wrote_file off buf s2 s3 -> e2_wrote_file off buf s1 s3.
Proof using.
  intros (_ & H2 & H3 & H4) (W1 & [W2 W3] & W4 & W5). split; [exact W1|]. split; [split; [exact W2|]|split; congruence].
  intros a Ha. rewrite (W3 a Ha). apply H2.
Qed.

(** The parts of the buffer at their places. *)
Lemma write_start_spec s k o len buf : e2_ok s -> keeps (e2_view s) -> 0 <= k < n -> 0 <= o -> 0 <= len <= Z.of_nat (length buf) ->
  o + len <= bsz ->
  exists s', (if negb (len =? 0) then
      '(lba, s) ← get_block_n fs i k s;
      let '(l, rest) := split_at len buf in
      s ← e2_write fs lba o l s; Ok (add32 k 1, rest, s)
    else Ok (k, buf, s)) = Ok (k + (if len =? 0 then 0 else 1), drop (Z.to_nat len) buf, s') /\
    e2_wrote_file (k * bsz + o) (take (Z.to_nat len) buf) s s' /\ keeps (e2_view s').
Proof using HL Hg Hc Hsep.
  intros Hok Hkp Hk Ho Hl Hle. destruct (Z.eqb_spec len 0) as [->|Z0]; cbn [negb].
  - exists s. rewrite Z.add_0_r. split; [reflexivity|]. split; [exact (e2_wrote_file_nil _ s s (e2_same_refl s Hok))|exact Hkp].
  - unfold split_at. destruct (chunk_write s k o (take (Z.to_nat len) buf) Hok Hkp Hk Ho ltac:(rewrite length_take; lia)) as (s1 & s2 & E1 & E2 & W & K2).
    rewrite (bind_Ok_l _ _ _ E1), (bind_Ok_l _ _ _ E2). assert (n < 2 ^ 32) by apply Hc. rewrite add32_small by lia.
    exists s2. split; [reflexivity|]. split; [exact W|exact K2].
Qed.

Lemma write_end_spec s k len buf : e2_ok s -> keeps (e2_view s) -> (0 < len -> 0 <= k < n) -> 0 <= len <= bsz -> Z.of_nat (length buf) = len ->
  exists s', (if negb (len =? 0) then '(lba, s) ← get_block_n fs i k s; e2_write fs lba 0 (split_at len buf).1 s else Ok s) = Ok s' /\
    e2_wrote_file (k * bsz) buf s s'.
Proof using HL Hg Hc Hsep.
  intros Hok Hkp Hk Hl Hb. destruct (Z.eqb_spec len 0) as [Z0|Z0]; cbn [negb].
  - exists s. rewrite (nil_length_inv buf) by lia. split; [reflexivity|exact (e2_wrote_file_nil _ s s (e2_same_refl s Hok))].
  - unfold split_at. cbn [fst]. rewrite take_ge by lia.
    destruct (chunk_write s k 0 buf Hok Hkp ltac:(lia) ltac:(lia) ltac:(lia)) as (s1 & s2 & E1 & E2 & W & K2).
    rewrite (bind_Ok_l _ _ _ E1), E2. exists s2. split; [reflexivity|]. rewrite Z.add_0_r in W. exact W.
Qed.

Lemma write_parts s offset buf c : chunks_ok offset (Z.of_nat (length buf)) bsz c -> e2_ok s -> keeps (e2_view s) -> 0 <= offset ->
  0 < Z.of_nat (length buf) -> offset + Z.of_nat (length buf) <= n * bsz ->
  exists b s', ('(block_num, buf, s) ← (if negb (start_size c =? 0) then
      '(lba, s) ← get_block_n fs i (start_chunk c) s;
      let '(l, rest) := split_at (start_size c) buf in
      s ← e2_write fs lba (start_offset c) l s; Ok (add32 (start_chunk c) 1, rest, s)
    else Ok (start_chunk c, buf, s));
  '(block_num, buf, s) ← write_blocks_n fs (Z.to_nat (num_full_chunks c)) i block_num buf s;
  s ← (if negb (end_size c =? 0) then
      '(lba, s) ← get_block_n fs i block_num s; e2_write fs lba 0 (split_at (end_size c) buf).1 s
    else Ok s);
  Ok (block_num, s)) = Ok (b, s') /\ e2_wrote_file offset buf s s'.
Proof using HL Hg Hc Hsep.
  intros Hk Hok Hkp Ho Hs Hle. destruct ext2_sizes as [E Hp].
  destruct (transfer_bound bsz ltac:(lia) _ _ n c Hk Ho Hs Hle) as (B1 & B2 & B3).
  destruct (chunk_starts bsz ltac:(lia) _ _ c Hk Ho Hs) as (S1 & S2 & S3). pose proof Hk as [K1 K2 K3 K4 K5 K6 K7].
  assert (O1 : 0 <= start_offset c) by (rewrite K2; apply Z.mod_pos_bound; lia).
  assert (N0 : 0 <= num_full_chunks c * bsz) by (apply Z.mul_nonneg_nonneg; lia).
  destruct (write_start_spec s (start_chunk c) (start_offset c) (start_size c) buf Hok Hkp B1 O1 ltac:(lia) (proj2 K4)) as (s1 & E1 & W1 & P1).
  rewrite (bind_Ok_l _ _ _ E1). clear E1. fold (first_full c). set (b1 := drop _ _) in *. set (p1 := take _ _) in *.
  assert (L1 : Z.of_nat (length p1) = start_size c) by (subst p1; rewrite length_take; lia).
  assert (L1' : Z.of_nat (length b1) = num_full_chunks c * bsz + end_size c) by (subst b1; rewrite length_drop; lia).
  assert (P0 : 0 <= first_full c) by (unfold first_full; destruct (start_size c =? 0); lia).
  destruct (write_blocks_n_spec (Z.to_nat (num_full_chunks c)) s1 (first_full c) b1 (proj1 W1) P1 P0 ltac:(lia) ltac:(lia)) as (s2 & E2 & W2 & P2).
  rewrite (bind_Ok_l _ _ _ E2). rewrite Z2Nat.id in * by lia. set (b2 := drop _ b1) in *. set (p2 := take _ b1) in *.
  assert (L2 : Z.of_nat (length p2) = num_full_chunks c * bsz) by (subst p2; rewrite length_take; lia).
  assert (L3 : Z.of_nat (length b2) = end_size c) by (subst b2; rewrite length_drop; lia).
  destruct (write_end_spec s2 (first_full c + num_full_chunks c) (end_size c) b2 (proj1 W2) P2 ltac:(lia) ltac:(lia) L3) as (s3 & E3 & W3).
  rewrite (bind_Ok_l _ _ _ E3). eexists _, s3. split; [reflexivity|].
  assert (EB : buf = p1 ++ (p2 ++ b2)) by (subst p2 b2; rewrite take_drop; subst p1 b1; rewrite take_drop; reflexivity).
  assert (LB : Z.of_nat (length (p2 ++ b2)) = num_full_chunks c * bsz + end_size c) by (rewrite length_app; lia).
  rewrite EB. apply (e2_wrote_file_app _ _ _ _ s1); [exact Ho|rewrite <- EB; lia|rewrite S1; exact W1|]. rewrite L1.
  destruct (decide (0 < num_full_chunks c \/ 0 < end_size c)) as [Hr|Hr].
  - rewrite (S2 Hr). assert (0 <= first_full c * bsz) by (apply Z.mul_nonneg_nonneg; lia).
    apply (e2_wrote_file_app _ _ _ _ s2); [assumption|rewrite LB, <- (S2 Hr); lia|exact W2|]. rewrite L2.
    rewrite Z.mul_add_distr_r in W3. exact W3.
  - rewrite (nil_length_inv (p2 ++ b2)) by lia. rewrite (nil_length_inv p2) in W2 by lia. rewrite (nil_length_inv b2) in W3 by lia.
    apply (e2_wrote_file_nil _ s1 s3). destruct W2 as (_ & [_ X2] & X3 & X4), W3 as (Y1 & [_ Y2] & Y3 & Y4).
    split; [exact Y1|]. split; [|split; congruence]. intros a. rewrite Y2, X2 by (cbn [length]; lia). reflexivity.
Qed.
End writing.

Lemma ext2_write_spec s a n offset buf file : e2_ok s -> inode_on s (curr_inode (format_data file)) a ->
  let i := inode_at (e2_view s) a in covers (e2_view s) i n -> separate (e2_view s) i n ->
  0 <= offset -> 0 < Z.of_nat (length buf) < 2 ^ 32 -> offset + Z.of_nat (length buf) <= n * bsz ->
  exists c s', ext2_write fs buf 0 offset file s = Ok (c, s') /\ e2_wrote_file (e2_view s) i offset buf s s'.
Proof using HL Hg.
  intros Hok Hi i Hc Hsep Ho Hs Hle. destruct ext2_sizes as [E Hp]. pose proof Hc as (_ & _ & Hw & _).
  destruct (locate_inode_spec s _ a Hok Hi) as (s0 & E0 & S0). fold i in E0. unfold ext2_write. rewrite (bind_Ok_l _ _ _ E0).
  pose proof (chunks_of offset (Z.of_nat (length buf)) n Ho ltac:(lia) Hle Hw) as Hk. cbv zeta. set (c := filesystem_chunkify _ _ _ _) in *.
  destruct (transfer_bound bsz ltac:(lia) _ _ n c Hk Ho ltac:(lia) Hle) as (B1 & _ & _).
  rewrite (add32_small 0) by lia. rewrite Z.add_0_l.
  destruct (write_parts (e2_view s) i n Hc Hsep s0 offset buf c Hk (proj1 S0)) as (b & s1 & E1 & W1); [|exact Ho|lia|exact Hle|].
  - intros x _. apply S0.
  - exists b, s1. split; [exact E1|exact (e2_wrote_file_same_l _ _ _ _ _ _ _ S0 W1)].
Qed.

(** ** Checks that evaluate *)
Definition block_at (f : Z -> Z) (i : inode) (n : Z) : Z :=
  if n <? 12 then nth (Z.to_nat n) (i_block i) 0 else word f (slot f i n).
Definition check_covers (f : Z -> Z) (i : inode) (n : Z) : bool :=
  (length (i_block i) =? 15)%nat && (n <=? max_blocks) && (n <? 2 ^ 32) &&
  forallb (fun k => forallb (fun b => (0 <=? b) && ((b + 1) * bsz <=? cap * bs)) (block_at f i k :: pointer_blocks f i k)) (seqZ 0 n).
Definition check_separate (f : Z -> Z) (i : inode) (n : Z) : bool :=
  forallb (fun j => forallb (fun k => ((j =? k) || negb (block_at f i j =? block_at f i k))
    && forallb (fun b => negb (block_at f i j =? b)) (pointer_blocks f i k)) (seqZ 0 n)) (seqZ 0 n).

Lemma block_of_at f i n : length (i_block i) = 15%nat -> 0 <= n < max_blocks -> block_of f i n = block_at f i n.
Proof using Hg.
  intros Hl Hn. unfold block_at. destruct (Z.ltb_spec n 12); [apply block_of_direct; lia|apply block_of_slot; lia].
Qed.

Definition addr_at (f : Z -> Z) (i : inode) (j : Z) : Z := block_at f i (j / bsz) * bsz + j mod bsz.
Lemma file_addr_at f i n j : covers f i n -> 0 <= j < n * bsz -> file_addr f i j = addr_at f i j.
Proof using Hg.
  intros (Hl & Hm & _) Hj. destruct ext2_sizes. destruct (chunk_split bsz ltac:(lia) j n Hj) as (_ & Q & _).
  unfold file_addr, chunk_addr, file_base, addr_at. rewrite block_of_at by lia. reflexivity.
Qed.

Lemma forallb_seqZ g n : forallb g (seqZ 0 n) = true -> forall k, 0 <= k < n -> g k = true.
Proof using. intros H k Hk. rewrite forallb_forall in H. apply H, list_elem_of_In, elem_of_seqZ. lia. Qed.

Lemma check_covers_ok f i n : check_covers f i n = true -> covers f i n.
Proof using Hg.
  unfold check_covers. rewrite !andb_true_iff, Nat.eqb_eq, Z.leb_le, Z.ltb_lt. intros (((Hl & Hm) & Hw) & H).
  split; [exact Hl|]. split; [exact Hm|]. split; [exact Hw|]. intros k Hk. pose proof (forallb_seqZ _ _ H k Hk) as Hb. cbv beta in Hb.
  assert (A : Forall on_drive (block_at f i k :: pointer_blocks f i k)).
  { apply Forall_forall. intros b Hb'. rewrite forallb_forall in Hb. specialize (Hb b (proj1 (list_elem_of_In _ _) Hb')).
    apply andb_true_iff in Hb as [B1 B2]. apply Z.leb_le in B1, B2. split; assumption. }
  apply Forall_cons in A as [A1 A2]. split; [exact A2|]. rewrite block_of_at by lia. exact A1.
Qed.

Lemma check_separate_ok f i n : covers f i n -> check_separate f i n = true -> separate f i n.
Proof using Hg.
  intros (Hl & Hm & _) H j k Hj Hk. rewrite !block_of_at by lia. pose proof (forallb_seqZ _ _ H j Hj) as H1. cbv beta in H1.
  pose proof (forallb_seqZ _ _ H1 k Hk) as H2. cbv beta in H2. apply andb_true_iff in H2 as [A B]. split.
  - intros N. apply orb_true_iff in A as [A|A]; [apply Z.eqb_eq in A; lia|]. apply negb_true_iff, Z.eqb_neq in A. exact A.
  - intros Hin. rewrite forallb_forall in B. specialize (B _ (proj1 (list_elem_of_In _ _) Hin)). rewrite Z.eqb_refl in B. discriminate.
Qed.
End volume.
