(* ===== verification/Ext2Alloc.v ===== *)
(** * Allocating on an ext2 volume

    [find_free_and_mark] sets the first clear bit of a bitmap; the allocators take the
    first group that has one.  What is in use is a function of the bytes of the bitmaps:
    an allocation adds exactly the block (or inode) it returns. *)
From S2P Require Import Prelude FsUtil Drives DrivesProofs BlockStore Vfs Ext2 Ext2Proofs.

Definition bit_of (arr : list Z) (b : Z) : bool := Z.testbit (byte_at arr (b / 8)) (b mod 8).

Lemma land_bit x j : 0 <= j -> (Z.land x (Z.shiftl 1 j) =? 0) = negb (Z.testbit x j).
Proof.
  intros Hj. rewrite Z.shiftl_mul_pow2, Z.mul_1_l by lia. destruct (Z.testbit x j) eqn:E; cbn [negb].
  - apply Z.eqb_neq. intros H. assert (T : Z.testbit (Z.land x (2 ^ j)) j = false) by (rewrite H; apply Z.bits_0).
    rewrite Z.land_spec, E, Z.pow2_bits_true in T by lia. discriminate.
  - apply Z.eqb_eq. apply Z.bits_inj'. intros k Hk. rewrite Z.land_spec, Z.bits_0, Z.pow2_bits_eqb by lia.
    destruct (Z.eqb_spec j k) as [->|N]; [rewrite E; reflexivity|apply andb_false_r].
Qed.

Lemma lor_bit x j k : 0 <= j -> 0 <= k -> Z.testbit (Z.lor x (Z.shiftl 1 j)) k = Z.testbit x k || (k =? j).
Proof. intros Hj Hk. rewrite Z.lor_spec, Z.shiftl_mul_pow2, Z.mul_1_l, Z.pow2_bits_eqb, (Z.eqb_sym j k) by lia. reflexivity. Qed.

Lemma lor_byte x j : is_byte x -> 0 <= j < 8 -> is_byte (Z.lor x (Z.shiftl 1 j)).
Proof.
  intros [H1 H2] Hj. rewrite Z.shiftl_mul_pow2, Z.mul_1_l by lia. split; [apply Z.lor_nonneg; split; [lia|apply Z.pow_nonneg; lia]|].
  apply (lor_bound 8); [lia|lia|]. split; [apply Z.pow_nonneg; lia|apply (Z.pow_lt_mono_r 2 j 8); lia].
Qed.

(** The array with bit [k] set. *)
Definition with_bit (arr : list Z) (k : Z) : list Z :=
  <[Z.to_nat (k / 8) := Z.lor (byte_at arr (k / 8)) (Z.shiftl 1 (k mod 8))]> arr.

Lemma byte_index k len : 0 <= k < 8 * len -> 0 <= k / 8 < len /\ 0 <= k mod 8 < 8.
Proof.
  intros H. split; [split; [apply Z.div_pos; lia|apply Z.div_lt_upper_bound; lia]|apply Z.mod_pos_bound; lia].
Qed.

Lemma byte_at_lookup (arr : list Z) i : 0 <= i < Z.of_nat (length arr) -> arr !! Z.to_nat i = Some (byte_at arr i).
Proof.
  intros H. destruct (lookup_lt_is_Some_2 arr (Z.to_nat i)) as [x Hx]; [lia|]. rewrite Hx. unfold byte_at.
  rewrite (proj2 (Z.ltb_ge i 0)) by lia. rewrite (nth_lookup_Some arr _ 0 x Hx). reflexivity.
Qed.

Lemma byte_at_insert (arr : list Z) i x j : 0 <= i < Z.of_nat (length arr) -> 0 <= j ->
  byte_at (<[Z.to_nat i := x]> arr) j = if j =? i then x else byte_at arr j.
Proof.
  intros Hi Hj. unfold byte_at. rewrite (proj2 (Z.ltb_ge j 0)) by lia. rewrite !nth_lookup. destruct (Z.eqb_spec j i) as [->|N].
  - rewrite list_lookup_insert_eq by lia. reflexivity.
  - rewrite list_lookup_insert_ne by lia. reflexivity.
Qed.

Lemma with_bit_length arr k : length (with_bit arr k) = length arr.
Proof. apply length_insert. Qed.

Lemma byte_at_with_bit arr k j : 0 <= k < 8 * Z.of_nat (length arr) -> 0 <= j ->
  byte_at (with_bit arr k) j = if j =? k / 8 then Z.lor (byte_at arr j) (Z.shiftl 1 (k mod 8)) else byte_at arr j.
Proof.
  intros Hk Hj. destruct (byte_index k _ Hk) as [H1 H2]. unfold with_bit. rewrite byte_at_insert by lia.
  destruct (Z.eqb_spec j (k / 8)) as [->|N]; reflexivity.
Qed.

Lemma find_free_loop_spec arr bits : Forall is_byte arr -> bits <= 8 * Z.of_nat (length arr) ->
  forall fuel i, 0 <= i <= bits -> bits - i < Z.of_nat fuel ->
  exists r, find_free_loop fuel arr bits i = Ok (r, match r with Some k => with_bit arr k | None => arr end) /\
    match r with
    | Some k => i <= k < bits /\ bit_of arr k = false /\ forall b, i <= b < k -> bit_of arr b = true
    | None => forall b, i <= b < bits -> bit_of arr b = true
    end.
Proof.
  intros Hb Hbits. induction fuel as [|fuel IH]; intros i Hi Hf; [lia|]. cbn [find_free_loop].
  destruct (Z.ltb_spec i bits) as [L|L].
  - destruct (byte_index i (Z.of_nat (length arr)) ltac:(lia)) as [I1 I2].
    rewrite (bind_Ok_l _ _ _ (fetch_Ok arr (i / 8) _ (proj1 I1) (byte_at_lookup arr (i / 8) I1))).
    rewrite land_bit by lia. destruct (Z.testbit (byte_at arr (i / 8)) (i mod 8)) eqn:E; cbn [negb].
    + destruct (IH (i + 1) ltac:(lia) ltac:(lia)) as (r & E' & H). exists r. split; [exact E'|].
      destruct r as [k|].
      * destruct H as (H1 & H2 & H3). split; [lia|]. split; [exact H2|]. intros b Hbk.
        destruct (Z.eq_dec b i) as [->|N]; [exact E|apply H3; lia].
      * intros b Hbk. destruct (Z.eq_dec b i) as [->|N]; [exact E|apply H; lia].
    + unfold store. rewrite decide_True by lia. exists (Some i). split; [reflexivity|].
      split; [lia|]. split; [exact E|]. intros b Hbk. lia.
  - exists None. split; [reflexivity|]. intros b Hbk. lia.
Qed.

Lemma find_free_and_mark_spec arr bits : Forall is_byte arr -> 0 <= bits <= 8 * Z.of_nat (length arr) ->
  exists r, find_free_and_mark arr bits = Ok (r, match r with Some k => with_bit arr k | None => arr end) /\
    match r with
    | Some k => 0 <= k < bits /\ bit_of arr k = false /\ forall b, 0 <= b < k -> bit_of arr b = true
    | None => forall b, 0 <= b < bits -> bit_of arr b = true
    end.
Proof. intros Hb Hbits. apply find_free_loop_spec; [assumption|lia..]. Qed.

Section volume.
Context {S : Type} `{HB : block_store S} (bs cap : Z) `{HL : !block_store_laws S bs cap}.
Context (fs : ext2fs) (Hg : ext2_geometry fs bs cap) (K : bitmap_kind).
Notation state := (ext2_state S).
Notation bsz := (e_block_size fs).
Notation view := (e2_view bs cap).
Notation per s := (bk_per_group K (e_sb s)).

(** Bit [k] of group [b]: its byte on the drive. *)
Definition bit_addr (b : blkgrp) (k : Z) : Z := bk_bitmap K b * bsz + k / 8.
Definition bit_used (s : state) (b : blkgrp) (k : Z) : bool := Z.testbit (view s (bit_addr b k)) (k mod 8).

Record groups_ok (s : state) : Prop := {
  gr_len : Z.of_nat (length (e_blkgrps s)) = e_num_blkgrps fs;
  gr_per : 0 < per s <= 8 * bsz;
  gr_max : e_num_blkgrps fs * per s < 2 ^ 32;
  gr_on : Forall (fun b => on_drive bs cap fs (bk_bitmap K b)) (e_blkgrps s);
  gr_apart : NoDup (map (bk_bitmap K) (e_blkgrps s));
  gr_bytes : forall x, is_byte (view s x) }.

(** Bit [k] of [b], and nothing else, was set. *)
Definition marked (b : blkgrp) (k : Z) (s s' : state) : Prop :=
  e2_ok bs cap s' /\ forall x, view s' x = if x =? bit_addr b k then Z.lor (view s x) (Z.shiftl 1 (k mod 8)) else view s x.

Lemma byte_of_block (f : Z -> Z) a n j : 0 <= j < n -> byte_at (map f (seqZ a n)) j = f (a + j).
Proof using.
  intros Hj. rewrite map_seqZ_shift. apply (byte_at_map (fun i => f (a + i))). exact Hj.
Qed.

Lemma bit_of_block s b k : 0 <= k < 8 * bsz -> bit_of (map (view s) (seqZ (bk_bitmap K b * bsz) bsz)) k = bit_used s b k.
Proof using.
  intros Hk. destruct (byte_index k bsz Hk) as [H1 H2]. unfold bit_of, bit_used, bit_addr. rewrite byte_of_block by lia. reflexivity.
Qed.

(** One group: its bitmap is read, and written when it has a clear bit. *)
Lemma group_spec s b : e2_ok bs cap s -> groups_ok s -> b ∈ e_blkgrps s ->
  exists s1 temp r, e2_read fs (bk_bitmap K b) 0 bsz s = Ok (temp, s1) /\ e2_same bs cap s s1 /\
    find_free_and_mark temp (per s) = Ok (r, match r with Some k => with_bit temp k | None => temp end) /\
    match r with
    | Some k => 0 <= k < per s /\ bit_used s b k = false /\ (forall j, 0 <= j < k -> bit_used s b j = true) /\
        exists s2, e2_write fs (bk_bitmap K b) 0 (with_bit temp k) s1 = Ok s2 /\ marked b k s s2 /\ e_blkgrps s2 = e_blkgrps s /\ e_sb s2 = e_sb s
    | None => forall j, 0 <= j < per s -> bit_used s b j = true
    end.
Proof using HL Hg.
  intros Hok Hgr Hb. destruct (ext2_sizes bs cap fs Hg) as [E Hp]. pose proof (gr_per s Hgr) as Hper.
  assert (Hon : on_drive bs cap fs (bk_bitmap K b)) by (pose proof (gr_on s Hgr) as H; rewrite Forall_forall in H; exact (H b Hb)).
  destruct (e2_read_spec bs cap fs Hg s (bk_bitmap K b) 0 bsz Hok) as (s1 & E1 & S1).
  { apply (on_drive_reach bs cap fs Hg); [exact Hon|lia..]. }
  rewrite Z.add_0_r in E1. set (temp := map (view s) (seqZ (bk_bitmap K b * bsz) bsz)) in *.
  assert (Hlen : Z.of_nat (length temp) = bsz) by (subst temp; rewrite length_map, length_seqZ; lia).
  destruct (find_free_and_mark_spec temp (per s)) as (r & E2 & H2).
  { apply Forall_forall. intros x Hx. subst temp. apply list_elem_of_fmap in Hx as (y & -> & _). apply (gr_bytes s Hgr). }
  { lia. }
  exists s1, temp, r. split; [exact E1|]. split; [exact S1|]. split; [exact E2|]. destruct r as [k|].
  - destruct H2 as (K1 & K2 & K3). assert (Hk : 0 <= k < 8 * bsz) by lia. rewrite <- Hlen in Hk.
    split; [exact K1|]. split; [rewrite <- bit_of_block by lia; exact K2|].
    split; [intros j Hj; rewrite <- bit_of_block by lia; apply K3; exact Hj|].
    destruct (e2_write_spec bs cap fs Hg s1 (bk_bitmap K b) 0 (with_bit temp k) (proj1 S1)) as (s2 & E3 & W1 & W2 & W3 & W4).
    { rewrite with_bit_length, Hlen. apply (on_drive_reach bs cap fs Hg); [exact Hon|lia..]. }
    exists s2. destruct S1 as (_ & S1 & S2 & S3). split; [exact E3|]. split; [|split; congruence]. split; [exact W1|].
    intros x. rewrite (W2 x), with_bit_length, Hlen, Z.add_0_r, (S1 x). unfold bit_addr. destruct (byte_index k _ Hk) as [B1 B2]. rewrite Hlen in B1.
    destruct (Z.leb_spec (bk_bitmap K b * bsz) x), (Z.ltb_spec x (bk_bitmap K b * bsz + bsz)); cbn [andb];
      try (destruct (Z.eqb_spec x (bk_bitmap K b * bsz + k / 8)); [lia|reflexivity]).
    rewrite byte_at_with_bit by lia. unfold temp. rewrite byte_of_block by lia.
    replace (bk_bitmap K b * bsz + (x - bk_bitmap K b * bsz)) with x by lia.
    destruct (Z.eqb_spec (x - bk_bitmap K b * bsz) (k / 8)), (Z.eqb_spec x (bk_bitmap K b * bsz + k / 8)); try lia; reflexivity.
  - intros j Hj. rewrite <- bit_of_block by lia. apply H2. exact Hj.
Qed.

(** The groups from [i] on. *)
Definition all_used (s : state) (i n : Z) : Prop := forall g b k, i <= g < n -> e_blkgrps s !! Z.to_nat g = Some b ->
  bk_count K b <> 0 -> 0 <= k < per s -> bit_used s b k = true.
Definition allocated (s : state) (m : Z) (s' : state) : Prop := exists g b k, m = g * per s + k /\ 0 <= k < per s /\
  0 <= g /\ e_blkgrps s !! Z.to_nat g = Some b /\ bk_count K b <> 0 /\ bit_used s b k = false /\
  (forall j, 0 <= j < k -> bit_used s b j = true) /\ marked b k s s' /\
  e_blkgrps s' = <[Z.to_nat g := bk_less K b]> (e_blkgrps s) /\ e_sb s' = bk_sb_less K (e_sb s).

Lemma groups_ok_same s s' : e2_same bs cap s s' -> groups_ok s -> groups_ok s'.
Proof using.
  intros (_ & H1 & H2 & H3) [A B C D E F]. constructor; rewrite ?H2, ?H3; try assumption. intros x. rewrite (H1 x). apply F.
Qed.
Lemma bit_used_same s s' b k : e2_same bs cap s s' -> bit_used s' b k = bit_used s b k.
Proof using. intros (_ & H1 & _). unfold bit_used. rewrite (H1 _). reflexivity. Qed.
Lemma allocated_same s0 s m s' : e2_same bs cap s0 s -> allocated s m s' -> allocated s0 m s'.
Proof using.
  intros Hs (g & b & k & E1 & E2 & E3 & E4 & E5 & E6 & E7 & [M1 M2] & E9 & E10). pose proof Hs as (H0 & H1 & H2 & H3).
  exists g, b, k. rewrite H2, H3 in *. repeat (split; [assumption|]). split; [rewrite <- (bit_used_same s0 s b k Hs); exact E6|].
  split; [intros j Hj; rewrite <- (bit_used_same s0 s b j Hs); exact (E7 j Hj)|]. split; [|split; assumption].
  split; [exact M1|]. intros x. rewrite (M2 x), (H1 x). reflexivity.
Qed.

Lemma allocate_bit_loop_spec n : forall s i, e2_ok bs cap s -> groups_ok s -> 0 <= i -> i + Z.of_nat n = e_num_blkgrps fs ->
  exists r s', allocate_bit_loop fs K n i s = Ok (r, s') /\
    match r with
    | None => e2_same bs cap s s' /\ all_used s i (e_num_blkgrps fs)
    | Some m => i * per s <= m < e_num_blkgrps fs * per s /\ allocated s m s' /\ all_used s i (m / per s)
    end.
Proof using HL Hg.
  induction n as [|n IH]; intros s i Hok Hgr Hi Hn.
  { exists None, s. split; [reflexivity|]. split; [apply e2_same_refl, Hok|]. intros g b k Hgg. lia. }
  pose proof (gr_len s Hgr) as Hlen. pose proof (gr_per s Hgr) as Hper. pose proof (gr_max s Hgr) as Hmax.
  destruct (lookup_lt_is_Some_2 (e_blkgrps s) (Z.to_nat i)) as [b Hb]; [lia|].
  cbn [allocate_bit_loop]. rewrite (bind_Ok_l _ _ _ (fetch_Ok _ i b Hi Hb)).
  assert (Next : forall s1, e2_same bs cap s s1 -> (bk_count K b <> 0 -> forall j, 0 <= j < per s -> bit_used s b j = true) ->
    exists r s', allocate_bit_loop fs K n (i + 1) s1 = Ok (r, s') /\
    match r with
    | None => e2_same bs cap s s' /\ all_used s i (e_num_blkgrps fs)
    | Some m => i * per s <= m < e_num_blkgrps fs * per s /\ allocated s m s' /\ all_used s i (m / per s)
    end).
  { intros s1 S1 Hfull. assert (Hext : forall m, all_used s1 (i + 1) m -> all_used s i m).
    { intros m Ha g b' k Hgg Hb' Hc Hk. destruct (Z.eq_dec g i) as [->|N].
      - rewrite Hb in Hb'. injection Hb' as <-. exact (Hfull Hc k Hk).
      - rewrite <- (bit_used_same s s1 b' k S1). destruct S1 as (_ & _ & S2 & S3). apply (Ha g); rewrite ?S2, ?S3; [lia|assumption..]. }
    destruct (IH s1 (i + 1) (proj1 S1) (groups_ok_same _ _ S1 Hgr) ltac:(lia) ltac:(lia)) as (r & s' & E & H).
    exists r, s'. split; [exact E|]. pose proof S1 as (_ & _ & S2 & _). destruct r as [m|].
    - rewrite S2 in H. destruct H as (H1 & H2 & H3). split; [lia|]. split; [exact (allocated_same _ _ _ _ S1 H2)|apply Hext, H3].
    - destruct H as [H1 H2]. split; [exact (e2_same_trans _ _ _ _ _ S1 H1)|apply Hext, H2]. }
  destruct (Z.eqb_spec (bk_count K b) 0) as [Z0|Z0]; [apply Next; [apply e2_same_refl, Hok|lia]|].
  destruct (group_spec s b Hok Hgr (list_elem_of_lookup_2 _ _ _ Hb)) as (s1 & temp & r & E1 & S1 & E2 & H).
  pose proof S1 as (_ & _ & S2 & S3). rewrite (bind_Ok_l _ _ _ E1), S2, (bind_Ok_l _ _ _ E2). destruct r as [k|]; [|exact (Next s1 S1 (fun _ => H))].
  destruct H as (K1 & K2 & K3 & s2 & E3 & M & G1 & G2). rewrite (bind_Ok_l _ _ _ E3), G1, G2. unfold store. rewrite decide_True by lia.
  assert (B1 : 0 <= i * per s) by (apply Z.mul_nonneg_nonneg; lia).
  assert (B2 : (i + 1) * per s <= e_num_blkgrps fs * per s) by (apply Z.mul_le_mono_nonneg_r; lia).
  rewrite mul32_small, add32_small by lia. eexists _, _. split; [reflexivity|]. split; [lia|]. split.
  - exists i, b, k. split; [lia|]. split; [exact K1|]. split; [exact Hi|]. split; [exact Hb|]. split; [exact Z0|]. split; [exact K2|].
    split; [exact K3|]. split; [exact M|]. split; reflexivity.
  - assert (Q : (k + i * per s) / per s = i) by (rewrite Z.div_add, Z.div_small by lia; lia). intros g b' j Hgg. lia.
Qed.

(** ** Numbers over all groups *)
Definition used (s : state) (m : Z) : bool :=
  match e_blkgrps s !! Z.to_nat (m / per s) with Some b => bit_used s b (m mod per s) | None => true end.
Definition counted (s : state) (m : Z) : Prop :=
  exists b, e_blkgrps s !! Z.to_nat (m / per s) = Some b /\ bk_count K b <> 0.

(** Taking a number changes its bit, the count of its group and the count of the volume. *)
Definition takes (s : state) (m : Z) (s' : state) : Prop :=
  e2_ok bs cap s' /\ used s m = false /\
  (forall k, 0 <= k < e_num_blkgrps fs * per s -> used s' k = used s k || (k =? m)) /\
  (exists a, forall x, x <> a -> view s' x = view s x) /\
  (exists b, e_blkgrps s !! Z.to_nat (m / per s) = Some b /\
     e_blkgrps s' = <[Z.to_nat (m / per s) := bk_less K b]> (e_blkgrps s)) /\
  e_sb s' = bk_sb_less K (e_sb s).

Context (Kbitmap : forall b, bk_bitmap K (bk_less K b) = bk_bitmap K b)
  (Kper : forall sb, bk_per_group K (bk_sb_less K sb) = bk_per_group K sb).

Lemma bit_addr_inj s b b' k k' : groups_ok s -> b ∈ e_blkgrps s -> b' ∈ e_blkgrps s -> 0 <= k < per s -> 0 <= k' < per s ->
  bit_addr b k = bit_addr b' k' -> bk_bitmap K b = bk_bitmap K b' /\ k / 8 = k' / 8.
Proof using Hg.
  intros Hgr Hb Hb' Hk Hk' E. pose proof (gr_per s Hgr) as Hper. unfold bit_addr in E.
  destruct (byte_index k bsz ltac:(lia)) as [A1 A2], (byte_index k' bsz ltac:(lia)) as [B1 B2].
  assert (Hq : bk_bitmap K b = bk_bitmap K b') by (apply (Z.div_mod_unique bsz _ _ (k / 8) (k' / 8)); lia). lia.
Qed.

Lemma same_bitmap s g g' b b' : groups_ok s -> e_blkgrps s !! g = Some b -> e_blkgrps s !! g' = Some b' ->
  bk_bitmap K b = bk_bitmap K b' -> g = g'.
Proof using.
  intros Hgr Hb Hb' E. pose proof (gr_apart s Hgr) as Hnd. rewrite NoDup_alt in Hnd.
  apply (Hnd g g' (bk_bitmap K b)); rewrite list_lookup_fmap; [rewrite Hb|rewrite Hb', E]; reflexivity.
Qed.

Lemma allocated_takes s m s' : groups_ok s -> allocated s m s' -> takes s m s'.
Proof using Hg Kbitmap Kper.
  intros Hgr (g & b & k & -> & Hk & H0 & Hb & Hc & Hu & _ & [M1 M2] & G & SB). pose proof (gr_per s Hgr) as Hper.
  assert (Q : (g * per s + k) / per s = g) by (rewrite Z.add_comm, Z.div_add, Z.div_small by lia; lia).
  assert (R : (g * per s + k) mod per s = k) by (rewrite Z.add_comm, Z.mod_add, Z.mod_small by lia; lia).
  split; [exact M1|]. split; [unfold used; rewrite Q, R, Hb; exact Hu|]. split; [|split; [|split; [exists b; rewrite Q; split; assumption|exact SB]]].
  - intros m Hm. unfold used. rewrite SB, Kper, G. set (g' := m / per s). set (k' := m mod per s).
    assert (Hk' : 0 <= k' < per s) by (apply Z.mod_pos_bound; lia). pose proof (Z.div_mod m (per s) ltac:(lia)) as Dm. fold g' k' in Dm.
    assert (Hg' : 0 <= g') by (apply Z.div_pos; lia).
    assert (Same : forall b1 b', e_blkgrps s !! Z.to_nat g' = Some b1 -> bk_bitmap K b' = bk_bitmap K b1 ->
      bit_used s' b' k' = bit_used s b1 k' || (m =? g * per s + k)).
    { intros b1 b' Hb1 Eb. unfold bit_used, bit_addr. rewrite Eb. fold (bit_addr b1 k'). rewrite M2.
      destruct (Z.eqb_spec (bit_addr b1 k') (bit_addr b k)) as [EA|NA].
      - destruct (bit_addr_inj s b1 b k' k Hgr) as [E1 E2]; [exact (list_elem_of_lookup_2 _ _ _ Hb1)|exact (list_elem_of_lookup_2 _ _ _ Hb)|lia|lia|exact EA|].
        rewrite lor_bit by (apply Z.mod_pos_bound; lia). f_equal. pose proof (same_bitmap s _ _ _ _ Hgr Hb1 Hb E1) as Eg.
        assert (g' = g) by lia. pose proof (Z.div_mod k 8 ltac:(lia)). pose proof (Z.div_mod k' 8 ltac:(lia)).
        destruct (Z.eqb_spec (k' mod 8) (k mod 8)), (Z.eqb_spec m (g * per s + k)); try reflexivity; nia.
      - destruct (Z.eqb_spec m (g * per s + k)) as [Em|Em]; [|rewrite orb_false_r; reflexivity]. exfalso. apply NA.
        assert (g' = g) as Eg by (unfold g'; rewrite Em; exact Q). assert (k' = k) as Ek by (unfold k'; rewrite Em; exact R).
        rewrite Eg, Hb in Hb1. injection Hb1 as ->. rewrite Ek. reflexivity. }
    destruct (decide (g' = g)) as [Eg|Ng].
    + rewrite Eg in *. rewrite list_lookup_insert_eq by (apply lookup_lt_is_Some_1; eauto). rewrite Hb. apply (Same b); [exact Hb|apply Kbitmap].
    + rewrite list_lookup_insert_ne by lia. destruct (e_blkgrps s !! Z.to_nat g') as [b1|] eqn:Hb1; [|reflexivity].
      apply (Same b1); reflexivity.
  - exists (bit_addr b k). intros x Hx. rewrite M2. destruct (Z.eqb_spec x (bit_addr b k)); [contradiction|reflexivity].
Qed.

Lemma all_used_used s i m : 0 <= i -> groups_ok s -> all_used s i (m / per s) -> forall k, i * per s <= k < m / per s * per s -> counted s k -> used s k = true.
Proof using.
  intros Hi Hgr Ha k Hk (b & Hb & Hc). pose proof (gr_per s Hgr) as Hper. unfold used. rewrite Hb.
  apply (Ha (k / per s)); [|exact Hb|exact Hc|apply Z.mod_pos_bound; lia].
  split; [apply Z.div_le_lower_bound; lia|apply Z.div_lt_upper_bound; lia].
Qed.

(** The first number that is not in use, in a group whose count is not zero. *)
Lemma allocate_bit_spec s : e2_ok bs cap s -> groups_ok s ->
  exists r s', allocate_bit_loop fs K (Z.to_nat (e_num_blkgrps fs)) 0 s = Ok (r, s') /\
    match r with
    | Some m => 0 <= m < e_num_blkgrps fs * per s /\ takes s m s' /\ counted s m /\
        (forall k, 0 <= k < m -> counted s k -> used s k = true)
    | None => e2_same bs cap s s' /\ forall k, 0 <= k < e_num_blkgrps fs * per s -> counted s k -> used s k = true
    end.
Proof using HL Hg Kbitmap Kper.
  intros Hok Hgr. pose proof (gr_len s Hgr) as Hlen. pose proof (gr_per s Hgr) as Hper.
  destruct (allocate_bit_loop_spec (Z.to_nat (e_num_blkgrps fs)) s 0 Hok Hgr ltac:(lia) ltac:(lia)) as (r & s' & E & H).
  exists r, s'. split; [exact E|]. destruct r as [m|].
  - destruct H as (H1 & H2 & H3). split; [lia|]. split; [exact (allocated_takes s m s' Hgr H2)|].
    destruct H2 as (g & b & k & Em & Hk & H0 & Hb & Hc & Hu & Hlow & _).
    assert (Q : m / per s = g) by (rewrite Em, Z.add_comm, Z.div_add, Z.div_small by lia; lia).
    split; [exists b; rewrite Q; split; assumption|]. intros j Hj Hcj. destruct (Z.lt_ge_cases j (g * per s)) as [L|L].
    + apply (all_used_used s 0 m); try assumption; lia.
    + assert (Qj : j / per s = g) by (symmetry; apply (Z.div_unique_pos _ _ _ (j - g * per s)); lia).
      assert (Rj : j mod per s = j - g * per s) by (symmetry; apply (Z.mod_unique_pos _ _ g); lia).
      unfold used. rewrite Qj, Rj, Hb. apply Hlow. lia.
  - destruct H as [H1 H2]. split; [exact H1|]. intros k Hk Hck.
    assert (X : e_num_blkgrps fs * per s / per s = e_num_blkgrps fs) by (apply Z.div_mul; lia).
    apply (all_used_used s 0 (e_num_blkgrps fs * per s)); rewrite ?X; try assumption; lia.
Qed.
End volume.
