(* ===== verification/Ext2Volume.v ===== *)
(** * Mounting an ext2 volume, and what its operations do

    The superblock of a well-formed volume gives parameters the other theorems ask for.
    A small volume in plain memory, with a file that needs an indirect block, is their
    concrete input. *)
From S2P Require Import Prelude FsUtil Drives DrivesProofs BlockStore Vfs Ext2 Ext2Proofs Ext2Alloc.

Record sound_superblock (sb : superblock) (bs cap : Z) : Prop := {
  ss_magic : sb_magic sb = 0xEF53;
  ss_log : 0 <= sb_log_block_size sb <= 6;
  ss_bs : bs <= 2 ^ (10 + sb_log_block_size sb);
  ss_group : 0 < sb_blocks_per_group sb;
  ss_count : 0 <= sb_blocks_count sb /\ sb_blocks_count sb + sb_blocks_per_group sb < 2 ^ 32 }.

(** The number of groups, and where their descriptors are. *)
Definition num_groups (sb : superblock) : Z := (sb_blocks_count sb + sb_blocks_per_group sb - 1) / sb_blocks_per_group sb.
Definition group_table (sb : superblock) : Z :=
  if sb_log_block_size sb =? 0 then 2048 else 2 ^ (10 + sb_log_block_size sb).

Lemma ext2_params_spec sb m cap : 0 <= m <= 9 -> cap < 2 ^ 32 -> sound_superblock sb (2 ^ m) cap ->
  exists fs, ext2_params (2 ^ m) sb = Ok fs /\ ext2_geometry fs (2 ^ m) cap /\
    e_block_size fs = 2 ^ (10 + sb_log_block_size sb) /\ e_num_blkgrps fs = num_groups sb.
Proof.
  intros Hm Hcap [H1 H2 H3 H4 H5]. unfold ext2_params. set (L := sb_log_block_size sb) in *.
  rewrite (proj2 (Z.leb_gt 32 L)), (proj2 (Z.eqb_neq (sb_blocks_per_group sb) 0)) by lia. cbn [orb].
  assert (P : 2 ^ 10 <= 2 ^ (10 + L) <= 2 ^ 16) by (split; apply Z.pow_le_mono_r; lia).
  assert (E : shl32 1024 L = 2 ^ (10 + L)).
  { unfold shl32. rewrite Z.shiftl_mul_pow2 by lia. change 1024 with (2 ^ 10). rewrite <- Z.pow_add_r by lia.
    apply u32_small. unfold is_u32. lia. }
  rewrite E, (proj2 (Z.ltb_ge (2 ^ (10 + L)) (2 ^ m))) by lia.
  assert (D1 : 2 ^ (10 + L) / 2 ^ m = 2 ^ (10 + L - m)) by (rewrite Z.pow_sub_r by lia; reflexivity).
  assert (D2 : 2 ^ (10 + L) / 4 = 2 ^ (8 + L)) by (change 4 with (2 ^ 2); rewrite <- Z.pow_sub_r by lia; f_equal; lia).
  assert (P2 : 2 ^ (8 + L) * 2 ^ (8 + L) <= 2 ^ 28) by (rewrite <- Z.pow_add_r by lia; apply Z.pow_le_mono_r; lia).
  assert (P3 : 0 < 2 ^ (8 + L)) by (apply Z.pow_pos_nonneg; lia).
  eexists. split; [reflexivity|]. rewrite D1, D2, !countr_zero_pow2, mul32_small by (lia || (split; [apply Z.mul_nonneg_nonneg|]; lia)).
  cbn [e_block_size e_num_blkgrps]. split; [|split; [reflexivity|unfold num_groups; rewrite add32_small, sub32_small by lia; reflexivity]].
  constructor; cbn [e_block_size e_log2_block_size e_d_blocks_per_block_log2 e_ptrs_per_block e_ptrs_per_block_log2 e_ptrs_per_ind_block].
  - apply Z.pow_pos_nonneg; lia.
  - exact Hcap.
  - lia.
  - rewrite <- Z.pow_add_r by lia. f_equal. lia.
  - split; [lia|reflexivity].
  - reflexivity.
  - lia.
  - reflexivity.
Qed.

Lemma decode_blkgrps_length n : forall l, length (decode_blkgrps n l) = n.
Proof. induction n as [|n IH]; intros l; cbn [decode_blkgrps length]; [reflexivity|]. rewrite IH. reflexivity. Qed.

(** Descriptor [g] is the 32 bytes at its place. *)
Lemma decode_blkgrps_lookup (f : Z -> Z) n : forall a g, (g < n)%nat ->
  decode_blkgrps n (map f (seqZ a (32 * Z.of_nat n))) !! g = Some (decode_blkgrp (map f (seqZ (a + 32 * Z.of_nat g) 32))).
Proof.
  induction n as [|n IH]; intros a g Hgn; [lia|].
  replace (32 * Z.of_nat (S n)) with (32 + 32 * Z.of_nat n) by lia. rewrite seqZ_app, map_app by lia. cbn [decode_blkgrps].
  assert (L : length (map f (seqZ a 32)) = 32%nat) by (rewrite length_map, length_seqZ; reflexivity).
  rewrite take_app_length', drop_app_length' by exact L. destruct g as [|g].
  - cbn [lookup list_lookup]. rewrite Z.add_0_r. reflexivity.
  - change ((decode_blkgrp (map f (seqZ a 32)) :: decode_blkgrps n (map f (seqZ (a + 32) (32 * Z.of_nat n)))) !! S g)
      with (decode_blkgrps n (map f (seqZ (a + 32) (32 * Z.of_nat n))) !! g). rewrite IH by lia. do 4 f_equal. lia.
Qed.

Section mount.
Context {S : Type} `{HB : block_store S} (m cap : Z) `{HL : !block_store_laws S (2 ^ m) cap} (Hm : 0 <= m <= 9) (Hcap : cap < 2 ^ 32).
Notation bs := (2 ^ m).

Lemma ext2_mount_spec root_name id (v : ext2_volume S) :
  let f := e2_view bs cap (ev_state v) in let sb := decode_superblock (map f (seqZ 1024 sizeof_superblock)) in
  e2_ok bs cap (ev_state v) -> sound_superblock sb bs cap -> 1024 + sizeof_superblock <= cap * bs ->
  sizeof_blkgrp * num_groups sb < 2 ^ 32 -> group_table sb + sizeof_blkgrp * num_groups sb <= cap * bs ->
  exists fs v', ext2_mount_disk bs root_name id v
    = Ok (MOUNT_SUCCESS, mk_handle None (root_name id) (mk_fdb 0 id 0 IS_DIR (ext2_format_data 2 2)) 0 0, v') /\
    ev_fs v' = Some fs /\ ext2_geometry fs bs cap /\ e_block_size fs = 2 ^ (10 + sb_log_block_size sb) /\
    e2_ok bs cap (ev_state v') /\ same_fun f (e2_view bs cap (ev_state v')) /\ e_sb (ev_state v') = sb /\
    e_num_blkgrps fs = num_groups sb /\ Z.of_nat (length (e_blkgrps (ev_state v'))) = num_groups sb /\
    forall g, 0 <= g < num_groups sb -> e_blkgrps (ev_state v') !! Z.to_nat g
      = Some (decode_blkgrp (map f (seqZ (group_table sb + sizeof_blkgrp * g) sizeof_blkgrp))).
Proof using HL Hm Hcap.
  intros f sb Hok Hs H1 H2 H3. unfold ext2_mount_disk. assert (Hb : 0 < bs) by (apply Z.pow_pos_nonneg; lia).
  rewrite (proj2 (Z.eqb_neq bs 0)) by lia. pose proof (Z.div_mod 1024 bs ltac:(lia)) as D.
  pose proof (Z.mod_pos_bound 1024 bs Hb). assert (0 <= 1024 / bs) by (apply Z.div_pos; lia).
  assert (D' : 1024 / bs * bs + 1024 mod bs = 1024) by lia.
  destruct (bs_read_law (e_store (ev_state v)) (1024 / bs) (1024 mod bs) sizeof_superblock Hok) as (st & E & Hok' & Hv); [lia|lia|cbv; split; congruence|lia|].
  rewrite (bind_Ok_l _ _ _ E). rewrite D'. fold (e2_view bs cap (ev_state v)) f sb.
  rewrite (ss_magic _ _ _ Hs). change (negb (0xEF53 =? 0xEF53)) with false. cbv iota.
  destruct (ext2_params_spec sb m cap Hm Hcap Hs) as (fs & E2 & Hg & Eb & En). rewrite (bind_Ok_l _ _ _ E2), En.
  assert (N0 : 0 <= num_groups sb) by (pose proof (ss_group _ _ _ Hs); pose proof (ss_count _ _ _ Hs); unfold num_groups; apply Z.div_pos; lia).
  unfold sizeof_blkgrp in *. rewrite mul32_small by lia. pose proof (ss_log _ _ _ Hs) as HL'.
  assert (T : (if e_block_size fs =? 1024 then 2 else 1) * e_block_size fs + 0 = group_table sb).
  { rewrite Eb. unfold group_table. destruct (Z.eqb_spec (sb_log_block_size sb) 0) as [->|N]; [reflexivity|].
    assert (2 ^ (10 + 1) <= 2 ^ (10 + sb_log_block_size sb)) by (apply Z.pow_le_mono_r; lia). change (2 ^ (10 + 1)) with 2048 in *.
    destruct (Z.eqb_spec (2 ^ (10 + sb_log_block_size sb)) 1024); lia. }
  destruct (e2_read_spec bs cap fs Hg (mk_e2 st sb []) (if e_block_size fs =? 1024 then 2 else 1) 0 (32 * num_groups sb) Hok') as (s1 & E3 & S1).
  { split; [destruct (_ =? _); lia|]. split; [lia|]. split; [lia|]. rewrite <- T in H3. exact H3. }
  rewrite (bind_Ok_l _ _ _ E3). rewrite T. eexists fs, _. split; [reflexivity|]. cbn [ev_fs ev_state e_sb e_blkgrps].
  assert (V : same_fun f (e2_view bs cap (mk_e2 (e_store s1) sb
      (decode_blkgrps (Z.to_nat (num_groups sb)) (map (e2_view bs cap (mk_e2 st sb [])) (seqZ (group_table sb) (32 * num_groups sb))))))).
  { intros a. destruct S1 as (_ & S1 & _). etransitivity; [exact (S1 a)|apply Hv]. }
  split; [reflexivity|]. split; [exact Hg|]. split; [exact Eb|]. split; [exact (proj1 S1)|]. split; [exact V|].
  split; [reflexivity|]. split; [exact En|]. rewrite decode_blkgrps_length. split; [lia|]. intros g Hgg.
  assert (En' : num_groups sb = Z.of_nat (Z.to_nat (num_groups sb))) by lia. rewrite En' at 2.
  rewrite decode_blkgrps_lookup by lia. rewrite Z2Nat.id by lia. do 2 f_equal. apply map_ext. intros a. apply Hv.
Qed.
End mount.

(** ** A small volume: 32 blocks of 1 KiB in one group.  Block 1 is the superblock, 2 the
    descriptors, 3 and 4 the bitmaps, 5 the inodes, 6 the root directory, 8 an indirect
    block; inode 3 is a file of fourteen blocks from 10 on. *)
Definition sb_bytes : list Z :=
  concat (map (le_bytes 4) [8; 32; 0; 8; 5; 1; 0; 0; 32; 32; 8; 0; 0])
  ++ concat (map (le_bytes 2) [0; 0; 0xEF53; 1; 0; 0]) ++ concat (map (le_bytes 4) [0; 0; 0; 1])
  ++ concat (map (le_bytes 2) [0; 0]) ++ le_bytes 4 11 ++ le_bytes 2 128.
Definition group_bytes : list Z := concat (map (le_bytes 4) [3; 4; 5]) ++ concat (map (le_bytes 2) [8; 5; 1]).
Definition plain_inode (mode size : Z) (blocks : list Z) : inode :=
  mk_inode mode 0 size 0 7 9 0 0 1 0 0 0 blocks 0 0 0 0 (repeat 0 12).
Definition no_inode : inode := plain_inode 0 0 (repeat 0 15).
Definition root_inode : inode := plain_inode 0x4000 1024 (6 :: repeat 0 14).
Definition file_inode : inode := plain_inode 0x8000 14000 (seqZ 10 12 ++ [8; 0; 0]).
Definition dir_bytes : list Z :=
  encode_dirent (mk_dirent 2 12 1 2) ++ [46; 0; 0; 0]
  ++ encode_dirent (mk_dirent 0 16 3 1) ++ [111; 108; 100; 0; 0; 0; 0; 0]
  ++ encode_dirent (mk_dirent 3 996 5 1) ++ [97; 46; 116; 120; 116].
Definition image_block (b : Z) : list Z :=
  match b with
  | 1 => sb_bytes
  | 2 => group_bytes
  | 3 => [0xFF; 0xFF; 0xFF; 0]
  | 4 => [7]
  | 5 => encode_inode no_inode ++ encode_inode root_inode ++ encode_inode file_inode
  | 6 => dir_bytes
  | 8 => le_bytes 4 22 ++ le_bytes 4 23
  | _ => []
  end.
Definition image (a : Z) : Z :=
  if (10 <=? a / 1024) && (a / 1024 <? 24) then a mod 251 else byte_at (image_block (a / 1024)) (a mod 1024).

Definition small : ext2fs := mk_ext2 1024 10 1 256 8 65536 1.
Definition small_sb : superblock := Eval vm_compute in decode_superblock (map image (seqZ 1024 sizeof_superblock)).
Definition small_group : blkgrp := mk_blkgrp 3 4 5 8 5 1.
Definition small_state : ext2_state (Z -> Z) := mk_e2 image small_sb [small_group].
Definition small_file : file_data_block := mk_fdb 0 0 14000 0 (ext2_format_data 3 2).
(** The file's inode is at the end of two others in block 5. *)
Definition file_inode_addr : Z := 5 * 1024 + 256.

Lemma small_geometry : ext2_geometry small 512 64.
Proof. constructor; try reflexivity; try (vm_compute; discriminate). split; [split; vm_compute; discriminate|reflexivity]. Qed.
Lemma small_ok : e2_ok 512 64 small_state.
Proof. exact I. Qed.
Lemma small_inode_on : inode_on 512 64 small small_state 3 file_inode_addr.
Proof. exists 5, 256. split; [reflexivity|]. split; [reflexivity|]. repeat split; vm_compute; discriminate. Qed.
Lemma small_inode : inode_at image file_inode_addr = file_inode.
Proof. vm_compute. reflexivity. Qed.
Lemma small_covers : covers 512 64 small image file_inode 14.
Proof. apply (check_covers_ok 512 64 small small_geometry). vm_compute. reflexivity. Qed.
Lemma small_separate : separate small image file_inode 14.
Proof. apply (check_separate_ok 512 64 small small_geometry _ _ _ small_covers). vm_compute. reflexivity. Qed.
Lemma image_bytes x : is_byte (image x).
Proof.
  unfold image. destruct ((10 <=? x / 1024) && (x / 1024 <? 24)).
  - pose proof (Z.mod_pos_bound x 251 ltac:(lia)). unfold is_byte. lia.
  - apply byte_at_byte. unfold image_block. destruct (x / 1024) as [|p|p]; try constructor.
    do 4 (try destruct p as [p|p|]; try constructor); vm_compute; repeat constructor; discriminate.
Qed.
Lemma small_groups_ok : groups_ok 512 64 small block_kind small_state.
Proof.
  constructor; try reflexivity; try (vm_compute; repeat split; discriminate).
  - repeat constructor; vm_compute; discriminate.
  - vm_compute. repeat constructor; intros H; inversion H.
  - exact image_bytes.
Qed.

(** ** The properties *)
Section properties.
Context {S : Type} `{HB : block_store S} (bs cap : Z) `{HL : !block_store_laws S bs cap}.
Context (fs : ext2fs) (Hg : ext2_geometry fs bs cap).
Notation view := (e2_view bs cap).
Notation bsz := (e_block_size fs).

(** [get_block_n] is the index function of one list of blocks: the twelve direct
    blocks of the inode, the words of its indirect block, the words of the blocks its
    doubly indirect block names, and one level more for the triply indirect one.  It
    reads without changing anything, for every block number the inode can reach. *)
Theorem get_block_n_correct s i n : e2_ok bs cap s -> length (i_block i) = 15%nat -> 0 <= n < max_blocks fs -> n < 2 ^ 32 ->
  reachable bs cap fs (view s) i n ->
  exists s', get_block_n fs i n s = Ok (nth (Z.to_nat n) (inode_blocks fs (view s) i) 0, s') /\ e2_same bs cap s s'.
Proof using HL Hg. exact (get_block_n_spec bs cap fs Hg s i n). Qed.

(** reading inside the blocks of a file returns exactly that part of the bytes of
    its blocks in order, at any offset and length, and changes nothing. *)
Theorem ext2_read_correct s a n offset size file : e2_ok bs cap s -> inode_on bs cap fs s (curr_inode (format_data file)) a ->
  covers bs cap fs (view s) (inode_at (view s) a) n -> 0 <= offset -> 0 < size < 2 ^ 32 -> offset + size <= n * bsz ->
  exists c s', ext2_read fs 0 offset size file s
    = Ok (map (fun i => view s (file_addr fs (view s) (inode_at (view s) a) i)) (seqZ offset size), c, s') /\ e2_same bs cap s s'.
Proof using HL Hg. exact (ext2_read_spec bs cap fs Hg s a n offset size file). Qed.

(** C26: writing inside the blocks of a file stores exactly the buffer at its offset.
    Every other byte of the file and every byte of the drive outside the range keeps its
    value: the pointer blocks, the inodes, other files. *)
Theorem ext2_write_correct s a n offset buf file : e2_ok bs cap s -> inode_on bs cap fs s (curr_inode (format_data file)) a ->
  let i := inode_at (view s) a in covers bs cap fs (view s) i n -> separate fs (view s) i n ->
  0 <= offset -> 0 < Z.of_nat (length buf) < 2 ^ 32 -> offset + Z.of_nat (length buf) <= n * bsz ->
  exists c s', ext2_write fs buf 0 offset file s = Ok (c, s') /\ e2_ok bs cap s' /\ e_sb s' = e_sb s /\ e_blkgrps s' = e_blkgrps s /\
    (forall j, 0 <= j < n * bsz -> view s' (file_addr fs (view s) i j) =
      if (offset <=? j) && (j <? offset + Z.of_nat (length buf)) then byte_at buf (j - offset) else view s (file_addr fs (view s) i j)) /\
    (forall x, (forall j, offset <= j < offset + Z.of_nat (length buf) -> file_addr fs (view s) i j <> x) -> view s' x = view s x).
Proof using HL Hg.
  intros Hok Hi i Hc Hsep Ho Hs Hle. destruct (ext2_sizes bs cap fs Hg).
  destruct (ext2_write_spec bs cap fs Hg s a n offset buf file Hok Hi Hc Hsep Ho Hs Hle) as (c & s' & E & W1 & W2 & W3 & W4).
  exists c, s'. split; [exact E|]. split; [exact W1|]. split; [exact W3|]. split; [exact W4|]. split; [|exact (proj2 W2)].
  intros j Hj. refine (stored_chunks_file bsz _ _ n offset buf _ _ j (file_apart bs cap fs Hg _ _ n Hsep) Ho Hle W2 Hj). lia.
Qed.

(** [allocate_block] returns the lowest block that is not in use, among the groups
    whose count is not zero, and marks exactly that block as used: one byte of the drive
    changes and the counts of the group and of the volume go down by one.  It returns 0
    and changes nothing when there is none. *)
Theorem allocate_block_correct s : e2_ok bs cap s -> groups_ok bs cap fs block_kind s ->
  exists r s', allocate_block fs s = Ok (r, s') /\
    ((0 <= r < e_num_blkgrps fs * sb_blocks_per_group (e_sb s) /\ takes bs cap fs block_kind s r s' /\ counted block_kind s r /\
      forall k, 0 <= k < r -> counted block_kind s k -> used bs cap fs block_kind s k = true) \/
     (r = 0 /\ e2_same bs cap s s' /\
      forall k, 0 <= k < e_num_blkgrps fs * sb_blocks_per_group (e_sb s) -> counted block_kind s k -> used bs cap fs block_kind s k = true)).
Proof using HL Hg.
  intros Hok Hgr. destruct (allocate_bit_spec bs cap fs Hg block_kind (fun _ => eq_refl) (fun _ => eq_refl) s Hok Hgr) as (r & s' & E & H).
  unfold allocate_block. rewrite (bind_Ok_l _ _ _ E). destruct r as [m|]; eexists _, s'; (split; [reflexivity|]).
  - left. exact H.
  - right. split; [reflexivity|exact H].
Qed.

(** The same of inodes, which are numbered from 1. *)
Theorem allocate_inode_correct s : e2_ok bs cap s -> groups_ok bs cap fs inode_kind s ->
  exists r s', allocate_inode fs s = Ok (r, s') /\
    ((1 <= r <= e_num_blkgrps fs * sb_inodes_per_group (e_sb s) /\ takes bs cap fs inode_kind s (r - 1) s') \/
     (r = 0 /\ e2_same bs cap s s')).
Proof using HL Hg.
  intros Hok Hgr. destruct (allocate_bit_spec bs cap fs Hg inode_kind (fun _ => eq_refl) (fun _ => eq_refl) s Hok Hgr) as (r & s' & E & H).
  unfold allocate_inode. rewrite (bind_Ok_l _ _ _ E). pose proof (gr_max _ _ _ _ _ Hgr) as Hmax. cbn [bk_per_group inode_kind] in *.
  destruct r as [m|]; eexists _, s'; (split; [reflexivity|]).
  - left. destruct H as (H1 & H2 & _). rewrite add32_small by lia. rewrite Z.add_simpl_r. split; [lia|exact H2].
  - right. split; [reflexivity|apply H].
Qed.
End properties.

(** a well-formed superblock mounts: the parameters satisfy the geometry every other
    operation asks for, the group descriptors are those of the table behind the
    superblock, the root directory is inode 2, and the drive is unchanged. *)
Theorem ext2_mount_correct {S : Type} `{HB : block_store S} m cap `{HL : !block_store_laws S (2 ^ m) cap} root_name id (v : ext2_volume S) :
  0 <= m <= 9 -> cap < 2 ^ 32 ->
  let f := e2_view (2 ^ m) cap (ev_state v) in let sb := decode_superblock (map f (seqZ 1024 sizeof_superblock)) in
  e2_ok (2 ^ m) cap (ev_state v) -> sound_superblock sb (2 ^ m) cap -> 1024 + sizeof_superblock <= cap * 2 ^ m ->
  sizeof_blkgrp * num_groups sb < 2 ^ 32 -> group_table sb + sizeof_blkgrp * num_groups sb <= cap * 2 ^ m ->
  exists fs v', ext2_mount_disk (2 ^ m) root_name id v
    = Ok (MOUNT_SUCCESS, mk_handle None (root_name id) (mk_fdb 0 id 0 IS_DIR (ext2_format_data 2 2)) 0 0, v') /\
    ev_fs v' = Some fs /\ ext2_geometry fs (2 ^ m) cap /\ e_block_size fs = 2 ^ (10 + sb_log_block_size sb) /\
    e2_ok (2 ^ m) cap (ev_state v') /\ same_fun f (e2_view (2 ^ m) cap (ev_state v')) /\ e_sb (ev_state v') = sb /\
    e_num_blkgrps fs = num_groups sb /\ Z.of_nat (length (e_blkgrps (ev_state v'))) = num_groups sb /\
    forall g, 0 <= g < num_groups sb -> e_blkgrps (ev_state v') !! Z.to_nat g
      = Some (decode_blkgrp (map f (seqZ (group_table sb + sizeof_blkgrp * g) sizeof_blkgrp))).
Proof. intros Hm Hcap. exact (ext2_mount_spec m cap Hm Hcap root_name id v). Qed.

(** ** On the small volume *)
Lemma get_block_n_correct_witness :
  (exists s', get_block_n small file_inode 13 small_state = Ok (nth 13 (inode_blocks small image file_inode) 0, s')) /\
  get_block_n small file_inode 13 small_state = Ok (23, small_state).
Proof.
  split; [|reflexivity].
  destruct (get_block_n_correct 512 64 small small_geometry small_state file_inode 13 small_ok eq_refl) as (s' & E & _);
    [vm_compute; split; [discriminate|reflexivity]|reflexivity|apply (proj2 (proj2 (proj2 small_covers)) 13); lia|].
  exists s'. exact E.
Defined.

(** The addresses of the file, in a form that evaluates. *)
Lemma small_addrs (g : Z -> Z) offset size : 0 <= offset -> 0 <= size -> offset + size <= 14 * 1024 ->
  map (fun i => g (file_addr small image file_inode i)) (seqZ offset size) = map (fun i => g (addr_at small image file_inode i)) (seqZ offset size).
Proof.
  intros Ho Hs Hle. apply map_ext_in. intros j Hj. apply list_elem_of_In, elem_of_seqZ in Hj. f_equal.
  apply (file_addr_at 512 64 small small_geometry image file_inode 14); [exact small_covers|change (e_block_size small) with 1024; lia].
Qed.

(** 300 bytes across the end of the direct blocks: blocks 21 and 22 of the volume. *)
Lemma ext2_read_correct_witness : exists c s', ext2_read small 0 (11 * 1024 + 800) 300 small_file small_state
  = Ok (map image (seqZ (21 * 1024 + 800) 300), c, s').
Proof.
  destruct (ext2_read_correct 512 64 small small_geometry small_state file_inode_addr 14 (11 * 1024 + 800) 300 small_file small_ok small_inode_on
    ltac:(change (e2_view 512 64 small_state) with image; rewrite small_inode; exact small_covers) ltac:(lia) ltac:(lia) ltac:(cbn; lia))
    as (c & s' & E & _). exists c, s'. rewrite E. reflexivity.
Defined.

Lemma ext2_write_correct_witness : exists c s', ext2_write small (repeat 7 300) 0 (11 * 1024 + 800) small_file small_state = Ok (c, s') /\
  e2_view 512 64 s' (22 * 1024 + 75) = 7 /\ e2_view 512 64 s' (22 * 1024 + 76) = image (22 * 1024 + 76).
Proof.
  destruct (ext2_write_correct 512 64 small small_geometry small_state file_inode_addr 14 (11 * 1024 + 800) (repeat 7 300) small_file small_ok small_inode_on
    ltac:(change (e2_view 512 64 small_state) with image; rewrite small_inode; exact small_covers)
    ltac:(change (e2_view 512 64 small_state) with image; rewrite small_inode; exact small_separate)
    ltac:(lia) ltac:(cbn; lia) ltac:(cbn; lia))
    as (c & s' & E & _ & _ & _ & H & _). exists c, s'. split; [exact E|].
  change (e2_view 512 64 small_state) with image in H. rewrite small_inode in H.
  assert (A : forall j, 0 <= j < 14 * 1024 -> file_addr small image file_inode j = addr_at small image file_inode j)
    by (intros j Hj; apply (file_addr_at 512 64 small small_geometry image file_inode 14 j small_covers Hj)).
  split.
  - specialize (H (12 * 1024 + 75) ltac:(cbn; lia)). rewrite A in H by lia. exact H.
  - specialize (H (12 * 1024 + 76) ltac:(cbn; lia)). rewrite A in H by lia. exact H.
Defined.

Lemma allocate_block_correct_witness : (exists r s', allocate_block small small_state = Ok (r, s') /\
    (r = 0 \/ used 512 64 small block_kind small_state r = false)) /\
  match allocate_block small small_state with Ok (r, s') => r = 24 /\ e2_view 512 64 s' 3075 = 1 | _ => False end.
Proof.
  split; [|vm_compute; split; reflexivity].
  destruct (allocate_block_correct 512 64 small small_geometry small_state small_ok small_groups_ok) as (r & s' & E & [(_ & (_ & H & _) & _)|(H & _)]);
    exists r, s'; (split; [exact E|]); [right; exact H|left; exact H].
Defined.

#[program] Definition plain_laws_9 : block_store_laws (Z -> Z) (2 ^ 9) 64 := plain_laws.
#[local] Existing Instance plain_laws_9.
Definition unmounted : ext2_volume (Z -> Z) := mk_e2vol None small_state.
Lemma ext2_mount_correct_witness : exists fs v', ext2_mount_disk (2 ^ 9) (fun _ => []) 0 unmounted
    = Ok (MOUNT_SUCCESS, mk_handle None [] (mk_fdb 0 0 0 IS_DIR (ext2_format_data 2 2)) 0 0, v') /\
  ev_fs v' = Some fs /\ e_block_size fs = 1024 /\ e_blkgrps (ev_state v') !! 0%nat = Some small_group.
Proof.
  destruct (ext2_mount_correct 9 64 (fun _ => []) 0 unmounted) as (fs & v' & E & F & _ & B & _ & _ & _ & _ & _ & G);
    [lia|lia|exact I|constructor; vm_compute; repeat split; (reflexivity || discriminate)|vm_compute; (reflexivity || discriminate)..|].
  exists fs, v'. split; [exact E|]. split; [exact F|]. split; [exact B|].
  refine (eq_trans (G 0 _) _); [vm_compute; split; [discriminate|reflexivity]|vm_compute; reflexivity].
Defined.

(** Growing a file from two blocks to three: no block is allocated, for the loop runs
    from the blocks there are to the difference. *)
Definition two_blocks : inode := plain_inode 0x8000 2048 (20 :: 21 :: repeat 0 13).
Example growing_allocates_nothing :
  grow_loop small 2 two_blocks (blocks_for small 2048) (sub32 (blocks_for small 3000) (blocks_for small 2048)) small_state
  = Ok (two_blocks, small_state).
Proof. vm_compute. reflexivity. Qed.
(** With blocks of 1 KiB the bit 0 of the first group is block 1: the result is one too low. *)
Example first_data_block_ignored : sb_first_data_block (e_sb small_state) = 1 /\
  match allocate_block small small_state with Ok (r, _) => r = 24 | _ => False end.
Proof. vm_compute. split; reflexivity. Qed.
(** A drive that is no ext2 volume ends the search for its file system. *)
Example other_volume_fails :
  match ext2_mount_disk 512 (fun _ => []) 0 (mk_e2vol None (mk_e2 (fun _ : Z => 0) small_sb [])) with Ok (st, _, _) => st = MOUNT_FAILURE | _ => False end.
Proof. vm_compute. reflexivity. Qed.
