(* ===== verification/Ext2Dir.v ===== *)
(** * Directories of an ext2 volume

    A directory block is a sequence of records that fills it; reading the directory lists
    the records that name an inode, in order, whatever padding they carry. *)
From S2P Require Import Prelude FsUtil Drives DrivesProofs BlockStore Vfs Ext2 Ext2Proofs Ext2Alloc Ext2Volume.

Record dir_record := mk_record { r_inode : Z; r_type : Z; r_name : list Z; r_pad : list Z }.
Definition rec_length (r : dir_record) : Z := sizeof_dirent + Z.of_nat (length (r_name r)) + Z.of_nat (length (r_pad r)).
Definition record_dirent (r : dir_record) : dirent :=
  mk_dirent (r_inode r) (rec_length r) (Z.of_nat (length (r_name r))) (r_type r).
Definition record_bytes (r : dir_record) : list Z := encode_dirent (record_dirent r) ++ r_name r ++ r_pad r.
Record record_ok (r : dir_record) : Prop := {
  ro_inode : 0 <= r_inode r < 2 ^ 32;
  ro_type : 0 <= r_type r < 256;
  ro_name : Z.of_nat (length (r_name r)) < 256;
  ro_len : rec_length r < 2 ^ 16 }.
Definition named (r : dir_record) : bool := negb (r_inode r =? 0).

Lemma record_bytes_length r : Z.of_nat (length (record_bytes r)) = rec_length r.
Proof. unfold record_bytes, encode_dirent, rec_length, sizeof_dirent. rewrite !length_app, !le_bytes_length. lia. Qed.

Lemma slice_middle pre mid post : slice (pre ++ mid ++ post) (Z.of_nat (length pre)) (Z.of_nat (length mid)) = Ok mid.
Proof.
  unfold slice. rewrite !length_app, !(proj2 (Z.leb_le _ _)) by lia. cbn [andb]. rewrite !Nat2Z.id, drop_app_length, take_app_length. reflexivity.
Qed.
Lemma slice_in l pre mid post off n : l = pre ++ mid ++ post -> off = Z.of_nat (length pre) -> n = Z.of_nat (length mid) -> slice l off n = Ok mid.
Proof. intros -> -> ->. apply slice_middle. Qed.

(** The fields of the record at an offset. *)
Lemma record_fields pre r post : record_ok r ->
  let temp := pre ++ record_bytes r ++ post in let j := Z.of_nat (length pre) in
  slice temp j 4 = Ok (le_bytes 4 (r_inode r)) /\ slice temp (j + 4) 2 = Ok (le_bytes 2 (rec_length r)) /\
  slice temp (j + 6) 2 = Ok [Z.of_nat (length (r_name r)) mod 256; r_type r mod 256] /\
  slice temp (j + sizeof_dirent) (Z.of_nat (length (r_name r))) = Ok (r_name r).
Proof.
  intros [R1 R2 R3 R4] temp j. unfold temp, record_bytes, encode_dirent, record_dirent, j.
  cbn [d_inode d_rec_len d_name_len d_file_type]. set (b4 := le_bytes 4 (r_inode r)). set (b2 := le_bytes 2 (rec_length r)).
  assert (L4 : length b4 = 4%nat) by reflexivity. assert (L2 : length b2 = 2%nat) by reflexivity.
  change (le_bytes 1 (Z.of_nat (length (r_name r)))) with [Z.of_nat (length (r_name r)) mod 256].
  change (le_bytes 1 (r_type r)) with [r_type r mod 256]. set (c1 := Z.of_nat (length (r_name r)) mod 256). set (c2 := r_type r mod 256).
  unfold sizeof_dirent. repeat split.
  - apply (slice_in _ pre b4 (b2 ++ [c1] ++ [c2] ++ r_name r ++ r_pad r ++ post)); [rewrite <- !app_assoc; reflexivity|reflexivity|rewrite L4; reflexivity].
  - apply (slice_in _ (pre ++ b4) b2 ([c1] ++ [c2] ++ r_name r ++ r_pad r ++ post)); [rewrite <- !app_assoc; reflexivity|rewrite length_app, L4; lia|rewrite L2; reflexivity].
  - apply (slice_in _ (pre ++ b4 ++ b2) [c1; c2] (r_name r ++ r_pad r ++ post)); [rewrite <- !app_assoc; reflexivity|rewrite !length_app, L4, L2; lia|reflexivity].
  - apply (slice_in _ (pre ++ b4 ++ b2 ++ [c1] ++ [c2]) (r_name r) (r_pad r ++ post)); [rewrite <- !app_assoc; reflexivity|rewrite !length_app, L4, L2; cbn [length]; lia|reflexivity].
Qed.

Section volume.
Context {S : Type} `{HB : block_store S} (bs cap : Z) `{HL : !block_store_laws S bs cap}.
Context (fs : ext2fs) (Hg : ext2_geometry fs bs cap) (id dir_ino : Z).
Notation state := (ext2_state S).
Notation view := (e2_view bs cap).
Notation bsz := (e_block_size fs).

(** What is listed for a record; [addr] is where the inodes are. *)
Definition listed (f : Z -> Z) (addr : Z -> Z) (path : list Z) (r : dir_record) : file_handle :=
  dir_entry path id dir_ino (record_dirent r) (r_name r) (inode_at f (addr (r_inode r))).
Definition children_on (s : state) (addr : Z -> Z) (rs : list dir_record) : Prop :=
  Forall (fun r => named r = true -> inode_on bs cap fs s (r_inode r) (addr (r_inode r))) rs.
Definition append (dest : directory_stream) (l : list file_handle) : directory_stream :=
  mk_dir (full_path dest) (dir_data dest) (file_list dest ++ l).

Lemma inode_on_same s s' ino a : e2_same bs cap s s' -> inode_on bs cap fs s ino a -> inode_on bs cap fs s' ino a.
Proof using.
  intros (_ & _ & H2 & H3) (t & off & E & H). exists t, off. split; [|exact H]. unfold inode_place in *. rewrite H2, H3. exact E.
Qed.
Lemma inode_at_same s s' a : e2_same bs cap s s' -> inode_at (view s') a = inode_at (view s) a.
Proof using. intros (_ & H1 & _). unfold inode_at. f_equal. apply map_ext. intros x. apply H1. Qed.

Lemma listed_same s s' addr path l : e2_same bs cap s s' -> map (listed (view s') addr path) l = map (listed (view s) addr path) l.
Proof using. intros Hs. apply map_ext. intros x. unfold listed. rewrite (inode_at_same _ _ _ Hs). reflexivity. Qed.

Lemma read_block_entries_spec addr rs : forall pre fuel dest s, e2_ok bs cap s ->
  Z.of_nat (length (pre ++ concat (map record_bytes rs))) = bsz -> Forall record_ok rs -> children_on s addr rs -> (length rs < fuel)%nat ->
  exists s', read_block_entries fs fuel id dir_ino (pre ++ concat (map record_bytes rs)) (Z.of_nat (length pre)) dest s
    = Ok (append dest (map (listed (view s) addr (full_path dest)) (List.filter named rs)), s') /\ e2_same bs cap s s'.
Proof using HL Hg.
  induction rs as [|r rs IH]; intros pre fuel dest s Hok Hlen Hr Hc Hf.
  - destruct fuel as [|fuel]; [cbn in Hf; lia|]. cbn [read_block_entries map concat] in *. rewrite app_nil_r in *.
    rewrite (proj2 (Z.ltb_ge _ _)) by lia. exists s. split; [|apply e2_same_refl, Hok]. unfold append. cbn. rewrite app_nil_r.
    destruct dest; reflexivity.
  - destruct fuel as [|fuel]; [lia|]. apply Forall_cons in Hr as [Hr1 Hr], Hc as [Hc1 Hc].
    assert (Hfl : (length rs < fuel)%nat) by (cbn [length] in Hf; lia).
    cbn [map concat] in Hlen |- *. set (rest := concat (map record_bytes rs)) in *.
    pose proof (record_bytes_length r) as Hb. rewrite !length_app in Hlen. destruct (ext2_sizes bs cap fs Hg) as [E Hp].
    destruct (x_log2 _ _ _ Hg) as [Hl1 Hl2]. assert (2 ^ e_log2_block_size fs <= 2 ^ 16) by (apply Z.pow_le_mono_r; lia).
    cbn [read_block_entries]. assert (0 < rec_length r) by (unfold rec_length, sizeof_dirent; lia). rewrite (proj2 (Z.ltb_lt _ _)) by lia.
    destruct (record_fields pre r rest Hr1) as (F1 & F2 & F3 & F4). rewrite (bind_Ok_l _ _ _ F1), (bind_Ok_l _ _ _ F2).
    rewrite !le_value_bytes by (apply Hr1 || (pose proof (ro_len r Hr1); cbn; lia)). rewrite add32_small by lia.
    assert (Next : forall dest' s1, e2_same bs cap s s1 -> full_path dest' = full_path dest ->
      exists s', read_block_entries fs fuel id dir_ino (pre ++ record_bytes r ++ rest) (Z.of_nat (length pre) + rec_length r) dest' s1
        = Ok (append dest' (map (listed (view s) addr (full_path dest)) (List.filter named rs)), s') /\ e2_same bs cap s s').
    { intros dest' s1 S1 Hd. destruct (IH (pre ++ record_bytes r) fuel dest' s1 (proj1 S1)) as (s' & E' & S'); [rewrite <- app_assoc, !length_app; lia|exact Hr| |exact Hfl|].
      - unfold children_on in *. eapply Forall_impl; [exact Hc|]. cbn beta. intros x Hx Hn. exact (inode_on_same _ _ _ _ S1 (Hx Hn)).
      - rewrite <- app_assoc, length_app, Nat2Z.inj_add, Hb in E'. exists s'. split; [|exact (e2_same_trans _ _ _ _ _ S1 S')].
        rewrite E', Hd, (listed_same s s1) by exact S1. reflexivity. }
    unfold named in *. cbn [List.filter]. destruct (Z.eqb_spec (r_inode r) 0) as [Z0|Z0]; cbn [negb] in *.
    + exact (Next dest s (e2_same_refl _ _ _ Hok) eq_refl).
    + destruct (locate_inode_spec bs cap fs Hg s _ _ Hok (Hc1 eq_refl)) as (s1 & E1 & S1). rewrite (bind_Ok_l _ _ _ E1), (bind_Ok_l _ _ _ F3).
      assert (Hd : forall a b, mk_dirent (r_inode r) (rec_length r)
          (field_at [a mod 256; b mod 256] 0 1) (field_at [a mod 256; b mod 256] 1 1) = mk_dirent (r_inode r) (rec_length r) (a mod 256) (b mod 256))
        by (intros a b; unfold field_at; change (Z.to_nat 0) with 0%nat; change (Z.to_nat 1) with 1%nat; cbn [take drop firstn skipn le_value];
            rewrite !Z.mul_0_r, !Z.add_0_r; reflexivity).
      cbv zeta. rewrite Hd, (Z.mod_small _ 256), (Z.mod_small (r_type r)) by (apply Hr1 || (pose proof (ro_name r Hr1); lia)).
      cbn [d_name_len d_rec_len]. rewrite (bind_Ok_l _ _ _ F4). rewrite add32_small by lia.
      destruct (Next (append dest [listed (view s) addr (full_path dest) r]) s1 S1 eq_refl) as (s' & E' & S').
      exists s'. split; [|exact S']. refine (eq_trans E' _). unfold append. cbn [full_path dir_data file_list map]. rewrite <- app_assoc. reflexivity.
Qed.

(** The blocks of the directory hold these records, one list per block. *)
Definition dir_holds (f : Z -> Z) (i : inode) (k : Z) (blocks : list (list dir_record)) : Prop :=
  forall n rs, blocks !! n = Some rs ->
    map f (seqZ (file_base fs f i (k + Z.of_nat n)) bsz) = concat (map record_bytes rs) /\ Forall record_ok rs.

Lemma read_dir_blocks_spec addr i n blocks : forall k limit dest s, e2_ok bs cap s -> covers bs cap fs (view s) i n -> 0 <= k ->
  k + Z.of_nat (length blocks) <= n -> dir_holds (view s) i k blocks -> children_on s addr (concat blocks) ->
  (length (concat blocks) < limit)%nat ->
  exists s', read_dir_blocks fs limit (length blocks) id dir_ino i k dest s
    = Ok (append dest (map (listed (view s) addr (full_path dest)) (List.filter named (concat blocks))), s') /\ e2_same bs cap s s'.
Proof using HL Hg.
  induction blocks as [|rs blocks IH]; intros k limit dest s Hok Hc Hk Hn Hd Hch Hlim.
  - exists s. split; [|apply e2_same_refl, Hok]. cbn. unfold append. rewrite app_nil_r. destruct dest; reflexivity.
  - cbn [length concat] in *. rewrite length_app in Hlim. unfold children_on in Hch. apply Forall_app in Hch as [Hc1 Hc2].
    destruct (Hd 0%nat rs eq_refl) as [D1 D2]. rewrite Z.add_0_r in D1. destruct (ext2_sizes bs cap fs Hg) as [E Hp].
    destruct (chunk_read bs cap fs Hg s i n k 0 bsz Hok Hc ltac:(lia) ltac:(lia) ltac:(lia) ltac:(lia)) as (s1 & s2 & E1 & E2 & S2).
    cbn [read_dir_blocks]. rewrite (bind_Ok_l _ _ _ E1), (bind_Ok_l _ _ _ E2). rewrite Z.add_0_r, D1.
    assert (HL1 : Z.of_nat (length (concat (map record_bytes rs))) = bsz) by (rewrite <- D1, length_map, length_seqZ; lia).
    destruct (read_block_entries_spec addr rs [] limit dest s2 (proj1 S2) HL1 D2) as (s3 & E3 & S3).
    { eapply Forall_impl; [exact Hc1|]. cbn beta. intros x Hx Hn'. exact (inode_on_same _ _ _ _ S2 (Hx Hn')). }
    { lia. }
    change (Z.of_nat (length (@nil Z))) with 0 in E3. cbn [app] in E3. rewrite (bind_Ok_l _ _ _ E3).
    pose proof (e2_same_trans _ _ _ _ _ S2 S3) as S23.
    destruct (IH (k + 1) limit (append dest (map (listed (view s2) addr (full_path dest)) (List.filter named rs))) s3 (proj1 S23)) as (s4 & E4 & S4);
      [exact (covers_same bs cap fs Hg _ _ _ _ S23 Hc)|lia|lia| | |lia|].
    + intros m rs' Hm. destruct (Hd (Datatypes.S m) rs' Hm) as [D3 D4]. split; [|exact D4]. rewrite <- D3.
      assert (Hmn : (m < length blocks)%nat) by (apply lookup_lt_is_Some_1; eauto).
      replace (k + 1 + Z.of_nat m) with (k + Z.of_nat (Datatypes.S m)) by lia.
      rewrite (file_base_same bs cap fs Hg s s3 i _ n S23 Hc) by lia. apply map_ext. intros a. apply S23.
    + unfold children_on. eapply Forall_impl; [exact Hc2|]. cbn beta. intros x Hx Hn'. exact (inode_on_same _ _ _ _ S23 (Hx Hn')).
    + exists s4. split; [|exact (e2_same_trans _ _ _ _ _ S23 S4)]. refine (eq_trans E4 _). unfold append. cbn [full_path dir_data file_list].
      rewrite (listed_same s s2 addr _ _ S2), (listed_same s s3 addr _ _ S23), <- app_assoc, List.filter_app, map_app. reflexivity.
Qed.

Lemma ext2_read_dir_spec addr s a blocks limit dest dir : e2_ok bs cap s -> inode_on bs cap fs s (curr_inode (format_data dir)) a ->
  dir_ino = curr_inode (format_data dir) ->
  let i := inode_at (view s) a in i_size i = Z.of_nat (length blocks) * bsz -> covers bs cap fs (view s) i (Z.of_nat (length blocks)) ->
  dir_holds (view s) i 0 blocks -> children_on s addr (concat blocks) -> (length (concat blocks) < limit)%nat ->
  exists s', ext2_read_dir fs limit dest dir id s
    = Ok (append dest (map (listed (view s) addr (full_path dest)) (List.filter named (concat blocks))), s') /\ e2_same bs cap s s'.
Proof using HL Hg.
  intros Hok Hi Hino i Hsize Hc Hd Hch Hlim. unfold ext2_read_dir.
  destruct (locate_inode_spec bs cap fs Hg s _ a Hok Hi) as (s1 & E1 & S1). rewrite (bind_Ok_l _ _ _ E1). fold i. rewrite Hsize.
  destruct (x_log2 _ _ _ Hg) as [L1 L2]. rewrite Z.shiftr_div_pow2, <- L2, Z.div_mul, Nat2Z.id by (lia || (rewrite L2; apply Z.pow_nonzero; lia)).
  destruct (read_dir_blocks_spec addr i _ blocks 0 limit dest s1 (proj1 S1) (covers_same bs cap fs Hg _ _ _ _ S1 Hc)) as (s2 & E2 & S2); [lia|lia| | |exact Hlim|].
  - intros m rs Hm. destruct (Hd m rs Hm) as [D1 D2]. split; [|exact D2]. rewrite <- D1.
    assert (Hmn : (m < length blocks)%nat) by (apply lookup_lt_is_Some_1; eauto).
    rewrite (file_base_same bs cap fs Hg s s1 i _ _ S1 Hc) by lia. apply map_ext. intros x. apply S1.
  - unfold children_on in *. eapply Forall_impl; [exact Hch|]. cbn beta. intros x Hx Hn'. exact (inode_on_same _ _ _ _ S1 (Hx Hn')).
  - rewrite <- Hino. exists s2. split; [|exact (e2_same_trans _ _ _ _ _ S1 S2)]. rewrite E2, (listed_same s s1) by exact S1. reflexivity.
Qed.

(** reading a directory whose blocks are filled by records lists, in order, every
    record that names an inode, with the size and the times of that inode; deleted
    records are passed over wherever they are, nothing is changed, and the loop ends
    after as many steps as there are records. *)
Theorem ext2_read_dir_correct addr s a blocks limit dest dir : e2_ok bs cap s -> inode_on bs cap fs s (curr_inode (format_data dir)) a ->
  dir_ino = curr_inode (format_data dir) ->
  let i := inode_at (view s) a in i_size i = Z.of_nat (length blocks) * bsz -> covers bs cap fs (view s) i (Z.of_nat (length blocks)) ->
  dir_holds (view s) i 0 blocks -> children_on s addr (concat blocks) -> (length (concat blocks) < limit)%nat ->
  exists s', ext2_read_dir fs limit dest dir id s
    = Ok (append dest (map (listed (view s) addr (full_path dest)) (List.filter named (concat blocks))), s') /\ e2_same bs cap s s'.
Proof using HL Hg. exact (ext2_read_dir_spec addr s a blocks limit dest dir). Qed.
End volume.

(** ** The root directory of the small volume *)
Definition root_data : file_data_block := mk_fdb 0 0 0 IS_DIR (ext2_format_data 2 2).
Definition root_stream : directory_stream := mk_dir [47] root_data [].
Definition root_records : list dir_record :=
  [mk_record 2 2 [46] [0; 0; 0]; mk_record 0 1 [111; 108; 100] (repeat 0 5); mk_record 3 1 [97; 46; 116; 120; 116] (repeat 0 983)].
Definition small_addr (ino : Z) : Z := 5 * 1024 + (ino - 1) * 128.

Lemma root_covers : covers 512 64 small image root_inode 1.
Proof. apply (check_covers_ok 512 64 small small_geometry). vm_compute. reflexivity. Qed.

Lemma ext2_read_dir_correct_witness : exists s' l, ext2_read_dir small 10 root_stream root_data 0 small_state = Ok (mk_dir [47] root_data l, s')
  /\ map fh_name l = [[46]; [97; 46; 116; 120; 116]] /\ map (fun h => file_size (fh_data h)) l = [1024; 14000].
Proof.
  assert (R : inode_at image (small_addr 2) = root_inode) by (vm_compute; reflexivity).
  assert (On : forall ino, ino = 2 \/ ino = 3 -> inode_on 512 64 small small_state ino (small_addr ino)).
  { intros ino [->| ->]; [exists 5, 128|exists 5, 256]; (split; [reflexivity|]; split; [reflexivity|]; repeat split; vm_compute; discriminate). }
  destruct (ext2_read_dir_correct 512 64 small small_geometry 0 2 small_addr small_state (small_addr 2) [root_records] 10 root_stream root_data small_ok
    (On 2 (or_introl eq_refl)) eq_refl) as (s' & E & _).
  - change (e2_view 512 64 small_state) with image. rewrite R. reflexivity.
  - change (e2_view 512 64 small_state) with image. rewrite R. exact root_covers.
  - change (e2_view 512 64 small_state) with image. rewrite R. intros n rs Hn. destruct n as [|n]; [|discriminate].
    injection Hn as <-. assert (B : file_base small image root_inode 0 = 6144)
      by (unfold file_base; rewrite block_of_direct by (reflexivity || lia); reflexivity).
    change (0 + Z.of_nat 0) with 0. rewrite B. split; [vm_compute; reflexivity|]. repeat constructor; vm_compute; (reflexivity || discriminate).
  - repeat constructor; intros Hn; try discriminate; apply On; [left|right]; reflexivity.
  - cbn. lia.
  - eexists s', _. split; [exact E|]. split; vm_compute; reflexivity.
Defined.

(** A record of length 0 makes the listing go round for ever. *)
Example zero_length_record : forall fuel, read_block_entries small fuel 0 2 (repeat 0 1024) 0 root_stream small_state = Fault OutOfFuel.
Proof. induction fuel as [|fuel IH]; [reflexivity|]. exact IH. Qed.
