(* ===== verification/Iso9660.v ===== *)
(** * ISO 9660 volumes (drivers/formats/iso9660.cpp)

    A read-only file system: a file is one extent, a directory a sequence of records
    that never cross a sector, with zeros behind the last record of each. *)
From S2P Require Import Prelude Time FsUtil Drives BlockStore Vfs.

Record iso9660_drive := mk_iso { sector_size : Z; sector_size_log2 : Z; iso_blocks_per_sector : Z; iso_blocks_per_sector_log2 : Z }.

Definition ISO_DIRECTORY : Z := 0x02.
Definition ISO_DEFAULT_SECTOR_SIZE : Z := 0x800.

(** [both_endian<T>::get] on the little-endian target: the first half. *)
Definition both_endian_get (l : list Z) (off : Z) (n : nat) : Z := field_at l off n.

Record iso9660_dir_time := mk_iso_time { it_year : Z; it_month : Z; it_day : Z; it_hour : Z; it_minute : Z; it_second : Z }.
Record iso9660_directory_entry := mk_iso_entry {
  ie_length : Z; ie_ext_length : Z; ie_extent_start : Z; ie_extent_length : Z; ie_record_date : iso9660_dir_time;
  ie_flags : Z; ie_name_len : Z }.
(** The fixed part of an entry; the name is behind it. *)
Definition iso_name_offset : Z := 33.
Definition decode_iso_entry (l : list Z) : iso9660_directory_entry :=
  mk_iso_entry (field_at l 0 1) (field_at l 1 1) (both_endian_get l 2 4) (both_endian_get l 10 4)
    (mk_iso_time (field_at l 18 1) (field_at l 19 1) (field_at l 20 1) (field_at l 21 1) (field_at l 22 1) (field_at l 23 1))
    (field_at l 25 1) (field_at l 32 1).

Definition iso9660_time_to_time_t (t : iso9660_dir_time) : outcome Z :=
  mktime (mk_tm (it_second t) (it_minute t) (it_hour t) (it_day t) (it_month t - 1) (it_year t) 0 0 0).

(** [find(';')] and [substr]. *)
Fixpoint before_semicolon (l : list Z) : list Z :=
  match l with [] => [] | c :: l => if c =? 59 then [] else c :: before_semicolon l end.
Definition iso9660_read_entry_name (data : list Z) : list Z :=
  let full_name := before_semicolon data in
  match full_name with
  | [] => [46]
  | c :: rest =>
    if c =? 0 then [46]
    else if (c =? 1) && (length rest =? 0)%nat then [46; 46]
    else full_name
  end.

(** The entry at [ptr] of a buffer. *)
Definition iso9660_read_dir_entry (parent_dir : option (list Z)) (buf : list Z) (ptr disk_id : Z) : outcome file_handle :=
  l ← slice buf ptr iso_name_offset;
  let entry := decode_iso_entry l in
  name ← slice buf (ptr + iso_name_offset) (ie_name_len entry);
  let entry_name := iso9660_read_entry_name name in
  let flags := if has (ie_flags entry) ISO_DIRECTORY then IS_DIR else 0 in
  time ← iso9660_time_to_time_t (ie_record_date entry);
  Ok (mk_handle parent_dir entry_name (mk_fdb (ie_extent_start entry) disk_id (ie_extent_length entry) flags (mk_fmt 0 0)) time time).

Section iso9660.
Context {S : Type} `{block_store S}.

Definition iso9660_read_chunks (f : iso9660_drive) (location offset num_bytes : Z) (s : S) : outcome (list Z * Z * S) :=
  let f_offset := u32 offset in
  '(l, s) ← filesystem_read (shl32 location (iso_blocks_per_sector_log2 f)) f_offset num_bytes s;
  Ok (l, add32 location (Z.shiftr (add32 f_offset num_bytes) (sector_size_log2 f)), s).

(** Every step passes at least one byte: the size of the directory is fuel enough. *)
Fixpoint iso_entries (fuel : nat) (path : list Z) (data : list Z) (ptr dir_size id : Z) (acc : list file_handle) : outcome (list file_handle) :=
  match fuel with
  | O => Fault OutOfFuel
  | Datatypes.S fuel =>
    if ptr <? dir_size then
      len ← fetch data ptr;
      if len =? 0 then iso_entries fuel path data (ptr + 1) dir_size id acc
      else
        h ← iso9660_read_dir_entry (Some path) data ptr id;
        iso_entries fuel path data (ptr + len) dir_size id (acc ++ [h])
    else Ok acc
  end.
Definition iso9660_read_dir (f : iso9660_drive) (dest : directory_stream) (file : file_data_block) (id : Z) (s : S)
  : outcome (directory_stream * S) :=
  let dir_size := u32 (file_size file) in
  let num_sectors := Z.shiftr (add32 dir_size (sub32 (sector_size f) 1)) (sector_size_log2 f) in
  let buffer_size := shl32 num_sectors (sector_size_log2 f) in
  '(dir_data, _, s) ← iso9660_read_chunks f (location_on_disk file) 0 buffer_size s;
  l ← iso_entries (Datatypes.S (Z.to_nat dir_size)) (full_path dest) dir_data 0 dir_size id (file_list dest);
  Ok (mk_dir (full_path dest) (Vfs.dir_data dest) l, s).

(** ** Mounting: the descriptors are looked at one by one from sector 16 on. *)
Definition sizeof_descriptor : Z := 883.
Definition CD001 : list Z := [67; 68; 48; 48; 49].
Definition descriptor_type (l : list Z) : Z := field_at l 0 1.
Definition descriptor_id (l : list Z) : list Z := take 5 (drop 1 l).
Definition logical_block_size (l : list Z) : Z := both_endian_get l 128 2.
Definition root_offset : Z := 156.
Fixpoint find_descriptor (fuel : nat) (sector blocks_per_sector : Z) (s : S) : outcome (option (list Z) * S) :=
  match fuel with
  | O => Fault OutOfFuel
  | Datatypes.S fuel =>
    '(l, s) ← filesystem_read (mul32 sector blocks_per_sector) 0 sizeof_descriptor s;
    if negb (bool_decide (descriptor_id l = CD001)) then Ok (None, s)
    else if descriptor_type l =? 1 then Ok (Some l, s)
    else find_descriptor fuel (add32 sector 1) blocks_per_sector s
  end.
End iso9660.

Record iso_volume (S : Type) := mk_isovol { iv_impl : option iso9660_drive; iv_store : S }.
Arguments mk_isovol {S}. Arguments iv_impl {S}. Arguments iv_store {S}.

Section driver.
Context {S : Type} `{block_store S} (block_size : Z) (root_name : Z -> list Z) (limit : nat).
Notation volume := (iso_volume S).

Definition iso_no_root : file_handle := mk_handle None [] (mk_fdb 0 0 0 0 (mk_fmt 0 0)) 0 0.
Definition iso_geometry_of (lbs : Z) : iso9660_drive :=
  mk_iso lbs (countr_zero lbs) (lbs / block_size) (countr_zero (lbs / block_size)).
(** The record of the volume is allocated, and set, before anything is read. *)
Definition iso9660_mount_disk (id : Z) (v : volume) : outcome (mount_status * file_handle * volume) :=
  if block_size =? 0 then Fault AssertFailed else
  '(d, s) ← find_descriptor limit 0x10 (ISO_DEFAULT_SECTOR_SIZE / block_size) (iv_store v);
  match d with
  | None => Ok (UNKNOWN_FILESYSTEM, iso_no_root, mk_isovol (Some (mk_iso 0 0 0 0)) s)
  | Some l =>
    let lbs := logical_block_size l in
    if negb (has_single_bit lbs) then Ok (MOUNT_FAILURE, iso_no_root, mk_isovol (Some (mk_iso 0 0 0 0)) s) else
    let f := iso_geometry_of lbs in
    if lbs <? block_size then Ok (DRIVE_NOT_SUPPORTED, iso_no_root, mk_isovol (Some f) s) else
    root ← iso9660_read_dir_entry None l root_offset id;
    Ok (MOUNT_SUCCESS, mk_handle None (root_name id) (fh_data root) (time_created root) (time_modified root), mk_isovol (Some f) s)
  end.

Definition iso_with {A} (f : iso9660_drive -> S -> outcome (A * S)) (v : volume) : outcome (A * volume) :=
  match iv_impl v with
  | None => Fault PageFault
  | Some d => '(a, s) ← f d (iv_store v); Ok (a, mk_isovol (Some d) s)
  end.
(** The table has no [allocate_chunks]; calling the null pointer traps. *)
Definition iso9660_driver : filesystem_driver volume :=
  mk_driver iso9660_mount_disk
    (fun location offset n _ _ => iso_with (fun f s => '(l, _, s) ← iso9660_read_chunks f location offset n s; Ok (l, s)))
    None (fun _ _ _ _ _ => Fault PageFault)
    (fun dest dir id => iso_with (fun f s => iso9660_read_dir f dest dir id s)) None None None.
End driver.
