(* ===== verification/Iso9660Proofs.v ===== *)
(** * Directories of an ISO 9660 volume

    Listing a directory gives its records in order; zeros between them, which fill the
    sectors, are passed over, and version numbers are cut from the names. *)
From S2P Require Import Prelude Time FsUtil Drives DrivesProofs BlockStore Vfs Ext2Dir Iso9660.

(** A record as it is on the disk: [seq] is what is not looked at. *)
Record iso_record := mk_isorec {
  ir_start : Z; ir_size : Z; ir_date : iso9660_dir_time; ir_flags : Z; ir_name : list Z; ir_tail : list Z }.
Definition iso_length (r : iso_record) : Z := 33 + Z.of_nat (length (ir_name r)) + Z.of_nat (length (ir_tail r)).
Definition iso_head (r : iso_record) : list Z :=
  [iso_length r; 0] ++ le_bytes 4 (ir_start r) ++ rev (le_bytes 4 (ir_start r)) ++ le_bytes 4 (ir_size r) ++ rev (le_bytes 4 (ir_size r))
  ++ [it_year (ir_date r); it_month (ir_date r); it_day (ir_date r); it_hour (ir_date r); it_minute (ir_date r); it_second (ir_date r); 0]
  ++ [ir_flags r; 0; 0] ++ le_bytes 2 1 ++ rev (le_bytes 2 1) ++ [Z.of_nat (length (ir_name r))].
Definition iso_bytes (r : iso_record) : list Z := iso_head r ++ ir_name r ++ ir_tail r.
Record iso_record_ok (r : iso_record) : Prop := {
  ik_start : 0 <= ir_start r < 2 ^ 32;
  ik_size : 0 <= ir_size r < 2 ^ 32;
  ik_month : 1 <= it_month (ir_date r) <= 12;
  ik_len : iso_length r < 256 }.

(** What a directory is made of: records, and zeros up to the next sector. *)
Inductive iso_piece := IsoRecord (r : iso_record) | IsoZeros (n : nat).
Definition piece_bytes (p : iso_piece) : list Z := match p with IsoRecord r => iso_bytes r | IsoZeros n => repeat 0 n end.
Definition piece_ok (p : iso_piece) : Prop := match p with IsoRecord r => iso_record_ok r | IsoZeros _ => True end.
Definition piece_records (p : iso_piece) : list iso_record := match p with IsoRecord r => [r] | IsoZeros _ => [] end.

(** The value of a date that [mktime] accepts. *)
Definition iso_time (t : iso9660_dir_time) : Z := match iso9660_time_to_time_t t with Ok z => z | Fault _ => 0 end.
Lemma iso_time_ok t : 1 <= it_month t <= 12 -> iso9660_time_to_time_t t = Ok (iso_time t).
Proof.
  intros Hm. unfold iso_time. assert (E : exists z, iso9660_time_to_time_t t = Ok z); [|destruct E as [z ->]; reflexivity].
  unfold iso9660_time_to_time_t, mktime. cbn [tm_mon tm_year tm_sec tm_min tm_hour tm_mday]. cbv zeta.
  set (l := ordinal_date _). assert (L : length l = 12%nat) by (subst l; unfold ordinal_date; destruct (is_leap_year _); reflexivity).
  destruct (lookup_lt_is_Some_2 l (Z.to_nat (it_month t - 1))) as [x Hx]; [lia|].
  rewrite (bind_Ok_l _ _ _ (fetch_Ok l (it_month t - 1) x ltac:(lia) Hx)). eexists. reflexivity.
Qed.

Definition iso_listed (path : option (list Z)) (id : Z) (r : iso_record) : file_handle :=
  mk_handle path (iso9660_read_entry_name (ir_name r))
    (mk_fdb (ir_start r) id (ir_size r) (if has (ir_flags r) ISO_DIRECTORY then IS_DIR else 0) (mk_fmt 0 0))
    (iso_time (ir_date r)) (iso_time (ir_date r)).

Lemma iso_head_length r : length (iso_head r) = 33%nat.
Proof. reflexivity. Qed.
Lemma iso_bytes_length r : Z.of_nat (length (iso_bytes r)) = iso_length r.
Proof. unfold iso_bytes, iso_length. rewrite !length_app, iso_head_length. lia. Qed.

Lemma decode_iso_head r : iso_record_ok r -> decode_iso_entry (iso_head r)
  = mk_iso_entry (iso_length r) 0 (ir_start r) (ir_size r) (ir_date r) (ir_flags r) (Z.of_nat (length (ir_name r))).
Proof.
  intros [H1 H2 H3 H4]. unfold decode_iso_entry, both_endian_get.
  change (field_at (iso_head r) 2 4) with (le_value (le_bytes 4 (ir_start r))).
  change (field_at (iso_head r) 10 4) with (le_value (le_bytes 4 (ir_size r))).
  rewrite !le_value_bytes by assumption.
  assert (F : forall i x, iso_head r !! Z.to_nat i = Some x -> field_at (iso_head r) i 1 = x).
  { intros i x Hx. unfold field_at. rewrite (drop_S _ _ _ Hx). rewrite firstn_cons, firstn_O. cbn [le_value]. lia. }
  rewrite (F 0 _ eq_refl), (F 1 _ eq_refl), (F 18 _ eq_refl), (F 19 _ eq_refl), (F 20 _ eq_refl), (F 21 _ eq_refl),
    (F 22 _ eq_refl), (F 23 _ eq_refl), (F 25 _ eq_refl), (F 32 _ eq_refl).
  destruct (ir_date r); reflexivity.
Qed.

Lemma iso_entry_read path pre r post id : iso_record_ok r ->
  iso9660_read_dir_entry path (pre ++ iso_bytes r ++ post) (Z.of_nat (length pre)) id = Ok (iso_listed path id r).
Proof.
  intros Hr. unfold iso9660_read_dir_entry, iso_bytes, iso_name_offset.
  assert (E1 : slice (pre ++ (iso_head r ++ ir_name r ++ ir_tail r) ++ post) (Z.of_nat (length pre)) 33 = Ok (iso_head r)).
  { apply (slice_in _ pre (iso_head r) (ir_name r ++ ir_tail r ++ post)); [rewrite <- !app_assoc; reflexivity|reflexivity|rewrite iso_head_length; reflexivity]. }
  rewrite (bind_Ok_l _ _ _ E1), decode_iso_head by exact Hr. cbn [ie_name_len ie_flags ie_record_date ie_extent_start ie_extent_length].
  assert (E2 : slice (pre ++ (iso_head r ++ ir_name r ++ ir_tail r) ++ post) (Z.of_nat (length pre) + 33) (Z.of_nat (length (ir_name r))) = Ok (ir_name r)).
  { apply (slice_in _ (pre ++ iso_head r) (ir_name r) (ir_tail r ++ post)); [rewrite <- !app_assoc; reflexivity|rewrite length_app, iso_head_length; lia|reflexivity]. }
  rewrite (bind_Ok_l _ _ _ E2). cbv zeta. rewrite (bind_Ok_l _ _ _ (iso_time_ok _ (ik_month r Hr))). reflexivity.
Qed.

Lemma zeros_skipped path data id dir_size n : forall fuel ptr acc, 0 <= ptr -> ptr + Z.of_nat n <= dir_size -> (n < fuel)%nat ->
  (forall i, ptr <= i < ptr + Z.of_nat n -> data !! Z.to_nat i = Some 0) ->
  iso_entries fuel path data ptr dir_size id acc = iso_entries (fuel - n) path data (ptr + Z.of_nat n) dir_size id acc.
Proof.
  induction n as [|n IH]; intros fuel ptr acc H0 Hp Hf Hz.
  - rewrite Z.add_0_r, Nat.sub_0_r. reflexivity.
  - destruct fuel as [|fuel]; [lia|]. cbn [iso_entries]. rewrite (proj2 (Z.ltb_lt _ _)) by lia.
    rewrite (bind_Ok_l _ _ _ (fetch_Ok data ptr 0 H0 (Hz ptr ltac:(lia)))). change (0 =? 0) with true. cbv iota.
    rewrite IH by (lia || (intros i Hi; apply Hz; lia)). replace (ptr + 1 + Z.of_nat n) with (ptr + Z.of_nat (S n)) by lia. reflexivity.
Qed.

Lemma iso_entries_spec path id ps : forall fuel pre post acc, Forall piece_ok ps -> (length (concat (map piece_bytes ps)) < fuel)%nat ->
  iso_entries fuel path (pre ++ concat (map piece_bytes ps) ++ post) (Z.of_nat (length pre))
    (Z.of_nat (length (pre ++ concat (map piece_bytes ps)))) id acc
  = Ok (acc ++ map (iso_listed (Some path) id) (concat (map piece_records ps))).
Proof.
  induction ps as [|p ps IH]; intros fuel pre post acc Hok Hf.
  - destruct fuel as [|fuel]; [cbn in Hf; lia|]. cbn [map concat iso_entries]. rewrite app_nil_r, (proj2 (Z.ltb_ge _ _)), app_nil_r by lia. reflexivity.
  - apply Forall_cons in Hok as [Hp Hok]. cbn [map concat] in *. set (rest := concat (map piece_bytes ps)) in *. rewrite length_app in Hf.
    assert (Hnext : forall fuel' acc', (length rest < fuel')%nat ->
      iso_entries fuel' path (pre ++ (piece_bytes p ++ rest) ++ post) (Z.of_nat (length pre + length (piece_bytes p)))
        (Z.of_nat (length (pre ++ piece_bytes p ++ rest))) id acc' = Ok (acc' ++ map (iso_listed (Some path) id) (concat (map piece_records ps)))).
    { intros fuel' acc' Hf'. pose proof (IH fuel' (pre ++ piece_bytes p) post acc' Hok Hf') as E. fold rest in E.
      rewrite <- !app_assoc, length_app in E. rewrite <- !app_assoc. exact E. }
    destruct p as [r|n]; cbn [piece_bytes piece_ok piece_records] in *.
    + destruct fuel as [|fuel]; [lia|]. pose proof (iso_bytes_length r) as Hb. assert (33 <= iso_length r) by (unfold iso_length; lia).
      cbn [iso_entries]. rewrite (proj2 (Z.ltb_lt _ _)) by (rewrite !length_app; lia).
      assert (Ef : fetch (pre ++ (iso_bytes r ++ rest) ++ post) (Z.of_nat (length pre)) = Ok (iso_length r)).
      { apply fetch_Ok; [lia|]. rewrite Nat2Z.id, lookup_app_r, Nat.sub_diag by lia. reflexivity. }
      rewrite (bind_Ok_l _ _ _ Ef). destruct (Z.eqb_spec (iso_length r) 0); [lia|].
      pose proof (iso_entry_read (Some path) pre r (rest ++ post) id Hp) as Er. rewrite !app_assoc in Er. rewrite !app_assoc. rewrite (bind_Ok_l _ _ _ Er).
      specialize (Hnext fuel (acc ++ [iso_listed (Some path) id r]) ltac:(lia)). rewrite Nat2Z.inj_add, Hb, !app_assoc in Hnext.
      rewrite Hnext, <- app_assoc. reflexivity.
    + rewrite repeat_length in *. rewrite (zeros_skipped path _ id _ n); [|lia|rewrite !length_app, repeat_length; lia|lia|].
      * rewrite <- Nat2Z.inj_add. apply Hnext. lia.
      * intros i Hi. rewrite lookup_app_r by lia. rewrite <- app_assoc, lookup_app_l by (rewrite repeat_length; lia). apply lookup_repeat. lia.
Qed.

(** ** On a drive *)
Record iso_geometry (f : iso9660_drive) (bs cap : Z) : Prop := {
  ig_bs : 0 < bs;
  ig_cap : cap < 2 ^ 32;
  ig_log2 : 0 <= sector_size_log2 f <= 15 /\ sector_size f = 2 ^ sector_size_log2 f;
  ig_shift : 0 <= iso_blocks_per_sector_log2 f /\ sector_size f = bs * 2 ^ iso_blocks_per_sector_log2 f }.

(** What the volume descriptor gives is sound. *)
Lemma iso_geometry_of_ok m k cap : 0 <= m <= k -> k <= 15 -> cap < 2 ^ 32 -> iso_geometry (iso_geometry_of (2 ^ m) (2 ^ k)) (2 ^ m) cap.
Proof.
  intros Hm Hk Hc. unfold iso_geometry_of. rewrite <- Z.pow_sub_r, !countr_zero_pow2 by lia.
  constructor; cbn [sector_size sector_size_log2 iso_blocks_per_sector_log2].
  - apply Z.pow_pos_nonneg; lia.
  - exact Hc.
  - split; [lia|reflexivity].
  - split; [lia|]. rewrite <- Z.pow_add_r by lia. f_equal. lia.
Qed.

Section drive.
Context {S : Type} `{HB : block_store S} (bs cap : Z) `{HL : !block_store_laws S bs cap}.
Context (f : iso9660_drive) (Hg : iso_geometry f bs cap).
Notation ssz := (sector_size f).

Lemma iso_read_spec s location offset n : bs_ok s -> 0 <= location -> 0 <= offset < 2 ^ 32 -> 0 <= n < 2 ^ 32 ->
  location * ssz + offset + n <= cap * bs ->
  exists r s', iso9660_read_chunks f location offset n s = Ok (map (bs_view s) (seqZ (location * ssz + offset) n), r, s')
    /\ bs_ok s' /\ same_fun (bs_view s) (bs_view s').
Proof using HL Hg.
  intros Hok Hl Ho Hn Hle. destruct (ig_shift _ _ _ Hg) as [G1 G2]. pose proof (ig_bs _ _ _ Hg). pose proof (ig_cap _ _ _ Hg).
  assert (P : 0 < 2 ^ iso_blocks_per_sector_log2 f) by (apply Z.pow_pos_nonneg; lia).
  assert (E : shl32 location (iso_blocks_per_sector_log2 f) = location * 2 ^ iso_blocks_per_sector_log2 f).
  { unfold shl32. rewrite Z.shiftl_mul_pow2 by lia. apply u32_small. split; [apply Z.mul_nonneg_nonneg; lia|].
    apply Z.le_lt_trans with cap; [|lia]. apply (Z.mul_le_mono_pos_r _ _ bs); lia. }
  unfold iso9660_read_chunks. rewrite E, (u32_small offset) by exact Ho.
  destruct (bs_read_law s (location * 2 ^ iso_blocks_per_sector_log2 f) offset n Hok) as (s' & E' & H1 & H2);
    [apply Z.mul_nonneg_nonneg; lia|lia|lia|lia|].
  rewrite (bind_Ok_l _ _ _ E'). eexists _, s'. split; [|split; [exact H1|exact H2]]. do 5 f_equal. lia.
Qed.

Lemma iso_read_dir_spec s dest dir id ps : let size := Z.of_nat (length (concat (map piece_bytes ps))) in
  bs_ok s -> file_size dir = size -> size + ssz < 2 ^ 32 -> 0 <= location_on_disk dir ->
  location_on_disk dir * ssz + size + ssz <= cap * bs ->
  map (bs_view s) (seqZ (location_on_disk dir * ssz) size) = concat (map piece_bytes ps) -> Forall piece_ok ps ->
  exists s', iso9660_read_dir f dest dir id s
    = Ok (mk_dir (full_path dest) (Vfs.dir_data dest)
            (file_list dest ++ map (iso_listed (Some (full_path dest)) id) (concat (map piece_records ps))), s')
    /\ bs_ok s' /\ same_fun (bs_view s) (bs_view s').
Proof using HL Hg.
  intros size Hok Hsize Hs Hl Hle Hd Hps. destruct (ig_log2 _ _ _ Hg) as [[G1 G2] G3].
  assert (P : 0 < ssz) by (rewrite G3; apply Z.pow_pos_nonneg; lia). assert (P0 : 0 <= size) by (unfold size; lia).
  unfold iso9660_read_dir. rewrite Hsize, (u32_small size), (sub32_small ssz 1), (add32_small size) by (unfold is_u32; lia).
  set (q := Z.shiftr (size + (ssz - 1)) (sector_size_log2 f)).
  assert (Q : q = (size + (ssz - 1)) / ssz) by (subst q; rewrite Z.shiftr_div_pow2, <- G3 by lia; reflexivity).
  pose proof (Z.div_mod (size + (ssz - 1)) ssz ltac:(lia)) as D. pose proof (Z.mod_pos_bound (size + (ssz - 1)) ssz P) as M.
  assert (Q0 : 0 <= q) by (rewrite Q; apply Z.div_pos; lia).
  assert (Qs : size <= q * ssz < size + ssz) by (rewrite Q; lia).
  assert (E : shl32 q (sector_size_log2 f) = q * ssz) by (unfold shl32; rewrite Z.shiftl_mul_pow2, <- G3 by lia; apply u32_small; unfold is_u32; lia).
  rewrite E. destruct (iso_read_spec s (location_on_disk dir) 0 (q * ssz) Hok Hl ltac:(lia) ltac:(lia) ltac:(lia)) as (r & s' & E1 & H1 & H2).
  rewrite (bind_Ok_l _ _ _ E1). rewrite Z.add_0_r.
  assert (Hsplit : map (bs_view s) (seqZ (location_on_disk dir * ssz) (q * ssz))
    = [] ++ concat (map piece_bytes ps) ++ map (bs_view s) (seqZ (location_on_disk dir * ssz + size) (q * ssz - size))).
  { replace (q * ssz) with (size + (q * ssz - size)) at 1 by lia. rewrite seqZ_app, map_app, Hd by lia. reflexivity. }
  rewrite Hsplit.
  pose proof (iso_entries_spec (full_path dest) id ps (Datatypes.S (Z.to_nat size)) []
    (map (bs_view s) (seqZ (location_on_disk dir * ssz + size) (q * ssz - size))) (file_list dest) Hps ltac:(unfold size; lia)) as Ee.
  cbn [app] in Ee. change (Z.of_nat (length (@nil Z))) with 0 in Ee. fold size in Ee. rewrite (bind_Ok_l _ _ _ Ee).
  exists s'. split; [reflexivity|]. split; [exact H1|exact H2].
Qed.

(** a directory that holds records, with zeros up to the end of a sector between
    them, is listed as exactly these records in order: names without their version, the
    two special names as dots, the extents, sizes and times.  The loop ends within one
    step per byte and nothing on the drive changes. *)
Theorem iso9660_read_dir_correct s dest dir id ps : let size := Z.of_nat (length (concat (map piece_bytes ps))) in
  bs_ok s -> file_size dir = size -> size + ssz < 2 ^ 32 -> 0 <= location_on_disk dir ->
  location_on_disk dir * ssz + size + ssz <= cap * bs ->
  map (bs_view s) (seqZ (location_on_disk dir * ssz) size) = concat (map piece_bytes ps) -> Forall piece_ok ps ->
  exists s', iso9660_read_dir f dest dir id s
    = Ok (mk_dir (full_path dest) (Vfs.dir_data dest)
            (file_list dest ++ map (iso_listed (Some (full_path dest)) id) (concat (map piece_records ps))), s')
    /\ bs_ok s' /\ same_fun (bs_view s) (bs_view s').
Proof using HL Hg. exact (iso_read_dir_spec s dest dir id ps). Qed.
End drive.

(** ** A directory in sector 10 of a small disc *)
Definition disc_date : iso9660_dir_time := mk_iso_time 99 12 31 23 59 58.
Definition disc_pieces : list iso_piece :=
  [IsoRecord (mk_isorec 10 2048 disc_date 2 [0] []); IsoRecord (mk_isorec 10 2048 disc_date 2 [1] []);
   IsoRecord (mk_isorec 12 5000 disc_date 0 [65; 46; 84; 59; 49] []); IsoZeros 100;
   IsoRecord (mk_isorec 11 2048 disc_date 2 [68; 73; 82] [])].
Definition disc (a : Z) : Z := byte_at (concat (map piece_bytes disc_pieces)) (a - 10 * 2048).
Definition disc_drive : iso9660_drive := iso_geometry_of 512 2048.
Definition disc_dir : file_data_block := mk_fdb 10 0 (Z.of_nat (length (concat (map piece_bytes disc_pieces)))) IS_DIR (mk_fmt 0 0).

Lemma iso9660_read_dir_correct_witness : exists s' l, iso9660_read_dir disc_drive (mk_dir [47] disc_dir []) disc_dir 0 disc = Ok (mk_dir [47] disc_dir l, s')
  /\ map fh_name l = [[46]; [46; 46]; [65; 46; 84]; [68; 73; 82]] /\ map (fun h => file_flags (fh_data h)) l = [1; 1; 0; 1].
Proof.
  destruct (iso9660_read_dir_correct 512 64 disc_drive (iso_geometry_of_ok 9 11 64 ltac:(lia) ltac:(lia) ltac:(lia)) disc (mk_dir [47] disc_dir []) disc_dir 0 disc_pieces)
    as (s' & E & _); [exact I|reflexivity|vm_compute; reflexivity|vm_compute; discriminate|vm_compute; discriminate|vm_compute; reflexivity| |].
  - repeat constructor; vm_compute; (reflexivity || discriminate).
  - eexists s', _. split; [exact E|]. split; vm_compute; reflexivity.
Defined.

(** A record without a month stops in the table of [mktime]. *)
Example month_zero_faults : iso9660_time_to_time_t (mk_iso_time 0 0 0 0 0 0) = Fault OutOfBounds.
Proof. reflexivity. Qed.
