(* ===== verification/Rdfs.v ===== *)
(** * RAM disk images (drivers/formats/rdfs.cpp)

    The format build.pl makes: a magic number, the number of files, a table of entries
    with names in two fields, and the contents.  It is only mounted on a drive whose
    blocks are single bytes, so a location is a byte address. *)
From S2P Require Import Prelude Time FsUtil Drives DrivesProofs BlockStore Vfs.

Definition RDSK : list Z := [82; 68; 83; 75].
Definition sizeof_rdfs_dir_entry : Z := 36.
Record rdfs_dir_entry := mk_rdfs {
  re_name : list Z; re_extension : list Z; re_attributes : Z; re_offset : Z; re_size : Z; re_modified : Z; re_created : Z }.
Definition decode_rdfs (l : list Z) : rdfs_dir_entry :=
  mk_rdfs (take 8 l) (take 3 (drop 8 l)) (field_at l 11 1) (field_at l 12 4) (field_at l 16 4)
    (s64 (field_at l 20 8)) (s64 (field_at l 28 8)).

(** Up to the first zero of the field. *)
Fixpoint rdfs_read_field (field : list Z) : list Z :=
  match field with [] => [] | c :: l => if c =? 0 then [] else c :: rdfs_read_field l end.
Definition rdfs_file_name (e : rdfs_dir_entry) : list Z :=
  rdfs_read_field (re_name e) ++ match rdfs_read_field (re_extension e) with [] => [] | ext => 46 :: ext end.
Definition rdfs_handle (path : option (list Z)) (id : Z) (e : rdfs_dir_entry) : file_handle :=
  mk_handle path (rdfs_file_name e)
    (mk_fdb (re_offset e) id (re_size e) (if has (re_attributes e) IS_DIR then IS_DIR else 0) (mk_fmt 0 0))
    (re_created e) (re_modified e).

Section rdfs.
Context {S : Type} `{block_store S} (block_size : Z) (root_name : Z -> list Z).

Definition rdfs_mount_disk (id : Z) (s : S) : outcome (mount_status * file_handle * S) :=
  let none := mk_handle None [] (mk_fdb 0 0 0 0 (mk_fmt 0 0)) 0 0 in
  if 1 <? block_size then Ok (DRIVE_NOT_SUPPORTED, none, s) else
  '(magic, s) ← filesystem_read 0 0 4 s;
  if bool_decide (magic = RDSK) then
    Ok (MOUNT_SUCCESS, mk_handle None (root_name id) (mk_fdb 4 id 0 IS_DIR (mk_fmt 0 0)) 0 0, s)
  else Ok (UNKNOWN_FILESYSTEM, none, s).

Definition rdfs_read (location offset num_bytes : Z) (s : S) : outcome (list Z * Z * S) :=
  let f_offset := u32 offset in
  '(l, s) ← filesystem_read location f_offset num_bytes s;
  Ok (l, add32 (add32 location f_offset) num_bytes, s).

Fixpoint rdfs_entries (n : nat) (path : list Z) (disk_location id : Z) (acc : list file_handle) (s : S) : outcome (list file_handle * S) :=
  match n with
  | O => Ok (acc, s)
  | Datatypes.S n =>
    '(l, s) ← filesystem_read disk_location 0 sizeof_rdfs_dir_entry s;
    rdfs_entries n path (add32 disk_location sizeof_rdfs_dir_entry) id (acc ++ [rdfs_handle (Some path) id (decode_rdfs l)]) s
  end.
Definition rdfs_read_dir (dest : directory_stream) (f : file_data_block) (id : Z) (s : S) : outcome (directory_stream * S) :=
  let location := location_on_disk f in
  '(l, s) ← filesystem_read location 0 4 s;
  '(l, s) ← rdfs_entries (Z.to_nat (le_value l)) (full_path dest) (add32 location 4) id (file_list dest) s;
  Ok (mk_dir (full_path dest) (dir_data dest) l, s).

Definition rdfs_driver : filesystem_driver S :=
  mk_driver rdfs_mount_disk
    (fun location offset n _ _ s => '(l, _, s) ← rdfs_read location offset n s; Ok (l, s))
    None (fun _ _ _ _ _ => Fault PageFault) rdfs_read_dir None None None.
End rdfs.

(** ** An image and its directory *)
Definition pad_field (n : nat) (l : list Z) : list Z := l ++ repeat 0 (n - length l).
(** What build.pl writes for a file. *)
Record rdfs_file := mk_rf { rf_name : list Z; rf_ext : list Z; rf_attr : Z; rf_offset : Z; rf_size : Z; rf_modified : Z; rf_created : Z }.
Definition encode_rdfs (f : rdfs_file) : list Z :=
  pad_field 8 (rf_name f) ++ pad_field 3 (rf_ext f) ++ [rf_attr f] ++ le_bytes 4 (rf_offset f) ++ le_bytes 4 (rf_size f)
  ++ le_bytes 8 (rf_modified f mod 2 ^ 64) ++ le_bytes 8 (rf_created f mod 2 ^ 64).
Record rdfs_file_ok (f : rdfs_file) : Prop := {
  rk_name : (length (rf_name f) <= 8)%nat /\ Forall (fun c => c <> 0) (rf_name f);
  rk_ext : (length (rf_ext f) <= 3)%nat /\ Forall (fun c => c <> 0) (rf_ext f);
  rk_offset : 0 <= rf_offset f < 2 ^ 32;
  rk_size : 0 <= rf_size f < 2 ^ 32;
  rk_times : - 2 ^ 63 <= rf_modified f < 2 ^ 63 /\ - 2 ^ 63 <= rf_created f < 2 ^ 63 }.
Definition rdfs_listed (path : option (list Z)) (id : Z) (f : rdfs_file) : file_handle :=
  mk_handle path (rf_name f ++ match rf_ext f with [] => [] | ext => 46 :: ext end)
    (mk_fdb (rf_offset f) id (rf_size f) (if has (rf_attr f) IS_DIR then IS_DIR else 0) (mk_fmt 0 0)) (rf_created f) (rf_modified f).

Lemma read_pad_field n l : Forall (fun c => c <> 0) l -> rdfs_read_field (pad_field n l) = l.
Proof.
  intros H. unfold pad_field. generalize (n - length l)%nat as k. intros k. induction H as [|c l Hc _ IH]; cbn [app rdfs_read_field].
  - destruct k; reflexivity.
  - rewrite (proj2 (Z.eqb_neq c 0) Hc), IH. reflexivity.
Qed.
Lemma pad_field_length n l : (length l <= n)%nat -> length (pad_field n l) = n.
Proof. intros H. unfold pad_field. rewrite length_app, repeat_length. lia. Qed.
Lemma encode_rdfs_length f : rdfs_file_ok f -> length (encode_rdfs f) = 36%nat.
Proof.
  intros [[H1 _] [H2 _] _ _ _]. unfold encode_rdfs. rewrite !length_app, !pad_field_length, !le_bytes_length by assumption. reflexivity.
Qed.

(** A field behind a prefix of known length. *)
Lemma field_behind pre mid post off n : Z.to_nat off = length pre -> n = length mid -> field_at (pre ++ mid ++ post) off n = le_value mid.
Proof. intros A ->. unfold field_at. rewrite A. rewrite drop_app_length, take_app_length. reflexivity. Qed.

Lemma s64_mod z : - 2 ^ 63 <= z < 2 ^ 63 -> s64 (z mod 2 ^ 64) = z.
Proof.
  intros Hz. unfold s64, swrap. rewrite Z.mod_mod by lia. destruct (Z.lt_ge_cases z 0).
  - rewrite <- (Z.mod_add z 1), Z.mod_small by lia. rewrite (proj2 (Z.ltb_ge _ _)) by lia. lia.
  - rewrite Z.mod_small by lia. rewrite (proj2 (Z.ltb_lt _ _)) by lia. reflexivity.
Qed.

Lemma decode_encode_rdfs f path id : rdfs_file_ok f -> rdfs_handle path id (decode_rdfs (encode_rdfs f)) = rdfs_listed path id f.
Proof.
  intros [[N1 N2] [E1 E2] H1 H2 [H3 H4]]. unfold encode_rdfs. set (a := pad_field 8 (rf_name f)). set (b := pad_field 3 (rf_ext f)).
  assert (La : length a = 8%nat) by (apply pad_field_length; assumption). assert (Lb : length b = 3%nat) by (apply pad_field_length; assumption).
  set (c := le_bytes 4 (rf_offset f)). set (d := le_bytes 4 (rf_size f)). set (g := le_bytes 8 (rf_modified f mod 2 ^ 64)). set (h := le_bytes 8 (rf_created f mod 2 ^ 64)).
  set (l := a ++ b ++ [rf_attr f] ++ c ++ d ++ g ++ h).
  assert (F1 : take 8 l = a) by (unfold l; apply take_app_length'; lia).
  assert (F2 : take 3 (drop 8 l) = b) by (unfold l; rewrite drop_app_length' by lia; apply take_app_length'; lia).
  assert (Lc : length c = 4%nat /\ length d = 4%nat /\ length g = 8%nat /\ length h = 8%nat) by (repeat split; apply le_bytes_length).
  destruct Lc as (Lc & Ld & Lg & Lh).
  assert (F : forall pre mid post off n, l = pre ++ mid ++ post -> Z.to_nat off = length pre -> n = length mid -> field_at l off n = le_value mid)
    by (intros pre mid post off n -> A B; apply field_behind; assumption).
  assert (F3 : field_at l 11 1 = rf_attr f).
  { rewrite (F (a ++ b) [rf_attr f] (c ++ d ++ g ++ h)); [cbn [le_value]; lia|unfold l; rewrite <- !app_assoc; reflexivity|rewrite length_app, La, Lb; reflexivity|reflexivity]. }
  assert (F4 : field_at l 12 4 = rf_offset f).
  { rewrite (F (a ++ b ++ [rf_attr f]) c (d ++ g ++ h)); [apply le_value_bytes; exact H1|unfold l; rewrite <- !app_assoc; reflexivity|rewrite !length_app, La, Lb; reflexivity|symmetry; exact Lc]. }
  assert (F5 : field_at l 16 4 = rf_size f).
  { rewrite (F (a ++ b ++ [rf_attr f] ++ c) d (g ++ h)); [apply le_value_bytes; exact H2|unfold l; rewrite <- !app_assoc; reflexivity|rewrite !length_app, La, Lb, Lc; reflexivity|symmetry; exact Ld]. }
  assert (F6 : field_at l 20 8 = rf_modified f mod 2 ^ 64).
  { rewrite (F (a ++ b ++ [rf_attr f] ++ c ++ d) g h); [apply le_value_bytes, Z.mod_pos_bound; lia|unfold l; rewrite <- !app_assoc; reflexivity|rewrite !length_app, La, Lb, Lc, Ld; reflexivity|symmetry; exact Lg]. }
  assert (F7 : field_at l 28 8 = rf_created f mod 2 ^ 64).
  { rewrite (F (a ++ b ++ [rf_attr f] ++ c ++ d ++ g) h []); [apply le_value_bytes, Z.mod_pos_bound; lia|unfold l; rewrite <- !app_assoc, app_nil_r; reflexivity|rewrite !length_app, La, Lb, Lc, Ld, Lg; reflexivity|symmetry; exact Lh]. }
  unfold decode_rdfs. rewrite F1, F2, F3, F4, F5, F6, F7, !s64_mod by assumption.
  unfold rdfs_handle, rdfs_file_name, rdfs_listed, a, b. cbn [re_name re_extension re_offset re_size re_attributes re_modified re_created].
  rewrite !read_pad_field by assumption. reflexivity.
Qed.

Section drive.
Context {S : Type} `{HB : block_store S} (cap : Z) `{HL : !block_store_laws S 1 cap} (Hcap : cap < 2 ^ 32).

Lemma rdfs_read_at s a n : bs_ok s -> 0 <= a -> 0 <= n < 2 ^ 32 -> a + n <= cap ->
  exists s', filesystem_read a 0 n s = Ok (map (bs_view s) (seqZ a n), s') /\ bs_ok s' /\ same_fun (bs_view s) (bs_view s').
Proof using HL.
  intros Hok Ha Hn Hle. destruct (bs_read_law s a 0 n Hok) as (s' & E & H1 & H2); [lia..|].
  exists s'. split; [|split; [exact H1|exact H2]]. rewrite E. do 4 f_equal. lia.
Qed.

Lemma rdfs_entries_spec path id files : forall s a acc, bs_ok s -> 0 <= a -> Forall rdfs_file_ok files ->
  a + Z.of_nat (length (concat (map encode_rdfs files))) <= cap ->
  map (bs_view s) (seqZ a (Z.of_nat (length (concat (map encode_rdfs files))))) = concat (map encode_rdfs files) ->
  exists s', rdfs_entries (length files) path a id acc s = Ok (acc ++ map (rdfs_listed (Some path) id) files, s')
    /\ bs_ok s' /\ same_fun (bs_view s) (bs_view s').
Proof using HL Hcap.
  induction files as [|f files IH]; intros s a acc Hok Ha Hf Hle Hd.
  - exists s. cbn. rewrite app_nil_r. split; [reflexivity|]. split; [exact Hok|intros x; reflexivity].
  - apply Forall_cons in Hf as [Hf1 Hf]. cbn [map concat length] in *. rewrite length_app, encode_rdfs_length, Nat2Z.inj_add in * by exact Hf1.
    rewrite seqZ_app, map_app in Hd by lia. apply app_inj_1 in Hd as [D1 D2];
      [|rewrite length_map, length_seqZ, encode_rdfs_length by exact Hf1; lia].
    cbn [rdfs_entries]. change sizeof_rdfs_dir_entry with (Z.of_nat 36).
    destruct (rdfs_read_at s a (Z.of_nat 36) Hok Ha ltac:(lia) ltac:(lia)) as (s1 & E1 & H1 & H2).
    rewrite (bind_Ok_l _ _ _ E1), D1, decode_encode_rdfs by exact Hf1. rewrite add32_small by lia.
    destruct (IH s1 (a + Z.of_nat 36) (acc ++ [rdfs_listed (Some path) id f]) H1 ltac:(lia) Hf ltac:(lia)) as (s2 & E2 & H3 & H4).
    { etransitivity; [|exact D2]. apply map_ext. intros x. apply H2. }
    exists s2. split; [rewrite E2, <- app_assoc; reflexivity|]. split; [exact H3|]. intros x. rewrite (H4 x). apply H2.
Qed.

(** An image as build.pl lays it out (the number of files, then their entries) is
    listed as exactly its files: both parts of the name, offset, size, times and kind
    come back, and nothing changes. *)
Theorem rdfs_read_dir_correct s dest dir id files : bs_ok s -> 0 <= location_on_disk dir -> Forall rdfs_file_ok files ->
  Z.of_nat (length files) < 2 ^ 32 ->
  let image := le_bytes 4 (Z.of_nat (length files)) ++ concat (map encode_rdfs files) in
  location_on_disk dir + Z.of_nat (length image) <= cap ->
  map (bs_view s) (seqZ (location_on_disk dir) (Z.of_nat (length image))) = image ->
  exists s', rdfs_read_dir dest dir id s
    = Ok (mk_dir (full_path dest) (dir_data dest) (file_list dest ++ map (rdfs_listed (Some (full_path dest)) id) files), s')
    /\ bs_ok s' /\ same_fun (bs_view s) (bs_view s').
Proof using HL Hcap.
  intros Hok Hl Hf Hn image Hle Hd. unfold image in *. rewrite length_app, le_bytes_length, Nat2Z.inj_add in *.
  rewrite seqZ_app, map_app in Hd by lia. apply app_inj_1 in Hd as [D1 D2]; [|rewrite length_map, length_seqZ; reflexivity].
  unfold rdfs_read_dir. destruct (rdfs_read_at s (location_on_disk dir) 4 Hok Hl ltac:(lia) ltac:(lia)) as (s1 & E1 & H1 & H2).
  rewrite (bind_Ok_l _ _ _ E1). change (Z.of_nat 4) with 4 in *. rewrite D1, le_value_bytes, Nat2Z.id by (cbn; lia). rewrite add32_small by lia.
  destruct (rdfs_entries_spec (full_path dest) id files s1 (location_on_disk dir + 4) (file_list dest) H1 ltac:(lia) Hf ltac:(lia)) as (s2 & E2 & H3 & H4).
  { etransitivity; [|exact D2]. apply map_ext. intros x. apply H2. }
  rewrite (bind_Ok_l _ _ _ E2). exists s2. split; [reflexivity|]. split; [exact H3|]. intros x. rewrite (H4 x). apply H2.
Qed.
End drive.

(** ** Plain memory of single bytes *)
#[local] Instance byte_store : block_store (Z -> Z) := {
  filesystem_read b off n f := Ok (map f (seqZ (b + off) n), f);
  filesystem_write b off buf f := Ok (fun a =>
    if (b + off <=? a) && (a <? b + off + Z.of_nat (length buf)) then byte_at buf (a - (b + off)) else f a) }.
#[program, local] Instance byte_laws : block_store_laws (Z -> Z) 1 4096 := {| bs_view f := f; bs_ok _ := True |}.
Next Obligation. intros s b off n _ _ _ _ _. rewrite Z.mul_1_r. eexists. split; [reflexivity|]. split; [exact I|]. intros a. reflexivity. Qed.
Next Obligation. intros s b off buf _ _ _ _ _. rewrite Z.mul_1_r. eexists. split; [reflexivity|]. split; [exact I|]. intros a. reflexivity. Qed.

Definition two_files : list rdfs_file :=
  [mk_rf [105; 110; 105; 116] [101; 108; 102] 0 400 1000 7 (-9); mk_rf [102; 111; 110; 116; 115] [] 1 100 0 0 0].
Definition rdfs_image (a : Z) : Z := byte_at (RDSK ++ le_bytes 4 2 ++ concat (map encode_rdfs two_files)) a.
Definition rdfs_root : file_data_block := mk_fdb 4 0 0 IS_DIR (mk_fmt 0 0).
Lemma rdfs_read_dir_correct_witness : exists s' l, rdfs_read_dir (mk_dir [] rdfs_root []) rdfs_root 0 rdfs_image = Ok (mk_dir [] rdfs_root l, s')
  /\ map fh_name l = [[105; 110; 105; 116; 46; 101; 108; 102]; [102; 111; 110; 116; 115]] /\ map time_created l = [-9; 0].
Proof.
  destruct (rdfs_read_dir_correct 4096 ltac:(lia) rdfs_image (mk_dir [] rdfs_root []) rdfs_root 0 two_files) as (s' & E & _);
    [exact I|vm_compute; discriminate| |vm_compute; reflexivity|vm_compute; discriminate|vm_compute; reflexivity|].
  - repeat constructor; vm_compute; (reflexivity || discriminate).
  - eexists s', _. split; [exact E|]. split; reflexivity.
Defined.
