(* ===== verification/Mbr.v ===== *)
(** * Partition tables (drivers/formats/mbr.cpp)

    A partitioner gets a physical drive and, when the drive already has a virtual drive
    that was not mounted, that one as [base]: the first partition takes it over, the
    others are added. *)
From S2P Require Import Prelude FsUtil Drives DrivesProofs BlockStore Vfs.

Record mbr_partition := mk_part { p_status : Z; p_type : Z; lba_first_sector : Z; sector_count : Z }.
Definition decode_partition (l : list Z) : mbr_partition := mk_part (field_at l 0 1) (field_at l 4 1) (field_at l 8 4) (field_at l 12 4).
Record mbr_info := mk_mbr { mbr_entries : list mbr_partition; mbr_signature : Z * Z }.
Definition sizeof_mbr_info : Z := 66.
Definition mbr_data_offset : Z := 446.
Definition decode_mbr (l : list Z) : mbr_info :=
  mk_mbr [decode_partition (take 16 l); decode_partition (take 16 (drop 16 l)); decode_partition (take 16 (drop 32 l));
          decode_partition (take 16 (drop 48 l))] (field_at l 64 1, field_at l 65 1).

Section mbr.
Context {S : Type} (read_from_disk : Z -> Z -> Z -> Z -> S -> outcome (list Z * S)).
Notation reg := (registry S).

(** [base->first_block = ...; base->num_blocks = ...]. *)
Definition set_extent (first num : Z) (d : virtual_drive S) : virtual_drive S :=
  mk_vdrive (vd_disk d) (vd_disk_read_only d) (vd_driver d) (vd_id d) first num (vd_root_dir d) (vd_mounted d) (vd_read_only d).
Fixpoint mbr_loop (ps : list mbr_partition) (drive : Z) (base : option Z) (g : reg) : outcome reg :=
  match ps with
  | [] => Ok g
  | p :: ps =>
    if sector_count p =? 0 then mbr_loop ps drive base g else
    match base with
    | Some b =>
      d ← fetch (r_virtual_drives g) b;
      l ← store (r_virtual_drives g) b (set_extent (lba_first_sector p) (sector_count p) d);
      mbr_loop ps drive None (set_vdrives l g)
    | None =>
      g ← filesystem_add_virtual_drive drive (lba_first_sector p) (sector_count p) g;
      mbr_loop ps drive None g
    end
  end.
Definition mbr_read_partitions : partition_func (S := S) := fun drive base g =>
  '(l, s) ← read_from_disk drive 0 mbr_data_offset sizeof_mbr_info (r_store g);
  let g := set_store s g in
  let boot := decode_mbr l in
  if ((mbr_signature boot).1 =? 0x55) || ((mbr_signature boot).2 =? 0xAA) then
    '(boot_code, s) ← read_from_disk drive 0 0 3 (r_store g);
    let g := set_store s g in
    if (field_at boot_code 0 1 =? 0xEB) || (field_at boot_code 2 1 =? 0x90) then Ok (0, g)
    else g ← mbr_loop (mbr_entries boot) drive base g; Ok (0, g)
  else Ok (-1, g).

(** ** What becomes of a partition table *)
Definition in_use (p : mbr_partition) : bool := negb (sector_count p =? 0).
Definition partition_drive (drive : Z) (ro : bool) (id : Z) (p : mbr_partition) : virtual_drive S :=
  mk_vdrive drive ro None id (lba_first_sector p) (sector_count p) None false false.
(** The new drives and their numbers. *)
Fixpoint new_drives (drive : Z) (ro : bool) (id : Z) (ps : list mbr_partition) : list (virtual_drive S) :=
  match ps with [] => [] | p :: ps => partition_drive drive ro id p :: new_drives drive ro (id + 1) ps end.
Definition with_drives (drive : Z) (num : Z) (ro : bool) (ps : list mbr_partition) (g g' : reg) : Prop :=
  r_virtual_drives g' = r_virtual_drives g ++ new_drives drive ro (filesystem_get_num_drives g) ps /\
  (exists parts, r_partition_map g !! Z.to_nat drive = Some parts /\
     r_partition_map g' = <[Z.to_nat drive := parts ++ seqZ (filesystem_get_num_drives g) (Z.of_nat (length ps))]> (r_partition_map g)) /\
  r_drives g' = r_drives g /\ r_fs_drivers g' = r_fs_drivers g /\ r_store g' = r_store g.

Lemma add_drive_spec drive num ro p g : 0 <= drive < Z.of_nat (length (r_partition_map g)) ->
  r_drives g !! Z.to_nat drive = Some (num, ro) ->
  exists g', filesystem_add_virtual_drive drive (lba_first_sector p) (sector_count p) g = Ok g' /\ with_drives drive num ro [p] g g'.
Proof.
  intros Hd Hdr. unfold filesystem_add_virtual_drive. rewrite (bind_Ok_l _ _ _ (fetch_Ok _ drive _ (proj1 Hd) Hdr)).
  cbn [r_partition_map set_vdrives]. rewrite (proj2 (Z.ltb_lt _ _)) by lia. rewrite (bind_Ok_l (k_assert true) _ tt eq_refl).
  destruct (lookup_lt_is_Some_2 (r_partition_map g) (Z.to_nat drive)) as [parts Hp]; [lia|].
  rewrite (bind_Ok_l _ _ _ (fetch_Ok _ drive _ (proj1 Hd) Hp)). unfold store. rewrite decide_True by lia. eexists. split; [reflexivity|].
  split; [reflexivity|]. split; [exists parts; split; [exact Hp|reflexivity]|]. repeat split.
Qed.

Lemma mbr_loop_none drive num ro ps : forall g, 0 <= drive < Z.of_nat (length (r_partition_map g)) ->
  r_drives g !! Z.to_nat drive = Some (num, ro) ->
  exists g', mbr_loop ps drive None g = Ok g' /\ with_drives drive num ro (List.filter in_use ps) g g'.
Proof.
  induction ps as [|p ps IH]; intros g Hd Hdr.
  - exists g. split; [reflexivity|]. destruct (lookup_lt_is_Some_2 (r_partition_map g) (Z.to_nat drive)) as [parts Hp]; [lia|].
    split; [cbn; rewrite app_nil_r; reflexivity|]. split; [|repeat split]. exists parts. split; [exact Hp|].
    cbn [List.filter length]. change (seqZ _ (Z.of_nat 0)) with (@nil Z). rewrite app_nil_r, list_insert_id by exact Hp. reflexivity.
  - cbn [mbr_loop List.filter]. unfold in_use at 1. destruct (sector_count p =? 0); cbn [negb]; [apply IH; assumption|].
    destruct (add_drive_spec drive num ro p g Hd Hdr) as (g1 & E1 & W1 & (parts & P1 & P2) & W3 & W4 & W5). rewrite (bind_Ok_l _ _ _ E1).
    destruct (IH g1) as (g2 & E2 & V1 & (parts2 & Q1 & Q2) & V3 & V4 & V5); [rewrite P2, length_insert; exact Hd|rewrite W3; exact Hdr|].
    exists g2. split; [exact E2|].
    assert (Hn : filesystem_get_num_drives g1 = filesystem_get_num_drives g + 1).
    { unfold filesystem_get_num_drives. rewrite W1, length_app. cbn [new_drives length]. lia. }
    rewrite Hn in *. split; [rewrite V1, W1, <- app_assoc; reflexivity|]. split; [|split; [congruence|split; congruence]].
    exists parts. split; [exact P1|]. rewrite P2, list_lookup_insert_eq in Q1 by (apply lookup_lt_is_Some_1; eauto). injection Q1 as <-.
    rewrite Q2, P2, list_insert_insert_eq, <- app_assoc. do 2 f_equal. cbn [length]. change (Z.of_nat 1) with 1.
    rewrite <- seqZ_app by lia. f_equal. lia.
Qed.
End mbr.

(** ** The partitioner *)
Section partitions.
Context {S : Type} (read_from_disk : Z -> Z -> Z -> Z -> S -> outcome (list Z * S)) (drive num : Z) (ro : bool) (sector : list Z).
(** The drive has a first sector, and reading it changes nothing the registry sees. *)
Context (Hread : forall off n s, 0 <= off -> 0 <= n -> off + n <= 512 ->
  read_from_disk drive 0 off n s = Ok (take (Z.to_nat n) (drop (Z.to_nat off) sector), s)).
Notation reg := (registry S).

Definition table : mbr_info := decode_mbr (take 66 (drop 446 sector)).
Definition has_signature : bool := ((mbr_signature table).1 =? 0x55) || ((mbr_signature table).2 =? 0xAA).
Definition fat_like : bool := (field_at (take 3 (drop 0 sector)) 0 1 =? 0xEB) || (field_at (take 3 (drop 0 sector)) 2 1 =? 0x90).

Lemma set_store_same (g : reg) : set_store (r_store g) g = g.
Proof using. destruct g; reflexivity. Qed.

Lemma mbr_read_spec base g : mbr_read_partitions read_from_disk drive base g =
  if has_signature then if fat_like then Ok (0, g) else g ← mbr_loop (mbr_entries table) drive base g; Ok (0, g)
  else Ok (-1, g).
Proof using Hread.
  unfold mbr_read_partitions. rewrite (bind_Ok_l _ _ _ (Hread 446 66 (r_store g) ltac:(lia) ltac:(lia) ltac:(lia))).
  rewrite set_store_same.
  change (decode_mbr (take (Z.to_nat 66) (drop (Z.to_nat 446) sector))) with table. cbv zeta. fold has_signature. destruct has_signature; [|reflexivity].
  rewrite (bind_Ok_l _ _ _ (Hread 0 3 (r_store g) ltac:(lia) ltac:(lia) ltac:(lia))). rewrite set_store_same. reflexivity.
Qed.

(** A drive with a partition table gets one virtual drive per entry that is in use,
    in the order of the table, with the extent the entry gives and numbers that follow
    the existing ones; nothing else of the registry changes.  A drive without the
    signature is left alone and reported as such. *)
Theorem mbr_read_partitions_correct (g : reg) : 0 <= drive < Z.of_nat (length (r_partition_map g)) ->
  r_drives g !! Z.to_nat drive = Some (num, ro) -> fat_like = false ->
  exists r g', mbr_read_partitions read_from_disk drive None g = Ok (r, g') /\
    if has_signature then r = 0 /\ with_drives drive num ro (List.filter in_use (mbr_entries table)) g g' else r = -1 /\ g' = g.
Proof using Hread.
  intros Hd Hdr Hf. rewrite mbr_read_spec, Hf. destruct has_signature; [|exists (-1), g; repeat split].
  destruct (mbr_loop_none drive num ro (mbr_entries table) g Hd Hdr) as (g' & E & W). rewrite (bind_Ok_l _ _ _ E).
  exists 0, g'. split; [reflexivity|]. split; [reflexivity|exact W].
Qed.
End partitions.

(** ** A disk with two partitions *)
Definition entry_bytes (type first count : Z) : list Z := [0; 0; 0; 0; type; 0; 0; 0] ++ le_bytes 4 first ++ le_bytes 4 count.
Definition mbr_sector (code : list Z) : list Z :=
  code ++ repeat 0 (446 - length code) ++ entry_bytes 0x83 63 1000 ++ entry_bytes 0 0 0 ++ entry_bytes 6 2048 500 ++ entry_bytes 0 0 0 ++ [0x55; 0xAA].
Definition read_sector (sector : list Z) (drive block off n : Z) (s : unit) : outcome (list Z * unit) :=
  Ok (take (Z.to_nat n) (drop (Z.to_nat off) sector), s).
Definition one_drive : registry unit := mk_reg [] [] [(4096, false)] [[]] tt.

Lemma mbr_read_partitions_correct_witness :
  (exists r g', mbr_read_partitions (read_sector (mbr_sector [])) 0 None one_drive = Ok (r, g') /\ r = 0 /\
    map (fun d => (vd_id d, vd_first_block d, vd_num_blocks d)) (r_virtual_drives g') = [(0, 63, 1000); (1, 2048, 500)] /\
    r_partition_map g' = [[0; 1]]).
Proof.
  destruct (mbr_read_partitions_correct (read_sector (mbr_sector [])) 0 4096 false (mbr_sector []) (fun _ _ _ _ _ _ => eq_refl) one_drive)
    as (r & g' & E & H); [vm_compute; split; [discriminate|reflexivity]|reflexivity|reflexivity|].
  assert (Hs : has_signature (mbr_sector []) = true) by reflexivity. rewrite Hs in H. destruct H as (-> & H1 & (parts & H2 & H3) & _).
  exists 0, g'. split; [exact E|]. split; [reflexivity|]. split; [rewrite H1; vm_compute; reflexivity|].
  rewrite H3. injection H2 as <-. vm_compute. reflexivity.
Defined.

(** A boot loader that starts with a jump (EB 63 90, GRUB's) is taken for a FAT boot
    sector: no partition is added, and because the result says that a table was found
    the drive itself is not added either. *)
Example grub_disk_disappears : filesystem_read_drive_partitions [mbr_read_partitions (read_sector (mbr_sector [0xEB; 0x63; 0x90]))] 0 None one_drive
  = Ok one_drive.
Proof. vm_compute. reflexivity. Qed.
(** One byte of the signature is enough. *)
Example half_a_signature : mbr_read_partitions (read_sector (repeat 0x55 512)) 0 None one_drive <> Ok (-1, one_drive).
Proof. vm_compute. discriminate. Qed.
