(* ===== verification/Terminal.v ===== *)
(** * The text terminal (api/terminal/terminal.cpp)

    The display memory is a list of cells; writing outside it faults, like reading past
    the end of the text.  The shared state, the display memory and the static variable
    of the escape sequences are one record. *)
From S2P Require Import Prelude Ctype.

Record text_char := mk_char { ch : Z; attr : Z }.
#[export] Instance text_char_eq_dec : EqDecision text_char.
Proof. solve_decision. Defined.

Definition vt100_colors : list Z := [0x00; 0x04; 0x02; 0x06; 0x01; 0x05; 0x03; 0x07].
Definition tab_size : Z := 4.
Definition DISPLAY_TEXT_MODE : Z := 0x01.

Record terminal := mk_term {
  t_width : Z; t_height : Z; t_total_size : Z; t_last_row_start : Z; t_cursor_pos : Z;
  t_is_bright : Z; t_fgr_color : Z; t_bgr_color : Z; t_color : Z; t_clear_val : text_char;
  t_screen : list text_char; t_display_cursor : Z; t_cursorstore : Z }.

Definition set_screen (l : list text_char) (t : terminal) : terminal :=
  mk_term (t_width t) (t_height t) (t_total_size t) (t_last_row_start t) (t_cursor_pos t) (t_is_bright t) (t_fgr_color t)
    (t_bgr_color t) (t_color t) (t_clear_val t) l (t_display_cursor t) (t_cursorstore t).
(** [impl::set_cursor_pos(offset)]: the state and the display. *)
Definition set_cursor (offset : Z) (t : terminal) : terminal :=
  mk_term (t_width t) (t_height t) (t_total_size t) (t_last_row_start t) offset (t_is_bright t) (t_fgr_color t)
    (t_bgr_color t) (t_color t) (t_clear_val t) (t_screen t) offset (t_cursorstore t).
(** [impl::set_cursor_pos(x, y)]. *)
Definition set_cursor_xy (x y : Z) (t : terminal) : terminal := set_cursor (add32 (mul32 y (t_height t)) x) t.
Definition restore_cursor (t : terminal) : terminal :=
  mk_term (t_width t) (t_height t) (t_total_size t) (t_last_row_start t) (t_cursorstore t) (t_is_bright t) (t_fgr_color t)
    (t_bgr_color t) (t_color t) (t_clear_val t) (t_screen t) (t_display_cursor t) (t_cursorstore t).
Definition save_cursor (t : terminal) : terminal :=
  mk_term (t_width t) (t_height t) (t_total_size t) (t_last_row_start t) (t_cursor_pos t) (t_is_bright t) (t_fgr_color t)
    (t_bgr_color t) (t_color t) (t_clear_val t) (t_screen t) (t_display_cursor t) (t_cursor_pos t).

Definition set_color (bgr fgr bright : Z) (t : terminal) : terminal :=
  let color := Z.lor (u8 (Z.shiftl (Z.land bgr 0x0f) 4)) (u8 (Z.land (fgr + Z.land bright 0x01 * 8) 0x0f)) in
  mk_term (t_width t) (t_height t) (t_total_size t) (t_last_row_start t) (t_cursor_pos t) bright fgr bgr color (mk_char 0 color)
    (t_screen t) (t_display_cursor t) (t_cursorstore t).
Definition set_ansi_color (bgr fgr : Z) (t : terminal) : outcome terminal :=
  b ← fetch vt100_colors (Z.land bgr 0x07); f ← fetch vt100_colors (Z.land fgr 0x07); Ok (set_color b f (t_is_bright t) t).

(** [std::fill] of [n] cells from [at_].  [memcpy], whose ranges overlap in [scroll_up],
    is [copy_up] of the prelude: cell by cell, upwards. *)
Fixpoint fill_cells (n : nat) (at_ : Z) (v : text_char) (l : list text_char) : outcome (list text_char) :=
  match n with O => Ok l | S n => l ← store l at_ v; fill_cells n (at_ + 1) v l end.

Definition clear (t : terminal) : outcome terminal :=
  l ← fill_cells (Z.to_nat (t_total_size t)) 0 (t_clear_val t) (t_screen t);
  Ok (set_cursor 0 (set_screen l t)).
Definition clear_row (row : Z) (t : terminal) : outcome terminal :=
  l ← fill_cells (Z.to_nat (t_width t)) (mul32 row (t_width t)) (t_clear_val t) (t_screen t); Ok (set_screen l t).
Definition scroll_up (t : terminal) : outcome terminal :=
  l ← copy_up (Z.to_nat (sub32 (t_total_size t) (t_width t))) 0 (t_width t) (t_screen t);
  clear_row (sub32 (t_height t) 1) (set_cursor_xy (sub32 (t_height t) 1) 0 (set_screen l t)).

(** The characters go where the coordinate says, wherever that is. *)
Fixpoint write_chars (chars : list Z) (coord : Z) (t : terminal) : outcome terminal :=
  match chars with
  | [] => Ok t
  | c :: chars => l ← store (t_screen t) coord (mk_char c (t_color t)); write_chars chars (coord + 1) (set_screen l t)
  end.
Definition write_chars_at_pos (x y : Z) (chars : list Z) (t : terminal) : outcome terminal :=
  write_chars chars (add32 x (mul32 y (t_width t))) t.
Definition write_char_at_pos (x y c num_chars : Z) (t : terminal) : outcome terminal :=
  write_chars_at_pos x y (repeat c (Z.to_nat num_chars)) t.
Definition delete_chars (num : Z) (t : terminal) : outcome terminal :=
  let cursor := t_cursor_pos t in
  l ← fill_cells (Z.to_nat num) (cursor - num) (t_clear_val t) (t_screen t);
  Ok (set_cursor (sub32 cursor num) (set_screen l t)).

(** ** Escape sequences: [seq] is an index into the text *)
Fixpoint parse_digits (fuel : nat) (str : list Z) (seq argnum : Z) (args : list Z) : outcome (Z * list Z) :=
  match fuel with
  | O => Fault OutOfFuel
  | S fuel =>
    c ← fetch str seq;
    digit ← isdigit (s8 c);
    if digit : bool then
      a ← fetch args argnum; args ← store args argnum (add32 (mul32 a 10) (c - 48));
      parse_digits fuel str (seq + 1) argnum args
    else Ok (seq, args)
  end.
Fixpoint parse_args (fuel : nat) (str : list Z) (seq argnum : Z) (args : list Z) : outcome (Z * Z * list Z) :=
  match fuel with
  | O => Fault OutOfFuel
  | S fuel =>
    '(seq, args) ← parse_digits (S (length str)) str (seq + 1) argnum args;
    c ← fetch str seq;
    if c =? 59 then parse_args fuel str seq (argnum + 1) args else Ok (seq, argnum + 1, args)
  end.
Definition sgr (comm : Z) (t : terminal) : outcome terminal :=
  if comm =? 1 then Ok (set_color (t_bgr_color t) (t_fgr_color t) 1 t)
  else if comm =? 22 then Ok (set_color (t_bgr_color t) (t_fgr_color t) 0 t)
  else if (30 <=? comm) && (comm <=? 37) then
    c ← fetch vt100_colors (comm - 30); Ok (set_color (t_bgr_color t) c (t_is_bright t) t)
  else if (40 <=? comm) && (comm <=? 47) then
    c ← fetch vt100_colors (comm - 40); Ok (set_color c (t_fgr_color t) (t_is_bright t) t)
  else Ok t.
Fixpoint sgr_loop (n : nat) (i : Z) (args : list Z) (t : terminal) : outcome terminal :=
  match n with O => Ok t | S n => comm ← fetch args i; t ← sgr comm t; sgr_loop n (i + 1) args t end.
Definition handle_escape_sequence (str : list Z) (sequence : Z) (t : terminal) : outcome (Z * terminal) :=
  let seq := sequence + 1 in
  c ← fetch str seq;
  if negb (c =? 91) then Ok (seq - sequence, t) else
  '(seq, argnum, args) ← parse_args (S (length str)) str seq 0 [0; 0; 0; 0];
  c ← fetch str seq; n ← fetch args 0; a1 ← fetch args 1;
  t ← (if c =? 74 then (if n =? 2 then clear t else Ok t)
       else if c =? 72 then Ok (set_cursor_xy (sub32 n 1) (sub32 a1 1) t)
       else if c =? 109 then sgr_loop (Z.to_nat argnum) 0 args t
       else if c =? 115 then Ok (save_cursor t)
       else if c =? 117 then Ok (restore_cursor t)
       else Ok t);
  Ok (seq - sequence, t).

(** ** Printing: the result of [handle_char] is the move of the position. *)
Definition handle_char (source pos : Z) (t : terminal) : outcome (Z * terminal) :=
  if source =? 13 then Ok (0, t)
  else if source =? 10 then
    if t_width t =? 0 then Fault AssertFailed else Ok (t_width t - pos mod t_width t, t)
  else if source =? 9 then Ok (tab_size - pos mod tab_size, t)
  else if source =? 8 then
    c ← fetch (t_screen t) pos; l ← store (t_screen t) pos (mk_char 0 (attr c)); Ok (-1, set_screen l t)
  else l ← store (t_screen t) pos (mk_char source (t_color t)); Ok (1, set_screen l t).

Fixpoint print_loop (fuel : nat) (str : list Z) (i pos : Z) (t : terminal) : outcome (Z * terminal) :=
  match fuel with
  | O => Fault OutOfFuel
  | S fuel =>
    if i <? Z.of_nat (length str) then
      c ← fetch str i;
      '(i, pos, t) ← (if c =? 0x1b then
          '(n, t) ← handle_escape_sequence str i t; Ok (i + n, pos, t)
        else '(n, t) ← handle_char c pos t; Ok (i, add32 pos n, t));
      '(pos, t) ← (if t_total_size t <=? pos then t ← scroll_up t; Ok (t_last_row_start t, t) else Ok (pos, t));
      print_loop fuel str (i + 1) pos t
    else Ok (pos, t)
  end.
Definition print (str : list Z) (t : terminal) : outcome terminal :=
  '(pos, t) ← print_loop (S (length str)) str 0 (t_cursor_pos t) t;
  Ok (set_cursor pos t).
Definition print_char (c : Z) (t : terminal) : outcome terminal := print [c] t.
Fixpoint print_repeated (c : Z) (num : nat) (t : terminal) : outcome terminal :=
  match num with O => Ok t | S num => t ← print [c] t; print_repeated c num t end.

(** ** Modes: what the display answers to a request, and its memory, are arguments. *)
Section mode.
Context (request : Z -> Z -> Z * (Z * Z * Z)) (map_display_memory : list text_char).
Definition set_display_mode (width height : Z) (t : terminal) : Z * terminal :=
  let '(err, (w, h, flags)) := request width height in
  if has flags DISPLAY_TEXT_MODE then
    (err, mk_term w h (mul32 w h) (mul32 w (sub32 h 1)) (t_cursor_pos t) (t_is_bright t) (t_fgr_color t) (t_bgr_color t) (t_color t)
            (t_clear_val t) (t_screen t) (t_display_cursor t) (t_cursorstore t))
  else (err, t).
Definition set_mode (width height : Z) (t : terminal) : Z * terminal :=
  let '(err, t) := set_display_mode width height t in (err, set_screen map_display_memory t).
(** A new shared state; [cursorstore] belongs to the program. *)
Definition shared_terminal_state (store : Z) : terminal :=
  mk_term 0 0 0 0 0 0x1 0x07 0x0 0x0f (mk_char 0 0x0f) map_display_memory 0 store.
Definition new_terminal (width height : Z) (store : Z) : terminal := (set_display_mode width height (shared_terminal_state store)).2.
End mode.
