(* ===== verification/TerminalProofs.v ===== *)
(** * The terminal is a window on a roll of paper

    Text without escape sequences and backspaces is printed on paper that never ends; the
    screen shows the last [h] rows of it.  Scrolling, which moves every cell of the
    screen, is moving the window. *)
From S2P Require Import Prelude Ctype Terminal.

Record paper := mk_paper { p_cells : Z -> text_char; p_top : Z; p_at : Z }.

(** A cell, the start of the next row, the next tab stop; and the window follows. *)
Definition paper_move (w color c : Z) (p : paper) : paper :=
  let rel := p_at p - p_top p * w in
  if c =? 13 then p
  else if c =? 10 then mk_paper (p_cells p) (p_top p) (p_at p + (w - rel mod w))
  else if c =? 9 then mk_paper (p_cells p) (p_top p) (p_at p + (tab_size - rel mod tab_size))
  else mk_paper (fun x => if x =? p_at p then mk_char c color else p_cells p x) (p_top p) (p_at p + 1).
Definition paper_char (w h color c : Z) (p : paper) : paper :=
  let p := paper_move w color c p in
  if (p_top p + h) * w <=? p_at p then mk_paper (p_cells p) (p_top p + 1) ((p_top p + h) * w) else p.
Definition paper_text (w h color : Z) (str : list Z) (p : paper) : paper := fold_left (fun p c => paper_char w h color c p) str p.

Record term_ok (t : terminal) : Prop := {
  tk_width : 0 < t_width t;
  tk_height : 0 < t_height t;
  tk_small : t_width t * t_height t < 2 ^ 31;
  tk_total : t_total_size t = t_width t * t_height t;
  tk_last : t_last_row_start t = t_width t * (t_height t - 1);
  tk_screen : t_total_size t <= Z.of_nat (length (t_screen t)) }.

(** The screen is what the paper shows, and the paper below it is blank. *)
Definition window (t : terminal) (p : paper) : Prop :=
  (forall i, 0 <= i < t_total_size t -> t_screen t !! Z.to_nat i = Some (p_cells p (p_top p * t_width t + i))) /\
  (forall x, (p_top p + t_height t) * t_width t <= x -> p_cells p x = t_clear_val t).
Definition shows (t : terminal) (pos : Z) (p : paper) : Prop :=
  0 <= pos < t_total_size t /\ p_at p = p_top p * t_width t + pos /\ window t p.

(** What printing plain text leaves as it is: all but the cursor and the visible cells. *)
Definition same_settings (t t' : terminal) : Prop :=
  t_width t' = t_width t /\ t_height t' = t_height t /\ t_total_size t' = t_total_size t /\ t_last_row_start t' = t_last_row_start t /\
  t_color t' = t_color t /\ t_clear_val t' = t_clear_val t /\ length (t_screen t') = length (t_screen t) /\
  forall i, t_total_size t <= i -> t_screen t' !! Z.to_nat i = t_screen t !! Z.to_nat i.

Lemma same_settings_refl t : same_settings t t.
Proof. repeat split. Qed.
Lemma same_settings_trans t1 t2 t3 : same_settings t1 t2 -> same_settings t2 t3 -> same_settings t1 t3.
Proof.
  intros (A1 & A2 & A3 & A4 & A5 & A6 & A7 & A8) (B1 & B2 & B3 & B4 & B5 & B6 & B7 & B8).
  repeat (split; [congruence|]). intros i Hi. rewrite B8, A8 by lia. reflexivity.
Qed.
Lemma term_ok_same t t' : same_settings t t' -> term_ok t -> term_ok t'.
Proof. intros (A1 & A2 & A3 & A4 & A5 & A6 & A7 & A8) [B1 B2 B3 B4 B5 B6]. constructor; rewrite ?A1, ?A2, ?A3, ?A4, ?A7; assumption. Qed.

Lemma fill_cells_spec n v : forall at_ l, 0 <= at_ -> at_ + Z.of_nat n <= Z.of_nat (length l) ->
  exists l', fill_cells n at_ v l = Ok l' /\ length l' = length l /\
    forall i, 0 <= i -> l' !! Z.to_nat i = if (at_ <=? i) && (i <? at_ + Z.of_nat n) then Some v else l !! Z.to_nat i.
Proof.
  induction n as [|n IH]; intros at_ l Ha Hl.
  - exists l. split; [reflexivity|]. split; [reflexivity|]. intros i Hi.
    destruct (Z.leb_spec at_ i), (Z.ltb_spec i (at_ + Z.of_nat 0)); cbn [andb]; try reflexivity; lia.
  - cbn [fill_cells]. destruct (store_in l at_ v) as (l1 & E1 & L1 & G1); [lia|]. rewrite (bind_Ok_l _ _ _ E1).
    destruct (IH (at_ + 1) l1) as (l' & E & L & G); [lia..|]. exists l'. split; [exact E|]. split; [congruence|].
    intros i Hi. rewrite G, G1 by lia.
    destruct (Z.leb_spec (at_ + 1) i), (Z.ltb_spec i (at_ + 1 + Z.of_nat n)), (Z.leb_spec at_ i), (Z.ltb_spec i (at_ + Z.of_nat (S n))),
      (Z.eqb_spec i at_); cbn [andb]; try reflexivity; lia.
Qed.

(** Scrolling moves the rows up by one and blanks the last one. *)
Lemma scroll_up_spec t : term_ok t ->
  exists t', scroll_up t = Ok t' /\ same_settings t t' /\
    forall i, 0 <= i < t_total_size t -> t_screen t' !! Z.to_nat i =
      if i <? t_last_row_start t then t_screen t !! Z.to_nat (i + t_width t) else Some (t_clear_val t).
Proof.
  intros [W H S T L Sc]. assert (P : 0 <= t_width t * (t_height t - 1)) by (apply Z.mul_nonneg_nonneg; lia).
  assert (E : t_width t * t_height t = t_width t * (t_height t - 1) + t_width t) by lia.
  unfold scroll_up. rewrite (sub32_small (t_total_size t)) by lia. replace (t_total_size t - t_width t) with (t_last_row_start t) by lia.
  destruct (copy_up_spec (Z.to_nat (t_last_row_start t)) (t_screen t) 0 (t_width t)) as (l1 & E1 & L1 & G1); [lia..|].
  rewrite (bind_Ok_l _ _ _ E1). unfold clear_row, set_cursor_xy. rewrite (sub32_small (t_height t)) by nia.
  cbn [t_width t_height set_cursor set_screen t_clear_val t_screen].
  rewrite (mul32_small (t_height t - 1)) by lia. replace ((t_height t - 1) * t_width t) with (t_last_row_start t) by lia.
  destruct (fill_cells_spec (Z.to_nat (t_width t)) (t_clear_val t) (t_last_row_start t) l1) as (l2 & E2 & L2 & G2); [lia..|].
  rewrite (bind_Ok_l _ _ _ E2). eexists. split; [reflexivity|]. split.
  - repeat (split; [reflexivity|]). cbn [t_screen set_screen]. split; [congruence|]. intros i Hi. rewrite G2, G1 by lia.
    rewrite !(proj2 (Z.ltb_ge _ _)), !andb_false_r by lia. reflexivity.
  - intros i Hi. cbn [t_screen set_screen]. rewrite G2 by lia. destruct (Z.ltb_spec i (t_last_row_start t)).
    + rewrite (proj2 (Z.leb_gt _ _)) by lia. cbn [andb]. rewrite G1 by lia. rewrite (proj2 (Z.leb_le _ _)), (proj2 (Z.ltb_lt _ _)) by lia.
      cbn [andb]. same_index.
    + rewrite (proj2 (Z.leb_le _ _)), (proj2 (Z.ltb_lt _ _)) by lia. reflexivity.
Qed.

(** A character of plain text. *)
Definition plain (c : Z) : Prop := c <> 0x1b /\ c <> 8.

Lemma handle_char_spec t pos p c : term_ok t -> shows t pos p -> c <> 8 ->
  exists n t', handle_char c pos t = Ok (n, t') /\ same_settings t t' /\ window t' (paper_move (t_width t) (t_color t) c p) /\
    p_top (paper_move (t_width t) (t_color t) c p) = p_top p /\
    p_at (paper_move (t_width t) (t_color t) c p) = p_top p * t_width t + (pos + n) /\ 0 <= n <= Z.max 4 (t_width t).
Proof.
  intros [W H S T L Sc] (Hpos & Hat & Hw1 & Hw2) C8. unfold handle_char, paper_move.
  replace (p_at p - p_top p * t_width t) with pos by lia.
  destruct (Z.eqb_spec c 13) as [_|_]; [exists 0, t; split; [reflexivity|]; split; [apply same_settings_refl|]; split; [split; assumption|lia]|].
  destruct (Z.eqb_spec c 10) as [_|_].
  { rewrite (proj2 (Z.eqb_neq _ _)) by lia. pose proof (Z.mod_pos_bound pos (t_width t) W).
    eexists _, t. split; [reflexivity|]. split; [apply same_settings_refl|]. split; [split; assumption|]. cbn [p_at p_top]. lia. }
  destruct (Z.eqb_spec c 9) as [_|_].
  { unfold tab_size. pose proof (Z.mod_pos_bound pos 4 ltac:(lia)).
    eexists _, t. split; [reflexivity|]. split; [apply same_settings_refl|]. split; [split; assumption|]. cbn [p_at p_top]. lia. }
  destruct (Z.eqb_spec c 8) as [E8|_]; [contradiction|].
  destruct (store_in (t_screen t) pos (mk_char c (t_color t))) as (l & E & Ll & G); [lia|]. rewrite (bind_Ok_l _ _ _ E).
  exists 1, (set_screen l t). split; [reflexivity|]. split; [|split; [|cbn [p_at p_top]; lia]].
  - repeat (split; [reflexivity|]). cbn [t_screen set_screen]. split; [exact Ll|]. intros i Hi. rewrite G by lia.
    destruct (Z.eqb_spec i pos); [lia|reflexivity].
  - assert (R : (p_top p + t_height t) * t_width t = p_top p * t_width t + t_width t * t_height t) by lia.
    split; cbn [t_screen t_width t_height t_clear_val set_screen p_cells p_top t_total_size].
    + intros i Hi. rewrite G by lia. destruct (Z.eqb_spec i pos), (Z.eqb_spec (p_top p * t_width t + i) (p_at p)); try lia; [reflexivity|].
      apply Hw1. exact Hi.
    + intros x Hx. destruct (Z.eqb_spec x (p_at p)); [lia|]. apply Hw2. exact Hx.
Qed.

(** One character: what is printed, and the window after it. *)
Lemma print_step t pos p c : term_ok t -> shows t pos p -> c <> 8 ->
  exists pos' t', ('(n, t1) ← handle_char c pos t;
      if t_total_size t1 <=? add32 pos n then t2 ← scroll_up t1; Ok (t_last_row_start t2, t2) else Ok (add32 pos n, t1)) = Ok (pos', t') /\
    same_settings t t' /\ shows t' pos' (paper_char (t_width t) (t_height t) (t_color t) c p).
Proof.
  intros Hok Hs Hc. destruct (handle_char_spec t pos p c Hok Hs Hc) as (n & t1 & E1 & S1 & Hw & Htop & Hat & Hn).
  pose proof Hs as (Hpos & _). pose proof Hok as [W H S T L Sc]. rewrite (bind_Ok_l _ _ _ E1).
  assert (t_width t <= t_width t * t_height t) by nia. rewrite add32_small by lia.
  unfold paper_char. set (q := paper_move _ _ _ _) in *. rewrite Htop, Hat.
  pose proof (term_ok_same t t1 S1 Hok) as Hok1. pose proof S1 as (Q1 & Q2 & Q3 & Q4 & Q5 & Q6 & Q7 & Q8). rewrite Q3.
  assert (R : (p_top p + t_height t) * t_width t = p_top p * t_width t + t_total_size t) by lia. rewrite R.
  destruct (Z.leb_spec (t_total_size t) (pos + n)), (Z.leb_spec (p_top p * t_width t + t_total_size t) (p_top p * t_width t + (pos + n))); try lia.
  - destruct (scroll_up_spec t1 Hok1) as (t2 & E2 & S2 & G). rewrite (bind_Ok_l _ _ _ E2). eexists _, t2. split; [reflexivity|].
    pose proof (same_settings_trans _ _ _ S1 S2) as S12. split; [exact S12|]. destruct S12 as (P1 & P2 & P3 & P4 & P5 & P6 & _).
    destruct Hw as [Hw1 Hw2]. rewrite Q1, Q2, Q3, Q4, Q6, Htop in *. unfold shows, window. cbn [p_cells p_top p_at]. rewrite P1, P2, P3, P4, P6.
    assert (0 <= t_width t * (t_height t - 1)) by (apply Z.mul_nonneg_nonneg; lia).
    split; [lia|]. split; [lia|]. split.
    + intros i Hi. rewrite G by lia. destruct (Z.ltb_spec i (t_last_row_start t)).
      * rewrite Hw1 by lia. do 2 f_equal. lia.
      * rewrite Hw2 by lia. reflexivity.
    + intros x Hx. apply Hw2. lia.
  - eexists _, t1. split; [reflexivity|]. split; [exact S1|]. unfold shows. rewrite Q1, Q3, Htop, Hat. split; [lia|]. split; [reflexivity|exact Hw].
Qed.

Lemma print_loop_spec str fuel : forall done rest t pos p, str = done ++ rest -> term_ok t -> shows t pos p -> Forall plain rest ->
  (length rest < fuel)%nat ->
  exists pos' t', print_loop fuel str (Z.of_nat (length done)) pos t = Ok (pos', t') /\ same_settings t t' /\
    shows t' pos' (paper_text (t_width t) (t_height t) (t_color t) rest p).
Proof.
  induction fuel as [|fuel IH]; intros done rest t pos p Hstr Hok Hs Hp Hf; [lia|]. cbn [print_loop]. destruct rest as [|c rest].
  - rewrite app_nil_r in Hstr. subst str. rewrite (proj2 (Z.ltb_ge _ _)) by lia. exists pos, t. split; [reflexivity|].
    split; [apply same_settings_refl|exact Hs].
  - apply Forall_cons in Hp as [Hc Hp]. rewrite (proj2 (Z.ltb_lt _ _)) by (subst str; rewrite length_app; cbn [length]; lia).
    assert (Ef : fetch str (Z.of_nat (length done)) = Ok c).
    { apply fetch_Ok; [lia|]. subst str. rewrite Nat2Z.id, lookup_app_r, Nat.sub_diag by lia. reflexivity. }
    rewrite (bind_Ok_l _ _ _ Ef). rewrite (proj2 (Z.eqb_neq c 0x1b)) by apply Hc.
    destruct (handle_char_spec t pos p c Hok Hs (proj2 Hc)) as (n & t1 & E1 & _).
    destruct (print_step t pos p c Hok Hs (proj2 Hc)) as (pos' & t' & E & S1 & Hs'). rewrite (bind_Ok_l _ _ _ E1) in E. rewrite (bind_Ok_l _ _ _ E1).
    cbn [mbind outcome_bind] in *. rewrite E.
    destruct (IH (done ++ [c]) rest t' pos' _ ltac:(rewrite <- app_assoc; exact Hstr) (term_ok_same _ _ S1 Hok) Hs' Hp ltac:(cbn [length] in Hf; lia))
      as (pos2 & t2 & E2 & S2 & Hs2).
    rewrite length_app, Nat2Z.inj_add in E2. exists pos2, t2. split; [exact E2|]. split; [exact (same_settings_trans _ _ _ S1 S2)|].
    destruct S1 as (A1 & A2 & _ & _ & A5 & _). rewrite A1, A2, A5 in Hs2. exact Hs2.
Qed.

(** C27: printing text without escape sequences and backspaces is printing on a roll of
    paper of which the screen shows the last rows: characters go side by side, a new line goes to the start of the next row, a tab
    to the next stop, and when the end of the screen is passed the window moves down by
    one row.  The cursor of the state and of the display are where the paper says, no
    cell outside the visible ones is written, and any such text is printed without a
    fault. *)
Theorem print_refines_paper t p str : term_ok t -> shows t (t_cursor_pos t) p -> Forall plain str ->
  exists t', print str t = Ok t' /\ same_settings t t' /\
    shows t' (t_cursor_pos t') (paper_text (t_width t) (t_height t) (t_color t) str p) /\ t_display_cursor t' = t_cursor_pos t'.
Proof.
  intros Hok Hs Hp. destruct (print_loop_spec str (S (length str)) [] str t (t_cursor_pos t) p eq_refl Hok Hs Hp ltac:(lia)) as (pos & t' & E & S1 & Hs').
  unfold print. change 0 with (Z.of_nat (length (@nil Z))). rewrite (bind_Ok_l _ _ _ E). eexists. split; [reflexivity|].
  split; [exact S1|]. split; [exact Hs'|reflexivity].
Qed.

(** ** A screen of two rows of four cells *)
Definition blank : text_char := mk_char 0 0x0f.
Definition tiny : terminal := mk_term 4 2 8 4 0 1 7 0 0x0f blank (repeat blank 9) 0 0.
Definition tiny_paper : paper := mk_paper (fun _ => blank) 0 0.

Lemma print_refines_paper_witness : exists t', print [65; 66; 10; 67; 68; 69; 70; 71] tiny = Ok t' /\
  map ch (t_screen t') = [67; 68; 69; 70; 71; 0; 0; 0; 0] /\ t_cursor_pos t' = 5.
Proof.
  destruct (print_refines_paper tiny tiny_paper [65; 66; 10; 67; 68; 69; 70; 71]) as (t' & E & _).
  - constructor; vm_compute; (reflexivity || discriminate).
  - split; [split; vm_compute; (reflexivity || discriminate)|]. split; [reflexivity|]. split; [|reflexivity].
    intros i Hi. change (t_total_size tiny) with 8 in Hi. change (t_screen tiny) with (repeat blank 9).
    assert (B : forall n, (n < 9)%nat -> repeat blank 9 !! n = Some blank)
      by (intros n Hn; do 9 (destruct n as [|n]; [reflexivity|]); lia). rewrite B by lia. reflexivity.
  - repeat constructor; discriminate.
  - exists t'. split; [exact E|]. vm_compute in E. injection E as <-. split; reflexivity.
Defined.

(** Escape sequences change the cursor, but [print] puts it back: clearing the screen or
    moving the cursor inside a text has no effect on where the text goes on. *)
Example cursor_moves_are_lost : forall t', print [65; 0x1b; 91; 49; 59; 49; 72; 66] tiny = Ok t' -> map ch (t_screen t') = [65; 66; 0; 0; 0; 0; 0; 0; 0].
Proof. intros t' E. vm_compute in E. injection E as <-. reflexivity. Qed.
(** The column is added to the row times the height, not the width. *)
Example cursor_uses_height : t_cursor_pos (set_cursor_xy 1 1 tiny) = 3.
Proof. reflexivity. Qed.
(** A backspace at the start of the screen scrolls it. *)
Example backspace_scrolls : forall t', print [65; 8; 8] tiny = Ok t' -> t_cursor_pos t' = 4.
Proof. intros t' E. vm_compute in E. injection E as <-. reflexivity. Qed.
(** A sequence with five arguments writes behind the array of four; one that is cut off
    is read past the end of the text. *)
Example five_arguments : print [0x1b; 91; 49; 59; 49; 59; 49; 59; 49; 59; 49; 109] tiny = Fault OutOfBounds.
Proof. reflexivity. Qed.
Example cut_sequence : print [0x1b; 91; 49] tiny = Fault OutOfBounds.
Proof. reflexivity. Qed.
