(* ===== verification/Elf.v ===== *)
(** * The ELF loader and dynamic linker (kernel/elf.cpp, kernel/elf.h)

    Virtual memory is a finite map from addresses to bytes: what is not in it is not
    mapped.  What the loader needs from the other parts of the kernel (the file, the
    search for libraries, the allocation of pages and their flags) is an interface. *)
From stdpp Require Import gmap.
From S2P Require Import Prelude Paging BlockStore Hash.

Definition ELF_BIT_WIDTH_32 : Z := 0x01.
Definition ELF_LITTLE_ENDIAN : Z := 0x01.
Definition ELF_ARCH_X86 : Z := 0x03.
Definition ELF_TYPE_EXEC : Z := 0x02.
Definition ELF_TYPE_DYN : Z := 0x03.
Definition ELF_PTYPE_LOAD : Z := 1.
Definition ELF_PTYPE_DYNAMIC : Z := 2.
Definition ELF_PTYPE_TLS : Z := 7.
Definition PF_WRITE : Z := 0x02.
Definition DT_NULL : Z := 0.
Definition DT_NEEDED : Z := 1.
Definition DT_PLTRELSZ : Z := 2.
Definition DT_HASH : Z := 4.
Definition DT_STRTAB : Z := 5.
Definition DT_SYMTAB : Z := 6.
Definition DT_STRSZ : Z := 10.
Definition DT_INIT : Z := 11.
Definition DT_REL : Z := 17.
Definition DT_RELSZ : Z := 18.
Definition DT_JMPREL : Z := 23.
Definition DT_INIT_ARRAY : Z := 25.
Definition DT_INIT_ARRAYSZ : Z := 26.
Definition R_386_32 : Z := 1.
Definition R_386_PC32 : Z := 2.
Definition R_386_COPY : Z := 5.
Definition R_386_GLOB_DAT : Z := 6.
Definition R_386_JMP_SLOT : Z := 7.
Definition R_386_RELATIVE : Z := 8.

(** ** The records of the file *)
Record ELF_ident := mk_ident { magic : list Z; bit_width : Z; endianness : Z }.
Definition sizeof_ELF_ident : Z := 16.
Definition decode_ident (l : list Z) : ELF_ident := mk_ident (take 4 l) (field_at l 4 1) (field_at l 5 1).

Record ELF_header32 := mk_eh { eh_type : Z; machine_arch : Z; eh_entry_point : Z; pgh_offset : Z; pgh_entries : Z }.
Definition sizeof_ELF_header32 : Z := 36.
Definition decode_header (l : list Z) : ELF_header32 :=
  mk_eh (field_at l 0 2) (field_at l 2 2) (field_at l 8 4) (field_at l 12 4) (field_at l 28 2).

Record ELF_program_header32 := mk_ph {
  ph_type : Z; ph_offset : Z; ph_vaddr : Z; ph_file_size : Z; ph_mem_size : Z; ph_flags : Z; ph_alignment : Z }.
Definition sizeof_program_header : Z := 32.
Definition decode_program_header (l : list Z) : ELF_program_header32 :=
  mk_ph (field_at l 0 4) (field_at l 4 4) (field_at l 8 4) (field_at l 16 4) (field_at l 20 4) (field_at l 24 4) (field_at l 28 4).

Record ELF_rel32 := mk_rel { rel_offset : Z; rel_info : Z }.
Record ELF_dyn32 := mk_dyn { d_tag : Z; d_un : Z }.
Record ELF_sym32 := mk_sym { sym_name : Z; sym_value : Z; sym_size : Z; section_index : Z }.
Definition sizeof_rel : Z := 8.
Definition sizeof_dyn : Z := 8.
Definition sizeof_sym : Z := 16.

Definition ELF32_R_SYM (i : Z) : Z := Z.shiftr i 8.
Definition ELF32_R_TYPE (i : Z) : Z := u8 i.

(** ** Memory *)
Notation vmem := (gmap Z Z).
Definition load8 (a : Z) (m : vmem) : outcome Z := match m !! a with Some b => Ok b | None => Fault PageFault end.
Fixpoint load_bytes (n : nat) (a : Z) (m : vmem) : outcome (list Z) :=
  match n with O => Ok [] | S n => b ← load8 a m; l ← load_bytes n (a + 1) m; Ok (b :: l) end.
Fixpoint store_bytes (a : Z) (l : list Z) (m : vmem) : outcome vmem :=
  match l with [] => Ok m | b :: l => _ ← load8 a m; store_bytes (a + 1) l (<[a := b]> m) end.
Definition load32 (a : Z) (m : vmem) : outcome Z := l ← load_bytes 4 a m; Ok (le_value l).
Definition store32 (a v : Z) (m : vmem) : outcome vmem := store_bytes a (le_bytes 4 v) m.
(** The text at an address as signed characters, up to its zero: no text is longer than the memory. *)
Fixpoint text_at (fuel : nat) (a : Z) (m : vmem) : outcome (list Z) :=
  match fuel with
  | O => Fault OutOfFuel
  | S fuel => c ← load8 a m; if c =? 0 then Ok [] else l ← text_at fuel (a + 1) m; Ok (s8 c :: l)
  end.
Definition c_text (a : Z) (m : vmem) : outcome (list Z) := text_at (S (size m)) a m.

Definition load_rel (table i : Z) (m : vmem) : outcome ELF_rel32 :=
  let a := add32 table (mul32 i sizeof_rel) in o ← load32 a m; v ← load32 (a + 4) m; Ok (mk_rel o v).
Definition load_dyn (a : Z) (m : vmem) : outcome ELF_dyn32 := t ← load32 a m; v ← load32 (a + 4) m; Ok (mk_dyn t v).
Definition load_sym (table i : Z) (m : vmem) : outcome ELF_sym32 :=
  l ← load_bytes 16 (add32 table (mul32 i sizeof_sym)) m;
  Ok (mk_sym (field_at l 0 4) (field_at l 4 4) (field_at l 8 4) (field_at l 14 2)).

(** ** The state of a load *)
Definition sym_map : Type := hash_map (list Z) Z.

Record ELF_linker_data := mk_ld {
  dynamic_section : Z; base_address : Z; init_func : Z; array_init_funcs : Z; num_array_init_funcs : Z;
  hash_table : Z; symbol_table : Z; symbol_table_size : Z; string_table : Z; string_table_size : Z; is_userspace : bool }.

Record tls_image_data := mk_tls { tls_pointer : Z; image_size : Z; total_size : Z; tls_alignment : Z }.
Record dynamic_object := mk_do {
  entry_point : Z; segments : list (Z * Z); tls_image : tls_image_data; linker_data : option ELF_linker_data }.
Definition new_dynamic_object : dynamic_object := mk_do 0 [] (mk_tls 0 0 0 1) None.

Definition elf_magic : list Z := [0x7f; 69; 76; 70].
Definition elf_is_readable (i : ELF_ident) : bool :=
  if negb (bool_decide (magic i = elf_magic)) then false
  else if negb (endianness i =? ELF_LITTLE_ENDIAN) then false
  else if negb (bit_width i =? ELF_BIT_WIDTH_32) then false
  else true.
Definition elf_is_compatible (h : ELF_header32) : bool :=
  if negb (machine_arch h =? ELF_ARCH_X86) then false
  else if negb (eh_type h =? ELF_TYPE_EXEC) && negb (eh_type h =? ELF_TYPE_DYN) then false
  else true.

Record seg_info := mk_seg { aligned_addr : Z; virtual_addr : Z; seg_num_pages : Z; seg_flags : Z }.
Definition calculate_segment_info (pg_header : ELF_program_header32) (base_adress : Z) (user : bool) : seg_info :=
  let aligned_address := add32 base_adress (Z.land (ph_vaddr pg_header) (not32 (PAGE_SIZE - 1))) in
  let virtual_address := add32 base_adress (ph_vaddr pg_header) in
  let num_pages := memmanager_minimum_pages (add32 (sub32 virtual_address aligned_address) (ph_mem_size pg_header)) in
  let flags := if has (ph_flags pg_header) PF_WRITE then PAGE_RW else 0 in
  let flags := if user then Z.lor flags PAGE_USER else flags in
  mk_seg aligned_address virtual_address num_pages flags.

Definition elf_relocation_uses_symbol (type : Z) : bool :=
  (type =? R_386_32) || (type =? R_386_PC32) || (type =? R_386_COPY) || (type =? R_386_GLOB_DAT) || (type =? R_386_JMP_SLOT).

(** ** Symbols and relocations *)
Fixpoint read_symbols_n (n : nat) (i : Z) (object : ELF_linker_data) (m : vmem) (symbols : sym_map) : outcome sym_map :=
  match n with
  | O => Ok symbols
  | S n =>
    symbol ← load_sym (symbol_table object) i m;
    symbols ← (if negb (section_index symbol =? 0) then
        symbol_name ← c_text (add32 (string_table object) (sym_name symbol)) m;
        '(_, symbols) ← insert_key symbol_name (add32 (base_address object) (sym_value symbol)) symbols;
        Ok symbols
      else Ok symbols);
    read_symbols_n n (i + 1) object m symbols
  end.
Definition elf_read_symbols (object : ELF_linker_data) (m : vmem) (symbols : sym_map) : outcome sym_map :=
  if negb (symbol_table object =? 0) && negb (string_table object =? 0)
  then read_symbols_n (Z.to_nat (symbol_table_size object)) 0 object m symbols
  else Ok symbols.

(** The name and the value of the symbol of an entry.  A missing symbol is a loop that
    does not end. *)
Definition relocation_symbol (object : ELF_linker_data) (entry : ELF_rel32) (symbol : ELF_sym32) (symbols : sym_map) (m : vmem)
  : outcome (list Z * Z) :=
  let symbol_val := add32 (base_address object) (sym_value symbol) in
  if elf_relocation_uses_symbol (ELF32_R_TYPE (rel_info entry)) then
    let s_name := add32 (string_table object) (sym_name symbol) in
    if s_name =? 0 then Ok ([], 0)
    else
      symbol_name ← c_text s_name m;
      d ← lookup_key symbol_name symbols;
      match d with Some symbol_val => Ok (symbol_name, symbol_val) | None => Fault Deadlock end
  else Ok ([], symbol_val).

Definition relocate (object : ELF_linker_data) (entry : ELF_rel32) (symbols globals : sym_map) (m : vmem) : outcome vmem :=
  let relocation_type := ELF32_R_TYPE (rel_info entry) in
  symbol ← load_sym (symbol_table object) (ELF32_R_SYM (rel_info entry)) m;
  '(symbol_name, symbol_val) ← relocation_symbol object entry symbol symbols m;
  let address := add32 (base_address object) (rel_offset entry) in
  if relocation_type =? R_386_GLOB_DAT then
    d ← (match symbol_name with [] => Ok None | _ => lookup_key symbol_name globals end);
    store32 address (match d with Some v => v | None => symbol_val end) m
  else if relocation_type =? R_386_JMP_SLOT then store32 address symbol_val m
  else if relocation_type =? R_386_32 then v ← load32 address m; store32 address (add32 symbol_val v) m
  else if relocation_type =? R_386_PC32 then v ← load32 address m; store32 address (sub32 (add32 symbol_val v) address) m
  else if relocation_type =? R_386_RELATIVE then v ← load32 address m; store32 address (add32 (base_address object) v) m
  else if relocation_type =? R_386_COPY then l ← load_bytes (Z.to_nat (sym_size symbol)) symbol_val m; store_bytes address l m
  else Ok m.

Fixpoint relocate_n (n : nat) (i : Z) (object : ELF_linker_data) (table : Z) (symbols globals : sym_map) (m : vmem) : outcome vmem :=
  match n with
  | O => Ok m
  | S n => entry ← load_rel table i m; m ← relocate object entry symbols globals m; relocate_n n (i + 1) object table symbols globals m
  end.
Definition elf_process_relocation_section (object : ELF_linker_data) (table rel_entries : Z) (symbols globals : sym_map) (m : vmem)
  : outcome vmem :=
  if table =? 0 then Ok m
  else if symbol_table object =? 0 then Ok m
  else relocate_n (Z.to_nat rel_entries) 0 object table symbols globals m.

(** ** The dynamic section *)
Record dyn_tables := mk_dt { relocation_entries : Z; relocation_addr : Z; plt_relocation_entries : Z; plt_relocation_addr : Z }.

Definition dyn_entry (e : ELF_dyn32) (m : vmem) (o : ELF_linker_data) (t : dyn_tables) : outcome (ELF_linker_data * dyn_tables) :=
  let tag := d_tag e in let v := d_un e in let p := add32 (base_address o) v in
  if tag =? DT_PLTRELSZ then Ok (o, mk_dt (relocation_entries t) (relocation_addr t) (v / sizeof_rel) (plt_relocation_addr t))
  else if tag =? DT_JMPREL then Ok (o, mk_dt (relocation_entries t) (relocation_addr t) (plt_relocation_entries t) p)
  else if tag =? DT_REL then Ok (o, mk_dt (relocation_entries t) p (plt_relocation_entries t) (plt_relocation_addr t))
  else if tag =? DT_RELSZ then Ok (o, mk_dt (v / sizeof_rel) (relocation_addr t) (plt_relocation_entries t) (plt_relocation_addr t))
  else if tag =? DT_HASH then
    n ← load32 (add32 p 4) m;
    Ok (mk_ld (dynamic_section o) (base_address o) (init_func o) (array_init_funcs o) (num_array_init_funcs o) p (symbol_table o) n
          (string_table o) (string_table_size o) (is_userspace o), t)
  else if tag =? DT_STRTAB then
    Ok (mk_ld (dynamic_section o) (base_address o) (init_func o) (array_init_funcs o) (num_array_init_funcs o) (hash_table o) (symbol_table o)
          (symbol_table_size o) p (string_table_size o) (is_userspace o), t)
  else if tag =? DT_SYMTAB then
    Ok (mk_ld (dynamic_section o) (base_address o) (init_func o) (array_init_funcs o) (num_array_init_funcs o) (hash_table o) p
          (symbol_table_size o) (string_table o) (string_table_size o) (is_userspace o), t)
  else if tag =? DT_STRSZ then
    Ok (mk_ld (dynamic_section o) (base_address o) (init_func o) (array_init_funcs o) (num_array_init_funcs o) (hash_table o) (symbol_table o)
          (symbol_table_size o) (string_table o) v (is_userspace o), t)
  else if tag =? DT_INIT then
    Ok (mk_ld (dynamic_section o) (base_address o) p (array_init_funcs o) (num_array_init_funcs o) (hash_table o) (symbol_table o)
          (symbol_table_size o) (string_table o) (string_table_size o) (is_userspace o), t)
  else if tag =? DT_INIT_ARRAY then
    Ok (mk_ld (dynamic_section o) (base_address o) (init_func o) p (num_array_init_funcs o) (hash_table o) (symbol_table o)
          (symbol_table_size o) (string_table o) (string_table_size o) (is_userspace o), t)
  else if tag =? DT_INIT_ARRAYSZ then
    Ok (mk_ld (dynamic_section o) (base_address o) (init_func o) (array_init_funcs o) (v / 4) (hash_table o) (symbol_table o)
          (symbol_table_size o) (string_table o) (string_table_size o) (is_userspace o), t)
  else Ok (o, t).

(** The entries up to [DT_NULL]; no table is longer than the memory. *)
Fixpoint dyn_loop (fuel : nat) (entry : Z) (m : vmem) (o : ELF_linker_data) (t : dyn_tables) : outcome (ELF_linker_data * dyn_tables) :=
  match fuel with
  | O => Fault OutOfFuel
  | S fuel =>
    e ← load_dyn entry m;
    if d_tag e =? DT_NULL then Ok (o, t) else '(o, t) ← dyn_entry e m o t; dyn_loop fuel (entry + sizeof_dyn) m o t
  end.

(** ** What the loader uses *)
Class loader_env (E F : Type) := {
  (** [fs::stream::read]: the bytes that arrive; and [fs::stream]'s [operator bool] *)
  file_is_open : F -> E -> bool;
  read_file : F -> Z -> Z -> E -> outcome (list Z * E);
  (** [find_file_by_path] in the directory of libraries *)
  find_library : list Z -> E -> outcome (option F * E);
  (** [memmanager_virtual_alloc]: the address, and the bytes that are mapped now *)
  virtual_alloc : Z -> Z -> Z -> E -> outcome (Z * vmem * E);
  set_page_flags : Z -> Z -> Z -> E -> outcome E }.

Section load.
Context {E F : Type} `{loader_env E F}.

Record machine := mk_machine { vm : vmem; lib_set : sym_map; symbol_map : sym_map; glob_data_symbol_map : sym_map; env : E }.
Definition set_vm (m : vmem) (s : machine) : machine := mk_machine m (lib_set s) (symbol_map s) (glob_data_symbol_map s) (env s).
Definition set_env (e : E) (s : machine) : machine := mk_machine (vm s) (lib_set s) (symbol_map s) (glob_data_symbol_map s) e.
Definition set_symbol_map (m : sym_map) (s : machine) : machine := mk_machine (vm s) (lib_set s) m (glob_data_symbol_map s) (env s).
Definition set_lib_set (m : sym_map) (s : machine) : machine := mk_machine (vm s) m (symbol_map s) (glob_data_symbol_map s) (env s).

(** A record that does not arrive whole is not initialised: using it is a fault. *)
Definition read_record (f : F) (pos n : Z) (e : E) : outcome (list Z * E) :=
  '(l, e) ← read_file f pos n e; if Z.of_nat (length l) =? n then Ok (l, e) else Fault OutOfBounds.
Definition read_program_header (f : F) (h : ELF_header32) (i : Z) (e : E) : outcome (ELF_program_header32 * E) :=
  '(l, e) ← read_record f (add32 (pgh_offset h) (mul32 i sizeof_program_header)) sizeof_program_header e; Ok (decode_program_header l, e).

Fixpoint get_size_n (n : nat) (i : Z) (h : ELF_header32) (f : F) (min_address max_address : Z) (e : E) : outcome (Z * Z * E) :=
  match n with
  | O => Ok (min_address, max_address, e)
  | S n =>
    '(pg, e) ← read_program_header f h i e;
    if ph_type pg =? ELF_PTYPE_LOAD
    then get_size_n n (i + 1) h f (Z.min min_address (ph_vaddr pg)) (Z.max max_address (add32 (ph_vaddr pg) (ph_mem_size pg))) e
    else get_size_n n (i + 1) h f min_address max_address e
  end.
Definition elf_get_size (h : ELF_header32) (f : F) (e : E) : outcome (Z * Z * E) :=
  '(min_address, max_address, e) ← get_size_n (Z.to_nat (pgh_entries h)) 0 h f (2 ^ 32 - 1) 0 e;
  Ok (min_address, sub32 max_address min_address, e).

Definition load_segment (pg : ELF_program_header32) (f : F) (base_adress num_pages : Z) (user : bool) (object : dynamic_object) (s : machine)
  : outcome (dynamic_object * machine) :=
  if ph_type pg =? ELF_PTYPE_DYNAMIC then
    Ok (mk_do (entry_point object) (segments object) (tls_image object)
          (Some (mk_ld (add32 base_adress (ph_vaddr pg)) base_adress 0 0 0 0 0 0 0 0 user)), s)
  else if ph_type pg =? ELF_PTYPE_LOAD then
    let seg := calculate_segment_info pg base_adress user in
    e ← set_page_flags (aligned_addr seg) num_pages (seg_flags seg) (env s);
    '(l, e) ← read_file f (ph_offset pg) (ph_file_size pg) e;
    m ← store_bytes (virtual_addr seg) l (vm s);
    Ok (object, set_vm m (set_env e s))
  else if ph_type pg =? ELF_PTYPE_TLS then
    Ok (mk_do (entry_point object) (segments object)
          (mk_tls (add32 base_adress (ph_vaddr pg)) (ph_file_size pg) (ph_mem_size pg) (ph_alignment pg)) (linker_data object), s)
  else Ok (object, s).
Fixpoint load_segments_n (n : nat) (i : Z) (h : ELF_header32) (f : F) (base_adress num_pages : Z) (user : bool) (object : dynamic_object) (s : machine)
  : outcome (dynamic_object * machine) :=
  match n with
  | O => Ok (object, s)
  | S n =>
    '(pg, e) ← read_program_header f h i (env s);
    '(object, s) ← load_segment pg f base_adress num_pages user object (set_env e s);
    load_segments_n n (i + 1) h f base_adress num_pages user object s
  end.

(** The libraries an object needs; [load] is [load_elf], one level down. *)
Fixpoint needed_loop (load : F -> dynamic_object -> bool -> machine -> outcome (Z * dynamic_object * machine))
  (fuel : nat) (entry : Z) (o : ELF_linker_data) (segs : list (Z * Z)) (s : machine) : outcome (list (Z * Z) * machine) :=
  match fuel with
  | O => Fault OutOfFuel
  | S fuel =>
    e ← load_dyn entry (vm s);
    if d_tag e =? DT_NULL then Ok (segs, s)
    else
      '(segs, s) ← (if d_tag e =? DT_NEEDED then
          lib_name ← c_text (add32 (string_table o) (d_un e)) (vm s);
          there ← contains lib_name (lib_set s);
          if there : bool then Ok (segs, s) else
          '(lib_handle, en) ← find_library lib_name (env s);
          match lib_handle with
          | None => Ok (segs, set_env en s)
          | Some lib_handle =>
            '(r, lib, s) ← load lib_handle new_dynamic_object (is_userspace o) (set_env en s);
            if r =? 0 then Ok (segs, s) else
            '(_, libs) ← insert_key lib_name 1 (lib_set s);
            Ok (segs ++ segments lib, set_lib_set libs s)
          end
        else Ok (segs, s));
      needed_loop load fuel (entry + sizeof_dyn) o segs s
  end.

Definition elf_process_dynamic_section (load : F -> dynamic_object -> bool -> machine -> outcome (Z * dynamic_object * machine))
  (dyn_obj : dynamic_object) (s : machine) : outcome (dynamic_object * machine) :=
  match linker_data dyn_obj with
  | None => Ok (dyn_obj, s)
  | Some object =>
    if dynamic_section object =? 0 then Ok (dyn_obj, s) else
    '(object, t) ← dyn_loop (S (size (vm s))) (dynamic_section object) (vm s) object (mk_dt 0 0 0 0);
    '(segs, s) ← needed_loop load (S (size (vm s))) (dynamic_section object) object (segments dyn_obj) s;
    symbols ← elf_read_symbols object (vm s) (symbol_map s);
    let s := set_symbol_map symbols s in
    m ← (if negb (relocation_addr t =? 0)
         then elf_process_relocation_section object (relocation_addr t) (relocation_entries t) symbols (glob_data_symbol_map s) (vm s)
         else Ok (vm s));
    m ← (if negb (plt_relocation_addr t =? 0)
         then elf_process_relocation_section object (plt_relocation_addr t) (plt_relocation_entries t) symbols (glob_data_symbol_map s) m
         else Ok m);
    Ok (mk_do (entry_point dyn_obj) segs (tls_image dyn_obj) (Some object), set_vm m s)
  end.

(** [depth] bounds how deep the libraries of libraries are nested. *)
Fixpoint load_elf (depth : nat) (f : F) (object : dynamic_object) (user : bool) (s : machine) : outcome (Z * dynamic_object * machine) :=
  match depth with
  | O => Fault OutOfFuel
  | S depth =>
    if negb (file_is_open f (env s)) then Ok (0, object, s) else
    '(l, e) ← read_record f 0 sizeof_ELF_ident (env s);
    if negb (elf_is_readable (decode_ident l)) then Ok (1, object, set_env e s) else
    '(l, e) ← read_record f sizeof_ELF_ident sizeof_ELF_header32 e;
    let h := decode_header l in
    if negb (elf_is_compatible h) then Ok (1, object, set_env e s) else
    '(s_base, object_size, e) ← elf_get_size h f e;
    let num_pages := memmanager_minimum_pages object_size in
    '(base_adress, mapped, e) ← virtual_alloc s_base num_pages (if user then Z.lor PAGE_USER PAGE_RW else PAGE_RW) e;
    let object := mk_do (entry_point object) (segments object ++ [(base_adress, num_pages)]) (tls_image object) None in
    base_adress ← (if negb (s_base =? 0) then _ ← k_assert (s_base =? base_adress); Ok 0 else Ok base_adress);
    '(object, s) ← load_segments_n (Z.to_nat (pgh_entries h)) 0 h f base_adress num_pages user object (set_vm (mapped ∪ vm s) (set_env e s));
    let object := mk_do (add32 base_adress (eh_entry_point h)) (segments object) (tls_image object) (linker_data object) in
    '(object, s) ← elf_process_dynamic_section (load_elf depth) object s;
    Ok (1, object, s)
  end.
End load.
Arguments machine : clear implicits.
