(* ===== verification/ElfProofs.v ===== *)
(** * Relocation, symbols and loading are what the ELF format says

    Relocation stores the value of the ABI at each place and nothing else; the symbols
    of an object are added behind those that are there; the pages asked for cover every
    segment; and loading puts each segment where the file says. *)
From stdpp Require Import gmap.
From S2P Require Import Prelude Paging FsUtil BlockStore Hash Elf.

(** ** Memory *)
Definition mapped (m : vmem) (a n : Z) : Prop := forall x, a <= x < a + n -> is_Some (m !! x).
Definition same_at (m m' : vmem) (a n : Z) : Prop := forall x, a <= x < a + n -> m' !! x = m !! x.

Lemma load_bytes_there n : forall a m, mapped m a (Z.of_nat n) -> exists l, load_bytes n a m = Ok l /\ length l = n /\
  forall i, (i < n)%nat -> l !! i = m !! (a + Z.of_nat i).
Proof.
  induction n as [|n IH]; intros a m Hm; [exists []; split; [reflexivity|]; split; [reflexivity|lia]|].
  cbn [load_bytes]. destruct (Hm a ltac:(lia)) as [b Hb]. unfold load8. rewrite Hb.
  destruct (IH (a + 1) m) as (l & E & Hl & G); [intros x Hx; apply Hm; lia|]. exists (b :: l). cbn [mbind outcome_bind].
  rewrite E. split; [reflexivity|]. split; [cbn [length]; lia|]. intros [|i] Hi.
  - rewrite Z.add_0_r. symmetry. exact Hb.
  - change ((b :: l) !! S i) with (l !! i). rewrite G by lia. f_equal. lia.
Qed.

Lemma load_bytes_same n : forall a m m', same_at m m' a (Z.of_nat n) -> load_bytes n a m' = load_bytes n a m.
Proof.
  induction n as [|n IH]; intros a m m' Hs; [reflexivity|]. cbn [load_bytes]. unfold load8. rewrite (Hs a) by lia.
  rewrite (IH (a + 1) m m') by (intros x Hx; apply Hs; lia). reflexivity.
Qed.

Lemma store_bytes_there l : forall a m, mapped m a (Z.of_nat (length l)) -> exists m', store_bytes a l m = Ok m' /\
  forall x, m' !! x = if (a <=? x) && (x <? a + Z.of_nat (length l)) then l !! Z.to_nat (x - a) else m !! x.
Proof.
  induction l as [|b l IH]; intros a m Hm; cbn [length] in *.
  - exists m. split; [reflexivity|]. intros x. destruct (Z.leb_spec a x), (Z.ltb_spec x (a + Z.of_nat 0)); try reflexivity; lia.
  - cbn [store_bytes]. destruct (Hm a ltac:(lia)) as [c Hc]. unfold load8. rewrite Hc.
    destruct (IH (a + 1) (<[a := b]> m)) as (m' & E & G).
    { intros x Hx. rewrite lookup_insert_ne by lia. apply Hm. lia. }
    cbn [mbind outcome_bind]. exists m'. split; [exact E|]. intros x. rewrite G.
    destruct (Z.leb_spec (a + 1) x), (Z.ltb_spec x (a + 1 + Z.of_nat (length l))), (Z.leb_spec a x), (Z.ltb_spec x (a + Z.of_nat (S (length l))));
      cbn [andb]; try lia; try (apply lookup_insert_ne; lia).
    + replace (Z.to_nat (x - a)) with (S (Z.to_nat (x - (a + 1)))) by lia. reflexivity.
    + replace x with a by lia. rewrite lookup_insert_eq, Z.sub_diag. reflexivity.
Qed.

Lemma load32_there a m : mapped m a 4 -> exists v, load32 a m = Ok v.
Proof. intros Hm. destruct (load_bytes_there 4 a m Hm) as (l & E & _). unfold load32. rewrite E. eexists. reflexivity. Qed.

Lemma load_bytes_mapped n : forall a m l, load_bytes n a m = Ok l -> mapped m a (Z.of_nat n).
Proof.
  induction n as [|n IH]; intros a m l E x Hx; [lia|]. cbn [load_bytes] in E. apply bind_Ok in E as (b & Eb & E).
  apply bind_Ok in E as (l' & El & _). destruct (Z.eq_dec x a) as [->|Hne]; [|apply (IH (a + 1) m l' El); lia].
  unfold load8 in Eb. destruct (m !! a); [eexists; reflexivity|discriminate].
Qed.
Lemma load32_mapped a m v : load32 a m = Ok v -> mapped m a 4.
Proof. intros E. unfold load32 in E. apply bind_Ok in E as (l & El & _). exact (load_bytes_mapped 4 a m l El). Qed.

Lemma load32_same a m m' : same_at m m' a 4 -> load32 a m' = load32 a m.
Proof. intros Hs. unfold load32. rewrite (load_bytes_same 4 a m m' Hs). reflexivity. Qed.

(** A word that is stored is read back, and nothing else changes. *)
Lemma store32_there a v m : mapped m a 4 -> 0 <= v < 2 ^ 32 -> exists m', store32 a v m = Ok m' /\ load32 a m' = Ok v /\
  forall x, x < a \/ a + 4 <= x -> m' !! x = m !! x.
Proof.
  intros Hm Hv. destruct (store_bytes_there (le_bytes 4 v) a m) as (m' & E & G); [rewrite le_bytes_length; exact Hm|].
  rewrite le_bytes_length in G. change (Z.of_nat 4) with 4 in G. exists m'. split; [exact E|]. split.
  - destruct (load_bytes_there 4 a m') as (l & El & Hl & Gl).
    { intros x Hx. rewrite G. rewrite (proj2 (Z.leb_le _ _)), (proj2 (Z.ltb_lt _ _)) by lia. cbn [andb].
      apply lookup_lt_is_Some. rewrite le_bytes_length. lia. }
    unfold load32. rewrite El. cbn [mbind outcome_bind]. f_equal.
    replace l with (le_bytes 4 v); [apply le_value_bytes; exact Hv|]. apply list_eq. intros i.
    destruct (Nat.lt_ge_cases i 4) as [Hi|Hi].
    + rewrite Gl, G by lia. rewrite (proj2 (Z.leb_le _ _)), (proj2 (Z.ltb_lt _ _)) by lia. cbn [andb]. f_equal. lia.
    + rewrite !lookup_ge_None_2; [reflexivity|lia|rewrite le_bytes_length; lia].
  - intros x Hx. rewrite G. destruct (Z.leb_spec a x), (Z.ltb_spec x (a + 4)); try reflexivity; lia.
Qed.

(** ** Texts in memory: the fuel is enough *)
Definition has_text (m : vmem) (a : Z) (raw : list Z) : Prop :=
  (forall i c, raw !! i = Some c -> c <> 0 /\ m !! (a + Z.of_nat i) = Some c) /\ m !! (a + Z.of_nat (length raw)) = Some 0.

Lemma has_text_tail m a c raw : has_text m a (c :: raw) -> has_text m (a + 1) raw.
Proof.
  intros [H1 H2]. split.
  - intros i x Hx. destruct (H1 (S i) x Hx) as [Hn E]. split; [exact Hn|]. rewrite <- E. f_equal. lia.
  - rewrite <- H2. f_equal. cbn [length]. lia.
Qed.

Lemma text_at_spec raw : forall fuel a m, has_text m a raw -> (length raw < fuel)%nat -> text_at fuel a m = Ok (map s8 raw).
Proof.
  induction raw as [|c raw IH]; intros [|fuel] a m Ht Hf; cbn [length] in Hf; try lia; cbn [text_at]; unfold load8.
  - destruct Ht as [_ E]. cbn [length] in E. rewrite Z.add_0_r in E. rewrite E. reflexivity.
  - destruct (proj1 Ht 0%nat c eq_refl) as [Hn E]. rewrite Z.add_0_r in E. rewrite E. cbn [mbind outcome_bind].
    rewrite (proj2 (Z.eqb_neq c 0)) by exact Hn. rewrite (IH fuel (a + 1) m (has_text_tail _ _ _ _ Ht)) by lia. reflexivity.
Qed.

Lemma has_text_size m : forall raw a, has_text m a raw -> (length raw < size m)%nat.
Proof.
  intros raw a Ht. rewrite <- size_dom. set (X := list_to_set (C := gset Z) (map (fun i => a + Z.of_nat i) (seq 0 (S (length raw))))).
  assert (HX : size X = S (length raw)).
  { unfold X. rewrite size_list_to_set, length_map, length_seq; [reflexivity|].
    assert (Inj (=) (=) (fun i : nat => a + Z.of_nat i)) by (intros x y Hxy; lia).
    apply (NoDup_fmap_2 (fun i : nat => a + Z.of_nat i)), NoDup_seq. }
  enough (X ⊆ dom m) as Hs by (apply subseteq_size in Hs; lia).
  intros x Hx. unfold X in Hx. apply elem_of_list_to_set, list_elem_of_In, in_map_iff in Hx as (i & <- & Hi). apply in_seq in Hi.
  apply elem_of_dom. destruct (decide (i = length raw)) as [->|Hne]; [eexists; exact (proj2 Ht)|].
  destruct (lookup_lt_is_Some_2 raw i ltac:(lia)) as [c Hc]. destruct (proj1 Ht i c Hc) as [_ E]. eexists. exact E.
Qed.

Lemma c_text_spec m a raw : has_text m a raw -> c_text a m = Ok (map s8 raw).
Proof. intros Ht. apply text_at_spec; [exact Ht|]. pose proof (has_text_size m raw a Ht). lia. Qed.

Lemma has_text_same m m' a raw : has_text m a raw -> same_at m m' a (Z.of_nat (length raw) + 1) -> has_text m' a raw.
Proof.
  intros [H1 H2] Hs. split; [|rewrite Hs by lia; exact H2]. intros i c Hc. destruct (H1 i c Hc) as [Hn E].
  pose proof (lookup_lt_Some _ _ _ Hc). split; [exact Hn|]. rewrite Hs by lia. exact E.
Qed.

(** ** Relocation *)
Section relocation.
Context (o : ELF_linker_data) (symbols globals : sym_map) (table : Z) (Hsym : map_ok symbols) (Hglob : map_ok globals).

(** An entry with its symbol, the bytes of the name and the value the symbol has. *)
Record link := mk_link { lk_rel : ELF_rel32; lk_sym : ELF_sym32; lk_raw : list Z; lk_value : Z }.
Definition link_type (l : link) : Z := ELF32_R_TYPE (rel_info (lk_rel l)).
Definition link_addr (l : link) : Z := add32 (base_address o) (rel_offset (lk_rel l)).
Definition is_copy (l : link) : Prop := link_type l = R_386_COPY.
(** How many bytes an entry changes: a word, or the whole object that is copied. *)
Definition link_size (l : link) : Z := if decide (is_copy l) then sym_size (lk_sym l) else 4.
Definition rel_at (i : Z) : Z := add32 table (mul32 i sizeof_rel).
Definition sym_at (l : link) : Z := add32 (symbol_table o) (mul32 (ELF32_R_SYM (rel_info (lk_rel l))) sizeof_sym).
Definition name_at (l : link) : Z := add32 (string_table o) (sym_name (lk_sym l)).

(** The i386 ABI: S is the value of the symbol, A what is at the place, P its address
    and B the base of the object.  (R_386_COPY copies what is at S instead.) *)
Definition abi_value (l : link) (A : Z) : Z :=
  let S := lk_value l in let P := link_addr l in let B := base_address o in
  if (link_type l =? R_386_GLOB_DAT) || (link_type l =? R_386_JMP_SLOT) then S
  else if link_type l =? R_386_32 then u32 (S + A)
  else if link_type l =? R_386_PC32 then u32 (S + A - P)
  else u32 (B + A).

(** The symbol of an entry: what the map of symbols has for its name, or the map of
    global data if the entry is one of those. *)
Definition resolved (l : link) : Prop :=
  exists v, contents symbols !! map s8 (lk_raw l) = Some v /\
    lk_value l = if link_type l =? R_386_GLOB_DAT
                 then default v (if decide (lk_raw l = []) then None else contents globals !! map s8 (lk_raw l)) else v.

Record link_ok (m : vmem) (i : Z) (l : link) : Prop := {
  lo_rel : load_rel table i m = Ok (lk_rel l);
  lo_sym : load_sym (symbol_table o) (ELF32_R_SYM (rel_info (lk_rel l))) m = Ok (lk_sym l);
  lo_type : link_type l ∈ [R_386_GLOB_DAT; R_386_JMP_SLOT; R_386_32; R_386_PC32; R_386_RELATIVE; R_386_COPY];
  lo_name : link_type l <> R_386_RELATIVE -> name_at l <> 0 /\ has_text m (name_at l) (lk_raw l) /\ resolved l;
  lo_word : 0 <= lk_value l < 2 ^ 32;
  lo_size : 0 <= sym_size (lk_sym l);
  lo_there : mapped m (link_addr l) (link_size l);
  lo_source : is_copy l -> mapped m (lk_value l) (link_size l) }.

Definition apart (a n b k : Z) : Prop := a + n <= b \/ b + k <= a.
(** A place of [n] bytes that is not part of what the linker reads for an entry. *)
Definition clear_of (a n : Z) (i : Z) (l : link) : Prop :=
  apart a n (rel_at i) 8 /\ apart a n (sym_at l) 16 /\ apart a n (name_at l) (Z.of_nat (length (lk_raw l)) + 1)
  /\ (is_copy l -> apart a n (lk_value l) (link_size l)).

Lemma same_outside m m' a n b k : (forall x, x < a \/ a + n <= x -> m' !! x = m !! x) -> apart a n b k -> same_at m m' b k.
Proof using. intros Hs [Ha|Ha] x Hx; apply Hs; lia. Qed.

Lemma same_outside_mapped m m' a n : (forall x, x < a \/ a + n <= x -> m' !! x = m !! x) -> mapped m' a n -> forall b k, mapped m b k -> mapped m' b k.
Proof using.
  intros Hs Ha b k Hb x Hx. destruct (Z.lt_ge_cases x a); [rewrite Hs by lia; apply Hb; lia|].
  destruct (Z.lt_ge_cases x (a + n)); [apply Ha; lia|rewrite Hs by lia; apply Hb; lia].
Qed.

Lemma link_ok_frame m m' a n i l : (forall x, x < a \/ a + n <= x -> m' !! x = m !! x) -> mapped m' a n -> clear_of a n i l ->
  link_ok m i l -> link_ok m' i l.
Proof using.
  intros Hs Ha (C1 & C2 & C3 & _) [L1 L2 L3 L4 L5 L6 L7 L8]. pose proof (same_outside _ _ _ _ _ _ Hs C1) as S1. pose proof (same_outside _ _ _ _ _ _ Hs C2) as S2.
  constructor.
  - rewrite <- L1. unfold load_rel. rewrite !(load32_same _ m m'); [reflexivity| |]; intros x Hx; apply S1; unfold rel_at; lia.
  - rewrite <- L2. unfold load_sym. rewrite (load_bytes_same _ _ m m'); [reflexivity|exact S2].
  - exact L3.
  - intros Ht. destruct (L4 Ht) as (N1 & N2 & N3). split; [exact N1|]. split; [|exact N3].
    exact (has_text_same _ _ _ _ N2 (same_outside _ _ _ _ _ _ Hs C3)).
  - exact L5.
  - exact L6.
  - exact (same_outside_mapped _ _ _ _ Hs Ha _ _ L7).
  - intros Hc. exact (same_outside_mapped _ _ _ _ Hs Ha _ _ (L8 Hc)).
Qed.

Lemma relocation_symbol_spec m i l : link_ok m i l -> link_type l <> R_386_RELATIVE ->
  exists v, relocation_symbol o (lk_rel l) (lk_sym l) symbols m = Ok (map s8 (lk_raw l), v) /\
    lk_value l = if link_type l =? R_386_GLOB_DAT
                 then default v (if decide (lk_raw l = []) then None else contents globals !! map s8 (lk_raw l)) else v.
Proof using Hsym.
  intros Hl Ht. destruct (lo_name _ _ _ Hl Ht) as (N1 & N2 & v & N3 & N4). exists v. split; [|exact N4].
  unfold relocation_symbol. replace (elf_relocation_uses_symbol (ELF32_R_TYPE (rel_info (lk_rel l)))) with true.
  - fold (name_at l). rewrite (proj2 (Z.eqb_neq _ _) N1), (bind_Ok_l _ _ _ (c_text_spec _ _ _ N2)), (bind_Ok_l _ _ _ (lookup_spec _ _ Hsym)), N3.
    reflexivity.
  - pose proof (lo_type _ _ _ Hl) as T. unfold link_type in *. symmetry. unfold elf_relocation_uses_symbol.
    rewrite !elem_of_cons in T. destruct T as [T|[T|[T|[T|[T|[T|T]]]]]]; [..|contradiction| |inversion T]; rewrite T; reflexivity.
Qed.

(** What an entry does to its place: the bytes of the symbol, or the word of the ABI. *)
Definition placed (m m' : vmem) (l : link) : Prop :=
  if decide (is_copy l) then forall i, 0 <= i < sym_size (lk_sym l) -> m' !! (link_addr l + i) = m !! (lk_value l + i)
  else exists A, load32 (link_addr l) m = Ok A /\ load32 (link_addr l) m' = Ok (abi_value l A).

(** One entry that stores a word. *)
Lemma relocate_word m i l A : link_ok m i l -> ~ is_copy l -> load32 (link_addr l) m = Ok A ->
  exists m', relocate o (lk_rel l) symbols globals m = Ok m' /\ load32 (link_addr l) m' = Ok (abi_value l A) /\
    forall x, x < link_addr l \/ link_addr l + 4 <= x -> m' !! x = m !! x.
Proof using Hsym Hglob.
  intros Hl Hc HA. pose proof (lo_there _ _ _ Hl) as Hm. unfold link_size in Hm. rewrite decide_False in Hm by exact Hc.
  unfold relocate. rewrite (bind_Ok_l _ _ _ (lo_sym _ _ _ Hl)). fold (link_addr l) (link_type l).
  pose proof (lo_type _ _ _ Hl) as T. unfold abi_value. destruct (decide (link_type l = R_386_RELATIVE)) as [E|Ht].
  - unfold relocation_symbol. fold (link_type l). rewrite E. cbn [mbind outcome_bind]. simpl (_ =? _). simpl (elf_relocation_uses_symbol _). cbn [mbind outcome_bind orb].
    rewrite HA. apply store32_there; [exact Hm|apply u32_range].
  - destruct (relocation_symbol_spec m i l Hl Ht) as (v & E & Ev). rewrite (bind_Ok_l _ _ _ E). pose proof (lo_word _ _ _ Hl) as W.
    rewrite !elem_of_cons in T. destruct T as [T|[T|[T|[T|[T|[T|T]]]]]]; [..|contradiction|contradiction Hc; exact T|inversion T];
      rewrite T in *; simpl (_ =? _) in *; cbn [orb] in *.
    + replace (match map s8 (lk_raw l) with [] => Ok None | _ => lookup_key (map s8 (lk_raw l)) globals end)
        with (Ok (if decide (lk_raw l = []) then None else contents globals !! map s8 (lk_raw l))).
      * cbn [mbind outcome_bind]. unfold default, id in Ev. rewrite <- Ev. apply store32_there; [exact Hm|exact W].
      * destruct (lk_raw l) as [|c raw]; [reflexivity|]. cbn [map]. rewrite lookup_spec by exact Hglob. reflexivity.
    + rewrite <- Ev. apply store32_there; [exact Hm|exact W].
    + rewrite HA. cbn [mbind outcome_bind]. rewrite <- Ev. apply store32_there; [exact Hm|apply u32_range].
    + rewrite HA. cbn [mbind outcome_bind]. rewrite <- Ev. replace (sub32 (add32 (lk_value l) A) (link_addr l)) with (u32 (lk_value l + A - link_addr l)).
      * apply store32_there; [exact Hm|apply u32_range].
      * unfold sub32, add32, u32, wrap. rewrite Zminus_mod_idemp_l. reflexivity.
Qed.

(** One entry that copies an object. *)
Lemma relocate_copy m i l : link_ok m i l -> is_copy l ->
  exists m', relocate o (lk_rel l) symbols globals m = Ok m'
  /\ (forall k, 0 <= k < sym_size (lk_sym l) -> m' !! (link_addr l + k) = m !! (lk_value l + k))
  /\ forall x, x < link_addr l \/ link_addr l + sym_size (lk_sym l) <= x -> m' !! x = m !! x.
Proof using Hsym.
  intros Hl Hc. pose proof (lo_size _ _ _ Hl) as Hz. pose proof (lo_there _ _ _ Hl) as Hm. pose proof (lo_source _ _ _ Hl Hc) as Hsrc.
  unfold link_size in *. rewrite decide_True in Hm, Hsrc by exact Hc. unfold is_copy in Hc.
  destruct (relocation_symbol_spec m i l Hl ltac:(rewrite Hc; discriminate)) as (v & E & Ev).
  unfold relocate. rewrite (bind_Ok_l _ _ _ (lo_sym _ _ _ Hl)). fold (link_addr l) (link_type l). rewrite (bind_Ok_l _ _ _ E).
  rewrite Hc in *. simpl (_ =? _) in *. cbv iota in *. subst v.
  destruct (load_bytes_there (Z.to_nat (sym_size (lk_sym l))) (lk_value l) m) as (bs & El & Hlen & Hb); [rewrite Z2Nat.id by lia; exact Hsrc|].
  rewrite (bind_Ok_l _ _ _ El). destruct (store_bytes_there bs (link_addr l) m) as (m' & Es & G); [rewrite Hlen, Z2Nat.id by lia; exact Hm|].
  rewrite Hlen, Z2Nat.id in G by lia. exists m'. split; [exact Es|]. split.
  - intros k Hk. rewrite G, (proj2 (Z.leb_le _ _)), (proj2 (Z.ltb_lt _ _)) by lia. cbn [andb].
    replace (Z.to_nat (link_addr l + k - link_addr l)) with (Z.to_nat k) by lia. rewrite Hb by lia. f_equal. lia.
  - intros x Hx. rewrite G. destruct (Z.leb_spec (link_addr l) x), (Z.ltb_spec x (link_addr l + sym_size (lk_sym l))); try reflexivity; lia.
Qed.

(** One entry: its place holds what it should, the rest is as it was. *)
Lemma relocate_spec m i l : link_ok m i l ->
  exists m', relocate o (lk_rel l) symbols globals m = Ok m' /\ placed m m' l /\ mapped m' (link_addr l) (link_size l)
  /\ forall x, x < link_addr l \/ link_addr l + link_size l <= x -> m' !! x = m !! x.
Proof using Hsym Hglob.
  intros Hl. unfold placed, link_size. destruct (decide (is_copy l)) as [Hc|Hc].
  - destruct (relocate_copy m i l Hl Hc) as (m' & E & Hk & Hs). exists m'. split; [exact E|]. split; [exact Hk|]. split; [|exact Hs].
    intros x Hx. replace x with (link_addr l + (x - link_addr l)) by lia. rewrite Hk by lia.
    apply (lo_source _ _ _ Hl Hc). unfold link_size. rewrite decide_True by exact Hc. lia.
  - pose proof (lo_there _ _ _ Hl) as Hm. unfold link_size in Hm. rewrite decide_False in Hm by exact Hc.
    destruct (load32_there _ _ Hm) as [A HA]. destruct (relocate_word m i l A Hl Hc HA) as (m' & E & Hv & Hs).
    exists m'. split; [exact E|]. split; [exists A; split; [exact HA|exact Hv]|]. split; [exact (load32_mapped _ _ _ Hv)|exact Hs].
Qed.

Record links_ok (m : vmem) (i : Z) (ls : list link) : Prop := {
  ls_ok : forall k l, ls !! k = Some l -> link_ok m (i + Z.of_nat k) l;
  ls_clear : forall k l k' l', ls !! k = Some l -> ls !! k' = Some l' -> clear_of (link_addr l) (link_size l) (i + Z.of_nat k') l';
  ls_apart : forall k l k' l', ls !! k = Some l -> ls !! k' = Some l' -> k <> k' -> apart (link_addr l) (link_size l) (link_addr l') (link_size l') }.

(** Every place holds what the ABI says for what was there before. *)
Definition relocated (m m' : vmem) (ls : list link) : Prop :=
  (forall l, l ∈ ls -> placed m m' l) /\
  forall x, (forall l, l ∈ ls -> x < link_addr l \/ link_addr l + link_size l <= x) -> m' !! x = m !! x.

Lemma links_ok_tail m m' i l ls : links_ok m i (l :: ls) -> (forall x, x < link_addr l \/ link_addr l + link_size l <= x -> m' !! x = m !! x) ->
  mapped m' (link_addr l) (link_size l) -> links_ok m' (i + 1) ls.
Proof using.
  intros [H1 H2 H3] Hs Hm. constructor.
  - intros k l' Hk. replace (i + 1 + Z.of_nat k) with (i + Z.of_nat (S k)) by lia.
    apply (link_ok_frame m m' (link_addr l) (link_size l)); [exact Hs|exact Hm|exact (H2 0%nat l (S k) l' eq_refl Hk)|exact (H1 (S k) l' Hk)].
  - intros k l1 k' l2 Hk Hk'. replace (i + 1 + Z.of_nat k') with (i + Z.of_nat (S k')) by lia. exact (H2 (S k) l1 (S k') l2 Hk Hk').
  - intros k l1 k' l2 Hk Hk' Hne. exact (H3 (S k) l1 (S k') l2 Hk Hk' ltac:(lia)).
Qed.

(** What an entry did stays when the other places change. *)
Lemma placed_later m m1 m2 l : placed m m1 l -> same_at m1 m2 (link_addr l) (link_size l) -> placed m m2 l.
Proof using.
  unfold placed, link_size. destruct (decide (is_copy l)) as [Hc|Hc]; intros H Hs.
  - intros k Hk. rewrite <- H by exact Hk. apply Hs. lia.
  - destruct H as (A & HA & HA'). exists A. split; [exact HA|]. rewrite <- HA'. apply load32_same. exact Hs.
Qed.

(** An entry does to memory that was changed elsewhere what it would have done. *)
Lemma placed_earlier m m1 m2 l : placed m1 m2 l -> same_at m m1 (link_addr l) (link_size l) ->
  (is_copy l -> same_at m m1 (lk_value l) (link_size l)) -> placed m m2 l.
Proof using.
  unfold placed, link_size. destruct (decide (is_copy l)) as [Hc|Hc]; intros H Hs Hv.
  - intros k Hk. rewrite (H k Hk). apply (Hv Hc). lia.
  - destruct H as (A & HA & HA'). exists A. split; [|exact HA']. rewrite <- HA. symmetry. apply load32_same. exact Hs.
Qed.

Lemma relocate_n_spec : forall ls i m, links_ok m i ls ->
  exists m', relocate_n (length ls) i o table symbols globals m = Ok m' /\ relocated m m' ls.
Proof using Hsym Hglob.
  induction ls as [|l ls IH]; intros i m Hls.
  - exists m. split; [reflexivity|]. split; [intros l Hl; inversion Hl|reflexivity].
  - pose proof (ls_ok _ _ _ Hls 0%nat l eq_refl) as Hl. rewrite Z.add_0_r in Hl. cbn [relocate_n length].
    rewrite (bind_Ok_l _ _ _ (lo_rel _ _ _ Hl)). destruct (relocate_spec m i l Hl) as (m1 & E1 & HA1 & Hm1 & Hs1). rewrite (bind_Ok_l _ _ _ E1).
    destruct (IH (i + 1) m1 (links_ok_tail m m1 i l ls Hls Hs1 Hm1)) as (m2 & E2 & HA2 & Hs2). exists m2. split; [exact E2|]. split.
    + intros l' Hl'. apply elem_of_cons in Hl' as [->|Hl'].
      * apply (placed_later m m1); [exact HA1|]. intros x Hx. apply Hs2. intros l' Hl'. apply list_elem_of_lookup in Hl' as [k Hk].
        destruct (ls_apart _ _ _ Hls 0%nat l (S k) l' eq_refl Hk ltac:(lia)); lia.
      * pose proof Hl' as Hin. apply list_elem_of_lookup in Hl' as [k Hk]. apply (placed_earlier m m1); [exact (HA2 l' Hin)| |].
        -- exact (same_outside _ _ _ _ _ _ Hs1 (ls_apart _ _ _ Hls 0%nat l (S k) l' eq_refl Hk ltac:(lia))).
        -- intros Hc. destruct (ls_clear _ _ _ Hls 0%nat l (S k) l' eq_refl Hk) as (_ & _ & _ & Hcl). exact (same_outside _ _ _ _ _ _ Hs1 (Hcl Hc)).
    + intros x Hx. rewrite Hs2 by (intros l' Hl'; apply Hx; right; exact Hl'). apply Hs1. apply Hx. left.
Qed.
End relocation.

(** C28: relocation: for entries whose symbols are found and whose places do not overlap
    each other, the tables or an object that is copied, every place holds the value the
    ABI gives for its kind of relocation, its symbol and what was there -- for R_386_COPY
    the bytes of the symbol --, and no other byte of memory changes. *)
Theorem elf_process_relocation_section_correct o symbols globals table m ls :
  map_ok symbols -> map_ok globals -> table <> 0 -> symbol_table o <> 0 -> links_ok o symbols globals table m 0 ls ->
  exists m', elf_process_relocation_section o table (Z.of_nat (length ls)) symbols globals m = Ok m' /\ relocated o m m' ls.
Proof.
  intros Hsym Hglob Ht Hs Hls. unfold elf_process_relocation_section. rewrite (proj2 (Z.eqb_neq _ _) Ht), (proj2 (Z.eqb_neq _ _) Hs), Nat2Z.id.
  exact (relocate_n_spec o symbols globals table Hsym Hglob ls 0 m Hls).
Qed.

(** ** Symbols *)
Definition symbol_there (o : ELF_linker_data) (m : vmem) (i : Z) (s : ELF_sym32 * list Z) : Prop :=
  load_sym (symbol_table o) i m = Ok s.1 /\ (section_index s.1 <> 0 -> has_text m (add32 (string_table o) (sym_name s.1)) s.2).
(** What an object exports: the names of its defined symbols and their addresses. *)
Definition exports (o : ELF_linker_data) (syms : list (ELF_sym32 * list Z)) : list (list Z * Z) :=
  map (fun s => (map s8 s.2, add32 (base_address o) (sym_value s.1))) (List.filter (fun s => negb (section_index s.1 =? 0)) syms).

Lemma read_symbols_n_spec o m : forall syms i symbols, map_ok symbols ->
  (forall k s, syms !! k = Some s -> symbol_there o m (i + Z.of_nat k) s) ->
  exists symbols', read_symbols_n (length syms) i o m symbols = Ok symbols' /\ map_ok symbols' /\
    contents symbols' = contents symbols ∪ list_to_map (exports o syms).
Proof.
  induction syms as [|[s raw] syms IH]; intros i symbols Hok Hs.
  - exists symbols. split; [reflexivity|]. split; [exact Hok|]. cbn. rewrite map_union_empty. reflexivity.
  - assert (Hs' : forall k s, syms !! k = Some s -> symbol_there o m (i + 1 + Z.of_nat k) s).
    { intros k x Hk. replace (i + 1 + Z.of_nat k) with (i + Z.of_nat (S k)) by lia. exact (Hs (S k) x Hk). }
    destruct (Hs 0%nat (s, raw) eq_refl) as [H1 H2]. rewrite Z.add_0_r in H1. cbn [fst snd] in *. cbn [read_symbols_n length].
    rewrite (bind_Ok_l _ _ _ H1). unfold exports. cbn [List.filter fst]. destruct (Z.eqb_spec (section_index s) 0) as [E|Hn]; cbn [negb].
    + destruct (IH (i + 1) symbols Hok Hs') as (symbols' & E1 & R). exists symbols'. split; [exact E1|exact R].
    + rewrite (bind_Ok_l _ _ _ (c_text_spec _ _ _ (H2 Hn))). cbn [List.map fst snd]. rewrite list_to_map_cons. fold (exports o syms).
      pose proof (emplace_spec (map s8 raw) (add32 (base_address o) (sym_value s)) symbols Hok) as Hi. unfold refines_insert in Hi. unfold insert_key.
      destruct (contents symbols !! map s8 raw) as [v|] eqn:Ec.
      * rewrite Hi. cbn [mbind outcome_bind]. destruct (IH (i + 1) symbols Hok Hs') as (symbols' & E1 & O & C). exists symbols'. split; [exact E1|].
        split; [exact O|]. rewrite C. apply map_eq. intros x. destruct (decide (x = map s8 raw)) as [->|Hx].
        -- rewrite !(lookup_union_Some_l _ _ _ v) by exact Ec. reflexivity.
        -- rewrite !lookup_union, lookup_insert_ne by congruence. reflexivity.
      * destruct Hi as (symbols1 & Ei & Ok1 & C1). rewrite Ei. cbn [mbind outcome_bind].
        destruct (IH (i + 1) symbols1 Ok1 Hs') as (symbols' & E1 & O & C). exists symbols'. split; [exact E1|]. split; [exact O|].
        rewrite C, C1. rewrite <- insert_union_l, <- insert_union_r by exact Ec. reflexivity.
Qed.

(** Reading the symbols of an object adds what it exports to the map: a name that is
    already there keeps its value, and of two definitions in the object the first one
    counts. *)
Theorem elf_read_symbols_correct o m syms symbols : map_ok symbols -> symbol_table o <> 0 -> string_table o <> 0 ->
  symbol_table_size o = Z.of_nat (length syms) -> (forall k s, syms !! k = Some s -> symbol_there o m (Z.of_nat k) s) ->
  exists symbols', elf_read_symbols o m symbols = Ok symbols' /\ map_ok symbols' /\
    contents symbols' = contents symbols ∪ list_to_map (exports o syms).
Proof.
  intros Hok H1 H2 Hn Hs. unfold elf_read_symbols. rewrite (proj2 (Z.eqb_neq _ _) H1), (proj2 (Z.eqb_neq _ _) H2), Hn, Nat2Z.id.
  exact (read_symbols_n_spec o m syms 0 symbols Hok Hs).
Qed.

(** ** What the loader relies on *)
Class loader_laws (E F : Type) `{loader_env E F} := {
  ll_ok : E -> Prop;
  (** the bytes of a file; and that there are so many pages at an address, or anywhere *)
  ll_file : F -> list Z;
  ll_room : E -> Z -> Z -> Prop;
  ll_open f e : ll_ok e -> file_is_open f e = true;
  ll_read f pos n e : ll_ok e -> 0 <= pos -> 0 <= n -> pos + n <= Z.of_nat (length (ll_file f)) ->
    exists e', read_file f pos n e = Ok (take (Z.to_nat n) (drop (Z.to_nat pos) (ll_file f)), e') /\ ll_ok e'
      /\ forall b k, ll_room e' b k <-> ll_room e b k;
  ll_flags a n fl e : ll_ok e -> exists e', set_page_flags a n fl e = Ok e' /\ ll_ok e';
  (** pages that were not there read as zeros *)
  ll_alloc a n fl e : ll_ok e -> ll_room e a n -> 0 < n -> a mod PAGE_SIZE = 0 ->
    exists b mp e', virtual_alloc a n fl e = Ok (b, mp, e') /\ ll_ok e' /\ 0 <= b /\ b + n * PAGE_SIZE <= 2 ^ 32 /\ (a <> 0 -> b = a) /\
      forall x, mp !! x = if (b <=? x) && (x <? b + n * PAGE_SIZE) then Some 0 else None }.

Section loading.
Context {E F : Type} `{LL : loader_laws E F}.
Implicit Types (f : F) (e : E).

Definition file_slice (f : F) (pos n : Z) : list Z := take (Z.to_nat n) (drop (Z.to_nat pos) (ll_file f)).
Definition is_load (ph : ELF_program_header32) : Prop := ph_type ph = ELF_PTYPE_LOAD.

(** A table of program headers inside the file, with segments inside the file and the
    address space. *)
Record headers_ok (f : F) (h : ELF_header32) (phs : list ELF_program_header32) : Prop := {
  ho_count : pgh_entries h = Z.of_nat (length phs);
  ho_small : 0 <= pgh_offset h /\ pgh_offset h + 32 * pgh_entries h < 2 ^ 32;
  ho_in : pgh_offset h + 32 * pgh_entries h <= Z.of_nat (length (ll_file f));
  ho_decode : forall k ph, phs !! k = Some ph -> decode_program_header (file_slice f (pgh_offset h + 32 * Z.of_nat k) 32) = ph;
  ho_space : forall ph, ph ∈ phs -> is_load ph -> 0 <= ph_vaddr ph /\ 0 < ph_mem_size ph /\ ph_vaddr ph + ph_mem_size ph < 2 ^ 32;
  ho_file : forall ph, ph ∈ phs -> is_load ph -> 0 <= ph_file_size ph <= ph_mem_size ph /\ 0 <= ph_offset ph /\
    ph_offset ph + ph_file_size ph <= Z.of_nat (length (ll_file f)) }.

Lemma read_record_spec f pos n e : ll_ok e -> 0 <= pos -> 0 <= n -> pos + n <= Z.of_nat (length (ll_file f)) ->
  exists e', read_record f pos n e = Ok (file_slice f pos n, e') /\ ll_ok e' /\ forall b k, ll_room e' b k <-> ll_room e b k.
Proof using.
  intros He Hp Hn Hl. destruct (ll_read f pos n e He Hp Hn Hl) as (e' & Er & R). exists e'. split; [|exact R].
  unfold read_record. rewrite (bind_Ok_l _ _ _ Er). rewrite (proj2 (Z.eqb_eq _ _)) by (rewrite length_take, length_drop; lia). reflexivity.
Qed.

Lemma read_program_header_spec f h phs k ph e : headers_ok f h phs -> ll_ok e -> phs !! k = Some ph ->
  exists e', read_program_header f h (Z.of_nat k) e = Ok (ph, e') /\ ll_ok e' /\ forall b j, ll_room e' b j <-> ll_room e b j.
Proof using.
  intros [H1 H2 H3 H4 H5 H6] He Hk. pose proof (lookup_lt_Some _ _ _ Hk) as Hlt. unfold read_program_header, sizeof_program_header.
  rewrite (mul32_small (Z.of_nat k)) by lia. rewrite add32_small by lia. rewrite (Z.mul_comm (Z.of_nat k)).
  destruct (read_record_spec f (pgh_offset h + 32 * Z.of_nat k) 32 e He) as (e' & Er & R); [lia..|].
  exists e'. split; [|exact R]. rewrite (bind_Ok_l _ _ _ Er). rewrite (H4 k ph Hk). reflexivity.
Qed.

(** [lo] and [hi] are the bounds of the segments in a list. *)
Definition covers (phs : list ELF_program_header32) (lo hi : Z) : Prop :=
  forall ph, ph ∈ phs -> is_load ph -> lo <= ph_vaddr ph /\ ph_vaddr ph + ph_mem_size ph <= hi.

Lemma get_size_n_spec f h phs : headers_ok f h phs -> forall rest done lo hi e, phs = done ++ rest -> ll_ok e -> covers done lo hi ->
  exists lo' hi' e', get_size_n (length rest) (Z.of_nat (length done)) h f lo hi e = Ok (lo', hi', e') /\ ll_ok e' /\
    (forall b k, ll_room e' b k <-> ll_room e b k) /\ covers phs lo' hi' /\
    (lo' = lo \/ exists ph, ph ∈ rest /\ is_load ph /\ ph_vaddr ph = lo') /\
    (hi' = hi \/ exists ph, ph ∈ rest /\ is_load ph /\ ph_vaddr ph + ph_mem_size ph = hi') /\ lo' <= lo /\ hi <= hi'.
Proof using.
  intros Hh. induction rest as [|ph rest IH]; intros done lo hi e Hp He Hc.
  - rewrite app_nil_r in Hp. subst done. exists lo, hi, e. split; [reflexivity|]. split; [exact He|]. split; [reflexivity|]. split; [exact Hc|].
    split; [left; reflexivity|]. split; [left; reflexivity|lia].
  - assert (Hk : phs !! length done = Some ph) by (subst phs; rewrite lookup_app_r, Nat.sub_diag by lia; reflexivity).
    destruct (read_program_header_spec f h phs (length done) ph e Hh He Hk) as (e1 & E1 & He1 & Hr1). cbn [get_size_n length].
    rewrite (bind_Ok_l _ _ _ E1). assert (Hp' : phs = (done ++ [ph]) ++ rest) by (rewrite <- app_assoc; exact Hp).
    destruct (Z.eqb_spec (ph_type ph) ELF_PTYPE_LOAD) as [El|Hn].
    + destruct (ho_space _ _ _ Hh ph (list_elem_of_lookup_2 _ _ _ Hk) El) as (V1 & V2 & V3). rewrite add32_small by lia.
      destruct (IH (done ++ [ph]) (Z.min lo (ph_vaddr ph)) (Z.max hi (ph_vaddr ph + ph_mem_size ph)) e1 Hp' He1) as (lo' & hi' & e' & E2 & He' & Hr & C & L & R & B1 & B2).
      { intros x Hx Hl. apply elem_of_app in Hx as [Hx|Hx]; [specialize (Hc x Hx Hl); lia|]. apply list_elem_of_singleton in Hx as ->. lia. }
      rewrite length_app, Nat2Z.inj_add in E2. exists lo', hi', e'. split; [exact E2|]. split; [exact He'|].
      split; [intros b k; rewrite Hr; apply Hr1|]. split; [exact C|].
      assert (Hin : ph ∈ ph :: rest) by left. split; [|split; [|lia]].
      * destruct L as [L|(x & X1 & X2 & X3)]; [|right; exists x; split; [right; exact X1|split; assumption]].
        destruct (Z.le_gt_cases lo (ph_vaddr ph)); [left; lia|right; exists ph; split; [exact Hin|]; split; [exact El|lia]].
      * destruct R as [R|(x & X1 & X2 & X3)]; [|right; exists x; split; [right; exact X1|split; assumption]].
        destruct (Z.le_gt_cases (ph_vaddr ph + ph_mem_size ph) hi); [left; lia|right; exists ph; split; [exact Hin|]; split; [exact El|lia]].
    + destruct (IH (done ++ [ph]) lo hi e1 Hp' He1) as (lo' & hi' & e' & E2 & He' & Hr & C & L & R & B).
      { intros x Hx Hl. apply elem_of_app in Hx as [Hx|Hx]; [exact (Hc x Hx Hl)|]. apply list_elem_of_singleton in Hx as ->. contradiction. }
      rewrite length_app, Nat2Z.inj_add in E2. exists lo', hi', e'. split; [exact E2|]. split; [exact He'|].
      split; [intros b k; rewrite Hr; apply Hr1|]. split; [exact C|]. split; [|split; [|exact B]].
      * destruct L as [L|(x & X1 & X2)]; [left; exact L|right; exists x; split; [right; exact X1|exact X2]].
      * destruct R as [R|(x & X1 & X2)]; [left; exact R|right; exists x; split; [right; exact X1|exact X2]].
Qed.

(** The pages that are asked for are the smallest range with all segments. *)
Lemma elf_get_size_correct f h phs e : headers_ok f h phs -> ll_ok e -> (exists ph, ph ∈ phs /\ is_load ph) ->
  exists lo n e', elf_get_size h f e = Ok (lo, n, e') /\ ll_ok e' /\ (forall b k, ll_room e' b k <-> ll_room e b k) /\ covers phs lo (lo + n) /\
    0 <= lo /\ 0 <= n /\ lo + n < 2 ^ 32 /\
    (exists ph, ph ∈ phs /\ is_load ph /\ ph_vaddr ph = lo) /\ (n = 0 \/ exists ph, ph ∈ phs /\ is_load ph /\ ph_vaddr ph + ph_mem_size ph = lo + n).
Proof using.
  intros Hh He (p0 & Hp0 & Hl0).
  destruct (get_size_n_spec f h phs Hh phs [] (2 ^ 32 - 1) 0 e eq_refl He ltac:(intros ph Hph; inversion Hph)) as (lo & hi & e' & E1 & He' & Hr & C & L & R & B1 & B2).
  destruct (C p0 Hp0 Hl0) as [C1 C2]. destruct (ho_space _ _ _ Hh p0 Hp0 Hl0) as (V1 & V2 & V3).
  assert (Hlo : 0 <= lo /\ exists ph, ph ∈ phs /\ is_load ph /\ ph_vaddr ph = lo).
  { destruct L as [->|(x & X1 & X2 & X3)].
    - split; [lia|]. exists p0. split; [exact Hp0|]. split; [exact Hl0|lia].
    - pose proof (ho_space _ _ _ Hh x X1 X2). split; [lia|]. exists x. split; [exact X1|]. split; [exact X2|exact X3]. }
  assert (Hhi : hi < 2 ^ 32).
  { destruct R as [->|(x & X1 & X2 & X3)]; [lia|]. pose proof (ho_space _ _ _ Hh x X1 X2). lia. }
  exists lo, (hi - lo), e'. unfold elf_get_size. rewrite (ho_count _ _ _ Hh), Nat2Z.id. cbn [length] in E1. change (Z.of_nat 0) with 0 in E1.
  rewrite (bind_Ok_l _ _ _ E1). rewrite sub32_small by lia. replace (lo + (hi - lo)) with hi by lia.
  split; [reflexivity|]. split; [exact He'|]. split; [exact Hr|]. split; [exact C|]. split; [apply Hlo|]. split; [lia|]. split; [exact Hhi|]. split; [apply Hlo|].
  destruct R as [->|R]; [left; lia|right; exact R].
Qed.

(** ** Loading the segments *)
Context (f : F) (h : ELF_header32) (phs : list ELF_program_header32) (base : Z).

(** Segments that do not overlap, in the address space above the base. *)
Record layout_ok : Prop := {
  lay_headers : headers_ok f h phs;
  lay_apart : forall k ph k' ph', phs !! k = Some ph -> phs !! k' = Some ph' -> k <> k' -> is_load ph -> is_load ph' ->
    apart (ph_vaddr ph) (ph_mem_size ph) (ph_vaddr ph') (ph_mem_size ph');
  lay_static : forall ph, ph ∈ phs -> ph_type ph <> ELF_PTYPE_DYNAMIC }.
Definition room_ok (m : vmem) : Prop := forall ph, ph ∈ phs -> is_load ph ->
  0 <= base + ph_vaddr ph /\ base + ph_vaddr ph + ph_mem_size ph <= 2 ^ 32 /\ base + ph_vaddr ph < 2 ^ 32 /\
  mapped m (base + ph_vaddr ph) (ph_mem_size ph).

(** What a segment puts into memory. *)
Definition segment_there (m : vmem) (ph : ELF_program_header32) : Prop :=
  forall i, 0 <= i < ph_file_size ph -> m !! (base + ph_vaddr ph + i) = ll_file f !! Z.to_nat (ph_offset ph + i).
Definition in_segment (x : Z) (ph : ELF_program_header32) : Prop :=
  is_load ph /\ base + ph_vaddr ph <= x < base + ph_vaddr ph + ph_file_size ph.

Lemma load_segment_spec ph np user obj (s : machine E) : layout_ok -> ph ∈ phs -> room_ok (vm s) -> ll_ok (env s) ->
  exists obj' s', load_segment ph f base np user obj s = Ok (obj', s') /\ ll_ok (env s') /\
    segments obj' = segments obj /\ linker_data obj' = linker_data obj /\
    lib_set s' = lib_set s /\ symbol_map s' = symbol_map s /\ glob_data_symbol_map s' = glob_data_symbol_map s /\
    (is_load ph -> segment_there (vm s') ph) /\ forall x, ~ in_segment x ph -> vm s' !! x = vm s !! x.
Proof using.
  intros Hlay Hin Hroom He. unfold load_segment. rewrite (proj2 (Z.eqb_neq _ _) (lay_static Hlay ph Hin)).
  destruct (Z.eqb_spec (ph_type ph) ELF_PTYPE_LOAD) as [El|Hn].
  - destruct (Hroom ph Hin El) as (R1 & R2 & R3 & R4). destruct (ho_file _ _ _ (lay_headers Hlay) ph Hin El) as (F1 & F2 & F3).
    destruct (ll_flags (aligned_addr (calculate_segment_info ph base user)) np (seg_flags (calculate_segment_info ph base user)) (env s) He) as (e1 & E1 & He1).
    rewrite (bind_Ok_l _ _ _ E1). destruct (ll_read f (ph_offset ph) (ph_file_size ph) e1 He1) as (e2 & E2 & He2 & _); [lia..|].
    rewrite (bind_Ok_l _ _ _ E2). cbn [virtual_addr calculate_segment_info]. rewrite add32_small by lia.
    set (l := take _ _). assert (Hl : Z.of_nat (length l) = ph_file_size ph) by (unfold l; rewrite length_take, length_drop; lia).
    destruct (store_bytes_there l (base + ph_vaddr ph) (vm s)) as (m' & E3 & G); [intros x Hx; apply R4; lia|].
    rewrite (bind_Ok_l _ _ _ E3). eexists obj, _. split; [reflexivity|]. split; [exact He2|].
    do 5 (split; [reflexivity|]). cbn [vm set_vm set_env]. rewrite Hl in G. split.
    + intros _ i Hi. rewrite G. rewrite (proj2 (Z.leb_le _ _)), (proj2 (Z.ltb_lt _ _)) by lia. cbn [andb]. unfold l.
      rewrite lookup_take_lt, lookup_drop by lia. f_equal. lia.
    + intros x Hx. rewrite G. destruct (Z.leb_spec (base + ph_vaddr ph) x), (Z.ltb_spec x (base + ph_vaddr ph + ph_file_size ph)); try reflexivity.
      contradiction Hx. split; [exact El|lia].
  - destruct (ph_type ph =? ELF_PTYPE_TLS); eexists _, s; (split; [reflexivity|]); (split; [exact He|]); do 5 (split; [reflexivity|]);
      (split; [intros El; contradiction|reflexivity]).
Qed.

Lemma load_segments_n_spec np user : layout_ok -> forall rest done obj (s : machine E), phs = done ++ rest -> room_ok (vm s) -> ll_ok (env s) ->
  exists obj' s', load_segments_n (length rest) (Z.of_nat (length done)) h f base np user obj s = Ok (obj', s') /\ ll_ok (env s') /\
    segments obj' = segments obj /\ linker_data obj' = linker_data obj /\
    lib_set s' = lib_set s /\ symbol_map s' = symbol_map s /\ glob_data_symbol_map s' = glob_data_symbol_map s /\
    (forall ph, ph ∈ rest -> is_load ph -> segment_there (vm s') ph) /\
    forall x, (forall ph, ph ∈ rest -> ~ in_segment x ph) -> vm s' !! x = vm s !! x.
Proof using.
  intros Hlay. induction rest as [|ph rest IH]; intros done obj s Hp Hroom He.
  - exists obj, s. split; [reflexivity|]. split; [exact He|]. do 5 (split; [reflexivity|]). split; [intros ph Hph; inversion Hph|reflexivity].
  - assert (Hk : phs !! length done = Some ph) by (rewrite Hp, lookup_app_r, Nat.sub_diag by lia; reflexivity).
    destruct (read_program_header_spec f h phs (length done) ph (env s) (lay_headers Hlay) He Hk) as (e1 & E1 & He1 & _). cbn [load_segments_n length].
    rewrite (bind_Ok_l _ _ _ E1). pose proof (list_elem_of_lookup_2 _ _ _ Hk) as Hin.
    destruct (load_segment_spec ph np user obj (set_env e1 s) Hlay Hin Hroom He1) as (obj1 & s1 & E2 & He2 & A1 & A2 & A3 & A4 & A5 & A6 & A7).
    rewrite (bind_Ok_l _ _ _ E2). cbn [vm set_env lib_set symbol_map glob_data_symbol_map] in *.
    assert (Hroom1 : room_ok (vm s1)).
    { intros p Hpin Hpl. destruct (Hroom p Hpin Hpl) as (R1 & R2 & R3 & R4). split; [exact R1|]. split; [exact R2|]. split; [exact R3|].
      intros x Hx. destruct (decide (is_load ph /\ base + ph_vaddr ph <= x < base + ph_vaddr ph + ph_file_size ph)) as [[El Hx']|Hno].
      - replace x with (base + ph_vaddr ph + (x - (base + ph_vaddr ph))) by lia. rewrite (A6 El) by lia.
        destruct (ho_file _ _ _ (lay_headers Hlay) ph Hin El) as (F1 & F2 & F3). apply lookup_lt_is_Some. lia.
      - rewrite A7 by exact Hno. apply R4. exact Hx. }
    destruct (IH (done ++ [ph]) obj1 s1 ltac:(rewrite <- app_assoc; exact Hp) Hroom1 He2) as (obj' & s' & E3 & He3 & B1 & B2 & B3 & B4 & B5 & B6 & B7).
    rewrite length_app, Nat2Z.inj_add in E3. exists obj', s'. split; [exact E3|]. split; [exact He3|].
    do 5 (split; [congruence|]). split.
    + intros p Hpin Hpl. apply elem_of_cons in Hpin as [->|Hpin]; [|exact (B6 p Hpin Hpl)]. intros i Hi.
      rewrite B7; [exact (A6 Hpl i Hi)|]. intros q Hq [Hql Hqi]. apply list_elem_of_lookup in Hq as [k Hkq].
      assert (Hkq' : phs !! (length done + S k)%nat = Some q) by (rewrite Hp, lookup_app_r by lia; replace (length done + S k - length done)%nat with (S k) by lia; exact Hkq).
      pose proof (lay_apart Hlay _ _ _ _ Hk Hkq' ltac:(lia) Hpl Hql) as Hap.
      pose proof (ho_file _ _ _ (lay_headers Hlay) ph Hin Hpl). pose proof (ho_file _ _ _ (lay_headers Hlay) q (list_elem_of_lookup_2 _ _ _ Hkq') Hql).
      destruct Hap; lia.
    + intros x Hx. rewrite B7 by (intros q Hq; apply Hx; right; exact Hq). apply A7, Hx. left.
Qed.
End loading.

(** ** A whole file *)
Section file.
Context {E F : Type} `{LL : loader_laws E F}.

(** The lowest address of the segments and their size from there. *)
Record extent (phs : list ELF_program_header32) (lo n : Z) : Prop := {
  ext_covers : covers phs lo (lo + n);
  ext_low : exists ph, ph ∈ phs /\ is_load ph /\ ph_vaddr ph = lo;
  ext_high : exists ph, ph ∈ phs /\ is_load ph /\ ph_vaddr ph + ph_mem_size ph = lo + n;
  ext_aligned : lo mod PAGE_SIZE = 0;
  ext_small : n < 2 ^ 32 - PAGE_SIZE }.

(** A file for this machine that needs no linking. *)
Record static_file (f : F) (h : ELF_header32) (phs : list ELF_program_header32) : Prop := {
  sf_size : sizeof_ELF_ident + sizeof_ELF_header32 <= Z.of_nat (length (ll_file f));
  sf_readable : elf_is_readable (decode_ident (file_slice f 0 sizeof_ELF_ident)) = true;
  sf_header : decode_header (file_slice f sizeof_ELF_ident sizeof_ELF_header32) = h;
  sf_compatible : elf_is_compatible h = true;
  sf_layout : layout_ok f h phs }.

Definition image_base (lo b : Z) : Z := if lo =? 0 then b else 0.
Record image (f : F) (phs : list ELF_program_header32) (lo n b : Z) (m m' : vmem) : Prop := {
  im_file : forall ph, ph ∈ phs -> is_load ph -> segment_there f (image_base lo b) m' ph;
  im_zero : forall ph, ph ∈ phs -> is_load ph -> forall i, ph_file_size ph <= i < ph_mem_size ph ->
    m' !! (image_base lo b + ph_vaddr ph + i) = Some 0;
  im_other : forall x, x < b \/ b + memmanager_minimum_pages n * PAGE_SIZE <= x -> m' !! x = m !! x }.

Lemma static_size f h phs lo n e : static_file f h phs -> extent phs lo n -> ll_ok e ->
  exists e', elf_get_size h f e = Ok (lo, n, e') /\ ll_ok e' /\ forall b k, ll_room e' b k <-> ll_room e b k.
Proof using.
  intros Hf [C (pl & L1 & L2 & L3) (ph & H1 & H2 & H3) _ _] He.
  destruct (elf_get_size_correct f h phs e (lay_headers _ _ _ (sf_layout _ _ _ Hf)) He ltac:(exists pl; split; assumption))
    as (lo' & n' & e' & E1 & He' & Hr & C' & _ & _ & _ & (ql & Q1 & Q2 & Q3) & R).
  pose proof (C ql Q1 Q2). pose proof (C' pl L1 L2). pose proof (C' ph H1 H2). assert (lo' = lo) as -> by lia.
  assert (n' = n) as ->.
  { destruct R as [->|(qh & R1 & R2 & R3)]; [|pose proof (C qh R1 R2); lia].
    pose proof (ho_space _ _ _ (lay_headers _ _ _ (sf_layout _ _ _ Hf)) pl L1 L2). lia. }
  exists e'. split; [exact E1|]. split; [exact He'|exact Hr].
Qed.

(** C29: loading a file that needs no linking and whose lowest segment starts at a page:
    the range that is allocated is the smallest one with all its segments; afterwards
    each segment holds its bytes of the file and zeros behind them, every byte of memory
    outside the range is as it was, and the entry point is that of the file, moved by
    where the object was placed.  The flags of the pages are not part of the claim: each
    segment sets those of as many pages as the whole object has (elf.cpp:233). *)
Theorem load_elf_correct depth user f h phs lo n obj (s : machine E) :
  static_file f h phs -> extent phs lo n -> ll_ok (env s) -> ll_room (env s) lo (memmanager_minimum_pages n) ->
  exists obj' s' b, load_elf (S depth) f obj user s = Ok (1, obj', s') /\ image f phs lo n b (vm s) (vm s') /\ (lo <> 0 -> b = lo) /\
    entry_point obj' = add32 (image_base lo b) (eh_entry_point h) /\ segments obj' = segments obj ++ [(b, memmanager_minimum_pages n)] /\
    symbol_map s' = symbol_map s.
Proof using.
  intros Hf Hx He Hr. pose proof Hf as [F1 F2 F3 F4 F5]. cbn [load_elf]. rewrite ll_open by exact He. cbn [negb].
  destruct (read_record_spec f 0 sizeof_ELF_ident (env s) He) as (e1 & E1 & He1 & Hr1); [unfold sizeof_ELF_ident, sizeof_ELF_header32 in *; lia..|].
  rewrite (bind_Ok_l _ _ _ E1), F2. cbn [negb].
  destruct (read_record_spec f sizeof_ELF_ident sizeof_ELF_header32 e1 He1) as (e2 & E2 & He2 & Hr2); [unfold sizeof_ELF_ident, sizeof_ELF_header32 in *; lia..|].
  rewrite (bind_Ok_l _ _ _ E2), F3, F4. cbn [negb]. destruct (static_size f h phs lo n e2 Hf Hx He2) as (e3 & E3 & He3 & Hr3).
  rewrite (bind_Ok_l _ _ _ E3). destruct Hx as [C (pl & L1 & L2 & L3) _ Hal Hsm].
  pose proof (ho_space _ _ _ (lay_headers _ _ _ F5) pl L1 L2) as Hpl. pose proof (C pl L1 L2) as Cpl.
  destruct (minimum_pages_spec n ltac:(lia) Hsm) as [P1 P2]. set (np := memmanager_minimum_pages n) in *.
  destruct (ll_alloc lo np (if user then Z.lor PAGE_USER PAGE_RW else PAGE_RW) e3 He3) as (b & mp & e4 & E4 & He4 & B1 & B2 & B3 & G); [apply Hr3, Hr2, Hr1; exact Hr|exact P1|exact Hal|].
  rewrite (bind_Ok_l _ _ _ E4). set (base := image_base lo b).
  assert (Eb : (if negb (lo =? 0) then _ ← k_assert (lo =? b); Ok 0 else Ok b) = Ok base).
  { unfold base, image_base. destruct (Z.eqb_spec lo 0) as [_|Hn]; [reflexivity|]. cbn [negb]. rewrite (B3 Hn), Z.eqb_refl. reflexivity. }
  assert (Hbase : base + lo = b) by (unfold base, image_base; destruct (Z.eqb_spec lo 0) as [->|Hn]; [lia|rewrite (B3 Hn); lia]).
  rewrite (bind_Ok_l _ _ _ Eb). set (m0 := mp ∪ vm s). set (s0 := set_vm m0 (set_env e4 s)).
  assert (Hm0 : forall x, b <= x < b + np * PAGE_SIZE -> m0 !! x = Some 0).
  { intros x Hx. apply lookup_union_Some_l. rewrite G, (proj2 (Z.leb_le _ _)), (proj2 (Z.ltb_lt _ _)) by lia. reflexivity. }
  assert (Hin : forall ph, ph ∈ phs -> is_load ph -> b <= base + ph_vaddr ph /\ base + ph_vaddr ph + ph_mem_size ph <= b + np * PAGE_SIZE)
    by (intros ph Hph Hl; pose proof (C ph Hph Hl); lia).
  assert (Hroom : room_ok phs base (vm s0)).
  { intros ph Hph Hl. pose proof (Hin ph Hph Hl). pose proof (ho_space _ _ _ (lay_headers _ _ _ F5) ph Hph Hl).
    split; [lia|]. split; [lia|]. split; [lia|]. intros x Hxx. eexists. apply Hm0. lia. }
  destruct (load_segments_n_spec f h phs base np user F5 phs [] (mk_do (entry_point obj) (segments obj ++ [(b, np)]) (tls_image obj) None) s0 eq_refl Hroom He4)
    as (obj1 & s1 & E5 & He5 & A1 & A2 & A3 & A4 & A5 & A6 & A7).
  rewrite (ho_count _ _ _ (lay_headers _ _ _ F5)), Nat2Z.id. cbn [length] in E5. change (Z.of_nat 0) with 0 in E5. rewrite (bind_Ok_l _ _ _ E5).
  unfold elf_process_dynamic_section. cbn [linker_data]. rewrite A2. cbn [linker_data mbind outcome_bind].
  eexists _, s1, b. split; [reflexivity|]. split; [|split; [exact B3|]; split; [reflexivity|]; split; [exact A1|exact A4]].
  assert (Hz : forall x, b <= x < b + np * PAGE_SIZE -> (forall q, q ∈ phs -> ~ in_segment base x q) -> vm s1 !! x = Some 0)
    by (intros x Hx Hq; rewrite A7 by exact Hq; exact (Hm0 x Hx)).
  constructor; fold base np; [exact A6| |].
  - intros ph Hph Hl i Hi. pose proof (Hin ph Hph Hl). pose proof (ho_file _ _ _ (lay_headers _ _ _ F5) ph Hph Hl) as Hfl.
    apply Hz; [lia|]. intros q Hq [Hql Hqi]. apply list_elem_of_lookup in Hph as [k Hk]. apply list_elem_of_lookup in Hq as [k' Hk'].
    destruct (Nat.eq_dec k k') as [->|Hne]; [rewrite Hk in Hk'; injection Hk' as ->; lia|].
    pose proof (ho_file _ _ _ (lay_headers _ _ _ F5) q (list_elem_of_lookup_2 _ _ _ Hk') Hql).
    destruct (lay_apart _ _ _ F5 k ph k' q Hk Hk' Hne Hl Hql); lia.
  - intros x Hx. rewrite A7.
    + unfold s0. cbn [vm set_vm]. unfold m0. apply lookup_union_r. rewrite G. destruct (Z.leb_spec b x), (Z.ltb_spec x (b + np * PAGE_SIZE)); try reflexivity; lia.
    + intros q Hq [Hql Hqi]. pose proof (Hin q Hq Hql). pose proof (ho_file _ _ _ (lay_headers _ _ _ F5) q Hq Hql). lia.
Qed.
End file.

(** ** An object of three relocations *)
Definition memory_of (a : Z) (l : list Z) : vmem := list_to_map (zip (seqZ a (Z.of_nat (length l))) l).
(** At 0xF8 the relocations, at 0x110 the symbols, at 0x130 the names, at 0x140 two
    words and an object of two bytes; the object that is copied is at 0x5000. *)
Definition object_memory : vmem := memory_of 0xF8
  ([0x40; 0; 0; 0; 0x02; 1; 0; 0; 0x44; 0; 0; 0; 8; 0; 0; 0; 0x48; 0; 0; 0; 5; 1; 0; 0] ++
   repeat 0 16 ++ [1; 0; 0; 0; 0x20; 0; 0; 0; 2; 0; 0; 0; 0; 0; 1; 0] ++
   [0; 102; 0] ++ repeat 0 13 ++ [0xfc; 0xff; 0xff; 0xff; 0x30; 0; 0; 0; 0; 0]) ∪ memory_of 0x5000 [17; 34].
Definition object_data : ELF_linker_data := mk_ld 0 0x100 0 0 0 0 0x110 2 0x130 3 false.
Definition object_links : list link :=
  [mk_link (mk_rel 0x40 0x102) (mk_sym 1 0x20 2 1) [102] 0x5000; mk_link (mk_rel 0x44 8) (mk_sym 0 0 0 0) [] 0;
   mk_link (mk_rel 0x48 0x105) (mk_sym 1 0x20 2 1) [102] 0x5000].

Lemma object_map : exists m m1 : sym_map, hash_map_new 16 = Ok m /\ insert_key [102] 0x5000 m = Ok (Some 0x5000, m1) /\
  map_ok m /\ map_ok m1 /\ contents m = ∅ /\ contents m1 = {[ [102] := 0x5000 ]}.
Proof.
  destruct (hash_map_new_ok (K := list Z) (D := Z) 4 ltac:(lia)) as (m & E & Hm & Hc). pose proof (emplace_spec [102] 0x5000 m Hm) as Hi.
  unfold refines_insert in Hi. rewrite Hc, lookup_empty in Hi. destruct Hi as (m1 & E1 & Hm1 & Hc1).
  exists m, m1. split; [exact E|]. split; [exact E1|]. split; [exact Hm|]. split; [exact Hm1|]. split; [exact Hc|]. rewrite Hc1. reflexivity.
Qed.

Lemma object_name : has_text object_memory 0x131 [102].
Proof. split; [|vm_compute; reflexivity]. intros [|[|i]] c Hc; [injection Hc as <-|discriminate|discriminate]. split; [discriminate|vm_compute; reflexivity]. Qed.

Lemma object_places a n : forallb (fun x => bool_decide (is_Some (object_memory !! x))) (seqZ a n) = true -> mapped object_memory a n.
Proof.
  intros H x Hx. rewrite forallb_forall in H. assert (Hin : List.In x (seqZ a n)) by (apply list_elem_of_In, elem_of_seqZ; lia).
  specialize (H x Hin). apply bool_decide_eq_true in H. exact H.
Qed.

Lemma object_links_ok symbols globals : contents symbols = {[ [102] := 0x5000 ]} ->
  links_ok object_data symbols globals 0xF8 object_memory 0 object_links.
Proof.
  intros Hs. assert (three : forall k l, object_links !! k = Some l -> k = 0%nat \/ k = 1%nat \/ k = 2%nat)
    by (intros [|[|[|k]]] l Hk; [left|right;left|right;right|discriminate]; reflexivity).
  assert (Hr : forall l, lk_raw l = [102] -> lk_value l = 0x5000 -> link_type l <> R_386_GLOB_DAT -> resolved symbols globals l).
  { intros l E1 E2 Hg. exists 0x5000. rewrite E1, E2, Hs, (proj2 (Z.eqb_neq _ _) Hg). split; reflexivity. }
  constructor.
  - intros k l Hk. destruct (three k l Hk) as [-> | [-> | ->]]; injection Hk as <-; constructor; try (vm_compute; reflexivity); try discriminate.
    + right; right; right; left.
    + intros _. split; [discriminate|]. split; [exact object_name|]. apply Hr; [reflexivity|reflexivity|discriminate].
    + split; vm_compute; (reflexivity || discriminate).
    + apply object_places. vm_compute. reflexivity.
    + right; right; right; right; left.
    + intros Ht. contradiction Ht. reflexivity.
    + split; vm_compute; (reflexivity || discriminate).
    + apply object_places. vm_compute. reflexivity.
    + right; right; right; right; right; left.
    + intros _. split; [discriminate|]. split; [exact object_name|]. apply Hr; [reflexivity|reflexivity|discriminate].
    + split; vm_compute; (reflexivity || discriminate).
    + apply object_places. vm_compute. reflexivity.
    + intros _. apply object_places. vm_compute. reflexivity.
  - intros k l k' l' Hk Hk'. destruct (three k l Hk) as [-> | [-> | ->]], (three k' l' Hk') as [-> | [-> | ->]]; injection Hk as <-; injection Hk' as <-;
      (split; [|split; [|split; [|intros Hc]]]); unfold apart; vm_compute; ((left; discriminate) || (right; discriminate)).
  - intros k l k' l' Hk Hk' Hne. destruct (three k l Hk) as [-> | [-> | ->]], (three k' l' Hk') as [-> | [-> | ->]]; injection Hk as <-; injection Hk' as <-;
      unfold apart; vm_compute; ((left; discriminate) || (right; discriminate) || contradiction Hne; reflexivity).
Qed.

Lemma elf_process_relocation_section_correct_witness : exists symbols globals m',
  elf_process_relocation_section object_data 0xF8 3 symbols globals object_memory = Ok m' /\
  load32 0x140 m' = Ok (0x5000 - 4 - 0x140) /\ load32 0x144 m' = Ok 0x130 /\ m' !! 0x148 = Some 17 /\ m' !! 0x149 = Some 34.
Proof.
  destruct object_map as (globals & symbols & _ & _ & Hg & Hs & _ & Hc).
  destruct (elf_process_relocation_section_correct object_data symbols globals 0xF8 object_memory object_links Hs Hg ltac:(discriminate) ltac:(discriminate)
    (object_links_ok symbols globals Hc)) as (m' & E & HR & _).
  exists symbols, globals, m'. split; [exact E|].
  pose proof (HR _ (list_elem_of_here _ _)) as (A & EA & E'). vm_compute in EA. injection EA as <-. split; [exact E'|].
  pose proof (HR _ (list_elem_of_further _ _ _ (list_elem_of_here _ _))) as (B & EB & E2). vm_compute in EB. injection EB as <-. split; [exact E2|].
  pose proof (HR _ (list_elem_of_further _ _ _ (list_elem_of_further _ _ _ (list_elem_of_here _ _)))) as E3.
  split; [exact (E3 0 ltac:(cbn; lia))|exact (E3 1 ltac:(cbn; lia))].
Defined.

Lemma elf_read_symbols_correct_witness : exists symbols symbols', elf_read_symbols object_data object_memory symbols = Ok symbols' /\
  contents symbols' = {[ [102] := 0x120 ]}.
Proof.
  destruct object_map as (symbols & _ & _ & _ & Hm & _ & Hc & _).
  destruct (elf_read_symbols_correct object_data object_memory [(mk_sym 0 0 0 0, []); (mk_sym 1 0x20 2 1, [102])] symbols Hm
    ltac:(discriminate) ltac:(discriminate) eq_refl) as (symbols' & E & _ & C).
  - intros [|[|k]] s Hk; [injection Hk as <-..|discriminate]; (split; [vm_compute; reflexivity|]); intros Hs; [contradiction Hs; reflexivity|].
    split; [|vm_compute; reflexivity]. intros [|[|i]] c Hci; [injection Hci as <-|discriminate|discriminate]. split; [discriminate|vm_compute; reflexivity].
  - exists symbols, symbols'. split; [exact E|]. rewrite C, Hc. reflexivity.
Defined.

(** ** Files in memory *)
Definition ram_base (a : Z) : Z := if a =? 0 then 0x10000 else a.
#[local] Instance ram_env (lib : option (list Z)) : loader_env unit (list Z) := {
  file_is_open f e := true;
  read_file f pos n e := Ok (take (Z.to_nat n) (drop (Z.to_nat pos) f), e);
  find_library name e := Ok (lib, e);
  virtual_alloc a n fl e := Ok (ram_base a, memory_of (ram_base a) (repeat 0 (Z.to_nat (n * PAGE_SIZE))), e);
  set_page_flags a n fl e := Ok e }.

Lemma memory_of_lookup l : forall a x, memory_of a l !! x = if (a <=? x) && (x <? a + Z.of_nat (length l)) then l !! Z.to_nat (x - a) else None.
Proof.
  unfold memory_of. induction l as [|b l IH]; intros a x; cbn [length].
  - cbn. destruct (Z.leb_spec a x), (Z.ltb_spec x (a + Z.of_nat 0)); cbn [andb]; try (apply lookup_empty); lia.
  - rewrite Nat2Z.inj_succ, seqZ_cons by lia. cbn [zip_with]. rewrite list_to_map_cons, Z.pred_succ. unfold Z.succ.
    destruct (Z.eqb_spec x a) as [->|Hne].
    + rewrite lookup_insert_eq, Z.leb_refl, (proj2 (Z.ltb_lt _ _)), Z.sub_diag by lia. reflexivity.
    + rewrite lookup_insert_ne, IH by congruence. destruct (Z.leb_spec a x), (Z.leb_spec (a + 1) x), (Z.ltb_spec x (a + 1 + Z.of_nat (length l))),
        (Z.ltb_spec x (a + (Z.of_nat (length l) + 1))); cbn [andb]; try reflexivity; try lia.
      replace (Z.to_nat (x - a)) with (S (Z.to_nat (x - (a + 1)))) by lia. reflexivity.
Qed.

#[local] Instance ram_laws lib : @loader_laws unit (list Z) (ram_env lib).
Proof.
  refine (@Build_loader_laws unit (list Z) (ram_env lib) (fun _ => True) (fun f => f)
    (fun _ a n => ram_base a + n * PAGE_SIZE <= 2 ^ 32 /\ 0 <= a) _ _ _ _).
  - reflexivity.
  - intros f pos n e _ _ _ _. exists e. split; [reflexivity|]. split; [exact I|]. reflexivity.
  - intros a n fl e _. exists e. split; [reflexivity|exact I].
  - intros a n fl e _ [Hr Ha] Hn _. eexists (ram_base a), _, e. split; [reflexivity|]. split; [exact I|].
    assert (P : 0 <= n * PAGE_SIZE) by (unfold PAGE_SIZE; lia).
    split; [unfold ram_base; destruct (a =? 0); lia|]. split; [exact Hr|].
    split; [intros Hne; unfold ram_base; rewrite (proj2 (Z.eqb_neq _ _) Hne); reflexivity|].
    intros x. rewrite memory_of_lookup, repeat_length, Z2Nat.id by exact P.
    destruct (Z.leb_spec (ram_base a) x), (Z.ltb_spec x (ram_base a + n * PAGE_SIZE)); cbn [andb]; try reflexivity.
    apply lookup_repeat. lia.
Defined.

Definition program_file : list Z :=
  [0x7f; 69; 76; 70; 1; 1; 1; 0] ++ repeat 0 8 ++
  [2; 0; 3; 0; 1; 0; 0; 0; 4; 0x10; 0; 0; 52; 0; 0; 0] ++ repeat 0 8 ++ [52; 0; 32; 0; 2; 0; 0; 0; 0; 0; 0; 0] ++
  [1; 0; 0; 0; 116; 0; 0; 0; 0; 0x10; 0; 0; 0; 0; 0; 0; 4; 0; 0; 0; 8; 0; 0; 0; 5; 0; 0; 0; 0; 0x10; 0; 0] ++
  [1; 0; 0; 0; 120; 0; 0; 0; 0; 0x20; 0; 0; 0; 0; 0; 0; 2; 0; 0; 0; 2; 0; 0; 0; 6; 0; 0; 0; 0; 0x10; 0; 0] ++ [11; 12; 13; 14; 21; 22].
Definition program_headers : list ELF_program_header32 := [mk_ph 1 116 0x1000 4 8 5 0x1000; mk_ph 1 120 0x2000 2 2 6 0x1000].

Ltac each_header H := repeat (apply elem_of_cons in H as [-> | H]); try (inversion H; fail).

Lemma program_layout : @layout_ok _ _ _ (ram_laws None) program_file (mk_eh 2 3 0x1004 52 2) program_headers.
Proof.
  constructor.
  - constructor.
    + reflexivity.
    + cbn. lia.
    + vm_compute. discriminate.
    + intros [|[|k]] ph Hk; [injection Hk as <-..|discriminate]; vm_compute; reflexivity.
    + intros ph Hph _. each_header Hph; cbn; lia.
    + intros ph Hph _. each_header Hph; cbn [ph_file_size ph_mem_size ph_offset]; change (Z.of_nat (length (ll_file program_file))) with 122; lia.
  - intros k ph k' ph' Hk Hk' Hne _ _. destruct k as [|[|k]], k' as [|[|k']]; try discriminate; try lia; injection Hk as <-; injection Hk' as <-;
      unfold apart; cbn; lia.
  - intros ph Hph. each_header Hph; discriminate.
Qed.

Lemma load_elf_correct_witness : exists obj' s' b,
  @load_elf _ _ (ram_env None) 1 program_file new_dynamic_object true (mk_machine ∅ [] [] [] tt) = Ok (1, obj', s') /\
  vm s' !! 0x1003 = Some 14 /\ vm s' !! 0x1006 = Some 0 /\ vm s' !! 0x2001 = Some 22 /\ entry_point obj' = 0x1004 /\ b = 0x1000.
Proof.
  destruct (@load_elf_correct _ _ _ (ram_laws None) 0 true program_file (mk_eh 2 3 0x1004 52 2) program_headers 0x1000 0x1002 new_dynamic_object
    (mk_machine ∅ [] [] [] tt)) as (obj' & s' & b & E & [I1 I2 I3] & B & En & _ & _).
  - constructor; [vm_compute; discriminate|vm_compute; reflexivity..|exact program_layout].
  - constructor; [| | |reflexivity|reflexivity].
    + intros ph Hph _. each_header Hph; cbn; lia.
    + eexists. split; [left|]. split; reflexivity.
    + eexists. split; [right; left|]. split; reflexivity.
  - exact I.
  - vm_compute. split; discriminate.
  - rewrite (B ltac:(discriminate)) in *. exists obj', s', 0x1000. split; [exact E|].
    assert (P1 : mk_ph 1 116 0x1000 4 8 5 0x1000 ∈ program_headers) by left. assert (P2 : mk_ph 1 120 0x2000 2 2 6 0x1000 ∈ program_headers) by (right; left).
    split; [exact (I1 _ P1 eq_refl 3 ltac:(cbn; lia))|]. split; [exact (I2 _ P1 eq_refl 6 ltac:(cbn; lia))|].
    split; [exact (I1 _ P2 eq_refl 1 ltac:(cbn; lia))|]. split; [exact En|reflexivity].
Defined.

(** A file that is no ELF file is loaded: the result is 1. *)
Example not_an_executable : exists s', @load_elf _ _ (ram_env None) 1 (repeat 0 52) new_dynamic_object true (mk_machine ∅ [] [] [] tt) = Ok (1, new_dynamic_object, s').
Proof. eexists. vm_compute. reflexivity. Qed.
