(* ===== verification/Tasks.v ===== *)
(** * Tasks, processes and the scheduler (kernel/task.cpp, kernel/tss.h, kernel/task.asm)

    Tasks and processes are numbered as they are made; a task is never freed, a process
    that was is [None].  Every function runs on one processor, [c], whose current task is
    [tcb].  Saved registers are those that the C++ code sets; the stack pointer a task
    has when it is left, and the locks of the processes, are not part of the state.
    What other processors can come between -- setting a flag, leaving a task, loading
    the next one, the two parts of the start of a processor -- is a definition of its
    own, and the functions are composed of these. *)
From S2P Require Import Prelude Paging BlockStore Hash Elf.

Definition INVALID_TASK_ID : Z := 2 ^ 32 - 1.
Definition WAIT_FOR_PROCESS : Z := 0x01.

Record saved_regs := mk_regs { esp : Z; esp0 : Z; cr3 : Z; tls_gdt_hi : Z; tls_base_lo : Z }.
Record task := mk_task { tid : Z; p_data : nat; user_stack_top : Z; kernel_stack_top : Z; regs : saved_regs; running : bool }.
Record process := mk_process { address_space : Z; objects : list dynamic_object; parent_pid : Z; pid : Z; p_tasks : list nat }.
(** The current task of a processor and its page directory. *)
Record cpu_state := mk_cpu { tcb : nat; page_directory : Z }.

Definition sizeof_user_transition_stack_items : Z := 36.
Definition tls_hi (tls_ptr : Z) : Z := Z.lor (Z.lor (Z.land tls_ptr 0xFF000000) 0x00CFF200) (Z.land (Z.shiftr tls_ptr 16) 0xFF).
Definition tls_lo (tls_ptr : Z) : Z := u16 (Z.land tls_ptr 0xFFFF).
Definition init_tcb_regs (stack_top page_dir tls_ptr : Z) : saved_regs :=
  mk_regs (sub32 stack_top sizeof_user_transition_stack_items) stack_top page_dir (tls_hi tls_ptr) (tls_lo tls_ptr).

(** What the scheduler uses of the rest of the kernel. *)
Class task_env (E F : Type) := {
  (** [memmanager_virtual_alloc(nullptr, 1, flags)], [memmanager_free_pages] *)
  alloc_page : Z -> E -> outcome (Z * E);
  free_pages : Z -> Z -> E -> outcome E;
  new_memory_space : E -> outcome (Z * E);
  destroy_memory_space : Z -> E -> outcome E;
  (** [load_elf] into the current address space *)
  load_program : F -> E -> outcome (Z * dynamic_object * E);
  (** bytes stored at an address under a page directory *)
  store_at : Z -> Z -> list Z -> E -> outcome E;
  (** the address of [run_user_code] *)
  run_user_code : Z }.

Section tasks.
Context {E F : Type} `{task_env E F}.

Record kernel := mk_kernel {
  all_tasks : list task; processes : list (option process); cpus : list cpu_state;
  tasks : hash_map Z nat; runnable : list nat; active_process : Z; last_id : Z; kenv : E }.
Definition set_all_tasks x (k : kernel) := mk_kernel x (processes k) (cpus k) (tasks k) (runnable k) (active_process k) (last_id k) (kenv k).
Definition set_processes x (k : kernel) := mk_kernel (all_tasks k) x (cpus k) (tasks k) (runnable k) (active_process k) (last_id k) (kenv k).
Definition set_cpus x (k : kernel) := mk_kernel (all_tasks k) (processes k) x (tasks k) (runnable k) (active_process k) (last_id k) (kenv k).
Definition set_tasks x (k : kernel) := mk_kernel (all_tasks k) (processes k) (cpus k) x (runnable k) (active_process k) (last_id k) (kenv k).
Definition set_runnable x (k : kernel) := mk_kernel (all_tasks k) (processes k) (cpus k) (tasks k) x (active_process k) (last_id k) (kenv k).
Definition set_active x (k : kernel) := mk_kernel (all_tasks k) (processes k) (cpus k) (tasks k) (runnable k) x (last_id k) (kenv k).
Definition set_last_id x (k : kernel) := mk_kernel (all_tasks k) (processes k) (cpus k) (tasks k) (runnable k) (active_process k) x (kenv k).
Definition set_kenv x (k : kernel) := mk_kernel (all_tasks k) (processes k) (cpus k) (tasks k) (runnable k) (active_process k) (last_id k) x.

Definition the_task (t : nat) (k : kernel) : outcome task := match all_tasks k !! t with Some x => Ok x | None => Fault OutOfBounds end.
Definition the_cpu (c : nat) (k : kernel) : outcome cpu_state := match cpus k !! c with Some x => Ok x | None => Fault OutOfBounds end.
Definition the_process (p : nat) (k : kernel) : outcome process :=
  match processes k !! p with Some (Some x) => Ok x | Some None => Fault UseAfterFree | None => Fault OutOfBounds end.
Definition set_running (b : bool) (x : task) : task := mk_task (tid x) (p_data x) (user_stack_top x) (kernel_stack_top x) (regs x) b.
Definition set_regs (r : saved_regs) (x : task) : task := mk_task (tid x) (p_data x) (user_stack_top x) (kernel_stack_top x) r (running x).
Definition set_p_tasks (l : list nat) (p : process) : process := mk_process (address_space p) (objects p) (parent_pid p) (pid p) l.
Definition set_cr3 (v : Z) (r : saved_regs) : saved_regs := mk_regs (esp r) (esp0 r) v (tls_gdt_hi r) (tls_base_lo r).

Definition get_running_task (c : nat) (k : kernel) : outcome nat := x ← the_cpu c k; Ok (tcb x).
Definition get_running_task_id (c : nat) (k : kernel) : outcome Z := t ← get_running_task c k; x ← the_task t k; Ok (tid x).
Definition get_active_process (k : kernel) : Z := active_process k.
Definition this_task_is_active (c : nat) (k : kernel) : outcome bool :=
  t ← get_running_task c k; x ← the_task t k; p ← the_process (p_data x) k; Ok (pid p =? active_process k).
Definition generate_tid (k : kernel) : Z * kernel := (last_id k, set_last_id (add32 (last_id k) 1) k).

(** [running.test_and_set()] *)
Definition test_and_set (t : nat) (k : kernel) : outcome (bool * kernel) :=
  x ← the_task t k; Ok (running x, set_all_tasks (alter (set_running true) t (all_tasks k)) k).

(** [load_new_task]: the task is what runs on the processor. *)
Definition load_new_task (c t : nat) (k : kernel) : outcome kernel :=
  x ← the_task t k; _ ← the_cpu c k; Ok (set_cpus (<[c := mk_cpu t (cr3 (regs x))]> (cpus k)) k).
Definition switch_task_no_return (c t : nat) (k : kernel) : outcome kernel := load_new_task c t k.
(** The first part of [switch_task]: the page directory is stored with the task that is
    left, and then its flag is cleared: from there on, another processor can take it. *)
Definition release_task (c : nat) (k : kernel) : outcome kernel :=
  x ← the_cpu c k;
  Ok (set_all_tasks (alter (fun y => set_running false (set_regs (set_cr3 (page_directory x) (regs y)) y)) (tcb x) (all_tasks k)) k).
Definition switch_task (c t : nat) (k : kernel) : outcome kernel := k ← release_task c k; load_new_task c t k.

Definition switch_to_task (c : nat) (id : Z) (k : kernel) : outcome kernel :=
  t ← lookup_key id (tasks k);
  match t with
  | None => Fault AssertFailed
  | Some t => '(was, k) ← test_and_set t k; if was : bool then Ok k else switch_task c t k
  end.
Definition switch_to_active_task (c : nat) (k : kernel) : outcome kernel :=
  active ← this_task_is_active c k; if active : bool then Ok k else switch_to_task c (get_active_process k) k.
Definition run_next_task (c : nat) (k : kernel) : outcome kernel :=
  match runnable k with
  | [] => Fault OutOfBounds
  | _ => let k := set_active (add32 (active_process k) 1 mod Z.of_nat (length (runnable k))) k in switch_to_task c (active_process k) k
  end.
(** The first task that is not this one and not running is switched to. *)
Fixpoint background_loop (c : nat) (id : Z) (l : list nat) (k : kernel) : outcome kernel :=
  match l with
  | [] => Ok k
  | t :: l =>
    x ← the_task t k;
    if tid x =? id then background_loop c id l k else
    '(was, k) ← test_and_set t k;
    if was : bool then background_loop c id l k else switch_task c t k
  end.
Definition run_background_tasks (c : nat) (k : kernel) : outcome kernel :=
  id ← get_running_task_id c k; background_loop c id (runnable k) k.
Definition yield_to (c : nat) (id : Z) (k : kernel) : outcome kernel :=
  is_active ← this_task_is_active c k;
  there ← contains id (tasks k);
  if (there : bool) && is_active then switch_to_task c id k
  else if is_active : bool then run_background_tasks c k
  else switch_to_active_task c k.

(** ** New tasks *)
Definition add_task (x : task) (k : kernel) : nat * kernel := (length (all_tasks k), set_all_tasks (all_tasks k ++ [x]) k).
Definition add_process (p : process) (k : kernel) : nat * kernel := (length (processes k), set_processes (processes k ++ [Some p]) k).
Definition put_process (p : nat) (x : option process) (k : kernel) : kernel := set_processes (<[p := x]> (processes k)) k.

Definition push_task (p t : nat) (k : kernel) : outcome kernel :=
  x ← the_process p k; Ok (put_process p (Some (set_p_tasks (p_tasks x ++ [t]) x)) k).

(** The address on the user stack the new task starts with. *)
Definition start_stack (user_stack args_size : Z) : Z := sub32 (add32 user_stack PAGE_SIZE) (add32 (4 + 4) args_size).
Definition create_new_task (c parent : nat) (execution_addr tls_ptr args_size : Z) (k : kernel) : outcome (nat * kernel) :=
  '(user_stack, e) ← alloc_page (Z.lor PAGE_RW PAGE_USER) (kenv k);
  '(kernel_stack, e) ← alloc_page (Z.lor PAGE_RW PAGE_PRESENT) e;
  x ← the_cpu c k;
  let '(id, k) := generate_tid (set_kenv e k) in
  let r := init_tcb_regs (add32 kernel_stack PAGE_SIZE) (page_directory x) tls_ptr in
  let '(t, k) := add_task (mk_task id parent user_stack kernel_stack r false) k in
  k ← push_task parent t k;
  let stack_addr := start_stack user_stack args_size in
  e ← store_at (page_directory x) (add32 (esp r) 28) (le_bytes 4 execution_addr) (kenv k);
  e ← store_at (page_directory x) (add32 (esp r) 32) (le_bytes 4 stack_addr) e;
  e ← store_at (page_directory x) (add32 (esp r) 20) (le_bytes 4 run_user_code) e;
  e ← store_at (page_directory x) (add32 (esp r) 16) (le_bytes 4 0x0200) e;
  e ← store_at (page_directory x) (add32 stack_addr 4) (le_bytes 4 id) e;
  '(_, m) ← emplace_key id t (tasks k);
  Ok (t, set_tasks m (set_kenv e k)).

Definition spawn_thread (c : nat) (function_ptr tls_ptr : Z) (k : kernel) : outcome (Z * kernel) :=
  cur ← get_running_task c k; x ← the_task cur k;
  '(t, k) ← create_new_task c (p_data x) function_ptr tls_ptr 0 k;
  y ← the_task t k;
  Ok (tid y, set_runnable (runnable k ++ [t]) k).

Definition set_page_directory (c : nat) (v : Z) (k : kernel) : outcome kernel :=
  x ← the_cpu c k; Ok (set_cpus (<[c := mk_cpu (tcb x) v]> (cpus k)) k).
Definition spawn_process (c : nat) (file : option F) (args : list Z) (flags : Z) (k : kernel) : outcome (Z * kernel) :=
  match file with
  | None => Ok (INVALID_TASK_ID, k)
  | Some file =>
    let args_size := Z.of_nat (length args) in
    cpu ← the_cpu c k; x ← the_task (tcb cpu) k; parent ← the_process (p_data x) k;
    '(space, e) ← new_memory_space (kenv k);
    k ← set_page_directory c space (set_kenv e k);
    '(r, object, e) ← load_program file (kenv k);
    let '(p, k) := add_process (mk_process space [object] (pid parent) 0 []) (set_kenv e k) in
    if r =? 0 then
      k ← set_page_directory c (page_directory cpu) (put_process p None k);
      e ← destroy_memory_space space (kenv k);
      Ok (INVALID_TASK_ID, set_kenv e k)
    else
      '(t, k) ← create_new_task c p (entry_point object) 0 (add32 args_size 4) k;
      y ← the_task t k;
      let stack_addr := start_stack (user_stack_top y) (add32 args_size 4) in
      e ← store_at space (add32 stack_addr 8) (le_bytes 4 args_size) (kenv k);
      e ← store_at space (add32 stack_addr 12) args e;
      q ← the_process p k;
      let k := put_process p (Some (mk_process (address_space q) (objects q) (parent_pid q) (tid y) (p_tasks q))) (set_kenv e k) in
      k ← set_page_directory c (page_directory cpu) k;
      let k := set_runnable (runnable k ++ [t]) k in
      if has flags WAIT_FOR_PROCESS then
        active ← this_task_is_active c k;
        k ← switch_task c t (if active : bool then set_active (tid y) k else k);
        Ok (tid y, k)
      else Ok (tid y, k)
  end.

(** ** The end of a task *)
Definition erase_task (t : nat) (l : list nat) : option (list nat) :=
  match list_find (.= t) l with Some (i, _) => Some (delete i l) | None => None end.
(** [while(true)] over the tasks that can run: without one this does not end. *)
Fixpoint first_free (c : nat) (l : list nat) (k : kernel) : outcome kernel :=
  match l with
  | [] => Fault Deadlock
  | t :: l => '(was, k) ← test_and_set t k; if was : bool then first_free c l k else switch_task_no_return c t k
  end.
(** The task is taken out of its process, the list and the map; the result is the number
    of the process that is to go on. *)
Definition unlink_task (current : nat) (k : kernel) : outcome (Z * kernel) :=
  x ← the_task current k;
  p ← the_process (p_data x) k;
  match erase_task current (p_tasks p), erase_task current (runnable k) with
  | None, _ => Fault AssertFailed
  | _, None => Fault OutOfBounds
  | Some l, Some r =>
    let k := set_runnable r (put_process (p_data x) (Some (set_p_tasks l p)) k) in
    let next_pid := parent_pid p in
    m ← remove_key (tid x) (tasks k);
    let k := set_tasks m k in
    Ok (next_pid, if active_process k =? tid x then set_active next_pid k else k)
  end.
Definition switch_task_post_terminate (c current : nat) (k : kernel) : outcome kernel :=
  '(next_pid, k) ← unlink_task current k;
  next ← lookup_key next_pid (tasks k);
  match next with
  | Some t => '(was, k) ← test_and_set t k; if was : bool then first_free c (runnable k) k else switch_task_no_return c t k
  | None => first_free c (runnable k) k
  end.
Definition exit_thread (c : nat) (k : kernel) : outcome kernel :=
  current ← get_running_task c k; x ← the_task current k;
  e ← free_pages (user_stack_top x) 1 (kenv k);
  e ← free_pages (kernel_stack_top x) 1 e;
  switch_task_post_terminate c current (set_kenv e k).
Definition end_last_task (c current : nat) (k : kernel) : outcome kernel :=
  x ← the_task current k;
  e ← free_pages (user_stack_top x) 1 (kenv k);
  e ← free_pages (kernel_stack_top x) 1 e;
  p ← the_process (p_data x) k;
  e ← destroy_memory_space (address_space p) e;
  switch_task_post_terminate c current (set_kenv e k).

(** [exit_process] up to its loop, which switches to another task of the process if there
    is one, and what is done after it. *)
Definition exit_process_join (c : nat) (k : kernel) : outcome kernel :=
  current ← get_running_task c k; x ← the_task current k; p ← the_process (p_data x) k;
  if Nat.eqb (length (p_tasks p)) 1 then Ok k else
  match list_find (.≠ current) (p_tasks p) with
  | Some (_, t) => switch_task c t k
  | None => Fault AssertFailed
  end.
Fixpoint free_segments (l : list (Z * Z)) (e : E) : outcome E :=
  match l with [] => Ok e | (a, n) :: l => e ← free_pages a n e; free_segments l e end.
Fixpoint free_objects (l : list dynamic_object) (e : E) : outcome E :=
  match l with [] => Ok e | o :: l => e ← free_segments (segments o) e; free_objects l e end.
Definition exit_process_finish (c : nat) (k : kernel) : outcome kernel :=
  current ← get_running_task c k; x ← the_task current k; p ← the_process (p_data x) k;
  e ← free_objects (objects p) (kenv k);
  match p_tasks p with
  | [] => Fault OutOfBounds
  | last_task :: _ => end_last_task c last_task (put_process (p_data x) None (set_kenv e k))
  end.

(** ** Starting up and the rest of the calls *)
Definition add_cpu (k : kernel) : outcome kernel :=
  '(new_stack, e) ← alloc_page (Z.lor PAGE_PRESENT PAGE_RW) (kenv k);
  let '(id, k) := generate_tid (set_kenv e k) in
  cpu ← the_cpu 0 k;
  let '(t, k) := add_task (mk_task id 0 0 new_stack (init_tcb_regs (add32 new_stack PAGE_SIZE) (page_directory cpu) 0) false) k in
  k ← push_task 0 t (set_cpus (cpus k ++ [mk_cpu t (page_directory cpu)]) k);
  '(_, m) ← emplace_key id t (tasks k);
  Ok (set_tasks m k).
(** The new processor sets the flag of its task, and later appends it to the runnable ones. *)
Definition enter_cpu (id : nat) (k : kernel) : outcome kernel :=
  self ← the_cpu id k; '(_, k) ← test_and_set (tcb self) k; Ok k.
Definition ready_cpu (id : nat) (k : kernel) : outcome kernel :=
  self ← the_cpu id k; Ok (set_runnable (runnable k ++ [tcb self]) k).
Definition cpu_entry_point (id : nat) (k : kernel) : outcome kernel := k ← enter_cpu id k; ready_cpu id k.

(** The first task, of the process 0, is what runs on the first processor. *)
Definition boot_kernel (m : hash_map Z nat) (e : E) (pdir : Z) : kernel :=
  mk_kernel [mk_task 0 0 0 0 (init_tcb_regs PAGE_SIZE 0 0xFFFFFFFF) false] [Some (mk_process 0 [] INVALID_TASK_ID 0 [])] [mk_cpu 0 pdir] m [] 0 1 e.
Definition setup_first_task (stack_top : Z) (k : kernel) : outcome kernel :=
  cpu ← the_cpu 0 k;
  x ← the_task 0 k;
  let r := mk_regs (sub32 stack_top sizeof_user_transition_stack_items) stack_top (page_directory cpu) (tls_gdt_hi (regs x)) (tls_base_lo (regs x)) in
  let k := set_all_tasks (alter (fun x => mk_task (tid x) (p_data x) (user_stack_top x) stack_top r true) 0%nat (all_tasks k)) k in
  k ← push_task 0 0 k;
  '(_, m) ← emplace_key (tid x) 0%nat (tasks k);
  '(spare, e) ← alloc_page (Z.lor PAGE_PRESENT PAGE_RW) (kenv k);
  Ok (set_runnable (runnable k ++ [0%nat]) (set_kenv e (set_tasks m k))).

Definition get_process_info (c : nat) (k : kernel) : outcome (Z * tls_image_data) :=
  t ← get_running_task c k; x ← the_task t k; p ← the_process (p_data x) k;
  o ← fetch (objects p) 0; Ok (pid p, tls_image o).
Definition set_tls_addr (c : nat) (ptr : Z) (k : kernel) : outcome kernel :=
  t ← get_running_task c k;
  Ok (set_all_tasks (alter (fun x => set_regs (mk_regs (esp (regs x)) (esp0 (regs x)) (cr3 (regs x)) (tls_hi ptr) (tls_lo ptr)) x) t (all_tasks k)) k).
End tasks.
Arguments kernel : clear implicits.
