(* ===== verification/TasksProofs.v ===== *)
(** * No task runs on two processors

    The processors take turns between any two of the following steps: setting the flag
    of a task, leaving the current task, loading the next one, changing the tables when a
    task, a process or a processor is made or a task ends.  The functions of the
    scheduler are runs of these steps.  In every state that is reached a task is held by
    at most one processor.  [spawn_process] with [WAIT_FOR_PROCESS] and [exit_process]
    switch without the flag, and are no steps; with them two processors can run one
    task, and also when a task of a processor that is not started yet is switched to. *)
From stdpp Require Import gmap.
From S2P Require Import Prelude Paging BlockStore Hash Elf Tasks.

(** What a processor is doing: running its task; about to leave it for one whose flag it
    has set; having left it; looking for another after its task has ended; made but not
    started; started, with the flag of its task set. *)
Inductive phase := Running | Claimed (t : nat) | Released (t : nat) | Leaving | Added | Entered.

(** The tasks a processor holds, and the task of one that is starting. *)
Definition own (x : cpu_state) (p : phase) : list nat :=
  match p with Running | Entered => [tcb x] | Claimed t => [tcb x; t] | Released t => [t] | Leaving | Added => [] end.
Definition starts (x : cpu_state) (p : phase) : list nat := match p with Added | Entered => [tcb x] | _ => [] end.
Definition waits (x : cpu_state) (p : phase) : list nat := match p with Added => [tcb x] | _ => [] end.

(** ** Lists collected over the processors *)
Definition gather (f : cpu_state -> phase -> list nat) (l : list cpu_state) (ph : list phase) : list nat := concat (zip_with f l ph).

Lemma gather_at f : forall l ph c x p, l !! c = Some x -> ph !! c = Some p -> exists r, gather f l ph ≡ₚ f x p ++ r /\
  forall x' p', gather f (<[c := x']> l) (<[c := p']> ph) ≡ₚ f x' p' ++ r.
Proof.
  induction l as [|y l IH]; intros [|q ph] [|c] x p Hx Hp; try discriminate.
  - injection Hx as ->. injection Hp as ->. exists (gather f l ph). split; reflexivity.
  - destruct (IH ph c x p Hx Hp) as (r & E1 & E2). exists (f y q ++ r). split.
    + unfold gather in *. cbn [zip_with concat]. rewrite E1. apply Permutation_app_swap_app.
    + intros x' p'. unfold gather in *. cbn [insert list_insert zip_with concat]. change (insert c x' l) with (<[c := x']> l).
      rewrite (E2 x' p'). apply Permutation_app_swap_app.
Qed.

(** Changing the phase alone, or the state of the processor alone. *)
Lemma gather_phase f l ph c x p : l !! c = Some x -> ph !! c = Some p -> exists r, gather f l ph ≡ₚ f x p ++ r /\
  forall p', gather f l (<[c := p']> ph) ≡ₚ f x p' ++ r.
Proof.
  intros Hx Hp. destruct (gather_at f l ph c x p Hx Hp) as (r & E1 & E2). exists r. split; [exact E1|]. intros p'.
  rewrite <- (E2 x p'), (list_insert_id l c x Hx). reflexivity.
Qed.

Lemma gather_same f l ph c x p x' p' : l !! c = Some x -> ph !! c = Some p -> f x' p' = f x p -> gather f (<[c := x']> l) (<[c := p']> ph) ≡ₚ gather f l ph.
Proof. intros Hx Hp E. destruct (gather_at f l ph c x p Hx Hp) as (r & E1 & E2). rewrite E1, E2, E. reflexivity. Qed.

Lemma gather_same_phase f l ph c x p p' : l !! c = Some x -> ph !! c = Some p -> f x p' = f x p -> gather f l (<[c := p']> ph) ≡ₚ gather f l ph.
Proof. intros Hx Hp E. destruct (gather_phase f l ph c x p Hx Hp) as (r & E1 & E2). rewrite E1, E2, E. reflexivity. Qed.

Lemma gather_app f l ph x p : length ph = length l -> gather f (l ++ [x]) (ph ++ [p]) = gather f l ph ++ f x p.
Proof.
  intros Hl. unfold gather. rewrite zip_with_app by congruence. rewrite concat_app. cbn. rewrite app_nil_r. reflexivity.
Qed.

Lemma gather_tcb f l l' ph : (forall x y p, tcb x = tcb y -> f x p = f y p) -> tcb <$> l' = tcb <$> l -> gather f l' ph = gather f l ph.
Proof.
  intros Hf. revert l' ph. induction l as [|x l IH]; intros [|y l'] ph E; try discriminate E; [reflexivity|]. injection E as E1 E2.
  destruct ph as [|p ph]; [reflexivity|]. unfold gather in *. cbn [zip_with concat]. rewrite (IH l' ph E2), (Hf y x p E1). reflexivity.
Qed.

(** The processor that holds a task. *)
Lemma gather_owner f l ph t : t ∈ gather f l ph -> exists c x p, l !! c = Some x /\ ph !! c = Some p /\ t ∈ f x p.
Proof.
  revert ph. induction l as [|y l IH]; intros [|q ph] H; try (inversion H; fail). unfold gather in H. cbn [zip_with concat] in H.
  apply elem_of_app in H as [H|H]; [exists 0%nat, y, q; split; [reflexivity|split; [reflexivity|exact H]]|].
  destruct (IH ph H) as (c & x & p & H1 & H2 & H3). exists (S c), x, p. split; [exact H1|split; [exact H2|exact H3]].
Qed.

Lemma gather_in f l ph c x p t : l !! c = Some x -> ph !! c = Some p -> t ∈ f x p -> t ∈ gather f l ph.
Proof. intros Hx Hp Ht. destruct (gather_at f l ph c x p Hx Hp) as (r & E & _). rewrite E. apply elem_of_app. left. exact Ht. Qed.

(** What is waiting is starting. *)
Lemma gather_sublist f g : (forall x p, f x p `sublist_of` g x p) -> forall l ph, gather f l ph `sublist_of` gather g l ph.
Proof.
  intros Hf. induction l as [|x l IH]; intros [|p ph]; try apply sublist_nil_l. unfold gather in *. cbn [zip_with concat].
  apply sublist_app; [apply Hf|apply IH].
Qed.
Lemma waits_sublist x p : waits x p `sublist_of` starts x p.
Proof. destruct p; (reflexivity || apply sublist_nil_l). Qed.

Lemma alter_lookup (f : task -> task) (t u : nat) (l : list task) :
  alter f t l !! u = if decide (u = t) then f <$> l !! u else l !! u.
Proof. destruct (decide (u = t)) as [->|Hne]; [apply list_lookup_alter_eq|apply list_lookup_alter_ne; congruence]. Qed.

Lemma alter_proj {B} (g : task -> B) (f : task -> task) (t u : nat) (l : list task) : (forall x, g (f x) = g x) -> g <$> alter f t l !! u = g <$> l !! u.
Proof. intros Hg. rewrite alter_lookup. destruct (decide _); [|reflexivity]. destruct (l !! u); [cbn; rewrite Hg|]; reflexivity. Qed.

Section tasks.
Context {E F : Type} `{task_env E F}.
Implicit Types (k : kernel E) (t c : nat) (ph : list phase).

Definition tids k t : option Z := tid <$> all_tasks k !! t.
Definition flag k t : option bool := running <$> all_tasks k !! t.
Definition owned k ph : list nat := gather own (cpus k) ph.
Definition starting k ph : list nat := gather starts (cpus k) ph.
Definition live k ph : list nat := runnable k ++ starting k ph.

(** The map of tasks and the list of the runnable ones agree, but for the tasks of
    processors that are starting; a task is held by a processor exactly when it is live
    and its flag is set, and no task is held twice. *)
Record tasks_ok k ph : Prop := {
  ok_length : length ph = length (cpus k);
  ok_map : map_ok (tasks k);
  ok_id : forall id t, contents (tasks k) !! id = Some t <-> t ∈ live k ph /\ tids k t = Some id;
  ok_once : NoDup (live k ph);
  ok_owned : NoDup (owned k ph);
  ok_run : forall t, t ∈ owned k ph <-> t ∈ live k ph /\ flag k t = Some true;
  ok_waits : forall t, t ∈ gather waits (cpus k) ph -> flag k t = Some false;
  ok_there : forall t, t ∈ live k ph -> is_Some (all_tasks k !! t);
  ok_fresh : forall t id, tids k t = Some id -> 0 <= id < last_id k;
  ok_last : 0 <= last_id k }.

Lemma cpu_there k ph c p : tasks_ok k ph -> ph !! c = Some p -> exists x, cpus k !! c = Some x.
Proof using. intros Hk Hp. apply lookup_lt_is_Some. rewrite <- (ok_length _ _ Hk). exact (lookup_lt_Some _ _ _ Hp). Qed.

Lemma waits_starting k ph t : t ∈ gather waits (cpus k) ph -> t ∈ starting k ph.
Proof using.
  intros Ht. destruct (gather_owner _ _ _ _ Ht) as (c & x & p & Hx & Hp & Hin). apply (gather_in starts _ _ c x p t Hx Hp).
  destruct p; try (inversion Hin; fail). exact Hin.
Qed.

(** A step that leaves the tables as they are. *)
Record same_tables k ph k' ph' : Prop := {
  st_length : length ph' = length (cpus k');
  st_map : tasks k' = tasks k;
  st_last : last_id k' = last_id k;
  st_tids : forall t, tids k' t = tids k t;
  st_live : live k' ph' ≡ₚ live k ph }.

Lemma tasks_ok_same k ph k' ph' : same_tables k ph k' ph' -> tasks_ok k ph -> NoDup (owned k' ph') ->
  (forall t, t ∈ owned k' ph' <-> t ∈ live k ph /\ flag k' t = Some true) ->
  (forall t, t ∈ gather waits (cpus k') ph' -> flag k' t = Some false) -> tasks_ok k' ph'.
Proof using.
  intros [S1 S2 S3 S4 S5] [K0 K1 K2 K3 K4 K5 K6 K7 K8 K9] Hn Hr Hw. constructor; try assumption.
  - rewrite S2. exact K1.
  - intros id t. rewrite S2, S4, S5. apply K2.
  - rewrite S5. exact K3.
  - intros t. rewrite S5. apply Hr.
  - intros t. rewrite S5. intros Ht. destruct (K7 t Ht) as [x Hx]. specialize (S4 t). unfold tids in S4. rewrite Hx in S4.
    destruct (all_tasks k' !! t); [eexists; reflexivity|discriminate].
  - intros t id. rewrite S4, S3. apply K8.
  - rewrite S3. exact K9.
Qed.

Lemma test_and_set_spec k t x : all_tasks k !! t = Some x ->
  test_and_set t k = Ok (running x, set_all_tasks (alter (set_running true) t (all_tasks k)) k).
Proof using. intros Hx. unfold test_and_set, the_task. rewrite Hx. reflexivity. Qed.

Lemma flag_task k t b : flag k t = Some b -> exists x, all_tasks k !! t = Some x /\ running x = b.
Proof using. unfold flag. destruct (all_tasks k !! t) as [x|]; [|discriminate]. intros [= <-]. exists x. split; reflexivity. Qed.

Lemma test_and_set_result k t was k' : test_and_set t k = Ok (was, k') ->
  flag k t = Some was /\ k' = set_all_tasks (alter (set_running true) t (all_tasks k)) k.
Proof using.
  intros Hs. unfold test_and_set, the_task in Hs. unfold flag. destruct (all_tasks k !! t) as [x|]; [|discriminate]. injection Hs as <- <-. split; reflexivity.
Qed.

(** A flag that is set already: nothing changes. *)
Lemma test_and_set_busy k t : flag k t = Some true -> test_and_set t k = Ok (true, k).
Proof using.
  intros Hf. destruct (flag_task _ _ _ Hf) as (x & Hx & Hr). rewrite (test_and_set_spec _ _ _ Hx), Hr. do 2 f_equal.
  destruct k as [k1 k2 k3 k4 k5 k6 k7 k8]. unfold set_all_tasks. cbn [all_tasks processes cpus tasks runnable active_process last_id kenv] in *. f_equal.
  apply list_eq. intros i. rewrite alter_lookup. destruct (decide (i = t)) as [->|_]; [|reflexivity]. rewrite Hx. cbn. destruct x. cbn in Hr. subst. reflexivity.
Qed.

Lemma set_flag_flag k t u b : flag (set_all_tasks (alter (set_running b) t (all_tasks k)) k) u =
  if decide (u = t) then (fun _ => b) <$> flag k u else flag k u.
Proof using. unfold flag. cbn. rewrite alter_lookup. destruct (decide (u = t)); [|reflexivity]. destruct (all_tasks k !! u); reflexivity. Qed.

Lemma set_flag_same k t b ph ph' : length ph' = length ph -> gather starts (cpus k) ph' ≡ₚ starting k ph -> tasks_ok k ph ->
  same_tables k ph (set_all_tasks (alter (set_running b) t (all_tasks k)) k) ph'.
Proof using.
  intros Hl Hst Hk. constructor; try reflexivity.
  - cbn. rewrite Hl. exact (ok_length _ _ Hk).
  - intros u. unfold tids. cbn. apply alter_proj. reflexivity.
  - unfold live, starting. cbn. rewrite Hst. reflexivity.
Qed.

(** ** The steps of a switch *)
(** Taking a task whose flag was clear, while running one or after the end of one. *)
Definition taking (p : phase) (t : nat) : phase := match p with Leaving => Released t | _ => Claimed t end.

Lemma take_ok k ph c p t k' : tasks_ok k ph -> ph !! c = Some p -> p = Running \/ p = Leaving -> t ∈ runnable k ->
  test_and_set t k = Ok (false, k') -> tasks_ok k' (<[c := taking p t]> ph).
Proof using.
  intros Hk Hp Hrl Ht Hs. destruct (cpu_there _ _ _ _ Hk Hp) as [x Hx]. destruct (test_and_set_result _ _ _ _ Hs) as [Hf ->].
  destruct (gather_phase own _ _ _ _ _ Hx Hp) as (ro & O1 & O2). pose proof Hk as [K0 _ _ K3 K4 K5 K6 _ _ _].
  assert (Hout : t ∉ owned k ph) by (intros Hin; apply K5 in Hin as [_ Hin]; congruence).
  assert (Ho : own x (taking p t) ++ ro ≡ₚ t :: owned k ph).
  { unfold owned. rewrite O1. destruct Hrl as [-> | ->]; cbn [own taking app]; [constructor|reflexivity]. }
  assert (Hl : t ∈ live k ph) by (unfold live; apply elem_of_app; left; exact Ht).
  assert (Hns : t ∉ starting k ph) by (unfold live in K3; apply NoDup_app in K3 as (_ & K3 & _); exact (K3 t Ht)).
  assert (Hst : forall f, (forall q, q = Running \/ q = Leaving \/ (exists u, q = Claimed u \/ q = Released u) -> f x q = []) -> gather f (cpus k) (<[c := taking p t]> ph) ≡ₚ gather f (cpus k) ph).
  { intros f Hf0. apply (gather_same_phase f _ _ _ _ _ _ Hx Hp). rewrite !Hf0; [reflexivity|tauto|].
    destruct Hrl as [-> | ->]; cbn; right; right; exists t; tauto. }
  apply (tasks_ok_same k ph); [|exact Hk| | |].
  - apply set_flag_same; [apply length_insert| |exact Hk]. apply Hst. intros q [->|[->|(u & [-> | ->])]]; reflexivity.
  - unfold owned. cbn [cpus set_all_tasks]. rewrite O2, Ho. constructor; [exact Hout|exact K4].
  - intros u. unfold owned. cbn [cpus set_all_tasks]. rewrite O2, Ho, elem_of_cons, K5, set_flag_flag.
    destruct (decide (u = t)) as [->|Hne]; [rewrite Hf; cbn; tauto|tauto].
  - intros u Hu. cbn [cpus set_all_tasks] in Hu. rewrite Hst in Hu by (intros q [->|[->|(v & [-> | ->])]]; reflexivity).
    rewrite set_flag_flag. destruct (decide (u = t)) as [->|Hne]; [contradiction Hns; exact (waits_starting _ _ _ Hu)|exact (K6 u Hu)].
Qed.

(** Leaving the current task. *)
Lemma release_ok k ph c t k' : tasks_ok k ph -> ph !! c = Some (Claimed t) -> release_task c k = Ok k' -> tasks_ok k' (<[c := Released t]> ph).
Proof using.
  intros Hk Hp Hs. destruct (cpu_there _ _ _ _ Hk Hp) as [x Hx]. unfold release_task, the_cpu in Hs. rewrite Hx in Hs. cbn in Hs. injection Hs as <-.
  destruct (gather_phase own _ _ _ _ _ Hx Hp) as (ro & O1 & O2). pose proof Hk as [K0 _ _ K3 K4 K5 K6 _ _ _].
  cbn [own app] in O1. unfold owned in K4, K5. pose proof K4 as Hn. rewrite O1 in Hn. apply NoDup_cons in Hn as [Hn1 Hn2].
  set (f := fun y : task => _). set (k' := set_all_tasks _ _).
  assert (Hfl : forall u, flag k' u = if decide (u = tcb x) then (fun _ => false) <$> flag k u else flag k u).
  { intros u. unfold flag, k'. cbn. rewrite alter_lookup. destruct (decide _); [|reflexivity]. destruct (all_tasks k !! u); reflexivity. }
  assert (Hst : forall g, (forall q, (exists u, q = Claimed u \/ q = Released u) -> g x q = []) -> gather g (cpus k) (<[c := Released t]> ph) ≡ₚ gather g (cpus k) ph).
  { intros g Hg. apply (gather_same_phase g _ _ _ _ _ _ Hx Hp). rewrite !Hg; [reflexivity|exists t; tauto..]. }
  apply (tasks_ok_same k ph); [|exact Hk| | |].
  - constructor; try reflexivity.
    + cbn. rewrite length_insert. exact K0.
    + intros u. unfold tids, k'. cbn. apply alter_proj. reflexivity.
    + unfold live, starting, k'. cbn [runnable cpus set_all_tasks]. rewrite (Hst starts); [reflexivity|intros q (u & [-> | ->]); reflexivity].
  - unfold owned, k'. cbn [cpus set_all_tasks]. rewrite O2. cbn [own app]. exact Hn2.
  - intros u. unfold owned, k' at 1. cbn [cpus set_all_tasks]. rewrite O2. cbn [own app]. rewrite Hfl. specialize (K5 u). rewrite O1, (elem_of_cons _ u (tcb x)) in K5.
    destruct (decide (u = tcb x)) as [->|Hne].
    + split; [intros Hu; contradiction|]. intros [_ Hu]. destruct (flag k (tcb x)); discriminate.
    + tauto.
  - intros u Hu. unfold k' in Hu. cbn [cpus set_all_tasks] in Hu. rewrite (Hst waits) in Hu by (intros q (v & [-> | ->]); reflexivity).
    rewrite Hfl. destruct (decide _); [rewrite (K6 u Hu); reflexivity|exact (K6 u Hu)].
Qed.

(** Loading the next task. *)
Lemma load_ok k ph c t k' : tasks_ok k ph -> ph !! c = Some (Released t) -> load_new_task c t k = Ok k' -> tasks_ok k' (<[c := Running]> ph).
Proof using.
  intros Hk Hp Hs. destruct (cpu_there _ _ _ _ Hk Hp) as [x Hx]. unfold load_new_task, the_task, the_cpu in Hs.
  destruct (all_tasks k !! t) as [y|] eqn:Hy; [|discriminate]. rewrite Hx in Hs. cbn in Hs. injection Hs as <-.
  pose proof Hk as [K0 _ _ K3 K4 K5 K6 _ _ _]. set (x' := mk_cpu t (cr3 (regs y))).
  assert (Hg : forall g, g x' Running = g x (Released t) -> gather g (<[c := x']> (cpus k)) (<[c := Running]> ph) ≡ₚ gather g (cpus k) ph)
    by (intros g; apply gather_same; assumption).
  apply (tasks_ok_same k ph); [|exact Hk| | |].
  - constructor; try reflexivity.
    + cbn. rewrite !length_insert. exact K0.
    + unfold live, starting. cbn [runnable cpus set_cpus]. rewrite (Hg starts) by reflexivity. reflexivity.
  - unfold owned. cbn [cpus set_cpus]. rewrite (Hg own) by reflexivity. exact K4.
  - intros u. unfold owned. cbn [cpus set_cpus]. rewrite (Hg own) by reflexivity. exact (K5 u).
  - intros u. cbn [cpus set_cpus]. rewrite (Hg waits) by reflexivity. exact (K6 u).
Qed.

Lemma set_active_ok k ph v : tasks_ok k ph -> tasks_ok (set_active v k) ph.
Proof using. intros [K0 K1 K2 K3 K4 K5 K6 K7 K8 K9]. constructor; assumption. Qed.

Lemma set_tls_addr_ok c v k ph k' : tasks_ok k ph -> set_tls_addr c v k = Ok k' -> tasks_ok k' ph.
Proof using.
  intros Hk Hs. unfold set_tls_addr in Hs. apply bind_Ok in Hs as (t & _ & Hs). injection Hs as <-. pose proof Hk as [K0 _ _ K3 K4 K5 K6 _ _ _].
  set (k' := set_all_tasks _ _). assert (Hf : forall u, flag k' u = flag k u) by (intros u; unfold flag, k'; cbn; apply alter_proj; reflexivity).
  apply (tasks_ok_same k ph); [|exact Hk|exact K4| |].
  - constructor; try reflexivity; [exact K0|]. intros u. unfold tids, k'. cbn. apply alter_proj. reflexivity.
  - intros u. rewrite Hf. exact (K5 u).
  - intros u. rewrite Hf. exact (K6 u).
Qed.

(** ** New tasks *)
(** A new task, that can run or is that of a new processor. *)
Record new_task k ph k' ph' (x : task) : Prop := {
  nt_length : length ph' = length (cpus k');
  nt_all : all_tasks k' = all_tasks k ++ [x];
  nt_idle : running x = false;
  nt_tid : tid x = last_id k;
  nt_map : exists r, emplace_key (last_id k) (length (all_tasks k)) (tasks k) = Ok (r, tasks k');
  nt_live : live k' ph' ≡ₚ length (all_tasks k) :: live k ph;
  nt_owned : owned k' ph' = owned k ph;
  nt_waits : forall t, t ∈ gather waits (cpus k') ph' -> t ∈ gather waits (cpus k) ph \/ t = length (all_tasks k);
  nt_last : last_id k' = last_id k + 1 }.

Lemma new_task_ok k ph k' ph' x : tasks_ok k ph -> new_task k ph k' ph' x -> tasks_ok k' ph'.
Proof using.
  intros Hk [N0 N1 N2 N3 (r & N4) N5 N6 N7 N8]. pose proof Hk as [K0 K1 K2 K3 K4 K5 K6 K7 K8 K9]. set (n := length (all_tasks k)) in *.
  assert (Hlook : forall t, all_tasks k' !! t = if decide (t = n) then Some x else all_tasks k !! t).
  { intros t. rewrite N1. destruct (decide (t = n)) as [->|Hne]; [rewrite lookup_app_r, Nat.sub_diag by (unfold n; lia); reflexivity|].
    destruct (Nat.lt_ge_cases t n); [rewrite lookup_app_l by assumption; reflexivity|].
    rewrite !lookup_ge_None_2; [reflexivity|unfold n in *; lia|rewrite length_app; cbn [length]; unfold n in *; lia]. }
  assert (Hnone : all_tasks k !! n = None) by (apply lookup_ge_None_2; unfold n; lia).
  assert (Hnew : n ∉ live k ph) by (intros Hin; destruct (K7 n Hin) as [y Hy]; congruence).
  assert (Hfl : forall t, flag k' t = if decide (t = n) then Some false else flag k t).
  { intros t. unfold flag. rewrite Hlook. destruct (decide (t = n)); [cbn; rewrite N2; reflexivity|reflexivity]. }
  assert (Hfree : contents (tasks k) !! last_id k = None).
  { destruct (contents (tasks k) !! last_id k) as [t|] eqn:Et; [|reflexivity]. apply K2 in Et as [_ Et]. apply K8 in Et. lia. }
  pose proof (emplace_spec (last_id k) n (tasks k) K1) as Hi. unfold refines_insert in Hi. rewrite Hfree in Hi. destruct Hi as (m' & Em & M1 & M2).
  rewrite Em in N4. injection N4 as _ N4. rewrite N4 in *. constructor; try assumption.
  - intros id t. rewrite M2, N5, elem_of_cons. unfold tids. rewrite Hlook. destruct (decide (id = last_id k)) as [->|Hid].
    + rewrite lookup_insert_eq. destruct (decide (t = n)) as [->|Hne]; [cbn; rewrite N3; tauto|]. split; [intros [= Heq]; congruence|].
      intros [[He|_] Ht]; [contradiction|]. apply K8 in Ht. lia.
    + rewrite lookup_insert_ne by congruence. rewrite K2. unfold tids. destruct (decide (t = n)) as [->|Hne]; [|tauto]. cbn. rewrite N3.
      split; [intros [Hin _]; contradiction|intros [_ [= He]]; congruence].
  - rewrite N5. constructor; assumption.
  - rewrite N6. exact K4.
  - intros t. rewrite N6, N5, elem_of_cons, K5, Hfl. destruct (decide (t = n)) as [->|Hne]; [|tauto].
    split; [intros [Hin _]; contradiction|intros [_ [=]]].
  - intros t Ht. rewrite Hfl. destruct (decide (t = n)) as [->|Hne]; [reflexivity|]. destruct (N7 t Ht) as [Hw| ->]; [exact (K6 t Hw)|contradiction].
  - intros t. rewrite N5, elem_of_cons, Hlook. intros Ht. destruct (decide (t = n)); [eexists; reflexivity|]. destruct Ht as [->|Ht]; [contradiction|exact (K7 t Ht)].
  - intros t id. unfold tids. rewrite Hlook, N8. destruct (decide (t = n)); cbn; [intros [= <-]; lia|intros Ht; apply K8 in Ht; lia].
  - rewrite N8. lia.
Qed.

(** What [create_new_task] does, whatever the stores to the stacks. *)
Record created k (t : nat) k' (x : task) : Prop := {
  cr_index : t = length (all_tasks k);
  cr_all : all_tasks k' = all_tasks k ++ [x];
  cr_tid : tid x = last_id k;
  cr_idle : running x = false;
  cr_map : exists r, emplace_key (last_id k) t (tasks k) = Ok (r, tasks k');
  cr_runnable : runnable k' = runnable k;
  cr_cpus : cpus k' = cpus k;
  cr_last : last_id k' = add32 (last_id k) 1 }.

Lemma create_new_task_spec c parent ea tls n k t k' : create_new_task c parent ea tls n k = Ok (t, k') -> exists x, created k t k' x.
Proof using.
  intros Hs. unfold create_new_task in Hs. apply bind_Ok in Hs as ([us e1] & _ & Hs). apply bind_Ok in Hs as ([ks e2] & _ & Hs).
  apply bind_Ok in Hs as (cpu & Hcpu & Hs). unfold generate_tid, add_task in Hs. cbn [set_kenv set_last_id all_tasks last_id] in Hs.
  apply bind_Ok in Hs as (k1 & Hp & Hs). unfold push_task, the_process in Hp. cbn [processes set_all_tasks set_last_id set_kenv] in Hp.
  destruct (processes k !! parent) as [[q|]|] eqn:Eq; [|discriminate..]. cbn [mbind outcome_bind] in Hp. injection Hp as <-.
  do 5 (apply bind_Ok in Hs as (? & _ & Hs)). apply bind_Ok in Hs as ([r m] & Hm & Hs).
  cbn [tasks set_all_tasks set_last_id set_kenv put_process set_processes] in Hm. injection Hs as <- <-.
  eexists (mk_task (last_id k) parent us ks _ false). constructor; try reflexivity. exists r. exact Hm.
Qed.

(** A task is made, and appended to the runnable ones of a state that differs from the
    one it was made in by processes and page directories. *)
Record same_tasks k k' : Prop := {
  se_all : all_tasks k' = all_tasks k;
  se_cpus : tcb <$> cpus k' = tcb <$> cpus k;
  se_map : tasks k' = tasks k;
  se_runnable : runnable k' = runnable k;
  se_last : last_id k' = last_id k }.

Lemma same_tasks_gather k k' f ph : same_tasks k k' -> (forall x y p, tcb x = tcb y -> f x p = f y p) -> gather f (cpus k') ph = gather f (cpus k) ph.
Proof using. intros Hs Hf. apply gather_tcb; [exact Hf|exact (se_cpus _ _ Hs)]. Qed.
Lemma own_tcb x y p : tcb x = tcb y -> own x p = own y p.
Proof using. intros E1. destruct p; cbn; rewrite ?E1; reflexivity. Qed.
Lemma starts_tcb x y p : tcb x = tcb y -> starts x p = starts y p.
Proof using. intros E1. destruct p; cbn; rewrite ?E1; reflexivity. Qed.
Lemma waits_tcb x y p : tcb x = tcb y -> waits x p = waits y p.
Proof using. intros E1. destruct p; cbn; rewrite ?E1; reflexivity. Qed.

Lemma same_tasks_length k k' : same_tasks k k' -> length (cpus k') = length (cpus k).
Proof using. intros Hs. rewrite <- (length_fmap tcb (cpus k')), (se_cpus _ _ Hs). apply length_fmap. Qed.

Lemma same_tasks_ok k k' ph : same_tasks k k' -> tasks_ok k ph -> tasks_ok k' ph.
Proof using.
  intros Hs [K0 K1 K2 K3 K4 K5 K6 K7 K8 K9]. pose proof Hs as [S1 _ S3 S4 S5].
  assert (Eo : owned k' ph = owned k ph) by exact (same_tasks_gather _ _ _ _ Hs own_tcb).
  assert (El : live k' ph = live k ph) by (unfold live, starting; rewrite S4, (same_tasks_gather _ _ _ _ Hs starts_tcb); reflexivity).
  constructor; unfold tids, flag in *; rewrite ?Eo, ?El, ?S1, ?S3, ?S5; try assumption.
  - rewrite (same_tasks_length _ _ Hs). exact K0.
  - rewrite (same_tasks_gather _ _ _ _ Hs waits_tcb). exact K6.
Qed.

Lemma created_ok k ph t k1 x k2 : tasks_ok k ph -> last_id k < 2 ^ 32 - 1 -> created k t k1 x -> same_tasks k1 k2 ->
  tasks_ok (set_runnable (runnable k2 ++ [t]) k2) ph.
Proof using.
  intros Hk Hl [C1 C2 C3 C4 C5 C6 C7 C8] Hs. subst t. pose proof Hs as [S1 S2 S3 S4 S5]. pose proof (same_tasks_length _ _ Hs) as S6.
  assert (Hg : forall f, (forall x y p, tcb x = tcb y -> f x p = f y p) -> gather f (cpus k2) ph = gather f (cpus k) ph)
    by (intros f Hf; rewrite (same_tasks_gather _ _ _ _ Hs Hf), C7; reflexivity).
  apply (new_task_ok k ph _ ph x Hk). constructor; cbn [all_tasks tasks runnable last_id set_runnable cpus].
  - rewrite S6, C7. exact (ok_length _ _ Hk).
  - rewrite S1. exact C2.
  - exact C4.
  - exact C3.
  - rewrite S3. exact C5.
  - unfold live, starting. cbn [runnable cpus set_runnable]. rewrite (Hg _ starts_tcb), S4, C6, <- app_assoc.
    symmetry. apply (Permutation_middle (runnable k) (gather starts (cpus k) ph) (length (all_tasks k))).
  - unfold owned. cbn [cpus set_runnable]. exact (Hg _ own_tcb).
  - intros t. rewrite (Hg _ waits_tcb). tauto.
  - rewrite S5, C8. pose proof (ok_last _ _ Hk). apply add32_small. lia.
Qed.

Lemma same_tasks_refl k : same_tasks k k.
Proof using. constructor; reflexivity. Qed.

Lemma spawn_thread_ok c f tls k id k' ph : tasks_ok k ph -> last_id k < 2 ^ 32 - 1 -> spawn_thread c f tls k = Ok (id, k') -> tasks_ok k' ph.
Proof using.
  intros Hk Hl Hs. unfold spawn_thread in Hs. apply bind_Ok in Hs as (cur & _ & Hs). apply bind_Ok in Hs as (x & _ & Hs).
  apply bind_Ok in Hs as ([t k1] & Hc & Hs). apply bind_Ok in Hs as (y & _ & Hs). injection Hs as _ <-.
  destruct (create_new_task_spec _ _ _ _ _ _ _ _ Hc) as (z & C). exact (created_ok k ph t k1 z k1 Hk Hl C (same_tasks_refl k1)).
Qed.

(** ** New processes *)
Lemma set_page_directory_spec c v k k' : set_page_directory c v k = Ok k' -> same_tasks k k'.
Proof using.
  intros Hs. unfold set_page_directory, the_cpu in Hs. destruct (cpus k !! c) as [x|] eqn:Hc; [|discriminate]. injection Hs as <-.
  constructor; try reflexivity. cbn [cpus set_cpus]. rewrite list_fmap_insert. cbn. apply list_insert_id. rewrite list_lookup_fmap, Hc. reflexivity.
Qed.

Lemma same_tasks_trans k1 k2 k3 : same_tasks k1 k2 -> same_tasks k2 k3 -> same_tasks k1 k3.
Proof using. intros [A1 A2 A3 A4 A5] [B1 B2 B3 B4 B5]. constructor; congruence. Qed.
Lemma same_tasks_env k e l : same_tasks k (set_processes l (set_kenv e k)).
Proof using. constructor; reflexivity. Qed.

Lemma spawn_process_ok c file args flags k id k' ph : tasks_ok k ph -> last_id k < 2 ^ 32 - 1 -> has flags WAIT_FOR_PROCESS = false ->
  spawn_process c file args flags k = Ok (id, k') -> tasks_ok k' ph.
Proof using.
  intros Hk Hl Hw Hs. unfold spawn_process in Hs. destruct file as [file|]; [|injection Hs as _ <-; exact Hk].
  apply bind_Ok in Hs as (cpu & _ & Hs). apply bind_Ok in Hs as (x & _ & Hs). apply bind_Ok in Hs as (par & _ & Hs).
  apply bind_Ok in Hs as ([space e] & _ & Hs). apply bind_Ok in Hs as (k1 & Hd1 & Hs). apply bind_Ok in Hs as ([[r object] e1] & _ & Hs).
  apply set_page_directory_spec in Hd1. unfold add_process in Hs.
  set (k2 := set_processes _ (set_kenv e1 k1)) in Hs.
  assert (M2 : same_tasks k k2).
  { apply (same_tasks_trans _ (set_kenv e k)); [constructor; reflexivity|]. apply (same_tasks_trans _ k1 _ Hd1). apply same_tasks_env. }
  pose proof (same_tasks_ok _ _ ph M2 Hk) as Hk2. destruct (r =? 0).
  - apply bind_Ok in Hs as (k3 & Hd3 & Hs). apply bind_Ok in Hs as (e3 & _ & Hs). injection Hs as _ <-. apply set_page_directory_spec in Hd3.
    apply (same_tasks_ok k2); [|exact Hk2].
    apply (same_tasks_trans _ (put_process (length (processes (set_kenv e1 k1))) None k2)); [constructor; reflexivity|].
    apply (same_tasks_trans _ k3 _ Hd3). constructor; reflexivity.
  - apply bind_Ok in Hs as ([t k3] & Hc & Hs). apply bind_Ok in Hs as (y & _ & Hs). apply bind_Ok in Hs as (e3 & _ & Hs). apply bind_Ok in Hs as (e4 & _ & Hs).
    apply bind_Ok in Hs as (q & Hq & Hs). apply bind_Ok in Hs as (k5 & Hd5 & Hs). rewrite Hw in Hs. injection Hs as _ <-.
    destruct (create_new_task_spec _ _ _ _ _ _ _ _ Hc) as (z & C). apply set_page_directory_spec in Hd5.
    apply (created_ok k2 ph t k3 z k5 Hk2); [rewrite (se_last _ _ M2); exact Hl|exact C|].
    apply (same_tasks_trans _ _ _ ltac:(apply (same_tasks_env k3 e4)) Hd5).
Qed.

(** ** Another processor *)
Lemma add_cpu_ok k ph k' : tasks_ok k ph -> last_id k < 2 ^ 32 - 1 -> add_cpu k = Ok k' -> tasks_ok k' (ph ++ [Added]).
Proof using.
  intros Hk Hl Ha. unfold add_cpu in Ha. apply bind_Ok in Ha as ([stack e] & _ & Ha). unfold generate_tid, add_task in Ha.
  cbn [set_kenv set_last_id all_tasks last_id] in Ha. apply bind_Ok in Ha as (cpu & _ & Ha). apply bind_Ok in Ha as (k2 & Hp & Ha).
  apply bind_Ok in Ha as ([r m] & Hm & Ha). injection Ha as <-. unfold push_task, the_process in Hp.
  cbn [processes set_cpus set_all_tasks set_last_id set_kenv] in Hp. destruct (processes k !! 0%nat) as [[q|]|]; [|discriminate..].
  cbn [mbind outcome_bind] in Hp. injection Hp as <-. cbn [tasks set_cpus put_process set_processes set_all_tasks set_last_id set_kenv] in Hm.
  set (x := mk_task _ _ _ _ _ _) in *. pose proof (ok_length _ _ Hk) as K0.
  apply (new_task_ok k ph _ _ x Hk). unfold live, starting, owned.
  constructor; cbn [all_tasks tasks runnable last_id cpus set_tasks put_process set_processes set_cpus set_all_tasks set_last_id set_kenv];
    unfold live, starting, owned; cbn [runnable cpus set_tasks put_process set_processes set_cpus set_all_tasks set_last_id set_kenv]; rewrite ?gather_app by exact K0.
  - rewrite !length_app, K0. reflexivity.
  - reflexivity.
  - reflexivity.
  - reflexivity.
  - exists r. exact Hm.
  - cbn [starts tcb]. rewrite app_assoc. symmetry. apply Permutation_cons_append.
  - cbn [own]. apply app_nil_r.
  - intros t. rewrite elem_of_app. cbn [waits tcb]. rewrite list_elem_of_singleton. tauto.
  - pose proof (ok_last _ _ Hk). apply add32_small. lia.
Qed.

Lemma enter_cpu_ok k ph c k' : tasks_ok k ph -> ph !! c = Some Added -> enter_cpu c k = Ok k' -> tasks_ok k' (<[c := Entered]> ph).
Proof using.
  intros Hk Hp Hs. destruct (cpu_there _ _ _ _ Hk Hp) as [x Hx]. unfold enter_cpu, the_cpu in Hs. rewrite Hx in Hs. cbn [mbind outcome_bind] in Hs.
  apply bind_Ok in Hs as ([was k1] & Ht & Hs). injection Hs as <-. destruct (test_and_set_result _ _ _ _ Ht) as [Hf ->].
  pose proof Hk as [K0 _ _ K3 K4 K5 K6 _ _ _]. destruct (gather_phase own _ _ _ _ _ Hx Hp) as (ro & O1 & O2). cbn [own app] in O1.
  destruct (gather_phase waits _ _ _ _ _ Hx Hp) as (rw & W1 & W2). cbn [waits app] in W1.
  assert (Hw : flag k (tcb x) = Some false) by (apply K6; rewrite W1; left). rewrite Hf in Hw. injection Hw as ->.
  assert (Hst : gather starts (cpus k) (<[c := Entered]> ph) ≡ₚ starting k ph) by (apply (gather_same_phase starts _ _ _ _ _ _ Hx Hp); reflexivity).
  assert (Hl : tcb x ∈ live k ph) by (unfold live; apply elem_of_app; right; exact (gather_in starts _ _ c x Added _ Hx Hp (list_elem_of_here _ _))).
  assert (Hout : tcb x ∉ owned k ph) by (intros Hin; apply K5 in Hin as [_ Hin]; congruence).
  apply (tasks_ok_same k ph); [|exact Hk| | |].
  - apply set_flag_same; [apply length_insert|exact Hst|exact Hk].
  - unfold owned. cbn [cpus set_all_tasks]. rewrite O2. cbn [own app]. unfold owned in *. rewrite O1 in Hout, K4. constructor; assumption.
  - intros u. unfold owned. cbn [cpus set_all_tasks]. rewrite O2. cbn [own app]. specialize (K5 u). unfold owned in K5. rewrite O1 in K5.
    rewrite elem_of_cons, K5, set_flag_flag. destruct (decide (u = tcb x)) as [->|Hne]; [rewrite Hf; cbn; tauto|tauto].
  - intros u Hu. cbn [cpus set_all_tasks] in Hu. rewrite W2 in Hu. cbn [waits app] in Hu.
    rewrite set_flag_flag. destruct (decide (u = tcb x)) as [->|Hne]; [|apply K6; rewrite W1; right; exact Hu]. exfalso.
    assert (Hn : NoDup (gather waits (cpus k) ph)) by (refine (sublist_NoDup _ _ _ (gather_sublist _ _ waits_sublist _ _)); apply NoDup_app in K3 as (_ & _ & K3); exact K3). rewrite W1 in Hn. apply NoDup_cons in Hn as [Hn _]. contradiction.
Qed.

Lemma ready_cpu_ok k ph c k' : tasks_ok k ph -> ph !! c = Some Entered -> ready_cpu c k = Ok k' -> tasks_ok k' (<[c := Running]> ph).
Proof using.
  intros Hk Hp Hs. destruct (cpu_there _ _ _ _ Hk Hp) as [x Hx]. unfold ready_cpu, the_cpu in Hs. rewrite Hx in Hs. cbn [mbind outcome_bind] in Hs. injection Hs as <-.
  pose proof Hk as [K0 _ _ K3 K4 K5 K6 _ _ _]. destruct (gather_phase starts _ _ _ _ _ Hx Hp) as (rs & S1 & S2). cbn [starts app] in S1.
  assert (Ho : gather own (cpus k) (<[c := Running]> ph) ≡ₚ owned k ph) by (apply (gather_same_phase own _ _ _ _ _ _ Hx Hp); reflexivity).
  assert (Hw : gather waits (cpus k) (<[c := Running]> ph) ≡ₚ gather waits (cpus k) ph) by (apply (gather_same_phase waits _ _ _ _ _ _ Hx Hp); reflexivity).
  apply (tasks_ok_same k ph); [|exact Hk| | |].
  - constructor; try reflexivity.
    + cbn. rewrite length_insert. exact K0.
    + unfold live, starting. cbn [runnable cpus set_runnable]. rewrite S2, S1. cbn [starts app]. rewrite <- app_assoc. reflexivity.
  - unfold owned. cbn [cpus set_runnable]. rewrite Ho. exact K4.
  - intros u. unfold owned. cbn [cpus set_runnable]. rewrite Ho. exact (K5 u).
  - intros u. cbn [cpus set_runnable]. rewrite Hw. exact (K6 u).
Qed.

(** ** The end of a task *)
Lemma erase_task_spec t l l' : erase_task t l = Some l' -> exists i, l !! i = Some t /\ l' = delete i l.
Proof using.
  unfold erase_task. destruct (list_find _ l) as [[i u]|] eqn:Ef; [|discriminate]. intros [= <-]. apply list_find_Some in Ef as (Hi & -> & _).
  exists i. split; [exact Hi|reflexivity].
Qed.

Lemma unlink_task_ok k ph c x next k' : tasks_ok k ph -> ph !! c = Some Running -> cpus k !! c = Some x -> unlink_task (tcb x) k = Ok (next, k') ->
  tasks_ok k' (<[c := Leaving]> ph).
Proof using.
  intros Hk Hp Hx Hs. pose proof Hk as [K0 K1 K2 K3 K4 K5 K6 K7 K8 K9]. unfold unlink_task in Hs.
  apply bind_Ok in Hs as (y & Hy & Hs). apply bind_Ok in Hs as (p & _ & Hs). unfold the_task in Hy.
  destruct (all_tasks k !! tcb x) as [y'|] eqn:Ey; [|discriminate]. injection Hy as ->.
  destruct (erase_task (tcb x) (p_tasks p)) as [l|]; [|discriminate]. destruct (erase_task (tcb x) (runnable k)) as [r|] eqn:Er; [|discriminate].
  destruct (erase_task_spec _ _ _ Er) as (i & Hi & ->). apply bind_Ok in Hs as (m & Hm & Hs). cbn [tasks set_runnable put_process set_processes] in Hm.
  destruct (remove_spec (tid y) (tasks k) K1) as (m' & Em & M1 & M2). rewrite Em in Hm. injection Hm as ->. injection Hs as _ <-.
  set (k1 := if _ : bool then _ else _).
  assert (Q : all_tasks k1 = all_tasks k /\ cpus k1 = cpus k /\ last_id k1 = last_id k /\ tasks k1 = m /\ runnable k1 = delete i (runnable k))
    by (unfold k1; destruct (_ =? tid y); repeat (split; [reflexivity|]); reflexivity).
  destruct Q as (Q1 & Q2 & Q3 & Q4 & Q5). clearbody k1.
  destruct (gather_phase own _ _ _ _ _ Hx Hp) as (ro & O1 & O2). cbn [own app] in O1.
  assert (Hst : gather starts (cpus k) (<[c := Leaving]> ph) ≡ₚ starting k ph) by (apply (gather_same_phase starts _ _ _ _ _ _ Hx Hp); reflexivity).
  assert (Hw : gather waits (cpus k) (<[c := Leaving]> ph) ≡ₚ gather waits (cpus k) ph) by (apply (gather_same_phase waits _ _ _ _ _ _ Hx Hp); reflexivity).
  assert (Hlive : live k ph ≡ₚ tcb x :: live k1 (<[c := Leaving]> ph)).
  { unfold live, starting at 2. rewrite Q2, Q5, Hst. rewrite (delete_Permutation (runnable k) i (tcb x) Hi) at 1. reflexivity. }
  pose proof K3 as Hn. rewrite Hlive in Hn. apply NoDup_cons in Hn as [Hn1 Hn2].
  assert (Hown : owned k1 (<[c := Leaving]> ph) ≡ₚ ro) by (unfold owned; rewrite Q2, O2; reflexivity).
  unfold owned in K4, K5. pose proof K4 as Hm4. rewrite O1 in Hm4. apply NoDup_cons in Hm4 as [Hm1 Hm2].
  assert (Hid : contents (tasks k) !! tid y = Some (tcb x)).
  { apply K2. split; [rewrite Hlive; left|unfold tids; rewrite Ey; reflexivity]. }
  constructor; unfold tids, flag in *; rewrite ?Q1, ?Q3, ?Q4; try assumption.
  - rewrite length_insert, Q2. exact K0.
  - intros id t. rewrite M2. destruct (decide (id = tid y)) as [->|Hne].
    + rewrite lookup_delete_eq. split; [discriminate|]. intros [Ht Htid]. exfalso.
      assert (A : contents (tasks k) !! tid y = Some t) by (apply K2; split; [rewrite Hlive; right; exact Ht|exact Htid]).
      rewrite Hid in A. injection A as <-. contradiction.
    + rewrite lookup_delete_ne by congruence. rewrite K2, Hlive, elem_of_cons. split; [|tauto]. intros [[->|Ht] Htid]; [|tauto].
      rewrite Ey in Htid. cbn in Htid. congruence.
  - rewrite Hown. exact Hm2.
  - intros t. rewrite Hown. specialize (K5 t). rewrite O1, elem_of_cons, Hlive, elem_of_cons in K5. split.
    + intros Ht. destruct (proj1 K5 (or_intror Ht)) as [[->|Hl] Hf]; [contradiction|]. split; assumption.
    + intros [Hl Hf]. destruct (proj2 K5 (conj (or_intror Hl) Hf)) as [->|Ht]; [contradiction|exact Ht].
  - intros t. rewrite Q2, Hw. exact (K6 t).
  - intros t Ht. apply K7. rewrite Hlive. right. exact Ht.
Qed.

Lemma set_kenv_ok e k ph : tasks_ok k ph -> tasks_ok (set_kenv e k) ph.
Proof using. intros Hk. apply (same_tasks_ok k); [constructor; reflexivity|exact Hk]. Qed.

(** ** Every state the scheduler reaches *)
(** Two processors come between each other's steps.  A processor takes tasks it finds
    in the list of the runnable ones, or by a number that is that of one. *)
Inductive sched_step : kernel E * list phase -> kernel E * list phase -> Prop :=
| step_try c p t was k k' ph : ph !! c = Some p -> p = Running \/ p = Leaving -> t ∈ runnable k -> test_and_set t k = Ok (was, k') ->
    sched_step (k, ph) (k', if was : bool then ph else <[c := taking p t]> ph)
| step_release c t k k' ph : ph !! c = Some (Claimed t) -> release_task c k = Ok k' -> sched_step (k, ph) (k', <[c := Released t]> ph)
| step_load c t k k' ph : ph !! c = Some (Released t) -> load_new_task c t k = Ok k' -> sched_step (k, ph) (k', <[c := Running]> ph)
| step_active c v k ph : ph !! c = Some Running -> sched_step (k, ph) (set_active v k, ph)
| step_tls c v k k' ph : ph !! c = Some Running -> set_tls_addr c v k = Ok k' -> sched_step (k, ph) (k', ph)
| step_memory c e k ph : ph !! c = Some Running -> sched_step (k, ph) (set_kenv e k, ph)
| step_unlink c current next k k' ph : ph !! c = Some Running -> get_running_task c k = Ok current -> unlink_task current k = Ok (next, k') ->
    sched_step (k, ph) (k', <[c := Leaving]> ph)
| step_thread c f tls id k k' ph : ph !! c = Some Running -> last_id k < 2 ^ 32 - 1 -> spawn_thread c f tls k = Ok (id, k') -> sched_step (k, ph) (k', ph)
| step_process c file args flags id k k' ph : ph !! c = Some Running -> last_id k < 2 ^ 32 - 1 -> has flags WAIT_FOR_PROCESS = false ->
    spawn_process c file args flags k = Ok (id, k') -> sched_step (k, ph) (k', ph)
| step_add_cpu k k' ph : last_id k < 2 ^ 32 - 1 -> add_cpu k = Ok k' -> sched_step (k, ph) (k', ph ++ [Added])
| step_enter_cpu c k k' ph : ph !! c = Some Added -> enter_cpu c k = Ok k' -> sched_step (k, ph) (k', <[c := Entered]> ph)
| step_ready_cpu c k k' ph : ph !! c = Some Entered -> ready_cpu c k = Ok k' -> sched_step (k, ph) (k', <[c := Running]> ph).

(** The state after [setup_first_task]. *)
Definition booted k : Prop := exists m e pdir top, map_ok m /\ contents m = ∅ /\ setup_first_task top (boot_kernel m e pdir) = Ok k.

Lemma booted_ok k : booted k -> tasks_ok k [Running].
Proof using.
  intros (m & e & pdir & top & Hm & Hc & Hs). unfold setup_first_task in Hs. cbn [the_cpu the_task boot_kernel all_tasks cpus lookup list_lookup mbind outcome_bind tid regs page_directory] in Hs.
  apply bind_Ok in Hs as (k1 & Hp & Hs). unfold push_task in Hp. cbn in Hp. injection Hp as <-. apply bind_Ok in Hs as ([r m'] & Hm' & Hs).
  cbn [tasks set_processes set_all_tasks put_process] in Hm'. apply bind_Ok in Hs as ([spare e'] & _ & Hs). injection Hs as <-.
  pose proof (emplace_spec 0 0%nat m Hm) as Hi. unfold refines_insert in Hi. rewrite Hc, lookup_empty in Hi. destruct Hi as (m1 & E1 & M1 & M2).
  cbn in Hm'. rewrite E1 in Hm'. injection Hm' as <- <-.
  assert (One : forall (t : nat), t ∈ [0%nat] <-> t = 0%nat) by (intros t; apply list_elem_of_singleton).
  constructor; unfold live, starting, owned, gather; cbn [all_tasks tasks runnable processes last_id cpus set_runnable set_kenv set_tasks put_process set_processes set_all_tasks boot_kernel app zip_with concat own starts waits tcb].
  - reflexivity.
  - exact M1.
  - intros id t. rewrite M2, One. unfold tids. cbn. destruct (decide (id = 0)) as [->|Hne].
    + rewrite lookup_insert_eq. destruct t as [|t]; cbn; [tauto|]. split; [intros [=]|intros [[=] _]].
    + rewrite lookup_insert_ne by congruence. rewrite ?Hc, lookup_empty. split; [discriminate|]. intros [-> Hid]. cbn in Hid. congruence.
  - apply NoDup_singleton.
  - apply NoDup_singleton.
  - intros t. unfold flag. cbn. rewrite One. split; [intros ->; split; reflexivity|intros [-> _]; reflexivity].
  - intros t Ht. inversion Ht.
  - intros t Ht. apply One in Ht as ->. eexists. reflexivity.
  - intros [|t] id Hid; cbn in Hid; [injection Hid as <-; lia|discriminate].
  - lia.
Qed.

Lemma sched_step_ok s s' : tasks_ok s.1 s.2 -> sched_step s s' -> tasks_ok s'.1 s'.2.
Proof using.
  intros Hk Hs. destruct Hs; cbn [fst snd] in *.
  - destruct was; [|eapply take_ok; eassumption]. destruct (test_and_set_result _ _ _ _ H3) as [Hf _]. rewrite (test_and_set_busy _ _ Hf) in H3.
    injection H3 as <-. exact Hk.
  - eapply release_ok; eassumption.
  - eapply load_ok; eassumption.
  - apply set_active_ok. exact Hk.
  - eapply set_tls_addr_ok; eassumption.
  - apply set_kenv_ok. exact Hk.
  - unfold get_running_task, the_cpu in H1. destruct (cpus k !! c) as [x|] eqn:Hx; [|discriminate]. injection H1 as <-. eapply unlink_task_ok; eassumption.
  - eapply spawn_thread_ok; eassumption.
  - eapply spawn_process_ok; eassumption.
  - eapply add_cpu_ok; eassumption.
  - eapply enter_cpu_ok; eassumption.
  - eapply ready_cpu_ok; eassumption.
Qed.

Lemma reachable_ok s s' : tasks_ok s.1 s.2 -> rtc sched_step s s' -> tasks_ok s'.1 s'.2.
Proof using. intros Hb Hr. induction Hr as [|s1 s2 s3 Hs _ IH]; [exact Hb|]. exact (IH (sched_step_ok _ _ Hb Hs)). Qed.

(** ** The functions are runs of steps *)
Definition settled (p : phase) : Prop := p = Running \/ p = Leaving.

Lemma no_starting k ph : Forall settled ph -> starting k ph = [].
Proof using.
  intros Hph. unfold starting, gather. generalize (cpus k). induction Hph as [|p ph Hp Hph IH]; intros [|x l]; try reflexivity.
  cbn [zip_with concat]. rewrite IH. destruct Hp as [-> | ->]; reflexivity.
Qed.

Lemma known_runnable k ph id t : tasks_ok k ph -> Forall settled ph -> lookup_key id (tasks k) = Ok (Some t) -> t ∈ runnable k.
Proof using.
  intros Hk Hph Hl. rewrite (lookup_spec _ _ (ok_map _ _ Hk)) in Hl. injection Hl as Hl. apply (ok_id _ _ Hk) in Hl as [Hl _].
  unfold live in Hl. rewrite (no_starting k ph Hph), app_nil_r in Hl. exact Hl.
Qed.

(** A task that was taken is loaded, after the end of one or instead of another. *)
Lemma load_runs c t k k' ph p : ph !! c = Some p -> load_new_task c t k = Ok k' -> rtc sched_step (k, <[c := Released t]> ph) (k', <[c := Running]> ph).
Proof using.
  intros Hp Hl. apply rtc_once. rewrite <- (list_insert_insert_eq ph c Running (Released t)). apply (step_load c t); [|exact Hl].
  apply list_lookup_insert_eq. exact (lookup_lt_Some _ _ _ Hp).
Qed.

Lemma try_switch_runs c t k k' ph : ph !! c = Some Running -> t ∈ runnable k ->
  ('(was, k) ← test_and_set t k; if was : bool then Ok k else switch_task c t k) = Ok k' -> rtc sched_step (k, ph) (k', ph).
Proof using.
  intros Hp Ht Hs. apply bind_Ok in Hs as ([was k1] & E1 & Hs). apply (rtc_l _ _ _ _ (step_try c Running t was k k1 ph Hp (or_introl eq_refl) Ht E1)).
  destruct was; [injection Hs as <-; apply rtc_refl|]. apply bind_Ok in Hs as (k2 & E2 & E3). cbn [taking].
  apply (rtc_l _ _ (k2, <[c := Released t]> ph)).
  - rewrite <- (list_insert_insert_eq ph c (Released t) (Claimed t)). apply step_release; [|exact E2].
    apply list_lookup_insert_eq. exact (lookup_lt_Some _ _ _ Hp).
  - rewrite <- (list_insert_id ph c Running Hp) at 2. exact (load_runs c t k2 k' ph Running Hp E3).
Qed.

Lemma switch_to_task_runs c id k k' ph : tasks_ok k ph -> Forall settled ph -> ph !! c = Some Running -> switch_to_task c id k = Ok k' ->
  rtc sched_step (k, ph) (k', ph).
Proof using.
  intros Hk Hph Hp Hs. unfold switch_to_task in Hs. apply bind_Ok in Hs as ([t|] & El & Hs); [|discriminate].
  exact (try_switch_runs c t k k' ph Hp (known_runnable k ph id t Hk Hph El) Hs).
Qed.

Lemma run_next_task_runs c k k' ph : tasks_ok k ph -> Forall settled ph -> ph !! c = Some Running -> run_next_task c k = Ok k' ->
  rtc sched_step (k, ph) (k', ph).
Proof using.
  intros Hk Hph Hp Hs. unfold run_next_task in Hs. destruct (runnable k) as [|r l]; [discriminate|].
  set (v := _ mod _) in Hs. apply (rtc_l _ _ _ _ (step_active c v k ph Hp)).
  exact (switch_to_task_runs c _ _ k' ph (set_active_ok k ph v Hk) Hph Hp Hs).
Qed.

Lemma background_loop_runs c id ph : forall l k k', ph !! c = Some Running -> (forall t, t ∈ l -> t ∈ runnable k) ->
  background_loop c id l k = Ok k' -> rtc sched_step (k, ph) (k', ph).
Proof using.
  induction l as [|t l IH]; intros k k' Hp Hl Hs; cbn [background_loop] in Hs; [injection Hs as <-; apply rtc_refl|].
  assert (Ht : t ∈ runnable k) by (apply Hl; left). assert (Hl' : forall u, u ∈ l -> u ∈ runnable k) by (intros u Hu; apply Hl; right; exact Hu).
  apply bind_Ok in Hs as (x & _ & Hs). destruct (tid x =? id); [exact (IH k k' Hp Hl' Hs)|]. pose proof Hs as Hs0.
  apply bind_Ok in Hs as ([was k1] & E1 & Hs). destruct was; [|apply (try_switch_runs c t k k' ph Hp Ht); rewrite E1; exact Hs].
  destruct (test_and_set_result _ _ _ _ E1) as [Hf _]. rewrite (test_and_set_busy _ _ Hf) in E1. injection E1 as <-. exact (IH k k' Hp Hl' Hs).
Qed.

Lemma run_background_tasks_runs c k k' ph : ph !! c = Some Running -> run_background_tasks c k = Ok k' -> rtc sched_step (k, ph) (k', ph).
Proof using.
  intros Hp Hs. unfold run_background_tasks in Hs. apply bind_Ok in Hs as (id & _ & Hs). exact (background_loop_runs c id ph _ k k' Hp (fun t Ht => Ht) Hs).
Qed.

Lemma switch_to_active_task_runs c k k' ph : tasks_ok k ph -> Forall settled ph -> ph !! c = Some Running -> switch_to_active_task c k = Ok k' ->
  rtc sched_step (k, ph) (k', ph).
Proof using.
  intros Hk Hph Hp Hs. unfold switch_to_active_task in Hs. apply bind_Ok in Hs as ([|] & _ & Hs); [injection Hs as <-; apply rtc_refl|].
  exact (switch_to_task_runs c _ k k' ph Hk Hph Hp Hs).
Qed.

Lemma yield_to_runs c id k k' ph : tasks_ok k ph -> Forall settled ph -> ph !! c = Some Running -> yield_to c id k = Ok k' ->
  rtc sched_step (k, ph) (k', ph).
Proof using.
  intros Hk Hph Hp Hs. unfold yield_to in Hs. apply bind_Ok in Hs as (a & _ & Hs). apply bind_Ok in Hs as (b & _ & Hs). destruct (_ && _).
  - exact (switch_to_task_runs c id k k' ph Hk Hph Hp Hs).
  - destruct a; [exact (run_background_tasks_runs c k k' ph Hp Hs)|exact (switch_to_active_task_runs c k k' ph Hk Hph Hp Hs)].
Qed.

(** Looking for another task after the end of one. *)
Lemma try_next_runs c t k k' ph m : ph !! c = Some Leaving -> t ∈ runnable k -> (forall k1, m k1 = Ok k' -> k1 = k -> rtc sched_step (k, ph) (k', <[c := Running]> ph)) ->
  ('(was, k) ← test_and_set t k; if was : bool then m k else switch_task_no_return c t k) = Ok k' -> rtc sched_step (k, ph) (k', <[c := Running]> ph).
Proof using.
  intros Hp Ht Hm Hs. apply bind_Ok in Hs as ([was k1] & E1 & Hs). destruct was.
  - destruct (test_and_set_result _ _ _ _ E1) as [Hf _]. rewrite (test_and_set_busy _ _ Hf) in E1. injection E1 as <-. exact (Hm k Hs eq_refl).
  - apply (rtc_l _ _ _ _ (step_try c Leaving t false k k1 ph Hp (or_intror eq_refl) Ht E1)). exact (load_runs c t k1 k' ph Leaving Hp Hs).
Qed.

Lemma first_free_runs c ph : forall l k k', ph !! c = Some Leaving -> (forall t, t ∈ l -> t ∈ runnable k) -> first_free c l k = Ok k' ->
  rtc sched_step (k, ph) (k', <[c := Running]> ph).
Proof using.
  induction l as [|t l IH]; intros k k' Hp Hl Hs; cbn [first_free] in Hs; [discriminate|].
  apply (try_next_runs c t k k' ph (first_free c l) Hp); [apply Hl; left| |exact Hs].
  intros k1 H1 ->. apply IH; [exact Hp|intros u Hu; apply Hl; right; exact Hu|exact H1].
Qed.

Lemma exit_thread_runs c k k' ph : tasks_ok k ph -> Forall settled ph -> ph !! c = Some Running -> exit_thread c k = Ok k' -> rtc sched_step (k, ph) (k', ph).
Proof using.
  intros Hk Hph Hp Hs. unfold exit_thread in Hs. apply bind_Ok in Hs as (cur & Hc & Hs). apply bind_Ok in Hs as (x & _ & Hs).
  apply bind_Ok in Hs as (e1 & _ & Hs). apply bind_Ok in Hs as (e2 & _ & Hs). unfold switch_task_post_terminate in Hs.
  apply bind_Ok in Hs as ([next k1] & Hu & Hs). apply bind_Ok in Hs as (o & Ho & Hs).
  apply (rtc_l _ _ _ _ (step_memory c e2 k ph Hp)). pose proof (step_unlink c cur next (set_kenv e2 k) k1 ph Hp Hc Hu) as Hstep.
  apply (rtc_l _ _ _ _ Hstep). pose proof (sched_step_ok (set_kenv e2 k, ph) _ (set_kenv_ok e2 k ph Hk) Hstep) as Hk1. cbn [fst snd] in Hk1.
  assert (Hlt : (c < length ph)%nat) by exact (lookup_lt_Some _ _ _ Hp).
  assert (Hp1 : <[c := Leaving]> ph !! c = Some Leaving) by (apply list_lookup_insert_eq; exact Hlt).
  assert (Hph1 : Forall settled (<[c := Leaving]> ph)) by (apply Forall_insert; [exact Hph|right; reflexivity]).
  rewrite <- (list_insert_id ph c Running Hp) at 2. rewrite <- (list_insert_insert_eq ph c Running Leaving).
  destruct o as [t|].
  - apply (try_next_runs c t k1 k' _ (fun k => first_free c (runnable k) k) Hp1); [exact (known_runnable k1 _ next t Hk1 Hph1 Ho)| |exact Hs].
    intros k2 H2 ->. exact (first_free_runs c _ _ k1 k' Hp1 (fun u Hu => Hu) H2).
  - exact (first_free_runs c _ _ k1 k' Hp1 (fun u Hu => Hu) Hs).
Qed.

(** The start of a processor. *)
Lemma start_cpu_runs k k1 k' ph : tasks_ok k ph -> last_id k < 2 ^ 32 - 1 -> add_cpu k = Ok k1 -> cpu_entry_point (length (cpus k)) k1 = Ok k' ->
  rtc sched_step (k, ph) (k', ph ++ [Running]).
Proof using.
  intros Hk Hl Ha Hs. rewrite <- (ok_length _ _ Hk) in Hs. apply bind_Ok in Hs as (k2 & E2 & E3).
  assert (Hins : forall p q, <[length ph := q]> (ph ++ [p]) = ph ++ [q])
    by (intros p q; rewrite insert_app_r_alt, Nat.sub_diag by lia; reflexivity).
  assert (Hlook : forall p, (ph ++ [p]) !! length ph = Some p) by (intros p; rewrite lookup_app_r, Nat.sub_diag by lia; reflexivity).
  apply (rtc_l _ _ _ _ (step_add_cpu k k1 ph Hl Ha)). apply (rtc_l _ _ (k2, ph ++ [Entered])).
  - rewrite <- (Hins Added Entered). exact (step_enter_cpu _ k1 k2 _ (Hlook Added) E2).
  - apply rtc_once. rewrite <- (Hins Entered Running). exact (step_ready_cpu _ k2 k' _ (Hlook Entered) E3).
Qed.

(** A call of one of the functions of the scheduler on a processor. *)
Definition scheduler_call c k k' : Prop :=
  run_next_task c k = Ok k' \/ run_background_tasks c k = Ok k' \/ switch_to_active_task c k = Ok k' \/ (exists id, switch_to_task c id k = Ok k')
  \/ (exists id, yield_to c id k = Ok k') \/ exit_thread c k = Ok k'.

(** A processor holds a task: it runs it, or has set its flag to run it. *)
Definition holds k ph c t : Prop := exists x p, cpus k !! c = Some x /\ ph !! c = Some p /\ t ∈ own x p.
Definition is_starting k ph t : Prop := exists c x p, cpus k !! c = Some x /\ ph !! c = Some p /\ t ∈ starts x p.

Lemma gather_unique f t : forall l ph c1 c2 x1 x2 p1 p2, NoDup (gather f l ph) -> l !! c1 = Some x1 -> ph !! c1 = Some p1 -> t ∈ f x1 p1 ->
  l !! c2 = Some x2 -> ph !! c2 = Some p2 -> t ∈ f x2 p2 -> c1 = c2.
Proof using.
  induction l as [|y l IH]; intros [|q ph] c1 c2 x1 x2 p1 p2 Hn Hx1 Hp1 H1 Hx2 Hp2 H2; try discriminate.
  unfold gather in Hn. cbn [zip_with concat] in Hn. fold (gather f l ph) in Hn. apply NoDup_app in Hn as (_ & Hd & Hn).
  destruct c1 as [|c1], c2 as [|c2]; [reflexivity| | |f_equal; exact (IH ph c1 c2 x1 x2 p1 p2 Hn Hx1 Hp1 H1 Hx2 Hp2 H2)].
  - injection Hx1 as ->. injection Hp1 as ->. destruct (Hd t H1 (gather_in f l ph c2 x2 p2 t Hx2 Hp2 H2)).
  - injection Hx2 as ->. injection Hp2 as ->. destruct (Hd t H2 (gather_in f l ph c1 x1 p1 t Hx1 Hp1 H1)).
Qed.

Lemma holds_owned k ph t : (exists c, holds k ph c t) <-> t ∈ owned k ph.
Proof using.
  split; [intros (c & x & p & Hx & Hp & Ht); exact (gather_in own _ _ c x p t Hx Hp Ht)|].
  intros Ht. destruct (gather_owner own _ _ t Ht) as (c & x & p & Hx & Hp & Hin). exists c, x, p. auto.
Qed.
Lemma is_starting_in k ph t : is_starting k ph t <-> t ∈ starting k ph.
Proof using.
  split; [intros (c & x & p & Hx & Hp & Ht); exact (gather_in starts _ _ c x p t Hx Hp Ht)|].
  intros Ht. destruct (gather_owner starts _ _ t Ht) as (c & x & p & Hx & Hp & Hin). exists c, x, p. auto.
Qed.
Lemma live_spec k ph t : t ∈ live k ph <-> t ∈ runnable k \/ is_starting k ph t.
Proof using. unfold live. rewrite elem_of_app, is_starting_in. reflexivity. Qed.

(** C30: the processors take turns between the steps of a switch, and between these and
    the changes of the tables when a task, a process that is not waited for or a
    processor is made and when a task ends, each of which is one step.  In every state
    that is reached so, a task is held by at most one processor; the tasks that are
    held are exactly the live ones whose flag is set, so every other one can be switched
    to; and the map of tasks holds exactly the live ones, those that can run and those
    of processors that are starting, each under its number.  When all processors are
    running, each function of the scheduler, and the start of a processor, is a run of
    these steps. *)
Theorem scheduler_excludes k0 k ph : booted k0 -> rtc sched_step (k0, [Running]) (k, ph) ->
  (forall t c1 c2, holds k ph c1 t -> holds k ph c2 t -> c1 = c2)
  /\ (forall t, (exists c, holds k ph c t) <-> (t ∈ runnable k \/ is_starting k ph t) /\ flag k t = Some true)
  /\ (forall id t, lookup_key id (tasks k) = Ok (Some t) <-> (t ∈ runnable k \/ is_starting k ph t) /\ tids k t = Some id)
  /\ (Forall (eq Running) ph -> forall c k', (c < length ph)%nat -> scheduler_call c k k' -> rtc sched_step (k, ph) (k', ph))
  /\ forall k1 k', last_id k < 2 ^ 32 - 1 -> add_cpu k = Ok k1 -> cpu_entry_point (length (cpus k)) k1 = Ok k' ->
       rtc sched_step (k, ph) (k', ph ++ [Running]).
Proof using.
  intros Hb Hr. pose proof (reachable_ok (k0, [Running]) (k, ph) (booted_ok k0 Hb) Hr) as Hk. cbn [fst snd] in Hk.
  split; [|split; [|split; [|split]]].
  - intros t c1 c2 (x1 & p1 & Hx1 & Hp1 & H1) (x2 & p2 & Hx2 & Hp2 & H2). exact (gather_unique own t _ _ _ _ _ _ _ _ (ok_owned _ _ Hk) Hx1 Hp1 H1 Hx2 Hp2 H2).
  - intros t. rewrite holds_owned, <- live_spec. exact (ok_run _ _ Hk t).
  - intros id t. rewrite (lookup_spec _ _ (ok_map _ _ Hk)), <- live_spec, <- (ok_id _ _ Hk). split; [intros [= E1]; exact E1|intros ->; reflexivity].
  - intros Hph c k' Hc Hs. assert (Hset : Forall settled ph) by (apply (Forall_impl _ _ _ Hph); intros p <-; left; reflexivity).
    assert (Hp : ph !! c = Some Running).
    { destruct (lookup_lt_is_Some_2 ph c Hc) as [p Hp]. pose proof (Forall_lookup_1 _ _ _ _ Hph Hp) as <-. exact Hp. }
    destruct Hs as [Hs|[Hs|[Hs|[(id & Hs)|[(id & Hs)|Hs]]]]].
    + exact (run_next_task_runs c k k' ph Hk Hset Hp Hs).
    + exact (run_background_tasks_runs c k k' ph Hp Hs).
    + exact (switch_to_active_task_runs c k k' ph Hk Hset Hp Hs).
    + exact (switch_to_task_runs c id k k' ph Hk Hset Hp Hs).
    + exact (yield_to_runs c id k k' ph Hk Hset Hp Hs).
    + exact (exit_thread_runs c k k' ph Hk Hset Hp Hs).
  - intros k1 k' Hl Ha Hs. exact (start_cpu_runs k k1 k' ph Hk Hl Ha Hs).
Qed.

(** Giving way takes the first runnable task that is on no processor, if there is one. *)
Lemma switch_task_takes c k t cpu x : cpus k !! c = Some cpu -> all_tasks k !! t = Some x -> exists k', switch_task c t k = Ok k' /\
  tcb <$> cpus k' = <[c := t]> (tcb <$> cpus k).
Proof using.
  intros Hc Hx. unfold switch_task, release_task, the_cpu. rewrite Hc. cbn [mbind outcome_bind]. unfold load_new_task, the_task, the_cpu.
  cbn [all_tasks cpus set_all_tasks]. rewrite alter_lookup, Hx, Hc. destruct (decide (t = tcb cpu)); eexists; (split; [reflexivity|]);
    cbn [cpus set_cpus set_all_tasks]; rewrite list_fmap_insert; reflexivity.
Qed.

Lemma background_loop_takes c id cpu k : cpus k !! c = Some cpu ->
  (forall t x, all_tasks k !! t = Some x -> t ∈ runnable k -> tid x = id -> running x = true) ->
  forall l, (forall t, t ∈ l -> t ∈ runnable k /\ is_Some (all_tasks k !! t)) -> exists k', background_loop c id l k = Ok k' /\
    match list_find (fun t => flag k t = Some false) l with
    | Some (_, t) => tcb <$> cpus k' = <[c := t]> (tcb <$> cpus k)
    | None => k' = k
    end.
Proof using.
  intros Hc Hown. induction l as [|t l IH]; intros Hl; [exists k; split; reflexivity|]. cbn [background_loop list_find].
  destruct (Hl t (list_elem_of_here _ _)) as [Ht [x Hx]]. destruct (IH (fun u Hu => Hl u (list_elem_of_further _ _ _ Hu))) as (k1 & E1 & R1).
  assert (Hf : flag k t = Some (running x)) by (unfold flag; rewrite Hx; reflexivity). unfold the_task. rewrite Hx. cbn [mbind outcome_bind].
  assert (Skip : running x = true -> exists k', background_loop c id l k = Ok k' /\
    match (if decide (flag k t = Some false) then Some (0%nat, t) else prod_map S Datatypes.id <$> list_find (fun t => flag k t = Some false) l) with
    | Some (_, t) => tcb <$> cpus k' = <[c := t]> (tcb <$> cpus k) | None => k' = k end).
  { intros Hr. exists k1. split; [exact E1|]. rewrite decide_False by (rewrite Hf, Hr; discriminate). destruct (list_find _ l) as [[i u]|]; exact R1. }
  destruct (Z.eqb_spec (tid x) id) as [Eid|Hid]; [exact (Skip (Hown t x Hx Ht Eid))|]. destruct (running x) eqn:Hr.
  - rewrite (test_and_set_busy k t Hf). exact (Skip eq_refl).
  - rewrite (test_and_set_spec _ _ _ Hx), Hr. rewrite decide_True by exact Hf.
    destruct (switch_task_takes c (set_all_tasks (alter (set_running true) t (all_tasks k)) k) t cpu (set_running true x) Hc) as (k2 & E2 & H2).
    { cbn [all_tasks set_all_tasks]. rewrite alter_lookup, decide_True, Hx by reflexivity. reflexivity. }
    exists k2. split; [exact E2|exact H2].
Qed.

Theorem run_background_tasks_takes_first c cpu k ph : tasks_ok k ph -> Forall (eq Running) ph -> cpus k !! c = Some cpu ->
  exists k', run_background_tasks c k = Ok k' /\
  match list_find (fun t => flag k t = Some false) (runnable k) with
  | Some (_, t) => tcb <$> cpus k' = <[c := t]> (tcb <$> cpus k)
  | None => k' = k
  end.
Proof using.
  intros Hk Hph Hc. assert (Hp : ph !! c = Some Running).
  { destruct (lookup_lt_is_Some_2 ph c) as [p Hp]; [rewrite (ok_length _ _ Hk); exact (lookup_lt_Some _ _ _ Hc)|].
    pose proof (Forall_lookup_1 _ _ _ _ Hph Hp) as <-. exact Hp. }
  assert (Hon : tcb cpu ∈ owned k ph) by exact (gather_in own _ _ c cpu Running _ Hc Hp (list_elem_of_here _ _)).
  apply (ok_run _ _ Hk) in Hon as [Hon Hf]. destruct (flag_task _ _ _ Hf) as (x & Hx & Hr).
  assert (Hlive : forall t, t ∈ runnable k -> t ∈ live k ph) by (intros t Ht; unfold live; apply elem_of_app; left; exact Ht).
  unfold run_background_tasks, get_running_task_id, get_running_task, the_cpu. rewrite Hc. cbn [mbind outcome_bind]. unfold the_task at 1. rewrite Hx. cbn [mbind outcome_bind].
  apply (background_loop_takes c (tid x) cpu k Hc); [|intros t Ht; split; [exact Ht|exact (ok_there _ _ Hk t (Hlive t Ht))]]. intros t y Hy Ht Eid.
  assert (A : contents (tasks k) !! tid x = Some t) by (apply (ok_id _ _ Hk); split; [exact (Hlive t Ht)|unfold tids; rewrite Hy; cbn; congruence]).
  assert (B : contents (tasks k) !! tid x = Some (tcb cpu)) by (apply (ok_id _ _ Hk); split; [exact Hon|unfold tids; rewrite Hx; reflexivity]).
  rewrite A in B. injection B as ->. rewrite Hx in Hy. injection Hy as <-. exact Hr.
Qed.
End tasks.

(** ** A machine with one program *)
#[local] Instance plain_env : task_env unit unit := {
  alloc_page fl e := Ok (0x10000, e); free_pages a n e := Ok e; new_memory_space e := Ok (0x5000, e);
  destroy_memory_space a e := Ok e; load_program f e := Ok (1, new_dynamic_object, e); store_at d a l e := Ok e; run_user_code := 0 }.
Definition start : outcome (kernel unit) := m ← hash_map_new 16; setup_first_task 0x2000 (boot_kernel m tt 0x1000).
Definition state_of {A} (f : A -> kernel unit) (o : outcome A) : kernel unit := match o with Ok a => f a | Fault _ => boot_kernel [] tt 0 end.
Definition started : kernel unit := state_of (fun k => k) start.
Definition start_cpu (k : kernel unit) : outcome (kernel unit) := k1 ← add_cpu k; cpu_entry_point (length (cpus k)) k1.
Definition on_cpus (k : kernel unit) : list nat := tcb <$> cpus k.
Definition started_cpu : kernel unit := state_of (fun k => k) (start_cpu started).
Definition started_thread : kernel unit := state_of snd (spawn_thread 0 0x400 0 started_cpu).
(** The second processor has set the flag of the thread and left its own task, which the
    first one has taken. *)
Definition second_claimed : kernel unit := state_of snd (test_and_set 2 started_thread).
Definition second_released : kernel unit := state_of (fun k => k) (release_task 1 second_claimed).
Definition first_claimed : kernel unit := state_of snd (test_and_set 1 second_released).

Lemma started_booted : booted started.
Proof.
  destruct (hash_map_new_ok (K := Z) (D := nat) 4 ltac:(lia)) as (m & Em & Hm & Hc). exists m, tt, 0x1000, 0x2000. split; [exact Hm|]. split; [exact Hc|].
  assert (m = repeat [] 16) as -> by (vm_compute in Em; injection Em as <-; reflexivity). vm_compute. reflexivity.
Qed.

Lemma scheduler_excludes_witness : booted started /\
  rtc sched_step (started, [Running]) (first_claimed, [Claimed 1; Released 2]) /\
  owned first_claimed [Claimed 1; Released 2] = [0%nat; 1%nat; 2%nat] /\
  (forall t c1 c2, holds first_claimed [Claimed 1; Released 2] c1 t -> holds first_claimed [Claimed 1; Released 2] c2 t -> c1 = c2).
Proof.
  assert (R0 : exists k1, add_cpu started = Ok k1 /\ cpu_entry_point (length (cpus started)) k1 = Ok started_cpu)
    by (eexists; split; vm_compute; reflexivity).
  destruct R0 as (k1 & A1 & A2).
  assert (R : rtc sched_step (started, [Running]) (first_claimed, [Claimed 1; Released 2])).
  { transitivity (started_cpu, [Running; Running]);
      [exact (proj2 (proj2 (proj2 (proj2 (scheduler_excludes started started [Running] started_booted (rtc_refl _ _))))) k1 started_cpu eq_refl A1 A2)|].
    cbn [app]. apply (rtc_l _ _ (started_thread, [Running; Running])); [apply (step_thread 0 0x400 0 2); [reflexivity|reflexivity|vm_compute; reflexivity]|].
    apply (rtc_l _ _ (second_claimed, [Running; Claimed 2])).
    { apply (step_try 1 Running 2 false); [reflexivity|left; reflexivity|vm_compute; right; right; left|vm_compute; reflexivity]. }
    apply (rtc_l _ _ (second_released, [Running; Released 2])).
    { apply (step_release 1 2 second_claimed second_released [Running; Claimed 2]); [reflexivity|vm_compute; reflexivity]. }
    apply rtc_once. apply (step_try 0 Running 1 false second_released first_claimed [Running; Released 2]);
      [reflexivity|left; reflexivity|vm_compute; right; left|vm_compute; reflexivity]. }
  split; [exact started_booted|]. split; [exact R|]. split; [vm_compute; reflexivity|].
  exact (proj1 (scheduler_excludes started first_claimed _ started_booted R)).
Defined.

(** The task of a processor is in the map before the processor is started: another one
    can be switched to it meanwhile, and then it is on both, for the new processor does
    not look at what its flag was. *)
Example starting_runs_twice : (k ← start; k ← add_cpu k; k ← yield_to 0 1 k; k ← cpu_entry_point 1 k; Ok (on_cpus k)) = Ok [1%nat; 1%nat].
Proof. vm_compute. reflexivity. Qed.
(** A process that is started with [WAIT_FOR_PROCESS] runs without its flag: another
    processor takes it, and it is on both. *)
Example waiting_runs_twice : (k ← start; k ← start_cpu k; '(_, k) ← spawn_process 0 (Some tt) [] WAIT_FOR_PROCESS k; k ← switch_to_task 1 2 k; Ok (on_cpus k))
  = Ok [2%nat; 2%nat].
Proof. vm_compute. reflexivity. Qed.
(** The next task is looked up by its place in the list instead of its number: after a
    task ends, there is none with that number. *)
Example next_task_missing : (k ← start; '(_, k) ← spawn_thread 0 0 0 k; '(_, k) ← spawn_thread 0 0 0 k; k ← switch_to_task 0 1 k; k ← exit_thread 0 k; run_next_task 0 k)
  = Fault AssertFailed.
Proof. vm_compute. reflexivity. Qed.
(** A process whose parent has ended: when it ends, no process is active and none can be. *)
Example orphan_stops_the_kernel : (k ← start; '(_, k) ← spawn_process 0 (Some tt) [] WAIT_FOR_PROCESS k; '(_, k) ← spawn_process 0 (Some tt) [] WAIT_FOR_PROCESS k;
    k ← switch_to_task 0 1 k; k ← exit_thread 0 k; k ← switch_to_active_task 0 k; k ← exit_thread 0 k; switch_to_active_task 0 k)
  = Fault AssertFailed.
Proof. vm_compute. reflexivity. Qed.
(** The end of a process uses the process after it was deleted. *)
Example exit_after_delete : (k ← start; '(_, k) ← spawn_process 0 (Some tt) [] WAIT_FOR_PROCESS k; k ← exit_process_join 0 k; exit_process_finish 0 k) = Fault UseAfterFree.
Proof. vm_compute. reflexivity. Qed.
(** Another task of the process is switched to without its flag, too. *)
Example joining_runs_twice : (k ← start; k ← start_cpu k; k ← exit_process_join 0 k; Ok (on_cpus k)) = Ok [1%nat; 1%nat].
Proof. vm_compute. reflexivity. Qed.
(** The arguments are copied onto the one page of the new stack, whatever their size. *)
Example long_arguments_underrun : start_stack 0x10000 (5000 + 4) + 12 < 0x10000.
Proof. vm_compute. reflexivity. Qed.
