(* ===== verification/Input.v ===== *)
(** * Keyboard, mouse and input events (api/virtual_keys.h, drivers/at_kbrd.cpp,
    drivers/ps2mouse.cpp, kernel/input.cpp, api/keyboard.c)

    The bytes that the controllers deliver, the time and whether the calling task is the
    active one are arguments. *)
From S2P Require Import Prelude.

Inductive virtual_keycode :=
  | VK_NONE | VK_BACKSPACE | VK_TAB | VK_ENTER | VK_LSHIFT | VK_RSHIFT | VK_LCTRL | VK_RCTRL | VK_LALT | VK_RALT | VK_SPACE | VK_CAPS_LOCK | VK_LEFT
  | VK_UP | VK_RIGHT | VK_DOWN | VK_A | VK_B | VK_C | VK_D | VK_E | VK_F | VK_G | VK_H | VK_I | VK_J | VK_K | VK_L | VK_M | VK_N | VK_O | VK_P | VK_Q
  | VK_R | VK_S | VK_T | VK_U | VK_V | VK_W | VK_X | VK_Y | VK_Z | VK_NUMLOCK | VK_NUMPAD_0 | VK_NUMPAD_1 | VK_NUMPAD_2 | VK_NUMPAD_3 | VK_NUMPAD_4
  | VK_NUMPAD_5 | VK_NUMPAD_6 | VK_NUMPAD_7 | VK_NUMPAD_8 | VK_NUMPAD_9 | VK_NUMPAD_DIVIDE | VK_NUMPAD_MULIPLY | VK_NUMPAD_MINUS | VK_NUMPAD_PLUS
  | VK_NUMPAD_ENTER | VK_NUMPAD_PERIOD | VK_BACKTICK | VK_0 | VK_1 | VK_2 | VK_3 | VK_4 | VK_5 | VK_6 | VK_7 | VK_8 | VK_9 | VK_MINUS | VK_EQUALS
  | VK_COMMA | VK_PERIOD | VK_SLASH | VK_SEMICOLON | VK_APOSTROPHE | VK_LSQR_BRACKET | VK_RSQR_BRACKET | VK_BACKSLASH | VK_LMETA | VK_RMETA | VK_MENU
  | VK_PRINT_SCREEN | VK_SCROLL_LOCK | VK_PAUSE | VK_INSERT | VK_HOME | VK_PAGE_UP | VK_DELETE | VK_END | VK_PAGE_DOWN | VK_ESCAPE | VK_F1 | VK_F2
  | VK_F3 | VK_F4 | VK_F5 | VK_F6 | VK_F7 | VK_F8 | VK_F9 | VK_F10 | VK_F11 | VK_F12 | VK_MEDIA_PREVIOUS | VK_MEDIA_NEXT | VK_MEDIA_PLAY
  | VK_MEDIA_STOP | VK_VOLUME_UP | VK_VOLUME_DOWN | VK_MUTE | VK_CALC | VK_WWW | VK_WWW_SEARCH | VK_WWW_FWD | VK_WWW_BACK | VK_WWW_FAV | VK_WWW_REF
  | VK_WWW_STOP | VK_POWER | VK_SLEEP | VK_WAKE | VK_MYCOMP | VK_MAIL | VK_APPS | VK_MEDIA_SELECT.

(** The number of an enumerator. *)
Definition vk (k : virtual_keycode) : Z :=
  match k with
  | VK_NONE => 0 | VK_BACKSPACE => 1 | VK_TAB => 2 | VK_ENTER => 3 | VK_LSHIFT => 4 | VK_RSHIFT => 5 | VK_LCTRL => 6 | VK_RCTRL => 7 | VK_LALT => 8
  | VK_RALT => 9 | VK_SPACE => 10 | VK_CAPS_LOCK => 11 | VK_LEFT => 12 | VK_UP => 13 | VK_RIGHT => 14 | VK_DOWN => 15 | VK_A => 16 | VK_B => 17
  | VK_C => 18 | VK_D => 19 | VK_E => 20 | VK_F => 21 | VK_G => 22 | VK_H => 23 | VK_I => 24 | VK_J => 25 | VK_K => 26 | VK_L => 27 | VK_M => 28
  | VK_N => 29 | VK_O => 30 | VK_P => 31 | VK_Q => 32 | VK_R => 33 | VK_S => 34 | VK_T => 35 | VK_U => 36 | VK_V => 37 | VK_W => 38 | VK_X => 39
  | VK_Y => 40 | VK_Z => 41 | VK_NUMLOCK => 42 | VK_NUMPAD_0 => 43 | VK_NUMPAD_1 => 44 | VK_NUMPAD_2 => 45 | VK_NUMPAD_3 => 46 | VK_NUMPAD_4 => 47
  | VK_NUMPAD_5 => 48 | VK_NUMPAD_6 => 49 | VK_NUMPAD_7 => 50 | VK_NUMPAD_8 => 51 | VK_NUMPAD_9 => 52 | VK_NUMPAD_DIVIDE => 53
  | VK_NUMPAD_MULIPLY => 54 | VK_NUMPAD_MINUS => 55 | VK_NUMPAD_PLUS => 56 | VK_NUMPAD_ENTER => 57 | VK_NUMPAD_PERIOD => 58 | VK_BACKTICK => 59
  | VK_0 => 60 | VK_1 => 61 | VK_2 => 62 | VK_3 => 63 | VK_4 => 64 | VK_5 => 65 | VK_6 => 66 | VK_7 => 67 | VK_8 => 68 | VK_9 => 69 | VK_MINUS => 70
  | VK_EQUALS => 71 | VK_COMMA => 72 | VK_PERIOD => 73 | VK_SLASH => 74 | VK_SEMICOLON => 75 | VK_APOSTROPHE => 76 | VK_LSQR_BRACKET => 77
  | VK_RSQR_BRACKET => 78 | VK_BACKSLASH => 79 | VK_LMETA => 80 | VK_RMETA => 81 | VK_MENU => 82 | VK_PRINT_SCREEN => 83 | VK_SCROLL_LOCK => 84
  | VK_PAUSE => 85 | VK_INSERT => 86 | VK_HOME => 87 | VK_PAGE_UP => 88 | VK_DELETE => 89 | VK_END => 90 | VK_PAGE_DOWN => 91 | VK_ESCAPE => 92
  | VK_F1 => 93 | VK_F2 => 94 | VK_F3 => 95 | VK_F4 => 96 | VK_F5 => 97 | VK_F6 => 98 | VK_F7 => 99 | VK_F8 => 100 | VK_F9 => 101 | VK_F10 => 102
  | VK_F11 => 103 | VK_F12 => 104 | VK_MEDIA_PREVIOUS => 105 | VK_MEDIA_NEXT => 106 | VK_MEDIA_PLAY => 107 | VK_MEDIA_STOP => 108
  | VK_VOLUME_UP => 109 | VK_VOLUME_DOWN => 110 | VK_MUTE => 111 | VK_CALC => 112 | VK_WWW => 113 | VK_WWW_SEARCH => 114 | VK_WWW_FWD => 115
  | VK_WWW_BACK => 116 | VK_WWW_FAV => 117 | VK_WWW_REF => 118 | VK_WWW_STOP => 119 | VK_POWER => 120 | VK_SLEEP => 121 | VK_WAKE => 122
  | VK_MYCOMP => 123 | VK_MAIL => 124 | VK_APPS => 125 | VK_MEDIA_SELECT => 126
  end.
Definition NUM_VIRTUAL_KEYS : Z := 127.

Definition key_translation_table : list virtual_keycode := [
  VK_NONE; VK_ESCAPE; VK_1; VK_2; VK_3; VK_4; VK_5; VK_6; VK_7; VK_8; VK_9; VK_0; VK_MINUS; VK_EQUALS; VK_BACKSPACE; VK_TAB; VK_Q; VK_W; VK_E; VK_R;
  VK_T; VK_Y; VK_U; VK_I; VK_O; VK_P; VK_LSQR_BRACKET; VK_RSQR_BRACKET; VK_ENTER; VK_LCTRL; VK_A; VK_S; VK_D; VK_F; VK_G; VK_H; VK_J; VK_K; VK_L;
  VK_SEMICOLON; VK_APOSTROPHE; VK_BACKTICK; VK_LSHIFT; VK_BACKSLASH; VK_Z; VK_X; VK_C; VK_V; VK_B; VK_N; VK_M; VK_COMMA; VK_PERIOD; VK_SLASH;
  VK_RSHIFT; VK_NUMPAD_MULIPLY; VK_LALT; VK_SPACE; VK_CAPS_LOCK; VK_F1; VK_F2; VK_F3; VK_F4; VK_F5; VK_F6; VK_F7; VK_F8; VK_F9; VK_F10; VK_NUMLOCK;
  VK_CAPS_LOCK; VK_NUMPAD_7; VK_NUMPAD_8; VK_NUMPAD_9; VK_NUMPAD_MINUS; VK_NUMPAD_4; VK_NUMPAD_5; VK_NUMPAD_6; VK_NUMPAD_PLUS; VK_NUMPAD_1;
  VK_NUMPAD_2; VK_NUMPAD_3; VK_NUMPAD_0; VK_NUMPAD_PERIOD; VK_NONE; VK_NONE; VK_NONE; VK_F11; VK_F12; VK_NONE; VK_NONE; VK_NONE; VK_NONE; VK_NONE;
  VK_NONE; VK_NONE; VK_NONE; VK_NONE; VK_NONE; VK_NONE; VK_NONE; VK_NONE; VK_NONE; VK_NONE; VK_NONE; VK_NONE; VK_NONE; VK_NONE; VK_NONE; VK_NONE;
  VK_NONE; VK_NONE; VK_NONE; VK_NONE; VK_NONE; VK_NONE; VK_NONE; VK_NONE; VK_NONE; VK_NONE; VK_NONE; VK_NONE; VK_NONE; VK_NONE; VK_NONE; VK_NONE;
  VK_NONE; VK_NONE; VK_NONE; VK_NONE; VK_NONE; VK_NONE; VK_NONE; VK_NONE; VK_NONE; VK_NONE; VK_NONE; VK_NONE; VK_NONE; VK_NONE; VK_NONE; VK_NONE;
  VK_NONE; VK_NONE; VK_MEDIA_PREVIOUS; VK_NONE; VK_NONE; VK_NONE; VK_NONE; VK_NONE; VK_NONE; VK_NONE; VK_NONE; VK_MEDIA_NEXT; VK_NONE; VK_NONE;
  VK_NUMPAD_ENTER; VK_RCTRL; VK_NONE; VK_NONE; VK_MUTE; VK_CALC; VK_MEDIA_PLAY; VK_NONE; VK_MEDIA_STOP; VK_NONE; VK_NONE; VK_NONE; VK_NONE; VK_NONE;
  VK_NONE; VK_NONE; VK_NONE; VK_NONE; VK_VOLUME_UP; VK_VOLUME_DOWN; VK_NONE; VK_WWW; VK_NONE; VK_NONE; VK_NONE; VK_NUMPAD_DIVIDE; VK_NONE; VK_NONE;
  VK_RALT; VK_NONE; VK_NONE; VK_NONE; VK_NONE; VK_NONE; VK_NONE; VK_NONE; VK_NONE; VK_NONE; VK_NONE; VK_NONE; VK_NONE; VK_NONE; VK_NONE; VK_HOME;
  VK_UP; VK_PAGE_UP; VK_NONE; VK_LEFT; VK_NONE; VK_RIGHT; VK_NONE; VK_END; VK_DOWN; VK_PAGE_DOWN; VK_INSERT; VK_DELETE; VK_NONE; VK_NONE; VK_NONE;
  VK_NONE; VK_NONE; VK_NONE; VK_NONE; VK_LMETA; VK_RMETA; VK_APPS; VK_POWER; VK_SLEEP; VK_NONE; VK_NONE; VK_NONE; VK_WAKE; VK_NONE; VK_WWW_SEARCH;
  VK_WWW_FAV; VK_WWW_REF; VK_WWW_STOP; VK_WWW_FWD; VK_WWW_BACK; VK_MYCOMP; VK_MAIL; VK_MEDIA_SELECT; VK_NONE; VK_NONE; VK_NONE; VK_NONE; VK_NONE;
  VK_NONE; VK_NONE; VK_NONE; VK_NONE; VK_NONE; VK_NONE; VK_NONE; VK_NONE; VK_NONE; VK_NONE; VK_NONE; VK_NONE; VK_NONE].

(** The characters of the keys, and again with shift. *)
Definition vk_to_ascii : list Z := [
  0; 8; 9; 10; 0; 0; 0; 0; 0; 0; 32; 0; 0; 0; 0; 0; 97; 98; 99; 100; 101; 102; 103; 104; 105; 106; 107; 108; 109; 110; 111; 112; 113; 114; 115; 116;
  117; 118; 119; 120; 121; 122; 0; 48; 49; 50; 51; 52; 53; 54; 55; 56; 57; 47; 42; 45; 43; 10; 46; 96; 48; 49; 50; 51; 52; 53; 54; 55; 56; 57; 45; 61;
  44; 46; 47; 59; 39; 91; 93; 92; 0; 0; 0; 0; 0; 0; 0; 0; 0; 0; 0; 0; 27; 0; 0; 0; 0; 0; 0; 0; 0; 0; 0; 0; 0; 0; 0; 0; 0; 0; 0; 0; 0; 0; 0; 0; 0; 0;
  0; 0; 0; 0; 0; 0; 0; 0; 0; 0; 8; 9; 10; 0; 0; 0; 0; 0; 0; 32; 0; 0; 0; 0; 0; 65; 66; 67; 68; 69; 70; 71; 72; 73; 74; 75; 76; 77; 78; 79; 80; 81; 82;
  83; 84; 85; 86; 87; 88; 89; 90; 0; 48; 49; 50; 51; 52; 53; 54; 55; 56; 57; 47; 42; 45; 43; 10; 46; 126; 41; 33; 64; 35; 36; 37; 94; 38; 42; 40; 95;
  43; 60; 62; 63; 58; 34; 123; 125; 124; 0; 0; 0; 0; 0; 0; 0; 0; 0; 0; 0; 0; 27; 0; 0; 0; 0; 0; 0; 0; 0; 0; 0; 0; 0; 0; 0; 0; 0; 0; 0; 0; 0; 0; 0; 0;
  0; 0; 0; 0; 0; 0; 0; 0; 0; 0; 0].

(** ** Events *)
Inductive event_type := BUTTON_DOWN | BUTTON_UP | KEY_DOWN | KEY_UP | AXIS_MOTION.
#[export] Instance event_type_eq_dec : EqDecision event_type.
Proof. solve_decision. Defined.
Record input_event := mk_event { device_index : Z; control_index : Z; ev_data : Z; ev_type : event_type; time_stamp : Z }.

Definition INPUT_BUFFER_SIZE : Z := 64.
Record input_state := mk_input {
  virtual_keystates : list bool; input_buf_front : Z; input_buf_back : Z; input_buf : list input_event }.

(** The end of the handler: another task is made active, or a waiting one is woken. *)
Inductive wake := RunNextTask | NotifyOne.

Definition is_key (t : event_type) : bool := match t with KEY_DOWN | KEY_UP => true | _ => false end.
Definition enqueue (e : input_event) (s : input_state) : outcome (wake * input_state) :=
  l ← store (input_buf s) (input_buf_front s) e;
  Ok (NotifyOne, mk_input (virtual_keystates s) (add32 (input_buf_front s) 1 mod INPUT_BUFFER_SIZE) (input_buf_back s) l).
Definition handle_input_event (e : input_event) (s : input_state) : outcome (wake * input_state) :=
  if is_key (ev_type e) then
    let down := bool_decide (ev_type e = KEY_DOWN) in
    keys ← store (virtual_keystates s) (ev_data e) down;
    let s := mk_input keys (input_buf_front s) (input_buf_back s) (input_buf s) in
    ralt ← fetch keys (vk VK_RALT);
    lalt ← fetch keys (vk VK_LALT);
    if down && (ev_data e =? vk VK_TAB) && (ralt || lalt) then Ok (RunNextTask, s) else enqueue e s
  else enqueue e s.

Definition do_get_input_event (active : bool) (s : input_state) : outcome (Z * option input_event * input_state) :=
  if active then
    if negb (input_buf_back s =? input_buf_front s) then
      e ← fetch (input_buf s) (input_buf_back s);
      Ok (0, Some e, mk_input (virtual_keystates s) (input_buf_front s) (add32 (input_buf_back s) 1 mod INPUT_BUFFER_SIZE) (input_buf s))
    else Ok (1, None, s)
  else Ok (-1, None, s).
(** [None]: the task waits on the condition variable and tries again. *)
Definition get_input_event (active wait : bool) (s : input_state) : outcome (option (Z * option input_event * input_state)) :=
  '(r, e, s) ← do_get_input_event active s;
  if wait then if negb (r =? 0) then Ok None else Ok (Some (0, e, s)) else Ok (Some (r, e, s)).
Definition get_keystate (active : bool) (key : Z) (s : input_state) : outcome bool :=
  if (NUM_VIRTUAL_KEYS <=? key) || negb active then Ok false else fetch (virtual_keystates s) key.

Definition get_ascii_from_vk (active : bool) (k : Z) (s : input_state) : outcome Z :=
  if k <? NUM_VIRTUAL_KEYS then
    down ← get_keystate active k s;
    if down : bool then
      l ← get_keystate active (vk VK_LSHIFT) s;
      r ← get_keystate active (vk VK_RSHIFT) s;
      fetch vk_to_ascii (if (l : bool) || r then add32 k NUM_VIRTUAL_KEYS else k)
    else Ok 0
  else Ok 0.

(** ** The keyboard: one byte *)
Definition at_keyboard_handler (key_data last_key time : Z) : outcome (option input_event * Z) :=
  if key_data <? 0xE0 then
    let lookup := Z.land key_data 0x7f in
    let key_state := if negb (has key_data 0x80) then KEY_DOWN else KEY_UP in
    let lookup := if last_key =? 0xE0 then u8 (lookup + 128) else lookup in
    k ← fetch key_translation_table lookup;
    Ok (Some (mk_event 0 0 (vk k) key_state time), key_data)
  else Ok (None, key_data).

(** ** The mouse: packets of three or four bytes *)
Definition MOUSE_WHEEL : Z := 3.
Definition MOUSE_5BUTTON : Z := 4.
Record ps2_mouse := mk_mouse { ms_buffer : list Z; buf_index : Z; ms_state : Z }.

Definition button_event (bit control modified new_state time : Z) : list input_event :=
  if has modified (Z.shiftl 1 bit) then [mk_event 0 control 0 (if has new_state 1 then BUTTON_DOWN else BUTTON_UP) time] else [].
Definition handle_mouse_packet (time : Z) (m : ps2_mouse) : outcome (list input_event * ps2_mouse) :=
  new_state ← fetch (ms_buffer m) 0;
  b1 ← fetch (ms_buffer m) 1;
  b2 ← fetch (ms_buffer m) 2;
  let rel_x := b1 - Z.land (Z.shiftl new_state 4) 0x100 in
  let rel_y := b2 - Z.land (Z.shiftl new_state 3) 0x100 in
  let modified := Z.lxor (ms_state m) new_state in
  Ok ((if negb (rel_x =? 0) then [mk_event 0 0 rel_x AXIS_MOTION time] else []) ++
      (if negb (rel_y =? 0) then [mk_event 0 1 (- rel_y) AXIS_MOTION time] else []) ++
      button_event 0 0 modified new_state time ++ button_event 1 1 modified new_state time ++ button_event 2 2 modified new_state time,
    mk_mouse (ms_buffer m) 0 new_state).
Fixpoint mouse_handler (class_ID time : Z) (data : list Z) (m : ps2_mouse) : outcome (list input_event * ps2_mouse) :=
  match data with
  | [] => Ok ([], m)
  | byte :: data =>
    buffer ← store (ms_buffer m) (buf_index m) byte;
    let m := mk_mouse buffer (buf_index m) (ms_state m) in
    let last := if (class_ID =? MOUSE_WHEEL) || (class_ID =? MOUSE_5BUTTON) then 3 else 2 in
    '(evs, m) ← (if buf_index m =? last then handle_mouse_packet time m
                 else Ok ([], mk_mouse (ms_buffer m) (add32 (buf_index m) 1) (ms_state m)));
    '(rest, m) ← mouse_handler class_ID time data m;
    Ok (evs ++ rest, m)
  end.

(** * Events come out in the order they went in *)
Definition pending_count (s : input_state) : Z := (input_buf_front s - input_buf_back s) mod INPUT_BUFFER_SIZE.
Definition pending (s : input_state) : list (option input_event) :=
  map (fun i => input_buf s !! Z.to_nat ((input_buf_back s + i) mod INPUT_BUFFER_SIZE)) (seqZ 0 (pending_count s)).
Record input_ok (s : input_state) : Prop := {
  io_front : 0 <= input_buf_front s < INPUT_BUFFER_SIZE;
  io_back : 0 <= input_buf_back s < INPUT_BUFFER_SIZE;
  io_buf : Z.of_nat (length (input_buf s)) = INPUT_BUFFER_SIZE;
  io_keys : Z.of_nat (length (virtual_keystates s)) = NUM_VIRTUAL_KEYS }.
(** Alt and tab: not an event for the program. *)
Definition switches_task (e : input_event) (s : input_state) : Prop :=
  ev_type e = KEY_DOWN /\ ev_data e = vk VK_TAB /\
  (virtual_keystates s !! Z.to_nat (vk VK_RALT) = Some true \/ virtual_keystates s !! Z.to_nat (vk VK_LALT) = Some true).

(** Indices of the ring: [lia] on remainders by a constant. *)
Ltac ring_lia := unfold INPUT_BUFFER_SIZE in *; Z.to_euclidean_division_equations; lia.

Lemma pending_length s : length (pending s) = Z.to_nat (pending_count s).
Proof. unfold pending. rewrite length_map, length_seqZ. reflexivity. Qed.

Lemma pending_lookup s i : 0 <= i < pending_count s -> pending s !! Z.to_nat i = Some (input_buf s !! Z.to_nat ((input_buf_back s + i) mod INPUT_BUFFER_SIZE)).
Proof.
  intros Hi. unfold pending. change (map ?f ?l) with (f <$> l). rewrite list_lookup_fmap, lookup_seqZ_lt by lia. cbn [fmap option_fmap option_map]. do 4 f_equal. lia.
Qed.

Lemma pending_ext s s' : pending_count s' = pending_count s ->
  (forall i, 0 <= i < pending_count s -> input_buf s' !! Z.to_nat ((input_buf_back s' + i) mod INPUT_BUFFER_SIZE)
     = input_buf s !! Z.to_nat ((input_buf_back s + i) mod INPUT_BUFFER_SIZE)) -> pending s' = pending s.
Proof.
  intros Hc Hl. unfold pending. rewrite Hc. apply map_ext_in. intros i Hi. apply list_elem_of_In, elem_of_seqZ in Hi. apply Hl. lia.
Qed.

Lemma enqueue_spec e s : input_ok s -> exists s', enqueue e s = Ok (NotifyOne, s') /\ input_ok s' /\
  pending s' = if pending_count s <? INPUT_BUFFER_SIZE - 1 then pending s ++ [Some e] else [].
Proof.
  intros [F B L K]. unfold enqueue. destruct (store_in (input_buf s) (input_buf_front s) e) as (l & E & Ll & G); [lia|].
  rewrite (bind_Ok_l _ _ _ E). eexists. split; [reflexivity|]. set (f' := add32 _ _ mod _).
  assert (Hf : f' = (input_buf_front s + 1) mod INPUT_BUFFER_SIZE) by (unfold f'; rewrite add32_small by ring_lia; reflexivity).
  split; [constructor; cbn [input_buf_front input_buf_back input_buf virtual_keystates]; rewrite ?Hf; [ring_lia|ring_lia|lia|exact K]|].
  set (s' := mk_input _ _ _ _). assert (Hc : pending_count s' = (pending_count s + 1) mod INPUT_BUFFER_SIZE)
    by (unfold pending_count; cbn [s' input_buf_front input_buf_back]; rewrite Hf; ring_lia).
  assert (Hp : 0 <= pending_count s < INPUT_BUFFER_SIZE) by (unfold pending_count; ring_lia).
  destruct (Z.ltb_spec (pending_count s) (INPUT_BUFFER_SIZE - 1)) as [Hlt|Hge].
  - assert (Hc' : pending_count s' = pending_count s + 1) by (rewrite Hc; ring_lia). apply list_eq. intros n.
    destruct (Nat.lt_ge_cases n (Z.to_nat (pending_count s'))) as [Hn|Hn].
    + replace n with (Z.to_nat (Z.of_nat n)) by lia. rewrite pending_lookup by lia. cbn [s' input_buf input_buf_back]. rewrite G by ring_lia.
      destruct (Z.eqb_spec ((input_buf_back s + Z.of_nat n) mod INPUT_BUFFER_SIZE) (input_buf_front s)) as [Eq|Hne].
      * rewrite lookup_app_r by (rewrite pending_length; unfold pending_count in *; ring_lia). rewrite pending_length.
        replace (Z.to_nat (Z.of_nat n) - Z.to_nat (pending_count s))%nat with 0%nat by (unfold pending_count in *; ring_lia). reflexivity.
      * rewrite lookup_app_l by (rewrite pending_length; unfold pending_count in *; ring_lia).
        rewrite pending_lookup by (unfold pending_count in *; ring_lia). reflexivity.
    + rewrite !lookup_ge_None_2; [reflexivity|rewrite length_app, pending_length; cbn [length]; lia|rewrite pending_length; lia].
  - assert (Hc' : pending_count s' = 0) by (rewrite Hc; ring_lia). unfold pending. rewrite Hc'. reflexivity.
Qed.

Lemma pending_keys keys s : pending (mk_input keys (input_buf_front s) (input_buf_back s) (input_buf s)) = pending s.
Proof. reflexivity. Qed.

Lemma dequeue_spec s : input_ok s -> match pending s with
  | [] => do_get_input_event true s = Ok (1, None, s)
  | x :: l => exists s', do_get_input_event true s = Ok (0, x, s') /\ input_ok s' /\ pending s' = l
  end.
Proof.
  intros [F B L K]. assert (Hp : 0 <= pending_count s < INPUT_BUFFER_SIZE) by (unfold pending_count; ring_lia).
  unfold do_get_input_event. pose proof (pending_length s) as Hl. destruct (pending s) as [|x l] eqn:Ep; cbn [length] in Hl.
  - rewrite (proj2 (Z.eqb_eq _ _)) by (unfold pending_count in *; ring_lia). reflexivity.
  - rewrite (proj2 (Z.eqb_neq _ _)) by (intros Eq; unfold pending_count in Hl; rewrite Eq, Z.sub_diag in Hl; rewrite Zmod_0_l in Hl; lia). cbn [negb].
    assert (Hx : Some x = Some (input_buf s !! Z.to_nat (input_buf_back s))).
    { transitivity (pending s !! Z.to_nat 0); [rewrite Ep; reflexivity|]. rewrite pending_lookup by lia. do 3 f_equal. ring_lia. }
    injection Hx as Hx. destruct (fetch_in (input_buf s) (input_buf_back s)) as (e & Ef & He); [lia|]. rewrite (bind_Ok_l _ _ _ Ef).
    rewrite He in Hx. subst x. eexists. split; [reflexivity|]. set (b' := add32 _ _ mod _).
    assert (Hb : b' = (input_buf_back s + 1) mod INPUT_BUFFER_SIZE) by (unfold b'; rewrite add32_small by ring_lia; reflexivity).
    split; [constructor; cbn [input_buf_front input_buf_back input_buf virtual_keystates]; rewrite ?Hb; [ring_lia|ring_lia|exact L|exact K]|].
    set (s' := mk_input _ _ _ _). assert (Hc : pending_count s' = pending_count s - 1)
      by (unfold pending_count in *; cbn [s' input_buf_front input_buf_back]; rewrite Hb; ring_lia).
    apply list_eq. intros n. change (l !! n) with ((Some e :: l) !! S n). rewrite <- Ep.
    destruct (Nat.lt_ge_cases n (Z.to_nat (pending_count s'))) as [Hn|Hn].
    + replace n with (Z.to_nat (Z.of_nat n)) at 1 by lia. replace (S n) with (Z.to_nat (Z.of_nat n + 1)) by lia.
      rewrite !pending_lookup by lia. cbn [s' input_buf input_buf_back]. rewrite Hb. do 3 f_equal. ring_lia.
    + rewrite !lookup_ge_None_2; [reflexivity|rewrite Ep; cbn [length]; lia|rewrite pending_length; lia].
Qed.

(** the ring buffer of input events is a queue: reading gives the oldest event and
    removes it, or reports that there is none; an event is added behind the others, and
    alt-tab is no event but switches tasks.  With 63 events pending the next one empties
    the queue. *)
Theorem input_queue s e : input_ok s -> (is_key (ev_type e) = true -> 0 <= ev_data e < NUM_VIRTUAL_KEYS) ->
  match pending s with
  | [] => do_get_input_event true s = Ok (1, None, s)
  | x :: l => exists s', do_get_input_event true s = Ok (0, x, s') /\ input_ok s' /\ pending s' = l
  end /\
  exists w s', handle_input_event e s = Ok (w, s') /\ input_ok s' /\
    (switches_task e s -> w = RunNextTask /\ pending s' = pending s) /\
    (~ switches_task e s -> w = NotifyOne /\ pending s' = if pending_count s <? INPUT_BUFFER_SIZE - 1 then pending s ++ [Some e] else []).
Proof.
  intros Hs He. split; [exact (dequeue_spec s Hs)|]. unfold handle_input_event. destruct (is_key (ev_type e)) eqn:Ek.
  - specialize (He eq_refl). pose proof Hs as [F B L K]. destruct (store_in (virtual_keystates s) (ev_data e) (bool_decide (ev_type e = KEY_DOWN))) as (keys & E & Lk & G); [lia|].
    rewrite (bind_Ok_l _ _ _ E). cbv zeta.
    assert (Hok : input_ok (mk_input keys (input_buf_front s) (input_buf_back s) (input_buf s))) by (constructor; cbn; lia).
    destruct (fetch_in keys (vk VK_RALT)) as (r & Er & Hr); [unfold NUM_VIRTUAL_KEYS in *; cbn; lia|].
    destruct (fetch_in keys (vk VK_LALT)) as (a & Ea & Ha); [unfold NUM_VIRTUAL_KEYS in *; cbn; lia|].
    rewrite (bind_Ok_l _ _ _ Er), (bind_Ok_l _ _ _ Ea).
    assert (Sw : bool_decide (ev_type e = KEY_DOWN) && (ev_data e =? vk VK_TAB) && (r || a) = true <-> switches_task e s).
    { unfold switches_task. rewrite !andb_true_iff, orb_true_iff, bool_decide_eq_true, Z.eqb_eq.
      rewrite G in Hr by (cbn; lia). rewrite G in Ha by (cbn; lia). split.
      - intros [[D T] A]. split; [exact D|]. split; [exact T|]. rewrite T in Hr, Ha. cbn in Hr, Ha. destruct A as [->| ->]; [left|right]; assumption.
      - intros (D & T & A). split; [split; assumption|]. rewrite T in Hr, Ha. cbn in Hr, Ha. cbn in A. rewrite Hr, Ha in A. destruct A as [[= ->]|[= ->]]; [left|right]; reflexivity. }
    destruct (_ && _).
    + eexists RunNextTask, _. split; [reflexivity|]. split; [exact Hok|]. split; [intros _; split; reflexivity|]. intros Hn. contradiction Hn. apply Sw. reflexivity.
    + destruct (enqueue_spec e _ Hok) as (s' & E' & Ok' & P'). exists NotifyOne, s'. split; [exact E'|]. split; [exact Ok'|].
      split; [intros Hn; apply Sw in Hn; discriminate|]. intros _. split; [reflexivity|exact P'].
  - destruct (enqueue_spec e s Hs) as (s' & E' & Ok' & P'). exists NotifyOne, s'. split; [exact E'|]. split; [exact Ok'|].
    split; [intros (D & _); rewrite D in Ek; discriminate|]. intros _. split; [reflexivity|exact P'].
Qed.

Definition no_event : input_event := mk_event 0 0 0 AXIS_MOTION 0.
Definition empty_input : input_state := mk_input (repeat false 127) 0 0 (repeat no_event 64).
Lemma empty_input_ok : input_ok empty_input.
Proof. constructor; vm_compute; split || reflexivity; (reflexivity || discriminate). Qed.
Lemma input_queue_witness : exists s', handle_input_event (mk_event 0 0 (vk VK_A) KEY_DOWN 5) empty_input = Ok (NotifyOne, s') /\
  pending s' = [Some (mk_event 0 0 (vk VK_A) KEY_DOWN 5)].
Proof.
  destruct (input_queue empty_input (mk_event 0 0 (vk VK_A) KEY_DOWN 5) empty_input_ok ltac:(intros _; split; vm_compute; (reflexivity || discriminate))) as (_ & w & s' & E & _ & _ & Hn).
  destruct Hn as [-> P]; [intros (_ & D & _); discriminate|]. exists s'. split; [exact E|]. rewrite P. reflexivity.
Defined.

(** ** Bytes of the keyboard *)
(** A key goes down and up; the keys of the second half of the table have a prefix. *)
Lemma keyboard_decodes c time k : 0 <= c < 0x60 -> key_translation_table !! Z.to_nat c = Some k ->
  at_keyboard_handler c 0 time = Ok (Some (mk_event 0 0 (vk k) KEY_DOWN time), c) /\
  at_keyboard_handler (c + 0x80) 0 time = Ok (Some (mk_event 0 0 (vk k) KEY_UP time), c + 0x80).
Proof.
  intros Hc Hk. unfold at_keyboard_handler, has. change 0x7f with (2 ^ 7 - 1). change 0x80 with (2 ^ 7). rewrite !land_low_mask, !land_pow2_testbit by lia.
  rewrite (small_testbit c 7 7), Z.testbit_eqb by (cbn; lia).
  replace ((c + 2 ^ 7) mod 2 ^ 7) with (c mod 2 ^ 7) by (cbn; Z.to_euclidean_division_equations; lia). rewrite (Z.mod_small c) by (cbn; lia).
  replace ((c + 2 ^ 7) / 2 ^ 7) with 1 by (cbn; Z.to_euclidean_division_equations; lia).
  rewrite !(proj2 (Z.ltb_lt _ _)) by (cbn; lia). cbn [negb Z.eqb Pos.eqb]. assert (E : fetch key_translation_table c = Ok k) by (apply fetch_Ok; [lia|exact Hk]).
  split; rewrite (bind_Ok_l _ _ _ E); reflexivity.
Qed.

(** The table is of the codes of the second set from 0x2F on: there the comments skip a
    code, and the two volume keys are exchanged. *)
Example volume_keys : at_keyboard_handler 0x2E 0xE0 7 = Ok (Some (mk_event 0 0 (vk VK_VOLUME_UP) KEY_DOWN 7), 0x2E) /\
  at_keyboard_handler 0x30 0xE0 7 = Ok (Some (mk_event 0 0 (vk VK_NONE) KEY_DOWN 7), 0x30).
Proof. split; reflexivity. Qed.

(** ** Packets of the mouse *)
(** A movement is a number of nine bits, the ninth with the buttons. *)
Lemma mouse_movement bit state b : 0 <= state < 256 -> 0 <= b < 256 -> 4 <= bit <= 5 ->
  b - Z.land (Z.shiftl state (8 - bit)) 0x100 = if Z.testbit state bit then b - 256 else b.
Proof.
  intros Hs Hb Hbit. change 0x100 with (2 ^ 8). replace (Z.land (Z.shiftl state (8 - bit)) (2 ^ 8)) with (if Z.testbit state bit then 2 ^ 8 else 0); [destruct (Z.testbit state bit); lia|].
  apply Z.bits_inj'. intros i Hi. rewrite Z.land_spec, Z.pow2_bits_eqb, Z.shiftl_spec by lia. destruct (Z.eqb_spec 8 i) as [<-|Hne].
  - replace (8 - (8 - bit)) with bit by lia. rewrite andb_true_r. destruct (Z.testbit state bit); reflexivity.
  - rewrite andb_false_r. destruct (Z.testbit state bit); [apply Z.pow2_bits_false; exact Hne|apply Z.bits_0].
Qed.

Lemma mouse_packet time bs b0 b1 b2 st : bs = [b0; b1; b2; 0] -> 0 <= b0 < 256 -> 0 <= b1 < 256 -> 0 <= b2 < 256 ->
  exists evs, handle_mouse_packet time (mk_mouse bs 2 st) = Ok (evs, mk_mouse bs 0 b0) /\
    (forall e, e ∈ evs -> ev_type e = AXIS_MOTION ->
      (control_index e = 0 /\ ev_data e = if Z.testbit b0 4 then b1 - 256 else b1) \/
      (control_index e = 1 /\ ev_data e = - if Z.testbit b0 5 then b2 - 256 else b2)).
Proof.
  intros -> H0 H1 H2. unfold handle_mouse_packet. cbn [ms_buffer]. eexists. split; [reflexivity|]. intros e He.
  pose proof (mouse_movement 4 b0 b1 H0 H1 ltac:(lia)) as X. pose proof (mouse_movement 5 b0 b2 H0 H2 ltac:(lia)) as Y.
  change (8 - 4) with 4 in X. change (8 - 5) with 3 in Y. rewrite <- X, <- Y. clear X Y. rewrite !elem_of_app in He.
  assert (Hb : forall bit c m, e ∈ button_event bit c m b0 time -> ev_type e <> AXIS_MOTION).
  { intros bit c m Hin. unfold button_event in Hin. destruct (has m _); [|inversion Hin]. apply list_elem_of_singleton in Hin as ->. cbn. destruct (has b0 1); discriminate. }
  destruct He as [He|[He|[He|[He|He]]]]; try (intros Ht; contradiction (Hb _ _ _ He)).
  - destruct (negb _); [|inversion He]. apply list_elem_of_singleton in He as ->. intros _. left. split; reflexivity.
  - destruct (negb _); [|inversion He]. apply list_elem_of_singleton in He as ->. intros _. right. split; reflexivity.
Qed.

(** The right and the middle button report the state of the left one. *)
Example right_button_reads_left : handle_mouse_packet 7 (mk_mouse [0x0a; 0; 0; 0] 2 0x08) = Ok ([mk_event 0 1 0 BUTTON_UP 7], mk_mouse [0x0a; 0; 0; 0] 0 0x0a).
Proof. reflexivity. Qed.
(** The 64th event that is not read removes all of them. *)
Definition sixty_three : input_state := mk_input (repeat false 127) 63 0 (repeat no_event 64).
Example overrun_loses_everything : length (pending sixty_three) = 63%nat /\
  exists s', handle_input_event no_event sixty_three = Ok (NotifyOne, s') /\ pending s' = [].
Proof. split; [reflexivity|]. eexists. split; reflexivity. Qed.
