(* ===== verification/SharedMem.v ===== *)
(** * Shared buffers (kernel/shared_mem.cpp)

    A buffer has a name, physical pages and a count of the handles that are open.  The
    objects are numbered as they are made, a handle is the number plus one; a buffer that
    was removed is [None].  The physical pages come from the memory manager (Paging.v),
    the names are in the kernel's hash map (Hash.v).  Each call is one step. *)
From stdpp Require Import gmap.
From S2P Require Import Prelude PhysMem Paging Hash.

Record shared_buffer := mk_buffer { b_name : list Z; physical : Z; num_pages : Z; b_size : Z; num_refs : Z }.
Record shared_mem := mk_shm { shared_buffers : hash_map (list Z) nat; objects : list (option shared_buffer); memory : mm }.

Definition handle_of (i : nat) : Z := Z.of_nat i + 1.
Definition deref (buf_handle : Z) (s : shared_mem) : outcome (nat * shared_buffer) :=
  let i := Z.to_nat (buf_handle - 1) in
  if buf_handle <=? 0 then Fault PageFault else
  match objects s !! i with Some (Some b) => Ok (i, b) | Some None => Fault UseAfterFree | None => Fault PageFault end.
Definition put_buffer (i : nat) (b : option shared_buffer) (s : shared_mem) : shared_mem :=
  mk_shm (shared_buffers s) (<[i := b]> (objects s)) (memory s).
Definition set_refs (n : Z) (b : shared_buffer) : shared_buffer := mk_buffer (b_name b) (physical b) (num_pages b) (b_size b) n.

Definition create_shared_buffer (name : list Z) (size : Z) (s : shared_mem) : outcome (Z * shared_mem) :=
  let i := length (objects s) in
  '(d, m) ← emplace_key name i (shared_buffers s);
  match d with
  | None => Ok (0, s)
  | Some _ =>
    let pages := memmanager_minimum_pages size in
    '(p, mem) ← phys_allocate (mul32 pages PAGE_SIZE) PAGE_SIZE (memory s);
    let s := mk_shm m (objects s ++ [Some (mk_buffer name p pages size 1)]) mem in
    Ok (if negb (p =? 0) then handle_of i else 0, s)
  end.
Definition open_shared_buffer (name : list Z) (s : shared_mem) : outcome (Z * shared_mem) :=
  d ← lookup_key name (shared_buffers s);
  match d with
  | None => Ok (0, s)
  | Some i => '(_, b) ← deref (handle_of i) s; Ok (handle_of i, put_buffer i (Some (set_refs (add32 (num_refs b) 1) b)) s)
  end.
Definition close_shared_buffer (buf_handle : Z) (s : shared_mem) : outcome shared_mem :=
  '(i, b) ← deref buf_handle s;
  let b := set_refs (sub32 (num_refs b) 1) b in
  if num_refs b =? 0 then
    '(_, mem) ← phys_free (physical b) (mul32 (num_pages b) PAGE_SIZE) (memory s);
    m ← remove_key (b_name b) (shared_buffers s);
    Ok (mk_shm m (<[i := None]> (objects s)) mem)
  else Ok (put_buffer i (Some b) s).
Definition map_shared_buffer (buf_handle size flags : Z) (s : shared_mem) : outcome (Z * shared_mem) :=
  '(_, b) ← deref buf_handle s;
  if b_size b <? size then Ok (0, s) else
  '(a, mem) ← memmanager_map_to_new_pages (physical b) (memmanager_minimum_pages size) (Z.lor (Z.lor PAGE_USER PAGE_PRESENT) flags) (memory s);
  Ok (a, mk_shm (shared_buffers s) (objects s) mem).

(** * A buffer is there as long as a handle is open *)
Record shm_ok (s : shared_mem) : Prop := {
  so_map : map_ok (shared_buffers s);
  so_there : forall name i, contents (shared_buffers s) !! name = Some i <-> exists b, objects s !! i = Some (Some b) /\ b_name b = name }.

(** What is under a name. *)
Definition buffer_of (s : shared_mem) (name : list Z) : option shared_buffer :=
  i ← contents (shared_buffers s) !! name; mjoin (objects s !! i).

Lemma deref_handle s i b : objects s !! i = Some (Some b) -> deref (handle_of i) s = Ok (i, b).
Proof.
  intros Hb. unfold deref, handle_of. rewrite (proj2 (Z.leb_gt _ _)) by lia. replace (Z.to_nat (Z.of_nat i + 1 - 1)) with i by lia. rewrite Hb. reflexivity.
Qed.
Lemma deref_inv s h i b : deref h s = Ok (i, b) -> objects s !! i = Some (Some b) /\ h = handle_of i.
Proof.
  unfold deref, handle_of. destruct (Z.leb_spec h 0); [discriminate|]. destruct (objects s !! Z.to_nat (h - 1)) as [[x|]|] eqn:Ex; try discriminate.
  intros [= <- <-]. split; [exact Ex|lia].
Qed.

Lemma buffer_of_there s name b : shm_ok s -> buffer_of s name = Some b <-> exists i, objects s !! i = Some (Some b) /\ b_name b = name.
Proof.
  intros Hs. unfold buffer_of. split.
  - destruct (contents (shared_buffers s) !! name) as [i|] eqn:Ei; [|discriminate]. cbn. intros Hb. pose proof (proj1 (so_there s Hs name i) Ei) as (b' & Hb' & En).
    rewrite Hb' in Hb. injection Hb as ->. exists i. split; assumption.
  - intros (i & Hb & En). rewrite (proj2 (so_there s Hs name i)) by (exists b; split; assumption). cbn. rewrite Hb. reflexivity.
Qed.

(** Replacing a live buffer by one of the same name. *)
Lemma put_buffer_ok s i b b' : shm_ok s -> objects s !! i = Some (Some b) -> b_name b' = b_name b ->
  shm_ok (put_buffer i (Some b') s) /\ forall name, buffer_of (put_buffer i (Some b') s) name = if decide (name = b_name b) then Some b' else buffer_of s name.
Proof.
  intros Hs Hb En. pose proof (lookup_lt_Some _ _ _ Hb) as Hlt.
  assert (Hok : shm_ok (put_buffer i (Some b') s)).
  { constructor; [exact (so_map s Hs)|]. intros name j. cbn [shared_buffers objects put_buffer]. rewrite (so_there s Hs). split.
    - intros (x & Hx & Hn). destruct (decide (j = i)) as [->|Hne].
      + rewrite list_lookup_insert_eq by exact Hlt. exists b'. split; [reflexivity|congruence].
      + rewrite list_lookup_insert_ne by congruence. exists x. split; assumption.
    - intros (x & Hx & Hn). apply list_lookup_insert_Some in Hx as [(<- & [= <-] & _)|(Hne & Hx)]; [exists b; split; [exact Hb|congruence]|exists x; split; assumption]. }
  split; [exact Hok|]. intros name. unfold buffer_of. cbn [shared_buffers objects put_buffer].
  destruct (decide (name = b_name b)) as [->|Hne].
  - rewrite (proj2 (so_there s Hs (b_name b) i)) by (exists b; split; [exact Hb|reflexivity]). cbn. rewrite list_lookup_insert_eq by exact Hlt. reflexivity.
  - destruct (contents (shared_buffers s) !! name) as [j|] eqn:Ej; [|reflexivity]. cbn. rewrite list_lookup_insert_ne; [reflexivity|]. intros <-.
    apply (so_there s Hs) in Ej as (x & Hx & Hn). congruence.
Qed.

Lemma create_ok name size s h s' : shm_ok s -> create_shared_buffer name size s = Ok (h, s') ->
  match buffer_of s name with
  | Some _ => h = 0 /\ s' = s
  | None => shm_ok s' /\ exists b, b_name b = name /\ num_refs b = 1 /\ b_size b = size /\ num_pages b = memmanager_minimum_pages size /\
      (forall n, buffer_of s' n = if decide (n = name) then Some b else buffer_of s n) /\ (physical b <> 0 -> exists i, deref h s' = Ok (i, b))
  end.
Proof.
  intros Hs He. unfold create_shared_buffer in He. pose proof (emplace_spec name (length (objects s)) (shared_buffers s) (so_map s Hs)) as Hi. unfold refines_insert in Hi.
  unfold buffer_of at 1. destruct (contents (shared_buffers s) !! name) as [i|] eqn:Ei.
  - rewrite (bind_Ok_l _ _ _ Hi) in He. injection He as <- <-. apply (so_there s Hs) in Ei as (b & Hb & _). cbn. rewrite Hb. split; reflexivity.
  - destruct Hi as (m & Em & M1 & M2). rewrite (bind_Ok_l _ _ _ Em) in He. apply bind_Ok in He as ([p mem] & _ & He). injection He as <- <-. cbn [mbind option_bind].
    set (b := mk_buffer name p (memmanager_minimum_pages size) size 1). set (s' := mk_shm _ _ _).
    assert (Hlook : forall j, objects s' !! j = if decide (j = length (objects s)) then Some (Some b) else objects s !! j).
    { intros j. cbn [s' objects]. destruct (decide (j = length (objects s))) as [->|Hne]; [rewrite lookup_app_r, Nat.sub_diag by lia; reflexivity|].
      destruct (Nat.lt_ge_cases j (length (objects s))); [rewrite lookup_app_l by lia; reflexivity|].
      rewrite !lookup_ge_None_2; [reflexivity|lia|rewrite length_app; cbn; lia]. }
    assert (Hok : shm_ok s').
    { constructor; [exact M1|]. intros n j. cbn [s' shared_buffers]. rewrite M2. fold s'. rewrite Hlook.
      destruct (decide (n = name)) as [->|Hn].
      - rewrite lookup_insert_eq. destruct (decide (j = length (objects s))) as [->|Hj].
        + split; [intros _; exists b; split; reflexivity|reflexivity].
        + split; [intros [= <-]; contradiction|]. intros Hx. apply (so_there s Hs) in Hx. congruence.
      - rewrite lookup_insert_ne by congruence. rewrite (so_there s Hs). destruct (decide (j = length (objects s))) as [->|Hj]; [|reflexivity].
        rewrite lookup_ge_None_2 by lia. split; [intros (x & Hx & _); discriminate|intros (x & [= <-] & Hx)]. contradiction Hn. symmetry. exact Hx. }
    split; [exact Hok|]. exists b. do 4 (split; [reflexivity|]). split.
    + intros n. unfold buffer_of. cbn [s' shared_buffers]. rewrite M2. fold s'. destruct (decide (n = name)) as [->|Hn].
      * rewrite lookup_insert_eq. cbn [mbind option_bind]. rewrite Hlook, decide_True by reflexivity. reflexivity.
      * rewrite lookup_insert_ne by congruence. destruct (contents (shared_buffers s) !! n) as [j|] eqn:Ej; [|reflexivity]. cbn [mbind option_bind]. rewrite Hlook, decide_False; [reflexivity|].
        intros ->. apply (so_there s Hs) in Ej as (x & Hx & _). rewrite lookup_ge_None_2 in Hx by lia. discriminate.
    + intros Hp. cbn [physical b] in Hp. rewrite (proj2 (Z.eqb_neq _ _) Hp). exists (length (objects s)). apply deref_handle. rewrite Hlook, decide_True by reflexivity. reflexivity.
Qed.

Lemma open_ok name s : shm_ok s -> match buffer_of s name with
  | None => open_shared_buffer name s = Ok (0, s)
  | Some b => exists h s' i, open_shared_buffer name s = Ok (h, s') /\ shm_ok s' /\ deref h s' = Ok (i, set_refs (add32 (num_refs b) 1) b) /\
      forall n, buffer_of s' n = if decide (n = name) then Some (set_refs (add32 (num_refs b) 1) b) else buffer_of s n
  end.
Proof.
  intros Hs. unfold open_shared_buffer. rewrite (bind_Ok_l _ _ _ (lookup_spec _ _ (so_map s Hs))). unfold buffer_of at 1.
  destruct (contents (shared_buffers s) !! name) as [i|] eqn:Ei; [|reflexivity]. apply (so_there s Hs) in Ei as (b & Hb & En). cbn [mbind option_bind]. rewrite Hb. cbn [mjoin option_join].
  rewrite (deref_handle s i b Hb). cbn [mbind outcome_bind]. destruct (put_buffer_ok s i b (set_refs (add32 (num_refs b) 1) b) Hs Hb eq_refl) as [P1 P2].
  eexists _, _, i. split; [reflexivity|]. split; [exact P1|]. split; [|intros n; rewrite P2, En; reflexivity].
  apply deref_handle. cbn [put_buffer objects]. apply list_lookup_insert_eq. exact (lookup_lt_Some _ _ _ Hb).
Qed.

Lemma close_ok h i b s s' : shm_ok s -> deref h s = Ok (i, b) -> 1 <= num_refs b < 2 ^ 32 -> close_shared_buffer h s = Ok s' ->
  shm_ok s' /\ forall n, buffer_of s' n =
    if decide (n = b_name b) then (if num_refs b =? 1 then None else Some (set_refs (num_refs b - 1) b)) else buffer_of s n.
Proof.
  intros Hs Hd Hr He. unfold close_shared_buffer in He. rewrite (bind_Ok_l _ _ _ Hd) in He. cbn [num_refs set_refs] in He. rewrite (sub32_small (num_refs b) 1) in He by lia.
  apply deref_inv in Hd as [Hb ->]. pose proof (lookup_lt_Some _ _ _ Hb) as Hlt. destruct (Z.eqb_spec (num_refs b - 1) 0) as [E|Hn].
  - rewrite (proj2 (Z.eqb_eq (num_refs b) 1)) by lia. apply bind_Ok in He as ([u mem] & _ & He). destruct (remove_spec (b_name b) (shared_buffers s) (so_map s Hs)) as (m & Em & M1 & M2).
    cbn [b_name set_refs] in He. rewrite (bind_Ok_l _ _ _ Em) in He. injection He as <-. split.
    + constructor; [exact M1|]. intros name j. cbn [shared_buffers objects]. rewrite M2. destruct (decide (name = b_name b)) as [->|Hne].
      * rewrite lookup_delete_eq. split; [discriminate|]. intros (x & Hx & Hn). apply list_lookup_insert_Some in Hx as [(_ & [=] & _)|(Hj & Hx)].
        assert (A : contents (shared_buffers s) !! b_name b = Some j) by (apply (so_there s Hs); exists x; split; assumption).
        assert (B : contents (shared_buffers s) !! b_name b = Some i) by (apply (so_there s Hs); exists b; split; [exact Hb|reflexivity]). congruence.
      * rewrite lookup_delete_ne by congruence. rewrite (so_there s Hs). split.
        -- intros (x & Hx & Hn). exists x. rewrite list_lookup_insert_ne; [split; assumption|]. intros <-. congruence.
        -- intros (x & Hx & Hn). apply list_lookup_insert_Some in Hx as [(_ & [=] & _)|(Hj & Hx)]. exists x. split; assumption.
    + intros name. unfold buffer_of. cbn [shared_buffers objects]. rewrite M2. destruct (decide (name = b_name b)) as [->|Hne].
      * rewrite lookup_delete_eq. reflexivity.
      * rewrite lookup_delete_ne by congruence. destruct (contents (shared_buffers s) !! name) as [j|] eqn:Ej; [|reflexivity]. cbn [mbind option_bind].
        rewrite list_lookup_insert_ne; [reflexivity|]. intros <-. apply (so_there s Hs) in Ej as (x & Hx & Hn). congruence.
  - rewrite (proj2 (Z.eqb_neq (num_refs b) 1)) by lia. injection He as <-. exact (put_buffer_ok s i b (set_refs (num_refs b - 1) b) Hs Hb eq_refl).
Qed.

(** shared buffers: a name that is taken is not created again, otherwise it names one
    new buffer with one handle; opening adds a handle; closing takes one away, and with
    the last one the buffer and its name are gone.  Other names are not changed. *)
Theorem shared_buffers_counted s : shm_ok s ->
  (forall name size h s', create_shared_buffer name size s = Ok (h, s') -> match buffer_of s name with
    | Some _ => h = 0 /\ s' = s
    | None => shm_ok s' /\ exists b, b_name b = name /\ num_refs b = 1 /\ b_size b = size /\ num_pages b = memmanager_minimum_pages size /\
        (forall n, buffer_of s' n = if decide (n = name) then Some b else buffer_of s n) /\ (physical b <> 0 -> exists i, deref h s' = Ok (i, b))
    end) /\
  (forall name, match buffer_of s name with
    | None => open_shared_buffer name s = Ok (0, s)
    | Some b => exists h s' i, open_shared_buffer name s = Ok (h, s') /\ shm_ok s' /\ deref h s' = Ok (i, set_refs (add32 (num_refs b) 1) b) /\
        forall n, buffer_of s' n = if decide (n = name) then Some (set_refs (add32 (num_refs b) 1) b) else buffer_of s n
    end) /\
  (forall h i b s', deref h s = Ok (i, b) -> 1 <= num_refs b < 2 ^ 32 -> close_shared_buffer h s = Ok s' ->
    shm_ok s' /\ forall n, buffer_of s' n =
      if decide (n = b_name b) then (if num_refs b =? 1 then None else Some (set_refs (num_refs b - 1) b)) else buffer_of s n).
Proof.
  intros Hs. split; [intros name size h s'; exact (create_ok name size s h s' Hs)|]. split; [intros name; exact (open_ok name s Hs)|].
  intros h i b s'. exact (close_ok h i b s s' Hs).
Qed.

(** ** One page of memory *)
Definition one_page : mm := mk_mm 0 (fun _ => 0) [mk_block 0x5000 0x1000] 0.
Definition no_buffers : shared_mem := mk_shm (repeat [] 16) [] one_page.

Lemma no_buffers_ok : shm_ok no_buffers.
Proof.
  destruct (hash_map_new_ok (K := list Z) (D := nat) 4 ltac:(lia)) as (m & Em & Hm & Hc).
  assert (m = repeat [] 16) as -> by (vm_compute in Em; injection Em as <-; reflexivity).
  constructor; [exact Hm|]. intros name i. cbn [no_buffers shared_buffers objects]. rewrite Hc, lookup_empty. split; [discriminate|intros (b & Hb & _); discriminate].
Qed.

Definition with_buffer : shared_mem := match create_shared_buffer [116] 0x800 no_buffers with Ok (_, s) => s | Fault _ => no_buffers end.
Lemma shared_buffers_counted_witness : create_shared_buffer [116] 0x800 no_buffers = Ok (1, with_buffer) /\ shm_ok with_buffer /\
  exists s', close_shared_buffer 1 with_buffer = Ok s' /\ buffer_of s' [116] = None.
Proof.
  assert (E : create_shared_buffer [116] 0x800 no_buffers = Ok (1, with_buffer)) by (vm_compute; reflexivity).
  destruct (proj1 (shared_buffers_counted no_buffers no_buffers_ok) [116] 0x800 1 with_buffer E) as (Hok & _).
  destruct (close_shared_buffer 1 with_buffer) as [s'|] eqn:Ec; [|vm_compute in Ec; discriminate].
  pose proof (proj2 (proj2 (shared_buffers_counted with_buffer Hok)) 1 0%nat (mk_buffer [116] 0x5000 1 0x800 1) s' ltac:(vm_compute; reflexivity) ltac:(cbn; lia) Ec) as [_ G].
  split; [exact E|]. split; [exact Hok|]. exists s'. split; [reflexivity|]. rewrite G. reflexivity.
Defined.

(** Without memory the buffer stays under its name, with physical address 0; the next
    program that opens it gets page 0 of the machine. *)
Example failed_buffer_stays : exists s h s', create_shared_buffer [116] 0x2000 no_buffers = Ok (0, s) /\ open_shared_buffer [116] s = Ok (h, s') /\
  exists i b, deref h s' = Ok (i, b) /\ physical b = 0.
Proof.
  eexists _, _, _. split; [vm_compute; reflexivity|]. split; [vm_compute; reflexivity|]. eexists _, _. split; vm_compute; reflexivity.
Qed.
