(* ===== verification/StdioFile.v ===== *)
(** * Files of the C library (clib/stdio.cpp: fopen to fclose, remove, rename)

    [file_calls] are the system calls of api/sys/syscalls.h that these functions use;
    [kernel_calls] puts the kernel's own handlers behind them.  [file_laws] is what a
    system of files promises: a path has contents, a write is seen by others once the
    stream is closed.  A [FILE] is the [fs_file] that [fopen] allocates. *)
From S2P Require Import Prelude Vfs Streams Directory.
From stdpp Require Export gmap.
#[local] Open Scope Z_scope.

Definition EOF : Z := 4.
Definition SEEK_SET : Z := 0.
Definition SEEK_CUR : Z := 1.
Definition SEEK_END : Z := 2.

Class file_calls (S : Type) := {
  fc_handle : Type; fc_stream : Type; fc_dir : Type;
  find_path : option fc_dir -> list Z -> Z -> Z -> S -> outcome (option fc_handle * S);
  open_dir : option fc_dir -> list Z -> Z -> S -> outcome (option fc_dir * S);
  open_file_handle : fc_handle -> Z -> S -> outcome (option fc_stream * S);
  (** the result, the size and the flags *)
  get_file_info : fc_handle -> S -> outcome (Z * Z * Z);
  read : Z -> Z -> option fc_stream -> S -> outcome (Z * list Z * S);
  write : Z -> list Z -> fc_stream -> S -> outcome (Z * fc_stream * S);
  close : fc_stream -> S -> outcome (Z * S);
  delete_file : fc_handle -> S -> outcome (Z * S) }.

Section stdio.
Context {S : Type} {FC : file_calls S}.

Record FILE := mk_FILE { f_offset : Z; f_info_size : Z; f_file : fc_stream }.
Definition set_offset (o : Z) (f : FILE) : FILE := mk_FILE o (f_info_size f) (f_file f).

(** ** Opening *)
Definition ends_with (c : Z) (s : list Z) : bool := match last s with Some d => d =? c | None => false end.
Definition strip_b (mode : list Z) : list Z := if ends_with 98 mode then take (length mode - 1) mode else mode.
(** The flags, and whether to append. *)
Definition mode_flags (mode : list Z) : Z * bool :=
  if bool_decide (mode = [119]) then (Z.lor FILE_CREATE FILE_WRITE, false)                                    (* w *)
  else if bool_decide (mode = [97]) then (Z.lor FILE_CREATE FILE_WRITE, true)                                 (* a *)
  else if bool_decide (mode = [114; 43]) then (Z.lor FILE_READ FILE_WRITE, false)                             (* r+ *)
  else if bool_decide (mode = [119; 43]) then (Z.lor (Z.lor FILE_CREATE FILE_READ) FILE_WRITE, false)         (* w+ *)
  else if bool_decide (mode = [97; 43]) then (FILE_READ, true)                                                (* a+ *)
  else if bool_decide (mode = [114]) then (FILE_READ, false)                                                  (* r *)
  else (0, false).

Definition fopen (s_cwd : list Z) (file : list Z) (mode : option (list Z)) (s : S) : outcome (option FILE * S) :=
  match mode with
  | None => Ok (None, s)
  | Some mode =>
    let '(flags, append) := mode_flags (strip_b mode) in
    '(cwd_dir, s) ← (if bool_decide (s_cwd = []) then Ok (None, s) else open_dir None s_cwd 0 s);
    '(handle, s) ← find_path cwd_dir file flags 0 s;
    match handle with
    | None => Ok (None, s)
    | Some handle =>
      '(st, s) ← open_file_handle handle flags s;
      match st with
      | None => Ok (None, s)
      | Some st =>
        '(_, size, _) ← get_file_info handle s;
        Ok (Some (mk_FILE (if append : bool then size else 0) size st), s)
      end
    end
  end.

(** ** Position: [long int] is 32 bits wide, a [file_size_t] 64. *)
Definition ftell (f : FILE) : Z := s32 (f_offset f).
Definition fseek (offset origin : Z) (f : FILE) : Z * FILE :=
  if origin =? SEEK_SET then (0, set_offset (u64 offset) f)
  else if origin =? SEEK_CUR then (0, set_offset (u64 (f_offset f + offset)) f)
  else if origin =? SEEK_END then (0, set_offset (u64 (f_info_size f + offset)) f)
  else (-1, f).
Definition fflush (f : FILE) : Z := 0.

(** ** Reading and writing: what [m_read] and [m_write] of the file do *)
Definition fs_write (buf : list Z) (f : FILE) (s : S) : outcome (Z * FILE * S) :=
  '(amt, st, s) ← write (f_offset f) buf (f_file f) s;
  Ok (amt, mk_FILE (u64 (f_offset f + amt)) (f_info_size f) st, s).
Definition fs_read (size : Z) (f : FILE) (s : S) : outcome (Z * list Z * FILE * S) :=
  '(amt, data, s) ← read (f_offset f) size (Some (f_file f)) s;
  Ok (amt, data, set_offset (u64 (f_offset f + amt)) f, s).
Definition fread (size count : Z) (f : FILE) (s : S) : outcome (Z * list Z * FILE * S) := fs_read (mul32 size count) f s.
(** The buffer must have the bytes. *)
Definition fwrite (ptr : list Z) (size count : Z) (f : FILE) (s : S) : outcome (Z * FILE * S) :=
  let n := mul32 size count in
  if Z.of_nat (length ptr) <? n then Fault OutOfBounds else fs_write (take (Z.to_nat n) ptr) f s.
Definition fclose (f : FILE) (s : S) : outcome (Z * S) := close (f_file f) s.

(** ** By name: both look the path up from the root. *)
Definition remove (filename : list Z) (s : S) : outcome (Z * S) :=
  '(f, s) ← find_path None filename 0 0 s;
  match f with
  | Some f => '(_, s) ← delete_file f s; Ok (0, s)
  | None => Ok (-1, s)
  end.
(** [open] *)
Definition open_path (path : list Z) (mode : Z) (s : S) : outcome (option fc_stream * S) :=
  '(h, s) ← find_path None path mode 0 s;
  match h with Some h => open_file_handle h mode s | None => Ok (None, s) end.
(** The contents go through a buffer of the file's size; the streams are not closed.
    Bytes that the read does not fill are not defined. *)
Definition rename (old_path new_path : list Z) (s : S) : outcome (Z * S) :=
  '(old_handle, s) ← find_path None old_path 0 0 s;
  match old_handle with
  | None => Ok (-1, s)
  | Some old_handle =>
    '(err, size, flags) ← get_file_info old_handle s;
    if (err =? 0) && negb (has flags IS_DIR) then
      '(old_file, s) ← open_file_handle old_handle 0 s;
      '(new_file, s) ← open_path new_path (Z.lor FILE_WRITE FILE_CREATE) s;
      match new_file with
      | None => Ok (0, s)
      | Some new_file =>
        '(_, dataBuf, s) ← read 0 (u32 size) old_file s;
        if Z.of_nat (length dataBuf) <? u32 size then Fault OutOfBounds else
        '(_, _, s) ← write 0 dataBuf new_file s;
        '(_, s) ← delete_file old_handle s;
        Ok (0, s)
      end
    else Ok (0, s)
  end.
End stdio.
Arguments FILE : clear implicits.
Arguments FILE S {FC}.

(** ** The kernel behind the calls *)
Section kernel.
Context {S : Type}.
Definition kernel_get_drive (g : registry S) (disk : Z) (s : S) : outcome (bool * filesystem_driver S) :=
  '(d, f) ← filesystem_get_drive disk g; Ok (vd_read_only d, f).
Definition kernel_calls : file_calls (registry S) := {|
  fc_handle := file_handle; fc_stream := file_stream; fc_dir := directory_stream;
  find_path d p m fl g := syscall_find_file_by_path d (Some p) m fl g;
  open_dir d p m g := '(f, g) ← syscall_find_file_by_path d (Some p) m IS_DIR g; syscall_open_directory_handle f g;
  open_file_handle h m g := st ← syscall_open_file_handle (drive_read_only g) (Some h) m; Ok (st, g);
  get_file_info h g := '(r, i) ← filesystem_get_file_info h; Ok (r, fi_size i, fi_flags i);
  read off len st g := with_store g (syscall_read_file (kernel_get_drive g) off len st);
  write off buf st g :=
    '(n, st', s) ← syscall_write_file (kernel_get_drive g) off buf (Some st) (r_store g);
    Ok (n, default st st', set_store s g);
  close st g := with_store g (syscall_close_file (kernel_get_drive g) (Some st));
  delete_file h g := syscall_delete_file (Some h) g |}.
#[export] Existing Instance kernel_calls.
End kernel.

(** ** What a system of files promises

    [files] are the contents by path; [opened s st p c w] says that [st] is open on [p],
    shows the contents [c] and, with [w], takes writes.  A read may change the state
    (the caches do), not the files. *)
Definition splice (c : list Z) (off : Z) (buf : list Z) : list Z :=
  take (Z.to_nat off) c ++ buf ++ drop (Z.to_nat off + length buf) c.

Class file_laws (S : Type) {FC : file_calls S} := {
  files : S -> gmap (list Z) (list Z);
  good_path : list Z -> Prop;
  refused : list Z -> Z -> Prop;
  capacity : Z;
  handle_of : S -> fc_handle -> list Z -> Prop;
  opened : S -> fc_stream -> list Z -> list Z -> bool -> Prop;
  capacity_range : 0 <= capacity < 2 ^ 32;
  find_law p m s : good_path p -> exists r s', find_path None p m 0 s = Ok (r, s') /\
    files s' = (if has m FILE_CREATE then <[p := default [] (files s !! p)]> (files s) else files s) /\
    match files s' !! p with Some _ => exists h, r = Some h /\ handle_of s' h p | None => r = None end;
  open_law p m h c s : handle_of s h p -> files s !! p = Some c -> ~ refused p m ->
    exists st, open_file_handle h m s = Ok (Some st, s) /\ opened s st p c (has m FILE_WRITE);
  info_law p h c s : handle_of s h p -> files s !! p = Some c ->
    exists fl, get_file_info h s = Ok (0, Z.of_nat (length c), fl) /\ has fl IS_DIR = false;
  read_law p c w st off len s : opened s st p c w -> 0 <= off -> is_u32 len ->
    exists s', read off len (Some st) s =
        Ok (Z.of_nat (length (take (Z.to_nat len) (drop (Z.to_nat off) c))), take (Z.to_nat len) (drop (Z.to_nat off) c), s') /\
      files s' = files s /\ opened s' st p c w;
  write_law p c st off buf s : opened s st p c true -> 0 <= off <= Z.of_nat (length c) ->
    off + Z.of_nat (length buf) <= capacity ->
    exists st' s', write off buf st s = Ok (Z.of_nat (length buf), st', s') /\
      opened s' st' p (splice c off buf) true /\ delete p (files s') = delete p (files s);
  close_law p c w st s : opened s st p c w ->
    exists s', close st s = Ok (0, s') /\ files s' = if w then <[p := c]> (files s) else files s }.

(** ** Using them: write pieces one after the other, read a file whole *)
Section uses.
Context {S : Type} {FC : file_calls S}.
Fixpoint fwrite_pieces (pieces : list (list Z)) (f : FILE S) (s : S) : outcome (FILE S * S) :=
  match pieces with
  | [] => Ok (f, s)
  | p :: pieces => '(_, f, s) ← fwrite p 1 (Z.of_nat (length p)) f s; fwrite_pieces pieces f s
  end.
(** [false] when the file does not open. *)
Definition write_file (s_cwd path mode : list Z) (pieces : list (list Z)) (s : S) : outcome (bool * S) :=
  '(f, s) ← fopen s_cwd path (Some mode) s;
  match f with
  | None => Ok (false, s)
  | Some f => '(f, s) ← fwrite_pieces pieces f s; '(_, s) ← fclose f s; Ok (true, s)
  end.
(** The size by going to the end, then [std::string buffer; buffer.resize(size)]. *)
Definition read_file (s_cwd path : list Z) (s : S) : outcome (option (list Z) * S) :=
  '(f, s) ← fopen s_cwd path (Some [114; 98]) s;
  match f with
  | None => Ok (None, s)
  | Some f =>
    let '(_, f) := fseek 0 SEEK_END f in
    let size := u32 (ftell f) in
    let '(_, f) := fseek 0 SEEK_SET f in
    '(_, data, f, s) ← fread 1 size f s;
    '(_, s) ← fclose f s;
    Ok (Some (data ++ repeat 0 (Z.to_nat size - length data)), s)
  end.
End uses.

Section laws.
Context {S : Type} {FC : file_calls S} {FL : file_laws S}.

Lemma splice_splice c off a b : 0 <= off <= Z.of_nat (length c) ->
  splice (splice c off a) (off + Z.of_nat (length a)) b = splice c off (a ++ b).
Proof.
  intros H. unfold splice.
  assert (L : length (take (Z.to_nat off) c ++ a) = Z.to_nat (off + Z.of_nat (length a))).
  { rewrite length_app, length_take. lia. }
  assert (E : take (Z.to_nat off) c ++ a ++ drop (Z.to_nat off + length a) c
              = (take (Z.to_nat off) c ++ a) ++ drop (Z.to_nat off + length a) c) by now rewrite app_assoc.
  rewrite E, <- L, take_app_length, drop_app_add, drop_drop, <- !app_assoc.
  rewrite length_app, Nat.add_assoc. reflexivity.
Qed.

Lemma splice_nil c off : 0 <= off <= Z.of_nat (length c) -> splice c off [] = c.
Proof. intros H. unfold splice. rewrite Nat.add_0_r. apply take_drop. Qed.

Lemma length_splice c off buf : 0 <= off <= Z.of_nat (length c) ->
  off + Z.of_nat (length buf) <= Z.of_nat (length (splice c off buf)).
Proof. intros H. unfold splice. rewrite !length_app, length_take, length_drop. lia. Qed.

Lemma fwrite_pieces_spec p pieces : forall c f s, opened s (f_file f) p c true ->
  0 <= f_offset f <= Z.of_nat (length c) -> f_offset f + Z.of_nat (length (concat pieces)) <= capacity ->
  exists f' s', fwrite_pieces pieces f s = Ok (f', s') /\
    opened s' (f_file f') p (splice c (f_offset f) (concat pieces)) true /\ delete p (files s') = delete p (files s).
Proof.
  induction pieces as [|q pieces IH]; intros c f s Ho Hf Hc.
  - exists f, s. cbn [concat fwrite_pieces]. rewrite splice_nil by lia. auto.
  - cbn [concat] in Hc |- *. rewrite length_app in Hc. cbn [fwrite_pieces]. pose proof capacity_range as Hr.
    assert (Ew : fwrite q 1 (Z.of_nat (length q)) f s = fs_write q f s).
    { unfold fwrite. rewrite mul32_small, Z.mul_1_l by lia. cbv zeta.
      rewrite (proj2 (Z.ltb_ge _ _)) by lia. now rewrite Nat2Z.id, firstn_all. }
    destruct (write_law p c (f_file f) (f_offset f) q s) as (st & s1 & E1 & O1 & D1); [assumption|lia..|].
    assert (E2 : fwrite q 1 (Z.of_nat (length q)) f s
                 = Ok (Z.of_nat (length q), mk_FILE (f_offset f + Z.of_nat (length q)) (f_info_size f) st, s1)).
    { rewrite Ew. unfold fs_write. rewrite (bind_Ok_l _ _ _ E1). unfold u64, wrap. rewrite Z.mod_small by lia. reflexivity. }
    rewrite (bind_Ok_l _ _ _ E2).
    destruct (IH (splice c (f_offset f) q) (mk_FILE (f_offset f + Z.of_nat (length q)) (f_info_size f) st) s1)
      as (f' & s' & E' & O' & D'); cbn [f_offset f_file]; [assumption|pose proof (length_splice c (f_offset f) q Hf); lia|lia|].
    exists f', s'. split; [exact E'|]. cbn [f_offset f_file] in O'. rewrite splice_splice in O' by lia.
    split; [exact O'|congruence].
Qed.

(** Opening at a good path without a current directory. *)
Lemma fopen_spec p mode flags append s : good_path p -> mode_flags (strip_b mode) = (flags, append) -> ~ refused p flags ->
  exists r s', fopen [] p (Some mode) s = Ok (r, s') /\
    files s' = (if has flags FILE_CREATE then <[p := default [] (files s !! p)]> (files s) else files s) /\
    match files s' !! p with
    | Some c => exists f, r = Some f /\ opened s' (f_file f) p c (has flags FILE_WRITE) /\
        f_info_size f = Z.of_nat (length c) /\ f_offset f = (if append then Z.of_nat (length c) else 0)
    | None => r = None
    end.
Proof.
  intros Hp Hm Hr. unfold fopen. rewrite Hm. cbn [mbind outcome_bind bool_decide decide_rel].
  rewrite bool_decide_true by reflexivity.
  destruct (find_law p flags s Hp) as (r & s1 & E1 & F1 & C1). rewrite (bind_Ok_l _ _ _ (eq_refl : Ok (None, s) = Ok (None, s))).
  rewrite (bind_Ok_l _ _ _ E1). destruct (files s1 !! p) as [c|] eqn:Ec.
  - destruct C1 as (h & -> & Hh). destruct (open_law p flags h c s1 Hh Ec Hr) as (st & E2 & O2).
    rewrite (bind_Ok_l _ _ _ E2). destruct (info_law p h c s1 Hh Ec) as (fl & E3 & _). rewrite (bind_Ok_l _ _ _ E3).
    eexists _, s1. split; [reflexivity|]. split; [exact F1|]. rewrite Ec. eexists. split; [reflexivity|]. auto.
  - subst r. exists None, s1. split; [reflexivity|]. split; [exact F1|]. now rewrite Ec.
Qed.

(** A file opened for writing ([w]), written piece by piece and closed holds the pieces one after the other; what was behind them in the file before is still there. *)
Theorem write_file_correct p pieces s : good_path p -> ~ refused p (Z.lor FILE_CREATE FILE_WRITE) ->
  Z.of_nat (length (concat pieces)) <= capacity ->
  exists s', write_file [] p [119; 98] pieces s = Ok (true, s') /\
    files s' = <[p := concat pieces ++ drop (length (concat pieces)) (default [] (files s !! p))]> (files s).
Proof.
  intros Hp Hr Hc. unfold write_file.
  destruct (fopen_spec p [119; 98] (Z.lor FILE_CREATE FILE_WRITE) false s Hp) as (r & s1 & E1 & F1 & C1); [reflexivity|assumption|].
  rewrite (bind_Ok_l _ _ _ E1). rewrite F1 in C1. change (has (Z.lor FILE_CREATE FILE_WRITE) FILE_CREATE) with true in *.
  cbv iota in F1, C1. rewrite lookup_insert_eq in C1. destruct C1 as (f & -> & O1 & _ & Z1).
  destruct (fwrite_pieces_spec p pieces (default [] (files s !! p)) f s1) as (f2 & s2 & E2 & O2 & D2); [exact O1|lia|lia|].
  rewrite (bind_Ok_l _ _ _ E2). destruct (close_law p _ _ _ s2 O2) as (s3 & E3 & F3).
  unfold fclose. rewrite (bind_Ok_l _ _ _ E3). exists s3. split; [reflexivity|].
  rewrite F3, <- insert_delete_eq, D2, F1, delete_insert_eq, insert_delete_eq. rewrite Z1. reflexivity.
Qed.

(** Reading a whole file. *)
Lemma read_file_correct p s : good_path p -> ~ refused p FILE_READ ->
  (forall c, files s !! p = Some c -> Z.of_nat (length c) < 2 ^ 31) ->
  exists s', read_file [] p s = Ok (files s !! p, s') /\ files s' = files s.
Proof.
  intros Hp Hr Hc. unfold read_file.
  destruct (fopen_spec p [114; 98] FILE_READ false s Hp) as (r & s1 & E1 & F1 & C1); [reflexivity|assumption|].
  rewrite (bind_Ok_l _ _ _ E1). change (has FILE_READ FILE_CREATE) with false in F1. cbv iota in F1. rewrite F1 in C1.
  destruct (files s !! p) as [c|] eqn:Ec; [|subst r; exists s1; auto].
  destruct C1 as (f & -> & O1 & I1 & _). specialize (Hc c eq_refl).
  assert (Eb : fseek 0 SEEK_END f = (0, set_offset (Z.of_nat (length c)) f)).
  { change (fseek 0 SEEK_END f) with (0, set_offset (u64 (f_info_size f + 0)) f). rewrite I1, Z.add_0_r. unfold u64, wrap. now rewrite Z.mod_small by lia. }
  rewrite Eb. cbn [ftell f_offset set_offset].
  assert (Es : u32 (ftell (set_offset (Z.of_nat (length c)) f)) = Z.of_nat (length c)).
  { unfold ftell. cbn [f_offset set_offset]. unfold s32, swrap. rewrite Z.mod_small by lia.
    rewrite (proj2 (Z.ltb_lt _ _)) by lia. apply u32_small. unfold is_u32. lia. }
  rewrite Es. change (fseek 0 SEEK_SET (set_offset (Z.of_nat (length c)) f)) with (0, set_offset 0 f). unfold fread, fs_read. rewrite mul32_small by lia. rewrite Z.mul_1_l.
  cbn [f_file f_offset set_offset]. change (u64 0) with 0.
  destruct (read_law p c _ (f_file f) 0 (Z.of_nat (length c)) s1 O1) as (s2 & E2 & F2 & O2); [lia|unfold is_u32; lia|].
  change (Z.to_nat 0) with 0%nat in E2. rewrite drop_0, Nat2Z.id, firstn_all in E2. rewrite (bind_Ok_l _ _ _ E2).
  rewrite bind_Ok_l with (a := (Z.of_nat (length c), c, set_offset (u64 (0 + Z.of_nat (length c))) (set_offset 0 f), s2)) by reflexivity.
  unfold fclose. cbn [f_file set_offset]. destruct (close_law p _ _ _ s2 O2) as (s3 & E3 & F3).
  rewrite (bind_Ok_l _ _ _ E3). exists s3. rewrite Nat2Z.id, Nat.sub_diag. cbn [repeat]. rewrite app_nil_r.
  split; [reflexivity|]. change (has FILE_READ FILE_WRITE) with false in F3. cbv iota in F3. congruence.
Qed.
End laws.

(** ** Files as a map: a stream is a copy of the contents that closing puts back. *)
Module Plain.
Record stream := mk { path : list Z; contents : list Z; writable : bool }.
Notation store := (gmap (list Z) (list Z)).
Definition find (p : list Z) (m : Z) (s : store) : option (list Z * Z) * store :=
  match s !! p with
  | Some c => (Some (p, Z.of_nat (length c)), if has m FILE_CREATE then <[p := c]> s else s)
  | None => if has m FILE_CREATE then (Some (p, 0), <[p := []]> s) else (None, s)
  end.
Definition room : Z := 2 ^ 20.
#[export] Instance calls : file_calls store := {|
  fc_handle := list Z * Z; fc_stream := stream; fc_dir := unit;
  find_path _ p m _ s := Ok (find p m s);
  open_dir _ _ _ s := Ok (Some tt, s);
  open_file_handle h m s := Ok (Some (mk h.1 (default [] (s !! h.1)) (has m FILE_WRITE)), s);
  get_file_info h _ := Ok (0, h.2, 0);
  read off len st s :=
    match st with
    | None => Ok (0, [], s)
    | Some st => let d := take (Z.to_nat len) (drop (Z.to_nat off) (contents st)) in Ok (Z.of_nat (length d), d, s)
    end;
  write off buf st s :=
    if writable st then Ok (Z.of_nat (length buf), mk (path st) (splice (contents st) off buf) true, s) else Ok (0, st, s);
  close st s := Ok (0, if writable st then <[path st := contents st]> s else s);
  delete_file h s := Ok (0, delete h.1 s) |}.

#[export] Program Instance laws : file_laws store := {|
  files s := s; good_path p := True; refused p m := False; capacity := room;
  handle_of s h p := h.1 = p /\ h.2 = Z.of_nat (length (default [] (s !! p)));
  opened s st p c w := st = mk p c w |}.
Next Obligation. split; reflexivity || discriminate. Qed.
Next Obligation.
  intros p m s _. exists (find p m s).1, (find p m s).2. split; [exact (f_equal Ok (surjective_pairing (find p m s)))|].
  unfold find. destruct (s !! p) as [c|] eqn:E; cbn [fst snd].
  - split; [destruct (has m FILE_CREATE); reflexivity|].
    assert (L : (if has m FILE_CREATE then <[p := c]> s else s) !! p = Some c).
    { destruct (has m FILE_CREATE); [apply lookup_insert_eq|exact E]. }
    rewrite L. eexists. split; [reflexivity|]. split; [reflexivity|]. reflexivity.
  - destruct (has m FILE_CREATE); cbn [fst snd default].
    + split; [reflexivity|]. rewrite lookup_insert_eq.
      eexists. split; [reflexivity|]. split; [reflexivity|]. reflexivity.
    + rewrite E. auto.
Qed.
Next Obligation. intros p m h c s [<- _] Hc _. eexists. split; [reflexivity|]. cbn. now rewrite Hc. Qed.
Next Obligation. intros p h c s [<- E] Hc. exists 0. cbn. rewrite E, Hc. auto. Qed.
Next Obligation. intros p c w st off len s -> _ _. exists s. auto. Qed.
Next Obligation. intros p c st off buf s -> _ _. eexists _, s. auto. Qed.
Next Obligation. intros p c w st s ->. eexists. split; reflexivity. Qed.
End Plain.
Import Plain.

Definition ab : list Z := [97; 98].
Lemma write_file_correct_witness : exists s', write_file [] ab [119; 98] [[104; 105]; [13; 10]] (∅ : Plain.store) = Ok (true, s') /\
  files s' = <[ab := [104; 105; 13; 10] ++ drop 4 (default [] (files (∅ : Plain.store) !! ab))]> (files (∅ : Plain.store)).
Proof. exact (@write_file_correct _ calls laws ab [[104; 105]; [13; 10]] ∅ I (fun H => H) ltac:(discriminate)). Defined.

(** [w] does not empty the file: a shorter text keeps the end of the longer one. *)
Example shorter_file_keeps_its_end :
  (s ← write_file [] ab [119; 98] [[104; 105]] ({[ab := [1; 2; 3; 4]]} : Plain.store); read_file [] ab s.2)
  = Ok (Some [104; 105; 3; 4], {[ab := [104; 105; 3; 4]]}).
Proof. vm_compute. reflexivity. Qed.

(** [rename] does not close the new file: where closing writes the size, it stays empty. *)
Example rename_does_not_close :
  rename ab [99] ({[ab := [1; 2; 3; 4]]} : Plain.store) = Ok (0, {[[99] := []]}).
Proof. vm_compute. reflexivity. Qed.

(** [a+] opens for reading only; [rb+] is not known, so its flags are none. *)
Example append_mode_reads : mode_flags (strip_b [97; 43]) = (FILE_READ, true) /\ mode_flags (strip_b [114; 98; 43]) = (0, false).
Proof. split; reflexivity. Qed.
