(* ===== verification/Edit.v ===== *)
(** * The text editor (apps/edit.cpp)

    The global variables are the record [editor]; [line_buffer] is a vector, so its
    capacity is kept with its elements.  The screen is a terminal of Terminal.v, the file
    system is [file_calls], and the events that will arrive are a list, each with the
    state of the keyboard at the time its key is translated.  A [size_t] is 32 bits. *)
From S2P Require Import Prelude Vfs StdioFile Terminal Input.
#[local] Open Scope Z_scope.

Definition npos : Z := 2 ^ 32 - 1.
Definition newline_chars : list Z := [13; 10].
Definition is_newline (c : Z) : bool := existsb (Z.eqb c) newline_chars.

(** ** Strings and views *)
(** [std::string_view::substr]: past the end the size wraps and reading it is wrong. *)
Definition substr (pos count : Z) (v : list Z) : outcome (list Z) :=
  if Z.of_nat (length v) <? pos then Fault OutOfBounds
  else Ok (take (Z.to_nat (Z.min (Z.of_nat (length v) - pos) count)) (drop (Z.to_nat pos) v)).
Fixpoint find_newline (v : list Z) (i : Z) : Z :=
  match v with [] => npos | c :: v => if is_newline c then i else find_newline v (i + 1) end.
(** [buffer.find_first_of(newline_chars, pos)] *)
Definition find_first_of (pos : Z) (v : list Z) : Z := find_newline (drop (Z.to_nat pos) v) pos.

(** [std::to_string]: the number of digits, then the digits from the end. *)
Fixpoint num_digits (fuel : nat) (number : Z) : Z :=
  match fuel with
  | O => 0
  | S fuel => let number := number / 10 in if number =? 0 then 1 else 1 + num_digits fuel number
  end.
Fixpoint put_digits (fuel : nat) (value it : Z) (str : list Z) : outcome (list Z) :=
  match fuel with
  | O => Fault OutOfFuel
  | S fuel =>
    str ← store str (it - 1) (value mod 10 + 48);
    let value := value / 10 in
    if value =? 0 then Ok str else put_digits fuel value (it - 1) str
  end.
Definition m_to_string (value : Z) : outcome (list Z) :=
  let n := num_digits 10 value in put_digits 10 value n (repeat 0 (Z.to_nat n)).

(** ** The state *)
Record line := mk_line { text : list Z; ending : list Z }.
#[export] Instance line_eq_dec : EqDecision line.
Proof. solve_decision. Defined.
Record editor := mk_ed {
  line_buffer : list line; lb_capacity : Z;
  cursor_x : Z; cursor_y : Z; preffered_x : Z; window_x_offset : Z; window_y_offset : Z;
  term_width : Z; term_height : Z; current_file_name : list Z; control_held : bool; alt_held : bool; s_term : terminal }.
Definition with_lines (l : list line) (e : editor) : editor :=
  mk_ed l (lb_capacity e) (cursor_x e) (cursor_y e) (preffered_x e) (window_x_offset e) (window_y_offset e) (term_width e) (term_height e)
    (current_file_name e) (control_held e) (alt_held e) (s_term e).
Definition with_capacity (n : Z) (e : editor) : editor :=
  mk_ed (line_buffer e) n (cursor_x e) (cursor_y e) (preffered_x e) (window_x_offset e) (window_y_offset e) (term_width e) (term_height e)
    (current_file_name e) (control_held e) (alt_held e) (s_term e).
Definition with_cursor (x y : Z) (e : editor) : editor :=
  mk_ed (line_buffer e) (lb_capacity e) x y (preffered_x e) (window_x_offset e) (window_y_offset e) (term_width e) (term_height e)
    (current_file_name e) (control_held e) (alt_held e) (s_term e).
Definition with_preffered (p : Z) (e : editor) : editor :=
  mk_ed (line_buffer e) (lb_capacity e) (cursor_x e) (cursor_y e) p (window_x_offset e) (window_y_offset e) (term_width e) (term_height e)
    (current_file_name e) (control_held e) (alt_held e) (s_term e).
Definition with_window (x y : Z) (e : editor) : editor :=
  mk_ed (line_buffer e) (lb_capacity e) (cursor_x e) (cursor_y e) (preffered_x e) x y (term_width e) (term_height e)
    (current_file_name e) (control_held e) (alt_held e) (s_term e).
Definition with_name (n : list Z) (e : editor) : editor :=
  mk_ed (line_buffer e) (lb_capacity e) (cursor_x e) (cursor_y e) (preffered_x e) (window_x_offset e) (window_y_offset e) (term_width e) (term_height e)
    n (control_held e) (alt_held e) (s_term e).
Definition with_held (c a : bool) (e : editor) : editor :=
  mk_ed (line_buffer e) (lb_capacity e) (cursor_x e) (cursor_y e) (preffered_x e) (window_x_offset e) (window_y_offset e) (term_width e) (term_height e)
    (current_file_name e) c a (s_term e).
Definition with_term (t : terminal) (e : editor) : editor :=
  mk_ed (line_buffer e) (lb_capacity e) (cursor_x e) (cursor_y e) (preffered_x e) (window_x_offset e) (window_y_offset e) (term_width e) (term_height e)
    (current_file_name e) (control_held e) (alt_held e) t.

Definition num_lines (e : editor) : Z := Z.of_nat (length (line_buffer e)).
Definition text_at (y : Z) (e : editor) : outcome (list Z) := l ← fetch (line_buffer e) y; Ok (text l).
Definition set_text (y : Z) (s : list Z) (e : editor) : outcome editor :=
  l ← fetch (line_buffer e) y; ls ← store (line_buffer e) y (mk_line s (ending l)); Ok (with_lines ls e).

(** [vector::emplace_back] with arguments outside the vector. *)
Definition emplace_back (l : line) (e : editor) : editor :=
  let e := if num_lines e =? lb_capacity e then with_capacity ((lb_capacity e + 1) * 2) e else e in
  with_lines (line_buffer e ++ [l]) e.
(** [vector::emplace] at [i] of a line made from another line of the vector: when the
    vector is full its memory is replaced and freed before the arguments are used. *)
Definition emplace_own (i : Z) (l : line) (e : editor) : outcome editor :=
  if num_lines e =? lb_capacity e then Fault UseAfterFree
  else if num_lines e <? i then Fault OutOfBounds
  else Ok (with_lines (take (Z.to_nat i) (line_buffer e) ++ l :: drop (Z.to_nat i) (line_buffer e)) e).
Definition erase_line (i : Z) (e : editor) : outcome editor :=
  if i <? num_lines e then Ok (with_lines (delete (Z.to_nat i) (line_buffer e)) e) else Fault OutOfBounds.

(** ** Drawing *)
Definition set_color (bgr fgr : Z) (e : editor) : outcome editor := t ← set_ansi_color bgr fgr (s_term e); Ok (with_term t e).
Definition clear_screen (e : editor) : outcome editor := t ← clear (s_term e); Ok (with_term t e).
Definition write_clearline (x y len : Z) (e : editor) : outcome editor :=
  t ← write_char_at_pos x y 0 len (s_term e); Ok (with_term t e).
Definition write_at_position (x y : Z) (str : list Z) (e : editor) : outcome editor :=
  let width := sub32 (Z.min (add32 x (Z.of_nat (length str))) (term_width e)) x in
  str ← substr 0 width str;
  t ← write_chars_at_pos x y str (s_term e); Ok (with_term t e).

Record rect := mk_rect { r_x : Z; r_y : Z; r_w : Z; r_h : Z }.
(** [(size_t)std::max((int)a - (int)b, 0)] *)
Definition room_after (a b : Z) : Z := u32 (Z.max (s32 (s32 a - s32 b)) 0).
Fixpoint draw_rows (n : nat) (y : Z) (dst src : rect) (e : editor) : outcome editor :=
  match n with
  | O => Ok e
  | S n =>
    line ← text_at (add32 (r_y src) y) e;
    let size := Z.of_nat (length line) in
    let width := Z.min (Z.min (r_w dst) (room_after size (r_x src))) (term_width e) in
    e ← (if r_x src <? size then
           str ← substr (r_x src) width line; write_at_position (r_x dst) (add32 (r_y dst) y) str e
         else Ok e);
    e ← write_clearline (add32 (r_x dst) width) (add32 (r_y dst) y) (sub32 (r_w dst) width) e;
    draw_rows n (y + 1) dst src e
  end.
Definition draw_rect (dst src : rect) (e : editor) : outcome editor :=
  let height := Z.min (Z.min (r_h dst) (room_after (num_lines e) (r_y src))) (term_height e) in
  draw_rows (Z.to_nat height) 0 dst src e.
Definition do_full_redraw (e : editor) : outcome editor :=
  draw_rect (mk_rect 0 0 (term_width e) (term_height e)) (mk_rect (window_x_offset e) (window_y_offset e) 0 0) e.

(** The attribute byte of the cell; the test compares [y] with the width. *)
Definition toggle_cell_highlighted (x y : Z) (e : editor) : outcome editor :=
  if (x <? term_width e) && (y <? term_width e) then
    let coord := add32 x (mul32 y (term_width e)) in
    c ← fetch (t_screen (s_term e)) coord;
    l ← store (t_screen (s_term e)) coord (mk_char (ch c) (u8 (Z.lnot (attr c))));
    Ok (with_term (set_screen l (s_term e)) e)
  else Ok e.
Definition toggle_cursor (e : editor) : outcome editor :=
  toggle_cell_highlighted (sub32 (cursor_x e) (window_x_offset e)) (sub32 (cursor_y e) (window_y_offset e)) e.

(** ** The cursor and the window *)
Definition adjust_window_for_cursor_x (e : editor) : editor :=
  let e := if cursor_x e <? window_x_offset e then with_window (cursor_x e) (window_y_offset e) e else e in
  if add32 (window_x_offset e) (sub32 (term_width e) 1) <? cursor_x e
  then with_window (sub32 (cursor_x e) (sub32 (term_width e) 1)) (window_y_offset e) e else e.
Definition adjust_cursor_for_line (e : editor) : outcome editor :=
  t ← text_at (cursor_y e) e;
  let line_size := Z.of_nat (length t) in
  Ok (adjust_window_for_cursor_x
        (with_cursor (if line_size <? preffered_x e then line_size else preffered_x e) (cursor_y e) e)).
Definition adjust_window_for_cursor_up (e : editor) : editor :=
  if cursor_y e <? window_y_offset e then with_window (window_x_offset e) (cursor_y e) e else e.
Definition adjust_window_for_cursor_down (e : editor) : editor :=
  if add32 (window_y_offset e) (sub32 (term_height e) 1) <? cursor_y e
  then with_window (window_x_offset e) (sub32 (cursor_y e) (sub32 (term_height e) 1)) e else e.
Definition move_cursor_up (e : editor) : outcome editor :=
  if 0 <? cursor_y e then
    e ← adjust_cursor_for_line (with_cursor (cursor_x e) (cursor_y e - 1) e);
    Ok (adjust_window_for_cursor_up e)
  else Ok e.
Definition move_cursor_down (e : editor) : outcome editor :=
  if add32 (cursor_y e) 1 <? num_lines e then
    e ← adjust_cursor_for_line (with_cursor (cursor_x e) (cursor_y e + 1) e);
    Ok (adjust_window_for_cursor_down e)
  else Ok e.
Definition prefer_cursor (e : editor) : editor := adjust_window_for_cursor_x (with_preffered (cursor_x e) e).
Definition move_cursor_left (e : editor) : outcome editor :=
  e ← (if cursor_x e <? 1 then
         if 0 <? cursor_y e then
           t ← text_at (cursor_y e - 1) e;
           Ok (adjust_window_for_cursor_up (with_cursor (Z.of_nat (length t)) (cursor_y e - 1) e))
         else Ok e
       else Ok (with_cursor (cursor_x e - 1) (cursor_y e) e));
  Ok (prefer_cursor e).
Definition move_cursor_right (e : editor) : outcome editor :=
  t ← text_at (cursor_y e) e;
  let e := if Z.of_nat (length t) <? add32 (cursor_x e) 1 then
             if add32 (cursor_y e) 1 <? num_lines e
             then adjust_window_for_cursor_down (with_cursor 0 (cursor_y e + 1) e) else e
           else with_cursor (cursor_x e + 1) (cursor_y e) e in
  Ok (prefer_cursor e).

(** ** Editing *)
Definition redraw_from_line (l : Z) (e : editor) : outcome editor :=
  let y_coord := sub32 l (window_y_offset e) in
  draw_rect (mk_rect 0 y_coord (term_width e) (sub32 (term_height e) y_coord)) (mk_rect 0 l 0 0) e.
Definition insert_blank_line (e : editor) : outcome editor :=
  e ← write_clearline 0 (sub32 (cursor_y e) (window_y_offset e)) (term_width e) e;
  redraw_from_line (add32 (cursor_y e) 1) e.
Definition print_rest_of_line (e : editor) : outcome editor :=
  line ← text_at (cursor_y e) e;
  str ← substr (cursor_x e) npos line;
  write_at_position (sub32 (cursor_x e) (window_x_offset e)) (sub32 (cursor_y e) (window_y_offset e)) str e.
(** Clear from the cursor to the end of the row. *)
Definition clear_to_end (e : editor) : outcome editor :=
  write_clearline (sub32 (cursor_x e) (window_x_offset e)) (sub32 (cursor_y e) (window_y_offset e))
    (sub32 (term_width e) (sub32 (cursor_x e) (window_x_offset e))) e.
Definition insert_newline (e : editor) : outcome editor :=
  l ← fetch (line_buffer e) (cursor_y e);
  rest ← substr (cursor_x e) npos (text l);
  e ← emplace_own (add32 (cursor_y e) 1) (mk_line rest (ending l)) e;
  e ← set_text (cursor_y e) (take (Z.to_nat (cursor_x e)) (text l)) e;
  e ← clear_to_end e;
  let e := adjust_window_for_cursor_x (adjust_window_for_cursor_down (with_cursor 0 (add32 (cursor_y e) 1) e)) in
  insert_blank_line e.
Definition insert_char (in_char : Z) (e : editor) : outcome editor :=
  e ← write_at_position (sub32 (cursor_x e) (window_x_offset e)) (sub32 (cursor_y e) (window_y_offset e)) [in_char] e;
  t ← text_at (cursor_y e) e;
  if Z.of_nat (length t) <? cursor_x e then Fault OutOfBounds else
  e ← set_text (cursor_y e) (take (Z.to_nat (cursor_x e)) t ++ in_char :: drop (Z.to_nat (cursor_x e)) t) e;
  move_cursor_right e.
Definition handle_char_insert (in_char : Z) (e : editor) : outcome editor :=
  e ← (if is_newline in_char then insert_newline e else insert_char in_char e);
  print_rest_of_line e.

Definition merge_lines (dst src : Z) (e : editor) : outcome editor :=
  a ← text_at dst e; b ← text_at src e; e ← set_text dst (a ++ b) e; erase_line src e.
Definition handle_char_delete (e : editor) : outcome editor :=
  buffer ← text_at (cursor_y e) e;
  e ← (if cursor_x e <? Z.of_nat (length buffer) then
         e ← set_text (cursor_y e) (delete (Z.to_nat (cursor_x e)) buffer) e;
         clear_to_end e
       else if add32 (cursor_y e) 1 <? num_lines e then
         e ← merge_lines (cursor_y e) (add32 (cursor_y e) 1) e;
         e ← redraw_from_line (add32 (cursor_y e) 1) e;
         if num_lines e <? add32 (window_x_offset e) (term_height e)
         then write_clearline (window_x_offset e) (sub32 (num_lines e) (window_y_offset e)) (term_width e) e else Ok e
       else Ok e);
  print_rest_of_line e.

(** ** The last row *)
Definition update_coordinate_display (e : editor) : outcome editor :=
  e ← set_color 7 0 e;
  e ← write_clearline 0 (term_height e) (term_width e) e;
  ln ← m_to_string (cursor_y e); chr ← m_to_string (cursor_x e);
  let coord := [108; 110; 58; 32] ++ ln ++ [32; 99; 104; 58; 32] ++ chr in
  e ← write_at_position (sub32 (term_width e) (Z.of_nat (length coord))) (term_height e) coord e;
  set_color 4 7 e.
Definition write_info_message (message filename : list Z) (e : editor) : outcome editor :=
  e ← set_color 7 0 e;
  e ← write_at_position 0 (term_height e) message e;
  e ← write_at_position (Z.of_nat (length message)) (term_height e) filename e;
  set_color 4 7 e.

(** ** Keys *)
Record arrival := mk_arrival { arr_event : input_event; arr_keys : input_state }.
Definition is_vk (key : Z) (k : virtual_keycode) : bool := key =? vk k.
(** [None]: no event has arrived that is a key going down. *)
Fixpoint get_keypress (evs : list arrival) (e : editor) : option (Z * input_state * list arrival * editor) :=
  match evs with
  | [] => None
  | a :: evs =>
    let ev := arr_event a in
    if negb (is_key (ev_type ev)) then get_keypress evs e else
    let down := match ev_type ev with KEY_DOWN => true | _ => false end in
    let e := if is_vk (ev_data ev) VK_RCTRL || is_vk (ev_data ev) VK_LCTRL then with_held down (alt_held e) e
             else if is_vk (ev_data ev) VK_RALT || is_vk (ev_data ev) VK_LALT then with_held (control_held e) down e else e in
    if down then Some (ev_data ev, arr_keys a, evs, e) else get_keypress evs e
  end.

(** ** Files *)
Inductive status := Running | Waiting | Exited.
Section files.
Context {S : Type} {FC : file_calls S}.
Definition save_as : list Z := [83; 97; 118; 101; 32; 97; 115; 58; 32].
Definition could_not_save : list Z := [67; 111; 117; 108; 100; 32; 110; 111; 116; 32; 115; 97; 118; 101; 32; 102; 105; 108; 101; 32].
Definition file_saved_as : list Z := [70; 105; 108; 101; 32; 115; 97; 118; 101; 100; 32; 97; 115; 32].
Definition could_not_open : list Z := [67; 111; 117; 108; 100; 32; 110; 111; 116; 32; 111; 112; 101; 110; 32].
Inductive answer := Named | Escaped | NotYet.

(** The name that is typed; each round takes at least one event. *)
Fixpoint prompt_loop (fuel : nat) (pos : Z) (evs : list arrival) (e : editor) : outcome (answer * list arrival * editor) :=
  match fuel with
  | O => Fault OutOfFuel
  | Datatypes.S fuel =>
    match get_keypress evs e with
    | None => Ok (NotYet, [], e)
    | Some (key, keys, evs, e) =>
      if is_vk key VK_ESCAPE then Ok (Escaped, evs, e) else
      in_char ← get_ascii_from_vk true key keys;
      if in_char =? 8 then
        if bool_decide (current_file_name e = []) then prompt_loop fuel pos evs e else
        let e := with_name (take (length (current_file_name e) - 1) (current_file_name e)) e in
        let pos := sub32 pos 1 in
        e ← write_clearline (add32 (Z.of_nat (length save_as)) pos) (term_height e) 1 e;
        prompt_loop fuel pos evs e
      else if is_newline in_char then Ok (Named, evs, e)
      else if negb (in_char =? 0) then
        let e := with_name (current_file_name e ++ [in_char]) e in
        str ← substr pos npos (current_file_name e);
        e ← write_at_position (add32 (Z.of_nat (length save_as)) pos) (term_height e) str e;
        prompt_loop fuel (add32 pos 1) evs e
      else prompt_loop fuel pos evs e
    end
  end.
Fixpoint write_lines (ls : list line) (f : FILE S) (s : S) : outcome (FILE S * S) :=
  match ls with
  | [] => Ok (f, s)
  | l :: ls =>
    '(_, f, s) ← fwrite (text l) 1 (Z.of_nat (length (text l))) f s;
    '(_, f, s) ← fwrite (ending l) 1 (Z.of_nat (length (ending l))) f s;
    write_lines ls f s
  end.
Definition save_named (s_cwd : list Z) (e : editor) (s : S) : outcome (editor * S) :=
  '(f, s) ← fopen s_cwd (current_file_name e) (Some [119; 98]) s;
  match f with
  | None => e ← write_info_message could_not_save (current_file_name e) e; Ok (e, s)
  | Some f =>
    '(f, s) ← write_lines (line_buffer e) f s;
    '(_, s) ← fclose f s;
    e ← write_info_message file_saved_as (current_file_name e) e; Ok (e, s)
  end.
Definition save_file (s_cwd : list Z) (evs : list arrival) (e : editor) (s : S) : outcome (status * list arrival * editor * S) :=
  if bool_decide (current_file_name e = []) then
    e ← set_color 7 0 e;
    e ← write_clearline 0 (term_height e) (term_width e) e;
    e ← write_at_position 0 (term_height e) save_as e;
    '(a, evs, e) ← prompt_loop (Datatypes.S (length evs)) 0 evs e;
    match a with
    | NotYet => Ok (Waiting, evs, e, s)
    | Escaped => Ok (Running, evs, e, s)
    | Named => e ← set_color 4 7 e; '(e, s) ← save_named s_cwd e s; Ok (Running, evs, e, s)
    end
  else '(e, s) ← save_named s_cwd e s; Ok (Running, evs, e, s).

(** [next] is one past [second] when it is used again. *)
Fixpoint build_lines (fuel : nat) (first : Z) (buffer : list Z) (e : editor) : outcome editor :=
  match fuel with
  | O => Fault OutOfFuel
  | Datatypes.S fuel =>
    if first <? Z.of_nat (length buffer) then
      let second := find_first_of first buffer in
      c ← fetch buffer second;
      t ← substr first (sub32 second first) buffer;
      nl ← substr second (if c =? 13 then 2 else 1) buffer;
      let next := add32 second 1 in
      let e := emplace_back (mk_line t nl) e in
      if second =? npos then Ok (emplace_back (mk_line t []) e)
      else build_lines fuel (add32 next 1) buffer e
    else Ok e
  end.
Definition build_lines_from_raw_str (buffer : list Z) (e : editor) : outcome editor :=
  build_lines (Datatypes.S (length buffer)) 0 buffer e.
Definition load_file (s_cwd name : list Z) (e : editor) (s : S) : outcome (bool * editor * S) :=
  '(b, s) ← read_file s_cwd name s;
  match b with
  | None => Ok (false, e, s)
  | Some buffer => e ← build_lines_from_raw_str buffer e; Ok (true, with_name name e, s)
  end.

(** ** One key, and the program *)
Definition edit_key (key : Z) (keys : input_state) (e : editor) : outcome editor :=
  if is_vk key VK_UP then move_cursor_up e
  else if is_vk key VK_DOWN then move_cursor_down e
  else if is_vk key VK_LEFT then move_cursor_left e
  else if is_vk key VK_RIGHT then move_cursor_right e
  else if is_vk key VK_DELETE then handle_char_delete e
  else
    in_char ← get_ascii_from_vk true key keys;
    if in_char =? 8 then
      if negb (cursor_x e =? 0) || negb (cursor_y e =? 0) then e ← move_cursor_left e; handle_char_delete e else Ok e
    else if negb (in_char =? 0) then handle_char_insert in_char e
    else Ok e.
(** What follows the switch: redraw if the window moved, show the cursor and the position. *)
Definition after_key (cached_win_x cached_win_y : Z) (e : editor) : outcome editor :=
  e ← (if negb (window_x_offset e =? cached_win_x) || negb (window_y_offset e =? cached_win_y) then do_full_redraw e else Ok e);
  e ← toggle_cursor e;
  update_coordinate_display e.
Definition handle_keypress (s_cwd : list Z) (key : Z) (keys : input_state) (evs : list arrival) (e : editor) (s : S)
  : outcome (status * list arrival * editor * S) :=
  if control_held e then
    if is_vk key VK_S then save_file s_cwd evs (if alt_held e then with_name [] e else e) s
    else Ok (Running, evs, e, s)
  else
    let cached_win_x := window_x_offset e in
    let cached_win_y := window_y_offset e in
    e ← toggle_cursor e;
    if is_vk key VK_ESCAPE then
      e ← Edit.set_color 0 7 e; e ← clear_screen e; Ok (Exited, evs, e, s)
    else
      e ← edit_key key keys e;
      e ← after_key cached_win_x cached_win_y e;
      Ok (Running, evs, e, s).
(** The main loop over the events that arrive. *)
Fixpoint handle_input (fuel : nat) (s_cwd : list Z) (evs : list arrival) (e : editor) (s : S) : outcome (status * editor * S) :=
  match fuel with
  | O => Fault OutOfFuel
  | Datatypes.S fuel =>
    match get_keypress evs e with
    | None => Ok (Waiting, e, s)
    | Some (key, keys, evs, e) =>
      '(st, evs, e, s) ← handle_keypress s_cwd key keys evs e s;
      match st with Running => handle_input fuel s_cwd evs e s | _ => Ok (st, e, s) end
    end
  end.

Fixpoint show_lines (n : nat) (offset : Z) (e : editor) : outcome editor :=
  match n with
  | O => Ok e
  | Datatypes.S n =>
    t ← text_at offset e;
    str ← substr 0 (term_width e) t;
    e ← write_at_position 0 (sub32 offset (window_y_offset e)) str e;
    show_lines n (offset + 1) e
  end.
(** [main] up to its loop, for the terminal it opens and its argument. *)
Definition main (t : terminal) (s_cwd : list Z) (argv1 : option (list Z)) (s : S) : outcome (editor * S) :=
  let e := mk_ed [] 0 0 0 0 0 0 (t_width t) (sub32 (t_height t) 1) [] false false t in
  e ← Edit.set_color 4 7 e;
  e ← clear_screen e;
  e ← update_coordinate_display e;
  '(e, s) ← match argv1 with
             | None => Ok (e, s)
             | Some name =>
               '(ok, e, s) ← load_file s_cwd name e s;
               if ok : bool then Ok (e, s) else e ← write_info_message could_not_open name e; Ok (e, s)
             end;
  e ← show_lines (Z.to_nat (Z.min (num_lines e) (term_height e))) 0 e;
  e ← toggle_cursor e;
  Ok (if num_lines e =? 0 then emplace_back (mk_line [] []) e else e, s).
End files.
