(* ===== verification/EditProofs.v ===== *)
(** * The text editor: the text under the keys, the cursor and the screen

    [drawn o e] says that drawing step [o] leaves everything but the screen as it is in
    [e] and writes inside the screen.  The document is the concatenation of its lines
    with their endings ([flat]); the cursor is an offset into it. *)
From S2P Require Import Prelude Vfs StdioFile Terminal TerminalProofs Input Edit.
#[local] Open Scope Z_scope.

(** ** The screen *)
Definition like (t t' : terminal) : Prop :=
  (t_width t' = t_width t /\ t_total_size t' = t_total_size t) /\ length (t_screen t') = length (t_screen t).
Definition drawn (o : outcome editor) (e : editor) : Prop := exists t', o = Ok (with_term t' e) /\ like (s_term e) t'.
Record screen_ok (e : editor) : Prop := {
  sc_width : t_width (s_term e) = term_width e;
  sc_size : 32 <= term_width e /\ 1 <= term_height e;
  sc_cells : term_width e * (term_height e + 1) <= Z.of_nat (length (t_screen (s_term e)));
  sc_word : term_width e * (term_height e + 1) < 2 ^ 32 }.

Lemma like_refl t : like t t.
Proof. split; [split|]; reflexivity. Qed.
Lemma like_trans a b c : like a b -> like b c -> like a c.
Proof. intros [[W1 T1] L1] [[W2 T2] L2]. split; [split|]; congruence. Qed.
Lemma with_term_id e : with_term (s_term e) e = e.
Proof. now destruct e. Qed.
Lemma with_term_twice t t' e : with_term t' (with_term t e) = with_term t' e.
Proof. reflexivity. Qed.
Lemma drawn_ok e : drawn (Ok e) e.
Proof. exists (s_term e). rewrite with_term_id. auto using like_refl. Qed.
Lemma drawn_bind o (f : editor -> outcome editor) e : drawn o e ->
  (forall t', like (s_term e) t' -> drawn (f (with_term t' e)) (with_term t' e)) -> drawn (o ≫= f) e.
Proof.
  intros (t & E & L) H. rewrite (bind_Ok_l _ _ _ E). destruct (H t L) as (t' & E' & L').
  exists t'. rewrite E', with_term_twice. split; [reflexivity|]. exact (like_trans _ _ _ L L').
Qed.
Lemma screen_like e t : like (s_term e) t -> screen_ok e -> screen_ok (with_term t e).
Proof. intros [[W T] L] [H1 H2 H3 H4]. split; cbn; [congruence|auto|rewrite L; auto|auto]. Qed.

Lemma write_chars_spec chars : forall coord t, 0 <= coord -> coord + Z.of_nat (length chars) <= Z.of_nat (length (t_screen t)) ->
  exists t', write_chars chars coord t = Ok t' /\ like t t'.
Proof.
  induction chars as [|c chars IH]; intros coord t H0 H1; cbn [write_chars length] in *.
  - exists t. auto using like_refl.
  - rewrite store_Ok by lia. destruct (IH (coord + 1) (set_screen (<[Z.to_nat coord:=mk_char c (t_color t)]> (t_screen t)) t)) as (t' & E & W & L).
    + lia.
    + cbn. rewrite length_insert. lia.
    + exists t'. split; [exact E|]. cbn in W, L. rewrite length_insert in L. split; assumption.
Qed.

(** A run of characters inside row [y] of the window or the row below it. *)
Lemma write_row_spec x y str e : screen_ok e -> 0 <= x -> 0 <= y <= term_height e -> x + Z.of_nat (length str) <= term_width e ->
  exists t', write_chars_at_pos x y str (s_term e) = Ok t' /\ like (s_term e) t'.
Proof.
  intros [W S L B] Hx Hy Hl. unfold write_chars_at_pos. rewrite W.
  assert (0 <= y * term_width e) by nia.
  assert (y * term_width e + term_width e <= term_width e * (term_height e + 1)) by nia.
  rewrite (mul32_small y (term_width e)) by lia.
  destruct (Z.eq_dec (x + y * term_width e) (2 ^ 32)) as [E|N]; [lia|].
  rewrite add32_small by lia. apply write_chars_spec; lia.
Qed.

Lemma write_clearline_drawn x y len e : screen_ok e -> 0 <= x -> 0 <= y <= term_height e -> 0 <= len -> x + len <= term_width e ->
  drawn (write_clearline x y len e) e.
Proof.
  intros S Hx Hy Hl Hw. unfold write_clearline, write_char_at_pos.
  destruct (write_row_spec x y (repeat 0 (Z.to_nat len)) e S Hx Hy) as (t & E & L); [rewrite repeat_length; lia|].
  rewrite (bind_Ok_l _ _ _ E). exists t. auto.
Qed.

Lemma write_at_position_drawn x y str e : screen_ok e -> 0 <= x <= term_width e -> 0 <= y <= term_height e ->
  Z.of_nat (length str) < 2 ^ 31 -> drawn (write_at_position x y str e) e.
Proof.
  intros S Hx Hy Hl. unfold write_at_position. destruct S as [W Z1 C B] eqn:ES. 
  assert (term_width e < 2 ^ 31) by nia.
  rewrite add32_small by lia. rewrite sub32_small by lia.
  set (width := Z.min (x + Z.of_nat (length str)) (term_width e) - x).
  assert (E : substr 0 width str = Ok (take (Z.to_nat width) str)).
  { unfold substr. rewrite (proj2 (Z.ltb_ge _ _)) by lia. rewrite drop_0. repeat f_equal. unfold width. lia. }
  cbv zeta. rewrite (bind_Ok_l _ _ _ E).
  destruct (write_row_spec x y (take (Z.to_nat width) str) e) as (t & E' & L); [assumption|lia|lia| |].
  - rewrite length_take. unfold width. lia.
  - rewrite (bind_Ok_l _ _ _ E'). exists t. auto.
Qed.

Lemma toggle_drawn x y e : screen_ok e -> 0 <= x -> 0 <= y <= term_height e -> drawn (toggle_cell_highlighted x y e) e.
Proof.
  intros [W S L B] Hx Hy. unfold toggle_cell_highlighted.
  destruct (Z.ltb_spec x (term_width e)), (Z.ltb_spec y (term_width e)); cbn [andb]; try apply drawn_ok.
  assert (0 <= y * term_width e) by nia.
  assert (y * term_width e + term_width e <= term_width e * (term_height e + 1)) by nia.
  rewrite mul32_small by lia. rewrite add32_small by lia. cbv zeta.
  destruct (fetch_in (t_screen (s_term e)) (x + y * term_width e)) as (c & E & _); [lia|].
  rewrite (bind_Ok_l _ _ _ E). rewrite store_Ok by lia.
  eexists. split; [reflexivity|]. split; [split; reflexivity|]. cbn. now rewrite length_insert.
Qed.

Lemma set_color_drawn b f e : drawn (Edit.set_color b f e) e.
Proof.
  unfold Edit.set_color, set_ansi_color.
  assert (H : forall z, exists c, fetch vt100_colors (Z.land z 0x07) = Ok c).
  { intros z. change 7 with (2 ^ 3 - 1). rewrite land_low_mask by lia.
    destruct (fetch_in vt100_colors (z mod 2 ^ 3)) as (c & E & _); [|eauto].
    pose proof (Z.mod_pos_bound z (2 ^ 3)). change (Z.of_nat (length vt100_colors)) with (2 ^ 3). lia. }
  destruct (H b) as (cb & Eb), (H f) as (cf & Ef).
  rewrite (bind_Ok_l _ _ (Terminal.set_color cb cf (t_is_bright (s_term e)) (s_term e)))
    by (rewrite (bind_Ok_l _ _ _ Eb), (bind_Ok_l _ _ _ Ef); reflexivity).
  eexists. split; [reflexivity|]. split; [split|]; reflexivity.
Qed.

(** ** Numbers *)
Lemma num_digits_range fuel : forall v, 1 <= num_digits (S fuel) v <= Z.of_nat (S fuel).
Proof.
  induction fuel as [|fuel IH]; intros v; [cbn; destruct (v / 10 =? 0); lia|].
  cbn [num_digits] in *. destruct (v / 10 =? 0); [lia|]. specialize (IH (v / 10)). lia.
Qed.

Lemma put_digits_spec fuel : forall v str, 0 <= v < 10 ^ Z.of_nat (S fuel) -> num_digits (S fuel) v <= Z.of_nat (length str) ->
  exists str', put_digits (S fuel) v (num_digits (S fuel) v) str = Ok str' /\ length str' = length str.
Proof.
  induction fuel as [|fuel IH]; intros v str Hv Hl.
  - pose proof (num_digits_range 0 v). change (10 ^ Z.of_nat 1) with 10 in Hv. cbn [put_digits]. rewrite store_Ok by lia. cbn [mbind outcome_bind].
    rewrite Z.div_small by lia. eexists. split; [reflexivity|apply length_insert].
  - cbn [put_digits]. pose proof (num_digits_range (S fuel) v). rewrite store_Ok by lia. cbn [mbind outcome_bind].
    destruct (Z.eqb_spec (v / 10) 0) as [E|N]; [eexists; split; [reflexivity|apply length_insert]|].
    assert (D : num_digits (S (S fuel)) v = 1 + num_digits (S fuel) (v / 10)).
    { cbn [num_digits]. now rewrite (proj2 (Z.eqb_neq _ _) N). }
    rewrite D in *. replace (1 + num_digits (S fuel) (v / 10) - 1) with (num_digits (S fuel) (v / 10)) by lia.
    destruct (IH (v / 10) (<[Z.to_nat (num_digits (S fuel) (v / 10)):=v mod 10 + 48]> str)) as (s' & E' & L').
    + rewrite (Nat2Z.inj_succ (S fuel)), Z.pow_succ_r in Hv by lia. split; [apply Z.div_pos; lia|]. apply Z.div_lt_upper_bound; lia.
    + rewrite length_insert. lia.
    + exists s'. cbn [put_digits] in E'. rewrite E', L'. split; [reflexivity|apply length_insert].
Qed.

Lemma m_to_string_spec v : is_u32 v -> exists s, m_to_string v = Ok s /\ Z.of_nat (length s) <= 10.
Proof.
  intros H. unfold m_to_string. pose proof (num_digits_range 9 v) as R.
  destruct (put_digits_spec 9 v (repeat 0 (Z.to_nat (num_digits 10 v)))) as (s & E & L).
  - unfold is_u32 in H. change (10 ^ Z.of_nat 10) with 10000000000. lia.
  - rewrite repeat_length. lia.
  - exists s. split; [exact E|]. rewrite L, repeat_length. lia.
Qed.

(** ** Windows of text *)
Definition small (e : editor) : Prop :=
  num_lines e < 2 ^ 31 - 1 /\ forall y l, line_buffer e !! y = Some l -> Z.of_nat (length (text l)) < 2 ^ 31 - 1.

Lemma room_after_small a b : 0 <= a < 2 ^ 31 -> 0 <= b < 2 ^ 31 -> room_after a b = Z.max (a - b) 0.
Proof.
  intros Ha Hb. unfold room_after. rewrite (s32_small a), (s32_small b) by lia. rewrite s32_small by lia.
  apply u32_small. unfold is_u32. lia.
Qed.

Lemma draw_rows_drawn n : forall y h sx sy e, screen_ok e -> small e -> 0 <= y -> 0 <= h -> 0 <= sx < 2 ^ 31 -> 0 <= sy ->
  h + y + Z.of_nat n <= term_height e -> sy + y + Z.of_nat n <= num_lines e ->
  forall hh, drawn (draw_rows n y (mk_rect 0 h (term_width e) hh) (mk_rect sx sy 0 0) e) e.
Proof.
  induction n as [|n IH]; intros y h sx sy e S M Hy Hh Hx Hs Hn Hl hh; [apply drawn_ok|].
  cbn [draw_rows r_x r_y r_w r_h]. pose proof S as [W Z1 C B]. pose proof M as [ML MT].
  destruct (fetch_in (line_buffer e) (sy + y)) as (l & El & Ll); [unfold num_lines in Hl; lia|].
  unfold text_at. rewrite (add32_small sy y) by lia. rewrite (bind_Ok_l _ _ (text l)) by (rewrite (bind_Ok_l _ _ _ El); reflexivity).
  pose proof (MT _ _ Ll) as Mt. cbv zeta. rewrite room_after_small by lia.
  assert (Hw : term_width e < 2 ^ 31) by nia.
  set (size := Z.of_nat (length (text l))) in *. set (width := Z.min (Z.min (term_width e) (Z.max (size - sx) 0)) (term_width e)).
  assert (0 <= width <= term_width e) by lia. assert (term_height e < 2 ^ 32) by nia.
  rewrite (add32_small h y) by lia.
  apply drawn_bind.
  - destruct (Z.ltb_spec sx size); [|apply drawn_ok].
    unfold substr. rewrite (proj2 (Z.ltb_ge _ _)) by lia. cbn [mbind outcome_bind].
    apply write_at_position_drawn; [exact S|lia|lia|]. rewrite length_take, length_drop. lia.
  - intros t Lt. pose proof (screen_like e t Lt S) as St.
    change (add32 0 width) with (u32 (0 + width)). rewrite (u32_small (0 + width)) by (unfold is_u32; lia).
    rewrite (sub32_small (term_width e) width) by lia.
    apply drawn_bind.
    + apply write_clearline_drawn; [exact St|lia|cbn; lia|lia|cbn; lia].
    + intros t2 Lt2. pose proof (screen_like _ _ Lt2 St) as St2.
      refine (IH (y + 1) h sx sy (with_term t2 (with_term t e)) St2 M _ Hh Hx Hs _ _ hh); change (num_lines (with_term t2 (with_term t e))) with (num_lines e) in *; cbn [term_height with_term]; lia.
Qed.

Lemma draw_rect_drawn h hh sx sy e : screen_ok e -> small e -> 0 <= h -> 0 <= hh -> 0 <= sx < 2 ^ 31 -> 0 <= sy < 2 ^ 31 -> h + hh <= term_height e ->
  drawn (draw_rect (mk_rect 0 h (term_width e) hh) (mk_rect sx sy 0 0) e) e.
Proof.
  intros S M H0 H1 Hx Hy Hh. unfold draw_rect. cbn [r_y r_h]. pose proof M as [ML _].
  assert (0 <= num_lines e) by (unfold num_lines; lia).
  rewrite room_after_small by lia. cbv zeta.
  destruct (Z.le_gt_cases (num_lines e) sy).
  - replace (Z.to_nat _) with 0%nat by lia. apply drawn_ok.
  - apply draw_rows_drawn; try assumption; lia.
Qed.

Lemma update_coordinate_display_drawn e : screen_ok e -> is_u32 (cursor_x e) -> is_u32 (cursor_y e) ->
  drawn (update_coordinate_display e) e.
Proof.
  intros S Hx Hy. unfold update_coordinate_display. pose proof S as [W Z1 C B].
  assert (term_width e < 2 ^ 31) by nia.
  apply drawn_bind; [apply set_color_drawn|]. intros t1 L1. pose proof (screen_like _ _ L1 S) as S1.
  apply drawn_bind; [apply write_clearline_drawn; cbn; try lia; exact S1|]. intros t2 L2. pose proof (screen_like _ _ L2 S1) as S2.
  cbn [cursor_x cursor_y with_term].
  destruct (m_to_string_spec _ Hy) as (sy & Ey & Ly), (m_to_string_spec _ Hx) as (sx & Ex & Lx).
  rewrite (bind_Ok_l _ _ _ Ey), (bind_Ok_l _ _ _ Ex). cbv zeta.
  set (coord := _ ++ sy ++ _). assert (Lc : 0 <= Z.of_nat (length coord) <= 29).
  { unfold coord. rewrite !length_app. cbn [length]. lia. }
  apply drawn_bind; [|intros; apply set_color_drawn].
  apply write_at_position_drawn; [exact S2| |cbn; lia|lia]. cbn [term_width term_height with_term]. rewrite (sub32_small (term_width e)) by lia. lia.
Qed.

(** ** The cursor is in the text and in the window *)
Definition cursor_in (e : editor) : Prop :=
  0 <= cursor_y e /\ exists l, line_buffer e !! Z.to_nat (cursor_y e) = Some l /\ 0 <= cursor_x e <= Z.of_nat (length (text l)).
Definition window_in_x (e : editor) : Prop := 0 <= window_x_offset e <= cursor_x e /\ cursor_x e <= window_x_offset e + (term_width e - 1).
Definition window_in_y (e : editor) : Prop := 0 <= window_y_offset e <= cursor_y e /\ cursor_y e <= window_y_offset e + (term_height e - 1).
Record editor_ok (e : editor) : Prop := {
  ok_screen : screen_ok e;
  ok_small : small e;
  ok_cursor : cursor_in e;
  ok_wx : window_in_x e;
  ok_wy : window_in_y e;
  ok_pref : 0 <= preffered_x e }.

Lemma screen_bounds e : screen_ok e -> 32 <= term_width e < 2 ^ 31 /\ 1 <= term_height e < 2 ^ 31.
Proof. intros [W S C B]. nia. Qed.
Lemma cursor_bounds e : small e -> cursor_in e -> 0 <= cursor_x e < 2 ^ 31 - 1 /\ 0 <= cursor_y e < num_lines e.
Proof.
  intros [_ M] (Hy & l & Hl & Hx). specialize (M _ _ Hl). pose proof (lookup_lt_Some _ _ _ Hl). unfold num_lines. lia.
Qed.
Lemma text_at_ok e y l : 0 <= y -> line_buffer e !! Z.to_nat y = Some l -> text_at y e = Ok (text l).
Proof. intros Hy Hl. unfold text_at. rewrite (fetch_Ok _ _ _ Hy Hl). reflexivity. Qed.
Lemma editor_ok_like e t : like (s_term e) t -> editor_ok e -> editor_ok (with_term t e).
Proof. intros L [S M C X Y P]. split; try assumption. exact (screen_like _ _ L S). Qed.

(** Following the cursor with the window. *)
Lemma adjust_x_spec e : screen_ok e -> 0 <= cursor_x e < 2 ^ 31 -> 0 <= window_x_offset e < 2 ^ 31 ->
  exists w, adjust_window_for_cursor_x e = with_window w (window_y_offset e) e /\ 0 <= w <= cursor_x e /\ cursor_x e <= w + (term_width e - 1) /\
    (window_x_offset e <= cursor_x e <= window_x_offset e + (term_width e - 1) -> w = window_x_offset e).
Proof.
  intros S Hx Hw. pose proof (screen_bounds e S) as [B _]. unfold adjust_window_for_cursor_x.
  destruct (Z.ltb_spec (cursor_x e) (window_x_offset e)); cbn [window_x_offset window_y_offset cursor_x term_width with_window];
    rewrite (sub32_small (term_width e)) by lia; rewrite add32_small by lia.
  - rewrite (proj2 (Z.ltb_ge _ _)) by lia. eexists. split; [reflexivity|]. lia.
  - destruct (Z.ltb_spec (window_x_offset e + (term_width e - 1)) (cursor_x e)).
    + rewrite sub32_small by lia. eexists. split; [reflexivity|]. lia.
    + exists (window_x_offset e). split; [now destruct e|]. lia.
Qed.
Lemma adjust_down_spec e : screen_ok e -> 0 <= cursor_y e < 2 ^ 31 -> 0 <= window_y_offset e <= cursor_y e ->
  exists w, adjust_window_for_cursor_down e = with_window (window_x_offset e) w e /\ 0 <= w <= cursor_y e /\ cursor_y e <= w + (term_height e - 1).
Proof.
  intros S Hy Hw. pose proof (screen_bounds e S) as [_ B]. unfold adjust_window_for_cursor_down.
  rewrite (sub32_small (term_height e)) by lia. rewrite add32_small by lia.
  destruct (Z.ltb_spec (window_y_offset e + (term_height e - 1)) (cursor_y e)).
  - rewrite sub32_small by lia. eexists. split; [reflexivity|]. lia.
  - exists (window_y_offset e). split; [now destruct e|]. lia.
Qed.
Lemma adjust_up_spec e : 0 <= cursor_y e -> 0 <= window_y_offset e -> cursor_y e <= window_y_offset e + (term_height e - 1) -> 1 <= term_height e ->
  exists w, adjust_window_for_cursor_up e = with_window (window_x_offset e) w e /\ 0 <= w <= cursor_y e /\ cursor_y e <= w + (term_height e - 1).
Proof.
  intros Hy Hw Hh H1. unfold adjust_window_for_cursor_up. destruct (Z.ltb_spec (cursor_y e) (window_y_offset e)).
  - eexists. split; [reflexivity|]. lia.
  - exists (window_y_offset e). split; [now destruct e|]. lia.
Qed.

(** [e'] is [e] with the cursor at [(x, y)] and the window and preferred column moved. *)
Definition moved (x y : Z) (e e' : editor) : Prop :=
  exists wx wy p, e' = with_window wx wy (with_preffered p (with_cursor x y e)).
Lemma moved_lines x y e e' : moved x y e e' -> line_buffer e' = line_buffer e /\ s_term e' = s_term e /\ cursor_x e' = x /\ cursor_y e' = y.
Proof. intros (wx & wy & p & ->). auto. Qed.

Lemma moved_ok x y wx wy p e l : editor_ok e -> 0 <= y -> line_buffer e !! Z.to_nat y = Some l -> 0 <= x <= Z.of_nat (length (text l)) ->
  0 <= wx <= x -> x <= wx + (term_width e - 1) -> 0 <= wy <= y -> y <= wy + (term_height e - 1) -> 0 <= p ->
  editor_ok (with_window wx wy (with_preffered p (with_cursor x y e))).
Proof.
  intros [S M C X Y P] Hy Hl Hx H1 H2 H3 H4 Hp.
  split; [destruct S; split; assumption|exact M|split; [exact Hy|exists l; auto]|split; assumption|split; assumption|exact Hp].
Qed.

Lemma prefer_cursor_spec x y wx wy p e l : editor_ok e -> 0 <= y -> line_buffer e !! Z.to_nat y = Some l -> 0 <= x <= Z.of_nat (length (text l)) ->
  0 <= wx < 2 ^ 31 -> 0 <= wy <= y -> y <= wy + (term_height e - 1) ->
  exists w, prefer_cursor (with_window wx wy (with_preffered p (with_cursor x y e))) = with_window w wy (with_preffered x (with_cursor x y e)) /\
    editor_ok (with_window w wy (with_preffered x (with_cursor x y e))) /\ (wx <= x <= wx + (term_width e - 1) -> w = wx).
Proof.
  intros O Hy Hl Hx Hw H3 H4. pose proof (ok_small _ O) as [_ M]. specialize (M _ _ Hl). unfold prefer_cursor.
  destruct (adjust_x_spec (with_preffered x (with_window wx wy (with_preffered p (with_cursor x y e))))) as (w & E & W1 & W2 & W3);
    [pose proof (ok_screen _ O) as [A B C D]; split; assumption|cbn; lia|cbn; lia|].
  exists w. split; [exact E|]. cbn in W1, W2, W3. split; [|exact W3].
  apply (moved_ok x y w wy x e l); assumption || lia.
Qed.

Definition text_len (y : Z) (e : editor) : Z :=
  match line_buffer e !! Z.to_nat y with Some l => Z.of_nat (length (text l)) | None => 0 end.
(** Where the arrow keys go. *)
Definition left_of (e : editor) : Z * Z :=
  if cursor_x e <? 1 then if 0 <? cursor_y e then (text_len (cursor_y e - 1) e, cursor_y e - 1) else (cursor_x e, cursor_y e)
  else (cursor_x e - 1, cursor_y e).
Definition right_of (e : editor) : Z * Z :=
  if text_len (cursor_y e) e <? cursor_x e + 1 then
    if cursor_y e + 1 <? num_lines e then (0, cursor_y e + 1) else (cursor_x e, cursor_y e)
  else (cursor_x e + 1, cursor_y e).
Definition above (e : editor) : Z * Z :=
  if 0 <? cursor_y e then (Z.min (preffered_x e) (text_len (cursor_y e - 1) e), cursor_y e - 1) else (cursor_x e, cursor_y e).
Definition below (e : editor) : Z * Z :=
  if cursor_y e + 1 <? num_lines e then (Z.min (preffered_x e) (text_len (cursor_y e + 1) e), cursor_y e + 1) else (cursor_x e, cursor_y e).
(** A move keeps the editor in order and, from the first column, shows it as long as the cursor fits. *)
Definition moves_to (o : outcome editor) (xy : Z * Z) (e : editor) : Prop :=
  exists e', o = Ok e' /\ moved xy.1 xy.2 e e' /\ editor_ok e' /\ (window_x_offset e = 0 -> xy.1 <= term_width e - 1 -> window_x_offset e' = 0).

Lemma with_same e : with_window (window_x_offset e) (window_y_offset e) (with_preffered (preffered_x e) (with_cursor (cursor_x e) (cursor_y e) e)) = e.
Proof. now destruct e. Qed.
Lemma line_there e y : 0 <= y < num_lines e -> exists l, line_buffer e !! Z.to_nat y = Some l /\ text_len y e = Z.of_nat (length (text l)).
Proof.
  intros H. destruct (lookup_lt_is_Some_2 (line_buffer e) (Z.to_nat y)) as [l Hl]; [unfold num_lines in H; lia|].
  exists l. unfold text_len. rewrite Hl. auto.
Qed.
Lemma moves_nowhere e : editor_ok e -> moves_to (Ok e) (cursor_x e, cursor_y e) e.
Proof. intros O. exists e. split; [reflexivity|]. split; [|auto]. eexists _, _, _. symmetry. apply with_same. Qed.
(** The end of the horizontal moves. *)
Lemma moves_prefer x y wx wy p e : editor_ok e -> 0 <= y < num_lines e -> 0 <= x <= text_len y e ->
  wx = window_x_offset e -> 0 <= wy <= y -> y <= wy + (term_height e - 1) ->
  moves_to (Ok (prefer_cursor (with_window wx wy (with_preffered p (with_cursor x y e))))) (x, y) e.
Proof.
  intros O Hy Hx -> H3 H4. destruct (line_there e y Hy) as (l & Hl & El). rewrite El in Hx.
  pose proof (ok_wx _ O) as [X1 X2]. pose proof (cursor_bounds e (ok_small _ O) (ok_cursor _ O)) as [CX CY].
  destruct (prefer_cursor_spec x y (window_x_offset e) wy p e l O) as (w & E & O' & K); [lia|exact Hl|lia|lia|lia|lia|].
  rewrite E. eexists. split; [reflexivity|]. split; [eexists _, _, _; reflexivity|]. split; [exact O'|].
  cbn [fst window_x_offset with_window]. intros H0 H1. rewrite K by lia. exact H0.
Qed.

Lemma move_cursor_left_spec e : editor_ok e -> moves_to (move_cursor_left e) (left_of e) e.
Proof.
  intros O. pose proof (cursor_bounds e (ok_small _ O) (ok_cursor _ O)) as [CX CY]. pose proof (ok_wy _ O) as [Y1 Y2].
  pose proof (screen_bounds e (ok_screen _ O)) as [_ B]. pose proof (ok_cursor _ O) as (_ & l0 & Hl0 & X0).
  assert (T0 : text_len (cursor_y e) e = Z.of_nat (length (text l0))) by (unfold text_len; now rewrite Hl0).
  unfold move_cursor_left, left_of.
  destruct (Z.ltb_spec (cursor_x e) 1); [destruct (Z.ltb_spec 0 (cursor_y e))|].
  - destruct (line_there e (cursor_y e - 1)) as (l & Hl & El); [lia|]. rewrite (text_at_ok e (cursor_y e - 1) l ltac:(lia) Hl), El.
    destruct (adjust_up_spec (with_cursor (Z.of_nat (length (text l))) (cursor_y e - 1) e)) as (w & E & W1 & W2); [cbn; lia..|].
    rewrite (bind_Ok_l _ _ (text l) eq_refl). rewrite E. cbn [mbind outcome_bind].
    apply (moves_prefer (Z.of_nat (length (text l))) (cursor_y e - 1) (window_x_offset e) w (preffered_x e) e O); [lia|lia|reflexivity|exact W1|exact W2].
  - cbn [mbind outcome_bind]. rewrite <- (with_same e) at 1.
    apply (moves_prefer (cursor_x e) (cursor_y e) (window_x_offset e) (window_y_offset e) (preffered_x e) e O); [lia|lia|reflexivity|lia|lia].
  - cbn [mbind outcome_bind].
    apply (moves_prefer (cursor_x e - 1) (cursor_y e) (window_x_offset e) (window_y_offset e) (preffered_x e) e O); [lia|lia|reflexivity|lia|lia].
Qed.

Lemma move_cursor_right_spec e : editor_ok e -> moves_to (move_cursor_right e) (right_of e) e.
Proof.
  intros O. pose proof (cursor_bounds e (ok_small _ O) (ok_cursor _ O)) as [CX CY]. pose proof (ok_wy _ O) as [Y1 Y2].
  pose proof (screen_bounds e (ok_screen _ O)) as [_ B]. pose proof (ok_cursor _ O) as (_ & l & Hl & X0). pose proof (ok_small _ O) as [ML _].
  assert (T0 : text_len (cursor_y e) e = Z.of_nat (length (text l))) by (unfold text_len; now rewrite Hl).
  unfold move_cursor_right, right_of. rewrite (text_at_ok e (cursor_y e) l ltac:(lia) Hl), T0. rewrite (bind_Ok_l _ _ (text l) eq_refl).
  rewrite (add32_small (cursor_x e)), (add32_small (cursor_y e)) by lia.
  destruct (Z.ltb_spec (Z.of_nat (length (text l))) (cursor_x e + 1)); [destruct (Z.ltb_spec (cursor_y e + 1) (num_lines e))|].
  - destruct (adjust_down_spec (with_cursor 0 (cursor_y e + 1) e)) as (w & E & W1 & W2); [destruct (ok_screen _ O); split; assumption|cbn; lia|cbn; lia|].
    rewrite E. cbv zeta.
    destruct (line_there e (cursor_y e + 1)) as (l1 & Hl1 & El1); [lia|].
    apply (moves_prefer 0 (cursor_y e + 1) (window_x_offset e) w (preffered_x e) e O); [lia|lia|reflexivity|exact W1|exact W2].
  - cbv zeta. rewrite <- (with_same e) at 1.
    apply (moves_prefer (cursor_x e) (cursor_y e) (window_x_offset e) (window_y_offset e) (preffered_x e) e O); [lia|lia|reflexivity|lia|lia].
  - cbv zeta.
    apply (moves_prefer (cursor_x e + 1) (cursor_y e) (window_x_offset e) (window_y_offset e) (preffered_x e) e O); [lia|lia|reflexivity|lia|lia].
Qed.

(** The vertical moves: to the preferred column. *)
Lemma adjust_for_line_spec y e : editor_ok e -> 0 <= y < num_lines e ->
  exists w, adjust_cursor_for_line (with_cursor (cursor_x e) y e)
    = Ok (with_window w (window_y_offset e) (with_cursor (Z.min (preffered_x e) (text_len y e)) y e)) /\
    0 <= w <= Z.min (preffered_x e) (text_len y e) /\ Z.min (preffered_x e) (text_len y e) <= w + (term_width e - 1) /\
    (window_x_offset e = 0 -> Z.min (preffered_x e) (text_len y e) <= term_width e - 1 -> w = 0).
Proof.
  intros O Hy. destruct (line_there e y Hy) as (l & Hl & El). pose proof (ok_small _ O) as [_ M]. specialize (M _ _ Hl).
  pose proof (ok_pref _ O). pose proof (ok_wx _ O) as [X1 X2]. pose proof (cursor_bounds e (ok_small _ O) (ok_cursor _ O)) as [CX CY].
  unfold adjust_cursor_for_line.
  rewrite (bind_Ok_l _ _ (text l) (text_at_ok (with_cursor (cursor_x e) y e) y l ltac:(lia) Hl)). cbv zeta.
  rewrite El. set (n := Z.of_nat (length (text l))) in *.
  assert (Em : (if n <? preffered_x (with_cursor (cursor_x e) y e) then n else preffered_x (with_cursor (cursor_x e) y e)) = Z.min (preffered_x e) n).
  { cbn [preffered_x with_cursor]. destruct (Z.ltb_spec n (preffered_x e)); lia. }
  rewrite Em.
  destruct (adjust_x_spec (with_cursor (Z.min (preffered_x e) n) y e)) as (w & E & W1 & W2 & W3);
    [destruct (ok_screen _ O); split; assumption|cbn [cursor_x with_cursor]; lia|cbn [window_x_offset with_cursor]; lia|].
  exists w. cbn [cursor_x with_cursor window_x_offset term_width] in W1, W2, W3. split; [f_equal; exact E|]. split; [exact W1|]. split; [exact W2|]. intros Z0 Z1. rewrite W3 by lia. exact Z0.
Qed.
Lemma moves_vertical y w wy e : editor_ok e -> 0 <= y < num_lines e ->
  0 <= w <= Z.min (preffered_x e) (text_len y e) -> Z.min (preffered_x e) (text_len y e) <= w + (term_width e - 1) ->
  (window_x_offset e = 0 -> Z.min (preffered_x e) (text_len y e) <= term_width e - 1 -> w = 0) ->
  0 <= wy <= y -> y <= wy + (term_height e - 1) ->
  moves_to (Ok (with_window w wy (with_cursor (Z.min (preffered_x e) (text_len y e)) y e))) (Z.min (preffered_x e) (text_len y e), y) e.
Proof.
  intros O Hy W1 W2 W3 Y1 Y2. destruct (line_there e y Hy) as (l & Hl & El). pose proof (ok_pref _ O).
  eexists. split; [reflexivity|]. split; [exists w, wy, (preffered_x e); reflexivity|]. split; [|exact W3].
  apply (moved_ok (Z.min (preffered_x e) (text_len y e)) y w wy (preffered_x e) e l O); try assumption; lia.
Qed.
Lemma move_cursor_up_spec e : editor_ok e -> moves_to (move_cursor_up e) (above e) e.
Proof.
  intros O. pose proof (cursor_bounds e (ok_small _ O) (ok_cursor _ O)) as [CX CY]. pose proof (ok_wy _ O) as [Y1 Y2].
  pose proof (screen_bounds e (ok_screen _ O)) as [_ B]. unfold move_cursor_up, above.
  destruct (Z.ltb_spec 0 (cursor_y e)); [|apply moves_nowhere; exact O].
  destruct (adjust_for_line_spec (cursor_y e - 1) e O ltac:(lia)) as (w & E & W1 & W2 & W3). rewrite (bind_Ok_l _ _ _ E).
  destruct (adjust_up_spec (with_window w (window_y_offset e) (with_cursor (Z.min (preffered_x e) (text_len (cursor_y e - 1) e)) (cursor_y e - 1) e)))
    as (wy & E2 & V1 & V2); [cbn; lia..|].
  rewrite E2. apply (moves_vertical _ w wy e O); assumption || lia.
Qed.
Lemma move_cursor_down_spec e : editor_ok e -> moves_to (move_cursor_down e) (below e) e.
Proof.
  intros O. pose proof (cursor_bounds e (ok_small _ O) (ok_cursor _ O)) as [CX CY]. pose proof (ok_wy _ O) as [Y1 Y2].
  pose proof (ok_small _ O) as [ML _]. unfold move_cursor_down, below. rewrite add32_small by lia.
  destruct (Z.ltb_spec (cursor_y e + 1) (num_lines e)); [|apply moves_nowhere; exact O].
  destruct (adjust_for_line_spec (cursor_y e + 1) e O ltac:(lia)) as (w & E & W1 & W2 & W3). rewrite (bind_Ok_l _ _ _ E).
  destruct (adjust_down_spec (with_window w (window_y_offset e) (with_cursor (Z.min (preffered_x e) (text_len (cursor_y e + 1) e)) (cursor_y e + 1) e)))
    as (wy & E2 & V1 & V2); [destruct (ok_screen _ O); split; assumption|cbn; lia|cbn; lia|].
  rewrite E2. apply (moves_vertical _ w wy e O); assumption || lia.
Qed.

(** ** The document *)
Definition flat_line (l : line) : list Z := text l ++ ending l.
Definition flat_lines (ls : list line) : list Z := concat (map flat_line ls).
Definition flat (e : editor) : list Z := flat_lines (line_buffer e).
Definition offset_of (x y : Z) (e : editor) : nat := (length (flat_lines (take (Z.to_nat y) (line_buffer e))) + Z.to_nat x)%nat.
Definition offset (e : editor) : nat := offset_of (cursor_x e) (cursor_y e) e.
Definition uniform (nl : list Z) (e : editor) : Prop := Forall (fun l => ending l = nl) (line_buffer e).

Lemma flat_lines_app a b : flat_lines (a ++ b) = flat_lines a ++ flat_lines b.
Proof. unfold flat_lines. now rewrite map_app, concat_app. Qed.

(** The line of the cursor and its neighbours. *)
Lemma cursor_split e : cursor_in e -> exists A l B, line_buffer e = A ++ l :: B /\ length A = Z.to_nat (cursor_y e) /\
  line_buffer e !! Z.to_nat (cursor_y e) = Some l /\ 0 <= cursor_x e <= Z.of_nat (length (text l)) /\ 0 <= cursor_y e.
Proof.
  intros (Hy & l & Hl & Hx). exists (take (Z.to_nat (cursor_y e)) (line_buffer e)), l, (drop (S (Z.to_nat (cursor_y e))) (line_buffer e)).
  pose proof (lookup_lt_Some _ _ _ Hl). split; [symmetry; now apply take_drop_middle|]. rewrite length_take. split; [lia|auto].
Qed.
Lemma take_before {A} (a : list A) l b n : length a = n -> take n (a ++ l :: b) = a.
Proof. intros <-. apply take_app_length. Qed.
Lemma offset_split e A l B : line_buffer e = A ++ l :: B -> length A = Z.to_nat (cursor_y e) ->
  offset e = (length (flat_lines A) + Z.to_nat (cursor_x e))%nat.
Proof. intros E L. unfold offset, offset_of. rewrite E. now rewrite (take_before _ _ _ _ L). Qed.
Lemma flat_cursor e A l B : line_buffer e = A ++ l :: B -> length A = Z.to_nat (cursor_y e) -> cursor_x e <= Z.of_nat (length (text l)) ->
  take (offset e) (flat e) = flat_lines A ++ take (Z.to_nat (cursor_x e)) (text l) /\
  drop (offset e) (flat e) = drop (Z.to_nat (cursor_x e)) (text l) ++ ending l ++ flat_lines B.
Proof.
  intros E L Hx. rewrite (offset_split _ _ _ _ E L). unfold flat. rewrite E, flat_lines_app.
  change (flat_lines (l :: B)) with (flat_line l ++ flat_lines B). unfold flat_line. rewrite <- app_assoc.
  rewrite take_app_add, drop_app_add. rewrite take_app_le, drop_app_le by lia. auto.
Qed.

Lemma small_replace e A l B t t' nl : small e -> line_buffer e = A ++ l :: B -> Z.of_nat (length t') < 2 ^ 31 - 1 ->
  small (with_lines (A ++ mk_line t' nl :: B) (with_term t e)).
Proof.
  intros [N M] E Ht. unfold small, num_lines in *. cbn [line_buffer with_lines]. rewrite E, length_app in N.
  split; [rewrite length_app; exact N|]. intros y l' Hy.
  destruct (Nat.lt_trichotomy y (length A)) as [H|[->|H]].
  - rewrite lookup_app_l in Hy by lia. apply (M y). rewrite E, lookup_app_l by lia. exact Hy.
  - rewrite list_lookup_middle in Hy by reflexivity. injection Hy as <-. exact Ht.
  - rewrite lookup_app_r in Hy by lia. apply (M y). rewrite E, lookup_app_r by lia.
    destruct (y - length A)%nat eqn:K; [lia|]. exact Hy.
Qed.
Lemma set_text_split y s e A l B : line_buffer e = A ++ l :: B -> length A = Z.to_nat y -> 0 <= y ->
  set_text y s e = Ok (with_lines (A ++ mk_line s (ending l) :: B) e).
Proof.
  intros E L Hy. unfold set_text. rewrite E.
  rewrite (bind_Ok_l _ _ l) by (apply fetch_Ok; [exact Hy|rewrite <- L; now apply list_lookup_middle]).
  rewrite store_Ok by (rewrite length_app; cbn [length]; lia). rewrite <- L, insert_app_r_alt by lia.
  rewrite Nat.sub_diag. reflexivity.
Qed.

Lemma print_rest_of_line_drawn e : editor_ok e -> drawn (print_rest_of_line e) e.
Proof.
  intros [S M C X Y P]. pose proof (cursor_bounds e M C) as [CX CY]. pose proof (screen_bounds e S) as [BX BY].
  destruct C as (_ & l & Hl & Hx). destruct M as [_ MT]. specialize (MT _ _ Hl). destruct X as [X1 X2], Y as [Y1 Y2].
  unfold print_rest_of_line. rewrite (text_at_ok e (cursor_y e) l) by (lia || exact Hl). cbn [mbind outcome_bind].
  unfold substr. rewrite (proj2 (Z.ltb_ge _ _)) by lia. cbn [mbind outcome_bind].
  rewrite (sub32_small (cursor_x e)), (sub32_small (cursor_y e)) by lia.
  apply write_at_position_drawn; [exact S|lia|lia|]. rewrite length_take, length_drop. lia.
Qed.
Lemma clear_to_end_drawn e : screen_ok e -> window_in_x e -> window_in_y e -> cursor_x e < 2 ^ 31 -> cursor_y e < 2 ^ 31 -> drawn (clear_to_end e) e.
Proof.
  intros S [X1 X2] [Y1 Y2] CX CY. pose proof (screen_bounds e S) as [BX BY]. unfold clear_to_end.
  rewrite (sub32_small (cursor_x e)), (sub32_small (cursor_y e)) by lia. rewrite sub32_small by lia.
  apply write_clearline_drawn; [exact S|lia..].
Qed.
Lemma redraw_from_line_drawn n e : screen_ok e -> small e -> 0 <= n < 2 ^ 31 -> 0 <= window_y_offset e <= n -> n <= window_y_offset e + term_height e ->
  drawn (redraw_from_line n e) e.
Proof.
  intros S M Hn Y1 Y2. pose proof (screen_bounds e S) as [BX BY]. unfold redraw_from_line.
  rewrite (sub32_small n) by lia. cbv zeta. rewrite sub32_small by lia. apply draw_rect_drawn; [exact S|exact M|lia..].
Qed.

(** ** What the keys that edit do to the lines *)
Definition edited (o : outcome editor) (ls : list line) (x y : Z) : Prop :=
  exists e', o = Ok e' /\ line_buffer e' = ls /\ cursor_x e' = x /\ cursor_y e' = y /\ editor_ok e'.

Lemma edited_then_draw (o : outcome editor) f ls x y : (forall e, editor_ok e -> drawn (f e) e) -> edited o ls x y -> edited (o ≫= f) ls x y.
Proof.
  intros D (e & E & L & X & Y & O). destruct (D e O) as (t & E' & Lt). rewrite (bind_Ok_l _ _ _ E), E'.
  exists (with_term t e). split; [reflexivity|]. auto using editor_ok_like.
Qed.
Lemma replaced_ok e A l B t t' nl x : editor_ok e -> line_buffer e = A ++ l :: B -> length A = Z.to_nat (cursor_y e) ->
  like (s_term e) t -> Z.of_nat (length t') < 2 ^ 31 - 1 -> x = cursor_x e -> 0 <= x <= Z.of_nat (length t') ->
  editor_ok (with_lines (A ++ mk_line t' nl :: B) (with_term t e)).
Proof.
  intros [S M C X Y P] E L Lt Ht -> Hx.
  split; [|eapply small_replace; eauto| |exact X|exact Y|exact P].
  - destruct (screen_like _ _ Lt S) as [S1 S2 S3 S4]. split; assumption.
  - split; [apply C|]. exists (mk_line t' nl). split; [cbn [cursor_y with_lines with_term line_buffer]; rewrite <- L; now apply list_lookup_middle|exact Hx].
Qed.

Lemma char_insert_spec c e A l B : editor_ok e -> is_newline c = false -> line_buffer e = A ++ l :: B -> length A = Z.to_nat (cursor_y e) ->
  0 <= cursor_x e <= Z.of_nat (length (text l)) -> Z.of_nat (length (text l)) + 1 < 2 ^ 31 - 1 ->
  edited (handle_char_insert c e)
    (A ++ mk_line (take (Z.to_nat (cursor_x e)) (text l) ++ c :: drop (Z.to_nat (cursor_x e)) (text l)) (ending l) :: B)
    (cursor_x e + 1) (cursor_y e).
Proof.
  intros O Hc E L Hx Hl. unfold handle_char_insert. rewrite Hc. apply edited_then_draw; [apply print_rest_of_line_drawn|].
  pose proof (cursor_bounds e (ok_small _ O) (ok_cursor _ O)) as [CX CY]. pose proof (screen_bounds e (ok_screen _ O)) as [BX BY].
  pose proof (ok_wx _ O) as [X1 X2]. pose proof (ok_wy _ O) as [Y1 Y2].
  unfold insert_char. rewrite (sub32_small (cursor_x e)), (sub32_small (cursor_y e)) by lia.
  destruct (write_at_position_drawn (cursor_x e - window_x_offset e) (cursor_y e - window_y_offset e) [c] e) as (t & Et & Lt);
    [apply O|lia|lia|cbn; lia|].
  rewrite (bind_Ok_l _ _ _ Et). cbn [cursor_y cursor_x with_term].
  assert (Hlk : line_buffer e !! Z.to_nat (cursor_y e) = Some l) by (rewrite E, <- L; now apply list_lookup_middle).
  rewrite (bind_Ok_l _ _ _ (text_at_ok (with_term t e) (cursor_y e) l ltac:(lia) Hlk)). rewrite (proj2 (Z.ltb_ge _ _)) by lia.
  set (t' := take (Z.to_nat (cursor_x e)) (text l) ++ c :: drop (Z.to_nat (cursor_x e)) (text l)).
  assert (Lt' : Z.of_nat (length t') = Z.of_nat (length (text l)) + 1).
  { unfold t'. rewrite length_app, length_take. cbn [length]. rewrite length_drop. lia. }
  rewrite (bind_Ok_l _ _ _ (set_text_split (cursor_y e) t' (with_term t e) A l B E L ltac:(lia))).
  set (e2 := with_lines (A ++ mk_line t' (ending l) :: B) (with_term t e)).
  assert (O2 : editor_ok e2) by (eapply replaced_ok; eauto; lia).
  destruct (move_cursor_right_spec e2 O2) as (e3 & E3 & M3 & O3 & _). exists e3. split; [exact E3|].
  apply moved_lines in M3 as (L3 & _ & X3 & Y3).
  assert (T2 : text_len (cursor_y e2) e2 = Z.of_nat (length t')).
  { unfold text_len. cbn [line_buffer cursor_y e2 with_lines with_term]. unfold e2. cbn [line_buffer cursor_y with_lines with_term].
    rewrite <- L, list_lookup_middle by reflexivity. reflexivity. }
  unfold right_of in X3, Y3. rewrite T2, Lt' in X3, Y3.
  change (cursor_x e2) with (cursor_x e) in *. rewrite (proj2 (Z.ltb_ge _ _)) in X3, Y3 by lia.
  auto.
Qed.

Lemma screen_same e e' : s_term e' = s_term e -> term_width e' = term_width e -> term_height e' = term_height e -> screen_ok e -> screen_ok e'.
Proof. intros T W H [S1 S2 S3 S4]. split; rewrite ?T, ?W, ?H; assumption. Qed.
Ltac same_screen S := refine (screen_same _ _ _ _ _ S); reflexivity.
(** A line cut in two. *)
Lemma small_split e A l B x nl : small e -> line_buffer e = A ++ l :: B -> num_lines e + 1 < 2 ^ 31 - 1 ->
  small (with_lines (A ++ mk_line (take x (text l)) nl :: mk_line (drop x (text l)) nl :: B) e).
Proof.
  intros [N M] E Hn. split.
  - unfold num_lines in *. cbn [line_buffer with_lines]. rewrite E, length_app in Hn. rewrite length_app. cbn [length] in *. lia.
  - intros y l' Hy. cbn [line_buffer with_lines] in Hy. assert (Ml : Z.of_nat (length (text l)) < 2 ^ 31 - 1).
    { apply (M (length A)). rewrite E. now apply list_lookup_middle. }
    apply list_elem_of_lookup_2 in Hy. rewrite elem_of_app, !elem_of_cons in Hy.
    destruct Hy as [Hy|[->|[->|Hy]]]; cbn [text]; rewrite ?length_take, ?length_drop; try lia; apply list_elem_of_lookup_1 in Hy as [z Hz].
    + apply (M z). rewrite E, lookup_app_l by (eapply lookup_lt_Some; eauto). exact Hz.
    + apply (M (length A + S z)%nat). rewrite E, lookup_app_r by lia. replace (length A + S z - length A)%nat with (S z) by lia. exact Hz.
Qed.
Lemma insert_blank_line_drawn e : editor_ok e -> drawn (insert_blank_line e) e.
Proof.
  intros O. pose proof (cursor_bounds e (ok_small _ O) (ok_cursor _ O)) as [CX CY]. pose proof (screen_bounds e (ok_screen _ O)) as [BX BY].
  pose proof (ok_wy _ O) as [Y1 Y2]. pose proof (ok_small _ O) as [N _]. unfold insert_blank_line. rewrite sub32_small by lia.
  apply drawn_bind; [apply write_clearline_drawn; [exact (ok_screen _ O)|lia..]|].
  intros t L. pose proof (editor_ok_like _ _ L O) as O'. change (cursor_y (with_term t e)) with (cursor_y e). rewrite add32_small by lia.
  apply redraw_from_line_drawn; [apply O'|apply O'|lia|cbn; lia|cbn; lia].
Qed.
(** The cursor goes to the start of the next line, and the window follows. *)
Lemma next_line_spec e (l : line) : screen_ok e -> small e -> window_in_x e -> window_in_y e -> 0 <= preffered_x e ->
  cursor_x e < 2 ^ 31 -> 0 <= cursor_y e < 2 ^ 31 - 1 -> line_buffer e !! Z.to_nat (cursor_y e + 1) = Some l ->
  exists e', adjust_window_for_cursor_x (adjust_window_for_cursor_down (with_cursor 0 (add32 (cursor_y e) 1) e)) = e' /\
    line_buffer e' = line_buffer e /\ cursor_x e' = 0 /\ cursor_y e' = cursor_y e + 1 /\ editor_ok e'.
Proof.
  intros S M [X1 X2] [Y1 Y2] P CX CY Hl. pose proof (screen_bounds e S) as [BX BY]. rewrite add32_small by lia.
  destruct (adjust_down_spec (with_cursor 0 (cursor_y e + 1) e)) as (wy & Ey & W1 & W2);
    [same_screen S|cbn; lia|cbn; lia|].
  rewrite Ey.
  destruct (adjust_x_spec (with_window (window_x_offset e) wy (with_cursor 0 (cursor_y e + 1) e))) as (wx & Ex & V1 & V2 & _);
    [same_screen S|cbn; lia|cbn; lia|].
  change (window_x_offset (with_cursor 0 (cursor_y e + 1) e)) with (window_x_offset e). rewrite Ex.
  eexists. split; [reflexivity|]. split; [reflexivity|]. split; [reflexivity|]. split; [reflexivity|].
  split; [same_screen S|exact M| |split; assumption|split; assumption|exact P].
  split; [cbn; lia|]. exists l. split; [exact Hl|cbn; lia].
Qed.

Lemma newline_spec c e A l B : editor_ok e -> is_newline c = true -> line_buffer e = A ++ l :: B -> length A = Z.to_nat (cursor_y e) ->
  0 <= cursor_x e <= Z.of_nat (length (text l)) -> num_lines e < lb_capacity e -> num_lines e + 1 < 2 ^ 31 - 1 ->
  edited (handle_char_insert c e)
    (A ++ mk_line (take (Z.to_nat (cursor_x e)) (text l)) (ending l) :: mk_line (drop (Z.to_nat (cursor_x e)) (text l)) (ending l) :: B)
    0 (cursor_y e + 1).
Proof.
  intros O Hc E L Hx Hcap Hn. unfold handle_char_insert. rewrite Hc. apply edited_then_draw; [apply print_rest_of_line_drawn|].
  pose proof (cursor_bounds e (ok_small _ O) (ok_cursor _ O)) as [CX CY]. pose proof (screen_bounds e (ok_screen _ O)) as [BX BY].
  pose proof (ok_wx _ O) as [X1 X2]. pose proof (ok_wy _ O) as [Y1 Y2].
  assert (Hlk : line_buffer e !! Z.to_nat (cursor_y e) = Some l) by (rewrite E, <- L; now apply list_lookup_middle).
  pose proof (ok_small _ O) as [_ M]. specialize (M _ _ Hlk).
  unfold insert_newline. rewrite (bind_Ok_l _ _ _ (fetch_Ok _ (cursor_y e) l ltac:(lia) Hlk)).
  set (x := Z.to_nat (cursor_x e)).
  assert (Es : substr (cursor_x e) npos (text l) = Ok (drop x (text l))).
  { unfold substr. rewrite (proj2 (Z.ltb_ge _ _)) by lia. f_equal. apply take_ge. rewrite length_drop. unfold npos, x. lia. }
  rewrite (bind_Ok_l _ _ _ Es). rewrite add32_small by lia.
  set (r := mk_line (drop x (text l)) (ending l)).
  assert (Ee : emplace_own (cursor_y e + 1) r e = Ok (with_lines (A ++ l :: r :: B) e)).
  { unfold emplace_own. rewrite (proj2 (Z.eqb_neq _ _)), (proj2 (Z.ltb_ge _ _)) by lia. f_equal. f_equal. rewrite E.
    replace (A ++ l :: B) with ((A ++ [l]) ++ B) by now rewrite <- app_assoc.
    replace (Z.to_nat (cursor_y e + 1)) with (length (A ++ [l])) by (rewrite length_app; cbn [length]; lia).
    rewrite take_app_length, drop_app_length. now rewrite <- app_assoc. }
  rewrite (bind_Ok_l _ _ _ Ee). cbn [cursor_y cursor_x with_lines].
  set (e1 := with_lines (A ++ l :: r :: B) e).
  rewrite (bind_Ok_l _ _ _ (set_text_split (cursor_y e) (take x (text l)) e1 A l (r :: B) eq_refl L ltac:(lia))).
  set (ls := A ++ mk_line (take x (text l)) (ending l) :: r :: B). change (with_lines _ e1) with (with_lines ls e).
  assert (S1 : screen_ok (with_lines ls e)) by same_screen (ok_screen _ O).
  destruct (clear_to_end_drawn (with_lines ls e) S1 (ok_wx _ O) (ok_wy _ O)) as (t & Et & Lt); [cbn; lia|cbn; lia|].
  rewrite (bind_Ok_l _ _ _ Et).
  destruct (next_line_spec (with_term t (with_lines ls e)) r) as (e3 & E3 & L3 & X3 & Y3 & O3);
    [exact (screen_like _ _ Lt S1)|exact (small_split e A l B x _ (ok_small _ O) E Hn)|exact (ok_wx _ O)|exact (ok_wy _ O)|exact (ok_pref _ O)|cbn; lia|cbn; lia| |].
  - change (ls !! Z.to_nat (cursor_y e + 1) = Some r). unfold ls.
    rewrite lookup_app_r by lia. replace (Z.to_nat (cursor_y e + 1) - length A)%nat with 1%nat by lia. reflexivity.
  - cbv zeta. change (cursor_y e) with (cursor_y (with_term t (with_lines ls e))) at 1. rewrite E3.
    destruct (insert_blank_line_drawn e3 O3) as (t4 & E4 & L4). exists (with_term t4 e3). split; [exact E4|].
    split; [exact L3|]. split; [exact X3|]. split; [exact Y3|]. exact (editor_ok_like _ _ L4 O3).
Qed.

Lemma at_cursor e A l B : line_buffer e = A ++ l :: B -> length A = Z.to_nat (cursor_y e) -> line_buffer e !! Z.to_nat (cursor_y e) = Some l.
Proof. intros E L. rewrite E, <- L. now apply list_lookup_middle. Qed.

Lemma char_delete_spec e A l B : editor_ok e -> line_buffer e = A ++ l :: B -> length A = Z.to_nat (cursor_y e) ->
  0 <= cursor_x e < Z.of_nat (length (text l)) ->
  edited (handle_char_delete e) (A ++ mk_line (delete (Z.to_nat (cursor_x e)) (text l)) (ending l) :: B) (cursor_x e) (cursor_y e).
Proof.
  intros O E L Hx. pose proof (at_cursor _ _ _ _ E L) as Hl. pose proof (ok_small _ O) as [_ M]. specialize (M _ _ Hl).
  pose proof (cursor_bounds e (ok_small _ O) (ok_cursor _ O)) as [CX CY]. pose proof (ok_small _ O) as [N _].
  unfold handle_char_delete. rewrite (bind_Ok_l _ _ _ (text_at_ok e (cursor_y e) l ltac:(lia) Hl)).
  rewrite (proj2 (Z.ltb_lt _ _)) by lia. apply edited_then_draw; [apply print_rest_of_line_drawn|].
  rewrite (bind_Ok_l _ _ _ (set_text_split (cursor_y e) _ e A l B E L ltac:(lia))).
  set (e1 := with_lines _ e).
  assert (Ld : Z.of_nat (length (delete (Z.to_nat (cursor_x e)) (text l))) = Z.of_nat (length (text l)) - 1).
  { rewrite length_delete by (apply lookup_lt_is_Some_2; lia). lia. }
  assert (O1 : editor_ok e1).
  { unfold e1. rewrite <- (with_term_id e) at 2. eapply replaced_ok; eauto using like_refl; lia. }
  assert (B1 : cursor_x e1 < 2 ^ 31) by (change (cursor_x e1) with (cursor_x e); lia).
  assert (B2 : cursor_y e1 < 2 ^ 31) by (change (cursor_y e1) with (cursor_y e); lia).
  destruct (clear_to_end_drawn e1 (ok_screen _ O1) (ok_wx _ O1) (ok_wy _ O1) B1 B2) as (t & Et & Lt).
  exists (with_term t e1). split; [exact Et|]. split; [reflexivity|]. split; [reflexivity|]. split; [reflexivity|].
  exact (editor_ok_like _ _ Lt O1).
Qed.

Lemma delete_nothing_spec e A l : editor_ok e -> line_buffer e = A ++ [l] -> length A = Z.to_nat (cursor_y e) ->
  cursor_x e = Z.of_nat (length (text l)) ->
  edited (handle_char_delete e) (line_buffer e) (cursor_x e) (cursor_y e).
Proof.
  intros O E L Hx. pose proof (at_cursor _ _ _ _ E L) as Hl. pose proof (ok_small _ O) as [N _].
  pose proof (cursor_bounds e (ok_small _ O) (ok_cursor _ O)) as [CX CY].
  unfold handle_char_delete. rewrite (bind_Ok_l _ _ _ (text_at_ok e (cursor_y e) l ltac:(lia) Hl)).
  rewrite (proj2 (Z.ltb_ge _ _)) by lia. rewrite add32_small by lia.
  assert (num_lines e = cursor_y e + 1) by (unfold num_lines; rewrite E, length_app; cbn [length]; lia).
  rewrite (proj2 (Z.ltb_ge _ _)) by lia. apply edited_then_draw; [apply print_rest_of_line_drawn|].
  exists e. auto.
Qed.

(** Two lines become one. *)
Lemma merged_ok e A l m B : editor_ok e -> line_buffer e = A ++ l :: m :: B -> length A = Z.to_nat (cursor_y e) ->
  0 <= cursor_x e <= Z.of_nat (length (text l)) -> Z.of_nat (length (text l)) + Z.of_nat (length (text m)) < 2 ^ 31 - 1 ->
  editor_ok (with_lines (A ++ mk_line (text l ++ text m) (ending l) :: B) e).
Proof.
  intros [Sc [N M] C X Y P] E L Hx Hl. split; [same_screen Sc| | |exact X|exact Y|exact P].
  - split.
    + unfold num_lines in *. cbn [line_buffer with_lines]. rewrite E, length_app in N. rewrite length_app. cbn [length] in *. lia.
    + intros y l' Hy. cbn [line_buffer with_lines] in Hy.
      apply list_elem_of_lookup_2 in Hy. rewrite elem_of_app, !elem_of_cons in Hy.
      destruct Hy as [Hy|[->|Hy]]; cbn [text]; rewrite ?length_app; try lia; apply list_elem_of_lookup_1 in Hy as [z Hz].
      * apply (M z). rewrite E, lookup_app_l by (eapply lookup_lt_Some; eauto). exact Hz.
      * apply (M (length A + S (S z))%nat). rewrite E, lookup_app_r by lia. replace (length A + S (S z) - length A)%nat with (S (S z)) by lia. exact Hz.
  - split; [apply C|]. exists (mk_line (text l ++ text m) (ending l)). cbn [cursor_y cursor_x with_lines line_buffer text].
    split; [rewrite <- L; now apply list_lookup_middle|]. rewrite length_app. lia.
Qed.
Lemma merge_lines_spec e A l m B : line_buffer e = A ++ l :: m :: B -> length A = Z.to_nat (cursor_y e) -> 0 <= cursor_y e ->
  merge_lines (cursor_y e) (cursor_y e + 1) e = Ok (with_lines (A ++ mk_line (text l ++ text m) (ending l) :: B) e).
Proof.
  intros E L Hy. unfold merge_lines. rewrite (bind_Ok_l _ _ _ (text_at_ok e (cursor_y e) l Hy (at_cursor _ _ _ _ E L))).
  rewrite (bind_Ok_l _ _ (text m)).
  2: { apply text_at_ok; [lia|]. rewrite E, lookup_app_r by lia. replace (Z.to_nat (cursor_y e + 1) - length A)%nat with 1%nat by lia. reflexivity. }
  rewrite (bind_Ok_l _ _ _ (set_text_split (cursor_y e) _ e A l (m :: B) E L Hy)).
  unfold erase_line, num_lines. cbn [line_buffer with_lines]. rewrite length_app. cbn [length].
  rewrite (proj2 (Z.ltb_lt _ _)) by lia. f_equal.
  set (l1 := mk_line _ _). replace (A ++ l1 :: m :: B) with ((A ++ [l1]) ++ m :: B) by now rewrite <- app_assoc.
  replace (Z.to_nat (cursor_y e + 1)) with (length (A ++ [l1])) by (rewrite length_app; cbn [length]; lia).
  rewrite delete_middle, <- app_assoc. reflexivity.
Qed.
Lemma merge_spec e A l m B : editor_ok e -> line_buffer e = A ++ l :: m :: B -> length A = Z.to_nat (cursor_y e) ->
  cursor_x e = Z.of_nat (length (text l)) -> window_x_offset e = 0 -> Z.of_nat (length (text l)) + Z.of_nat (length (text m)) < 2 ^ 31 - 1 ->
  edited (handle_char_delete e) (A ++ mk_line (text l ++ text m) (ending l) :: B) (cursor_x e) (cursor_y e).
Proof.
  intros O E L Hx Hw Hl. pose proof (at_cursor _ _ _ _ E L) as Hlk. pose proof (ok_small _ O) as [N _].
  pose proof (cursor_bounds e (ok_small _ O) (ok_cursor _ O)) as [CX CY].
  unfold handle_char_delete. rewrite (bind_Ok_l _ _ _ (text_at_ok e (cursor_y e) l ltac:(lia) Hlk)).
  rewrite (proj2 (Z.ltb_ge _ _)) by lia. rewrite add32_small by lia.
  assert (Hn : num_lines e = cursor_y e + 2 + Z.of_nat (length B)) by (unfold num_lines; rewrite E, length_app; cbn [length]; lia).
  rewrite (proj2 (Z.ltb_lt (cursor_y e + 1) (num_lines e))) by lia. apply edited_then_draw; [apply print_rest_of_line_drawn|].
  rewrite (bind_Ok_l _ _ _ (merge_lines_spec e A l m B E L ltac:(lia))).
  pose proof (merged_ok e A l m B O E L ltac:(lia) Hl) as O1. set (e1 := with_lines _ e) in *.
  assert (Hn1 : num_lines e1 = num_lines e - 1).
  { unfold num_lines. change (line_buffer e1) with (A ++ mk_line (text l ++ text m) (ending l) :: B). rewrite E, !length_app. cbn [length]. lia. }
  change (cursor_y e1) with (cursor_y e). rewrite ?(add32_small (cursor_y e) 1) by lia. pose proof (ok_wy _ O) as [Y1 Y2]. pose proof (screen_bounds e (ok_screen _ O)) as [BX BY].
  assert (D : drawn (e0 ← redraw_from_line (cursor_y e + 1) e1;
      if num_lines e0 <? add32 (window_x_offset e0) (term_height e0)
      then write_clearline (window_x_offset e0) (sub32 (num_lines e0) (window_y_offset e0)) (term_width e0) e0 else Ok e0) e1).
  { apply drawn_bind; [apply redraw_from_line_drawn; [apply O1|apply O1|lia|cbn; lia|cbn; lia]|].
    intros t Lt. pose proof (editor_ok_like _ _ Lt O1) as O2. set (e2 := with_term t e1) in *.
    change (window_x_offset e2) with (window_x_offset e). change (term_height e2) with (term_height e). rewrite Hw, add32_small by lia.
    change (num_lines e2) with (num_lines e1). change (window_y_offset e2) with (window_y_offset e). change (term_width e2) with (term_width e).
    destruct (Z.ltb_spec (num_lines e1) (0 + term_height e)); [|apply drawn_ok]. rewrite sub32_small by lia.
    apply write_clearline_drawn; [apply O2|lia|change (term_height e2) with (term_height e); lia|lia|change (term_width e2) with (term_width e); lia]. }
  destruct D as (t & Et & Lt). exists (with_term t e1). split; [exact Et|]. split; [reflexivity|]. split; [reflexivity|].
  split; [reflexivity|]. exact (editor_ok_like _ _ Lt O1).
Qed.

(** ** Commands: what a key means, and what it does to the text *)
Inductive command := Up | Down | Left | Right | Type_ (c : Z) | Enter | Del | Back | Nothing.
Definition command_of (key : Z) (keys : input_state) : outcome command :=
  if is_vk key VK_UP then Ok Up else if is_vk key VK_DOWN then Ok Down
  else if is_vk key VK_LEFT then Ok Left else if is_vk key VK_RIGHT then Ok Right
  else if is_vk key VK_DELETE then Ok Del
  else c ← get_ascii_from_vk true key keys;
       Ok (if c =? 8 then Back else if c =? 0 then Nothing else if is_newline c then Enter else Type_ c).

(** What Delete takes away at the cursor, and Backspace before it. *)
Definition taken (nl : list Z) (e : editor) : nat :=
  if cursor_x e <? text_len (cursor_y e) e then 1 else if cursor_y e + 1 <? num_lines e then length nl else 0.
Definition taken_before (nl : list Z) (e : editor) : nat :=
  if 0 <? cursor_x e then 1 else if 0 <? cursor_y e then length nl else 0.
(** The text and the offset of the cursor after a command. *)
Definition edit_text (nl : list Z) (c : command) (e : editor) : list Z * nat :=
  let F := flat e in
  let o := offset e in
  match c with
  | Up => (F, offset_of (above e).1 (above e).2 e)
  | Down => (F, offset_of (below e).1 (below e).2 e)
  | Left => (F, (o - taken_before nl e)%nat)
  | Right => (F, (o + taken nl e)%nat)
  | Type_ c => (take o F ++ [c] ++ drop o F, (o + 1)%nat)
  | Enter => (take o F ++ nl ++ drop o F, (o + length nl)%nat)
  | Del => (take o F ++ drop (o + taken nl e) F, o)
  | Back => (take (o - taken_before nl e) F ++ drop o F, (o - taken_before nl e)%nat)
  | Nothing => (F, o)
  end.
(** When a command is carried out properly: there is room for what it adds, the vector
    need not grow, and lines are only joined where the window shows their start. *)
Definition ready (c : command) (e : editor) : Prop :=
  match c with
  | Type_ c => text_len (cursor_y e) e + 1 < 2 ^ 31 - 1
  | Enter => num_lines e < lb_capacity e /\ num_lines e + 1 < 2 ^ 31 - 1
  | Del => cursor_x e < text_len (cursor_y e) e \/ num_lines e <= cursor_y e + 1 \/
           (window_x_offset e = 0 /\ text_len (cursor_y e) e + text_len (cursor_y e + 1) e < 2 ^ 31 - 1)
  | Back => 0 < cursor_x e \/ cursor_y e = 0 \/
            (window_x_offset e = 0 /\ text_len (cursor_y e - 1) e <= term_width e - 1 /\
             text_len (cursor_y e - 1) e + text_len (cursor_y e) e < 2 ^ 31 - 1)
  | _ => True
  end.
(** A result that shows the text and the cursor of [s], in order. *)
Definition shows_text (nl : list Z) (o : outcome editor) (s : list Z * nat) : Prop :=
  exists e', o = Ok e' /\ editor_ok e' /\ uniform nl e' /\ (flat e', offset e') = s.

Lemma edited_shows nl o A A' x y s : edited o (A ++ A') x y -> length A = Z.to_nat y -> Forall (fun l => ending l = nl) (A ++ A') ->
  s = (flat_lines A ++ flat_lines A', (length (flat_lines A) + Z.to_nat x)%nat) -> shows_text nl o s.
Proof.
  intros (e & E & L & X & Y & O) HA U ->. exists e. split; [exact E|]. split; [exact O|]. unfold uniform, flat, offset, offset_of. rewrite L, X, Y.
  split; [exact U|]. rewrite flat_lines_app, <- HA, take_app_length. reflexivity.
Qed.
Lemma moved_shows nl o xy e s : moves_to o xy e -> uniform nl e -> s = (flat e, offset_of xy.1 xy.2 e) -> shows_text nl o s.
Proof.
  intros (e' & E & M & O & _) U ->. apply moved_lines in M as (L & _ & X & Y). exists e'. split; [exact E|]. split; [exact O|].
  unfold uniform, flat, offset, offset_of. rewrite L, X, Y. auto.
Qed.

Lemma flat_next e y l : 0 <= y -> line_buffer e !! Z.to_nat y = Some l ->
  flat_lines (take (Z.to_nat (y + 1)) (line_buffer e)) = flat_lines (take (Z.to_nat y) (line_buffer e)) ++ text l ++ ending l.
Proof.
  intros Hy Hl. replace (Z.to_nat (y + 1)) with (S (Z.to_nat y)) by lia. rewrite (take_S_r _ _ _ Hl), flat_lines_app.
  f_equal. unfold flat_lines. cbn [map concat]. apply app_nil_r.
Qed.
Lemma text_len_at e y l : line_buffer e !! Z.to_nat y = Some l -> text_len y e = Z.of_nat (length (text l)).
Proof. intros H. unfold text_len. now rewrite H. Qed.
Lemma uniform_at nl e y l : uniform nl e -> line_buffer e !! y = Some l -> ending l = nl.
Proof. intros U H. exact (Forall_lookup_1 _ _ _ _ U H). Qed.

(** The arrow keys along the line. *)
Lemma left_offset nl e : editor_ok e -> uniform nl e ->
  offset_of (left_of e).1 (left_of e).2 e = (offset e - taken_before nl e)%nat /\ (taken_before nl e <= offset e)%nat.
Proof.
  intros O U. destruct (cursor_bounds e (ok_small _ O) (ok_cursor _ O)) as [CX CY]. unfold left_of, taken_before, offset, offset_of.
  destruct (Z.ltb_spec (cursor_x e) 1), (Z.ltb_spec 0 (cursor_x e)); try lia; [|cbn [fst snd]; lia].
  destruct (Z.ltb_spec 0 (cursor_y e)); cbn [fst snd]; [|lia].
  destruct (line_there e (cursor_y e - 1)) as (l & Hl & El); [lia|]. pose proof (flat_next e (cursor_y e - 1) l ltac:(lia) Hl) as Hf.
  replace (cursor_y e - 1 + 1) with (cursor_y e) in Hf by lia. rewrite Hf, El, !length_app, (uniform_at _ _ _ _ U Hl). lia.
Qed.
Lemma right_offset nl e : editor_ok e -> uniform nl e -> offset_of (right_of e).1 (right_of e).2 e = (offset e + taken nl e)%nat.
Proof.
  intros O U. destruct (cursor_bounds e (ok_small _ O) (ok_cursor _ O)) as [CX CY]. pose proof (ok_cursor _ O) as (_ & l & Hl & Hx).
  pose proof (text_len_at _ _ _ Hl) as T. unfold right_of, taken, offset, offset_of. rewrite T.
  destruct (Z.ltb_spec (Z.of_nat (length (text l))) (cursor_x e + 1)), (Z.ltb_spec (cursor_x e) (Z.of_nat (length (text l)))); try lia;
    [|cbn [fst snd]; lia].
  destruct (Z.ltb_spec (cursor_y e + 1) (num_lines e)); cbn [fst snd]; [|lia].
  rewrite (flat_next e (cursor_y e) l ltac:(lia) Hl), !length_app, (uniform_at _ _ _ _ U Hl). lia.
Qed.

(** Typing. *)
Lemma type_shows nl c e : editor_ok e -> uniform nl e -> is_newline c = false -> ready (Type_ c) e ->
  shows_text nl (handle_char_insert c e) (edit_text nl (Type_ c) e).
Proof.
  intros O U Hc R. destruct (cursor_split e (ok_cursor _ O)) as (A & l & B & E & L & Hl & Hx & Hy).
  cbn [ready] in R. rewrite (text_len_at _ _ _ Hl) in R. destruct (flat_cursor e A l B E L) as [T D]; [lia|].
  unfold uniform in U. rewrite E in U. apply Forall_app in U as [UA UB]. apply Forall_cons in UB as [Ul UB].
  eapply edited_shows; [exact (char_insert_spec c e A l B O Hc E L Hx R)|exact L|apply Forall_app; split; [exact UA|apply Forall_cons; auto]|].
  cbn [edit_text]. rewrite T, D, (offset_split _ _ _ _ E L). f_equal; [|lia].
  change (flat_lines (?a :: B)) with (flat_line a ++ flat_lines B). unfold flat_line. cbn [text ending app]. now rewrite <- !app_assoc.
Qed.
Lemma enter_shows nl c e : editor_ok e -> uniform nl e -> is_newline c = true -> ready Enter e ->
  shows_text nl (handle_char_insert c e) (edit_text nl Enter e).
Proof.
  intros O U Hc [R1 R2]. destruct (cursor_split e (ok_cursor _ O)) as (A & l & B & E & L & Hl & Hx & Hy).
  destruct (flat_cursor e A l B E L) as [T D]; [lia|].
  unfold uniform in U. rewrite E in U. apply Forall_app in U as [UA UB]. apply Forall_cons in UB as [Ul UB].
  pose proof (newline_spec c e A l B O Hc E L Hx R1 R2) as Sp.
  set (l1 := mk_line (take _ _) _) in Sp. set (r := mk_line (drop _ _) _) in Sp.
  assert (Ea : A ++ l1 :: r :: B = (A ++ [l1]) ++ r :: B) by now rewrite <- app_assoc. rewrite Ea in Sp.
  eapply edited_shows; [exact Sp|rewrite length_app; cbn [length]; lia| |].
  - rewrite <- Ea. apply Forall_app; split; [exact UA|]. repeat (apply Forall_cons; split); assumption.
  - cbn [edit_text]. rewrite T, D, (offset_split _ _ _ _ E L), flat_lines_app.
    change (flat_lines [l1]) with (flat_line l1 ++ []). change (flat_lines (r :: B)) with (flat_line r ++ flat_lines B).
    unfold flat_line, l1, r. cbn [text ending]. rewrite Ul, app_nil_r, <- !app_assoc. f_equal. rewrite !length_app, length_take. lia.
Qed.
Lemma del_shows nl e : editor_ok e -> uniform nl e -> ready Del e -> shows_text nl (handle_char_delete e) (edit_text nl Del e).
Proof.
  intros O U R. destruct (cursor_split e (ok_cursor _ O)) as (A & l & B & E & L & Hl & Hx & Hy).
  destruct (flat_cursor e A l B E L) as [T D]; [lia|]. pose proof U as U0.
  unfold uniform in U. rewrite E in U. apply Forall_app in U as [UA UB]. apply Forall_cons in UB as [Ul UB].
  assert (Ln : num_lines e = cursor_y e + 1 + Z.of_nat (length B)) by (unfold num_lines; rewrite E, length_app; cbn [length]; lia).
  cbn [ready] in R. cbn [edit_text]. unfold taken. rewrite (text_len_at _ _ _ Hl) in *.
  rewrite <- drop_drop, T, D, (offset_split _ _ _ _ E L). set (x := Z.to_nat (cursor_x e)).
  destruct (Z.ltb_spec (cursor_x e) (Z.of_nat (length (text l)))) as [Hlt|Hge]; [|destruct (Z.ltb_spec (cursor_y e + 1) (num_lines e))].
  - eapply edited_shows; [exact (char_delete_spec e A l B O E L ltac:(lia))|exact L|apply Forall_app; split; [exact UA|apply Forall_cons; auto]|].
    f_equal. change (flat_lines (?a :: B)) with (flat_line a ++ flat_lines B). unfold flat_line. cbn [text ending].
    rewrite delete_take_drop, <- !app_assoc. fold x. repeat f_equal.
    rewrite drop_app_le by (rewrite length_drop; unfold x; lia). rewrite drop_drop. now rewrite Nat.add_1_r.
  - destruct R as [R|[R|[Rw Rl]]]; [lia..|]. destruct B as [|m B]; [cbn [length] in Ln; lia|]. apply Forall_cons in UB as [Um UB].
    assert (Hm : line_buffer e !! Z.to_nat (cursor_y e + 1) = Some m).
    { rewrite E, lookup_app_r by lia. replace (Z.to_nat (cursor_y e + 1) - length A)%nat with 1%nat by lia. reflexivity. }
    rewrite (text_len_at _ _ _ Hm) in Rl.
    eapply edited_shows; [exact (merge_spec e A l m B O E L ltac:(lia) Rw Rl)|exact L|apply Forall_app; split; [exact UA|apply Forall_cons; auto]|].
    f_equal. change (flat_lines (?a :: B)) with (flat_line a ++ flat_lines B). unfold flat_line. cbn [text ending].
    rewrite (take_ge (text l)), (drop_ge (text l)) by (unfold x; lia). rewrite Ul, Um. cbn [app]. rewrite drop_app_length, <- !app_assoc. reflexivity.
  - destruct B as [|m B]; [|cbn [length] in Ln; lia].
    destruct (delete_nothing_spec e A l O E L ltac:(lia)) as (e' & E' & L' & X' & Y' & O').
    exists e'. split; [exact E'|]. split; [exact O'|]. unfold uniform, flat, offset, offset_of. rewrite L', X', Y'. split; [exact U0|].
    rewrite E, (take_before _ _ _ _ L), flat_lines_app. rewrite drop_0. f_equal. rewrite <- app_assoc. f_equal.
    change (flat_lines [l]) with (flat_line l ++ []). unfold flat_line. rewrite <- app_assoc. now rewrite (app_assoc (take x _)), take_drop.
Qed.

(** Backspace goes left and deletes. *)
Lemma left_ready nl e e1 : editor_ok e -> ready Back e -> cursor_x e <> 0 \/ cursor_y e <> 0 -> line_buffer e1 = line_buffer e ->
  cursor_x e1 = (left_of e).1 -> cursor_y e1 = (left_of e).2 ->
  (window_x_offset e = 0 -> (left_of e).1 <= term_width e - 1 -> window_x_offset e1 = 0) ->
  taken nl e1 = taken_before nl e /\ ready Del e1.
Proof.
  intros O R H L1 X1 Y1 W. destruct (cursor_bounds e (ok_small _ O) (ok_cursor _ O)) as [CX CY].
  destruct (ok_cursor _ O) as (_ & l & Hl & Hx). pose proof (text_len_at _ _ _ Hl) as T.
  assert (T1 : forall y, text_len y e1 = text_len y e) by (intros y; unfold text_len; now rewrite L1).
  assert (N1 : num_lines e1 = num_lines e) by (unfold num_lines; now rewrite L1).
  cbn [ready] in *. unfold taken, taken_before. rewrite X1, Y1, N1, !T1. unfold left_of in *.
  destruct (Z.ltb_spec (cursor_x e) 1), (Z.ltb_spec 0 (cursor_x e)); try lia.
  - destruct (Z.ltb_spec 0 (cursor_y e)); [|lia]. cbn [fst snd] in *. rewrite Z.ltb_irrefl.
    rewrite (proj2 (Z.ltb_lt _ _)) by lia. split; [reflexivity|]. right. right. destruct R as [R|[R|(R1 & R2 & R3)]]; [lia..|].
    replace (cursor_y e - 1 + 1) with (cursor_y e) by lia. auto.
  - cbn [fst snd] in *. rewrite (proj2 (Z.ltb_lt _ _)) by lia. split; [reflexivity|]. left. lia.
Qed.
Lemma back_shows nl e : editor_ok e -> uniform nl e -> ready Back e ->
  shows_text nl (if negb (cursor_x e =? 0) || negb (cursor_y e =? 0) then e ← move_cursor_left e; handle_char_delete e else Ok e) (edit_text nl Back e).
Proof.
  intros O U R. destruct (left_offset nl e O U) as [Lo Le].
  assert (C : (negb (cursor_x e =? 0) || negb (cursor_y e =? 0) = false /\ cursor_x e = 0 /\ cursor_y e = 0) \/
              (negb (cursor_x e =? 0) || negb (cursor_y e =? 0) = true /\ (cursor_x e <> 0 \/ cursor_y e <> 0))).
  { destruct (Z.eqb_spec (cursor_x e) 0), (Z.eqb_spec (cursor_y e) 0); cbn [negb orb]; auto. }
  destruct C as [(-> & X0 & Y0)|(-> & H)].
  - exists e. split; [reflexivity|]. split; [exact O|]. split; [exact U|]. cbn [edit_text]. unfold taken_before.
    rewrite X0, Y0. cbn [Z.ltb Z.compare]. rewrite Nat.sub_0_r, take_drop. reflexivity.
  - destruct (move_cursor_left_spec e O) as (e1 & E1 & M1 & O1 & W1). rewrite (bind_Ok_l _ _ _ E1).
    apply moved_lines in M1 as (L1 & _ & X1 & Y1). destruct (left_ready nl e e1 O R H L1 X1 Y1 W1) as [Tk R1].
    assert (U1 : uniform nl e1) by (unfold uniform; rewrite L1; exact U).
    pose proof (del_shows nl e1 O1 U1 R1) as D. cbn [edit_text] in *. rewrite Tk in D.
    assert (F1 : flat e1 = flat e) by (unfold flat; now rewrite L1).
    assert (Of1 : offset e1 = (offset e - taken_before nl e)%nat) by (rewrite <- Lo; unfold offset, offset_of; now rewrite L1, X1, Y1).
    rewrite F1, Of1 in D. replace (offset e - taken_before nl e + taken_before nl e)%nat with (offset e) in D by lia. exact D.
Qed.

Lemma edit_key_shows nl c key keys e : editor_ok e -> uniform nl e -> command_of key keys = Ok c -> ready c e ->
  shows_text nl (edit_key key keys e) (edit_text nl c e).
Proof.
  intros O U Hc R. unfold command_of in Hc. unfold edit_key.
  destruct (is_vk key VK_UP). { injection Hc as <-. eapply moved_shows; [apply move_cursor_up_spec; exact O|exact U|reflexivity]. }
  destruct (is_vk key VK_DOWN). { injection Hc as <-. eapply moved_shows; [apply move_cursor_down_spec; exact O|exact U|reflexivity]. }
  destruct (is_vk key VK_LEFT).
  { injection Hc as <-. eapply moved_shows; [apply move_cursor_left_spec; exact O|exact U|]. cbn [edit_text]. now rewrite (proj1 (left_offset nl e O U)). }
  destruct (is_vk key VK_RIGHT).
  { injection Hc as <-. eapply moved_shows; [apply move_cursor_right_spec; exact O|exact U|]. cbn [edit_text]. now rewrite (right_offset nl e O U). }
  destruct (is_vk key VK_DELETE). { injection Hc as <-. now apply del_shows. }
  apply bind_Ok in Hc as (ch & Ec & Hc). rewrite (bind_Ok_l _ _ _ Ec).
  destruct (ch =? 8). { injection Hc as <-. now apply back_shows. }
  destruct (ch =? 0); cbn [negb]. { injection Hc as <-. exists e. split; [reflexivity|]. split; [exact O|]. split; [exact U|reflexivity]. }
  destruct (is_newline ch) eqn:En; injection Hc as <-; [now apply enter_shows|now apply type_shows].
Qed.

(** ** A key, from the event to the screen *)
Lemma toggle_cursor_drawn e : editor_ok e -> drawn (toggle_cursor e) e.
Proof.
  intros O. destruct (cursor_bounds e (ok_small _ O) (ok_cursor _ O)) as [CX CY]. pose proof (ok_wx _ O) as [X1 X2]. pose proof (ok_wy _ O) as [Y1 Y2].
  pose proof (ok_small _ O) as [N _]. unfold toggle_cursor. rewrite (sub32_small (cursor_x e)), (sub32_small (cursor_y e)) by lia.
  apply toggle_drawn; [apply O|lia|lia].
Qed.
Lemma after_key_drawn wx wy e : editor_ok e -> drawn (after_key wx wy e) e.
Proof.
  intros O. destruct (cursor_bounds e (ok_small _ O) (ok_cursor _ O)) as [CX CY]. pose proof (ok_wx _ O) as [X1 X2]. pose proof (ok_wy _ O) as [Y1 Y2].
  pose proof (ok_small _ O) as [N _]. pose proof (screen_bounds e (ok_screen _ O)) as [BX BY]. unfold after_key.
  apply drawn_bind.
  - destruct (_ || _); [|apply drawn_ok]. unfold do_full_redraw. apply draw_rect_drawn; [apply O|apply O|lia..].
  - intros t L. pose proof (editor_ok_like _ _ L O) as O1. apply drawn_bind; [apply toggle_cursor_drawn; exact O1|].
    intros t2 L2. pose proof (editor_ok_like _ _ L2 O1) as O2.
    apply update_coordinate_display_drawn; [apply O2|unfold is_u32; cbn; lia|unfold is_u32; cbn; lia].
Qed.
Lemma command_like t e c : ready c e -> ready c (with_term t e).
Proof. now destruct c. Qed.

Section keys.
Context {S : Type} {FC : file_calls S}.
(** C31: in a text whose lines all end the same way, a key that is not Escape or a command
    with Control changes the text and the cursor as an editor of one long text would (a
    character typed, a line ended, a character or a line ending deleted, the cursor moved
    along it), keeps cursor, window and lines in order, and draws inside the screen.  [ready]
    excludes Enter when the vector of lines is full (edit.cpp:440), two lines that are joined
    while the window is scrolled to the right, or by Backspace where the first one reaches the
    end of the screen (edit.cpp:488), and lines and texts of 2^31 - 1 characters. *)
Theorem handle_keypress_edits s_cwd nl c key keys evs e (s : S) :
  editor_ok e -> uniform nl e -> control_held e = false -> is_vk key VK_ESCAPE = false -> command_of key keys = Ok c -> ready c e ->
  exists e', handle_keypress s_cwd key keys evs e s = Ok (Running, evs, e', s) /\
    editor_ok e' /\ uniform nl e' /\ (flat e', offset e') = edit_text nl c e.
Proof.
  intros O U Hh He Hc R. unfold handle_keypress. rewrite Hh. cbv zeta.
  destruct (toggle_cursor_drawn e O) as (t & Et & Lt). rewrite (bind_Ok_l _ _ _ Et), He.
  pose proof (editor_ok_like _ _ Lt O) as O1.
  destruct (edit_key_shows nl c key keys (with_term t e) O1 U Hc (command_like t e c R)) as (e2 & E2 & O2 & U2 & F2).
  rewrite (bind_Ok_l _ _ _ E2).
  destruct (after_key_drawn (window_x_offset e) (window_y_offset e) e2 O2) as (t3 & E3 & L3). rewrite (bind_Ok_l _ _ _ E3).
  exists (with_term t3 e2). split; [reflexivity|]. split; [exact (editor_ok_like _ _ L3 O2)|]. split; [exact U2|].
  transitivity (edit_text nl c (with_term t e)); [exact F2|]. destruct c; reflexivity.
Qed.
End keys.

(** ** Examples: a screen of 40 columns, one row of text and the last row *)
Definition screen_40 : terminal := mk_term 40 2 80 40 0 1 7 0 0x0f blank (repeat blank 80) 0 0.
Definition on_screen (ls : list line) (x y wx : Z) : editor := mk_ed ls 8 x y x wx y 40 1 [] false false screen_40.
Import StdioFile.Plain.
Definition holding_a : input_state := mk_input (<[16%nat := true]> (repeat false 127)) 0 0 (repeat no_event 64).
Definition note : editor := on_screen [mk_line [104; 105] [13; 10]; mk_line [121] [13; 10]] 1 0 0.
Lemma note_ok : editor_ok note /\ uniform [13; 10] note.
Proof.
  split.
  - split; [split; cbn; lia| | |split; cbn; lia|split; cbn; lia|cbn; lia].
    + split; [reflexivity|]. intros [|[|y]] l; [intros [= <-]; reflexivity|intros [= <-]; reflexivity|discriminate].
    + split; [cbn; lia|]. exists (mk_line [104; 105] [13; 10]). split; [reflexivity|cbn; lia].
  - repeat constructor.
Qed.
Lemma handle_keypress_edits_witness : exists e', handle_keypress [] (vk VK_A) holding_a [] note (∅ : Plain.store) = Ok (Running, [], e', ∅) /\
  editor_ok e' /\ uniform [13; 10] e' /\ (flat e', offset e') = ([104; 97; 105; 13; 10; 121; 13; 10], 2%nat).
Proof.
  exact (handle_keypress_edits (FC := Plain.calls) [] [13; 10] (Type_ 97) (vk VK_A) holding_a [] note ∅ (proj1 note_ok) (proj2 note_ok) eq_refl eq_refl eq_refl eq_refl).
Defined.
