(* ===== verification/EditFiles.v ===== *)
(** * The text editor: loading and saving

    [crlf ts] is the contents of a file whose lines are [ts], each ended by CR LF. *)
From S2P Require Import Prelude Vfs StdioFile Terminal TerminalProofs Input Edit EditProofs.
#[local] Open Scope Z_scope.

Definition no_newline (t : list Z) : Prop := Forall (fun c => is_newline c = false) t.
Definition crlf_line (t : list Z) : line := mk_line t [13; 10].
Definition crlf (ts : list (list Z)) : list Z := flat_lines (map crlf_line ts).

(** ** Cutting the text into lines *)
Lemma find_newline_spec t r : no_newline t -> forall i, find_newline (t ++ 13 :: r) i = i + Z.of_nat (length t).
Proof.
  induction 1 as [|c t Hc Ht IH]; intros i; cbn [app find_newline length].
  - change (is_newline 13) with true. cbv iota. lia.
  - rewrite Hc, IH. lia.
Qed.
Lemma substr_middle (a b c : list Z) : substr (Z.of_nat (length a)) (Z.of_nat (length b)) (a ++ b ++ c) = Ok b.
Proof.
  unfold substr. rewrite !length_app. rewrite (proj2 (Z.ltb_ge _ _)) by lia. f_equal.
  rewrite Nat2Z.id, drop_app_length. replace (Z.to_nat _) with (length b) by lia. apply take_app_length.
Qed.
Lemma crlf_cons t ts : crlf (t :: ts) = t ++ 13 :: 10 :: crlf ts.
Proof. unfold crlf, flat_lines. cbn [map concat flat_line crlf_line text ending]. unfold flat_line. cbn [text ending crlf_line]. now rewrite <- app_assoc. Qed.
Lemma length_crlf ts : (2 * length ts <= length (crlf ts))%nat.
Proof. induction ts as [|t ts IH]; [cbn; lia|]. rewrite crlf_cons, length_app. cbn [length]. lia. Qed.

(** [e] with other lines, in a vector of some capacity. *)
Definition with_buffer (n : Z) (ls : list line) (e : editor) : editor := with_capacity n (with_lines ls e).
Lemma emplace_back_buffer l e : exists n, emplace_back l e = with_buffer n (line_buffer e ++ [l]) e.
Proof.
  unfold emplace_back. destruct (num_lines e =? lb_capacity e); [eexists; reflexivity|].
  exists (lb_capacity e). now destruct e.
Qed.

Lemma build_lines_spec ts : Forall no_newline ts -> forall fuel pre e, (length ts < fuel)%nat ->
  Z.of_nat (length pre) + Z.of_nat (length (crlf ts)) < 2 ^ 32 - 1 ->
  exists n, build_lines fuel (Z.of_nat (length pre)) (pre ++ crlf ts) e = Ok (with_buffer n (line_buffer e ++ map crlf_line ts) e).
Proof.
  induction 1 as [|t ts Ht Hts IH]; intros fuel pre e Hf Hl; (destruct fuel as [|fuel]; [cbn [length] in Hf; lia|]); cbn [build_lines].
  - change (crlf []) with (@nil Z). rewrite !app_nil_r. rewrite Z.ltb_irrefl. exists (lb_capacity e). now destruct e.
  - rewrite crlf_cons in *. rewrite !length_app in *. cbn [length] in *. rewrite (proj2 (Z.ltb_lt _ _)) by lia.
    assert (Ef : find_first_of (Z.of_nat (length pre)) (pre ++ t ++ 13 :: 10 :: crlf ts) = Z.of_nat (length pre) + Z.of_nat (length t)).
    { unfold find_first_of. rewrite Nat2Z.id, drop_app_length. apply find_newline_spec. exact Ht. }
    cbv zeta. rewrite Ef. set (second := Z.of_nat (length pre) + Z.of_nat (length t)) in *.
    assert (Es : second = Z.of_nat (length (pre ++ t))) by (rewrite length_app; lia).
    rewrite (bind_Ok_l _ _ 13).
    2: { apply fetch_Ok; [lia|]. rewrite app_assoc, Es, Nat2Z.id. now apply list_lookup_middle. }
    rewrite sub32_small by lia. replace (second - Z.of_nat (length pre)) with (Z.of_nat (length t)) by lia.
    rewrite (bind_Ok_l _ _ _ (substr_middle pre t (13 :: 10 :: crlf ts))). cbn [Z.eqb Pos.eqb].
    assert (E2 : substr second 2 (pre ++ t ++ 13 :: 10 :: crlf ts) = Ok [13; 10]).
    { rewrite Es, app_assoc. exact (substr_middle (pre ++ t) [13; 10] (crlf ts)). }
    rewrite (bind_Ok_l _ _ _ E2). rewrite (add32_small second) by lia. rewrite add32_small by lia.
    rewrite (proj2 (Z.eqb_neq second npos)) by (unfold npos; lia).
    destruct (emplace_back_buffer (mk_line t [13; 10]) e) as (n & ->).
    destruct (IH fuel (pre ++ t ++ [13; 10]) (with_buffer n (line_buffer e ++ [mk_line t [13; 10]]) e)) as (n' & E'); [lia|rewrite !length_app; cbn [length]; lia|].
    rewrite <- !app_assoc in E'. cbn [app] in E'.
    replace (Z.of_nat (length (pre ++ t ++ [13; 10]))) with (second + 1 + 1) in E' by (rewrite !length_app; cbn [length]; lia).
    exists n'. rewrite E'. change (line_buffer (with_buffer n ?l e)) with l. cbn [map]. now rewrite <- app_assoc.
Qed.
Lemma build_lines_from_raw_str_spec ts e : Forall no_newline ts -> Z.of_nat (length (crlf ts)) < 2 ^ 32 - 1 ->
  exists n, build_lines_from_raw_str (crlf ts) e = Ok (with_buffer n (line_buffer e ++ map crlf_line ts) e).
Proof.
  intros H L. unfold build_lines_from_raw_str. pose proof (length_crlf ts).
  exact (build_lines_spec ts H (Datatypes.S (length (crlf ts))) [] e ltac:(lia) ltac:(cbn [length]; lia)).
Qed.

(** ** Saving writes the text *)
Section files.
Context {S : Type} {FC : file_calls S}.
Definition pieces (ls : list line) : list (list Z) := concat (map (fun l => [text l; ending l]) ls).
Lemma concat_pieces ls : concat (pieces ls) = flat_lines ls.
Proof.
  induction ls as [|l ls IH]; [reflexivity|]. change (pieces (l :: ls)) with (text l :: ending l :: pieces ls).
  cbn [concat]. rewrite IH. unfold flat_lines. cbn [map concat]. unfold flat_line. now rewrite <- app_assoc.
Qed.
Lemma write_lines_pieces ls : forall (f : FILE S) (s : S), write_lines ls f s = fwrite_pieces (pieces ls) f s.
Proof.
  induction ls as [|l ls IH]; intros f s; [reflexivity|]. change (pieces (l :: ls)) with (text l :: ending l :: pieces ls).
  cbn [write_lines fwrite_pieces]. destruct (fwrite (text l) _ _ _ _) as [[[n1 f1] s1]|]; [|reflexivity]. cbn [mbind outcome_bind].
  destruct (fwrite (ending l) _ _ _ _) as [[[n2 f2] s2]|]; [|reflexivity]. cbn [mbind outcome_bind]. apply IH.
Qed.
Lemma save_named_ok s_cwd e (s s' : S) : write_file s_cwd (current_file_name e) [119; 98] (pieces (line_buffer e)) s = Ok (true, s') ->
  save_named s_cwd e s = (e' ← write_info_message file_saved_as (current_file_name e) e; Ok (e', s')).
Proof.
  unfold write_file, save_named. destruct (fopen _ _ _ _) as [[[f|] s1]|]; cbn [mbind outcome_bind]; [|discriminate|discriminate].
  rewrite write_lines_pieces. destruct (fwrite_pieces _ _ _) as [[f2 s2]|]; cbn [mbind outcome_bind]; [|discriminate].
  destruct (fclose _ _) as [[z s3]|]; cbn [mbind outcome_bind]; [|discriminate]. intros [= ->]. reflexivity.
Qed.
End files.
Lemma write_info_message_drawn m n e : screen_ok e -> Z.of_nat (length m) <= term_width e -> Z.of_nat (length n) < 2 ^ 31 -> drawn (write_info_message m n e) e.
Proof.
  intros Sc Hm Hn. pose proof (screen_bounds e Sc) as [BX BY]. unfold write_info_message.
  apply drawn_bind; [apply set_color_drawn|]. intros t1 L1. pose proof (screen_like _ _ L1 Sc) as S1.
  apply drawn_bind; [apply write_at_position_drawn; [exact S1|cbn; lia|cbn; lia|lia]|]. intros t2 L2. pose proof (screen_like _ _ L2 S1) as S2.
  apply drawn_bind; [|intros; apply set_color_drawn].
  apply write_at_position_drawn; [exact S2|cbn [term_width with_term]; lia|cbn; lia|lia].
Qed.

(** ** Starting *)
Record term_fits (t : terminal) : Prop := {
  tf_size : 32 <= t_width t /\ 2 <= t_height t < 2 ^ 32;
  tf_total : 0 <= t_total_size t <= Z.of_nat (length (t_screen t));
  tf_cells : t_width t * t_height t <= Z.of_nat (length (t_screen t)) /\ t_width t * t_height t < 2 ^ 32 }.
Definition start (t : terminal) : editor := mk_ed [] 0 0 0 0 0 0 (t_width t) (sub32 (t_height t) 1) [] false false t.
Lemma start_screen t : term_fits t -> screen_ok (start t).
Proof.
  intros [Hs Ht Hc]. split; cbn [s_term term_width term_height start]; [reflexivity| | |]; rewrite sub32_small by lia; [lia| |];
    replace (t_height t - 1 + 1) with (t_height t) by lia; apply Hc.
Qed.
Lemma clear_screen_drawn e : 0 <= t_total_size (s_term e) <= Z.of_nat (length (t_screen (s_term e))) -> drawn (clear_screen e) e.
Proof.
  intros H. unfold clear_screen, clear.
  destruct (fill_cells_spec (Z.to_nat (t_total_size (s_term e))) (t_clear_val (s_term e)) 0 (t_screen (s_term e))) as (l & E & L & _); [lia|lia|].
  rewrite (bind_Ok_l _ _ (set_cursor 0 (set_screen l (s_term e)))) by (rewrite (bind_Ok_l _ _ _ E); reflexivity).
  eexists. split; [reflexivity|]. split; [split; reflexivity|exact L].
Qed.
Lemma show_lines_drawn n : forall o e, screen_ok e -> small e -> window_y_offset e = 0 -> 0 <= o -> o + Z.of_nat n <= num_lines e ->
  o + Z.of_nat n <= term_height e -> drawn (show_lines n o e) e.
Proof.
  induction n as [|n IH]; intros o e Sc M W Ho Hn Hh; [apply drawn_ok|]. pose proof (screen_bounds e Sc) as [BX BY]. pose proof M as [N Mt].
  cbn [show_lines]. destruct (line_there e o) as (l & Hl & _); [lia|]. specialize (Mt _ _ Hl).
  rewrite (bind_Ok_l _ _ _ (text_at_ok e o l Ho Hl)). unfold substr. rewrite (proj2 (Z.ltb_ge _ _)) by lia.
  rewrite (bind_Ok_l _ _ _ eq_refl). rewrite W, sub32_small by lia.
  apply drawn_bind; [apply write_at_position_drawn; [exact Sc|lia|lia|rewrite length_take, length_drop; lia]|].
  intros t L. apply (IH (o + 1) (with_term t e)); [exact (screen_like _ _ L Sc)|exact M|exact W|lia|cbn; change (num_lines (with_term t e)) with (num_lines e); lia|cbn; lia].
Qed.

(** The editor with lines and a name but nothing done yet. *)
Definition loaded (n : Z) (ls : list line) (name : list Z) (e : editor) : editor := with_name name (with_buffer n ls e).
Lemma small_crlf ts e n : Z.of_nat (length (crlf ts)) < 2 ^ 31 - 1 -> small (with_buffer n (map crlf_line ts) e).
Proof.
  intros H. pose proof (length_crlf ts). split; [unfold num_lines; cbn [line_buffer with_buffer with_capacity with_lines]; rewrite length_map; lia|].
  intros y l Hy. cbn [line_buffer with_buffer with_capacity with_lines] in Hy. apply list_lookup_fmap_Some in Hy as (t & -> & Hy). cbn [text crlf_line].
  apply list_elem_of_lookup_2 in Hy. clear -H Hy. revert H. induction ts as [|u ts IH]; [inversion Hy|]. rewrite crlf_cons, length_app. cbn [length].
  apply elem_of_cons in Hy as [->|Hy]; intros H; [lia|]. apply IH; [exact Hy|lia].
Qed.
Lemma start_lines ts e n : let ls := map crlf_line ts in
  let e' := if num_lines (with_buffer n ls e) =? 0 then emplace_back (mk_line [] []) (with_buffer n ls e) else with_buffer n ls e in
  cursor_x e = 0 -> cursor_y e = 0 -> window_x_offset e = 0 -> window_y_offset e = 0 -> preffered_x e = 0 -> screen_ok e ->
  Z.of_nat (length (crlf ts)) < 2 ^ 31 - 1 ->
  editor_ok e' /\ flat e' = crlf ts /\ offset e' = 0%nat /\ current_file_name e' = current_file_name e.
Proof.
  intros ls e' X Y WX WY P Sc Hl. pose proof (screen_bounds e Sc) as [BX BY]. pose proof (small_crlf ts e n Hl) as M.
  assert (G : forall m l ls', small (with_buffer m (l :: ls') e) -> editor_ok (with_buffer m (l :: ls') e)).
  { intros m l ls' M'. split; [same_screen Sc|exact M'| |split; cbn; lia|split; cbn; lia|cbn; lia].
    split; [cbn; lia|]. exists l. cbn [cursor_y cursor_x with_buffer with_capacity with_lines line_buffer]. rewrite X, Y. split; [reflexivity|lia]. }
  assert (Of : forall m ls', offset (with_buffer m ls' e) = 0%nat).
  { intros m ls'. unfold offset, offset_of. cbn [cursor_y cursor_x with_buffer with_capacity with_lines line_buffer]. rewrite X, Y. reflexivity. }
  unfold e'. destruct ts as [|t ts].
  - change (num_lines _ =? 0) with true. cbv iota. destruct (emplace_back_buffer (mk_line [] []) (with_buffer n ls e)) as (m & ->).
    change (with_buffer m _ _) with (with_buffer m [mk_line [] []] e). split; [|split; [reflexivity|split; [apply Of|reflexivity]]].
    apply G. split; [reflexivity|]. intros [|y] l; [|discriminate]. intros [= <-]. reflexivity.
  - change (num_lines _ =? 0) with false. cbv iota. split; [exact (G n _ _ M)|]. split; [reflexivity|]. split; [apply Of|reflexivity].
Qed.

Section main.
Context {S : Type} {FC : file_calls S} {FL : file_laws S}.

Lemma load_file_spec e p ts (s : S) : good_path p -> ~ refused p FILE_READ -> files s !! p = Some (crlf ts) ->
  Forall no_newline ts -> Z.of_nat (length (crlf ts)) < 2 ^ 31 - 1 -> line_buffer e = [] ->
  exists n s', load_file [] p e s = Ok (true, loaded n (map crlf_line ts) p e, s') /\ files s' = files s.
Proof.
  intros Hp Hr Hf Ht Hl El. destruct (read_file_correct p s Hp Hr) as (s1 & E2 & F2); [rewrite Hf; intros c [= <-]; lia|]. rewrite Hf in E2.
  destruct (build_lines_from_raw_str_spec ts e Ht) as (n & E3); [lia|]. rewrite El in E3. cbn [app] in E3.
  exists n, s1. split; [|exact F2]. unfold load_file. rewrite (bind_Ok_l _ _ _ E2), (bind_Ok_l _ _ _ E3). reflexivity.
Qed.
Lemma main_loads t p ts (s : S) : term_fits t -> good_path p -> ~ refused p FILE_READ -> files s !! p = Some (crlf ts) ->
  Forall no_newline ts -> Z.of_nat (length (crlf ts)) < 2 ^ 31 - 1 ->
  exists e s', main t [] (Some p) s = Ok (e, s') /\ files s' = files s /\ editor_ok e /\ flat e = crlf ts /\ offset e = 0%nat /\ current_file_name e = p.
Proof.
  intros Ft Hp Hr Hf Ht Hl. pose proof (start_screen t Ft) as S0. pose proof (screen_bounds _ S0) as [BX BY].
  unfold main. cbv zeta. change (mk_ed [] 0 0 0 0 0 0 (t_width t) (sub32 (t_height t) 1) [] false false t) with (start t). set (e1 := start t) in *.
  destruct (set_color_drawn 4 7 e1) as (t1 & E1 & L1). rewrite (bind_Ok_l _ _ _ E1). pose proof (screen_like _ _ L1 S0) as S1.
  destruct (clear_screen_drawn (with_term t1 e1)) as (t2 & E2 & L2).
  { destruct L1 as [[_ T1] L1]. cbn [s_term with_term]. rewrite T1, L1. apply Ft. }
  rewrite (bind_Ok_l _ _ _ E2). pose proof (screen_like _ _ L2 S1) as S2.
  destruct (update_coordinate_display_drawn (with_term t2 (with_term t1 e1)) S2) as (t3 & E3 & L3); [split; cbn; lia|split; cbn; lia|].
  rewrite (bind_Ok_l _ _ _ E3). pose proof (screen_like _ _ L3 S2) as S3. change (with_term t3 _) with (with_term t3 e1) in *.
  destruct (load_file_spec (with_term t3 e1) p ts s Hp Hr Hf Ht Hl eq_refl) as (n & s1 & E4 & F4).
  rewrite (bind_Ok_l _ _ (loaded n (map crlf_line ts) p (with_term t3 e1), s1)) by (rewrite (bind_Ok_l _ _ _ E4); reflexivity).
  set (e4 := loaded n (map crlf_line ts) p (with_term t3 e1)).
  assert (S4 : screen_ok e4) by same_screen S3. pose proof (small_crlf ts (with_name p (with_term t3 e1)) n Hl) as M4. change (with_buffer _ _ _) with e4 in M4.
  destruct (show_lines_drawn (Z.to_nat (Z.min (num_lines e4) (term_height e4))) 0 e4 S4 M4 eq_refl ltac:(lia)) as (t5 & E5 & L5);
    [pose proof (screen_bounds _ S4); unfold num_lines; lia|pose proof (screen_bounds _ S4); unfold num_lines; lia|].
  rewrite (bind_Ok_l _ _ _ E5). pose proof (screen_like _ _ L5 S4) as S5.
  destruct (toggle_drawn 0 0 (with_term t5 e4) S5 ltac:(lia)) as (t6 & E6 & L6); [pose proof (screen_bounds _ S5); lia|].
  change (toggle_cursor (with_term t5 e4)) with (toggle_cell_highlighted 0 0 (with_term t5 e4)). rewrite (bind_Ok_l _ _ _ E6).
  eexists _, s1. split; [reflexivity|]. split; [exact F4|].
  assert (S6 : screen_ok (with_name p (with_term t6 e1))) by same_screen (screen_like _ _ L6 S5).
  destruct (start_lines ts (with_name p (with_term t6 e1)) n eq_refl eq_refl eq_refl eq_refl eq_refl S6 Hl) as (O & F & Of & Nm).
  split; [exact O|]. split; [exact F|]. split; [exact Of|]. exact Nm.
Qed.
(** Saving puts the text in front of what is left of the file. *)
Lemma save_file_spec e evs (s : S) : editor_ok e -> current_file_name e <> [] -> good_path (current_file_name e) ->
  Z.of_nat (length (current_file_name e)) < 2 ^ 31 -> ~ refused (current_file_name e) (Z.lor FILE_CREATE FILE_WRITE) ->
  Z.of_nat (length (flat e)) <= capacity ->
  exists t s', save_file [] evs e s = Ok (Running, evs, with_term t e, s') /\
    files s' = <[current_file_name e := flat e ++ drop (length (flat e)) (default [] (files s !! current_file_name e))]> (files s).
Proof.
  intros O Hn Hp Hl Hr Hc. unfold flat in *.
  destruct (write_file_correct (current_file_name e) (pieces (line_buffer e)) s Hp Hr) as (s' & E & F); [rewrite concat_pieces; exact Hc|].
  destruct (write_info_message_drawn file_saved_as (current_file_name e) e (ok_screen _ O)) as (t & Et & _);
    [pose proof (screen_bounds _ (ok_screen _ O)); cbn; lia|exact Hl|].
  exists t, s'. rewrite <- (concat_pieces (line_buffer e)). split; [|exact F]. unfold save_file. rewrite bool_decide_false by exact Hn.
  rewrite (bind_Ok_l _ _ (with_term t e, s')); [reflexivity|]. rewrite (save_named_ok _ _ _ _ E), (bind_Ok_l _ _ _ Et). reflexivity.
Qed.

(** Loading a file whose lines end in CR LF shows exactly its text with the cursor at the start, and saving it again leaves every file as it was. *)
Theorem edit_load_save t p ts evs (s : S) : term_fits t -> good_path p -> ~ refused p FILE_READ -> ~ refused p (Z.lor FILE_CREATE FILE_WRITE) ->
  files s !! p = Some (crlf ts) -> Forall no_newline ts -> Z.of_nat (length (crlf ts)) < 2 ^ 31 - 1 -> Z.of_nat (length (crlf ts)) <= capacity ->
  p <> [] -> Z.of_nat (length p) < 2 ^ 31 ->
  exists e s1 e' s2, main t [] (Some p) s = Ok (e, s1) /\ editor_ok e /\ flat e = crlf ts /\ offset e = 0%nat /\
    save_file [] evs e s1 = Ok (Running, evs, e', s2) /\ files s2 = files s.
Proof.
  intros Ft Hp Hr Hw Hf Ht Hl Hc Hn Hpl. destruct (main_loads t p ts s Ft Hp Hr Hf Ht Hl) as (e & s1 & E & F & O & Fe & Of & Nm).
  destruct (save_file_spec e evs s1 O) as (t' & s2 & E2 & F2); rewrite ?Nm, ?Fe; try assumption.
  exists e, s1, (with_term t' e), s2. split; [exact E|]. split; [exact O|]. split; [exact Fe|]. split; [exact Of|]. split; [exact E2|].
  rewrite F2, Nm, Fe, F, Hf. cbn [default]. rewrite drop_all, app_nil_r. now apply insert_id.
Qed.
End main.

(** ** Examples, on the screen of EditProofs *)
Lemma screen_40_fits : term_fits screen_40.
Proof. split; cbn; lia. Qed.

Import StdioFile.Plain.
Definition two_lines : list (list Z) := [[104; 105]; [121; 111; 117]].
Lemma edit_load_save_witness : exists e s1 e' s2, main screen_40 [] (Some ab) ({[ab := crlf two_lines]} : Plain.store) = Ok (e, s1) /\ editor_ok e /\
  flat e = crlf two_lines /\ offset e = 0%nat /\ save_file [] [] e s1 = Ok (Running, [], e', s2) /\ files s2 = files ({[ab := crlf two_lines]} : Plain.store).
Proof.
  apply (@edit_load_save Plain.store calls laws screen_40 ab two_lines [] {[ab := crlf two_lines]} screen_40_fits I (fun H => H) (fun H => H)).
  - reflexivity.
  - repeat constructor.
  - reflexivity.
  - discriminate.
  - discriminate.
  - reflexivity.
Defined.

(** Lines that end in LF alone: the character after each is skipped. *)
Example lf_loses_characters :
  (e ← build_lines_from_raw_str [97; 10; 98; 99; 10] (on_screen [] 0 0 0); Ok (line_buffer e)) = Ok [mk_line [97] [10]; mk_line [99] [10]].
Proof. vm_compute. reflexivity. Qed.
(** A last line without an ending: the character at [npos] is read. *)
Example last_line_reads_outside : build_lines_from_raw_str [97; 98] (on_screen [] 0 0 0) = Fault OutOfBounds.
Proof. reflexivity. Qed.
(** In a new text Enter has no line ending to add, and the second one uses the lines
    after their memory was given back. *)
Definition new_text : editor := emplace_back (mk_line [] []) (start screen_40).
Example enter_in_a_new_text :
  (e ← handle_char_insert 10 new_text; Ok (line_buffer e, flat e)) = Ok ([mk_line [] []; mk_line [] []], []) /\
  (e ← handle_char_insert 10 new_text; handle_char_insert 10 e) = Fault UseAfterFree.
Proof. vm_compute. split; reflexivity. Qed.
(** Joining a line with the last one keeps the ending between them, not the one after. *)
Example join_keeps_the_wrong_ending :
  (e ← handle_char_delete (on_screen [mk_line [97] [13; 10]; mk_line [98] []] 1 0 0); Ok (flat e)) = Ok [97; 98; 13; 10].
Proof. vm_compute. reflexivity. Qed.
(** With the window moved to the right, joining lines clears cells behind the screen. *)
Example join_writes_behind_the_screen :
  handle_char_delete (on_screen [mk_line (repeat 97 50) [13; 10]; mk_line [98] [13; 10]] 50 0 11) = Fault OutOfBounds.
Proof. vm_compute. reflexivity. Qed.
