(* ===== verification/Cmos.v ===== *)
(** * The real-time clock (drivers/cmos.cpp, cmos.h)

    The chip is what its registers read as at each access of its ports: [port n r] is the
    value of register [r] at the [n]-th access, and the state of the code is the number
    of accesses so far.  [rtc_laws] says how such a chip keeps time; the theorem is that
    the time returned is one the chip was at. *)
From S2P Require Import Prelude Ctype Stdio StdioProofs Time TimeProofs.

(** [century_register] is never assigned. *)
Definition century_register : Z := 0.

Record sample := mk_sample { r_sec : Z; r_min : Z; r_hour : Z; r_mday : Z; r_mon : Z; r_year : Z; r_century : Z }.
#[export] Instance sample_eq_dec : EqDecision sample.
Proof. solve_decision. Defined.

Definition weekday_table : list Z := [0; 3; 2; 5; 0; 3; 5; 1; 4; 6; 2; 4].
Definition cmos_get_weekday (month day year : Z) : outcome Z :=
  let year := year - (if month <? 3 then 1 else 0) in
  t ← fetch weekday_table (month - 1);
  Ok (Z.rem (year + Z.quot year 4 - Z.quot year 100 + Z.quot year 400 + t + day) 7).

Section cmos.
Context (port : nat -> Z -> Z) (ticks : nat -> Z).

Definition cmos_get_register (r : Z) (n : nat) : Z * nat := (u8 (port n r), S n).
Definition cmos_get_update_flag (n : nat) : bool * nat := let '(v, n) := cmos_get_register 0x0A n in (has v 0x80, n).

(** [while(cmos_get_update_flag());] *)
Fixpoint wait_update (fuel : nat) (n : nat) : outcome nat :=
  match fuel with
  | O => Fault OutOfFuel
  | S fuel => let '(busy, n) := cmos_get_update_flag n in if busy : bool then wait_update fuel n else Ok n
  end.
Definition read_registers (century : Z) (n : nat) : sample * nat :=
  let '(sec, n) := cmos_get_register 0x00 n in
  let '(min, n) := cmos_get_register 0x02 n in
  let '(hour, n) := cmos_get_register 0x04 n in
  let '(mday, n) := cmos_get_register 0x07 n in
  let '(mon, n) := cmos_get_register 0x08 n in
  let '(year, n) := cmos_get_register 0x09 n in
  let '(century, n) := if negb (century_register =? 0) then cmos_get_register century_register n else (century, n) in
  (mk_sample sec min hour mday mon year century, n).

(** The loop ends when two samples that follow each other are the same. *)
Fixpoint sample_loop (fuel wait : nat) (last : sample) (n : nat) : outcome (sample * nat) :=
  match fuel with
  | O => Fault OutOfFuel
  | S fuel =>
    n ← wait_update wait n;
    let '(s, n) := read_registers (r_century last) n in
    if bool_decide (last = s) then Ok (s, n) else sample_loop fuel wait s n
  end.

Definition from_bcd (v : Z) : Z := Z.land v 0x0F + v / 16 * 10.
Definition convert (registerB : Z) (s : sample) : sample :=
  let s := if negb (has registerB 0x04) then
      mk_sample (from_bcd (r_sec s)) (from_bcd (r_min s))
        (Z.lor (Z.land (r_hour s) 0x0F + Z.land (r_hour s) 0x70 / 16 * 10) (Z.land (r_hour s) 0x80))
        (from_bcd (r_mday s)) (from_bcd (r_mon s)) (from_bcd (r_year s))
        (if negb (century_register =? 0) then u8 (from_bcd (r_century s)) else r_century s)
    else s in
  if negb (has registerB 0x02) && has (r_hour s) 0x80 then
    mk_sample (r_sec s) (r_min s) ((Z.land (r_hour s) 0x7F + 12) mod 24) (r_mday s) (r_mon s) (r_year s) (r_century s)
  else s.
Definition full_year (s : sample) : Z :=
  if negb (century_register =? 0) then r_year s + r_century s * 100
  else let y := r_year s + 2014 / 100 * 100 in if y <? 2014 then y + 100 else y.

(** The result of the call and the fields of [result]; [tm_yday] is not written. *)
Definition cmos_get_date_time (rounds wait : nat) (result : tm) (n : nat) : outcome (Z * tm * nat) :=
  n ← wait_update wait n;
  let sample_time := ticks n in
  let '(s, n) := read_registers 0 n in
  '(s, n) ← sample_loop rounds wait s n;
  let '(registerB, n) := cmos_get_register 0x0B n in
  let s := convert registerB s in
  let year := full_year s in
  wday ← cmos_get_weekday (r_mon s) (r_mday s) year;
  Ok (sample_time, mk_tm (r_sec s) (r_min s) (r_hour s) (r_mday s) (r_mon s - 1) (year - 1900) wday (tm_yday result) 0, n).
End cmos.

(** ** A chip that keeps time *)
Record moment := mk_moment { m_sec : Z; m_min : Z; m_hour : Z; m_mday : Z; m_mon : Z; m_year : Z }.
Definition moment_ok (m : moment) : Prop :=
  0 <= m_sec m < 60 /\ 0 <= m_min m < 60 /\ 0 <= m_hour m < 24 /\ 1 <= m_mday m <= 31 /\ 1 <= m_mon m <= 12 /\ 2014 <= m_year m < 2114.
(** Registers hold binary numbers or two decimal digits; with twelve hours the top bit
    is the afternoon. *)
Definition to_bcd (v : Z) : Z := v / 10 * 16 + v mod 10.
Definition encode (binary : bool) (v : Z) : Z := if binary then v else to_bcd v.
Definition encode_hour (binary h24 : bool) (h : Z) : Z :=
  if h24 then encode binary h
  else encode binary (if h mod 12 =? 0 then 12 else h mod 12) + (if 12 <=? h then 0x80 else 0).
Definition sample_of (binary h24 : bool) (m : moment) : sample :=
  mk_sample (encode binary (m_sec m)) (encode binary (m_min m)) (encode_hour binary h24 (m_hour m)) (encode binary (m_mday m))
    (encode binary (m_mon m)) (encode binary (m_year m mod 100)) 0.

(** What register [r] reads as. *)
Definition register_of (r : Z) (s : sample) : option Z :=
  if r =? 0x00 then Some (r_sec s) else if r =? 0x02 then Some (r_min s) else if r =? 0x04 then Some (r_hour s)
  else if r =? 0x07 then Some (r_mday s) else if r =? 0x08 then Some (r_mon s) else if r =? 0x09 then Some (r_year s) else None.

(** The seconds [time n] go on by one at a time and at least [apart] accesses apart, the
    update flag is clear at one of [wait] accesses, and the six accesses after it is
    seen clear read the registers of their moment. *)
Class rtc_laws (port : nat -> Z -> Z) (binary h24 : bool) (wait apart : nat) := {
  time : nat -> Z;
  cal : Z -> moment;
  cal_ok t : moment_ok (cal t);
  cal_sec t : m_sec (cal (t + 1)) <> m_sec (cal t);
  time_step n : time (S n) = time n \/ time (S n) = time n + 1;
  time_apart (n k : nat) : time (S n) <> time n -> (k < apart)%nat -> time (S n + k)%nat = time (S n);
  apart_wait : (4 * (wait + 8) <= apart)%nat;
  flag_clears (n : nat) : exists k : nat, (k < wait)%nat /\ has (u8 (port (n + k)%nat 0x0A)) 0x80 = false;
  registers (n k : nat) r v : has (u8 (port n 0x0A)) 0x80 = false -> (1 <= k <= 6)%nat ->
    register_of r (sample_of binary h24 (cal (time (n + k)%nat))) = Some v -> u8 (port (n + k)%nat r) = v;
  register_b n : has (u8 (port n 0x0B)) 0x04 = binary /\ has (u8 (port n 0x0B)) 0x02 = h24 }.

(** ** Decoding *)
Lemma forall_below (P : Z -> bool) (n : nat) v : forallb P (seqZ 0 (Z.of_nat n)) = true -> 0 <= v < Z.of_nat n -> P v = true.
Proof.
  intros H Hv. rewrite forallb_forall in H. apply H, list_elem_of_In, elem_of_seqZ. lia.
Qed.
Lemma from_to_bcd v : 0 <= v < 100 -> from_bcd (to_bcd v) = v.
Proof.
  intros H. apply Z.eqb_eq. apply (forall_below (fun v => from_bcd (to_bcd v) =? v) 100); [vm_compute; reflexivity|lia].
Qed.
(** Of twelve hours, noon and midnight are exchanged. *)
Definition hour_read (h24 : bool) (h : Z) : Z := if h24 then h else if h =? 0 then 12 else if h =? 12 then 0 else h.
Definition hour_decoded (binary h24 : bool) (v : Z) : Z :=
  let v := if negb binary then Z.lor (Z.land v 0x0F + Z.land v 0x70 / 16 * 10) (Z.land v 0x80) else v in
  if negb h24 && has v 0x80 then (Z.land v 0x7F + 12) mod 24 else v.
Lemma hour_decodes binary h24 h : 0 <= h < 24 -> hour_decoded binary h24 (encode_hour binary h24 h) = hour_read h24 h.
Proof.
  intros H. apply Z.eqb_eq.
  apply (forall_below (fun h => hour_decoded binary h24 (encode_hour binary h24 h) =? hour_read h24 h) 24); [|lia].
  destruct binary, h24; vm_compute; reflexivity.
Qed.
Lemma convert_decodes b binary h24 m : has b 0x04 = binary -> has b 0x02 = h24 -> moment_ok m ->
  convert b (sample_of binary h24 m) = mk_sample (m_sec m) (m_min m) (hour_read h24 (m_hour m)) (m_mday m) (m_mon m) (m_year m mod 100) 0.
Proof.
  intros <- <- (H1 & H2 & H3 & H4 & H5 & H6). unfold convert. pose proof (Z.mod_pos_bound (m_year m) 100 ltac:(lia)).
  rewrite <- (hour_decodes (has b 4) (has b 2) (m_hour m) H3). unfold hour_decoded, sample_of.
  destruct (has b 4); cbn [negb r_sec r_min r_hour r_mday r_mon r_year r_century].
  - destruct (negb (has b 2) && _); reflexivity.
  - unfold encode. rewrite !from_to_bcd by lia. destruct (negb (has b 2) && _); reflexivity.
Qed.
Lemma full_year_read s y : 2014 <= y < 2114 -> r_year s = y mod 100 -> full_year s = y.
Proof.
  intros H E. unfold full_year. cbn [century_register Z.eqb negb]. rewrite E. change (2014 / 100 * 100) with 2000. cbv zeta.
  destruct (Z.ltb_spec (y mod 100 + 2000) 2014); Z.to_euclidean_division_equations; lia.
Qed.

(** ** The day of the week, against the calendar counted day by day: 1 January 1970 was
    a Thursday *)
Definition sakamoto (y m : Z) : Z :=
  let y := y - (if m <? 3 then 1 else 0) in y + y / 4 - y / 100 + y / 400 + default 0 (weekday_table !! Z.to_nat (m - 1)).
Definition days_to_month (y m : Z) : Z := 365 * y + 1 + leaps_before y - 719528 + days_before_month (is_leap_year y) m.
Lemma calendar_days_closed y m d : 0 < y -> calendar_days y m d = days_to_month y m + (d - 1).
Proof.
  intros Hy. unfold calendar_days, days_to_month. destruct (Z.to_nat y) as [|k] eqn:E; [lia|].
  rewrite days_before_year_closed. replace (Z.of_nat (S k)) with y by lia.
  assert (H70 : days_before_year 1970 = 719528) by (vm_compute; reflexivity). rewrite H70. lia.
Qed.
Lemma sakamoto_days y m : 2014 <= y < 2114 -> 1 <= m <= 12 -> (sakamoto y m + 1) mod 7 = (days_to_month y (m - 1) + 4) mod 7.
Proof.
  intros Hy Hm. apply Z.eqb_eq.
  pose proof (forall_below (fun y => forallb (fun m => (sakamoto (2014 + y) (m + 1) + 1) mod 7 =? (days_to_month (2014 + y) m + 4) mod 7)
    (seqZ 0 (Z.of_nat 12))) 100 (y - 2014) ltac:(vm_compute; reflexivity) ltac:(lia)) as F.
  pose proof (forall_below _ 12 (m - 1) F ltac:(lia)) as G. cbn beta in G.
  now rewrite (Z.add_comm 2014), !Z.sub_add in G.
Qed.
Lemma weekday_correct y m d : 2014 <= y < 2114 -> 1 <= m <= 12 -> 1 <= d <= 31 ->
  cmos_get_weekday m d y = Ok ((calendar_days y (m - 1) d + 4) mod 7).
Proof.
  intros Hy Hm Hd. assert (T : exists t, weekday_table !! Z.to_nat (m - 1) = Some t /\ 0 <= t).
  { destruct (lookup_lt_is_Some_2 weekday_table (Z.to_nat (m - 1))) as [t Ht]; [cbn; lia|]. exists t. split; [exact Ht|].
    apply (Forall_lookup_1 (fun t => 0 <= t) weekday_table (Z.to_nat (m - 1)) t); [repeat constructor; discriminate|exact Ht]. }
  destruct T as (t & Ht & T0). pose proof (sakamoto_days y m Hy Hm) as E. unfold sakamoto in E. rewrite Ht in E. change (default 0 (Some t)) with t in E.
  unfold cmos_get_weekday. rewrite (bind_Ok_l _ _ t) by (apply fetch_Ok; [lia|exact Ht]). cbv zeta in *.
  rewrite calendar_days_closed by lia.
  set (k := y - _) in *. assert (Hk : 0 <= k) by (subst k; destruct (m <? 3); lia). clearbody k.
  rewrite !Z.quot_div_nonneg by lia.
  assert (K1 : 0 <= k / 4) by (apply Z.div_pos; lia). assert (K2 : 0 <= k / 400) by (apply Z.div_pos; lia).
  assert (K3 : k / 100 <= k) by (apply Z.div_le_upper_bound; lia). rewrite Z.rem_mod_nonneg by lia. f_equal.
  replace (k + k / 4 - k / 100 + k / 400 + t + d) with (k + k / 4 - k / 100 + k / 400 + t + 1 + (d - 1)) by lia.
  replace (days_to_month y (m - 1) + (d - 1) + 4) with (days_to_month y (m - 1) + 4 + (d - 1)) by lia.
  rewrite (Z.add_mod _ (d - 1)), E, <- Z.add_mod by lia. reflexivity.
Qed.

(** ** Sampling *)
Section laws.
Context {port : nat -> Z -> Z} {binary h24 : bool} {wait apart : nat} {L : rtc_laws port binary h24 wait apart}.
#[local] Set Default Proof Using "L".
Notation clear n := (has (u8 (port n 0x0A)) 0x80 = false).
Definition steady (a b : nat) : Prop := forall j : nat, (a <= j <= b)%nat -> time j = time a.
Definition shown (n : nat) : sample := sample_of binary h24 (cal (time n)).
(** What the six accesses after [m] read. *)
Definition sample_at (m : nat) : sample :=
  mk_sample (r_sec (shown (m + 1))) (r_min (shown (m + 2))) (r_hour (shown (m + 3))) (r_mday (shown (m + 4))) (r_mon (shown (m + 5)))
    (r_year (shown (m + 6))) 0.

Lemma wait_update_at k : forall fuel n, clear (n + k)%nat -> (k < fuel)%nat ->
  exists m : nat, (n <= m <= n + k)%nat /\ clear m /\ wait_update port fuel n = Ok (S m).
Proof.
  induction k as [|k IH]; intros fuel n Hc Hf; (destruct fuel as [|fuel]; [lia|]); cbn [wait_update cmos_get_update_flag cmos_get_register].
  - rewrite Nat.add_0_r in Hc. rewrite Hc. exists n. split; [lia|auto].
  - destruct (has (u8 (port n 10)) 128) eqn:E; [|exists n; split; [lia|auto]].
    destruct (IH fuel (S n)) as (m & Hm & C & Ew); [replace (S n + k)%nat with (n + S k)%nat by lia; exact Hc|lia|].
    exists m. split; [lia|auto].
Qed.
Lemma wait_update_ends n : exists m : nat, (n <= m < n + wait)%nat /\ clear m /\ wait_update port wait n = Ok (S m).
Proof.
  destruct (flag_clears n) as (k & Hk & C). destruct (wait_update_at k wait n C Hk) as (m & Hm & Cm & E). exists m. split; [lia|auto].
Qed.
Lemma read_registers_at m : clear m -> read_registers port 0 (S m) = (sample_at m, (m + 7)%nat).
Proof.
  intros C. unfold read_registers, cmos_get_register. cbn [century_register Z.eqb negb].
  assert (R : forall (k : nat) r v, (1 <= k <= 6)%nat -> register_of r (shown (m + k)) = Some v -> u8 (port (m + k)%nat r) = v).
  { intros k r v Hk Hr. exact (registers m k r v C Hk Hr). }
  replace (S m) with (m + 1)%nat by lia. rewrite <- !Nat.add_succ_r.
  rewrite (R 1%nat 0 _ ltac:(lia) eq_refl), (R 2%nat 2 _ ltac:(lia) eq_refl), (R 3%nat 4 _ ltac:(lia) eq_refl), (R 4%nat 7 _ ltac:(lia) eq_refl),
    (R 5%nat 8 _ ltac:(lia) eq_refl), (R 6%nat 9 _ ltac:(lia) eq_refl). reflexivity.
Qed.

Lemma steady_or_tick a b : (a <= b)%nat -> steady a b \/ exists p : nat, (a <= p < b)%nat /\ steady a p /\ time (S p) <> time p.
Proof.
  induction b as [|b IH]; intros H.
  - left. intros j Hj. now replace j with a by lia.
  - destruct (decide (a = S b)) as [->|N]; [left; intros j Hj; now replace j with (S b) by lia|].
    destruct (IH ltac:(lia)) as [St|(p & Hp & R)]; [|right; exists p; split; [lia|exact R]].
    destruct (decide (time (S b) = time b)) as [E|T]; [|right; exists b; split; [lia|auto]].
    left. intros j Hj. destruct (decide (j = S b)) as [->|Nj]; [rewrite E; apply St; lia|apply St; lia].
Qed.
Lemma steady_after p b : time (S p) <> time p -> (b < S p + apart)%nat -> steady (S p) b.
Proof. intros T H j Hj. replace j with (S p + (j - S p))%nat by lia. apply time_apart; [exact T|lia]. Qed.
Lemma steady_sample m : steady (m + 1) (m + 6) -> sample_at m = shown (m + 1).
Proof.
  intros St. unfold sample_at, shown. rewrite (St (m + 2)%nat), (St (m + 3)%nat), (St (m + 4)%nat), (St (m + 5)%nat), (St (m + 6)%nat) by lia. reflexivity.
Qed.
Lemma sec_moves t : r_sec (sample_of binary h24 (cal (t + 1))) <> r_sec (sample_of binary h24 (cal t)).
Proof.
  cbn [r_sec sample_of]. unfold encode. intros E. apply (cal_sec t). pose proof (cal_ok t) as [H1 _]. pose proof (cal_ok (t + 1)) as [H2 _].
  destruct binary; [exact E|]. rewrite <- (from_to_bcd (m_sec (cal (t + 1)))), <- (from_to_bcd (m_sec (cal t))) by lia. now rewrite E.
Qed.
(** Two samples that are the same were read in one second. *)
Lemma same_samples m m' : (m + 7 <= m')%nat -> (m' + 1 < m + 1 + apart)%nat -> sample_at m = sample_at m' -> steady (m + 1) (m' + 1).
Proof.
  intros H1 H2 E. destruct (steady_or_tick (m + 1) (m' + 1)) as [St|(p & Hp & St & T)]; [lia|exact St|].
  assert (T2 : time (m' + 1) = time (m + 1) + 1).
  { transitivity (time (S p)); [apply (steady_after p (m' + 1) T); lia|].
    rewrite <- (St p) by lia. destruct (time_step p) as [K|K]; [contradiction|exact K]. }
  apply (f_equal r_sec) in E. cbn [r_sec sample_at] in E. unfold shown in E. rewrite T2 in E. symmetry in E. now apply sec_moves in E.
Qed.
Lemma steady_sub a b a' b' : steady a b -> (a <= a')%nat -> (b' <= b)%nat -> steady a' b'.
Proof.
  intros St Ha Hb j Hj. rewrite (St j) by lia. symmetry. apply St. lia.
Qed.
Lemma steady_same m m' : steady (m + 1) (m' + 6) -> (m <= m')%nat -> sample_at m = sample_at m'.
Proof.
  intros St H. rewrite (steady_sample m), (steady_sample m') by (eapply steady_sub; [exact St|lia|lia]).
  unfold shown. now rewrite (St (m' + 1)%nat) by lia.
Qed.

(** One round of the loop. *)
Lemma sample_round fuel m n : (m + 7 <= n)%nat -> exists m' : nat, (n <= m' < n + wait)%nat /\
  sample_loop port (S fuel) wait (sample_at m) n
  = if bool_decide (sample_at m = sample_at m') then Ok (sample_at m', (m' + 7)%nat) else sample_loop port fuel wait (sample_at m') (m' + 7).
Proof.
  intros H. destruct (wait_update_ends n) as (m' & Hm & C & E). exists m'. split; [exact Hm|]. cbn [sample_loop].
  rewrite (bind_Ok_l _ _ _ E). change (r_century (sample_at m)) with 0. now rewrite (read_registers_at m' C).
Qed.
(** Three rounds are enough, and what they give is the time at an access of theirs. *)
Lemma sample_loop_ends m : exists k n' : nat, (m < k < n')%nat /\ (n' <= m + 3 * (wait + 7) + 7)%nat /\
  sample_loop port 3 wait (sample_at m) (m + 7) = Ok (shown k, n').
Proof.
  pose proof apart_wait as A. destruct (sample_round 2 m (m + 7) ltac:(lia)) as (m1 & H1 & ->).
  case_bool_decide as D1.
  { pose proof (same_samples m m1 ltac:(lia) ltac:(lia) D1) as St. exists (m + 1)%nat, (m1 + 7)%nat. rewrite <- D1, steady_sample by (eapply steady_sub; [exact St|lia|lia]).
    split; [lia|]. split; [lia|reflexivity]. }
  destruct (sample_round 1 m1 (m1 + 7) ltac:(lia)) as (m2 & H2 & ->). case_bool_decide as D2.
  { pose proof (same_samples m1 m2 ltac:(lia) ltac:(lia) D2) as St. exists (m1 + 1)%nat, (m2 + 7)%nat. rewrite <- D2, steady_sample by (eapply steady_sub; [exact St|lia|lia]).
    split; [lia|]. split; [lia|reflexivity]. }
  destruct (sample_round 0 m2 (m2 + 7) ltac:(lia)) as (m3 & H3 & ->).
  destruct (steady_or_tick (m + 1) (m1 + 6)) as [St|(p & Hp & _ & T)]; [lia|exfalso; apply D1; apply steady_same; [exact St|lia]|].
  assert (St : steady (m2 + 1) (m3 + 6)) by (eapply steady_sub; [apply (steady_after p (m3 + 6) T); lia|lia|lia]).
  rewrite bool_decide_true by (apply steady_same; [exact St|lia]).
  exists (m3 + 1)%nat, (m3 + 7)%nat. rewrite steady_sample by (eapply steady_sub; [exact St|lia|lia]). split; [lia|]. split; [lia|reflexivity].
Qed.

(** On a clock chip that keeps time, reading it ends within three rounds and returns the second, minute, day, month and year the chip showed at one and the same access, with the day of the week of the calendar; the hour is the chip's, except that a chip with twelve hours has noon and midnight exchanged. *)
Theorem cmos_time_correct ticks result (n : nat) : exists k n' : nat, (n < k < n')%nat /\ (n' <= n + 4 * (wait + 7) + 8)%nat /\
  let m := cal (time k) in
  exists t, cmos_get_date_time port ticks 3 wait result n
    = Ok (t, mk_tm (m_sec m) (m_min m) (hour_read h24 (m_hour m)) (m_mday m) (m_mon m - 1) (m_year m - 1900)
             ((calendar_days (m_year m) (m_mon m - 1) (m_mday m) + 4) mod 7) (tm_yday result) 0, n').
Proof.
  destruct (wait_update_ends n) as (m & Hm & C & E). destruct (sample_loop_ends m) as (k & n' & Hk & Hn & El).
  exists k, (S n'). split; [lia|]. split; [lia|]. cbv zeta. exists (ticks (S m)). unfold cmos_get_date_time.
  rewrite (bind_Ok_l _ _ _ E), (read_registers_at m C). rewrite (bind_Ok_l _ _ _ El). unfold cmos_get_register, shown.
  destruct (register_b n') as [B1 B2]. pose proof (cal_ok (time k)) as O. rewrite (convert_decodes _ _ _ _ B1 B2 O).
  cbn [r_mon r_mday r_sec r_min r_hour r_year]. destruct O as (O1 & O2 & O3 & O4 & O5 & O6).
  rewrite (full_year_read _ (m_year (cal (time k)))) by (reflexivity || lia).
  rewrite (bind_Ok_l _ _ _ (weekday_correct _ _ _ O6 O5 O4)). reflexivity.
Qed.
End laws.

(** ** A chip with decimal digits and twelve hours, a second every 200 accesses *)
Definition chip_time (n : nat) : Z := Z.of_nat (n / 200).
Definition chip_cal (t : Z) : moment := mk_moment (t mod 60) (t / 60 mod 60) 13 29 2 2024.
Definition chip_port (n : nat) (r : Z) : Z := default 0 (register_of r (sample_of false false (chip_cal (chip_time n)))).
Lemma to_bcd_range v : 0 <= v < 100 -> 0 <= to_bcd v < 256.
Proof. intros H. unfold to_bcd. Z.to_euclidean_division_equations. lia. Qed.
Lemma chip_u8 r t v : register_of r (sample_of false false (chip_cal t)) = Some v -> u8 v = v.
Proof.
  intros E. apply Z.mod_small. unfold register_of in E.
  pose proof (Z.mod_pos_bound t 60 ltac:(lia)). pose proof (Z.mod_pos_bound (t / 60) 60 ltac:(lia)).
  repeat (destruct (_ =? _) in E; [injection E as <-; (apply to_bcd_range; cbn; lia) || (vm_compute; split; congruence)|]). discriminate.
Qed.
#[export] Program Instance chip : rtc_laws chip_port false false 1 60 := {| time := chip_time; cal := chip_cal |}.
Next Obligation.
  intros t. pose proof (Z.mod_pos_bound t 60 ltac:(lia)). pose proof (Z.mod_pos_bound (t / 60) 60 ltac:(lia)). unfold moment_ok. cbn. lia.
Qed.
Next Obligation. intros t. cbn. Z.to_euclidean_division_equations. lia. Qed.
Next Obligation.
  intros n. unfold chip_time. pose proof (Nat.div_mod_eq n 200). pose proof (Nat.div_mod_eq (S n) 200).
  pose proof (Nat.mod_upper_bound n 200 ltac:(lia)). pose proof (Nat.mod_upper_bound (S n) 200 ltac:(lia)). lia.
Qed.
Next Obligation.
  intros n k T Hk. unfold chip_time in *. pose proof (Nat.div_mod_eq n 200). pose proof (Nat.div_mod_eq (S n) 200). pose proof (Nat.div_mod_eq (S n + k) 200).
  pose proof (Nat.mod_upper_bound n 200 ltac:(lia)). pose proof (Nat.mod_upper_bound (S n) 200 ltac:(lia)). pose proof (Nat.mod_upper_bound (S n + k) 200 ltac:(lia)). lia.
Qed.
Next Obligation. lia. Qed.
Next Obligation. intros n. exists 0%nat. split; [lia|reflexivity]. Qed.
Next Obligation. intros n k r v _ _ E. unfold chip_port. change chip_time with (fun n => chip_time n) in E. cbv beta in E. rewrite E. exact (chip_u8 r _ v E). Qed.
Next Obligation. intros n. split; reflexivity. Qed.

Lemma cmos_time_correct_witness : exists k n' : nat, (3 < k < n')%nat /\ (n' <= 3 + 4 * (1 + 7) + 8)%nat /\
  let m := chip_cal (chip_time k) in
  exists t, cmos_get_date_time chip_port (fun n => Z.of_nat n) 3 1 (mk_tm 0 0 0 0 0 0 0 0 0) 3
    = Ok (t, mk_tm (m_sec m) (m_min m) (hour_read false (m_hour m)) (m_mday m) (m_mon m - 1) (m_year m - 1900)
             ((calendar_days (m_year m) (m_mon m - 1) (m_mday m) + 4) mod 7) 0 0, n').
Proof. exact (cmos_time_correct (L := chip) (fun n => Z.of_nat n) (mk_tm 0 0 0 0 0 0 0 0 0) 3). Defined.

(** Noon of a chip with twelve hours is read as hour 0, midnight as hour 12. *)
Example noon_and_midnight_exchanged :
  r_hour (convert 0 (sample_of false false (mk_moment 0 0 12 1 1 2024))) = 0 /\
  r_hour (convert 0 (sample_of false false (mk_moment 0 0 0 1 1 2024))) = 12.
Proof. vm_compute. split; reflexivity. Qed.
