(* ===== verification/Acpi.v ===== *)
(** * The tables of the processors (drivers/cpu/madt.cpp, mp_table.cpp)

    Physical memory is a function from addresses to bytes.  What [create_mapping] maps is
    a [window]: an address in it is written as the physical address behind it, and an
    access outside the pages of the window is a page fault.  The list of processors that
    is handed to [init_smp], with the address of the local APIC, is the result. *)
From S2P Require Import Prelude.

Definition PAGE_SIZE : Z := 0x1000.

Section tables.
Context (mem : Z -> Z).

Record window := mk_window { w_base : Z; w_pages : Z }.
Definition create_mapping (physical num_pages : Z) : window := mk_window (Z.land physical (not32 (PAGE_SIZE - 1))) num_pages.
Definition read8 (w : window) (a : Z) : outcome Z :=
  if (w_base w <=? a) && (a <? w_base w + w_pages w * PAGE_SIZE) then Ok (u8 (mem a)) else Fault PageFault.
Definition read16 (w : window) (a : Z) : outcome Z := lo ← read8 w a; hi ← read8 w (a + 1); Ok (lo + 0x100 * hi).
Definition read32 (w : window) (a : Z) : outcome Z := lo ← read16 w a; hi ← read16 w (a + 2); Ok (lo + 0x10000 * hi).
Fixpoint read_bytes (w : window) (n : nat) (a : Z) : outcome (list Z) :=
  match n with O => Ok [] | S n => c ← read8 w a; l ← read_bytes w n (a + 1); Ok (c :: l) end.

(** ** ACPI (madt.cpp) *)
Definition sizeof_acpi_sdt : Z := 36.
Definition checksum_valid (w : window) (addr size : Z) : outcome bool :=
  l ← read_bytes w (Z.to_nat size) addr; Ok (foldl (fun a b => u8 (a + b)) 0 l =? 0).
Definition rsd_ptr : list Z := [82; 83; 68; 32; 80; 84; 82; 32].
Definition is_rsdp (w : window) (addr : Z) : outcome bool :=
  s ← read_bytes w 8 addr;
  if bool_decide (s = rsd_ptr) then checksum_valid w addr 20 else Ok false.
(** [for(auto addr = start; addr < end; addr += 0x10)], [n] rounds. *)
Fixpoint search (test : Z -> outcome bool) (n : nat) (addr : Z) : outcome (option Z) :=
  match n with
  | O => Ok None
  | S n => b ← test addr; if b : bool then Ok (Some addr) else search test n (addr + 0x10)
  end.
Definition get_ebda_addr : outcome Z := v ← read16 (create_mapping 0 1) 0x40e; Ok (v * 16).
(** The window it was found in and the address. *)
Definition get_rsdp : outcome (option (window * Z)) :=
  ebda_addr ← get_ebda_addr;
  let ebda := create_mapping ebda_addr 1 in
  r ← search (is_rsdp ebda) 64 ebda_addr;
  match r with
  | Some a => Ok (Some (ebda, a))
  | None =>
    let bios_rom := create_mapping 0xE0000 0x20 in
    r ← search (is_rsdp bios_rom) (Z.to_nat 0x2000) 0xE0000;
    match r with Some a => Ok (Some (bios_rom, a)) | None => Ok None end
  end.

Fixpoint table_loop (signature : list Z) (index : Z) (rsdt : window) (sdt_ptr : Z) (n : nat) (num_found : Z) : outcome (option (window * Z)) :=
  match n with
  | O => Ok None
  | S n =>
    physical ← read32 rsdt sdt_ptr;
    let ptr := create_mapping physical 1 in
    s ← read_bytes ptr 4 physical;
    valid ← (if bool_decide (s = signature) then length ← read32 ptr (physical + 4); checksum_valid ptr physical length else Ok false);
    if valid : bool then
      if num_found =? index then Ok (Some (ptr, physical))
      else table_loop signature index rsdt (sdt_ptr + 4) n (num_found + 1)
    else table_loop signature index rsdt (sdt_ptr + 4) n num_found
  end.
Definition acpi_get_table_addr (signature : list Z) (index : Z) : outcome (option (window * Z)) :=
  r ← get_rsdp;
  match r with
  | None => Ok None
  | Some (w, rsdp) =>
    rsdt_addr ← read32 w (rsdp + 16);
    let rsdt := create_mapping rsdt_addr 1 in
    length ← read32 rsdt (rsdt_addr + 4);
    let num_entries := sub32 length sizeof_acpi_sdt / 4 in
    table_loop signature index rsdt (rsdt_addr + sizeof_acpi_sdt) (Z.to_nat num_entries) 0
  end.

Definition apic_signature : list Z := [65; 80; 73; 67].
Fixpoint madt_loop (fuel : nat) (w : window) (madt_addr end_ : Z) (cores : list Z) : outcome (list Z) :=
  match fuel with
  | O => Fault OutOfFuel
  | S fuel =>
    if madt_addr <? end_ then
      type ← read8 w madt_addr; len ← read8 w (madt_addr + 1);
      cores ← (if type =? 0 then
          body ← read_bytes w 8 madt_addr;
          lapic_id ← fetch body 3; flags ← read32 w (madt_addr + 4);
          if xorb (Z.testbit flags 0) (Z.testbit flags 1) then Ok (cores ++ [lapic_id]) else Ok cores
        else Ok cores);
      madt_loop fuel w (madt_addr + len) end_ cores
    else Ok cores
  end.
(** The arguments of [init_smp], when there is a table. *)
Definition madt_init (fuel : nat) : outcome (option (Z * list Z)) :=
  r ← acpi_get_table_addr apic_signature 0;
  match r with
  | None => Ok None
  | Some (w, table) =>
    length ← read32 w (table + 4);
    cores ← madt_loop fuel w (table + sizeof_acpi_sdt + 8) (table + length) [];
    lapic_address ← read32 w (table + sizeof_acpi_sdt);
    Ok (Some (lapic_address, cores))
  end.

(** ** The multiprocessor table (mp_table.cpp) *)
Definition PROCESSOR : Z := 0.
Definition sizeof_mp_table : Z := 44.
Definition sizeof_mp_processor_entry : Z := 20.
Definition sizeof_mp_io_apic_entry : Z := 8.
Definition find_header_addr (w : window) (start num_bytes : Z) : outcome (option Z) :=
  search (fun addr => v ← read32 w addr; Ok (v =? 0x5F504D5F)) (Z.to_nat (num_bytes / 0x10)) start.
Fixpoint entries_loop (n : nat) (w : window) (entry_addr : Z) (cores : list Z) : outcome (list Z) :=
  match n with
  | O => Ok cores
  | S n =>
    type ← read8 w entry_addr;
    if type =? PROCESSOR then
      entry ← read_bytes w 20 entry_addr; local_apic_id ← fetch entry 1;
      entries_loop n w (entry_addr + sizeof_mp_processor_entry) (cores ++ [local_apic_id])
    else entries_loop n w (entry_addr + sizeof_mp_io_apic_entry) cores
  end.
Definition parse_header (w : window) (addr : Z) : outcome (option (Z * list Z)) :=
  use_default_config ← read8 w (addr + 11);
  if use_default_config =? 0 then
    table_ptr ← read32 w (addr + 4);
    let table := create_mapping table_ptr 1 in
    num_entries ← read16 table (table_ptr + 34);
    cores ← entries_loop (Z.to_nat num_entries) table (table_ptr + sizeof_mp_table) [];
    lapic_address ← read32 table (table_ptr + 36);
    Ok (Some (lapic_address, cores))
  else Ok None.
(** Whether a header was found, and the arguments of [init_smp]. *)
Definition find_mp_header : outcome (bool * option (Z * list Z)) :=
  let bda := create_mapping 0 1 in
  e ← read16 bda 0x40e;
  let ebda_addr := e * 16 in
  let ebda := create_mapping ebda_addr 1 in
  r ← find_header_addr ebda ebda_addr 0x400;
  match r with
  | Some a => p ← parse_header ebda a; Ok (true, p)
  | None =>
    b ← read16 bda 0x413;
    let base_end := b * 0x400 in
    let last_1k := create_mapping base_end 1 in
    r ← (if negb (base_end =? ebda_addr) then find_header_addr last_1k base_end 0x400 else Ok None);
    match r with
    | Some a => p ← parse_header last_1k a; Ok (true, p)
    | None =>
      let bios_rom := create_mapping 0xE0000 0x20 in
      r ← find_header_addr bios_rom 0xE0000 (0x20 * 0x1000);
      match r with
      | Some a => p ← parse_header bios_rom a; Ok (true, p)
      | None => Ok (false, None)
      end
    end
  end.
End tables.
Arguments window : clear implicits.

(** * What is found, for tables laid out as the specifications say *)
Section correct.
Context (mem : Z -> Z).
(** The bytes at [a] of a window. *)
Definition holds (w : window) (a : Z) (l : list Z) : Prop := forall i b, l !! i = Some b -> read8 mem w (a + Z.of_nat i) = Ok b.
Definition le16 (v : Z) : list Z := [v mod 0x100; v / 0x100 mod 0x100].
Definition le32 (v : Z) : list Z := le16 v ++ le16 (v / 0x10000).

Lemma length_le32 v : length (le32 v) = 4%nat.
Proof. reflexivity. Qed.
Lemma holds_app w a l1 l2 : holds w a (l1 ++ l2) <-> holds w a l1 /\ holds w (a + Z.of_nat (length l1)) l2.
Proof.
  split.
  - intros H. split; intros i b Hi.
    + apply H. rewrite lookup_app_l by (eapply lookup_lt_Some; eauto). exact Hi.
    + replace (a + Z.of_nat (length l1) + Z.of_nat i) with (a + Z.of_nat (length l1 + i)) by lia. apply H.
      rewrite lookup_app_r by lia. now replace (length l1 + i - length l1)%nat with i by lia.
  - intros [H1 H2] i b Hi. destruct (Nat.lt_ge_cases i (length l1)) as [Lt|Ge].
    + apply H1. now rewrite lookup_app_l in Hi by lia.
    + rewrite lookup_app_r in Hi by lia. specialize (H2 _ _ Hi). now replace (a + Z.of_nat (length l1) + Z.of_nat (i - length l1)) with (a + Z.of_nat i) in H2 by lia.
Qed.
Lemma holds_cons w a b l : holds w a (b :: l) <-> read8 mem w a = Ok b /\ holds w (a + 1) l.
Proof.
  change (b :: l) with ([b] ++ l). rewrite holds_app. split; intros [H1 H2]; (split; [|exact H2]).
  - specialize (H1 0%nat b eq_refl). now rewrite Z.add_0_r in H1.
  - intros [|i] c; [intros [= <-]; now rewrite Z.add_0_r|discriminate].
Qed.
Lemma read_bytes_holds w l : forall a r, holds w a (l ++ r) -> read_bytes mem w (length l) a = Ok l.
Proof.
  induction l as [|c l IH]; intros a r H; [reflexivity|]. cbn [app length read_bytes] in *. apply holds_cons in H as [H1 H2].
  rewrite (bind_Ok_l _ _ _ H1), (bind_Ok_l _ _ _ (IH _ _ H2)). reflexivity.
Qed.
Lemma read16_holds w a v r : 0 <= v < 0x10000 -> holds w a (le16 v ++ r) -> read16 mem w a = Ok v.
Proof.
  intros Hv H. cbn [le16 app] in H. apply holds_cons in H as [H1 H2]. apply holds_cons in H2 as [H2 _].
  unfold read16. rewrite (bind_Ok_l _ _ _ H1), (bind_Ok_l _ _ _ H2). f_equal.
  rewrite (Z.mod_small (v / 256)) by (Z.to_euclidean_division_equations; lia). pose proof (Z.div_mod v 256). lia.
Qed.
Lemma read32_holds w a v r : 0 <= v < 2 ^ 32 -> holds w a (le32 v ++ r) -> read32 mem w a = Ok v.
Proof.
  intros Hv H. unfold le32 in H. rewrite <- app_assoc in H. apply holds_app in H as H0. destruct H0 as [_ H2]. cbn [length] in H2.
  unfold read32. assert (E1 : read16 mem w a = Ok (v mod 0x10000)).
  { apply (read16_holds w a _ (le16 (v / 0x10000) ++ r)); [apply Z.mod_pos_bound; lia|].
    replace (le16 (v mod 0x10000)) with (le16 v); [exact H|]. unfold le16. f_equal; [|f_equal]; Z.to_euclidean_division_equations; lia. }
  rewrite (bind_Ok_l _ _ _ E1).
  assert (E2 : read16 mem w (a + 2) = Ok (v / 0x10000)).
  { apply (read16_holds w _ _ r); [Z.to_euclidean_division_equations; lia|exact H2]. }
  rewrite (bind_Ok_l _ _ _ E2). f_equal. pose proof (Z.div_mod v 0x10000). lia.
Qed.

(** ** Searching *)
Lemma search_spec (test : Z -> outcome bool) (b : Z -> bool) n : forall a,
  (forall k, 0 <= k < Z.of_nat n -> test (a + 0x10 * k) = Ok (b (a + 0x10 * k))) ->
  search test n a = Ok (snd <$> list_find (fun x => b x = true) (map (fun k => a + 0x10 * Z.of_nat k) (seq 0 n))).
Proof.
  induction n as [|n IH]; intros a H; [reflexivity|]. cbn [search]. pose proof (H 0 ltac:(lia)) as H0. rewrite Z.mul_0_r, Z.add_0_r in H0.
  rewrite (bind_Ok_l _ _ _ H0). cbn [seq map list_find]. change (Z.of_nat 0) with 0. rewrite Z.mul_0_r, Z.add_0_r.
  destruct (b a) eqn:Eb; [now rewrite decide_True|]. rewrite decide_False by discriminate. rewrite IH.
  - f_equal. rewrite <- seq_shift, map_map.
    replace (map (fun x => a + 0x10 * Z.of_nat (S x)) (seq 0 n)) with (map (fun k => a + 0x10 + 0x10 * Z.of_nat k) (seq 0 n)) by (apply map_ext; intros; lia).
    destruct (list_find _ _) as [[i x]|]; reflexivity.
  - intros k Hk. replace (a + 0x10 + 0x10 * k) with (a + 0x10 * (k + 1)) by lia. apply H. lia.
Qed.

(** ** The entries of the MADT *)
Record madt_entry := mk_entry { e_type : Z; e_body : list Z }.
Definition encode_entry (e : madt_entry) : list Z := e_type e :: Z.of_nat (2 + length (e_body e)) :: e_body e.
Definition entry_ok (e : madt_entry) : Prop := e_type e = 0 -> length (e_body e) = 6%nat /\ exists f, drop 2 (e_body e) = le32 f /\ 0 <= f < 2 ^ 32.
(** The processor an entry names: one that is enabled or can be, not both. *)
Definition word_of (l : list Z) : Z := foldr (fun b v => b + 0x100 * v) 0 l.
Definition core_of (e : madt_entry) : option Z :=
  if e_type e =? 0 then
    let flags := word_of (drop 2 (e_body e)) in
    if xorb (Z.testbit flags 0) (Z.testbit flags 1) then e_body e !! 1%nat else None
  else None.
Lemma word_of_le32 v : 0 <= v < 2 ^ 32 -> word_of (le32 v) = v.
Proof. clear mem. intros H. unfold word_of, le32, le16. cbn [app foldr]. Z.to_euclidean_division_equations. lia. Qed.

Lemma madt_loop_spec w entries : forall fuel a cores, Forall entry_ok entries -> (length entries < fuel)%nat ->
  holds w a (concat (map encode_entry entries)) ->
  madt_loop mem fuel w a (a + Z.of_nat (length (concat (map encode_entry entries)))) cores = Ok (cores ++ omap core_of entries).
Proof.
  induction entries as [|e entries IH]; intros fuel a cores Ho Hf H; (destruct fuel as [|fuel]; [cbn [length] in Hf; lia|]); cbn [madt_loop].
  - cbn [map concat length]. rewrite Z.add_0_r, Z.ltb_irrefl. cbn [omap list_omap]. now rewrite app_nil_r.
  - apply Forall_cons in Ho as [He Ho]. cbn [map concat] in *. rewrite length_app. set (rest := concat (map encode_entry entries)) in *.
    assert (Hl : length (encode_entry e) = (2 + length (e_body e))%nat) by reflexivity. rewrite (proj2 (Z.ltb_lt _ _)) by lia.
    pose proof H as H0. apply holds_app in H0 as [_ Hr]. rewrite Hl in Hr.
    pose proof H as H1. unfold encode_entry in H1. cbn [app] in H1. apply holds_cons in H1 as [R1 H1]. apply holds_cons in H1 as [R2 H1].
    rewrite (bind_Ok_l _ _ _ R1), (bind_Ok_l _ _ _ R2).
    assert (Ec : (if e_type e =? 0 then
          body ← read_bytes mem w 8 a; lapic_id ← fetch body 3; flags ← read32 mem w (a + 4);
          if xorb (Z.testbit flags 0) (Z.testbit flags 1) then Ok (cores ++ [lapic_id]) else Ok cores
        else Ok cores) = Ok (cores ++ option_list (core_of e))).
    { unfold core_of. destruct (Z.eqb_spec (e_type e) 0) as [E0|]; [|cbn [option_list]; now rewrite app_nil_r].
      destruct (He E0) as (L6 & f & Ef & Rf). rewrite (bind_Ok_l _ _ (encode_entry e)).
      2: { replace 8%nat with (length (encode_entry e)) by (rewrite Hl, L6; reflexivity). apply (read_bytes_holds w _ a rest). exact H. }
      rewrite Ef, (word_of_le32 f Rf). destruct (e_body e) as [|uid [|id body]] eqn:Eb; [discriminate|discriminate|].
      rewrite (bind_Ok_l _ _ id) by (unfold encode_entry; rewrite Eb; reflexivity). change (drop 2 (uid :: id :: body)) with body in Ef. subst body.
      apply holds_cons in H1 as [_ H1]. apply holds_cons in H1 as [_ H1]. replace (a + 1 + 1 + 1 + 1) with (a + 4) in H1 by lia.
      rewrite (bind_Ok_l _ _ _ (read32_holds w (a + 4) f _ Rf H1)). cbn [lookup list_lookup].
      destruct (xorb _ _); cbn [option_list]; [reflexivity|now rewrite app_nil_r]. }
    rewrite (bind_Ok_l _ _ _ Ec). change (omap core_of (e :: entries)) with (match core_of e with Some y => y :: omap core_of entries | None => omap core_of entries end).
    replace (a + Z.of_nat (length (encode_entry e) + length rest)) with (a + Z.of_nat (2 + length (e_body e)) + Z.of_nat (length rest)) by lia.
    cbn [length] in Hf. rewrite IH by (assumption || lia). rewrite <- app_assoc. destruct (core_of e); reflexivity.
Qed.

(** ** The tables of the RSDT *)
Record acpi_table := mk_table { t_addr : Z; t_signature : list Z; t_rest : list Z }.
Definition t_bytes (t : acpi_table) : list Z := t_signature t ++ le32 (Z.of_nat (8 + length (t_rest t))) ++ t_rest t.
Definition sums_to_zero (l : list Z) : bool := foldl (fun a b => u8 (a + b)) 0 l =? 0.
Definition table_ok (t : acpi_table) : Prop :=
  length (t_signature t) = 4%nat /\ is_u32 (t_addr t) /\ Z.of_nat (length (t_bytes t)) < 2 ^ 32 /\ holds (create_mapping (t_addr t) 1) (t_addr t) (t_bytes t).
Definition is_table (signature : list Z) (t : acpi_table) : bool := bool_decide (t_signature t = signature) && sums_to_zero (t_bytes t).
Lemma checksum_valid_holds w a l : holds w a l -> checksum_valid mem w a (Z.of_nat (length l)) = Ok (sums_to_zero l).
Proof.
  intros H. unfold checksum_valid. rewrite Nat2Z.id, (bind_Ok_l _ _ l); [reflexivity|]. apply (read_bytes_holds w l a []). now rewrite app_nil_r.
Qed.
Lemma t_bytes_length t : length (t_signature t) = 4%nat -> length (t_bytes t) = (8 + length (t_rest t))%nat.
Proof. intros H. unfold t_bytes. rewrite !length_app, H. reflexivity. Qed.
Lemma table_length t : table_ok t -> read32 mem (create_mapping (t_addr t) 1) (t_addr t + 4) = Ok (Z.of_nat (length (t_bytes t))).
Proof.
  intros (L & _ & B & H). pose proof (t_bytes_length t L) as Lb. rewrite Lb in *. unfold t_bytes in H. apply holds_app in H as [_ H]. rewrite L in H.
  apply (read32_holds _ _ _ (t_rest t)); [lia|exact H].
Qed.
Lemma table_matches signature t : table_ok t ->
  (s ← read_bytes mem (create_mapping (t_addr t) 1) 4 (t_addr t);
   if bool_decide (s = signature) then length ← read32 mem (create_mapping (t_addr t) 1) (t_addr t + 4); checksum_valid mem (create_mapping (t_addr t) 1) (t_addr t) length
   else Ok false) = Ok (is_table signature t).
Proof.
  intros T. pose proof T as (L & _ & B & H).
  assert (E : read_bytes mem (create_mapping (t_addr t) 1) 4 (t_addr t) = Ok (t_signature t)).
  { replace 4%nat with (length (t_signature t)). eapply read_bytes_holds. exact H. }
  rewrite (bind_Ok_l _ _ _ E). unfold is_table. case_bool_decide; [|reflexivity].
  rewrite (bind_Ok_l _ _ _ (table_length t T)). now apply checksum_valid_holds.
Qed.
Lemma table_loop_spec signature rsdt tables : Forall table_ok tables -> forall a,
  holds rsdt a (concat (map (fun t => le32 (t_addr t)) tables)) ->
  table_loop mem signature 0 rsdt a (length tables) 0
  = Ok (match list_find (fun t => is_table signature t = true) tables with
        | Some (_, t) => Some (create_mapping (t_addr t) 1, t_addr t) | None => None end).
Proof.
  induction 1 as [|t tables Ht Hs IH]; intros a H; [reflexivity|]. cbn [map concat length table_loop list_find] in *.
  pose proof Ht as (_ & A & _ & _). rewrite (bind_Ok_l _ _ _ (read32_holds rsdt a _ _ A H)). cbv zeta.
  pose proof (table_matches signature t Ht) as M. destruct (read_bytes mem (create_mapping (t_addr t) 1) 4 (t_addr t)) as [s|]; [|discriminate].
  cbn [mbind outcome_bind] in M |- *. rewrite (bind_Ok_l _ _ _ M). destruct (is_table signature t) eqn:E.
  - rewrite decide_True by reflexivity. reflexivity.
  - rewrite decide_False by discriminate. apply holds_app in H as [_ H]. change (Z.of_nat (length (le32 (t_addr t)))) with 4 in H. rewrite (IH _ H).
    destruct (list_find _ tables) as [[i x]|]; reflexivity.
Qed.

(** The two places of the root pointer, each searched upwards in steps of 16. *)
Definition places (a : Z) (n : nat) : list Z := map (fun k => a + 0x10 * Z.of_nat k) (seq 0 n).
Definition first_of (b : Z -> bool) (l : list Z) : option Z := snd <$> list_find (fun x => b x = true) l.
Lemma get_rsdp_first e b : get_ebda_addr mem = Ok e ->
  (forall k, 0 <= k < 64 -> is_rsdp mem (create_mapping e 1) (e + 0x10 * k) = Ok (b (e + 0x10 * k))) ->
  (forall k, 0 <= k < 0x2000 -> is_rsdp mem (create_mapping 0xE0000 0x20) (0xE0000 + 0x10 * k) = Ok (b (0xE0000 + 0x10 * k))) ->
  get_rsdp mem = Ok (match first_of b (places e 64) with
                     | Some a => Some (create_mapping e 1, a)
                     | None => match first_of b (places 0xE0000 (Z.to_nat 0x2000)) with Some a => Some (create_mapping 0xE0000 0x20, a) | None => None end end).
Proof.
  intros He H1 H2. unfold get_rsdp. rewrite (bind_Ok_l _ _ _ He). cbv zeta.
  rewrite (bind_Ok_l _ _ _ (search_spec _ b 64 e ltac:(intros k Hk; apply H1; lia))). unfold first_of at 1, places at 1.
  destruct (list_find _ _) as [[i x]|]; [reflexivity|]. cbn [fmap option_fmap option_map].
  rewrite (bind_Ok_l _ _ _ (search_spec _ b (Z.to_nat 0x2000) 0xE0000 ltac:(intros k Hk; apply H2; lia))). unfold first_of, places.
  destruct (list_find _ _) as [[i x]|]; reflexivity.
Qed.

(** The processors that are started are those of the first table of the RSDT with the signature APIC and a valid checksum, in its order: every local APIC entry that is enabled or can be, no other entry, whatever its length. *)
Theorem madt_init_correct fuel w rsdp r header tables i t mheader lapic mflags entries :
  get_rsdp mem = Ok (Some (w, rsdp)) -> holds w (rsdp + 16) (le32 r) -> is_u32 r ->
  length header = 28%nat -> Forall table_ok tables -> (36 + 4 * Z.of_nat (length tables) < 2 ^ 32) ->
  holds (create_mapping r 1) (r + 4) (le32 (36 + 4 * Z.of_nat (length tables)) ++ header ++ concat (map (fun t => le32 (t_addr t)) tables)) ->
  list_find (fun t => is_table apic_signature t = true) tables = Some (i, t) ->
  length mheader = 28%nat -> is_u32 lapic -> t_rest t = mheader ++ le32 lapic ++ le32 mflags ++ concat (map encode_entry entries) ->
  Forall entry_ok entries -> (length entries < fuel)%nat ->
  madt_init mem fuel = Ok (Some (lapic, omap core_of entries)).
Proof.
  intros Hg Hr Rr Lh Ht Hn Hs Hf Lm Rl Er He Hfu. unfold madt_init, acpi_get_table_addr.
  assert (E0 : read32 mem w (rsdp + 16) = Ok r) by (apply (read32_holds _ _ _ []); [exact Rr|rewrite app_nil_r; exact Hr]).
  pose proof Hs as Hl. apply holds_app in Hs as [_ Hs]. apply holds_app in Hs as [_ Hs]. rewrite Lh in Hs.
  rewrite length_le32 in Hs. change (Z.of_nat 28) with 28 in Hs. change (Z.of_nat 4) with 4 in Hs.
  replace (r + 4 + 4 + 28) with (r + sizeof_acpi_sdt) in Hs by (unfold sizeof_acpi_sdt; lia).
  rewrite Hg. cbn [mbind outcome_bind]. rewrite E0. cbn [mbind outcome_bind]. rewrite (read32_holds (create_mapping r 1) (r + 4) (36 + 4 * Z.of_nat (length tables)) _ ltac:(lia) Hl). cbn [mbind outcome_bind].
  rewrite sub32_small by (unfold sizeof_acpi_sdt; lia). replace (Z.to_nat _) with (length tables) by (unfold sizeof_acpi_sdt; Z.to_euclidean_division_equations; lia).
  rewrite (table_loop_spec _ _ _ Ht _ Hs), Hf. cbn [mbind outcome_bind].
  apply list_find_Some in Hf as (Hi & _ & _). pose proof (Forall_lookup_1 _ _ _ _ Ht Hi) as T.
  rewrite (table_length t T). cbn [mbind outcome_bind]. pose proof T as (Ls & _ & _ & H). pose proof (t_bytes_length t Ls) as Lb.
  unfold t_bytes in H. apply holds_app in H as [_ H]. apply holds_app in H as [_ H]. rewrite Er, Ls in H. apply holds_app in H as [_ H]. rewrite Lm in H.
  rewrite length_le32 in H. change (Z.of_nat 28) with 28 in H. change (Z.of_nat 4) with 4 in H.
  replace (t_addr t + 4 + 4 + 28) with (t_addr t + sizeof_acpi_sdt) in H by (unfold sizeof_acpi_sdt; lia).
  pose proof (read32_holds _ _ _ _ Rl H) as El. apply holds_app in H as [_ H]. apply holds_app in H as [_ H].
  rewrite !length_le32 in H. change (Z.of_nat 4) with 4 in H.
  replace (t_addr t + sizeof_acpi_sdt + 4 + 4) with (t_addr t + sizeof_acpi_sdt + 8) in H by lia.
  pose proof (madt_loop_spec _ entries fuel _ [] He Hfu H) as Em.
  rewrite Lb, Er, !length_app, Lm. rewrite !length_le32.
  replace (t_addr t + Z.of_nat (8 + (28 + (4 + (4 + length (concat (map encode_entry entries)))))))
    with (t_addr t + sizeof_acpi_sdt + 8 + Z.of_nat (length (concat (map encode_entry entries)))) by (unfold sizeof_acpi_sdt; lia).
  rewrite Em. cbn [mbind outcome_bind]. rewrite El. reflexivity.
Qed.

(** ** The multiprocessor table: processors have twenty bytes, other entries eight *)
Inductive mp_entry := mp_processor (local_apic_id : Z) (rest : list Z) | mp_other (type : Z) (rest : list Z).
Definition encode_mp (e : mp_entry) : list Z :=
  match e with mp_processor id rest => 0 :: id :: rest | mp_other type rest => type :: rest end.
Definition mp_entry_ok (e : mp_entry) : Prop :=
  match e with mp_processor _ rest => length rest = 18%nat | mp_other type rest => type <> 0 /\ length rest = 7%nat end.
Definition mp_core (e : mp_entry) : option Z := match e with mp_processor id _ => Some id | mp_other _ _ => None end.
Lemma entries_loop_spec w entries : forall a cores, Forall mp_entry_ok entries -> holds w a (concat (map encode_mp entries)) ->
  entries_loop mem (length entries) w a cores = Ok (cores ++ omap mp_core entries).
Proof.
  induction entries as [|e entries IH]; intros a cores Ho H; [cbn; now rewrite app_nil_r|]. apply Forall_cons in Ho as [He Ho].
  cbn [length entries_loop map concat] in *. set (tail := concat (map encode_mp entries)) in *. destruct e as [id rest|type rest]; cbn [mp_entry_ok] in He.
  - pose proof H as H0. cbn [encode_mp app] in H0. apply holds_cons in H0 as [R _]. rewrite (bind_Ok_l _ _ _ R). cbn [Z.eqb PROCESSOR].
    assert (E : read_bytes mem w 20 a = Ok (0 :: id :: rest)).
    { replace 20%nat with (length (0 :: id :: rest)) by (cbn [length]; now rewrite He). eapply read_bytes_holds. exact H. }
    rewrite (bind_Ok_l _ _ _ E). rewrite (bind_Ok_l _ _ id eq_refl). apply holds_app in H as [_ H]. cbn [encode_mp length] in H. rewrite He in H.
    change (Z.of_nat 20) with sizeof_mp_processor_entry in H. rewrite (IH _ _ Ho H), <- app_assoc. reflexivity.
  - destruct He as [Ht Hr]. pose proof H as H0. cbn [encode_mp app] in H0. apply holds_cons in H0 as [R _]. rewrite (bind_Ok_l _ _ _ R).
    unfold PROCESSOR. rewrite (proj2 (Z.eqb_neq _ _) Ht). apply holds_app in H as [_ H]. cbn [encode_mp length] in H. rewrite Hr in H.
    change (Z.of_nat 8) with sizeof_mp_io_apic_entry in H. rewrite (IH _ _ Ho H). reflexivity.
Qed.
Lemma holds_read w l : forall a, read_bytes mem w (length l) a = Ok l -> holds w a l.
Proof.
  induction l as [|c l IH]; intros a H; [intros i b Hi; discriminate|]. cbn [length read_bytes] in H.
  apply bind_Ok in H as (c' & E1 & H). apply bind_Ok in H as (l' & E2 & H). injection H as -> ->.
  apply holds_cons. split; [exact E1|exact (IH _ E2)].
Qed.
End correct.

(** ** Examples: a memory from its pieces, zero elsewhere *)
Fixpoint memory_of (pieces : list (Z * list Z)) (a : Z) : Z :=
  match pieces with
  | [] => 0
  | (b, l) :: pieces => if (b <=? a) && (a <? b + Z.of_nat (length l)) then default 0 (l !! Z.to_nat (a - b)) else memory_of pieces a
  end.
Definition facp : acpi_table := mk_table 0x12000 [70; 65; 67; 80] (repeat 0 28).
Definition processors : list madt_entry :=
  [mk_entry 0 ([0; 0] ++ le32 1); mk_entry 1 (repeat 0 10); mk_entry 0 ([1; 1] ++ le32 1); mk_entry 0 ([2; 2] ++ le32 0)].
Definition apic : acpi_table :=
  mk_table 0x11000 apic_signature (([0; 136] ++ repeat 0 26) ++ le32 0xFEE00000 ++ le32 0 ++ concat (map encode_entry processors)).
Definition machine : Z -> Z := memory_of
  [(0x40e, le16 0x9FC0); (0x9FC10, rsd_ptr ++ [224] ++ repeat 0 7 ++ le32 0x10000);
   (0x10000, [82; 83; 68; 84] ++ le32 44 ++ repeat 0 28 ++ le32 0x12000 ++ le32 0x11000); (0x12000, t_bytes facp); (0x11000, t_bytes apic)].
Lemma machine_tables : Forall (table_ok machine) [facp; apic].
Proof.
  apply Forall_cons; split; [|apply Forall_cons; split; [|constructor]];
    (split; [reflexivity|split; [split; [discriminate|reflexivity]|split; [vm_compute; reflexivity|apply holds_read; vm_compute; reflexivity]]]).
Qed.
Lemma madt_init_correct_witness : madt_init machine 5 = Ok (Some (0xFEE00000, [0; 1])).
Proof.
  apply (madt_init_correct machine 5 (create_mapping 0x9FC00 1) 0x9FC10 0x10000 (repeat 0 28) [facp; apic] 1 apic ([0; 136] ++ repeat 0 26) 0xFEE00000 0 processors).
  - vm_compute. reflexivity.
  - apply holds_read. vm_compute. reflexivity.
  - split; [discriminate|reflexivity].
  - reflexivity.
  - exact machine_tables.
  - reflexivity.
  - apply holds_read. vm_compute. reflexivity.
  - vm_compute. reflexivity.
  - reflexivity.
  - split; [discriminate|reflexivity].
  - reflexivity.
  - apply Forall_cons; split; [|apply Forall_cons; split; [|apply Forall_cons; split; [|apply Forall_cons; split; [|constructor]]]]; intros E;
      [|discriminate E| |]; (split; [reflexivity|]); [exists 1|exists 1|exists 0]; (split; [reflexivity|split; [discriminate|reflexivity]]).
  - cbn. lia.
Defined.

(** An entry whose length is 0 is never passed. *)
Example entry_without_length_loops : madt_loop machine 1000 (create_mapping 0x10000 1) 0x10008 0x10024 [] = Fault OutOfFuel.
Proof. vm_compute. reflexivity. Qed.
(** Processors of the multiprocessor table are started whether they are enabled or not:
    the flags are the fourth byte. *)
Definition mp_machine : Z -> Z := memory_of
  [(0x40e, le16 0x9FC0); (0x9FC20, [95; 77; 80; 95] ++ le32 0x10000 ++ [1; 4; 0; 0; 0; 0; 0; 0]);
   (0x10000, repeat 0 34 ++ le16 2 ++ le32 0xFEE00000 ++ repeat 0 4 ++ encode_mp (mp_processor 0 ([0; 3] ++ repeat 0 16)) ++ encode_mp (mp_processor 1 ([0; 0] ++ repeat 0 16)))].
Example disabled_processors_are_listed : find_mp_header mp_machine = Ok (true, Some (0xFEE00000, [0; 1])).
Proof. vm_compute. reflexivity. Qed.
