(* ===== verification/Ports.v ===== *)
(** * The ports of the machine (drivers/portio.h)

    [S] is everything behind the ports.  A device is what it answers: drivers are written
    against this class, and the laws a driver relies on are a class of their own next to
    the driver.  The string instructions move bytes, two for each word. *)
From S2P Require Import Prelude.

Class ports (S : Type) := {
  inb : Z -> S -> Z * S;
  outb : Z -> Z -> S -> S;
  inw : Z -> S -> Z * S;
  outw : Z -> Z -> S -> S;
  ind : Z -> S -> Z * S;
  outd : Z -> Z -> S -> S;
  insw : Z -> nat -> S -> list Z * S;
  outsw : Z -> list Z -> S -> S }.

(** [n] reads of a port, one after the other: the state they leave. *)
Fixpoint reads {S} {P : ports S} (port : Z) (n : nat) (s : S) : S :=
  match n with O => s | Datatypes.S n => reads port n (inb port s).2 end.

(** [while(inb(port) & mask);] *)
Fixpoint wait_clear {S} {P : ports S} (fuel : nat) (port mask : Z) (s : S) : outcome S :=
  match fuel with
  | O => Fault OutOfFuel
  | Datatypes.S fuel => let '(v, s) := inb port s in if has v mask then wait_clear fuel port mask s else Ok s
  end.
Lemma wait_clear_reads {S} {P : ports S} port mask n : forall fuel s,
  has (inb port (reads port n s)).1 mask = false -> (n < fuel)%nat ->
  exists m : nat, (m <= n)%nat /\ has (inb port (reads port m s)).1 mask = false /\ wait_clear fuel port mask s = Ok (reads port (m + 1) s).
Proof.
  assert (First : forall fuel s, has (inb port s).1 mask = false -> wait_clear (Datatypes.S fuel) port mask s = Ok (reads port 1 s)).
  { intros fuel s H. cbn [wait_clear reads]. destruct (inb port s) as [v s1]. cbn [fst snd] in *. now rewrite H. }
  induction n as [|n IH]; intros fuel s H Hf; (destruct fuel as [|fuel]; [lia|]).
  - exists 0%nat. split; [lia|]. split; [exact H|]. now apply First.
  - destruct (has (inb port s).1 mask) eqn:Ev.
    + destruct (IH fuel (inb port s).2 H ltac:(lia)) as (m & Hm & C & W). exists (Datatypes.S m). split; [lia|]. split; [exact C|].
      cbn [wait_clear]. destruct (inb port s) as [v s1] eqn:E. cbn [fst snd] in *. rewrite Ev, W. cbn [Nat.add reads]. now rewrite E.
    + exists 0%nat. split; [lia|]. split; [exact Ev|]. now apply First.
Qed.
