(* ===== verification/Pci.v ===== *)
(** * The PCI bus (drivers/pci.cpp, pci.h)

    Functions are found by scanning buses, from bus 0 and through the bridges; the calls
    of the callback are the list that is returned, in their order. *)
From S2P Require Import Prelude Ports.

Definition PCI_NONE : Z := 0xFFFF.
Definition PCI_VENDOR_ID : Z := 0x00.
Definition PCI_DEVICE_ID : Z := 0x02.
Definition PCI_COMMAND : Z := 0x04.
Definition PCI_PROG_IF : Z := 0x09.
Definition PCI_SUBCLASS : Z := 0x0a.
Definition PCI_CLASS : Z := 0x0b.
Definition PCI_HEADER_TYPE : Z := 0x0e.
Definition PCI_BAR0 : Z := 0x10.
Definition PCI_SECONDARY_BUS : Z := 0x19.
Definition PCI_INTERRUPT_LINE : Z := 0x3C.
Definition PCI_ADDRESS_PORT : Z := 0xCF8.
Definition PCI_VALUE_PORT : Z := 0xCFC.

Record pci_device := mk_pci { bus : Z; slot : Z; func : Z }.
#[export] Instance pci_device_eq_dec : EqDecision pci_device.
Proof. solve_decision. Defined.
Definition pci_get_addr (device : pci_device) (field : Z) : Z :=
  Z.lor (Z.lor (Z.lor (Z.lor 0x80000000 (Z.shiftl (bus device) 16)) (Z.shiftl (slot device) 11)) (Z.shiftl (func device) 8)) (Z.land field 0xFC).

Section pci.
Context {S : Type} {P : ports S}.

Definition pci_write32 (device : pci_device) (field value : Z) (s : S) : S :=
  outd PCI_VALUE_PORT value (outd PCI_ADDRESS_PORT (pci_get_addr device field) s).
Definition pci_write16 (device : pci_device) (field value : Z) (s : S) : S :=
  outw (PCI_VALUE_PORT + Z.land field 3) value (outd PCI_ADDRESS_PORT (pci_get_addr device field) s).
Definition pci_write8 (device : pci_device) (field value : Z) (s : S) : S :=
  outb (PCI_VALUE_PORT + Z.land field 3) value (outd PCI_ADDRESS_PORT (pci_get_addr device field) s).
Definition pci_read32 (device : pci_device) (field : Z) (s : S) : Z * S :=
  ind PCI_VALUE_PORT (outd PCI_ADDRESS_PORT (pci_get_addr device field) s).
Definition pci_read16 (device : pci_device) (field : Z) (s : S) : Z * S :=
  let '(v, s) := pci_read32 device field s in (Z.land (Z.shiftr v (Z.land field 2 * 8)) 0xFFFF, s).
Definition pci_read8 (device : pci_device) (field : Z) (s : S) : Z * S :=
  let '(v, s) := pci_read32 device field s in (Z.land (Z.shiftr v (Z.land field 3 * 8)) 0xFF, s).

Definition pci_check_type (device : pci_device) (d_class d_subclass : Z) (s : S) : bool * S :=
  let '(c, s) := pci_read8 device PCI_CLASS s in
  if c =? d_class then let '(c, s) := pci_read8 device PCI_SUBCLASS s in (c =? d_subclass, s) else (false, s).

(** A call of the callback: the function, its vendor and its device number. *)
Definition call : Type := pci_device * Z * Z.
Section scan.
Context (d_class d_subclass : Z).
Section scan_bus.
Context (pci_scan_bus : Z -> S -> outcome (list call * S)).
Definition pci_scan_func (device : pci_device) (s : S) : outcome (list call * S) :=
  let '(match_, s) := if (d_class =? 0xFF) && (d_subclass =? 0xFF) then (true, s) else pci_check_type device d_class d_subclass s in
  let '(calls, s) := if match_ : bool then
      let '(vendor, s) := pci_read16 device PCI_VENDOR_ID s in let '(id, s) := pci_read16 device PCI_DEVICE_ID s in ([(device, vendor, id)], s)
    else ([], s) in
  let '(bridge, s) := pci_check_type device 0x06 0x04 s in
  if bridge : bool then
    let '(secondary, s) := pci_read8 device PCI_SECONDARY_BUS s in
    '(more, s) ← pci_scan_bus secondary s; Ok (calls ++ more, s)
  else Ok (calls, s).
(** [for(size_t func = 1; func < 8; func++)], [n] functions from [func] on. *)
Fixpoint pci_scan_funcs_of (n : nat) (bus slot func : Z) (s : S) : outcome (list call * S) :=
  match n with
  | O => Ok ([], s)
  | Datatypes.S n =>
    let device := mk_pci bus slot func in
    let '(vendor, s) := pci_read16 device PCI_VENDOR_ID s in
    '(calls, s) ← (if negb (vendor =? PCI_NONE) then pci_scan_func device s else Ok ([], s));
    '(more, s) ← pci_scan_funcs_of n bus slot (func + 1) s;
    Ok (calls ++ more, s)
  end.
Definition pci_scan_slot (bus slot : Z) (s : S) : outcome (list call * S) :=
  let device := mk_pci bus slot 0 in
  let '(vendor, s) := pci_read16 device PCI_VENDOR_ID s in
  if vendor =? PCI_NONE then Ok ([], s) else
  '(calls, s) ← pci_scan_func device s;
  let '(header, s) := pci_read8 device PCI_HEADER_TYPE s in
  if header =? 0 then Ok (calls, s) else
  '(more, s) ← pci_scan_funcs_of 7 bus slot 1 s;
  Ok (calls ++ more, s).
Fixpoint pci_scan_slots (n : nat) (bus slot : Z) (s : S) : outcome (list call * S) :=
  match n with
  | O => Ok ([], s)
  | Datatypes.S n =>
    '(calls, s) ← pci_scan_slot bus slot s;
    '(more, s) ← pci_scan_slots n bus (slot + 1) s;
    Ok (calls ++ more, s)
  end.
End scan_bus.
(** Through a bridge the scan of another bus is entered: [depth] bounds how deep. *)
Fixpoint pci_scan_bus (depth : nat) (bus : Z) (s : S) : outcome (list call * S) :=
  match depth with
  | O => Fault OutOfFuel
  | Datatypes.S depth => pci_scan_slots (pci_scan_bus depth) 32 bus 0 s
  end.

(** The functions of the host bridge: the bus of each. *)
Fixpoint pci_scan_funcs (n depth : nat) (func : Z) (s : S) : outcome (bool * list call * S) :=
  match n with
  | O => Ok (true, [], s)
  | Datatypes.S n =>
    let '(vendor, s) := pci_read16 (mk_pci 0 0 func) PCI_VENDOR_ID s in
    if vendor =? PCI_NONE then Ok (false, [], s) else
    '(calls, s) ← pci_scan_bus depth func s;
    '(all, more, s) ← pci_scan_funcs n depth (func + 1) s;
    Ok (all, calls ++ more, s)
  end.
Fixpoint pci_scan_all (n depth : nat) (bus : Z) (s : S) : outcome (list call * S) :=
  match n with
  | O => Ok ([], s)
  | Datatypes.S n =>
    '(calls, s) ← pci_scan_slots (pci_scan_bus depth) 32 bus 0 s;
    '(more, s) ← pci_scan_all n depth (bus + 1) s;
    Ok (calls ++ more, s)
  end.
Definition pci_device_by_class (depth : nat) (s : S) : outcome (list call * S) :=
  let '(header, s) := pci_read8 (mk_pci 0 0 0) PCI_HEADER_TYPE s in
  if has header 0x80 then
    '(all, calls, s) ← pci_scan_funcs 8 depth 0 s;
    if all : bool then Ok (calls, s) else
    '(more, s) ← pci_scan_all 256 depth 0 s; Ok (calls ++ more, s)
  else pci_scan_bus depth 0 s.
End scan.
End pci.

(** * What a scan finds

    The configuration space is a word for every function and every fourth field; reading
    it through the two ports gives the word and changes nothing. *)
Class pci_laws (S : Type) {P : ports S} := {
  config : S -> pci_device -> Z -> Z;
  config_read d field s : config (pci_read32 d field s).2 = config s /\ (pci_read32 d field s).1 = config s d (Z.land field 0xFC) }.

Section finds.
Context {S : Type} {P : ports S} {PL : pci_laws S}.
#[local] Set Default Proof Using "PL".
(** The fields as the configuration space [g] has them. *)
Definition space : Type := pci_device -> Z -> Z.
Definition field16 (g : space) (d : pci_device) (f : Z) : Z := Z.land (Z.shiftr (g d (Z.land f 0xFC)) (Z.land f 2 * 8)) 0xFFFF.
Definition field8 (g : space) (d : pci_device) (f : Z) : Z := Z.land (Z.shiftr (g d (Z.land f 0xFC)) (Z.land f 3 * 8)) 0xFF.
Definition has_type (g : space) (d : pci_device) (c sc : Z) : bool := (field8 g d PCI_CLASS =? c) && (field8 g d PCI_SUBCLASS =? sc).
Definition present (g : space) (d : pci_device) : Prop := field16 g d PCI_VENDOR_ID <> PCI_NONE.
Definition is_bridge (g : space) (d : pci_device) : bool := has_type g d 0x06 0x04.
Definition secondary (g : space) (d : pci_device) : Z := field8 g d PCI_SECONDARY_BUS.
Definition matches (c sc : Z) (g : space) (d : pci_device) : bool := ((c =? 0xFF) && (sc =? 0xFF)) || has_type g d c sc.
Definition call_of (g : space) (d : pci_device) : call := (d, field16 g d PCI_VENDOR_ID, field16 g d PCI_DEVICE_ID).
(** The functions of a slot: the first one, and the others when the header type of the
    first is not 0. *)
Definition on_slot (g : space) (b sl : Z) (d : pci_device) : Prop :=
  bus d = b /\ slot d = sl /\ 0 <= func d < 8 /\ present g d /\
  (func d = 0 \/ present g (mk_pci b sl 0) /\ field8 g (mk_pci b sl 0) PCI_HEADER_TYPE <> 0).
Definition on_bus (g : space) (b : Z) (d : pci_device) : Prop := exists sl, 0 <= sl < 32 /\ on_slot g b sl d.
(** The functions behind a bus, through any number of bridges. *)
Inductive behind (g : space) : Z -> pci_device -> Prop :=
| behind_bus b d : on_bus g b d -> behind g b d
| behind_bridge b br d : on_bus g b br -> is_bridge g br = true -> behind g (secondary g br) d -> behind g b d.

Lemma read8_spec d f s : config (pci_read8 d f s).2 = config s /\ (pci_read8 d f s).1 = field8 (config s) d f.
Proof. unfold pci_read8. destruct (config_read d f s) as [E1 E2]. destruct (pci_read32 d f s) as [v s']. cbn [fst snd] in *. subst v. auto. Qed.
Lemma read16_spec d f s : config (pci_read16 d f s).2 = config s /\ (pci_read16 d f s).1 = field16 (config s) d f.
Proof. unfold pci_read16. destruct (config_read d f s) as [E1 E2]. destruct (pci_read32 d f s) as [v s']. cbn [fst snd] in *. subst v. auto. Qed.
Lemma check_type_spec d c sc s : config (pci_check_type d c sc s).2 = config s /\ (pci_check_type d c sc s).1 = has_type (config s) d c sc.
Proof.
  unfold pci_check_type, has_type. destruct (read8_spec d PCI_CLASS s) as [E1 E2]. destruct (pci_read8 d PCI_CLASS s) as [v s1]. cbn [fst snd] in *. subst v.
  destruct (field8 _ _ PCI_CLASS =? c); [|auto]. destruct (read8_spec d PCI_SUBCLASS s1) as [E3 E4]. destruct (pci_read8 d PCI_SUBCLASS s1) as [v s2].
  cbn [fst snd andb] in *. subst v. rewrite E1. split; congruence.
Qed.

(** A scan from [s] that makes exactly the calls of [Q] and leaves the space as it is. *)
Definition scans (g : space) (o : outcome (list call * S)) (Q : call -> Prop) : Prop :=
  exists calls s', o = Ok (calls, s') /\ config s' = g /\ forall c, c ∈ calls <-> Q c.
Lemma scans_nothing g s : config s = g -> scans g (Ok ([], s)) (fun _ => False).
Proof. intros E. exists [], s. split; [reflexivity|]. split; [exact E|]. intros c. split; [intros H; inversion H|intros []]. Qed.
Lemma scans_then g o Q R (k : list call -> S -> outcome (list call * S)) (rest : S -> outcome (list call * S)) :
  scans g o Q -> (forall calls s, k calls s = ('(more, s) ← rest s; Ok (calls ++ more, s))) ->
  (forall s, config s = g -> scans g (rest s) R) -> scans g ('(calls, s) ← o; k calls s) (fun c => Q c \/ R c).
Proof.
  intros (calls & s' & -> & E & H) Hk Hr. cbn [mbind outcome_bind]. rewrite Hk. destruct (Hr s' E) as (more & s2 & -> & E2 & H2). cbn [mbind outcome_bind].
  exists (calls ++ more), s2. split; [reflexivity|]. split; [exact E2|]. intros c. rewrite elem_of_app. now rewrite H, H2.
Qed.
Lemma scans_iff g o (Q R : call -> Prop) : scans g o Q -> (forall c, Q c <-> R c) -> scans g o R.
Proof. intros (l & s & E & C & H) I. exists l, s. split; [exact E|]. split; [exact C|]. intros c. rewrite H. apply I. Qed.

Section scan.
Context (c sc : Z) (g : space) (sub : Z -> S -> outcome (list call * S)) (R : Z -> call -> Prop).
(** The calls for a function and what is behind it. *)
Definition calls_of (d : pci_device) (x : call) : Prop :=
  (matches c sc g d = true /\ x = call_of g d) \/ (is_bridge g d = true /\ R (secondary g d) x).
Lemma scan_func_spec d s : config s = g ->
  (is_bridge g d = true -> forall s', config s' = g -> scans g (sub (secondary g d) s') (R (secondary g d))) ->
  scans g (pci_scan_func c sc sub d s) (calls_of d).
Proof using PL.
  intros E Hsub. unfold pci_scan_func, calls_of.
  assert (M : exists s1, (if (c =? 0xFF) && (sc =? 0xFF) then (true, s) else pci_check_type d c sc s) = (matches c sc g d, s1) /\ config s1 = g).
  { unfold matches. destruct ((c =? 255) && (sc =? 255)); [eauto|]. destruct (check_type_spec d c sc s) as [E1 E2].
    destruct (pci_check_type d c sc s) as [b s1]. cbn [fst snd orb] in *. exists s1. rewrite E2, E. split; [reflexivity|congruence]. }
  destruct M as (s1 & -> & E1).
  assert (C : exists s2, (if matches c sc g d then
      let '(vendor, s) := pci_read16 d PCI_VENDOR_ID s1 in let '(id, s) := pci_read16 d PCI_DEVICE_ID s in ([(d, vendor, id)], s)
    else ([], s1)) = (if matches c sc g d then [call_of g d] else [], s2) /\ config s2 = g).
  { destruct (matches c sc g d); [|eauto]. destruct (read16_spec d PCI_VENDOR_ID s1) as [A1 A2]. destruct (pci_read16 d PCI_VENDOR_ID s1) as [v s2].
    cbn [fst snd] in *. destruct (read16_spec d PCI_DEVICE_ID s2) as [B1 B2]. destruct (pci_read16 d PCI_DEVICE_ID s2) as [i s3]. cbn [fst snd] in *.
    exists s3. unfold call_of. subst v i. rewrite A1, E1. split; [reflexivity|congruence]. }
  destruct C as (s2 & -> & E2). destruct (check_type_spec d 0x06 0x04 s2) as [F1 F2]. destruct (pci_check_type d 6 4 s2) as [br s3]. cbn [fst snd] in *.
  rewrite E2 in F1, F2. subst br. fold (is_bridge g d).
  assert (Base : scans g (Ok (if matches c sc g d then [call_of g d] else [], s3)) (fun x => matches c sc g d = true /\ x = call_of g d)).
  { eexists _, s3. split; [reflexivity|]. split; [exact F1|]. intros x. destruct (matches c sc g d).
    - rewrite list_elem_of_singleton. intuition.
    - split; [intros H; inversion H|intros [? _]; discriminate]. }
  destruct (is_bridge g d) eqn:Eb.
  - destruct (read8_spec d PCI_SECONDARY_BUS s3) as [G1 G2]. destruct (pci_read8 d PCI_SECONDARY_BUS s3) as [sec s4]. cbn [fst snd] in *. rewrite F1 in G1, G2.
    subst sec. fold (secondary g d). destruct (Hsub eq_refl s4 G1) as (more & s5 & -> & E5 & H5). cbn [mbind outcome_bind].
    destruct Base as (l & s' & [= <- _] & _ & Hl). eexists _, s5. split; [reflexivity|]. split; [exact E5|]. intros x. rewrite elem_of_app, Hl, H5. intuition.
  - eapply scans_iff; [exact Base|]. intros x. intuition discriminate.
Qed.

(** One slot: what follows the first function is a scan of the others. *)
Context (b : Z).
Hypothesis Hsub : forall d s, on_bus g b d -> is_bridge g d = true -> config s = g -> scans g (sub (secondary g d) s) (R (secondary g d)).
Lemma scan_funcs_of_spec sl : 0 <= sl < 32 -> present g (mk_pci b sl 0) -> field8 g (mk_pci b sl 0) PCI_HEADER_TYPE <> 0 ->
  forall n f s, config s = g -> 1 <= f -> f + Z.of_nat n = 8 ->
  scans g (pci_scan_funcs_of c sc sub n b sl f s) (fun x => exists h, f <= h < 8 /\ present g (mk_pci b sl h) /\ calls_of (mk_pci b sl h) x).
Proof using PL Hsub.
  intros Hsl H0 Hh. induction n as [|n IH]; intros f s E H1 H8.
  - eapply scans_iff; [now apply scans_nothing|]. intros x. split; [intros []|intros (h & ? & _); lia].
  - cbn [pci_scan_funcs_of]. destruct (read16_spec (mk_pci b sl f) PCI_VENDOR_ID s) as [A1 A2]. destruct (pci_read16 _ PCI_VENDOR_ID s) as [v s1]. cbn [fst snd] in *.
    rewrite E in A1, A2. subst v. eapply scans_iff.
    + eapply (scans_then g _ (fun x => present g (mk_pci b sl f) /\ calls_of (mk_pci b sl f) x)); [|reflexivity|].
      * unfold present. destruct (Z.eqb_spec (field16 g (mk_pci b sl f) PCI_VENDOR_ID) PCI_NONE) as [Ev|Ev]; cbn [negb].
        -- eapply scans_iff; [now apply scans_nothing|]. intros x. tauto.
        -- eapply scans_iff; [apply scan_func_spec; [exact A1|]|intros x; tauto]. intros Hb s' Es. apply Hsub; [|exact Hb|exact Es].
           exists sl. split; [exact Hsl|]. split; [reflexivity|]. split; [reflexivity|]. split; [cbn [func]; lia|]. split; [exact Ev|]. right. now split.
      * intros s2 E2. apply (IH (f + 1) s2 E2); lia.
    + intros x. split.
      * intros [[Hp Hc]|(h & Hr & Hp & Hc)]; [exists f|exists h]; (split; [lia|]); now split.
      * intros (h & Hr & Hp & Hc). destruct (Z.eq_dec h f) as [->|]; [left; now split|right; exists h; split; [lia|now split]].
Qed.
Lemma scan_slot_spec sl s : 0 <= sl < 32 -> config s = g ->
  scans g (pci_scan_slot c sc sub b sl s) (fun x => exists d, on_slot g b sl d /\ calls_of d x).
Proof using PL Hsub.
  intros Hsl E. unfold pci_scan_slot. destruct (read16_spec (mk_pci b sl 0) PCI_VENDOR_ID s) as [A1 A2]. destruct (pci_read16 _ PCI_VENDOR_ID s) as [v s1]. cbn [fst snd] in *.
  rewrite E in A1, A2. subst v. destruct (Z.eqb_spec (field16 g (mk_pci b sl 0) PCI_VENDOR_ID) PCI_NONE) as [Ev|Ev].
  { eapply scans_iff; [now apply scans_nothing|]. intros x. split; [intros []|]. intros ([b' sl' f] & (Eb & Es & _ & Hp & Hf) & _). cbn [bus slot func] in *. subst b' sl'.
    destruct Hf as [->|[Hf _]]; [now apply Hp|now apply Hf]. }
  assert (F : forall d, on_slot g b sl d -> is_bridge g d = true -> forall s', config s' = g -> scans g (sub (secondary g d) s') (R (secondary g d))).
  { intros d Hd Hb s' Es. apply (Hsub d s'); [|exact Hb|exact Es]. exists sl. now split. }
  assert (Z0 : on_slot g b sl (mk_pci b sl 0)).
  { split; [reflexivity|]. split; [reflexivity|]. split; [cbn [func]; lia|]. split; [exact Ev|]. now left. }
  destruct (scan_func_spec (mk_pci b sl 0) s1 A1 (F _ Z0)) as (calls & s2 & -> & E2 & H2). cbn [mbind outcome_bind].
  destruct (read8_spec (mk_pci b sl 0) PCI_HEADER_TYPE s2) as [B1 B2]. destruct (pci_read8 _ PCI_HEADER_TYPE s2) as [h s3]. cbn [fst snd] in *. rewrite E2 in B1, B2. subst h.
  destruct (Z.eqb_spec (field8 g (mk_pci b sl 0) PCI_HEADER_TYPE) 0) as [Eh|Eh].
  - exists calls, s3. split; [reflexivity|]. split; [exact B1|]. intros x. rewrite H2. split.
    + intros Hc. exists (mk_pci b sl 0). now split.
    + intros ([b' sl' f] & (Eb & Es & _ & Hp & Hf) & Hc). cbn [bus slot func] in *. subst b' sl'. destruct Hf as [->|[_ Hf]]; [exact Hc|contradiction].
  - destruct (scan_funcs_of_spec sl Hsl Ev Eh 7 1 s3 B1 ltac:(lia) ltac:(lia)) as (more & s4 & -> & E4 & H4). cbn [mbind outcome_bind].
    exists (calls ++ more), s4. split; [reflexivity|]. split; [exact E4|]. intros x. rewrite elem_of_app, H2, H4. split.
    + intros [Hc|(h & Hr & Hp & Hc)]; [exists (mk_pci b sl 0); now split|]. exists (mk_pci b sl h). split; [|exact Hc].
      split; [reflexivity|]. split; [reflexivity|]. split; [cbn [func]; lia|]. split; [exact Hp|]. right. now split.
    + intros ([b' sl' f] & (Eb & Es & Hr & Hp & Hf) & Hc). cbn [bus slot func] in *. subst b' sl'. destruct (Z.eq_dec f 0) as [->|]; [now left|]. right. exists f. split; [lia|now split].
Qed.
Lemma scan_slots_spec : forall n sl s, config s = g -> 0 <= sl -> sl + Z.of_nat n = 32 ->
  scans g (pci_scan_slots c sc sub n b sl s) (fun x => exists d h, sl <= h < 32 /\ on_slot g b h d /\ calls_of d x).
Proof using PL Hsub.
  induction n as [|n IH]; intros sl s E H0 H32.
  - eapply scans_iff; [now apply scans_nothing|]. intros x. split; [intros []|intros (d & h & ? & _); lia].
  - cbn [pci_scan_slots]. eapply scans_iff.
    + eapply scans_then; [apply scan_slot_spec; [lia|exact E]|reflexivity|]. intros s2 E2. apply (IH (sl + 1) s2 E2); lia.
    + intros x. split.
      * intros [(d & Hd & Hc)|(d & h & Hr & Hd & Hc)]; [exists d, sl|exists d, h]; (split; [lia|now split]).
      * intros (d & h & Hr & Hd & Hc). destruct (Z.eq_dec h sl) as [->|]; [left; exists d; now split|right; exists d, h; split; [lia|now split]].
Qed.
End scan.

(** Every bridge leads to a bus with a higher number, as the firmware numbers them. *)
Definition rising (g : space) : Prop := forall b d, 0 <= b < 256 -> on_bus g b d -> is_bridge g d = true -> b < secondary g d.
Definition found (c sc : Z) (g : space) (b : Z) (x : call) : Prop := exists d, behind g b d /\ matches c sc g d = true /\ x = call_of g d.
Lemma found_on_bus c sc g b x : found c sc g b x <-> exists d, on_bus g b d /\ calls_of c sc g (found c sc g) d x.
Proof.
  unfold calls_of. split.
  - intros (d & Hb & Hm & ->). destruct Hb as [b d Hd|b br d Hbr Hi Hd]; [exists d; split; [exact Hd|]; left; now split|].
    exists br. split; [exact Hbr|]. right. split; [exact Hi|]. exists d. now split.
  - intros (d & Hd & [[Hm ->]|[Hi (d' & Hb & Hm & ->)]]); [exists d; split; [now constructor|now split]|].
    exists d'. split; [now apply (behind_bridge g b d)|now split].
Qed.
Lemma secondary_byte g d : 0 <= secondary g d < 256.
Proof. unfold secondary, field8. rewrite (Z.land_ones _ 8) by lia. apply Z.mod_pos_bound. lia. Qed.
Lemma scan_bus_spec c sc g : rising g -> forall depth b s, config s = g -> 0 <= b < 256 -> 256 - b <= Z.of_nat depth ->
  scans g (pci_scan_bus c sc depth b s) (found c sc g b).
Proof.
  intros Hr depth. induction depth as [|depth IH]; intros b s E Hb Hdp; [lia|]. cbn [pci_scan_bus].
  assert (Sub : forall d s', on_bus g b d -> is_bridge g d = true -> config s' = g -> scans g (pci_scan_bus c sc depth (secondary g d) s') (found c sc g (secondary g d))).
  { intros d s' Hod Hi Es. pose proof (Hr b d Hb Hod Hi). pose proof (secondary_byte g d). apply IH; [exact Es|lia|lia]. }
  eapply scans_iff; [apply (scan_slots_spec c sc g _ (found c sc g) b Sub 32 0 s E ltac:(lia) ltac:(lia))|].
  intros x. rewrite (found_on_bus c sc g b x). split.
  - intros (d & h & Hh & Hd & Hc). exists d. split; [exists h; now split|exact Hc].
  - intros (d & (h & Hh & Hd) & Hc). exists d, h. now split.
Qed.

(** On a machine with one host bridge whose bridges lead to buses with higher numbers,
    the search for a class ends and calls back with exactly the functions of that class that
    can be reached from bus 0 through bridges, each with its own vendor and device number,
    and leaves the configuration as it was. *)
Theorem pci_device_by_class_correct c sc s : let g := config s in
  rising g -> has (field8 g (mk_pci 0 0 0) PCI_HEADER_TYPE) 0x80 = false ->
  exists calls s', pci_device_by_class c sc 256 s = Ok (calls, s') /\ config s' = g /\
    forall x, x ∈ calls <-> exists d, behind g 0 d /\ matches c sc g d = true /\ x = (d, field16 g d PCI_VENDOR_ID, field16 g d PCI_DEVICE_ID).
Proof.
  intros g Hr Hh. unfold pci_device_by_class. destruct (read8_spec (mk_pci 0 0 0) PCI_HEADER_TYPE s) as [A1 A2].
  destruct (pci_read8 _ PCI_HEADER_TYPE s) as [h s1]. cbn [fst snd] in *. subst h. fold g. rewrite Hh.
  apply (scan_bus_spec c sc g Hr 256 0 s1 A1); lia.
Qed.
(** Enough to look at every function of every bus. *)
Definition rises (g : space) : bool :=
  forallb (fun b => forallb (fun sl => forallb (fun f => let d := mk_pci b sl f in negb (is_bridge g d) || (b <? secondary g d)) (seqZ 0 8)) (seqZ 0 32)) (seqZ 0 256).
Lemma rises_rising g : rises g = true -> rising g.
Proof.
  unfold rises. intros H b [b' sl f] Hb (sl' & Hs & Eb & Es & Hf & _) Hi. cbn [bus slot func] in *. subst b' sl'.
  rewrite forallb_forall in H. specialize (H b ltac:(apply list_elem_of_In, elem_of_seqZ; lia)).
  rewrite forallb_forall in H. specialize (H sl ltac:(apply list_elem_of_In, elem_of_seqZ; lia)).
  rewrite forallb_forall in H. specialize (H f ltac:(apply list_elem_of_In, elem_of_seqZ; lia)). cbn zeta beta in H.
  rewrite Hi in H. cbn [negb orb] in H. lia.
Qed.
End finds.

(** * A machine

    An address register and a list of the words that are not all ones. *)
Module Machine.
Definition state : Type := Z * list (Z * Z).
Fixpoint word (l : list (Z * Z)) (a : Z) : Z := match l with [] => 0xFFFFFFFF | (k, v) :: l => if k =? a then v else word l a end.
Definition outd (port value : Z) (s : state) : state := if port =? PCI_ADDRESS_PORT then (value, s.2) else s.
Definition ind (port : Z) (s : state) : Z * state := (if port =? PCI_VALUE_PORT then word s.2 s.1 else 0, s).
#[export] Instance machine_ports : ports state := {|
  Ports.inb _ s := (0, s); Ports.outb _ _ s := s; Ports.inw _ s := (0, s); Ports.outw _ _ s := s;
  Ports.ind := ind; Ports.outd := outd; Ports.insw _ _ s := ([], s); Ports.outsw _ _ s := s |}.
#[export] Program Instance machine_laws : pci_laws state := {| config s d f := word s.2 (pci_get_addr d f) |}.
Next Obligation.
  intros d field [a l]. split; [reflexivity|]. cbn [pci_read32 Ports.ind Ports.outd machine_ports ind outd fst snd].
  unfold pci_read32. cbn. unfold pci_get_addr. now rewrite <- Z.land_assoc.
Qed.
(** A host bridge and a bridge to bus 1 on bus 0, a disk controller on bus 1. *)
Definition function (d : pci_device) (id header class_ sub sec : Z) : list (Z * Z) :=
  [(pci_get_addr d 0, Z.lor 0x8086 (Z.shiftl id 16)); (pci_get_addr d 8, Z.lor (Z.shiftl class_ 24) (Z.shiftl sub 16)); (pci_get_addr d 12, Z.shiftl header 16); (pci_get_addr d 0x18, Z.shiftl sec 8)].
Definition small : state := (0, function (mk_pci 0 0 0) 1 0 6 0 0 ++ function (mk_pci 0 1 0) 2 1 6 4 1 ++ function (mk_pci 1 3 0) 3 0 1 1 0).
Definition double : state := (0, function (mk_pci 0 0 0) 1 0x80 6 0 0 ++ function (mk_pci 0 2 0) 3 0 1 1 0).
Definition loop : state := (0, function (mk_pci 0 0 0) 1 0 6 0 0 ++ function (mk_pci 0 1 0) 2 1 6 4 0).
Definition calls_found (o : outcome (list call * state)) : option (list call) := match o with Ok (l, _) => Some l | _ => None end.
End Machine.
Import Machine.
Example disk_behind_bridge : calls_found (pci_device_by_class 1 1 256 small) = Some [(mk_pci 1 3 0, 0x8086, 3)].
Proof. vm_compute. reflexivity. Qed.
(** A host bridge with several functions of which one is missing: the buses that were
    scanned are scanned again, and a device is reported twice. *)
Example devices_are_found_twice : calls_found (pci_device_by_class 1 1 256 double) = Some [(mk_pci 0 2 0, 0x8086, 3); (mk_pci 0 2 0, 0x8086, 3)].
Proof. vm_compute. reflexivity. Qed.
(** A bridge whose secondary bus is still 0 is followed for ever. *)
Example bridge_to_its_own_bus_loops : pci_device_by_class 1 1 256 loop = Fault OutOfFuel.
Proof. vm_compute. reflexivity. Qed.
Lemma pci_device_by_class_correct_witness : rising (config small) /\ has (field8 (config small) (mk_pci 0 0 0) PCI_HEADER_TYPE) 0x80 = false /\
  exists calls s', pci_device_by_class 1 1 256 small = Ok (calls, s') /\ config s' = config small /\
    forall x, x ∈ calls <-> exists d, behind (config small) 0 d /\ matches 1 1 (config small) d = true /\
      x = (d, field16 (config small) d PCI_VENDOR_ID, field16 (config small) d PCI_DEVICE_ID).
Proof.
  assert (H : rising (config small)) by (apply rises_rising; vm_compute; reflexivity).
  split; [exact H|]. split; [vm_compute; reflexivity|]. apply (pci_device_by_class_correct 1 1 small H). vm_compute. reflexivity.
Defined.
