(* ===== verification/Interrupt.v ===== *)
(** * Interrupt controller and descriptor table (kernel/interrupt.cpp, interrupt.h)

    The two interrupt controllers are behind the ports; the table of 256 descriptors is
    memory of the kernel, an entry is its five fields. *)
From S2P Require Import Prelude Ports.

Definition PIC1_COMMAND_PORT : Z := 0x20.
Definition PIC2_COMMAND_PORT : Z := 0xA0.
Definition PIC_EOI_CMD : Z := 0x20.
Definition PIC_GET_IRR_CMD : Z := 0x0A.
Definition PIC_GET_ISR_CMD : Z := 0x0B.
Definition IDT_INT_PRESENT : Z := 0x80.
Definition IDT_INT_RING (r : Z) : Z := Z.land (Z.shiftl r 5) 0x60.
Definition IDT_GATE_INT_32 : Z := 0x0E.
Definition IDT_HARDWARE_INTERRUPT : Z := Z.lor (Z.lor IDT_INT_PRESENT (IDT_INT_RING 0)) IDT_GATE_INT_32.
Definition IDT_SOFTWARE_INTERRUPT : Z := Z.lor (Z.lor IDT_INT_PRESENT (IDT_INT_RING 3)) IDT_GATE_INT_32.
Definition IDT_SEGMENT_KERNEL : Z := 0x08.
Definition IDT_SEGMENT_USER : Z := 0x18.

Record idt_entry := mk_idt { address_low : Z; seg_select : Z; always0 : Z; idt_flags : Z; address_high : Z }.
Definition idt_make_entry (addr sel flags : Z) : idt_entry :=
  mk_idt (Z.land addr 0xffff) sel 0 flags (Z.land (Z.shiftr addr 16) 0xffff).
(** What [memset(&idt, 0, sizeof(idt))] leaves in an entry. *)
Definition idt_zero : idt_entry := mk_idt 0 0 0 0 0.

Section interrupt.
Context {S : Type} {P : ports S}.
(** The addresses of the handlers of the exceptions and of the two stubs. *)
Context (isr : list Z) (irq_stub1 irq_stub2 : Z).

Record interrupts := mk_int { hw : S; idt : list idt_entry }.
Definition on_hw (f : S -> S) (k : interrupts) : interrupts := mk_int (f (hw k)) (idt k).

(** [idt[i] = ...]; [i] is a byte. *)
Definition idt_install_handler (i address sel flags : Z) (k : interrupts) : interrupts :=
  mk_int (hw k) (<[Z.to_nat (u8 i) := idt_make_entry address sel flags]> (idt k)).
Definition isr_install_handler (vector r : Z) (user : bool) (k : interrupts) : interrupts :=
  idt_install_handler vector r (if user then IDT_SEGMENT_USER else IDT_SEGMENT_KERNEL) IDT_SOFTWARE_INTERRUPT k.
Definition isr_uninstall_handler (vector : Z) (k : interrupts) : interrupts := idt_install_handler vector 0 IDT_SEGMENT_KERNEL 0 k.
Definition irq_install_handler (irq handler : Z) (k : interrupts) : interrupts :=
  idt_install_handler (32 + irq) handler IDT_SEGMENT_KERNEL IDT_HARDWARE_INTERRUPT k.
Definition irq_uninstall_handler (irq : Z) (k : interrupts) : interrupts :=
  let irq_func := if irq <? 8 then irq_stub1 else irq_stub2 in
  idt_install_handler (32 + irq) irq_func IDT_SEGMENT_KERNEL IDT_HARDWARE_INTERRUPT k.

(** The controller of a line, and the line on it. *)
Definition pic_of (irq : Z) : Z * Z := if 8 <=? irq then (PIC2_COMMAND_PORT, irq - 8) else (PIC1_COMMAND_PORT, irq).
Definition irq_enable (irq : Z) (enabled : bool) (s : S) : S :=
  let '(port, irq) := pic_of irq in
  let '(mask, s) := inb (port + 1) s in
  if enabled then outb (port + 1) (u8 (Z.land mask (Z.lnot (u8 (Z.shiftl 1 irq))))) s
  else outb (port + 1) (u8 (Z.lor mask (u8 (Z.shiftl 1 irq)))) s.
Definition irq_is_requested (irq : Z) (s : S) : bool * S :=
  let '(port, irq) := pic_of irq in
  let irq_mask := Z.shiftl 1 irq in
  let '(v, s) := inb port (outb port PIC_GET_IRR_CMD s) in
  (has v irq_mask, s).
Definition acknowledge_irq (irq : Z) (s : S) : S :=
  outb PIC1_COMMAND_PORT PIC_EOI_CMD (if 8 <=? irq then outb PIC2_COMMAND_PORT PIC_EOI_CMD s else s).

Definition irq_remap (s : S) : S :=
  let s := outb PIC1_COMMAND_PORT 0x11 s in
  let s := outb PIC2_COMMAND_PORT 0x11 s in
  let s := outb (PIC1_COMMAND_PORT + 1) 0x20 s in
  let s := outb (PIC2_COMMAND_PORT + 1) 0x28 s in
  let s := outb (PIC1_COMMAND_PORT + 1) 0x04 s in
  let s := outb (PIC2_COMMAND_PORT + 1) 0x02 s in
  let s := outb (PIC1_COMMAND_PORT + 1) 0x01 s in
  let s := outb (PIC2_COMMAND_PORT + 1) 0x01 s in
  let s := outb (PIC1_COMMAND_PORT + 1) 0x0 s in
  outb (PIC2_COMMAND_PORT + 1) 0x0 s.

Definition handlers : list Z := isr ++ replicate 8 irq_stub1 ++ replicate 8 irq_stub2.
(** [for(size_t i = 0; i < handlers.size(); i++)] from entry [i] on. *)
Fixpoint install_all (hs : list Z) (i : Z) (k : interrupts) : interrupts :=
  match hs with
  | [] => k
  | h :: hs => install_all hs (i + 1) (idt_install_handler i h IDT_SEGMENT_KERNEL IDT_HARDWARE_INTERRUPT k)
  end.
Definition interrupts_init (k : interrupts) : interrupts :=
  let k := on_hw irq_remap k in
  install_all handlers 0 (mk_int (hw k) (replicate 256 idt_zero)).

(** What becomes of the program that was interrupted by an exception. *)
Inductive fault_result := resumed | halted | process_exited.
Record fault_info := mk_fault { int_no : Z; err_code : Z; fault_cs : Z }.
(** [handle_page_fault] is the memory manager's answer; what is printed is not modelled.
    There are messages for the first 32 numbers only. *)
Definition fault_handler (handle_page_fault : Z -> bool) (r : fault_info) : fault_result :=
  if int_no r <? 32 then
    if (int_no r =? 14) && handle_page_fault (err_code r) then resumed
    else if fault_cs r =? 0x08 then halted else process_exited
  else resumed.
End interrupt.
Arguments interrupts : clear implicits.
Arguments hw {S}. Arguments idt {S}. Arguments mk_int {S}.

(** * What the machine does with a line

    The two controllers as their data sheet has them: a command of 0x11 starts the
    initialisation, in which the next three bytes for the other port are the first vector,
    the wiring and the mode; after it that port is the mask. *)
Record chip := mk_chip { c_step : Z; c_base : Z; c_link : Z; c_mask : Z }.
Definition chip_command (v : Z) (c : chip) : chip := if v =? 0x11 then mk_chip 2 (c_base c) (c_link c) 0 else c.
Definition chip_data (v : Z) (c : chip) : chip :=
  if c_step c =? 0 then mk_chip 0 (c_base c) (c_link c) v
  else if c_step c =? 2 then mk_chip 3 (Z.land v 0xF8) (c_link c) (c_mask c)
  else if c_step c =? 3 then mk_chip 4 (c_base c) v (c_mask c)
  else mk_chip 0 (c_base c) (c_link c) (c_mask c).
Class pic_laws (S : Type) {P : ports S} := {
  pic1 : S -> chip;
  pic2 : S -> chip;
  pic1_command v s : has v 0x10 = false \/ v = 0x11 -> pic1 (outb PIC1_COMMAND_PORT v s) = chip_command v (pic1 s) /\ pic2 (outb PIC1_COMMAND_PORT v s) = pic2 s;
  pic2_command v s : has v 0x10 = false \/ v = 0x11 -> pic2 (outb PIC2_COMMAND_PORT v s) = chip_command v (pic2 s) /\ pic1 (outb PIC2_COMMAND_PORT v s) = pic1 s;
  pic1_data v s : pic1 (outb (PIC1_COMMAND_PORT + 1) v s) = chip_data v (pic1 s) /\ pic2 (outb (PIC1_COMMAND_PORT + 1) v s) = pic2 s;
  pic2_data v s : pic2 (outb (PIC2_COMMAND_PORT + 1) v s) = chip_data v (pic2 s) /\ pic1 (outb (PIC2_COMMAND_PORT + 1) v s) = pic1 s;
  pic1_mask s : c_step (pic1 s) = 0 -> (inb (PIC1_COMMAND_PORT + 1) s).1 = c_mask (pic1 s);
  pic2_mask s : c_step (pic2 s) = 0 -> (inb (PIC2_COMMAND_PORT + 1) s).1 = c_mask (pic2 s);
  pics_read p s : pic1 (inb p s).2 = pic1 s /\ pic2 (inb p s).2 = pic2 s }.

Lemma clear_bit_testbit m i j : 0 <= i < 8 -> 0 <= j < 8 ->
  Z.testbit (u8 (Z.land m (Z.lnot (u8 (Z.shiftl 1 i))))) j = if j =? i then false else Z.testbit m j.
Proof.
  intros Hi Hj. unfold u8, wrap. rewrite Z.mod_pow2_bits_low, Z.land_spec, Z.lnot_spec, Z.mod_pow2_bits_low by lia.
  rewrite Z.shiftl_1_l, Z.pow2_bits_eqb by lia. rewrite (Z.eqb_sym i j). destruct (j =? i); cbn [negb]; [apply andb_false_r|apply andb_true_r].
Qed.
Lemma set_bit_testbit m i j : 0 <= i < 8 -> 0 <= j < 8 ->
  Z.testbit (u8 (Z.lor m (u8 (Z.shiftl 1 i)))) j = if j =? i then true else Z.testbit m j.
Proof.
  intros Hi Hj. unfold u8, wrap. rewrite Z.mod_pow2_bits_low, Z.lor_spec, Z.mod_pow2_bits_low by lia.
  rewrite Z.shiftl_1_l, Z.pow2_bits_eqb by lia. rewrite (Z.eqb_sym i j). destruct (j =? i); cbn [negb]; [apply orb_true_r|apply orb_false_r].
Qed.
(** The address in a gate is the one it was made from. *)
Definition gate_address (e : idt_entry) : Z := Z.lor (address_low e) (Z.shiftl (address_high e) 16).
Lemma gate_address_make a sel flags : is_u32 a -> gate_address (idt_make_entry a sel flags) = a.
Proof.
  intros Ha. unfold gate_address, idt_make_entry. cbn [address_low address_high]. apply Z.bits_inj'. intros i Hi.
  change 0xffff with (2 ^ 16 - 1). rewrite Z.lor_spec, !land_low_mask by lia. destruct (Z.lt_ge_cases i 16).
  - rewrite Z.mod_pow2_bits_low, Z.shiftl_spec_low, orb_false_r by lia. reflexivity.
  - rewrite Z.mod_pow2_bits_high, Z.shiftl_spec by lia. cbn [orb]. destruct (Z.lt_ge_cases (i - 16) 16).
    + rewrite Z.mod_pow2_bits_low, Z.shiftr_spec by lia. f_equal. lia.
    + rewrite Z.mod_pow2_bits_high by lia. symmetry. apply (small_testbit a 32); [exact Ha|lia].
Qed.

Section delivery.
Context {S : Type} {P : ports S} {PL : pic_laws S} (isr : list Z) (irq_stub1 irq_stub2 : Z).
#[local] Set Default Proof Using "PL".
(** Where the processor goes for a request on a line; a line of the second controller
    passes through line 2 of the first. *)
Definition gate_of (k : interrupts S) (vector : Z) : option Z :=
  e ← idt k !! Z.to_nat vector; if idt_flags e =? IDT_HARDWARE_INTERRUPT then Some (gate_address e) else None.
Definition delivered (k : interrupts S) (line : Z) : option Z :=
  if line <? 8 then if Z.testbit (c_mask (pic1 (hw k))) line then None else gate_of k (c_base (pic1 (hw k)) + line)
  else if Z.testbit (c_mask (pic1 (hw k))) 2 || Z.testbit (c_mask (pic2 (hw k))) (line - 8) then None
  else gate_of k (c_base (pic2 (hw k)) + (line - 8)).

Inductive irq_op := op_install (irq h : Z) | op_uninstall (irq : Z) | op_enable (irq : Z) (b : bool) | op_exception (vector h : Z) (user : bool).
Definition run_op (k : interrupts S) (o : irq_op) : interrupts S :=
  match o with
  | op_install irq h => irq_install_handler irq h k
  | op_uninstall irq => irq_uninstall_handler irq_stub1 irq_stub2 irq k
  | op_enable irq b => on_hw (irq_enable irq b) k
  | op_exception v h user => isr_install_handler v h user k
  end.
(** A line is one of sixteen, a handler an address, and the gates of the lines are not
    used for exceptions. *)
Definition op_ok (o : irq_op) : Prop :=
  match o with
  | op_install irq h => 0 <= irq < 16 /\ is_u32 h
  | op_uninstall irq | op_enable irq _ => 0 <= irq < 16
  | op_exception v _ _ => 0 <= v < 256 /\ ~ 32 <= v < 48
  end.
(** The lines as the callers see them. *)
Record lines := mk_lines { enabled : Z -> bool; handler : Z -> Z }.
Definition stub_of (irq : Z) : Z := if irq <? 8 then irq_stub1 else irq_stub2.
Definition at_ {A} (i : Z) (x : A) (f : Z -> A) : Z -> A := fun j => if j =? i then x else f j.
Definition lines_op (l : lines) (o : irq_op) : lines :=
  match o with
  | op_install irq h => mk_lines (enabled l) (at_ irq h (handler l))
  | op_uninstall irq => mk_lines (enabled l) (at_ irq (stub_of irq) (handler l))
  | op_enable irq b => mk_lines (at_ irq b (enabled l)) (handler l)
  | op_exception _ _ _ => l
  end.
Definition all_lines : lines := mk_lines (fun _ => true) stub_of.

(** The relation between the two. *)
Record relates (k : interrupts S) (l : lines) : Prop := {
  rel_ready : c_step (pic1 (hw k)) = 0 /\ c_step (pic2 (hw k)) = 0;
  rel_base : c_base (pic1 (hw k)) = 32 /\ c_base (pic2 (hw k)) = 40;
  rel_mask i : 0 <= i < 8 -> Z.testbit (c_mask (pic1 (hw k))) i = negb (enabled l i) /\ Z.testbit (c_mask (pic2 (hw k))) i = negb (enabled l (8 + i));
  rel_length : length (idt k) = 256%nat;
  rel_gate i : 0 <= i < 16 -> gate_of k (32 + i) = Some (handler l i) }.
Lemma relates_delivered k l line : relates k l -> 0 <= line < 16 ->
  delivered k line = if enabled l line && ((line <? 8) || enabled l 2) then Some (handler l line) else None.
Proof.
  intros R Hl. destruct (rel_base _ _ R) as [B1 B2]. unfold delivered. destruct (Z.ltb_spec line 8).
  - rewrite (proj1 (rel_mask _ _ R line ltac:(lia))), B1, (rel_gate _ _ R line ltac:(lia)). rewrite andb_true_r. now destruct (enabled l line).
  - rewrite (proj1 (rel_mask _ _ R 2 ltac:(lia))), (proj2 (rel_mask _ _ R (line - 8) ltac:(lia))), B2.
    replace (8 + (line - 8)) with line by lia. replace (40 + (line - 8)) with (32 + line) by lia. rewrite (rel_gate _ _ R line Hl).
    rewrite orb_false_l. now destruct (enabled l line), (enabled l 2).
Qed.
Lemma gate_install k v h sel flags w : 0 <= v < 256 -> length (idt k) = 256%nat -> 0 <= w ->
  gate_of (idt_install_handler v h sel flags k) w =
    if w =? v then if flags =? IDT_HARDWARE_INTERRUPT then Some (gate_address (idt_make_entry h sel flags)) else None else gate_of k w.
Proof.
  intros Hv Hl Hw. unfold gate_of, idt_install_handler. cbn [idt]. replace (u8 v) with v by (symmetry; apply Z.mod_small; lia).
  destruct (Z.eqb_spec w v) as [->|N].
  - rewrite list_lookup_insert_eq by lia. reflexivity.
  - rewrite list_lookup_insert_ne by lia. reflexivity.
Qed.
(** A new gate for one line. *)
Lemma relates_gate k l irq h : relates k l -> 0 <= irq < 16 -> is_u32 h ->
  relates (irq_install_handler irq h k) (mk_lines (enabled l) (at_ irq h (handler l))).
Proof.
  intros [R1 R2 R3 R4 R5] Hi Hh. constructor; try assumption.
  - unfold irq_install_handler, idt_install_handler. cbn [idt]. now rewrite length_insert.
  - intros i Hr. unfold irq_install_handler. rewrite gate_install by (exact R4 || lia). rewrite gate_address_make by exact Hh.
    cbn [handler]. unfold at_. destruct (Z.eqb_spec (32 + i) (32 + irq)) as [E|E].
    + replace (i =? irq) with true by lia. reflexivity.
    + replace (i =? irq) with false by lia. now apply R5.
Qed.
Lemma relates_enable k l irq b : relates k l -> 0 <= irq < 16 -> relates (on_hw (irq_enable irq b) k) (mk_lines (at_ irq b (enabled l)) (handler l)).
Proof.
  intros [[R1 R1'] [R2 R2'] R3 R4 R5] Hi.
  assert (E : forall m (b : bool) i j, 0 <= i < 8 -> 0 <= j < 8 ->
    Z.testbit (if b then u8 (Z.land m (Z.lnot (u8 (Z.shiftl 1 i)))) else u8 (Z.lor m (u8 (Z.shiftl 1 i)))) j = if j =? i then negb b else Z.testbit m j).
  { intros m [] i j ? ?; [now apply clear_bit_testbit|now apply set_bit_testbit]. }
  assert (C : forall m c, c_step c = 0 -> chip_data m c = mk_chip 0 (c_base c) (c_link c) m) by (intros m c H; unfold chip_data; now rewrite H).
  set (k' := on_hw _ k).
  assert (D : pic1 (hw k') = (if irq <? 8 then mk_chip 0 32 (c_link (pic1 (hw k)))
        (if b then u8 (Z.land (c_mask (pic1 (hw k))) (Z.lnot (u8 (Z.shiftl 1 irq)))) else u8 (Z.lor (c_mask (pic1 (hw k))) (u8 (Z.shiftl 1 irq)))) else pic1 (hw k)) /\
     pic2 (hw k') = (if irq <? 8 then pic2 (hw k) else mk_chip 0 40 (c_link (pic2 (hw k)))
        (if b then u8 (Z.land (c_mask (pic2 (hw k))) (Z.lnot (u8 (Z.shiftl 1 (irq - 8))))) else u8 (Z.lor (c_mask (pic2 (hw k))) (u8 (Z.shiftl 1 (irq - 8))))))).
  { subst k'. unfold on_hw, irq_enable, pic_of. cbn [hw]. replace (8 <=? irq) with (negb (irq <? 8)) by lia. destruct (irq <? 8); cbn [negb].
    - pose proof (pic1_mask (hw k) R1) as M. destruct (pics_read (PIC1_COMMAND_PORT + 1) (hw k)) as [Q1 Q2].
      destruct (inb (PIC1_COMMAND_PORT + 1) (hw k)) as [m s]. cbn [fst snd] in *. subst m.
      destruct b; (rewrite (proj1 (pic1_data _ s)), (proj2 (pic1_data _ s)), Q1, Q2, C, R2 by exact R1; now split).
    - pose proof (pic2_mask (hw k) R1') as M. destruct (pics_read (PIC2_COMMAND_PORT + 1) (hw k)) as [Q1 Q2].
      destruct (inb (PIC2_COMMAND_PORT + 1) (hw k)) as [m s]. cbn [fst snd] in *. subst m.
      destruct b; (rewrite (proj1 (pic2_data _ s)), (proj2 (pic2_data _ s)), Q1, Q2, C, R2' by exact R1'; now split). }
  destruct D as [D1 D2]. constructor.
  - rewrite D1, D2. now destruct (irq <? 8).
  - rewrite D1, D2. now destruct (irq <? 8).
  - intros i Hr. destruct (R3 i Hr) as [M1 M2]. rewrite D1, D2. cbn [enabled]. unfold at_. destruct (Z.ltb_spec irq 8); cbn [c_mask].
    + rewrite E by lia. replace (8 + i =? irq) with false by lia. split; [|exact M2]. rewrite M1. now destruct (i =? irq).
    + rewrite E by lia. replace (i =? irq) with false by lia. split; [exact M1|]. rewrite M2. replace (8 + i =? irq) with (i =? irq - 8) by lia. now destruct (i =? irq - 8).
  - exact R4.
  - exact R5.
Qed.
Lemma relates_exception k l v h user : relates k l -> 0 <= v < 256 -> ~ 32 <= v < 48 -> relates (isr_install_handler v h user k) l.
Proof.
  intros [R1 R2 R3 R4 R5] Hv Hn. constructor; try assumption.
  - unfold isr_install_handler, idt_install_handler. cbn [idt]. now rewrite length_insert.
  - intros i Hr. unfold isr_install_handler. rewrite gate_install by (exact R4 || lia). replace (32 + i =? v) with false by lia. now apply R5.
Qed.
Lemma relates_op k l o : relates k l -> op_ok o -> is_u32 irq_stub1 -> is_u32 irq_stub2 -> relates (run_op k o) (lines_op l o).
Proof.
  intros R Ho H1 H2. destruct o as [irq h|irq|irq b|v h user]; cbn [run_op lines_op op_ok] in *.
  - now apply relates_gate.
  - apply relates_gate; [exact R|exact Ho|]. unfold stub_of. now destruct (irq <? 8).
  - now apply relates_enable.
  - now apply relates_exception.
Qed.

(** ** Initialisation *)
Lemma irq_remap_chips s : c_step (pic1 (irq_remap s)) = 0 /\ c_step (pic2 (irq_remap s)) = 0 /\
  c_base (pic1 (irq_remap s)) = 32 /\ c_base (pic2 (irq_remap s)) = 40 /\ c_mask (pic1 (irq_remap s)) = 0 /\ c_mask (pic2 (irq_remap s)) = 0.
Proof.
  unfold irq_remap.
  rewrite (proj1 (pic2_data _ _)), (proj2 (pic2_data _ _)), (proj1 (pic1_data _ _)), (proj2 (pic1_data _ _)).
  do 3 rewrite (proj1 (pic2_data _ _)), (proj2 (pic2_data _ _)), (proj1 (pic1_data _ _)), (proj2 (pic1_data _ _)).
  rewrite (proj1 (pic2_command 0x11 _ (or_intror eq_refl))), (proj2 (pic2_command 0x11 _ (or_intror eq_refl))),
    (proj1 (pic1_command 0x11 _ (or_intror eq_refl))), (proj2 (pic1_command 0x11 _ (or_intror eq_refl))).
  unfold chip_command. now cbn.
Qed.
Lemma install_all_spec : forall hs i k, 0 <= i -> i + Z.of_nat (length hs) <= 256 -> length (idt k) = 256%nat ->
  hw (install_all hs i k) = hw k /\ length (idt (install_all hs i k)) = 256%nat /\
  forall v, 0 <= v -> gate_of (install_all hs i k) v =
    match hs !! Z.to_nat (v - i) with
    | Some h => if i <=? v then Some (gate_address (idt_make_entry h IDT_SEGMENT_KERNEL IDT_HARDWARE_INTERRUPT)) else gate_of k v
    | None => gate_of k v
    end.
Proof.
  induction hs as [|h hs IH]; intros i k Hi Hb Hl; [now repeat split|]. cbn [install_all length] in *.
  destruct (IH (i + 1) (idt_install_handler i h IDT_SEGMENT_KERNEL IDT_HARDWARE_INTERRUPT k) ltac:(lia) ltac:(lia)) as (E1 & E2 & E3).
  { unfold idt_install_handler. cbn [idt]. now rewrite length_insert. }
  split; [exact E1|]. split; [exact E2|]. intros v Hv. rewrite E3 by exact Hv. rewrite gate_install by (exact Hl || lia).
  destruct (Z.lt_trichotomy v i) as [Hlt|[->|Hgt]].
  - replace (i + 1 <=? v) with false by lia. replace (i <=? v) with false by lia. replace (v =? i) with false by lia.
    now destruct (hs !! _), ((h :: hs) !! _).
  - replace (i + 1 <=? i) with false by lia. rewrite Z.leb_refl, Z.eqb_refl, Z.sub_diag. cbn [Z.to_nat lookup list_lookup]. now destruct (hs !! _).
  - replace (Z.to_nat (v - i)) with (Datatypes.S (Z.to_nat (v - (i + 1)))) by lia. cbn [lookup list_lookup].
    replace (i + 1 <=? v) with true by lia. replace (i <=? v) with true by lia. now replace (v =? i) with false by lia.
Qed.
Lemma init_relates k : length isr = 32%nat -> is_u32 irq_stub1 -> is_u32 irq_stub2 -> relates (interrupts_init isr irq_stub1 irq_stub2 k) all_lines.
Proof using PL.
  intros Hi H1 H2. destruct (irq_remap_chips (hw k)) as (A1 & A2 & A3 & A4 & A5 & A6).
  assert (Hlen : length (handlers isr irq_stub1 irq_stub2) = 48%nat) by (unfold handlers; rewrite !length_app, !length_replicate; lia).
  destruct (install_all_spec (handlers isr irq_stub1 irq_stub2) 0 (mk_int (irq_remap (hw k)) (replicate 256 idt_zero)) ltac:(lia)) as (E1 & E2 & E3); [lia|apply length_replicate|].
  change (interrupts_init isr irq_stub1 irq_stub2 k) with (install_all (handlers isr irq_stub1 irq_stub2) 0 (mk_int (irq_remap (hw k)) (replicate 256 idt_zero))).
  constructor.
  - now rewrite E1.
  - now rewrite E1.
  - intros i Hr. rewrite E1. cbn [hw]. rewrite A5, A6. now rewrite Z.bits_0.
  - exact E2.
  - intros i Hr. rewrite E3 by lia. unfold handlers. rewrite lookup_app_r by lia. destruct (Z.lt_ge_cases i 8).
    + rewrite lookup_app_l by (rewrite length_replicate; lia). rewrite lookup_replicate_2 by lia. replace (0 <=? 32 + i) with true by lia.
      rewrite gate_address_make by exact H1. cbn [handler all_lines]. unfold stub_of. now replace (i <? 8) with true by lia.
    + rewrite lookup_app_r by (rewrite length_replicate; lia). rewrite length_replicate, lookup_replicate_2 by lia. replace (0 <=? 32 + i) with true by lia.
      rewrite gate_address_make by exact H2. cbn [handler all_lines]. unfold stub_of. now replace (i <? 8) with false by lia.
Qed.

(** C33: After the initialisation and any sequence of installing and removing handlers and
    of enabling and disabling lines, a request on a line that is enabled (with line 2, for a
    line of the second controller) enters the handler that was installed for it last, or the
    stub of its controller, and one on a disabled line enters none. *)
Theorem interrupts_delivered k ops line : length isr = 32%nat -> is_u32 irq_stub1 -> is_u32 irq_stub2 -> Forall op_ok ops -> 0 <= line < 16 ->
  let l := fold_left lines_op ops all_lines in
  delivered (fold_left run_op ops (interrupts_init isr irq_stub1 irq_stub2 k)) line =
    if enabled l line && ((line <? 8) || enabled l 2) then Some (handler l line) else None.
Proof using PL.
  intros Hi H1 H2 Ho Hl l. apply relates_delivered; [|exact Hl]. subst l. pose proof (init_relates k Hi H1 H2) as R.
  revert R. generalize (interrupts_init isr irq_stub1 irq_stub2 k) all_lines.
  induction Ho as [|o ops Ho Hos IH]; intros k' l' R; [exact R|]. cbn [fold_left]. apply IH. now apply relates_op.
Qed.
End delivery.

(** ** A pair of controllers *)
Module Pair.
Definition state : Type := chip * chip.
Definition outb (p v : Z) (s : state) : state :=
  if p =? 0x20 then (chip_command v s.1, s.2) else if p =? 0xA0 then (s.1, chip_command v s.2)
  else if p =? 0x21 then (chip_data v s.1, s.2) else if p =? 0xA1 then (s.1, chip_data v s.2) else s.
Definition inb (p : Z) (s : state) : Z * state := (if p =? 0x21 then c_mask s.1 else if p =? 0xA1 then c_mask s.2 else 0, s).
#[export] Instance pair_ports : ports state := {|
  Ports.inb := inb; Ports.outb := outb; Ports.inw _ s := (0, s); Ports.outw _ _ s := s;
  Ports.ind _ s := (0, s); Ports.outd _ _ s := s; Ports.insw _ _ s := ([], s); Ports.outsw _ _ s := s |}.
#[export] Instance pair_laws : pic_laws state.
Proof. refine {| pic1 s := s.1; pic2 s := s.2 |}; intros; now split || reflexivity. Defined.
Definition fresh : interrupts state := mk_int (mk_chip 0 8 0 0xFF, mk_chip 0 0x70 0 0xFF) [].
End Pair.
Import Pair.
Lemma interrupts_delivered_witness :
  delivered (fold_left (run_op 1000 2000) [op_install 14 5000; op_enable 1 false; op_install 1 6000; op_exception 0x80 7000 true] (interrupts_init (replicate 32 100) 1000 2000 fresh)) 14 = Some 5000 /\
  delivered (fold_left (run_op 1000 2000) [op_install 14 5000; op_enable 1 false; op_install 1 6000; op_exception 0x80 7000 true] (interrupts_init (replicate 32 100) 1000 2000 fresh)) 1 = None.
Proof.
  assert (Ok : Forall op_ok [op_install 14 5000; op_enable 1 false; op_install 1 6000; op_exception 0x80 7000 true]).
  { constructor; [split; [lia|unfold is_u32; lia]|]. constructor; [cbn [op_ok]; lia|]. constructor; [split; [lia|unfold is_u32; lia]|]. constructor; [cbn [op_ok]; lia|constructor]. }
  split; (etransitivity; [apply (interrupts_delivered (replicate 32 100) 1000 2000); [reflexivity|unfold is_u32; lia|unfold is_u32; lia|exact Ok|lia]|reflexivity]).
Defined.
(** Line 2 carries the whole second controller: with it off, no line from 8 on arrives. *)
Example cascade_off : delivered (on_hw (irq_enable 2 false) (interrupts_init (replicate 32 100) 1000 2000 fresh)) 14 = None.
Proof. vm_compute. reflexivity. Qed.
