(* ===== verification/Ata.v ===== *)
(** * ATA and ATAPI drives (drivers/ata.cpp, ata_cmd.h)

    The controller is behind the ports.  Interrupts are taken where the code waits for
    them: an interrupt that was raised earlier is handled at the next wait, which differs
    only in when the flag of its channel is set.  A buffer of a read is the bytes that are
    stored in it, from its beginning.  Messages are not modelled. *)
From S2P Require Import Prelude Ports Pci Interrupt.

Definition ATA_REG_DATA : Z := 0x00.
Definition ATA_REG_ERROR : Z := 0x01.
Definition ATA_REG_FEATURES : Z := 0x01.
Definition ATA_REG_SECCOUNT0 : Z := 0x02.
Definition ATA_REG_LBA0 : Z := 0x03.
Definition ATA_REG_LBA1 : Z := 0x04.
Definition ATA_REG_LBA2 : Z := 0x05.
Definition ATA_REG_HDDEVSEL : Z := 0x06.
Definition ATA_REG_COMMAND : Z := 0x07.
Definition ATA_REG_STATUS : Z := 0x07.
Definition ATA_REG_SECCOUNT1 : Z := 0x08.
Definition ATA_REG_LBA3 : Z := 0x09.
Definition ATA_REG_LBA4 : Z := 0x0A.
Definition ATA_REG_LBA5 : Z := 0x0B.
Definition ATA_REG_ALTSTATUS : Z := 0.
Definition WORDS_PER_SECTOR : nat := 256.
Definition ATA_CAPABILITY_LBA : Z := 0x200.
Definition ATA_CMD_READ_PIO : Z := 0x20.
Definition ATA_CMD_READ_PIO_EXT : Z := 0x24.
Definition ATA_CMD_WRITE_PIO : Z := 0x30.
Definition ATA_CMD_WRITE_PIO_EXT : Z := 0x34.
Definition ATA_CMD_CACHE_FLUSH : Z := 0xE7.
Definition ATA_CMD_CACHE_FLUSH_EXT : Z := 0xEA.
Definition ATA_CMD_PACKET : Z := 0xA0.
Definition ATA_CMD_IDENTIFY_PACKET : Z := 0xA1.
Definition ATA_CMD_IDENTIFY : Z := 0xEC.
Definition ATAPI_CMD_READ : Z := 0xA8.
Definition ATA_IDENT_DEVICETYPE : Z := 0.
Definition ATA_IDENT_CYLINDERS : Z := 2.
Definition ATA_IDENT_HEADS : Z := 6.
Definition ATA_IDENT_SECTORS : Z := 12.
Definition ATA_IDENT_MODEL : Z := 54.
Definition ATA_IDENT_CAPABILITIES : Z := 98.
Definition ATA_IDENT_MAX_LBA : Z := 120.
Definition ATA_IDENT_COMMANDSETS : Z := 164.
Definition ATA_IDENT_MAX_LBA_EXT : Z := 200.
Definition ATA_SR_BSY : Z := 0x80.
Definition ATA_SR_DRDY : Z := 0x40.
Definition ATA_SR_DF : Z := 0x20.
Definition ATA_SR_DRQ : Z := 0x08.
Definition ATA_SR_ERR : Z := 0x01.
Definition ATA_ER_BBK : Z := 0x80.
Definition ATA_ER_UNC : Z := 0x40.
Definition ATA_ER_MC : Z := 0x20.
Definition ATA_ER_IDNF : Z := 0x10.
Definition ATA_ER_MCR : Z := 0x08.
Definition ATA_ER_ABRT : Z := 0x04.
Definition ATA_ER_TK0NF : Z := 0x02.
Definition ATA_ER_AMNF : Z := 0x01.
Definition ATA_SECTOR_SIZE : Z := 0x200.
Definition ATAPI_SECTOR_SIZE : Z := 0x800.

Inductive ata_error := NONE | INVALID_DRIVE | INVALID_SEEK_POS | DEVICE_FAULT | GENERAL_ERROR | NO_ADDRESS_MARK
  | NO_MEDIA | COMMAND_ABORTED | NO_ID_MARK | DATA_ERROR | BAD_SECTORS | WRITE_PROTECTED | NOTHING_READ | DRQ_ERROR.
#[export] Instance ata_error_eq_dec : EqDecision ata_error.
Proof. solve_decision. Defined.
Inductive ata_drive_type := ATA | ATAPI.
#[export] Instance ata_drive_type_eq_dec : EqDecision ata_drive_type.
Proof. solve_decision. Defined.
Inductive ata_addressing_mode := LBA28 | LBA48 | CHS.
#[export] Instance ata_addressing_mode_eq_dec : EqDecision ata_addressing_mode.
Proof. solve_decision. Defined.

Record ata_channel := mk_channel { base : Z; ctrl : Z; bus_master : Z; no_interrupt : Z; pci : pci_device; irq : Z }.
Record ata_drive := mk_adrive { exists_ : bool; channel : Z; drive : Z; type : ata_drive_type; signature : Z;
  capabilities : Z; command_sets : Z; size : Z; model : list Z }.
Definition no_channel : ata_channel := mk_channel 0 0 0 0 (mk_pci 0 0 0) 0.
Definition no_drive : ata_drive := mk_adrive false 0 0 ATA 0 0 0 0 (replicate 41 0).
(** The three interrupt handlers. *)
Inductive ata_isr := ata_irq_handler0 | ata_irq_handler1 | ata_irq_handler.

(** What the hardware does on its own: the line it raises next, or none when other tasks
    run. *)
Class raises (S : Type) := advance : S -> option Z * S.

Record ata (S : Type) := mk_ata { ports_ : S; channels : list ata_channel; ide_drives : list ata_drive; irq_flags : list bool;
  installed : list (Z * ata_isr); added : list (nat * Z * Z) }.
Arguments mk_ata {S}. Arguments ports_ {S}. Arguments channels {S}. Arguments ide_drives {S}. Arguments irq_flags {S}.
Arguments installed {S}. Arguments added {S}.

Section ata_driver.
Context {S : Type} {P : ports S} {R : raises S} (fuel : nat).
Definition chan (c : Z) (st : ata S) : ata_channel := nth (Z.to_nat c) (channels st) no_channel.
Definition put (s : S) (st : ata S) : ata S := mk_ata s (channels st) (ide_drives st) (irq_flags st) (installed st) (added st).
Definition set_channel (c : Z) (ch : ata_channel) (st : ata S) : ata S :=
  mk_ata (ports_ st) (<[Z.to_nat c := ch]> (channels st)) (ide_drives st) (irq_flags st) (installed st) (added st).
Definition set_drive (i : nat) (d : ata_drive) (st : ata S) : ata S :=
  mk_ata (ports_ st) (channels st) (<[i := d]> (ide_drives st)) (irq_flags st) (installed st) (added st).
Definition set_flag (c : Z) (b : bool) (st : ata S) : ata S :=
  mk_ata (ports_ st) (channels st) (ide_drives st) (<[Z.to_nat c := b]> (irq_flags st)) (installed st) (added st).
Definition out (port v : Z) (st : ata S) : ata S := put (outb port v (ports_ st)) st.
Definition inp (port : Z) (st : ata S) : Z * ata S := let '(v, s) := inb port (ports_ st) in (v, put s st).
Definition in_words (port : Z) (n : nat) (st : ata S) : list Z * ata S := let '(l, s) := insw port n (ports_ st) in (l, put s st).
Definition out_words (port : Z) (l : list Z) (st : ata S) : ata S := put (outsw port l (ports_ st)) st.
Definition wait_not (port mask : Z) (st : ata S) : outcome (ata S) := s ← wait_clear fuel port mask (ports_ st); Ok (put s st).

(** [while(num_sectors)]: the transfers of at most [N] sectors, [f]'s bytes one after the
    other. *)
Fixpoint foreach_n_sectors (n : nat) (N : Z) (drive : ata_drive) (f : ata_drive -> Z -> Z -> list Z -> ata S -> outcome (ata_error * list Z * ata S))
    (lba num_sectors : Z) (buffer : list Z) (sector_size : Z) (st : ata S) : outcome (ata_error * list Z * ata S) :=
  match n with
  | O => Fault OutOfFuel
  | Datatypes.S n =>
    if num_sectors =? 0 then Ok (NONE, [], st) else
    let sectors := Z.land num_sectors N in
    '(err, data, st) ← f drive lba (u8 sectors) buffer st;
    if negb (bool_decide (err = NONE)) then Ok (err, data, st) else
    '(err, more, st) ← foreach_n_sectors n N drive f (add32 lba sectors) (sub32 num_sectors sectors) (drop (Z.to_nat (sectors * sector_size)) buffer) sector_size st;
    Ok (err, data ++ more, st)
  end.

(** ** Interrupts *)
Definition run_isr (i : ata_isr) (st : ata S) : ata S :=
  match i with
  | ata_irq_handler0 =>
    let '(_, st) := inp (base (chan 0 st) + ATA_REG_STATUS) st in
    set_flag 0 true (put (acknowledge_irq 14 (ports_ st)) st)
  | ata_irq_handler1 =>
    let '(v, st) := inp 0xA0 (out 0xA0 0x0B st) in
    if has v (Z.shiftl 1 7) then
      let '(_, st) := inp (base (chan 1 st) + ATA_REG_STATUS) st in
      set_flag 1 true (put (acknowledge_irq 15 (ports_ st)) st)
    else put (acknowledge_irq 7 (ports_ st)) st
  | ata_irq_handler =>
    let '(_, st) := inp (base (chan 0 st) + ATA_REG_STATUS) st in
    let '(_, st) := inp (base (chan 1 st) + ATA_REG_STATUS) st in
    let st := set_flag 1 true (set_flag 0 true st) in
    put (acknowledge_irq (u8 (irq (chan 0 st))) (ports_ st)) st
  end.
Definition handler_of (line : Z) (st : ata S) : option ata_isr := snd <$> find (fun x => x.1 =? line) (installed st).
Definition irq_install (line : Z) (i : ata_isr) (st : ata S) : ata S :=
  mk_ata (ports_ st) (channels st) (ide_drives st) (irq_flags st) ((line, i) :: installed st) (added st).
(** [while(old == test()) run_background_tasks();]; a line without a handler of this file
    is other code's. *)
Fixpoint wait_flag (n : nat) (index : Z) (st : ata S) : outcome (ata S) :=
  match n with
  | O => Fault OutOfFuel
  | Datatypes.S n =>
    if nth (Z.to_nat index) (irq_flags st) false then Ok st else
    let '(line, s) := advance (ports_ st) in
    let st := put s st in
    wait_flag n index (match line ≫= fun l => handler_of l st with Some i => run_isr i st | None => st end)
  end.
Definition ata_wait_irq (index : Z) (st : ata S) : outcome (ata S) := st ← wait_flag fuel index st; Ok (set_flag index false st).

(** ** Polling *)
Definition ata_delay400 (channel : Z) (st : ata S) : ata S := put (reads (ctrl (chan channel st) + ATA_REG_ALTSTATUS) 4 (ports_ st)) st.
Definition ata_poll (channel : Z) (check_status : bool) (st : ata S) : outcome (ata_error * ata S) :=
  let st := ata_delay400 channel st in
  let ctrl_port := ctrl (chan channel st) in
  st ← wait_not (ctrl_port + ATA_REG_ALTSTATUS) ATA_SR_BSY st;
  if check_status then
    let '(state, st) := inp (ctrl_port + ATA_REG_ALTSTATUS) st in
    Ok (if has state ATA_SR_ERR then GENERAL_ERROR else if has state ATA_SR_DF then DEVICE_FAULT
        else if negb (has state ATA_SR_DRQ) then DRQ_ERROR else NONE, st)
  else Ok (NONE, st).
(** The later of several bits of the error register decides. *)
Definition error_of (st : Z) : ata_error :=
  let err := GENERAL_ERROR in
  let err := if has st ATA_ER_AMNF then NO_ADDRESS_MARK else err in
  let err := if has st ATA_ER_TK0NF then NO_MEDIA else err in
  let err := if has st ATA_ER_ABRT then COMMAND_ABORTED else err in
  let err := if has st ATA_ER_MCR then NO_MEDIA else err in
  let err := if has st ATA_ER_IDNF then NO_ID_MARK else err in
  let err := if has st ATA_ER_MC then NO_MEDIA else err in
  let err := if has st ATA_ER_UNC then DATA_ERROR else err in
  if has st ATA_ER_BBK then BAD_SECTORS else err.
Definition ata_print_error (drive : ata_drive) (err : ata_error) (st : ata S) : ata_error * ata S :=
  match err with
  | GENERAL_ERROR => let '(e, st) := inp (base (chan (channel drive) st) + ATA_REG_ERROR) st in (error_of e, st)
  | DRQ_ERROR => (NOTHING_READ, st)
  | _ => (err, st)
  end.

(** ** Transfers *)
(** The address mode, the six address bytes and the head. *)
Definition address_of (drive : ata_drive) (lba : Z) : ata_addressing_mode * list Z * Z :=
  if 0x10000000 <=? lba then
    (LBA48, [Z.land lba 0xFF; Z.shiftr (Z.land lba 0xFF00) 8; Z.shiftr (Z.land lba 0xFF0000) 16; Z.shiftr (Z.land lba 0xFF000000) 24; 0; 0], 0)
  else if has (capabilities drive) ATA_CAPABILITY_LBA then
    (LBA28, [Z.land lba 0xFF; Z.shiftr (Z.land lba 0xFF00) 8; Z.shiftr (Z.land lba 0xFF0000) 16; 0; 0; 0], Z.shiftr (Z.land lba 0xF000000) 24)
  else
    let sect := u8 (lba mod 63 + 1) in
    let cyl := u16 ((lba + 1 - sect) / (16 * 63)) in
    (CHS, [sect; Z.land cyl 0xFF; Z.land (Z.shiftr cyl 8) 0xFF; 0; 0; 0], u8 ((lba + 1 - sect) mod (16 * 63) / 63)).
Definition lba_io (l : list Z) (i : nat) : Z := nth i l 0.
Definition ata_setup_transfer (drive_ : ata_drive) (lba numsects : Z) (st : ata S) : outcome (ata_addressing_mode * ata S) :=
  let ch := channel drive_ in
  let base_port := base (chan ch st) in
  let crtl_port := ctrl (chan ch st) in
  let c := chan ch st in
  let st := set_channel ch (mk_channel (base c) (ctrl c) (bus_master c) 0 (pci c) (irq c)) st in
  let st := out crtl_port 0 st in
  let '(adress_mode, io, head) := address_of drive_ lba in
  st ← wait_not (base_port + ATA_REG_STATUS) ATA_SR_BSY st;
  let mode := if bool_decide (adress_mode = CHS) then 0xA0 else 0xE0 in
  let st := out (base_port + ATA_REG_HDDEVSEL) (Z.lor (Z.lor mode (u8 (Z.shiftl (drive drive_) 4))) head) st in
  let st := ata_delay400 ch st in
  let st := if bool_decide (adress_mode = LBA48) then
      let st := out (base_port + ATA_REG_SECCOUNT1 - 6) 0 st in
      let st := out (base_port + ATA_REG_LBA3 - 6) (lba_io io 3) st in
      let st := out (base_port + ATA_REG_LBA4 - 6) (lba_io io 4) st in
      out (base_port + ATA_REG_LBA5 - 6) (lba_io io 5) st
    else st in
  let st := out (base_port + ATA_REG_SECCOUNT0) numsects st in
  let st := out (base_port + ATA_REG_LBA0) (lba_io io 0) st in
  let st := out (base_port + ATA_REG_LBA1) (lba_io io 1) st in
  let st := out (base_port + ATA_REG_LBA2) (lba_io io 2) st in
  Ok (adress_mode, st).

(** [for(size_t i = 0; i < num_sectors; i++)] of a read: [words] words for each sector. *)
Fixpoint read_loop (n : nat) (channel base_port : Z) (words : nat) (st : ata S) : outcome (ata_error * list Z * ata S) :=
  match n with
  | O => Ok (NONE, [], st)
  | Datatypes.S n =>
    st ← ata_wait_irq channel st;
    '(err, st) ← ata_poll channel true st;
    if negb (bool_decide (err = NONE)) then Ok (err, [], st) else
    let '(l, st) := in_words base_port words st in
    '(err, more, st) ← read_loop n channel base_port words st;
    Ok (err, l ++ more, st)
  end.
Definition ata_do_read (drive : ata_drive) (lba num_sectors : Z) (buffer : list Z) (st : ata S) : outcome (ata_error * list Z * ata S) :=
  '(adress_mode, st) ← ata_setup_transfer drive lba num_sectors st;
  let read_cmd := if bool_decide (adress_mode = LBA48) then ATA_CMD_READ_PIO_EXT else ATA_CMD_READ_PIO in
  let base_port := base (chan (channel drive) st) in
  let st := out (base_port + ATA_REG_COMMAND) read_cmd st in
  let st := ata_delay400 (channel drive) st in
  read_loop (Z.to_nat num_sectors) (channel drive) base_port WORDS_PER_SECTOR st.

Fixpoint write_loop (n : nat) (channel base_port : Z) (buffer : list Z) (st : ata S) : outcome (ata S) :=
  match n with
  | O => Ok st
  | Datatypes.S n =>
    '(_, st) ← ata_poll channel false st;
    let st := out_words base_port (take (2 * WORDS_PER_SECTOR) buffer) st in
    write_loop n channel base_port (drop (2 * WORDS_PER_SECTOR) buffer) st
  end.
Definition ata_do_write (drive : ata_drive) (lba num_sectors : Z) (buffer : list Z) (st : ata S) : outcome (ata_error * list Z * ata S) :=
  '(adress_mode, st) ← ata_setup_transfer drive lba num_sectors st;
  let write_cmd := if bool_decide (adress_mode = LBA48) then ATA_CMD_WRITE_PIO_EXT else ATA_CMD_WRITE_PIO in
  let base_port := base (chan (channel drive) st) in
  let st := out (base_port + ATA_REG_COMMAND) write_cmd st in
  let st := ata_delay400 (channel drive) st in
  st ← write_loop (Z.to_nat num_sectors) (channel drive) base_port buffer st;
  let flush_cmd := if bool_decide (adress_mode = LBA48) then ATA_CMD_CACHE_FLUSH_EXT else ATA_CMD_CACHE_FLUSH in
  let st := out (base_port + ATA_REG_COMMAND) flush_cmd st in
  let st := ata_delay400 (channel drive) st in
  '(_, st) ← ata_poll (channel drive) false st;
  Ok (NONE, [], st).

Definition atapi_packet (lba num_sectors : Z) : list Z :=
  [ATAPI_CMD_READ; 0; Z.land (Z.shiftr lba 24) 0xFF; Z.land (Z.shiftr lba 16) 0xFF; Z.land (Z.shiftr lba 8) 0xFF; Z.land lba 0xFF;
   0; 0; 0; num_sectors; 0; 0].
Definition ata_atapi_read (drive_ : ata_drive) (lba num_sectors : Z) (buffer : list Z) (st : ata S) : outcome (ata_error * list Z * ata S) :=
  let ch := channel drive_ in
  let num_words := ATAPI_SECTOR_SIZE / 2 in
  let st := set_flag ch false st in
  let base_port := base (chan ch st) in
  let ctrl_port := ctrl (chan ch st) in
  let st := out (base_port + ATA_REG_HDDEVSEL) (u8 (Z.shiftl (drive drive_) 4)) st in
  let st := ata_delay400 ch st in
  let c := chan ch st in
  let st := set_channel ch (mk_channel (base c) (ctrl c) (bus_master c) 0 (pci c) (irq c)) st in
  let st := out ctrl_port 0 st in
  let st := out (base_port + ATA_REG_FEATURES) 0 st in
  let st := out (base_port + ATA_REG_LBA1) (u8 (Z.land (num_words * 2) 0xFF)) st in
  let st := out (base_port + ATA_REG_LBA2) (u8 (Z.shiftr (num_words * 2) 8)) st in
  let st := out (base_port + ATA_REG_COMMAND) ATA_CMD_PACKET st in
  '(err, st) ← ata_poll ch true st;
  if negb (bool_decide (err = NONE)) then Ok (err, [], st) else
  let st := set_flag ch false st in
  let st := out_words base_port (atapi_packet lba num_sectors) st in
  '(err, data, st) ← read_loop (Z.to_nat num_sectors) ch base_port (Z.to_nat num_words) st;
  if negb (bool_decide (err = NONE)) then Ok (err, data, st) else
  st ← ata_wait_irq ch st;
  st ← wait_not (base_port + ATA_REG_STATUS) (Z.lor ATA_SR_BSY ATA_SR_DRQ) st;
  Ok (NONE, data, st).

(** ** Sectors *)
Definition ata_read_sectors (drive : ata_drive) (num_sectors lba : Z) (st : ata S) : outcome (ata_error * list Z * ata S) :=
  if negb (exists_ drive) then Ok (INVALID_DRIVE, [], st)
  else if (size drive <? add32 lba num_sectors) && bool_decide (type drive = ATA) then Ok (INVALID_SEEK_POS, [], st)
  else
    '(_, data, st) ← match type drive with
      | ATA => foreach_n_sectors fuel 255 drive ata_do_read lba num_sectors [] ATA_SECTOR_SIZE st
      | ATAPI => foreach_n_sectors fuel 255 drive ata_atapi_read lba num_sectors [] ATAPI_SECTOR_SIZE st
      end;
    let '(err, st) := ata_print_error drive NONE st in Ok (err, data, st).
Definition ata_write_sectors (drive : ata_drive) (num_sectors lba : Z) (buffer : list Z) (st : ata S) : outcome (ata_error * ata S) :=
  if negb (exists_ drive) then Ok (INVALID_DRIVE, st)
  else if (size drive <? add32 lba num_sectors) && bool_decide (type drive = ATA) then Ok (INVALID_SEEK_POS, st)
  else
    '(err, _, st) ← match type drive with
      | ATA => foreach_n_sectors fuel 255 drive ata_do_write lba num_sectors buffer ATA_SECTOR_SIZE st
      | ATAPI => Ok (WRITE_PROTECTED, [], st)
      end;
    Ok (ata_print_error drive err st).
(** The driver's two functions: an error is only printed. *)
Definition ata_write_blocks (drive : ata_drive) (block_number : Z) (buffer : list Z) (num_blocks : Z) (st : ata S) : outcome (ata S) :=
  '(_, st) ← ata_write_sectors drive num_blocks block_number buffer st; Ok st.
Definition ata_read_blocks (drive : ata_drive) (block_number num_blocks : Z) (st : ata S) : outcome (list Z * ata S) :=
  '(_, data, st) ← ata_read_sectors drive num_blocks block_number st; Ok (data, st).

(** ** Finding the drives *)
Fixpoint check_status_loop (n : nat) (port : Z) (st : ata S) : outcome (bool * ata S) :=
  match n with
  | O => Fault OutOfFuel
  | Datatypes.S n =>
    let '(status, st) := inp port st in
    if has status ATA_SR_ERR then Ok (false, st)
    else if negb (has status ATA_SR_BSY) && has status ATA_SR_DRQ && has status ATA_SR_DRDY then Ok (true, st)
    else check_status_loop n port st
  end.
Definition ata_check_status (channel : Z) (st : ata S) : outcome (bool * ata S) :=
  check_status_loop fuel (ctrl (chan channel st) + ATA_REG_ALTSTATUS) st.
Fixpoint wait_ready_loop (n : nat) (port : Z) (st : ata S) : outcome (ata S) :=
  match n with
  | O => Fault OutOfFuel
  | Datatypes.S n =>
    let '(status, st) := inp port st in
    if has status ATA_SR_ERR then Ok st
    else if has status (Z.lor ATA_SR_BSY ATA_SR_DRQ) then wait_ready_loop n port st
    else if has status ATA_SR_DRDY then Ok st
    else wait_ready_loop n port st
  end.
Definition ata_wait_ready (channel : Z) (st : ata S) : outcome (ata S) :=
  let port := ctrl (chan channel st) + ATA_REG_ALTSTATUS in
  let '(v, st) := inp port st in
  if v =? 0 then Ok st else wait_ready_loop fuel port st.

(** Little-endian words of the answer to IDENTIFY. *)
Definition ident_byte (l : list Z) (i : Z) : Z := nth (Z.to_nat i) l 0.
Definition ident16 (l : list Z) (i : Z) : Z := ident_byte l i + 256 * ident_byte l (i + 1).
Definition ident32 (l : list Z) (i : Z) : Z := ident16 l i + 0x10000 * ident16 l (i + 2).
Definition drive_size (l : list Z) : Z :=
  if has (ident32 l ATA_IDENT_COMMANDSETS) (Z.shiftl 1 26) then ident32 l ATA_IDENT_MAX_LBA_EXT
  else if has (ident16 l ATA_IDENT_CAPABILITIES) ATA_CAPABILITY_LBA then ident32 l ATA_IDENT_MAX_LBA
  else u32 (ident16 l ATA_IDENT_CYLINDERS * ident16 l ATA_IDENT_HEADS * ident16 l ATA_IDENT_SECTORS).
(** [for(size_t k = 0; k < 40; k += 2)]: the two characters of a word are exchanged. *)
Definition model_string (l : list Z) : list Z :=
  concat (map (fun k => [ident_byte l (ATA_IDENT_MODEL + 2 * k + 1); ident_byte l (ATA_IDENT_MODEL + 2 * k)]) (seqZ 0 20)) ++ [0].
Definition identified (l : list Z) (type : ata_drive_type) (channel index : Z) : ata_drive :=
  mk_adrive true channel index type (ident16 l ATA_IDENT_DEVICETYPE) (ident16 l ATA_IDENT_CAPABILITIES)
    (ident32 l ATA_IDENT_COMMANDSETS) (drive_size l) (model_string l).

(** One turn of the inner loop; [num_drives] is also the place of the next drive. *)
Definition try_drive (channel index : Z) (num_drives : nat) (st : ata S) : outcome (nat * ata S) :=
  let base_port := base (chan channel st) in
  let st := out (base_port + ATA_REG_HDDEVSEL) (Z.lor 0xA0 (u8 (Z.shiftl index 4))) st in
  let st := ata_delay400 channel st in
  st ← ata_wait_ready channel st;
  let st := out (base_port + ATA_REG_SECCOUNT0) 0 st in
  let st := out (base_port + ATA_REG_LBA0) 0 st in
  let st := out (base_port + ATA_REG_LBA1) 0 st in
  let st := out (base_port + ATA_REG_LBA2) 0 st in
  let st := out (base_port + ATA_REG_COMMAND) ATA_CMD_IDENTIFY st in
  let st := ata_delay400 channel st in
  let '(v, st) := inp (base_port + ATA_REG_STATUS) st in
  if v =? 0 then Ok (num_drives, st) else
  '(status, st) ← ata_check_status channel st;
  let '(cl, st) := inp (base_port + ATA_REG_LBA1) st in
  let '(ch, st) := inp (base_port + ATA_REG_LBA2) st in
  let read_ident type (st : ata S) : outcome (nat * ata S) :=
    let '(ident_buf, st) := in_words (base_port + ATA_REG_DATA) 256 st in
    Ok (Datatypes.S num_drives, set_drive num_drives (identified ident_buf type channel index) st) in
  if ((cl =? 0x14) && (ch =? 0xEB)) || ((cl =? 0x69) && (ch =? 0x96)) then
    st ← ata_wait_ready channel st;
    let st := out (base_port + ATA_REG_COMMAND) ATA_CMD_IDENTIFY_PACKET st in
    '(err, st) ← ata_poll channel true st;
    let st := if bool_decide (err = NONE) then st else snd (ata_print_error (nth num_drives (ide_drives st) no_drive) GENERAL_ERROR st) in
    read_ident ATAPI st
  else if negb status || negb (((cl =? 0) && (ch =? 0)) || ((cl =? 0x3c) && (ch =? 0xc3))) then Ok (num_drives, st)
  else read_ident ATA st.
Fixpoint try_drives (l : list (Z * Z)) (num_drives : nat) (st : ata S) : outcome (nat * ata S) :=
  match l with
  | [] => Ok (num_drives, st)
  | (channel, index) :: l =>
    let st := if index =? 0 then ata_delay400 channel (out (ctrl (chan channel st)) 0 st) else st in
    '(num_drives, st) ← try_drive channel index num_drives st;
    try_drives l num_drives st
  end.
(** The last loop: what is given to [filesystem_add_drive] for a drive. *)
Definition add_drive (i : nat) (st : ata S) : ata S :=
  let d := nth i (ide_drives st) no_drive in
  if exists_ d then
    mk_ata (ports_ st) (channels st) (ide_drives st) (irq_flags st) (installed st)
      (added st ++ [(i, (if bool_decide (type d = ATA) then ATA_SECTOR_SIZE else ATAPI_SECTOR_SIZE), size d)])
  else st.
Definition forget (d : ata_drive) : ata_drive :=
  mk_adrive false (channel d) (drive d) (type d) (signature d) (capabilities d) (command_sets d) (size d) (model d).
Definition ata_initialize_drives (base_port0 base_port1 base_port2 base_port3 base_port4 irq_ : Z) (device : pci_device) (st : ata S) : outcome (nat * ata S) :=
  let st := set_channel 0 (mk_channel base_port0 base_port1 base_port4 (no_interrupt (chan 0 st)) device irq_) st in
  let st := set_channel 1 (mk_channel base_port2 base_port3 (u16 (base_port4 + 8)) (no_interrupt (chan 1 st)) device irq_) st in
  let st := mk_ata (ports_ st) (channels st) (map forget (ide_drives st)) (irq_flags st) (installed st) (added st) in
  '(num_drives, st) ← try_drives [(0, 0); (0, 1); (1, 0); (1, 1)] 0 st;
  let st := fold_left (fun st i => add_drive i st) [0; 1; 2; 3]%nat st in
  let '(_, st) := inp (base (chan 0 st) + ATA_REG_STATUS) st in
  let '(_, st) := inp (base (chan 1 st) + ATA_REG_STATUS) st in
  Ok (num_drives, st).

(** A base address register: the port, or the one of the old standard. *)
Definition bar_port (bar legacy : Z) : Z := if (bar =? 0) || (bar =? 1) then legacy else Z.land bar (Z.lnot 1).
Definition pci8 (d : pci_device) (f : Z) (st : ata S) : Z * ata S := let '(v, s) := pci_read8 d f (ports_ st) in (v, put s st).
Definition pci16 (d : pci_device) (f : Z) (st : ata S) : Z * ata S := let '(v, s) := pci_read16 d f (ports_ st) in (v, put s st).
Definition pci32 (d : pci_device) (f : Z) (st : ata S) : Z * ata S := let '(v, s) := pci_read32 d f (ports_ st) in (v, put s st).
(** The ICH7 controller is put into the mode of the old standard. *)
Definition legacy_mode (d : pci_device) (st : ata S) : ata S :=
  let '(vendor, st) := pci16 d PCI_VENDOR_ID st in
  if negb (vendor =? 0x8086) then st else
  let '(id, st) := pci16 d PCI_DEVICE_ID st in
  if negb (id =? 0x27C0) then st else
  let '(pif, st) := pci8 d PCI_PROG_IF st in
  if negb (Z.land pif 0x0A =? 0x0A) then st else
  let s := pci_write8 d PCI_PROG_IF 0x8A (ports_ st) in
  let s := pci_write32 d PCI_BAR0 1 s in
  let s := pci_write32 d (PCI_BAR0 + 4) 1 s in
  let s := pci_write32 d (PCI_BAR0 + 8) 1 s in
  let s := pci_write32 d (PCI_BAR0 + 12) 1 s in
  put (pci_write8 d PCI_INTERRUPT_LINE 0 s) st.
Definition init_device (d : pci_device) (st : ata S) : outcome (ata S) :=
  let st := legacy_mode d st in
  let '(bar0, st) := pci32 d PCI_BAR0 st in
  let '(bar1, st) := pci32 d (PCI_BAR0 + 4) st in
  let '(bar2, st) := pci32 d (PCI_BAR0 + 8) st in
  let '(bar3, st) := pci32 d (PCI_BAR0 + 12) st in
  let '(bar4, st) := pci32 d (PCI_BAR0 + 16) st in
  let bar0 := bar_port bar0 0x1F0 in let bar1 := bar_port bar1 0x3F6 in
  let bar2 := bar_port bar2 0x170 in let bar3 := bar_port bar3 0x376 in
  let '(interrupt_line, st) := pci8 d PCI_INTERRUPT_LINE st in
  let st := if negb (interrupt_line =? 0) then irq_install interrupt_line ata_irq_handler st else st in
  '(n, st) ← ata_initialize_drives (u16 bar0) (u16 bar1) (u16 bar2) (u16 bar3) (u16 bar4) interrupt_line d st;
  if Nat.eqb n 0 then
    let '(command, st) := pci16 d PCI_COMMAND st in
    Ok (put (pci_write16 d PCI_COMMAND (u16 (Z.lor (Z.land command (Z.lnot 3)) (Z.shiftl 1 10))) (ports_ st)) st)
  else Ok st.
Fixpoint init_devices (l : list pci_device) (st : ata S) : outcome (ata S) :=
  match l with [] => Ok st | d :: l => st ← init_device d st; init_devices l st end.
Definition ata_init (st : ata S) : outcome (ata S) :=
  '(calls, s) ← pci_device_by_class 1 1 fuel (ports_ st);
  let devices := map (fun c : call => c.1.1) calls in
  let st := put s st in
  let st := irq_install 15 ata_irq_handler1 (irq_install 14 ata_irq_handler0 st) in
  let st := put (irq_enable 15 true (irq_enable 14 true (ports_ st))) st in
  st ← init_devices devices st;
  if Nat.eqb (length devices) 0 then
    '(_, st) ← ata_initialize_drives 0x1F0 0x3F6 0x170 0x376 0 0 (mk_pci 0 0 0) st; Ok st
  else Ok st.
End ata_driver.
