(* ===== verification/AtaProofs.v ===== *)
(** * A drive as the standard describes it, and the driver on top of it

    The drive of the first channel is seen through the laws of [ata_laws]: its task file
    with the values written before the last ones, its command phases and its sectors.  The
    driver's transfers are proved against them. *)
From S2P Require Import Prelude Ports Pci Interrupt Ata.

(** ** The drive *)
Inductive phase := idle | reading (l : list (list Z)) | writing (lba : Z) (n : nat).
(** A register of the task file and the value written before. *)
Record reg := mk_reg { cur : Z; prev : Z }.
Record dev := mk_dev { d_count : reg; d_lba0 : reg; d_lba1 : reg; d_lba2 : reg; d_head : Z; d_phase : phase; d_irq : bool; d_disk : Z -> list Z }.
Definition push (v : Z) (r : reg) : reg := mk_reg v (cur r).
Definition set_reg (i v : Z) (d : dev) : dev :=
  mk_dev (if i =? 0 then push v (d_count d) else d_count d) (if i =? 1 then push v (d_lba0 d) else d_lba0 d)
    (if i =? 2 then push v (d_lba1 d) else d_lba1 d) (if i =? 3 then push v (d_lba2 d) else d_lba2 d) (d_head d) (d_phase d) (d_irq d) (d_disk d).
Definition set_head (v : Z) (d : dev) : dev := mk_dev (d_count d) (d_lba0 d) (d_lba1 d) (d_lba2 d) v (d_phase d) (d_irq d) (d_disk d).
Definition set_phase (p : phase) (i : bool) (k : Z -> list Z) (d : dev) : dev := mk_dev (d_count d) (d_lba0 d) (d_lba1 d) (d_lba2 d) (d_head d) p i k.
(** A drive without linear addresses has 16 heads of 63 sectors. *)
Definition dev_lba (ext : bool) (d : dev) : Z :=
  if ext then cur (d_lba0 d) + cur (d_lba1 d) * 2 ^ 8 + cur (d_lba2 d) * 2 ^ 16 + prev (d_lba0 d) * 2 ^ 24 + prev (d_lba1 d) * 2 ^ 32 + prev (d_lba2 d) * 2 ^ 40
  else if has (d_head d) 0x40 then cur (d_lba0 d) + cur (d_lba1 d) * 2 ^ 8 + cur (d_lba2 d) * 2 ^ 16 + Z.land (d_head d) 15 * 2 ^ 24
  else ((cur (d_lba1 d) + cur (d_lba2 d) * 2 ^ 8) * 16 + Z.land (d_head d) 15) * 63 + (cur (d_lba0 d) - 1).
Definition dev_count (ext : bool) (d : dev) : Z :=
  let c := if ext then cur (d_count d) + prev (d_count d) * 256 else cur (d_count d) in
  if c =? 0 then if ext then 65536 else 256 else c.
(** The sectors [lba], ..., [lba + n - 1]. *)
Definition sectors_of (disk : Z -> list Z) (lba : Z) (n : nat) : list (list Z) := map disk (seqZ lba (Z.of_nat n)).
Definition reading_phase (l : list (list Z)) : phase := match l with [] => idle | _ => reading l end.
Definition writing_phase (lba : Z) (n : nat) : phase := match n with O => idle | _ => writing lba n end.
Definition start (v : Z) (d : dev) : dev :=
  if (v =? ATA_CMD_READ_PIO) || (v =? ATA_CMD_READ_PIO_EXT) then
    let ext := v =? ATA_CMD_READ_PIO_EXT in set_phase (reading_phase (sectors_of (d_disk d) (dev_lba ext d) (Z.to_nat (dev_count ext d)))) true (d_disk d) d
  else if (v =? ATA_CMD_WRITE_PIO) || (v =? ATA_CMD_WRITE_PIO_EXT) then
    let ext := v =? ATA_CMD_WRITE_PIO_EXT in set_phase (writing_phase (dev_lba ext d) (Z.to_nat (dev_count ext d))) (d_irq d) (d_disk d) d
  else set_phase (d_phase d) true (d_disk d) d.
(** A command the drive carries out: it stays inside the [cap] sectors there are, and
    inside what 28 bits address when it is not one of the extended ones. *)
Definition accepts (cap v : Z) (d : dev) : Prop :=
  v ∈ [ATA_CMD_CACHE_FLUSH; ATA_CMD_CACHE_FLUSH_EXT] \/
  v ∈ [ATA_CMD_READ_PIO; ATA_CMD_WRITE_PIO] /\ dev_lba false d + dev_count false d <= Z.min cap (2 ^ 28) \/
  v ∈ [ATA_CMD_READ_PIO_EXT; ATA_CMD_WRITE_PIO_EXT] /\ dev_lba true d + dev_count true d <= cap.
Definition with_sector (lba : Z) (l : list Z) (disk : Z -> list Z) : Z -> list Z := fun i => if i =? lba then l else disk i.
Definition busy_at {S} {P : ports S} (k : Z) (s : S) : bool := has (inb k s).1 ATA_SR_BSY.
Fixpoint advances {S} {R : raises S} (n : nat) (s : S) : S := match n with O => s | Datatypes.S n => advances n (advance s).2 end.

(** The first channel at the ports [b] and [k], with drive [drv] on it.  Every delay is
    at most [wait] reads or interrupts long. *)
Class ata_laws (S : Type) {P : ports S} {R : raises S} (b k drv cap : Z) (wait : nat) := {
  view : S -> dev;
  law_reg i v s : 0 <= i < 4 -> 0 <= v < 256 -> d_phase (view s) = idle -> view (outb (b + 2 + i) v s) = set_reg i v (view s);
  law_head v s : d_phase (view s) = idle -> Z.testbit v 4 = Z.testbit drv 0 -> view (outb (b + 6) v s) = set_head v (view s);
  law_control s : view (outb k 0 s) = view s;
  law_command v s : d_phase (view s) = idle -> Z.testbit (d_head (view s)) 4 = Z.testbit drv 0 ->
    accepts cap v (view s) ->
    view (outb (b + 7) v s) = start v (view s);
  law_poll p s : p = k \/ p = b + 7 -> view (inb p s).2 = view s;
  law_settles p s : p = k \/ p = b + 7 -> exists n, (n < wait)%nat /\ has (inb p (reads p n s)).1 ATA_SR_BSY = false;
  law_ready s : busy_at k s = false -> busy_at k (inb k s).2 = false /\
    has (inb k s).1 ATA_SR_ERR = false /\ has (inb k s).1 ATA_SR_DF = false /\ (d_phase (view s) <> idle -> has (inb k s).1 ATA_SR_DRQ = true);
  law_in s l rest : busy_at k s = false -> d_phase (view s) = reading (l :: rest) ->
    (insw b 256 s).1 = l /\ view (insw b 256 s).2 = set_phase (reading_phase rest) (match rest with [] => d_irq (view s) | _ => true end) (d_disk (view s)) (view s);
  law_out s l lba n : busy_at k s = false -> d_phase (view s) = writing lba (Datatypes.S n) -> length l = 512%nat ->
    view (outsw b l s) = set_phase (writing_phase (lba + 1) n) true (with_sector lba l (d_disk (view s))) (view s);
  law_ack v s : view (outb PIC1_COMMAND_PORT v s) = view s /\ view (outb PIC2_COMMAND_PORT v s) = view s;
  law_raise s : (advance s).1 = None /\ view (advance s).2 = view s \/
    (advance s).1 = Some 14 /\ view (advance s).2 = set_phase (d_phase (view s)) false (d_disk (view s)) (view s);
  law_interrupts s : d_irq (view s) = true -> exists n, (n < wait)%nat /\ (advance (advances n s)).1 = Some 14 }.

Section driver.
Context {S : Type} {P : ports S} {R : raises S} (b k drv cap : Z) (wait fuel : nat) {L : ata_laws S b k drv cap wait}.
Context (Hfuel : (wait < fuel)%nat) (ds : list ata_drive).
#[local] Set Default Proof Using "L".
(** The driver's tables for the channel, and the drive. *)
Record ready (v : dev) (st : ata S) : Prop := {
  r_base : base (chan 0 st) = b; r_ctrl : ctrl (chan 0 st) = k;
  r_channels : length (channels st) = 2%nat; r_flags : length (irq_flags st) = 2%nat;
  r_handler : handler_of 14 st = Some ata_irq_handler0; r_drives : ide_drives st = ds;
  r_view : view (ports_ st) = v }.
Definition calm (st : ata S) : Prop := busy_at k (ports_ st) = false.
Lemma ready_put v v' s st : ready v st -> view s = v' -> ready v' (put s st).
Proof. intros [] <-. now constructor. Qed.
Lemma ready_reg i x v st port : ready v st -> d_phase v = idle -> port = b + 2 + i -> 0 <= i < 4 -> 0 <= x < 256 ->
  ready (set_reg i x v) (out port x st).
Proof. intros H Hi -> Hr Hx. apply (ready_put v); [exact H|]. rewrite law_reg, (r_view _ _ H); rewrite ?(r_view _ _ H); auto. Qed.
Lemma reads_view p n : p = k \/ p = b + 7 -> forall s, view (reads p n s) = view s.
Proof. intros Hp. induction n as [|n IH]; intros s; [reflexivity|]. cbn [reads]. rewrite IH. now apply law_poll. Qed.
Lemma ready_delay v st : ready v st -> ready v (ata_delay400 0 st).
Proof. intros H. apply (ready_put v); [exact H|]. rewrite reads_view; [exact (r_view _ _ H)|]. left. rewrite (r_ctrl _ _ H). apply Z.add_0_r. Qed.
(** Waiting for a drive that is busy ends. *)
Lemma ready_wait v st p : ready v st -> p = k \/ p = b + 7 ->
  exists st', wait_not fuel p ATA_SR_BSY st = Ok st' /\ ready v st' /\ (p = k -> calm st').
Proof using L Hfuel.
  intros H Hp. destruct (law_settles p (ports_ st) Hp) as (n & Hn & Hb).
  destruct (wait_clear_reads p ATA_SR_BSY n fuel (ports_ st) Hb ltac:(lia)) as (m & Hm & C & W). unfold wait_not. rewrite W. cbn [mbind outcome_bind].
  eexists. split; [reflexivity|]. split.
  - apply (ready_put v); [exact H|]. rewrite reads_view by exact Hp. exact (r_view _ _ H).
  - intros ->. unfold calm. cbn [put ports_]. replace (reads k (m + 1) (ports_ st)) with (inb k (reads k m (ports_ st))).2.
    + now apply law_ready.
    + clear. revert st. induction m as [|m IH]; intros st; [reflexivity|]. cbn [Nat.add reads]. exact (IH (put (inb k (ports_ st)).2 st)).
Qed.
Lemma ready_poll v st check : ready v st -> (check = true -> d_phase v <> idle) ->
  exists st', ata_poll fuel 0 check st = Ok (NONE, st') /\ ready v st' /\ calm st'.
Proof using L Hfuel.
  intros H Hi. pose proof (ready_delay v st H) as H1. unfold ata_poll. rewrite (r_ctrl _ _ H1). unfold ATA_REG_ALTSTATUS. rewrite Z.add_0_r.
  destruct (ready_wait v _ k H1 (or_introl eq_refl)) as (st' & -> & H2 & Hc). cbn [mbind outcome_bind]. specialize (Hc eq_refl).
  destruct check; [|now exists st']. destruct (law_ready (ports_ st') Hc) as (A1 & A2 & A3 & A4). unfold inp.
  rewrite (r_view _ _ H2) in A4. specialize (A4 (Hi eq_refl)). pose proof (law_poll k (ports_ st') (or_introl eq_refl)) as V.
  destruct (inb k (ports_ st')) as [x s]. cbn [fst snd] in *. rewrite A2, A3, A4. cbn [negb]. eexists. split; [reflexivity|].
  split; [|exact A1]. apply (ready_put v); [exact H2|]. rewrite V. exact (r_view _ _ H2).
Qed.
(** Our own interrupt: its handler sets the flag, and the next look at it ends the wait. *)
Lemma ready_isr v st : ready v st -> ready v (run_isr ata_irq_handler0 st) /\ nth 0 (irq_flags (run_isr ata_irq_handler0 st)) false = true.
Proof.
  intros H. unfold run_isr, inp. rewrite (r_base _ _ H). unfold ATA_REG_STATUS. pose proof (law_poll (b + 7) (ports_ st) (or_intror eq_refl)) as V.
  destruct (inb (b + 7) (ports_ st)) as [x s]. cbn [fst snd] in V. unfold acknowledge_irq. cbn [Z.leb Z.compare Pos.compare Pos.compare_cont].
  destruct H as [H1 H2 H3 H4 H5 H6 H7]. split.
  - constructor; try assumption.
    + cbn [set_flag irq_flags put]. now rewrite length_insert.
    + cbn [set_flag put ports_]. rewrite (proj1 (law_ack _ _)), (proj2 (law_ack _ _)). congruence.
  - cbn [set_flag put irq_flags]. destruct (irq_flags st) as [|f l]; [discriminate H4|]. reflexivity.
Qed.
Lemma wait_flag_spec : forall n f v st, ready v st -> (n + 1 < f)%nat -> (advance (advances n (ports_ st))).1 = Some 14 ->
  exists st' i, wait_flag f 0 st = Ok st' /\ ready (set_phase (d_phase v) i (d_disk v) v) st'.
Proof.
  clear Hfuel.
  assert (Raise : forall f v st, ready v st -> nth (Z.to_nat 0) (irq_flags st) false = false -> (advance (ports_ st)).1 = Some 14 ->
    view (advance (ports_ st)).2 = set_phase (d_phase v) false (d_disk v) v ->
    exists st' i, wait_flag (Datatypes.S (Datatypes.S f)) 0 st = Ok st' /\ ready (set_phase (d_phase v) i (d_disk v) v) st').
  { intros f v st H Ef E1 E2. remember (Datatypes.S f) as f1. cbn [wait_flag]. rewrite Ef. destruct (advance (ports_ st)) as [line s]. cbn [fst snd] in *. subst line.
    pose proof (ready_put v _ s st H E2) as H1. cbn [mbind option_bind]. change (handler_of 14 (put s st)) with (handler_of 14 st). rewrite (r_handler _ _ H).
    destruct (ready_isr _ _ H1) as [H2 H3]. eexists _, false. split; [|exact H2]. subst f1. cbn [wait_flag]. change (Z.to_nat 0) with 0%nat. now rewrite H3. }
  induction n as [|n IH]; intros f v st H Hf Ha; (destruct f as [|[|f]]; [lia|lia|]).
  - destruct (nth (Z.to_nat 0) (irq_flags st) false) eqn:Ef.
    + exists st, (d_irq v). cbn [wait_flag]. rewrite Ef. split; [reflexivity|]. destruct v; exact H.
    + destruct (law_raise (ports_ st)) as [[E1 E2]|[E1 E2]]; [cbn [advances] in Ha; congruence|]. rewrite (r_view _ _ H) in E2. now apply Raise.
  - destruct (nth (Z.to_nat 0) (irq_flags st) false) eqn:Ef.
    + exists st, (d_irq v). cbn [wait_flag]. rewrite Ef. split; [reflexivity|]. destruct v; exact H.
    + destruct (law_raise (ports_ st)) as [[E1 E2]|[E1 E2]]; rewrite (r_view _ _ H) in E2; [|now apply Raise].
      remember (Datatypes.S f) as f1. cbn [wait_flag]. rewrite Ef. cbn [advances] in Ha. destruct (advance (ports_ st)) as [line s]. cbn [fst snd] in *. subst line.
      cbn [mbind option_bind]. apply (IH f1 v (put s st)); [|lia|exact Ha]. now apply (ready_put v).
Qed.
Lemma ready_set_flag v f st : ready v st -> ready v (set_flag 0 f st).
Proof. intros []. constructor; try assumption. cbn [set_flag irq_flags]. now rewrite length_insert. Qed.
Lemma ready_wait_irq v st : ready v st -> d_irq v = true ->
  exists st' i, ata_wait_irq fuel 0 st = Ok st' /\ ready (set_phase (d_phase v) i (d_disk v) v) st'.
Proof using L Hfuel.
  intros H Hi. destruct (law_interrupts (ports_ st)) as (n & Hn & Ha); [now rewrite (r_view _ _ H)|].
  destruct (wait_flag_spec n fuel v st H ltac:(lia) Ha) as (st' & i & E & H'). unfold ata_wait_irq. rewrite E. cbn [mbind outcome_bind].
  eexists _, i. split; [reflexivity|]. now apply ready_set_flag.
Qed.

(** ** The two loops *)
Lemma set_phase_again p i kk p' i' kk' v : set_phase p i kk (set_phase p' i' kk' v) = set_phase p i kk v.
Proof. reflexivity. Qed.
Lemma reading_phase_not_idle x l : reading_phase (x :: l) <> idle.
Proof. discriminate. Qed.
(** The registers of the task file and the tables stay as they are; [i] is what becomes of
    the interrupt. *)
Lemma read_loop_spec : forall l v st, ready v st -> d_phase v = reading_phase l -> (l <> [] -> d_irq v = true) ->
  exists st' i, read_loop fuel (length l) 0 b 256 st = Ok (NONE, concat l, st') /\ ready (set_phase idle i (d_disk v) v) st'.
Proof using L Hfuel.
  induction l as [|x l IH]; intros v st H Hp Hi.
  { exists st, (d_irq v). split; [reflexivity|]. destruct v; cbn [d_phase reading_phase] in Hp; subst. exact H. }
  cbn [length read_loop]. destruct (ready_wait_irq v st H) as (st1 & i1 & -> & H1); [now apply Hi|]. cbn [mbind outcome_bind].
  destruct (ready_poll _ st1 true H1) as (st2 & -> & H2 & C2); [intros _; cbn [set_phase d_phase]; rewrite Hp; discriminate|]. cbn [mbind outcome_bind].
  rewrite bool_decide_true by reflexivity. cbn [negb]. unfold in_words.
  destruct (law_in (ports_ st2) x l C2) as [E1 E2]; [rewrite (r_view _ _ H2); exact Hp|]. destruct (insw b 256 (ports_ st2)) as [x' s]. cbn [fst snd] in *. subst x'.
  rewrite (r_view _ _ H2) in E2. cbn [set_phase d_disk] in E2. pose proof (ready_put _ _ s st2 H2 E2) as H3.
  destruct (IH _ _ H3) as (st4 & i4 & E4 & H4); [reflexivity|now destruct l|]. rewrite (bind_Ok_l _ _ _ E4). exists st4, i4. split; [reflexivity|exact H4].
Qed.
(** Sectors written one after the other. *)
Fixpoint put_sectors (lba : Z) (n : nat) (buffer : list Z) (disk : Z -> list Z) : Z -> list Z :=
  match n with O => disk | Datatypes.S n => put_sectors (lba + 1) n (drop 512 buffer) (with_sector lba (take 512 buffer) disk) end.
Lemma write_loop_spec : forall n lba buffer v st, ready v st -> d_phase v = writing_phase lba n -> length buffer = (512 * n)%nat ->
  exists st' i, write_loop fuel n 0 b buffer st = Ok st' /\ ready (set_phase idle i (put_sectors lba n buffer (d_disk v)) v) st'.
Proof using L Hfuel.
  induction n as [|n IH]; intros lba buffer v st H Hp Hl.
  { exists st, (d_irq v). split; [reflexivity|]. destruct v; cbn [d_phase writing_phase] in Hp; subst. exact H. }
  cbn [write_loop]. destruct (ready_poll v st false H) as (st2 & E2 & H2 & C2); [discriminate|]. rewrite (bind_Ok_l _ _ _ E2).
  change (2 * WORDS_PER_SECTOR)%nat with 512%nat. unfold out_words. pose proof (law_out (ports_ st2) (take 512 buffer) lba n C2) as W.
  rewrite (r_view _ _ H2) in W. specialize (W Hp). rewrite length_take in W. specialize (W ltac:(lia)). pose proof (ready_put _ _ _ st2 H2 W) as H3.
  destruct (IH (lba + 1) (drop 512 buffer) _ _ H3) as (st4 & i4 & E4 & H4); [reflexivity|rewrite length_drop; lia|].
  exists st4, i4. split; [exact E4|exact H4].
Qed.
Lemma put_sectors_lookup : forall n lba buffer disk i, length buffer = (512 * n)%nat ->
  put_sectors lba n buffer disk i = if (lba <=? i) && (i <? lba + Z.of_nat n) then take 512 (drop (512 * Z.to_nat (i - lba)) buffer) else disk i.
Proof.
  clear Hfuel. induction n as [|n IH]; intros lba buffer disk i Hl; cbn [put_sectors].
  - destruct (Z.leb_spec lba i), (Z.ltb_spec i (lba + Z.of_nat 0)); first [reflexivity|lia].
  - rewrite IH by (rewrite length_drop; lia). unfold with_sector. destruct (Z.eqb_spec i lba) as [->|N].
    + destruct (Z.leb_spec (lba + 1) lba), (Z.leb_spec lba lba), (Z.ltb_spec lba (lba + Z.of_nat (Datatypes.S n))); try lia. now rewrite Z.sub_diag.
    + destruct (Z.leb_spec (lba + 1) i), (Z.leb_spec lba i), (Z.ltb_spec i (lba + 1 + Z.of_nat n)), (Z.ltb_spec i (lba + Z.of_nat (Datatypes.S n))); try lia; try reflexivity.
      cbn [andb]. rewrite drop_drop. do 2 f_equal. lia.
Qed.

(** ** The address *)
Lemma byte_field lba m i : 0 <= i -> Z.shiftr m i = 0xFF -> Z.shiftr (Z.land lba m) i = lba / 2 ^ i mod 2 ^ 8.
Proof. clear Hfuel. intros Hi Hm. rewrite Z.shiftr_land, Hm, Z.shiftr_div_pow2 by exact Hi. now rewrite (Z.land_ones _ 8) by lia. Qed.
Lemma head_bits drv' h m : drv' = 0 \/ drv' = 1 -> 0 <= h < 16 -> m = 0xA0 \/ m = 0xE0 ->
  let x := Z.lor (Z.lor m (u8 (Z.shiftl drv' 4))) h in
  Z.testbit x 4 = Z.testbit drv' 0 /\ Z.land x 15 = h /\ has x 0x40 = (m =? 0xE0).
Proof.
  clear Hfuel. intros Hd Hh Hm.
  assert (C : forallb (fun d => forallb (fun m => forallb (fun h => let x := Z.lor (Z.lor m (u8 (Z.shiftl d 4))) h in
    eqb (Z.testbit x 4) (Z.testbit d 0) && (Z.land x 15 =? h) && eqb (has x 0x40) (m =? 0xE0)) (seqZ 0 16)) [0xA0; 0xE0]) [0; 1] = true) by (vm_compute; reflexivity).
  rewrite forallb_forall in C. specialize (C drv' ltac:(cbn; lia)). rewrite forallb_forall in C. specialize (C m ltac:(cbn; lia)).
  rewrite forallb_forall in C. specialize (C h ltac:(apply list_elem_of_In, elem_of_seqZ; lia)). cbn zeta in C |- *.
  apply andb_prop in C as [C C3]. apply andb_prop in C as [C1 C2]. apply eqb_prop in C1, C3. apply Z.eqb_eq in C2. now repeat split.
Qed.
(** Sectors that one command reaches: those of the drive, in the first 2^28 when the
    transfer begins there, and in 65536 cylinders when the drive has no linear addresses. *)
Definition addressable (d : ata_drive) (lba n : Z) : Prop :=
  0 <= lba /\ 1 <= n < 256 /\ lba + n <= cap /\ cap <= 2 ^ 32 /\
  (lba < 2 ^ 28 -> if has (capabilities d) ATA_CAPABILITY_LBA then lba + n <= 2 ^ 28 else lba + n <= 65536 * 1008).
(** What the six bytes and the head are for the drive. *)
Lemma address_spec d lba n : addressable d lba n -> exists mode l0 l1 l2 l3 head, address_of d lba = (mode, [l0; l1; l2; l3; 0; 0], head) /\
  0 <= l0 < 256 /\ 0 <= l1 < 256 /\ 0 <= l2 < 256 /\ 0 <= l3 < 256 /\ 0 <= head < 16 /\
  match mode with
  | LBA48 => l0 + l1 * 2 ^ 8 + l2 * 2 ^ 16 + l3 * 2 ^ 24 = lba
  | LBA28 => l0 + l1 * 2 ^ 8 + l2 * 2 ^ 16 + head * 2 ^ 24 = lba /\ lba + n <= 2 ^ 28
  | CHS => ((l1 + l2 * 2 ^ 8) * 16 + head) * 63 + (l0 - 1) = lba /\ lba + n <= 2 ^ 28
  end.
Proof.
  clear Hfuel. intros (H0 & Hn & Hc & Hc2 & Hm). unfold address_of. change (Z.land lba 255) with (Z.shiftr (Z.land lba 255) 0).
  destruct (Z.leb_spec 0x10000000 lba) as [Hb|Hb]; [|destruct (has (capabilities d) ATA_CAPABILITY_LBA) eqn:El].
  - rewrite !byte_field by (lia || reflexivity). eexists LBA48, _, _, _, _, _. split; [reflexivity|]. Z.to_euclidean_division_equations. lia.
  - specialize (Hm Hb). rewrite !byte_field by (lia || reflexivity).
    replace (Z.shiftr (Z.land lba 0xF000000) 24) with (lba / 2 ^ 24 mod 2 ^ 4)
      by (rewrite Z.shiftr_land, Z.shiftr_div_pow2 by lia; symmetry; apply (Z.land_ones _ 4); lia).
    eexists LBA28, _, _, _, 0, _. split; [reflexivity|]. Z.to_euclidean_division_equations. lia.
  - specialize (Hm Hb). set (q := lba / 63). set (sect := lba mod 63 + 1).
    assert (E : lba = 63 * q + (sect - 1) /\ 1 <= sect <= 63) by (subst q sect; Z.to_euclidean_division_equations; lia). destruct E as [E1 E2]. clearbody q sect.
    replace (u8 sect) with sect by (symmetry; apply Z.mod_small; lia).
    replace ((lba + 1 - sect) / (16 * 63)) with (q / 16) by (rewrite E1; replace (63 * q + (sect - 1) + 1 - sect) with (q * 63) by lia; symmetry; apply Z.div_mul_cancel_r; lia).
    replace ((lba + 1 - sect) mod (16 * 63) / 63) with (q mod 16)
      by (rewrite E1; replace (63 * q + (sect - 1) + 1 - sect) with (q * 63) by lia; rewrite Z.mul_mod_distr_r by lia; symmetry; apply Z.div_mul; lia).
    assert (Q : 0 <= q < 65536 * 16) by lia. replace (u16 (q / 16)) with (q / 16) by (symmetry; apply Z.mod_small; Z.to_euclidean_division_equations; lia).
    replace (u8 (q mod 16)) with (q mod 16) by (symmetry; apply Z.mod_small; Z.to_euclidean_division_equations; lia).
    change (Z.land (Z.shiftr (q / 16) 8) 255) with (Z.land (Z.shiftr (q / 16) 8) (Z.ones 8)). change (Z.land (q / 16) 255) with (Z.land (q / 16) (Z.ones 8)).
    rewrite !Z.land_ones, Z.shiftr_div_pow2 by lia. eexists CHS, _, _, _, 0, _. split; [reflexivity|]. Z.to_euclidean_division_equations. lia.
Qed.

(** The four registers, one after the other. *)
Lemma ready_task v st p0 p1 p2 p3 x0 x1 x2 x3 : ready v st -> d_phase v = idle -> p0 = b + 2 -> p1 = b + 3 -> p2 = b + 4 -> p3 = b + 5 ->
  0 <= x0 < 256 -> 0 <= x1 < 256 -> 0 <= x2 < 256 -> 0 <= x3 < 256 ->
  ready (set_reg 3 x3 (set_reg 2 x2 (set_reg 1 x1 (set_reg 0 x0 v)))) (out p3 x3 (out p2 x2 (out p1 x1 (out p0 x0 st)))).
Proof.
  clear Hfuel. intros H Hi -> -> -> -> B0 B1 B2 B3.
  pose proof (ready_reg 0 x0 v st (b + 2) H Hi ltac:(lia) ltac:(lia) B0) as H5.
  pose proof (ready_reg 1 x1 _ _ (b + 3) H5 Hi ltac:(lia) ltac:(lia) B1) as H6.
  pose proof (ready_reg 2 x2 _ _ (b + 4) H6 Hi ltac:(lia) ltac:(lia) B2) as H7.
  exact (ready_reg 3 x3 _ _ (b + 5) H7 Hi ltac:(lia) ltac:(lia) B3).
Qed.
(** What a command finds in the task file after the setup. *)
Record set_up (mode : ata_addressing_mode) (lba n : Z) (v v' : dev) : Prop := {
  su_phase : d_phase v' = idle; su_disk : d_disk v' = d_disk v;
  su_drive : Z.testbit (d_head v') 4 = Z.testbit drv 0;
  su_lba : dev_lba (bool_decide (mode = LBA48)) v' = lba; su_count : dev_count (bool_decide (mode = LBA48)) v' = n;
  su_28 : mode <> LBA48 -> lba + n <= 2 ^ 28 }.
Lemma ready_setup v st d lba n : ready v st -> d_phase v = idle -> channel d = 0 -> drive d = drv -> drv = 0 \/ drv = 1 -> addressable d lba n ->
  exists mode v' st', ata_setup_transfer fuel d lba n st = Ok (mode, st') /\ ready v' st' /\ set_up mode lba n v v'.
Proof using L Hfuel.
  intros H Hi Hch Hdrv Hd Ha. destruct (address_spec d lba n Ha) as (mode & l0 & l1 & l2 & l3 & head & Ea & B0 & B1 & B2 & B3 & Bh & Em).
  unfold ata_setup_transfer. rewrite Hch, Hdrv. set (c := chan 0 st). set (st0 := set_channel 0 _ st).
  assert (H0 : ready v st0).
  { destruct H as [H1 H2 H3 H4 H5 H6 H7]. subst st0. destruct st as [ps [|c0 [|c1 cs]] ids fl ins ad]; try discriminate H3. now constructor. }
  assert (H1 : ready v (out (ctrl c) 0 st0)).
  { apply (ready_put v); [exact H0|]. subst c. rewrite (r_ctrl _ _ H), law_control. exact (r_view _ _ H0). }
  rewrite Ea. subst c. rewrite (r_base _ _ H). change ATA_REG_STATUS with 7 at 1.
  destruct (ready_wait v _ (b + 7) H1 (or_intror eq_refl)) as (st2 & -> & H2 & _). cbn [mbind outcome_bind].
  set (m := if bool_decide (mode = CHS) then 160 else 224). destruct (head_bits drv head m Hd Bh ltac:(subst m; destruct (bool_decide (mode = CHS)); lia)) as (D1 & D2 & D3).
  set (hd := Z.lor (Z.lor m (u8 (Z.shiftl drv 4))) head) in *.
  assert (H3 : ready (set_head hd v) (ata_delay400 0 (out (b + ATA_REG_HDDEVSEL) hd st2))).
  { apply ready_delay. apply (ready_put v); [exact H2|]. unfold ATA_REG_HDDEVSEL. rewrite law_head; rewrite ?(r_view _ _ H2); auto. }
  set (st3 := ata_delay400 _ _) in *. set (st4 := if bool_decide (mode = LBA48) then _ else st3).
  assert (H4 : exists v4, ready v4 st4 /\ d_phase v4 = idle /\ d_disk v4 = d_disk v /\ d_head v4 = hd /\
    (mode = LBA48 -> cur (d_count v4) = 0 /\ cur (d_lba0 v4) = l3 /\ cur (d_lba1 v4) = 0 /\ cur (d_lba2 v4) = 0)).
  { subst st4. destruct (bool_decide_reflect (mode = LBA48)) as [->|N].
    - eexists. split.
      + apply (ready_task (set_head hd v) st3); [exact H3|exact Hi|unfold ATA_REG_SECCOUNT1; lia|unfold ATA_REG_LBA3; lia|unfold ATA_REG_LBA4; lia|unfold ATA_REG_LBA5; lia|lia|exact B3|cbn; lia|cbn; lia].
      + repeat split; exact Hi.
    - exists (set_head hd v). split; [exact H3|]. split; [exact Hi|]. split; [reflexivity|]. split; [reflexivity|]. intros ->. now destruct N. }
  destruct H4 as (v4 & H4 & P4 & K4 & D4 & E4). clearbody st4 st3. destruct Ha as (A0 & An & _).
  pose proof (ready_task v4 st4 (b + ATA_REG_SECCOUNT0) (b + ATA_REG_LBA0) (b + ATA_REG_LBA1) (b + ATA_REG_LBA2) n l0 l1 l2 H4 P4 eq_refl eq_refl eq_refl eq_refl ltac:(lia) B0 B1 B2) as H8.
  eexists mode, _, _. split; [reflexivity|]. split; [exact H8|]. constructor.
  - exact P4.
  - exact K4.
  - cbn. rewrite D4. exact D1.
  - unfold dev_lba. cbn. rewrite D4, D2, D3. subst m. destruct mode; cbn [bool_decide decide_rel] in *.
    + change (bool_decide (LBA28 = LBA48)) with false. change (bool_decide (LBA28 = CHS)) with false. cbn. lia.
    + destruct (E4 eq_refl) as (_ & -> & -> & ->). change (bool_decide (LBA48 = LBA48)) with true. cbv iota. lia.
    + change (bool_decide (CHS = LBA48)) with false. change (bool_decide (CHS = CHS)) with true. cbn. lia.
  - unfold dev_count. cbn. destruct (bool_decide_reflect (mode = LBA48)) as [M|M].
    + destruct (E4 M) as (-> & _). rewrite Z.mul_0_l, Z.add_0_r. now replace (n =? 0) with false by lia.
    + now replace (n =? 0) with false by lia.
  - intros M. destruct mode; [lia|now destruct M|lia].
Qed.

(** A command after the setup. *)
Lemma ready_command mode v0 v lba n st ch cmd : ready v st -> set_up mode lba n v0 v -> lba + n <= cap -> ch = 0 ->
  cmd ∈ (if bool_decide (mode = LBA48) then [ATA_CMD_READ_PIO_EXT; ATA_CMD_WRITE_PIO_EXT] else [ATA_CMD_READ_PIO; ATA_CMD_WRITE_PIO]) ->
  ready (start cmd v) (ata_delay400 ch (out (base (chan ch st) + ATA_REG_COMMAND) cmd st)).
Proof.
  clear Hfuel. intros H [U1 U2 U3 U4 U5 U6] Hc -> Hcmd. apply ready_delay. rewrite (r_base _ _ H). unfold ATA_REG_COMMAND. apply (ready_put v); [exact H|].
  rewrite law_command; rewrite ?(r_view _ _ H); auto. unfold accepts. right. destruct (bool_decide_reflect (mode = LBA48)) as [M|M].
  - right. split; [exact Hcmd|]. rewrite U4, U5. exact Hc.
  - left. split; [exact Hcmd|]. rewrite U4, U5. specialize (U6 M). lia.
Qed.
Lemma do_read_spec v st d lba n buf : ready v st -> d_phase v = idle -> channel d = 0 -> drive d = drv -> drv = 0 \/ drv = 1 -> addressable d lba n ->
  exists v' st', ata_do_read fuel d lba n buf st = Ok (NONE, concat (sectors_of (d_disk v) lba (Z.to_nat n)), st') /\
    ready v' st' /\ d_phase v' = idle /\ d_disk v' = d_disk v.
Proof using L Hfuel.
  intros H Hi Hch Hdrv Hd Ha. destruct (ready_setup v st d lba n H Hi Hch Hdrv Hd Ha) as (mode & v1 & st1 & E1 & H1 & U).
  unfold ata_do_read. rewrite (bind_Ok_l _ _ _ E1). set (cmd := if bool_decide (mode = LBA48) then ATA_CMD_READ_PIO_EXT else ATA_CMD_READ_PIO).
  pose proof (ready_command mode v v1 lba n st1 (channel d) cmd H1 U ltac:(destruct Ha as (_ & _ & ? & _); lia) Hch) as H2.
  specialize (H2 ltac:(subst cmd; destruct (bool_decide (mode = LBA48)); set_solver)). rewrite Hch in *. rewrite (r_base _ _ H1) in *.
  set (st2 := ata_delay400 0 _) in *.
  assert (E : start cmd v1 = set_phase (reading_phase (sectors_of (d_disk v) lba (Z.to_nat n))) true (d_disk v1) v1).
  { destruct U as [_ U2 _ U4 U5 _]. rewrite <- U2. subst cmd. destruct (bool_decide (mode = LBA48)); unfold start; cbn [Z.eqb Pos.eqb orb ATA_CMD_READ_PIO ATA_CMD_READ_PIO_EXT]; rewrite U4, U5; reflexivity. }
  rewrite E in H2. destruct (read_loop_spec _ _ _ H2 eq_refl (fun _ => eq_refl)) as (st3 & i & E3 & H3).
  unfold sectors_of in E3 at 1. rewrite length_map, length_seqZ in E3. rewrite Z2Nat.id in E3 by (destruct Ha as (_ & ? & _); lia).
  change WORDS_PER_SECTOR with 256%nat. rewrite E3. exists (set_phase idle i (d_disk v1) (start cmd v1)), st3.
  split; [unfold sectors_of; rewrite Z2Nat.id by (destruct Ha as (_ & ? & _); lia); reflexivity|]. rewrite E. split; [exact H3|]. split; [reflexivity|apply U].
Qed.
Lemma do_write_spec v st d lba n buf : ready v st -> d_phase v = idle -> channel d = 0 -> drive d = drv -> drv = 0 \/ drv = 1 -> addressable d lba n ->
  length buf = (512 * Z.to_nat n)%nat ->
  exists v' st', ata_do_write fuel d lba n buf st = Ok (NONE, [], st') /\
    ready v' st' /\ d_phase v' = idle /\ d_disk v' = put_sectors lba (Z.to_nat n) buf (d_disk v).
Proof using L Hfuel.
  intros H Hi Hch Hdrv Hd Ha Hl. destruct (ready_setup v st d lba n H Hi Hch Hdrv Hd Ha) as (mode & v1 & st1 & E1 & H1 & U).
  unfold ata_do_write. rewrite (bind_Ok_l _ _ _ E1). set (cmd := if bool_decide (mode = LBA48) then ATA_CMD_WRITE_PIO_EXT else ATA_CMD_WRITE_PIO).
  pose proof (ready_command mode v v1 lba n st1 (channel d) cmd H1 U ltac:(destruct Ha as (_ & _ & ? & _); lia) Hch) as H2.
  specialize (H2 ltac:(subst cmd; destruct (bool_decide (mode = LBA48)); set_solver)). rewrite Hch in *. rewrite (r_base _ _ H1) in *.
  set (st2 := ata_delay400 0 _) in *.
  assert (E : start cmd v1 = set_phase (writing_phase lba (Z.to_nat n)) (d_irq v1) (d_disk v1) v1).
  { destruct U as [_ _ _ U4 U5 _]. subst cmd. destruct (bool_decide (mode = LBA48)); unfold start; cbn [Z.eqb Pos.eqb orb ATA_CMD_WRITE_PIO ATA_CMD_WRITE_PIO_EXT]; rewrite U4, U5; reflexivity. }
  rewrite E in H2. destruct (write_loop_spec (Z.to_nat n) lba buf _ _ H2 eq_refl Hl) as (st3 & i & E3 & H3). rewrite (bind_Ok_l _ _ _ E3).
  set (v3 := set_phase idle i _ _) in *. set (flush := if bool_decide (mode = LBA48) then _ else _).
  assert (H4 : ready (start flush v3) (ata_delay400 0 (out (b + ATA_REG_COMMAND) flush st3))).
  { apply ready_delay. apply (ready_put v3); [exact H3|]. rewrite (law_command flush); rewrite ?(r_view _ _ H3); auto; [apply U|].
    left. subst flush. destruct (bool_decide (mode = LBA48)); set_solver. }
  destruct (ready_poll _ _ false H4) as (st5 & E5 & H5 & _); [discriminate|]. rewrite (bind_Ok_l _ _ _ E5).
  assert (F : d_phase (start flush v3) = idle /\ d_disk (start flush v3) = d_disk v3) by (subst flush; destruct (bool_decide (mode = LBA48)); split; reflexivity).
  eexists _, st5. split; [reflexivity|]. split; [exact H5|]. destruct F as [-> ->]. split; [reflexivity|]. subst v3. cbn [set_phase d_disk]. now rewrite (su_disk _ _ _ _ _ U).
Qed.

(** ** Blocks *)
Lemma foreach_one m d f lba n buf sz (st : ata S) data st' : 1 <= n < 256 -> (1 < m)%nat -> f d lba n buf st = Ok (NONE, data, st') ->
  foreach_n_sectors m 255 d f lba n buf sz st = Ok (NONE, data, st').
Proof.
  clear Hfuel. intros Hn Hf E. destruct m as [|[|f']]; [lia|lia|]. remember (Datatypes.S f') as f1. cbn [foreach_n_sectors]. replace (n =? 0) with false by lia.
  change 255 with (Z.ones 8). rewrite Z.land_ones, Z.mod_small by lia. replace (u8 n) with n by (symmetry; apply Z.mod_small; lia).
  rewrite (bind_Ok_l _ _ _ E). rewrite bool_decide_true by reflexivity. cbn [negb].
  replace (sub32 n n) with 0 by (unfold sub32; now rewrite Z.sub_diag). subst f1. cbn [foreach_n_sectors Z.eqb]. cbn [mbind outcome_bind]. now rewrite app_nil_r.
Qed.
(** A drive as it was found. *)
Definition usable (d : ata_drive) : Prop := exists_ d = true /\ type d = ATA /\ channel d = 0 /\ drive d = drv /\ (drv = 0 \/ drv = 1) /\ size d = cap.

(** C32: for a drive of the first channel, reading blocks gives the bytes of exactly those
    sectors and changes none; writing blocks stores the bytes in exactly those sectors, one
    after the other, and in no other; both end, whatever delays the drive has, with the drive
    ready for the next command.  This holds for each of the three ways of addressing, up to
    255 blocks at once, for transfers that do not begin below sector 2^28 and end behind it
    (ata.cpp:249); a drive without linear addresses has to have the 16 heads and 63 sectors the
    driver assumes (ata.cpp:277). *)
Theorem ata_blocks_refine v st d lba n : ready v st -> d_phase v = idle -> usable d -> addressable d lba n ->
  (exists v' st', ata_read_blocks fuel d lba n st = Ok (concat (sectors_of (d_disk v) lba (Z.to_nat n)), st') /\
    ready v' st' /\ d_phase v' = idle /\ d_disk v' = d_disk v) /\
  forall buf, length buf = (512 * Z.to_nat n)%nat ->
    exists v' st', ata_write_blocks fuel d lba buf n st = Ok st' /\ ready v' st' /\ d_phase v' = idle /\
      forall i, d_disk v' i = if (lba <=? i) && (i <? lba + n) then take 512 (drop (512 * Z.to_nat (i - lba)) buf) else d_disk v i.
Proof using L Hfuel.
  intros H Hi (U1 & U2 & U3 & U4 & U5 & U6) Ha. destruct (law_settles (b + 7) (ports_ st) (or_intror eq_refl)) as (w & Hw & _).
  pose proof Ha as (A0 & An & Ac & Ac2 & _).
  assert (G : (size d <? add32 lba n) && bool_decide (type d = ATA) = false).
  { rewrite U6. replace (cap <? add32 lba n) with false; [reflexivity|]. symmetry. apply Z.ltb_ge. unfold add32, u32, wrap.
    pose proof (Z.mod_le (lba + n) (2 ^ 32)). lia. }
  split.
  - destruct (do_read_spec v st d lba n [] H Hi U3 U4 U5 Ha) as (v' & st' & E & H' & P' & D'). exists v', st'. split; [|split; [exact H'|split; [exact P'|exact D']]].
    unfold ata_read_blocks, ata_read_sectors. rewrite U1, G, U2. cbn [negb].
    rewrite (foreach_one fuel d (ata_do_read fuel) lba n [] _ st _ _ An ltac:(lia) E). reflexivity.
  - intros buf Hl. destruct (do_write_spec v st d lba n buf H Hi U3 U4 U5 Ha Hl) as (v' & st' & E & H' & P' & D'). exists v', st'. split; [|split; [exact H'|split; [exact P'|]]].
    + unfold ata_write_blocks, ata_write_sectors. rewrite U1, G, U2. cbn [negb].
      rewrite (foreach_one fuel d (ata_do_write fuel) lba n buf _ st _ _ An ltac:(lia) E). reflexivity.
    + intros i. rewrite D', put_sectors_lookup by exact Hl. now rewrite Z2Nat.id by lia.
Qed.
End driver.

(** ** Requests of 256 blocks and more

    [num_sectors & 255] is the size of a transfer: of a multiple of 256 it is 0, and nothing
    is left less. *)
Section large.
Context {S : Type} (d : ata_drive) (f : ata_drive -> Z -> Z -> list Z -> ata S -> outcome (ata_error * list Z * ata S)) (sz : Z).
Context (Hf : forall lba n buf st, exists data st', f d lba n buf st = Ok (NONE, data, st')).
#[local] Set Default Proof Using "Hf".
Lemma foreach_multiple : forall fuel lba k buf st, 0 < k -> 256 * k < 2 ^ 32 -> foreach_n_sectors fuel 255 d f lba (256 * k) buf sz st = Fault OutOfFuel.
Proof.
  induction fuel as [|fuel IH]; intros lba k buf st Hk Hb; [reflexivity|]. cbn [foreach_n_sectors]. replace (256 * k =? 0) with false by lia.
  change 255 with (Z.ones 8). rewrite Z.land_ones, (Z.mul_comm 256 k) by lia. change (2 ^ 8) with 256. rewrite Z.mod_mul by lia.
  destruct (Hf lba (u8 0) buf st) as (data & st' & ->). cbn [mbind outcome_bind]. rewrite bool_decide_true by reflexivity. cbn [negb].
  unfold sub32 at 1. rewrite Z.sub_0_r. replace (u32 (k * 256)) with (256 * k) by (rewrite u32_small; [lia|unfold is_u32; lia]). now rewrite IH.
Qed.
Theorem foreach_large_never_ends fuel lba n buf st : 256 <= n < 2 ^ 32 -> foreach_n_sectors fuel 255 d f lba n buf sz st = Fault OutOfFuel.
Proof.
  intros Hn. destruct fuel as [|fuel]; [reflexivity|]. cbn [foreach_n_sectors]. replace (n =? 0) with false by lia.
  change 255 with (Z.ones 8). rewrite Z.land_ones by lia. change (2 ^ 8) with 256.
  destruct (Hf lba (u8 (n mod 256)) buf st) as (data & st' & ->). cbn [mbind outcome_bind]. rewrite bool_decide_true by reflexivity. cbn [negb].
  pose proof (Z.div_mod n 256 ltac:(lia)) as E. pose proof (Z.mod_pos_bound n 256 ltac:(lia)).
  assert (Q : 0 < n / 256) by (apply Z.div_str_pos; lia). replace (sub32 n (n mod 256)) with (256 * (n / 256)) by (unfold sub32; rewrite u32_small; [lia|unfold is_u32; lia]).
  change (Z.ones 8) with 255. now rewrite foreach_multiple by lia.
Qed.
End large.

(** ** A drive

    It is busy for two looks at its status after a command and between sectors, and raises
    its line whenever an interrupt is outstanding. *)
Module Drive.
Record state := mk_state { device : dev; delay : nat }.
Definition status (s : state) : Z :=
  match Nat.min (delay s) 2 with O => match d_phase (device s) with idle => 0x50 | _ => 0x58 end | _ => 0x80 end.
Definition inb (p : Z) (s : state) : Z * state :=
  if (p =? 0x3F6) || (p =? 0x1F7) then (status s, mk_state (device s) (pred (Nat.min (delay s) 2))) else (0, s).
Definition outb (p v : Z) (s : state) : state :=
  if (0x1F2 <=? p) && (p <? 0x1F6) then mk_state (set_reg (p - 0x1F2) v (device s)) (delay s)
  else if p =? 0x1F6 then mk_state (set_head v (device s)) (delay s)
  else if p =? 0x1F7 then mk_state (start v (device s)) 2
  else s.
Definition insw (p : Z) (n : nat) (s : state) : list Z * state :=
  match d_phase (device s) with
  | reading (l :: rest) => (l, mk_state (set_phase (reading_phase rest) (match rest with [] => d_irq (device s) | _ => true end) (d_disk (device s)) (device s)) 2)
  | _ => ([], s)
  end.
Definition outsw (p : Z) (l : list Z) (s : state) : state :=
  match d_phase (device s) with
  | writing lba (Datatypes.S n) => mk_state (set_phase (writing_phase (lba + 1) n) true (with_sector lba l (d_disk (device s))) (device s)) 2
  | _ => s
  end.
#[export] Instance drive_ports : ports state := {|
  Ports.inb := inb; Ports.outb := outb; Ports.inw _ s := (0, s); Ports.outw _ _ s := s;
  Ports.ind _ s := (0, s); Ports.outd _ _ s := s; Ports.insw := insw; Ports.outsw := outsw |}.
#[export] Instance drive_raises : raises state := fun s =>
  if d_irq (device s) then (Some 14, mk_state (set_phase (d_phase (device s)) false (d_disk (device s)) (device s)) (delay s)) else (None, s).
Lemma inb_device p s : device (inb p s).2 = device s.
Proof. unfold inb. now destruct ((p =? 0x3F6) || (p =? 0x1F7)). Qed.
Lemma status_busy s : has (status s) ATA_SR_BSY = false -> delay s = O.
Proof. unfold status. destruct (delay s) as [|[|n]]; cbn [Nat.min]; [reflexivity|discriminate|destruct n; discriminate]. Qed.
#[export] Instance drive_laws : ata_laws state 0x1F0 0x3F6 0 1000 3.
Proof.
  refine {| view := device |}.
  - intros i v s Hi Hv Hp. cbn [Ports.outb drive_ports]. unfold outb. destruct (Z.leb_spec 0x1F2 (0x1F0 + 2 + i)), (Z.ltb_spec (0x1F0 + 2 + i) 0x1F6); try lia.
    cbn [andb device]. f_equal. lia.
  - intros v s Hp Ht. reflexivity.
  - intros s. reflexivity.
  - intros v s Hp Hd Ha. reflexivity.
  - intros p s Hp. apply inb_device.
  - intros p s Hp. assert (E : (p =? 0x3F6) || (p =? 0x1F7) = true) by (destruct Hp as [-> | ->]; reflexivity).
    assert (In : forall s, Ports.inb p s = (status s, mk_state (device s) (pred (Nat.min (delay s) 2)))) by (intros t; cbn [Ports.inb drive_ports]; unfold inb; now rewrite E).
    assert (Z0 : forall d, has (status (mk_state d 0)) ATA_SR_BSY = false) by (intros d; unfold status; cbn; now destruct (d_phase d)).
    destruct s as [d [|[|n]]]; [exists 0%nat|exists 1%nat|exists 2%nat]; (split; [lia|]); cbn [reads]; rewrite !In; cbn [fst snd device delay]; try apply Z0.
    replace (Nat.min (Datatypes.S (Datatypes.S n)) 2) with 2%nat by lia. apply Z0.
  - intros s Hb. apply status_busy in Hb. unfold busy_at. cbn [Ports.inb drive_ports]. unfold inb. cbn [Z.eqb Pos.eqb orb fst snd]. unfold status. rewrite Hb.
    cbn [Nat.min device delay pred]. destruct (d_phase (device s)); repeat split; intros N; now destruct N.
  - intros s l rest Hb Hp. cbn [Ports.insw drive_ports]. unfold insw. rewrite Hp. now split.
  - intros s l lba n Hb Hp Hl. cbn [Ports.outsw drive_ports]. unfold outsw. now rewrite Hp.
  - intros v s. now split.
  - intros s. unfold advance, drive_raises. destruct (d_irq (device s)); [right|left]; now split.
  - intros s Hi. exists 0%nat. split; [lia|]. cbn [advances]. unfold advance, drive_raises. now rewrite Hi.
Defined.
Definition zero_reg : reg := mk_reg 0 0.
(** Sector [i] is filled with [i]. *)
Definition fresh : dev := mk_dev zero_reg zero_reg zero_reg zero_reg 0 idle false (fun i => replicate 512 i).
Definition disk : ata_drive := mk_adrive true 0 0 ATA 0 ATA_CAPABILITY_LBA 0 1000 [].
Definition driver : ata state := mk_ata (mk_state fresh 0) [mk_channel 0x1F0 0x3F6 0 0 (mk_pci 0 0 0) 0; mk_channel 0x170 0x376 0 0 (mk_pci 0 0 0) 0] [disk] [false; false]
  [(15, ata_irq_handler1); (14, ata_irq_handler0)] [].
End Drive.
Import Drive.
Lemma ata_blocks_refine_witness :
  usable 0 1000 disk /\
  (exists v' st', ata_read_blocks 4 disk 700 2 driver = Ok (replicate 512 700 ++ replicate 512 701, st') /\
    ready 0x1F0 0x3F6 0 1000 3 [disk] v' st' /\ d_phase v' = idle /\ d_disk v' = d_disk fresh).
Proof.
  assert (U : usable 0 1000 disk) by (split; [reflexivity|]; split; [reflexivity|]; split; [reflexivity|]; split; [reflexivity|]; split; [now left|reflexivity]).
  split; [exact U|]. apply (ata_blocks_refine 0x1F0 0x3F6 0 1000 3 4 ltac:(lia) [disk] fresh driver disk 700 2).
  - now constructor.
  - reflexivity.
  - exact U.
  - unfold addressable. change (has (capabilities disk) ATA_CAPABILITY_LBA) with true. lia.
Defined.
(** What was written is read back, between the sectors next to it. *)
Example write_and_read_back :
  match ata_write_blocks 4 disk 5 (replicate 512 1 ++ replicate 512 2) 2 driver with
  | Ok st => match ata_read_blocks 4 disk 4 4 st with Ok (l, _) => bool_decide (l = replicate 512 4 ++ replicate 512 1 ++ replicate 512 2 ++ replicate 512 7) | _ => false end
  | _ => false
  end = true.
Proof. vm_compute. reflexivity. Qed.
(** Reading 256 blocks sends a read of none, which is one of 256 for the drive, and waits. *)
Example read_of_256_blocks : ata_read_blocks 50 disk 0 256 driver = Fault OutOfFuel.
Proof. vm_compute. reflexivity. Qed.
