(* ===== verification/Algorithm.v ===== *)
(** * Algorithms of the C++ library (cpplib/include/algorithm)

    A range is the list of its elements, a position in it a number.  An algorithm that works
    in place returns the range as it leaves it; a part of a range is a list of its own. *)
From S2P Require Import Prelude.
From Stdlib Require Import Sorting.Sorted Permutation.

Section algorithm.
Context {A : Type}.
(** [find_if_not]: the length when every element satisfies [p]. *)
Fixpoint find_if_not (p : A -> bool) (l : list A) : nat :=
  match l with [] => O | x :: l => if p x then S (find_if_not p l) else O end.
Definition iter_swap (i j : nat) (l : list A) : list A :=
  match l !! i, l !! j with Some x, Some y => <[j := x]> (<[i := y]> l) | _, _ => l end.
(** [for(ForwardIt i = next(first); i != last; ++i)], [n] elements from [i] on. *)
Fixpoint partition_loop (n i first : nat) (p : A -> bool) (l : list A) : list A * nat :=
  match n with
  | O => (l, first)
  | S n =>
    match l !! i with
    | Some x => if p x then partition_loop n (S i) (S first) p (iter_swap i first l) else partition_loop n (S i) first p l
    | None => (l, first)
    end
  end.
Definition partition (p : A -> bool) (l : list A) : list A * nat :=
  let first := find_if_not p l in
  if Nat.eqb first (length l) then (l, first) else partition_loop (length l - S first) (S first) first p l.

Context (cmp : A -> A -> bool).
Fixpoint quick_sort (fuel : nat) (l : list A) : outcome (list A) :=
  match fuel with
  | O => Fault OutOfFuel
  | S fuel =>
    if (length l <=? 1)%nat then Ok l else
    match l !! (length l / 2)%nat with
    | None => Fault OutOfBounds
    | Some pivot =>
      let '(l, middle1) := partition (fun elem => cmp elem pivot) l in
      let '(rest, middle2) := partition (fun elem => negb (cmp pivot elem)) (drop middle1 l) in
      low ← quick_sort fuel (take middle1 l);
      high ← quick_sort fuel (drop middle2 rest);
      Ok (low ++ take middle2 rest ++ high)
    end
  end.
Definition sort (l : list A) : outcome (list A) := quick_sort (S (length l)) l.
End algorithm.

(** [lower_bound]: [first] and [count] of the halves that are left. *)
Fixpoint lower_bound_loop {A} (fuel : nat) (before : A -> bool) (l : list A) (first count : nat) : outcome nat :=
  match fuel with
  | O => Fault OutOfFuel
  | S fuel =>
    if (0 <? count)%nat then
      let step := (count / 2)%nat in
      match l !! (first + step)%nat with
      | None => Fault OutOfBounds
      | Some x => if before x then lower_bound_loop fuel before l (first + step + 1) (count - (step + 1)) else lower_bound_loop fuel before l first step
      end
    else Ok first
  end.
(** [cmp( *it, value)] is [before *it]. *)
Definition lower_bound {A} (before : A -> bool) (l : list A) : outcome nat := lower_bound_loop (S (length l)) before l 0 (length l).

(** ** Partitions *)
Section partition.
Context {A : Type} (p : A -> bool).
Lemma iter_swap_middle (a b : list A) y x r : iter_swap (length (a ++ y :: b)) (length a) (a ++ y :: b ++ x :: r) = a ++ x :: b ++ y :: r.
Proof.
  unfold iter_swap. replace (a ++ y :: b ++ x :: r) with ((a ++ y :: b) ++ x :: r) by now rewrite <- app_assoc.
  rewrite list_lookup_middle by reflexivity. rewrite <- app_assoc. cbn [app]. rewrite list_lookup_middle by reflexivity.
  replace (a ++ y :: b ++ x :: r) with ((a ++ y :: b) ++ x :: r) by now rewrite <- app_assoc.
  rewrite insert_app_r_alt by lia. rewrite Nat.sub_diag. cbn [insert list_insert]. rewrite <- app_assoc. cbn [app].
  rewrite insert_app_r_alt by lia. rewrite Nat.sub_diag. reflexivity.
Qed.
Lemma partition_loop_spec : forall r a b y, Forall (fun x => p x = true) a -> Forall (fun x => p x = false) (y :: b) ->
  exists l k, partition_loop (length r) (length (a ++ y :: b)) (length a) p (a ++ y :: b ++ r) = (l, k) /\ l ≡ₚ a ++ y :: b ++ r /\ (k <= length l)%nat /\
    Forall (fun x => p x = true) (take k l) /\ Forall (fun x => p x = false) (drop k l).
Proof.
  induction r as [|x r IH]; intros a b y Ha Hb.
  - cbn [length partition_loop]. rewrite app_nil_r. eexists _, _. split; [reflexivity|]. split; [reflexivity|]. split; [rewrite length_app; lia|].
    rewrite take_app_length, drop_app_length. now split.
  - cbn [length partition_loop]. replace ((a ++ y :: b ++ x :: r) !! length (a ++ y :: b)) with (Some x)
      by (symmetry; replace (a ++ y :: b ++ x :: r) with ((a ++ y :: b) ++ x :: r) by (now rewrite <- app_assoc); now apply list_lookup_middle).
    destruct (p x) eqn:Ex.
    + rewrite iter_swap_middle. apply Forall_cons in Hb as [Hy Hb].
      assert (N : exists y' b', b ++ [y] = y' :: b' /\ Forall (fun x => p x = false) (y' :: b')).
      { destruct b as [|z b]; [exists y, []; split; [reflexivity|now constructor]|]. exists z, (b ++ [y]). split; [reflexivity|].
        apply Forall_cons in Hb as [Hz Hb]. constructor; [exact Hz|]. apply Forall_app. split; [exact Hb|now constructor]. }
      destruct N as (y' & b' & En & Hb'). destruct (IH (a ++ [x]) b' y') as (l & k & E & Hp & Hk & H1 & H2).
      { apply Forall_app. split; [exact Ha|now constructor]. }
      { exact Hb'. }
      replace ((a ++ [x]) ++ y' :: b' ++ r) with (a ++ x :: b ++ y :: r) in E, Hp
        by (rewrite <- app_assoc; cbn [app]; do 2 f_equal; change (y' :: b' ++ r) with ((y' :: b') ++ r); rewrite <- En, <- app_assoc; reflexivity).
      rewrite <- En in E. replace (length ((a ++ [x]) ++ b ++ [y])) with (S (length (a ++ y :: b))) in E by (rewrite !length_app; cbn [length]; rewrite ?length_app; cbn [length]; lia).
      replace (length (a ++ [x])) with (S (length a)) in E by (rewrite length_app; cbn [length]; lia).
      exists l, k. split; [exact E|]. split; [|now repeat split]. rewrite Hp. apply Permutation_app_head.
      rewrite <- !Permutation_middle. apply Permutation_swap.
    + destruct (IH a (b ++ [x]) y Ha) as (l & k & E & Hp & Hk & H1 & H2).
      { apply Forall_cons in Hb as [Hy Hb]. constructor; [exact Hy|]. apply Forall_app. split; [exact Hb|now constructor]. }
      rewrite <- app_assoc in E, Hp. cbn [app] in E, Hp.
      replace (length (a ++ y :: b ++ [x])) with (S (length (a ++ y :: b))) in E by (rewrite !length_app; cbn [length]; rewrite length_app; cbn [length]; lia).
      now exists l, k.
Qed.
Lemma find_if_not_spec l : exists a r, l = a ++ r /\ find_if_not p l = length a /\ Forall (fun x => p x = true) a /\ (forall x r', r = x :: r' -> p x = false).
Proof.
  induction l as [|x l (a & r & -> & E & Ha & Hr)]; [exists [], []; repeat split; [constructor|discriminate]|]. cbn [find_if_not]. destruct (p x) eqn:Ex.
  - exists (x :: a), r. cbn [app length]. repeat split; [lia|now constructor|exact Hr].
  - exists [], (x :: a ++ r). repeat split; [constructor|]. intros y r' [= <- _]. exact Ex.
Qed.
Lemma partition_spec l : exists l' k, partition p l = (l', k) /\ l' ≡ₚ l /\ (k <= length l')%nat /\
  Forall (fun x => p x = true) (take k l') /\ Forall (fun x => p x = false) (drop k l').
Proof.
  destruct (find_if_not_spec l) as (a & r & -> & E & Ha & Hr). unfold partition. rewrite E. destruct r as [|y r].
  - rewrite app_nil_r, Nat.eqb_refl. eexists _, _. split; [reflexivity|]. split; [reflexivity|]. split; [lia|]. rewrite firstn_all, drop_all. now split.
  - replace (Nat.eqb (length a) (length (a ++ y :: r))) with false by (symmetry; apply Nat.eqb_neq; rewrite length_app; cbn [length]; lia).
    destruct (partition_loop_spec r a [] y Ha) as (l & k & El & H); [constructor; [now apply (Hr y r)|constructor]|].
    exists l, k. split; [|exact H]. rewrite <- El. cbn [app]. rewrite !length_app. cbn [length]. f_equal; lia.
Qed.
End partition.

(** ** Sorting

    [cmp] is a strict order in which elements that are not ordered are as good as equal. *)
Class strict_weak {A} (cmp : A -> A -> bool) : Prop := {
  cmp_irrefl x : cmp x x = false;
  cmp_trans x y z : cmp x y = true -> cmp y z = true -> cmp x z = true;
  cmp_incomp x y z : cmp x y = false -> cmp y z = false -> cmp x z = false }.

Section sorting.
Context {A : Type} (cmp : A -> A -> bool) {SW : strict_weak cmp}.
Definition not_after (x y : A) : Prop := cmp y x = false.
#[local] Set Default Proof Using "SW".
Lemma sorted_app l r : StronglySorted not_after l -> StronglySorted not_after r -> (forall x y, x ∈ l -> y ∈ r -> not_after x y) -> StronglySorted not_after (l ++ r).
Proof.
  intros Hl Hr H. induction Hl as [|x l Hl IH Hx]; [exact Hr|]. cbn [app]. constructor.
  - apply IH. intros y z Hy Hz. apply H; [now right|exact Hz].
  - apply Forall_app. split; [exact Hx|]. apply Forall_forall. intros z Hz. apply H; [now left|exact Hz].
Qed.
Lemma sorted_equal l pivot : Forall (fun x => cmp x pivot = false /\ cmp pivot x = false) l -> StronglySorted not_after l.
Proof.
  induction 1 as [|x l [H1 H2] Hl IH]; constructor; [exact IH|]. eapply Forall_impl; [exact Hl|]. intros y [H3 H4]. unfold not_after. now apply (cmp_incomp y pivot x).
Qed.
(** C35: Sorting ends, and gives the elements it was given, each not after the ones that
    follow it. *)
Theorem sort_correct l : exists l', sort cmp l = Ok l' /\ l' ≡ₚ l /\ StronglySorted not_after l'.
Proof.
  unfold sort. assert (H : forall fuel l, (length l < fuel)%nat -> exists l', quick_sort cmp fuel l = Ok l' /\ l' ≡ₚ l /\ StronglySorted not_after l');
    [|apply H; lia]. clear l. induction fuel as [|fuel IH]; intros l Hf; [lia|]. cbn [quick_sort].
  destruct (Nat.leb_spec (length l) 1) as [Hl|Hl].
  { exists l. split; [reflexivity|]. split; [reflexivity|]. destruct l as [|x [|y l]]; [constructor|constructor; constructor|cbn in Hl; lia]. }
  destruct (lookup_lt_is_Some_2 l (length l / 2)) as [pivot Hp]; [apply Nat.div_lt; lia|]. rewrite Hp.
  destruct (partition_spec (fun elem => cmp elem pivot) l) as (l1 & k1 & -> & P1 & K1 & L1 & R1).
  destruct (partition_spec (fun elem => negb (cmp pivot elem)) (drop k1 l1)) as (l2 & k2 & -> & P2 & K2 & L2 & R2).
  assert (T1 : take k1 l1 ++ drop k1 l1 = l1) by apply take_drop. assert (T2 : take k2 l2 ++ drop k2 l2 = l2) by apply take_drop.
  (* the pivot is in neither of the two parts that are sorted *)
  assert (Hin : pivot ∈ l1) by (rewrite P1; eapply list_elem_of_lookup_2; exact Hp).
  assert (Hin2 : pivot ∈ take k2 l2).
  { rewrite <- T1, elem_of_app in Hin. destruct Hin as [Hin|Hin].
    - rewrite Forall_forall in L1. specialize (L1 _ Hin). cbn in L1. now rewrite cmp_irrefl in L1.
    - rewrite <- P2, <- T2, elem_of_app in Hin. destruct Hin as [Hin|Hin]; [exact Hin|].
      rewrite Forall_forall in R2. specialize (R2 _ Hin). cbn in R2. now rewrite cmp_irrefl in R2. }
  assert (S1 : (length (take k1 l1) + (length (take k2 l2) + length (drop k2 l2)) = length l)%nat).
  { rewrite <- length_app, T2, P2, <- length_app, T1, P1. reflexivity. }
  assert (N : (0 < length (take k2 l2))%nat) by (destruct (take k2 l2); [inversion Hin2|cbn; lia]).
  destruct (IH (take k1 l1) ltac:(lia)) as (low & -> & Pl & Sl). destruct (IH (drop k2 l2) ltac:(lia)) as (high & -> & Ph & Sh). cbn [mbind outcome_bind].
  eexists. split; [reflexivity|]. split.
  - rewrite Pl, Ph, T2, P2, T1. exact P1.
  - assert (E2 : Forall (fun x => cmp x pivot = false) l2) by (rewrite P2; exact R1).
    assert (Em : Forall (fun x => cmp x pivot = false /\ cmp pivot x = false) (take k2 l2)).
    { apply Forall_forall. intros x Hx. split.
      - rewrite Forall_forall in E2. apply E2. rewrite <- T2. apply elem_of_app. now left.
      - rewrite Forall_forall in L2. now apply negb_true_iff, L2. }
    assert (Eh : forall x, x ∈ high -> cmp pivot x = true).
    { intros x Hx. rewrite Ph in Hx. rewrite Forall_forall in R2. now apply negb_false_iff, R2. }
    assert (El : forall x, x ∈ low -> cmp x pivot = true).
    { intros x Hx. rewrite Pl in Hx. rewrite Forall_forall in L1. now apply L1. }
    assert (Asym : forall x y, cmp x y = true -> cmp y x = false).
    { intros x y Hxy. destruct (cmp y x) eqn:Hyx; [|reflexivity]. pose proof (cmp_trans _ _ _ Hxy Hyx) as C. now rewrite cmp_irrefl in C. }
    rewrite Forall_forall in Em.
    apply sorted_app; [exact Sl|apply sorted_app; [|exact Sh|]|].
    + eapply sorted_equal. apply Forall_forall. exact Em.
    + intros x y Hx Hy. unfold not_after. destruct (Em x Hx) as [_ Ex]. eapply cmp_incomp; [|exact Ex]. now apply Asym, Eh.
    + intros x y Hx Hy. unfold not_after. apply elem_of_app in Hy as [Hy|Hy].
      * destruct (Em y Hy) as [Ey _]. eapply cmp_incomp; [exact Ey|]. now apply Asym, El.
      * apply Asym. exact (cmp_trans _ _ _ (El x Hx) (Eh y Hy)).
Qed.
End sorting.

(** ** Binary search *)
Section search.
Context {A : Type} (before : A -> bool).
(** The first position whose element is not before the value. *)
Lemma lower_bound_correct (l : list A) : (forall i j x y, (i <= j)%nat -> l !! i = Some x -> l !! j = Some y -> before y = true -> before x = true) ->
  exists k, lower_bound before l = Ok k /\ (k <= length l)%nat /\
    (forall i x, (i < k)%nat -> l !! i = Some x -> before x = true) /\ (forall i x, (k <= i)%nat -> l !! i = Some x -> before x = false).
Proof.
  intros Hm. unfold lower_bound.
  assert (H : forall fuel first count, (count < fuel)%nat -> (first + count <= length l)%nat ->
    (forall i x, (i < first)%nat -> l !! i = Some x -> before x = true) -> (forall i x, (first + count <= i)%nat -> l !! i = Some x -> before x = false) ->
    exists k, lower_bound_loop fuel before l first count = Ok k /\ (k <= length l)%nat /\
      (forall i x, (i < k)%nat -> l !! i = Some x -> before x = true) /\ (forall i x, (k <= i)%nat -> l !! i = Some x -> before x = false)).
  2: { apply H; [lia|lia|lia|]. intros i x Hi Hx. apply lookup_lt_Some in Hx. lia. }
  induction fuel as [|fuel IH]; intros first count Hf Hl Hb Ha; [lia|]. cbn [lower_bound_loop]. destruct (Nat.ltb_spec 0 count) as [Hc|Hc].
  - set (step := (count / 2)%nat). assert (Hs : (step < count)%nat) by (apply Nat.div_lt; lia). clearbody step.
    destruct (lookup_lt_is_Some_2 l (first + step)) as [x Hx]; [lia|]. rewrite Hx. destruct (before x) eqn:Ex.
    + apply IH; [lia|lia| |].
      * intros i y Hi Hy. apply (Hm i (first + step)%nat y x); [lia|exact Hy|exact Hx|exact Ex].
      * intros i y Hi Hy. apply (Ha i); [lia|exact Hy].
    + apply IH; [lia|lia|exact Hb|]. intros i y Hi Hy. destruct (before y) eqn:Ey; [|reflexivity].
      rewrite <- Ex. symmetry. apply (Hm (first + step)%nat i x y); [lia|exact Hx|exact Hy|exact Ey].
  - exists first. split; [reflexivity|]. split; [lia|]. split; [exact Hb|]. intros i x Hi. apply Ha. lia.
Qed.
End search.

#[export] Instance ltb_strict_weak : strict_weak Z.ltb.
Proof. constructor; intros; lia. Qed.
Lemma sort_correct_witness : exists l', sort Z.ltb [3; 1; 2; 3; 0] = Ok l' /\ l' = [0; 1; 2; 3; 3].
Proof.
  destruct (sort_correct Z.ltb [3; 1; 2; 3; 0]) as (l' & E & _). exists l'. split; [exact E|]. vm_compute in E. now injection E as <-.
Defined.
