(* ===== verification/Shell.v ===== *)
(** * The shell (shell/shell.cpp, commands.cpp, shell.h)

    Words and lines are lists of characters.  The shell is its global variables and its
    terminal; the files are behind [file_calls], the other system calls behind
    [shell_calls].  Handles that go out of scope are released without an effect that is
    modelled, streams are closed. *)
From S2P Require Import Prelude Ctype Time Terminal Input Vfs Streams Directory StdioFile Edit Algorithm.
From Stdlib Require Ascii String.
Import String.StringSyntax.
#[local] Delimit Scope string_scope with string.
#[local] Open Scope Z_scope.

Definition str (s : String.string) : list Z := map (fun a => Z.of_N (Ascii.N_of_ascii a)) (String.list_ascii_of_string s).
Arguments str s%_string.
Definition newline : list Z := [10].
Definition WAIT_FOR_PROCESS : Z := 0x01.

(** ** String views (cpplib/include/string_view, char_traits.h, charconv) *)
Fixpoint traits_compare (n : nat) (a b : list Z) : Z :=
  match n, a, b with
  | Datatypes.S n, x :: a, y :: b => if s8 x <? s8 y then -1 else if s8 y <? s8 x then 1 else traits_compare n a b
  | _, _, _ => 0
  end.
Definition sv_compare (a b : list Z) : Z :=
  let result := traits_compare (Nat.min (length a) (length b)) a b in
  if negb (result =? 0) then result
  else if (length a <? length b)%nat then -1 else if (length b <? length a)%nat then 1 else 0.
Definition sv_lt (a b : list Z) : bool := sv_compare a b <? 0.
Definition sv_eq (a b : list Z) : bool := if negb (Nat.eqb (length a) (length b)) then false else sv_compare a b =? 0.
Fixpoint find_char (c : Z) (v : list Z) : option nat :=
  match v with [] => None | x :: v => if c =? x then Some O else Datatypes.S <$> find_char c v end.
(** [find_first_of(c, pos)] as an index. *)
Definition find_from (c : Z) (v : list Z) (pos : nat) : option nat := Nat.add pos <$> find_char c (drop pos v).
(** [find_last_of(c)]: the character in front of the text is read when [c] is not found. *)
Definition find_last (c : Z) (v : list Z) : option nat := (fun k => length v - 1 - k)%nat <$> find_char c (rev v).
Definition digits_value : Z -> Z -> Z := fun n c => u32 (n * 10 + (c - 48)).
Fixpoint digits_loop (v : list Z) (n : Z) : outcome Z :=
  match v with
  | [] => Ok n
  | c :: v' => d ← isdigit (s8 c); if d : bool then digits_loop v' (digits_value n c) else Ok n
  end.
(** [std::from_chars]; the value stays as it is for a text of white space. *)
Fixpoint from_chars (v : list Z) (value : Z) : outcome Z :=
  match v with
  | [] => digits_loop [] 0
  | c :: v' => b ← isspace (s8 c); if b : bool then match v' with [] => Ok value | _ => from_chars v' value end else digits_loop v 0
  end.
(** [std::to_string] of a number of at most 64 bits. *)
Definition to_string (value : Z) : outcome (list Z) := let n := num_digits 20 value in put_digits 20 value n (repeat 0 (Z.to_nat n)).

(** ** Words of a line *)
Fixpoint tokenize_loop (fuel first : nat) (input : list Z) (delim : Z) : outcome (list (list Z)) :=
  match fuel with
  | O => Fault OutOfFuel
  | Datatypes.S fuel =>
    if (first <? length input)%nat then
      let second := find_from delim input first in
      let word := take (default (length input) second - first) (drop first input) in
      let keywords := if bool_decide (second = Some first) then [] else [word] in
      match second with
      | None => Ok keywords
      | Some second => more ← tokenize_loop fuel (second + 1) input delim; Ok (keywords ++ more)
      end
    else Ok []
  end.
Definition tokenize (input : list Z) (delim : Z) : outcome (list (list Z)) := tokenize_loop (Datatypes.S (length input)) 0 input delim.

(** ** The commands' names *)
Inductive builtin := cmd_echo | cmd_time | cmd_cls | cmd_cd | cmd_dir | cmd_copy | cmd_delete | cmd_type | cmd_mkdir | cmd_mem | cmd_mode | cmd_help.
Record command := mk_command { name : list Z; usage : list Z; description : list Z; min_args : nat; func : builtin }.
Record alias := mk_alias { alias_name : list Z; alias_of : list Z }.
Definition sorted_by {A} (cmp : A -> A -> bool) (l : list A) : list A := match sort cmp l with Ok l => l | Fault _ => [] end.
Definition aliases : list alias := Eval vm_compute in
  sorted_by (fun a b => sv_lt (alias_name a) (alias_name b))
    [mk_alias (str "clear") (str "cls"); mk_alias (str "ls") (str "dir"); mk_alias (str "cp") (str "copy");
     mk_alias (str "cat") (str "type"); mk_alias (str "del") (str "delete"); mk_alias (str "rm") (str "delete")].
Definition builtin_commands : list command := Eval vm_compute in
  sorted_by (fun a b => sv_lt (name a) (name b))
    [mk_command (str "echo") (str "arg") (str "Writes text to the terminal") 2 cmd_echo;
     mk_command (str "time") [] (str "Gets the current time") 1 cmd_time;
     mk_command (str "cls") [] (str "Clears the terminal") 1 cmd_cls;
     mk_command (str "cd") (str "directory") (str "Changes the current directory") 2 cmd_cd;
     mk_command (str "dir") (str "[directory]") (str "Lists a directory") 1 cmd_dir;
     mk_command (str "copy") (str "source destination") (str "Copies a file") 3 cmd_copy;
     mk_command (str "delete") (str "target") (str "Deletes a file") 2 cmd_delete;
     mk_command (str "type") (str "target") (str "Writes a file to the terminal") 2 cmd_type;
     mk_command (str "mkdir") (str "name") (str "Creates a new directory") 2 cmd_mkdir;
     mk_command (str "mem") [] (str "Shows the amount of free memory") 1 cmd_mem;
     mk_command (str "mode") (str "width height") (str "Changes the display mode of the terminal") 3 cmd_mode;
     mk_command (str "help") [] (str "Displays the help for the shell") 1 cmd_help].
Definition longest_name_len : nat := Eval vm_compute in fold_left (fun n c => Nat.max n (length (name c))) builtin_commands O.
(** The two searches of [run_command]. *)
Definition find_in {A} (key : A -> list Z) (l : list A) (keyword : list Z) : outcome (option A) :=
  k ← lower_bound (fun c => sv_lt (key c) keyword) l;
  Ok (c ← l !! k; if sv_eq (key c) keyword then Some c else None).
Definition lookup_command (keyword : list Z) : outcome (option command) :=
  a ← find_in alias_name aliases keyword;
  find_in name builtin_commands (match a with Some a => alias_of a | None => keyword end).
Definition drive_names : list (list Z) := [str "rd0"; str "fd0"; str "fd1"].
Definition drive_index_of (drive_cmd : list Z) : option nat := fst <$> list_find (fun n => sv_eq n drive_cmd = true) drive_names.

(** ** The program *)
Record details := mk_details { fi_size : Z; fi_flags : Z; fi_created : Z; fi_modified : Z; fi_path : list Z }.
(** The system calls for other things than the contents of files. *)
Class shell_calls (S : Type) {FC : file_calls S} := {
  get_root_directory : Z -> S -> outcome (option fc_handle * S);
  open_dir_handle : option fc_handle -> Z -> S -> outcome (option fc_dir * S);
  get_file_in_dir : option fc_dir -> Z -> S -> outcome (option fc_handle * S);
  file_details : fc_handle -> S -> outcome (Z * details);
  spawn_process : fc_handle -> list Z -> Z -> S -> outcome S;
  master_time : S -> Z; utc_offset : S -> Z; get_free_memory : S -> Z;
  request_mode : Z -> Z -> S -> Z * (Z * Z * Z) * S;
  display_memory : S -> list text_char }.

Record shell (S : Type) {FC : file_calls S} := mk_shell { s_term : terminal; current_path : list Z; command_history : list (list Z);
  current_directory : option (fc_handle (S := S)); drive_index : Z; cursor_x : Z; cursor_y : Z }.
Arguments mk_shell {S FC}. Arguments s_term {S FC}. Arguments current_path {S FC}. Arguments command_history {S FC}.
Arguments current_directory {S FC}. Arguments drive_index {S FC}. Arguments cursor_x {S FC}. Arguments cursor_y {S FC}.

Section shell_.
Context {S : Type} {FC : file_calls S} {SC : shell_calls S}.
Notation sh := (shell S).
Definition set_term (t : terminal) (s : sh) : sh := mk_shell t (current_path s) (command_history s) (current_directory s) (drive_index s) (cursor_x s) (cursor_y s).
Definition set_place (path : list Z) (dir : option fc_handle) (drive : Z) (s : sh) : sh := mk_shell (s_term s) path (command_history s) dir drive (cursor_x s) (cursor_y s).
Definition set_history (h : list (list Z)) (s : sh) : sh := mk_shell (s_term s) (current_path s) h (current_directory s) (drive_index s) (cursor_x s) (cursor_y s).
Definition set_mouse (x y : Z) (s : sh) : sh := mk_shell (s_term s) (current_path s) (command_history s) (current_directory s) (drive_index s) x y.

(** [print_strings] of texts, one after the other; [print_chars]. *)
Fixpoint print_strings (l : list (list Z)) (s : sh) : outcome sh :=
  match l with [] => Ok s | t :: l => term ← print t (s_term s); print_strings l (set_term term s) end.
Definition print_number (n : Z) (s : sh) : outcome sh := t ← m_to_string n; print_strings [t] s.
Definition print_chars (c : Z) (num : nat) (s : sh) : outcome sh := t ← print_repeated c num (s_term s); Ok (set_term t s).
Definition padded_print (text : list Z) (pad_char : Z) (width : nat) (s : sh) : outcome sh :=
  s ← print_strings [text] s;
  if (length text <? width)%nat then print_chars pad_char (width - length text) s else Ok s.
Definition padded_number (num pad_char : Z) (width : nat) (s : sh) : outcome sh :=
  text ← to_string num;
  s ← (if (length text <? width)%nat then print_chars pad_char (width - length text) s else Ok s);
  print_strings [text] s.
Definition print_date (t : tm) (s : sh) : outcome sh :=
  s ← padded_number (u32 (tm_mon t + 1)) 48 2 s;
  s ← print_strings [str "-"] s;
  s ← padded_number (u32 (tm_mday t)) 48 2 s;
  s ← print_strings [str "-"] s;
  padded_number (u32 (tm_year t + 1900)) 48 4 s.
Definition clear_console (s : sh) : outcome sh :=
  s ← print_strings [27 :: str "[2J" ++ 27 :: str "[1;1H"] s;
  t ← clear (s_term s); Ok (set_term t s).

(** ** Listing a directory *)
(** The part of the path behind the last slash. *)
Definition base_name (path : list Z) : list Z := match find_last 47 path with None => path | Some slash => drop (slash + 1) path end.
Definition print_entry (f : details) (off : Z) (s : sh) : outcome sh :=
  let name := base_name (fi_path f) in
  s ← print_strings [str " "] s;
  s ← (if has (fi_flags f) IS_DIR then
         s ← padded_print name 32 9 s; print_strings [str " (DIR)     -"] s
       else
         let dot := find_char 46 name in
         s ← padded_print (take (default (length name) dot) name) 32 10 s;
         s ← match dot with
             | Some dot => s ← print_strings [str " "] s; s ← padded_print (drop (dot + 1) name) 32 3 s; print_strings [str " "] s
             | None => print_chars 32 5 s
             end;
         padded_number (fi_size f) 32 5 s);
  s ← print_chars 32 2 s;
  t ← localtime off (fi_created f); s ← print_date t s;
  s ← print_chars 32 2 s;
  t ← localtime off (fi_modified f); s ← print_date t s;
  print_strings [newline] s.
(** The number of the handle that is not there, and the bytes of the files. *)
Fixpoint list_loop (fuel : nat) (dir : option fc_dir) (i total_bytes : Z) (s : sh) (w : S) : outcome (Z * Z * sh * S) :=
  match fuel with
  | O => Fault OutOfFuel
  | Datatypes.S fuel =>
    '(h, w) ← get_file_in_dir dir i w;
    match h with
    | None => Ok (i, total_bytes, s, w)
    | Some h =>
      '(err, f) ← file_details h w;
      if negb (err =? 0) then list_loop fuel dir (add32 i 1) total_bytes s w else
      s ← print_entry f (utc_offset w) s;
      list_loop fuel dir (add32 i 1) (u32 (total_bytes + fi_size f)) s w
    end
  end.
Definition list_directory (fuel : nat) (dir_handle : option fc_handle) (s : sh) (w : S) : outcome (sh * S) :=
  match dir_handle with
  | None => s ← print_strings [str "Invalid Directory" ++ newline] s; Ok (s, w)
  | Some _ =>
    '(dir, w) ← open_dir_handle dir_handle 0 w;
    match dir with
    | None => s ← print_strings [str "Something didn't work" ++ newline] s; Ok (s, w)
    | Some _ =>
      s ← print_strings [newline ++ str " Name      Type  Size   Created     Modified" ++ newline ++ newline] s;
      '(i, total_bytes, s, w) ← list_loop fuel dir 0 0 s w;
      s ← print_strings [newline ++ str " "] s;
      s ← padded_number i 32 5 s;
      s ← print_strings [str " Files   "] s;
      s ← padded_number total_bytes 32 5 s;
      s ← print_strings [str " Bytes" ++ newline ++ newline] s;
      Ok (s, w)
    end
  end.

(** ** Files by name *)
Definition select_drive (index : Z) (s : sh) (w : S) : outcome (sh * S) :=
  n ← to_string index;
  '(h, w) ← get_root_directory index w;
  Ok (set_place (n ++ [58]) h index s, w).
Definition find_file_in_dir (dir : option fc_dir) (name : list Z) (w : S) : outcome (option (fc_handle * details) * S) :=
  '(h, w) ← find_path dir name 0 0 w;
  match h with
  | None => Ok (None, w)
  | Some h =>
    '(err, f) ← file_details h w;
    Ok (if (err =? 0) && negb (has (fi_flags f) IS_DIR) then Some (h, f) else None, w)
  end.
(** [open] relative to a directory. *)
Definition open_in (dir : option fc_dir) (path : list Z) (mode : Z) (w : S) : outcome (option fc_stream * S) :=
  '(h, w) ← find_path dir path mode 0 w;
  match h with Some h => open_file_handle h mode w | None => Ok (None, w) end.
(** [make_unique<char[]>(size)] filled by [read]: the bytes behind what was read are 0. *)
Definition read_whole (size : Z) (st : fc_stream) (w : S) : outcome (list Z * S) :=
  '(_, data, w) ← read 0 (u32 size) (Some st) w;
  Ok (data ++ repeat 0 (Z.to_nat (u32 size) - length data), w).

(** ** The commands: the result, the shell and the system *)
Definition do_cd (path : list Z) (s : sh) (w : S) : outcome (Z * sh * S) :=
  '(dir, w) ← open_dir_handle (current_directory s) 0 w;
  '(h, w) ← find_path dir path 0 0 w;
  match h with
  | None => s ← print_strings [str "Could not find path "; path; newline] s; Ok (-1, s, w)
  | Some h =>
    '(err, f) ← file_details h w;
    if negb (err =? 0) || negb (has (fi_flags f) IS_DIR) then
      s ← print_strings [path; str " is not a valid directory" ++ newline] s; Ok (-1, s, w)
    else Ok (1, set_place (fi_path f) (Some h) (drive_index s) s, w)
  end.
Definition do_copy (src dst : list Z) (s : sh) (w : S) : outcome (Z * sh * S) :=
  '(dir, w) ← open_dir_handle (current_directory s) 0 w;
  '(src_handle, w) ← find_file_in_dir dir src w;
  match src_handle with
  | None => s ← print_strings [str "Could not find source file "; src; newline] s; Ok (-1, s, w)
  | Some (src_handle, file) =>
    '(src_stream, w) ← open_file_handle src_handle 0 w;
    match src_stream with
    | None => s ← print_strings [str "Could not find open source file "; src; newline] s; Ok (-1, s, w)
    | Some src_stream =>
      '(dst_stream, w) ← open_in dir dst (Z.lor FILE_WRITE FILE_CREATE) w;
      match dst_stream with
      | None => s ← print_strings [str "Could not create destination file "; dst; newline] s; '(_, w) ← close src_stream w; Ok (-1, s, w)
      | Some dst_stream =>
        '(dataBuf, w) ← read_whole (fi_size file) src_stream w;
        '(_, dst_stream, w) ← write 0 dataBuf dst_stream w;
        '(_, w) ← close dst_stream w; '(_, w) ← close src_stream w;
        Ok (0, s, w)
      end
    end
  end.
Definition do_delete (path : list Z) (s : sh) (w : S) : outcome (Z * sh * S) :=
  '(dir, w) ← open_dir_handle (current_directory s) 0 w;
  '(h, w) ← find_path dir path 0 0 w;
  match h with
  | None => s ← print_strings [str "Could not find file "; path; newline] s; Ok (-1, s, w)
  | Some h =>
    '(err, w) ← delete_file h w;
    s ← (if negb (err =? 0) then print_strings [str "Could not delete file "; path; newline] s else Ok s);
    Ok (0, s, w)
  end.
Definition do_type (path : list Z) (s : sh) (w : S) : outcome (Z * sh * S) :=
  '(dir, w) ← open_dir_handle (current_directory s) 0 w;
  '(h, w) ← find_file_in_dir dir path w;
  '(st, w) ← match h with Some (h, _) => open_file_handle h 0 w | None => Ok (None, w) end;
  match h, st with
  | Some (_, file), Some st =>
    '(dataBuf, w) ← read_whole (fi_size file) st w;
    s ← print_strings [dataBuf; newline] s;
    '(_, w) ← close st w; Ok (0, s, w)
  | _, _ => s ← print_strings [str "Could not open file "; path; newline] s; Ok (-1, s, w)
  end.
Definition do_mkdir (path : list Z) (s : sh) (w : S) : outcome (Z * sh * S) :=
  '(dir, w) ← open_dir_handle (current_directory s) 0 w;
  '(h, w) ← find_path dir path FILE_CREATE IS_DIR w;
  Ok (match h with Some _ => 0 | None => -1 end, s, w).
(** One line of [mem]: nothing for none. *)
Definition print_unit (n : Z) (unit_ : list Z) (s : sh) : outcome sh :=
  if n =? 0 then Ok s else s ← print_strings [[9]] s; s ← print_number n s; print_strings [unit_ ++ newline] s.
Definition do_mem (s : sh) (w : S) : outcome (Z * sh * S) :=
  let mem := get_free_memory w in
  s ← print_strings [str "Free memory "] s; s ← print_number mem s; s ← print_strings [str ":" ++ newline] s;
  s ← print_unit (mem / 0x40000000 mod 0x400) (str " GiB(s)") s;
  s ← print_unit (mem / 0x100000 mod 0x400) (str " MiB(s)") s;
  s ← print_unit (mem / 0x400 mod 0x400) (str " KiB(s)") s;
  s ← print_unit (mem mod 0x400) (str " B(s)") s;
  Ok (0, s, w).
Definition do_mode (w_arg h_arg : list Z) (s : sh) (w : S) : outcome (Z * sh * S) :=
  width ← from_chars w_arg 0; height ← from_chars h_arg 0;
  let '(answer, w) := request_mode width height w in
  let '(err, t) := set_mode (fun _ _ => answer) (display_memory w) width height (s_term s) in
  let s := set_term t s in
  if err =? 0 then s ← clear_console s; Ok (0, s, w)
  else s ← print_strings [str "Unable to set mode" ++ newline] s; Ok (-1, s, w).
Fixpoint print_lines {A} (f : A -> sh -> outcome sh) (l : list A) (s : sh) : outcome sh :=
  match l with [] => Ok s | x :: l => s ← f x s; print_lines f l s end.
Definition print_help (s : sh) : outcome sh :=
  s ← print_lines (fun c s => s ← print_strings [str " "] s; s ← padded_print (name c) 32 longest_name_len s;
        print_strings [str " - "; description c; newline] s) builtin_commands s;
  s ← print_lines (fun a s => s ← print_strings [str " "] s; s ← padded_print (alias_name a) 32 longest_name_len s;
        print_strings [str " - Alias of "; alias_of a; newline] s) aliases s;
  print_strings [str " Use the command with -help or /? for more info" ++ newline] s.
Definition print_command_help (cmd : list Z) (c : command) (s : sh) : outcome sh := print_strings [str "Usage: "; cmd; str " "; usage c; newline] s.

Definition run_builtin (fuel : nat) (b : builtin) (keywords : list (list Z)) (s : sh) (w : S) : outcome (Z * sh * S) :=
  let arg i := nth i keywords [] in
  match b with
  | cmd_echo => s ← print_strings [arg 1%nat; newline] s; Ok (0, s, w)
  | cmd_time => s ← print_number (u32 (master_time w)) s; s ← print_strings [newline] s; Ok (0, s, w)
  | cmd_cls => s ← clear_console s; Ok (0, s, w)
  | cmd_cd => do_cd (arg 1%nat) s w
  | cmd_dir =>
    '(s, w) ← (if (1 <? length keywords)%nat then
        '(dir, w) ← open_dir_handle (current_directory s) 0 w;
        '(h, w) ← find_path dir (arg 1%nat) 0 0 w;
        list_directory fuel h s w
      else list_directory fuel (current_directory s) s w);
    Ok (0, s, w)
  | cmd_copy => do_copy (arg 1%nat) (arg 2%nat) s w
  | cmd_delete => do_delete (arg 1%nat) s w
  | cmd_type => do_type (arg 1%nat) s w
  | cmd_mkdir => do_mkdir (arg 1%nat) s w
  | cmd_mem => do_mem s w
  | cmd_mode => do_mode (arg 1%nat) (arg 2%nat) s w
  | cmd_help => s ← print_help s; Ok (0, s, w)
  end.
(** [None]: not a command. *)
Definition run_command (fuel : nat) (keyword : list Z) (args : list (list Z)) (s : sh) (w : S) : outcome (option Z * sh * S) :=
  c ← lookup_command keyword;
  match c with
  | None => Ok (None, s, w)
  | Some c =>
    let cmd := nth 0 args [] in
    if Nat.eqb (length args) 2 && (sv_eq (nth 1 args []) (str "-help") || sv_eq (nth 1 args []) (str "/?")) then
      s ← print_command_help cmd c s; Ok (Some 0, s, w)
    else if (min_args c <=? length args)%nat then
      '(r, s, w) ← run_builtin fuel (func c) args s w; Ok (Some r, s, w)
    else
      s ← print_strings [str "Incorrect number of arguments" ++ newline] s;
      s ← print_command_help cmd c s; Ok (Some (-1), s, w)
  end.

(** ** A line *)
Definition ends_with_char (c : Z) (v : list Z) : bool := match last v with Some d => d =? c | None => false end.
Definition drive_command (drive_cmd : list Z) (keywords : list (list Z)) (s : sh) (w : S) : outcome (sh * S) :=
  match drive_index_of drive_cmd with
  | Some it => select_drive (Z.of_nat it) s w
  | None =>
    if sv_eq (str "drive") drive_cmd && (1 <? length keywords)%nat then
      drive ← from_chars (nth 1 keywords []) 0; select_drive drive s w
    else Ok (s, w)
  end.
(** The words, each ended by 0. *)
Definition command_buffer (keywords : list (list Z)) : list Z := concat (map (fun k => k ++ [0]) keywords).
Fixpoint execute_line (depth fuel : nat) (current_line : list Z) (s : sh) (w : S) : outcome (Z * sh * S) :=
  match depth with
  | O => Fault OutOfFuel
  | Datatypes.S depth =>
    keywords ← tokenize current_line 32;
    match keywords with
    | [] => Ok (0, s, w)
    | keyword :: _ =>
      '(r, s, w) ← run_command fuel keyword keywords s w;
      match r with
      | Some r => Ok (r, s, w)
      | None =>
        if ends_with_char 58 keyword then
          '(s, w) ← drive_command (take (length keyword - 1) keyword) keywords s w; Ok (1, s, w)
        else
          '(dir, w) ← open_dir_handle (current_directory s) 0 w;
          '(f, w) ← find_file_in_dir dir keyword w;
          let not_found (s : sh) (w : S) : outcome (Z * sh * S) := s ← print_strings [str "File or Command not found" ++ newline] s; Ok (-1, s, w) in
          match f with
          | None => not_found s w
          | Some (h, file) =>
            match find_char 46 (fi_path file) with
            | None => not_found s w
            | Some dot =>
              let extension := drop (dot + 1) (fi_path file) in
              elf ← filesystem_names_identical (str "elf") extension;
              if elf : bool then
                let mode := if ends_with_char 38 (default [] (last keywords)) then 0 else WAIT_FOR_PROCESS in
                w ← spawn_process h (command_buffer keywords) mode w; Ok (0, s, w)
              else
                bat ← filesystem_names_identical (str "bat") extension;
                if bat : bool then
                  '(st, w) ← open_in dir keyword 0 w;
                  match st with
                  | None => s ← print_strings [str "Could not open file "; keyword; newline] s; Ok (-1, s, w)
                  | Some st =>
                    '(dataBuf, w) ← read_whole (fi_size file) st w;
                    lines ← tokenize dataBuf 10;
                    '(s, w) ← (fix run (l : list (list Z)) (s : sh) (w : S) : outcome (sh * S) :=
                       match l with [] => Ok (s, w) | ln :: l => '(_, s, w) ← execute_line depth fuel ln s w; run l s w end) lines s w;
                    '(_, w) ← close st w;
                    Ok (0, s, w)
                  end
                else not_found s w
            end
          end
      end
    end
  end.

(** ** Editing a line *)
Record line_edit := mk_edit { input : list Z; history_index : Z; char_index : Z }.
(** [std::string_view{input}.substr(char_index)] and [input.erase], [input.insert]. *)
Definition rest_of (e : line_edit) : list Z := drop (Z.to_nat (char_index e)) (input e).
Definition size_of (e : line_edit) : Z := Z.of_nat (length (input e)).
Definition set_mouse_color (color : Z) (s : sh) : outcome sh :=
  let cell := cursor_x s + cursor_y s * t_width (s_term s) in
  c ← fetch (t_screen (s_term s)) cell;
  l ← store (t_screen (s_term s)) cell (mk_char (ch c) (Z.lor (u8 (Z.land (attr c) 0x0F)) (u8 (Z.shiftl color 4))));
  Ok (set_term (set_screen l (s_term s)) s).
Definition clamp (v lo hi : Z) : Z := if v <? lo then lo else if hi <? v then hi else v.
Definition move_mouse (dx dy : Z) (s : sh) : outcome sh :=
  s ← set_mouse_color 0 s;
  set_mouse_color 7 (set_mouse (clamp (s32 (cursor_x s + dx)) 0 (s32 (t_width (s_term s)) - 1)) (clamp (s32 (cursor_y s + dy)) 0 (s32 (t_height (s_term s)) - 1)) s).
Definition at_cursor (f : Z -> Z) (s : sh) : sh := set_term (set_cursor (u32 (f (t_cursor_pos (s_term s)))) (s_term s)) s.
Definition key_right (e : line_edit) (s : sh) : outcome (line_edit * sh) :=
  if char_index e <? size_of e then Ok (mk_edit (input e) (history_index e) (char_index e + 1), at_cursor (fun p => p + 1) s) else Ok (e, s).
Definition key_left (e : line_edit) (s : sh) : outcome (line_edit * sh) :=
  if 0 <? char_index e then Ok (mk_edit (input e) (history_index e) (char_index e - 1), at_cursor (fun p => p - 1) s) else Ok (e, s).
Definition key_history (up : bool) (e : line_edit) (s : sh) : outcome (line_edit * sh) :=
  let n := Z.of_nat (length (command_history s)) in
  if n =? 0 then Ok (e, s) else
  let s := at_cursor (fun p => p + size_of e - char_index e) s in
  t ← delete_chars (size_of e) (s_term s);
  let i := if up then if 0 <? history_index e then history_index e - 1 else history_index e
           else if history_index e <? n - 1 then history_index e + 1 else history_index e in
  l ← fetch (command_history s) i;
  s ← print_strings [l] (set_term t s);
  Ok (mk_edit l i (Z.of_nat (length l)), s).
Definition key_backspace (e : line_edit) (s : sh) : outcome (line_edit * sh) :=
  if 0 <? char_index e then
    let i := char_index e - 1 in
    let e := mk_edit (delete (Z.to_nat i) (input e)) (history_index e) i in
    let cursor := t_cursor_pos (s_term s) in
    t ← delete_chars 1 (set_cursor (u32 (cursor + size_of e - i)) (s_term s));
    let cursor := u32 (cursor - 1) in
    s ← print_strings [rest_of e] (set_term (set_cursor cursor t) s);
    Ok (e, set_term (set_cursor cursor (s_term s)) s)
  else Ok (e, s).
Definition key_char (in_char : Z) (e : line_edit) (s : sh) : outcome (line_edit * sh) :=
  s ← print_strings [[in_char]] s;
  let i := Z.to_nat (char_index e) in
  let e := mk_edit (take i (input e) ++ in_char :: drop i (input e)) (history_index e) (char_index e + 1) in
  let cursor := t_cursor_pos (s_term s) in
  s ← print_strings [rest_of e] s;
  Ok (e, set_term (set_cursor cursor (s_term s)) s).
(** One event; [true] when the line is complete. *)
Definition command_event (a : arrival) (e : line_edit) (s : sh) : outcome (bool * line_edit * sh) :=
  let ev := arr_event a in
  if negb (device_index ev =? 0) then Ok (false, e, s) else
  match ev_type ev with
  | AXIS_MOTION =>
    s ← (if control_index ev =? 0 then move_mouse (ev_data ev) 0 s else if control_index ev =? 1 then move_mouse 0 (ev_data ev) s else Ok s);
    Ok (false, e, s)
  | KEY_DOWN =>
    let key := ev_data ev in
    let next (r : outcome (line_edit * sh)) := '(e, s) ← r; Ok (false, e, s) in
    if is_vk key VK_RIGHT then next (key_right e s)
    else if is_vk key VK_LEFT then next (key_left e s)
    else if is_vk key VK_UP || is_vk key VK_DOWN then next (key_history (is_vk key VK_UP) e s)
    else
      in_char ← get_ascii_from_vk true key (arr_keys a);
      if in_char =? 8 then next (key_backspace e s)
      else if in_char =? 10 then s ← print_strings [[in_char]] s; Ok (true, e, s)
      else if negb (in_char =? 0) then next (key_char in_char e s)
      else Ok (false, e, s)
  | _ => Ok (false, e, s)
  end.
(** [None]: no event has arrived that ends the line. *)
Fixpoint edit_loop (evs : list arrival) (e : line_edit) (s : sh) : outcome (option (list arrival * line_edit) * line_edit * sh) :=
  match evs with
  | [] => Ok (None, e, s)
  | a :: evs =>
    '(complete, e, s) ← command_event a e s;
    if complete : bool then Ok (Some (evs, e), e, s) else edit_loop evs e s
  end.
Definition get_command (depth fuel : nat) (evs : list arrival) (s : sh) (w : S) : outcome (option (Z * list arrival) * sh * S) :=
  '(r, _, s) ← edit_loop evs (mk_edit [] (Z.of_nat (length (command_history s))) 0) s;
  match r with
  | None => Ok (None, s, w)
  | Some (evs, e) =>
    let s := set_history (command_history s ++ [input e]) s in
    '(r, s, w) ← execute_line depth fuel (input e) s w; Ok (Some (r, evs), s, w)
  end.

(** ** The start *)
Definition prompt (s : sh) : outcome sh :=
  let drive := if drive_index s <? Z.of_nat (length drive_names) then nth (Z.to_nat (drive_index s)) drive_names [] else str "?" in
  print_strings [27 :: str "[32;22m"; drive; 27 :: str "[37m "; current_path s; str "]"] s.
Definition splash_text (width : Z) (s : sh) : outcome sh :=
  let pad := Z.to_nat (u32 (width / 2 - 6)) in
  s ← print_chars 42 3 s; s ← print_chars 32 pad s;
  s ← print_strings [str "JSD/OS"] s;
  s ← print_chars 32 pad s; print_chars 42 3 s.
(** [main] up to its loop. *)
Definition main (s : sh) (w : S) : outcome (sh * S) :=
  t ← clear (s_term s); let s := set_term t s in
  s ← splash_text (t_width (s_term s)) s;
  let t_time := master_time w in
  tm ← gmtime t_time; a ← asctime tm; s ← print_strings [str "UTC Time: "; a; newline] s;
  s ← print_strings [str "EPOCH TIME: "] s; s ← print_number (u32 t_time) s; s ← print_strings [newline] s;
  c ← ctime (utc_offset w) t_time; s ← print_strings [str "EST Time: "; c; newline] s;
  '(s, w) ← select_drive (drive_index s) s w;
  match current_directory s with
  | Some _ => Ok (s, w)
  | None =>
    s ← print_strings [str "Could not mount root directory for drive "] s; s ← print_number (drive_index s) s;
    n ← fetch drive_names (drive_index s);
    s ← print_strings [str " "; n; newline] s; Ok (s, w)
  end.
(** [n] turns of the loop, as long as events arrive. *)
Fixpoint command_loop (n depth fuel : nat) (evs : list arrival) (s : sh) (w : S) : outcome (sh * S) :=
  match n with
  | O => Ok (s, w)
  | Datatypes.S n =>
    s ← prompt s;
    '(r, s, w) ← get_command depth fuel evs s w;
    match r with None => Ok (s, w) | Some (_, evs) => command_loop n depth fuel evs s w end
  end.
End shell_.
