(* ===== verification/ShellProofs.v ===== *)
(** * The shell: its words, its commands, its line editing and its copies *)
From S2P Require Import Prelude Ctype Terminal TerminalProofs Input Vfs Streams StdioFile Edit Algorithm Shell.
From Stdlib Require String.
Import String.StringSyntax.
#[local] Delimit Scope string_scope with string.
#[local] Open Scope Z_scope.

(** ** Words

    The reference: the pieces between the delimiters that are not empty. *)
Fixpoint split_at (delim : Z) (l : list Z) : list (list Z) :=
  match l with
  | [] => [[]]
  | c :: l => if delim =? c then [] :: split_at delim l else match split_at delim l with w :: ws => (c :: w) :: ws | [] => [[c]] end
  end.
Definition words (delim : Z) (l : list Z) : list (list Z) := List.filter (fun w => negb (Nat.eqb (length w) 0)) (split_at delim l).
Lemma split_at_found d l k : find_char d l = Some k -> split_at d l = take k l :: split_at d (drop (k + 1) l) /\ (k < length l)%nat.
Proof.
  revert k. induction l as [|c l IH]; intros k H; [discriminate|]. cbn [find_char split_at] in *. destruct (d =? c).
  - injection H as <-. split; [reflexivity|cbn; lia].
  - destruct (find_char d l) as [k'|] eqn:E; [|discriminate]. injection H as <-. destruct (IH k' eq_refl) as [-> Hl]. split; [reflexivity|cbn; lia].
Qed.
Lemma split_at_none d l : find_char d l = None -> split_at d l = [l].
Proof.
  induction l as [|c l IH]; intros H; [reflexivity|]. cbn [find_char split_at] in *. destruct (d =? c); [discriminate|].
  destruct (find_char d l); [discriminate|]. now rewrite IH.
Qed.
Lemma tokenize_loop_spec input d : forall fuel first, (length input - first < fuel)%nat -> (first <= length input)%nat ->
  tokenize_loop fuel first input d = Ok (words d (drop first input)).
Proof.
  induction fuel as [|fuel IH]; intros first Hf Hl; [lia|]. cbn [tokenize_loop]. destruct (Nat.ltb_spec first (length input)) as [H|H].
  2: { rewrite drop_ge by lia. reflexivity. }
  unfold find_from. destruct (find_char d (drop first input)) as [k|] eqn:E; cbn [fmap option_fmap option_map default].
  - destruct (split_at_found d _ _ E) as [Es Hk]. rewrite length_drop in Hk. rewrite IH by lia. cbn [mbind outcome_bind].
    unfold id. unfold words. rewrite Es. cbn [List.filter]. replace (first + k - first)%nat with k by lia. rewrite drop_drop, length_take, length_drop.
    replace (first + (k + 1))%nat with (first + k + 1)%nat by lia. destruct k as [|k].
    + rewrite bool_decide_true by (f_equal; lia). reflexivity.
    + rewrite bool_decide_false by (intros [=]; lia). replace (Nat.eqb (Nat.min (Datatypes.S k) (length input - first)) 0) with false by (symmetry; apply Nat.eqb_neq; lia). reflexivity.
  - unfold words. rewrite (split_at_none d _ E). rewrite bool_decide_false by discriminate. cbn [List.filter].
    rewrite length_drop. replace (Nat.eqb (length input - first) 0) with false by (symmetry; apply Nat.eqb_neq; lia).
    cbn [negb]. rewrite take_ge by (rewrite length_drop; lia). reflexivity.
Qed.
(** Tokenizing ends, and gives the words. *)
Lemma tokenize_words input d : tokenize input d = Ok (words d input).
Proof. unfold tokenize. rewrite tokenize_loop_spec by lia. reflexivity. Qed.
(** A line of a file that ends in CR LF keeps the CR in its last word. *)
Example carriage_return_stays : tokenize (str "cls" ++ [13; 10]) 10 = Ok [str "cls" ++ [13]] /\ lookup_command (str "cls" ++ [13]) = Ok None.
Proof. split; vm_compute; reflexivity. Qed.

(** ** Names *)
Lemma sv_lt_cons x a y b : sv_lt (x :: a) (y :: b) = if s8 x <? s8 y then true else if s8 y <? s8 x then false else sv_lt a b.
Proof.
  unfold sv_lt, sv_compare. cbn [length Nat.min traits_compare]. destruct (s8 x <? s8 y); [reflexivity|]. destruct (s8 y <? s8 x); [reflexivity|].
  change (Datatypes.S (length a) <? Datatypes.S (length b))%nat with (length a <? length b)%nat. now change (Datatypes.S (length b) <? Datatypes.S (length a))%nat with (length b <? length a)%nat.
Qed.
Lemma sv_lt_nil a : sv_lt a [] = false.
Proof. unfold sv_lt, sv_compare. rewrite Nat.min_0_r. cbn [traits_compare Z.eqb negb length]. now destruct (length a). Qed.
Lemma sv_nil_lt y b : sv_lt [] (y :: b) = true.
Proof. reflexivity. Qed.
#[export] Instance sv_lt_strict : strict_weak sv_lt.
Proof.
  constructor.
  - intros a. induction a as [|x a IH]; [reflexivity|]. rewrite sv_lt_cons, Z.ltb_irrefl. exact IH.
  - intros a. induction a as [|x a IH]; intros [|y b] [|z c]; rewrite ?sv_lt_nil, ?sv_nil_lt, ?sv_lt_cons; try easy.
    specialize (IH b c). destruct (Z.ltb_spec (s8 x) (s8 y)), (Z.ltb_spec (s8 y) (s8 x)), (Z.ltb_spec (s8 y) (s8 z)), (Z.ltb_spec (s8 z) (s8 y)),
      (Z.ltb_spec (s8 x) (s8 z)), (Z.ltb_spec (s8 z) (s8 x)); try easy; try lia; auto.
  - intros a. induction a as [|x a IH]; intros [|y b] [|z c]; rewrite ?sv_lt_nil, ?sv_nil_lt, ?sv_lt_cons; try easy.
    specialize (IH b c). destruct (Z.ltb_spec (s8 x) (s8 y)), (Z.ltb_spec (s8 y) (s8 x)), (Z.ltb_spec (s8 y) (s8 z)), (Z.ltb_spec (s8 z) (s8 y)),
      (Z.ltb_spec (s8 x) (s8 z)), (Z.ltb_spec (s8 z) (s8 x)); try easy; try lia; auto.
Qed.
(** Characters of one byte each. *)
Definition bytes (l : list Z) : Prop := Forall (fun c => 0 <= c < 256) l.
Lemma s8_inj x y : 0 <= x < 256 -> 0 <= y < 256 -> s8 x = s8 y -> x = y.
Proof. unfold s8, swrap. intros Hx Hy. rewrite !Z.mod_small by lia. destruct (Z.ltb_spec x (2 ^ (8 - 1))), (Z.ltb_spec y (2 ^ (8 - 1))); lia. Qed.
Lemma sv_eq_spec a b : bytes a -> bytes b -> sv_eq a b = bool_decide (a = b).
Proof.
  intros Ha. revert b. unfold sv_eq, sv_compare. induction Ha as [|x a Hx Ha IH]; intros [|y b] Hb; try (rewrite bool_decide_false by discriminate; reflexivity).
  - now rewrite bool_decide_true.
  - apply Forall_cons in Hb as [Hy Hb]. specialize (IH b Hb). cbn [length Nat.eqb Nat.min traits_compare].
    destruct (Nat.eqb_spec (length a) (length b)) as [El|El]; cbn [negb] in *.
    2: { rewrite bool_decide_false by (intros [= _ ->]; lia). reflexivity. }
    change (Datatypes.S (length a) <? Datatypes.S (length b))%nat with (length a <? length b)%nat. change (Datatypes.S (length b) <? Datatypes.S (length a))%nat with (length b <? length a)%nat.
    destruct (Z.ltb_spec (s8 x) (s8 y)); [rewrite bool_decide_false by (intros [= -> _]; lia); reflexivity|].
    destruct (Z.ltb_spec (s8 y) (s8 x)); [rewrite bool_decide_false by (intros [= -> _]; lia); reflexivity|].
    assert (x = y) as -> by (apply s8_inj; [exact Hx|exact Hy|lia]). rewrite IH. apply bool_decide_ext. split; congruence.
Qed.

(** A table in strictly rising order of its keys. *)
Fixpoint rising {A} (key : A -> list Z) (l : list A) : bool :=
  match l with a :: (b :: _) as l' => sv_lt (key a) (key b) && rising key l' | _ => true end.
Lemma rising_lookup {A} (key : A -> list Z) l : rising key l = true -> forall i j x y, (i < j)%nat -> l !! i = Some x -> l !! j = Some y -> sv_lt (key x) (key y) = true.
Proof.
  assert (H : forall a l, rising key (a :: l) = true -> forall j y, l !! j = Some y -> sv_lt (key a) (key y) = true).
  { intros a l'. revert a. induction l' as [|b l' IH]; intros a H j y Hj; [discriminate|]. cbn [rising] in H. apply andb_prop in H as [H1 H2].
    destruct j as [|j]; [injection Hj as <-; exact H1|]. eapply cmp_trans; [exact H1|]. now apply (IH b H2 j). }
  intros Hr. induction l as [|a l IH]; intros i j x y Hij Hi Hj; [discriminate|]. destruct j as [|j]; [lia|]. destruct i as [|i].
  - injection Hi as <-. now apply (H a l Hr j).
  - apply (IH ltac:(destruct l; [reflexivity|cbn [rising] in Hr; now apply andb_prop in Hr as [_ Hr]]) i j x y); [lia|exact Hi|exact Hj].
Qed.
Lemma find_in_spec {A} (key : A -> list Z) l keyword : rising key l = true -> Forall (fun c => bytes (key c)) l -> bytes keyword ->
  exists r, find_in key l keyword = Ok r /\ match r with Some c => c ∈ l /\ key c = keyword | None => forall c, c ∈ l -> key c <> keyword end.
Proof.
  intros Hr Hb Hk. pose proof (rising_lookup key l Hr) as Hl. rewrite Forall_forall in Hb.
  destruct (lower_bound_correct (fun c => sv_lt (key c) keyword) l) as (k & E & Hle & H1 & H2).
  { intros i j x y Hij Hi Hj Hy. destruct (Nat.eq_dec i j) as [->|N]; [congruence|]. eapply cmp_trans; [|exact Hy]. apply (Hl i j); [lia|exact Hi|exact Hj]. }
  unfold find_in. rewrite (bind_Ok_l _ _ _ E). destruct (l !! k) as [c|] eqn:Ec; cbn [mbind option_bind].
  - pose proof (list_elem_of_lookup_2 _ _ _ Ec) as Hin. rewrite (sv_eq_spec _ _ (Hb _ Hin) Hk). destruct (bool_decide_reflect (key c = keyword)) as [Eq|Nq].
    + exists (Some c). split; [reflexivity|]. now split.
    + exists None. split; [reflexivity|]. intros x Hx Ex. apply list_elem_of_lookup_1 in Hx as [i Hi]. destruct (Nat.lt_trichotomy i k) as [Hlt|[->|Hgt]].
      * specialize (H1 i x Hlt Hi). cbn in H1. now rewrite Ex, cmp_irrefl in H1.
      * congruence.
      * specialize (H2 k c ltac:(lia) Ec). cbn in H2. rewrite <- Ex in H2. now rewrite (Hl k i c x Hgt Ec Hi) in H2.
  - exists None. split; [reflexivity|]. intros x Hx Ex. apply list_elem_of_lookup_1 in Hx as [i Hi]. apply lookup_ge_None_1 in Ec. pose proof (lookup_lt_Some _ _ _ Hi).
    specialize (H1 i x ltac:(lia) Hi). cbn in H1. now rewrite Ex, cmp_irrefl in H1.
Qed.
Lemma forall_bytes {A} (key : A -> list Z) l : forallb (fun c => forallb (fun x => (0 <=? x) && (x <? 256)) (key c)) l = true -> Forall (fun c => bytes (key c)) l.
Proof.
  intros H. apply Forall_forall. intros c Hc. rewrite forallb_forall in H. specialize (H c (proj1 (list_elem_of_In _ _) Hc)).
  apply Forall_forall. intros x Hx. rewrite forallb_forall in H. specialize (H x (proj1 (list_elem_of_In _ _) Hx)). lia.
Qed.
(** The two binary searches find a command by its name or by one of its other names, and
    nothing else. *)
Definition named (keyword : list Z) (c : command) : Prop :=
  c ∈ builtin_commands /\ (name c = keyword /\ (forall a, a ∈ aliases -> alias_name a <> keyword) \/ exists a, a ∈ aliases /\ alias_name a = keyword /\ alias_of a = name c).
Lemma lookup_command_spec keyword : bytes keyword ->
  exists r, lookup_command keyword = Ok r /\ match r with Some c => named keyword c | None => forall c, ~ named keyword c end.
Proof.
  intros Hk. unfold lookup_command.
  assert (Ra : rising alias_name aliases = true) by (vm_compute; reflexivity). assert (Rc : rising name builtin_commands = true) by (vm_compute; reflexivity).
  assert (Ba : Forall (fun a => bytes (alias_name a)) aliases) by (apply forall_bytes; vm_compute; reflexivity).
  assert (Bc : Forall (fun c => bytes (name c)) builtin_commands) by (apply forall_bytes; vm_compute; reflexivity).
  assert (Bo : Forall (fun a => bytes (alias_of a)) aliases) by (apply forall_bytes; vm_compute; reflexivity).
  destruct (find_in_spec alias_name aliases keyword Ra Ba Hk) as (a & Ea & Ha). rewrite (bind_Ok_l _ _ _ Ea). destruct a as [a|].
  - destruct Ha as [Ha En]. rewrite Forall_forall in Bo. destruct (find_in_spec name builtin_commands (alias_of a) Rc Bc (Bo a Ha)) as (c & -> & Hc).
    exists c. split; [reflexivity|]. destruct c as [c|].
    + destruct Hc as [Hc Ec]. split; [exact Hc|]. right. exists a. now repeat split.
    + intros c [Hin [[_ N]|(a' & Ha' & En' & Eo)]]; [now apply (N a Ha)|]. apply (Hc c Hin).
      apply list_elem_of_lookup_1 in Ha as [i Hi], Ha' as [j Hj]. pose proof (rising_lookup alias_name aliases Ra) as Hl. destruct (Nat.lt_trichotomy i j) as [L|[->|L]].
      * specialize (Hl i j a a' L Hi Hj). now rewrite En, En', cmp_irrefl in Hl.
      * congruence.
      * specialize (Hl j i a' a L Hj Hi). now rewrite En, En', cmp_irrefl in Hl.
  - destruct (find_in_spec name builtin_commands keyword Rc Bc Hk) as (c & -> & Hc). exists c. split; [reflexivity|]. destruct c as [c|].
    + destruct Hc as [Hc Ec]. split; [exact Hc|]. left. now split.
    + intros c [Hin [[En _]|(a' & Ha' & En' & _)]]; [now apply (Hc c Hin)|now apply (Ha a' Ha')].
Qed.

(** ** Printing where the screen does not scroll *)
Definition printable (c : Z) : Prop := 32 <= c < 127.
Fixpoint over (color pos : Z) (text : list Z) (l : list text_char) : list text_char :=
  match text with [] => l | c :: text => over color (pos + 1) text (<[Z.to_nat pos := mk_char c color]> l) end.
Lemma over_length color text : forall pos l, length (over color pos text l) = length l.
Proof. induction text as [|c text IH]; intros pos l; [reflexivity|]. cbn [over]. now rewrite IH, length_insert. Qed.
Lemma over_lookup color text : forall pos l i, 0 <= pos -> 0 <= i -> pos + Z.of_nat (length text) <= Z.of_nat (length l) ->
  over color pos text l !! Z.to_nat i = if (pos <=? i) && (i <? pos + Z.of_nat (length text)) then (fun c => mk_char c color) <$> text !! Z.to_nat (i - pos) else l !! Z.to_nat i.
Proof.
  induction text as [|c text IH]; intros pos l i H0 Hi Hl; cbn [over length] in *.
  - destruct (Z.leb_spec pos i), (Z.ltb_spec i (pos + Z.of_nat 0)); first [reflexivity|lia].
  - rewrite IH by (rewrite ?length_insert; lia). destruct (Z.leb_spec (pos + 1) i), (Z.ltb_spec i (pos + 1 + Z.of_nat (length text))), (Z.leb_spec pos i),
      (Z.ltb_spec i (pos + Z.of_nat (S (length text)))); cbn [andb]; try lia.
    + replace (Z.to_nat (i - pos)) with (S (Z.to_nat (i - (pos + 1)))) by lia. reflexivity.
    + apply list_lookup_insert_ne. lia.
    + replace i with pos by lia. rewrite list_lookup_insert_eq by lia. now rewrite Z.sub_diag.
    + apply list_lookup_insert_ne. lia.
Qed.
Lemma print_loop_flat : forall rest fuel done pos t, (length rest < fuel)%nat -> Forall printable rest -> 0 <= pos ->
  pos + Z.of_nat (length rest) < t_total_size t -> t_total_size t <= Z.of_nat (length (t_screen t)) -> t_total_size t < 2 ^ 32 ->
  print_loop fuel (done ++ rest) (Z.of_nat (length done)) pos t = Ok (pos + Z.of_nat (length rest), set_screen (over (t_color t) pos rest (t_screen t)) t).
Proof.
  induction rest as [|c rest IH]; intros fuel done pos t Hf Hp H0 Hs Hl H32; (destruct fuel as [|fuel]; [cbn in Hf; lia|]); cbn [print_loop].
  - rewrite app_nil_r. replace (Z.of_nat (length done) <? Z.of_nat (length done)) with false by lia. cbn [length over]. rewrite Z.add_0_r. now destruct t.
  - apply Forall_cons in Hp as [Hc Hp]. cbn [length] in *. rewrite length_app. cbn [length]. replace (Z.of_nat (length done) <? Z.of_nat (length done + S (length rest))) with true by (symmetry; apply Z.ltb_lt; lia).
    rewrite (fetch_Ok _ _ c) by (lia || (rewrite Nat2Z.id; now apply list_lookup_middle)). cbn [mbind outcome_bind]. unfold printable in Hc.
    replace (c =? 27) with false by lia. unfold handle_char. replace (c =? 13) with false by lia. replace (c =? 10) with false by lia. replace (c =? 9) with false by lia. replace (c =? 8) with false by lia.
    rewrite store_Ok by lia. cbn [mbind outcome_bind]. rewrite (add32_small pos 1) by lia.
    set (t1 := set_screen _ t). replace (t_total_size t1 <=? pos + 1) with false by (symmetry; apply Z.leb_gt; change (t_total_size t1) with (t_total_size t); lia). cbn [mbind outcome_bind].
    specialize (IH fuel (done ++ [c]) (pos + 1) t1 ltac:(lia) Hp ltac:(lia)). rewrite <- app_assoc in IH. cbn [app] in IH. rewrite length_app in IH. cbn [length] in IH.
    replace (Z.of_nat (length done + 1)) with (Z.of_nat (length done) + 1) in IH by lia. rewrite IH.
    + f_equal. f_equal. lia.
    + change (t_total_size t1) with (t_total_size t). lia.
    + change (t_total_size t1) with (t_total_size t). subst t1. cbn [t_screen set_screen]. rewrite length_insert. exact Hl.
    + exact H32.
Qed.
Lemma print_flat str t : Forall printable str -> 0 <= t_cursor_pos t -> t_cursor_pos t + Z.of_nat (length str) < t_total_size t ->
  t_total_size t <= Z.of_nat (length (t_screen t)) -> t_total_size t < 2 ^ 32 ->
  print str t = Ok (set_cursor (t_cursor_pos t + Z.of_nat (length str)) (set_screen (over (t_color t) (t_cursor_pos t) str (t_screen t)) t)).
Proof.
  intros Hp H0 Hs Hl H32. unfold print. pose proof (print_loop_flat str (S (length str)) [] (t_cursor_pos t) t ltac:(lia) Hp H0 Hs Hl H32) as E.
  cbn [app length] in E. change (Z.of_nat 0) with 0 in E. now rewrite (bind_Ok_l _ _ _ E).
Qed.
(** Deleting characters before the cursor. *)
Lemma delete_chars_flat n t : 0 <= n <= t_cursor_pos t -> t_cursor_pos t <= Z.of_nat (length (t_screen t)) -> t_cursor_pos t < 2 ^ 32 ->
  exists l, delete_chars n t = Ok (set_cursor (t_cursor_pos t - n) (set_screen l t)) /\ length l = length (t_screen t) /\
    forall i, 0 <= i -> l !! Z.to_nat i = if (t_cursor_pos t - n <=? i) && (i <? t_cursor_pos t) then Some (t_clear_val t) else t_screen t !! Z.to_nat i.
Proof.
  intros Hn Hl H32. unfold delete_chars. destruct (fill_cells_spec (Z.to_nat n) (t_clear_val t) (t_cursor_pos t - n) (t_screen t)) as (l & E & Ll & G); [lia|lia|].
  rewrite (bind_Ok_l _ _ _ E). exists l. rewrite sub32_small by lia. split; [reflexivity|]. split; [exact Ll|]. intros i Hi. rewrite G by exact Hi.
  now replace (t_cursor_pos t - n + Z.of_nat (Z.to_nat n)) with (t_cursor_pos t) by lia.
Qed.

(** ** The line on the screen

    The text stands from cell [p0] on, behind it blanks up to [ext], the longest the line
    has been; every other cell is as it was, in [base]. *)
Definition cells (base : list text_char) (p0 ext color : Z) (clear : text_char) (text : list Z) (scr : list text_char) : Prop :=
  forall i, 0 <= i -> scr !! Z.to_nat i =
    if (p0 <=? i) && (i <? p0 + Z.of_nat (length text)) then (fun c => mk_char c color) <$> text !! Z.to_nat (i - p0)
    else if (p0 + Z.of_nat (length text) <=? i) && (i <? p0 + ext) then Some clear else base !! Z.to_nat i.
(** What a text that is written over the end of the line leaves. *)
Lemma cells_over base p0 ext ext' color clear l r scr : 0 <= p0 -> Z.of_nat (length (l ++ r)) <= ext' -> ext <= ext' ->
  p0 + ext' <= Z.of_nat (length scr) ->
  (forall i, 0 <= i -> p0 <= i < p0 + Z.of_nat (length l) -> scr !! Z.to_nat i = (fun c => mk_char c color) <$> l !! Z.to_nat (i - p0)) ->
  (forall i, 0 <= i -> p0 + Z.of_nat (length (l ++ r)) <= i < p0 + ext -> scr !! Z.to_nat i = Some clear) ->
  (forall i, 0 <= i -> ~ p0 <= i < p0 + Z.max ext (Z.of_nat (length (l ++ r))) -> scr !! Z.to_nat i = base !! Z.to_nat i) ->
  ext' = Z.max ext (Z.of_nat (length (l ++ r))) ->
  cells base p0 ext' color clear (l ++ r) (over color (p0 + Z.of_nat (length l)) r scr).
Proof.
  intros H0 He Hx Hs H1 H2 H3 -> i Hi. rewrite length_app in *. rewrite over_lookup by lia.
  destruct (Z.leb_spec p0 i), (Z.ltb_spec i (p0 + Z.of_nat (length l + length r))), (Z.leb_spec (p0 + Z.of_nat (length l)) i),
    (Z.ltb_spec i (p0 + Z.of_nat (length l) + Z.of_nat (length r))), (Z.leb_spec (p0 + Z.of_nat (length l + length r)) i),
    (Z.ltb_spec i (p0 + Z.max ext (Z.of_nat (length l + length r)))); cbn [andb]; try lia; try (apply H3; lia); try (apply H2; lia).
  - rewrite lookup_app_r by lia. do 2 f_equal. lia.
  - rewrite lookup_app_l by lia. apply H1; lia.
Qed.

(** The text as two parts, the first one backwards, and the place in the history. *)
Record atext := mk_at { a_left : list Z; a_right : list Z; a_hist : nat }.
Definition whole (a : atext) : list Z := rev (a_left a) ++ a_right a.
Inductive key := Kright | Kleft | Kup | Kdown | Kback | Kchar (c : Z) | Knone.
(** [None]: the text does not fit in [room] cells, or there is no line in the history. *)
Definition recall (hist : list (list Z)) (room i : nat) : option atext :=
  l ← hist !! i; if (length l <=? room)%nat then Some (mk_at (rev l) [] i) else None.
Definition astep (hist : list (list Z)) (room : nat) (k : key) (a : atext) : option atext :=
  match k with
  | Kright => Some (match a_right a with c :: r => mk_at (c :: a_left a) r (a_hist a) | [] => a end)
  | Kleft => Some (match a_left a with c :: l => mk_at l (c :: a_right a) (a_hist a) | [] => a end)
  | Kback => Some (match a_left a with c :: l => mk_at l (a_right a) (a_hist a) | [] => a end)
  | Kchar c => if (length (whole a) <? room)%nat then Some (mk_at (c :: a_left a) (a_right a) (a_hist a)) else None
  | Kup => match hist with [] => Some a | _ => recall hist room (pred (a_hist a)) end
  | Kdown => match hist with [] => Some a | _ => recall hist room (if (a_hist a <? length hist - 1)%nat then S (a_hist a) else a_hist a) end
  | Knone => Some a
  end.
Fixpoint asteps (hist : list (list Z)) (room : nat) (ks : list key) (a : atext) : option atext :=
  match ks with [] => Some a | k :: ks => a ← astep hist room k a; asteps hist room ks a end.

Section editing.
Context {S : Type} {FC : file_calls S} (base : list text_char) (p0 color : Z) (clr : text_char) (total : Z) (room : nat) (hist : list (list Z)).
Context (Hroom : 0 <= p0 /\ p0 + Z.of_nat room < total /\ total < 2 ^ 32 /\ total <= Z.of_nat (length base)).
Context (Hhist : Forall (Forall printable) hist).
#[local] Set Default Proof Using "Type".
Notation sh := (shell S).
(** The shell shows the text [a]. *)
Record shown (a : atext) (ext : nat) (e : line_edit) (s : sh) : Prop := {
  sh_input : input e = whole a; sh_char : char_index e = Z.of_nat (length (a_left a)); sh_hist : history_index e = Z.of_nat (a_hist a);
  sh_ext : (length (whole a) <= ext <= room)%nat; sh_print : Forall printable (whole a);
  sh_color : t_color (s_term s) = color; sh_clear : t_clear_val (s_term s) = clr; sh_total : t_total_size (s_term s) = total;
  sh_length : length (t_screen (s_term s)) = length base;
  sh_cursor : t_cursor_pos (s_term s) = p0 + Z.of_nat (length (a_left a));
  sh_cells : cells base p0 (Z.of_nat ext) color clr (whole a) (t_screen (s_term s));
  sh_history : command_history s = hist }.
Lemma whole_length a : length (whole a) = (length (a_left a) + length (a_right a))%nat.
Proof. unfold whole. now rewrite length_app, length_rev. Qed.
(** Only the cursor moves. *)
Lemma shown_move a a' ext e s e' : shown a ext e s -> whole a' = whole a -> a_hist a' = a_hist a ->
  input e' = input e -> history_index e' = history_index e -> char_index e' = Z.of_nat (length (a_left a')) ->
  forall p, p = p0 + Z.of_nat (length (a_left a')) -> shown a' ext e' (set_term (set_cursor p (s_term s)) s).
Proof. intros [] Hw Hh Hi Hx Hc p ->. constructor; cbn; try congruence; rewrite ?Hw; try assumption. Qed.
Lemma key_right_shown a ext e s : shown a ext e s -> exists e' s' a', key_right e s = Ok (e', s') /\ astep hist room Kright a = Some a' /\ shown a' ext e' s'.
Proof using Hroom.
  intros H. pose proof H as [I C X E Pr Co Cl T L Cu Ce Hi]. pose proof (whole_length a) as W. unfold key_right, size_of. rewrite I, C, W. cbn [astep].
  destruct (a_right a) as [|c r] eqn:Er; cbn [length] in *.
  - replace (Z.of_nat (length (a_left a)) <? Z.of_nat (length (a_left a) + 0)) with false by (symmetry; apply Z.ltb_ge; lia). eexists _, _, a. split; [reflexivity|]. now split.
  - replace (Z.of_nat (length (a_left a)) <? _) with true by (symmetry; apply Z.ltb_lt; lia). eexists _, _, (mk_at (c :: a_left a) r (a_hist a)). split; [reflexivity|]. split; [reflexivity|].
    unfold at_cursor. eapply (shown_move a); [exact H| |reflexivity|cbn; congruence|reflexivity|cbn; lia|].
    + unfold whole. cbn. rewrite Er, <- app_assoc. reflexivity.
    + cbn. rewrite Cu. unfold u32, wrap. rewrite Z.mod_small; lia.
Qed.
Lemma key_left_shown a ext e s : shown a ext e s -> exists e' s' a', key_left e s = Ok (e', s') /\ astep hist room Kleft a = Some a' /\ shown a' ext e' s'.
Proof using Hroom.
  intros H. pose proof H as [I C X E Pr Co Cl T L Cu Ce Hi]. pose proof (whole_length a) as W. unfold key_left. rewrite C. cbn [astep].
  destruct (a_left a) as [|c l] eqn:El; cbn [length] in *.
  - eexists _, _, a. split; [reflexivity|]. now split.
  - replace (0 <? _) with true by (symmetry; apply Z.ltb_lt; lia). eexists _, _, (mk_at l (c :: a_right a) (a_hist a)). split; [reflexivity|]. split; [reflexivity|].
    unfold at_cursor. eapply (shown_move a); [exact H| |reflexivity|cbn; congruence|reflexivity|cbn; lia|].
    + unfold whole. cbn. rewrite El. cbn [rev]. rewrite <- app_assoc. reflexivity.
    + cbn. rewrite Cu. unfold u32, wrap. rewrite Z.mod_small; lia.
Qed.
(** The rest of the line is printed from the cursor, which stays where it was. *)
Lemma print_rest a ext r t : t_cursor_pos t = p0 + Z.of_nat (length (a_left a)) -> t_total_size t = total -> length (t_screen t) = length base ->
  Forall printable r -> (length (a_left a) + length r <= ext <= room)%nat ->
  print r t = Ok (set_cursor (p0 + Z.of_nat (length (a_left a)) + Z.of_nat (length r)) (set_screen (over (t_color t) (p0 + Z.of_nat (length (a_left a))) r (t_screen t)) t)).
Proof using Hroom. intros Cu T L Hp He. rewrite print_flat; rewrite ?Cu, ?T, ?L; [reflexivity|exact Hp|lia..]. Qed.

Lemma take_left a : take (length (a_left a)) (whole a) = rev (a_left a).
Proof. clear Hroom. unfold whole. rewrite take_app_le by (rewrite length_rev; lia). rewrite take_ge by (rewrite length_rev; lia). reflexivity. Qed.
Lemma drop_left a : drop (length (a_left a)) (whole a) = a_right a.
Proof. clear Hroom. unfold whole. rewrite drop_app_ge by (rewrite length_rev; lia). rewrite length_rev, Nat.sub_diag. reflexivity. Qed.
(** What the cells show of a part of the text. *)
Lemma cells_prefix ext text l r scr : cells base p0 ext color clr text scr -> text = l ++ r -> forall i, 0 <= i -> p0 <= i < p0 + Z.of_nat (length l) ->
  scr !! Z.to_nat i = (fun c => mk_char c color) <$> l !! Z.to_nat (i - p0).
Proof using Hroom.
  intros H -> i Hi Hr. rewrite (H i Hi), length_app. destruct (Z.leb_spec p0 i), (Z.ltb_spec i (p0 + Z.of_nat (length l + length r))); cbn [andb]; try lia.
  rewrite lookup_app_l by lia. reflexivity.
Qed.
Lemma cells_behind ext text scr : cells base p0 ext color clr text scr -> forall i, 0 <= i -> p0 + Z.of_nat (length text) <= i < p0 + ext -> scr !! Z.to_nat i = Some clr.
Proof using Hroom.
  intros H i Hi Hr. rewrite (H i Hi). destruct (Z.leb_spec p0 i), (Z.ltb_spec i (p0 + Z.of_nat (length text))), (Z.leb_spec (p0 + Z.of_nat (length text)) i), (Z.ltb_spec i (p0 + ext)); cbn [andb]; try lia; reflexivity.
Qed.
Lemma cells_outside ext text scr : cells base p0 ext color clr text scr -> Z.of_nat (length text) <= ext -> forall i, 0 <= i -> ~ p0 <= i < p0 + ext -> scr !! Z.to_nat i = base !! Z.to_nat i.
Proof using Hroom.
  intros H He i Hi Hr. rewrite (H i Hi). destruct (Z.leb_spec p0 i), (Z.ltb_spec i (p0 + Z.of_nat (length text))), (Z.leb_spec (p0 + Z.of_nat (length text)) i), (Z.ltb_spec i (p0 + ext)); cbn [andb]; try lia; reflexivity.
Qed.
Lemma key_char_shown c a ext e s : shown a ext e s -> printable c -> (length (whole a) < room)%nat ->
  exists e' s', key_char c e s = Ok (e', s') /\ shown (mk_at (c :: a_left a) (a_right a) (a_hist a)) (Nat.max ext (length (whole a) + 1)) e' s'.
Proof using Hroom.
  intros H Hc Hr. pose proof H as [I C X E Pr Co Cl T L Cu Ce Hi]. pose proof (whole_length a) as W.
  assert (Pr' : Forall printable (a_right a)) by (unfold whole in Pr; now apply Forall_app in Pr as [_ Pr]).
  unfold key_char. cbn [print_strings]. rewrite (print_rest a room [c] (s_term s) Cu T L) by (try (constructor; [exact Hc|constructor]); cbn [length]; lia).
  cbn [mbind outcome_bind]. cbn [print_strings s_term set_term]. unfold rest_of. cbn [input char_index].
  rewrite C, I, Nat2Z.id, take_left, drop_left.
  set (t1 := set_cursor _ _). set (a' := mk_at (c :: a_left a) (a_right a) (a_hist a)).
  assert (W' : rev (a_left a) ++ c :: a_right a = whole a') by (unfold whole; cbn; now rewrite <- app_assoc).
  rewrite W'. replace (Z.to_nat (Z.of_nat (length (a_left a)) + 1)) with (length (a_left a')) by (cbn; lia). rewrite drop_left. change (a_right a') with (a_right a).
  rewrite (print_rest a' room (a_right a) t1) by (try exact Pr'; subst t1; cbn; rewrite ?length_insert; (exact T || exact L || lia)).
  cbn [mbind outcome_bind]. eexists _, _. split; [reflexivity|]. constructor; cbn [s_term set_term set_cursor set_screen t_color t_clear_val t_total_size t_screen t_cursor_pos input char_index history_index command_history].
  - reflexivity.
  - cbn [a_left a' length]. lia.
  - exact X.
  - rewrite <- W', length_app, length_rev. cbn [length]. lia.
  - rewrite <- W'. unfold whole in Pr. apply Forall_app in Pr as [P1 P2]. apply Forall_app. split; [exact P1|]. now constructor.
  - exact Co.
  - exact Cl.
  - exact T.
  - rewrite over_length. subst t1. cbn [t_screen set_cursor set_screen over]. rewrite length_insert. exact L.
  - subst t1. cbn [t_cursor_pos set_cursor a_left a' length]. lia.
  - rewrite <- W'. subst t1. cbn [t_screen set_cursor set_screen t_color a_left a' length].
    replace (over (t_color (s_term s)) (p0 + Z.of_nat (Datatypes.S (length (a_left a)))) (a_right a) (over (t_color (s_term s)) (p0 + Z.of_nat (length (a_left a))) [c] (t_screen (s_term s))))
      with (over color (p0 + Z.of_nat (length (rev (a_left a)))) (c :: a_right a) (t_screen (s_term s)))
      by (rewrite length_rev, Co; cbn [over]; f_equal; lia).
    assert (Len : length (rev (a_left a) ++ c :: a_right a) = (length (whole a) + 1)%nat) by (rewrite length_app, length_rev; cbn [length]; lia).
    apply (cells_over base p0 (Z.of_nat ext)); rewrite ?Len; try lia.
    + exact (cells_prefix _ _ _ _ _ Ce eq_refl).
    + intros i H0 H1. apply (cells_behind _ _ _ Ce i H0). lia.
    + intros i H0 H1. apply (cells_outside _ _ _ Ce ltac:(lia) i H0). lia.
  - exact Hi.
Qed.

Lemma u32_at z : 0 <= z < 2 ^ 32 -> u32 z = z.
Proof. clear Hroom. intros H. apply Z.mod_small. exact H. Qed.
Lemma key_backspace_shown a ext e s : shown a ext e s ->
  exists e' s' a', key_backspace e s = Ok (e', s') /\ astep hist room Kback a = Some a' /\ shown a' ext e' s'.
Proof using Hroom.
  intros H. pose proof H as [I C X E Pr Co Cl T L Cu Ce Hi]. pose proof (whole_length a) as W. unfold key_backspace. rewrite C. cbn [astep].
  destruct (a_left a) as [|c l] eqn:El; cbn [length] in *.
  { eexists _, _, a. split; [reflexivity|]. now split. }
  replace (0 <? _) with true by (symmetry; apply Z.ltb_lt; lia). set (a' := mk_at l (a_right a) (a_hist a)).
  replace (Z.of_nat (Datatypes.S (length l)) - 1) with (Z.of_nat (length l)) by lia. rewrite Nat2Z.id.
  assert (Wa : whole a = rev l ++ c :: a_right a) by (unfold whole; rewrite El; cbn [rev]; now rewrite <- app_assoc).
  assert (D : delete (length l) (input e) = whole a') by (rewrite I, Wa; unfold whole; cbn; replace (length l) with (length (rev l)) by apply length_rev; now rewrite delete_middle).
  assert (W' : length (whole a') = (length l + length (a_right a))%nat) by (rewrite whole_length; reflexivity).
  rewrite D. unfold size_of. cbn [input]. rewrite Cu, W'.
  rewrite (u32_at (p0 + Z.of_nat (Datatypes.S (length l)) + _ - _)), (u32_at (p0 + Z.of_nat (Datatypes.S (length l)) - 1)) by lia.
  set (t1 := set_cursor _ (s_term s)). assert (C1 : t_cursor_pos t1 = p0 + Z.of_nat (length (whole a))) by (subst t1; cbn; lia).
  destruct (delete_chars_flat 1 t1) as (scr & Ed & Ld & Gd); [rewrite C1; lia|rewrite C1; change (t_screen t1) with (t_screen (s_term s)); lia|rewrite C1; lia|]. rewrite (bind_Ok_l _ _ _ Ed).
  assert (P' : Forall printable (rev l) /\ Forall printable (a_right a)) by (rewrite Wa in Pr; apply Forall_app in Pr as [P1 P2]; apply Forall_cons in P2 as [_ P2]; now split).
  unfold rest_of. cbn [input char_index]. rewrite Nat2Z.id. change (drop (length l) (whole a')) with (drop (length (a_left a')) (whole a')). rewrite drop_left. change (a_right a') with (a_right a).
  cbn [print_strings s_term set_term]. set (t2 := set_cursor (p0 + Z.of_nat (Datatypes.S (length l)) - 1) _).
  rewrite (print_rest a' room (a_right a) t2); [|subst t2; cbn; lia|exact T|exact (eq_trans Ld L)|apply P'|cbn; lia].
  cbn [mbind outcome_bind]. eexists _, _, a'. split; [reflexivity|]. split; [reflexivity|].
  constructor; cbn [s_term set_term set_cursor set_screen t_color t_clear_val t_total_size t_screen t_cursor_pos input char_index history_index command_history].
  - reflexivity.
  - reflexivity.
  - exact X.
  - lia.
  - unfold whole. cbn. apply Forall_app. exact P'.
  - exact Co.
  - exact Cl.
  - exact T.
  - rewrite over_length. exact (eq_trans Ld L).
  - cbn [a_left a']. lia.
  - change (whole a') with (rev l ++ a_right a). change (a_left a') with l. change (t_color t2) with (t_color (s_term s)). change (t_screen t2) with scr. rewrite Co.
    replace (length l) with (length (rev l)) by apply length_rev.
    assert (Len : length (rev l ++ a_right a) = (length (whole a) - 1)%nat) by (change (rev l ++ a_right a) with (whole a'); lia).
    change (t_clear_val t1) with (t_clear_val (s_term s)) in Gd. change (t_screen t1) with (t_screen (s_term s)) in Gd. rewrite Cl, C1 in Gd.
    assert (O : forall i, 0 <= i -> i <> p0 + Z.of_nat (length (whole a)) - 1 -> scr !! Z.to_nat i = t_screen (s_term s) !! Z.to_nat i).
    { intros i H0 N. rewrite Gd by exact H0. destruct (Z.leb_spec (p0 + Z.of_nat (length (whole a)) - 1) i), (Z.ltb_spec i (p0 + Z.of_nat (length (whole a)))); cbn [andb]; try reflexivity; lia. }
    pose proof (length_rev l) as Lr. apply (cells_over base p0 (Z.of_nat ext)); rewrite ?Len; try lia.
    + change (t_screen t1) with (t_screen (s_term s)) in Ld. lia.
    + intros i H0 H1. rewrite (O i H0) by lia. exact (cells_prefix _ _ _ _ _ Ce Wa i H0 H1).
    + intros i H0 H1. destruct (Z.eq_dec i (p0 + Z.of_nat (length (whole a)) - 1)) as [->|N].
      * rewrite Gd by exact H0. destruct (Z.leb_spec (p0 + Z.of_nat (length (whole a)) - 1) (p0 + Z.of_nat (length (whole a)) - 1)), (Z.ltb_spec (p0 + Z.of_nat (length (whole a)) - 1) (p0 + Z.of_nat (length (whole a)))); cbn [andb]; try reflexivity; lia.
      * rewrite (O i H0 N). apply (cells_behind _ _ _ Ce i H0). lia.
    + intros i H0 H1. rewrite (O i H0) by lia. apply (cells_outside _ _ _ Ce ltac:(lia) i H0). lia.
  - exact Hi.
Qed.

(** A line of the history in the place of the text. *)
Lemma recall_shown a a' i ext e s up : shown a ext e s -> hist <> [] -> recall hist room i = Some a' ->
  (if up : bool then if 0 <? history_index e then history_index e - 1 else history_index e
   else if history_index e <? Z.of_nat (length hist) - 1 then history_index e + 1 else history_index e) = Z.of_nat i ->
  exists e' s', key_history up e s = Ok (e', s') /\ shown a' (Nat.max ext (length (whole a'))) e' s'.
Proof using Hroom Hhist.
  intros H Hn Hrec Ei. pose proof H as [I C X E Pr Co Cl T L Cu Ce Hi]. pose proof (whole_length a) as W.
  unfold recall in Hrec. destruct (hist !! i) as [l|] eqn:El; [|discriminate]. cbn [mbind option_bind] in Hrec. destruct (Nat.leb_spec (length l) room) as [Hl|Hl]; [|discriminate].
  injection Hrec as <-. set (a' := mk_at (rev l) [] i). assert (Wa : whole a' = l) by (unfold whole; cbn; now rewrite rev_involutive, app_nil_r).
  assert (Pl : Forall printable l) by (rewrite Forall_forall in Hhist; apply Hhist; eapply list_elem_of_lookup_2; exact El).
  unfold key_history. rewrite Hi. destruct (Z.eqb_spec (Z.of_nat (length hist)) 0) as [Z0|_]; [destruct hist; [contradiction|cbn in Z0; lia]|]. rewrite Ei.
  unfold at_cursor, size_of. cbn [s_term set_term]. rewrite Cu, C, I, u32_at by lia.
  replace (p0 + Z.of_nat (length (a_left a)) + Z.of_nat (length (whole a)) - Z.of_nat (length (a_left a))) with (p0 + Z.of_nat (length (whole a))) by lia.
  set (t1 := set_cursor _ (s_term s)). destruct (delete_chars_flat (Z.of_nat (length (whole a))) t1) as (scr & Ed & Ld & Gd);
    [cbn; lia|change (t_screen t1) with (t_screen (s_term s)); cbn; lia|cbn; lia|]. rewrite (bind_Ok_l _ _ _ Ed).
  change (command_history (set_term t1 s)) with (command_history s). rewrite Hi, (fetch_Ok _ _ l) by (lia || (rewrite Nat2Z.id; exact El)). cbn [mbind outcome_bind print_strings s_term set_term].
  set (t2 := set_cursor _ (set_screen scr t1)). assert (C2 : t_cursor_pos t2 = p0) by (subst t2; cbn; lia).
  rewrite (print_flat l t2 Pl) by (rewrite ?C2; change (t_total_size t2) with (t_total_size (s_term s)); change (t_screen t2) with scr; change (t_screen t1) with (t_screen (s_term s)) in Ld; lia).
  cbn [mbind outcome_bind]. eexists _, _. split; [reflexivity|].
  constructor; cbn [s_term set_term set_cursor set_screen t_color t_clear_val t_total_size t_screen t_cursor_pos input char_index history_index command_history].
  - now rewrite Wa.
  - cbn [a' a_left]. now rewrite length_rev.
  - reflexivity.
  - rewrite Wa. lia.
  - now rewrite Wa.
  - exact Co.
  - exact Cl.
  - exact T.
  - rewrite over_length. exact (eq_trans Ld L).
  - rewrite C2. cbn [a' a_left]. now rewrite length_rev.
  - rewrite Wa, C2. change (t_color t2) with (t_color (s_term s)). change (t_screen t2) with scr. rewrite Co.
    change (t_clear_val t1) with (t_clear_val (s_term s)) in Gd. change (t_screen t1) with (t_screen (s_term s)) in Gd, Ld. rewrite Cl in Gd.
    change (t_cursor_pos t1) with (p0 + Z.of_nat (length (whole a))) in Gd.
    replace (p0 + Z.of_nat (length (whole a)) - Z.of_nat (length (whole a))) with p0 in Gd by lia.
    replace p0 with (p0 + Z.of_nat (length (@nil Z))) at 2 by (cbn; lia). change l with ([] ++ l) at 1.
    apply (cells_over base p0 (Z.of_nat ext)); cbn [app length]; try lia.
    + intros j H0 H1. rewrite Gd by exact H0. destruct (Z.leb_spec p0 j), (Z.ltb_spec j (p0 + Z.of_nat (length (whole a)))); cbn [andb]; try reflexivity;
        (apply (cells_behind _ _ _ Ce j H0); lia) || lia.
    + intros j H0 H1. rewrite Gd by exact H0. destruct (Z.leb_spec p0 j), (Z.ltb_spec j (p0 + Z.of_nat (length (whole a)))); cbn [andb]; try lia; (apply (cells_outside _ _ _ Ce ltac:(lia) j H0); lia).
  - exact Hi.
Qed.

(** The key an event is for the shell. *)
Definition no_arrow (a : arrival) : Prop := ev_data (arr_event a) ∉ [vk VK_RIGHT; vk VK_LEFT; vk VK_UP; vk VK_DOWN].
Definition types (a : arrival) (c : Z) : Prop := no_arrow a /\ get_ascii_from_vk true (ev_data (arr_event a)) (arr_keys a) = Ok c.
Definition key_down (a : arrival) : Prop := device_index (arr_event a) = 0 /\ ev_type (arr_event a) = KEY_DOWN.
Definition is_event (a : arrival) (k : key) : Prop :=
  key_down a /\
  match k with
  | Kright => ev_data (arr_event a) = vk VK_RIGHT | Kleft => ev_data (arr_event a) = vk VK_LEFT
  | Kup => ev_data (arr_event a) = vk VK_UP | Kdown => ev_data (arr_event a) = vk VK_DOWN
  | Kback => types a 8 | Kchar c => types a c /\ printable c | Knone => types a 0
  end.
Definition is_enter (a : arrival) : Prop := key_down a /\ types a 10.
Lemma command_event_types a c e s : key_down a -> types a c -> command_event a e s =
  (if c =? 8 then '(e, s) ← key_backspace e s; Ok (false, e, s) else if c =? 10 then s ← print_strings [[c]] s; Ok (true, e, s)
   else if negb (c =? 0) then '(e, s) ← key_char c e s; Ok (false, e, s) else Ok (false, e, s)).
Proof.
  clear Hroom Hhist. intros [D K] [N A]. unfold no_arrow in N. unfold command_event. rewrite D, K. cbn [Z.eqb negb]. unfold is_vk.
  assert (M : forall k, k ∈ [vk VK_RIGHT; vk VK_LEFT; vk VK_UP; vk VK_DOWN] -> (ev_data (arr_event a) =? k) = false) by (intros k Hk; apply Z.eqb_neq; intros E; rewrite E in N; contradiction).
  rewrite !M by set_solver. cbn [orb]. now rewrite A.
Qed.
Lemma command_event_shown a k e s at_ at' ext : shown at_ ext e s -> is_event a k -> astep hist room k at_ = Some at' ->
  exists e' s' ext', command_event a e s = Ok (false, e', s') /\ shown at' ext' e' s'.
Proof using Hroom Hhist.
  intros H [D K] St. pose proof H as [I C X E Pr Co Cl T L Cu Ce Hi].
  assert (Arrow : forall f k', k' ∈ [VK_RIGHT; VK_LEFT; VK_UP; VK_DOWN] -> ev_data (arr_event a) = vk k' ->
    f = match k' with VK_RIGHT => key_right e s | VK_LEFT => key_left e s | VK_UP => key_history true e s | _ => key_history false e s end ->
    command_event a e s = ('(e, s) ← f; Ok (false, e, s))).
  { intros f k' Hk Ek ->. unfold command_event. rewrite (proj1 D), (proj2 D), Ek. rewrite !elem_of_cons, elem_of_nil in Hk. now destruct Hk as [->|[->|[->|[->|[]]]]]. }
  destruct k; cbn [astep] in St.
  - destruct (key_right_shown at_ ext e s H) as (e' & s' & a2 & E1 & E2 & H2). cbn [astep] in E2. exists e', s', ext.
    rewrite (Arrow _ VK_RIGHT ltac:(set_solver) K eq_refl), E1. split; [reflexivity|congruence].
  - destruct (key_left_shown at_ ext e s H) as (e' & s' & a2 & E1 & E2 & H2). cbn [astep] in E2. exists e', s', ext.
    rewrite (Arrow _ VK_LEFT ltac:(set_solver) K eq_refl), E1. split; [reflexivity|congruence].
  - rewrite (Arrow _ VK_UP ltac:(set_solver) K eq_refl). clear Arrow. destruct (decide (hist = [])) as [Hn|Hn].
    + rewrite Hn in St. injection St as <-. exists e, s, ext. unfold key_history. rewrite Hi, Hn. split; [reflexivity|exact H].
    + assert (St' : recall hist room (pred (a_hist at_)) = Some at') by (destruct hist; [contradiction|exact St]).
      destruct (recall_shown at_ at' (pred (a_hist at_)) ext e s true H Hn St') as (e' & s' & E1 & H2).
      { rewrite X. destruct (Z.ltb_spec 0 (Z.of_nat (a_hist at_))); lia. }
      rewrite E1. now exists e', s', (Nat.max ext (length (whole at'))).
  - rewrite (Arrow _ VK_DOWN ltac:(set_solver) K eq_refl). clear Arrow. destruct (decide (hist = [])) as [Hn|Hn].
    + rewrite Hn in St. injection St as <-. exists e, s, ext. unfold key_history. rewrite Hi, Hn. split; [reflexivity|exact H].
    + set (i := if (a_hist at_ <? length hist - 1)%nat then Datatypes.S (a_hist at_) else a_hist at_).
      assert (St' : recall hist room i = Some at') by (destruct hist; [contradiction|exact St]). subst i. clear St. rename St' into St.
      destruct (recall_shown at_ at' (if (a_hist at_ <? length hist - 1)%nat then Datatypes.S (a_hist at_) else a_hist at_) ext e s false H Hn St) as (e' & s' & E1 & H2).
      { rewrite X. destruct (Z.ltb_spec (Z.of_nat (a_hist at_)) (Z.of_nat (length hist) - 1)), (Nat.ltb_spec (a_hist at_) (length hist - 1)); lia. }
      rewrite E1. now exists e', s', (Nat.max ext (length (whole at'))).
  - rewrite (command_event_types a 8 e s D K). cbn [Z.eqb Pos.eqb]. destruct (key_backspace_shown at_ ext e s H) as (e' & s' & a2 & E1 & E2 & H2). cbn [astep] in E2.
    exists e', s', ext. rewrite E1. split; [reflexivity|congruence].
  - destruct K as [K Kc]. rewrite (command_event_types a c e s D K). unfold printable in Kc. replace (c =? 8) with false by lia. replace (c =? 10) with false by lia. replace (c =? 0) with false by lia. cbn [negb].
    destruct (Nat.ltb_spec (length (whole at_)) room) as [Hl|]; [|discriminate]. injection St as <-.
    destruct (key_char_shown c at_ ext e s H Kc Hl) as (e' & s' & E1 & H2). rewrite E1. now exists e', s', (Nat.max ext (length (whole at_) + 1)).
  - rewrite (command_event_types a 0 e s D K). injection St as <-. now exists e, s, ext.
Qed.
Lemma edit_loop_shown : forall evs ks e s at_ at' ext, shown at_ ext e s -> Forall2 is_event evs ks -> asteps hist room ks at_ = Some at' ->
  exists e' s' ext', shown at' ext' e' s' /\ forall more, edit_loop (evs ++ more) e s = edit_loop more e' s'.
Proof using Hroom Hhist.
  intros evs ks e s at_ at' ext H F. revert e s at_ ext H. induction F as [|a k evs ks Ha F IH]; intros e s at_ ext H St; cbn [asteps] in St.
  - injection St as <-. now exists e, s, ext.
  - destruct (astep hist room k at_) as [a1|] eqn:E1; [|discriminate]. cbn [mbind option_bind] in St.
    destruct (command_event_shown a k e s at_ a1 ext H Ha E1) as (e1 & s1 & ext1 & Ec & H1). destruct (IH e1 s1 a1 ext1 H1 St) as (e' & s' & ext' & H' & L').
    exists e', s', ext'. split; [exact H'|]. intros more. cbn [app edit_loop]. rewrite (bind_Ok_l _ _ _ Ec). apply L'.
Qed.
End editing.

(** The shell at the beginning of a line, with the cursor at [p0]. *)
Definition at_prompt {S} {FC : file_calls S} (p0 : Z) (room : nat) (s : shell S) : Prop :=
  let t := s_term s in t_cursor_pos t = p0 /\ 0 <= p0 /\ p0 + Z.of_nat room < t_total_size t /\ t_total_size t < 2 ^ 32 /\
  t_total_size t <= Z.of_nat (length (t_screen t)) /\ Forall (Forall printable) (command_history s).
(** C34: while printable characters, Backspace, the arrows and keys without a character are
    pressed, the line is edited as one text with a place in it: letters
    go in at the place, Backspace takes the one before it, the arrows move it or fetch the
    lines of the history.  The screen shows the text from where the prompt ended, blanks
    behind it and nothing else changed, and the cursor at the place; Enter gives exactly this
    text to [execute_line] and to the history.  This holds as long as the text fits on the
    screen and Down is not pressed behind the last line of the history (shell.cpp:280);
    Escape, which is printed and begins a sequence of the terminal (shell.cpp:313), is
    excluded. *)
Theorem get_command_edits {S} {FC : file_calls S} {SC : shell_calls S} p0 room (s : shell S) evs ks enter a' : at_prompt p0 room s ->
  Forall2 is_event evs ks -> is_enter enter -> asteps (command_history s) room ks (mk_at [] [] (length (command_history s))) = Some a' ->
  exists e1 s1 ext, shown (t_screen (s_term s)) p0 (t_color (s_term s)) (t_clear_val (s_term s)) (t_total_size (s_term s)) room (command_history s) a' ext e1 s1 /\
    forall rest w depth fuel, get_command depth fuel (evs ++ enter :: rest) s w =
      (t ← print [10] (s_term s1);
       '(r, s2, w2) ← execute_line depth fuel (whole a') (set_history (command_history s1 ++ [whole a']) (set_term t s1)) w;
       Ok (Some (r, rest), s2, w2)).
Proof.
  intros (Cu & H0 & Hr & H32 & Hl & Hp) F He St.
  set (hist := command_history s) in *. set (e0 := mk_edit [] (Z.of_nat (length hist)) 0).
  assert (Hs : shown (t_screen (s_term s)) p0 (t_color (s_term s)) (t_clear_val (s_term s)) (t_total_size (s_term s)) room hist (mk_at [] [] (length hist)) 0 e0 s).
  { constructor; try reflexivity; cbn.
    - lia.
    - constructor.
    - rewrite Cu. lia.
    - intros i Hi. cbn [length]. destruct (Z.leb_spec p0 i), (Z.ltb_spec i (p0 + Z.of_nat 0)), (Z.leb_spec (p0 + Z.of_nat 0) i); cbn [andb]; try reflexivity; lia. }
  destruct (edit_loop_shown (t_screen (s_term s)) p0 (t_color (s_term s)) (t_clear_val (s_term s)) (t_total_size (s_term s)) room hist ltac:(lia) Hp
    evs ks e0 s _ a' 0%nat Hs F St) as (e1 & s1 & ext & H1 & L1).
  exists e1, s1, ext. split; [exact H1|]. intros rest w depth fuel. unfold get_command. fold hist. fold e0. rewrite L1. cbn [edit_loop].
  rewrite (command_event_types enter 10 e1 s1 (proj1 He) (proj2 He)). cbn [Z.eqb Pos.eqb print_strings].
  destruct (print [10] (s_term s1)) as [t|f]; cbn [mbind outcome_bind]; [|reflexivity].
  now rewrite (sh_input _ _ _ _ _ _ _ _ _ _ _ H1).
Qed.

(** ** Copying

    What a copy needs besides the laws of files: names are relative to the current
    directory, and using one file leaves the others that are open as they are. *)
Class shell_laws (S : Type) {FC : file_calls S} {FL : file_laws S} {SC : shell_calls S} := {
  absolute : option fc_handle -> list Z -> list Z;
  open_dir_law h s : exists d, open_dir_handle h 0 s = Ok (Some d, s) /\ forall p m k w, find_path (Some d) p m k w = find_path None (absolute h p) m k w;
  details_law h p c s : handle_of s h p -> files s !! p = Some c ->
    exists f, file_details h s = Ok (0, f) /\ fi_size f = Z.of_nat (length c) /\ has (fi_flags f) IS_DIR = false;
  keep_find p m r s s' st q c w : find_path None p m 0 s = Ok (r, s') -> opened s st q c w -> q <> p -> opened s' st q c w;
  keep_read off len x r s s' st q c w : read off len x s = Ok (r, s') -> opened s st q c w -> opened s' st q c w;
  keep_write off buf x p d r s s' st q c w : write off buf x s = Ok (r, s') -> opened s x p d true -> opened s st q c w -> q <> p -> opened s' st q c w;
  keep_close x p d v r s s' st q c w : close x s = Ok (r, s') -> opened s x p d v -> opened s st q c w -> q <> p -> opened s' st q c w }.

Section copying.
Context {S : Type} {FC : file_calls S} {FL : file_laws S} {SC : shell_calls S} {SL : shell_laws S}.
#[local] Set Default Proof Using "SL".
Lemma find_in_dir_spec d dir p c (w : S) : (forall p m k w, find_path (Some d) p m k w = find_path None (absolute dir p) m k w) -> good_path (absolute dir p) -> files w !! absolute dir p = Some c ->
  exists h f w', find_file_in_dir (Some d) p w = Ok (Some (h, f), w') /\ files w' = files w /\ handle_of w' h (absolute dir p) /\ fi_size f = Z.of_nat (length c).
Proof.
  intros Hd Hg Hc. unfold find_file_in_dir. rewrite Hd. destruct (find_law (absolute dir p) 0 w Hg) as (r & w' & -> & Ef & Hr). cbn [mbind outcome_bind].
  change (has 0 FILE_CREATE) with false in Ef. rewrite Ef, Hc in Hr. destruct Hr as (h & -> & Hh). destruct (details_law h (absolute dir p) c w' Hh ltac:(congruence)) as (f & Ed & Es & Ei).
  rewrite (bind_Ok_l _ _ _ Ed). rewrite Ei. now exists h, f, w'.
Qed.
(** Copying a file to another name succeeds and gives that name the bytes of the file,
    followed by what a longer file of that name had behind them; the file itself and all
    others stay as they are. *)
Theorem do_copy_correct src dst (s : shell S) (w : S) c : let p := absolute (current_directory s) src in let q := absolute (current_directory s) dst in
  good_path p -> good_path q -> p <> q -> files w !! p = Some c -> Z.of_nat (length c) <= capacity -> ~ refused p 0 -> ~ refused q (Z.lor FILE_WRITE FILE_CREATE) ->
  exists w', do_copy src dst s w = Ok (0, s, w') /\ files w' = <[q := c ++ drop (length c) (default [] (files w !! q))]> (files w).
Proof.
  intros p q Gp Gq Npq Hc Hcap Rp Rq. unfold do_copy. destruct (open_dir_law (current_directory s) w) as (d & -> & Hd). cbn [mbind outcome_bind].
  destruct (find_in_dir_spec d (current_directory s) src c w Hd Gp Hc) as (h & f & w1 & -> & F1 & H1 & Sz). fold p in H1. cbn [mbind outcome_bind].
  destruct (open_law p 0 h c w1 H1 ltac:(congruence) Rp) as (st & -> & O1). cbn [mbind outcome_bind]. change (has 0 FILE_WRITE) with false in O1.
  unfold open_in. rewrite Hd. fold q. destruct (find_law q (Z.lor FILE_WRITE FILE_CREATE) w1 Gq) as (r & w2 & E2 & F2 & H2). rewrite E2. cbn [mbind outcome_bind].
  change (has (Z.lor FILE_WRITE FILE_CREATE) FILE_CREATE) with true in F2. rewrite F2, lookup_insert_eq in H2. destruct H2 as (h2 & -> & H2).
  destruct (open_law q (Z.lor FILE_WRITE FILE_CREATE) h2 (default [] (files w1 !! q)) w2 H2) as (st2 & -> & O2); [rewrite F2; apply lookup_insert_eq|exact Rq|]. cbn [mbind outcome_bind].
  change (has (Z.lor FILE_WRITE FILE_CREATE) FILE_WRITE) with true in O2. pose proof (keep_find _ _ _ _ _ _ _ _ _ E2 O1 Npq) as O1'.
  pose proof capacity_range as Cr. unfold read_whole. rewrite Sz, u32_small by (unfold is_u32; lia).
  destruct (read_law p c false st 0 (Z.of_nat (length c)) w2 O1' ltac:(lia) ltac:(unfold is_u32; lia)) as (w3 & E3 & F3 & O3).
  assert (T : take (Z.to_nat (Z.of_nat (length c))) (drop (Z.to_nat 0) c) = c) by (rewrite Nat2Z.id; apply firstn_all). rewrite T in E3. rewrite E3. cbn [mbind outcome_bind].
  rewrite Nat2Z.id, Nat.sub_diag, app_nil_r.
  pose proof (keep_read _ _ _ _ _ _ _ _ _ _ E3 O2) as O2'.
  destruct (write_law q (default [] (files w1 !! q)) st2 0 c w3 O2') as (st3 & w4 & E4 & O4 & F4); [lia|lia|]. rewrite E4. cbn [mbind outcome_bind].
  pose proof (keep_write _ _ _ _ _ _ _ _ _ _ _ _ E4 O2' O3 Npq) as O5.
  destruct (close_law q _ true st3 w4 O4) as (w5 & E5 & F5). rewrite E5. cbn [mbind outcome_bind]. pose proof (keep_close _ _ _ _ _ _ _ _ _ _ _ E5 O4 O5 Npq) as O6.
  destruct (close_law p c false st w5 O6) as (w6 & E6 & F6). rewrite E6. cbn [mbind outcome_bind]. exists w6. split; [reflexivity|].
  rewrite F6, F5. rewrite <- (insert_delete_eq (files w4)), F4, insert_delete_eq, F3, F2, insert_insert_eq, F1. unfold splice. now rewrite Nat.add_0_l.
Qed.
End copying.

(** ** A system with one directory *)
Module One.
Import Plain.
#[export] Instance shell_one : shell_calls Plain.store := {|
  get_root_directory _ s := Ok (Some ([], 0), s); open_dir_handle _ _ s := Ok (Some tt, s); get_file_in_dir _ _ s := Ok (None, s);
  file_details h s := Ok (0, mk_details h.2 0 0 0 h.1); spawn_process _ _ _ s := Ok s;
  master_time _ := 0; utc_offset _ := 0; get_free_memory _ := 0; request_mode w h s := (0, (w, h, 1), s); display_memory _ := [] |}.
#[export] Program Instance shell_one_laws : shell_laws Plain.store := {| absolute _ p := p |}.
Next Obligation. intros h s. now exists tt. Qed.
Next Obligation. intros h p c s [<- E] Hc. eexists. split; [reflexivity|]. change (s !! h.1 = Some c) in Hc. cbn. rewrite E, Hc. now split. Qed.
Next Obligation. intros p m r s s' st q c w _ H _. exact H. Qed.
Next Obligation. intros off len x r s s' st q c w _ H. exact H. Qed.
Next Obligation. intros off buf x p d r s s' st q c w _ _ H _. exact H. Qed.
Next Obligation. intros x p d v r s s' st q c w _ _ H _. exact H. Qed.
Definition screen : terminal := mk_term 10 2 20 10 2 1 7 0 0x0f (mk_char 0 0x0f) (repeat (mk_char 0 0x0f) 20) 2 0.
Definition shell_of (hist : list (list Z)) : shell Plain.store := mk_shell screen [] hist (Some ([], 0)) 0 0 0.
(** A key with what it is for the shell: the state of the keyboard has it down. *)
Definition press (k : virtual_keycode) : arrival :=
  mk_arrival (mk_event 0 0 (vk k) KEY_DOWN 0) (mk_input (<[Z.to_nat (vk k) := true]> (repeat false 256)) 0 0 []).
End One.
Import One Plain.
Lemma do_copy_correct_witness : exists w', do_copy (str "a") (str "b") (shell_of []) {[str "a" := [1; 2]; str "b" := [7; 8; 9]]} = Ok (0, shell_of [], w') /\
  files w' = <[str "b" := [1; 2; 9]]> {[str "a" := [1; 2]; str "b" := [7; 8; 9]]}.
Proof.
  destruct (do_copy_correct (str "a") (str "b") (shell_of []) ({[str "a" := [1; 2]; str "b" := [7; 8; 9]]} : Plain.store) [1; 2]) as (w' & E & F);
    [exact I|exact I|discriminate|reflexivity|vm_compute; discriminate|intros H; exact H|intros H; exact H|].
  exists w'. split; [exact E|]. rewrite F. vm_compute. reflexivity.
Defined.
Lemma get_command_edits_witness : exists e1 s1 ext, shown (t_screen screen) 2 15 (mk_char 0 15) 20 17 [str "dir"] (mk_at [99] [100] 1) ext e1 s1 /\ input e1 = str "cd".
Proof.
  destruct (get_command_edits 2 17 (shell_of [str "dir"]) [press VK_A; press VK_BACKSPACE; press VK_D; press VK_LEFT; press VK_LSHIFT; press VK_C]
    [Kchar 97; Kback; Kchar 100; Kleft; Knone; Kchar 99] (press VK_ENTER) (mk_at [99] [100] 1)) as (e1 & s1 & ext & H & _).
  - repeat (split; [vm_compute; (reflexivity || discriminate)|]). apply Forall_forall. intros l Hl. cbn in Hl. apply list_elem_of_singleton in Hl as ->.
    repeat (constructor; [split; vm_compute; (discriminate || reflexivity)|]). constructor.
  - assert (N : forall k, k ∈ [VK_A; VK_BACKSPACE; VK_D; VK_LSHIFT; VK_C] -> no_arrow (press k)).
    { intros k Hk. unfold no_arrow. rewrite !elem_of_cons, elem_of_nil in Hk. rewrite !elem_of_cons, elem_of_nil.
      destruct Hk as [->|[->|[->|[->|[->|[]]]]]]; vm_compute; intros [E|[E|[E|[E|[]]]]]; discriminate. }
    repeat constructor; try reflexivity; try (apply N; set_solver); vm_compute; discriminate.
  - split; [split; reflexivity|]. split; [|vm_compute; reflexivity]. unfold no_arrow. rewrite !elem_of_cons, elem_of_nil. vm_compute. intros [E|[E|[E|[E|[]]]]]; discriminate.
  - vm_compute. reflexivity.
  - exists e1, s1, ext. split; [exact H|]. exact (sh_input _ _ _ _ _ _ _ _ _ _ _ H).
Defined.
(** Down at a new line, with a history: the line behind the last one is read. *)
Example down_at_a_new_line : (command_event (press VK_DOWN) (mk_edit [] 1 0) (shell_of [str "dir"])) = Fault OutOfBounds.
Proof. vm_compute. reflexivity. Qed.
(** Escape is printed as the beginning of a sequence that is not there. *)
Example escape_at_the_prompt : (command_event (press VK_ESCAPE) (mk_edit [] 0 0) (shell_of [])) = Fault OutOfBounds.
Proof. vm_compute. reflexivity. Qed.
(** The first dot of the whole path begins the extension. *)
Example dot_in_a_directory : find_char 46 (str "0:/my.dir/prog.elf") = Some 5%nat.
Proof. reflexivity. Qed.
