(* ===== verification/Display.v ===== *)
(** * Displays and the kernel's terminal (kernel/display.cpp, common/display_mode.h)

    [D] is everything behind the display drivers and the page tables.  A driver is a record
    of functions, as in the source; its address stands for it.  The cells that can be
    reached from an address are a list: the terminal keeps the address only, so that two
    terminals, or a program and the kernel, share the cells. *)
From S2P Require Import Prelude Paging Terminal.

Record display_mode := mk_mode {
  dm_width : Z; dm_height : Z; dm_pitch : Z; dm_refresh : Z; dm_bpp : Z; dm_format : Z; dm_flags : Z; dm_buffer_size : Z }.
#[export] Instance display_mode_eq_dec : EqDecision display_mode.
Proof. solve_decision. Defined.

Definition FORMAT_DONT_CARE : Z := 0.
Definition FORMAT_TEXT_W_ATTRIBUTE : Z := 1.
Definition FORMAT_INDEXED_BIT_PLANE : Z := 2.
Definition FORMAT_INDEXED_BYTE_PLANE : Z := 3.
Definition FORMAT_INDEXED_LINEAR : Z := 4.
Definition FORMAT_GRAYSCALE : Z := 5.
Definition FORMAT_ABGR8888 : Z := 29.
Definition FORMAT_BGRA8888 : Z := 30.
Definition FORMAT_ABGR32 : Z := FORMAT_ABGR8888.
(** An enumerator without a value is one more than the one before it. *)
Definition DISPLAY_MODE_INVALID : Z := FORMAT_ABGR32 + 1.
Definition DISPLAY_INDEXED : Z := 0x02.
Definition DISPLAY_MONO : Z := 0x08.

Definition clearval : text_char := mk_char 0 0x0f.
(** [sizeof(text_char)]. *)
Definition sizeof_text_char : Z := 2.

Record display_driver (D : Type) := mk_driver {
  set_mode : Z -> D -> outcome (bool * D);
  get_framebuffer : D -> Z * D;
  drv_set_display_offset : Z -> bool -> D -> outcome D;
  get_cursor_offset : D -> Z * D;
  drv_set_cursor_offset : Z -> D -> D;
  set_cursor_visible : bool -> D -> D;
  available_modes : list display_mode }.
Arguments set_mode {D}. Arguments get_framebuffer {D}. Arguments drv_set_display_offset {D}. Arguments get_cursor_offset {D}.
Arguments drv_set_cursor_offset {D}. Arguments set_cursor_visible {D}. Arguments available_modes {D}.

(** What the terminal uses of the machine: its memory at an address, and the page tables. *)
Class display_machine (D : Type) := {
  text_cells : Z -> D -> list text_char;
  set_text_cells : Z -> list text_char -> D -> D;
  get_physical : Z -> D -> Z;
  map_to_new_pages : Z -> Z -> Z -> D -> Z * D }.

Record kernel_terminal := mk_kt {
  m_display : Z; m_screen_ptr : Z; m_height : Z; m_width : Z; m_total_size : Z; m_last_row_start : Z; m_cursorpos : Z }.
Record display_state (D : Type) := mk_display {
  default_driver : option Z; current_mode : display_mode; k_terminal : option kernel_terminal; machine : D }.
Arguments mk_display {D}. Arguments default_driver {D}. Arguments current_mode {D}. Arguments k_terminal {D}. Arguments machine {D}.

Section display.
Context {D : Type} {M : display_machine D} (drivers : Z -> option (display_driver D)).
#[local] Set Default Proof Using "Type".

(** A driver is used through its address. *)
Definition driver_at (d : Z) : outcome (display_driver D) :=
  match drivers d with Some drv => Ok drv | None => Fault PageFault end.
Definition the_driver (d : option Z) : outcome (display_driver D) :=
  match d with Some d => driver_at d | None => Fault PageFault end.

(** ** The kernel's terminal *)
Definition get_mapped_frame_buffer (drv : display_driver D) (size : Z) (m : D) : Z * D :=
  let '(phys_addr, m) := get_framebuffer drv m in
  if negb (get_physical phys_addr m =? phys_addr) then
    map_to_new_pages phys_addr (memmanager_minimum_pages (mul32 size sizeof_text_char)) (Z.lor PAGE_PRESENT PAGE_RW) m
  else (phys_addr, m).

Definition new_kernel_terminal (d rows cols : Z) (m : D) : outcome (kernel_terminal * D) :=
  drv ← driver_at d;
  let '(ptr, m) := get_mapped_frame_buffer drv (mul32 rows cols) m in
  let '(cursor, m) := get_cursor_offset drv m in
  Ok (mk_kt d ptr rows cols (mul32 rows cols) (mul32 (sub32 rows 1) cols) cursor, m).

Definition set_cursorpos (offset : Z) (t : kernel_terminal) : kernel_terminal :=
  mk_kt (m_display t) (m_screen_ptr t) (m_height t) (m_width t) (m_total_size t) (m_last_row_start t) offset.
Definition kt_set_cursor_offset (offset : Z) (t : kernel_terminal) (m : D) : outcome (kernel_terminal * D) :=
  drv ← driver_at (m_display t);
  Ok (set_cursorpos offset t, drv_set_cursor_offset drv offset m).
Definition kt_set_cursor_position (row col : Z) (t : kernel_terminal) (m : D) : outcome (kernel_terminal * D) :=
  kt_set_cursor_offset (add32 (mul32 row (m_height t)) col) t m.

(** [std::fill] of [n] cells from [at_]. *)
Definition kt_fill (n : nat) (at_ : Z) (t : kernel_terminal) (m : D) : outcome D :=
  l ← fill_cells n at_ clearval (text_cells (m_screen_ptr t) m);
  Ok (set_text_cells (m_screen_ptr t) l m).
Definition kt_clear (t : kernel_terminal) (m : D) : outcome (kernel_terminal * D) :=
  m ← kt_fill (Z.to_nat (m_total_size t)) 0 t m;
  kt_set_cursor_offset 0 t m.
Definition kt_clear_row (row : Z) (t : kernel_terminal) (m : D) : outcome D :=
  kt_fill (Z.to_nat (m_width t)) (mul32 row (m_width t)) t m.
Definition kt_scroll_up (t : kernel_terminal) (m : D) : outcome (kernel_terminal * D) :=
  l ← copy_up (Z.to_nat (sub32 (m_total_size t) (m_width t))) 0 (m_width t) (text_cells (m_screen_ptr t) m);
  let m := set_text_cells (m_screen_ptr t) l m in
  '(t, m) ← kt_set_cursor_position (sub32 (m_height t) 1) 0 t m;
  m ← kt_clear_row (sub32 (m_height t) 1) t m;
  Ok (t, m).

(** [dest->ch = c]: the attribute of the cell stays. *)
Definition put_ch (c pos : Z) (t : kernel_terminal) (m : D) : outcome D :=
  let l := text_cells (m_screen_ptr t) m in
  old ← fetch l pos; l ← store l pos (mk_char c (attr old));
  Ok (set_text_cells (m_screen_ptr t) l m).
Definition kt_handle_char (source pos : Z) (t : kernel_terminal) (m : D) : outcome (Z * D) :=
  if source =? 10 then
    if m_width t =? 0 then Fault AssertFailed else Ok (m_width t - pos mod m_width t, m)
  else if source =? 9 then Ok (tab_size - pos mod tab_size, m)
  else if source =? 8 then m ← put_ch 0 pos t m; Ok (-1, m)
  else m ← put_ch source pos t m; Ok (1, m).

Fixpoint print_chars_loop (str : list Z) (pos : Z) (t : kernel_terminal) (m : D) : outcome (Z * kernel_terminal * D) :=
  match str with
  | [] => Ok (pos, t, m)
  | c :: str =>
    '(n, m) ← kt_handle_char c pos t m;
    let pos := add32 pos n in
    '(pos, t, m) ← (if m_total_size t <=? pos then '(t, m) ← kt_scroll_up t m; Ok (m_last_row_start t, t, m) else Ok (pos, t, m));
    print_chars_loop str pos t m
  end.
Definition print_chars (str : list Z) (t : kernel_terminal) (m : D) : outcome (kernel_terminal * D) :=
  '(pos, t, m) ← print_chars_loop str (m_cursorpos t) t m;
  kt_set_cursor_offset pos t m.

Definition still_valid (d : option Z) (width height : Z) (t : kernel_terminal) : bool :=
  bool_decide (d = Some (m_display t)) && (width =? m_width t) && (height =? m_height t).

(** ** The display *)
Definition set_machine (m : D) (s : display_state D) : display_state D := mk_display (default_driver s) (current_mode s) (k_terminal s) m.
Definition set_terminal (t : kernel_terminal) (m : D) (s : display_state D) : display_state D :=
  mk_display (default_driver s) (current_mode s) (Some t) m.

Definition initialize_terminal (col row : Z) (s : display_state D) : outcome (display_state D) :=
  if match k_terminal s with Some t => still_valid (default_driver s) col row t | None => false end then Ok s
  else match default_driver s with
  | None => Fault PageFault
  | Some d =>
    '(t, m) ← new_kernel_terminal d row col (machine s);
    '(t, m) ← kt_clear t m;
    Ok (set_terminal t m s)
  end.

Definition print_string_len (str : list Z) (s : display_state D) : outcome (display_state D) :=
  match k_terminal s with
  | Some t => '(t, m) ← print_chars str t (machine s); Ok (set_terminal t m s)
  | None => Ok s
  end.
Definition print_string (c : Z) (s : display_state D) : outcome (display_state D) := print_string_len [c] s.

Definition set_cursor_offset (offset : Z) (s : display_state D) : outcome (Z * display_state D) :=
  drv ← the_driver (default_driver s);
  Ok (0, set_machine (drv_set_cursor_offset drv offset (machine s)) s).
Definition set_display_offset (offset : Z) (on_retrace : Z) (s : display_state D) : outcome (Z * display_state D) :=
  drv ← the_driver (default_driver s);
  m ← drv_set_display_offset drv offset (negb (on_retrace =? 0)) (machine s);
  Ok (0, set_machine m s).

(** [field] is 0 where the request leaves it open. *)
Definition any_or (field : Z) (ok : bool) : bool := (field =? 0) || ok.
Definition display_mode_satisfied (requested actual : display_mode) : bool :=
  if dm_format actual =? DISPLAY_MODE_INVALID then false
  else any_or (dm_bpp requested) (dm_bpp requested =? dm_bpp actual)
    && any_or (dm_width requested) (dm_width requested =? dm_width actual)
    && any_or (dm_height requested) (dm_height requested =? dm_height actual)
    && any_or (dm_pitch requested) (dm_pitch requested =? dm_pitch actual)
    && any_or (dm_refresh requested) (dm_refresh requested =? dm_refresh actual)
    && any_or (dm_flags requested) (Z.land (dm_flags requested) (dm_flags actual) =? dm_flags requested)
    && any_or (dm_format requested) (dm_format requested =? dm_format actual)
    && any_or (dm_buffer_size requested) (dm_buffer_size requested <=? dm_buffer_size actual).

(** [wanted] says that [result] is not null. *)
Definition get_display_mode (index : Z) (wanted : bool) (s : display_state D) : outcome (Z * option display_mode) :=
  if negb wanted then Ok (-1, None)
  else if index =? -1 then Ok (0, Some (current_mode s))
  else if index <? 0 then Ok (-1, None)
  else
    drv ← the_driver (default_driver s);
    match available_modes drv !! Z.to_nat index with Some mode => Ok (0, Some mode) | None => Ok (-1, None) end.

(** The loop over the modes of the driver: the first that is good enough and can be set. *)
Fixpoint try_modes (drv : display_driver D) (requested : display_mode) (i : Z) (modes : list display_mode) (m : D)
  : outcome (option display_mode * D) :=
  match modes with
  | [] => Ok (None, m)
  | mode :: modes =>
    if display_mode_satisfied requested mode then
      '(success, m) ← set_mode drv i m;
      if success : bool then Ok (Some mode, m) else try_modes drv requested (i + 1) modes m
    else try_modes drv requested (i + 1) modes m
  end.
Definition set_current_mode (mode : display_mode) (m : D) (s : display_state D) : display_state D :=
  mk_display (default_driver s) mode (k_terminal s) m.
Definition find_mode (requested : display_mode) (s : display_state D) : outcome (bool * display_state D) :=
  drv ← the_driver (default_driver s);
  '(found, m) ← try_modes drv requested 0 (available_modes drv) (machine s);
  match found with
  | Some mode => Ok (true, set_current_mode mode m s)
  | None => Ok (false, set_machine m s)
  end.
(** The first part of [set_display_mode]: no request, one that the mode answers already, or
    a mode that is looked for. *)
Definition choose_mode (requested : option display_mode) (s : display_state D) : outcome (bool * display_state D) :=
  match requested with
  | None => Ok (true, s)
  | Some requested => if display_mode_satisfied requested (current_mode s) then Ok (true, s) else find_mode requested s
  end.
(** [active] is the answer of [this_task_is_active]; [actual] is the mode afterwards. *)
Definition set_display_mode (active : bool) (requested : option display_mode) (s : display_state D) : outcome (Z * display_state D) :=
  if active : bool then
    '(success, s) ← choose_mode requested s;
    if success : bool then
      s ← (if has (dm_flags (current_mode s)) DISPLAY_TEXT_MODE
           then initialize_terminal (dm_width (current_mode s)) (dm_height (current_mode s)) s else Ok s);
      Ok (0, s)
    else Ok (-1, s)
  else Ok (-1, s).

Definition text_80x25 : display_mode := mk_mode 80 25 0 0 0 FORMAT_DONT_CARE DISPLAY_TEXT_MODE 0.
Definition invalid_mode (mode : display_mode) : display_mode :=
  mk_mode (dm_width mode) (dm_height mode) (dm_pitch mode) (dm_refresh mode) (dm_bpp mode) DISPLAY_MODE_INVALID (dm_flags mode) (dm_buffer_size mode).
Definition display_add_driver (active : bool) (d : Z) (use_as_default : bool) (s : display_state D) : outcome (display_state D) :=
  if use_as_default : bool then
    '(_, s) ← set_display_mode active (Some text_80x25)
                (mk_display (Some d) (invalid_mode (current_mode s)) (k_terminal s) (machine s));
    Ok s
  else Ok s.

Definition map_display_memory (s : display_state D) : outcome (Z * display_state D) :=
  let num_pages := memmanager_minimum_pages (dm_buffer_size (current_mode s)) in
  drv ← the_driver (default_driver s);
  let '(buf, m) := get_framebuffer drv (machine s) in
  let '(ptr, m) := map_to_new_pages buf num_pages (Z.lor (Z.lor PAGE_USER PAGE_PRESENT) PAGE_RW) m in
  Ok (ptr, set_machine m s).
End display.

(** Before the first driver: the globals are zero. *)
Definition no_display {D} (m : D) : display_state D := mk_display None (mk_mode 0 0 0 0 0 0 0 0) None m.
