(* ===== verification/DisplayProofs.v ===== *)
(** * The display: what the kernel's terminal and the choice of a mode guarantee

    The terminal of the kernel never leaves its cells, whatever is printed and whatever
    modes are chosen in between; and it prints plain text as the terminal of the programs
    does, on the same roll of paper. *)
From S2P Require Import Prelude Paging Terminal TerminalProofs Display.

(** A mode that can carry the terminal: if it is a text mode, it has cells. *)
Definition mode_ok (room : Z) (mode : display_mode) : Prop :=
  has (dm_flags mode) DISPLAY_TEXT_MODE = true ->
  0 < dm_width mode /\ 0 < dm_height mode /\ dm_width mode * dm_height mode <= room.

(** Memory is what was written to it; mapping gives the pages it was asked for, or fails
    and gives 0 (no page or no address is left).  [good] is what the drivers need of their
    own state; every address goes on showing at least the
    cells it showed before. *)
Class display_laws (D : Type) {M : display_machine D} := {
  good : D -> Prop;
  grows (m m' : D) : Prop := (good m -> good m') /\ forall a, (length (text_cells a m) <= length (text_cells a m'))%nat;
  dl_set : forall a l m, length l = length (text_cells a m) -> text_cells a (set_text_cells a l m) = l;
  dl_set_grows : forall a l m, length l = length (text_cells a m) -> grows m (set_text_cells a l m);
  dl_map : forall phys n flags m v m', map_to_new_pages phys n flags m = (v, m') ->
    grows m m' /\ (v = 0 \/ n * PAGE_SIZE <= sizeof_text_char * Z.of_nat (length (text_cells v m'))) }.
Lemma grows_refl {D} `{display_laws D} m : grows m m.
Proof. split; [auto|]. intros a. lia. Qed.
Lemma grows_trans {D} `{display_laws D} m1 m2 m3 : grows m1 m2 -> grows m2 m3 -> grows m1 m3.
Proof. intros [A1 A] [B1 B]. split; [auto|]. intros a. specialize (A a). specialize (B a). lia. Qed.
#[export] Hint Resolve grows_refl : display.

(** What a driver keeps: no operation takes memory away, the cursor is not in the cells, and
    the frame buffer of a driver that is mapped one to one has [room] cells. *)
Record driver_ok {D} `{L : display_laws D} (room : Z) (drv : display_driver D) : Prop := {
  do_mode : forall i m, good m -> 0 <= i < Z.of_nat (length (available_modes drv)) -> exists ok m', set_mode drv i m = Ok (ok, m') /\ grows m m';
  do_buffer : forall m, grows m (get_framebuffer drv m).2 /\
    (get_physical (get_framebuffer drv m).1 (get_framebuffer drv m).2 = (get_framebuffer drv m).1 ->
     room <= Z.of_nat (length (text_cells (get_framebuffer drv m).1 (get_framebuffer drv m).2)));
  do_offset : forall off r m, good m -> exists m', drv_set_display_offset drv off r m = Ok m' /\ grows m m';
  do_cursor : forall m, grows m (get_cursor_offset drv m).2;
  do_set_cursor : forall off m, grows m (drv_set_cursor_offset drv off m) /\ forall a, text_cells a (drv_set_cursor_offset drv off m) = text_cells a m;
  do_modes : Forall (mode_ok room) (available_modes drv) }.

Section display.
Context {D : Type} {M : display_machine D} {L : display_laws D} (drivers : Z -> option (display_driver D)) (room : Z).
Context (Hdrivers : forall d drv, drivers d = Some drv -> driver_ok room drv) (Hroom : 0 < room < 2 ^ 30).
#[local] Set Default Proof Using "L".

(** The terminal as the programs' terminal with the default colour; the cursor, which
    printing keeps apart, is left out. *)
Definition as_term (t : kernel_terminal) (m : D) : terminal :=
  mk_term (m_width t) (m_height t) (m_total_size t) (m_last_row_start t) 0 0 0 0 0x0f clearval (text_cells (m_screen_ptr t) m) 0 0.

Record kt_ok (t : kernel_terminal) (m : D) : Prop := {
  ko_term : term_ok (as_term t m);
  ko_driver : is_Some (drivers (m_display t)) }.

Lemma kt_ok_grows t m m' c : grows m m' -> kt_ok t m -> kt_ok (set_cursorpos c t) m'.
Proof.
  intros [_ G] [[W H S T Ls Sc] Hd]. specialize (G (m_screen_ptr t)). constructor; [|exact Hd].
  constructor; cbn [as_term set_cursorpos t_width t_height t_total_size t_last_row_start t_screen m_screen_ptr m_width m_height m_total_size m_last_row_start] in *; auto; lia.
Qed.
Lemma set_cursorpos_id t : set_cursorpos (m_cursorpos t) t = t.
Proof. now destruct t. Qed.
Lemma set_cursorpos_twice a b t : set_cursorpos a (set_cursorpos b t) = set_cursorpos a t.
Proof. reflexivity. Qed.

(** ** Operations of the terminal *)
Lemma put_cells t m l : length l = length (text_cells (m_screen_ptr t) m) ->
  text_cells (m_screen_ptr t) (set_text_cells (m_screen_ptr t) l m) = l /\ grows m (set_text_cells (m_screen_ptr t) l m).
Proof. intros H. split; [now apply dl_set|now apply dl_set_grows]. Qed.

Lemma kt_fill_spec n at_ t m : 0 <= at_ -> at_ + Z.of_nat n <= Z.of_nat (length (text_cells (m_screen_ptr t) m)) ->
  exists m', kt_fill n at_ t m = Ok m' /\ grows m m' /\
    fill_cells n at_ clearval (text_cells (m_screen_ptr t) m) = Ok (text_cells (m_screen_ptr t) m').
Proof.
  intros Ha Hl. destruct (fill_cells_spec n clearval at_ _ Ha Hl) as (l & E & Ll & _).
  destruct (put_cells t m l Ll) as [P G]. exists (set_text_cells (m_screen_ptr t) l m).
  split; [unfold kt_fill; now rewrite (bind_Ok_l _ _ _ E)|]. split; [exact G|]. now rewrite P.
Qed.

Lemma kt_set_cursor_offset_spec off t m : is_Some (drivers (m_display t)) ->
  exists m', kt_set_cursor_offset drivers off t m = Ok (set_cursorpos off t, m') /\ (forall a, text_cells a m' = text_cells a m) /\ grows m m'.
Proof using Hdrivers.
  intros [drv Hd]. unfold kt_set_cursor_offset, driver_at. rewrite Hd. cbn [mbind outcome_bind].
  destruct (do_set_cursor _ _ (Hdrivers _ _ Hd) off m) as [G C]. eexists. split; [reflexivity|]. auto.
Qed.
Lemma kt_scroll_up_spec t m : kt_ok t m ->
  exists c m' t', kt_scroll_up drivers t m = Ok (set_cursorpos c t, m') /\ grows m m' /\
    scroll_up (as_term t m) = Ok t' /\ t_screen t' = text_cells (m_screen_ptr t) m'.
Proof using Hdrivers L.
  intros [[W H S T Ls Sc] Hd].
  cbn [as_term t_width t_height t_total_size t_last_row_start t_screen] in *.
  assert (P : 0 <= m_width t * (m_height t - 1)) by (apply Z.mul_nonneg_nonneg; lia).
  assert (E : m_width t * m_height t = m_width t * (m_height t - 1) + m_width t) by lia.
  assert (Hh : m_height t <= m_width t * m_height t) by nia.
  unfold kt_scroll_up, scroll_up, clear_row, kt_clear_row, kt_set_cursor_position. cbn [as_term t_width t_height t_total_size t_screen].
  rewrite (sub32_small (m_total_size t)) by lia.
  destruct (copy_up_spec (Z.to_nat (m_total_size t - m_width t)) (text_cells (m_screen_ptr t) m) 0 (m_width t)) as (l1 & E1 & L1 & _); [lia..|].
  rewrite !(bind_Ok_l _ _ _ E1). destruct (put_cells t m l1 L1) as [P1 G1]. set (m1 := set_text_cells _ l1 m) in *.
  rewrite (sub32_small (m_height t)) by lia.
  destruct (kt_set_cursor_offset_spec (add32 (mul32 (m_height t - 1) (m_height t)) 0) t m1 Hd) as (m2 & E2 & C2 & D2).
  rewrite (bind_Ok_l _ _ _ E2). cbn [m_width m_height set_cursorpos set_cursor_xy set_cursor set_screen as_term t_width t_height t_clear_val t_screen].
  rewrite ?(sub32_small (m_height t)) by lia. rewrite !(mul32_small (m_height t - 1) (m_width t)) by lia. fold (set_cursorpos (add32 (mul32 (m_height t - 1) (m_height t)) 0) t).
  set (t1 := set_cursorpos (add32 (mul32 (m_height t - 1) (m_height t)) 0) t).
  destruct (kt_fill_spec (Z.to_nat (m_width t)) ((m_height t - 1) * m_width t) t1 m2) as (m3 & E3 & G3 & F3).
  { lia. }
  { change (m_screen_ptr t1) with (m_screen_ptr t). rewrite C2, P1, L1. lia. }
  change (m_screen_ptr t1) with (m_screen_ptr t) in F3. rewrite C2, P1 in F3.
  rewrite (bind_Ok_l _ _ _ E3), (bind_Ok_l _ _ _ F3). eexists _, m3, _. split; [reflexivity|].
  split; [|split; [reflexivity|reflexivity]].
  exact (grows_trans _ _ _ G1 (grows_trans _ _ _ D2 G3)).
Qed.

Lemma put_ch_spec c pos t m : kt_ok t m -> 0 <= pos < m_total_size t ->
  exists m' a, put_ch c pos t m = Ok m' /\ grows m m' /\ text_cells (m_screen_ptr t) m !! Z.to_nat pos = Some a /\
    store (text_cells (m_screen_ptr t) m) pos (mk_char c (attr a)) = Ok (text_cells (m_screen_ptr t) m').
Proof.
  intros [[_ _ _ _ _ Sc] _] Hp. cbn [as_term t_total_size t_screen] in Sc. unfold put_ch.
  destruct (fetch_in (text_cells (m_screen_ptr t) m) pos) as (a & Ea & Ha); [lia|]. rewrite (bind_Ok_l _ _ _ Ea).
  destruct (store_in (text_cells (m_screen_ptr t) m) pos (mk_char c (attr a))) as (l & El & Ll & _); [lia|]. rewrite (bind_Ok_l _ _ _ El).
  destruct (put_cells t m l Ll) as [P G]. eexists _, a. split; [reflexivity|]. split; [exact G|]. split; [exact Ha|]. now rewrite P.
Qed.

Definition white_at (pos : Z) (t : kernel_terminal) (m : D) : Prop :=
  forall a, text_cells (m_screen_ptr t) m !! Z.to_nat pos = Some a -> attr a = 0x0f.

Lemma kt_handle_char_spec c pos t m : kt_ok t m -> 0 <= pos < m_total_size t ->
  exists n m', kt_handle_char c pos t m = Ok (n, m') /\ grows m m' /\ -1 <= n <= Z.max 4 (m_width t) /\
    (white_at pos t m -> c <> 8 -> c <> 13 -> handle_char c pos (as_term t m) = Ok (n, as_term t m')).
Proof.
  intros Hok Hp. pose proof (tk_width _ (ko_term _ _ Hok)) as W. cbn [as_term t_width] in W. unfold kt_handle_char, handle_char.
  cbn [as_term t_width t_screen t_color set_screen].
  destruct (Z.eqb_spec c 10) as [->|H10].
  { rewrite (proj2 (Z.eqb_neq (m_width t) 0)) by lia. pose proof (Z.mod_pos_bound pos (m_width t) W).
    eexists _, m. split; [reflexivity|]. split; [apply grows_refl|]. split; [lia|]. reflexivity. }
  destruct (Z.eqb_spec c 9) as [->|H9].
  { unfold tab_size. pose proof (Z.mod_pos_bound pos 4 ltac:(lia)).
    eexists _, m. split; [reflexivity|]. split; [apply grows_refl|]. split; [lia|]. reflexivity. }
  destruct (Z.eqb_spec c 8) as [->|H8].
  { destruct (put_ch_spec 0 pos t m Hok Hp) as (m' & a & E & G & _). rewrite (bind_Ok_l _ _ _ E).
    exists (-1), m'. split; [reflexivity|]. split; [exact G|]. split; [lia|]. congruence. }
  destruct (put_ch_spec c pos t m Hok Hp) as (m' & a & E & G & Ha & St). rewrite (bind_Ok_l _ _ _ E).
  exists 1, m'. split; [reflexivity|]. split; [exact G|]. split; [lia|]. intros Wh _ H13.
  rewrite (proj2 (Z.eqb_neq c 13)) by lia. rewrite (Wh a Ha) in St. now rewrite (bind_Ok_l _ _ _ St).
Qed.

(** ** Printing *)
Definition white (p : paper) : Prop := forall x, attr (p_cells p x) = 0x0f.
Lemma white_char w h c p : white p -> white (paper_char w h 0x0f c p).
Proof.
  intros H. unfold paper_char. assert (Q : white (paper_move w 0x0f c p)).
  { unfold paper_move. destruct (c =? 13), (c =? 10), (c =? 9); try exact H. intros x. cbn [p_cells]. destruct (x =? p_at p); [reflexivity|apply H]. }
  destruct (_ <=? _); exact Q.
Qed.
Lemma shows_white pos t m p : 0 <= pos < m_total_size t -> shows (as_term t m) pos p -> white p -> white_at pos t m.
Proof. intros Hp (_ & _ & Hw & _) H a Ha. cbn [as_term t_screen t_total_size] in Hw. rewrite Hw in Ha by exact Hp. injection Ha as <-. apply H. Qed.
Lemma shows_as t m m' u pos p : same_settings (as_term t m) u -> t_screen u = text_cells (m_screen_ptr t) m' -> shows u pos p ->
  shows (as_term t m') pos p.
Proof.
  intros (A1 & A2 & A3 & _ & _ & A6 & _) Es (B1 & B2 & B3 & B4). rewrite A1, A2, A3, A6, Es in *.
  split; [exact B1|]. split; [exact B2|]. split; [exact B3|exact B4].
Qed.

Lemma kt_step_spec c pos t m : kt_ok t m -> 0 <= pos < m_total_size t ->
  exists pos' k m', ('(n, m1) ← kt_handle_char c pos t m;
      if m_total_size t <=? add32 pos n then '(t2, m2) ← kt_scroll_up drivers t m1; Ok (m_last_row_start t2, t2, m2)
      else Ok (add32 pos n, t, m1)) = Ok (pos', set_cursorpos k t, m') /\
    0 <= pos' < m_total_size t /\ grows m m' /\
    (forall p, shows (as_term t m) pos p -> white p -> c <> 8 -> c <> 13 ->
      shows (as_term t m') pos' (paper_char (m_width t) (m_height t) 0x0f c p)).
Proof using Hdrivers L.
  intros Hok Hp. destruct (kt_handle_char_spec c pos t m Hok Hp) as (n & m1 & E1 & G1 & _ & Ht). rewrite (bind_Ok_l _ _ _ E1).
  pose proof (kt_ok_grows t m m1 (m_cursorpos t) G1 Hok) as Hok1. rewrite set_cursorpos_id in Hok1.
  assert (Hstep : forall p, shows (as_term t m) pos p -> white p -> c <> 8 -> c <> 13 -> exists pos' u,
    (if m_total_size t <=? add32 pos n then t2 ← scroll_up (as_term t m1); Ok (t_last_row_start t2, t2) else Ok (add32 pos n, as_term t m1)) = Ok (pos', u) /\
    same_settings (as_term t m) u /\ shows u pos' (paper_char (m_width t) (m_height t) 0x0f c p)).
  { intros p Hs Hw H8 H13. destruct (print_step (as_term t m) pos p c (ko_term _ _ Hok) Hs H8) as (pos' & u & E & S1 & Hu).
    rewrite (bind_Ok_l _ _ _ (Ht (shows_white _ _ _ _ Hp Hs Hw) H8 H13)) in E. exists pos', u. split; [exact E|]. split; [exact S1|exact Hu]. }
  destruct (Z.leb_spec (m_total_size t) (add32 pos n)) as [Hge|Hlt].
  - destruct (kt_scroll_up_spec t m1 Hok1) as (k & m2 & u & E2 & G2 & Es & Eu). rewrite (bind_Ok_l _ _ _ E2).
    pose proof (ko_term _ _ Hok) as [W H S T Ls Sc]. cbn [as_term t_width t_height t_total_size t_last_row_start] in *.
    assert (P : 0 <= m_width t * (m_height t - 1)) by (apply Z.mul_nonneg_nonneg; lia).
    exists (m_last_row_start t), k, m2. split; [reflexivity|]. split; [lia|]. split; [exact (grows_trans _ _ _ G1 G2)|].
    intros p Hs Hw H8 H13. destruct (Hstep p Hs Hw H8 H13) as (pos' & u' & E & S1 & Hu).
    rewrite (bind_Ok_l _ _ _ Es) in E. assert (u' = u) as -> by congruence. assert (pos' = m_last_row_start t) as ->.
    { assert (El : pos' = t_last_row_start u) by congruence. rewrite El. apply S1. }
    exact (shows_as _ _ _ _ _ _ S1 Eu Hu).
  - exists (add32 pos n), (m_cursorpos t), m1. rewrite set_cursorpos_id. split; [reflexivity|].
    pose proof (u32_range (pos + n)) as R. unfold is_u32 in R. split; [unfold add32 in *; lia|]. split; [exact G1|].
    intros p Hs Hw H8 H13. destruct (Hstep p Hs Hw H8 H13) as (pos' & u' & E & S1 & Hu).
    assert (u' = as_term t m1) as -> by congruence. assert (pos' = add32 pos n) as -> by congruence. exact Hu.
Qed.

(** Characters that the programs' terminal takes in the same way. *)
Definition simple (c : Z) : Prop := c <> 8 /\ c <> 13.
Lemma print_chars_loop_spec str : forall pos t m, kt_ok t m -> 0 <= pos < m_total_size t ->
  exists pos' k m', print_chars_loop drivers str pos t m = Ok (pos', set_cursorpos k t, m') /\ 0 <= pos' < m_total_size t /\ grows m m' /\
    (forall p, shows (as_term t m) pos p -> white p -> Forall simple str ->
      shows (as_term t m') pos' (paper_text (m_width t) (m_height t) 0x0f str p)).
Proof using Hdrivers L.
  induction str as [|c str IH]; intros pos t m Hok Hp.
  - exists pos, (m_cursorpos t), m. rewrite set_cursorpos_id. split; [reflexivity|]. split; [exact Hp|]. split; [apply grows_refl|]. auto.
  - destruct (kt_step_spec c pos t m Hok Hp) as (pos1 & k1 & m1 & E1 & P1 & G1 & S1).
    destruct (IH pos1 (set_cursorpos k1 t) m1 (kt_ok_grows t m m1 k1 G1 Hok) P1) as (pos2 & k2 & m2 & E2 & P2 & G2 & S2).
    exists pos2, k2, m2. rewrite set_cursorpos_twice in E2. split; [|split; [exact P2|]; split; [exact (grows_trans _ _ _ G1 G2)|]].
    + cbn [print_chars_loop]. destruct (kt_handle_char c pos t m) as [[n m']|] eqn:Eh; [|discriminate E1].
      cbn [mbind outcome_bind] in *. rewrite E1. cbn [mbind outcome_bind]. exact E2.
    + intros p Hs Hw Hf. apply Forall_cons in Hf as [[H8 H13] Hf].
      apply (S2 _ (S1 p Hs Hw H8 H13) (white_char _ _ _ _ Hw) Hf).
Qed.

(** A terminal that is not printing: its cursor is on the screen. *)
Definition kt_ready (t : kernel_terminal) (m : D) : Prop := kt_ok t m /\ 0 <= m_cursorpos t < m_total_size t.
Lemma kt_ready_grows t m m' : grows m m' -> kt_ready t m -> kt_ready t m'.
Proof. intros G [Hok Hc]. pose proof (kt_ok_grows t m m' (m_cursorpos t) G Hok) as H. rewrite set_cursorpos_id in H. split; assumption. Qed.

Lemma print_chars_spec str t m : kt_ready t m ->
  exists t' m', print_chars drivers str t m = Ok (t', m') /\ kt_ready t' m' /\ grows m m' /\ t' = set_cursorpos (m_cursorpos t') t /\
    (forall p, shows (as_term t m) (m_cursorpos t) p -> white p -> Forall simple str ->
      shows (as_term t' m') (m_cursorpos t') (paper_text (m_width t) (m_height t) 0x0f str p)).
Proof using Hdrivers L.
  intros [Hok Hc]. destruct (print_chars_loop_spec str (m_cursorpos t) t m Hok Hc) as (pos & k & m1 & E & Hp & G & Hs).
  destruct (kt_set_cursor_offset_spec pos (set_cursorpos k t) m1 (ko_driver _ _ Hok)) as (m2 & E2 & C2 & D2).
  pose proof (grows_trans _ _ _ G D2) as G2.
  exists (set_cursorpos pos t), m2. split; [unfold print_chars; rewrite (bind_Ok_l _ _ _ E); exact E2|].
  split; [split; [exact (kt_ok_grows t m m2 pos G2 Hok)|exact Hp]|]. split; [exact G2|]. split; [reflexivity|].
  intros p H1 H2 H3. specialize (Hs p H1 H2 H3). unfold as_term in *. cbn [set_cursorpos m_screen_ptr m_width m_height m_total_size m_last_row_start m_cursorpos].
  rewrite C2. exact Hs.
Qed.

(** ** A new terminal *)
(** The frame buffer is not mapped one to one, and mapping it fails. *)
Definition buffer_fails (drv : display_driver D) (size : Z) (m : D) : Prop :=
  let '(phys, m0) := get_framebuffer drv m in
  get_physical phys m0 <> phys /\
  (map_to_new_pages phys (memmanager_minimum_pages (mul32 size sizeof_text_char)) (Z.lor PAGE_PRESENT PAGE_RW) m0).1 = 0.
Lemma buffer_fails_dec drv size m : buffer_fails drv size m \/ ~ buffer_fails drv size m.
Proof.
  unfold buffer_fails. destruct (get_framebuffer drv m) as [phys m0]. destruct (Z.eq_dec (get_physical phys m0) phys) as [Ep|Ep]; [right; intros [Q _]; exact (Q Ep)|].
  destruct (Z.eq_dec (map_to_new_pages phys (memmanager_minimum_pages (mul32 size sizeof_text_char)) (Z.lor PAGE_PRESENT PAGE_RW) m0).1 0) as [Ez|Ez];
    [left; exact (conj Ep Ez)|right; intros [_ Q]; exact (Ez Q)].
Qed.
Definition blank_paper : paper := mk_paper (fun _ => clearval) 0 0.
Lemma new_terminal_spec d drv w h m : drivers d = Some drv -> 0 < w -> 0 < h -> w * h <= room ->
  ~ buffer_fails drv (mul32 h w) m ->
  exists t m', ('(t, m) ← new_kernel_terminal drivers d h w m; kt_clear drivers t m) = Ok (t, m') /\ kt_ready t m' /\ grows m m' /\
    m_display t = d /\ m_width t = w /\ m_height t = h /\ m_cursorpos t = 0 /\ shows (as_term t m') 0 blank_paper.
Proof using Hdrivers Hroom L.
  intros Hd Hw Hh Hr Hnf. pose proof (Hdrivers d drv Hd) as Hok. unfold new_kernel_terminal, driver_at. rewrite Hd. cbn [mbind outcome_bind].
  assert (Hhw : h * w <= room) by lia. assert (Hpos : 0 < h * w) by (apply Z.mul_pos_pos; lia).
  assert (Hh1 : h <= h * w /\ (h - 1) * w = h * w - w /\ w <= h * w) by nia.
  rewrite (mul32_small h w) in Hnf by lia. rewrite (mul32_small h w), (sub32_small h 1), (mul32_small (h - 1) w) by lia.
  destruct (get_mapped_frame_buffer drv (h * w) m) as [ptr m1] eqn:Em.
  assert (B : grows m m1 /\ h * w <= Z.of_nat (length (text_cells ptr m1))).
  { unfold get_mapped_frame_buffer in Em. unfold buffer_fails in Hnf. destruct (do_buffer _ _ Hok m) as [G0 R0]. destruct (get_framebuffer drv m) as [phys m0].
    cbn [fst snd] in *. destruct (Z.eqb_spec (get_physical phys m0) phys) as [He|He]; cbn [negb] in Em.
    - injection Em as <- <-. split; [exact G0|]. specialize (R0 He). lia.
    - rewrite Em in Hnf. destruct (dl_map _ _ _ _ _ _ Em) as [G1 [->|R1]]; [destruct Hnf; auto|]. split; [exact (grows_trans _ _ _ G0 G1)|].
      unfold sizeof_text_char in *. rewrite mul32_small in R1 by lia. unfold PAGE_SIZE in *.
      destruct (minimum_pages_spec (h * w * 2)) as [_ R2]; unfold PAGE_SIZE; [lia..|]. unfold PAGE_SIZE in R2. lia. }
  destruct B as [G1 R1]. pose proof (do_cursor _ _ Hok m1) as G2. destruct (get_cursor_offset drv m1) as [cur m2]. cbn [snd] in G2.
  set (t := mk_kt d ptr h w (h * w) ((h - 1) * w) cur). pose proof (proj2 G2 ptr) as R2.
  destruct (kt_fill_spec (Z.to_nat (h * w)) 0 t m2) as (m3 & E3 & G3 & F3); [lia|cbn [t m_screen_ptr]; lia|].
  cbn [mbind outcome_bind]. unfold kt_clear. change (m_total_size t) with (h * w). rewrite (bind_Ok_l _ _ _ E3).
  destruct (kt_set_cursor_offset_spec 0 t m3 ltac:(eexists; exact Hd)) as (m4 & E4 & C4 & D4). rewrite E4.
  destruct (fill_cells_spec (Z.to_nat (h * w)) clearval 0 (text_cells ptr m2)) as (l & El & Ll & Gl); [lia..|].
  assert (Hl : text_cells ptr m4 = l) by (rewrite C4; cbn [t m_screen_ptr] in F3; congruence).
  pose proof (grows_trans _ _ _ (grows_trans _ _ _ G1 G2) (grows_trans _ _ _ G3 D4)) as G4.
  eexists _, m4. split; [reflexivity|]. split; [|split; [exact G4|]].
  - split; [|cbn; lia]. constructor; [|eexists; exact Hd]. constructor; cbn [as_term t set_cursorpos t_width t_height t_total_size t_last_row_start
      t_screen m_screen_ptr m_width m_height m_total_size m_last_row_start]; try lia. rewrite Hl. lia.
  - do 4 (split; [reflexivity|]). unfold shows, window. cbn [as_term t set_cursorpos t_width t_height t_total_size t_clear_val
      t_screen m_screen_ptr m_width m_height m_total_size blank_paper p_top p_at p_cells].
    split; [lia|]. split; [lia|]. split; [|reflexivity]. intros i Hi. rewrite Hl, Gl by lia.
    rewrite (proj2 (Z.leb_le _ _)), (proj2 (Z.ltb_lt _ _)) by lia. reflexivity.
Qed.

(** ** The display as a whole *)
Definition terminal_ready (k : option kernel_terminal) (m : D) : Prop := match k with Some t => kt_ready t m | None => True end.
Record display_ok (s : display_state D) : Prop := {
  dk_driver : exists d drv, default_driver s = Some d /\ drivers d = Some drv;
  dk_mode : mode_ok room (current_mode s);
  dk_terminal : terminal_ready (k_terminal s) (machine s);
  dk_good : good (machine s) }.
Lemma terminal_ready_grows k m m' : grows m m' -> terminal_ready k m -> terminal_ready k m'.
Proof. intros G. destruct k as [t|]; [apply kt_ready_grows, G|auto]. Qed.

(** The terminal that fits a text mode of the display. *)
Definition fits (s : display_state D) : Prop :=
  has (dm_flags (current_mode s)) DISPLAY_TEXT_MODE = true ->
  exists t, k_terminal s = Some t /\ Some (m_display t) = default_driver s /\
    m_width t = dm_width (current_mode s) /\ m_height t = dm_height (current_mode s).

(** A new terminal is needed for the mode, and its frame buffer cannot be mapped. *)
Definition terminal_fails (s : display_state D) : Prop :=
  has (dm_flags (current_mode s)) DISPLAY_TEXT_MODE = true /\
  match k_terminal s with
  | Some t => still_valid (default_driver s) (dm_width (current_mode s)) (dm_height (current_mode s)) t
  | None => false
  end = false /\
  exists d drv, default_driver s = Some d /\ drivers d = Some drv /\
    buffer_fails drv (mul32 (dm_height (current_mode s)) (dm_width (current_mode s))) (machine s).

Lemma initialize_terminal_spec s : display_ok s -> has (dm_flags (current_mode s)) DISPLAY_TEXT_MODE = true -> terminal_fails s \/
  exists s', initialize_terminal drivers (dm_width (current_mode s)) (dm_height (current_mode s)) s = Ok s' /\ display_ok s' /\ fits s' /\
    default_driver s' = default_driver s /\ current_mode s' = current_mode s.
Proof using Hdrivers Hroom L.
  intros [(d & drv & Hd & Hdrv) Hm Ht Hg] Hf. destruct (Hm Hf) as (Hw & Hh & Hr). unfold terminal_fails, initialize_terminal.
  destruct (match k_terminal s with Some t => still_valid _ _ _ t | None => false end) eqn:Ev.
  - right. exists s. split; [reflexivity|]. split; [constructor; eauto|]. split; [|auto]. intros _. destruct (k_terminal s) as [t|]; [|discriminate].
    exists t. unfold still_valid in Ev. apply andb_prop in Ev as [Ev E3]. apply andb_prop in Ev as [E1 E2].
    apply bool_decide_eq_true in E1. apply Z.eqb_eq in E2, E3. auto.
  - destruct (buffer_fails_dec drv (mul32 (dm_height (current_mode s)) (dm_width (current_mode s))) (machine s)) as [Hb|Hb].
    { left. split; [exact Hf|]. split; [reflexivity|]. exists d, drv. auto. }
    right. rewrite Hd. destruct (new_terminal_spec d drv _ _ (machine s) Hdrv Hw Hh Hr Hb) as (t & m' & E & Hk & G & T1 & T2 & T3 & _).
    destruct (new_kernel_terminal _ _ _ _ _) as [[t0 m0]|]; [|discriminate E]. cbn [mbind outcome_bind] in *. rewrite E.
    eexists. split; [reflexivity|]. split; [constructor; cbn; eauto; exact (proj1 G Hg)|]. split; [|auto]. intros _. exists t. cbn. rewrite T1. auto.
Qed.

(** ** Choosing a mode *)
Lemma try_modes_spec drv req : driver_ok room drv -> forall modes i m, good m -> 0 <= i ->
  i + Z.of_nat (length modes) = Z.of_nat (length (available_modes drv)) ->
  exists found m', try_modes drv req i modes m = Ok (found, m') /\ grows m m' /\
  match found with
  | Some mode => mode ∈ modes /\ display_mode_satisfied req mode = true
  | None => forall k mode, modes !! k = Some mode -> display_mode_satisfied req mode = true ->
      exists m1 m2, set_mode drv (i + Z.of_nat k) m1 = Ok (false, m2)
  end.
Proof.
  intros Hok. induction modes as [|mode modes IH]; intros i m Hg Hi Hl; cbn [try_modes length] in *.
  - exists None, m. split; [reflexivity|]. split; [apply grows_refl|]. intros k mode Hk. discriminate.
  - destruct (display_mode_satisfied req mode) eqn:Es.
    + destruct (do_mode _ _ Hok i m Hg ltac:(lia)) as (ok & m1 & Em & G). rewrite (bind_Ok_l _ _ _ Em). cbv beta iota. destruct ok.
      { exists (Some mode), m1. split; [reflexivity|]. split; [exact G|]. split; [left|exact Es]. }
      destruct (IH (i + 1) m1 (proj1 G Hg) ltac:(lia) ltac:(lia)) as (found & m2 & E2 & G2 & F). exists found, m2. split; [exact E2|].
      split; [exact (grows_trans _ _ _ G G2)|]. destruct found as [f|].
      { destruct F. split; [right; assumption|assumption]. }
      intros [|k] md Hk Hs; [exists m, m1; replace (i + Z.of_nat 0) with i by lia; exact Em|].
      replace (i + Z.of_nat (S k)) with (i + 1 + Z.of_nat k) by lia. exact (F k md Hk Hs).
    + destruct (IH (i + 1) m Hg ltac:(lia) ltac:(lia)) as (found & m2 & E2 & G2 & F). exists found, m2. split; [exact E2|].
      split; [exact G2|]. destruct found as [f|]; [destruct F; split; [right; assumption|assumption]|].
      intros [|k] md Hk Hs; [injection Hk as ->; congruence|].
      replace (i + Z.of_nat (S k)) with (i + 1 + Z.of_nat k) by lia. exact (F k md Hk Hs).
Qed.

Definition chosen (req : option display_mode) (s s' : display_state D) : Prop :=
  (forall r, req = Some r -> display_mode_satisfied r (current_mode s') = true) /\
  (current_mode s' = current_mode s \/
   exists d drv, default_driver s = Some d /\ drivers d = Some drv /\ current_mode s' ∈ available_modes drv).
Definition refused (req : display_mode) (s : display_state D) : Prop :=
  exists d drv, default_driver s = Some d /\ drivers d = Some drv /\
    forall i mode, available_modes drv !! i = Some mode -> display_mode_satisfied req mode = true ->
      exists m1 m2, set_mode drv (Z.of_nat i) m1 = Ok (false, m2).

Lemma the_driver_at d drv (s : display_state D) : default_driver s = Some d -> drivers d = Some drv -> the_driver drivers (default_driver s) = Ok drv.
Proof. intros H1 H2. unfold the_driver, driver_at. now rewrite H1, H2. Qed.

Lemma find_mode_spec req s : display_ok s ->
  exists ok s', find_mode drivers req s = Ok (ok, s') /\ display_ok s' /\ default_driver s' = default_driver s /\ k_terminal s' = k_terminal s /\
    if ok : bool then chosen (Some req) s s' else current_mode s' = current_mode s /\ refused req s.
Proof using Hdrivers L.
  intros [(d & drv & Hd & Hdrv) Hm Ht Hg]. pose proof (Hdrivers d drv Hdrv) as Hok. unfold find_mode.
  rewrite (bind_Ok_l _ _ _ (the_driver_at d drv s Hd Hdrv)).
  destruct (try_modes_spec drv req Hok (available_modes drv) 0 (machine s) Hg ltac:(lia) ltac:(lia)) as (found & m' & E & G & T).
  rewrite (bind_Ok_l _ _ _ E). cbv beta iota. destruct found as [mode|].
  - destruct T as [Hin Hs]. exists true, (set_current_mode mode m' s). split; [reflexivity|]. split.
    { constructor; cbn; [eauto|exact (proj1 (Forall_forall _ _) (do_modes _ _ Hok) mode Hin)|exact (terminal_ready_grows _ _ _ G Ht)|exact (proj1 G Hg)]. }
    do 2 (split; [reflexivity|]). split; [intros r [= <-]; exact Hs|]. right. exists d, drv. auto.
  - exists false, (set_machine m' s). split; [reflexivity|]. split.
    { constructor; cbn; [eauto|exact Hm|exact (terminal_ready_grows _ _ _ G Ht)|exact (proj1 G Hg)]. }
    do 3 (split; [reflexivity|]). exists d, drv. split; [exact Hd|]. split; [exact Hdrv|exact T].
Qed.

(** The frame buffer of the terminal for the mode that is chosen cannot be mapped. *)
Definition choice_fails (req : option display_mode) (s : display_state D) : Prop :=
  exists s1, choose_mode drivers req s = Ok (true, s1) /\ terminal_fails s1.

Lemma choose_mode_spec req s : display_ok s -> exists ok s1, choose_mode drivers req s = Ok (ok, s1) /\ display_ok s1 /\
  default_driver s1 = default_driver s /\ k_terminal s1 = k_terminal s /\
  if ok : bool then chosen req s s1 else current_mode s1 = current_mode s /\ exists q, req = Some q /\ refused q s.
Proof using Hdrivers L.
  intros Hs. destruct req as [q|].
  - unfold choose_mode. destruct (display_mode_satisfied q (current_mode s)) eqn:Eq.
    + exists true, s. do 4 (split; [auto|]). split; [intros r [= <-]; exact Eq|now left].
    + destruct (find_mode_spec q s Hs) as (ok & s1 & E & A & B & C & F). exists ok, s1. do 4 (split; [assumption|]).
      destruct ok; [exact F|]. destruct F. split; [assumption|eauto].
  - exists true, s. do 4 (split; [auto|]). split; [discriminate|now left].
Qed.

(** A request for a mode is answered truthfully, and the terminal follows the mode; a
    request that fails leaves the mode and the terminal, and every mode of the driver that
    would do was refused by it -- unless a frame buffer cannot be mapped. *)
Theorem set_display_mode_correct active req s : display_ok s -> active = true /\ choice_fails req s \/
  exists r s', set_display_mode drivers active req s = Ok (r, s') /\ display_ok s' /\ default_driver s' = default_driver s /\
    (r = 0 /\ active = true /\ chosen req s s' /\ fits s' \/
     r = -1 /\ current_mode s' = current_mode s /\ k_terminal s' = k_terminal s /\
       (active = true -> exists q, req = Some q /\ refused q s)).
Proof using Hdrivers Hroom L.
  intros Hs. unfold set_display_mode.
  destruct active; [|right; exists (-1), s; split; [reflexivity|]; split; [exact Hs|]; split; [reflexivity|]; right; do 3 (split; [reflexivity|]); discriminate].
  unfold choice_fails. destruct (choose_mode_spec req s Hs) as (ok & s1 & E & A & B & C & F). rewrite (bind_Ok_l _ _ _ E). cbv beta iota. destruct ok.
  - destruct (has (dm_flags (current_mode s1)) DISPLAY_TEXT_MODE) eqn:Ef.
    + destruct (initialize_terminal_spec s1 A Ef) as [Hbad|(s2 & E2 & A2 & F2 & B2 & C2)]; [left; split; [reflexivity|]; exists s1; auto|].
      rewrite (bind_Ok_l _ _ _ E2). right.
      exists 0, s2. split; [reflexivity|]. split; [exact A2|]. split; [congruence|]. left. do 2 (split; [reflexivity|]).
      split; [|exact F2]. unfold chosen in *. rewrite C2. exact F.
    + right. exists 0, s1. do 3 (split; [auto|]). left. do 3 (split; [auto|]). intros H. congruence.
  - right. destruct F as (F1 & F2). exists (-1), s1. do 3 (split; [auto|]). right. do 3 (split; [auto|]). auto.
Qed.

(** ** Every sequence of calls *)
Inductive display_call :=
| PrintString (str : list Z)
| SetDisplayMode (active : bool) (requested : option display_mode)
| AddDriver (active : bool) (d : Z) (use_as_default : bool)
| SetCursorOffset (offset : Z)
| SetDisplayOffset (offset on_retrace : Z)
| GetDisplayMode (index : Z) (wanted : bool)
| MapDisplayMemory.
Definition display_do (c : display_call) (s : display_state D) : outcome (display_state D) :=
  match c with
  | PrintString str => print_string_len drivers str s
  | SetDisplayMode active req => '(_, s) ← set_display_mode drivers active req s; Ok s
  | AddDriver active d use => display_add_driver drivers active d use s
  | SetCursorOffset off => '(_, s) ← set_cursor_offset drivers off s; Ok s
  | SetDisplayOffset off r => '(_, s) ← set_display_offset drivers off r s; Ok s
  | GetDisplayMode i w => _ ← get_display_mode drivers i w s; Ok s
  | MapDisplayMemory => '(_, s) ← map_display_memory drivers s; Ok s
  end.
Fixpoint display_run (calls : list display_call) (s : display_state D) : outcome (display_state D) :=
  match calls with [] => Ok s | c :: calls => s ← display_do c s; display_run calls s end.
(** A driver that is added is one. *)
Definition call_ok (c : display_call) : Prop := match c with AddDriver _ d _ => is_Some (drivers d) | _ => True end.

(** A call that needs a new terminal whose frame buffer cannot be mapped. *)
Definition call_fails (c : display_call) (s : display_state D) : Prop :=
  match c with
  | SetDisplayMode active req => active = true /\ choice_fails req s
  | AddDriver active d use => use = true /\ active = true /\
      choice_fails (Some text_80x25) (mk_display (Some d) (invalid_mode (current_mode s)) (k_terminal s) (machine s))
  | _ => False
  end.

Lemma display_ok_machine s m : display_ok s -> grows (machine s) m -> display_ok (set_machine m s).
Proof. intros [A B C E] G. constructor; [exact A|exact B|exact (terminal_ready_grows _ _ _ G C)|exact (proj1 G E)]. Qed.

Lemma add_default_spec active d s : is_Some (drivers d) -> mode_ok room (current_mode s) -> terminal_ready (k_terminal s) (machine s) -> good (machine s) ->
  call_fails (AddDriver active d true) s \/
  exists s', display_add_driver drivers active d true s = Ok s' /\ display_ok s'.
Proof using Hdrivers Hroom L.
  intros [drv Hd] Hm Ht Hg. unfold display_add_driver.
  destruct (set_display_mode_correct active (Some text_80x25) (mk_display (Some d) (invalid_mode (current_mode s)) (k_terminal s) (machine s)))
    as [Hf|(r & s' & E & A & _)]; [constructor; cbn; eauto|left; split; [reflexivity|exact Hf]|]. right. rewrite (bind_Ok_l _ _ _ E). eauto.
Qed.

Lemma display_do_ok c s : call_ok c -> display_ok s -> call_fails c s \/ exists s', display_do c s = Ok s' /\ display_ok s'.
Proof using Hdrivers Hroom L.
  intros Hc Hs. pose proof Hs as [(d & drv & Hd & Hdrv) Hm Ht Hg]. pose proof (Hdrivers d drv Hdrv) as Hok.
  pose proof (the_driver_at d drv s Hd Hdrv) as Hdr.
  destruct c as [str|active req|active d' use|off|off r|i w|]; cbn [display_do].
  - right. unfold print_string_len. destruct (k_terminal s) as [t|] eqn:Ek; [|eauto].
    destruct (print_chars_spec str t (machine s) Ht) as (t' & m' & E & R & G & _). rewrite (bind_Ok_l _ _ _ E).
    eexists. split; [reflexivity|]. constructor; cbn; eauto. exact (proj1 G Hg).
  - destruct (set_display_mode_correct active req s Hs) as [Hf|(r & s' & E & A & _)]; [left; exact Hf|]. right. rewrite (bind_Ok_l _ _ _ E). eauto.
  - destruct use; [exact (add_default_spec active d' s Hc Hm Ht Hg)|right; cbn; eauto].
  - right. unfold set_cursor_offset. rewrite (bind_Ok_l _ _ _ Hdr). eexists. split; [reflexivity|].
    exact (display_ok_machine s _ Hs (proj1 (do_set_cursor _ _ Hok off (machine s)))).
  - right. unfold set_display_offset. rewrite (bind_Ok_l _ _ _ Hdr). destruct (do_offset _ _ Hok off (negb (r =? 0)) (machine s) Hg) as (m' & E & G).
    rewrite (bind_Ok_l _ _ _ E). eexists. split; [reflexivity|]. exact (display_ok_machine s _ Hs G).
  - right. unfold get_display_mode. destruct w; cbn [negb]; [|eauto]. destruct (i =? -1); [eauto|]. destruct (i <? 0); [eauto|].
    rewrite (bind_Ok_l _ _ _ Hdr). destruct (available_modes drv !! Z.to_nat i); eauto.
  - right. unfold map_display_memory. rewrite (bind_Ok_l _ _ _ Hdr). destruct (do_buffer _ _ Hok (machine s)) as [G _].
    destruct (get_framebuffer drv (machine s)) as [buf m1]. cbn [fst snd] in G.
    destruct (map_to_new_pages _ _ _ m1) as [ptr m2] eqn:Em. destruct (dl_map _ _ _ _ _ _ Em) as [G2 _].
    eexists. split; [reflexivity|]. exact (display_ok_machine s _ Hs (grows_trans _ _ _ G G2)).
Qed.

(** The calls all return, up to one that fails so, if there is one. *)
Definition runs_or_fails (calls : list display_call) (s : display_state D) : Prop :=
  (exists s', display_run calls s = Ok s' /\ display_ok s')
  \/ exists before c after s1, calls = before ++ c :: after /\ display_run before s = Ok s1 /\ call_fails c s1.

Lemma runs_or_fails_cons c calls s s1 : display_do c s = Ok s1 -> runs_or_fails calls s1 -> runs_or_fails (c :: calls) s.
Proof.
  intros E [(s' & R & A)|(b & c' & a & s2 & -> & R & Hf)].
  - left. exists s'. cbn [display_run]. rewrite (bind_Ok_l _ _ _ E). auto.
  - right. exists (c :: b), c', a, s2. cbn [display_run]. rewrite (bind_Ok_l _ _ _ E). auto.
Qed.

Lemma display_run_ok calls s : Forall call_ok calls -> display_ok s -> runs_or_fails calls s.
Proof using Hdrivers Hroom L.
  intros Hc. revert s. induction Hc as [|c calls H _ IH]; intros s A; [left; cbn; eauto|].
  destruct (display_do_ok c s H A) as [Hf|(s1 & E & A1)]; [right; exists [], c, calls, s; auto|].
  exact (runs_or_fails_cons c calls s s1 E (IH s1 A1)).
Qed.

(** C36: whatever is printed and whatever modes and drivers are chosen in between, the
    calls all return and the state stays well formed -- up to a call that needs a new
    terminal and whose frame buffer cannot be mapped because no page or no address is
    left, if there is one: the code does not look whether the mapping failed. *)
Theorem display_stays_well_formed active d calls m : is_Some (drivers d) -> Forall call_ok calls -> good m ->
  (exists s, display_run (AddDriver active d true :: calls) (no_display m) = Ok s /\ display_ok s)
  \/ exists before c after s1, AddDriver active d true :: calls = before ++ c :: after /\
       display_run before (no_display m) = Ok s1 /\ call_fails c s1.
Proof using Hdrivers Hroom L.
  intros Hd Hc Hg. change (runs_or_fails (AddDriver active d true :: calls) (no_display m)).
  destruct (add_default_spec active d (no_display m) Hd) as [Hf|(s & E & A)]; [discriminate|exact I|exact Hg| |].
  - right. exists [], (AddDriver active d true), calls, (no_display m). auto.
  - exact (runs_or_fails_cons (AddDriver active d true) calls (no_display m) s E (display_run_ok calls s Hc A)).
Qed.

(** The kernel prints as the programs do: plain text is printed on the roll of paper. *)
Theorem print_string_refines_paper s t p str : display_ok s -> k_terminal s = Some t ->
  shows (as_term t (machine s)) (m_cursorpos t) p -> white p -> Forall simple str ->
  exists t' s', print_string_len drivers str s = Ok s' /\ k_terminal s' = Some t' /\ display_ok s' /\
    shows (as_term t' (machine s')) (m_cursorpos t') (paper_text (m_width t) (m_height t) 0x0f str p).
Proof using Hdrivers L.
  intros [A B C Hg] Ek Hs Hw Hf. rewrite Ek in C. destruct (print_chars_spec str t (machine s) C) as (t' & m' & E & R & G & _ & S).
  unfold print_string_len. rewrite Ek, (bind_Ok_l _ _ _ E). exists t', (set_terminal t' m' s).
  split; [reflexivity|]. split; [reflexivity|]. split; [constructor; cbn; eauto; exact (proj1 G Hg)|]. exact (S p Hs Hw Hf).
Qed.
End display.

(** ** A card with three modes, and one with none *)
Record card := mk_card { c_cells : list text_char; c_cursor : Z; c_mode : Z }.
#[export] Instance card_machine : display_machine card := {
  text_cells _ m := c_cells m;
  set_text_cells _ l m := mk_card l (c_cursor m) (c_mode m);
  get_physical _ _ := 0;
  map_to_new_pages _ n _ m := (0xC0000000, mk_card (c_cells m ++ repeat clearval (Z.to_nat (n * 2048 - Z.of_nat (length (c_cells m))))) (c_cursor m) (c_mode m)) }.
#[export] Program Instance card_laws : display_laws card := {| good _ := True |}.
Next Obligation. reflexivity. Qed.
Next Obligation. intros a l m H. split; [auto|]. intros b. cbn [text_cells set_text_cells card_machine c_cells] in *. lia. Qed.
Next Obligation.
  intros phys n fl m v m' [= <- <-]. split.
  - split; [auto|]. intros a. cbn [text_cells card_machine c_cells]. rewrite length_app. lia.
  - right. cbn [text_cells card_machine c_cells]. unfold PAGE_SIZE, sizeof_text_char. rewrite length_app, repeat_length. lia.
Qed.
Definition text_mode (w h : Z) : display_mode := mk_mode w h (2 * w) 70 16 FORMAT_TEXT_W_ATTRIBUTE DISPLAY_TEXT_MODE (2 * w * h).
Definition bgra_mode : display_mode := mk_mode 640 480 2560 60 32 FORMAT_BGRA8888 4 (2560 * 480).
Definition card_driver (modes : list display_mode) : display_driver card :=
  mk_driver card (fun i m => Ok (true, mk_card (c_cells m) (c_cursor m) i)) (fun m => (0xB8000, m)) (fun _ _ m => Ok m)
    (fun m => (c_cursor m, m)) (fun off m => mk_card (c_cells m) off (c_mode m)) (fun _ m => m) modes.
Definition cards (d : Z) : option (display_driver card) :=
  if d =? 1 then Some (card_driver [text_mode 8 3; text_mode 80 25; bgra_mode]) else if d =? 2 then Some (card_driver []) else None.
Lemma cards_ok d drv : cards d = Some drv -> driver_ok 2000 drv.
Proof.
  assert (H : forall modes, Forall (mode_ok 2000) modes -> driver_ok 2000 (card_driver modes)).
  { intros modes H. constructor; [| | | | |exact H].
    - intros i m _ _. eexists true, _. split; [reflexivity|]. split; [auto|intros a; reflexivity].
    - intros m. split; [apply grows_refl|discriminate].
    - intros off r m _. exists m. split; [reflexivity|apply grows_refl].
    - intros m. apply grows_refl.
    - intros off m. split; [split; [auto|intros a; reflexivity]|reflexivity]. }
  unfold cards. destruct (d =? 1); [intros [= <-]|destruct (d =? 2); [intros [= <-]|discriminate]]; apply H;
    repeat constructor; unfold mode_ok; cbn; intros; (discriminate || lia).
Qed.
Definition off : card := mk_card [] 0 0.

(** This card can always be mapped. *)
Lemma card_maps c s : ~ call_fails cards c s.
Proof.
  assert (H : forall req s, ~ choice_fails cards req s).
  { intros req s0 (s1 & _ & _ & _ & d & drv & _ & _ & Hb). unfold buffer_fails in Hb. destruct (get_framebuffer drv (machine s1)) as [phys m0].
    destruct Hb as [_ Hb]. discriminate Hb. }
  destruct c; try (intros F; exact F); cbn [call_fails]; intros F; decompose [and] F; eapply H; eassumption.
Qed.

Lemma display_stays_well_formed_witness : exists s,
  display_run cards [AddDriver true 1 true; SetDisplayMode true (Some (mk_mode 8 3 0 0 0 0 1 0)); PrintString [65; 10; 8; 8; 66]; MapDisplayMemory]
    (no_display off) = Ok s /\ display_ok cards 2000 s.
Proof.
  destruct (display_stays_well_formed cards 2000 cards_ok ltac:(lia) true 1
    [SetDisplayMode true (Some (mk_mode 8 3 0 0 0 0 1 0)); PrintString [65; 10; 8; 8; 66]; MapDisplayMemory] off)
    as [R|(b & c & l & s1 & _ & _ & Hf)]; [eexists; reflexivity|repeat constructor|exact I|exact R|destruct (card_maps c s1 Hf)].
Defined.

Definition screen (s : outcome (display_state card)) : option (list Z * Z) :=
  match s with
  | Ok s => match k_terminal s with Some t => Some (map ch (take (Z.to_nat (m_total_size t)) (c_cells (machine s))), m_cursorpos t) | None => None end
  | Fault _ => None
  end.
Definition small (str : list Z) : outcome (display_state card) :=
  display_run cards [AddDriver true 1 true; SetDisplayMode true (Some (mk_mode 8 3 0 0 0 0 1 0)); PrintString str] (no_display off).

Example text_scrolls : screen (small [65; 10; 66; 10; 67; 9; 68; 10; 69]) =
  Some ([66; 0; 0; 0; 0; 0; 0; 0; 67; 0; 0; 0; 68; 0; 0; 0; 69; 0; 0; 0; 0; 0; 0; 0], 17).
Proof. vm_compute. reflexivity. Qed.
(** A backspace clears the cell behind the text instead of its last character, *)
Example backspace_clears_the_wrong_cell : screen (small [65; 66; 8]) = Some ([65; 66; 0; 0; 0; 0; 0; 0; 0; 0; 0; 0; 0; 0; 0; 0; 0; 0; 0; 0; 0; 0; 0; 0], 1).
Proof. vm_compute. reflexivity. Qed.
(** and at the start of the screen it scrolls. *)
Example backspace_at_the_start : screen (small [8; 65]) = Some ([0; 0; 0; 0; 0; 0; 0; 0; 0; 0; 0; 0; 0; 0; 0; 0; 65; 0; 0; 0; 0; 0; 0; 0], 17).
Proof. vm_compute. reflexivity. Qed.

(** The number that marks an invalid mode is that of a real format. *)
Example bgra_is_invalid : DISPLAY_MODE_INVALID = FORMAT_BGRA8888 /\ forall req, display_mode_satisfied req bgra_mode = false.
Proof. split; reflexivity. Qed.
(** A request for nothing succeeds on a mode that was never set: the terminal of the new
    driver gets the size of a mode of the old one. *)
Example no_request_no_check : exists s,
  display_run cards [AddDriver true 1 true; AddDriver true 2 true; SetDisplayMode true None] (no_display off) = Ok s /\
  dm_format (current_mode s) = DISPLAY_MODE_INVALID /\ (m_display <$> k_terminal s) = Some 2 /\ (m_width <$> k_terminal s) = Some 80.
Proof. eexists. split; [vm_compute; reflexivity|]. repeat split. Qed.

(** Without a page for the mapping, the terminal is made at the address 0 and cleared. *)
#[local] Instance full_machine : display_machine card := {
  text_cells a m := if a =? 0 then [] else c_cells m;
  set_text_cells a l m := if a =? 0 then m else mk_card l (c_cursor m) (c_mode m);
  get_physical _ _ := 0; map_to_new_pages _ _ _ m := (0, m) }.
Example full_memory_faults : display_run cards [AddDriver true 1 true] (no_display (mk_card (repeat clearval 2000) 0 0)) = Fault OutOfBounds.
Proof. vm_compute. reflexivity. Qed.
