(* ===== verification/Vga.v ===== *)
(** * The VGA driver (drivers/display/vga/vga.cpp, vga_modes.h)

    The modes are dumps of the card's registers in the order MISC, SEQ, CRTC, GC, AC.  The
    driver is written against the ports and the memory the processor writes to; what the
    font files hold, and the processor's way to the card's memory, are arguments. *)
From S2P Require Import Prelude Paging Terminal Ports Display.

(** The registers of a mode, one after the other. *)
Record vga_mode := mk_vmode { char_height : Z; regs : list Z }.
Definition g_40x25_text : list Z := [
  0x67;
  0x03; 0x08; 0x03; 0x00; 0x02;
  0x2D; 0x27; 0x28; 0x90; 0x2B; 0xA0; 0xBF; 0x1F; 0x00; 0x4F; 0x0D; 0x0E; 0x00;
  0x00; 0x00; 0xA0; 0x9C; 0x8E; 0x8F; 0x14; 0x1F; 0x96; 0xB9; 0xA3; 0xFF;
  0x00; 0x00; 0x00; 0x00; 0x00; 0x10; 0x0E; 0x00; 0xFF;
  0x00; 0x01; 0x02; 0x03; 0x04; 0x05; 0x14; 0x07; 0x38; 0x39; 0x3A; 0x3B; 0x3C;
  0x3D; 0x3E; 0x3F; 0x0C; 0x00; 0x0F; 0x08; 0x00].
Definition g_40x50_text : list Z := [
  0x67;
  0x03; 0x08; 0x03; 0x00; 0x02;
  0x2D; 0x27; 0x28; 0x90; 0x2B; 0xA0; 0xBF; 0x1F; 0x00; 0x47; 0x06; 0x07; 0x00;
  0x00; 0x04; 0x60; 0x9C; 0x8E; 0x8F; 0x14; 0x1F; 0x96; 0xB9; 0xA3; 0xFF;
  0x00; 0x00; 0x00; 0x00; 0x00; 0x10; 0x0E; 0x00; 0xFF;
  0x00; 0x01; 0x02; 0x03; 0x04; 0x05; 0x14; 0x07; 0x38; 0x39; 0x3A; 0x3B; 0x3C;
  0x3D; 0x3E; 0x3F; 0x0C; 0x00; 0x0F; 0x08; 0x00].
Definition g_80x25_text : list Z := [
  0x67;
  0x03; 0x00; 0x03; 0x00; 0x02;
  0x5F; 0x4F; 0x50; 0x82; 0x55; 0x81; 0xBF; 0x1F; 0x00; 0x4F; 0x0D; 0x0E; 0x00;
  0x00; 0x00; 0x50; 0x9C; 0x0E; 0x8F; 0x28; 0x1F; 0x96; 0xB9; 0xA3; 0xFF;
  0x00; 0x00; 0x00; 0x00; 0x00; 0x10; 0x0E; 0x00; 0xFF;
  0x00; 0x01; 0x02; 0x03; 0x04; 0x05; 0x14; 0x07; 0x38; 0x39; 0x3A; 0x3B; 0x3C;
  0x3D; 0x3E; 0x3F; 0x0C; 0x00; 0x0F; 0x08; 0x00].
Definition g_80x50_text : list Z := [
  0x67;
  0x03; 0x00; 0x03; 0x00; 0x02;
  0x5F; 0x4F; 0x50; 0x82; 0x55; 0x81; 0xBF; 0x1F; 0x00; 0x47; 0x06; 0x07; 0x00;
  0x00; 0x01; 0x40; 0x9C; 0x8E; 0x8F; 0x28; 0x1F; 0x96; 0xB9; 0xA3; 0xFF;
  0x00; 0x00; 0x00; 0x00; 0x00; 0x10; 0x0E; 0x00; 0xFF;
  0x00; 0x01; 0x02; 0x03; 0x04; 0x05; 0x14; 0x07; 0x38; 0x39; 0x3A; 0x3B; 0x3C;
  0x3D; 0x3E; 0x3F; 0x0C; 0x00; 0x0F; 0x08; 0x00].
Definition g_90x30_text : list Z := [
  0xE7;
  0x03; 0x01; 0x03; 0x00; 0x02;
  0x6B; 0x59; 0x5A; 0x82; 0x60; 0x8D; 0x0B; 0x3E; 0x00; 0x4F; 0x0D; 0x0E; 0x00;
  0x00; 0x00; 0x00; 0xEA; 0x0C; 0xDF; 0x2D; 0x10; 0xE8; 0x05; 0xA3; 0xFF;
  0x00; 0x00; 0x00; 0x00; 0x00; 0x10; 0x0E; 0x00; 0xFF;
  0x00; 0x01; 0x02; 0x03; 0x04; 0x05; 0x14; 0x07; 0x38; 0x39; 0x3A; 0x3B; 0x3C;
  0x3D; 0x3E; 0x3F; 0x0C; 0x00; 0x0F; 0x08; 0x00].
Definition g_90x60_text : list Z := [
  0xE7;
  0x03; 0x01; 0x03; 0x00; 0x02;
  0x6B; 0x59; 0x5A; 0x82; 0x60; 0x8D; 0x0B; 0x3E; 0x00; 0x47; 0x06; 0x07; 0x00;
  0x00; 0x00; 0x00; 0xEA; 0x0C; 0xDF; 0x2D; 0x08; 0xE8; 0x05; 0xA3; 0xFF;
  0x00; 0x00; 0x00; 0x00; 0x00; 0x10; 0x0E; 0x00; 0xFF;
  0x00; 0x01; 0x02; 0x03; 0x04; 0x05; 0x14; 0x07; 0x38; 0x39; 0x3A; 0x3B; 0x3C;
  0x3D; 0x3E; 0x3F; 0x0C; 0x00; 0x0F; 0x08; 0x00].
Definition g_640x480x2 : list Z := [
  0xE3;
  0x03; 0x01; 0x0F; 0x00; 0x06;
  0x5F; 0x4F; 0x50; 0x82; 0x54; 0x80; 0x0B; 0x3E; 0x00; 0x40; 0x00; 0x00; 0x00;
  0x00; 0x00; 0x00; 0xEA; 0x0C; 0xDF; 0x28; 0x00; 0xE7; 0x04; 0xE3; 0xFF;
  0x00; 0x00; 0x00; 0x00; 0x00; 0x00; 0x05; 0x0F; 0xFF;
  0x00; 0x01; 0x02; 0x03; 0x04; 0x05; 0x14; 0x07; 0x38; 0x39; 0x3A; 0x3B; 0x3C;
  0x3D; 0x3E; 0x3F; 0x01; 0x00; 0x0F; 0x00; 0x00].
Definition g_320x200x4 : list Z := [
  0x63;
  0x03; 0x09; 0x03; 0x00; 0x02;
  0x2D; 0x27; 0x28; 0x90; 0x2B; 0x80; 0xBF; 0x1F; 0x00; 0x41; 0x00; 0x00; 0x00;
  0x00; 0x00; 0x00; 0x9C; 0x0E; 0x8F; 0x14; 0x00; 0x96; 0xB9; 0xA3; 0xFF;
  0x00; 0x00; 0x00; 0x00; 0x00; 0x30; 0x02; 0x00; 0xFF;
  0x00; 0x13; 0x15; 0x17; 0x02; 0x04; 0x06; 0x07; 0x10; 0x11; 0x12; 0x13; 0x14;
  0x15; 0x16; 0x17; 0x01; 0x00; 0x03; 0x00; 0x00].
Definition g_640x480x16 : list Z := [
  0xE3;
  0x03; 0x01; 0x08; 0x00; 0x06;
  0x5F; 0x4F; 0x50; 0x82; 0x54; 0x80; 0x0B; 0x3E; 0x00; 0x40; 0x00; 0x00; 0x00;
  0x00; 0x00; 0x00; 0xEA; 0x0C; 0xDF; 0x28; 0x00; 0xE7; 0x04; 0xE3; 0xFF;
  0x00; 0x00; 0x00; 0x00; 0x03; 0x00; 0x05; 0x0F; 0xFF;
  0x00; 0x01; 0x02; 0x03; 0x04; 0x05; 0x14; 0x07; 0x38; 0x39; 0x3A; 0x3B; 0x3C;
  0x3D; 0x3E; 0x3F; 0x01; 0x00; 0x0F; 0x00; 0x00].
Definition g_720x480x16 : list Z := [
  0xE7;
  0x03; 0x01; 0x08; 0x00; 0x06;
  0x6B; 0x59; 0x5A; 0x82; 0x60; 0x8D; 0x0B; 0x3E; 0x00; 0x40; 0x06; 0x07; 0x00;
  0x00; 0x00; 0x00; 0xEA; 0x0C; 0xDF; 0x2D; 0x08; 0xE8; 0x05; 0xE3; 0xFF;
  0x00; 0x00; 0x00; 0x00; 0x03; 0x00; 0x05; 0x0F; 0xFF;
  0x00; 0x01; 0x02; 0x03; 0x04; 0x05; 0x06; 0x07; 0x08; 0x09; 0x0A; 0x0B; 0x0C;
  0x0D; 0x0E; 0x0F; 0x01; 0x00; 0x0F; 0x00; 0x00].
Definition g_320x200x256 : list Z := [
  0x63;
  0x03; 0x01; 0x0F; 0x00; 0x0E;
  0x5F; 0x4F; 0x50; 0x82; 0x54; 0x80; 0xBF; 0x1F; 0x00; 0x41; 0x00; 0x00; 0x00;
  0x00; 0x00; 0x00; 0x9C; 0x0E; 0x8F; 0x28; 0x40; 0x96; 0xB9; 0xA3; 0xFF;
  0x00; 0x00; 0x00; 0x00; 0x00; 0x40; 0x05; 0x0F; 0xFF;
  0x00; 0x01; 0x02; 0x03; 0x04; 0x05; 0x06; 0x07; 0x08; 0x09; 0x0A; 0x0B; 0x0C;
  0x0D; 0x0E; 0x0F; 0x41; 0x00; 0x0F; 0x00; 0x00].
Definition g_320x240x256_modex : list Z := [
  0x63;
  0x03; 0x01; 0x0F; 0x00; 0x06;
  0x5F; 0x4F; 0x50; 0x82; 0x54; 0x80; 0x0D; 0x3E; 0x00; 0x41; 0x00; 0x00; 0x00;
  0x00; 0x00; 0x00; 0xEA; 0xAC; 0xDF; 0x28; 0x00; 0xE7; 0x06; 0xE3; 0xFF;
  0x00; 0x00; 0x00; 0x00; 0x00; 0x40; 0x05; 0x0F; 0xFF;
  0x00; 0x01; 0x02; 0x03; 0x04; 0x05; 0x06; 0x07; 0x08; 0x09; 0x0A; 0x0B; 0x0C;
  0x0D; 0x0E; 0x0F; 0x41; 0x00; 0x0F; 0x00; 0x00].
Definition g_400x240x256_modex : list Z := [
  0xe7;
  0x03; 0x01; 0x0F; 0x00; 0x06;
  0x70; 0x63; 0x64; 0x8f; 0x65; 0x80; 0x0D; 0x3E; 0x00; 0x41; 0x00; 0x00; 0x00;
  0x00; 0x00; 0x00; 0xEA; 0xAC; 0xDF; 0x32; 0x00; 0xE7; 0x06; 0xE3; 0xFF;
  0x00; 0x00; 0x00; 0x00; 0x00; 0x40; 0x05; 0x0F; 0xFF;
  0x00; 0x01; 0x02; 0x03; 0x04; 0x05; 0x06; 0x07; 0x08; 0x09; 0x0A; 0x0B; 0x0C;
  0x0D; 0x0E; 0x0F; 0x41; 0x00; 0x0F; 0x00; 0x00].
Definition mode_data : list vga_mode := [
  mk_vmode 16 g_40x25_text;
  mk_vmode 8 g_40x50_text;
  mk_vmode 16 g_80x25_text;
  mk_vmode 8 g_80x50_text;
  mk_vmode 16 g_90x30_text;
  mk_vmode 8 g_90x60_text;
  mk_vmode 0 g_640x480x2;
  mk_vmode 0 g_320x200x4;
  mk_vmode 0 g_640x480x16;
  mk_vmode 0 g_720x480x16;
  mk_vmode 0 g_320x200x256;
  mk_vmode 0 g_320x240x256_modex;
  mk_vmode 0 g_400x240x256_modex].
Definition vga_available_modes : list display_mode := [
  mk_mode 40 25 80 60 16 FORMAT_TEXT_W_ATTRIBUTE DISPLAY_TEXT_MODE (25 * 80);
  mk_mode 40 50 80 60 16 FORMAT_TEXT_W_ATTRIBUTE DISPLAY_TEXT_MODE (50 * 80);
  mk_mode 80 25 160 70 16 FORMAT_TEXT_W_ATTRIBUTE DISPLAY_TEXT_MODE (25 * 160);
  mk_mode 80 50 160 70 16 FORMAT_TEXT_W_ATTRIBUTE DISPLAY_TEXT_MODE (50 * 160);
  mk_mode 90 30 180 70 16 FORMAT_TEXT_W_ATTRIBUTE DISPLAY_TEXT_MODE (30 * 180);
  mk_mode 90 60 180 70 16 FORMAT_TEXT_W_ATTRIBUTE DISPLAY_TEXT_MODE (60 * 180);
  mk_mode 640 480 80 60 1 FORMAT_GRAYSCALE DISPLAY_MONO (480 * 80);
  mk_mode 320 200 80 60 4 FORMAT_INDEXED_BIT_PLANE DISPLAY_INDEXED (200 * 80);
  mk_mode 640 480 80 60 4 FORMAT_INDEXED_BIT_PLANE DISPLAY_INDEXED (480 * 80);
  mk_mode 720 480 90 70 4 FORMAT_INDEXED_BIT_PLANE DISPLAY_INDEXED (480 * 90);
  mk_mode 320 200 320 70 8 FORMAT_INDEXED_LINEAR DISPLAY_INDEXED (200 * 320);
  mk_mode 320 240 80 60 8 FORMAT_INDEXED_BYTE_PLANE DISPLAY_INDEXED (240 * 80);
  mk_mode 400 240 100 60 8 FORMAT_INDEXED_BYTE_PLANE DISPLAY_INDEXED (240 * 100)].

Definition VGA_AC_INDEX : Z := 0x3C0.
Definition VGA_AC_WRITE : Z := 0x3C0.
Definition VGA_MISC_WRITE : Z := 0x3C2.
Definition VGA_SEQ_INDEX : Z := 0x3C4.
Definition VGA_SEQ_DATA : Z := 0x3C5.
Definition VGA_GC_INDEX : Z := 0x3CE.
Definition VGA_GC_DATA : Z := 0x3CF.
Definition VGA_CRTC_INDEX : Z := 0x3D4.
Definition VGA_CRTC_DATA : Z := 0x3D5.
Definition VGA_INSTAT_READ : Z := 0x3DA.
Definition VGA_NUM_SEQ_REGS : nat := 5.
Definition VGA_NUM_CRTC_REGS : nat := 25.
Definition VGA_NUM_GC_REGS : nat := 9.
Definition VGA_NUM_AC_REGS : nat := 21.
Definition HIGH_ADDRESS : Z := 0x0C.
Definition LOW_ADDRESS : Z := 0x0D.
Definition INPUT_STATUS_1 : Z := 0x3da.
Definition VRETRACE : Z := 0x08.
Definition PSF_MAGIC : Z := 0x0436.
Definition font16_name : list Z := [102; 111; 110; 116; 49; 54; 46; 112; 115; 102].
Definition font08_name : list Z := [102; 111; 110; 116; 48; 56; 46; 112; 115; 102].

(** The memory of the machine, by physical address. *)
Class host_memory (S : Type) := store_byte : Z -> Z -> S -> S.

(** The statics of the driver: everything behind the ports, and the fonts already read. *)
Record vga (S : Type) := mk_vga { io : S; font16 : option (list Z); font08 : option (list Z) }.
Arguments mk_vga {S}. Arguments io {S}. Arguments font16 {S}. Arguments font08 {S}.

Section registers.
Context {S : Type} {P : ports S} {H : host_memory S}.

(** An index and its register. *)
Definition out_reg (port i v : Z) (s : S) : S := outb (port + 1) v (outb port i s).
Definition in_reg (port i : Z) (s : S) : Z * S := inb (port + 1) (outb port i s).
Fixpoint out_regs (port i : Z) (values : list Z) (s : S) : S :=
  match values with [] => s | v :: values => out_regs port (i + 1) values (out_reg port i v s) end.
Fixpoint out_ac_regs (i : Z) (values : list Z) (s : S) : S :=
  match values with
  | [] => s
  | v :: values => out_ac_regs (i + 1) values (outb VGA_AC_WRITE v (outb VGA_AC_INDEX i (inb VGA_INSTAT_READ s).2))
  end.

Definition unlock_crtc (s : S) : S :=
  let '(v, s) := in_reg VGA_CRTC_INDEX 0x03 s in
  let s := outb VGA_CRTC_DATA (Z.lor v 0x80) s in
  let '(v, s) := in_reg VGA_CRTC_INDEX 0x11 s in
  outb VGA_CRTC_DATA (Z.land v 0x7f) s.
Definition write_regs (r : list Z) (s : S) : S :=
  let s := outb VGA_MISC_WRITE (nth 0 r 0) s in
  let r := drop 1 r in
  let s := out_regs VGA_SEQ_INDEX 0 (take VGA_NUM_SEQ_REGS r) s in
  let r := drop VGA_NUM_SEQ_REGS r in
  let s := unlock_crtc s in
  let s := out_regs VGA_CRTC_INDEX 0 (take VGA_NUM_CRTC_REGS r) s in
  let r := drop VGA_NUM_CRTC_REGS r in
  let s := out_regs VGA_GC_INDEX 0 (take VGA_NUM_GC_REGS r) s in
  let r := drop VGA_NUM_GC_REGS r in
  let s := out_ac_regs 0 (take VGA_NUM_AC_REGS r) s in
  outb VGA_AC_INDEX 0x20 (inb VGA_INSTAT_READ s).2.

Definition set_plane (p : Z) (s : S) : S :=
  let p := Z.land p 3 in
  let pmask := u8 (Z.shiftl 1 p) in
  out_reg VGA_SEQ_INDEX 2 pmask (out_reg VGA_GC_INDEX 4 p s).

(** Bits 2 and 3 of a register say where the memory appears. *)
Definition segment_of (v : Z) : Z :=
  let seg := Z.land (Z.shiftr v 2) 3 in
  if seg =? 2 then 0xB0000 else if seg =? 3 then 0xB8000 else 0xA0000.
Definition vga_get_framebuffer (s : S) : Z * S :=
  let '(v, s) := in_reg VGA_GC_INDEX 6 s in (segment_of v, s).

(** [memcpy] to the card, and the loop over the characters. *)
Fixpoint store_bytes (dst : Z) (bytes : list Z) (s : S) : S :=
  match bytes with [] => s | b :: bytes => store_bytes (dst + 1) bytes (store_byte dst b s) end.
Fixpoint store_font (n : nat) (start i : Z) (buf : list Z) (font_height : Z) (s : S) : outcome S :=
  match n with
  | O => Ok s
  | Datatypes.S n =>
    if Z.of_nat (length buf) <? font_height then Fault OutOfBounds else
    store_font n start (i + 1) (drop (Z.to_nat font_height) buf) font_height
      (store_bytes (start + i * 32) (take (Z.to_nat font_height) buf) s)
  end.
(** The registers that are saved, and flat addressing of the plane of fonts. *)
Definition open_font_plane (s : S) : Z * Z * Z * Z * Z * S :=
  let '(seq2, s) := in_reg VGA_SEQ_INDEX 2 s in
  let '(seq4, s) := in_reg VGA_SEQ_INDEX 4 s in
  let s := outb VGA_SEQ_DATA (Z.lor seq4 0x04) s in
  let '(gc4, s) := in_reg VGA_GC_INDEX 4 s in
  let '(gc5, s) := in_reg VGA_GC_INDEX 5 s in
  let s := outb VGA_GC_DATA (Z.land gc5 0xef) s in
  let '(gc6, s) := in_reg VGA_GC_INDEX 6 s in
  let s := outb VGA_GC_DATA (Z.land gc6 0xfd) s in
  (seq2, seq4, gc4, gc5, gc6, set_plane 2 s).
Definition restore_registers (seq2 seq4 gc4 gc5 gc6 : Z) (s : S) : S :=
  let s := out_reg VGA_SEQ_INDEX 2 seq2 s in
  let s := out_reg VGA_SEQ_INDEX 4 seq4 s in
  let s := out_reg VGA_GC_INDEX 4 gc4 s in
  let s := out_reg VGA_GC_INDEX 5 gc5 s in
  out_reg VGA_GC_INDEX 6 gc6 s.
Definition write_font (buf : list Z) (font_height : Z) (s : S) : outcome S :=
  let '(seq2, seq4, gc4, gc5, gc6, s) := open_font_plane s in
  let '(start, s) := vga_get_framebuffer s in
  s ← store_font 256 start 0 buf font_height s;
  Ok (restore_registers seq2 seq4 gc4 gc5 gc6 s).

Definition vga_get_cursor_offset_ (s : S) : Z * S :=
  let '(low, s) := in_reg VGA_CRTC_INDEX 0x0f s in
  let '(high, s) := in_reg VGA_CRTC_INDEX 0x0e s in
  (u16 (low + Z.shiftl high 8), s).
Definition vga_set_cursor_offset_ (offset : Z) (s : S) : S :=
  out_reg VGA_CRTC_INDEX 0x0e (Z.land (Z.shiftr offset 8) 0xFF) (out_reg VGA_CRTC_INDEX 0x0f (Z.land offset 0xFF) s).
(** The new value goes to the index. *)
Definition vga_set_cursor_visibility_ (on : bool) (s : S) : S :=
  let '(reg_val, s) := in_reg VGA_CRTC_INDEX 0x0a s in
  outb VGA_CRTC_INDEX (if on then Z.land reg_val 0xdf else Z.lor reg_val 0x20) s.

(** [while(!(inb(port) & mask));] *)
Fixpoint wait_set (fuel : nat) (port mask : Z) (s : S) : outcome S :=
  match fuel with
  | O => Fault OutOfFuel
  | Datatypes.S fuel => let '(v, s) := inb port s in if has v mask then Ok s else wait_set fuel port mask s
  end.
Definition vga_set_display_offset_ (fuel : nat) (offset : Z) (on_retrace : bool) (s : S) : outcome S :=
  s ← (if on_retrace then s ← wait_set fuel INPUT_STATUS_1 VRETRACE s; wait_clear fuel INPUT_STATUS_1 VRETRACE s else Ok s);
  let s := outw VGA_CRTC_INDEX (u16 (Z.lor HIGH_ADDRESS (Z.land offset 0xff00))) s in
  Ok (outw VGA_CRTC_INDEX (u16 (Z.lor LOW_ADDRESS (Z.shiftl offset 8))) s).
End registers.

Section driver.
Context {S : Type} {P : ports S} {H : host_memory S}.
(** What the files of the driver's directory hold. *)
Context (file : list Z -> option (list Z)) (fuel : nat).

Definition put_io (s : S) (v : vga S) : vga S := mk_vga s (font16 v) (font08 v).

(** A header of four bytes, then the characters; what was not read has no value. *)
Definition loadpsf (name : list Z) : outcome (option (list Z)) :=
  match file name with
  | None => Ok None
  | Some data =>
    m0 ← fetch data 0; m1 ← fetch data 1; charsize ← fetch data 3;
    if negb (m0 + 256 * m1 =? PSF_MAGIC) then Ok None
    else Ok (Some (take (Z.to_nat (256 * charsize)) (drop 4 data)))
  end.

Definition load_font16 (v : vga S) : outcome (vga S) :=
  match font16 v with Some _ => Ok v | None => f ← loadpsf font16_name; Ok (mk_vga (io v) f (font08 v)) end.
Definition load_font08 (v : vga S) : outcome (vga S) :=
  match font08 v with Some _ => Ok v | None => f ← loadpsf font08_name; Ok (mk_vga (io v) (font16 v) f) end.
Definition vga_set_mode (index : Z) (v : vga S) : outcome (bool * vga S) :=
  m ← fetch mode_data index; mode ← fetch vga_available_modes index;
  let v := put_io (write_regs (regs m) (io v)) v in
  if has (dm_flags mode) DISPLAY_TEXT_MODE then
    v ← (if char_height m =? 16 then load_font16 v else Ok v);
    v ← (if char_height m =? 8 then load_font08 v else Ok v);
    match (if char_height m =? 16 then font16 v else font08 v) with
    | Some f => s ← write_font f (char_height m) (io v); Ok (true, put_io s v)
    | None => Ok (true, v)
    end
  else Ok (true, v).

Definition vga_driver : display_driver (vga S) :=
  mk_driver (vga S) vga_set_mode
    (fun v => let '(a, s) := vga_get_framebuffer (io v) in (a, put_io s v))
    (fun off r v => s ← vga_set_display_offset_ fuel off r (io v); Ok (put_io s v))
    (fun v => let '(c, s) := vga_get_cursor_offset_ (io v) in (c, put_io s v))
    (fun off v => put_io (vga_set_cursor_offset_ off (io v)) v)
    (fun on v => put_io (vga_set_cursor_visibility_ on (io v)) v)
    vga_available_modes.

(** [d] is the address of the driver. *)
Definition vga_init {M : display_machine (vga S)} (drivers : Z -> option (display_driver (vga S))) (active : bool) (d : Z)
    (s : display_state (vga S)) : outcome (display_state (vga S)) :=
  let '(vga_memory, m) := map_to_new_pages 0xA0000 (memmanager_minimum_pages (256 * 1024)) (Z.lor PAGE_PRESENT PAGE_RW) (machine s) in
  _ ← k_assert (negb (vga_memory =? 0));
  display_add_driver drivers active d true (set_machine m s).
End driver.
