(* ===== verification/VgaProofs.v ===== *)
(** * The VGA driver programs the card as the card is documented

    The card is its registers, which the ports read and write, and four planes of memory.
    Whatever it held before, setting a mode leaves exactly the dump in its registers and
    the font in the plane of fonts. *)
From S2P Require Import Prelude Paging Terminal TerminalProofs Ports Display DisplayProofs Vga.

(** The index registers, the data registers behind them, and the flip-flop of the attribute
    controller: its port takes an index and a value in turn. *)
Record card_regs := mk_regs {
  misc : Z; seq_index : Z; seq : list Z; crtc_index : Z; crtc : list Z; gc_index : Z; gc : list Z;
  ac_index : Z; ac_wants_index : bool; ac : list Z }.

Definition set_reg (l : list Z) (i v : Z) : list Z := <[Z.to_nat i := v]> l.
Definition reg (l : list Z) (i : Z) : Z := nth (Z.to_nat i) l 0.
(** Bit 7 of register 0x11 protects the first eight but for a bit of the overflow register. *)
Definition crtc_protected (r : card_regs) : bool := has (reg (crtc r) 0x11) 0x80 && (crtc_index r <=? 7).
Definition set_crtc_protected (r : card_regs) (v : Z) : list Z :=
  if crtc_index r =? 7 then set_reg (crtc r) 7 (Z.lor (Z.land (reg (crtc r) 7) 0xef) (Z.land v 0x10)) else crtc r.
(** While bit 5 of the index is set the palette belongs to the display. *)
Definition ac_locked (r : card_regs) : bool := has (ac_index r) 0x20 && (Z.land (ac_index r) 0x1f <? 0x10).

Definition card_out (port v : Z) (r : card_regs) : card_regs :=
  let '(mk_regs m si s ci c gi g ai w a) := r in
  if port =? 0x3C2 then mk_regs v si s ci c gi g ai w a
  else if port =? 0x3C4 then mk_regs m v s ci c gi g ai w a
  else if port =? 0x3C5 then mk_regs m si (set_reg s si v) ci c gi g ai w a
  else if port =? 0x3D4 then mk_regs m si s v c gi g ai w a
  else if port =? 0x3D5 then
    mk_regs m si s ci (if crtc_protected r then set_crtc_protected r v else set_reg c ci v) gi g ai w a
  else if port =? 0x3CE then mk_regs m si s ci c v g ai w a
  else if port =? 0x3CF then mk_regs m si s ci c gi (set_reg g gi v) ai w a
  else if port =? 0x3C0 then
    if w then mk_regs m si s ci c gi g v false a
    else mk_regs m si s ci c gi g ai true (if ac_locked r then a else set_reg a (Z.land ai 0x1f) v)
  else r.
(** Reading the status makes the next write to the attribute controller an index. *)
Definition card_in (port : Z) (r : card_regs) : card_regs :=
  if port =? 0x3DA then mk_regs (misc r) (seq_index r) (seq r) (crtc_index r) (crtc r) (gc_index r) (gc r) (ac_index r) true (ac r) else r.
(** What a port answers, where the registers say so: while bit 7 of register 3 is clear, 0x10
    and 0x11 are the light pen. *)
Definition card_value (port : Z) (r : card_regs) : option Z :=
  if port =? 0x3C5 then seq r !! Z.to_nat (seq_index r)
  else if port =? 0x3CF then gc r !! Z.to_nat (gc_index r)
  else if port =? 0x3D5 then
    if negb (has (reg (crtc r) 3) 0x80) && ((crtc_index r =? 0x10) || (crtc_index r =? 0x11)) then None
    else crtc r !! Z.to_nat (crtc_index r)
  else None.

(** Memory without odd/even and chain-4 addressing, write mode 0 and no function: a byte goes
    to every plane of the mask. *)
Definition flat (r : card_regs) : Prop :=
  Z.land (reg (seq r) 4) 0x0c = 0x04 /\ reg (gc r) 1 = 0 /\ reg (gc r) 3 = 0 /\ Z.land (reg (gc r) 5) 0x13 = 0 /\
  Z.land (reg (gc r) 6) 0x02 = 0 /\ reg (gc r) 8 = 0xff.
Definition in_window (r : card_regs) (a : Z) : Prop :=
  segment_of (reg (gc r) 6) <= a < segment_of (reg (gc r) 6) + 0x8000.

Class vga_card (S : Type) {P : ports S} {H : host_memory S} := {
  view : S -> card_regs;
  plane : Z -> Z -> S -> Z;
  view_outb : forall port v s, view (outb port v s) = card_out port v (view s);
  view_inb : forall port s, view (inb port s).2 = card_in port (view s);
  value_inb : forall port s v, card_value port (view s) = Some v -> (inb port s).1 = v;
  view_outw : forall port v s, view (outw port v s) = card_out (port + 1) (Z.shiftr v 8) (card_out port (Z.land v 0xff) (view s));
  view_store : forall a v s, view (store_byte a v s) = view s;
  plane_outb : forall port v s p o, plane p o (outb port v s) = plane p o s;
  plane_inb : forall port s p o, plane p o (inb port s).2 = plane p o s;
  plane_store : forall a v s p o, flat (view s) -> in_window (view s) a -> 0 <= p < 4 ->
    plane p o (store_byte a v s) =
      if Z.testbit (reg (seq (view s)) 2) p && (o =? a - segment_of (reg (gc (view s)) 6)) then v else plane p o s }.

Record regs_ok (r : card_regs) : Prop := {
  ro_seq : length (seq r) = 5%nat; ro_crtc : length (crtc r) = 25%nat; ro_gc : length (gc r) = 9%nat; ro_ac : length (ac r) = 21%nat }.

(** [l] with [values] from [i] on. *)
Definition over (l values : list Z) (i : nat) : list Z := take i l ++ values ++ drop (i + length values) l.
Lemma over_all l values : length values = length l -> over l values 0 = values.
Proof. intros H. unfold over. rewrite Nat.add_0_l, H, drop_all. cbn [take app]. apply app_nil_r. Qed.
Lemma over_set l v values i : (i + Datatypes.S (length values) <= length l)%nat -> over (<[i := v]> l) values (Datatypes.S i) = over l (v :: values) i.
Proof.
  intros H. unfold over. rewrite (take_S_r _ i v), take_insert_ge by (rewrite ?list_lookup_insert_eq by lia; reflexivity || lia).
  rewrite drop_insert_lt by lia. cbn [length]. rewrite <- app_assoc. cbn [app]. do 3 f_equal. f_equal. lia.
Qed.

(** ** What an access to a port does not change, the driver does not *)
Section keep.
Context {S T : Type} {P : ports S} {H : host_memory S} (f : S -> T).
Context (f_out : forall port v s, f (outb port v s) = f s) (f_in : forall port s, f (inb port s).2 = f s).
#[local] Set Default Proof Using "f_out f_in".

Lemma keep_out_reg port i v s : f (out_reg port i v s) = f s.
Proof. unfold out_reg. now rewrite !f_out. Qed.
Lemma keep_in_reg port i s : f (in_reg port i s).2 = f s.
Proof. unfold in_reg. now rewrite f_in, f_out. Qed.
Lemma keep_out_regs port values : forall i s, f (out_regs port i values s) = f s.
Proof. induction values as [|v values IH]; intros i s; cbn [out_regs]; [reflexivity|]. now rewrite IH, keep_out_reg. Qed.
Lemma keep_out_ac_regs values : forall i s, f (out_ac_regs i values s) = f s.
Proof. induction values as [|v values IH]; intros i s; cbn [out_ac_regs]; [reflexivity|]. now rewrite IH, !f_out, f_in. Qed.
Ltac in_kept := match goal with |- context [in_reg ?port ?i ?s] =>
  let K := fresh "K" in pose proof (keep_in_reg port i s) as K; destruct (in_reg port i s); cbn [snd] in K end.
Lemma keep_unlock s : f (unlock_crtc s) = f s.
Proof. unfold unlock_crtc. repeat in_kept. rewrite f_out, K0, f_out. exact K. Qed.
Lemma keep_write_regs r s : f (write_regs r s) = f s.
Proof. unfold write_regs. now rewrite f_out, f_in, keep_out_ac_regs, !keep_out_regs, keep_unlock, keep_out_regs, f_out. Qed.
Lemma keep_get_framebuffer s : f (vga_get_framebuffer s).2 = f s.
Proof. unfold vga_get_framebuffer. in_kept. exact K. Qed.
Lemma keep_get_cursor s : f (vga_get_cursor_offset_ s).2 = f s.
Proof. unfold vga_get_cursor_offset_. repeat in_kept. cbn [snd]. congruence. Qed.
Lemma keep_restore a b c d e s : f (restore_registers a b c d e s) = f s.
Proof. unfold restore_registers. now rewrite !keep_out_reg. Qed.
Lemma keep_open s : f (open_font_plane s).2 = f s.
Proof. unfold open_font_plane, set_plane. repeat in_kept. cbn [snd]. rewrite !keep_out_reg, f_out, K3, f_out, K2, K1, f_out. congruence. Qed.

Context (f_store : forall a v s, f (store_byte a v s) = f s).
Lemma keep_store_bytes bytes : forall dst s, f (store_bytes dst bytes s) = f s.
Proof using f_store. induction bytes as [|b bytes IH]; intros dst s; cbn [store_bytes]; [reflexivity|]. now rewrite IH, f_store. Qed.
Lemma keep_store_font n : forall start i buf h s s', store_font n start i buf h s = Ok s' -> f s' = f s.
Proof using f_store.
  induction n as [|n IH]; intros start i buf h s s' E; cbn [store_font] in E; [now injection E as <-|].
  destruct (_ <? h); [discriminate|]. rewrite (IH _ _ _ _ _ _ E). apply keep_store_bytes.
Qed.
Lemma keep_write_font buf h s s' : write_font buf h s = Ok s' -> f s' = f s.
Proof using f_out f_in f_store.
  unfold write_font. pose proof (keep_open s) as K1. destruct (open_font_plane s) as [[[[[a b] c] d] e] s1]. cbn [snd] in K1.
  pose proof (keep_get_framebuffer s1) as K2. destruct (vga_get_framebuffer s1) as [st s2]. cbn [snd] in K2.
  destruct (store_font 256 st 0 buf h s2) as [s3|] eqn:E; [|discriminate]. intros [= <-]. rewrite keep_restore, (keep_store_font _ _ _ _ _ _ _ E). congruence.
Qed.
Lemma keep_set_mode file i v ok v' : vga_set_mode file i v = Ok (ok, v') -> f (io v') = f (io v).
Proof using f_out f_in f_store.
  unfold vga_set_mode. destruct (fetch mode_data i) as [m|]; [|discriminate]. destruct (fetch vga_available_modes i) as [mode|]; [|discriminate].
  cbn [mbind outcome_bind]. set (v1 := put_io _ v). assert (K : f (io v1) = f (io v)) by apply keep_write_regs.
  destruct (has _ _); [|intros [= <- <-]; exact K].
  assert (K16 : forall w w' : vga S, load_font16 file w = Ok w' -> io w' = io w).
  { intros w w'. unfold load_font16. destruct (font16 w); [now intros [= ->]|]. destruct (loadpsf _ _); [|discriminate]. now intros [= <-]. }
  assert (K08 : forall w w' : vga S, load_font08 file w = Ok w' -> io w' = io w).
  { intros w w'. unfold load_font08. destruct (font08 w); [now intros [= ->]|]. destruct (loadpsf _ _); [|discriminate]. now intros [= <-]. }
  destruct (if char_height m =? 16 then _ else _) as [v2|] eqn:E2; [|discriminate]. cbn [mbind outcome_bind].
  destruct (if char_height m =? 8 then _ else _) as [v3|] eqn:E3; [|discriminate]. cbn [mbind outcome_bind].
  assert (I2 : io v2 = io v1) by (destruct (char_height m =? 16); [now apply K16|now injection E2 as <-]).
  assert (I3 : io v3 = io v2) by (destruct (char_height m =? 8); [now apply K08|now injection E3 as <-]).
  destruct (if char_height m =? 16 then font16 v3 else font08 v3) as [l|]; [|intros [= <- <-]; now rewrite I3, I2].
  destruct (write_font l _ _) as [s4|] eqn:E4; [|discriminate]. intros [= <- <-]. cbn [put_io io].
  rewrite (keep_write_font _ _ _ _ E4), I3, I2. exact K.
Qed.
End keep.

(** ** Views of a state after an access *)
Definition with_seq (i : Z) (l : list Z) (r : card_regs) : card_regs :=
  mk_regs (misc r) i l (crtc_index r) (crtc r) (gc_index r) (gc r) (ac_index r) (ac_wants_index r) (ac r).
Definition with_crtc (i : Z) (l : list Z) (r : card_regs) : card_regs :=
  mk_regs (misc r) (seq_index r) (seq r) i l (gc_index r) (gc r) (ac_index r) (ac_wants_index r) (ac r).
Definition with_gc (i : Z) (l : list Z) (r : card_regs) : card_regs :=
  mk_regs (misc r) (seq_index r) (seq r) (crtc_index r) (crtc r) i l (ac_index r) (ac_wants_index r) (ac r).
Definition with_ac (i : Z) (w : bool) (l : list Z) (r : card_regs) : card_regs :=
  mk_regs (misc r) (seq_index r) (seq r) (crtc_index r) (crtc r) (gc_index r) (gc r) i w l.

Section card.
Context {S : Type} {P : ports S} {H : host_memory S} {C : vga_card S}.
#[local] Set Default Proof Using "C".

Lemma view_seq i v s : view (out_reg VGA_SEQ_INDEX i v s) = with_seq i (set_reg (seq (view s)) i v) (view s).
Proof. unfold out_reg. rewrite !view_outb. destruct (view s). reflexivity. Qed.
Lemma view_gc i v s : view (out_reg VGA_GC_INDEX i v s) = with_gc i (set_reg (gc (view s)) i v) (view s).
Proof. unfold out_reg. rewrite !view_outb. destruct (view s). reflexivity. Qed.
Lemma card_out_crtc v r : card_out (VGA_CRTC_INDEX + 1) v r =
  with_crtc (crtc_index r) (if crtc_protected r then set_crtc_protected r v else set_reg (crtc r) (crtc_index r) v) r.
Proof. destruct r. reflexivity. Qed.
Lemma card_out_crtc_index i r : card_out VGA_CRTC_INDEX i r = with_crtc i (crtc r) r.
Proof. destruct r. reflexivity. Qed.
Lemma view_crtc i v s : crtc_protected (with_crtc i (crtc (view s)) (view s)) = false ->
  view (out_reg VGA_CRTC_INDEX i v s) = with_crtc i (set_reg (crtc (view s)) i v) (view s).
Proof. intros E. unfold out_reg. rewrite !view_outb, card_out_crtc_index, card_out_crtc, E. reflexivity. Qed.
Lemma view_ac i v s : 0 <= i < 0x20 ->
  view (outb VGA_AC_WRITE v (outb VGA_AC_INDEX i (inb VGA_INSTAT_READ s).2)) = with_ac i true (set_reg (ac (view s)) i v) (view s).
Proof.
  intros Hi. rewrite !view_outb, view_inb. destruct (view s). cbn. unfold ac_locked. cbn [ac_index].
  assert (M : Z.land i 0x1f = i) by (change 0x1f with (2 ^ 5 - 1); rewrite land_low_mask by lia; apply Z.mod_small; lia).
  assert (B : has i 0x20 = false).
  { unfold has. rewrite <- M, <- Z.land_assoc. change (Z.land 0x1f 0x20) with 0. rewrite Z.land_0_r. reflexivity. }
  now rewrite B, M.
Qed.

(** Reading a register that is there. *)
Lemma in_register (f : card_regs -> list Z) port i s r : view (outb port i s) = r -> card_value (port + 1) r = f r !! Z.to_nat i ->
  card_in (port + 1) r = r -> 0 <= i < Z.of_nat (length (f r)) ->
  exists s', in_reg port i s = (reg (f r) i, s') /\ view s' = r /\ forall p o, plane p o s' = plane p o s.
Proof.
  intros V Ev Ei Hi. unfold in_reg. pose proof (view_inb (port + 1) (outb port i s)) as V2. pose proof (plane_inb (port + 1) (outb port i s)) as Q.
  assert (E : (inb (port + 1) (outb port i s)).1 = reg (f r) i).
  { apply value_inb. rewrite V, Ev. unfold reg. rewrite nth_lookup.
    destruct (lookup_lt_is_Some_2 (f r) (Z.to_nat i)) as [x Hx]; [lia|]. now rewrite Hx. }
  destruct (inb (port + 1) (outb port i s)) as [v s2]. cbn [fst snd] in *. exists s2. rewrite E, V2, V, Ei.
  do 2 (split; [reflexivity|]). intros p o. rewrite Q. apply plane_outb.
Qed.
Lemma in_seq i s : 0 <= i < Z.of_nat (length (seq (view s))) ->
  exists s', in_reg VGA_SEQ_INDEX i s = (reg (seq (view s)) i, s') /\ view s' = with_seq i (seq (view s)) (view s) /\ forall p o, plane p o s' = plane p o s.
Proof. intros Hi. apply (in_register seq VGA_SEQ_INDEX i s (with_seq i (seq (view s)) (view s))); try reflexivity; [|exact Hi]. rewrite view_outb. now destruct (view s). Qed.
Lemma in_gc i s : 0 <= i < Z.of_nat (length (gc (view s))) ->
  exists s', in_reg VGA_GC_INDEX i s = (reg (gc (view s)) i, s') /\ view s' = with_gc i (gc (view s)) (view s) /\ forall p o, plane p o s' = plane p o s.
Proof. intros Hi. apply (in_register gc VGA_GC_INDEX i s (with_gc i (gc (view s)) (view s))); try reflexivity; [|exact Hi]. rewrite view_outb. now destruct (view s). Qed.
Lemma card_value_crtc r : card_value (VGA_CRTC_INDEX + 1) r =
  if negb (has (reg (crtc r) 3) 0x80) && ((crtc_index r =? 0x10) || (crtc_index r =? 0x11)) then None else crtc r !! Z.to_nat (crtc_index r).
Proof. reflexivity. Qed.
(** The registers of the controller of the display are answered when the pen is off. *)
Lemma in_crtc i s : exists v s', in_reg VGA_CRTC_INDEX i s = (v, s') /\ view s' = with_crtc i (crtc (view s)) (view s) /\
  (forall p o, plane p o s' = plane p o s) /\
  (0 <= i < Z.of_nat (length (crtc (view s))) -> i <> 0x10 -> i <> 0x11 -> v = reg (crtc (view s)) i).
Proof.
  unfold in_reg. set (s1 := outb VGA_CRTC_INDEX i s).
  assert (V : view s1 = with_crtc i (crtc (view s)) (view s)) by (unfold s1; rewrite view_outb; destruct (view s); reflexivity).
  assert (E : 0 <= i < Z.of_nat (length (crtc (view s))) -> i <> 0x10 -> i <> 0x11 -> (inb (VGA_CRTC_INDEX + 1) s1).1 = reg (crtc (view s)) i).
  { intros Hi H1 H2. apply value_inb. rewrite V, card_value_crtc. cbn [with_crtc crtc_index crtc].
    rewrite (proj2 (Z.eqb_neq i 16)), (proj2 (Z.eqb_neq i 17)) by assumption. rewrite andb_false_r. unfold reg. rewrite nth_lookup. destruct (lookup_lt_is_Some_2 (crtc (view s)) (Z.to_nat i)) as [x Hx]; [lia|]. now rewrite Hx. }
  pose proof (view_inb (VGA_CRTC_INDEX + 1) s1) as V2.
  pose proof (plane_inb (VGA_CRTC_INDEX + 1) s1) as Q.
  destruct (inb (VGA_CRTC_INDEX + 1) s1) as [v s2]. cbn [fst snd] in *. exists v, s2. split; [reflexivity|].
  split; [rewrite V2, V; reflexivity|]. split; [|exact E]. intros p o. rewrite Q. apply plane_outb.
Qed.

(** ** Groups of registers *)
Lemma out_regs_seq values : forall i s, (i + length values <= length (seq (view s)))%nat ->
  exists k, view (out_regs VGA_SEQ_INDEX (Z.of_nat i) values s) = with_seq k (over (seq (view s)) values i) (view s).
Proof.
  induction values as [|v values IH]; intros i s Hl; cbn [out_regs length] in *.
  - exists (seq_index (view s)). unfold over. cbn [app length]. rewrite Nat.add_0_r, take_drop. destruct (view s). reflexivity.
  - set (s1 := out_reg VGA_SEQ_INDEX (Z.of_nat i) v s). pose proof (view_seq (Z.of_nat i) v s) as V. fold s1 in V. unfold set_reg in V. rewrite Nat2Z.id in V.
    replace (Z.of_nat i + 1) with (Z.of_nat (Datatypes.S i)) by lia.
    destruct (IH (Datatypes.S i) s1) as [k E]; [rewrite V; cbn [seq with_seq]; rewrite length_insert; lia|].
    exists k. rewrite E, V. cbn [seq with_seq]. rewrite over_set by lia. reflexivity.
Qed.
Lemma out_regs_gc values : forall i s, (i + length values <= length (gc (view s)))%nat ->
  exists k, view (out_regs VGA_GC_INDEX (Z.of_nat i) values s) = with_gc k (over (gc (view s)) values i) (view s).
Proof.
  induction values as [|v values IH]; intros i s Hl; cbn [out_regs length] in *.
  - exists (gc_index (view s)). unfold over. cbn [app length]. rewrite Nat.add_0_r, take_drop. destruct (view s). reflexivity.
  - set (s1 := out_reg VGA_GC_INDEX (Z.of_nat i) v s). pose proof (view_gc (Z.of_nat i) v s) as V. fold s1 in V. unfold set_reg in V. rewrite Nat2Z.id in V.
    replace (Z.of_nat i + 1) with (Z.of_nat (Datatypes.S i)) by lia.
    destruct (IH (Datatypes.S i) s1) as [k E]; [rewrite V; cbn [gc with_gc]; rewrite length_insert; lia|].
    exists k. rewrite E, V. cbn [gc with_gc]. rewrite over_set by lia. reflexivity.
Qed.
Lemma out_ac_regs_spec values : forall i s, (i + length values <= length (ac (view s)))%nat -> (i + length values <= 32)%nat ->
  exists k w, view (out_ac_regs (Z.of_nat i) values s) = with_ac k w (over (ac (view s)) values i) (view s).
Proof.
  induction values as [|v values IH]; intros i s Hl Hs; cbn [out_ac_regs length] in *.
  - exists (ac_index (view s)), (ac_wants_index (view s)). unfold over. cbn [app length]. rewrite Nat.add_0_r, take_drop. destruct (view s). reflexivity.
  - set (s1 := outb VGA_AC_WRITE v _). pose proof (view_ac (Z.of_nat i) v s ltac:(lia)) as V. fold s1 in V. unfold set_reg in V. rewrite Nat2Z.id in V.
    replace (Z.of_nat i + 1) with (Z.of_nat (Datatypes.S i)) by lia.
    destruct (IH (Datatypes.S i) s1) as (k & w & E); [rewrite V; cbn [ac with_ac]; rewrite length_insert; lia|lia|].
    exists k, w. rewrite E, V. cbn [ac with_ac]. rewrite over_set by lia. reflexivity.
Qed.

Definition unlocked (l : list Z) : Prop := has (reg l 0x11) 0x80 = false.
Lemma out_regs_crtc values : forall i s, (i + length values <= length (crtc (view s)))%nat -> ((i <= 17)%nat -> unlocked (crtc (view s))) ->
  exists k, view (out_regs VGA_CRTC_INDEX (Z.of_nat i) values s) = with_crtc k (over (crtc (view s)) values i) (view s).
Proof.
  induction values as [|v values IH]; intros i s Hl Hu; cbn [out_regs length] in *.
  - exists (crtc_index (view s)). unfold over. cbn [app length]. rewrite Nat.add_0_r, take_drop. destruct (view s). reflexivity.
  - set (s1 := out_reg VGA_CRTC_INDEX (Z.of_nat i) v s).
    assert (V : view s1 = with_crtc (Z.of_nat i) (<[i := v]> (crtc (view s))) (view s)).
    { unfold s1. rewrite view_crtc; [unfold set_reg; now rewrite Nat2Z.id|]. unfold crtc_protected. cbn [with_crtc crtc crtc_index].
      destruct (Z.leb_spec (Z.of_nat i) 7); [|apply andb_false_r]. rewrite Hu by lia. reflexivity. }
    replace (Z.of_nat i + 1) with (Z.of_nat (Datatypes.S i)) by lia.
    destruct (IH (Datatypes.S i) s1) as [k E]; rewrite ?V; cbn [crtc with_crtc].
    { rewrite length_insert. lia. }
    { intros Hi. unfold unlocked, reg. change (Z.to_nat 17) with 17%nat. rewrite nth_lookup, list_lookup_insert_ne, <- nth_lookup by lia. apply Hu. lia. }
    exists k. rewrite E, V. cbn [crtc with_crtc]. rewrite over_set by lia. reflexivity.
Qed.

(** ** A dump *)
Lemma unlock_crtc_spec s : length (crtc (view s)) = 25%nat ->
  exists k l, view (unlock_crtc s) = with_crtc k l (view s) /\ length l = 25%nat /\ unlocked l.
Proof.
  intros Hl. unfold unlock_crtc. destruct (in_crtc 3 s) as (v1 & s1 & E1 & V1 & _). rewrite E1.
  set (s2 := outb VGA_CRTC_DATA (Z.lor v1 0x80) s1).
  assert (V2 : exists l2, view s2 = with_crtc 3 l2 (view s) /\ length l2 = 25%nat).
  { unfold s2. change VGA_CRTC_DATA with (VGA_CRTC_INDEX + 1). rewrite view_outb, V1, card_out_crtc. eexists. split; [reflexivity|].
    cbn [with_crtc crtc crtc_index]. destruct (crtc_protected _).
    - unfold set_crtc_protected. cbn [with_crtc crtc crtc_index]. destruct (_ =? _); [unfold set_reg; rewrite length_insert|]; exact Hl.
    - unfold set_reg. rewrite length_insert. exact Hl. }
  destruct V2 as (l2 & V2 & L2). destruct (in_crtc 0x11 s2) as (v2 & s3 & E3 & V3 & _). rewrite E3.
  change VGA_CRTC_DATA with (VGA_CRTC_INDEX + 1). rewrite view_outb, V3, V2, card_out_crtc.
  unfold crtc_protected. cbn [with_crtc crtc crtc_index]. change (17 <=? 7) with false. rewrite andb_false_r.
  eexists _, _. split; [reflexivity|]. unfold set_reg, unlocked, reg. rewrite length_insert. split; [exact L2|].
  change (Z.to_nat 17) with 17%nat. rewrite nth_lookup, list_lookup_insert_eq by lia.
  change (negb (Z.land (Z.land v2 0x7f) 0x80 =? 0) = false). rewrite <- Z.land_assoc. change (Z.land 127 128) with 0. now rewrite Z.land_0_r.
Qed.

Definition shows_dump (r : list Z) (c : card_regs) : Prop :=
  misc c = nth 0 r 0 /\ seq c = take 5 (drop 1 r) /\ crtc c = take 25 (drop 6 r) /\ gc c = take 9 (drop 31 r) /\
  ac c = take 21 (drop 40 r) /\ ac_index c = 0x20.
Lemma write_regs_spec r s : length r = 61%nat -> regs_ok (view s) -> shows_dump r (view (write_regs r s)).
Proof.
  intros Hr [Q1 Q2 Q3 Q4]. unfold write_regs, VGA_NUM_SEQ_REGS, VGA_NUM_CRTC_REGS, VGA_NUM_GC_REGS, VGA_NUM_AC_REGS. rewrite !drop_drop.
  cbn [Nat.add]. set (s0 := outb VGA_MISC_WRITE (nth 0 r 0) s).
  assert (V0 : view s0 = mk_regs (nth 0 r 0) (seq_index (view s)) (seq (view s)) (crtc_index (view s)) (crtc (view s)) (gc_index (view s)) (gc (view s))
    (ac_index (view s)) (ac_wants_index (view s)) (ac (view s))) by (unfold s0; rewrite view_outb; destruct (view s); reflexivity).
  assert (Len : forall n k, (n + k <= 61)%nat -> length (take k (drop n r)) = k) by (intros n k Hk; rewrite length_take, length_drop, Hr; lia).
  destruct (out_regs_seq (take 5 (drop 1 r)) 0 s0) as [k1 V1]; [rewrite V0; cbn [seq]; rewrite Len by lia; lia|].
  change (Z.of_nat 0) with 0 in V1. set (s1 := out_regs VGA_SEQ_INDEX 0 _ s0) in *.
  rewrite V0 in V1. cbn [with_seq seq] in V1. rewrite over_all in V1 by (rewrite Len by lia; now rewrite Q1).
  destruct (unlock_crtc_spec s1) as (k2 & l2 & V2 & L2 & U2); [rewrite V1; exact Q2|]. set (s2 := unlock_crtc s1) in *.
  destruct (out_regs_crtc (take 25 (drop 6 r)) 0 s2) as [k3 V3].
  { rewrite V2. cbn [crtc with_crtc]. rewrite Len by lia. lia. }
  { intros _. rewrite V2. exact U2. }
  change (Z.of_nat 0) with 0 in V3. set (s3 := out_regs VGA_CRTC_INDEX 0 _ s2) in *.
  rewrite V2 in V3. cbn [with_crtc crtc with_seq misc seq_index seq crtc_index crtc gc_index gc ac_index ac_wants_index ac] in V3. rewrite over_all in V3 by (rewrite Len by lia; now rewrite L2).
  destruct (out_regs_gc (take 9 (drop 31 r)) 0 s3) as [k4 V4]; [rewrite V3, V1; cbn [gc with_crtc with_seq misc seq_index seq crtc_index crtc gc_index gc ac_index ac_wants_index ac]; rewrite Len by lia; lia|].
  change (Z.of_nat 0) with 0 in V4. set (s4 := out_regs VGA_GC_INDEX 0 _ s3) in *.
  rewrite V3, V1 in V4. cbn [with_gc with_crtc gc with_seq misc seq_index seq crtc_index crtc gc_index gc ac_index ac_wants_index ac] in V4. rewrite over_all in V4 by (rewrite Len by lia; now rewrite Q3).
  destruct (out_ac_regs_spec (take 21 (drop 40 r)) 0 s4) as (k5 & w5 & V5); [rewrite V4; cbn [ac with_crtc with_gc with_seq misc seq_index seq crtc_index crtc gc_index gc ac_index ac_wants_index ac]; rewrite Len by lia; lia|rewrite Len by lia; lia|].
  change (Z.of_nat 0) with 0 in V5. set (s5 := out_ac_regs 0 _ s4) in *.
  rewrite V4 in V5. cbn [with_gc with_crtc with_ac ac with_seq misc seq_index seq crtc_index crtc gc_index gc ac_index ac_wants_index ac] in V5. rewrite over_all in V5 by (rewrite Len by lia; now rewrite Q4).
  unfold shows_dump. rewrite view_outb, view_inb, V5. cbn. repeat (split; [reflexivity|]). reflexivity.
Qed.

Lemma plane_out_reg port i v s p o : plane p o (out_reg port i v s) = plane p o s.
Proof. apply (keep_out_reg (plane p o)); intros; apply plane_outb || apply plane_inb. Qed.
Lemma plane_write_regs r s p o : plane p o (write_regs r s) = plane p o s.
Proof. apply (keep_write_regs (plane p o)); intros; apply plane_outb || apply plane_inb. Qed.

(** ** The font *)
Definition font_window (r : card_regs) : Prop := flat r /\ reg (seq r) 2 = 4.
Lemma store_bytes_spec bytes : forall dst s, font_window (view s) -> segment_of (reg (gc (view s)) 6) <= dst ->
  dst + Z.of_nat (length bytes) <= segment_of (reg (gc (view s)) 6) + 0x8000 ->
  view (store_bytes dst bytes s) = view s /\
  forall p o, 0 <= p < 4 -> plane p o (store_bytes dst bytes s) =
    let a := segment_of (reg (gc (view s)) 6) + o in
    if (p =? 2) && (dst <=? a) && (a <? dst + Z.of_nat (length bytes)) then nth (Z.to_nat (a - dst)) bytes 0 else plane p o s.
Proof.
  induction bytes as [|b bytes IH]; intros dst s Hf Hd Hl; cbn [store_bytes length] in *; cbv zeta.
  - split; [reflexivity|]. intros p o Hp. destruct (Z.leb_spec dst (segment_of (reg (gc (view s)) 6) + o)), (Z.ltb_spec (segment_of (reg (gc (view s)) 6) + o) (dst + Z.of_nat 0));
      rewrite ?andb_false_r; try reflexivity; lia.
  - destruct (IH (dst + 1) (store_byte dst b s)) as [V Pl]; rewrite ?view_store; try exact Hf; try lia.
    split; [rewrite V; apply view_store|]. intros p o Hp. cbv zeta in Pl. rewrite Pl, view_store by exact Hp. destruct Hf as [Hf Hm].
    rewrite plane_store by (try exact Hf; try exact Hp; unfold in_window; lia). rewrite Hm.
    set (base := segment_of (reg (gc (view s)) 6)) in *.
    assert (T : Z.testbit 4 p = (p =? 2)) by (assert (p = 0 \/ p = 1 \/ p = 2 \/ p = 3) as [->|[->|[->| ->]]] by lia; reflexivity).
    rewrite T. destruct (p =? 2); cbn [andb]; [|reflexivity].
    destruct (Z.leb_spec (dst + 1) (base + o)), (Z.ltb_spec (base + o) (dst + 1 + Z.of_nat (length bytes))), (Z.leb_spec dst (base + o)),
      (Z.ltb_spec (base + o) (dst + Z.of_nat (Datatypes.S (length bytes)))), (Z.eqb_spec o (dst - base)); cbn [andb]; try lia; try reflexivity.
    + replace (Z.to_nat (base + o - dst)) with (Datatypes.S (Z.to_nat (base + o - (dst + 1)))) by lia. reflexivity.
    + replace (Z.to_nat (base + o - dst)) with 0%nat by lia. reflexivity.
Qed.

(** Line [j] of character [k] is at [32 * k + j] of the plane. *)
Definition font_over (n : nat) (i : Z) (buf : list Z) (h : Z) (old : Z -> Z) (o : Z) : Z :=
  if (i <=? o / 32) && (o / 32 <? i + Z.of_nat n) && (o mod 32 <? h) then nth (Z.to_nat ((o / 32 - i) * h + o mod 32)) buf 0 else old o.
Lemma store_font_spec n : forall i buf h s, font_window (view s) -> 0 <= i -> i + Z.of_nat n <= 256 -> 0 <= h <= 32 ->
  Z.of_nat n * h <= Z.of_nat (length buf) ->
  exists s', store_font n (segment_of (reg (gc (view s)) 6)) i buf h s = Ok s' /\ view s' = view s /\
    forall p o, 0 <= p < 4 -> plane p o s' = if p =? 2 then font_over n i buf h (fun o => plane p o s) o else plane p o s.
Proof.
  induction n as [|n IH]; intros i buf h s Hf Hi Hn Hh Hb; cbn [store_font].
  - exists s. split; [reflexivity|]. split; [reflexivity|]. intros p o Hp. unfold font_over.
    destruct (Z.leb_spec i (o / 32)), (Z.ltb_spec (o / 32) (i + Z.of_nat 0)); try lia; cbn [andb]; now destruct (p =? 2).
  - rewrite (proj2 (Z.ltb_ge _ _)) by nia. set (base := segment_of (reg (gc (view s)) 6)).
    assert (Lt : length (take (Z.to_nat h) buf) = Z.to_nat h) by (rewrite length_take; nia).
    destruct (store_bytes_spec (take (Z.to_nat h) buf) (base + i * 32) s Hf) as [V Pl]; [fold base; lia|rewrite Lt; fold base; lia|].
    set (s1 := store_bytes (base + i * 32) _ s) in *.
    destruct (IH (i + 1) (drop (Z.to_nat h) buf) h s1) as (s' & E & V' & Pl'); rewrite ?V; try exact Hf; try lia.
    { rewrite length_drop. nia. }
    rewrite V in E. exists s'. split; [exact E|]. split; [congruence|]. intros p o Hp. rewrite Pl' by exact Hp.
    cbv zeta in Pl. fold base in Pl. pose proof (Z.div_mod o 32 ltac:(lia)). pose proof (Z.mod_pos_bound o 32 ltac:(lia)).
    unfold font_over. rewrite (Pl p o Hp), Lt. destruct (Z.eqb_spec p 2) as [->|]; cbn [andb]; [|reflexivity].
    destruct (Z.ltb_spec (o mod 32) h).
    + rewrite !andb_true_r. destruct (Z.leb_spec (i + 1) (o / 32)), (Z.ltb_spec (o / 32) (i + 1 + Z.of_nat n)), (Z.leb_spec i (o / 32)),
        (Z.ltb_spec (o / 32) (i + Z.of_nat (Datatypes.S n))), (Z.leb_spec (base + i * 32) (base + o)), (Z.ltb_spec (base + o) (base + i * 32 + Z.of_nat (Z.to_nat h)));
        cbn [andb]; try lia; try reflexivity.
      * rewrite nth_lookup, lookup_drop, <- nth_lookup. f_equal. nia.
      * assert (o / 32 = i) by lia. rewrite !nth_lookup, lookup_take_lt by lia. do 2 f_equal. lia.
    + rewrite !andb_false_r. destruct (Z.leb_spec (base + i * 32) (base + o)), (Z.ltb_spec (base + o) (base + i * 32 + Z.of_nat (Z.to_nat h)));
        cbn [andb]; try lia; try reflexivity.
Qed.

(** What writing a font needs of the mode: write mode 0 without functions, and not chain 4. *)
Definition font_ready (r : card_regs) : Prop :=
  Z.land (reg (seq r) 4) 0x08 = 0 /\ reg (gc r) 1 = 0 /\ reg (gc r) 3 = 0 /\ Z.land (reg (gc r) 5) 0x03 = 0 /\ reg (gc r) 8 = 0xff.
Lemma land_lor_mask a b m : Z.land b m = b -> Z.land a (Z.lxor m b) = 0 -> Z.land (Z.lor a b) m = b.
Proof using Type.
  intros H1 H2. apply Z.bits_inj'. intros n Hn.
  pose proof (f_equal (fun z => Z.testbit z n) H1) as B1. pose proof (f_equal (fun z => Z.testbit z n) H2) as B2. cbv beta in *.
  rewrite Z.land_spec, ?Z.lxor_spec, ?Z.bits_0 in *. rewrite Z.lor_spec.
  destruct (Z.testbit a n), (Z.testbit b n), (Z.testbit m n); cbn in *; congruence.
Qed.
Lemma land_sub_mask a m k : Z.land (Z.land a k) m = Z.land a (Z.land k m).
Proof using Type. now rewrite Z.land_assoc. Qed.
Lemma segment_keeps v : segment_of (Z.land v 0xfd) = segment_of v.
Proof using Type.
  unfold segment_of. rewrite Z.shiftr_land. change (Z.shiftr 0xfd 2) with 63. rewrite <- Z.land_assoc. reflexivity.
Qed.

Lemma out_seq_data v s : view (outb VGA_SEQ_DATA v s) = with_seq (seq_index (view s)) (set_reg (seq (view s)) (seq_index (view s)) v) (view s).
Proof. rewrite view_outb. now destruct (view s). Qed.
Lemma out_gc_data v s : view (outb VGA_GC_DATA v s) = with_gc (gc_index (view s)) (set_reg (gc (view s)) (gc_index (view s)) v) (view s).
Proof. rewrite view_outb. now destruct (view s). Qed.

(** All but two groups and the index registers, which every access changes. *)
Definition same_but (l1 l2 : list Z) (r r' : card_regs) : Prop :=
  misc r' = misc r /\ seq r' = l1 /\ crtc r' = crtc r /\ gc r' = l2 /\ ac r' = ac r /\ ac_index r' = ac_index r.
Lemma reg_set_ne l i j v : 0 <= i -> 0 <= j -> i <> j -> reg (set_reg l i v) j = reg l j.
Proof using Type. intros. unfold reg, set_reg. rewrite !nth_lookup, list_lookup_insert_ne by lia. reflexivity. Qed.
Lemma reg_set_eq l i v : 0 <= i < Z.of_nat (length l) -> reg (set_reg l i v) i = v.
Proof using Type. intros. unfold reg, set_reg. rewrite nth_lookup, list_lookup_insert_eq by lia. reflexivity. Qed.
Lemma length_set_reg l i v : length (set_reg l i v) = length l.
Proof using Type. apply length_insert. Qed.
Ltac fields := cbn [with_seq with_gc misc seq_index seq crtc_index crtc gc_index gc ac_index ac_wants_index ac] in *.

Lemma open_font_plane_spec s : length (seq (view s)) = 5%nat -> length (gc (view s)) = 9%nat ->
  exists s', open_font_plane s = (reg (seq (view s)) 2, reg (seq (view s)) 4, reg (gc (view s)) 4, reg (gc (view s)) 5, reg (gc (view s)) 6, s') /\
    same_but (set_reg (set_reg (seq (view s)) 4 (Z.lor (reg (seq (view s)) 4) 0x04)) 2 4)
      (set_reg (set_reg (set_reg (gc (view s)) 5 (Z.land (reg (gc (view s)) 5) 0xef)) 6 (Z.land (reg (gc (view s)) 6) 0xfd)) 4 2) (view s) (view s') /\
    forall p o, plane p o s' = plane p o s.
Proof.
  intros L1 L3. unfold open_font_plane, set_plane. change (u8 (Z.shiftl 1 (Z.land 2 3))) with 4. change (Z.land 2 3) with 2. set (r := view s) in *.
  destruct (in_seq 2 s) as (s1 & E1 & V1 & P1); [fold r; lia|]. fold r in E1, V1. rewrite E1.
  destruct (in_seq 4 s1) as (s2 & E2 & V2 & P2); [rewrite V1; fields; lia|]. rewrite E2. rewrite V1 in *. fields.
  set (s3 := outb VGA_SEQ_DATA _ s2). assert (V3 : view s3 = _) by apply out_seq_data. rewrite V2 in V3. fields.
  destruct (in_gc 4 s3) as (s4 & E4 & V4 & P4); [rewrite V3; fields; lia|]. rewrite E4. rewrite V3 in *. fields.
  destruct (in_gc 5 s4) as (s5 & E5 & V5 & P5); [rewrite V4; fields; lia|]. rewrite E5. rewrite V4 in *. fields.
  set (s6 := outb VGA_GC_DATA _ s5). assert (V6 : view s6 = _) by apply out_gc_data. rewrite V5 in V6. fields.
  destruct (in_gc 6 s6) as (s7 & E7 & V7 & P7); [rewrite V6; fields; rewrite length_set_reg; lia|]. rewrite E7. rewrite V6 in *. fields.
  rewrite (reg_set_ne (gc r) 5 6) by lia. set (s8 := outb VGA_GC_DATA _ s7). assert (V8 : view s8 = _) by apply out_gc_data. rewrite V7 in V8. fields.
  eexists. split; [reflexivity|]. split.
  - rewrite view_seq, view_gc, V8. unfold same_but. fields. do 5 (split; [reflexivity|]). reflexivity.
  - intros p o. rewrite !plane_out_reg. unfold s8. rewrite plane_outb, P7. unfold s6. rewrite plane_outb, P5, P4. unfold s3. now rewrite plane_outb, P2, P1.
Qed.
Lemma restore_registers_spec q2 q4 g4 g5 g6 s :
  same_but (set_reg (set_reg (seq (view s)) 2 q2) 4 q4) (set_reg (set_reg (set_reg (gc (view s)) 4 g4) 5 g5) 6 g6) (view s)
    (view (restore_registers q2 q4 g4 g5 g6 s)) /\ forall p o, plane p o (restore_registers q2 q4 g4 g5 g6 s) = plane p o s.
Proof.
  unfold restore_registers. split; [|intros p o; now rewrite !plane_out_reg]. rewrite !view_gc, !view_seq. unfold same_but. fields.
  do 5 (split; [reflexivity|]). reflexivity.
Qed.
Lemma vga_get_framebuffer_spec s : length (gc (view s)) = 9%nat ->
  exists s', vga_get_framebuffer s = (segment_of (reg (gc (view s)) 6), s') /\ same_but (seq (view s)) (gc (view s)) (view s) (view s') /\
    forall p o, plane p o s' = plane p o s.
Proof.
  intros L. unfold vga_get_framebuffer. destruct (in_gc 6 s) as (s' & E & V & Pl); [lia|]. rewrite E. exists s'. split; [reflexivity|]. split; [|exact Pl].
  rewrite V. unfold same_but. fields. do 5 (split; [reflexivity|]). reflexivity.
Qed.

Lemma write_font_spec buf h s : regs_ok (view s) -> font_ready (view s) -> 0 <= h <= 32 -> 256 * h <= Z.of_nat (length buf) ->
  exists s', write_font buf h s = Ok s' /\ same_but (seq (view s)) (gc (view s)) (view s) (view s') /\
    forall p o, 0 <= p < 4 -> plane p o s' = if p =? 2 then font_over 256 0 buf h (fun o => plane p o s) o else plane p o s.
Proof.
  intros [L1 L2 L3 L4] (F1 & F2 & F3 & F4 & F5) Hh Hb. unfold write_font.
  destruct (open_font_plane_spec s L1 L3) as (s1 & E1 & (A1 & A2 & A3 & A4 & A5 & A6) & P1). rewrite E1.
  destruct (vga_get_framebuffer_spec s1) as (s2 & E2 & (B1 & B2 & B3 & B4 & B5 & B6) & P2); [rewrite A4, !length_set_reg; exact L3|]. rewrite E2.
  assert (Hw : font_window (view s2)).
  { unfold font_window, flat. rewrite B2, B4, A2, A4.
    rewrite reg_set_eq by (rewrite length_set_reg; lia). rewrite !(reg_set_ne _ 2 4), !reg_set_eq by (rewrite ?length_set_reg; lia).
    rewrite !(reg_set_ne _ 4), !(reg_set_ne _ 6 1), !(reg_set_ne _ 6 3), !(reg_set_ne _ 6 8), !(reg_set_ne _ 6 5), !(reg_set_ne _ 5 1), !(reg_set_ne _ 5 3),
      !(reg_set_ne _ 5 8), !reg_set_eq by (rewrite ?length_set_reg; lia).
    split; [|reflexivity]. split; [apply land_lor_mask; [reflexivity|exact F1]|]. do 2 (split; [assumption|]).
    rewrite !land_sub_mask. split; [exact F4|]. split; [apply Z.land_0_r|exact F5]. }
  destruct (store_font_spec 256 0 buf h s2 Hw) as (s3 & E3 & V3 & P3); [lia..|]. rewrite <- B4, (bind_Ok_l _ _ _ E3). 
  eexists. split; [reflexivity|]. destruct (restore_registers_spec (reg (seq (view s)) 2) (reg (seq (view s)) 4) (reg (gc (view s)) 4) (reg (gc (view s)) 5) (reg (gc (view s)) 6) s3) as [(C1 & C2 & C3 & C4 & C5 & C6) P4].
  split.
  - unfold same_but. rewrite C1, C2, C3, C4, C5, C6, V3, B1, B2, B3, B4, B5, B6, A1, A2, A3, A4, A5, A6. do 1 (split; [reflexivity|]).
    split; [|split; [reflexivity|]; split; [|auto]].
    + destruct (seq (view s)) as [|q0 [|q1 [|q2 [|q3 [|q4 [|]]]]]]; try discriminate L1. reflexivity.
    + destruct (gc (view s)) as [|g0 [|g1 [|g2 [|g3 [|g4 [|g5 [|g6 [|g7 [|g8 [|]]]]]]]]]]; try discriminate L3. reflexivity.
  - intros p o Hp. rewrite P4, P3 by exact Hp. unfold font_over. rewrite P2, P1. reflexivity.
Qed.

(** ** The cursor *)
Lemma vga_cursor_roundtrip off s : length (crtc (view s)) = 25%nat ->
  (vga_get_cursor_offset_ (vga_set_cursor_offset_ off s)).1 = off mod 2 ^ 16 /\
  same_but (seq (view s)) (gc (view s)) (with_crtc 0 (crtc (view (vga_set_cursor_offset_ off s))) (view s)) (view (vga_set_cursor_offset_ off s)).
Proof.
  intros L. unfold vga_set_cursor_offset_. set (v1 := Z.land off 0xff). set (v2 := Z.land (Z.shiftr off 8) 0xff).
  assert (N : forall i l s, i = 0x0e \/ i = 0x0f -> crtc_protected (with_crtc i l (view s)) = false)
    by (intros i l s0 [-> | ->]; unfold crtc_protected; cbn [with_crtc crtc_index]; apply andb_false_r).
  assert (V1 : view (out_reg VGA_CRTC_INDEX 15 v1 s) = _) by (apply view_crtc, N; auto).
  assert (V2 : view (out_reg VGA_CRTC_INDEX 14 v2 (out_reg VGA_CRTC_INDEX 15 v1 s)) = _) by (apply view_crtc, N; auto).
  set (s2 := out_reg VGA_CRTC_INDEX 14 v2 _) in *. rewrite V1 in V2. unfold with_crtc in V2. fields.
  split; [|rewrite V2; unfold same_but, with_crtc; fields; do 5 (split; [reflexivity|]); reflexivity].
  unfold vga_get_cursor_offset_. destruct (in_crtc 15 s2) as (a & s3 & E3 & V3 & _ & R3). rewrite E3.
  destruct (in_crtc 14 s3) as (b & s4 & E4 & V4 & _ & R4). rewrite E4. cbn [fst].
  rewrite V3 in R4. unfold with_crtc in R4. fields. rewrite V2 in R3, R4. fields. rewrite !length_set_reg in R3, R4.
  rewrite R3, R4 by lia. rewrite reg_set_ne, !reg_set_eq by (rewrite ?length_set_reg; lia).
  unfold v1, v2. change 0xff with (2 ^ 8 - 1). rewrite !land_low_mask by lia. rewrite Z.shiftr_div_pow2, Z.shiftl_mul_pow2 by lia.
  unfold u16, wrap. change (2 ^ 16) with (256 * 256). change (2 ^ 8) with 256. Z.to_euclidean_division_equations; lia.
Qed.
End card.

(** ** The thirteen modes *)
(** What the registers say: columns of characters, lines in ten bits of three registers, and
    the lines of a row, each of which may be shown twice. *)
Definition columns (c : card_regs) : Z := reg (crtc c) 1 + 1.
Definition lines (c : card_regs) : Z :=
  reg (crtc c) 0x12 + 256 * Z.b2z (Z.testbit (reg (crtc c) 7) 1) + 512 * Z.b2z (Z.testbit (reg (crtc c) 7) 6) + 1.
Definition row_lines (c : card_regs) : Z := (Z.land (reg (crtc c) 9) 0x1f + 1) * (if has (reg (crtc c) 9) 0x80 then 2 else 1).
Definition pixels_per_column (c : card_regs) : Z := if has (reg (ac c) 0x10) 0x40 then 4 else 8.
(** The registers after a dump. *)
Definition dump_regs (r : list Z) : card_regs :=
  mk_regs (nth 0 r 0) 0 (take 5 (drop 1 r)) 0 (take 25 (drop 6 r)) 0 (take 9 (drop 31 r)) 0x20 false (take 21 (drop 40 r)).
(** The card does what the mode says: it counts as many columns and lines, its memory appears
    where it should, and the size of the buffer is that of its lines. *)
Definition agrees (h : Z) (mode : display_mode) (c : card_regs) : Prop :=
  (if has (dm_flags mode) DISPLAY_TEXT_MODE then
     columns c = dm_width mode /\ row_lines c = h /\ segment_of (reg (gc c) 6) = 0xB8000 /\ dm_pitch mode = 2 * dm_width mode
   else columns c * pixels_per_column c = dm_width mode /\ segment_of (reg (gc c) 6) = 0xA0000) /\
  lines c = dm_height mode * row_lines c /\ dm_buffer_size mode = dm_pitch mode * dm_height mode.
(** And a text mode can take a font. *)
Record mode_facts (m : vga_mode) (mode : display_mode) : Prop := {
  mf_length : length (regs m) = 61%nat;
  mf_agrees : agrees (char_height m) mode (dump_regs (regs m));
  mf_font : has (dm_flags mode) DISPLAY_TEXT_MODE = true -> (char_height m = 8 \/ char_height m = 16) /\ font_ready (dump_regs (regs m));
  mf_room : mode_ok 5400 mode }.
Lemma mode_facts_at i m mode : mode_data !! i = Some m -> vga_available_modes !! i = Some mode -> mode_facts m mode.
Proof.
  intros H1 H2. do 13 (destruct i as [|i]; [injection H1 as <-; injection H2 as <-; constructor; [reflexivity|vm_compute; auto|
    intros T; (discriminate T || (vm_compute; auto 10))|intros T; (discriminate T || (cbn; lia))]|]).
  discriminate H1.
Qed.

Section modes.
Context {S : Type} {P : ports S} {H : host_memory S} {C : vga_card S}.
Context (file : list Z -> option (list Z)) (fuel : nat).
#[local] Set Default Proof Using "C".

(** A font file: its characters are as high as the mode wants them, and it is complete. *)
Definition font_file_ok (name : list Z) (h : Z) : Prop := forall data, file name = Some data ->
  exists b0 b1 b2 rest, data = b0 :: b1 :: b2 :: h :: rest /\ 256 * h <= Z.of_nat (length rest).
Definition font_ok (f : option (list Z)) (h : Z) : Prop := forall l, f = Some l -> 256 * h <= Z.of_nat (length l).
Definition fonts_ok (v : vga S) : Prop := font_ok (font16 v) 16 /\ font_ok (font08 v) 8.
Definition card_good (v : vga S) : Prop := regs_ok (view (io v)) /\ fonts_ok v.
Context (H16 : font_file_ok font16_name 16) (H08 : font_file_ok font08_name 8).

Lemma loadpsf_spec name h : 0 <= h -> font_file_ok name h -> exists f, loadpsf file name = Ok f /\ font_ok f h.
Proof using Type.
  intros Hh Hf. unfold loadpsf. destruct (file name) as [data|] eqn:Ef; [|exists None; split; [reflexivity|discriminate]].
  destruct (Hf data Ef) as (b0 & b1 & b2 & rest & -> & Hr). change (fetch (b0 :: b1 :: b2 :: h :: rest) 0) with (Ok b0).
  change (fetch (b0 :: b1 :: b2 :: h :: rest) 1) with (Ok b1). change (fetch (b0 :: b1 :: b2 :: h :: rest) 3) with (Ok h). cbn [mbind outcome_bind].
  destruct (_ =? PSF_MAGIC); cbn [negb]; [|exists None; split; [reflexivity|discriminate]].
  eexists. split; [reflexivity|]. intros l E. injection E as <-. rewrite length_take, drop_0. apply Z.le_trans with (Z.of_nat (Z.to_nat (256 * h))); lia.
Qed.
Lemma load_font16_spec v : fonts_ok v -> exists f, load_font16 file v = Ok (mk_vga (io v) f (font08 v)) /\ font_ok f 16.
Proof using H16.
  intros [F _]. unfold load_font16. destruct v as [s [l|] f8]; cbn [font16 font08 io] in *.
  - exists (Some l). auto.
  - destruct (loadpsf_spec font16_name 16 ltac:(lia) H16) as (f & E & Hf). rewrite (bind_Ok_l _ _ _ E). exists f. auto.
Qed.
Lemma load_font08_spec v : fonts_ok v -> exists f, load_font08 file v = Ok (mk_vga (io v) (font16 v) f) /\ font_ok f 8.
Proof using H08.
  intros [_ F]. unfold load_font08. destruct v as [s f16 [l|]]; cbn [font16 font08 io] in *.
  - exists (Some l). auto.
  - destruct (loadpsf_spec font08_name 8 ltac:(lia) H08) as (f & E & Hf). rewrite (bind_Ok_l _ _ _ E). exists f. auto.
Qed.

Lemma shows_dump_regs_ok r c : length r = 61%nat -> shows_dump r c -> regs_ok c.
Proof using Type. intros L (_ & A & B & D & E & _). constructor; rewrite ?A, ?B, ?D, ?E, length_take, length_drop; lia. Qed.
Lemma reg_of_dump r n k i : (i < k)%nat -> reg (take k (drop n r)) (Z.of_nat i) = nth (n + i) r 0.
Proof using Type. intros Hi. unfold reg. rewrite Nat2Z.id, !nth_lookup, lookup_take_lt, lookup_drop by lia. reflexivity. Qed.
Lemma shows_dump_eq r c : shows_dump r c -> misc c = misc (dump_regs r) /\ seq c = seq (dump_regs r) /\ crtc c = crtc (dump_regs r) /\
  gc c = gc (dump_regs r) /\ ac c = ac (dump_regs r).
Proof using Type. intros (A & B & D & E & F & _). auto. Qed.

Lemma vga_set_mode_spec i m mode v : 0 <= i -> mode_data !! Z.to_nat i = Some m -> vga_available_modes !! Z.to_nat i = Some mode -> card_good v ->
  exists v', vga_set_mode file i v = Ok (true, v') /\ card_good v' /\ shows_dump (regs m) (view (io v')) /\
    forall p o, 0 <= p < 4 -> plane p o (io v') =
      match (if has (dm_flags mode) DISPLAY_TEXT_MODE then if char_height m =? 16 then font16 v' else font08 v' else None) with
      | Some f => if p =? 2 then font_over 256 0 f (char_height m) (fun o => plane p o (io v)) o else plane p o (io v)
      | None => plane p o (io v)
      end.
Proof using C H16 H08.
  intros Hi Em Ed [Hr Hf]. pose proof (mode_facts_at _ m mode Em Ed) as [L _ Fo _]. unfold vga_set_mode.
  rewrite (bind_Ok_l _ _ _ (fetch_Ok _ _ _ Hi Em)), (bind_Ok_l _ _ _ (fetch_Ok _ _ _ Hi Ed)).
  set (s1 := write_regs (regs m) (io v)). pose proof (write_regs_spec (regs m) (io v) L Hr) as D1. fold s1 in D1.
  pose proof (shows_dump_regs_ok _ _ L D1) as R1. assert (P1 : forall p o, plane p o s1 = plane p o (io v)) by (intros; apply plane_write_regs).
  destruct (has (dm_flags mode) DISPLAY_TEXT_MODE) eqn:T.
  2: { exists (put_io s1 v). split; [reflexivity|]. split; [split; assumption|]. split; [exact D1|]. intros p o _. apply P1. }
  destruct (Fo eq_refl) as [Hh Hready].
  assert (F : exists v2 f, (v ← (if char_height m =? 16 then load_font16 file (put_io s1 v) else Ok (put_io s1 v));
      if char_height m =? 8 then load_font08 file v else Ok v) = Ok v2 /\ io v2 = s1 /\ fonts_ok v2 /\
      (if char_height m =? 16 then font16 v2 else font08 v2) = f /\ font_ok f (char_height m)).
  { destruct Hh as [-> | ->]; cbn [Z.eqb Pos.eqb].
    - destruct (load_font08_spec (put_io s1 v) Hf) as (f & E & Hg). cbn [mbind outcome_bind]. rewrite E. eexists _, f.
      split; [reflexivity|]. split; [reflexivity|]. split; [split; [apply Hf|exact Hg]|]. auto.
    - destruct (load_font16_spec (put_io s1 v) Hf) as (f & E & Hg). rewrite (bind_Ok_l _ _ _ E). eexists _, f.
      split; [reflexivity|]. split; [reflexivity|]. split; [split; [exact Hg|apply Hf]|]. auto. }
  destruct F as (v2 & f & E & Ei & F2 & Ef & Hg).
  destruct (if char_height m =? 16 then load_font16 file (put_io s1 v) else Ok (put_io s1 v)) as [v1|]; [|discriminate E].
  cbn [mbind outcome_bind] in *. rewrite E. cbn [mbind outcome_bind]. rewrite Ef. destruct f as [l|].
  - destruct (write_font_spec l (char_height m) (io v2)) as (s3 & E3 & (B1 & B2 & B3 & B4 & B5 & B6) & P3).
    { rewrite Ei. exact R1. }
    { rewrite Ei. destruct (shows_dump_eq _ _ D1) as (_ & Q2 & _ & Q4 & _). unfold font_ready in *. rewrite Q2, Q4. exact Hready. }
    { lia. }
    { exact (Hg l eq_refl). }
    rewrite (bind_Ok_l _ _ _ E3). exists (put_io s3 v2). split; [reflexivity|]. rewrite Ei in *.
    assert (D3 : shows_dump (regs m) (view (io (put_io s3 v2)))).
    { unfold shows_dump in *. cbn [put_io io]. rewrite B1, B2, B3, B4, B5, B6. exact D1. }
    split; [split; [exact (shows_dump_regs_ok _ _ L D3)|exact F2]|]. split; [exact D3|]. intros p o Hp.
    change (font16 (put_io s3 v2)) with (font16 v2). change (font08 (put_io s3 v2)) with (font08 v2). rewrite Ef. cbn [put_io io].
    rewrite P3 by exact Hp. unfold font_over. now rewrite P1.
  - exists v2. split; [reflexivity|]. rewrite Ei. split; [split; [rewrite Ei; exact R1|exact F2]|]. split; [exact D1|]. intros p o _.
    rewrite Ef. apply P1.
Qed.

(** C37: setting a mode works whatever the card held before, its locked and protected
    registers included: afterwards the card counts as many columns and lines as the mode
    has and shows its memory at the right address, every register is that of the dump; the
    font of a text mode is in the plane of fonts, each character at its place, and nothing
    else of the memory is changed. *)
Theorem vga_set_mode_correct i m mode v : 0 <= i -> mode_data !! Z.to_nat i = Some m -> vga_available_modes !! Z.to_nat i = Some mode -> card_good v ->
  exists v', vga_set_mode file i v = Ok (true, v') /\ card_good v' /\ shows_dump (regs m) (view (io v')) /\
    agrees (char_height m) mode (view (io v')) /\
    forall p o, 0 <= p < 4 -> plane p o (io v') =
      match (if has (dm_flags mode) DISPLAY_TEXT_MODE then if char_height m =? 16 then font16 v' else font08 v' else None) with
      | Some f => if p =? 2 then font_over 256 0 f (char_height m) (fun o => plane p o (io v)) o else plane p o (io v)
      | None => plane p o (io v)
      end.
Proof using C H16 H08.
  intros Hi Em Ed Hg. destruct (vga_set_mode_spec i m mode v Hi Em Ed Hg) as (v' & E & G & D & Pl). exists v'.
  do 3 (split; [assumption|]). split; [|exact Pl]. destruct (shows_dump_eq _ _ D) as (_ & _ & Q3 & Q4 & Q5).
  pose proof (mf_agrees _ _ (mode_facts_at _ m mode Em Ed)) as A. unfold agrees, columns, lines, row_lines, pixels_per_column in *.
  rewrite Q3, Q4, Q5. exact A.
Qed.
End modes.

(** ** The driver in the display *)
(** The display sees the machine behind the driver. *)
#[export] Instance vga_machine {S} {M : display_machine S} : display_machine (vga S) := {
  text_cells a v := text_cells a (io v);
  set_text_cells a l v := put_io (set_text_cells a l (io v)) v;
  get_physical a v := get_physical a (io v);
  map_to_new_pages a n f v := let '(p, s) := map_to_new_pages a n f (io v) in (p, put_io s v) }.

(** Programming the card takes no memory away, and moving the cursor changes none; writing
    text does not change registers; there are text windows at the addresses of the card;
    and the retrace begins and ends. *)
Class card_memory (S : Type) {P : ports S} {H : host_memory S} {C : vga_card S} {M : display_machine S} {L : display_laws S} (fuel : nat) := {
  cm_outb : forall a port v s, length (text_cells a (outb port v s)) = length (text_cells a s);
  cm_outw : forall a port v s, length (text_cells a (outw port v s)) = length (text_cells a s);
  cm_inb : forall a port s, length (text_cells a (inb port s).2) = length (text_cells a s);
  cm_store : forall a b v s, length (text_cells a (store_byte b v s)) = length (text_cells a s);
  cm_crtc : forall a port v s, port = VGA_CRTC_INDEX \/ port = VGA_CRTC_DATA -> text_cells a (outb port v s) = text_cells a s;
  cm_text : forall a l s, view (set_text_cells a l s) = view s;
  cm_map : forall a n f s, view (map_to_new_pages a n f s).2 = view s;
  cm_window : forall a s, get_physical a s = a -> a = 0xA0000 \/ a = 0xB0000 \/ a = 0xB8000 -> 5400 <= Z.of_nat (length (text_cells a s));
  cm_retrace : forall s, exists s1 s2, wait_set fuel INPUT_STATUS_1 VRETRACE s = Ok s1 /\ wait_clear fuel INPUT_STATUS_1 VRETRACE s1 = Ok s2 }.

Section driver.
Context {S : Type} {P : ports S} {H : host_memory S} {C : vga_card S} {M : display_machine S} {L : display_laws S} (fuel : nat)
  {K : card_memory S fuel} (file : list Z -> option (list Z)).
#[local] Set Default Proof Using "K".
Context (H16 : font_file_ok file font16_name 16) (H08 : font_file_ok file font08_name 8).

#[local] Program Instance vga_laws : display_laws (vga S) := {| good := card_good |}.
Next Obligation. intros a l m Hl. exact (dl_set a l (io m) Hl). Qed.
Next Obligation.
  intros a l m Hl. split; [|exact (proj2 (dl_set_grows a l (io m) Hl))]. intros [R F]. split; [|exact F].
  cbn [set_text_cells vga_machine put_io io]. rewrite cm_text. exact R.
Qed.
Next Obligation.
  intros phys n fl m v m' E. cbn [map_to_new_pages vga_machine] in E. destruct (map_to_new_pages phys n fl (io m)) as [p s] eqn:Em.
  injection E as <- <-. destruct (dl_map _ _ _ _ _ _ Em) as [G Hn]. cbn [text_cells vga_machine put_io io]. split; [|exact Hn]. split; [|exact (proj2 G)].
  intros [R F]. split; [|exact F]. pose proof (cm_map phys n fl (io m)) as V. rewrite Em in V. cbn [snd put_io io] in *. rewrite V. exact R.
Qed.

(** How many registers there are: no access changes it. *)
Definition lens (r : card_regs) : nat * nat * nat * nat := (length (seq r), length (crtc r), length (gc r), length (ac r)).
Lemma lens_ok r r' : lens r' = lens r -> regs_ok r -> regs_ok r'.
Proof using Type. unfold lens. intros [= A B D E] [Q1 Q2 Q3 Q4]. constructor; congruence. Qed.
Lemma lens_out port v r : lens (card_out port v r) = lens r.
Proof using Type.
  destruct r as [m si s ci c gi g ai w a]. unfold card_out.
  repeat match goal with |- context [if port =? ?n then _ else _] => destruct (port =? n); [unfold lens; cbn [seq crtc gc ac]; rewrite ?length_set_reg; try reflexivity|] end.
  - destruct (crtc_protected _); [unfold set_crtc_protected; cbn [crtc_index crtc]; destruct (_ =? _)|]; rewrite ?length_set_reg; reflexivity.
  - destruct w; cbn [seq crtc gc ac]; [reflexivity|]. destruct (ac_locked _); rewrite ?length_set_reg; reflexivity.
  - reflexivity.
Qed.
Lemma lens_outb port v s : lens (view (outb port v s)) = lens (view s).
Proof. rewrite view_outb. apply lens_out. Qed.
Lemma lens_inb port s : lens (view (inb port s).2) = lens (view s).
Proof. rewrite view_inb. unfold card_in. now destruct (_ =? _). Qed.
Lemma lens_outw port v s : lens (view (outw port v s)) = lens (view s).
Proof. rewrite view_outw, !lens_out. reflexivity. Qed.

(** A driver's operation that leaves the fonts alone. *)
Lemma grows_of (s' : S) v : lens (view s') = lens (view (io v)) -> (forall a, length (text_cells a s') = length (text_cells a (io v))) -> grows v (put_io s' v).
Proof.
  intros El Ec. split.
  - intros [R F]. split; [exact (lens_ok _ _ El R)|exact F].
  - intros a. cbn [text_cells vga_machine put_io io]. rewrite Ec. lia.
Qed.
Lemma keep_wait_set {T} (f : S -> T) (f_in : forall port s, f (inb port s).2 = f s) port mask n : forall s s', wait_set n port mask s = Ok s' -> f s' = f s.
Proof.
  induction n as [|n IH]; intros s s' E; cbn [wait_set] in E; [discriminate|]. pose proof (f_in port s) as K0. destruct (inb port s) as [v s1]. cbn [snd] in K0.
  destruct (has v mask); [injection E as <-; exact K0|]. rewrite (IH _ _ E). exact K0.
Qed.
Lemma keep_wait_clear {T} (f : S -> T) (f_in : forall port s, f (inb port s).2 = f s) port mask n : forall s s', wait_clear n port mask s = Ok s' -> f s' = f s.
Proof.
  induction n as [|n IH]; intros s s' E; cbn [wait_clear] in E; [discriminate|]. pose proof (f_in port s) as K0. destruct (inb port s) as [v s1]. cbn [snd] in K0.
  destruct (has v mask); [|injection E as <-; exact K0]. rewrite (IH _ _ E). exact K0.
Qed.
Lemma segment_cases v : segment_of v = 0xA0000 \/ segment_of v = 0xB0000 \/ segment_of v = 0xB8000.
Proof using Type. unfold segment_of. cbv zeta. destruct (_ =? 2); [auto|]. destruct (_ =? 3); auto. Qed.

Theorem vga_driver_ok : driver_ok 5400 (vga_driver file fuel).
Proof using K H16 H08.
  assert (Fo : forall (a port v : Z) s, length (text_cells a (outb port v s)) = length (text_cells a s)) by (intros; apply cm_outb).
  assert (Fi : forall (a port : Z) s, length (text_cells a (inb port s).2) = length (text_cells a s)) by (intros; apply cm_inb).
  assert (Lo : forall port v s, lens (view (outb port v s)) = lens (view s)) by (intros; apply lens_outb).
  assert (Li : forall port s, lens (view (inb port s).2) = lens (view s)) by (intros; apply lens_inb).
  constructor; cbn [set_mode get_framebuffer drv_set_display_offset get_cursor_offset drv_set_cursor_offset available_modes vga_driver].
  - intros i v Hg Hi. destruct (lookup_lt_is_Some_2 mode_data (Z.to_nat i)) as [m Em]; [cbn in *; lia|].
    destruct (lookup_lt_is_Some_2 vga_available_modes (Z.to_nat i)) as [mode Ed]; [cbn in *; lia|].
    destruct (vga_set_mode_spec file H16 H08 i m mode v ltac:(lia) Em Ed Hg) as (v' & E & G & _). exists true, v'. split; [exact E|]. split; [intros _; exact G|].
    intros a. cbn [text_cells vga_machine]. rewrite (keep_set_mode (fun s => length (text_cells a s)) (Fo a) (Fi a) (fun b x s => cm_store a b x s) _ _ _ _ _ E). lia.
  - intros v. pose proof (fun a => keep_get_framebuffer (fun s => length (text_cells a s)) (Fo a) (Fi a) (io v)) as Kc.
    pose proof (keep_get_framebuffer (fun s => lens (view s)) Lo Li (io v)) as Kl.
    assert (Hs : exists x, (vga_get_framebuffer (io v)).1 = segment_of x).
    { unfold vga_get_framebuffer. destruct (in_reg _ _ _) as [x s]. exists x. reflexivity. }
    destruct (vga_get_framebuffer (io v)) as [fb s]. cbn [fst snd] in *. split; [apply (grows_of s v Kl Kc)|]. cbn [get_physical text_cells vga_machine put_io io].
    intros Hp. destruct Hs as [x ->]. apply cm_window; [exact Hp|apply segment_cases].
  - intros off r v _. unfold vga_set_display_offset_.
    assert (W : exists s1, (if r then s ← wait_set fuel INPUT_STATUS_1 VRETRACE (io v); wait_clear fuel INPUT_STATUS_1 VRETRACE s else Ok (io v)) = Ok s1 /\
      lens (view s1) = lens (view (io v)) /\ forall a, length (text_cells a s1) = length (text_cells a (io v))).
    { destruct r; [|exists (io v); auto]. destruct (cm_retrace (io v)) as (s1 & s2 & E1 & E2). exists s2. rewrite (bind_Ok_l _ _ _ E1). split; [exact E2|]. split.
      - rewrite (keep_wait_clear (fun s => lens (view s)) Li _ _ _ _ _ E2). exact (keep_wait_set (fun s => lens (view s)) Li _ _ _ _ _ E1).
      - intros a. rewrite (keep_wait_clear (fun s => length (text_cells a s)) (Fi a) _ _ _ _ _ E2). exact (keep_wait_set (fun s => length (text_cells a s)) (Fi a) _ _ _ _ _ E1). }
    destruct W as (s1 & E & El & Ec). rewrite (bind_Ok_l _ _ _ E). eexists. split; [reflexivity|]. apply grows_of.
    + rewrite !lens_outw. exact El.
    + intros a. rewrite !cm_outw. apply Ec.
  - intros v. pose proof (fun a => keep_get_cursor (fun s => length (text_cells a s)) (Fo a) (Fi a) (io v)) as Kc.
    pose proof (keep_get_cursor (fun s => lens (view s)) Lo Li (io v)) as Kl. destruct (vga_get_cursor_offset_ (io v)) as [c s]. exact (grows_of s v Kl Kc).
  - intros off v. split.
    + apply grows_of; unfold vga_set_cursor_offset_, out_reg; [now rewrite !lens_outb|intros a; now rewrite !cm_outb].
    + intros a. cbn [text_cells vga_machine put_io io]. unfold vga_set_cursor_offset_, out_reg. rewrite !cm_crtc by auto. reflexivity.
  - apply Forall_lookup. intros i mode Ed. destruct (lookup_lt_is_Some_2 mode_data i) as [m Em]; [apply lookup_lt_Some in Ed; exact Ed|].
    exact (mf_room _ _ (mode_facts_at _ m mode Em Ed)).
Qed.

(** The display with this driver faults only where its frame buffer cannot be mapped. *)
Theorem vga_display_runs active calls v : card_good v ->
  let drivers := fun d => if d =? 1 then Some (vga_driver file fuel) else None in
  Forall (call_ok drivers) calls ->
  runs_or_fails drivers 5400 (AddDriver active 1 true :: calls) (no_display v).
Proof using K H16 H08.
  intros Hg drivers Hc. assert (Hd : forall d drv, drivers d = Some drv -> driver_ok 5400 drv).
  { intros d drv. unfold drivers. destruct (d =? 1); [intros [= <-]; exact vga_driver_ok|discriminate]. }
  destruct (add_default_spec drivers 5400 Hd ltac:(lia) active 1 (no_display v)) as [Hf|(s & E & A)]; [eexists; reflexivity|discriminate|exact I|exact Hg| |].
  - right. exists [], (AddDriver active 1 true), calls, (no_display v). auto.
  - exact (runs_or_fails_cons drivers 5400 (AddDriver active 1 true) calls (no_display v) s E (display_run_ok drivers 5400 Hd ltac:(lia) calls s Hc A)).
Qed.
End driver.

(** Hiding the cursor does not: the value goes to the index port, and no register changes. *)
Theorem cursor_visibility_is_lost {S} {P : ports S} {H : host_memory S} {C : vga_card S} on s :
  crtc (view (vga_set_cursor_visibility_ on s)) = crtc (view s).
Proof.
  unfold vga_set_cursor_visibility_. destruct (in_crtc 0x0a s) as (v & s1 & E & V & _). rewrite E, view_outb, V.
  destruct (view s). reflexivity.
Qed.
(** The mode of four colours has two bits for a pixel, two to four in a byte of a plane; its
    entry says four bits. *)
Example four_colours : exists m mode, mode_data !! 7%nat = Some m /\ vga_available_modes !! 7%nat = Some mode /\
  Z.land (reg (gc (dump_regs (regs m))) 5) 0x60 = 0x20 /\ dm_bpp mode = 4 /\ dm_width mode * 2 = dm_pitch mode * 8.
Proof. do 2 eexists. repeat (split; [reflexivity|]). reflexivity. Qed.

(** ** A card *)
Record pc := mk_pc { pc_regs : card_regs; pc_planes : Z -> Z -> Z }.
Definition pc_out (port v : Z) (s : pc) : pc := mk_pc (card_out port v (pc_regs s)) (pc_planes s).
#[export] Instance pc_ports : ports pc := {
  inb port s := (default 0 (card_value port (pc_regs s)), mk_pc (card_in port (pc_regs s)) (pc_planes s));
  outb := pc_out;
  inw _ s := (0, s);
  outw port v s := pc_out (port + 1) (Z.shiftr v 8) (pc_out port (Z.land v 0xff) s);
  ind _ s := (0, s); outd _ _ s := s; insw _ _ s := ([], s); outsw _ _ s := s }.
#[export] Instance pc_memory : host_memory pc := fun a v s =>
  mk_pc (pc_regs s) (fun p o => if Z.testbit (reg (seq (pc_regs s)) 2) p && (o =? a - segment_of (reg (gc (pc_regs s)) 6)) then v else pc_planes s p o).
#[export] Program Instance pc_card : vga_card pc := {| view := pc_regs; plane p o s := pc_planes s p o |}.
Next Obligation. reflexivity. Qed.
Next Obligation. reflexivity. Qed.
Next Obligation. intros port s v E. cbn. now rewrite E. Qed.
Next Obligation. reflexivity. Qed.
Next Obligation. reflexivity. Qed.
Next Obligation. reflexivity. Qed.
Next Obligation. reflexivity. Qed.
Next Obligation. reflexivity. Qed.

(** Everything is protected, and the attribute controller waits for a value. *)
Definition locked_up : vga pc := mk_vga
  (mk_pc (mk_regs 0xff 7 (repeat 0xff 5) 0 (repeat 0xff 25) 3 (repeat 0xff 9) 0x3f false (repeat 0xff 21)) (fun _ _ => 0)) None None.
Definition glyphs : list Z := map (fun k => Z.of_nat k mod 251) (List.seq 0 4096).
Definition pc_file (name : list Z) : option (list Z) :=
  if bool_decide (name = font16_name) then Some (0x36 :: 4 :: 0 :: 16 :: glyphs) else None.

Lemma vga_set_mode_correct_witness : exists v', vga_set_mode pc_file 2 locked_up = Ok (true, v') /\
  columns (view (io v')) = 80 /\ lines (view (io v')) = 400.
Proof.
  destruct (vga_set_mode_correct pc_file) with (i := 2) (m := mk_vmode 16 g_80x25_text) (mode := mk_mode 80 25 160 70 16 FORMAT_TEXT_W_ATTRIBUTE DISPLAY_TEXT_MODE (25 * 160)) (v := locked_up)
    as (v' & E & _ & _ & (A1 & A2 & _) & _).
  - intros data E. unfold pc_file in E. destruct (bool_decide_reflect (font16_name = font16_name)) as [_|N]; [|destruct N; reflexivity].
    injection E as <-. exists 0x36, 4, 0, glyphs. split; [reflexivity|]. vm_compute. discriminate.
  - intros data E. discriminate E.
  - discriminate.
  - reflexivity.
  - reflexivity.
  - split; [constructor; reflexivity|]. split; intros l E; discriminate E.
  - exists v'. split; [exact E|]. destruct A1 as (A1 & A3 & _). rewrite A2, A3. split; [exact A1|reflexivity].
Defined.

(** A font file of eight lines for a mode of sixteen is read past its end. *)
Definition low_file (name : list Z) : option (list Z) := Some (0x36 :: 4 :: 0 :: 8 :: take 2048 glyphs).
Example low_font_faults : vga_set_mode low_file 2 locked_up = Fault OutOfBounds.
Proof. vm_compute. reflexivity. Qed.
