(* ===== verification/IsaDma.v ===== *)
(** * The ISA DMA controller and its buffers (drivers/isa_dma.cpp)

    Buffers are parts of runs of pages below 16 MB that do not cross 64 KB; the pages come
    from the two memory managers, of which [S] is the state.  A transfer is programmed
    through the ports. *)
From S2P Require Import Prelude Paging Ports.

Definition mask_register : list Z := [0x0A; 0x0A; 0x0A; 0x0A; 0xD4; 0xD4; 0xD4; 0xD4].
Definition mode_register : list Z := [0x0B; 0x0B; 0x0B; 0x0B; 0xD6; 0xD6; 0xD6; 0xD6].
Definition clear_register : list Z := [0x0C; 0x0C; 0x0C; 0x0C; 0xD8; 0xD8; 0xD8; 0xD8].
Definition page_port : list Z := [0x87; 0x83; 0x81; 0x82; 0x8F; 0x8B; 0x89; 0x8A].
Definition adress_port : list Z := [0x00; 0x02; 0x04; 0x06; 0xC0; 0xC4; 0xC8; 0xCC].
Definition count_port : list Z := [0x01; 0x03; 0x05; 0x07; 0xC2; 0xC6; 0xCA; 0xCE].
Definition ISA_DMA_READ : Z := 0x44.
Definition ISA_DMA_WRITE : Z := 0x48.

(** ** Buffers *)
Record block := mk_block { b_offset : Z; b_size : Z }.
#[export] Instance block_eq_dec : EqDecision block.
Proof. solve_decision. Defined.
Record dma_buffer := mk_buffer { free_blocks : list block; used_blocks : list block; buffer : Z }.
#[export] Instance dma_buffer_eq_dec : EqDecision dma_buffer.
Proof. solve_decision. Defined.

Definition new_dma_buffer (buf size used : Z) : dma_buffer := mk_buffer [mk_block used (sub32 size used)] [mk_block 0 used] buf.

(** The pointer is null where no block is large enough: the first one is taken from. *)
Definition allocate (size : Z) (b : dma_buffer) : Z * dma_buffer :=
  match list_find (fun other => size <= b_size other) (free_blocks b) with
  | None => (0, b)
  | Some (i, it) =>
    let free := if b_size it =? size then delete i (free_blocks b)
                else <[i := mk_block (add32 (b_offset it) size) (sub32 (b_size it) size)]> (free_blocks b) in
    (add32 (buffer b) (b_offset it), mk_buffer free (used_blocks b ++ [mk_block (b_offset it) size]) (buffer b))
  end.

(** The loop begins where it ends: [blk_it] is compared with the beginning. *)
Fixpoint merge_loop (fuel : nat) (blk_it : nat) (it : block) (free : list block) : outcome (option (list block)) :=
  match fuel with
  | O => Fault OutOfFuel
  | S fuel =>
    if (blk_it =? 0)%nat then Ok None else
    blk ← fetch free (Z.of_nat blk_it);
    if add32 (b_offset blk) (b_size blk) <? b_offset it then merge_loop fuel (S blk_it) it free
    else if b_offset blk =? add32 (b_offset it) (b_size it) then
      Ok (Some (<[blk_it := mk_block (sub32 (b_offset blk) (b_size it)) (add32 (b_size blk) (b_size it))]> free))
    else if add32 (b_offset blk) (b_size blk) =? b_offset it then
      Ok (Some (<[blk_it := mk_block (b_offset blk) (add32 (b_size blk) (b_size it))]> free))
    else if b_offset it <? add32 (b_offset blk) (b_size blk) then Ok (Some (take blk_it free ++ it :: drop blk_it free))
    else merge_loop fuel (S blk_it) it free
  end.
Definition deallocate (ptr : Z) (b : dma_buffer) : outcome (Z * dma_buffer) :=
  let offset := sub32 ptr (buffer b) in
  match list_find (fun other => b_offset other = offset) (used_blocks b) with
  | None => Ok (-1, b)
  | Some (_, it) =>
    if (length (used_blocks b) =? 1)%nat then Ok (0, b) else
    merged ← merge_loop (S (length (free_blocks b))) 0 it (free_blocks b);
    match merged with
    | Some free => Ok (1, mk_buffer free (used_blocks b) (buffer b))
    | None => Ok (1, mk_buffer (free_blocks b ++ [it]) (used_blocks b) (buffer b))
    end
  end.

(** What is used of the memory managers. *)
Class page_source (S : Type) := {
  allocate_in_range : Z -> Z -> Z -> Z -> S -> Z * S;
  map_pages : Z -> Z -> Z -> S -> Z * S;
  free_mapped : Z -> Z -> S -> Z * S }.

Section buffers.
Context {S : Type} {G : page_source S}.

Fixpoint allocate_from (size : Z) (bs : list dma_buffer) : Z * list dma_buffer :=
  match bs with
  | [] => (0, [])
  | b :: bs =>
    let '(ptr, b') := allocate size b in
    if negb (ptr =? 0) then (ptr, b' :: bs) else let '(ptr, bs) := allocate_from size bs in (ptr, b :: bs)
  end.
Definition pages_of (size : Z) : Z := add32 size (PAGE_SIZE - 1) / PAGE_SIZE.
(** [for(address = 0; address < 0xFFFFFF; address += 0x10000)] *)
Fixpoint find_range (n : nat) (address buffer_size : Z) (s : S) : Z * S :=
  match n with
  | O => (0, s)
  | Datatypes.S n =>
    let '(physical, s) := allocate_in_range address (address + 0x10000) buffer_size PAGE_SIZE s in
    if negb (physical =? 0) then (physical, s) else find_range n (address + 0x10000) buffer_size s
  end.
Definition isa_dma_allocate_buffer (size : Z) (buffers : option (list dma_buffer)) (s : S) : Z * option (list dma_buffer) * S :=
  let bs := default [] buffers in
  let '(ptr, bs) := allocate_from size bs in
  if negb (ptr =? 0) then (ptr, Some bs, s) else
  let buffer_size := mul32 (pages_of size) PAGE_SIZE in
  let '(physical, s) := find_range 256 0 buffer_size s in
  if negb (physical =? 0) then
    let '(virt, s) := map_pages physical (pages_of size) (Z.lor PAGE_PRESENT PAGE_RW) s in
    (virt, Some (bs ++ [new_dma_buffer virt buffer_size size]), s)
  else (0, Some bs, s).

Fixpoint free_in (buf size : Z) (bs : list dma_buffer) (s : S) : outcome (Z * list dma_buffer * S) :=
  match bs with
  | [] => Ok (-1, [], s)
  | b :: bs =>
    '(r, b') ← deallocate buf b;
    if negb (r =? -1) then
      if r =? 0 then let '(e, s) := free_mapped (buffer b) (pages_of size) s in Ok (e, b' :: bs, s) else Ok (0, b' :: bs, s)
    else '(r, bs, s) ← free_in buf size bs s; Ok (r, b :: bs, s)
  end.
Definition isa_dma_free_buffer (buf size : Z) (buffers : option (list dma_buffer)) (s : S) : outcome (Z * option (list dma_buffer) * S) :=
  match buffers with
  | None => Fault PageFault
  | Some bs => '(r, bs, s) ← free_in buf size bs s; Ok (r, Some bs, s)
  end.
End buffers.

(** ** Transfers: [phys] is [memmanager_get_physical] *)
Section transfer.
Context {S : Type} {P : ports S} (phys : Z -> Z).

(** The checks only print; the loop is over the pages up to the last but one. *)
Fixpoint continuous (n : nat) (i last_address : Z) : bool :=
  match n with
  | O => true
  | Datatypes.S n => let physical := phys i in if PAGE_SIZE <? sub32 physical last_address then false else continuous n (add32 i PAGE_SIZE) physical
  end.
Definition check_continuity (v size : Z) : bool :=
  let start := Z.land v PAGE_ADDRESS_MASK in
  let end_ := Z.land (add32 v size) PAGE_ADDRESS_MASK in
  continuous (Z.to_nat ((end_ - start) / PAGE_SIZE - 1)) (add32 start PAGE_SIZE) (phys start).

(** The cast binds stronger than the shift. *)
Definition isa_dma_begin_transfer (channel mode buf size : Z) (s : S) : outcome S :=
  let physbuf := phys buf in
  let offset := Z.land physbuf 0xFFFF in
  let size := sub32 size 1 in
  mask ← fetch mask_register channel; clear ← fetch clear_register channel; mode_ ← fetch mode_register channel;
  address ← fetch adress_port channel; page ← fetch page_port channel; count ← fetch count_port channel;
  let s := outb mask (Z.lor 0x04 channel) s in
  let s := outb clear 0x00 s in
  let s := outb mode_ (u8 (mode + channel)) s in
  let s := outb address (Z.land offset 0x00FF) s in
  let s := outb address (Z.shiftr (u8 (Z.land offset 0xFF00)) 8) s in
  let s := outb page (u8 (Z.shiftr physbuf 16)) s in
  let s := outb count (Z.land size 0x00FF) s in
  let s := outb count (Z.shiftr (Z.land size 0xFF00) 8) s in
  Ok (outb mask channel s).
End transfer.
