(* ===== verification/IsaDmaProofs.v ===== *)
(** * DMA buffers and transfers

    Buffers that are only allocated never overlap; buffers that are given back do.  The
    controller is programmed with everything but the second byte of the address. *)
From S2P Require Import Prelude Paging Ports IsaDma.

(** ** Blocks of a run of pages *)
Definition apart (a b : block) : Prop := b_offset a + b_size a <= b_offset b \/ b_offset b + b_size b <= b_offset a.
Definition within (size : Z) (b : block) : Prop := 0 <= b_offset b /\ 0 <= b_size b /\ b_offset b + b_size b <= size.
Fixpoint all_apart (l : list block) : Prop := match l with [] => True | b :: l => Forall (apart b) l /\ all_apart l end.
#[export] Instance apart_sym : Symmetric apart.
Proof. intros a b [H|H]; [right|left]; exact H. Qed.

#[export] Instance all_apart_perm : Proper ((≡ₚ) ==> iff) all_apart.
Proof.
  intros l1 l2 H. induction H as [|x l1 l2 H IH|x y l|l1 l2 l3 _ IH1 _ IH2]; cbn [all_apart].
  - reflexivity.
  - now rewrite IH, H.
  - rewrite !Forall_cons. pose proof (apart_sym x y). pose proof (apart_sym y x). tauto.
  - now rewrite IH1.
Qed.

(** All blocks, free or used, lie in the run and do not meet; the used ones are the live ones
    as long as none was given back. *)
Record buffer_ok (size : Z) (b : dma_buffer) : Prop := {
  bo_within : Forall (within size) (free_blocks b ++ used_blocks b);
  bo_apart : all_apart (free_blocks b ++ used_blocks b) }.

Lemma new_dma_buffer_ok buf size used : 0 <= used <= size -> size < 2 ^ 32 -> buffer_ok size (new_dma_buffer buf size used).
Proof.
  intros H1 H2. unfold new_dma_buffer. rewrite sub32_small by lia. constructor; cbn.
  - repeat constructor; cbn; lia.
  - split; [|split; [constructor|exact I]]. apply Forall_singleton. unfold apart. cbn. lia.
Qed.

Lemma allocate_blocks size want b : buffer_ok size b -> 0 < want -> size < 2 ^ 32 ->
  match allocate want b with (ptr, b') =>
    (ptr = 0 /\ b' = b /\ Forall (fun x => b_size x < want) (free_blocks b)) \/
    exists off, ptr = add32 (buffer b) off /\ buffer b' = buffer b /\ used_blocks b' = used_blocks b ++ [mk_block off want] /\ buffer_ok size b'
  end.
Proof.
  intros [Hw Ha] Hwant Hs. unfold allocate. destruct (list_find _ (free_blocks b)) as [[i it]|] eqn:Ef.
  2: { left. do 2 (split; [reflexivity|]). apply list_find_None in Ef. eapply Forall_impl; [exact Ef|]. cbn. intros x Hx. lia. }
  right. apply list_find_Some in Ef as (Hi & Hsz & _). exists (b_offset it). cbn [buffer used_blocks]. do 3 (split; [reflexivity|]).
  pose proof (take_drop_middle _ _ _ Hi) as Et. set (f1 := take i (free_blocks b)) in *. set (f2 := drop (Datatypes.S i) (free_blocks b)) in *.
  rewrite <- Et in Hw, Ha.
  assert (P1 : (f1 ++ it :: f2) ++ used_blocks b ≡ₚ it :: (f1 ++ f2 ++ used_blocks b)) by (rewrite <- Permutation_middle; cbn; now rewrite <- app_assoc).
  rewrite P1 in Hw, Ha. apply Forall_cons in Hw as [Hit Hw]. destruct Ha as [Hap Ha]. destruct Hit as (W1 & W2 & W3).
  destruct (Z.eqb_spec (b_size it) want) as [He|He].
  - assert (P2 : delete i (free_blocks b) ++ used_blocks b ++ [mk_block (b_offset it) want] ≡ₚ it :: (f1 ++ f2 ++ used_blocks b)).
    { rewrite delete_take_drop. fold f1 f2. rewrite <- !app_assoc, <- He. replace (mk_block (b_offset it) (b_size it)) with it by now destruct it.
      rewrite !app_assoc. rewrite <- Permutation_cons_append. now rewrite <- !app_assoc. }
    constructor; cbn [free_blocks used_blocks]; rewrite P2; [constructor; [repeat split; assumption|exact Hw]|split; assumption].
  - rewrite add32_small, sub32_small by lia. set (rest := mk_block (b_offset it + want) (b_size it - want)).
    assert (P2 : <[i := rest]> (free_blocks b) ++ used_blocks b ++ [mk_block (b_offset it) want] ≡ₚ rest :: mk_block (b_offset it) want :: (f1 ++ f2 ++ used_blocks b)).
    { rewrite insert_take_drop by (apply lookup_lt_Some in Hi; exact Hi). fold f1 f2. rewrite <- app_assoc. cbn [app]. rewrite <- Permutation_middle.
      apply perm_skip. rewrite !app_assoc. rewrite <- Permutation_cons_append. now rewrite <- !app_assoc. }
    assert (Hap2 : Forall (apart rest) (f1 ++ f2 ++ used_blocks b) /\ Forall (apart (mk_block (b_offset it) want)) (f1 ++ f2 ++ used_blocks b)).
    { split; (eapply Forall_impl; [exact Hap|]); unfold apart; cbn; intros x; lia. }
    constructor; cbn [free_blocks used_blocks]; rewrite P2.
    + repeat (constructor; [unfold within; cbn; lia|]). exact Hw.
    + split; [constructor; [unfold apart; cbn; lia|apply Hap2]|]. split; [apply Hap2|exact Ha].
Qed.

(** A run of allocations from one buffer. *)
Fixpoint allocate_all (wants : list Z) (b : dma_buffer) : list Z * dma_buffer :=
  match wants with
  | [] => ([], b)
  | w :: wants => let '(p, b) := allocate w b in let '(ps, b) := allocate_all wants b in (p :: ps, b)
  end.
(** What the callers hold: pointers and sizes, null pointers left out. *)
Definition held (buf : Z) (ps wants : list Z) : list block :=
  map (fun x => mk_block (x.1 - buf) x.2) (List.filter (fun x => negb (x.1 =? 0)) (zip ps wants)).
Theorem allocations_apart wants : forall b size, buffer_ok size b -> Forall (Z.lt 0) wants -> 0 < buffer b -> buffer b + size < 2 ^ 32 -> 0 <= size ->
  let '(ps, b') := allocate_all wants b in
  buffer_ok size b' /\ used_blocks b' = used_blocks b ++ held (buffer b) ps wants /\ all_apart (used_blocks b ++ held (buffer b) ps wants).
Proof.
  induction wants as [|w wants IH]; intros b size Hb Hw Hpos Hsz H0; cbn [allocate_all].
  - split; [exact Hb|]. cbn [held zip zip_with]. unfold held. cbn. rewrite app_nil_r. split; [reflexivity|].
    pose proof (bo_apart _ _ Hb) as A. revert A. generalize (free_blocks b). intros f A. induction f as [|x f IH]; [exact A|apply IH, A].
  - apply Forall_cons in Hw as [Hw Hws]. pose proof (allocate_blocks size w b Hb Hw ltac:(lia)) as A. destruct (allocate w b) as [p b1] eqn:Ea.
    destruct A as [(-> & -> & _)|(off & -> & Bf & U & Hb1)].
    + specialize (IH b size Hb Hws Hpos Hsz H0). destruct (allocate_all wants b) as [ps b2]. exact IH.
    + specialize (IH b1 size Hb1 Hws). rewrite Bf in IH. specialize (IH Hpos Hsz H0). destruct (allocate_all wants b1) as [ps b2]. destruct IH as (I1 & I2 & I3).
      assert (Hoff : 0 <= off /\ off + w <= size).
      { pose proof (bo_within _ _ Hb1) as F. rewrite U, !Forall_app, Forall_singleton in F. unfold within in F. cbn in F. lia. }
      assert (Eh : held (buffer b) (add32 (buffer b) off :: ps) (w :: wants) = mk_block off w :: held (buffer b) ps wants).
      { unfold held. cbn [zip zip_with List.filter fst]. rewrite add32_small by lia. rewrite (proj2 (Z.eqb_neq _ _)) by lia. cbn [negb map fst snd]. do 2 f_equal. lia. }
      rewrite Eh. rewrite U, <- app_assoc in I2, I3. cbn [app] in I2, I3. split; [exact I1|]. split; assumption.
Qed.

(** A buffer that is given back keeps its place among the used ones, so that a later one at
    this place is given back with the size of the first: two live buffers overlap. *)
Definition page0 : dma_buffer := new_dma_buffer 0x1000 4096 16.
Example given_back_overlap : exists b1 b2 b3 b4 b5 b6,
  allocate 4080 page0 = (0x1010, b1) /\ deallocate 0x1010 b1 = Ok (1, b2) /\ allocate 16 b2 = (0x1010, b3) /\ deallocate 0x1010 b3 = Ok (1, b4) /\
  allocate 4064 b4 = (0x1020, b5) /\ allocate 4080 b5 = (0x1010, b6).
Proof. do 6 eexists. repeat (split; [vm_compute; reflexivity|]). vm_compute. reflexivity. Qed.
(** The last buffer's pages are freed, and the rest of them is handed out again. *)
Example freed_pages_are_used : exists b1, deallocate 0x1000 page0 = Ok (0, page0) /\ allocate 16 page0 = (0x1010, b1).
Proof. eexists. split; vm_compute; reflexivity. Qed.
(** No neighbours are ever joined. *)
Theorem deallocate_never_merges it free n : merge_loop (Datatypes.S n) 0 it free = Ok None.
Proof. reflexivity. Qed.

(** ** The controller of channels 0 to 3 *)
(** Addresses and counts are written in halves, the low one first; which half is next is a
    flip-flop of the controller. *)
Record dma_regs := mk_dma { d_high : bool; d_addr : list Z; d_count : list Z; d_page : list Z; d_mode : list Z; d_masked : list bool }.
Definition half (high : bool) (old v : Z) : Z := if high then Z.land old 0xff + 256 * v else Z.land old 0xff00 + v.
Definition set_half (high : bool) (l : list Z) (c : nat) (v : Z) : list Z := <[c := half high (nth c l 0) v]> l.
Definition page_channel (port : Z) : option nat :=
  if port =? 0x87 then Some 0%nat else if port =? 0x83 then Some 1%nat else if port =? 0x81 then Some 2%nat else if port =? 0x82 then Some 3%nat else None.
Definition dma_out (port v : Z) (r : dma_regs) : dma_regs :=
  let '(mk_dma h a c p m k) := r in
  if (0 <=? port) && (port <? 8) then
    let ch := Z.to_nat (port / 2) in
    if port mod 2 =? 0 then mk_dma (negb h) (set_half h a ch v) c p m k else mk_dma (negb h) a (set_half h c ch v) p m k
  else if port =? 0x0A then mk_dma h a c p m (<[Z.to_nat (Z.land v 3) := Z.testbit v 2]> k)
  else if port =? 0x0B then mk_dma h a c p (<[Z.to_nat (Z.land v 3) := v]> m) k
  else if port =? 0x0C then mk_dma false a c p m k
  else match page_channel port with Some ch => mk_dma h a c (<[ch := v]> p) m k | None => r end.
Class dma_card (S : Type) {P : ports S} := {
  dma : S -> dma_regs;
  dma_outb : forall port v s, dma (outb port v s) = dma_out port v (dma s) }.

Definition dma_address (ch : nat) (r : dma_regs) : Z := nth ch (d_page r) 0 * 65536 + nth ch (d_addr r) 0.
Record dma_ok (r : dma_regs) : Prop := {
  mo_addr : length (d_addr r) = 4%nat; mo_count : length (d_count r) = 4%nat; mo_page : length (d_page r) = 4%nat;
  mo_mode : length (d_mode r) = 4%nat; mo_masked : length (d_masked r) = 4%nat }.

(** What a transfer of a channel sets, and that it sets no other. *)
Definition programmed (ch : nat) (addr count page mode : Z) (r r' : dma_regs) : Prop :=
  d_addr r' = <[ch := addr]> (d_addr r) /\ d_count r' = <[ch := count]> (d_count r) /\ d_page r' = <[ch := page]> (d_page r) /\
  d_mode r' = <[ch := mode]> (d_mode r) /\ d_masked r' = <[ch := false]> (d_masked r).

Lemma halves n : Z.land n 0xff + 256 * Z.shiftr (Z.land n 0xff00) 8 = Z.land n 0xffff.
Proof.
  assert (E : Z.shiftr (Z.land n 0xff00) 8 = Z.land (Z.shiftr n 8) 0xff) by (rewrite Z.shiftr_land; reflexivity). rewrite E.
  change 0xffff with (2 ^ 16 - 1). change 0xff with (2 ^ 8 - 1). rewrite !land_low_mask, Z.shiftr_div_pow2 by lia.
  change (2 ^ 16) with (256 * 256). change (2 ^ 8) with 256. Z.to_euclidean_division_equations; lia.
Qed.
(** The second byte of the address is lost to the cast. *)
Lemma cast_first n : Z.shiftr (u8 (Z.land n 0xff00)) 8 = 0.
Proof.
  unfold u8, wrap. rewrite <- land_low_mask, <- Z.land_assoc by lia. change (Z.land 0xff00 (2 ^ 8 - 1)) with 0. now rewrite Z.land_0_r.
Qed.
Lemma half_twice old v w : half true (half false old v) w = Z.land (Z.land old 0xff00 + v) 0xff + 256 * w.
Proof. reflexivity. Qed.
Lemma low_of old v : 0 <= v < 256 -> Z.land (Z.land old 0xff00 + v) 0xff = v.
Proof.
  intros Hv. assert (E : Z.land old 0xff00 = 256 * Z.land (Z.shiftr old 8) 0xff).
  { apply Z.bits_inj'. intros n Hn. rewrite Z.land_spec. change 256 with (2 ^ 8). rewrite (Z.mul_comm (2 ^ 8)).
    destruct (Z.ltb_spec n 8).
    - rewrite Z.mul_pow2_bits_low by lia. assert (n = 0 \/ n = 1 \/ n = 2 \/ n = 3 \/ n = 4 \/ n = 5 \/ n = 6 \/ n = 7) as Hc by lia.
      repeat (destruct Hc as [->|Hc]; [apply andb_false_r|]). rewrite Hc. apply andb_false_r.
    - rewrite Z.mul_pow2_bits by lia. rewrite Z.land_spec, Z.shiftr_spec by lia. replace (n - 8 + 8) with n by lia. f_equal.
      change 0xff00 with (Z.shiftl 0xff 8). now rewrite Z.shiftl_spec by lia. }
  rewrite E. change 0xff with (2 ^ 8 - 1) at 2. rewrite land_low_mask by lia. change (2 ^ 8) with 256.
  rewrite Z.add_comm, Z.mul_comm, Z_mod_plus_full. apply Z.mod_small. lia.
Qed.

Section transfer.
Context {S : Type} {P : ports S} {C : dma_card S} (phys : Z -> Z).
#[local] Set Default Proof Using "C".

Ltac fields := cbn [d_high d_addr d_count d_page d_mode d_masked negb].
(** The accesses of one channel. *)
Lemma out_addr ch v r : (ch < 4)%nat -> dma_out (Z.of_nat (2 * ch)) v r =
  mk_dma (negb (d_high r)) (set_half (d_high r) (d_addr r) ch v) (d_count r) (d_page r) (d_mode r) (d_masked r).
Proof using Type. intros H. destruct r. do 4 (destruct ch as [|ch]; [reflexivity|]). lia. Qed.
Lemma out_count ch v r : (ch < 4)%nat -> dma_out (Z.of_nat (2 * ch + 1)) v r =
  mk_dma (negb (d_high r)) (d_addr r) (set_half (d_high r) (d_count r) ch v) (d_page r) (d_mode r) (d_masked r).
Proof using Type. intros H. destruct r. do 4 (destruct ch as [|ch]; [reflexivity|]). lia. Qed.
Definition page_of (ch : nat) : Z := nth ch page_port 0.
Lemma out_page ch v r : (ch < 4)%nat -> dma_out (page_of ch) v r =
  mk_dma (d_high r) (d_addr r) (d_count r) (<[ch := v]> (d_page r)) (d_mode r) (d_masked r).
Proof using Type. intros H. destruct r. do 4 (destruct ch as [|ch]; [reflexivity|]). lia. Qed.
Lemma out_mask ch r : (ch < 4)%nat -> dma_out 0x0A (Z.lor 0x04 (Z.of_nat ch)) r =
  mk_dma (d_high r) (d_addr r) (d_count r) (d_page r) (d_mode r) (<[ch := true]> (d_masked r)).
Proof using Type. intros H. destruct r. do 4 (destruct ch as [|ch]; [reflexivity|]). lia. Qed.
Lemma out_unmask ch r : (ch < 4)%nat -> dma_out 0x0A (Z.of_nat ch) r =
  mk_dma (d_high r) (d_addr r) (d_count r) (d_page r) (d_mode r) (<[ch := false]> (d_masked r)).
Proof using Type. intros H. destruct r. do 4 (destruct ch as [|ch]; [reflexivity|]). lia. Qed.
Lemma out_mode mode ch r : (ch < 4)%nat -> mode = ISA_DMA_READ \/ mode = ISA_DMA_WRITE -> dma_out 0x0B (u8 (mode + Z.of_nat ch)) r =
  mk_dma (d_high r) (d_addr r) (d_count r) (d_page r) (<[ch := u8 (mode + Z.of_nat ch)]> (d_mode r)) (d_masked r).
Proof using Type. intros H [-> | ->]; destruct r; do 4 (destruct ch as [|ch]; [reflexivity|]); lia. Qed.
Lemma out_clear v r : dma_out 0x0C v r = mk_dma false (d_addr r) (d_count r) (d_page r) (d_mode r) (d_masked r).
Proof using Type. destruct r. reflexivity. Qed.
Lemma registers_of ch : (ch < 4)%nat -> fetch mask_register (Z.of_nat ch) = Ok 0x0A /\ fetch clear_register (Z.of_nat ch) = Ok 0x0C /\
  fetch mode_register (Z.of_nat ch) = Ok 0x0B /\ fetch adress_port (Z.of_nat ch) = Ok (Z.of_nat (2 * ch)) /\
  fetch page_port (Z.of_nat ch) = Ok (page_of ch) /\ fetch count_port (Z.of_nat ch) = Ok (Z.of_nat (2 * ch + 1)).
Proof using Type. intros H. do 4 (destruct ch as [|ch]; [repeat split|]). lia. Qed.
Lemma set_half_twice l c v w : (c < length l)%nat -> 0 <= v < 256 -> set_half true (set_half false l c v) c w = <[c := v + 256 * w]> l.
Proof using Type.
  intros Hc Hv. unfold set_half. rewrite nth_lookup, list_lookup_insert_eq by exact Hc. rewrite list_insert_insert_eq. f_equal.
  change (half true (half false (nth c l 0) v) w = v + 256 * w). unfold half. now rewrite low_of.
Qed.

(** Every channel of the first controller is programmed with the page and the count of the
    buffer, and with the lowest byte only of its place in the page. *)
Theorem isa_dma_begin_transfer_programs ch mode buf size s : (ch < 4)%nat -> mode = ISA_DMA_READ \/ mode = ISA_DMA_WRITE -> dma_ok (dma s) ->
  exists s', isa_dma_begin_transfer phys (Z.of_nat ch) mode buf size s = Ok s' /\
    programmed ch (Z.land (phys buf) 0xff) (Z.land (sub32 size 1) 0xffff) (u8 (Z.shiftr (phys buf) 16)) (u8 (mode + Z.of_nat ch)) (dma s) (dma s').
Proof.
  intros Hc Hm [L1 L2 L3 L4 L5]. destruct (registers_of ch Hc) as (R1 & R2 & R3 & R4 & R5 & R6).
  unfold isa_dma_begin_transfer. rewrite R1, R2, R3, R4, R5, R6. cbn [mbind outcome_bind]. rewrite cast_first, <- Z.land_assoc. change (Z.land 0xffff 0x00ff) with 0xff.
  assert (Hb : forall n, 0 <= Z.land n 0xff < 256) by (intros n; change 0xff with (2 ^ 8 - 1); rewrite land_low_mask by lia; apply Z.mod_pos_bound; lia).
  eexists. split; [reflexivity|]. rewrite !dma_outb, (out_mask ch _ Hc), out_clear. fields.
  rewrite (out_mode mode ch _ Hc Hm). fields. rewrite (out_addr ch _ _ Hc). fields. rewrite (out_addr ch _ _ Hc). fields.
  rewrite (out_page ch _ _ Hc). fields. rewrite (out_count ch _ _ Hc). fields. rewrite (out_count ch _ _ Hc). fields. rewrite (out_unmask ch _ Hc).
  unfold programmed. fields. rewrite !set_half_twice by (apply Hb || lia). rewrite halves, Z.mul_0_r, Z.add_0_r.
  do 4 (split; [reflexivity|]). apply list_insert_insert_eq.
Qed.
End transfer.

(** So the controller moves the bytes at the right place only where the second byte of the
    address is zero. *)
Lemma programmed_address ch addr count page mode r r' : (ch < 4)%nat -> dma_ok r -> programmed ch addr count page mode r r' ->
  dma_ok r' /\ dma_address ch r' = page * 65536 + addr /\ nth ch (d_count r') 0 = count /\ nth ch (d_masked r') true = false.
Proof.
  intros Hc [L1 L2 L3 L4 L5] (A & B & D & E & F). split; [constructor; rewrite ?A, ?B, ?D, ?E, ?F, length_insert; assumption|].
  unfold dma_address. rewrite A, B, D, F, !nth_lookup, !list_lookup_insert_eq by lia. auto.
Qed.
Lemma address_lost a : 0 <= a < 2 ^ 24 -> u8 (Z.shiftr a 16) * 65536 + Z.land a 0xff = a - 256 * (a / 256 mod 256).
Proof.
  intros Ha. change 0xff with (2 ^ 8 - 1). rewrite land_low_mask, Z.shiftr_div_pow2 by lia. unfold u8, wrap. change (2 ^ 16) with 65536. change (2 ^ 8) with 256.
  change (2 ^ 24) with 16777216 in Ha. Z.to_euclidean_division_equations; lia.
Qed.
