(* ===== verification/Floppy.v ===== *)
(** * Floppy disks (drivers/floppy.cpp)

    The controller takes commands byte by byte and moves the sectors through channel 2 of
    the DMA controller.  [S] is everything behind the ports; waiting for interrupt 6 is an
    operation of it.  Delays by the clock and messages are left out. *)
From S2P Require Import Prelude Ports IsaDma.

Record floppy_disk_info := mk_info { i_sectors_per_track : Z; i_heads_per_cylinder : Z; i_num_tracks : Z; i_gap_len : Z }.
Definition floppy_types : list floppy_disk_info :=
  [mk_info 9 2 40 0x2A; mk_info 15 2 80 0x1B; mk_info 9 2 80 0x2A; mk_info 18 2 80 0x1B; mk_info 36 2 80 0x1B].
Definition FLOPPY_BYTES_PER_SECTOR : Z := 512.
Definition DIGITAL_OUTPUT_REGISTER : Z := 0x3F2.
Definition MAIN_STATUS_REGISTER : Z := 0x3F4.
Definition DATA_FIFO : Z := 0x3F5.
Definition CONFIGURATION_CONTROL_REGISTER : Z := 0x3F7.
Definition SPECIFY : Z := 3.
Definition WRITE_DATA : Z := 5.
Definition READ_DATA : Z := 6.
Definition RECALIBRATE : Z := 7.
Definition SENSE_INTERRUPT : Z := 8.
Definition SEEK : Z := 15.
Definition CONFIGURE : Z := 19.
Definition MFM_BIT : Z := 0x40.
Definition MT_BIT : Z := 0x80.

Record floppy_drive := mk_fdrive {
  num_sectors : Z; type : Z; sectors_per_track : Z; heads_per_cylinder : Z; num_tracks : Z; gap_len : Z; drive_index : Z }.
Definition no_floppy : floppy_drive := mk_fdrive 0 0 0 0 0 0 0.
Record chs_location := mk_chs { cylinder : Z; head : Z; sector : Z }.

(** [irq6_condition.wait]: the state in which the interrupt has come. *)
Class irq6 (S : Type) := wait_irq6 : S -> outcome S.

Record floppy (S : Type) := mk_floppy {
  fio : S; motor_is_ready : list bool; floppy_drives : list floppy_drive; num_floppy_drives : Z; added_drives : list (Z * Z) }.
Arguments mk_floppy {S}. Arguments fio {S}. Arguments motor_is_ready {S}. Arguments floppy_drives {S}. Arguments num_floppy_drives {S}. Arguments added_drives {S}.

Section floppy_driver.
Context {S : Type} {P : ports S} {I : irq6 S} (phys : Z -> Z).

Definition put_fio (s : S) (f : floppy S) : floppy S := mk_floppy s (motor_is_ready f) (floppy_drives f) (num_floppy_drives f) (added_drives f).
Definition set_motor (d : Z) (b : bool) (f : floppy S) : floppy S :=
  mk_floppy (fio f) (<[Z.to_nat d := b]> (motor_is_ready f)) (floppy_drives f) (num_floppy_drives f) (added_drives f).
Definition set_fdrive (i : nat) (d : floppy_drive) (f : floppy S) : floppy S :=
  mk_floppy (fio f) (motor_is_ready f) (<[i := d]> (floppy_drives f)) (num_floppy_drives f) (added_drives f).

(** ** The controller.  A byte that is not taken within 128 polls is dropped, one that does
    not come is 0xFF. *)
Fixpoint send_loop (n : nat) (byte : Z) (s : S) : S :=
  match n with
  | O => s
  | Datatypes.S n =>
    let '(v, s) := inb MAIN_STATUS_REGISTER s in
    if Z.land v 0xc0 =? 0x80 then outb DATA_FIFO byte s else send_loop n byte (inb 0x80 s).2
  end.
Definition floppy_sendbyte (byte : Z) (s : S) : S := send_loop 128 byte s.
Fixpoint get_loop (n : nat) (s : S) : Z * S :=
  match n with
  | O => (0xFF, s)
  | Datatypes.S n =>
    let '(v, s) := inb MAIN_STATUS_REGISTER s in
    if Z.land v 0xd0 =? 0xd0 then inb DATA_FIFO s else get_loop n (inb 0x80 s).2
  end.
Definition floppy_getbyte (s : S) : Z * S := get_loop 128 s.
Fixpoint send_bytes (l : list Z) (s : S) : S := match l with [] => s | b :: l => send_bytes l (floppy_sendbyte b s) end.
Fixpoint skip_bytes (n : nat) (s : S) : S := match n with O => s | Datatypes.S n => skip_bytes n (floppy_getbyte s).2 end.

Definition floppy_configure (s : S) : S := send_bytes [CONFIGURE; 0; 0x57; 8] s.

Definition floppy_motor_on (d : Z) (f : floppy S) : outcome (floppy S) :=
  ready ← fetch (motor_is_ready f) d;
  if ready : bool then Ok f
  else Ok (set_motor d true (put_fio (outb DIGITAL_OUTPUT_REGISTER (Z.lor (Z.lor (u8 (Z.shiftl 0x10 d)) 0x0c) (Z.land d 0x03)) (fio f)) f)).
Definition floppy_motor_off (d : Z) (f : floppy S) : outcome (floppy S) :=
  ready ← fetch (motor_is_ready f) d;
  if ready : bool then Ok (set_motor d false (put_fio (outb DIGITAL_OUTPUT_REGISTER (Z.lor 0x0c (Z.land d 0x03)) (fio f)) f))
  else Ok f.

Fixpoint calibrate_loop (n : nat) (d : Z) (f : floppy S) : outcome (Z * floppy S) :=
  match n with
  | O => f ← floppy_motor_off d f; Ok (-1, f)
  | Datatypes.S n =>
    s ← wait_irq6 (send_bytes [RECALIBRATE; d] (fio f));
    let '(st0, s) := floppy_getbyte (floppy_sendbyte SENSE_INTERRUPT s) in
    let '(cyl, s) := floppy_getbyte s in
    if negb (has st0 0xC0) && (cyl =? 0) then f ← floppy_motor_off d (put_fio s f); Ok (0, f)
    else calibrate_loop n d (put_fio s f)
  end.
Definition floppy_calibrate (d : Z) (f : floppy S) : outcome (Z * floppy S) :=
  f ← floppy_motor_on d f; calibrate_loop 10 d f.

Definition floppy_reset (d : Z) (f : floppy S) : outcome (floppy S) :=
  s ← wait_irq6 (outb DIGITAL_OUTPUT_REGISTER 0x0C (outb DIGITAL_OUTPUT_REGISTER 0x00 (fio f)));
  let s := skip_bytes 2 (floppy_sendbyte SENSE_INTERRUPT s) in
  let s := outb CONFIGURATION_CONTROL_REGISTER 0x00 s in
  let s := send_bytes [SPECIFY; 0x8F; 0x0A] s in
  '(_, f) ← floppy_calibrate d (put_fio (floppy_configure s) f);
  Ok f.

Fixpoint seek_loop (n : nat) (d cyl hd : Z) (f : floppy S) : outcome (bool * floppy S) :=
  match n with
  | O => Ok (false, f)
  | Datatypes.S n =>
    f ← floppy_motor_on d f;
    s ← wait_irq6 (send_bytes [SEEK; Z.lor (u8 (Z.shiftl hd 2)) d; cyl] (fio f));
    let '(st0, s) := floppy_getbyte (floppy_sendbyte SENSE_INTERRUPT s) in
    let '(fdc_cylinder, s) := floppy_getbyte s in
    if has st0 0xC0 then seek_loop n d cyl hd (put_fio s f)
    else if fdc_cylinder =? cyl then Ok (true, put_fio s f) else seek_loop n d cyl hd (put_fio s f)
  end.
Definition floppy_seek (d cyl hd : Z) (f : floppy S) : outcome (bool * floppy S) := seek_loop 3 d cyl hd f.

(** ** Blocks *)
Definition lba_to_chs (d : floppy_drive) (lba : Z) : outcome chs_location :=
  if (sectors_per_track d =? 0) || (heads_per_cylinder d =? 0) then Fault AssertFailed else
  let track := lba / sectors_per_track d in
  Ok (mk_chs (u8 (track / heads_per_cylinder d)) (u8 (track mod heads_per_cylinder d)) (u8 (lba mod sectors_per_track d + 1))).

Definition floppy_do_rw (d : floppy_drive) (cmd : Z) (loc : chs_location) (f : floppy S) : outcome (bool * floppy S) :=
  _ ← k_assert (cylinder loc <? num_tracks d); _ ← k_assert (head loc <? heads_per_cylinder d);
  _ ← k_assert (sector loc <=? sectors_per_track d); _ ← k_assert (0 <? sector loc);
  s ← wait_irq6 (send_bytes [Z.lor (Z.lor MFM_BIT MT_BIT) cmd; Z.lor (u8 (Z.shiftl (head loc) 2)) (drive_index d); cylinder loc; head loc; sector loc;
    2; sectors_per_track d; gap_len d; 0xff] (fio f));
  let '(st0, s) := floppy_getbyte s in
  let s := skip_bytes 6 s in
  let s := skip_bytes 2 (floppy_sendbyte SENSE_INTERRUPT s) in
  if Z.land st0 0xc0 =? 0 then Ok (true, put_fio s f)
  else f ← floppy_reset (drive_index d) (put_fio s f); Ok (false, f).

Fixpoint rw_loop (n : nat) (d : floppy_drive) (cmd mode : Z) (loc : chs_location) (buf num : Z) (f : floppy S) : outcome (floppy S) :=
  match n with
  | O => Ok f
  | Datatypes.S n =>
    '(found, f) ← floppy_seek (drive_index d) (cylinder loc) (head loc) f;
    if negb found then rw_loop n d cmd mode loc buf num f else
    s ← isa_dma_begin_transfer phys 0x02 mode buf (mul32 FLOPPY_BYTES_PER_SECTOR num) (fio f);
    '(done, f) ← floppy_do_rw d cmd loc (put_fio s f);
    if done : bool then Ok f else rw_loop n d cmd mode loc buf num f
  end.
(** Behind the end of the disk the driver stops for ever. *)
Definition floppy_read_blocks (d : floppy_drive) (lba buf num : Z) (f : floppy S) : outcome (floppy S) :=
  if num_sectors d <? lba then Fault Deadlock else
  loc ← lba_to_chs d lba;
  rw_loop 5 d READ_DATA ISA_DMA_READ loc buf num f.
Definition floppy_write_blocks (d : floppy_drive) (lba buf num : Z) (f : floppy S) : outcome (floppy S) :=
  if num_sectors d <? add32 lba num then Fault Deadlock else
  loc ← lba_to_chs d lba;
  rw_loop 5 d WRITE_DATA ISA_DMA_WRITE loc buf num f.

(** ** Detection: [cmos_10] is the register of the clock chip that tells the types. *)
Definition floppy_set_drive_params (ty : Z) (i : nat) (f : floppy S) : floppy S :=
  let d := nth i (floppy_drives f) no_floppy in
  let d := mk_fdrive (num_sectors d) ty (sectors_per_track d) (heads_per_cylinder d) (num_tracks d) (gap_len d) (drive_index d) in
  if (1 <? ty) && (ty <=? 5) then
    let t := nth (Z.to_nat (ty - 1)) floppy_types (mk_info 0 0 0 0) in
    let f := set_fdrive i (mk_fdrive (i_num_tracks t * i_sectors_per_track t * i_heads_per_cylinder t) ty (i_sectors_per_track t)
      (i_heads_per_cylinder t) (i_num_tracks t) (i_gap_len t) (drive_index d)) f in
    mk_floppy (fio f) (motor_is_ready f) (floppy_drives f) (num_floppy_drives f + 1) (added_drives f)
  else set_fdrive i d f.
Fixpoint add_floppies (n : nat) (i : nat) (f : floppy S) : outcome (floppy S) :=
  match n with
  | O => Ok f
  | Datatypes.S n =>
    f ← floppy_reset (Z.of_nat i) f;
    d ← fetch (floppy_drives f) (Z.of_nat i);
    let d := mk_fdrive (num_sectors d) (type d) (sectors_per_track d) (heads_per_cylinder d) (num_tracks d) (gap_len d) (Z.of_nat i) in
    let f := set_fdrive i d f in
    add_floppies n (Datatypes.S i)
      (mk_floppy (fio f) (motor_is_ready f) (floppy_drives f) (num_floppy_drives f) (added_drives f ++ [(Z.of_nat i, num_sectors d)]))
  end.
Definition floppy_init (cmos_10 : Z) (f : floppy S) : outcome (floppy S) :=
  let f := floppy_set_drive_params (Z.land cmos_10 0x0f) 1 f in
  let f := floppy_set_drive_params (Z.shiftr cmos_10 4) 0 f in
  if num_floppy_drives f =? 0 then Ok f else
  let s := floppy_configure (outb DIGITAL_OUTPUT_REGISTER 0x0C (fio f)) in
  add_floppies (Z.to_nat (num_floppy_drives f)) 0 (put_fio s f).
End floppy_driver.
