(* ===== verification/FloppyProofs.v ===== *)
(** * Reading and writing a floppy disk

    The controller and its drives are a machine that commands drive; the DMA controller and
    the memory are part of it.  A request that stays in a cylinder moves exactly its
    sectors, to or from the place that the DMA controller was told. *)
From S2P Require Import Prelude Ports IsaDma IsaDmaProofs Floppy.

(** Command bytes so far, result bytes to be read, the interrupt, its status, the cylinder
    of each drive, and the register that selects a drive and runs the motors. *)
Record fdc := mk_fdc { f_cmd : list Z; f_result : list Z; f_irq : bool; f_st0 : Z; f_pcn : list Z; f_reset : bool; f_dor : Z }.
Record floppy_pc := mk_fpc { fd : fdc; disks : Z -> Z -> Z; ram : Z -> Z; dmac : dma_regs }.
Definition set_fd (f : fdc) (p : floppy_pc) : floppy_pc := mk_fpc f (disks p) (ram p) (dmac p).

Section device.
(** Sectors of a track, heads and tracks of each drive. *)
Context (geometry : Z -> Z * Z * Z).

Definition command_length (c : Z) : nat :=
  let op := Z.land c 0x1f in
  if (op =? READ_DATA) || (op =? WRITE_DATA) then 9 else if op =? CONFIGURE then 4 else if (op =? SPECIFY) || (op =? SEEK) then 3
  else if op =? RECALIBRATE then 2 else 1.
Definition status (f : fdc) : Z := match f_result f, f_cmd f with _ :: _, _ => 0xd0 | [], _ :: _ => 0x90 | [], [] => 0x80 end.

(** The bytes of channel 2 of the DMA controller: its address wraps inside the page. *)
Definition dma_offset (r : dma_regs) (a : Z) : option Z :=
  let base := nth 2 (d_page r) 0 * 65536 in
  let k := (a - base - nth 2 (d_addr r) 0) mod 65536 in
  if (base <=? a) && (a <? base + 65536) && (k <=? nth 2 (d_count r) 0) then Some k else None.

(** The motor of the drive runs, and the drive is selected. *)
Definition spins (d : Z) (f : fdc) : bool := Z.testbit (f_dor f) (4 + d) && (Z.land (f_dor f) 3 =? d).
(** A transfer: the drive must spin -- if not, the command does not end --, and the sectors of the count from a place on, over
    both heads, must be there. *)
Definition transfer_ok (c h r eot d mode : Z) (p : floppy_pc) : bool :=
  let '(spt, heads, tracks) := geometry d in
  let total := nth 2 (d_count (dmac p)) 0 + 1 in
  spins d (fd p) && (nth (Z.to_nat d) (f_pcn (fd p)) (-1) =? c) && (c <? tracks) && (h <? heads) && (1 <=? r) && (r <=? spt) && (eot =? spt) &&
  (total mod 512 =? 0) && (h * spt + (r - 1) + total / 512 <=? heads * spt) && negb (nth 2 (d_masked (dmac p)) true) && (nth 2 (d_mode (dmac p)) 0 =? mode).
Definition transfer_start (c h r d : Z) : Z := let '(spt, heads, _) := geometry d in ((c * heads + h) * spt + (r - 1)) * 512.
Definition ended (st0 : Z) (f : fdc) : fdc := mk_fdc [] (st0 :: repeat 0 6) true st0 (f_pcn f) (f_reset f) (f_dor f).

Definition execute (cmd : list Z) (p : floppy_pc) : floppy_pc :=
  let f := fd p in
  let at_ := fun k => nth k cmd 0 in
  let op := Z.land (at_ 0%nat) 0x1f in
  let d := Z.land (at_ 1%nat) 3 in
  let st := Z.land (at_ 1%nat) 7 in
  let waiting := set_fd (mk_fdc [] [] false (f_st0 f) (f_pcn f) (f_reset f) (f_dor f)) p in
  if op =? SENSE_INTERRUPT then set_fd (mk_fdc [] [f_st0 f; nth (Z.to_nat (Z.land (f_st0 f) 3)) (f_pcn f) 0] (f_irq f) (f_st0 f) (f_pcn f) (f_reset f) (f_dor f)) p
  else if op =? RECALIBRATE then set_fd (mk_fdc [] [] true (Z.lor 0x20 d) (<[Z.to_nat d := 0]> (f_pcn f)) (f_reset f) (f_dor f)) p
  else if op =? SEEK then set_fd (mk_fdc [] [] true (Z.lor 0x20 st) (<[Z.to_nat d := at_ 2%nat]> (f_pcn f)) (f_reset f) (f_dor f)) p
  else if op =? READ_DATA then
    if transfer_ok (at_ 2%nat) (at_ 3%nat) (at_ 4%nat) (at_ 6%nat) d 0x46 p then
      mk_fpc (ended st f) (disks p)
        (fun a => match dma_offset (dmac p) a with Some k => disks p d (transfer_start (at_ 2%nat) (at_ 3%nat) (at_ 4%nat) d + k) | None => ram p a end) (dmac p)
    else if spins d f then set_fd (ended (Z.lor 0x40 st) f) p else waiting
  else if op =? WRITE_DATA then
    if transfer_ok (at_ 2%nat) (at_ 3%nat) (at_ 4%nat) (at_ 6%nat) d 0x4a p then
      let start := transfer_start (at_ 2%nat) (at_ 3%nat) (at_ 4%nat) d in
      let base := nth 2 (d_page (dmac p)) 0 * 65536 in
      mk_fpc (ended st f)
        (fun d' o => if (d' =? d) && (start <=? o) && (o <=? start + nth 2 (d_count (dmac p)) 0)
                     then ram p (base + (nth 2 (d_addr (dmac p)) 0 + (o - start)) mod 65536) else disks p d' o) (ram p) (dmac p)
    else if spins d f then set_fd (ended (Z.lor 0x40 st) f) p else waiting
  else set_fd (mk_fdc [] [] (f_irq f) (f_st0 f) (f_pcn f) (f_reset f) (f_dor f)) p.

Definition fpc_out (port v : Z) (p : floppy_pc) : floppy_pc :=
  let f := fd p in
  if port =? DATA_FIFO then
    match f_result f with
    | _ :: _ => p
    | [] =>
      let cmd := f_cmd f ++ [v] in
      if Nat.ltb (length cmd) (command_length (nth 0 cmd 0)) then set_fd (mk_fdc cmd [] (f_irq f) (f_st0 f) (f_pcn f) (f_reset f) (f_dor f)) p else execute cmd p
    end
  else if port =? DIGITAL_OUTPUT_REGISTER then
    if has v 4 then
      if f_reset f then set_fd (mk_fdc [] [] true 0xc0 (repeat 0 4) false v) p
      else set_fd (mk_fdc (f_cmd f) (f_result f) (f_irq f) (f_st0 f) (f_pcn f) false v) p
    else set_fd (mk_fdc [] [] false (f_st0 f) (f_pcn f) true v) p
  else mk_fpc f (disks p) (ram p) (dma_out port v (dmac p)).

(** The interrupt comes after the driver has begun to wait for it. *)
Class floppy_card (S : Type) {P : ports S} {I : irq6 S} := {
  fview : S -> floppy_pc;
  fview_outb : forall port v s, fview (outb port v s) = fpc_out port v (fview s);
  fview_status : forall s, (inb MAIN_STATUS_REGISTER s).1 = status (fd (fview s)) /\ fview (inb MAIN_STATUS_REGISTER s).2 = fview s;
  fview_data : forall s v rest, f_result (fd (fview s)) = v :: rest -> (inb DATA_FIFO s).1 = v /\
    fview (inb DATA_FIFO s).2 = set_fd (mk_fdc (f_cmd (fd (fview s))) rest (f_irq (fd (fview s))) (f_st0 (fd (fview s))) (f_pcn (fd (fview s))) (f_reset (fd (fview s))) (f_dor (fd (fview s)))) (fview s);
  fview_irq : forall s, f_irq (fd (fview s)) = true -> exists s', wait_irq6 s = Ok s' /\
    fview s' = set_fd (mk_fdc (f_cmd (fd (fview s))) (f_result (fd (fview s))) false (f_st0 (fd (fview s))) (f_pcn (fd (fview s))) (f_reset (fd (fview s))) (f_dor (fd (fview s)))) (fview s) }.

Section driver.
Context {S : Type} {P : ports S} {I : irq6 S} {C : floppy_card S} (phys : Z -> Z).
#[local] Set Default Proof Using "C".

Definition idle (p : floppy_pc) : Prop := f_cmd (fd p) = [] /\ f_result (fd p) = [].

Lemma sendbyte_spec b s : f_result (fd (fview s)) = [] -> fview (floppy_sendbyte b s) = fpc_out DATA_FIFO b (fview s).
Proof.
  intros Hr. unfold floppy_sendbyte. cbn [send_loop]. destruct (fview_status s) as [A B]. destruct (inb MAIN_STATUS_REGISTER s) as [v s1]. cbn [fst snd] in *.
  assert (E : Z.land v 0xc0 =? 0x80 = true) by (rewrite A; unfold status; rewrite Hr; now destruct (f_cmd _)).
  rewrite E, fview_outb, B. reflexivity.
Qed.
Lemma getbyte_spec s v rest : f_result (fd (fview s)) = v :: rest ->
  exists s', floppy_getbyte s = (v, s') /\
    fview s' = set_fd (mk_fdc (f_cmd (fd (fview s))) rest (f_irq (fd (fview s))) (f_st0 (fd (fview s))) (f_pcn (fd (fview s))) (f_reset (fd (fview s))) (f_dor (fd (fview s)))) (fview s).
Proof.
  intros Hr. unfold floppy_getbyte. cbn [get_loop]. destruct (fview_status s) as [A B]. destruct (inb MAIN_STATUS_REGISTER s) as [m s1]. cbn [fst snd] in *.
  assert (E : Z.land m 0xd0 =? 0xd0 = true) by (rewrite A; unfold status; rewrite Hr; reflexivity). rewrite E.
  destruct (fview_data s1 v rest) as [D F]; [rewrite B; exact Hr|]. destruct (inb DATA_FIFO s1) as [x s2]. cbn [fst snd] in *. exists s2. subst x.
  split; [reflexivity|]. rewrite F, B. reflexivity.
Qed.
Lemma skip_bytes_spec n : forall s l rest, f_result (fd (fview s)) = l ++ rest -> length l = n ->
  fview (skip_bytes n s) = set_fd (mk_fdc (f_cmd (fd (fview s))) rest (f_irq (fd (fview s))) (f_st0 (fd (fview s))) (f_pcn (fd (fview s))) (f_reset (fd (fview s))) (f_dor (fd (fview s)))) (fview s).
Proof.
  induction n as [|n IH]; intros s l rest Hr Hl; destruct l as [|v l]; try discriminate Hl; cbn [skip_bytes app] in *.
  - rewrite <- Hr. destruct (fview s) as [[]]. reflexivity.
  - destruct (getbyte_spec s v (l ++ rest) Hr) as (s' & E & V). rewrite E. cbn [snd].
    rewrite (IH s' l rest); [rewrite V; reflexivity|rewrite V; reflexivity|now injection Hl].
Qed.

(** A whole command, byte by byte. *)
Lemma send_bytes_spec rest : forall pre s, rest <> [] -> f_cmd (fd (fview s)) = pre -> f_result (fd (fview s)) = [] ->
  length (pre ++ rest) = command_length (nth 0 (pre ++ rest) 0) -> fview (send_bytes rest s) = execute (pre ++ rest) (fview s).
Proof.
  induction rest as [|b rest IH]; intros pre s Hne Hc Hr Hl; [contradiction|]. cbn [send_bytes].
  assert (V : fview (floppy_sendbyte b s) = _) by exact (sendbyte_spec b s Hr). unfold fpc_out in V. change (DATA_FIFO =? DATA_FIFO) with true in V.
  cbv zeta iota in V. rewrite Hr, Hc in V. assert (N : nth 0 (pre ++ [b]) 0 = nth 0 (pre ++ b :: rest) 0) by (destruct pre; reflexivity).
  rewrite N, <- Hl in V. rewrite !length_app in V. cbn [length] in V. destruct rest as [|b' rest].
  - rewrite (proj2 (Nat.ltb_ge _ _)) in V by (cbn [length]; lia). cbn [send_bytes]. exact V.
  - rewrite (proj2 (Nat.ltb_lt _ _)) in V by (cbn [length]; lia).
    rewrite (IH (pre ++ [b])); [| discriminate |rewrite V; reflexivity|rewrite V; reflexivity|rewrite <- app_assoc; exact Hl].
    rewrite V, <- app_assoc. cbn [app]. unfold execute. cbn [fd set_fd disks ram dmac f_irq f_st0 f_pcn f_reset f_dor]. reflexivity.
Qed.

Definition rw_command (cmd : Z) (d : floppy_drive) (loc : chs_location) : list Z :=
  [Z.lor (Z.lor MFM_BIT MT_BIT) cmd; Z.lor (u8 (Z.shiftl (head loc) 2)) (drive_index d); cylinder loc; head loc; sector loc; 2; sectors_per_track d; gap_len d; 0xff].
Lemma drive_bits d h : 0 <= d < 2 -> 0 <= h < 2 ->
  let b := Z.lor (u8 (Z.shiftl h 2)) d in Z.land b 3 = d /\ Z.land (Z.land b 7) 0xc0 = 0 /\ has (Z.lor 0x20 (Z.land b 7)) 0xC0 = false /\ Z.land (Z.lor 0x20 (Z.land b 7)) 3 = d.
Proof using Type. intros Hd Hh. assert (d = 0 \/ d = 1) as [-> | ->] by lia; assert (h = 0 \/ h = 1) as [-> | ->] by lia; repeat split; reflexivity. Qed.
Lemma execute_read d loc p : 0 <= drive_index d < 2 -> 0 <= head loc < 2 ->
  transfer_ok (cylinder loc) (head loc) (sector loc) (sectors_per_track d) (drive_index d) 0x46 p = true ->
  execute (rw_command READ_DATA d loc) p = mk_fpc (ended (Z.land (Z.lor (u8 (Z.shiftl (head loc) 2)) (drive_index d)) 7) (fd p)) (disks p)
    (fun a => match dma_offset (dmac p) a with
              | Some k => disks p (drive_index d) (transfer_start (cylinder loc) (head loc) (sector loc) (drive_index d) + k) | None => ram p a end) (dmac p).
Proof using Type.
  intros Hd Hh Ht. destruct (drive_bits _ _ Hd Hh) as (M & _). unfold execute, rw_command. cbn [nth]. rewrite M, Ht. reflexivity.
Qed.
Lemma execute_write d loc p : 0 <= drive_index d < 2 -> 0 <= head loc < 2 ->
  transfer_ok (cylinder loc) (head loc) (sector loc) (sectors_per_track d) (drive_index d) 0x4a p = true ->
  let start := transfer_start (cylinder loc) (head loc) (sector loc) (drive_index d) in
  execute (rw_command WRITE_DATA d loc) p = mk_fpc (ended (Z.land (Z.lor (u8 (Z.shiftl (head loc) 2)) (drive_index d)) 7) (fd p))
    (fun d' o => if (d' =? drive_index d) && (start <=? o) && (o <=? start + nth 2 (d_count (dmac p)) 0)
                 then ram p (nth 2 (d_page (dmac p)) 0 * 65536 + (nth 2 (d_addr (dmac p)) 0 + (o - start)) mod 65536) else disks p d' o) (ram p) (dmac p).
Proof using Type.
  intros Hd Hh Ht. destruct (drive_bits _ _ Hd Hh) as (M & _). unfold execute, rw_command. cbn [nth]. rewrite M, Ht. reflexivity.
Qed.
(** The controller takes commands, and the motors can be started. *)
Record ready (p : floppy_pc) : Prop := {
  rd_cmd : f_cmd (fd p) = []; rd_result : f_result (fd p) = []; rd_reset : f_reset (fd p) = false;
  rd_pcn : length (f_pcn (fd p)) = 4%nat; rd_dma : dma_ok (dmac p) }.
Record floppy_ok (f : floppy S) : Prop := { fo_ready : ready (fview (fio f)); fo_motor : length (motor_is_ready f) = 2%nat }.
(** All but the controller's own state. *)
Definition same_outside (p p' : floppy_pc) : Prop := disks p' = disks p /\ ram p' = ram p /\ dmac p' = dmac p.

Lemma command_spec cmd s : ready (fview s) -> cmd <> [] -> length cmd = command_length (nth 0 cmd 0) -> fview (send_bytes cmd s) = execute cmd (fview s).
Proof. intros [A B _ _ _] Hne Hl. exact (send_bytes_spec cmd [] s Hne A B Hl). Qed.
Lemma getbyte_pair s a b : f_result (fd (fview s)) = [a; b] ->
  exists s1 s2, floppy_getbyte s = (a, s1) /\ floppy_getbyte s1 = (b, s2) /\
    fview s2 = set_fd (mk_fdc (f_cmd (fd (fview s))) [] (f_irq (fd (fview s))) (f_st0 (fd (fview s))) (f_pcn (fd (fview s))) (f_reset (fd (fview s))) (f_dor (fd (fview s)))) (fview s).
Proof.
  intros Hr. destruct (getbyte_spec s a [b] Hr) as (s1 & E1 & V1). destruct (getbyte_spec s1 b []) as (s2 & E2 & V2); [rewrite V1; reflexivity|].
  exists s1, s2. split; [exact E1|]. split; [exact E2|]. rewrite V2, V1. reflexivity.
Qed.

(** What the driver takes for a running motor is one. *)
Definition motor_known (d : Z) (f : floppy S) : Prop := motor_is_ready f !! Z.to_nat d = Some true -> spins d (fd (fview (fio f))) = true.
Definition motor_on (d : Z) (f : floppy S) : Prop := motor_is_ready f !! Z.to_nat d = Some true /\ spins d (fd (fview (fio f))) = true.

Lemma motor_on_spec d f : floppy_ok f -> 0 <= d < 2 -> motor_known d f ->
  exists f', floppy_motor_on d f = Ok f' /\ floppy_ok f' /\ same_outside (fview (fio f)) (fview (fio f')) /\ motor_on d f'.
Proof.
  intros [R L] Hd Hk. unfold floppy_motor_on, motor_on. destruct (fetch_in (motor_is_ready f) d) as (b & E & Hb); [lia|]. rewrite (bind_Ok_l _ _ _ E). destruct b.
  - exists f. split; [reflexivity|]. split; [constructor; assumption|]. split; [unfold same_outside; auto|]. split; [exact Hb|exact (Hk Hb)].
  - eexists. split; [reflexivity|]. cbn [fio set_motor put_fio motor_is_ready]. set (v := Z.lor (Z.lor (u8 (Z.shiftl 0x10 d)) 0x0c) (Z.land d 0x03)).
    assert (Q : has v 4 = true /\ Z.testbit v (4 + d) = true /\ Z.land v 3 = d) by (unfold v; assert (d = 0 \/ d = 1) as [-> | ->] by lia; repeat split; reflexivity).
    destruct Q as (Q1 & Q2 & Q3). destruct R as [R1 R2 R3 R4 R5].
    assert (V : fview (outb DIGITAL_OUTPUT_REGISTER v (fio f)) =
      set_fd (mk_fdc [] [] (f_irq (fd (fview (fio f)))) (f_st0 (fd (fview (fio f)))) (f_pcn (fd (fview (fio f)))) false v) (fview (fio f))).
    { rewrite fview_outb. unfold fpc_out. change (DIGITAL_OUTPUT_REGISTER =? DATA_FIFO) with false. rewrite Z.eqb_refl, Q1, R3, R1, R2. reflexivity. }
    split; [|split; [|split]].
    + constructor; cbn [fio set_motor put_fio motor_is_ready]; [rewrite V|rewrite length_insert; exact L]. constructor; try reflexivity; [exact R4|exact R5].
    + rewrite V. unfold same_outside. auto.
    + apply list_lookup_insert_eq. lia.
    + rewrite V. unfold spins. cbn [fd set_fd f_dor]. rewrite Q2, Q3, Z.eqb_refl. reflexivity.
Qed.

(** Waiting for the interrupt of a command, and asking for its status. *)
Lemma sense_spec s p : fview s = p -> f_irq (fd p) = true -> f_cmd (fd p) = [] -> f_result (fd p) = [] ->
  exists s1 s2 s3, wait_irq6 s = Ok s1 /\ floppy_getbyte (floppy_sendbyte SENSE_INTERRUPT s1) = (f_st0 (fd p), s2) /\
    floppy_getbyte s2 = (nth (Z.to_nat (Z.land (f_st0 (fd p)) 3)) (f_pcn (fd p)) 0, s3) /\
    fview s3 = set_fd (mk_fdc [] [] false (f_st0 (fd p)) (f_pcn (fd p)) (f_reset (fd p)) (f_dor (fd p))) p.
Proof.
  intros V Hi Hc Hr. destruct (fview_irq s) as (s1 & E1 & V1); [rewrite V; exact Hi|]. exists s1. rewrite V, Hc, Hr in V1.
  assert (V2 : fview (floppy_sendbyte SENSE_INTERRUPT s1) = execute [SENSE_INTERRUPT] (fview s1)).
  { rewrite sendbyte_spec by (rewrite V1; reflexivity). unfold fpc_out. rewrite V1. reflexivity. }
  rewrite V1 in V2. destruct (getbyte_pair (floppy_sendbyte SENSE_INTERRUPT s1) (f_st0 (fd p)) (nth (Z.to_nat (Z.land (f_st0 (fd p)) 3)) (f_pcn (fd p)) 0)) as (s2 & s3 & E2 & E3 & V3);
    [rewrite V2; reflexivity|]. exists s2, s3. do 3 (split; [assumption|]). rewrite V3, V2. reflexivity.
Qed.

Lemma seek_spec d cyl hd f : floppy_ok f -> 0 <= d < 2 -> 0 <= hd < 2 -> motor_known d f ->
  exists f', floppy_seek d cyl hd f = Ok (true, f') /\ floppy_ok f' /\ same_outside (fview (fio f)) (fview (fio f')) /\ motor_on d f' /\
    nth (Z.to_nat d) (f_pcn (fd (fview (fio f')))) (-1) = cyl.
Proof.
  intros Hok Hd Hh Hk. unfold floppy_seek. cbn [seek_loop]. destruct (motor_on_spec d f Hok Hd Hk) as (f1 & E1 & [R1 L1] & (X1 & X2 & X3) & M0 & Sp). rewrite (bind_Ok_l _ _ _ E1).
  set (cmd := [SEEK; Z.lor (u8 (Z.shiftl hd 2)) d; cyl]). pose proof (command_spec cmd (fio f1) R1 ltac:(discriminate) eq_refl) as V2.
  set (s2 := send_bytes cmd (fio f1)) in *. unfold execute in V2. cbn [nth cmd] in V2.
  change (Z.land SEEK 31 =? SENSE_INTERRUPT) with false in V2. change (Z.land SEEK 31 =? RECALIBRATE) with false in V2. change (Z.land SEEK 31 =? SEEK) with true in V2. cbv iota zeta in V2.
  destruct (drive_bits d hd Hd Hh) as (M1 & _ & M2 & M3). rewrite M1 in V2.
  destruct (sense_spec s2 _ V2 eq_refl eq_refl eq_refl) as (s3 & s4 & s5 & E3 & E4 & E5 & V5). cbn [fd set_fd f_st0 f_pcn f_reset f_dor] in *.
  rewrite (bind_Ok_l _ _ _ E3), E4, E5, M2. rewrite M3. rewrite nth_lookup, list_lookup_insert_eq by (rewrite (rd_pcn _ R1); lia). cbn [default from_option].
  rewrite Z.eqb_refl. eexists. split; [reflexivity|]. unfold motor_on. cbn [fio put_fio motor_is_ready]. rewrite V5. split; [|split; [|split; [split; [exact M0|exact Sp]|]]].
  - constructor; cbn [fio put_fio motor_is_ready]; [|exact L1]. rewrite V5. constructor; cbn [fd set_fd f_cmd f_result f_reset f_pcn dmac]; try reflexivity.
    + apply R1.
    + rewrite length_insert. apply R1.
    + apply R1.
  - unfold same_outside. cbn [disks ram dmac set_fd]. auto.
  - cbn [fd set_fd f_pcn]. rewrite nth_lookup, list_lookup_insert_eq by (rewrite (rd_pcn _ R1); lia). reflexivity.
Qed.

(** ** The transfer *)
Lemma execute_dmac cmd p : dmac (execute cmd p) = dmac p.
Proof using Type.
  unfold execute. repeat match goal with |- context [if ?b then _ else _] => destruct b end; reflexivity.
Qed.
#[local] Program Instance floppy_dma : dma_card S := {| dma s := dmac (fview s) |}.
Next Obligation.
  intros port v s. cbn. rewrite fview_outb. unfold fpc_out. destruct (Z.eqb_spec port DATA_FIFO) as [->|H1].
  - assert (E : forall r, dma_out DATA_FIFO v r = r) by (intros []; reflexivity). rewrite E. destruct (f_result _); [|reflexivity].
    destruct (Nat.ltb _ _); [reflexivity|apply execute_dmac].
  - destruct (Z.eqb_spec port DIGITAL_OUTPUT_REGISTER) as [->|H2]; [|reflexivity].
    assert (E : forall r, dma_out DIGITAL_OUTPUT_REGISTER v r = r) by (intros []; reflexivity). rewrite E.
    destruct (has v 4); [destruct (f_reset _) |]; reflexivity.
Qed.
Lemma other_port port v s : port < 0x3F2 -> fd (fview (outb port v s)) = fd (fview s) /\ disks (fview (outb port v s)) = disks (fview s) /\ ram (fview (outb port v s)) = ram (fview s).
Proof.
  intros Hp. rewrite fview_outb. unfold fpc_out, DATA_FIFO, DIGITAL_OUTPUT_REGISTER. rewrite !(proj2 (Z.eqb_neq _ _)) by lia. auto.
Qed.
Lemma begin_transfer_spec mode buf size s : mode = ISA_DMA_READ \/ mode = ISA_DMA_WRITE -> ready (fview s) ->
  exists s', isa_dma_begin_transfer phys 2 mode buf size s = Ok s' /\ ready (fview s') /\
    fd (fview s') = fd (fview s) /\ disks (fview s') = disks (fview s) /\ ram (fview s') = ram (fview s) /\
    programmed 2 (Z.land (phys buf) 0xff) (Z.land (sub32 size 1) 0xffff) (u8 (Z.shiftr (phys buf) 16)) (u8 (mode + 2)) (dmac (fview s)) (dmac (fview s')).
Proof.
  intros Hm [R1 R2 R3 R4 R5]. destruct (isa_dma_begin_transfer_programs phys 2 mode buf size s ltac:(lia) Hm R5) as (s' & E & Hp). change (Z.of_nat 2) with 2 in *.
  exists s'. split; [exact E|].
  assert (K : fd (fview s') = fd (fview s) /\ disks (fview s') = disks (fview s) /\ ram (fview s') = ram (fview s)).
  { unfold isa_dma_begin_transfer in E. cbn [fetch mbind outcome_bind] in E. injection E as <-.
    repeat match goal with |- context [fview (outb ?port ?v ?s)] => destruct (other_port port v s ltac:(reflexivity)) as (-> & -> & ->) end. auto. }
  destruct K as (K1 & K2 & K3). split; [|auto]. destruct (programmed_address 2 _ _ _ _ _ _ ltac:(lia) R5 Hp) as (D & _).
  constructor; rewrite ?K1; assumption.
Qed.

Lemma do_rw_spec d cmd loc f : 
  0 <= cylinder loc < num_tracks d -> 0 <= head loc < heads_per_cylinder d -> 1 <= sector loc <= sectors_per_track d ->
  let q := execute (rw_command cmd d loc) (fview (fio f)) in
  cmd = READ_DATA \/ cmd = WRITE_DATA -> floppy_ok f ->
  f_cmd (fd q) = [] -> f_result (fd q) = f_st0 (fd q) :: repeat 0 6 -> f_irq (fd q) = true -> Z.land (f_st0 (fd q)) 0xc0 = 0 ->
  f_pcn (fd q) = f_pcn (fd (fview (fio f))) -> f_reset (fd q) = f_reset (fd (fview (fio f))) -> f_dor (fd q) = f_dor (fd (fview (fio f))) ->
  exists f', floppy_do_rw d cmd loc f = Ok (true, f') /\ floppy_ok f' /\ same_outside q (fview (fio f')) /\ (motor_on (drive_index d) f -> motor_on (drive_index d) f').
Proof.
  intros H1 H2 H3 q Hcmd [R L] Qc Qr Qi Qs Qp Qx Qd. unfold floppy_do_rw.
  rewrite (proj2 (Z.ltb_lt (cylinder loc) _)), (proj2 (Z.ltb_lt (head loc) _)), (proj2 (Z.leb_le (sector loc) _)), (proj2 (Z.ltb_lt 0 (sector loc))) by lia.
  cbn [k_assert mbind outcome_bind]. fold (rw_command cmd d loc). set (bytes := rw_command cmd d loc) in *.
  assert (V : fview (send_bytes bytes (fio f)) = q).
  { apply command_spec; [exact R|discriminate|]. destruct Hcmd as [-> | ->]; reflexivity. }
  destruct (fview_irq (send_bytes bytes (fio f))) as (s1 & E1 & V1); [rewrite V; exact Qi|]. rewrite V, Qc, Qr in V1.
  destruct (getbyte_spec s1 (f_st0 (fd q)) (repeat 0 6)) as (s2 & E2 & V2); [rewrite V1; reflexivity|]. rewrite V1 in V2. cbn [fd set_fd f_cmd f_result f_irq f_st0 f_pcn f_reset f_dor] in V2.
  pose proof (skip_bytes_spec 6 s2 (repeat 0 6) []) as V3. rewrite V2 in V3. specialize (V3 (eq_sym (app_nil_r _)) eq_refl). cbn [fd set_fd f_cmd f_irq f_st0 f_pcn f_reset f_dor] in V3.
  set (s3 := skip_bytes 6 s2) in *.
  assert (V4 : fview (floppy_sendbyte SENSE_INTERRUPT s3) = execute [SENSE_INTERRUPT] (fview s3)).
  { rewrite sendbyte_spec by (rewrite V3; reflexivity). unfold fpc_out. rewrite V3. reflexivity. }
  rewrite V3 in V4. pose proof (skip_bytes_spec 2 (floppy_sendbyte SENSE_INTERRUPT s3) [f_st0 (fd q); nth (Z.to_nat (Z.land (f_st0 (fd q)) 3)) (f_pcn (fd q)) 0] []) as V5.
  rewrite V4 in V5. specialize (V5 eq_refl eq_refl). set (s5 := skip_bytes 2 _) in *.
  exists (put_fio s5 f). split; [|split; [|split]].
  - rewrite E1. cbn [mbind outcome_bind]. rewrite E2. cbv beta iota zeta. fold s3. fold s5. rewrite Qs. reflexivity.
  - constructor; [|exact L]. cbn [fio put_fio]. rewrite V5. destruct R as [R1 R2 R3 R4 R5].
    constructor; [reflexivity|reflexivity|change (f_reset (fd q) = false); congruence|change (length (f_pcn (fd q)) = 4%nat); congruence|].
    change (dma_ok (dmac q)). unfold q. rewrite execute_dmac. exact R5.
  - cbn [fio put_fio]. rewrite V5. unfold same_outside. auto.
  - intros [M1 M2]. split; [exact M1|]. cbn [fio put_fio]. rewrite V5. unfold spins in *. cbn [fd set_fd f_dor]. rewrite Qd. exact M2.
Qed.

(** ** Requests *)
(** A drive as the machine has it. *)
Record drive_ok (d : floppy_drive) : Prop := {
  dr_index : 0 <= drive_index d < 2;
  dr_geometry : geometry (drive_index d) = (sectors_per_track d, heads_per_cylinder d, num_tracks d);
  dr_sectors : 1 <= sectors_per_track d < 255;
  dr_heads : 1 <= heads_per_cylinder d <= 2;
  dr_tracks : 1 <= num_tracks d < 256;
  dr_size : num_sectors d = num_tracks d * sectors_per_track d * heads_per_cylinder d }.

Lemma chs_spec d lba : drive_ok d -> 0 <= lba < num_sectors d ->
  exists loc, lba_to_chs d lba = Ok loc /\ 0 <= cylinder loc < num_tracks d /\ 0 <= head loc < heads_per_cylinder d /\ 1 <= sector loc <= sectors_per_track d /\
    (cylinder loc * heads_per_cylinder d + head loc) * sectors_per_track d + (sector loc - 1) = lba /\
    head loc * sectors_per_track d + (sector loc - 1) = lba mod (heads_per_cylinder d * sectors_per_track d).
Proof using Type.
  intros [Di Dg Ds Dh Dt Dn] Hl. unfold lba_to_chs. rewrite !(proj2 (Z.eqb_neq _ _)) by lia. cbn [orb].
  set (spt := sectors_per_track d) in *. set (heads := heads_per_cylinder d) in *.
  pose proof (Z.div_mod lba spt ltac:(lia)) as E1. pose proof (Z.mod_pos_bound lba spt ltac:(lia)) as B1. set (track := lba / spt) in *.
  pose proof (Z.div_mod track heads ltac:(lia)) as E2. pose proof (Z.mod_pos_bound track heads ltac:(lia)) as B2.
  assert (T0 : 0 <= track) by (apply Z.div_pos; lia). assert (C0 : 0 <= track / heads) by (apply Z.div_pos; lia).
  assert (C1 : track / heads < num_tracks d) by (apply Z.div_lt_upper_bound; [lia|]; unfold track; apply Z.div_lt_upper_bound; lia).
  eexists. split; [reflexivity|]. cbn [cylinder head sector]. unfold u8, wrap. change (2 ^ 8) with 256.
  rewrite (Z.mod_small (track / heads)), (Z.mod_small (track mod heads)), (Z.mod_small (lba mod spt + 1)) by lia.
  do 3 (split; [lia|]). assert (E3 : lba = (track / heads * heads + track mod heads) * spt + lba mod spt) by nia. split; [lia|].
  apply (Z.mod_unique_pos _ _ (track / heads)); [split; nia|]. nia.
Qed.

(** Where a transfer takes place: the second byte of the address is lost. *)
Definition place (a : Z) : Z := a - 256 * (a / 256 mod 256).
Record request_ok (d : floppy_drive) (lba num buf : Z) : Prop := {
  rq_lba : 0 <= lba; rq_num : 1 <= num; rq_disk : lba + num <= num_sectors d;
  rq_cylinder : lba mod (heads_per_cylinder d * sectors_per_track d) + num <= heads_per_cylinder d * sectors_per_track d;
  rq_phys : 0 <= phys buf < 2 ^ 24;
  rq_page : phys buf mod 256 + 512 * num <= 65536 }.

Lemma request_dma d lba num buf r r' mode : request_ok d lba num buf -> dma_ok r ->
  programmed 2 (Z.land (phys buf) 0xff) (Z.land (sub32 (mul32 FLOPPY_BYTES_PER_SECTOR num) 1) 0xffff) (u8 (Z.shiftr (phys buf) 16)) mode r r' ->
  nth 2 (d_page r') 0 * 65536 + nth 2 (d_addr r') 0 = place (phys buf) /\ nth 2 (d_addr r') 0 = phys buf mod 256 /\
  nth 2 (d_count r') 0 = 512 * num - 1 /\ nth 2 (d_masked r') true = false /\ nth 2 (d_mode r') 0 = mode.
Proof using Type.
  intros [Q1 Q2 Q3 Q4 Q5 Q6] Hr Hp. destruct (programmed_address 2 _ _ _ _ _ _ ltac:(lia) Hr Hp) as (_ & A & B & D).
  unfold dma_address in A. rewrite address_lost in A by exact Q5. split; [exact A|]. destruct Hp as (P1 & _ & _ & P4 & _).
  rewrite B, D, P1, P4, !nth_lookup, !list_lookup_insert_eq by (rewrite ?(mo_addr _ Hr), ?(mo_mode _ Hr); lia).
  pose proof (Z.mod_pos_bound (phys buf) 256 ltac:(lia)). unfold FLOPPY_BYTES_PER_SECTOR. rewrite mul32_small, sub32_small by lia.
  change 0xff with (2 ^ 8 - 1). change 0xffff with (2 ^ 16 - 1). rewrite !land_low_mask by lia. rewrite (Z.mod_small (512 * num - 1)) by lia. auto.
Qed.

(** The first try of a request succeeds: the controller has executed the command. *)
Lemma rw_loop_spec d cmd mode lba num buf f : drive_ok d -> floppy_ok f -> motor_known (drive_index d) f -> request_ok d lba num buf ->
  (cmd = READ_DATA /\ mode = ISA_DMA_READ) \/ (cmd = WRITE_DATA /\ mode = ISA_DMA_WRITE) ->
  exists loc p f', lba_to_chs d lba = Ok loc /\ 0 <= head loc < 2 /\ rw_loop phys 5 d cmd mode loc buf num f = Ok f' /\ floppy_ok f' /\ motor_on (drive_index d) f' /\
    disks p = disks (fview (fio f)) /\ ram p = ram (fview (fio f)) /\
    nth 2 (d_page (dmac p)) 0 * 65536 + nth 2 (d_addr (dmac p)) 0 = place (phys buf) /\ nth 2 (d_addr (dmac p)) 0 = phys buf mod 256 /\
    nth 2 (d_count (dmac p)) 0 = 512 * num - 1 /\
    transfer_ok (cylinder loc) (head loc) (sector loc) (sectors_per_track d) (drive_index d) (u8 (mode + 2)) p = true /\
    transfer_start (cylinder loc) (head loc) (sector loc) (drive_index d) = lba * 512 /\
    same_outside (execute (rw_command cmd d loc) p) (fview (fio f')).
Proof.
  intros Hd Hf Hk Hq Hcmd. pose proof Hd as [Di Dg Ds Dh Dt Dn]. pose proof Hq as [Q1 Q2 Q3 Q4 Q5 Q6].
  destruct (chs_spec d lba Hd ltac:(lia)) as (loc & El & B1 & B2 & B3 & E1 & E2).
  destruct (seek_spec (drive_index d) (cylinder loc) (head loc) f Hf Di ltac:(lia) Hk) as (f1 & Es & Hf1 & (S1 & S2 & S3) & [Mr Ms] & Hpcn).
  assert (Hmode : mode = ISA_DMA_READ \/ mode = ISA_DMA_WRITE) by tauto.
  destruct (begin_transfer_spec mode buf (mul32 FLOPPY_BYTES_PER_SECTOR num) (fio f1) Hmode (fo_ready _ Hf1)) as (s2 & Eb & R2 & K1 & K2 & K3 & Hp).
  destruct (request_dma d lba num buf _ _ _ Hq (rd_dma _ (fo_ready _ Hf1)) Hp) as (A1 & A2 & A3 & A4 & A5). set (p := fview s2) in *.
  assert (Ht : transfer_ok (cylinder loc) (head loc) (sector loc) (sectors_per_track d) (drive_index d) (u8 (mode + 2)) p = true).
  { unfold transfer_ok. rewrite Dg, K1, Ms, Hpcn, A3, A4, A5. rewrite !Z.eqb_refl. replace (512 * num - 1 + 1) with (num * 512) by lia.
    rewrite Z.mod_mul, Z.div_mul by lia. rewrite E2, Z.eqb_refl. cbn [negb].
    rewrite (proj2 (Z.ltb_lt (cylinder loc) _)), (proj2 (Z.ltb_lt (head loc) _)), !(proj2 (Z.leb_le _ _)) by lia. reflexivity. }
  assert (Hst : transfer_start (cylinder loc) (head loc) (sector loc) (drive_index d) = lba * 512) by (unfold transfer_start; rewrite Dg; f_equal; exact E1).
  assert (Hm2 : motor_on (drive_index d) (put_fio s2 f1)) by (split; [exact Mr|cbn [fio put_fio]; fold p; rewrite K1; exact Ms]).
  assert (Hf2 : floppy_ok (put_fio s2 f1)) by (constructor; [exact R2|apply Hf1]).
  exists loc, p.
  assert (Hw : exists f', floppy_do_rw d cmd loc (put_fio s2 f1) = Ok (true, f') /\ floppy_ok f' /\
    same_outside (execute (rw_command cmd d loc) p) (fview (fio f')) /\ motor_on (drive_index d) f').
  { destruct (drive_bits (drive_index d) (head loc) Di ltac:(lia)) as (_ & M2 & _).
    assert (Hq2 : exists X, execute (rw_command cmd d loc) p = X /\ fd X = ended (Z.land (Z.lor (u8 (Z.shiftl (head loc) 2)) (drive_index d)) 7) (fd p)).
    { eexists. split; [reflexivity|]. destruct Hcmd as [[-> ->]|[-> ->]].
      - rewrite (execute_read d loc p Di ltac:(lia) Ht). reflexivity.
      - rewrite (execute_write d loc p Di ltac:(lia) Ht). reflexivity. }
    destruct Hq2 as (X & EX & FX).
    pose proof (do_rw_spec d cmd loc (put_fio s2 f1) B1 B2 B3) as W. cbv zeta in W. cbn [fio put_fio] in W. fold p in W. rewrite EX in W. rewrite EX.
    destruct W as (f' & W1 & W2 & W3 & W4); rewrite ?FX; try reflexivity; try assumption; [tauto|]. exists f'. auto. }
  destruct Hw as (f' & Ew & Hf' & So & Hmo). exists f'. split; [exact El|]. split; [lia|]. split.
  { cbn [rw_loop]. rewrite (bind_Ok_l _ _ _ Es). cbn [negb]. rewrite (bind_Ok_l _ _ _ Eb), (bind_Ok_l _ _ _ Ew). reflexivity. }
  split; [exact Hf'|]. split; [exact Hmo|]. split; [congruence|]. split; [congruence|]. auto 10.
Qed.

(** C38: reading sectors of a cylinder, from a drive whose motor runs if the driver takes it
    as running, puts exactly their bytes into memory, at the place the DMA controller was
    told, and changes nothing else of the memory or of the disks; the motor runs then.
    The interrupts come only after the driver has begun to wait for them. *)
Theorem floppy_read_blocks_correct d lba num buf f : drive_ok d -> floppy_ok f -> motor_known (drive_index d) f -> request_ok d lba num buf ->
  exists f', floppy_read_blocks phys d lba buf num f = Ok f' /\ floppy_ok f' /\ motor_on (drive_index d) f' /\ disks (fview (fio f')) = disks (fview (fio f)) /\
    forall x, ram (fview (fio f')) x =
      if (place (phys buf) <=? x) && (x <? place (phys buf) + 512 * num)
      then disks (fview (fio f)) (drive_index d) (lba * 512 + (x - place (phys buf))) else ram (fview (fio f)) x.
Proof.
  intros Hd Hf Hk Hq. pose proof Hq as [Q1 Q2 Q3 Q4 Q5 Q6].
  destruct (rw_loop_spec d READ_DATA ISA_DMA_READ lba num buf f Hd Hf Hk Hq ltac:(tauto)) as (loc & p & f' & El & Hh & Er & Hf' & Hmo & D1 & D2 & A1 & A2 & A3 & Ht & Hst & So).
  unfold floppy_read_blocks. rewrite (proj2 (Z.ltb_ge _ _)) by lia. rewrite (bind_Ok_l _ _ _ El). exists f'. split; [exact Er|]. split; [exact Hf'|]. split; [exact Hmo|].
  rewrite (execute_read d loc p (dr_index _ Hd) Hh Ht) in So. destruct So as (S1 & S2 & _). cbn [disks ram] in S1, S2.
  split; [congruence|]. intros x. rewrite S2, Hst, D1, D2. clear S1 S2. unfold dma_offset. rewrite A3. cbv zeta.
  replace (x - nth 2 (d_page (dmac p)) 0 * 65536 - nth 2 (d_addr (dmac p)) 0) with (x - place (phys buf)) by lia.
  pose proof (Z.mod_pos_bound (phys buf) 256 ltac:(lia)) as Bm. set (base := nth 2 (d_page (dmac p)) 0 * 65536) in *.
  destruct (Z.leb_spec base x), (Z.ltb_spec x (base + 65536)), (Z.leb_spec (place (phys buf)) x), (Z.ltb_spec x (place (phys buf) + 512 * num)); cbn [andb]; try lia; try reflexivity.
  - rewrite Z.mod_small by lia. rewrite (proj2 (Z.leb_le _ _)) by lia. reflexivity.
  - rewrite Z.mod_small by lia. rewrite (proj2 (Z.leb_gt _ _)) by lia. reflexivity.
  - replace ((x - place (phys buf)) mod 65536) with (x - place (phys buf) + 65536) by (rewrite <- (Z_mod_plus_full _ 1), Z.mod_small; lia).
    rewrite (proj2 (Z.leb_gt _ _)) by lia. reflexivity.
Qed.

(** Writing puts the bytes of memory into exactly the sectors, and changes no other. *)
Theorem floppy_write_blocks_correct d lba num buf f : drive_ok d -> floppy_ok f -> motor_known (drive_index d) f -> request_ok d lba num buf -> lba + num < 2 ^ 32 ->
  exists f', floppy_write_blocks phys d lba buf num f = Ok f' /\ floppy_ok f' /\ motor_on (drive_index d) f' /\ ram (fview (fio f')) = ram (fview (fio f)) /\
    forall d' o, disks (fview (fio f')) d' o =
      if (d' =? drive_index d) && (lba * 512 <=? o) && (o <? (lba + num) * 512)
      then ram (fview (fio f)) (place (phys buf) + (o - lba * 512)) else disks (fview (fio f)) d' o.
Proof.
  intros Hd Hf Hk Hq H32. pose proof Hq as [Q1 Q2 Q3 Q4 Q5 Q6].
  destruct (rw_loop_spec d WRITE_DATA ISA_DMA_WRITE lba num buf f Hd Hf Hk Hq ltac:(tauto)) as (loc & p & f' & El & Hh & Er & Hf' & Hmo & D1 & D2 & A1 & A2 & A3 & Ht & Hst & So).
  unfold floppy_write_blocks. rewrite add32_small by lia. rewrite (proj2 (Z.ltb_ge _ _)) by lia. rewrite (bind_Ok_l _ _ _ El). exists f'. split; [exact Er|]. split; [exact Hf'|]. split; [exact Hmo|].
  rewrite (execute_write d loc p (dr_index _ Hd) Hh Ht) in So. destruct So as (S1 & S2 & _). cbn [disks ram] in S1, S2.
  split; [congruence|]. intros d' o. rewrite S1, Hst, A3, D1, D2. clear S1 S2.
  pose proof (Z.mod_pos_bound (phys buf) 256 ltac:(lia)) as Bm.
  destruct (Z.eqb_spec d' (drive_index d)), (Z.leb_spec (lba * 512) o), (Z.leb_spec o (lba * 512 + (512 * num - 1))), (Z.ltb_spec o ((lba + num) * 512));
    cbn [andb]; try lia; try reflexivity.
  rewrite Z.mod_small by lia. f_equal. lia.
Qed.
End driver.
End device.

(** Where the second byte of the address is zero, the place is the buffer. *)
Lemma place_is_buffer a : a / 256 mod 256 = 0 -> place a = a.
Proof. unfold place. lia. Qed.

(** ** Two drives of 1.44 MB *)
Definition hd_geometry (_ : Z) : Z * Z * Z := (18, 2, 80).
Definition pop (f : fdc) : Z * fdc :=
  match f_result f with v :: rest => (v, mk_fdc (f_cmd f) rest (f_irq f) (f_st0 f) (f_pcn f) (f_reset f) (f_dor f)) | [] => (0xff, f) end.
#[export] Instance fpc_ports : ports floppy_pc := {
  inb port p := if port =? MAIN_STATUS_REGISTER then (status (fd p), p)
    else if port =? DATA_FIFO then let '(v, f) := pop (fd p) in (v, set_fd f p) else (0, p);
  outb := fpc_out hd_geometry;
  inw _ s := (0, s); outw _ _ s := s; ind _ s := (0, s); outd _ _ s := s; insw _ _ s := ([], s); outsw _ _ s := s }.
#[export] Instance fpc_irq : irq6 floppy_pc := fun p =>
  if f_irq (fd p) then Ok (set_fd (mk_fdc (f_cmd (fd p)) (f_result (fd p)) false (f_st0 (fd p)) (f_pcn (fd p)) (f_reset (fd p)) (f_dor (fd p))) p) else Fault Deadlock.
#[export] Program Instance fpc_card : floppy_card hd_geometry floppy_pc := {| fview p := p |}.
Next Obligation. reflexivity. Qed.
Next Obligation. intros s. split; reflexivity. Qed.
Next Obligation. intros s v rest H. cbn. unfold pop. rewrite H. split; reflexivity. Qed.
Next Obligation. intros s H. unfold wait_irq6, fpc_irq. rewrite H. eexists. split; reflexivity. Qed.

Definition byte_of (d o : Z) : Z := (d + o) mod 251.
Definition cold : floppy floppy_pc := mk_floppy
  (mk_fpc (mk_fdc [] [] false 0 [5; 5; 0; 0] false 0) byte_of (fun _ => 255) (mk_dma true [0; 0; 0; 0] [0; 0; 0; 0] [0; 0; 0; 0] [0; 0; 0; 0] [true; true; true; true]))
  [false; false] [no_floppy; no_floppy] 0 [].
Definition drive_a : floppy_drive := mk_fdrive 2880 4 18 2 80 0x1B 0.

Lemma floppy_read_blocks_correct_witness : exists f', floppy_read_blocks id drive_a 33 0x20000 3 cold = Ok f' /\ ram (fio f') 0x20001 = byte_of 0 (33 * 512 + 1) /\ ram (fio f') 0x1ffff = 255.
Proof.
  destruct (floppy_read_blocks_correct hd_geometry id drive_a 33 3 0x20000 cold) as (f' & E & _ & _ & _ & R).
  - constructor; cbn; try lia. reflexivity.
  - constructor; [|reflexivity]. constructor; try reflexivity. constructor; reflexivity.
  - discriminate.
  - constructor; cbn; unfold id; try lia; vm_compute; discriminate.
  - exists f'. split; [exact E|]. pose proof (R 0x20001) as R1. pose proof (R 0x1ffff) as R2. cbn [fview fpc_card] in R1, R2. rewrite R1, R2. split; reflexivity.
Defined.

Definition ram_after (lba buf num a : Z) : option Z :=
  match floppy_read_blocks id drive_a lba buf num cold with Ok f => Some (ram (fio f) a) | Fault _ => None end.
(** A buffer at another place of its 64 KB is not reached: the sectors go to its start. *)
Example sectors_go_astray : ram_after 33 0x21000 1 0x21000 = Some 255 /\ ram_after 33 0x21000 1 0x20000 = Some (byte_of 0 (33 * 512)).
Proof. split; vm_compute; reflexivity. Qed.
(** A request over the end of a cylinder fails five times, and nobody is told. *)
Example cylinder_end : ram_after 35 0x20000 2 0x20000 = Some 255.
Proof. vm_compute. reflexivity. Qed.
(** The first sector behind the disk passes the check. *)
Example behind_the_disk : floppy_read_blocks id drive_a 2880 0x20000 1 cold = Fault AssertFailed.
Proof. vm_compute. reflexivity. Qed.
(** A machine with drive B only gets a drive A without sectors; drives of 360 KB are not
    found at all. *)
Definition init_result (cmos_10 : Z) : option (Z * list (Z * Z)) :=
  match floppy_init cmos_10 cold with Ok f => Some (num_floppy_drives f, added_drives f) | Fault _ => None end.
Example only_drive_b : init_result 0x04 = Some (1, [(0, 0)]).
Proof. vm_compute. reflexivity. Qed.
Example no_360K : init_result 0x10 = Some (0, []).
Proof. vm_compute. reflexivity. Qed.
Example two_drives : init_result 0x44 = Some (2, [(0, 2880); (1, 2880)]).
Proof. vm_compute. reflexivity. Qed.
(** Starting the motor of drive B stops that of drive A, which the driver still takes as
    running: the next command for drive A does not end. *)
Definition drive_b : floppy_drive := mk_fdrive 2880 4 18 2 80 0x1B 1.
Example other_motor_stops :
  (f ← floppy_read_blocks id drive_a 33 0x20000 1 cold; f ← floppy_read_blocks id drive_b 33 0x30000 1 f; floppy_read_blocks id drive_a 33 0x40000 1 f)
  = Fault Deadlock.
Proof. vm_compute. reflexivity. Qed.
