(* ===== verification/Vesa.v ===== *)
(** * The VESA driver (drivers/display/vesa/vesa.cpp)

    The BIOS of the card runs in an x86 emulator, which is not part of the repository: it is
    a parameter that asks for one access to memory or to a port at a time, and the driver
    answers.  [S] is the machine: its memory at virtual addresses, its page tables, its
    ports. *)
From S2P Require Import Prelude Paging Terminal Ports Hash BlockStore Display Vga.

Definition FORMAT_BGR444 : Z := 6.
Definition FORMAT_RGB332 : Z := 7.
Definition FORMAT_RGB444 : Z := 8.
Definition FORMAT_RGB555 : Z := 9.
Definition FORMAT_BGR555 : Z := 10.
Definition FORMAT_ARGB4444 : Z := 11.
Definition FORMAT_RGBA4444 : Z := 12.
Definition FORMAT_ABGR4444 : Z := 13.
Definition FORMAT_BGRA4444 : Z := 14.
Definition FORMAT_ARGB1555 : Z := 15.
Definition FORMAT_RGBA5551 : Z := 16.
Definition FORMAT_ABGR1555 : Z := 17.
Definition FORMAT_BGRA5551 : Z := 18.
Definition FORMAT_RGB565 : Z := 19.
Definition FORMAT_BGR565 : Z := 20.
Definition FORMAT_RGB24 : Z := 21.
Definition FORMAT_BGR24 : Z := 22.
Definition FORMAT_RGB888 : Z := 23.
Definition FORMAT_RGBX8888 : Z := 24.
Definition FORMAT_BGR888 : Z := 25.
Definition FORMAT_BGRX8888 : Z := 26.
Definition FORMAT_ARGB8888 : Z := 27.
Definition FORMAT_RGBA8888 : Z := 28.
Definition FORMAT_ARGB2101010 : Z := 31.
Definition DISPLAY_RGB : Z := 0x04.

(** ** What the kernel offers to the driver, and the emulator. *)
Class vesa_host (S : Type) := {
  load_byte : Z -> S -> Z;
  memmanager_map_to_new_pages : Z -> Z -> Z -> S -> Z * S;
  memmanager_virtual_alloc : Z -> Z -> S -> Z * S;
  memmanager_unmap_pages : Z -> Z -> S -> S;
  memmanager_free_pages : Z -> Z -> S -> S;
  physical_memory_allocate_in_range : Z -> Z -> Z -> Z -> S -> Z * S;
  new_bytes : Z -> S -> Z * S;
  delete_bytes : Z -> S -> S;
  (** [call *func_ptr] with AX, CX, BL and DX *)
  call_far : Z -> Z -> Z -> Z -> Z -> S -> S }.

Record x86_regs := mk_x86 { R_CS : Z; R_SS : Z; R_ES : Z; R_IP : Z; R_AX : Z; R_BX : Z; R_CX : Z; R_DX : Z; R_DI : Z }.
Class x86emu (E : Type) := {
  X86EMU_MEMIO_X : Z; X86EMU_MEMIO_R : Z; X86EMU_MEMIO_W : Z; X86EMU_MEMIO_I : Z; X86EMU_MEMIO_O : Z;
  X86EMU_MEMIO_8 : Z; X86EMU_MEMIO_16 : Z; X86EMU_MEMIO_32 : Z; X86EMU_MEMIO_8_NOPERM : Z;
  (** the registers that are assigned, and [x86emu_intr_raise] *)
  emu_raise : x86_regs -> Z -> E -> E;
  (** the next call of the handler, with its address, its value and its type *)
  emu_next : E -> option (Z * Z * Z);
  (** its answer *)
  emu_answer : Z -> E -> E;
  emu_ax : E -> Z; emu_cx : E -> Z; emu_di : E -> Z; emu_es : E -> Z }.

Record far_ptr := mk_far { offset : Z; segment : Z }.
Definition access (p : far_ptr) : Z := segment p * 0x10 + offset p.

Record vesa_mode := mk_vesa_mode { fb_addr : Z; vm_index : Z; is_vesa : bool }.
Record vesa (S E : Type) := mk_vesa {
  host : S; emu : E; virtual_bootsector : Z; virtual_stack : Z; pages_mapped : list Z; pages_allocated : list Z;
  mapping_cache : hash_map Z Z; current_mode_index : Z; vesa_modes : list vesa_mode;
  v_modes : list display_mode; vesa_pm_interface : option Z }.
Arguments mk_vesa {S E}. Arguments host {S E}. Arguments emu {S E}. Arguments virtual_bootsector {S E}. Arguments virtual_stack {S E}.
Arguments pages_mapped {S E}. Arguments pages_allocated {S E}. Arguments mapping_cache {S E}. Arguments current_mode_index {S E}.
Arguments vesa_modes {S E}. Arguments v_modes {S E}. Arguments vesa_pm_interface {S E}.

Definition low_page_begin : Z := 0x7C00.
Definition low_page_end : Z := low_page_begin + 1023.
Definition virtual_stack_end : Z := 0x00080000.
Definition virtual_stack_begin : Z := virtual_stack_end - 1024.

(** ** Pixel formats *)
Definition masks_are (m : Z * Z * Z * Z) (r g b a : Z) : bool :=
  let '(r', g', b', a') := m in (r =? r') && (g =? g') && (b =? b') && (a =? a').
Definition first_format (table : list ((Z * Z * Z * Z) * Z)) (r g b a : Z) : Z :=
  match list_find (fun row => masks_are row.1 r g b a = true) table with Some (_, row) => row.2 | None => FORMAT_DONT_CARE end.
Definition formats_8 : list ((Z * Z * Z * Z) * Z) := [((0xE0, 0x1C, 0x03, 0), FORMAT_RGB332)].
Definition formats_12 : list ((Z * Z * Z * Z) * Z) :=
  [((0x0F00, 0x00F0, 0x000F, 0), FORMAT_RGB444); ((0x000F, 0x00F0, 0x0F00, 0), FORMAT_BGR444)].
Definition formats_16 : list ((Z * Z * Z * Z) * Z) := [
  ((0x7C00, 0x03E0, 0x001F, 0x0000), FORMAT_RGB555); ((0x001F, 0x03E0, 0x7C00, 0x0000), FORMAT_BGR555);
  ((0x0F00, 0x00F0, 0x000F, 0xF000), FORMAT_ARGB4444); ((0xF000, 0x0F00, 0x00F0, 0x000F), FORMAT_RGBA4444);
  ((0x000F, 0x00F0, 0x0F00, 0xF000), FORMAT_ABGR4444); ((0x00F0, 0x0F00, 0xF000, 0x000F), FORMAT_BGRA4444);
  ((0x7C00, 0x03E0, 0x001F, 0x8000), FORMAT_ARGB1555); ((0xF800, 0x07C0, 0x003E, 0x0001), FORMAT_RGBA5551);
  ((0x001F, 0x03E0, 0x7C00, 0x8000), FORMAT_ABGR1555); ((0x003E, 0x07C0, 0xF800, 0x0001), FORMAT_BGRA5551);
  ((0xF800, 0x07E0, 0x001F, 0x0000), FORMAT_RGB565); ((0x001F, 0x07E0, 0xF800, 0x0000), FORMAT_BGR565);
  ((0x003F, 0x07C0, 0xF800, 0x0000), FORMAT_RGB565)].
Definition formats_32 : list ((Z * Z * Z * Z) * Z) := [
  ((0x00FF0000, 0x0000FF00, 0x000000FF, 0x00000000), FORMAT_RGB888); ((0xFF000000, 0x00FF0000, 0x0000FF00, 0x00000000), FORMAT_RGBX8888);
  ((0x000000FF, 0x0000FF00, 0x00FF0000, 0x00000000), FORMAT_BGR888); ((0x0000FF00, 0x00FF0000, 0xFF000000, 0x00000000), FORMAT_BGRX8888);
  ((0x00FF0000, 0x0000FF00, 0x000000FF, 0xFF000000), FORMAT_ARGB8888); ((0xFF000000, 0x00FF0000, 0x0000FF00, 0x000000FF), FORMAT_RGBA8888);
  ((0x000000FF, 0x0000FF00, 0x00FF0000, 0xFF000000), FORMAT_ABGR8888); ((0x0000FF00, 0x00FF0000, 0xFF000000, 0x000000FF), FORMAT_BGRA8888);
  ((0x3FF00000, 0x000FFC00, 0x000003FF, 0xC0000000), FORMAT_ARGB2101010)].
(** A case without a [break] goes on with the next one. *)
Definition vesa_format_from_masks (bpp r g b a : Z) : Z :=
  if bpp =? 1 then FORMAT_GRAYSCALE
  else if bpp =? 4 then FORMAT_INDEXED_BIT_PLANE
  else if bpp =? 8 then if r =? 0 then FORMAT_INDEXED_LINEAR else first_format formats_8 r g b a
  else if bpp =? 12 then if r =? 0 then FORMAT_RGB444 else first_format formats_12 r g b a
  else if (bpp =? 15) && (r =? 0) then FORMAT_RGB555
  else if (bpp =? 15) || (bpp =? 16) then if r =? 0 then FORMAT_RGB565 else first_format formats_16 r g b a
  else if (bpp =? 24) && ((r =? 0) || (r =? 0x00FF0000)) then FORMAT_BGR24
  else if (bpp =? 24) && (r =? 0x000000FF) then FORMAT_RGB24
  else if (bpp =? 24) || (bpp =? 32) then if r =? 0 then FORMAT_RGB888 else first_format formats_32 r g b a
  else FORMAT_DONT_CARE.

(** A shift by the width of the word is a shift by nothing on the processor; what is left is
    cleared. *)
Definition gen_mask (n : Z) : Z :=
  Z.land (u32 (- (if n =? 0 then 0 else 1))) (Z.shiftr (2 ^ 32 - 1) ((32 - n) mod 32)).
Definition field_mask (size position : Z) : Z := shl32 (gen_mask size) (position mod 32).

Section vesa_driver.
Context {S E : Type} {P : ports S} {HM : host_memory S} {VH : vesa_host S} {X : x86emu E}.
#[local] Notation state := (vesa S E).

Definition put_host (s : S) (v : state) : state :=
  mk_vesa s (emu v) (virtual_bootsector v) (virtual_stack v) (pages_mapped v) (pages_allocated v) (mapping_cache v) (current_mode_index v)
    (vesa_modes v) (v_modes v) (vesa_pm_interface v).
Definition put_emu (e : E) (v : state) : state :=
  mk_vesa (host v) e (virtual_bootsector v) (virtual_stack v) (pages_mapped v) (pages_allocated v) (mapping_cache v) (current_mode_index v)
    (vesa_modes v) (v_modes v) (vesa_pm_interface v).
Definition put_pages (s : S) (mapped allocated : list Z) (cache : hash_map Z Z) (v : state) : state :=
  mk_vesa s (emu v) (virtual_bootsector v) (virtual_stack v) mapped allocated cache (current_mode_index v)
    (vesa_modes v) (v_modes v) (vesa_pm_interface v).
Definition set_current_mode_index (i : Z) (v : state) : state :=
  mk_vesa (host v) (emu v) (virtual_bootsector v) (virtual_stack v) (pages_mapped v) (pages_allocated v) (mapping_cache v) i
    (vesa_modes v) (v_modes v) (vesa_pm_interface v).
Definition push_mode (mode : display_mode) (m : vesa_mode) (v : state) : state :=
  mk_vesa (host v) (emu v) (virtual_bootsector v) (virtual_stack v) (pages_mapped v) (pages_allocated v) (mapping_cache v) (current_mode_index v)
    (vesa_modes v ++ [m]) (v_modes v ++ [mode]) (vesa_pm_interface v).
Definition set_pm_interface (p : option Z) (v : state) : state :=
  mk_vesa (host v) (emu v) (virtual_bootsector v) (virtual_stack v) (pages_mapped v) (pages_allocated v) (mapping_cache v) (current_mode_index v)
    (vesa_modes v) (v_modes v) p.

(** [memcpy] and [memset] at virtual addresses. *)
Fixpoint load_bytes (n : nat) (a : Z) (s : S) : list Z :=
  match n with O => [] | Datatypes.S n => load_byte a s :: load_bytes n (a + 1) s end.

(** ** The memory the emulator sees *)
Definition map_address (addr : Z) (v : state) : outcome (Z * state) :=
  if (low_page_begin <=? addr) && (addr <=? low_page_end) then Ok (virtual_bootsector v + (addr - low_page_begin), v)
  else if (virtual_stack_begin <=? addr) && (addr <=? virtual_stack_end) then Ok (virtual_stack v + (addr - virtual_stack_begin), v)
  else
    let page_addr := Z.land addr (not32 (PAGE_SIZE - 1)) in
    let page_offset := sub32 addr page_addr in
    found ← lookup_key page_addr (mapping_cache v);
    match found with
    | Some vaddr => Ok (add32 vaddr page_offset, v)
    | None =>
      if (page_addr <? 0x1000) || ((0x80000 <=? page_addr) && (page_addr <? 0x100000)) then
        let '(vaddr, s) := memmanager_map_to_new_pages page_addr 1 (Z.lor PAGE_PRESENT PAGE_RW) (host v) in
        '(_, cache) ← insert_key page_addr vaddr (mapping_cache v);
        Ok (add32 vaddr page_offset, put_pages s (pages_mapped v ++ [vaddr]) (pages_allocated v) cache v)
      else
        found ← lookup_key page_addr (mapping_cache v);
        match found with
        | Some vaddr => Ok (add32 vaddr page_offset, v)
        | None =>
          let '(claimed, s) := physical_memory_allocate_in_range page_addr (add32 page_addr PAGE_SIZE) PAGE_SIZE PAGE_SIZE (host v) in
          '(vaddr, s) ← (if negb (claimed =? 0) then
              let '(vaddr, s) := memmanager_map_to_new_pages page_addr 1 (Z.lor PAGE_PRESENT PAGE_RW) s in
              _ ← k_assert (negb (vaddr =? 0)); Ok (vaddr, s)
            else let '(vaddr, s) := memmanager_virtual_alloc 1 PAGE_RW s in _ ← k_assert false; Ok (vaddr, s));
          '(_, cache) ← insert_key page_addr vaddr (mapping_cache v);
          Ok (add32 vaddr page_offset, put_pages s (pages_mapped v) (pages_allocated v ++ [vaddr]) cache v)
        end
    end.
Definition translate_virtual_far_ptr (t : far_ptr) (v : state) : outcome (Z * state) := map_address (access t) v.

(** [n] is the size of the type. *)
Definition mem_read (n : nat) (addr : Z) (v : state) : outcome (Z * state) :=
  '(p, v) ← map_address addr v; Ok (le_value (load_bytes n p (host v)), v).
Definition mem_write (n : nat) (addr value : Z) (v : state) : outcome state :=
  '(p, v) ← map_address addr v; Ok (put_host (store_bytes p (le_bytes n value) (host v)) v).

Definition mem_size (bits : Z) : option nat :=
  if bits =? X86EMU_MEMIO_8 then Some 1%nat else if bits =? X86EMU_MEMIO_16 then Some 2%nat
  else if bits =? X86EMU_MEMIO_32 then Some 4%nat else if bits =? X86EMU_MEMIO_8_NOPERM then Some 1%nat else None.
Definition port_in (bits port : Z) (val : Z) (s : S) : Z * S :=
  if bits =? X86EMU_MEMIO_8 then inb port s else if bits =? X86EMU_MEMIO_16 then inw port s
  else if bits =? X86EMU_MEMIO_32 then ind port s else (val, s).
Definition port_out (bits port val : Z) (s : S) : S :=
  if bits =? X86EMU_MEMIO_8 then outb port (u8 val) s else if bits =? X86EMU_MEMIO_16 then outw port (u16 val) s
  else if bits =? X86EMU_MEMIO_32 then outd port val s else s.
(** The value that is left in [*val]. *)
Definition memio_handler (addr val type : Z) (v : state) : outcome (Z * state) :=
  let bits := Z.land type 0xFF in
  let type := Z.land type (not32 0xFF) in
  if (type =? X86EMU_MEMIO_X) || (type =? X86EMU_MEMIO_R) then
    match mem_size bits with Some n => mem_read n addr v | None => Ok (val, v) end
  else if type =? X86EMU_MEMIO_W then
    match mem_size bits with Some n => v ← mem_write n addr val v; Ok (val, v) | None => Ok (val, v) end
  else if type =? X86EMU_MEMIO_I then let '(val, s) := port_in bits (u16 addr) val (host v) in Ok (val, put_host s v)
  else if type =? X86EMU_MEMIO_O then Ok (val, put_host (port_out bits (u16 addr) val (host v)) v)
  else Ok (val, v).

(** [x86emu_run]: the emulator calls the handler until it halts. *)
Fixpoint x86emu_run (fuel : nat) (v : state) : outcome state :=
  match emu_next (emu v) with
  | None => Ok v
  | Some (addr, val, type) =>
    match fuel with
    | O => Fault OutOfFuel
    | Datatypes.S fuel =>
      '(val, v) ← memio_handler addr val type v;
      x86emu_run fuel (put_emu (emu_answer val (emu v)) v)
    end
  end.
Definition int10h_start (fuel : nat) (ax bx cx dx es di : Z) (v : state) : outcome state :=
  let v := put_host (store_bytes (virtual_bootsector v) [0x90; 0xF4] (host v)) v in
  x86emu_run fuel (put_emu (emu_raise (mk_x86 0 (virtual_stack_end / 0x10) es 0x7C00 ax bx cx dx di) 0x10 (emu v)) v).
Definition int10h (fuel : nat) (ax bx cx dx es di : Z) (v : state) : outcome (Z * state) :=
  v ← int10h_start fuel ax bx cx dx es di v; Ok (emu_ax (emu v), v).

(** ** The modes.  The information blocks of the BIOS are in the boot sector's buffer. *)
Definition block_at (v : state) : Z := virtual_bootsector v + 0x200.
Definition block_location : Z := low_page_begin + 0x200.
Definition block : far_ptr := mk_far (u16 (block_location mod 0x10)) (u16 (block_location / 0x10)).
Definition sizeof_vesa_info_block : nat := 20.
Definition sizeof_vesa_mode_info : nat := 256.
Definition far_at (l : list Z) (off : Z) : far_ptr := mk_far (field_at l off 2) (field_at l (off + 2) 2).

Record vesa_info_block := mk_info_block { vesa_sig : list Z; oem_string_ptr : far_ptr; video_mode_ptr : far_ptr }.
Definition info_block_of (l : list Z) : vesa_info_block := mk_info_block (take 4 l) (far_at l 6) (far_at l 14).
Record vesa_mode_info := mk_mode_info {
  attributes : Z; segment_a : Z; pitch : Z; mi_width : Z; mi_height : Z; bpp : Z; memory_model : Z; image_pages : Z;
  red_mask : Z; red_position : Z; green_mask : Z; green_position : Z; blue_mask : Z; blue_position : Z; reserved_mask : Z; reserved_position : Z;
  framebuffer : Z }.
Definition mode_info_of (l : list Z) : vesa_mode_info :=
  mk_mode_info (field_at l 0 2) (field_at l 8 2) (field_at l 16 2) (field_at l 18 2) (field_at l 20 2) (field_at l 25 1) (field_at l 27 1)
    (field_at l 29 1) (field_at l 31 1) (field_at l 32 1) (field_at l 33 1) (field_at l 34 1) (field_at l 35 1) (field_at l 36 1)
    (field_at l 37 1) (field_at l 38 1) (field_at l 40 4).
Definition TEXT : Z := 0x00.
Definition PACKED : Z := 0x04.
Definition DIRECT_COLOR : Z := 0x06.

Definition is_text (i : vesa_mode_info) : bool := memory_model i =? TEXT.
Definition mode_usable (i : vesa_mode_info) : bool :=
  negb (mi_width i =? 0) &&
  (is_text i || ((Z.land (attributes i) 0x80 =? 0x80) && ((memory_model i =? PACKED) || (memory_model i =? DIRECT_COLOR)))).
Definition display_mode_of (i : vesa_mode_info) : display_mode :=
  mk_mode (mi_width i) (mi_height i) (pitch i) 60 (bpp i)
    (if is_text i then FORMAT_TEXT_W_ATTRIBUTE
     else vesa_format_from_masks (bpp i) (field_mask (red_mask i) (red_position i)) (field_mask (green_mask i) (green_position i))
            (field_mask (blue_mask i) (blue_position i)) (field_mask (reserved_mask i) (reserved_position i)))
    (if is_text i then DISPLAY_TEXT_MODE else DISPLAY_RGB)
    (mul32 (mul32 (mi_height i) (pitch i)) (image_pages i + 1)).
Definition frame_buffer_of (i : vesa_mode_info) : Z :=
  if negb (framebuffer i =? 0) then framebuffer i else access (mk_far 0 (segment_a i)).

Fixpoint read_mode_numbers (n : nat) (a : Z) (s : S) : outcome (list Z) :=
  match n with
  | O => Fault OutOfFuel
  | Datatypes.S n =>
    let m := le_value (load_bytes 2 a s) in
    if m =? 0xFFFF then Ok [] else l ← read_mode_numbers n (a + 2) s; Ok (m :: l)
  end.

Definition add_mode (fuel : nat) (mode : Z) (v : state) : outcome state :=
  let v := put_host (store_bytes (block_at v) (repeat 0 sizeof_vesa_mode_info) (host v)) v in
  '(ax, v) ← int10h fuel 0x4F01 0 mode 0 (segment block) (offset block) v;
  if negb (ax =? 0x4f) then Ok v else
  let i := mode_info_of (load_bytes sizeof_vesa_mode_info (block_at v) (host v)) in
  Ok (if mode_usable i then push_mode (display_mode_of i) (mk_vesa_mode (frame_buffer_of i) mode true) v else v).
Fixpoint add_modes (fuel : nat) (modes : list Z) (v : state) : outcome state :=
  match modes with [] => Ok v | mode :: modes => v ← add_mode fuel mode v; add_modes fuel modes v end.

Definition fallback_mode : display_mode := mk_mode 80 25 80 70 16 FORMAT_TEXT_W_ATTRIBUTE DISPLAY_TEXT_MODE (25 * 80).
Definition VBE2 : list Z := [86; 66; 69; 50].
Definition VESA : list Z := [86; 69; 83; 65].
Definition vesa_populate_modes (fuel : nat) (v : state) : outcome (bool * state) :=
  let v := put_host (store_bytes (block_at v) VBE2 (store_bytes (block_at v) (repeat 0 sizeof_vesa_info_block) (host v))) v in
  '(ax, v) ← int10h fuel 0x4f00 0 0 0 (segment block) (offset block) v;
  if negb (ax =? 0x4f) then Ok (false, v) else
  let vesa_info := info_block_of (load_bytes sizeof_vesa_info_block (block_at v) (host v)) in
  if negb (bool_decide (vesa_sig vesa_info = VESA)) then Ok (false, v) else
  '(_, v) ← translate_virtual_far_ptr (oem_string_ptr vesa_info) v;
  '(mode_array, v) ← translate_virtual_far_ptr (video_mode_ptr vesa_info) v;
  modes ← read_mode_numbers fuel mode_array (host v);
  v ← add_modes fuel modes v;
  Ok (true, push_mode fallback_mode (mk_vesa_mode 0xB8000 0x03 false) v).

Definition vesa_do_mode_switch (fuel : nat) (mode_num : Z) (vesa : bool) (v : state) : outcome (bool * state) :=
  if vesa then '(_, v) ← int10h fuel 0x4F02 mode_num 0 0 0 0 v; Ok (true, v)
  else '(_, v) ← int10h fuel mode_num 0 0 0 0 0 v; '(_, v) ← int10h fuel 0x0100 0 0x2607 0 0 0 v; Ok (true, v).
Definition vesa_set_mode (fuel : nat) (index : Z) (v : state) : outcome (bool * state) :=
  m ← fetch (vesa_modes v) index;
  '(ok, v) ← vesa_do_mode_switch fuel (u16 (vm_index m)) (is_vesa m) v;
  Ok (if ok : bool then (true, set_current_mode_index (s32 index) v) else (false, v)).
Definition vesa_get_framebuffer (v : state) : Z * state :=
  if negb (current_mode_index v =? -1) then
    match vesa_modes v !! Z.to_nat (u32 (current_mode_index v)) with Some m => (fb_addr m, v) | None => (0, v) end
  else (0, v).

(** ** Scrolling, by the BIOS or by the function it has for protected mode *)
Definition vesa_set_diplay_offset (fuel : nat) (off : Z) (on_retrace : bool) (v : state) : outcome state :=
  let bl := if on_retrace then 0x80 else 0x00 in
  mode ← fetch (v_modes v) (u32 (current_mode_index v));
  match vesa_pm_interface v with
  | None =>
    let bytes_pp := dm_bpp mode / 8 in
    _ ← k_assert (negb (bytes_pp =? 0));
    let pixel_offset := off / bytes_pp in
    let pixel_pitch := dm_pitch mode / bytes_pp in
    _ ← k_assert (negb (pixel_pitch =? 0));
    '(_, v) ← int10h fuel 0x4F07 bl (u16 (pixel_offset mod pixel_pitch)) (u16 (pixel_offset / pixel_pitch)) 0 0 v;
    Ok v
  | Some pm =>
    let func_ptr := add32 pm (le_value (load_bytes 2 (pm + 2) (host v))) in
    let off := if 8 <=? dm_bpp mode then off / 4 else off in
    Ok (put_host (call_far func_ptr 0x4F07 bl (Z.land off 0xFFFF) (u16 (Z.shiftr off 16)) (host v)) v)
  end.
Definition vesa_get_pm_interface (fuel : nat) (v : state) : outcome (bool * state) :=
  v ← int10h_start fuel 0x4f0A 0 0 0 0 0 v;
  if emu_ax (emu v) =? 0x4f then
    let table_size := emu_cx (emu v) in
    '(func_table, v) ← translate_virtual_far_ptr (mk_far (emu_di (emu v)) (emu_es (emu v))) v;
    let '(p, s) := new_bytes table_size (host v) in
    let s := store_bytes p (load_bytes (Z.to_nat table_size) func_table s) s in
    Ok (true, set_pm_interface (Some p) (put_host s v))
  else Ok (false, v).

(** ** The driver.  The cursor is not supported. *)
Definition vesa_driver (fuel : nat) (modes : list display_mode) : display_driver state :=
  mk_driver state (vesa_set_mode fuel) vesa_get_framebuffer (vesa_set_diplay_offset fuel)
    (fun v => (0, v)) (fun _ v => v) (fun _ v => v) modes.

Definition vesa_start (s : S) (e : E) : outcome state :=
  let '(bootsector, s) := new_bytes (low_page_end - low_page_begin) s in
  let '(stack, s) := new_bytes (virtual_stack_end - virtual_stack_begin) s in
  cache ← hash_map_new 16;
  Ok (mk_vesa s e bootsector stack [] [] cache (-1) [] [] None).
(** What was made is given back when there is no VESA BIOS. *)
Definition vesa_give_up (v : state) : state :=
  let s := delete_bytes (virtual_bootsector v) (delete_bytes (virtual_stack v) (host v)) in
  let s := fold_left (fun s page => memmanager_unmap_pages page 1 s) (pages_mapped v) s in
  let s := fold_left (fun s page => memmanager_free_pages page 1 s) (pages_allocated v) s in
  put_host s v.
(** [drv] is the address of the driver, [e] the new emulator. *)
Definition vesa_init {M : display_machine state} (drivers : Z -> option (display_driver state)) (fuel : nat) (active : bool) (drv : Z)
    (e : E) (d : display_state state) : outcome (display_state state) :=
  v ← vesa_start (host (machine d)) e;
  '(ok, v) ← vesa_populate_modes fuel v;
  if negb ok then Ok (set_machine (vesa_give_up v) d) else
  '(_, v) ← vesa_get_pm_interface fuel v;
  display_add_driver (fun a => if a =? drv then Some (vesa_driver fuel (v_modes v)) else drivers a) active drv true (set_machine v d).
End vesa_driver.
