(* ===== verification/ByteView.v ===== *)
(** * Memory as a function of its addresses

    Storing bytes one after the other into a memory that is a function, and reading
    little-endian fields back.  The drivers whose device reads the memory share this. *)
From S2P Require Import Prelude BlockStore.

Definition upd (f : Z -> Z) (a : Z) (l : list Z) (x : Z) : Z :=
  if (a <=? x) && (x <? a + Z.of_nat (length l)) then nth (Z.to_nat (x - a)) l 0 else f x.
Definition get (n : nat) (f : Z -> Z) (a : Z) : Z := le_value (map f (seqZ a (Z.of_nat n))).

Lemma upd_nil f a x : upd f a [] x = f x.
Proof. unfold upd. cbn [length]. destruct (Z.leb_spec a x), (Z.ltb_spec x (a + Z.of_nat 0)); cbn [andb]; [lia|reflexivity..]. Qed.
Lemma upd_cons f a b l x : upd f a (b :: l) x = upd (fun y => if y =? a then b else f y) (a + 1) l x.
Proof.
  unfold upd. cbn [length]. rewrite Nat2Z.inj_succ. destruct (Z.eqb_spec x a) as [->|Hne].
  - rewrite Z.leb_refl, (proj2 (Z.ltb_lt _ _)), (proj2 (Z.leb_gt (a + 1) a)) by lia. now rewrite Z.sub_diag.
  - destruct (Z.leb_spec a x), (Z.leb_spec (a + 1) x); [|lia|lia|reflexivity].
    replace (a + 1 + Z.of_nat (length l)) with (a + Z.succ (Z.of_nat (length l))) by lia. destruct (x <? _); cbn [andb]; [|reflexivity].
    replace (Z.to_nat (x - a)) with (Datatypes.S (Z.to_nat (x - (a + 1)))) by lia. reflexivity.
Qed.
Lemma upd_ext f g a l x : (forall y, f y = g y) -> upd f a l x = upd g a l x.
Proof. intros H. unfold upd. now rewrite H. Qed.
Lemma upd_same f a l : map (upd f a l) (seqZ a (Z.of_nat (length l))) = l.
Proof.
  apply list_eq. intros i. rewrite list_lookup_fmap. destruct (decide (i < length l)%nat) as [Hi|Hi].
  - rewrite lookup_seqZ_lt by lia. cbn. unfold upd. rewrite (proj2 (Z.leb_le _ _)), (proj2 (Z.ltb_lt _ _)) by lia. cbn [andb].
    replace (Z.to_nat (a + Z.of_nat i - a)) with i by lia.
    destruct (lookup_lt_is_Some_2 l i Hi) as [x Ex]. now rewrite (nth_lookup_Some _ _ _ _ Ex), Ex.
  - rewrite lookup_seqZ_ge by lia. symmetry. apply lookup_ge_None. lia.
Qed.
Lemma upd_other f a l x n : x + n <= a \/ a + Z.of_nat (length l) <= x -> map (upd f a l) (seqZ x n) = map f (seqZ x n).
Proof.
  intros H. apply map_ext_in. intros y Hy. apply list_elem_of_In, elem_of_seqZ in Hy. unfold upd.
  destruct (Z.leb_spec a y), (Z.ltb_spec y (a + Z.of_nat (length l))); cbn [andb]; [lia|reflexivity..].
Qed.
Lemma upd_outside f a l x : x < a \/ a + Z.of_nat (length l) <= x -> upd f a l x = f x.
Proof. intros H. unfold upd. destruct (Z.leb_spec a x), (Z.ltb_spec x (a + Z.of_nat (length l))); cbn [andb]; [lia|reflexivity..]. Qed.

(** ** Fields *)
Lemma get_ext n f g a : (forall x, f x = g x) -> get n f a = get n g a.
Proof. intros H. unfold get. f_equal. apply map_ext. exact H. Qed.
Lemma get_other n f a l x : x + Z.of_nat n <= a \/ a + Z.of_nat (length l) <= x -> get n (upd f a l) x = get n f x.
Proof. intros H. unfold get. now rewrite upd_other. Qed.
Lemma le_value_mod n : forall v, le_value (le_bytes n v) = v mod 256 ^ Z.of_nat n.
Proof.
  induction n as [|n IH]; intros v; [symmetry; apply Z.mod_1_r|]. cbn [le_bytes le_value]. rewrite IH.
  rewrite Nat2Z.inj_succ, Z.pow_succ_r by lia. assert (0 < 256 ^ Z.of_nat n) by (apply Z.pow_pos_nonneg; lia).
  rewrite Z.rem_mul_r by lia. lia.
Qed.
Lemma get_stored n f a v : get n (upd f a (le_bytes n v)) a = v mod 256 ^ Z.of_nat n.
Proof. unfold get. pose proof (upd_same f a (le_bytes n v)) as H. rewrite le_bytes_length in H. rewrite H. apply le_value_mod. Qed.
Lemma get_zero n f a x m : a <= x -> x + Z.of_nat n <= a + Z.of_nat m -> get n (upd f a (repeat 0 m)) x = 0.
Proof.
  intros H1 H2. unfold get. enough (E : map (upd f a (repeat 0 m)) (seqZ x (Z.of_nat n)) = repeat 0 n) by (rewrite E; clear; induction n; cbn [repeat le_value]; lia).
  apply list_eq. intros i. rewrite list_lookup_fmap. destruct (decide (i < n)%nat) as [Hi|Hi].
  - rewrite lookup_seqZ_lt by lia. cbn. rewrite lookup_repeat by lia. unfold upd. rewrite repeat_length, (proj2 (Z.leb_le _ _)), (proj2 (Z.ltb_lt _ _)) by lia.
    cbn [andb]. now rewrite nth_repeat.
  - rewrite lookup_seqZ_ge by lia. symmetry. apply lookup_ge_None. rewrite repeat_length. lia.
Qed.
(** Two fields that are next to each other. *)
Lemma get_app n m f a : get (n + m) f a = get n f a + 256 ^ Z.of_nat n * get m f (a + Z.of_nat n).
Proof.
  unfold get. rewrite Nat2Z.inj_add, seqZ_app by lia. rewrite map_app. generalize (map f (seqZ (a + Z.of_nat n) (Z.of_nat m))). intros r.
  assert (L : length (map f (seqZ a (Z.of_nat n))) = n) by (rewrite length_map, length_seqZ; lia). revert L.
  generalize (map f (seqZ a (Z.of_nat n))). intros l <-. induction l as [|b l IH]; [cbn; lia|]. cbn [app le_value length]. rewrite IH, Nat2Z.inj_succ, Z.pow_succ_r by lia. lia.
Qed.
Lemma get_one f a : get 1 f a = f a.
Proof. unfold get. change (Z.of_nat 1) with 1. rewrite seqZ_cons by lia. change (seqZ (Z.succ a) (Z.pred 1)) with (@nil Z). cbn [map le_value]. lia. Qed.
Lemma upd_map f a g x n i : 0 <= i < n -> upd f a (map g (seqZ x n)) (a + i) = g (x + i).
Proof.
  intros Hi. unfold upd. rewrite length_map, length_seqZ, (proj2 (Z.leb_le _ _)), (proj2 (Z.ltb_lt _ _)) by lia. cbn [andb].
  replace (Z.to_nat (a + i - a)) with (Z.to_nat i) by lia. apply nth_lookup_Some. rewrite list_lookup_fmap, lookup_seqZ_lt by lia. cbn. do 2 f_equal. lia.
Qed.
