(* ===== verification/VesaProofs.v ===== *)
(** * The BIOS of the card sees one flat memory, and the driver offers its modes

    The memory the emulator sees is put together from two buffers and from pages that are
    mapped when they are first used.  Against the laws of the machine, every run of the
    BIOS on a flat memory is a run through the driver.  A BIOS that answers as the standard
    says then leaves exactly the modes with a linear frame buffer and the text modes. *)
From stdpp Require Import gmap.
From S2P Require Import Prelude Paging Terminal Ports Hash BlockStore ByteView Display Vga Vesa.

(** ** Formats.  The size and the place of a channel are what its mask says. *)
Fixpoint trailing (n : nat) (m : Z) : Z := match n with O => 0 | Datatypes.S n => if Z.odd m then 0 else 1 + trailing n (m / 2) end.
Fixpoint ones_in (n : nat) (m : Z) : Z := match n with O => 0 | Datatypes.S n => m mod 2 + ones_in n (m / 2) end.
Definition mask_fields (m : Z) : Z * Z := if m =? 0 then (0, 0) else (ones_in 32 m, trailing 32 m).
Definition field_ok (c : Z * Z) : Prop := 0 < c.1 /\ 0 <= c.2 /\ c.1 + c.2 <= 32.
Definition field_oks : list (Z * Z) := (p ← seqZ 0 33; s ← seqZ 1 (32 - p); [(s, p)])%list.

Lemma field_oks_all c : field_ok c -> c ∈ field_oks.
Proof.
  intros (H1 & H2 & H3). unfold field_oks. apply list_elem_of_bind. exists c.2. split; [|apply elem_of_seqZ; lia].
  apply list_elem_of_bind. exists c.1. split; [destruct c; left|apply elem_of_seqZ; lia].
Qed.
Lemma field_mask_fields c : field_ok c -> mask_fields (field_mask c.1 c.2) = c.
Proof.
  intros H. assert (A : forallb (fun c => bool_decide (mask_fields (field_mask c.1 c.2) = c)) field_oks = true) by (vm_compute; reflexivity).
  rewrite forallb_forall in A. exact (bool_decide_eq_true_1 _ (A c (proj1 (list_elem_of_In _ _) (field_oks_all c H)))).
Qed.
(** A channel of no bits has no mask, wherever it is. *)
Lemma field_mask_empty p : field_mask 0 p = 0.
Proof. unfold field_mask, shl32. change (gen_mask 0) with 0. rewrite Z.shiftl_0_l. reflexivity. Qed.

(** Size and place of red, green, blue and alpha in the formats, as their names say. *)
Definition format_layout (f : Z) : list (Z * Z) :=
  if f =? FORMAT_RGB332 then [(3, 5); (3, 2); (2, 0); (0, 0)]
  else if f =? FORMAT_RGB444 then [(4, 8); (4, 4); (4, 0); (0, 0)] else if f =? FORMAT_BGR444 then [(4, 0); (4, 4); (4, 8); (0, 0)]
  else if f =? FORMAT_RGB555 then [(5, 10); (5, 5); (5, 0); (0, 0)] else if f =? FORMAT_BGR555 then [(5, 0); (5, 5); (5, 10); (0, 0)]
  else if f =? FORMAT_ARGB4444 then [(4, 8); (4, 4); (4, 0); (4, 12)] else if f =? FORMAT_RGBA4444 then [(4, 12); (4, 8); (4, 4); (4, 0)]
  else if f =? FORMAT_ABGR4444 then [(4, 0); (4, 4); (4, 8); (4, 12)] else if f =? FORMAT_BGRA4444 then [(4, 4); (4, 8); (4, 12); (4, 0)]
  else if f =? FORMAT_ARGB1555 then [(5, 10); (5, 5); (5, 0); (1, 15)] else if f =? FORMAT_RGBA5551 then [(5, 11); (5, 6); (5, 1); (1, 0)]
  else if f =? FORMAT_ABGR1555 then [(5, 0); (5, 5); (5, 10); (1, 15)] else if f =? FORMAT_BGRA5551 then [(5, 1); (5, 6); (5, 11); (1, 0)]
  else if f =? FORMAT_RGB565 then [(5, 11); (6, 5); (5, 0); (0, 0)] else if f =? FORMAT_BGR565 then [(5, 0); (6, 5); (5, 11); (0, 0)]
  else if f =? FORMAT_RGB888 then [(8, 16); (8, 8); (8, 0); (0, 0)] else if f =? FORMAT_RGBX8888 then [(8, 24); (8, 16); (8, 8); (0, 0)]
  else if f =? FORMAT_BGR888 then [(8, 0); (8, 8); (8, 16); (0, 0)] else if f =? FORMAT_BGRX8888 then [(8, 8); (8, 16); (8, 24); (0, 0)]
  else if f =? FORMAT_ARGB8888 then [(8, 16); (8, 8); (8, 0); (8, 24)] else if f =? FORMAT_RGBA8888 then [(8, 24); (8, 16); (8, 8); (8, 0)]
  else if f =? FORMAT_ABGR8888 then [(8, 0); (8, 8); (8, 16); (8, 24)] else if f =? FORMAT_BGRA8888 then [(8, 8); (8, 16); (8, 24); (8, 0)]
  else if f =? FORMAT_ARGB2101010 then [(10, 20); (10, 10); (10, 0); (2, 30)] else [].
(** The one entry that is not as its name says. *)
Definition odd_565 : list (Z * Z) := [(6, 0); (5, 6); (5, 11); (0, 0)].
Definition row_ok (row : (Z * Z * Z * Z) * Z) : bool :=
  let '((r, g, b, a), f) := row in
  let l := map mask_fields [r; g; b; a] in bool_decide (l = format_layout f) || bool_decide (l = odd_565 /\ f = FORMAT_RGB565).

Lemma first_format_row t r g b a : first_format t r g b a = FORMAT_DONT_CARE \/ ((r, g, b, a), first_format t r g b a) ∈ t.
Proof.
  unfold first_format. destruct (list_find _ t) as [[i [m f]]|] eqn:El; [right|left; reflexivity].
  apply list_find_Some in El as (Hi & Hm & _). apply list_elem_of_lookup_2 in Hi. destruct m as [[[r' g'] b'] a']. cbn [fst snd masks_are] in *.
  apply andb_prop in Hm as [Hm ->%Z.eqb_eq]. apply andb_prop in Hm as [Hm ->%Z.eqb_eq]. apply andb_prop in Hm as [->%Z.eqb_eq ->%Z.eqb_eq]. exact Hi.
Qed.
Lemma table_ok t r g b a : forallb row_ok t = true -> first_format t r g b a <> FORMAT_DONT_CARE ->
  map mask_fields [r; g; b; a] = format_layout (first_format t r g b a) \/ (map mask_fields [r; g; b; a] = odd_565 /\ first_format t r g b a = FORMAT_RGB565).
Proof.
  intros Ht Hf. destruct (first_format_row t r g b a) as [Hd|Hin]; [contradiction|]. rewrite forallb_forall in Ht.
  apply list_elem_of_In in Hin. specialize (Ht _ Hin). cbn [row_ok] in Ht. apply orb_prop in Ht as [H|H]; apply bool_decide_eq_true in H; [left|right]; exact H.
Qed.

(** The format of a mode whose colours have bits describes its pixels, with one exception. *)
Theorem format_describes bpp r g b a : bpp ∈ [8; 12; 15; 16; 32] -> field_ok r -> field_ok g -> field_ok b -> a = (0, 0) \/ field_ok a ->
  let f := vesa_format_from_masks bpp (field_mask r.1 r.2) (field_mask g.1 g.2) (field_mask b.1 b.2) (field_mask a.1 a.2) in
  f = FORMAT_DONT_CARE \/ format_layout f = [r; g; b; a] \/ ([r; g; b; a] = odd_565 /\ f = FORMAT_RGB565).
Proof.
  intros Hb Hr Hg Hbl Ha f. assert (Rn : field_mask r.1 r.2 <> 0).
  { intros E0. pose proof (field_mask_fields r Hr) as E1. rewrite E0 in E1. subst r. destruct Hr as [Hr _]. cbn in Hr. lia. }
  assert (Hm : map mask_fields [field_mask r.1 r.2; field_mask g.1 g.2; field_mask b.1 b.2; field_mask a.1 a.2] = [r; g; b; a]).
  { cbn [map]. rewrite !field_mask_fields by assumption. destruct Ha as [->|Ha]; [now rewrite field_mask_empty|now rewrite field_mask_fields]. }
  assert (Hf : exists t, forallb row_ok t = true /\ f = first_format t (field_mask r.1 r.2) (field_mask g.1 g.2) (field_mask b.1 b.2) (field_mask a.1 a.2)).
  { subst f. unfold vesa_format_from_masks. rewrite (proj2 (Z.eqb_neq _ _) Rn).
    repeat (apply elem_of_cons in Hb as [->|Hb]); [exists formats_8|exists formats_12|exists formats_16|exists formats_16|exists formats_32|inversion Hb]; (split; [vm_compute; reflexivity|reflexivity]). }
  destruct Hf as (t & Ht & ->). destruct (decide (first_format t (field_mask r.1 r.2) (field_mask g.1 g.2) (field_mask b.1 b.2) (field_mask a.1 a.2) = FORMAT_DONT_CARE)) as [E0|E0]; [left; exact E0|right].
  pose proof (table_ok t _ _ _ _ Ht E0) as H. rewrite Hm in H. destruct H as [H|H]; [left; symmetry; exact H|right; exact H].
Qed.

(** ** What the standard says of a mode's block, by its bytes *)
Definition vbe_byte (l : list Z) (i : nat) : Z := nth i l 0.
Definition vbe_word (l : list Z) (i : nat) : Z := vbe_byte l i + 256 * vbe_byte l (i + 1).
Definition vbe_dword (l : list Z) (i : nat) : Z := vbe_word l i + 65536 * vbe_word l (i + 2).
(** A colour: the number of its bits at [i], the place of the lowest one behind. *)
Definition vbe_colour (l : list Z) (i : nat) : Z * Z := if vbe_byte l i =? 0 then (0, 0) else (vbe_byte l i, vbe_byte l (i + 1)).
Record vbe_block (l : list Z) : Prop := {
  vb_length : length l = sizeof_vesa_mode_info;
  vb_bytes : Forall (fun b => 0 <= b < 256) l;
  vb_colours : Forall (fun i => vbe_byte l i + vbe_byte l (i + 1) <= 32) [31; 33; 35; 37]%nat }.

(** Offered: there is a width, and the mode is one of text, or it has a linear frame buffer
    (bit 7 of the attributes) and packed pixels or direct colours. *)
Definition vbe_text (l : list Z) : bool := vbe_byte l 27 =? 0.
Definition vbe_linear (l : list Z) : bool := Z.testbit (vbe_byte l 0) 7.
Definition vbe_offered (l : list Z) : bool :=
  (0 <? vbe_word l 18) && (vbe_text l || (vbe_linear l && ((vbe_byte l 27 =? 4) || (vbe_byte l 27 =? 6)))).

(** The formats that are looked for, with the places of their colours. *)
Definition formats_of (bpp : Z) : list Z :=
  if bpp =? 8 then [FORMAT_RGB332] else if bpp =? 12 then [FORMAT_RGB444; FORMAT_BGR444]
  else if (bpp =? 15) || (bpp =? 16) then [FORMAT_RGB555; FORMAT_BGR555; FORMAT_ARGB4444; FORMAT_RGBA4444; FORMAT_ABGR4444; FORMAT_BGRA4444;
    FORMAT_ARGB1555; FORMAT_RGBA5551; FORMAT_ABGR1555; FORMAT_BGRA5551; FORMAT_RGB565; FORMAT_BGR565]
  else if (bpp =? 24) || (bpp =? 32) then [FORMAT_RGB888; FORMAT_RGBX8888; FORMAT_BGR888; FORMAT_BGRX8888; FORMAT_ARGB8888; FORMAT_RGBA8888;
    FORMAT_ABGR8888; FORMAT_BGRA8888; FORMAT_ARGB2101010]
  else [].
Definition layouts (bpp : Z) : list (list (Z * Z) * Z) :=
  map (fun f => (format_layout f, f)) (formats_of bpp) ++ (if (bpp =? 15) || (bpp =? 16) then [(odd_565, FORMAT_RGB565)] else []).
Definition find_layout (cs : list (Z * Z)) (ls : list (list (Z * Z) * Z)) : Z :=
  match list_find (fun r => r.1 = cs) ls with Some (_, r) => r.2 | None => FORMAT_DONT_CARE end.
(** Without red, the format the number of bits usually has. *)
Definition usual_format (bpp : Z) : Z :=
  if bpp =? 8 then FORMAT_INDEXED_LINEAR else if bpp =? 12 then FORMAT_RGB444 else if bpp =? 15 then FORMAT_RGB555
  else if bpp =? 16 then FORMAT_RGB565 else if bpp =? 24 then FORMAT_BGR24 else if bpp =? 32 then FORMAT_RGB888 else FORMAT_DONT_CARE.
Definition colour_format (bpp : Z) (red green blue alpha : Z * Z) : Z :=
  if bpp =? 1 then FORMAT_GRAYSCALE else if bpp =? 4 then FORMAT_INDEXED_BIT_PLANE
  else if red.1 =? 0 then usual_format bpp
  else if (bpp =? 24) && bool_decide (red = (8, 16)) then FORMAT_BGR24
  else if (bpp =? 24) && bool_decide (red = (8, 0)) then FORMAT_RGB24
  else find_layout [red; green; blue; alpha] (layouts bpp).
Definition vbe_mode (l : list Z) : display_mode :=
  mk_mode (vbe_word l 18) (vbe_word l 20) (vbe_word l 16) 60 (vbe_byte l 25)
    (if vbe_text l then FORMAT_TEXT_W_ATTRIBUTE
     else colour_format (vbe_byte l 25) (vbe_colour l 31) (vbe_colour l 33) (vbe_colour l 35) (vbe_colour l 37))
    (if vbe_text l then DISPLAY_TEXT_MODE else DISPLAY_RGB)
    (vbe_word l 20 * vbe_word l 16 * (vbe_byte l 29 + 1) mod 2 ^ 32).
(** Where there is no linear frame buffer, the first segment of the window. *)
Definition vbe_frame_buffer (l : list Z) : Z := if vbe_dword l 40 =? 0 then vbe_word l 8 * 16 else vbe_dword l 40.

Lemma block_byte l i : (i < length l)%nat -> field_at l (Z.of_nat i) 1 = vbe_byte l i.
Proof.
  intros H. unfold field_at, vbe_byte. rewrite Nat2Z.id. destruct (lookup_lt_is_Some_2 l i H) as [x Hx].
  rewrite (drop_S l x i Hx), (nth_lookup_Some l i 0 x Hx). cbn [take firstn le_value]. rewrite take_0. cbn [le_value]. lia.
Qed.
Lemma block_more l i n : (i < length l)%nat -> field_at l (Z.of_nat i) (S n) = vbe_byte l i + 256 * field_at l (Z.of_nat (i + 1)) n.
Proof.
  intros H. unfold field_at, vbe_byte. rewrite !Nat2Z.id. destruct (lookup_lt_is_Some_2 l i H) as [x Hx].
  rewrite (drop_S l x i Hx), (nth_lookup_Some l i 0 x Hx), Nat.add_1_r. reflexivity.
Qed.
Lemma block_word l i : (i + 1 < length l)%nat -> field_at l (Z.of_nat i) 2 = vbe_word l i.
Proof. intros H. rewrite block_more, block_byte by lia. reflexivity. Qed.
Lemma block_dword l i : (i + 3 < length l)%nat -> field_at l (Z.of_nat i) 4 = vbe_dword l i.
Proof.
  intros H. rewrite (block_more l i 3), (block_more l (i + 1) 2), (block_more l (i + 1 + 1) 1), block_byte by lia. unfold vbe_dword, vbe_word. replace (i + 1 + 1)%nat with (i + 2)%nat by lia. lia.
Qed.
Lemma vbe_byte_range l i : Forall (fun b => 0 <= b < 256) l -> 0 <= vbe_byte l i < 256.
Proof.
  intros H. unfold vbe_byte. destruct (nth_in_or_default i l 0) as [Hi| ->]; [|lia]. apply (proj1 (Forall_forall _ _) H), list_elem_of_In, Hi.
Qed.

(** *** The masks and the places say the same of a colour. *)
Definition colour_ok (c : Z * Z) : Prop := c = (0, 0) \/ field_ok c.
Definition colour_mask (c : Z * Z) : Z := field_mask c.1 c.2.
Lemma colour_mask_fields c : colour_ok c -> mask_fields (colour_mask c) = c.
Proof. intros [->|H]; [reflexivity|exact (field_mask_fields c H)]. Qed.
Lemma colour_mask_0 c : colour_ok c -> (colour_mask c =? 0) = (c.1 =? 0).
Proof.
  intros H. pose proof (colour_mask_fields c H) as E0. destruct (Z.eqb_spec (colour_mask c) 0) as [E1|E1], (Z.eqb_spec c.1 0) as [E2|E2]; try reflexivity.
  - rewrite E1 in E0. subst c. now destruct E2.
  - destruct H as [->|[H _]]; [now destruct E1|lia].
Qed.
Definition row_masks (row : (Z * Z * Z * Z) * Z) : list Z := let '(r, g, b, a) := row.1 in [r; g; b; a].
Definition row_layout (row : (Z * Z * Z * Z) * Z) : list (Z * Z) * Z := (map mask_fields (row_masks row), row.2).
Lemma colour_mask_iff m c : colour_ok c -> colour_mask (mask_fields m) = m -> colour_mask c = m <-> mask_fields m = c.
Proof. intros Hc Hm. split; [intros <-; exact (colour_mask_fields c Hc)|intros <-; exact Hm]. Qed.
Lemma masks_are_layout row r g b a : colour_ok r -> colour_ok g -> colour_ok b -> colour_ok a ->
  Forall (fun m => colour_mask (mask_fields m) = m) (row_masks row) ->
  masks_are row.1 (colour_mask r) (colour_mask g) (colour_mask b) (colour_mask a) = true <-> (row_layout row).1 = [r; g; b; a].
Proof.
  destruct row as [[[[r' g'] b'] a'] f]. intros Hr Hg Hb Ha Hm. cbn in Hm |- *. rewrite !Forall_cons in Hm. destruct Hm as (Mr & Mg & Mb & Ma & _).
  rewrite !andb_true_iff, !Z.eqb_eq, (colour_mask_iff _ _ Hr Mr), (colour_mask_iff _ _ Hg Mg), (colour_mask_iff _ _ Hb Mb), (colour_mask_iff _ _ Ha Ma).
  split; [intros [[[-> ->] ->] ->]; reflexivity|intros [= -> -> -> ->]; auto].
Qed.
Lemma first_format_layout t r g b a : colour_ok r -> colour_ok g -> colour_ok b -> colour_ok a ->
  Forall (fun row => Forall (fun m => colour_mask (mask_fields m) = m) (row_masks row)) t ->
  first_format t (colour_mask r) (colour_mask g) (colour_mask b) (colour_mask a) = find_layout [r; g; b; a] (map row_layout t).
Proof.
  intros Hr Hg Hb Ha Ht. unfold first_format, find_layout. induction Ht as [|row t Hm _ IH]; [reflexivity|]. cbn [map list_find].
  pose proof (masks_are_layout row r g b a Hr Hg Hb Ha Hm) as Hi.
  destruct (decide (masks_are row.1 _ _ _ _ = true)) as [D|D], (decide ((row_layout row).1 = _)) as [D'|D']; try (exfalso; tauto); [reflexivity|].
  cbn. revert IH. destruct (list_find _ t) as [[i x]|], (list_find _ (map row_layout t)) as [[j y]|]; exact (fun H => H).
Qed.
Lemma formats_masks : forallb (fun row => forallb (fun m => colour_mask (mask_fields m) =? m) (row_masks row)) (formats_8 ++ formats_12 ++ formats_16 ++ formats_32) = true.
Proof. vm_compute. reflexivity. Qed.
Lemma formats_masks_in t : t ⊆ formats_8 ++ formats_12 ++ formats_16 ++ formats_32 -> Forall (fun row => Forall (fun m => colour_mask (mask_fields m) = m) (row_masks row)) t.
Proof.
  intros H. apply Forall_forall. intros row Hr. apply H in Hr. pose proof formats_masks as F. rewrite forallb_forall in F. apply list_elem_of_In, F in Hr.
  rewrite forallb_forall in Hr. apply Forall_forall. intros m Hm. apply Z.eqb_eq, Hr, list_elem_of_In, Hm.
Qed.

Lemma format_colours bpp r g b a : colour_ok r -> colour_ok g -> colour_ok b -> colour_ok a ->
  vesa_format_from_masks bpp (colour_mask r) (colour_mask g) (colour_mask b) (colour_mask a) = colour_format bpp r g b a.
Proof.
  intros Hr Hg Hb Ha. unfold vesa_format_from_masks, colour_format. rewrite (colour_mask_0 r Hr).
  assert (F : forall t, t ⊆ formats_8 ++ formats_12 ++ formats_16 ++ formats_32 ->
    first_format t (colour_mask r) (colour_mask g) (colour_mask b) (colour_mask a) = find_layout [r; g; b; a] (map row_layout t))
    by (intros t H; exact (first_format_layout t r g b a Hr Hg Hb Ha (formats_masks_in t H))).
  rewrite (F formats_8), (F formats_12), (F formats_16), (F formats_32) by (intros x; rewrite !elem_of_app; tauto). clear F.
  assert (R : forall m, colour_mask (mask_fields m) = m -> (colour_mask r =? m) = bool_decide (r = mask_fields m)).
  { intros m Hm. apply eq_true_iff_eq. rewrite Z.eqb_eq, bool_decide_eq_true, (colour_mask_iff m r Hr Hm). split; congruence. }
  rewrite (R 0x00FF0000 eq_refl), (R 0x000000FF eq_refl). clear R.
  replace (map row_layout formats_8) with (layouts 8) by (vm_compute; reflexivity). replace (map row_layout formats_12) with (layouts 12) by (vm_compute; reflexivity).
  replace (map row_layout formats_16) with (layouts 16) by (vm_compute; reflexivity). replace (map row_layout formats_32) with (layouts 32) by (vm_compute; reflexivity).
  change (mask_fields 0x00FF0000) with (8, 16). change (mask_fields 0x000000FF) with (8, 0).
  destruct (Z.eqb_spec bpp 1) as [->|N1]; [reflexivity|]. destruct (Z.eqb_spec bpp 4) as [->|N4]; [reflexivity|].
  destruct (Z.eqb_spec bpp 8) as [->|N8]; [reflexivity|]. destruct (Z.eqb_spec bpp 12) as [->|N12]; [reflexivity|].
  destruct (Z.eqb_spec bpp 15) as [->|N15]; [destruct (r.1 =? 0); reflexivity|]. destruct (Z.eqb_spec bpp 16) as [->|N16]; [reflexivity|].
  destruct (Z.eqb_spec bpp 24) as [->|N24]; [destruct (Z.eqb_spec r.1 0) as [E0|E0]; cbn [andb orb]|].
  - reflexivity.
  - destruct (bool_decide (r = (8, 16))), (bool_decide (r = (8, 0))); reflexivity.
  - cbn [andb orb]. unfold usual_format, layouts, formats_of. rewrite (proj2 (Z.eqb_neq _ _) N8), (proj2 (Z.eqb_neq _ _) N12), (proj2 (Z.eqb_neq _ _) N15), (proj2 (Z.eqb_neq _ _) N16), (proj2 (Z.eqb_neq _ _) N24). cbn [andb orb].
    destruct (Z.eqb_spec bpp 32) as [->|N32]; [reflexivity|]. destruct (r.1 =? 0); reflexivity.
Qed.

(** *** What the driver makes of a block is what the standard says. *)
Lemma land_pow2 x n : 0 <= n -> (Z.land x (2 ^ n) =? 2 ^ n) = Z.testbit x n.
Proof.
  intros Hn. assert (E0 : Z.land x (2 ^ n) = if Z.testbit x n then 2 ^ n else 0).
  { apply Z.bits_inj'. intros i Hi. rewrite Z.land_spec, Z.pow2_bits_eqb by lia. destruct (Z.eqb_spec n i) as [<-|Hd].
    - rewrite andb_true_r. destruct (Z.testbit x n) eqn:T; [now rewrite Z.pow2_bits_true|now rewrite Z.bits_0].
    - rewrite andb_false_r. destruct (Z.testbit x n); [now rewrite Z.pow2_bits_false|now rewrite Z.bits_0]. }
  rewrite E0. destruct (Z.testbit x n); [apply Z.eqb_refl|]. apply Z.eqb_neq. pose proof (Z.pow_pos_nonneg 2 n). lia.
Qed.
Section block.
Context (l : list Z) (B : vbe_block l).
#[local] Set Default Proof Using "All".
Lemma mode_info_bytes : mode_info_of l = mk_mode_info (vbe_word l 0) (vbe_word l 8) (vbe_word l 16) (vbe_word l 18) (vbe_word l 20) (vbe_byte l 25)
  (vbe_byte l 27) (vbe_byte l 29) (vbe_byte l 31) (vbe_byte l 32) (vbe_byte l 33) (vbe_byte l 34) (vbe_byte l 35) (vbe_byte l 36) (vbe_byte l 37)
  (vbe_byte l 38) (vbe_dword l 40).
Proof.
  assert (L : (100 < length l)%nat) by (rewrite (vb_length _ B); unfold sizeof_vesa_mode_info; lia). unfold mode_info_of. f_equal;
  match goal with
  | |- _ = vbe_byte _ ?i => exact (block_byte l i ltac:(lia)) | |- _ = vbe_word _ ?i => exact (block_word l i ltac:(lia)) | |- _ = vbe_dword _ ?i => exact (block_dword l i ltac:(lia))
  end.
Qed.
Lemma usable_offered : mode_usable (mode_info_of l) = vbe_offered l.
Proof.
  pose proof (vbe_byte_range l 0 (vb_bytes _ B)) as B0. pose proof (vbe_byte_range l 1 (vb_bytes _ B)) as B1.
  pose proof (vbe_byte_range l 18 (vb_bytes _ B)) as B18. pose proof (vbe_byte_range l 19 (vb_bytes _ B)) as B19.
  rewrite mode_info_bytes. unfold mode_usable, vbe_offered, is_text, vbe_text. cbn [mi_width memory_model attributes].
  replace (negb (vbe_word l 18 =? 0)) with (0 <? vbe_word l 18)
    by (unfold vbe_word; cbn [Nat.add]; destruct (Z.eqb_spec (vbe_byte l 18 + 256 * vbe_byte l 19) 0), (Z.ltb_spec 0 (vbe_byte l 18 + 256 * vbe_byte l 19)); lia || reflexivity).
  replace (Z.land (vbe_word l 0) 0x80 =? 0x80) with (vbe_linear l); [reflexivity|]. unfold vbe_linear, vbe_word. cbn [Nat.add].
  assert (T : Z.testbit (vbe_byte l 0 + 256 * vbe_byte l 1) 7 = Z.testbit (vbe_byte l 0) 7).
  { rewrite <- (Z.mod_pow2_bits_low (vbe_byte l 0 + 256 * vbe_byte l 1) 8 7) by lia. change (2 ^ 8) with 256.
    rewrite Z.mul_comm, Z_mod_plus_full, Z.mod_small by lia. reflexivity. }
  rewrite <- T. symmetry. exact (land_pow2 _ 7 ltac:(lia)).
Qed.
Lemma colour_of i : i ∈ [31; 33; 35; 37]%nat -> colour_ok (vbe_colour l i) /\ field_mask (vbe_byte l i) (vbe_byte l (i + 1)) = colour_mask (vbe_colour l i).
Proof.
  intros Hi. pose proof (vbe_byte_range l i (vb_bytes _ B)) as R1. pose proof (vbe_byte_range l (i + 1) (vb_bytes _ B)) as R2.
  pose proof (proj1 (Forall_forall _ _) (vb_colours _ B) i Hi) as Hc. cbv beta in Hc. unfold vbe_colour. destruct (Z.eqb_spec (vbe_byte l i) 0) as [E0|E0].
  - split; [left; reflexivity|]. rewrite E0. exact (field_mask_empty _).
  - split; [right; unfold field_ok; cbn [fst snd]; lia|reflexivity].
Qed.
Lemma display_mode_bytes : display_mode_of (mode_info_of l) = vbe_mode l.
Proof.
  rewrite mode_info_bytes. unfold display_mode_of, vbe_mode, is_text, vbe_text.
  cbn [mi_width mi_height pitch bpp memory_model image_pages red_mask red_position green_mask green_position blue_mask blue_position reserved_mask reserved_position].
  destruct (colour_of 31) as [O1 M1]; [set_solver|]. destruct (colour_of 33) as [O2 M2]; [set_solver|]. destruct (colour_of 35) as [O3 M3]; [set_solver|].
  destruct (colour_of 37) as [O4 M4]; [set_solver|]. cbn [Nat.add] in M1, M2, M3, M4. rewrite M1, M2, M3, M4, (format_colours _ _ _ _ _ O1 O2 O3 O4).
  f_equal. change TEXT with 0. unfold mul32, u32, wrap. rewrite Z.mul_mod_idemp_l by lia. reflexivity.
Qed.
Lemma frame_buffer_bytes : frame_buffer_of (mode_info_of l) = vbe_frame_buffer l.
Proof.
  rewrite mode_info_bytes. unfold frame_buffer_of, vbe_frame_buffer, access. cbn [framebuffer segment_a segment offset].
  destruct (vbe_dword l 40 =? 0); cbn [negb]; [lia|reflexivity].
Qed.
End block.

(** ** What the machine promises.  A virtual page shows a physical one; the kernel's own
    memory is apart from the pages of the BIOS. *)
Class vesa_laws (S : Type) {P : ports S} {HM : host_memory S} {VH : vesa_host S} := {
  phys_byte : Z -> S -> Z;
  shows : Z -> Z -> S -> Prop;
  private : Z -> Z -> S -> Prop;
  free_page : Z -> S -> Prop;
  bios_page : Z -> Prop;
  shows_range va pa s : shows va pa s -> 0 <= va /\ va + PAGE_SIZE <= 2 ^ 32;
  load_shown va pa s o : shows va pa s -> 0 <= o < PAGE_SIZE -> load_byte (va + o) s = phys_byte (pa + o) s;
  store_shown va pa s o b x : shows va pa s -> 0 <= o < PAGE_SIZE -> phys_byte x (store_byte (va + o) b s) = if x =? pa + o then b else phys_byte x s;
  store_shown_private va pa s o b a n i : shows va pa s -> bios_page pa -> 0 <= o < PAGE_SIZE -> private a n s -> 0 <= i < n ->
    load_byte (a + i) (store_byte (va + o) b s) = load_byte (a + i) s;
  store_private a n a' n' s i j b : private a n s -> private a' n' s -> 0 <= i < n -> 0 <= j < n' ->
    load_byte (a' + j) (store_byte (a + i) b s) = if a' + j =? a + i then b else load_byte (a' + j) s;
  store_private_phys a n s i b p o : private a n s -> 0 <= i < n -> bios_page p -> 0 <= o < PAGE_SIZE ->
    phys_byte (p + o) (store_byte (a + i) b s) = phys_byte (p + o) s;
  store_keeps a b s : (forall va pa, shows va pa s -> shows va pa (store_byte a b s)) /\
    (forall x n, private x n s -> private x n (store_byte a b s)) /\ forall p, free_page p s -> free_page p (store_byte a b s) }.

(** What neither ports nor page tables change. *)
Record same_memory {S} `{L : vesa_laws S} (s s' : S) : Prop := {
  sm_phys : forall x, phys_byte x s' = phys_byte x s;
  sm_shows : forall va pa, shows va pa s -> shows va pa s';
  sm_private : forall a n, private a n s -> private a n s' /\ forall i, 0 <= i < n -> load_byte (a + i) s' = load_byte (a + i) s }.
Definition same_machine {S} `{L : vesa_laws S} (s s' : S) : Prop := same_memory s s' /\ forall p, free_page p s -> free_page p s'.

Class vesa_page_laws (S : Type) `{L : vesa_laws S} := {
  low_pages p : p mod PAGE_SIZE = 0 -> 0 <= p < 0x1000 \/ 0x80000 <= p < 0x100000 -> bios_page p;
  map_law p s : bios_page p ->
    let '(va, s') := memmanager_map_to_new_pages p 1 (Z.lor PAGE_PRESENT PAGE_RW) s in shows va p s' /\ va <> 0 /\ same_machine s s';
  claim_law p s : free_page p s ->
    let '(r, s') := physical_memory_allocate_in_range p (add32 p PAGE_SIZE) PAGE_SIZE PAGE_SIZE s in
    r <> 0 /\ same_memory s s' /\ forall q, q <> p -> free_page q s -> free_page q s';
  inb_same port s : same_machine s (inb port s).2; inw_same port s : same_machine s (inw port s).2; ind_same port s : same_machine s (ind port s).2;
  outb_same port v s : same_machine s (outb port v s); outw_same port v s : same_machine s (outw port v s);
  outd_same port v s : same_machine s (outd port v s);
  new_law n s : 0 < n -> let '(a, s') := new_bytes n s in
    private a n s' /\ same_machine s s' /\ forall x m, private x m s -> a + n <= x \/ x + m <= a }.

Section vesa.
Context {S E : Type} {P : ports S} {HM : host_memory S} {VH : vesa_host S} {X : x86emu E} {L : vesa_laws S} {G : vesa_page_laws S}.
#[local] Set Default Proof Using "G".
#[local] Notation state := (vesa S E).
Implicit Types (s : S) (v : state) (x y p : Z).

(** ** The flat memory *)
Definition page (x : Z) : Z := x - x mod PAGE_SIZE.
Definition in_low (x : Z) : bool := (low_page_begin <=? x) && (x <=? low_page_end).
Definition in_stack (x : Z) : bool := (virtual_stack_begin <=? x) && (x <=? virtual_stack_end).
Definition region (x : Z) : Z := if in_low x then -1 else if in_stack x then -2 else page x.
(** Both buffers end one byte before their last address. *)
Definition visible (x : Z) : Prop :=
  is_u32 x /\ x <> low_page_end /\ x <> virtual_stack_end /\ (0 <= region x -> bios_page (page x)).
Definition emulated (x : Z) (v : state) : Z :=
  if in_low x then load_byte (virtual_bootsector v + (x - low_page_begin)) (host v)
  else if in_stack x then load_byte (virtual_stack v + (x - virtual_stack_begin)) (host v)
  else phys_byte x (host v).

Definition low_page (p : Z) : bool := (p <? 0x1000) || ((0x80000 <=? p) && (p <? 0x100000)).
Definition buffer_size : Z := 1023.
Definition stack_size : Z := 1024.
Record vesa_ok (v : state) : Prop := {
  ok_cache : map_ok (mapping_cache v);
  ok_pages : forall p va, contents (mapping_cache v) !! p = Some va -> shows va p (host v) /\ bios_page p;
  ok_claim : forall p, bios_page p -> low_page p = false -> is_Some (contents (mapping_cache v) !! p) \/ free_page p (host v);
  ok_low : private (virtual_bootsector v) buffer_size (host v);
  ok_stack : private (virtual_stack v) stack_size (host v);
  ok_apart : virtual_bootsector v + buffer_size <= virtual_stack v \/ virtual_stack v + stack_size <= virtual_bootsector v;
  ok_lists : (pages_mapped v ++ pages_allocated v) ≡ₚ (map_to_list (contents (mapping_cache v))).*2 }.

(** Everything but the pages and the machine. *)
Definition rest (v : state) := (emu v, virtual_bootsector v, virtual_stack v, current_mode_index v, vesa_modes v, v_modes v, vesa_pm_interface v).
Record keeps (v v' : state) : Prop := {
  k_rest : rest v' = rest v;
  k_memory : forall x, visible x -> emulated x v' = emulated x v }.

Lemma keeps_refl v : keeps v v.
Proof. constructor; auto. Qed.
Lemma keeps_trans v1 v2 v3 : keeps v1 v2 -> keeps v2 v3 -> keeps v1 v3.
Proof. intros [R1 M1] [R2 M2]. constructor; [congruence|]. intros x Hx. rewrite (M2 x Hx). exact (M1 x Hx). Qed.

Lemma same_machine_refl s : same_machine s s.
Proof. split; [constructor; auto|auto]. Qed.
Lemma same_memory_trans s1 s2 s3 : same_memory s1 s2 -> same_memory s2 s3 -> same_memory s1 s3.
Proof.
  intros [P1 S1 R1] [P2 S2 R2]. constructor; [intros x; rewrite P2; apply P1|auto|].
  intros a n H. destruct (R1 a n H) as [H1 E1]. destruct (R2 a n H1) as [H2 E2]. split; [exact H2|]. intros i Hi. rewrite E2 by exact Hi. auto.
Qed.

(** ** One address *)
Lemma page_land x : is_u32 x -> Z.land x (not32 (PAGE_SIZE - 1)) = page x.
Proof. intros H. change (PAGE_SIZE - 1) with (2 ^ 12 - 1). now rewrite (land_high_mask x 12 H ltac:(lia)). Qed.
Lemma page_range x : is_u32 x -> 0 <= page x <= x /\ x < page x + PAGE_SIZE /\ page x mod PAGE_SIZE = 0 /\ x - page x = x mod PAGE_SIZE.
Proof. unfold is_u32, page, PAGE_SIZE. intros H. Z.to_euclidean_division_equations; lia. Qed.

(** The virtual address at which an emulated one is. *)
Inductive placed (v : state) (x : Z) : Z -> Prop :=
| placed_low : in_low x = true -> placed v x (virtual_bootsector v + (x - low_page_begin))
| placed_stack : in_low x = false -> in_stack x = true -> placed v x (virtual_stack v + (x - virtual_stack_begin))
| placed_page va : in_low x = false -> in_stack x = false -> contents (mapping_cache v) !! page x = Some va -> placed v x (va + x mod PAGE_SIZE).

Lemma emulated_same v s' : vesa_ok v -> same_memory (host v) s' -> forall x, visible x -> emulated x (put_host s' v) = emulated x v.
Proof.
  intros Hv [Sp Ss Sr] x (_ & H1 & H2 & _). unfold emulated. cbn [put_host virtual_bootsector virtual_stack host].
  unfold in_low, in_stack, low_page_end, low_page_begin, virtual_stack_begin, virtual_stack_end in *.
  destruct ((_ <=? x) && _) eqn:E1.
  { apply (proj2 (Sr _ _ (ok_low v Hv))). unfold buffer_size. lia. }
  destruct ((_ <=? x) && (x <=? 0x80000)) eqn:E2; [|apply Sp].
  apply (proj2 (Sr _ _ (ok_stack v Hv))). unfold stack_size. lia.
Qed.
Lemma same_machine_keeps v s' : vesa_ok v -> same_machine (host v) s' -> vesa_ok (put_host s' v) /\ keeps v (put_host s' v).
Proof.
  intros Hv [Hs Hf]. split; [|constructor; [reflexivity|exact (emulated_same v s' Hv Hs)]].
  destruct Hv as [C Pg Cl Lo St Ap Li]. destruct Hs as [Sp Ss Sr]. constructor; cbn [put_host mapping_cache host virtual_bootsector virtual_stack pages_mapped pages_allocated]; auto.
  - intros p va H. destruct (Pg p va H). auto.
  - intros p H1 H2. destruct (Cl p H1 H2); auto.
  - apply Sr, Lo.
  - apply Sr, St.
Qed.

Lemma low_index x : in_low x = true -> x <> low_page_end -> 0 <= x - low_page_begin < buffer_size.
Proof. unfold in_low, low_page_end, low_page_begin, buffer_size. intros H. apply andb_prop in H as [H1%Z.leb_le H2%Z.leb_le]. lia. Qed.
Lemma stack_index x : in_stack x = true -> x <> virtual_stack_end -> 0 <= x - virtual_stack_begin < stack_size.
Proof. unfold in_stack, virtual_stack_begin, stack_size. intros H. apply andb_prop in H as [H1%Z.leb_le H2%Z.leb_le]. unfold virtual_stack_end in *. lia. Qed.
Lemma region_page x : is_u32 x -> in_low x = false -> in_stack x = false -> region x = page x /\ 0 <= region x.
Proof. intros H E1 E2. unfold region. rewrite E1, E2. split; [reflexivity|apply (page_range x H)]. Qed.
Lemma page_offset x : is_u32 x -> 0 <= x mod PAGE_SIZE < PAGE_SIZE /\ page x + x mod PAGE_SIZE = x.
Proof. intros H. unfold page, PAGE_SIZE. Z.to_euclidean_division_equations; lia. Qed.

Lemma placed_load v x p : vesa_ok v -> visible x -> placed v x p -> load_byte p (host v) = emulated x v.
Proof.
  intros Hv (Hx & _) [E1|E1 E2|va E1 E2 Hc]; unfold emulated; rewrite E1; [reflexivity|rewrite E2; reflexivity|rewrite E2].
  destruct (page_offset x Hx) as [Ho Hp]. destruct (ok_pages v Hv _ _ Hc) as [Hs _]. rewrite (load_shown va (page x) _ _ Hs Ho). now rewrite Hp.
Qed.

Lemma store_ok v a b : vesa_ok v -> vesa_ok (put_host (store_byte a b (host v)) v).
Proof.
  intros [C Pg Cl Lo St Ap Li]. destruct (store_keeps a b (host v)) as (Ks & Kp & Kf).
  constructor; cbn [put_host mapping_cache host virtual_bootsector virtual_stack pages_mapped pages_allocated]; auto.
  - intros p va H. destruct (Pg p va H). auto.
  - intros p H1 H2. destruct (Cl p H1 H2); auto.
Qed.

Lemma placed_store v x p b : vesa_ok v -> visible x -> placed v x p ->
  forall y, visible y -> emulated y (put_host (store_byte p b (host v)) v) = if y =? x then b else emulated y v.
Proof.
  intros Hv (Hx & X1 & X2 & X3) Hp y (Hy & Y1 & Y2 & Y3). unfold emulated. cbn [put_host virtual_bootsector virtual_stack host].
  pose proof (low_index y) as Ly. pose proof (stack_index y) as Sy. pose proof (low_index x) as Lx. pose proof (stack_index x) as Sx.
  pose proof (ok_low v Hv) as Pl. pose proof (ok_stack v Hv) as Ps. pose proof (ok_apart v Hv) as Ap.
  destruct (page_offset x Hx) as [Ox Px]. destruct (page_offset y Hy) as [Oy Py].
  assert (By : in_low y = false -> in_stack y = false -> bios_page (page y)) by (intros E1 E2; apply Y3, (region_page y Hy E1 E2)).
  assert (Hnot : forall f : Z -> bool, f y <> f x -> (y =? x) = false) by (intros f Hf; destruct (Z.eqb_spec y x) as [->|]; [contradiction|reflexivity]).
  destruct Hp as [E1|E1 E2|va E1 E2 Hc].
  - specialize (Lx E1 X1). destruct (in_low y) eqn:F1.
    { rewrite (store_private _ _ _ _ _ _ _ _ Pl Pl Lx (Ly eq_refl Y1)). destruct (Z.eqb_spec y x); [subst; now rewrite Z.eqb_refl|].
      replace (_ =? _) with false by lia. reflexivity. }
    rewrite (Hnot in_low) by congruence. destruct (in_stack y) eqn:F2.
    { specialize (Sy eq_refl Y2). rewrite (store_private _ _ _ _ _ _ _ _ Pl Ps Lx Sy). replace (_ =? _) with false by lia. reflexivity. }
    rewrite <- Py. exact (store_private_phys _ _ _ _ _ _ _ Pl Lx (By eq_refl eq_refl) Oy).
  - specialize (Sx E2 X2). destruct (in_low y) eqn:F1.
    { rewrite (Hnot in_low) by congruence. specialize (Ly eq_refl Y1). rewrite (store_private _ _ _ _ _ _ _ _ Ps Pl Sx Ly). replace (_ =? _) with false by lia. reflexivity. }
    destruct (in_stack y) eqn:F2.
    { rewrite (store_private _ _ _ _ _ _ _ _ Ps Ps Sx (Sy eq_refl Y2)). destruct (Z.eqb_spec y x); [subst; now rewrite Z.eqb_refl|].
      replace (_ =? _) with false by lia. reflexivity. }
    rewrite (Hnot in_stack) by congruence. rewrite <- Py. exact (store_private_phys _ _ _ _ _ _ _ Ps Sx (By eq_refl eq_refl) Oy).
  - destruct (ok_pages v Hv _ _ Hc) as [Hs Hb]. destruct (in_low y) eqn:F1.
    { rewrite (Hnot in_low) by congruence. exact (store_shown_private _ _ _ _ _ _ _ _ Hs Hb Ox Pl (Ly eq_refl Y1)). }
    destruct (in_stack y) eqn:F2.
    { rewrite (Hnot in_stack) by congruence. exact (store_shown_private _ _ _ _ _ _ _ _ Hs Hb Ox Ps (Sy eq_refl Y2)). }
    rewrite (store_shown _ _ _ _ _ _ Hs Ox), Px. reflexivity.
Qed.

(** ** A page that is used for the first time *)
Lemma cache_page v s' va pg mapped allocated : vesa_ok v -> contents (mapping_cache v) !! pg = None -> bios_page pg -> shows va pg s' ->
  same_memory (host v) s' -> (forall q, q <> pg -> free_page q (host v) -> free_page q s') ->
  mapped ++ allocated ≡ₚ va :: (pages_mapped v ++ pages_allocated v) ->
  exists cache, insert_key pg va (mapping_cache v) = Ok (Some va, cache) /\
    let v' := put_pages s' mapped allocated cache v in vesa_ok v' /\ keeps v v' /\ contents (mapping_cache v') !! pg = Some va.
Proof.
  intros Hv Hn Hb Hsh Hs Hf Hl. pose proof (emulated_same v s' Hv Hs) as He. destruct Hv as [C Pg Cl Lo St Ap Li]. destruct Hs as [Sp Ss Sr].
  pose proof (emplace_spec pg va (mapping_cache v) C) as Hi. unfold refines_insert in Hi. rewrite Hn in Hi. destruct Hi as (cache & Ei & Hc & Ec).
  exists cache. split; [exact Ei|]. cbn zeta. split; [|split].
  - constructor; cbn [put_pages mapping_cache host virtual_bootsector virtual_stack pages_mapped pages_allocated]; [exact Hc| | |apply Sr, Lo|apply Sr, St|exact Ap|].
    + intros p a. rewrite Ec, lookup_insert_Some. intros [[<- <-]|[_ H]]; [split; assumption|]. destruct (Pg p a H). auto.
    + intros p H1 H2. rewrite Ec. destruct (decide (p = pg)) as [->|Hne]; [left; rewrite lookup_insert_eq; eexists; reflexivity|].
      rewrite lookup_insert_ne by congruence. destruct (Cl p H1 H2) as [H|H]; [left; exact H|right; auto].
    + rewrite Ec, map_to_list_insert by exact Hn. cbn [fmap list_fmap]. rewrite Hl, Li. reflexivity.
  - constructor; [reflexivity|exact He].
  - cbn [put_pages mapping_cache]. rewrite Ec, lookup_insert_eq. reflexivity.
Qed.

(** A page that is visible is found or mapped. *)
Lemma map_page v x : vesa_ok v -> visible x -> in_low x = false -> in_stack x = false ->
  exists va v', map_address x v = Ok (va + x mod PAGE_SIZE, v') /\ vesa_ok v' /\ keeps v v' /\ contents (mapping_cache v') !! page x = Some va.
Proof.
  intros Hv Hx E1 E2. destruct Hx as (Ux & _ & _ & Hb). specialize (Hb (proj2 (region_page x Ux E1 E2))).
  destruct (page_range x Ux) as (R1 & R2 & R3 & R4). destruct (page_offset x Ux) as [Ox _].
  unfold map_address. fold (in_low x). fold (in_stack x). rewrite E1, E2, (page_land x Ux).
  rewrite (sub32_small x (page x)) by (unfold is_u32 in Ux; lia). rewrite R4, (bind_Ok_l _ _ _ (lookup_spec (page x) _ (ok_cache v Hv))).
  assert (Hadd : forall va s, shows va (page x) s -> add32 va (x mod PAGE_SIZE) = va + x mod PAGE_SIZE).
  { intros va s Hs. destruct (shows_range _ _ _ Hs). apply add32_small. lia. }
  destruct (contents (mapping_cache v) !! page x) as [va|] eqn:Ec.
  { exists va, v. destruct (ok_pages v Hv _ _ Ec) as [Hs _]. rewrite (Hadd va (host v) Hs). auto using keeps_refl. }
  pose proof (fun s => map_law (page x) s Hb) as Hm. fold (low_page (page x)). destruct (low_page (page x)) eqn:El.
  - specialize (Hm (host v)). destruct (memmanager_map_to_new_pages (page x) 1 _ (host v)) as [va s]. destruct Hm as (Hs & _ & Sm & Fr).
    destruct (cache_page v s va (page x) (pages_mapped v ++ [va]) (pages_allocated v) Hv Ec Hb Hs Sm ltac:(auto)) as (cache & Ei & Hv' & K & C').
    { rewrite <- app_assoc. symmetry. apply Permutation_middle. }
    rewrite (bind_Ok_l _ _ _ Ei). cbv beta iota. rewrite (Hadd va s Hs). eauto 6.
  - rewrite (bind_Ok_l _ _ _ (lookup_spec (page x) _ (ok_cache v Hv))), Ec.
    destruct (ok_claim v Hv (page x) Hb El) as [[va H]|Hfree]; [congruence|].
    pose proof (claim_law (page x) (host v) Hfree) as Hcl. destruct (physical_memory_allocate_in_range _ _ _ _ (host v)) as [r s].
    destruct Hcl as (Hr & Sm & Fr). rewrite (proj2 (Z.eqb_neq r 0) Hr). cbn [negb].
    specialize (Hm s). destruct (memmanager_map_to_new_pages (page x) 1 _ s) as [va s2]. destruct Hm as (Hs & Hva & Sm2 & Fr2).
    rewrite (proj2 (Z.eqb_neq va 0) Hva). cbn [negb k_assert mbind outcome_bind].
    destruct (cache_page v s2 va (page x) (pages_mapped v) (pages_allocated v ++ [va]) Hv Ec Hb Hs (same_memory_trans _ _ _ Sm Sm2)) as (cache & Ei & Hv' & K & C').
    { intros q Hq Hf. apply Fr2, Fr; assumption. }
    { rewrite app_assoc. symmetry. apply Permutation_cons_append. }
    change (exists va0 v', ('(_, cache) ← insert_key (page x) va (mapping_cache v); Ok (add32 va (x mod PAGE_SIZE),
      put_pages s2 (pages_mapped v) (pages_allocated v ++ [va]) cache v)) = Ok (va0 + x mod PAGE_SIZE, v') /\ vesa_ok v' /\ keeps v v' /\
      contents (mapping_cache v') !! page x = Some va0).
    rewrite (bind_Ok_l _ _ _ Ei). cbv beta iota. rewrite (Hadd va s2 Hs). eauto 6.
Qed.

Lemma map_address_spec v x : vesa_ok v -> visible x ->
  exists p v', map_address x v = Ok (p, v') /\ vesa_ok v' /\ keeps v v' /\
  forall y, is_u32 y -> region y = region x -> placed v' y (p + (y - x)).
Proof.
  intros Hv Hx. pose proof Hx as (Ux & _).
  destruct (in_low x) eqn:E1; [|destruct (in_stack x) eqn:E2].
  - exists (virtual_bootsector v + (x - low_page_begin)), v. split; [unfold map_address; fold (in_low x); now rewrite E1|].
    split; [exact Hv|]. split; [apply keeps_refl|]. intros y Uy Hr. unfold region in Hr. rewrite E1 in Hr.
    pose proof (page_range y Uy) as [Ry _]. destruct (in_low y) eqn:F1; [|destruct (in_stack y); lia].
    replace (_ + (y - x)) with (virtual_bootsector v + (y - low_page_begin)) by lia. now constructor.
  - exists (virtual_stack v + (x - virtual_stack_begin)), v. split; [unfold map_address; fold (in_low x) (in_stack x); now rewrite E1, E2|].
    split; [exact Hv|]. split; [apply keeps_refl|]. intros y Uy Hr. unfold region in Hr. rewrite E1, E2 in Hr.
    pose proof (page_range y Uy) as [Ry _]. destruct (in_low y) eqn:F1; [discriminate|]. destruct (in_stack y) eqn:F2; [|lia].
    replace (_ + (y - x)) with (virtual_stack v + (y - virtual_stack_begin)) by lia. now constructor.
  - destruct (map_page v x Hv Hx E1 E2) as (va & v' & Em & Hv' & K & C). exists (va + x mod PAGE_SIZE), v'.
    split; [exact Em|]. split; [exact Hv'|]. split; [exact K|]. intros y Uy Hr.
    destruct (region_page x Ux E1 E2) as [Rr R0]. rewrite Rr in Hr. unfold region in Hr.
    destruct (in_low y) eqn:F1; [lia|]. destruct (in_stack y) eqn:F2; [lia|].
    destruct (page_offset x Ux) as [_ Px]. destruct (page_offset y Uy) as [_ Py].
    replace (va + x mod PAGE_SIZE + (y - x)) with (va + y mod PAGE_SIZE) by lia. constructor; [exact F1|exact F2|congruence].
Qed.

(** ** Accesses *)
Definition flat (v : state) (f : Z -> Z) : Prop := forall x, visible x -> emulated x v = f x.
(** All bytes are in the region of the first. *)
Definition access_ok (n : nat) (x : Z) : Prop := (0 < n)%nat /\ forall i, 0 <= i < Z.of_nat n -> visible (x + i) /\ region (x + i) = region x.

Lemma flat_keeps v v' f : flat v f -> keeps v v' -> flat v' f.
Proof. intros F K x Hx. rewrite (k_memory _ _ K x Hx). exact (F x Hx). Qed.
Lemma load_bytes_spec v f : vesa_ok v -> flat v f -> forall n x p,
  (forall i, 0 <= i < Z.of_nat n -> visible (x + i) /\ placed v (x + i) (p + i)) -> load_bytes n p (host v) = map f (seqZ x (Z.of_nat n)).
Proof.
  intros Hv F. induction n as [|n IH]; intros x p H; [reflexivity|].
  rewrite Nat2Z.inj_succ, (seqZ_cons x) by lia. cbn [load_bytes map]. destruct (H 0 ltac:(lia)) as [V0 P0]. rewrite !Z.add_0_r in *.
  rewrite (placed_load v x p Hv V0 P0), (F x V0). f_equal. replace (Z.pred (Z.succ (Z.of_nat n))) with (Z.of_nat n) by lia.
  apply IH. intros i Hi. destruct (H (1 + i) ltac:(lia)) as [V1 P1]. rewrite !Z.add_assoc in *. now split.
Qed.
Lemma placed_put v s x p : placed v x p -> placed (put_host s v) x p.
Proof. intros [E1|E1 E2|va E1 E2 Hc]; [exact (placed_low (put_host s v) x E1)|exact (placed_stack (put_host s v) x E1 E2)|exact (placed_page (put_host s v) x va E1 E2 Hc)]. Qed.
Lemma store_bytes_host l : forall p v, put_host (store_bytes p l (host v)) v = match l with [] => v | b :: l => put_host (store_bytes (p + 1) l (host (put_host (store_byte p b (host v)) v))) (put_host (store_byte p b (host v)) v) end.
Proof. intros p v. destruct l; [destruct v; reflexivity|reflexivity]. Qed.
Lemma store_bytes_flat : forall l x p v f, vesa_ok v -> flat v f ->
  (forall i, 0 <= i < Z.of_nat (length l) -> visible (x + i) /\ placed v (x + i) (p + i)) ->
  vesa_ok (put_host (store_bytes p l (host v)) v) /\ flat (put_host (store_bytes p l (host v)) v) (upd f x l).
Proof.
  induction l as [|b l IH]; intros x p v f Hv F H; rewrite store_bytes_host.
  { split; [exact Hv|]. intros y Hy. rewrite upd_nil. exact (F y Hy). }
  destruct (H 0 ltac:(cbn [length]; lia)) as [V0 P0]. rewrite !Z.add_0_r in *.
  destruct (IH (x + 1) (p + 1) _ (fun y => if y =? x then b else f y) (store_ok v p b Hv)) as [Hv' F'].
  - intros y Hy. rewrite (placed_store v x p b Hv V0 P0 y Hy). destruct (y =? x); [reflexivity|exact (F y Hy)].
  - intros i Hi. destruct (H (1 + i) ltac:(cbn [length]; lia)) as [V1 P1]. rewrite !Z.add_assoc in *. split; [exact V1|]. apply placed_put, P1.
  - split; [exact Hv'|]. intros y Hy. rewrite upd_cons. exact (F' y Hy).
Qed.

Lemma access_placed n x p v : access_ok n x -> (forall y, is_u32 y -> region y = region x -> placed v y (p + (y - x))) ->
  forall i, 0 <= i < Z.of_nat n -> visible (x + i) /\ placed v (x + i) (p + i).
Proof.
  intros [_ A] Hp i Hi. destruct (A i Hi) as [V R]. split; [exact V|]. specialize (Hp (x + i) (proj1 V) R).
  now replace (p + (x + i - x)) with (p + i) in Hp by lia.
Qed.
Lemma access_first n x : access_ok n x -> visible x.
Proof. intros [Hn A]. destruct (A 0 ltac:(lia)) as [V _]. now rewrite Z.add_0_r in V. Qed.

Lemma mem_read_spec n x v f : vesa_ok v -> flat v f -> access_ok n x ->
  exists v', mem_read n x v = Ok (le_value (map f (seqZ x (Z.of_nat n))), v') /\ vesa_ok v' /\ flat v' f /\ rest v' = rest v.
Proof.
  intros Hv F A. destruct (map_address_spec v x Hv (access_first n x A)) as (p & v' & Em & Hv' & K & Hp).
  exists v'. unfold mem_read. rewrite (bind_Ok_l _ _ _ Em). cbv beta iota. pose proof (flat_keeps _ _ _ F K) as F'.
  rewrite (load_bytes_spec v' f Hv' F' n x p (access_placed n x p v' A Hp)). split; [reflexivity|]. split; [exact Hv'|]. split; [exact F'|apply K].
Qed.
Lemma mem_write_spec n x val v f : vesa_ok v -> flat v f -> access_ok n x ->
  exists v', mem_write n x val v = Ok v' /\ vesa_ok v' /\ flat v' (upd f x (le_bytes n val)) /\ rest v' = rest v.
Proof.
  intros Hv F A. destruct (map_address_spec v x Hv (access_first n x A)) as (p & v' & Em & Hv' & K & Hp).
  unfold mem_write. rewrite (bind_Ok_l _ _ _ Em). cbv beta iota. pose proof (flat_keeps _ _ _ F K) as F'.
  destruct (store_bytes_flat (le_bytes n val) x p v' f Hv' F') as [H1 H2]; [rewrite le_bytes_length; exact (access_placed n x p v' A Hp)|].
  eexists. split; [reflexivity|]. split; [exact H1|]. split; [exact H2|]. apply K.
Qed.

(** ** Runs of the BIOS.  [bios n e f Q]: on the flat memory [f], whatever the ports answer,
    the emulator halts within [n] accesses, each within a region, and then [Q] holds. *)
Definition bios_step (addr val type : Z) (f : Z -> Z) (K : Z -> (Z -> Z) -> Prop) : Prop :=
  let bits := Z.land type 0xFF in
  let type := Z.land type (not32 0xFF) in
  if (type =? X86EMU_MEMIO_X) || (type =? X86EMU_MEMIO_R) then
    match mem_size bits with Some n => access_ok n addr /\ K (le_value (map f (seqZ addr (Z.of_nat n)))) f | None => K val f end
  else if type =? X86EMU_MEMIO_W then
    match mem_size bits with Some n => access_ok n addr /\ K val (upd f addr (le_bytes n val)) | None => K val f end
  else if type =? X86EMU_MEMIO_I then forall x, K x f
  else K val f.
Fixpoint bios (n : nat) (e : E) (f : Z -> Z) (Q : E -> (Z -> Z) -> Prop) : Prop :=
  match emu_next e with
  | None => Q e f
  | Some (addr, val, type) =>
    match n with O => False | Datatypes.S n => bios_step addr val type f (fun x f => bios n (emu_answer x e) f Q) end
  end.

(** What the accesses of the BIOS leave alone. *)
Definition settings (v : state) := (virtual_bootsector v, virtual_stack v, current_mode_index v, vesa_modes v, v_modes v, vesa_pm_interface v).
Lemma rest_settings v v' : rest v' = rest v -> emu v' = emu v /\ settings v' = settings v.
Proof. unfold rest, settings. intros [=]. split; congruence. Qed.

Lemma port_in_same bits port val s : same_machine s (port_in bits port val s).2.
Proof.
  unfold port_in. destruct (bits =? _); [apply inb_same|]. destruct (bits =? _); [apply inw_same|]. destruct (bits =? _); [apply ind_same|].
  apply same_machine_refl.
Qed.
Lemma port_out_same bits port val s : same_machine s (port_out bits port val s).
Proof.
  unfold port_out. destruct (bits =? _); [apply outb_same|]. destruct (bits =? _); [apply outw_same|]. destruct (bits =? _); [apply outd_same|].
  apply same_machine_refl.
Qed.

Lemma memio_handler_spec addr val type f (K : Z -> (Z -> Z) -> Prop) v : bios_step addr val type f K -> vesa_ok v -> flat v f ->
  exists x v' f', memio_handler addr val type v = Ok (x, v') /\ vesa_ok v' /\ flat v' f' /\ rest v' = rest v /\ K x f'.
Proof.
  unfold bios_step, memio_handler. set (bits := Z.land type 0xFF). set (t := Z.land type (not32 0xFF)). intros H Hv F.
  destruct ((t =? _) || _).
  { destruct (mem_size bits) as [n|]; [|eauto 8]. destruct H as [A HK]. destruct (mem_read_spec n addr v f Hv F A) as (v' & Er & Hv' & F' & R). eauto 8. }
  destruct (t =? _).
  { destruct (mem_size bits) as [n|]; [|eauto 8]. destruct H as [A HK]. destruct (mem_write_spec n addr val v f Hv F A) as (v' & Ew & Hv' & F' & R).
    rewrite (bind_Ok_l _ _ _ Ew). eauto 8. }
  destruct (t =? _).
  { pose proof (port_in_same bits (u16 addr) val (host v)) as Hs. destruct (port_in bits (u16 addr) val (host v)) as [x s].
    destruct (same_machine_keeps v s Hv Hs) as [Hv' K']. exists x, (put_host s v), f. do 2 (split; [auto|]). split; [exact (flat_keeps _ _ _ F K')|]. auto. }
  destruct (t =? _); [|eauto 8].
  destruct (same_machine_keeps v _ Hv (port_out_same bits (u16 addr) val (host v))) as [Hv' K'].
  exists val, (put_host (port_out bits (u16 addr) val (host v)) v), f. do 2 (split; [auto|]). split; [exact (flat_keeps _ _ _ F K')|]. auto.
Qed.

Record after (v v' : state) (f : Z -> Z) : Prop := { a_ok : vesa_ok v'; a_flat : flat v' f; a_settings : settings v' = settings v }.
Lemma put_emu_ok e v : vesa_ok v -> vesa_ok (put_emu e v).
Proof. intros [C Pg Cl Lo St Ap Li]. constructor; assumption. Qed.
Lemma x86emu_run_spec Q : forall n fuel v f, bios n (emu v) f Q -> vesa_ok v -> flat v f -> (n <= fuel)%nat ->
  exists v' f', x86emu_run fuel v = Ok v' /\ after v v' f' /\ Q (emu v') f'.
Proof.
  induction n as [|n IH]; intros fuel v f H Hv F Hf; cbn [bios] in H.
  - exists v, f. destruct (emu_next (emu v)) as [[[a x] t]|] eqn:En; [destruct H|]. destruct fuel; cbn [x86emu_run]; rewrite En; auto using Build_after.
  - destruct fuel as [|fuel]; [lia|]. cbn [x86emu_run]. destruct (emu_next (emu v)) as [[[a x] t]|]; [|exists v, f; auto using Build_after].
    destruct (memio_handler_spec a x t f _ v H Hv F) as (y & v1 & f1 & Em & Hv1 & F1 & R1 & H1). rewrite (bind_Ok_l _ _ _ Em). cbv beta iota.
    destruct (rest_settings _ _ R1) as [Re Rs]. rewrite Re.
    destruct (IH fuel (put_emu (emu_answer y (emu v)) v1) f1 H1 (put_emu_ok _ _ Hv1) F1 ltac:(lia)) as (v' & f' & Er & [A1 A2 A3] & HQ).
    exists v', f'. split; [exact Er|]. split; [|exact HQ]. constructor; [exact A1|exact A2|]. rewrite A3. exact Rs.
Qed.

(** ** The information block *)
Lemma low_places v a n : low_page_begin <= a -> a + Z.of_nat n <= low_page_end ->
  forall i, 0 <= i < Z.of_nat n -> visible (a + i) /\ placed v (a + i) (virtual_bootsector v + (a - low_page_begin) + i).
Proof.
  intros H1 H2 i Hi. assert (El : in_low (a + i) = true) by (unfold in_low; rewrite !(proj2 (Z.leb_le _ _)) by lia; reflexivity). split.
  - unfold visible, low_page_end, low_page_begin in *. split; [unfold is_u32; lia|].
    split; [lia|]. split; [unfold virtual_stack_end; lia|].
    unfold region. rewrite El. intros Hn. lia.
  - replace (virtual_bootsector v + (a - low_page_begin) + i) with (virtual_bootsector v + (a + i - low_page_begin)) by lia. now constructor.
Qed.
Lemma store_low v f a l : vesa_ok v -> flat v f -> low_page_begin <= a -> a + Z.of_nat (length l) <= low_page_end ->
  after v (put_host (store_bytes (virtual_bootsector v + (a - low_page_begin)) l (host v)) v) (upd f a l).
Proof. intros Hv F H1 H2. destruct (store_bytes_flat l a _ v f Hv F (low_places v a _ H1 H2)). now constructor. Qed.
Lemma load_block v f n : vesa_ok v -> flat v f -> block_location + Z.of_nat n <= low_page_end ->
  load_bytes n (block_at v) (host v) = map f (seqZ block_location (Z.of_nat n)).
Proof. intros Hv F H. exact (load_bytes_spec v f Hv F n _ _ (low_places v block_location n ltac:(vm_compute; discriminate) H)). Qed.
Lemma after_trans v1 v2 v3 f f' : after v1 v2 f -> after v2 v3 f' -> after v1 v3 f'.
Proof. intros [_ _ S1] [O2 F2 S2]. constructor; [exact O2|exact F2|]. now rewrite S2. Qed.

Definition nop_hlt : list Z := [0x90; 0xF4].
Definition int10_regs (ax bx cx dx es di : Z) : x86_regs := mk_x86 0 0x8000 es 0x7C00 ax bx cx dx di.
Lemma int10h_spec n fuel ax bx cx dx es di v f Q : vesa_ok v -> flat v f -> (n <= fuel)%nat ->
  bios n (emu_raise (int10_regs ax bx cx dx es di) 0x10 (emu v)) (upd f low_page_begin nop_hlt) Q ->
  exists v' f', int10h_start fuel ax bx cx dx es di v = Ok v' /\ int10h fuel ax bx cx dx es di v = Ok (emu_ax (emu v'), v') /\
  after v v' f' /\ Q (emu v') f'.
Proof.
  intros Hv F Hf H. pose proof (store_low v f low_page_begin nop_hlt Hv F ltac:(lia) ltac:(unfold low_page_end, low_page_begin; cbn; lia)) as A.
  rewrite Z.sub_diag, Z.add_0_r in A. set (v1 := put_host _ v) in A. destruct A as [O1 F1 S1].
  destruct (x86emu_run_spec Q n fuel (put_emu (emu_raise (int10_regs ax bx cx dx es di) 0x10 (emu v)) v1) _ H (put_emu_ok _ _ O1) F1 Hf) as (v' & f' & Er & [O2 F2 S2] & HQ).
  exists v', f'. assert (Es : int10h_start fuel ax bx cx dx es di v = Ok v') by exact Er. split; [exact Es|].
  split; [unfold int10h; now rewrite (bind_Ok_l _ _ _ Es)|]. split; [|exact HQ]. constructor; [exact O2|exact F2|]. rewrite S2. exact S1.
Qed.

(** ** A BIOS that answers as the standard says.  [numbers] are its modes, [info] the blocks
    it has of them; [mode_of] is the mode that is set, and whether its linear frame buffer
    is on, which a bit of the word that is given asks for; [J] is what it needs of the
    memory. *)
Definition linear_bit : Z := 14.
Lemma bits_above x n i : 0 <= x < 2 ^ n -> 0 <= n -> n <= i -> Z.testbit x i = false.
Proof.
  intros Hx Hn Hi. destruct (Z.eq_dec x 0) as [->|H0]; [apply Z.bits_0|]. apply Z.bits_above_log2; [lia|].
  apply Z.lt_le_trans with n; [apply Z.log2_lt_pow2; lia|exact Hi].
Qed.
Definition list_at (f : Z -> Z) (a : Z) (l : list Z) : Prop :=
  map f (seqZ a (Z.of_nat (2 * (length l + 1)))) = concat (map (le_bytes 2) (l ++ [0xFFFF])).
Record vbe_bios (J : E -> (Z -> Z) -> Prop) (n : nat) (oem video : far_ptr) (numbers : list Z) (info : Z -> option (list Z)) (mode_of : E -> Z * bool) : Prop := {
  b_write e f a l : J e f -> low_page_begin <= a -> a + Z.of_nat (length l) <= low_page_end -> J e (upd f a l);
  b_info e f : J e f -> map f (seqZ block_location 4) = VBE2 ->
    bios n (emu_raise (int10_regs 0x4F00 0 0 0 (segment block) (offset block)) 0x10 e) f (fun e' f' =>
      J e' f' /\ emu_ax e' = 0x4f /\ info_block_of (map f' (seqZ block_location (Z.of_nat sizeof_vesa_info_block))) = mk_info_block VESA oem video /\
      list_at f' (access video) numbers);
  b_mode e f m : m ∈ numbers -> J e f ->
    bios n (emu_raise (int10_regs 0x4F01 0 m 0 (segment block) (offset block)) 0x10 e) f (fun e' f' =>
      J e' f' /\ match info m with
      | Some l => emu_ax e' = 0x4f /\ map f' (seqZ block_location (Z.of_nat sizeof_vesa_mode_info)) = l
      | None => emu_ax e' <> 0x4f
      end);
  b_set e f m : J e f -> bios n (emu_raise (int10_regs 0x4F02 m 0 0 0 0) 0x10 e) f (fun e' f' => J e' f' /\ mode_of e' = (Z.clearbit m linear_bit, Z.testbit m linear_bit));
  b_oem : visible (access oem);
  b_list : access_ok (2 * (length numbers + 1)) (access video);
  b_numbers : Forall (fun m => 0 <= m < 2 ^ linear_bit) numbers;
  b_blocks m l : m ∈ numbers -> info m = Some l -> vbe_block l }.

Lemma read_numbers_spec s : forall l a fuel, Forall (fun m => 0 <= m < 0xFFFF) l -> (length l < fuel)%nat ->
  load_bytes (2 * (length l + 1)) a s = concat (map (le_bytes 2) (l ++ [0xFFFF])) -> read_mode_numbers fuel a s = Ok l.
Proof.
  induction l as [|m l IH]; intros a fuel Hl Hf H; (destruct fuel as [|fuel]; [cbn [length] in Hf; lia|]); cbn [read_mode_numbers].
  - cbn [length Nat.add Nat.mul load_bytes app map concat] in H. change (load_bytes 2 a s) with [load_byte a s; load_byte (a + 1) s].
    rewrite H. reflexivity.
  - replace (2 * (length (m :: l) + 1))%nat with (2 + 2 * (length l + 1))%nat in H by (cbn [length]; lia).
    apply Forall_cons in Hl as [Hm Hl]. cbn [Nat.add load_bytes] in H. cbn [app map concat] in H.
    change (le_bytes 2 m) with [m mod 256; m / 256 mod 256] in H. cbn [app] in H. injection H as H0 H1 H.
    change (load_bytes 2 a s) with [load_byte a s; load_byte (a + 1) s]. rewrite H0, H1.
    replace (le_value _) with m by (cbn [le_value]; Z.to_euclidean_division_equations; lia).
    rewrite (proj2 (Z.eqb_neq m 0xFFFF)) by lia. rewrite <- Z.add_assoc in H. change (1 + 1) with 2 in H.
    rewrite (bind_Ok_l _ _ _ (IH (a + 2) fuel Hl ltac:(cbn [length] in Hf; lia) H)). reflexivity.
Qed.

Definition offered (info : Z -> option (list Z)) (m : Z) : option (Z * list Z) :=
  match info m with Some l => if vbe_offered l then Some (m, l) else None | None => None end.
Definition mode_row (r : Z * list Z) : vesa_mode := mk_vesa_mode (vbe_frame_buffer r.2) r.1 true.
Definition add_rows (rows : list (Z * list Z)) (v : state) :=
  (virtual_bootsector v, virtual_stack v, current_mode_index v, vesa_modes v ++ map mode_row rows, v_modes v ++ map (fun r => vbe_mode r.2) rows, vesa_pm_interface v).

Section bios.
Context (J : E -> (Z -> Z) -> Prop) (n : nat) (oem video : far_ptr) (numbers : list Z) (info : Z -> option (list Z)) (mode_of : E -> Z * bool).
Context (B : vbe_bios J n oem video numbers info mode_of).
#[local] Set Default Proof Using "All".

Record bios_ok (v : state) (f : Z -> Z) : Prop := { bo_ok : vesa_ok v; bo_flat : flat v f; bo_J : J (emu v) f }.

Lemma add_mode_spec fuel m v f : bios_ok v f -> m ∈ numbers -> (n <= fuel)%nat ->
  exists v' f', add_mode fuel m v = Ok v' /\ bios_ok v' f' /\ settings v' = add_rows (option_list (offered info m)) v.
Proof.
  intros [Hv F HJ] Hm Hf. unfold add_mode.
  pose proof (store_low v f block_location (repeat 0 sizeof_vesa_mode_info) Hv F ltac:(vm_compute; discriminate) ltac:(vm_compute; discriminate)) as A.
  replace (virtual_bootsector v + _) with (block_at v) in A by (unfold block_at, block_location; lia).
  set (v1 := put_host _ v) in *. destruct A as [O1 F1 S1].
  pose proof (b_write _ _ _ _ _ _ _ B _ _ block_location (repeat 0 sizeof_vesa_mode_info) HJ ltac:(vm_compute; discriminate) ltac:(vm_compute; discriminate)) as J1.
  pose proof (b_write _ _ _ _ _ _ _ B _ _ low_page_begin nop_hlt J1 ltac:(lia) ltac:(vm_compute; discriminate)) as J2.
  destruct (int10h_spec n fuel 0x4F01 0 m 0 (segment block) (offset block) v1 _ _ O1 F1 Hf (b_mode _ _ _ _ _ _ _ B _ _ m Hm J2)) as (v2 & f2 & _ & Ei & [O2 F2 S2] & J3 & Hi).
  rewrite (bind_Ok_l _ _ _ Ei). cbv beta iota. rewrite S1 in S2. unfold settings in S2.
  assert (G2 : bios_ok v2 f2) by (constructor; assumption). unfold offered. destruct (info m) as [l|] eqn:Hinfo.
  - destruct Hi as [-> Hl]. cbn [negb Z.eqb Pos.eqb]. rewrite (load_block v2 f2 sizeof_vesa_mode_info O2 F2) by (vm_compute; discriminate).
    rewrite Hl. pose proof (b_blocks _ _ _ _ _ _ _ B m l Hm Hinfo) as Hblk.
    rewrite (usable_offered l Hblk), (display_mode_bytes l Hblk), (frame_buffer_bytes l Hblk). destruct (vbe_offered l); cbn [option_list].
    + eexists _, f2. split; [reflexivity|]. split.
      * destruct G2 as [[C Pg Cl Lo St Ap Li] ? ?]. constructor; [constructor; assumption|assumption..].
      * unfold settings, add_rows. cbn [push_mode virtual_bootsector virtual_stack current_mode_index vesa_modes v_modes vesa_pm_interface map]. injection S2 as -> -> -> -> -> ->. reflexivity.
    + exists v2, f2. split; [reflexivity|]. split; [exact G2|]. unfold add_rows. cbn [map]. rewrite !app_nil_r. exact S2.
  - rewrite (proj2 (Z.eqb_neq _ _) Hi). cbn [negb option_list]. exists v2, f2. split; [reflexivity|]. split; [exact G2|].
    unfold add_rows. cbn [map]. rewrite !app_nil_r. exact S2.
Qed.

Lemma add_rows_app v v' r1 r2 : settings v' = add_rows r1 v -> add_rows r2 v' = add_rows (r1 ++ r2) v.
Proof. unfold settings, add_rows. intros [=]. rewrite !map_app, !app_assoc. congruence. Qed.
Lemma add_modes_spec fuel : (n <= fuel)%nat -> forall l v f, bios_ok v f -> l ⊆ numbers ->
  exists v' f', add_modes fuel l v = Ok v' /\ bios_ok v' f' /\ settings v' = add_rows (omap (offered info) l) v.
Proof.
  intros Hf. induction l as [|m l IH]; intros v f G1 Hl; cbn [add_modes].
  - exists v, f. split; [reflexivity|]. split; [exact G1|]. unfold add_rows. cbn [omap list_omap map]. now rewrite !app_nil_r.
  - destruct (add_mode_spec fuel m v f G1 (Hl m (list_elem_of_here m l)) Hf) as (v1 & f1 & E1 & G2 & S1). rewrite (bind_Ok_l _ _ _ E1).
    destruct (IH v1 f1 G2 (fun x Hx => Hl x (list_elem_of_further _ _ _ Hx))) as (v2 & f2 & E2 & G3 & S2). exists v2, f2.
    split; [exact E2|]. split; [exact G3|]. rewrite S2, (add_rows_app _ _ _ _ S1). cbn [omap list_omap]. destruct (offered info m); reflexivity.
Qed.

Lemma store_block v f l : bios_ok v f -> block_location + Z.of_nat (length l) <= low_page_end ->
  bios_ok (put_host (store_bytes (block_at v) l (host v)) v) (upd f block_location l).
Proof.
  intros [Hv F HJ] Hl. pose proof (store_low v f block_location l Hv F ltac:(vm_compute; discriminate) Hl) as A.
  replace (virtual_bootsector v + _) with (block_at v) in A by (unfold block_at, block_location; lia).
  destruct A as [O1 F1 _]. constructor; [exact O1|exact F1|]. exact (b_write _ _ _ _ _ _ _ B _ _ block_location l HJ ltac:(vm_compute; discriminate) Hl).
Qed.
Lemma translate_spec v f x : bios_ok v f -> visible x ->
  exists p v', map_address x v = Ok (p, v') /\ bios_ok v' f /\ settings v' = settings v /\ forall y, is_u32 y -> region y = region x -> placed v' y (p + (y - x)).
Proof.
  intros [Hv F HJ] Hx. destruct (map_address_spec v x Hv Hx) as (p & v' & Em & Hv' & K & Hp). exists p, v'. split; [exact Em|].
  destruct (rest_settings _ _ (k_rest _ _ K)) as [Re Rs]. split; [|split; [exact Rs|exact Hp]].
  constructor; [exact Hv'|exact (flat_keeps _ _ _ F K)|now rewrite Re].
Qed.

Lemma numbers_below : Forall (fun m => 0 <= m < 0xFFFF) numbers.
Proof. exact (Forall_impl _ _ _ (b_numbers _ _ _ _ _ _ _ B) (fun m H => conj (proj1 H) (Z.lt_trans m (2 ^ linear_bit) 0xFFFF (proj2 H) eq_refl))). Qed.
Lemma vesa_populate_modes_spec fuel v f : bios_ok v f -> (n <= fuel)%nat -> (length numbers < fuel)%nat ->
  exists v' f', vesa_populate_modes fuel v = Ok (true, v') /\ bios_ok v' f' /\
  let rows := omap (offered info) numbers in
  vesa_modes v' = vesa_modes v ++ map mode_row rows ++ [mk_vesa_mode 0xB8000 0x03 false] /\
  v_modes v' = v_modes v ++ map (fun r => vbe_mode r.2) rows ++ [fallback_mode] /\
  current_mode_index v' = current_mode_index v /\ vesa_pm_interface v' = vesa_pm_interface v.
Proof.
  intros G0 Hf Hn. unfold vesa_populate_modes.
  pose proof (store_block v f (repeat 0 sizeof_vesa_info_block) G0 ltac:(vm_compute; discriminate)) as G1. set (v1 := put_host _ v) in G1.
  pose proof (store_block v1 _ VBE2 G1 ltac:(vm_compute; discriminate)) as G2. set (f2 := upd _ block_location VBE2) in G2.
  change (put_host (store_bytes (block_at v) VBE2 (store_bytes (block_at v) (repeat 0 sizeof_vesa_info_block) (host v))) v)
    with (put_host (store_bytes (block_at v1) VBE2 (host v1)) v1). set (v2 := put_host (store_bytes _ VBE2 _) v1) in *.
  assert (S2 : settings v2 = settings v) by reflexivity. destruct G2 as [O2 F2 J2].
  pose proof (b_write _ _ _ _ _ _ _ B _ _ low_page_begin nop_hlt J2 ltac:(lia) ltac:(vm_compute; discriminate)) as J3.
  assert (Hsig : map (upd f2 low_page_begin nop_hlt) (seqZ block_location 4) = VBE2).
  { rewrite upd_other by (vm_compute; right; discriminate). exact (upd_same _ block_location VBE2). }
  destruct (int10h_spec n fuel 0x4f00 0 0 0 (segment block) (offset block) v2 _ _ O2 F2 Hf (b_info _ _ _ _ _ _ _ B _ _ J3 Hsig))
    as (v3 & f3 & _ & Ei & [O3 F3 S3] & J4 & Eax & Eblk & Elist).
  rewrite (bind_Ok_l _ _ _ Ei). cbv beta iota. rewrite Eax. cbn [negb Z.eqb Pos.eqb]. cbv zeta.
  rewrite (load_block v3 f3 sizeof_vesa_info_block O3 F3) by (vm_compute; discriminate). rewrite Eblk. cbn [vesa_sig oem_string_ptr video_mode_ptr].
  rewrite bool_decide_true by reflexivity. cbn [negb].
  destruct (translate_spec v3 f3 (access oem) ltac:(constructor; assumption) (b_oem _ _ _ _ _ _ _ B)) as (p4 & v4 & E4 & G4 & S4 & _).
  unfold translate_virtual_far_ptr. rewrite (bind_Ok_l _ _ _ E4). cbv beta iota.
  destruct (translate_spec v4 f3 (access video) G4 (access_first _ _ (b_list _ _ _ _ _ _ _ B))) as (p5 & v5 & E5 & G5 & S5 & Hp).
  rewrite (bind_Ok_l _ _ _ E5). cbv beta iota.
  pose proof (load_bytes_spec v5 f3 (bo_ok _ _ G5) (bo_flat _ _ G5) _ _ p5 (access_placed _ _ p5 v5 (b_list _ _ _ _ _ _ _ B) Hp)) as El.
  rewrite Elist in El. rewrite (bind_Ok_l _ _ _ (read_numbers_spec _ _ _ _ numbers_below Hn El)).
  destruct (add_modes_spec fuel Hf numbers v5 f3 G5 (fun x Hx => Hx)) as (v6 & f6 & E6 & G6 & S6). rewrite (bind_Ok_l _ _ _ E6).
  eexists _, f6. split; [reflexivity|]. split; [|].
  { destruct G6 as [[C Pg Cl Lo St Ap Li] ? ?]. constructor; [constructor; assumption|assumption..]. }
  rewrite S4, S3, S2 in S5. unfold settings, add_rows in *. injection S5 as _ _ Q1 Q2 Q3 Q4. injection S6 as _ _ P1 P2 P3 P4.
  cbn [push_mode vesa_modes v_modes current_mode_index vesa_pm_interface]. rewrite P1, P2, P3, P4, Q1, Q2, Q3, Q4, <- !app_assoc. auto.
Qed.

(** ** Setting a mode of the BIOS *)
Lemma vesa_set_mode_spec fuel i m v f : bios_ok v f -> (n <= fuel)%nat -> 0 <= i < 2 ^ 31 -> vesa_modes v !! Z.to_nat i = Some m ->
  is_vesa m = true -> 0 <= vm_index m < 0x10000 ->
  exists v' f', vesa_set_mode fuel i v = Ok (true, v') /\ bios_ok v' f' /\ mode_of (emu v') = (Z.clearbit (vm_index m) linear_bit, Z.testbit (vm_index m) linear_bit) /\
  current_mode_index v' = i /\ vesa_get_framebuffer v' = (fb_addr m, v') /\ vesa_modes v' = vesa_modes v /\ v_modes v' = v_modes v.
Proof.
  intros [Hv F HJ] Hf Hi Hm Hvesa Hu. unfold vesa_set_mode. rewrite (bind_Ok_l _ _ _ (fetch_Ok (vesa_modes v) i m ltac:(lia) Hm)).
  pose proof (b_write _ _ _ _ _ _ _ B _ _ low_page_begin nop_hlt HJ ltac:(lia) ltac:(vm_compute; discriminate)) as J1.
  assert (Ew : u16 (vm_index m) = vm_index m) by (apply Z.mod_small; exact Hu).
  destruct (int10h_spec n fuel 0x4F02 (vm_index m) 0 0 0 0 v _ _ Hv F Hf (b_set _ _ _ _ _ _ _ B _ _ (vm_index m) J1)) as (v1 & f1 & _ & Ei & [O1 F1 S1] & J2 & Hset).
  assert (Esw : vesa_do_mode_switch fuel (u16 (vm_index m)) (is_vesa m) v = Ok (true, v1)).
  { unfold vesa_do_mode_switch. rewrite Hvesa, Ew, (bind_Ok_l _ _ _ Ei). reflexivity. }
  rewrite (bind_Ok_l _ _ _ Esw). cbv beta iota. unfold settings in S1. injection S1 as Q0 Q1 Q2 Q3 Q4 Q5.
  exists (set_current_mode_index (s32 i) v1), f1. split; [reflexivity|]. split.
  { destruct O1 as [C Pg Cl Lo St Ap Li]. constructor; [constructor; assumption|assumption..]. }
  rewrite s32_small by lia. split; [exact Hset|]. split; [reflexivity|]. split; [|split; [exact Q3|exact Q4]].
  unfold vesa_get_framebuffer. cbn [set_current_mode_index current_mode_index vesa_modes]. rewrite (proj2 (Z.eqb_neq i (-1))) by lia. cbn [negb].
  rewrite u32_small by (unfold is_u32; lia). rewrite Q3, Hm. reflexivity.
Qed.

Lemma number_without_bit m : m ∈ numbers -> 0 <= m < 0x10000 /\ (Z.clearbit m linear_bit, Z.testbit m linear_bit) = (m, false).
Proof.
  intros Hm. pose proof (proj1 (Forall_forall _ _) (b_numbers _ _ _ _ _ _ _ B) m Hm) as R. cbv beta in R.
  assert (T : Z.testbit m linear_bit = false) by (apply (bits_above m linear_bit); [exact R|discriminate|apply Z.le_refl]).
  split; [split; [exact (proj1 R)|exact (Z.lt_trans m (2 ^ linear_bit) 0x10000 (proj2 R) eq_refl)]|]. rewrite T. f_equal.
  apply Z.bits_inj'. intros i Hi. rewrite Z.clearbit_eqb by discriminate. destruct (Z.eqb_spec linear_bit i) as [<-|_]; [rewrite T; reflexivity|].
  apply andb_true_r.
Qed.

End bios.

(** ** The beginning: two buffers and no page. *)
Lemma vesa_start_ok s e : (forall p, bios_page p -> low_page p = false -> free_page p s) ->
  exists v, vesa_start s e = Ok v /\ vesa_ok v /\ emu v = e /\ v_modes v = [] /\ vesa_modes v = [] /\
  forall x, visible x -> in_low x = false -> in_stack x = false -> emulated x v = phys_byte x s.
Proof.
  intros Hfree. unfold vesa_start. pose proof (new_law (low_page_end - low_page_begin) s ltac:(vm_compute; reflexivity)) as N1.
  destruct (new_bytes (low_page_end - low_page_begin) s) as [a s1]. destruct N1 as (P1 & [[A1 A2 A3] F1] & _).
  pose proof (new_law (virtual_stack_end - virtual_stack_begin) s1 ltac:(vm_compute; reflexivity)) as N2.
  destruct (new_bytes (virtual_stack_end - virtual_stack_begin) s1) as [b s2]. destruct N2 as (P2 & [[B1 B2 B3] F2] & D2).
  destruct (hash_map_new_ok (K := Z) (D := Z) 4 ltac:(lia)) as (c & Ec & Hc & Em). change (2 ^ 4) with 16 in Ec. rewrite (bind_Ok_l _ _ _ Ec).
  eexists. split; [reflexivity|]. split; [|].
  { constructor; cbn [mapping_cache host virtual_bootsector virtual_stack pages_mapped pages_allocated].
    - exact Hc.
    - intros p va H. rewrite Em, lookup_empty in H. discriminate.
    - intros p H1 H2. right. auto.
    - exact (proj1 (B3 _ _ P1)).
    - exact P2.
    - destruct (D2 _ _ P1); [right|left]; assumption.
    - rewrite Em, map_to_list_empty. reflexivity. }
  do 3 (split; [reflexivity|]). intros x _ H1 H2. unfold emulated. cbn [host]. rewrite H1, H2, B1. apply A1.
Qed.

(** The memory the emulator sees is one flat memory: a run of the BIOS on a flat memory,
    whatever the ports answer, is a run through the handler of the driver; it ends, no
    assertion fails, and what the BIOS and the memory are afterwards is the same. *)
Theorem bios_runs_on_flat_memory Q n fuel v f : bios n (emu v) f Q -> vesa_ok v -> flat v f -> (n <= fuel)%nat ->
  exists v' f', x86emu_run fuel v = Ok v' /\ vesa_ok v' /\ flat v' f' /\ settings v' = settings v /\ Q (emu v') f'.
Proof.
  intros H Hv F Hf. destruct (x86emu_run_spec Q n fuel v f H Hv F Hf) as (v' & f' & Er & [A1 A2 A3] & HQ). exists v', f'. auto 6.
Qed.

(** ** What the buffers cost: the last address of each is one behind its memory. *)
Theorem buffers_end_early v : map_address low_page_end v = Ok (virtual_bootsector v + (low_page_end - low_page_begin), v)
  /\ map_address virtual_stack_end v = Ok (virtual_stack v + (virtual_stack_end - virtual_stack_begin), v).
Proof. split; reflexivity. Qed.
(** The signature VBE2 asks for a block of 512 bytes; from its place there are 511. *)
Theorem vbe2_block_overruns : block_location + 512 = low_page_begin + (low_page_end - low_page_begin) + 1.
Proof. reflexivity. Qed.
(** A mode with fewer than eight bits, as the text modes of the BIOS have, divides by zero. *)
Theorem scrolling_divides_by_zero fuel off r v mode : vesa_pm_interface v = None ->
  v_modes v !! Z.to_nat (u32 (current_mode_index v)) = Some mode -> 0 <= dm_bpp mode < 8 ->
  vesa_set_diplay_offset fuel off r v = Fault AssertFailed.
Proof.
  intros H1 H2 H3. unfold vesa_set_diplay_offset. rewrite (bind_Ok_l _ _ _ (fetch_Ok _ _ _ (proj1 (u32_range _)) H2)), H1.
  rewrite (Z.div_small (dm_bpp mode) 8 H3). reflexivity.
Qed.
End vesa.

(** ** A machine and a BIOS.  The window on physical memory starts at the second page, the
    kernel's memory at two megabytes. *)
Definition toy : Type := (Z -> Z) * Z.
Definition heap_start : Z := 2 ^ 21.
#[export] Instance toy_ports : ports toy := {
  inb _ s := (0, s); outb _ _ s := s; inw _ s := (0, s); outw _ _ s := s; ind _ s := (0, s); outd _ _ s := s;
  insw _ n s := (repeat 0 (2 * n), s); outsw _ _ s := s }.
#[export] Instance toy_memory : host_memory toy := fun a b s => (fun x => if x =? a then b else s.1 x, s.2).
#[export] Instance toy_host : vesa_host toy := {
  load_byte a s := s.1 a;
  memmanager_map_to_new_pages p _ _ s := (p + PAGE_SIZE, s);
  memmanager_virtual_alloc _ _ s := (0, s); memmanager_unmap_pages _ _ s := s; memmanager_free_pages _ _ s := s;
  physical_memory_allocate_in_range _ _ _ _ s := (1, s);
  new_bytes n s := let a := Z.max s.2 heap_start in (a, (s.1, a + n));
  delete_bytes _ s := s; call_far _ _ _ _ _ s := s }.
Lemma eqb_if {A} (a b : Z) (x y z : A) : (a = b -> x = z) -> (a <> b -> y = z) -> (if a =? b then x else y) = z.
Proof. destruct (Z.eqb_spec a b); auto. Qed.
#[export, refine] Instance toy_laws : vesa_laws toy := {
  phys_byte x s := s.1 (x + PAGE_SIZE);
  shows va pa s := va = pa + PAGE_SIZE /\ 0 <= pa < 2 ^ 20;
  private a n s := heap_start <= a /\ a + n <= s.2;
  free_page p s := True;
  bios_page p := p mod PAGE_SIZE = 0 /\ 0 <= p < 2 ^ 20 }.
Proof.
  - intros va pa s [-> H]. unfold PAGE_SIZE. lia.
  - intros va pa s o [-> H] Ho. cbn. f_equal. lia.
  - intros va pa s o b x [-> H] Ho. cbn. destruct (Z.eqb_spec x (pa + o)), (Z.eqb_spec (x + PAGE_SIZE) (pa + PAGE_SIZE + o)); lia || reflexivity.
  - intros va pa s o b a n i [-> H] _ Ho [Ha _] Hi. cbn. apply eqb_if; [|reflexivity]. intros E0. unfold PAGE_SIZE, heap_start in *. lia.
  - intros a n a' n' s i j b _ _ _ _. reflexivity.
  - intros a n s i b p o [Ha _] Hi [Hp Hr] Ho. cbn. apply eqb_if; [|reflexivity]. intros E0. unfold PAGE_SIZE, heap_start in *.
    assert (p <= 2 ^ 20 - 0x1000) by (Z.to_euclidean_division_equations; lia). lia.
  - intros a b s. auto.
Defined.
Lemma toy_same (s : toy) : same_machine s s.
Proof. split; [constructor; auto|auto]. Qed.
#[export, refine] Instance toy_page_laws : vesa_page_laws toy := {}.
Proof.
  - intros p Hp H. split; [exact Hp|lia].
  - intros p s [Hp Hr]. cbn. split; [split; [reflexivity|exact Hr]|]. split; [unfold PAGE_SIZE; lia|apply toy_same].
  - intros p s _. cbn. split; [lia|]. split; [apply toy_same|auto].
  - intros port s. apply toy_same.
  - intros port s. apply toy_same.
  - intros port s. apply toy_same.
  - intros port v s. apply toy_same.
  - intros port v s. apply toy_same.
  - intros port v s. apply toy_same.
  - intros n s Hn. cbn. split; [split; lia|]. split; [|intros x m [H1 H2]; right; lia].
    split; [|auto]. constructor; [reflexivity|auto|]. intros a m [H1 H2]. cbn. split; [split; lia|reflexivity].
Defined.

(** A BIOS that writes its answer byte by byte. *)
Record toy_bios := mk_bios { calls : list (Z * Z * Z); ax_answer : Z; set_to : Z * bool }.
Fixpoint writes (a : Z) (l : list Z) : list (Z * Z * Z) := match l with [] => [] | b :: l => (a, b, 0x300) :: writes (a + 1) l end.
Definition toy_numbers : list Z := [0x100; 0x101; 0x111; 0x108].
Definition toy_list : Z := 0xC0100.
Definition toy_block : list Z := VESA ++ [0; 3] ++ [0; 0; 0; 0xC0] ++ [0; 0; 0; 0] ++ [0; 1; 0; 0xC0] ++ [16; 0].
(** 640 x 480 with a byte or two for a pixel, in a frame buffer at 0xE0000000; one without. *)
Definition toy_mode (attr bpp pitch model : Z) (colours : list Z) : list Z :=
  le_bytes 2 attr ++ repeat 0 14 ++ le_bytes 2 pitch ++ le_bytes 2 640 ++ le_bytes 2 480 ++ [8; 16; 1; bpp; 1; model; 0; 0; 0] ++ colours ++ [0]
  ++ le_bytes 4 0xE0000000 ++ repeat 0 212.
Definition toy_info (m : Z) : option (list Z) :=
  if m =? 0x100 then Some (toy_mode 0x1B 8 640 4 (repeat 0 8))
  else if m =? 0x101 then Some (toy_mode 0x9B 8 640 4 (repeat 0 8))
  else if m =? 0x111 then Some (toy_mode 0x9B 16 1280 6 [5; 11; 6; 5; 5; 0; 0; 0])
  else None.
Definition toy_call (r : x86_regs) (e : toy_bios) : toy_bios :=
  let to := R_ES r * 16 + R_DI r in
  if R_AX r =? 0x4F00 then mk_bios (writes to toy_block) 0x4f (set_to e)
  else if R_AX r =? 0x4F01 then
    match toy_info (R_CX r) with Some l => mk_bios (writes to l) 0x4f (set_to e) | None => mk_bios [] 0x14f (set_to e) end
  else mk_bios [] 0x4f (Z.clearbit (R_BX r) linear_bit, Z.testbit (R_BX r) linear_bit).
#[export] Instance toy_emu : x86emu toy_bios := {
  X86EMU_MEMIO_X := 0x100; X86EMU_MEMIO_R := 0x200; X86EMU_MEMIO_W := 0x300; X86EMU_MEMIO_I := 0x400; X86EMU_MEMIO_O := 0x500;
  X86EMU_MEMIO_8 := 0; X86EMU_MEMIO_16 := 1; X86EMU_MEMIO_32 := 2; X86EMU_MEMIO_8_NOPERM := 3;
  emu_raise r _ e := toy_call r e; emu_next e := head (calls e); emu_answer _ e := mk_bios (tail (calls e)) (ax_answer e) (set_to e);
  emu_ax := ax_answer; emu_cx _ := 0; emu_di _ := 0; emu_es _ := 0 }.

Fixpoint written (f : Z -> Z) (a : Z) (l : list Z) : Z -> Z := match l with [] => f | b :: l => written (upd f a (le_bytes 1 b)) (a + 1) l end.
Lemma written_upd l : forall f a x, Forall (fun b => 0 <= b < 256) l -> written f a l x = upd f a l x.
Proof.
  induction l as [|b l IH]; intros f a x Hl; cbn [written]; [now rewrite upd_nil|]. apply Forall_cons in Hl as [Hb Hl].
  rewrite (IH _ _ _ Hl), upd_cons. unfold upd at 1 3. destruct ((a + 1 <=? x) && _); [reflexivity|].
  change (le_bytes 1 b) with [b mod 256]. rewrite (Z.mod_small b 256 Hb), upd_cons. apply upd_nil.
Qed.
Lemma access_low x : low_page_begin <= x < low_page_end -> access_ok (S := toy) 1 x.
Proof.
  intros H. split; [lia|]. intros i Hi. replace (x + i) with x by lia. split; [|reflexivity].
  unfold visible, low_page_end, low_page_begin in *. split; [unfold is_u32; lia|]. unfold virtual_stack_end. split; [lia|]. split; [lia|].
  unfold region, in_low, low_page_end, low_page_begin. rewrite !(proj2 (Z.leb_le _ _)) by lia. cbn [andb]. intros E0. lia.
Qed.
Lemma bios_writes Q l : forall a f ax m, low_page_begin <= a -> a + Z.of_nat (length l) <= low_page_end ->
  Q (mk_bios [] ax m) (written f a l) -> bios (S := toy) (length l) (mk_bios (writes a l) ax m) f Q.
Proof.
  induction l as [|b l IH]; intros a f ax m H1 H2 HQ; [exact HQ|]. cbn [length] in *. cbn [writes bios emu_next toy_emu calls head].
  change (access_ok (S := toy) 1 a /\ bios (S := toy) (length l) (mk_bios (writes (a + 1) l) ax m) (upd f a (le_bytes 1 b)) Q).
  split; [apply access_low; lia|]. apply IH; [lia|lia|exact HQ].
Qed.
Lemma bios_more Q n : forall m e f, bios (S := toy) (E := toy_bios) n e f Q -> (n <= m)%nat -> bios (S := toy) m e f Q.
Proof.
  induction n as [|n IH]; intros [|m] e f H Hm; cbn [bios] in *; try lia; (destruct (emu_next e) as [[[a x] t]|]; [|exact H]); try contradiction.
  assert (K : forall y g, bios n (emu_answer y e) g Q -> bios m (emu_answer y e) g Q) by (intros; apply IH; [assumption|lia]).
  unfold bios_step in *. repeat match goal with |- if ?c then _ else _ => destruct c | |- match ?c with Some _ => _ | None => _ end => destruct c end; try (apply K; exact H); try (destruct H; split; [assumption|]; apply K; assumption).
  intros y. apply K, H.
Qed.

Definition toy_J (e : toy_bios) (f : Z -> Z) : Prop := list_at f toy_list toy_numbers.
Lemma toy_J_upd e e' f a l : toy_J e f -> low_page_begin <= a -> a + Z.of_nat (length l) <= low_page_end -> toy_J e' (upd f a l).
Proof.
  unfold toy_J, list_at, low_page_end, low_page_begin, toy_list. intros H H1 H2. rewrite upd_other; [exact H|right].
  etransitivity; [exact H2|]. vm_compute. discriminate.
Qed.
Lemma map_written f a l x k : Forall (fun b => 0 <= b < 256) l -> map (written f a l) (seqZ x k) = map (upd f a l) (seqZ x k).
Proof. intros Hl. apply map_ext. intros y. exact (written_upd l f a y Hl). Qed.
Lemma toy_J_written e e' f a l : Forall (fun b => 0 <= b < 256) l -> toy_J e f -> low_page_begin <= a -> a + Z.of_nat (length l) <= low_page_end ->
  toy_J e' (written f a l).
Proof. intros Hl H H1 H2. unfold toy_J, list_at. rewrite map_written by exact Hl. exact (toy_J_upd e e' f a l H H1 H2). Qed.
Lemma bytes_by l : forallb (fun b => (0 <=? b) && (b <? 256)) l = true -> Forall (fun b => 0 <= b < 256) l.
Proof. intros H. apply Forall_forall. intros x Hx. rewrite forallb_forall in H. apply list_elem_of_In, H, andb_prop in Hx as [H1%Z.leb_le H2%Z.ltb_lt]. lia. Qed.
Lemma toy_info_shape m l : toy_info m = Some l -> length l = 256%nat /\ Forall (fun b => 0 <= b < 256) l.
Proof.
  unfold toy_info. repeat (destruct (m =? _); [intros [= <-]; split; [reflexivity|apply bytes_by; vm_compute; reflexivity]|]). discriminate.
Qed.

Lemma toy_info_block m l : toy_info m = Some l -> vbe_block l.
Proof.
  intros H. destruct (toy_info_shape m l H) as [H1 H2]. constructor; [exact H1|exact H2|]. revert H. clear H1 H2. unfold toy_info.
  repeat (destruct (m =? _); [intros [= <-]; repeat constructor; vm_compute; discriminate|]). discriminate.
Qed.

Lemma toy_vbe : vbe_bios toy_J 300 (mk_far 0 0xC000) (mk_far 0x0100 0xC000) toy_numbers toy_info set_to.
Proof.
  assert (Hp : forall x, 0xC0000 <= x < 0xC0200 -> visible (S := toy) x /\ region x = 0xC0000).
  { intros x Hx. assert (El : in_low x = false) by (unfold in_low, low_page_end, low_page_begin; destruct (Z.leb_spec 0x7C00 x), (Z.leb_spec x (0x7C00 + 1023)); lia || reflexivity).
    assert (Es : in_stack x = false) by (unfold in_stack, virtual_stack_begin, virtual_stack_end; destruct (Z.leb_spec (0x80000 - 1024) x), (Z.leb_spec x 0x80000); lia || reflexivity).
    assert (Ep : page x = 0xC0000) by (unfold page, PAGE_SIZE; Z.to_euclidean_division_equations; lia).
    unfold visible, region. rewrite El, Es, Ep. split; [|reflexivity]. split; [unfold is_u32; lia|]. unfold low_page_end, low_page_begin, virtual_stack_end.
    split; [lia|]. split; [lia|]. intros _. split; [reflexivity|lia]. }
  constructor.
  - intros e f a l. apply toy_J_upd.
  - intros e f H _. change (emu_raise _ 0x10 e) with (mk_bios (writes block_location toy_block) 0x4f (set_to e)).
    apply (bios_more _ (length toy_block)); [|cbn; lia]. apply bios_writes; [vm_compute; discriminate|vm_compute; discriminate|].
    assert (Hb : Forall (fun b => 0 <= b < 256) toy_block) by (apply bytes_by; vm_compute; reflexivity).
    split; [exact (toy_J_written e _ f block_location toy_block Hb H ltac:(vm_compute; discriminate) ltac:(vm_compute; discriminate))|].
    split; [reflexivity|]. split; [|exact (toy_J_written e e f block_location toy_block Hb H ltac:(vm_compute; discriminate) ltac:(vm_compute; discriminate))].
    rewrite map_written by exact Hb. change (Z.of_nat sizeof_vesa_info_block) with (Z.of_nat (length toy_block)). rewrite upd_same. reflexivity.
  - intros e f m _ H. unfold int10_regs. change (emu_raise ?r 0x10 e) with (toy_call r e). unfold toy_call. cbn [R_AX R_CX R_ES R_DI Z.eqb Pos.eqb].
    destruct (toy_info m) as [l|] eqn:Ei; [|cbn; split; [exact H|discriminate]].
    destruct (toy_info_shape m l Ei) as [Hl Hb]. apply (bios_more _ (length l)); [|lia]. change (segment block * 16 + offset block) with block_location.
    assert (Hend : block_location + Z.of_nat (length l) <= low_page_end) by (rewrite Hl; vm_compute; discriminate).
    apply bios_writes; [vm_compute; discriminate|exact Hend|]. split; [exact (toy_J_written e _ f block_location l Hb H ltac:(vm_compute; discriminate) Hend)|].
    split; [reflexivity|]. rewrite map_written by exact Hb. replace (Z.of_nat sizeof_vesa_mode_info) with (Z.of_nat (length l)) by (rewrite Hl; reflexivity). apply upd_same.
  - intros e f m H. change (emu_raise _ 0x10 e) with (mk_bios [] 0x4f (Z.clearbit m linear_bit, Z.testbit m linear_bit)). split; [exact H|reflexivity].
  - change (access (mk_far 0 0xC000)) with 0xC0000. apply Hp. lia.
  - split; [unfold toy_numbers; cbn; lia|]. change (access (mk_far 256 49152)) with 0xC0100. intros i Hi. change (Z.of_nat _) with 10 in Hi.
    destruct (Hp (0xC0100 + i) ltac:(lia)) as [V R]. destruct (Hp 0xC0100 ltac:(lia)) as [_ R0]. split; [exact V|congruence].
  - unfold toy_numbers. repeat constructor; vm_compute; (discriminate || reflexivity).
  - intros m l _. exact (toy_info_block m l).
Qed.

(** The toy machine before the driver: the list of modes is in the memory of the card. *)
Definition toy_start : toy := (fun x => nth (Z.to_nat (x - PAGE_SIZE - toy_list)) (concat (map (le_bytes 2) (toy_numbers ++ [0xFFFF]))) 0, heap_start).
Lemma toy_ready : exists v, vesa_start toy_start (mk_bios [] 0 (3, false)) = Ok v /\ bios_ok toy_J v (fun x => emulated x v) /\ v_modes v = [] /\ vesa_modes v = [] /\ emu v = mk_bios [] 0 (3, false).
Proof.
  destruct (vesa_start_ok toy_start (mk_bios [] 0 (3, false)) ltac:(intros; exact I)) as (v & Es & Hv & Ee & E1 & E2 & _). exists v.
  split; [exact Es|]. split; [|auto]. constructor; [exact Hv|intros x _; reflexivity|].
  unfold vesa_start in Es. injection Es as <-. unfold toy_J, list_at. vm_compute. reflexivity.
Qed.
(** The BIOS reports a mode through the memory of the driver. *)
Lemma bios_runs_on_flat_memory_witness : exists v v' f', vesa_start toy_start (mk_bios [] 0 (3, false)) = Ok v /\
  x86emu_run 10 (put_emu (mk_bios (writes 0x7E00 VESA) 0 (3, false)) v) = Ok v' /\ flat v' f' /\ map f' (seqZ 0x7E00 4) = VESA /\ emu v' = mk_bios [] 0 (3, false).
Proof.
  destruct toy_ready as (v & Es & [Hv F _] & _).
  destruct (bios_runs_on_flat_memory (fun e f => map f (seqZ 0x7E00 4) = VESA /\ e = mk_bios [] 0 (3, false)) 4 10 (put_emu (mk_bios (writes 0x7E00 VESA) 0 (3, false)) v)
    (fun x => emulated x v)) as (v' & f' & Er & _ & F' & _ & HQ & He); [|exact (put_emu_ok _ _ Hv)|exact F|lia|].
  - apply (bios_writes _ VESA 0x7E00 _ 0 (3, false)); [vm_compute; discriminate|vm_compute; discriminate|]. split; [|reflexivity].
    rewrite map_written by (apply bytes_by; vm_compute; reflexivity). apply (upd_same _ 0x7E00 VESA).
  - exists v, v', f'. auto.
Defined.
