(* ===== verification/Ahci.v ===== *)
(** * SATA disks behind an AHCI controller (drivers/ahci.cpp)

    [S] is the machine: the registers of the controller, which [rd] and [wr] access at their
    virtual addresses, the memory it shares with the driver, and the configuration space.
    The driver is not finished: nothing it finds is used, and its initialisation stops the
    kernel.  Messages are left out. *)
From S2P Require Import Prelude Paging Ports Pci BlockStore Vga.

Class hba (S : Type) := {
  rd : Z -> S -> Z * S;
  wr : Z -> Z -> S -> S;
  ld : Z -> S -> Z;
  get_physical_of : Z -> S -> Z;
  physical_allocate : Z -> Z -> S -> Z * S;
  map_pages : Z -> Z -> Z -> S -> Z * S }.

Definition HBA_PxIS_TFES : Z := Z.shiftl 1 30.
Definition ATA_DEV_BUSY : Z := 0x80.
Definition ATA_DEV_DRQ : Z := 0x08.
Definition SATA_SIG_ATAPI : Z := 0xEB140101.
Definition SATA_SIG_SEMB : Z := 0xC33C0101.
Definition SATA_SIG_PM : Z := 0x96690101.
Definition HBA_PORT_DET_PRESENT : Z := 3.
Definition HBA_PORT_IPM_ACTIVE : Z := 1.
Definition FIS_TYPE_REG_H2D : Z := 0x27.
Definition HBA_PxCMD_ST : Z := 0x0001.
Definition HBA_PxCMD_FRE : Z := 0x0010.
Definition HBA_PxCMD_FR : Z := 0x4000.
Definition HBA_PxCMD_CR : Z := 0x8000.
Definition AHCI_CMD_READ_DMA_EXT : Z := 0x25.
Definition AHCI_CMD_WRITE_DMA_EXT : Z := 0x35.
Definition AHCI_CMD_IDENTIFY : Z := 0xEC.

(** The registers of a port, and the sizes of the packed structures. *)
Definition px_clb : Z := 0x00.
Definition px_fb : Z := 0x08.
Definition px_is : Z := 0x10.
Definition px_cmd : Z := 0x18.
Definition px_tfd : Z := 0x20.
Definition px_sig : Z := 0x24.
Definition px_ssts : Z := 0x28.
Definition px_sact : Z := 0x34.
Definition px_ci : Z := 0x38.
Definition sizeof_hba_port : Z := 0x80.
Definition hba_cap : Z := 0x00.
Definition hba_pi : Z := 0x0C.
Definition hba_ports : Z := 0x100.
Definition sizeof_hba_mem : Z := hba_ports + sizeof_hba_port.
Definition sizeof_hba_cmd_hdr : Z := 32.
Definition sizeof_prdt_entry : Z := 16.
Definition tbl_prdt : Z := 128.
Definition sizeof_hba_cmd_tbl : Z := tbl_prdt + sizeof_prdt_entry.
Definition sizeof_fis_h2d : Z := 20.

Inductive ahci_drive_type := SATA | SATAPI | SEMB | PORT_MUL | UNKNOWN.
#[export] Instance ahci_drive_type_eq_dec : EqDecision ahci_drive_type.
Proof. solve_decision. Defined.
Record ahci_controller := mk_controller { num_cmd_slots : Z; abar : Z; phys_base : Z; virt_base : Z }.
Record ahci_drive := mk_adrive { controller : ahci_controller; port : Z; ad_type : ahci_drive_type }.
Definition get_addr (addr : Z) (c : ahci_controller) : Z := sub32 (add32 (virt_base c) addr) (phys_base c).

Section ahci.
Context {S : Type} {H : hba S} {HM : host_memory S}.

(** ** Structures in memory *)
Definition store_le (n : nat) (a v : Z) (s : S) : S := store_bytes a (le_bytes n v) s.
Fixpoint load_le_bytes (n : nat) (a : Z) (s : S) : list Z :=
  match n with O => [] | Datatypes.S n => ld a s :: load_le_bytes n (a + 1) s end.
Definition load_le (n : nat) (a : Z) (s : S) : Z := le_value (load_le_bytes n a s).
Definition memset (a n : Z) (s : S) : S := store_bytes a (repeat 0 (Z.to_nat n)) s.
(** Assigning a bit-field: the other bits of its byte or word stay. *)
Definition set_field (old pos width v : Z) : Z :=
  old - Z.land (Z.shiftr old pos) (2 ^ width - 1) * 2 ^ pos + Z.land v (2 ^ width - 1) * 2 ^ pos.
Definition store_field (n : nat) (a pos width v : Z) (s : S) : S := store_le n a (set_field (load_le n a s) pos width v) s.

(** A register of 64 bits is two of 32. *)
Definition rd64 (a : Z) (s : S) : Z * S := let '(lo, s) := rd a s in let '(hi, s) := rd (a + 4) s in (lo + 2 ^ 32 * hi, s).
Definition wr64 (a v : Z) (s : S) : S := wr (a + 4) (v / 2 ^ 32) (wr a (u32 v) s).
Definition or_reg (a mask : Z) (s : S) : S := let '(v, s) := rd a s in wr a (Z.lor v mask) s.
Definition and_reg (a mask : Z) (s : S) : S := let '(v, s) := rd a s in wr a (Z.land v mask) s.

(** ** The command engine *)
Fixpoint wait_reg (fuel : nat) (a mask : Z) (s : S) : outcome S :=
  match fuel with
  | O => Fault OutOfFuel
  | Datatypes.S fuel => let '(v, s) := rd a s in if has v mask then wait_reg fuel a mask s else Ok s
  end.
Definition ahci_start_cmd (fuel : nat) (p : Z) (s : S) : outcome S :=
  s ← wait_reg fuel (p + px_cmd) HBA_PxCMD_CR s;
  Ok (or_reg (p + px_cmd) HBA_PxCMD_ST (or_reg (p + px_cmd) HBA_PxCMD_FRE s)).
Fixpoint wait_stopped (fuel : nat) (p : Z) (s : S) : outcome S :=
  match fuel with
  | O => Fault OutOfFuel
  | Datatypes.S fuel =>
    let '(v, s) := rd (p + px_cmd) s in
    if has v HBA_PxCMD_FR then wait_stopped fuel p s
    else let '(v, s) := rd (p + px_cmd) s in if has v HBA_PxCMD_CR then wait_stopped fuel p s else Ok s
  end.
Definition ahci_stop_cmd (fuel : nat) (p : Z) (s : S) : outcome S :=
  wait_stopped fuel p (and_reg (p + px_cmd) (not32 HBA_PxCMD_FRE) (and_reg (p + px_cmd) (not32 HBA_PxCMD_ST) s)).

Definition cmd_offset (port_num : Z) : Z := add32 (Z.shiftl 32 10) (shl32 port_num 8).
Definition fis_offset (port_num : Z) : Z := add32 (Z.shiftl 32 10) (shl32 port_num 8).
Definition tbl_offset (port_num i : Z) : Z := add32 (add32 (Z.shiftl 40 10) (shl32 port_num 13)) (Z.shiftl i 8).
Fixpoint set_headers (n : nat) (c : ahci_controller) (port_num hdr i : Z) (s : S) : S :=
  match n with
  | O => s
  | Datatypes.S n =>
    let h := hdr + i * sizeof_hba_cmd_hdr in
    let s := store_le 2 (h + 2) 8 s in
    let s := store_le 8 (h + 8) (add32 (phys_base c) (tbl_offset port_num i)) s in
    set_headers n c port_num hdr (i + 1) (memset (add32 (virt_base c) (tbl_offset port_num i)) 256 s)
  end.
Definition port_rebase (fuel : nat) (c : ahci_controller) (p port_num : Z) (s : S) : outcome S :=
  s ← ahci_stop_cmd fuel p s;
  let s := wr64 (p + px_clb) (add32 (phys_base c) (cmd_offset port_num)) s in
  let s := memset (add32 (virt_base c) (cmd_offset port_num)) 1024 s in
  let s := wr64 (p + px_fb) (add32 (phys_base c) (fis_offset port_num)) s in
  let s := memset (add32 (virt_base c) (fis_offset port_num)) 256 s in
  let '(hdr, s) := rd64 (p + px_clb) s in
  ahci_start_cmd fuel p (set_headers 32 c port_num (u32 hdr) 0 s).

(** ** Commands *)
Fixpoint free_slot (n : nat) (i slots : Z) : option Z :=
  match n with O => None | Datatypes.S n => if Z.land slots 1 =? 0 then Some i else free_slot n (i + 1) (Z.shiftr slots 1) end.
Definition find_cmdslot (d : ahci_drive) (s : S) : Z * S :=
  let '(sact, s) := rd (port d + px_sact) s in
  let '(ci, s) := rd (port d + px_ci) s in
  let n := num_cmd_slots (controller d) in
  (match free_slot (Z.to_nat n) 0 (Z.lor sact ci) with Some i => i | None => n end, s).

Definition ahci_get_drive_type (p : Z) (s : S) : ahci_drive_type * S :=
  let '(ssts, s) := rd (p + px_ssts) s in
  let ipm := Z.land (Z.shiftr ssts 8) 0x0F in
  let det := Z.land ssts 0x0F in
  if negb (det =? HBA_PORT_DET_PRESENT) then (UNKNOWN, s)
  else if negb (ipm =? HBA_PORT_IPM_ACTIVE) then (UNKNOWN, s)
  else let '(sig, s) := rd (p + px_sig) s in
    (if sig =? SATA_SIG_ATAPI then SATAPI else if sig =? SATA_SIG_SEMB then SEMB else if sig =? SATA_SIG_PM then PORT_MUL else SATA, s).

Fixpoint complete_loop (fuel : nat) (p slot : Z) (s : S) : outcome (bool * S) :=
  match fuel with
  | O => Fault OutOfFuel
  | Datatypes.S fuel =>
    let '(ci, s) := rd (p + px_ci) s in
    if Z.land ci (shl32 1 slot) =? 0 then Ok (true, s)
    else let '(px, s) := rd (p + px_is) s in if has px HBA_PxIS_TFES then Ok (false, s) else complete_loop fuel p slot s
  end.
Definition ahci_wait_complete (fuel : nat) (p slot : Z) (s : S) : outcome (bool * S) :=
  '(ok, s) ← complete_loop fuel p slot s;
  if ok : bool then let '(px, s) := rd (p + px_is) s in Ok (negb (has px HBA_PxIS_TFES), s) else Ok (false, s).

(** [spins] is what is left of the million. *)
Fixpoint busy_loop (spins : nat) (p : Z) (s : S) : bool * S :=
  let '(tfd, s) := rd (p + px_tfd) s in
  match spins with
  | O => (false, s)
  | Datatypes.S spins => if has tfd (Z.lor ATA_DEV_BUSY ATA_DEV_DRQ) then busy_loop spins p s else (true, s)
  end.
Definition ahci_wait_busy (spins : nat) (p : Z) (s : S) : bool * S := busy_loop spins p s.

(** The header of the slot, and the table it names. *)
Definition set_header (write : bool) (num_prdts h : Z) (s : S) : S :=
  let s := store_field 1 h 6 1 (if write then 1 else 0) s in
  let s := store_field 1 h 0 5 (sizeof_fis_h2d / 4) s in
  store_le 2 (h + 2) num_prdts s.
Definition set_prdt (tbl i addr size : Z) (s : S) : S :=
  let e := tbl + tbl_prdt + i * sizeof_prdt_entry in
  let s := store_le 8 e addr s in
  store_field 4 (e + 12) 31 1 1 (store_field 4 (e + 12) 0 22 size s).
(** 8 KB for each entry but the last: what is left are the address and the sectors. *)
Fixpoint fill_prdts (n : nat) (tbl i phys_addr num_sectors : Z) (s : S) : Z * Z * S :=
  match n with
  | O => (phys_addr, num_sectors, s)
  | Datatypes.S n => fill_prdts n tbl (i + 1) (add32 phys_addr (4 * 1024)) (u8 (num_sectors - 16)) (set_prdt tbl i phys_addr (8 * 1024 - 1) s)
  end.
Definition set_command (tbl command device : Z) (s : S) : S :=
  let s := store_le 1 tbl FIS_TYPE_REG_H2D s in
  let s := store_field 1 (tbl + 1) 7 1 1 s in
  let s := store_le 1 (tbl + 2) command s in
  store_le 1 (tbl + 7) device s.
Definition set_lba (tbl lba : Z) (s : S) : S :=
  let s := store_le 1 (tbl + 4) (Z.shiftr (Z.land lba 0x000000FF) 0) s in
  let s := store_le 1 (tbl + 5) (Z.shiftr (Z.land lba 0x0000FF00) 8) s in
  let s := store_le 1 (tbl + 6) (Z.shiftr (Z.land lba 0x00FF0000) 16) s in
  let s := store_le 1 (tbl + 8) (Z.shiftr (Z.land lba 0xFF000000) 24) s in
  let s := store_le 1 (tbl + 9) (Z.shiftr (Z.land lba 0x00FF00000000) 32) s in
  store_le 1 (tbl + 10) (Z.shiftr (Z.land lba 0xFF0000000000) 40) s.

Definition command_header (d : ahci_drive) (slot : Z) (s : S) : Z * S :=
  let '(clb, s) := rd64 (port d + px_clb) s in
  (add32 (get_addr (u32 clb) (controller d)) (slot * sizeof_hba_cmd_hdr), s).
Definition command_table (d : ahci_drive) (h : Z) (s : S) : Z := get_addr (u32 (load_le 8 (h + 8) s)) (controller d).

Definition ahci_access (fuel spins : nat) (write : bool) (d : ahci_drive) (lba num_sectors buffer : Z) (s : S) : outcome (bool * S) :=
  let s := wr (port d + px_is) (u32 (-1)) s in
  let '(slot, s) := find_cmdslot d s in
  if num_cmd_slots (controller d) <=? slot then Ok (false, s) else
  let phys_addr := get_physical_of buffer s in
  let '(h, s) := command_header d slot s in
  let num_prdts := Z.quot (num_sectors - 1) 16 + 1 in
  let s := set_header write num_prdts h s in
  let tbl := command_table d h s in
  let s := memset tbl (sizeof_hba_cmd_tbl + (num_prdts - 1) * sizeof_prdt_entry) s in
  let '(phys_addr, num_sectors, s) := fill_prdts (Z.to_nat (num_prdts - 1)) tbl 0 phys_addr num_sectors s in
  let s := set_prdt tbl (num_prdts - 1) phys_addr (u32 (Z.shiftl num_sectors 9 - 1)) s in
  let s := set_command tbl (if write then AHCI_CMD_WRITE_DMA_EXT else AHCI_CMD_READ_DMA_EXT) (Z.shiftl 1 6) s in
  let s := store_le 2 (tbl + 12) num_sectors (set_lba tbl lba s) in
  let '(_, s) := ahci_wait_busy spins (port d) s in
  let s := wr (port d + px_ci) (shl32 1 slot) s in
  ahci_wait_complete fuel (port d) slot s.

Definition ahci_identify (fuel spins : nat) (d : ahci_drive) (buffer : Z) (s : S) : outcome (bool * S) :=
  let s := wr (port d + px_is) (u32 (-1)) s in
  let '(slot, s) := find_cmdslot d s in
  if num_cmd_slots (controller d) <=? slot then Ok (false, s) else
  let phys_addr := get_physical_of buffer s in
  let '(h, s) := command_header d slot s in
  let s := set_header false 1 h s in
  let tbl := command_table d h s in
  let s := memset tbl sizeof_hba_cmd_tbl s in
  let s := set_prdt tbl 0 phys_addr 512 s in
  let s := set_command tbl AHCI_CMD_IDENTIFY 0xA0 s in
  let '(ready, s) := ahci_wait_busy spins (port d) s in
  if negb ready then Ok (false, s) else
  let s := wr (port d + px_ci) (shl32 1 slot) s in
  '(ok, s) ← ahci_wait_complete fuel (port d) slot s;
  if ok : bool then _ ← k_assert false; Ok (true, s) else Ok (false, s).

(** The arguments are in the order of the source. *)
Definition ahci_read_blocks (fuel spins : nat) (d : ahci_drive) (block_number buf num_blocks : Z) (s : S) : outcome S :=
  '(_, s) ← ahci_access fuel spins false d num_blocks (u8 block_number) buf s; Ok s.

(** ** Finding the controllers *)
Fixpoint probe_ports (n : nat) (fuel : nat) (c : ahci_controller) (i pi : Z) (s : S) : outcome S :=
  match n with
  | O => Ok s
  | Datatypes.S n =>
    s ← (if has pi 0x01 then
        let p := abar c + hba_ports + i * sizeof_hba_port in
        let '(_, s) := ahci_get_drive_type p s in port_rebase fuel c p i s
      else Ok s);
    probe_ports n fuel c (i + 1) (Z.shiftr pi 1) s
  end.
Definition probe_port (fuel : nat) (c : ahci_controller) (s : S) : outcome S :=
  let '(pi, s) := rd (abar c + hba_pi) s in probe_ports 32 fuel c 0 pi s.

Context {P : ports S}.
Definition PCI_BAR5 : Z := 0x24.
(** SATA controllers, and one IDE controller that can be told to be one. *)
Definition ahci_class (device : pci_device) (s : S) : bool * S :=
  let '(d_class, s) := pci_read8 device PCI_CLASS s in
  let '(d_sclass, s) := pci_read8 device PCI_SUBCLASS s in
  if negb (d_class =? 0x01) then (false, s)
  else if d_sclass =? 0x01 then
    let '(vendor, s) := pci_read16 device PCI_VENDOR_ID s in
    if vendor =? 0x8086 then
      let '(id, s) := pci_read16 device PCI_DEVICE_ID s in
      if id =? 0x27C0 then (true, pci_write8 device 0x90 0x40 s) else (false, s)
    else (false, s)
  else (d_sclass =? 0x06, s).
Definition ahci_found (fuel : nat) (device : pci_device) (s : S) : outcome (option ahci_controller * S) :=
  let '(yes, s) := ahci_class device s in
  if negb yes then Ok (None, s) else
  let '(bar5, s) := pci_read32 device PCI_BAR5 s in
  let '(bar5, s) := (if bar5 =? 0 then
      let '(bar5, s) := physical_allocate PAGE_SIZE PAGE_SIZE s in (bar5, pci_write32 device PCI_BAR5 bar5 s)
    else (bar5, s)) in
  let '(v_addr, s) := map_pages bar5 (memmanager_minimum_pages sizeof_hba_mem) (Z.lor PAGE_PRESENT PAGE_RW) s in
  let mem_size := 296 * 1024 in
  let '(phys, s) := physical_allocate mem_size PAGE_SIZE s in
  let '(virt, s) := map_pages phys (memmanager_minimum_pages mem_size) (Z.lor PAGE_PRESENT PAGE_RW) s in
  let '(cap, s) := rd (v_addr + hba_cap) s in
  let c := mk_controller (Z.shiftr (Z.land cap 0x0f00) 8) v_addr phys virt in
  s ← probe_port fuel c s; Ok (Some c, s).
Fixpoint ahci_find_all (fuel : nat) (l : list pci_device) (found : list ahci_controller) (s : S) : outcome (list ahci_controller * S) :=
  match l with
  | [] => Ok (found, s)
  | d :: l => '(c, s) ← ahci_found fuel d s; ahci_find_all fuel l (found ++ option_list c) s
  end.
(** The devices are handled after the scan instead of during it.  No drive is ever added to
    the list that is then walked. *)
Definition ahci_init (fuel depth : nat) (s : S) : outcome (Z * S) :=
  '(calls, s) ← pci_device_by_class 0xFF 0xFF depth s;
  '(_, s) ← ahci_find_all fuel (map (fun c : call => c.1.1) calls) [] s;
  _ ← k_assert false; Ok (0, s).
End ahci.
