(* ===== verification/AhciProofs.v ===== *)
(** * A transfer of up to sixteen sectors is what the controller does

    The controller is what the standard says of a port: when a command is issued it reads
    the header and the table of the slot from memory, moves the sectors between the disk and
    the regions of the table, and clears the bit of the slot some time later.  What the
    driver has written there is a command that moves exactly the sectors. *)
From S2P Require Import Prelude Paging Ports Pci BlockStore ByteView Vga Ahci.

(** ** Commands as the controller reads them *)
Record sata_command := mk_sata { c_write : bool; c_lba : Z; c_count : Z; c_regions : list (Z * Z) }.
Definition region_at (f : Z -> Z) (e : Z) : Z * Z := (get 8 f e, Z.land (get 4 f (e + 12)) (2 ^ 22 - 1) + 1).
(** [h] is the header; the register FIS of a transfer of sectors by 48 bits. *)
Definition decode (f : Z -> Z) (h : Z) : option sata_command :=
  let flags := get 1 f h in
  let t := get 8 f (h + 8) in
  let w := has flags 0x40 in
  if (Z.land flags 0x1f =? 5) && (get 1 f t =? 0x27) && has (get 1 f (t + 1)) 0x80 && (get 1 f (t + 2) =? (if w then 0x35 else 0x25))
     && has (get 1 f (t + 7)) 0x40 then
    Some (mk_sata w (get 3 f (t + 4) + 2 ^ 24 * get 3 f (t + 8)) (get 2 f (t + 12))
      (map (fun i => region_at f (t + 128 + 16 * i)) (seqZ 0 (get 2 f (h + 2)))))
  else None.

(** A read puts the bytes into the regions, one after the other; a write takes them from there. *)
Fixpoint scatter (rs : list (Z * Z)) (l : list Z) (f : Z -> Z) : Z -> Z :=
  match rs with [] => f | (a, n) :: rs => scatter rs (drop (Z.to_nat n) l) (upd f a (take (Z.to_nat n) l)) end.
Definition gather (rs : list (Z * Z)) (f : Z -> Z) : list Z := concat (map (fun r => map f (seqZ r.1 r.2)) rs).
Definition run_memory (c : sata_command) (mem dsk : Z -> Z) : Z -> Z :=
  if c_write c then mem else scatter (c_regions c) (map dsk (seqZ (c_lba c * 512) (c_count c * 512))) mem.
Definition run_disk (c : sata_command) (mem dsk : Z -> Z) : Z -> Z :=
  if c_write c then upd dsk (c_lba c * 512) (gather (c_regions c) mem) else dsk.
Definition command_ok (c : sata_command) : Prop :=
  0 < c_count c /\ foldr (fun r n => r.2 + n) 0 (c_regions c) = c_count c * 512.

Definition window_size : Z := 296 * 1024.
(** A port of a controller whose memory the driver sees at [virt_base]; [polls] bounds how
    often the driver reads the slots before a command is done.  While the drive is busy no
    command may be issued: what comes of one is not said. *)
Class sata_port (S : Type) {H : hba S} {HM : host_memory S} (c : ahci_controller) (p : Z) (polls : nat) := {
  mem : Z -> S -> Z;
  dsk : Z -> S -> Z;
  clb : S -> Z;
  busy : S -> option (Z * nat);
  (** how often the drive is still read as busy *)
  task : S -> nat;
  quiet s s' := (forall x, mem x s' = mem x s) /\ (forall x, dsk x s' = dsk x s) /\ clb s' = clb s /\ busy s' = busy s /\ task s' = task s;
  mem_range x s : 0 <= mem x s < 256;
  clb_range s : is_u32 (clb s);
  ld_window o s : 0 <= o < window_size -> ld (virt_base c + o) s = mem (phys_base c + o) s;
  st_window o b s : 0 <= o < window_size -> 0 <= b < 256 -> let s' := store_byte (virt_base c + o) b s in
    (forall x, mem x s' = if x =? phys_base c + o then b else mem x s) /\ (forall x, dsk x s' = dsk x s) /\ clb s' = clb s /\ busy s' = busy s /\ task s' = task s;
  rd_quiet r s : r ∈ [px_clb; px_clb + 4; px_is; px_sact] -> quiet s (rd (p + r) s).2;
  rd_clb s : (rd (p + px_clb) s).1 = clb s /\ (rd (p + (px_clb + 4)) s).1 = 0;
  rd_is s : has (rd (p + px_is) s).1 HBA_PxIS_TFES = false;
  rd_sact s : busy s = None -> (rd (p + px_sact) s).1 = 0;
  rd_tfd s : let '(v, s') := rd (p + px_tfd) s in
    (forall x, mem x s' = mem x s) /\ (forall x, dsk x s' = dsk x s) /\ clb s' = clb s /\ busy s' = busy s /\
    has v (Z.lor ATA_DEV_BUSY ATA_DEV_DRQ) = negb (task s =? 0)%nat /\ task s' = pred (task s);
  rd_ci s : let '(v, s') := rd (p + px_ci) s in
    (forall x, mem x s' = mem x s) /\ (forall x, dsk x s' = dsk x s) /\ clb s' = clb s /\ task s' = task s /\
    match busy s with
    | None => v = 0 /\ busy s' = None
    | Some (slot, n) => v = 2 ^ slot /\ busy s' = match n with O => None | Datatypes.S n => Some (slot, n) end
    end;
  wr_is v s : quiet s (wr (p + px_is) v s);
  wr_ci slot s cmd : busy s = None -> task s = 0%nat -> 0 <= slot < 32 -> decode (fun x => mem x s) (clb s + 32 * slot) = Some cmd -> command_ok cmd ->
    let s' := wr (p + px_ci) (2 ^ slot) s in
    (forall x, mem x s' = run_memory cmd (fun y => mem y s) (fun y => dsk y s) x) /\
    (forall x, dsk x s' = run_disk cmd (fun y => mem y s) (fun y => dsk y s) x) /\ clb s' = clb s /\
    exists n, (n < polls)%nat /\ busy s' = Some (slot, n) }.

Lemma set_field_flags w : forall old, 0 <= old < 256 ->
  let v := set_field (set_field old 6 1 (if w : bool then 1 else 0)) 0 5 5 in
  0 <= v < 256 /\ Z.land v 0x1f = 5 /\ has v 0x40 = w.
Proof.
  intros old Ho. cbv zeta. pose (ok := fun old => let v := set_field (set_field old 6 1 (if w then 1 else 0)) 0 5 5 in
    (0 <=? v) && (v <? 256) && (Z.land v 0x1f =? 5) && Bool.eqb (has v 0x40) w).
  assert (A : forallb ok (seqZ 0 256) = true) by (destruct w; vm_compute; reflexivity).
  rewrite forallb_forall in A. specialize (A old). unfold ok in A. rewrite !andb_true_iff in A.
  destruct A as [[[A1%Z.leb_le A2%Z.ltb_lt] A3%Z.eqb_eq] A4%eqb_prop]; [apply list_elem_of_In, elem_of_seqZ; lia|]. auto.
Qed.
Lemma set_field_size size : 0 <= size < 2 ^ 22 -> set_field 0 0 22 size = size /\ set_field size 31 1 1 = size + 2 ^ 31.
Proof.
  intros Hs. unfold set_field. rewrite Z.shiftr_0_l, Z.land_0_l, land_low_mask, (Z.mod_small size) by lia. split; [lia|].
  rewrite Z.shiftr_div_pow2, (Z.div_small size) by lia. rewrite Z.land_0_l. change (Z.land 1 (2 ^ 1 - 1)) with 1. lia.
Qed.

Section port.
Context {S : Type} {H : hba S} {HM : host_memory S} (c : ahci_controller) (p : Z) (polls : nat) {A : sata_port S c p polls}.
#[local] Set Default Proof Using "A".
Implicit Types (s : S) (f : Z -> Z) (o x : Z).

(** ** The window.  [does g F]: on the bytes of the window [g] is [F], and it changes nothing
    else. *)
Definition window s o : Z := mem (phys_base c + o) s.
Record stays s s' : Prop := {
  st_mem : forall x, x < phys_base c \/ phys_base c + window_size <= x -> mem x s' = mem x s;
  st_dsk : forall x, dsk x s' = dsk x s;
  st_clb : clb s' = clb s;
  st_busy : busy s' = busy s;
  st_task : (task s' <= task s)%nat }.
Definition sees s f : Prop := forall o, window s o = f o.
Definition does (g : S -> S) (F : (Z -> Z) -> Z -> Z) : Prop := forall s f, sees s f -> sees (g s) (F f) /\ stays s (g s).

Lemma stays_refl s : stays s s.
Proof. constructor; auto. Qed.
Lemma stays_trans s1 s2 s3 : stays s1 s2 -> stays s2 s3 -> stays s1 s3.
Proof. intros [M1 D1 C1 B1 T1] [M2 D2 C2 B2 T2]. constructor; [intros x Hx; rewrite (M2 x Hx); auto|intros x; now rewrite D2|congruence|congruence|lia]. Qed.
Lemma quiet_stays s s' : quiet s s' -> stays s s' /\ forall f, sees s f -> sees s' f.
Proof. intros (M & D & C & B & T). split; [constructor; auto; lia|]. intros f Hf o. unfold window. rewrite M. apply Hf. Qed.
Lemma does_comp g1 g2 F1 F2 : does g1 F1 -> does g2 F2 -> does (fun s => g2 (g1 s)) (fun f => F2 (F1 f)).
Proof.
  intros D1 D2 s f Hf. destruct (D1 s f Hf) as [H1 S1]. destruct (D2 (g1 s) _ H1) as [H2 S2]. split; [exact H2|exact (stays_trans _ _ _ S1 S2)].
Qed.

Lemma store_window l : forall o s f, 0 <= o -> o + Z.of_nat (length l) <= window_size -> Forall (fun b => 0 <= b < 256) l -> sees s f ->
  sees (store_bytes (virt_base c + o) l s) (upd f o l) /\ stays s (store_bytes (virt_base c + o) l s).
Proof.
  induction l as [|b l IH]; intros o s f H1 H2 Hl Hf; cbn [store_bytes].
  { split; [intros x; rewrite upd_nil; apply Hf|apply stays_refl]. }
  cbn [length] in H2. apply Forall_cons in Hl as [Hb Hl]. destruct (st_window o b s ltac:(lia) Hb) as (M & D & C & B & T).
  replace (virt_base c + o + 1) with (virt_base c + (o + 1)) by lia.
  destruct (IH (o + 1) (store_byte (virt_base c + o) b s) (fun y => if y =? o then b else f y) ltac:(lia) ltac:(lia) Hl) as [I1 I2].
  { intros x. unfold window. rewrite M. destruct (Z.eqb_spec x o), (Z.eqb_spec (phys_base c + x) (phys_base c + o)); [reflexivity|lia|lia|apply Hf]. }
  split; [intros x; rewrite upd_cons; apply I1|]. refine (stays_trans _ _ _ _ I2). constructor; [|exact D|exact C|exact B|rewrite T; apply Nat.le_refl].
  intros x Hx. rewrite M. destruct (Z.eqb_spec x (phys_base c + o)); [lia|reflexivity].
Qed.
Lemma does_store_le n o v : 0 <= o -> o + Z.of_nat n <= window_size -> does (store_le n (virt_base c + o) v) (fun f => upd f o (le_bytes n v)).
Proof. intros H1 H2 s f Hf. apply store_window; [exact H1|rewrite le_bytes_length; exact H2|apply le_bytes_bytes|exact Hf]. Qed.
Lemma does_memset n o : 0 <= o -> 0 <= n -> o + n <= window_size -> does (memset (virt_base c + o) n) (fun f => upd f o (repeat 0 (Z.to_nat n))).
Proof.
  intros H1 H2 H3 s f Hf. apply store_window; [exact H1|rewrite repeat_length; lia| |exact Hf].
  apply Forall_forall. intros x Hx. apply list_elem_of_In, repeat_spec in Hx as ->. lia.
Qed.
Lemma load_window s f : sees s f -> forall n o, 0 <= o -> o + Z.of_nat n <= window_size -> load_le n (virt_base c + o) s = get n f o.
Proof.
  intros Hf n o H1 H2. unfold load_le, get. f_equal. revert o H1 H2. induction n as [|n IH]; intros o H1 H2; [reflexivity|].
  cbn [load_le_bytes]. rewrite Nat2Z.inj_succ, seqZ_cons by lia. cbn [map]. rewrite ld_window by lia. f_equal; [apply Hf|].
  replace (virt_base c + o + 1) with (virt_base c + (o + 1)) by lia. rewrite IH by lia. f_equal. f_equal; lia.
Qed.
Lemma does_store_field n o pos w v : 0 <= o -> o + Z.of_nat n <= window_size ->
  does (store_field n (virt_base c + o) pos w v) (fun f => upd f o (le_bytes n (set_field (get n f o) pos w v))).
Proof. intros H1 H2 s f Hf. unfold store_field. rewrite (load_window s f Hf n o H1 H2). apply (does_store_le n o _ H1 H2 s f Hf). Qed.

(** ** The pieces of a command, as functions on the window *)
Definition header_bytes (w : bool) (num oh : Z) f : Z -> Z :=
  let f := upd f oh (le_bytes 1 (set_field (get 1 f oh) 6 1 (if w then 1 else 0))) in
  upd (upd f oh (le_bytes 1 (set_field (get 1 f oh) 0 5 (sizeof_fis_h2d / 4)))) (oh + 2) (le_bytes 2 num).
Definition prdt_bytes (e addr size : Z) f : Z -> Z :=
  let f := upd f e (le_bytes 8 addr) in
  let f := upd f (e + 12) (le_bytes 4 (set_field (get 4 f (e + 12)) 0 22 size)) in
  upd f (e + 12) (le_bytes 4 (set_field (get 4 f (e + 12)) 31 1 1)).
Definition command_bytes (ot command device : Z) f : Z -> Z :=
  let f := upd f ot (le_bytes 1 FIS_TYPE_REG_H2D) in
  let f := upd f (ot + 1) (le_bytes 1 (set_field (get 1 f (ot + 1)) 7 1 1)) in
  upd (upd f (ot + 2) (le_bytes 1 command)) (ot + 7) (le_bytes 1 device).
Definition lba_bytes (ot lba : Z) f : Z -> Z :=
  let f := upd f (ot + 4) (le_bytes 1 (Z.shiftr (Z.land lba 0x000000FF) 0)) in
  let f := upd f (ot + 5) (le_bytes 1 (Z.shiftr (Z.land lba 0x0000FF00) 8)) in
  let f := upd f (ot + 6) (le_bytes 1 (Z.shiftr (Z.land lba 0x00FF0000) 16)) in
  let f := upd f (ot + 8) (le_bytes 1 (Z.shiftr (Z.land lba 0xFF000000) 24)) in
  let f := upd f (ot + 9) (le_bytes 1 (Z.shiftr (Z.land lba 0x00FF00000000) 32)) in
  upd f (ot + 10) (le_bytes 1 (Z.shiftr (Z.land lba 0xFF0000000000) 40)).

Lemma does_header w num oh : 0 <= oh -> oh + 32 <= window_size -> does (set_header w num (virt_base c + oh)) (header_bytes w num oh).
Proof.
  intros H1 H2. unfold set_header, header_bytes. rewrite <- (Z.add_assoc _ oh 2).
  exact (does_comp _ _ _ _ (does_comp _ _ _ _ (does_store_field 1 oh 6 1 (if w then 1 else 0) H1 ltac:(lia)) (does_store_field 1 oh 0 5 (sizeof_fis_h2d / 4) H1 ltac:(lia)))
    (does_store_le 2 (oh + 2) num ltac:(lia) ltac:(lia))).
Qed.
Lemma does_prdt ot i addr size : 0 <= ot -> 0 <= i -> ot + 128 + 16 * i + 16 <= window_size ->
  does (set_prdt (virt_base c + ot) i addr size) (prdt_bytes (ot + 128 + 16 * i) addr size).
Proof.
  intros H1 H2 H3. unfold set_prdt, prdt_bytes, tbl_prdt, sizeof_prdt_entry.
  replace (virt_base c + ot + 128 + i * 16) with (virt_base c + (ot + 128 + 16 * i)) by lia. set (e := ot + 128 + 16 * i) in *. rewrite <- (Z.add_assoc _ e 12).
  exact (does_comp _ _ _ _ (does_comp _ _ _ _ (does_store_le 8 e addr ltac:(lia) ltac:(lia)) (does_store_field 4 (e + 12) 0 22 size ltac:(lia) ltac:(lia)))
    (does_store_field 4 (e + 12) 31 1 1 ltac:(lia) ltac:(lia))).
Qed.
Lemma does_command ot command device : 0 <= ot -> ot + 64 <= window_size -> does (set_command (virt_base c + ot) command device) (command_bytes ot command device).
Proof.
  intros H1 H2. unfold set_command, command_bytes. rewrite <- !(Z.add_assoc _ ot).
  exact (does_comp _ _ _ _ (does_comp _ _ _ _ (does_comp _ _ _ _ (does_store_le 1 ot FIS_TYPE_REG_H2D ltac:(lia) ltac:(lia)) (does_store_field 1 (ot + 1) 7 1 1 ltac:(lia) ltac:(lia)))
    (does_store_le 1 (ot + 2) command ltac:(lia) ltac:(lia))) (does_store_le 1 (ot + 7) device ltac:(lia) ltac:(lia))).
Qed.
Lemma does_lba ot lba : 0 <= ot -> ot + 64 <= window_size -> does (set_lba (virt_base c + ot) lba) (lba_bytes ot lba).
Proof.
  intros H1 H2. unfold set_lba, lba_bytes. rewrite <- !(Z.add_assoc _ ot).
  pose proof (fun k v (Hk : 0 <= k < 64) => does_store_le 1 (ot + k) v ltac:(lia) ltac:(lia)) as D.
  exact (does_comp _ _ _ _ (does_comp _ _ _ _ (does_comp _ _ _ _ (does_comp _ _ _ _ (does_comp _ _ _ _
    (D 4 _ ltac:(lia)) (D 5 _ ltac:(lia))) (D 6 _ ltac:(lia))) (D 8 _ ltac:(lia))) (D 9 _ ltac:(lia))) (D 10 _ ltac:(lia))).
Qed.

(** ** What the controller reads there *)
Definition whole_command (w : bool) (lba n b oh ot : Z) f : Z -> Z :=
  let f := header_bytes w 1 oh f in
  let f := upd f ot (repeat 0 144) in
  let f := prdt_bytes (ot + 128) b (512 * n - 1) f in
  let f := command_bytes ot (if w then AHCI_CMD_WRITE_DMA_EXT else AHCI_CMD_READ_DMA_EXT) (Z.shiftl 1 6) f in
  upd (lba_bytes ot lba f) (ot + 12) (le_bytes 2 n).
Record layout (oh ot : Z) : Prop := {
  l_header : 0 <= oh /\ oh + 32 <= window_size;
  l_table : 0 <= ot /\ ot + 144 <= window_size;
  l_apart : oh + 32 <= ot \/ ot + 144 <= oh }.

Lemma land_byte lba k : 0 <= k -> Z.shiftr (Z.land lba (Z.shiftl 255 k)) k = lba / 2 ^ k mod 256.
Proof.
  intros Hk. rewrite Z.shiftr_land, Z.shiftr_shiftl_l, Z.sub_diag, Z.shiftl_0_r, Z.shiftr_div_pow2 by lia.
  change 255 with (2 ^ 8 - 1). rewrite land_low_mask by lia. reflexivity.
Qed.

Ltac away := repeat (rewrite get_other by (rewrite ?le_bytes_length, ?repeat_length; lia)).
Lemma header_away w num oh f n x : x + Z.of_nat n <= oh \/ oh + 4 <= x -> get n (header_bytes w num oh f) x = get n f x.
Proof. intros Hx. unfold header_bytes. away. reflexivity. Qed.
Lemma prdt_away e addr size f n x : x + Z.of_nat n <= e \/ e + 16 <= x -> get n (prdt_bytes e addr size f) x = get n f x.
Proof. intros Hx. unfold prdt_bytes. away. reflexivity. Qed.
Lemma command_away ot command device f n x : x + Z.of_nat n <= ot \/ ot + 8 <= x \/ (ot + 3 <= x /\ x + Z.of_nat n <= ot + 7) ->
  get n (command_bytes ot command device f) x = get n f x.
Proof. intros Hx. unfold command_bytes. away. reflexivity. Qed.
Lemma lba_away ot lba f n x : x + Z.of_nat n <= ot + 4 \/ ot + 11 <= x \/ (x = ot + 7 /\ n = 1%nat) -> get n (lba_bytes ot lba f) x = get n f x.
Proof. intros Hx. unfold lba_bytes. away. reflexivity. Qed.

Lemma get_byte f x : (forall y, 0 <= f y < 256) -> 0 <= get 1 f x < 256.
Proof. intros Hf. rewrite get_one. apply Hf. Qed.
Lemma header_fields w num oh f : (forall y, 0 <= f y < 256) -> 0 <= num < 2 ^ 16 -> let g := header_bytes w num oh f in
  Z.land (get 1 g oh) 0x1f = 5 /\ has (get 1 g oh) 0x40 = w /\ get 2 g (oh + 2) = num.
Proof.
  intros Hf Hn. cbv zeta. unfold header_bytes. destruct (set_field_flags w (get 1 f oh) (get_byte f oh Hf)) as (R & F1 & F2).
  assert (E : get 1 (upd f oh (le_bytes 1 (set_field (get 1 f oh) 6 1 (if w then 1 else 0)))) oh = set_field (get 1 f oh) 6 1 (if w then 1 else 0)).
  { rewrite get_stored. apply Z.mod_small. pose proof (get_byte f oh Hf) as B. revert R B. generalize (get 1 f oh). intros old R B.
    pose (ok := fun old => let v := set_field old 6 1 (if w then 1 else 0) in (0 <=? v) && (v <? 256)).
    assert (K : forallb ok (seqZ 0 256) = true) by (destruct w; vm_compute; reflexivity).
    rewrite forallb_forall in K. specialize (K old). unfold ok in K. rewrite andb_true_iff in K.
    destruct K as [A1%Z.leb_le A2%Z.ltb_lt]; [apply list_elem_of_In, elem_of_seqZ; lia|]. change (256 ^ Z.of_nat 1) with 256. lia. }
  rewrite (get_other 1 _ (oh + 2)) by (cbn; lia). rewrite get_stored, E. change (sizeof_fis_h2d / 4) with 5. change (256 ^ Z.of_nat 1) with 256.
  rewrite (Z.mod_small _ 256 R). split; [exact F1|]. split; [exact F2|]. rewrite get_stored. apply Z.mod_small. exact Hn.
Qed.
Lemma prdt_fields e addr size f : 0 <= addr < 2 ^ 64 -> 0 <= size < 2 ^ 22 -> get 4 f (e + 12) = 0 -> let g := prdt_bytes e addr size f in
  region_at g e = (addr, size + 1).
Proof.
  intros Ha Hs H0. cbv zeta. unfold region_at, prdt_bytes. destruct (set_field_size size Hs) as [E1 E2].
  rewrite !get_stored. repeat (rewrite (get_other 8) by (rewrite ?le_bytes_length; lia)). rewrite get_stored, (get_other 4 f e) by (cbn; lia).
  rewrite H0, E1. change (256 ^ Z.of_nat 4) with (2 ^ 32). change (256 ^ Z.of_nat 8) with (2 ^ 64). rewrite (Z.mod_small size), E2, (Z.mod_small addr) by lia.
  f_equal. rewrite (Z.mod_small (size + 2 ^ 31)) by lia. rewrite land_low_mask by lia. change (2 ^ 31) with (512 * 2 ^ 22). rewrite Z.mod_add by lia. now rewrite Z.mod_small by lia.
Qed.
Lemma command_fields ot command device f : get 1 f (ot + 1) = 0 -> 0 <= command < 256 -> 0 <= device < 256 -> let g := command_bytes ot command device f in
  get 1 g ot = FIS_TYPE_REG_H2D /\ get 1 g (ot + 1) = 0x80 /\ get 1 g (ot + 2) = command /\ get 1 g (ot + 7) = device.
Proof.
  intros H0 Hc Hd. cbv zeta. unfold command_bytes. split; [|split; [|split]].
  - away. rewrite get_stored. reflexivity.
  - do 2 rewrite (get_other 1) by (cbn; lia). rewrite get_stored, (get_other 1 f ot) by (cbn; lia). rewrite H0. reflexivity.
  - rewrite (get_other 1 _ (ot + 7)) by (cbn; lia). rewrite get_stored. exact (Z.mod_small command 256 Hc).
  - rewrite get_stored. exact (Z.mod_small device 256 Hd).
Qed.
Lemma lba_fields ot lba f : is_u32 lba -> let g := lba_bytes ot lba f in get 3 g (ot + 4) + 2 ^ 24 * get 3 g (ot + 8) = lba.
Proof.
  intros Hl. cbv zeta. assert (D : forall g x, get 3 g x = get 1 g x + 256 * (get 1 g (x + 1) + 256 * get 1 g (x + 2))).
  { intros g x. pose proof (get_app 1 2 g x) as E1. pose proof (get_app 1 1 g (x + 1)) as E2. change (1 + 2)%nat with 3%nat in E1. change (1 + 1)%nat with 2%nat in E2.
    change (Z.of_nat 1) with 1 in *. change (256 ^ 1) with 256 in *. rewrite <- Z.add_assoc in E2. change (1 + 1) with 2 in E2. now rewrite E1, E2. }
  rewrite !D. rewrite <- !(Z.add_assoc ot). change (4 + 1) with 5. change (4 + 2) with 6. change (8 + 1) with 9. change (8 + 2) with 10.
  unfold lba_bytes. rewrite (land_byte lba 0 ltac:(lia) : Z.shiftr (Z.land lba 0x000000FF) 0 = _), (land_byte lba 8 ltac:(lia) : Z.shiftr (Z.land lba 0x0000FF00) 8 = _),
    (land_byte lba 16 ltac:(lia) : Z.shiftr (Z.land lba 0x00FF0000) 16 = _), (land_byte lba 24 ltac:(lia) : Z.shiftr (Z.land lba 0xFF000000) 24 = _),
    (land_byte lba 32 ltac:(lia) : Z.shiftr (Z.land lba 0x00FF00000000) 32 = _), (land_byte lba 40 ltac:(lia) : Z.shiftr (Z.land lba 0xFF0000000000) 40 = _).
  repeat (rewrite get_stored || rewrite get_other by (cbn; lia)). change (256 ^ Z.of_nat 1) with 256. unfold is_u32 in Hl.
  change (2 ^ 0) with 1. rewrite Z.div_1_r, !Z.mod_mod by lia. rewrite (Z.div_small lba (2 ^ 32)), (Z.div_small lba (2 ^ 40)) by lia.
  rewrite !(Z.mod_small 0 256) by lia. clear D. change (2 ^ 8) with 256. change (2 ^ 16) with 65536. change (2 ^ 24) with 16777216. change (2 ^ 32) with 4294967296 in Hl.
  Z.to_euclidean_division_equations. lia.
Qed.

Lemma get_shift n f g o k : (forall x, g (k + x) = f x) -> get n g (k + o) = get n f o.
Proof.
  intros Hg. unfold get. f_equal. apply list_eq. intros i. rewrite !list_lookup_fmap. destruct (decide (i < n)%nat) as [Hi|Hi].
  - rewrite !lookup_seqZ_lt by lia. cbn. f_equal. rewrite <- Hg. f_equal. lia.
  - rewrite !lookup_seqZ_ge by lia. reflexivity.
Qed.

(** The command that was written is the one that was asked for. *)
Lemma whole_decodes (w : bool) lba n b oh ot f g : layout oh ot -> (forall y, 0 <= f y < 256) -> is_u32 lba -> 0 < n <= 16 -> is_u32 b ->
  get 8 f (oh + 8) = phys_base c + ot -> (forall x, g (phys_base c + x) = whole_command w lba n b oh ot f x) ->
  decode g (phys_base c + oh) = Some (mk_sata w lba n [(b, 512 * n)]).
Proof.
  intros [[H1 H2] [H3 H4] H5] Hf Hl Hn Hb Hp Hg. unfold decode. rewrite <- !(Z.add_assoc (phys_base c) oh).
  rewrite !(get_shift _ _ _ _ _ Hg). unfold whole_command. cbv zeta.
  destruct (header_fields w 1 oh f Hf ltac:(lia)) as (F1 & F2 & F3). set (f1 := header_bytes w 1 oh f) in *.
  assert (P1 : get 8 f1 (oh + 8) = phys_base c + ot) by (unfold f1; rewrite header_away by lia; exact Hp).
  set (f2 := upd f1 ot (repeat 0 144)).
  pose proof (prdt_fields (ot + 128) b (512 * n - 1) f2 ltac:(unfold is_u32 in Hb; lia) ltac:(lia) (get_zero 4 f1 ot (ot + 128 + 12) 144 ltac:(lia) ltac:(lia))) as R.
  set (f3 := prdt_bytes (ot + 128) b (512 * n - 1) f2) in *. set (cmd := if w then AHCI_CMD_WRITE_DMA_EXT else AHCI_CMD_READ_DMA_EXT).
  assert (Z3 : get 1 f3 (ot + 1) = 0) by (unfold f3; rewrite prdt_away by lia; exact (get_zero 1 f1 ot (ot + 1) 144 ltac:(lia) ltac:(lia))).
  destruct (command_fields ot cmd (Z.shiftl 1 6) f3 Z3 ltac:(destruct w; vm_compute; (split; [discriminate|reflexivity])) ltac:(vm_compute; split; [discriminate|reflexivity]))
    as (C1 & C2 & C3 & C4). set (f4 := command_bytes ot cmd (Z.shiftl 1 6) f3) in *.
  pose proof (lba_fields ot lba f4 Hl) as L. set (f5 := lba_bytes ot lba f4) in *. set (f6 := upd f5 (ot + 12) (le_bytes 2 n)).
  assert (Hh : forall k x, x + Z.of_nat k <= ot \/ ot + 144 <= x -> get k f6 x = get k f1 x).
  { intros k x Hx. unfold f6. rewrite get_other by (cbn; lia). unfold f5. rewrite lba_away by lia. unfold f4. rewrite command_away by lia.
    unfold f3. rewrite prdt_away by lia. unfold f2. rewrite get_other by (rewrite repeat_length; lia). reflexivity. }
  rewrite !Hh by lia. rewrite P1, F1, F2, F3. rewrite <- !(Z.add_assoc (phys_base c) ot), !(get_shift _ _ _ _ _ Hg). unfold whole_command. cbv zeta.
  fold f1 f2. fold f3. fold cmd. fold f4. fold f5. fold f6.
  assert (Hc : forall k, 0 <= k <= 2 \/ k = 7 -> get 1 f6 (ot + k) = get 1 f4 (ot + k)).
  { intros k Hk. unfold f6. rewrite get_other by (cbn; lia). unfold f5. apply lba_away. destruct Hk as [Hk| ->]; [left; lia|right; right; split; reflexivity]. }
  pose proof (Hc 0 ltac:(lia)) as Hc0. rewrite Z.add_0_r in Hc0. rewrite Hc0, (Hc 1), (Hc 2), (Hc 7), C1, C2, C3, C4 by lia.
  replace (cmd =? (if w then 53 else 37)) with true by (destruct w; reflexivity). cbn [Z.eqb Pos.eqb andb FIS_TYPE_REG_H2D].
  change (has 128 128) with true. change (has (Z.shiftl 1 6) 64) with true. cbn [andb]. do 2 f_equal.
  - unfold f6. rewrite !(get_other 3) by (cbn; lia). exact L.
  - unfold f6. rewrite get_stored. apply Z.mod_small. change (256 ^ Z.of_nat 2) with 65536. lia.
  - change (seqZ 0 1) with [0]. cbn [map]. f_equal. unfold region_at. replace (phys_base c + (ot + 128) + 16 * 0) with (phys_base c + (ot + 128)) by lia.
    rewrite <- (Z.add_assoc (phys_base c) (ot + 128) 12), !(get_shift _ _ _ _ _ Hg). unfold whole_command. cbv zeta. fold f1 f2. fold f3. fold cmd. fold f4. fold f5. fold f6.
    assert (Hr : forall k x, ot + 128 <= x -> get k f6 x = get k f3 x).
    { intros k x Hx. unfold f6. rewrite get_other by (cbn; lia). unfold f5. rewrite lba_away by lia. unfold f4. rewrite command_away by lia. reflexivity. }
    rewrite !Hr by lia. unfold region_at in R. injection R as R1 R2. rewrite R1, R2. f_equal. lia.
Qed.

(** ** Registers *)
Lemma get_addr_window o : 0 <= o <= window_size -> 0 <= virt_base c -> virt_base c + window_size < 2 ^ 32 -> get_addr (phys_base c + o) c = virt_base c + o.
Proof.
  intros Ho H1 H2. unfold get_addr, sub32, add32, u32, wrap. rewrite Zminus_mod_idemp_l. replace (virt_base c + (phys_base c + o) - phys_base c) with (virt_base c + o) by lia.
  apply Z.mod_small. lia.
Qed.
Lemma find_cmdslot_idle d s : port d = p -> 0 < num_cmd_slots (controller d) -> busy s = None ->
  exists s', find_cmdslot d s = (0, s') /\ stays s s' /\ forall f, sees s f -> sees s' f.
Proof.
  intros Hd Hn Hb. unfold find_cmdslot. rewrite Hd. pose proof (rd_sact s Hb) as V1. pose proof (rd_quiet px_sact s ltac:(set_solver)) as Q1.
  destruct (rd (p + px_sact) s) as [v1 s1]. cbn [fst snd] in *. subst v1. destruct (quiet_stays _ _ Q1) as [S1 K1].
  pose proof (rd_ci s1) as R2. destruct (rd (p + px_ci) s1) as [v2 s2]. rewrite (st_busy _ _ S1), Hb in R2. destruct R2 as (M2 & D2 & C2 & T2 & -> & B2).
  exists s2. split.
  - destruct (Z.to_nat (num_cmd_slots (controller d))) eqn:En; [lia|]. reflexivity.
  - split; [refine (stays_trans _ _ _ S1 _); constructor; [auto|auto|auto|rewrite B2, (st_busy _ _ S1), Hb; reflexivity|rewrite T2; apply Nat.le_refl]|].
    intros f Hf o. unfold window. rewrite M2. apply K1, Hf.
Qed.
Lemma command_header_spec d s oh : port d = p -> controller d = c -> clb s = phys_base c + oh -> 0 <= oh <= window_size -> 0 <= virt_base c -> virt_base c + window_size < 2 ^ 32 ->
  exists s', command_header d 0 s = (virt_base c + oh, s') /\ stays s s' /\ forall f, sees s f -> sees s' f.
Proof.
  intros Hd Hc Hclb Ho V1 V2. unfold command_header, rd64. rewrite Hd, Hc. rewrite <- (Z.add_assoc p px_clb 4).
  pose proof (rd_quiet px_clb s ltac:(set_solver)) as Q1. destruct (rd_clb s) as [E1 _]. destruct (rd (p + px_clb) s) as [lo s1]. cbn [fst snd] in *.
  destruct (quiet_stays _ _ Q1) as [S1 K1]. pose proof (rd_quiet (px_clb + 4) s1 ltac:(set_solver)) as Q2. destruct (rd_clb s1) as [_ E2].
  destruct (rd (p + (px_clb + 4)) s1) as [hi s2]. cbn [fst snd] in *. destruct (quiet_stays _ _ Q2) as [S2 K2]. subst lo hi. exists s2.
  split; [|split; [exact (stays_trans _ _ _ S1 S2)|auto]]. rewrite Z.mul_0_r, Z.add_0_r, (u32_small (clb s)) by apply clb_range.
  rewrite Hclb, (get_addr_window oh Ho V1 V2), Z.mul_0_l, add32_small by lia. f_equal. lia.
Qed.
Lemma busy_loop_spec spins : forall s, (task s <= spins)%nat -> let '(_, s') := busy_loop spins p s in
  stays s s' /\ task s' = 0%nat /\ forall f, sees s f -> sees s' f.
Proof.
  induction spins as [|n IH]; intros s Hn; cbn [busy_loop]; pose proof (rd_tfd s) as Q; destruct (rd (p + px_tfd) s) as [v s1];
    destruct Q as (M & D & C & B & V & T); (assert (S1 : stays s s1) by (constructor; auto; lia));
    (assert (K1 : forall f, sees s f -> sees s1 f) by (intros f Hf o; unfold window; rewrite M; apply Hf)).
  - split; [exact S1|]. split; [lia|exact K1].
  - rewrite V. destruct (Nat.eqb_spec (task s) 0) as [E0|E0]; cbn [negb]; [split; [exact S1|]; split; [lia|exact K1]|].
    pose proof (IH s1 ltac:(lia)) as I1. destruct (busy_loop n p s1) as [r s2]. destruct I1 as (S2 & T2 & K2).
    split; [exact (stays_trans _ _ _ S1 S2)|]. split; [exact T2|auto].
Qed.

(** The memory and the disk once the command is done. *)
Definition same_data s s' : Prop := (forall x, mem x s' = mem x s) /\ forall x, dsk x s' = dsk x s.
Lemma complete_spec n : forall fuel s, busy s = Some (0, n) -> (n + 1 < fuel)%nat ->
  exists s', complete_loop fuel p 0 s = Ok (true, s') /\ same_data s s' /\ busy s' = None.
Proof.
  assert (Done : forall fuel s, busy s = None -> exists s', complete_loop (Datatypes.S fuel) p 0 s = Ok (true, s') /\ same_data s s' /\ busy s' = None).
  { intros fuel s Hb. cbn [complete_loop]. pose proof (rd_ci s) as R. destruct (rd (p + px_ci) s) as [v s1]. rewrite Hb in R. destruct R as (M & D & _ & _ & -> & B).
    exists s1. split; [reflexivity|]. split; [split; assumption|exact B]. }
  assert (Wait : forall s m, busy s = Some (0, m) -> exists s1, (forall fuel, complete_loop (Datatypes.S fuel) p 0 s = complete_loop fuel p 0 s1) /\ same_data s s1 /\
    busy s1 = match m with O => None | Datatypes.S m => Some (0, m) end).
  { intros s m Hb. pose proof (rd_ci s) as R. cbn [complete_loop]. destruct (rd (p + px_ci) s) as [v s1]. rewrite Hb in R. destruct R as (M & D & _ & _ & -> & B).
    change (Z.land (2 ^ 0) (shl32 1 0) =? 0) with false. cbv iota. pose proof (rd_is s1) as E. pose proof (rd_quiet px_is s1 ltac:(set_solver)) as Q.
    destruct (rd (p + px_is) s1) as [w s2]. cbn [fst snd] in *. rewrite E. exists s2. split; [reflexivity|]. destruct Q as (M2 & D2 & _ & B2 & _).
    split; [split; intros x; [rewrite M2; apply M|rewrite D2; apply D]|]. now rewrite B2. }
  induction n as [|n IH]; intros fuel s Hb Hf; (destruct fuel as [|fuel]; [lia|]); destruct (Wait s _ Hb) as (s1 & E1 & [M1 D1] & B1); rewrite E1.
  - destruct fuel as [|fuel]; [lia|]. destruct (Done fuel s1 B1) as (s2 & E2 & [M2 D2] & B2). exists s2. split; [exact E2|]. split; [|exact B2].
    split; intros x; [rewrite M2|rewrite D2]; auto.
  - destruct (IH fuel s1 B1 ltac:(lia)) as (s2 & E2 & [M2 D2] & B2). exists s2. split; [exact E2|]. split; [|exact B2].
    split; intros x; [rewrite M2|rewrite D2]; auto.
Qed.

(** ** Transfers *)
(** The port does nothing, its drive is busy for at most [spins] readings, and the header of
    the first slot names a table in the window: see [rebase_names_tables]. *)
Record transfer_ready (d : ahci_drive) (spins : nat) (oh ot b n : Z) s : Prop := {
  r_drive : port d = p /\ controller d = c /\ 0 < num_cmd_slots c;
  r_virtual : 0 <= virt_base c /\ virt_base c + window_size < 2 ^ 32;
  r_physical : 0 <= phys_base c /\ phys_base c + window_size < 2 ^ 32;
  r_idle : busy s = None;
  r_task : (task s <= spins)%nat;
  r_layout : layout oh ot;
  r_clb : clb s = phys_base c + oh;
  r_table : get 8 (window s) (oh + 8) = phys_base c + ot;
  r_buffer : is_u32 b /\ (b + 512 * n <= phys_base c \/ phys_base c + window_size <= b) }.

Lemma does_whole (w : bool) lba n b oh ot : layout oh ot -> 0 < n <= 16 ->
  does (fun s => store_le 2 (virt_base c + (ot + 12)) n (set_lba (virt_base c + ot) lba
    (set_command (virt_base c + ot) (if w then AHCI_CMD_WRITE_DMA_EXT else AHCI_CMD_READ_DMA_EXT) (Z.shiftl 1 6)
    (set_prdt (virt_base c + ot) 0 b (512 * n - 1) (memset (virt_base c + ot) 144 (set_header w 1 (virt_base c + oh) s))))))
  (whole_command w lba n b oh ot).
Proof.
  intros [[H1 H2] [H3 H4] H5] Hn. pose proof (does_prdt ot 0 b (512 * n - 1) H3 ltac:(lia) ltac:(lia)) as Dp.
  replace (ot + 128 + 16 * 0) with (ot + 128) in Dp by lia.
  exact (does_comp _ _ _ _ (does_comp _ _ _ _ (does_comp _ _ _ _ (does_comp _ _ _ _ (does_comp _ _ _ _ (does_header w 1 oh H1 H2) (does_memset 144 ot H3 ltac:(lia) H4)) Dp)
    (does_command ot _ (Z.shiftl 1 6) H3 ltac:(lia))) (does_lba ot lba H3 ltac:(lia))) (does_store_le 2 (ot + 12) n ltac:(lia) ltac:(lia))).
Qed.

Lemma ahci_access_spec fuel spins (w : bool) d lba n buffer b oh ot s : (forall s, get_physical_of buffer s = b) ->
  transfer_ready d spins oh ot b n s -> is_u32 lba -> 0 < n <= 16 -> (polls < fuel)%nat ->
  let cmd := mk_sata w lba n [(b, 512 * n)] in
  exists m s', ahci_access fuel spins w d lba n buffer s = Ok (true, s') /\ busy s' = None /\
  (forall x, x < phys_base c \/ phys_base c + window_size <= x -> m x = mem x s) /\
  (forall x, mem x s' = run_memory cmd m (fun y => dsk y s) x) /\ forall x, dsk x s' = run_disk cmd m (fun y => dsk y s) x.
Proof.
  intros Hphys [(Rp & Rc & Rn) (V1 & V2) (Q1 & Q2) Rb Rk Rl Rclb Rt (Bu & Bx)] Hl Hn Hf cmd. unfold ahci_access. rewrite Rp, Rc.
  pose proof (wr_is (u32 (-1)) s) as W1. set (s1 := wr (p + px_is) _ s) in *. destruct (quiet_stays _ _ W1) as [T1 K1]. clearbody s1.
  pose proof (K1 (window s) (fun o => eq_refl)) as F1.
  destruct (find_cmdslot_idle d s1 Rp ltac:(rewrite Rc; exact Rn) ltac:(rewrite (st_busy _ _ T1); exact Rb)) as (s2 & E2 & T2 & K2).
  rewrite E2. cbv beta iota. rewrite (proj2 (Z.leb_gt _ 0)) by lia. rewrite Hphys. pose proof (stays_trans _ _ _ T1 T2) as T02. apply K2 in F1.
  destruct Rl as [[L1 L2] [L3 L4] L5].
  destruct (command_header_spec d s2 oh Rp Rc ltac:(rewrite (st_clb _ _ T02); exact Rclb) ltac:(lia) V1 V2) as (s3 & E3 & T3 & K3).
  rewrite E3. cbv beta iota zeta. apply K3 in F1. pose proof (stays_trans _ _ _ T02 T3) as T03.
  assert (Enum : Z.quot (n - 1) 16 + 1 = 1) by (rewrite Z.quot_small by lia; reflexivity). rewrite Enum.
  destruct (does_header w 1 oh L1 L2 s3 _ F1) as [Fh Th].
  assert (Etbl : command_table d (virt_base c + oh) (set_header w 1 (virt_base c + oh) s3) = virt_base c + ot).
  { unfold command_table. rewrite <- Z.add_assoc, (load_window _ _ Fh 8 (oh + 8) ltac:(lia) ltac:(lia)), header_away, Rt, Rc by lia.
    rewrite u32_small by (unfold is_u32; lia). apply get_addr_window; lia. }
  rewrite Etbl. change (Z.to_nat (1 - 1)) with 0%nat. cbn [fill_prdts]. change (1 - 1) with 0.
  change (sizeof_hba_cmd_tbl + 0 * sizeof_prdt_entry) with 144.
  replace (u32 (Z.shiftl n 9 - 1)) with (512 * n - 1) by (rewrite Z.shiftl_mul_pow2 by lia; rewrite u32_small; [lia|unfold is_u32; lia]).
  rewrite <- (Z.add_assoc (virt_base c) ot 12).
  destruct (does_whole w lba n b oh ot (Build_layout oh ot (conj L1 L2) (conj L3 L4) L5) Hn s3 _ F1) as [F4 T4]. cbv beta in F4, T4.
  set (s4 := store_le 2 _ n _) in *. clearbody s4. pose proof (stays_trans _ _ _ T03 T4) as T04.
  pose proof (busy_loop_spec spins s4 ltac:(etransitivity; [exact (st_task _ _ T04)|exact Rk])) as Bl. unfold ahci_wait_busy.
  destruct (busy_loop spins p s4) as [ready s5]. destruct Bl as (T5 & Free & K5). apply K5 in F4. pose proof (stays_trans _ _ _ T04 T5) as T.
  pose proof (whole_decodes w lba n b oh ot (window s) (fun x => mem x s5) (Build_layout oh ot (conj L1 L2) (conj L3 L4) L5)
    (fun y => mem_range _ _) Hl Hn Bu Rt F4) as Hdec. fold cmd in Hdec.
  assert (Hok : command_ok cmd) by (unfold command_ok, cmd; cbn [c_count c_regions foldr snd]; lia).
  destruct (wr_ci 0 s5 cmd) as (M6 & D6 & _ & k & Hk & B6); [rewrite (st_busy _ _ T); exact Rb|exact Free|lia|rewrite (st_clb _ _ T), Rclb, Z.mul_0_r, Z.add_0_r; exact Hdec|exact Hok|].
  change (shl32 1 0) with (2 ^ 0). set (s6 := wr (p + px_ci) (2 ^ 0) s5) in *. clearbody s6.
  destruct (complete_spec k fuel s6 B6 ltac:(lia)) as (s7 & E7 & [M7 D7] & B7). unfold ahci_wait_complete. rewrite (bind_Ok_l _ _ _ E7). cbv beta iota.
  pose proof (rd_is s7) as Ei. pose proof (rd_quiet px_is s7 ltac:(set_solver)) as (M8 & D8 & _ & B8 & _). destruct (rd (p + px_is) s7) as [v s8]. cbn [fst snd] in *.
  exists (fun y => mem y s5), s8. rewrite Ei. split; [reflexivity|]. split; [rewrite B8; exact B7|]. split; [exact (st_mem _ _ T)|]. split.
  - intros x. rewrite M8, M7, M6. unfold run_memory, cmd. cbn [c_write c_regions c_lba c_count]. destruct w; [reflexivity|]. f_equal. apply map_ext. intros y. apply (st_dsk _ _ T).
  - intros x. rewrite D8, D7, D6. unfold run_disk. cbn [c_write cmd]. destruct w; [apply upd_ext; intros y; apply (st_dsk _ _ T)|apply (st_dsk _ _ T)].
Qed.

Lemma ahci_access_data fuel spins (w : bool) d lba n buffer b oh ot s : (forall s, get_physical_of buffer s = b) ->
  transfer_ready d spins oh ot b n s -> is_u32 lba -> 0 < n <= 16 -> (polls < fuel)%nat ->
  exists s', ahci_access fuel spins w d lba n buffer s = Ok (true, s') /\ busy s' = None /\
  let outside x := x < phys_base c \/ phys_base c + window_size <= x in
  if w then
    (forall i, 0 <= i < 512 * n -> dsk (512 * lba + i) s' = mem (b + i) s) /\
    (forall y, y < 512 * lba \/ 512 * (lba + n) <= y -> dsk y s' = dsk y s) /\ forall x, outside x -> mem x s' = mem x s
  else
    (forall i, 0 <= i < 512 * n -> mem (b + i) s' = dsk (512 * lba + i) s) /\
    (forall x, outside x -> x < b \/ b + 512 * n <= x -> mem x s' = mem x s) /\ forall y, dsk y s' = dsk y s.
Proof.
  intros Hphys R Hl Hn Hf. destruct (ahci_access_spec fuel spins w d lba n buffer b oh ot s Hphys R Hl Hn Hf) as (m & s' & Ea & B & Hm & M & D).
  exists s'. split; [exact Ea|]. split; [exact B|]. cbv zeta. destruct (r_buffer _ _ _ _ _ _ _ R) as [Bu Bx].
  unfold run_memory, run_disk in *. cbn [c_write c_regions c_lba c_count] in *. destruct w.
  - unfold gather in D. cbn [map concat fst snd] in D. rewrite app_nil_r in D. rewrite (Z.mul_comm lba 512) in D. split; [|split].
    + intros i Hi. rewrite D, upd_map by exact Hi. apply Hm. lia.
    + intros y Hy. rewrite D. apply upd_outside. rewrite length_map, length_seqZ. lia.
    + intros x Hx. rewrite M. apply Hm, Hx.
  - cbn [scatter] in M. rewrite take_ge in M by (rewrite length_map, length_seqZ; lia). rewrite (Z.mul_comm lba 512), (Z.mul_comm n 512) in M. split; [|split].
    + intros i Hi. rewrite M. apply upd_map, Hi.
    + intros x Hx Ho. rewrite M, upd_outside by (rewrite length_map, length_seqZ; lia). apply Hm, Hx.
    + exact D.
Qed.

(** C40: a transfer of up to sixteen sectors through an AHCI port whose slots are free, whose
    first header names a table in the shared memory (which [port_rebase] does only where
    that memory is mapped at its physical address), whose drive is busy for no more
    readings than the driver waits, and whose disk has no errors.  [pt] are the page tables,
    and the buffer is in physical pages that follow each other: the driver asks for the
    address of its first byte only.  The command is issued when the drive is free; reading
    puts exactly the bytes of the sectors into the buffer and leaves the rest of the memory
    (outside what the driver shares with the controller) and the disk; writing puts exactly
    the bytes of the buffer on the disk. *)
Theorem ahci_access_correct fuel spins (w : bool) d lba n buffer (pt : Z -> Z) oh ot s : (forall a s, get_physical_of a s = pt a) ->
  (forall i, 0 <= i < 512 * n -> pt (buffer + i) = pt buffer + i) ->
  transfer_ready d spins oh ot (pt buffer) n s -> is_u32 lba -> 0 < n <= 16 -> (polls < fuel)%nat ->
  exists s', ahci_access fuel spins w d lba n buffer s = Ok (true, s') /\ busy s' = None /\
  let outside x := x < phys_base c \/ phys_base c + window_size <= x in
  if w then
    (forall i, 0 <= i < 512 * n -> dsk (512 * lba + i) s' = mem (pt (buffer + i)) s) /\
    (forall y, y < 512 * lba \/ 512 * (lba + n) <= y -> dsk y s' = dsk y s) /\ forall x, outside x -> mem x s' = mem x s
  else
    (forall i, 0 <= i < 512 * n -> mem (pt (buffer + i)) s' = dsk (512 * lba + i) s) /\
    (forall x, outside x -> (forall i, 0 <= i < 512 * n -> x <> pt (buffer + i)) -> mem x s' = mem x s) /\ forall y, dsk y s' = dsk y s.
Proof.
  intros Hphys Hpt R Hl Hn Hf. destruct (ahci_access_data fuel spins w d lba n buffer (pt buffer) oh ot s (Hphys buffer) R Hl Hn Hf) as (s' & Ea & B & K).
  exists s'. split; [exact Ea|]. split; [exact B|]. cbv zeta in *. destruct w; destruct K as (K1 & K2 & K3); (split; [|split; [|exact K3]]).
  - intros i Hi. rewrite (Hpt i Hi). exact (K1 i Hi).
  - exact K2.
  - intros i Hi. rewrite (Hpt i Hi). exact (K1 i Hi).
  - intros x Hx Hd. apply (K2 x Hx). destruct (Z.lt_ge_cases x (pt buffer)) as [|H1]; [left; assumption|right].
    destruct (Z.lt_ge_cases x (pt buffer + 512 * n)) as [H2|]; [exfalso|assumption]. apply (Hd (x - pt buffer)); [lia|]. rewrite Hpt by lia. lia.
Qed.
(** A byte of a buffer whose page does not follow the first one is not read. *)
Theorem scattered_buffer_is_missed fuel spins d lba n buffer (pt : Z -> Z) oh ot s i : (forall a s, get_physical_of a s = pt a) ->
  transfer_ready d spins oh ot (pt buffer) n s -> is_u32 lba -> 0 < n <= 16 -> (polls < fuel)%nat ->
  pt (buffer + i) < pt buffer \/ pt buffer + 512 * n <= pt (buffer + i) ->
  pt (buffer + i) < phys_base c \/ phys_base c + window_size <= pt (buffer + i) ->
  exists s', ahci_access fuel spins false d lba n buffer s = Ok (true, s') /\ mem (pt (buffer + i)) s' = mem (pt (buffer + i)) s.
Proof.
  intros Hphys R Hl Hn Hf H1 H2. destruct (ahci_access_data fuel spins false d lba n buffer (pt buffer) oh ot s (Hphys buffer) R Hl Hn Hf) as (s' & Ea & _ & _ & K & _).
  exists s'. split; [exact Ea|exact (K _ H2 H1)].
Qed.

(** ** The headers.  [port_rebase] writes them at the physical address of the list as if it
    were a virtual one: where the two are the same, the header of the first slot names its
    table. *)
Lemma cmd_offset_value n : 0 <= n < 32 -> cmd_offset n = 32768 + 256 * n.
Proof.
  intros Hn. unfold cmd_offset, shl32. rewrite !Z.shiftl_mul_pow2 by lia. rewrite (u32_small (n * 2 ^ 8)) by (unfold is_u32; lia).
  rewrite add32_small by lia. lia.
Qed.
Lemma tbl_offset_value n i : 0 <= n < 32 -> 0 <= i < 32 -> tbl_offset n i = 40960 + 8192 * n + 256 * i.
Proof.
  intros Hn Hi. unfold tbl_offset, shl32. rewrite !Z.shiftl_mul_pow2 by lia. rewrite (u32_small (n * 2 ^ 13)) by (unfold is_u32; lia).
  rewrite (add32_small (40 * 2 ^ 10)), add32_small by lia. lia.
Qed.
Definition header_step (n i : Z) f : Z -> Z :=
  let h := cmd_offset n + i * 32 in
  upd (upd (upd f (h + 2) (le_bytes 2 8)) (h + 8) (le_bytes 8 (phys_base c + tbl_offset n i))) (tbl_offset n i) (repeat 0 (Z.to_nat 256)).
Lemma does_header_step n i : 0 <= n < 32 -> 0 <= i < 32 -> 0 <= phys_base c -> phys_base c + window_size < 2 ^ 32 -> 0 <= virt_base c -> virt_base c + window_size < 2 ^ 32 ->
  does (fun s => memset (add32 (virt_base c) (tbl_offset n i)) 256 (store_le 8 (virt_base c + cmd_offset n + i * sizeof_hba_cmd_hdr + 8)
    (add32 (phys_base c) (tbl_offset n i)) (store_le 2 (virt_base c + cmd_offset n + i * sizeof_hba_cmd_hdr + 2) 8 s))) (header_step n i).
Proof.
  intros Hn Hi P1 P2 V1 V2. unfold header_step. pose proof (cmd_offset_value n Hn) as Ec. pose proof (tbl_offset_value n i Hn Hi) as Et.
  unfold window_size in *. rewrite !add32_small by lia. unfold sizeof_hba_cmd_hdr.
  replace (virt_base c + cmd_offset n + i * 32 + 8) with (virt_base c + (cmd_offset n + i * 32 + 8)) by lia.
  replace (virt_base c + cmd_offset n + i * 32 + 2) with (virt_base c + (cmd_offset n + i * 32 + 2)) by lia.
  exact (does_comp _ _ _ _ (does_comp _ _ _ _ (does_store_le 2 (cmd_offset n + i * 32 + 2) 8 ltac:(lia) ltac:(unfold window_size; lia))
    (does_store_le 8 (cmd_offset n + i * 32 + 8) (phys_base c + tbl_offset n i) ltac:(lia) ltac:(unfold window_size; lia)))
    (does_memset 256 (tbl_offset n i) ltac:(lia) ltac:(lia) ltac:(unfold window_size; lia))).
Qed.
Lemma step_first n i f : 0 <= n < 32 -> 0 <= i < 32 -> 0 <= phys_base c -> phys_base c + window_size < 2 ^ 32 ->
  get 8 (header_step n i f) (cmd_offset n + 8) = if i =? 0 then phys_base c + tbl_offset n 0 else get 8 f (cmd_offset n + 8).
Proof.
  intros Hn Hi P1 P2. pose proof (cmd_offset_value n Hn) as Ec. pose proof (tbl_offset_value n i Hn Hi) as Et. unfold header_step.
  rewrite get_other by (rewrite repeat_length; lia). destruct (Z.eqb_spec i 0) as [->|H0].
  - replace (cmd_offset n + 0 * 32 + 8) with (cmd_offset n + 8) by lia. rewrite get_stored. apply Z.mod_small.
    unfold window_size in P2. change (256 ^ Z.of_nat 8) with (2 ^ 64). lia.
  - rewrite !get_other by (rewrite le_bytes_length; lia). reflexivity.
Qed.
Lemma set_headers_first n : 0 <= n < 32 -> 0 <= phys_base c -> phys_base c + window_size < 2 ^ 32 -> 0 <= virt_base c -> virt_base c + window_size < 2 ^ 32 ->
  forall k i s f, 0 <= i -> i + Z.of_nat k <= 32 -> sees s f ->
  exists g, sees (set_headers k c n (virt_base c + cmd_offset n) i s) g /\ stays s (set_headers k c n (virt_base c + cmd_offset n) i s) /\
  get 8 g (cmd_offset n + 8) = if (i =? 0) && (0 <? Z.of_nat k) then phys_base c + tbl_offset n 0 else get 8 f (cmd_offset n + 8).
Proof.
  intros Hn P1 P2 V1 V2. induction k as [|k IH]; intros i s f Hi Hk Hf; cbn [set_headers].
  { exists f. split; [exact Hf|]. split; [apply stays_refl|]. rewrite andb_false_r. reflexivity. }
  destruct (does_header_step n i Hn ltac:(lia) P1 P2 V1 V2 s f Hf) as [F1 S1]. cbv beta in F1, S1.
  destruct (IH (i + 1) _ _ ltac:(lia) ltac:(lia) F1) as (g & F2 & S2 & E). exists g. split; [exact F2|]. split; [exact (stays_trans _ _ _ S1 S2)|].
  rewrite E, (proj2 (Z.eqb_neq (i + 1) 0)) by lia. cbn [andb]. rewrite (step_first n i f Hn ltac:(lia) P1 P2).
  rewrite (proj2 (Z.ltb_lt 0 _)), andb_true_r by lia. reflexivity.
Qed.
Theorem rebase_names_tables n s : 0 <= n < 32 -> 0 <= phys_base c -> phys_base c + window_size < 2 ^ 32 -> virt_base c = phys_base c ->
  let s' := set_headers 32 c n (u32 (phys_base c + cmd_offset n)) 0 s in
  get 8 (window s') (cmd_offset n + 8) = phys_base c + tbl_offset n 0 /\ layout (cmd_offset n) (tbl_offset n 0).
Proof.
  intros Hn P1 P2 V. cbv zeta. pose proof (cmd_offset_value n Hn) as Ec. pose proof (tbl_offset_value n 0 Hn ltac:(lia)) as Et.
  rewrite u32_small by (unfold is_u32, window_size in *; lia). rewrite <- V.
  destruct (set_headers_first n Hn P1 P2 ltac:(lia) ltac:(lia) 32 0 s (window s) ltac:(lia) ltac:(lia) (fun o => eq_refl)) as (g & F & _ & E).
  split; [|constructor; unfold window_size; lia]. change ((0 =? 0) && (0 <? Z.of_nat 32)) with true in E. cbv iota in E. rewrite V, <- E, <- V.
  unfold get. f_equal. apply map_ext. exact F.
Qed.
End port.

(** ** What is wrong with the rest *)
(** The command list and the received FIS of a port are at the same place. *)
Theorem the_lists_overlap n : cmd_offset n = fis_offset n.
Proof. reflexivity. Qed.
(** The tables of all ports are in the memory of the driver and apart from each other. *)
Theorem tables_fit n i n' i' : 0 <= n < 32 -> 0 <= i < 32 -> 0 <= n' < 32 -> 0 <= i' < 32 ->
  40 * 1024 <= tbl_offset n i /\ tbl_offset n i + 256 <= window_size /\
  (tbl_offset n i + 256 <= tbl_offset n' i' \/ tbl_offset n' i' + 256 <= tbl_offset n i \/ (n = n' /\ i = i')).
Proof.
  intros Hn Hi Hn' Hi'. assert (E : forall n i, 0 <= n < 32 -> 0 <= i < 32 -> tbl_offset n i = 40960 + 8192 * n + 256 * i).
  { clear. intros n i Hn Hi. unfold tbl_offset, shl32. rewrite !Z.shiftl_mul_pow2 by lia. rewrite (u32_small (n * 2 ^ 13)) by (unfold is_u32; lia).
    rewrite (add32_small (40 * 2 ^ 10)), add32_small by lia. lia. }
  rewrite !E by assumption. unfold window_size. lia.
Qed.
(** The page that is mapped ends before port 30. *)
Theorem last_ports_not_mapped : memmanager_minimum_pages sizeof_hba_mem = 1 /\ hba_ports + 30 * sizeof_hba_port = PAGE_SIZE.
Proof. split; vm_compute; reflexivity. Qed.

Section faults.
Context {S : Type} {H : hba S} {HM : host_memory S}.
(** The number of sectors and of the block are exchanged. *)
Theorem read_blocks_swaps fuel spins d block buf num s :
  ahci_read_blocks fuel spins d block buf num s = ('(_, s) ← ahci_access fuel spins false d num (u8 block) buf s; Ok s).
Proof. reflexivity. Qed.
(** From the seventeenth sector on, the regions overlap and the count is that of the last. *)
Theorem long_transfers_overlap tbl b s : 0 <= b < 2 ^ 31 ->
  fill_prdts 1 tbl 0 b 17 s = (b + 4096, 1, set_prdt tbl 0 b (8 * 1024 - 1) s).
Proof. intros Hb. cbn [fill_prdts]. rewrite add32_small by lia. reflexivity. Qed.
(** A controller with one slot, whose register says 0, has none for the driver; of 32 it uses 15. *)
Theorem slots_are_miscounted fuel spins w d lba n buffer s : Z.shiftr (Z.land 0 0x0f00) 8 = 0 /\ Z.shiftr (Z.land 0x1f00 0x0f00) 8 = 15 /\
  (num_cmd_slots (controller d) = 0 -> exists s', ahci_access fuel spins w d lba n buffer s = Ok (false, s')).
Proof.
  split; [reflexivity|]. split; [reflexivity|]. intros E. unfold ahci_access, find_cmdslot. rewrite E.
  destruct (rd _ (wr _ _ s)) as [a s1]. destruct (rd _ s1) as [b s2]. cbn [Z.to_nat free_slot]. eexists. reflexivity.
Qed.
(** What is found is not used: an identification that succeeds and the initialisation stop
    the kernel. *)
Theorem identify_stops fuel spins d buffer s s' : ahci_identify fuel spins d buffer s <> Ok (true, s').
Proof.
  unfold ahci_identify. destruct (find_cmdslot d _) as [slot s1]. destruct (_ <=? slot); [discriminate|]. destruct (command_header d slot s1) as [h s2].
  cbv zeta. destruct (ahci_wait_busy _ _ _) as [ready s3]. destruct ready; cbn [negb]; [|discriminate].
  destruct (ahci_wait_complete _ _ _ _) as [[[] s4]|e]; discriminate.
Qed.
Theorem ahci_init_stops {P : ports S} fuel depth s r : ahci_init fuel depth s <> Ok r.
Proof.
  unfold ahci_init. destruct (pci_device_by_class _ _ _ _) as [[calls s1]|e]; [|discriminate].
  cbn [mbind outcome_bind]. destruct (ahci_find_all _ _ _ _) as [[l s2]|e]; discriminate.
Qed.
End faults.

(** ** A controller *)
Record toy_hba := mk_toy { tmem : Z -> Z; tdsk : Z -> Z; tclb : Z; tbusy : option (Z * nat); ttask : nat }.
Definition tport : Z := 0xFEB00100.
Definition tcontroller : ahci_controller := mk_controller 1 0xFEB00000 0x100000 0x100000.
Definition byte_of (f : Z -> Z) (x : Z) : Z := f x mod 256.
Definition toy_issue (slot : Z) (s : toy_hba) : toy_hba :=
  if negb (ttask s =? 0)%nat then s else
  match decode (byte_of (tmem s)) (tclb s mod 2 ^ 32 + 32 * slot) with
  | Some cmd => mk_toy (run_memory cmd (byte_of (tmem s)) (byte_of (tdsk s))) (run_disk cmd (byte_of (tmem s)) (byte_of (tdsk s))) (tclb s) (Some (slot, 0%nat)) (ttask s)
  | None => s
  end.
#[export] Instance toy_hba_ops : hba toy_hba := {
  rd a s :=
    if a =? tport + px_clb then (tclb s mod 2 ^ 32, s)
    else if a =? tport + px_ci then
      match tbusy s with
      | None => (0, s)
      | Some (slot, n) => (2 ^ slot, mk_toy (tmem s) (tdsk s) (tclb s) (match n with O => None | Datatypes.S n => Some (slot, n) end) (ttask s))
      end
    else if a =? tport + px_tfd then
      (match ttask s with O => 0 | Datatypes.S _ => ATA_DEV_BUSY end, mk_toy (tmem s) (tdsk s) (tclb s) (tbusy s) (pred (ttask s)))
    else (0, s);
  wr a v s := if a =? tport + px_ci then toy_issue (Z.log2 v) s else s;
  ld a s := byte_of (tmem s) a; get_physical_of a _ := a + 0x200000;
  physical_allocate _ _ s := (0, s); map_pages _ _ _ s := (0, s) }.
#[export] Instance toy_hba_memory : host_memory toy_hba := fun a b s => mk_toy (fun x => if x =? a then b else tmem s x) (tdsk s) (tclb s) (tbusy s) (ttask s).

Definition bytes_fun (f : Z -> Z) : Prop := forall x, 0 <= f x < 256.
Lemma byte_of_bytes f : bytes_fun (byte_of f).
Proof. intros x. apply Z.mod_pos_bound. lia. Qed.
Lemma byte_of_id f x : bytes_fun f -> byte_of f x = f x.
Proof. intros Hf. apply Z.mod_small, Hf. Qed.
Lemma upd_bytes f a l : bytes_fun f -> Forall (fun b => 0 <= b < 256) l -> bytes_fun (upd f a l).
Proof.
  intros Hf Hl x. unfold upd. destruct (_ && _); [|apply Hf]. destruct (nth_in_or_default (Z.to_nat (x - a)) l 0) as [Hin| ->]; [|lia].
  apply list_elem_of_In in Hin. exact (proj1 (Forall_forall _ _) Hl _ Hin).
Qed.
Lemma map_bytes f x n : bytes_fun f -> Forall (fun b => 0 <= b < 256) (map f (seqZ x n)).
Proof. intros Hf. apply Forall_forall. intros b Hb. apply list_elem_of_In, in_map_iff in Hb as (y & <- & _). apply Hf. Qed.
Lemma scatter_bytes rs : forall l f, bytes_fun f -> Forall (fun b => 0 <= b < 256) l -> bytes_fun (scatter rs l f).
Proof.
  induction rs as [|[a n] rs IH]; intros l f Hf Hl; [exact Hf|]. cbn [scatter]. apply IH; [|apply Forall_drop, Hl]. apply upd_bytes; [exact Hf|apply Forall_take, Hl].
Qed.
Lemma run_bytes cmd m d : bytes_fun m -> bytes_fun d -> bytes_fun (run_memory cmd m d) /\ bytes_fun (run_disk cmd m d).
Proof.
  intros Hm Hd. unfold run_memory, run_disk. destruct (c_write cmd); split; auto using scatter_bytes, map_bytes.
  apply upd_bytes; [exact Hd|]. unfold gather. apply Forall_concat, Forall_map, Forall_forall. intros r _. apply map_bytes, Hm.
Qed.
#[export, refine] Instance toy_port : sata_port toy_hba tcontroller tport 1 := {
  mem x s := byte_of (tmem s) x; dsk x s := byte_of (tdsk s) x; clb s := tclb s mod 2 ^ 32; busy := tbusy; task := ttask }.
Proof.
  - intros x s. apply byte_of_bytes.
  - intros s. apply Z.mod_pos_bound. lia.
  - reflexivity.
  - intros o b s _ Hb. cbn. split; [|auto]. intros x. unfold byte_of. cbn [tmem]. destruct (x =? _); [apply Z.mod_small, Hb|reflexivity].
  - intros r s Hr. repeat (apply elem_of_cons in Hr as [->|Hr]; [cbn; auto|]). inversion Hr.
  - intros s. split; reflexivity.
  - reflexivity.
  - reflexivity.
  - intros s. cbn. change (tport + px_tfd =? tport + px_clb) with false. change (tport + px_tfd =? tport + px_ci) with false. rewrite Z.eqb_refl. cbn. destruct (ttask s); cbn; auto 10.
  - intros s. cbn. change (tport + px_ci =? tport + px_clb) with false. rewrite Z.eqb_refl. destruct (tbusy s) as [[slot n]|] eqn:E; cbn; rewrite ?E; auto 6.
  - intros v s. cbn. auto.
  - intros slot s cmd Hb Ht Hs Hd _. change (wr (tport + px_ci) (2 ^ slot) s) with (toy_issue (Z.log2 (2 ^ slot)) s). rewrite Z.log2_pow2 by lia.
    unfold toy_issue. rewrite Ht. cbn [Nat.eqb negb]. change (fun x => byte_of (tmem s) x) with (byte_of (tmem s)) in Hd. rewrite Hd. cbn [tmem tdsk tclb tbusy].
    destruct (run_bytes cmd _ _ (byte_of_bytes (tmem s)) (byte_of_bytes (tdsk s))) as [B1 B2].
    split; [intros x; exact (byte_of_id _ x B1)|]. split; [intros x; exact (byte_of_id _ x B2)|]. split; [reflexivity|]. exists 0%nat. split; [lia|reflexivity].
Defined.
(** The header at the beginning of the window names a table at 0x1000; the drive is busy for
    three readings; the disk counts. *)
Definition toy_sata : toy_hba := mk_toy (upd (fun _ => 0) 0x100008 (le_bytes 8 0x101000)) (fun x => x) 0x100000 None 3.
Lemma ahci_access_correct_witness : exists s', ahci_access 10 5 false (mk_adrive tcontroller tport SATA) 3 2 0 toy_sata = Ok (true, s') /\
  tbusy s' = None /\ mem 0x200007 s' = 7 /\ mem 0x2003FF s' = 255.
Proof.
  destruct (ahci_access_correct (S := toy_hba) (H := toy_hba_ops) (A := toy_port) tcontroller tport 1 10 5 false (mk_adrive tcontroller tport SATA) 3 2 0 (fun a => a + 0x200000) 0 0x1000 toy_sata ltac:(intros; reflexivity) ltac:(intros i _; cbv beta; lia)) as (s' & Ea & B & M & _).
  - constructor; [cbn; auto with lia|cbn; unfold window_size; lia|cbn; unfold window_size; lia|reflexivity|cbn; lia| |reflexivity|vm_compute; reflexivity|].
    + constructor; unfold window_size; lia.
    + unfold is_u32, window_size. cbn [phys_base tcontroller]. lia.
  - unfold is_u32. lia.
  - lia.
  - lia.
  - exists s'. split; [exact Ea|]. split; [exact B|]. split; [exact (M 7 ltac:(lia))|exact (M 0x3FF ltac:(lia))].
Defined.
